(* ===== verification/_CoqProject ===== *)
-Q . S2P
Prelude.v
Steps.v
PyData.v
PyText.v
Profiles.v
Rotation.v
Recovery.v
NodeGroups.v
Dns.v
RouteChains.v
AppPolicy.v
Rules.v
RuleRoutes.v
RuleStore.v
StateManager.v
WatchdogPolicy.v
Health.v
Watchdog.v
WatchdogSafety.v
WatchdogLifecycle.v
KillSwitch.v
KillSwitchPolicy.v
KillSwitchInspect.v
KillSwitchRun.v
Protocol.v
Worker.v
WorkerSafety.v
Provision.v
ProvisionEngine.v
ProvisionLog.v
ProvisionSafety.v
Provisioning.v
Support.v
Resolver.v
PyUrl.v
DnsPolicy.v
DnsConfig.v
DnsRouting.v
DnsHost.v
OpenVpn.v
Endpoint.v
ProfileSchema.v
SingBox.v
SingBoxConfig.v
RuntimePaths.v
SingBoxRun.v
SingBoxSafety.v
OpenVpnDriver.v
OpenVpnSafety.v
NativePolicy.v
CloakDriver.v
CloakSafety.v
AmneziaWg.v
AwgSafety.v
