(* ===== verification/Prelude.v ===== *)
(** * WatchdogVPN: a verification of the control plane

    WatchdogVPN is a Python daemon and command line that keeps one VPN tunnel up: it chooses a
    profile, starts the driver for it (sing-box, OpenVPN, Cloak, AmneziaWG), checks the health of the
    tunnel, rotates to another profile when it fails, and guards the host with a firewall kill
    switch while the VPN is desired.  This library is a shallow embedding of the decision logic
    of that control plane: pure functions are Rocq functions, methods that mutate objects or
    call the outside world are computations of the monad [PyM] (state passing with Python
    exceptions, below), and everything outside the repository is an interface.

    ** Parts and files

    - [Prelude]: exceptions, the monads [res] and [PyM], partial-correctness triples, Python
      strings, stable sorting, floats, list lemmas.  [Steps]: computations that only make steps of a
      preorder, the hint database and the tactic that decompose them, calls that keep a log, inversion
      of computations.
      [PyData]: JSON-like values, dicts in insertion order and the validators of
      config/persistence.py.  [PyText]: the parts of [re], [shlex], [ipaddress] and [int] that the
      kill switch uses.
    - [Profiles]: models/profile.py, models/provider.py, models/connection_state.py and the two
      stores of config/.
    - [Rotation]: rotation/rotation_engine.py over the interface [RotationEnv] (driver calls, clock,
      sleep).  [Recovery]: rotation/recovery.py.  [Health]: rotation/health_checker.py and
      health_targets.py over [HealthEnv].
    - [NodeGroups]: rotation/pool_builder.py and node_groups/ (documents, store, membership,
      scoring, selection).
    - [Dns], [DnsPolicy]: the data and the documents of dns/models.py and dns/resolver_parser.py,
      on [PyUrl] ([urlsplit] and [ip_network]).  [DnsConfig]: dns/singbox.py; [DnsRouting] proves
      what a query meets in the generated configuration.  [DnsHost]: dns/resolver_inventory.py,
      state_manager.py and hijack.py over [HostEnv] (commands and the resolver file).
    - [OpenVpn]: parsers/openvpn_safety.py, which OpenVPN texts are accepted.  [Endpoint]:
      parsers/endpoint_policy.py, which remote hosts are accepted, for any resolver; these are the
      validations that the watchdog asks for before it starts a driver.
    - [RouteChains]: route_chains/.  [AppPolicy]:
      app_policy/.  [Rules], [RuleRoutes], [RuleStore]: rules/models.py and rule_engine.py,
      rules/singbox.py, rules/rule_store.py.
    - [StateManager]: config/state_manager.py.
    - [WatchdogPolicy] and [Watchdog]: core/watchdog.py, first the decisions that only read the
      stores, then the runtime over [WatchdogEnv] (drivers, kill switch, DNS snapshot, clock, files).
      [WatchdogSafety] and [WatchdogLifecycle] prove its safety and its abstract lifecycle.
    - [KillSwitch]: core/kill_switch.py over [KillSwitchEnv] (command execution).
      [KillSwitchPolicy], [KillSwitchInspect], [KillSwitchRun] prove what the generated rules let
      out, what an inspection establishes, and what the operations leave installed.
    - [Protocol]: the messages of daemon/protocol.py.  [Worker]: daemon/runtime_worker.py and
      the dispatch of daemon/ipc_server.py, as handlers over a runtime and as a step relation
      for the threads that share the command records.  [WorkerSafety] proves its invariants.
    - [Provision]: compat/provisioning/model.py and the journal of journal.py.
      [ProvisionEngine]: compat/provisioning/engine.py, which installs and removes host
      components behind a write-ahead journal, over [ProvEnv] (executors, journal and
      ownership files, paths, clock).  [ProvisionLog] judges the log of what it asks of the
      outside, [ProvisionSafety] specifies each operation over the log, [Provisioning] proves
      the theorems about whole calls.
    - [Support]: compat/support_model.py, the support class of a distribution and the ageing of
      its evidence.  [Resolver]: compat/dependency_resolution.py, which decides by which method a
      missing dependency may be provided; its decision is what the engine prepares.

    - [ProfileSchema]: the semantic validation of profiles.  [SingBox]: the generator of
      drivers/singbox_driver.py, from a profile and the policies to the document that sing-box runs;
      [SingBoxConfig] proves what such a document contains.
    - [RuntimePaths]: drivers/runtime_paths.py over [ProcHost] (/proc, signals, files, clock): the
      records of child processes, how they are matched and stopped.  [SingBoxRun]: the rest of
      drivers/singbox_driver.py over [RunHost] (commands, processes, files); [SingBoxSafety] proves
      what it does to the host.
    - [OpenVpnDriver]: drivers/openvpn_driver.py and openvpn_process.py; [OpenVpnSafety] its routes.
      [CloakDriver]: drivers/openvpn_cloak_driver.py; [CloakSafety] its routes and its teardown.
      [AmneziaWg]: drivers/amneziawg_driver.py; [AwgSafety] the configuration it hands on.
    - [NativePolicy]: drivers/native_policy_driver.py, a native transport under the sing-box policy
      runtime, over the interfaces [NativeTransport] and [PolicyCompanion]; the OpenVPN and the
      sing-box driver are instances of them.

    The watchdog calls the rotation engine, the recovery policy, the health checks and the pool
    decisions as the code does; the runtime worker calls the watchdog; the interfaces of the
    lower layers are discharged by the upper ones where the code builds them (the watchdog's
    [RotationEnv] and [HealthEnv] are made of its own operations).

    ** What the theorems show

    - Tunnels: outside node-group auto tests no driver is started before the previous one is
      verifiably down and the kill switch is in force for the new profile, over every interface and
      every sequence of operations; an auto test starts candidates only over idle drivers and a kill
      switch reported off; rotation cleans up after each failed candidate, is bounded, rate limited
      and keeps a bounded history; recovery never stops retrying and its delays have a closed form.
    - Lifecycle: with writes of the state file that succeed, a manual connect or disconnect that
      returns ends in one of the states that an abstract machine allows, with the failure recorded,
      and the states that a raising connect leaves are listed; with the VPN desired off, or a state
      file that cannot be read, automatic paths have no effect and answer standby (a scheduled
      rotation may answer the recorded failure instead); shutdown stays fail-closed.
    - Kill switch: the nftables and iptables rules let out exactly the packets of a policy stated
      on packets, in which DNS is let out only on the loopback, through the tunnel or to its DNS server,
      as the daemon's marked direct egress, or to an allowed endpoint; the inspection agrees with the generator rule by rule; an atomic
      application is a single change that leaves the old or the complete new policy.
    - Selection: candidate pools, node groups and scores are characterised exactly, independent of
      the iteration order of Python sets, and fail closed on a missing group.
    - Documents: what the stores write satisfies the type invariant.  For the rule store this holds
      on a file system that may refuse any write: from an empty directory, a call that fails leaves
      the existing groups as they were and overwrites no backup.  A state that loads is canonical,
      and its text loads as the same state when tomli_w is installed or its strings need no escapes;
      one theorem shows that the fallback renderer changes a string with a backslash.
    - Routing: for rules with at most one condition of each sing-box field family, and traffic on
      which sing-box matches single conditions as the engine does, the route table decides as the
      rule engine does (one theorem shows a rule of two families on which it does not); unresolved
      chains and groups block instead of leaking.
    - DNS: the generated configuration decides every query as the policy does, keeps queries in
      the tunnel when the policy does, and is generated for every usable policy; its check of
      dependencies is exact; policies survive saving.  One theorem shows an accepted policy on
      which the generation raises.  The settings of NetworkManager survive applying and restoring
      the local resolver, failures included.
    - Imported profiles: accepted OpenVPN texts hold only approved directives for a reader of
      newline-terminated lines (and one theorem shows that other line ends break this); accepted
      endpoints are public or captured, and an OpenVPN endpoint is the address its text names.
    - Drivers: in a generated sing-box document every route leads to an outbound of the document
      (with one exception, a direct default route that nothing adds), the management paths come first
      and stay outside the tunnel, and so does the resolver of the tunnel's own host, for profiles
      without a reserved name.  A connect ends in the session it reports; forwarding is switched on only
      behind the firewall; a status read of sing-box only observes; signals go only to processes that
      match their records, and stopping them ends.  Over every host and every sequence of calls the
      OpenVPN driver deletes only a route it added, the Cloak driver only routes that its snapshot
      lacks and its log claims, and a teardown of the latter that is not verified forgets nothing.
      No hook of an AmneziaWG profile whose section headers have their lines to themselves reaches
      awg.  The policy runtime starts only over a transport that is connected and has an interface,
      with the addresses of the peer outside its tunnel; a connect of the composition that fails
      keeps the old session untouched, or asks the transport to stop, unless the companion itself
      does not stop.  An example shows a companion that raises and so strands its transport, a
      theorem that a failed disconnect of sing-box is forgotten by the next one.
    - Daemon: messages round-trip; every mutating command is executed at most once and never
      after its cancellation was acknowledged, under every interleaving of client threads;
      every queued request is answered, with what the runtime's handler returned for it or as
      cancelled without execution; final outcomes do not change and exactly the last 512 are retained.
    - Provisioning: over every environment and sequence of calls, no resource is touched unless
      every journal that the disk may hold records it, whatever write failed; ownership is
      published only after full verification; an uninterrupted transaction ends as its outcome
      says.  Two theorems show inputs on which rollback and recovery raise.  The resolver picks
      the first candidate that its own facts do not rule out, and only an implemented and confirmed
      source build for the exact target, pinned to a commit or declared to follow the latest official
      release, ever makes the engine act; support classes fall only when evidence expires.

    ** Abstractions and bounds

    A [str] is a string of code points below 256, with CPython's character classes there.
    Floats are rationals with infinities and NaN; rounding is not modelled.  A dict is an
    association list in insertion order, a [set] is iterated in an order given by an instance of
    [PySet].  [PyStr] stands for [repr] of compound values and float literals, [PyRegex] for
    user-supplied regular expressions, parameters for how sing-box matches a DNS rule and the single
    fields of a route rule, [PyNet] for address membership; JSON text is a pair of functions with the
    round trip of [json], TOML text a reader and an optional writer with their laws.
    Each interface is a record or class with the laws the code relies on and an instance that
    satisfies them.  Operations of the watchdog are atomic with respect to other processes;
    mutation of a profile object is visible only through its store; a driver's status object
    is fresh.  A provisioning journal is read back with the types with which it was written; a
    crash is a prefix of the log of requests, and a write that raised may have reached the disk.
    The compatibility manifest is the validated one, and an availability provider answers the
    same question in the same way during one resolution.  Definitions are total: loops of the source are structural recursions over the
    data they walk; the search of a free rule-group name has fuel for one attempt per file and
    one more, which is proved to be enough; hexadecimal printing has the bit length as fuel; the
    depth-first check of DNS servers has fuel for every dependency and two more, proved enough.
    Loops that poll until a deadline have fuel for one poll per interval and one more: 26 attempts
    to identify a process, 51 polls for its exit (proved enough for a clock that does not run
    backwards), 31 polls of the proxy and of the tunnel device, 41 and 61 of the readiness of
    OpenVPN and of Cloak, 51 and 101 of the interface and of the socket of AmneziaWG.  A host whose
    clock stands still makes such a loop raise instead of running forever; the theorems about
    drivers hold of that outcome too.

    ** Not modelled

    File locking, the steps of an atomic file replacement (a write is done, refused, or fails after
    its publication) and archives (config/persistence.py, backup_manager.py);
    what sing-box, OpenVPN, Cloak, awg, ip and nft do with the files and commands they are given,
    and the logging of the drivers; the privileged NetworkManager helper and its root-owned
    registry; the DNS tester and the privileged restore of dns/; parsers of third-party profile formats; the descriptors, hashes and
    file locks under the provisioning engine, and the detection of the host; metrics, diagnostics
    and the command line, which only present the components above. *)
From stdpp Require Import base list strings gmap pretty sorting.
From Stdlib Require Import Ascii QArith Lqa.
#[global] Open Scope string_scope.
#[global] Open Scope list_scope.

(** ** Exceptions and results

    A Python exception is a class and a message.  The classes are the ones the
    modelled files raise or catch; [PersistentValidationError] is a subclass of
    [PersistentStoreError] (config/persistence.py), [RuleParseError] of
    [ValueError] (rules/rule_parser.py). *)
Inductive exn_kind : Type :=
| ValueError | KeyError | IndexError | TypeError | AttributeError | RuntimeError | OverflowError
| PersistentStoreError | PersistentValidationError
| RuleStoreError | NodeGroupStoreError | RuleParseError | ProviderLimitError | DuplicateProviderError
| UnsupportedDriverPolicyError | ManagementPathSafetyError
| EndpointPolicyConnectionError | TeardownBarrierError
| ProtocolError | MalformedMessageError | UnsupportedVersionError | UnexpectedMessageTypeError
| UnknownCommandError | UnknownEventError | UnsupportedPayloadFieldsError
| DomainError | DependencyResolutionError | ResolverParseError | EndpointPolicyError
| OpenVPNConfigValidationError | ParseError | DetectionError
| DNSStateError | DNSHijackError | NetworkManagerRestoreError | RuleSetLifecycleError
| ProvisioningError | InvalidTransitionError | ExecutorNotRegisteredError | ExecutionNotReadyError
| PathPolicyError | IdentifierError | DurabilityError | ProvisionerLockHeldError | JournalError
| StateRootIdentityError | CorruptStateError
| ProfileSemanticValidationError | RuleImportError | RuleSetTrustStoreError | RuleSetRuntimeError
| ProviderNotFoundError | ProviderProfileTransactionError | BackupError | BackupValidationError
| ManifestError | OwnershipError | RecoveryRequiredError | UnicodeError | JSONDecodeError
| SubprocessError | TimeoutExpired
| OSError | FileNotFoundError | PermissionError | ProcessLookupError
| OtherError.

#[global] Instance exn_kind_eq_dec : EqDecision exn_kind.
Proof. solve_decision. Defined.

Record exn : Type := Exn { exn_class : exn_kind; exn_message : string }.

#[global] Instance exn_eq_dec : EqDecision exn.
Proof. solve_decision. Defined.

(** [except C] catches [e]: the class itself or one of its subclasses. *)
Definition is_instance (e : exn) (k : exn_kind) : bool :=
  bool_decide (exn_class e = k) ||
  match k with
  | PersistentStoreError => bool_decide (exn_class e ∈ [PersistentValidationError; BackupError; BackupValidationError])
  | PersistentValidationError => bool_decide (exn_class e = BackupValidationError)
  | ValueError =>
      bool_decide (exn_class e ∈ [RuleParseError; ProviderLimitError; DuplicateProviderError; ProtocolError;
        MalformedMessageError; UnsupportedVersionError; UnexpectedMessageTypeError; UnknownCommandError;
        UnknownEventError; UnsupportedPayloadFieldsError; DomainError; DependencyResolutionError;
        ResolverParseError; EndpointPolicyError; OpenVPNConfigValidationError; ParseError; DetectionError;
        ProfileSemanticValidationError; RuleImportError; ProviderNotFoundError; ManifestError; UnicodeError; JSONDecodeError])
  | ProtocolError =>
      bool_decide (exn_class e ∈ [MalformedMessageError; UnsupportedVersionError; UnexpectedMessageTypeError;
        UnknownCommandError; UnknownEventError; UnsupportedPayloadFieldsError])
  | MalformedMessageError => bool_decide (exn_class e = UnsupportedPayloadFieldsError)
  | RuntimeError =>
      bool_decide (exn_class e ∈ [PersistentStoreError; PersistentValidationError;
        RuleStoreError; NodeGroupStoreError; UnsupportedDriverPolicyError; ManagementPathSafetyError;
        EndpointPolicyConnectionError; TeardownBarrierError; ProvisioningError; InvalidTransitionError;
        ExecutorNotRegisteredError; ExecutionNotReadyError; PathPolicyError; IdentifierError; DurabilityError;
        ProvisionerLockHeldError; JournalError; StateRootIdentityError; CorruptStateError;
        DNSStateError; DNSHijackError; NetworkManagerRestoreError; RuleSetLifecycleError; RuleSetRuntimeError;
        RuleSetTrustStoreError; ProviderProfileTransactionError; BackupError; BackupValidationError; OwnershipError;
        RecoveryRequiredError])
  | ProvisioningError =>
      bool_decide (exn_class e ∈ [InvalidTransitionError; ExecutorNotRegisteredError; ExecutionNotReadyError;
        PathPolicyError; IdentifierError; DurabilityError; ProvisionerLockHeldError; JournalError;
        StateRootIdentityError; CorruptStateError; OwnershipError; RecoveryRequiredError])
  | RuleSetLifecycleError => bool_decide (exn_class e = RuleSetRuntimeError)
  | SubprocessError => bool_decide (exn_class e = TimeoutExpired)
  | OSError => bool_decide (exn_class e ∈ [FileNotFoundError; PermissionError; ProcessLookupError])
  | _ => false
  end.

(** The outcome of a call that can raise. *)
Inductive res (A : Type) : Type :=
| Ok (a : A)
| Err (e : exn).
Arguments Ok {A} a.
Arguments Err {A} e.

#[global] Instance res_ret : MRet res := @Ok.
#[global] Instance res_bind : MBind res := fun A B f m =>
  match m with Ok a => f a | Err e => Err e end.
#[global] Instance res_fmap : FMap res := fun A B f m =>
  match m with Ok a => Ok (f a) | Err e => Err e end.

Definition raise {A} (k : exn_kind) (msg : string) : res A := Err (Exn k msg).

(** [if not b: raise k(msg)] *)
Definition ensure (b : bool) (k : exn_kind) (msg : string) : res unit :=
  if b then Ok tt else raise k msg.

(** A list comprehension whose element expression can raise. *)
Fixpoint map_res {A B} (f : A → res B) (l : list A) : res (list B) :=
  match l with
  | [] => Ok []
  | x :: l' => y ← f x; ys ← map_res f l'; Ok (y :: ys)
  end.

Lemma map_res_roundtrip {A B} (f : B → res A) (g : A → B) (P : A → Prop) l :
  (∀ a, P a → f (g a) = Ok a) → Forall P l → map_res f (map g l) = Ok l.
Proof. intros H. induction 1 as [|a l Ha _ IH]; [done|]. cbn. by rewrite H, IH. Qed.

Lemma map_res_Forall {A B} (f : A → res B) (P : B → Prop) l r :
  (∀ a b, f a = Ok b → P b) → map_res f l = Ok r → Forall P r.
Proof.
  intros H. revert r. induction l as [|a l IH]; cbn; intros r; [by intros [= <-]|].
  destruct (f a) eqn:Ea; cbn; [|done]. destruct (map_res f l); cbn; [|done].
  intros [= <-]. constructor; eauto.
Qed.

Lemma map_res_map {A B C} (f : B → res C) (g : A → B) l :
  map_res f (map g l) = map_res (fun a => f (g a)) l.
Proof. induction l as [|a l IH]; [done|]. cbn. by rewrite IH. Qed.

Lemma map_res_ok_inv {A B} (f : A → res B) l ys :
  map_res f l = Ok ys → Forall2 (fun x y => f x = Ok y) l ys.
Proof.
  revert ys. induction l as [|x l IH]; intros ys; cbn; [intros [= <-]; constructor|].
  destruct (f x) eqn:E; cbn; [|done]. destruct (map_res f l); cbn; [|done].
  intros [= <-]. constructor; auto.
Qed.

(** Inverts a chain of successful binds in a hypothesis. *)
Ltac inv_res H :=
  repeat match type of H with
  | mbind _ ?m = Ok _ =>
      let E := fresh "E" in destruct m eqn:E; cbn in H; [|discriminate H]
  | ensure ?b _ _ = Ok _ => destruct b eqn:?; cbn in H; [|discriminate H]
  | (match ?x with _ => _ end) = Ok _ => destruct x eqn:?; cbn in H; try discriminate H
  end.

(** ** State with exceptions: methods that mutate objects and can raise.
    The state reached so far is kept when an exception propagates. *)
Definition PyM (S A : Type) : Type := S → res A * S.

#[global] Instance pym_ret {S} : MRet (PyM S) := fun A a s => (Ok a, s).
#[global] Instance pym_bind {S} : MBind (PyM S) := fun A B f m s =>
  match m s with
  | (Ok a, s') => f a s'
  | (Err e, s') => (Err e, s')
  end.

Definition getS {S} : PyM S S := fun s => (Ok s, s).
Definition gets {S A} (f : S → A) : PyM S A := fun s => (Ok (f s), s).
Definition modifyS {S} (f : S → S) : PyM S unit := fun s => (Ok tt, f s).
Definition liftR {S A} (r : res A) : PyM S A := fun s => (r, s).
Definition raiseM {S A} (k : exn_kind) (msg : string) : PyM S A := liftR (raise k msg).

(** [try: m  except <handled> as e: h e] *)
Definition try_except {S A} (m : PyM S A) (handled : exn → bool) (h : exn → PyM S A)
  : PyM S A := fun s =>
  match m s with
  | (Ok a, s') => (Ok a, s')
  | (Err e, s') => if handled e then h e s' else (Err e, s')
  end.

(** [try: m  finally: f]: an exception of [f] replaces the outcome of [m]. *)
Definition try_finally {S A} (m : PyM S A) (f : PyM S unit) : PyM S A := fun s =>
  let '(r, s') := m s in
  match f s' with
  | (Ok _, s'') => (r, s'')
  | (Err e, s'') => (Err e, s'')
  end.

(** [except Exception] *)
Definition any_exn (_ : exn) : bool := true.

(** Partial-correctness triples over both outcomes. *)
Definition hoare {S A} (P : S → Prop) (m : PyM S A) (Q : res A → S → Prop) : Prop :=
  ∀ s, P s → Q (m s).1 (m s).2.

Lemma hoare_ret {S A} (P : S → Prop) (a : A) (Q : res A → S → Prop) :
  (∀ s, P s → Q (Ok a) s) → hoare P (mret a) Q.
Proof. intros H s Hs. apply H, Hs. Qed.

Lemma hoare_bind {S A B} (P : S → Prop) (m : PyM S A) (f : A → PyM S B)
    (R : A → S → Prop) (Q : res B → S → Prop) :
  hoare P m (fun r s => match r with Ok a => R a s | Err e => Q (Err e) s end) →
  (∀ a, hoare (R a) (f a) Q) →
  hoare P (m ≫= f) Q.
Proof.
  intros Hm Hf s Hs. specialize (Hm s Hs). unfold mbind, pym_bind.
  destruct (m s) as [[a|e] s']; cbn in *; [by apply Hf | done].
Qed.

Lemma hoare_conseq {S A} (P P' : S → Prop) (m : PyM S A) (Q Q' : res A → S → Prop) :
  hoare P' m Q' → (∀ s, P s → P' s) → (∀ r s, Q' r s → Q r s) → hoare P m Q.
Proof. unfold hoare. eauto. Qed.

Lemma hoare_and {S A} (P P' : S → Prop) (m : PyM S A) (Q Q' : res A → S → Prop) :
  hoare P m Q → hoare P' m Q' →
  hoare (fun s => P s ∧ P' s) m (fun r s => Q r s ∧ Q' r s).
Proof. intros H1 H2 s [? ?]. split; [by apply H1 | by apply H2]. Qed.

Lemma hoare_modify {S} (P : S → Prop) (f : S → S) (Q : res unit → S → Prop) :
  (∀ s, P s → Q (Ok tt) (f s)) → hoare P (modifyS f) Q.
Proof. intros H s Hs. apply H, Hs. Qed.

Lemma hoare_gets {S A} (P : S → Prop) (f : S → A) (Q : res A → S → Prop) :
  (∀ s, P s → Q (Ok (f s)) s) → hoare P (gets f) Q.
Proof. intros H s Hs. apply H, Hs. Qed.

Lemma hoare_lift {S A} (P : S → Prop) (r : res A) (Q : res A → S → Prop) :
  (∀ s, P s → Q r s) → hoare P (liftR r) Q.
Proof. intros H s Hs. apply H, Hs. Qed.

Lemma hoare_try {S A} (P : S → Prop) (m : PyM S A) (hd : exn → bool) (h : exn → PyM S A) (Q : res A → S → Prop)
    (R : exn → S → Prop) :
  hoare P m (fun r s => match r with
                        | Ok a => Q (Ok a) s
                        | Err e => if hd e then R e s else Q (Err e) s
                        end) →
  (∀ e, hd e = true → hoare (R e) (h e) Q) →
  hoare P (try_except m hd h) Q.
Proof.
  intros Hm Hh s Hs. specialize (Hm s Hs). unfold try_except.
  destruct (m s) as [[a|e] s']; cbn in *; [done|].
  destruct (hd e) eqn:E; [by apply Hh | done].
Qed.

(** ** Python strings

    A Python [str] is modelled by a Rocq [string] whose characters are the code
    points below 256; the character classes are the ones CPython uses there. *)

(** [str.isspace] on a code point below 256. *)
Definition is_space (c : ascii) : bool :=
  let n := N_of_ascii c in
  ((9 <=? n) && (n <=? 13))%N || ((28 <=? n) && (n <=? 32))%N
  || (n =? 133)%N || (n =? 160)%N.

Fixpoint lstrip_by (p : ascii → bool) (s : string) : string :=
  match s with
  | "" => ""
  | String c s' => if p c then lstrip_by p s' else s
  end.

Fixpoint rstrip_by (p : ascii → bool) (s : string) : string :=
  match s with
  | "" => ""
  | String c s' =>
      let r := rstrip_by p s' in
      if p c && String.eqb r "" then "" else String c r
  end.

(** [str.strip()] and [str.lstrip()] *)
Definition strip (s : string) : string := rstrip_by is_space (lstrip_by is_space s).
Definition lstrip (s : string) : string := lstrip_by is_space s.

(** [s.rstrip(".")] *)
Definition rstrip_dots (s : string) : string := rstrip_by (Ascii.eqb ".") s.

Definition lower_char (c : ascii) : ascii :=
  let n := N_of_ascii c in
  if ((65 <=? n) && (n <=? 90) || (192 <=? n) && (n <=? 222) && negb (n =? 215))%N
  then ascii_of_N (n + 32) else c.

(** [str.lower()] *)
Fixpoint lower (s : string) : string :=
  match s with
  | "" => ""
  | String c s' => String (lower_char c) (lower s')
  end.

(** [s.startswith(p)], [s.endswith(x)] and [x in s] *)
Definition startswith (p s : string) : bool := String.prefix p s.

Fixpoint endswith (x s : string) : bool :=
  String.eqb s x || match s with "" => false | String _ s' => endswith x s' end.

Fixpoint contains (x s : string) : bool :=
  String.prefix x s || match s with "" => false | String _ s' => contains x s' end.

(** [s[n:]] *)
Fixpoint str_drop (n : nat) (s : string) : string :=
  match n, s with
  | S n', String _ s' => str_drop n' s'
  | _, _ => s
  end.

(** [s.split(sep)] for a one-character separator *)
Fixpoint split_on (sep : ascii) (s : string) : list string :=
  match s with
  | "" => [""]
  | String c s' =>
      if Ascii.eqb c sep then "" :: split_on sep s'
      else match split_on sep s' with
           | w :: ws => String c w :: ws
           | [] => [String c ""]
           end
  end.

(** [s.partition(sep)] for a one-character separator: the part before, whether
    the separator was found, the part after *)
Fixpoint partition_on (sep : ascii) (s : string) : string * bool * string :=
  match s with
  | "" => ("", false, "")
  | String c s' =>
      if Ascii.eqb c sep then ("", true, s')
      else let '(l, f, r) := partition_on sep s' in (String c l, f, r)
  end.

Fixpoint forall_chars (p : ascii → bool) (s : string) : bool :=
  match s with
  | "" => true
  | String c s' => p c && forall_chars p s'
  end.

Definition newline : ascii := "010".

(** [bool(s)] *)
Definition truthy_str (s : string) : bool := negb (String.eqb s "").

Lemma rstrip_nonspace_head p c s :
  p c = false → rstrip_by p (String c s) = String c (rstrip_by p s).
Proof. intros H. cbn. by rewrite H. Qed.

Lemma rstrip_by_idem p s : rstrip_by p (rstrip_by p s) = rstrip_by p s.
Proof.
  induction s as [|c s IH]; [done|]. cbn.
  destruct (p c && String.eqb (rstrip_by p s) "") eqn:E; [done|].
  cbn. by rewrite IH, E.
Qed.

Lemma lstrip_by_shape p s :
  lstrip_by p s = "" ∨ ∃ c s', lstrip_by p s = String c s' ∧ p c = false.
Proof.
  induction s as [|c s IH]; [by left|]. cbn. destruct (p c) eqn:E; [done|].
  right. eauto.
Qed.

Lemma lstrip_by_id p c s : p c = false → lstrip_by p (String c s) = String c s.
Proof. intros H. cbn. by rewrite H. Qed.

Lemma strip_shape s :
  strip s = "" ∨ ∃ c s', strip s = String c (rstrip_by is_space s') ∧ is_space c = false.
Proof.
  unfold strip. destruct (lstrip_by_shape is_space s) as [->|(c & s' & -> & E)]; [by left|].
  right. exists c, s'. by rewrite rstrip_nonspace_head.
Qed.

(** [s.strip().strip() == s.strip()] *)
Lemma strip_idem s : strip (strip s) = strip s.
Proof.
  destruct (strip_shape s) as [->|(c & s' & -> & E)]; [done|].
  unfold strip. rewrite lstrip_by_id by done.
  rewrite rstrip_nonspace_head by done. by rewrite rstrip_by_idem.
Qed.

(** A string stripped on the right by [p] has no [p]-character at its end. *)
Lemma rstrip_by_last p s c : p c = true → ∀ t, rstrip_by p s ≠ t +:+ String c "".
Proof.
  intros Hc. induction s as [|d s IH]; intros t; cbn.
  - by destruct t.
  - destruct (p d && String.eqb (rstrip_by p s) "") eqn:E; [by destruct t|].
    destruct t as [|d' t]; cbn; intros [= -> Hr].
    + by rewrite Hr, Hc in E.
    + by eapply IH.
Qed.

Lemma strip_no_final_newline s t : strip s ≠ t +:+ String newline "".
Proof. unfold strip. by apply rstrip_by_last. Qed.

Lemma truthy_str_ne s : truthy_str s = true ↔ s ≠ "".
Proof. unfold truthy_str. rewrite negb_true_iff. apply String.eqb_neq. Qed.

Lemma append_inj_l (a b c : string) : a +:+ b = a +:+ c → b = c.
Proof. induction a as [|x a IH]; cbn; [done|]. intros [= E]. auto. Qed.

Lemma partition_found c s : (partition_on c s).1.2 = contains (String c "") s.
Proof.
  induction s as [|x s IH]; [done|]. cbn [partition_on contains].
  destruct (Ascii.eqb_spec x c) as [->|Hne].
  - cbn [fst snd String.prefix]. destruct (ascii_dec c c); [by destruct s|done].
  - destruct (partition_on c s) as [[a b] t]. cbn in IH |- *. rewrite <- IH.
    destruct (ascii_dec c x); [congruence|done].
Qed.

Lemma lower_char_idem c : lower_char (lower_char c) = lower_char c.
Proof. destruct c as [[] [] [] [] [] [] [] []]; reflexivity. Qed.

Lemma lower_idem s : lower (lower s) = lower s.
Proof. induction s as [|c s IH]; cbn [lower]; [done|]. by rewrite lower_char_idem, IH. Qed.

Lemma lower_rstrip p s : lower s = s → lower (rstrip_by p s) = rstrip_by p s.
Proof.
  induction s as [|c s IH]; cbn [lower rstrip_by]; [done|]. intros Hs. assert (Hc : lower_char c = c) by congruence.
  assert (IH' : lower (rstrip_by p s) = rstrip_by p s) by (apply IH; congruence).
  destruct (p c && String.eqb (rstrip_by p s) ""); cbn [lower]; congruence.
Qed.

(** ** Stable sorting: [sorted(l, key=k)] with [lt a b] for [k(a) < k(b)].

    Like CPython's sort, only [<] is consulted and equal elements keep their
    order; on a strict weak order every stable sort gives this list. *)
Section sorting.
Context {A : Type} (lt : A → A → bool).

Fixpoint sort_insert (x : A) (l : list A) : list A :=
  match l with
  | [] => [x]
  | y :: l' => if lt y x then y :: sort_insert x l' else x :: y :: l'
  end.

Definition py_sorted (l : list A) : list A := foldr sort_insert [] l.

Lemma sort_insert_perm x l : sort_insert x l ≡ₚ x :: l.
Proof.
  induction l as [|y l IH]; cbn; [done|]. destruct (lt y x); [|done].
  rewrite IH. apply Permutation_swap.
Qed.

Lemma py_sorted_perm l : py_sorted l ≡ₚ l.
Proof. induction l as [|x l IH]; cbn; [done|]. by rewrite sort_insert_perm, IH. Qed.

Definition not_after (a b : A) : Prop := lt b a = false.

(** [P] delimits the elements on which [lt] is a strict weak order. *)
Context (P : A → Prop).
Context (Hasym : ∀ a b, P a → P b → lt a b = true → lt b a = false).
Context (Htrans : ∀ a b c, P a → P b → P c → lt b a = false → lt c b = false → lt c a = false).

Lemma sort_insert_sorted x l :
  P x → Forall P l → StronglySorted not_after l → StronglySorted not_after (sort_insert x l).
Proof using All.
  intros Hx HP. induction 1 as [|y l Hl IH Hy]; cbn; [repeat constructor|].
  apply Forall_cons in HP as [Py Pl]. destruct (lt y x) eqn:E.
  - constructor; [by apply IH|]. rewrite sort_insert_perm. constructor; [|done].
    by apply Hasym.
  - constructor; [by constructor|]. constructor; [done|].
    rewrite Forall_forall in Hy, Pl |- *. intros z Hz.
    apply (Htrans x y z); auto. by apply Hy.
Qed.

Lemma py_sorted_sorted l : Forall P l → StronglySorted not_after (py_sorted l).
Proof using All.
  induction 1 as [|x l Hx Hl IH]; cbn; [constructor|].
  apply sort_insert_sorted; [done| |done]. fold (py_sorted l). by rewrite py_sorted_perm.
Qed.

(** When no two distinct elements have equal keys, the result depends only on
    the multiset of elements. *)
Lemma py_sorted_unique l1 l2 :
  Forall P l1 →
  (∀ a b, a ∈ l1 → b ∈ l1 → lt a b = false → lt b a = false → a = b) →
  l1 ≡ₚ l2 → py_sorted l1 = py_sorted l2.
Proof using All.
  intros HP Hanti Hp. apply (StronglySorted_unique_strong not_after).
  - intros a b Ha Hb Hab Hba. rewrite py_sorted_perm in Ha.
    rewrite py_sorted_perm, <- Hp in Hb. by apply Hanti.
  - by apply py_sorted_sorted.
  - apply py_sorted_sorted. by rewrite <- Hp.
  - by rewrite !py_sorted_perm.
Qed.
End sorting.

(** The head of a sorted list is not after any other element. *)
Lemma StronglySorted_head {A} (R : A → A → Prop) `{!Reflexive R} x l y :
  StronglySorted R (x :: l) → y ∈ x :: l → R x y.
Proof.
  intros H Hy. inversion H as [|?? _ Hf]; subst. rewrite Forall_forall in Hf.
  apply elem_of_cons in Hy as [->|Hy]; [done | by apply Hf].
Qed.

(** ** Binary64 values as exact rationals plus the three special values.
    Comparison, doubling and halving of the values that occur here are exact;
    differences of clock readings are taken exactly (rounding is not modelled). *)
Inductive pyfloat : Type := Fin (q : Q) | PInf | NInf | NaN.

Definition Qltb (a b : Q) : bool := negb (Qle_bool b a).

Lemma Qltb_spec a b : Qltb a b = true ↔ (a < b)%Q.
Proof.
  unfold Qltb. rewrite negb_true_iff. destruct (Qle_bool b a) eqn:E; split; try done.
  - apply Qle_bool_iff in E. lra.
  - intros _. apply Qnot_le_lt. intros H. apply Qle_bool_iff in H. congruence.
Qed.

Lemma Qltb_false a b : Qltb a b = false ↔ (b <= a)%Q.
Proof.
  unfold Qltb. rewrite negb_false_iff. apply Qle_bool_iff.
Qed.

(** [a < b] on floats *)
Definition flt (a b : pyfloat) : bool :=
  match a, b with
  | NaN, _ | _, NaN => false
  | Fin x, Fin y => Qltb x y
  | NInf, NInf | PInf, _ => false
  | NInf, _ | Fin _, PInf => true
  | Fin _, NInf => false
  end.

(** [math.isfinite] *)
Definition isfinite (a : pyfloat) : bool := match a with Fin _ => true | _ => false end.

(** ** Lists *)

(** [l[:n]] for an [int] bound: a negative bound counts from the end. *)
Definition py_take {A} (n : Z) (l : list A) : list A :=
  if (n <? 0)%Z then take (Z.to_nat (Z.of_nat (length l) + n)) l else take (Z.to_nat n) l.

(** [len(l)] as a Python integer *)
Definition py_len {A} (l : list A) : Z := Z.of_nat (length l).

(** [x in l] for strings *)
Definition str_in (x : string) (l : list string) : bool := existsb (String.eqb x) l.

Lemma str_in_spec x l : str_in x l = true ↔ x ∈ l.
Proof.
  unfold str_in. rewrite existsb_exists. setoid_rewrite String.eqb_eq.
  rewrite list_elem_of_In. split; [by intros (y & Hy & ->) | by exists x].
Qed.

Lemma str_in_false x l : str_in x l = false ↔ x ∉ l.
Proof. rewrite <- str_in_spec. destruct (str_in x l); naive_solver. Qed.

Lemma List_filter_elem_of {A} (f : A → bool) l x :
  x ∈ List.filter f l ↔ x ∈ l ∧ f x = true.
Proof. rewrite !list_elem_of_In. apply filter_In. Qed.

Lemma List_filter_nil {A} (f : A → bool) l :
  List.filter f l = [] ↔ ∀ x, x ∈ l → f x = false.
Proof.
  split.
  - intros H x Hx. destruct (f x) eqn:E; [|done].
    assert (Hf : x ∈ List.filter f l) by by apply List_filter_elem_of.
    rewrite H in Hf. by apply not_elem_of_nil in Hf.
  - intros H. induction l as [|x l IH]; [done|]. cbn.
    rewrite H by apply list_elem_of_here. apply IH. intros y Hy.
    by apply H, list_elem_of_further.
Qed.

Lemma List_filter_sublist {A} (f : A → bool) l : List.filter f l `sublist_of` l.
Proof. induction l as [|x l IH]; cbn; [done|]. destruct (f x); by constructor. Qed.

Lemma List_find_elem_of {A} (f : A → bool) l x :
  List.find f l = Some x → x ∈ l ∧ f x = true.
Proof. rewrite list_elem_of_In. apply find_some. Qed.

Lemma find_app {A} (f : A → bool) l1 l2 :
  List.find f (l1 ++ l2) = match List.find f l1 with Some x => Some x | None => List.find f l2 end.
Proof. induction l1 as [|x l1 IH]; cbn; [done|]. by destruct (f x). Qed.

Lemma Forall2_elem_l {A B} (P : A → B → Prop) xs ys x : Forall2 P xs ys → x ∈ xs → ∃ y, y ∈ ys ∧ P x y.
Proof. induction 1 as [|a b xs ys Hp _ IH]; [by intros ?%not_elem_of_nil|]. intros [->|Hx]%elem_of_cons; set_solver. Qed.
Lemma Forall2_elem_r {A B} (P : A → B → Prop) xs ys y : Forall2 P xs ys → y ∈ ys → ∃ x, x ∈ xs ∧ P x y.
Proof. intros Hf%Forall2_flip. apply (Forall2_elem_l _ _ _ _ Hf). Qed.
