(* ===== verification/Steps.v ===== *)
(** * Reasoning about computations with state and exceptions

    Computations that only make steps of a preorder, with the tactic and hint database that
    decompose them, and inversion of a sequence that returned. *)
From stdpp Require Import base list.
From S2P Require Import Prelude.

(** ** Computations that only make steps of a preorder *)
Definition steps {S A} (R : S → S → Prop) (m : PyM S A) : Prop := ∀ s, R s (m s).2.

Create HintDb steps.

Section steps.
Context {S : Type} (R : S → S → Prop) `{!PreOrder R}.

Lemma steps_ret {A} (a : A) : steps R (mret a).
Proof. intros s. cbn. reflexivity. Qed.

Lemma steps_lift {A} (r : res A) : steps R (liftR r).
Proof. intros s. cbn. reflexivity. Qed.

Lemma steps_raise {A} k msg : steps R (raiseM (A := A) k msg).
Proof. apply steps_lift. Qed.

Lemma steps_gets {A} (f : S → A) : steps R (gets f).
Proof. intros s. cbn. reflexivity. Qed.

Lemma steps_getS : steps R getS.
Proof. intros s. cbn. reflexivity. Qed.

Lemma steps_modify f : (∀ s, R s (f s)) → steps R (modifyS f).
Proof. intros Hf s. apply Hf. Qed.

Lemma steps_bind {A B} (m : PyM S A) (f : A → PyM S B) :
  steps R m → (∀ a, steps R (f a)) → steps R (m ≫= f).
Proof.
  intros Hm Hf s. specialize (Hm s). unfold mbind, pym_bind. destruct (m s) as [[a|e] s']; cbn in *; [|done].
  etrans; [exact Hm | apply Hf].
Qed.

Lemma steps_try {A} (m : PyM S A) hd h :
  steps R m → (∀ e, steps R (h e)) → steps R (try_except m hd h).
Proof.
  intros Hm Hh s. specialize (Hm s). unfold try_except. destruct (m s) as [[a|e] s']; cbn in *; [done|].
  destruct (hd e); [|done]. etrans; [exact Hm | apply Hh].
Qed.

Lemma steps_finally {A} (m : PyM S A) f : steps R m → steps R f → steps R (try_finally m f).
Proof.
  intros Hm Hf s. specialize (Hm s). unfold try_finally. destruct (m s) as [r s']. specialize (Hf s').
  cbn in *. destruct (f s') as [[a|e] s'']; cbn in *; etrans; eauto.
Qed.

Lemma steps_hoare {A} (m : PyM S A) (P : S → Prop) :
  steps R m → (∀ s s', R s s' → P s → P s') → hoare P m (fun _ => P).
Proof. intros Hm HP s Hs. eapply HP; [apply Hm | done]. Qed.
End steps.

(** Reading a field *)
Lemma hoare_gets_bind {S A B} (P : S → Prop) (f : S → A) (k : A → PyM S B) (Q : res B → S → Prop) :
  (∀ x, hoare (fun s => P s ∧ f s = x) (k x) Q) → hoare P (gets f ≫= k) Q.
Proof. intros Hk s Hs. by apply (Hk (f s)). Qed.

(** Decomposes a computation and closes the leaves with the database. *)
Ltac steps_tac :=
  repeat (intros; cbn beta iota zeta;
    first
    [ solve [auto 3 with steps typeclass_instances]
    | apply steps_ret; typeclasses eauto | apply steps_lift; typeclasses eauto
    | apply steps_raise; typeclasses eauto
    | apply steps_gets; typeclasses eauto | apply steps_getS; typeclasses eauto
    | apply steps_bind; [typeclasses eauto|..]
    | apply steps_try; [typeclasses eauto|..]
    | apply steps_finally; [typeclasses eauto|..]
    | match goal with |- steps _ (match ?x with _ => _ end) => destruct x eqn:? end
    | match goal with |- steps _ (let '(_, _) := ?x in _) => destruct x eqn:? end ]).

(** ** Calls with a log of them, the last one first *)
Definition logged {W E A} (ev : res A → E) (m : PyM W A) : PyM (W * list E) A := fun '(w, l) =>
  let '(r, w') := m w in (r, (w', ev r :: l)).
Definition unlogged {W E A} (m : PyM W A) : PyM (W * list E) A := fun '(w, l) => let '(r, w') := m w in (r, (w', l)).
Definition same_log {W E} (p p' : W * list E) : Prop := p'.2 = p.2.
#[export] Instance same_log_preorder {W E} : PreOrder (same_log (W := W) (E := E)).
Proof. split; [done|]. unfold same_log. intros p1 p2 p3 H1 H2. congruence. Qed.
Lemma unlogged_steps {W E A} (m : PyM W A) : steps (same_log (E := E)) (unlogged m).
Proof. intros [w l]. unfold unlogged. by destruct (m w). Qed.

(** ** Inversion of computations that returned *)
Lemma bind_ok_inv {S A B} (m : PyM S A) (f : A → PyM S B) s b s' :
  (m ≫= f) s = (Ok b, s') → ∃ a s1, m s = (Ok a, s1) ∧ f a s1 = (Ok b, s').
Proof. unfold mbind, pym_bind. destruct (m s) as [[a|e] s1]; [eauto|done]. Qed.

Lemma bind_final {S A B} (m : PyM S A) (f : A → PyM S B) s :
  ((m ≫= f) s).2 = match m s with (Ok a, s1) => (f a s1).2 | (Err _, s1) => s1 end.
Proof. unfold mbind, pym_bind. by destruct (m s) as [[a|e] s1]. Qed.

Lemma ret_ok_inv {S A} (a b : A) (s s' : S) : (mret a : PyM S A) s = (Ok b, s') → a = b ∧ s = s'.
Proof. unfold mret, pym_ret. intros [=]. done. Qed.

(** Splits [H : (x ← m; ...) s = (Ok b, s')] into the call of [m], named [Hm], and the rest. *)
Ltac bind_inv H x s Hm :=
  apply bind_ok_inv in H as (x & s & Hm & H).
