(* ===== verification/PyData.v ===== *)
(** * Decoded JSON/TOML documents and the validators of config/persistence.py

    A decoded document is a [pyval]; a Python dict with string keys is an
    association list in insertion order without repeated keys.  The strict
    readers ([strict_bool], [strict_int], [strict_float], [reject_unknown_keys],
    [require_mapping], [require_list]) raise [PersistentValidationError] the way
    config/persistence.py does. *)
From stdpp Require Import base list strings gmap pretty sorting.
From Stdlib Require Import Ascii QArith.
From S2P Require Import Prelude.

Definition pydict (V : Type) : Type := list (string * V).

Inductive pyval : Type :=
| PNone
| PBool (b : bool)
| PInt (z : Z)
| PFloat (f : pyfloat)
| PStr (s : string)
| PList (l : list pyval)
| PDict (d : list (string * pyval)).

(** Two conversions of the interpreter are left to the instance, and the model
    never looks inside them: [str()] of floats, lists and dicts, and [float()]
    of a string ([None]: the string is no float literal). *)
Class PyStr : Type := {
  repr_compound : pyval → string;
  float_literal : string → option pyfloat
}.

(** [str(v)] *)
Definition py_str `{PyStr} (v : pyval) : string :=
  match v with
  | PNone => "None"
  | PBool true => "True"
  | PBool false => "False"
  | PInt z => pretty z
  | PStr s => s
  | PFloat _ | PList _ | PDict _ => repr_compound v
  end.

(** ** Dicts *)
Fixpoint dict_get {V} (k : string) (d : pydict V) : option V :=
  match d with
  | [] => None
  | (k', v) :: d' => if String.eqb k k' then Some v else dict_get k d'
  end.

Definition dict_has {V} (k : string) (d : pydict V) : bool :=
  match dict_get k d with Some _ => true | None => false end.

(** [d[k] = v]: in place when present, appended otherwise *)
Fixpoint dict_set {V} (k : string) (v : V) (d : pydict V) : pydict V :=
  match d with
  | [] => [(k, v)]
  | (k', v') :: d' =>
      if String.eqb k k' then (k', v) :: d' else (k', v') :: dict_set k v d'
  end.

(** [bool(v)] *)
Definition truthy (v : pyval) : bool :=
  match v with
  | PNone => false
  | PBool b => b
  | PInt z => negb (z =? 0)%Z
  | PFloat (Fin q) => negb (Qeq_bool q 0)
  | PFloat _ => true
  | PStr s => truthy_str s
  | PList l => match l with [] => false | _ => true end
  | PDict d => match d with [] => false | _ => true end
  end.

(** [a == b]: numbers and booleans by value, lists by position, dicts by key *)
Definition py_num (v : pyval) : option pyfloat :=
  match v with
  | PBool b => Some (Fin (if b then 1 else 0))
  | PInt z => Some (Fin (inject_Z z))
  | PFloat f => Some f
  | _ => None
  end.

Definition num_eqb (a b : pyfloat) : bool :=
  match a, b with
  | Fin x, Fin y => Qeq_bool x y
  | PInf, PInf | NInf, NInf => true
  | _, _ => false
  end.

Fixpoint py_eqb (a b : pyval) {struct a} : bool :=
  match a, b with
  | PNone, PNone => true
  | PStr s, PStr t => String.eqb s t
  | PList l, PList m =>
      (fix items (l m : list pyval) {struct l} : bool :=
         match l, m with
         | [], [] => true
         | x :: l', y :: m' => py_eqb x y && items l' m'
         | _, _ => false
         end) l m
  | PDict d, PDict e =>
      Nat.eqb (length d) (length e)
      && (fix entries (d : list (string * pyval)) : bool :=
            match d with
            | [] => true
            | (k, v) :: d' => match dict_get k e with Some w => py_eqb v w | None => false end && entries d'
            end) d
  | _, _ => match py_num a, py_num b with Some x, Some y => num_eqb x y | _, _ => false end
  end.

Definition dict_eqb (d e : pydict pyval) : bool := py_eqb (PDict d) (PDict e).

(** [d.update(e)] *)
Definition dict_update {V} (d e : pydict V) : pydict V :=
  foldl (fun acc kv => dict_set kv.1 kv.2 acc) d e.

(** [d.get(k, default)] *)
Definition dict_get_or {V} (k : string) (dflt : V) (d : pydict V) : V :=
  match dict_get k d with Some v => v | None => dflt end.

(** [d[k]] *)
Definition dict_item {V} (k : string) (d : pydict V) : res V :=
  match dict_get k d with Some v => Ok v | None => raise KeyError k end.

(** [{key(x): x for x in l}]: a later element replaces an earlier one *)
Definition index_by {V} (key : V → string) (l : list V) : pydict V :=
  foldl (fun acc x => dict_set (key x) x acc) [] l.

(** [v.get(k, default)] on a value that is expected to be a dict *)
Definition val_get (v : pyval) (k : string) (dflt : pyval) : res pyval :=
  match v with
  | PDict d => Ok (dict_get_or k dflt d)
  | _ => raise AttributeError "object has no attribute 'get'"
  end.

(** [config.get(section, {}).get(key, default)] *)
Definition config_get (config : pydict pyval) (section key : string) (dflt : pyval)
  : res pyval := val_get (dict_get_or section (PDict []) config) key dflt.

(** ** config/persistence.py validators *)
Definition strict_bool (v : pyval) (field : string) : res bool :=
  match v with
  | PBool b => Ok b
  | _ => raise PersistentValidationError (field +:+ " must be a boolean")
  end.

Definition strict_int (v : pyval) (field : string) : res Z :=
  match v with
  | PInt z => Ok z
  | _ => raise PersistentValidationError (field +:+ " must be an integer")
  end.

(** [float(value)] of an integer too large for a double raises [OverflowError]:
    integers of absolute value from 2^1024 - 2^970 on. Smaller integers are
    represented exactly here (rounding to 53 bits is not modelled). *)
Definition float_of_int (z : Z) : res pyfloat :=
  if (Z.abs z <? 2 ^ 1024 - 2 ^ 970)%Z then Ok (Fin (inject_Z z))
  else raise OverflowError "int too large to convert to float".

(** [float(v)] *)
Definition py_float `{PyStr} (v : pyval) : res pyfloat :=
  match v with
  | PInt z => float_of_int z
  | PFloat f => Ok f
  | PBool b => Ok (Fin (if b then 1 else 0))
  | PStr s => match float_literal s with
              | Some f => Ok f
              | None => raise ValueError "could not convert string to float"
              end
  | _ => raise TypeError "float() argument must be a string or a real number"
  end.

(** A number as an operand of [<], [>=]: comparison with a float is exact. *)
Definition py_number (v : pyval) : res pyfloat :=
  match v with
  | PInt z => Ok (Fin (inject_Z z))
  | PFloat f => Ok f
  | PBool b => Ok (Fin (if b then 1 else 0))
  | _ => raise TypeError "comparison is not supported between these types"
  end.

Definition strict_float (v : pyval) (field : string) : res pyfloat :=
  match v with
  | PInt z => float_of_int z
  | PFloat f => Ok f
  | _ => raise PersistentValidationError (field +:+ " must be a number")
  end.

Definition reject_unknown_keys (data : pydict pyval) (allowed : list string)
    (object_name : string) : res unit :=
  let unknown := List.filter (fun k => negb (str_in k allowed)) (map fst data) in
  match py_sorted String.ltb unknown with
  | [] => Ok tt
  | names => raise PersistentValidationError
      (object_name +:+ " contains unsupported fields: " +:+ String.concat ", " names)
  end.

Definition require_mapping (v : pyval) (path : string) : res (pydict pyval) :=
  match v with
  | PDict d => Ok d
  | _ => raise PersistentValidationError (path +:+ " must contain a JSON object")
  end.

Definition require_list (v : pyval) (path : string) : res (list pyval) :=
  match v with
  | PList l => Ok l
  | _ => raise PersistentValidationError (path +:+ " must contain a JSON array")
  end.

(** ** Slugs: [re.compile(r"^[a-z0-9][a-z0-9_-]{0,63}$")], shared by rule groups,
    node groups and route chains. *)
Definition slug_head (c : ascii) : bool :=
  let n := N_of_ascii c in ((97 <=? n) && (n <=? 122) || (48 <=? n) && (n <=? 57))%N.

Definition slug_tail (c : ascii) : bool :=
  slug_head c || Ascii.eqb c "_" || Ascii.eqb c "-".

Definition slug_core (s : string) : bool :=
  match s with
  | "" => false
  | String c s' => slug_head c && forall_chars slug_tail s' && (String.length s' <=? 63)%nat
  end.

(** [SLUG_RE.match(s)] succeeds; [$] also matches before a final newline. *)
Fixpoint drop_final_newline (s : string) : string :=
  match s with
  | "" => ""
  | String c s' =>
      if Ascii.eqb c newline && String.eqb s' "" then ""
      else String c (drop_final_newline s')
  end.

Definition slug_match (s : string) : bool :=
  slug_core s || slug_core (drop_final_newline s).

(** ** Lemmas on dicts *)
Lemma dict_get_set {V} k k' (v : V) d :
  dict_get k (dict_set k' v d) = if String.eqb k k' then Some v else dict_get k d.
Proof.
  induction d as [|[k0 v0] d IH]; cbn; [done|].
  destruct (String.eqb_spec k' k0) as [->|Hk0]; cbn; [by destruct (String.eqb_spec k k0)|].
  destruct (String.eqb_spec k k0) as [->|]; [|done].
  by destruct (String.eqb_spec k0 k').
Qed.

Lemma dict_get_set_eq {V} k (v : V) d : dict_get k (dict_set k v d) = Some v.
Proof. by rewrite dict_get_set, String.eqb_refl. Qed.

Lemma dict_get_set_ne {V} k k' (v : V) d :
  k ≠ k' → dict_get k (dict_set k' v d) = dict_get k d.
Proof. intros H. rewrite dict_get_set. by destruct (String.eqb_spec k k'). Qed.

Lemma dict_set_keys {V} k (v : V) d :
  map fst (dict_set k v d) = if dict_has k d then map fst d else map fst d ++ [k].
Proof.
  unfold dict_has. induction d as [|[k0 v0] d IH]; cbn; [done|].
  destruct (String.eqb_spec k k0) as [->|]; cbn; [done|].
  rewrite IH. by destruct (dict_get k d).
Qed.

Lemma dict_get_None {V} k (d : pydict V) : dict_get k d = None ↔ k ∉ map fst d.
Proof.
  induction d as [|[k0 v0] d IH]; cbn.
  - split; [intros _; apply not_elem_of_nil | done].
  - rewrite not_elem_of_cons. destruct (String.eqb_spec k k0); naive_solver.
Qed.

Lemma dict_set_nodup {V} k (v : V) d : NoDup (map fst d) → NoDup (map fst (dict_set k v d)).
Proof.
  intros H. rewrite dict_set_keys. unfold dict_has.
  destruct (dict_get k d) eqn:E; [done|]. apply dict_get_None in E.
  apply NoDup_app. split; [done|]. split; [|apply NoDup_singleton].
  intros x Hx ->%list_elem_of_singleton. done.
Qed.

Lemma dict_get_elem_of {V} k (v : V) d : dict_get k d = Some v → (k, v) ∈ d.
Proof.
  induction d as [|[k0 v0] d IH]; cbn; [done|].
  destruct (String.eqb_spec k k0) as [->|].
  - intros [= ->]. apply list_elem_of_here.
  - intros H. by apply list_elem_of_further, IH.
Qed.

Lemma dict_elem_of_get {V} k (v : V) d :
  NoDup (map fst d) → (k, v) ∈ d → dict_get k d = Some v.
Proof.
  induction d as [|[k0 v0] d IH]; cbn; intros Hn Hv.
  - by apply not_elem_of_nil in Hv.
  - apply NoDup_cons in Hn as [Hk Hn]. apply elem_of_cons in Hv as [[= -> ->]|Hv].
    + by rewrite String.eqb_refl.
    + destruct (String.eqb_spec k k0) as [->|]; [|by apply IH].
      destruct Hk. apply list_elem_of_In, (in_map fst _ (k0, v)), list_elem_of_In, Hv.
Qed.

Lemma index_by_foldl {V} (key : V → string) l acc k :
  dict_get k (foldl (fun acc x => dict_set (key x) x acc) acc l)
  = match List.find (fun x => String.eqb k (key x)) (rev l) with
    | Some x => Some x
    | None => dict_get k acc
    end.
Proof.
  induction l as [|x l IH] using rev_ind; [done|].
  rewrite foldl_app, rev_app_distr. cbn. rewrite dict_get_set.
  by destruct (String.eqb_spec k (key x)).
Qed.

Lemma index_by_get {V} (key : V → string) l k :
  dict_get k (index_by key l) = List.find (fun x => String.eqb k (key x)) (rev l).
Proof.
  unfold index_by. rewrite index_by_foldl. by destruct (List.find _ _).
Qed.

Lemma index_by_some {V} (key : V → string) l k x :
  dict_get k (index_by key l) = Some x → x ∈ l ∧ key x = k.
Proof.
  rewrite index_by_get. intros [H1 H2]%List_find_elem_of.
  apply String.eqb_eq in H2. rewrite list_elem_of_In, <- in_rev, <- list_elem_of_In in H1.
  done.
Qed.

Lemma index_by_is_some {V} (key : V → string) l x :
  x ∈ l → is_Some (dict_get (key x) (index_by key l)).
Proof.
  intros Hx. rewrite index_by_get. destruct (List.find _ _) eqn:E; [done|].
  pose proof (find_none _ _ E x) as Hf. cbn in Hf. rewrite String.eqb_refl in Hf.
  rewrite <- in_rev, <- list_elem_of_In in Hf. by specialize (Hf Hx).
Qed.

Lemma index_by_unique {V} (key : V → string) l x :
  NoDup (map key l) → x ∈ l → dict_get (key x) (index_by key l) = Some x.
Proof.
  intros Hn Hx. destruct (index_by_is_some key l x Hx) as [y Hy]. rewrite Hy.
  apply index_by_some in Hy as [Hy Hk]. f_equal.
  apply list_elem_of_lookup in Hx as [i Hi]. apply list_elem_of_lookup in Hy as [j Hj].
  assert (i = j) as ->.
  { eapply NoDup_lookup; [exact Hn| |]; rewrite list_lookup_fmap.
    - by rewrite Hi.
    - by rewrite Hj; cbn; rewrite Hk. }
  congruence.
Qed.

(** ** Lemmas on slugs and strict readers *)
Lemma slug_tail_not_space c : slug_tail c = true → is_space c = false.
Proof. destruct c as [[] [] [] [] [] [] [] []]; vm_compute; congruence. Qed.

Lemma drop_final_newline_id s :
  (∀ t, s ≠ t +:+ String newline "") → drop_final_newline s = s.
Proof.
  induction s as [|c s IH]; [done|]. cbn. intros H.
  destruct (Ascii.eqb_spec c newline) as [->|]; cbn.
  - destruct (String.eqb_spec s "") as [->|]; [by destruct (H "")|].
    f_equal. apply IH. intros t Ht. apply (H (String newline t)). cbn. by rewrite Ht.
  - f_equal. apply IH. intros t Ht. apply (H (String c t)). cbn. by rewrite Ht.
Qed.

(** On a stripped string the final-newline case of [$] cannot occur. *)
Lemma slug_match_strip s : slug_match (strip s) = slug_core (strip s).
Proof.
  unfold slug_match. rewrite drop_final_newline_id by apply strip_no_final_newline.
  by destruct (slug_core (strip s)).
Qed.

Lemma rstrip_forall p s : forall_chars (fun c => negb (p c)) s = true → rstrip_by p s = s.
Proof.
  induction s as [|c s IH]; cbn; [done|].
  intros [H1 H2]%andb_prop. apply negb_true_iff in H1. rewrite H1. cbn. by rewrite IH.
Qed.

Lemma forall_chars_impl (p q : ascii → bool) s :
  (∀ c, p c = true → q c = true) → forall_chars p s = true → forall_chars q s = true.
Proof.
  intros H. induction s as [|c s IH]; cbn; [done|].
  intros [H1 H2]%andb_prop. by rewrite (H _ H1), IH.
Qed.

(** A slug is unchanged by [strip]. *)
Lemma slug_core_strip s : slug_core s = true → strip s = s.
Proof.
  destruct s as [|c s]; [done|]. cbn [slug_core].
  intros [[Hc Hs]%andb_prop _]%andb_prop.
  assert (is_space c = false) as Hsp by (apply slug_tail_not_space; unfold slug_tail; by rewrite Hc).
  unfold strip. rewrite lstrip_by_id, rstrip_nonspace_head by done. f_equal.
  apply rstrip_forall. eapply forall_chars_impl; [|exact Hs].
  intros d Hd. by rewrite slug_tail_not_space.
Qed.

Lemma reject_unknown_keys_ok data allowed name :
  reject_unknown_keys data allowed name = Ok tt ↔ ∀ k, k ∈ map fst data → k ∈ allowed.
Proof.
  unfold reject_unknown_keys.
  destruct (py_sorted String.ltb _) as [|n ns] eqn:E.
  - split; [|done]. intros _ k Hk. apply str_in_spec.
    destruct (str_in k allowed) eqn:Hs; [done|].
    assert (Hf : k ∈ py_sorted String.ltb (List.filter (fun k => negb (str_in k allowed)) (map fst data))).
    { rewrite py_sorted_perm. apply List_filter_elem_of. by rewrite Hs. }
    rewrite E in Hf. by apply not_elem_of_nil in Hf.
  - split; [done|]. intros H.
    assert (Hn : n ∈ List.filter (fun k => negb (str_in k allowed)) (map fst data)).
    { rewrite <- (py_sorted_perm String.ltb), E. apply list_elem_of_here. }
    apply List_filter_elem_of in Hn as [Hn Ha]. apply H, str_in_spec in Hn.
    by rewrite Hn in Ha.
Qed.

(** ** Validating loops [for key, value in d.items(): validated[key] = f(key, value)] *)
Fixpoint collect_items {V} (f : string → pyval → res V) (items : pydict pyval)
    (validated : pydict V) : res (pydict V) :=
  match items with
  | [] => Ok validated
  | (key, value) :: rest => x ← f key value; collect_items f rest (dict_set key x validated)
  end.

Lemma dict_set_Forall {V} (P : string * V → Prop) k v (d : pydict V) :
  P (k, v) → Forall P d → Forall P (dict_set k v d).
Proof.
  intros Hv. induction 1 as [|[k' v'] d Hx Hd IH]; cbn; [by constructor|].
  destruct (String.eqb_spec k k') as [->|]; by constructor.
Qed.

Lemma dict_set_fresh {V} k (v : V) d : k ∉ map fst d → dict_set k v d = d ++ [(k, v)].
Proof.
  induction d as [|[k' v'] d IH]; cbn; [done|]. intros [Hne Hk]%not_elem_of_cons.
  destruct (String.eqb_spec k k'); [done|]. by rewrite IH.
Qed.

Lemma collect_items_ok {V} (f : string → pyval → res V) (P : string * V → Prop) items acc r :
  Forall (fun kv => ∀ x, f kv.1 kv.2 = Ok x → P (kv.1, x)) items →
  NoDup (map fst acc) → Forall P acc → collect_items f items acc = Ok r →
  NoDup (map fst r) ∧ Forall P r.
Proof.
  intros Hi. revert acc. induction Hi as [|[k v] items Hk _ IH]; intros acc Hn Hf; cbn.
  { by intros [= <-]. }
  destruct (f k v) as [x|] eqn:E; cbn; [|done]. cbn in Hk. apply Hk in E.
  apply IH; [by apply dict_set_nodup | by apply dict_set_Forall].
Qed.

Lemma collect_items_roundtrip {V} (f : string → pyval → res V) (g : V → pyval) m acc :
  NoDup (map fst (acc ++ m)) → Forall (fun kv => f kv.1 (g kv.2) = Ok kv.2) m →
  collect_items f (map (fun kv => (kv.1, g kv.2)) m) acc = Ok (acc ++ m).
Proof.
  revert acc. induction m as [|[k x] m IH]; intros acc Hn Hf; cbn; [by rewrite app_nil_r|].
  apply Forall_cons in Hf as [Hx Hm]. cbn in Hx. rewrite Hx. cbn.
  assert (k ∉ map fst acc) as Hk.
  { rewrite map_app in Hn. apply NoDup_app in Hn as (_ & Hd & _). intros Hin.
    apply (Hd k Hin). apply list_elem_of_here. }
  rewrite dict_set_fresh, IH; rewrite <- ?app_assoc; done.
Qed.

Lemma collect_items_err {V} (f : string → pyval → res V) K items acc e :
  (∀ k v e, f k v = Err e → exn_class e = K) → collect_items f items acc = Err e →
  exn_class e = K.
Proof.
  intros Hf. revert acc. induction items as [|[k v] items IH]; intros acc; cbn; [done|].
  destruct (f k v) eqn:E; cbn; [apply IH|]. intros [= <-]. by eapply Hf.
Qed.

(** ** Atomic writes: config/persistence.py *)
(** An atomic write is done, is refused before [os.replace] (the file is as it was), or raises
    when the replacement is published but not yet durable. *)
Inductive write_outcome : Type := WDone | WRefused (e : exn) | WPublished (e : exn).

(** [_atomic_write]: the file's new content is [new] *)
Definition atomic_write {F} (outcome : write_outcome) (new : F) : PyM F unit := fun old =>
  match outcome with
  | WDone => (Ok tt, new)
  | WRefused e => (Err e, old)
  | WPublished e => (Err e, new)
  end.
