(* ===== verification/PyText.v ===== *)
(** * Text processing of the Python standard library

    The parts of [re], [shlex], [ipaddress] and [str] that the control plane uses on
    command output: a backtracking matcher for the regular expressions whose repetitions
    are over character classes, POSIX word splitting, address parsing with canonical text
    (the interpreter is the one of [.python-version], 3.14), integer literals. *)
From stdpp Require Import base list strings pretty.
From Stdlib Require Import Ascii ZArith.
From S2P Require Import Prelude PyData.

Definition char_in (lo hi : N) (c : ascii) : bool :=
  let n := N_of_ascii c in ((lo <=? n) && (n <=? hi))%N.

(** [\w] and [\s] of a [str] pattern, on code points below 256 *)
Definition is_word (c : ascii) : bool :=
  char_in 48 57 c || char_in 65 90 c || char_in 97 122 c || Ascii.eqb c "_"
  || existsb (N.eqb (N_of_ascii c)) [170; 178; 179; 181; 185; 186; 188; 189; 190]%N
  || char_in 192 214 c || char_in 216 246 c || char_in 248 255 c.

Definition is_hex (c : ascii) : bool := char_in 48 57 c || char_in 65 70 c || char_in 97 102 c.

(** ** Regular expressions *)

(** One element of a pattern.  [RStar] is the greedy [c*], [RLazy] the lazy [c*?]; the
    parentheses of the one capturing group are elements of their own. *)
Inductive ritem : Type :=
| RChar (p : ascii → bool)
| RStar (p : ascii → bool)
| RLazy (p : ascii → bool)
| RWordB
| RLineStart
| ROpen
| RClose.

Definition rlit (s : string) : list ritem := map (fun c => RChar (Ascii.eqb c)) (String.list_ascii_of_string s).
Definition rplus (p : ascii → bool) : list ritem := [RChar p; RStar p].

Definition at_word_boundary (prev : option ascii) (s : string) : bool :=
  let before := match prev with Some c => is_word c | None => false end in
  let after := match s with String c _ => is_word c | "" => false end in
  xorb before after.

(** The end of the match and the bounds of the group, the first that backtracking finds *)
Fixpoint rx_match (items : list ritem) (pos : nat) (prev : option ascii) (s : string)
    (g : nat * nat) : option (nat * (nat * nat)) :=
  match items with
  | [] => Some (pos, g)
  | RChar p :: rest =>
      match s with
      | String c s' => if p c then rx_match rest (S pos) (Some c) s' g else None
      | "" => None
      end
  | RStar p :: rest =>
      (fix go (pos : nat) (prev : option ascii) (s : string) :=
         match s with
         | String c s' =>
             if p c then
               match go (S pos) (Some c) s' with
               | Some r => Some r
               | None => rx_match rest pos prev s g
               end
             else rx_match rest pos prev s g
         | "" => rx_match rest pos prev s g
         end) pos prev s
  | RLazy p :: rest =>
      (fix go (pos : nat) (prev : option ascii) (s : string) :=
         match rx_match rest pos prev s g with
         | Some r => Some r
         | None =>
             match s with
             | String c s' => if p c then go (S pos) (Some c) s' else None
             | "" => None
             end
         end) pos prev s
  | RWordB :: rest => if at_word_boundary prev s then rx_match rest pos prev s g else None
  | RLineStart :: rest =>
      if match prev with None => true | Some c => Ascii.eqb c newline end
      then rx_match rest pos prev s g else None
  | ROpen :: rest => rx_match rest pos prev s (pos, pos)
  | RClose :: rest => rx_match rest pos prev s (g.1, pos)
  end.

(** [re.search(pattern, s)]: the text of the group, relative to the text where the search began *)
Fixpoint re_search_from (items : list ritem) (prev : option ascii) (s : string) : option string :=
  match rx_match items 0 prev s (0, 0)%nat with
  | Some (_, (a, b)) => Some (String.substring a (b - a) s)
  | None =>
      match s with
      | String c s' => re_search_from items (Some c) s'
      | "" => None
      end
  end.

Definition re_search (items : list ritem) (s : string) : option string := re_search_from items None s.
Definition re_found (items : list ritem) (s : string) : bool :=
  match re_search items s with Some _ => true | None => false end.

(** [re.sub(pattern, lambda m: f(m.group(1)), s)] for a pattern that matches no empty text;
    [skip] counts the characters of the last match still to be dropped *)
Fixpoint re_sub_from (items : list ritem) (f : string → string) (prev : option ascii) (skip : nat)
    (s : string) : string :=
  match s with
  | "" => ""
  | String c s' =>
      match skip with
      | S k => re_sub_from items f (Some c) k s'
      | O =>
          match rx_match items 0 prev s (0, 0)%nat with
          | Some (n, (a, b)) =>
              f (String.substring a (b - a) s) +:+ re_sub_from items f (Some c) (n - 1) s'
          | None => String c (re_sub_from items f (Some c) 0 s')
          end
      end
  end.

Definition re_sub (items : list ritem) (f : string → string) (s : string) : string :=
  re_sub_from items f None 0 s.

(** ** Lines and words *)

Definition is_line_end (c : ascii) : bool :=
  char_in 10 13 c || char_in 28 30 c || (N_of_ascii c =? 133)%N.

(** [s.splitlines()]; [acc] is the current line *)
Fixpoint splitlines_from (acc : string) (after_cr : bool) (s : string) : list string :=
  match s with
  | "" => if truthy_str acc then [acc] else []
  | String c s' =>
      if after_cr && Ascii.eqb c newline then splitlines_from acc false s'
      else if is_line_end c then acc :: splitlines_from "" (Ascii.eqb c "013") s'
      else splitlines_from (acc +:+ String c "") false s'
  end.

Definition splitlines (s : string) : list string := splitlines_from "" false s.

(** [s.split()] *)
Fixpoint words_from (acc : string) (s : string) : list string :=
  match s with
  | "" => if truthy_str acc then [acc] else []
  | String c s' =>
      if is_space c then (if truthy_str acc then [acc] else []) ++ words_from "" s'
      else words_from (acc +:+ String c "") s'
  end.

Definition py_split (s : string) : list string := words_from "" s.

(** [sep.join(l)] *)
Definition join (sep : string) (l : list string) : string := String.concat sep l.

(** [s.replace(c, by)] for a single character [c] *)
Fixpoint replace_char (c : ascii) (by_ : string) (s : string) : string :=
  match s with
  | "" => ""
  | String d s' => (if Ascii.eqb c d then by_ else String d "") +:+ replace_char c by_ s'
  end.

(** ** [shlex.split(s)] *)

(** [shlex.state] between two characters *)
Inductive shlex_state : Type :=
| ShBlank
| ShWord
| ShQuote (q : ascii)
| ShEscape (back : option ascii).

Definition sh_space (c : ascii) : bool :=
  Ascii.eqb c " " || Ascii.eqb c "009" || Ascii.eqb c "010" || Ascii.eqb c "013".
Definition sh_quote (c : ascii) : bool := Ascii.eqb c "'" || Ascii.eqb c "034".
Definition sh_escape (c : ascii) : bool := Ascii.eqb c "\".

(** The word being read, if it is to be emitted *)
Definition sh_emit (token : string) (quoted : bool) : list string :=
  if truthy_str token || quoted then [token] else [].

(** [None] is the [ValueError] of an unfinished quotation or escape; a commenter outside of
    quotations ends the line *)
Fixpoint shlex_from (comment : ascii → bool) (state : shlex_state) (token : string) (quoted : bool) (s : string)
    : option (list string) :=
  match s with
  | "" =>
      match state with
      | ShBlank | ShWord => Some (sh_emit token quoted)
      | ShQuote _ | ShEscape _ => None
      end
  | String c s' =>
      match state with
      | ShBlank =>
          if sh_space c then shlex_from comment ShBlank token quoted s'
          else if comment c then Some (sh_emit token quoted)
          else if sh_escape c then shlex_from comment (ShEscape None) token quoted s'
          else if sh_quote c then shlex_from comment (ShQuote c) token quoted s'
          else shlex_from comment ShWord (String c "") quoted s'
      | ShWord =>
          if sh_space c then
            rest ← shlex_from comment ShBlank "" false s';
            Some (sh_emit token quoted ++ rest)
          else if comment c then Some (sh_emit token quoted)
          else if sh_quote c then shlex_from comment (ShQuote c) token quoted s'
          else if sh_escape c then shlex_from comment (ShEscape None) token quoted s'
          else shlex_from comment ShWord (token +:+ String c "") quoted s'
      | ShQuote q =>
          if Ascii.eqb c q then shlex_from comment ShWord token true s'
          else if sh_escape c && Ascii.eqb q "034"
          then shlex_from comment (ShEscape (Some q)) token true s'
          else shlex_from comment (ShQuote q) (token +:+ String c "") true s'
      | ShEscape back =>
          let token := match back with
                       | Some q => if negb (sh_escape c) && negb (Ascii.eqb c q)
                                   then token +:+ "\" else token
                       | None => token
                       end in
          shlex_from comment (match back with Some q => ShQuote q | None => ShWord end)
            (token +:+ String c "") quoted s'
      end
  end.

Definition shlex_split (s : string) : option (list string) := shlex_from (fun _ => false) ShBlank "" false s.

(** ** Integer literals *)

Definition hex_value (c : ascii) : option Z :=
  let n := Z.of_N (N_of_ascii c) in
  if char_in 48 57 c then Some (n - 48)%Z
  else if char_in 65 90 c then Some (n - 55)%Z
  else if char_in 97 122 c then Some (n - 87)%Z else None.

(** The digits of a literal in the given base, with single underscores between them; [ready]
    tells that an underscore or the end may come next.  The value and the number of digits. *)
Fixpoint base_digits (base : Z) (ready : bool) (acc : Z) (count : nat) (s : string)
    : option (Z * nat) :=
  match s with
  | "" => if ready then Some (acc, count) else None
  | String c s' =>
      match hex_value c with
      | Some d => if (d <? base)%Z then base_digits base true (acc * base + d)%Z (S count) s' else None
      | None => if Ascii.eqb c "_" && ready then base_digits base false acc count s' else None
      end
  end.

Definition drop_underscore (s : string) : string := match s with String "_" s' => s' | _ => s end.

(** After the prefix [0x], [0o] or [0b]: one underscore may follow it *)
Definition prefixed_digits (base : Z) (s : string) : option Z :=
  option_map fst (base_digits base false 0 0 (drop_underscore s)).

(** [int(text, 0)]; [None] is the [ValueError].  The decimal form has no leading zero unless
    the value is zero, and at most 4300 digits. *)
Definition py_int0 (text : string) : option Z :=
  let s := strip text in
  let '(sign, body) := match s with
                       | String "-" s' => ((-1)%Z, s')
                       | String "+" s' => (1%Z, s')
                       | _ => (1%Z, s)
                       end in
  option_map (Z.mul sign)
    match body with
    | String "0" (String "x" s') | String "0" (String "X" s') => prefixed_digits 16 s'
    | String "0" (String "o" s') | String "0" (String "O" s') => prefixed_digits 8 s'
    | String "0" (String "b" s') | String "0" (String "B" s') => prefixed_digits 2 s'
    | _ =>
        match base_digits 10 false 0 0 body with
        | Some (n, count) =>
            if match body with String "0" _ => (n =? 0)%Z | _ => true end && (count <=? 4300)%nat
            then Some n else None
        | None => None
        end
    end.

Definition hex_digit (z : Z) : ascii :=
  ascii_of_N (Z.to_N (if (z <? 10)%Z then 48 + z else 87 + z)).

(** The lower-case hexadecimal digits of a natural number; [fuel] bounds their number *)
Fixpoint hex_digits (fuel : nat) (z : Z) (acc : string) : string :=
  match fuel with
  | O => acc
  | S fuel' =>
      let acc := String (hex_digit (z mod 16)) acc in
      if (z <? 16)%Z then acc else hex_digits fuel' (z / 16) acc
  end.

(** [f"{z:x}"]: the bit length is enough fuel *)
Definition hex_text (z : Z) : string :=
  let digits := hex_digits (S (Z.to_nat (Z.log2 (Z.abs z)))) (Z.abs z) "" in
  if (z <? 0)%Z then "-" +:+ digits else digits.

(** ** [ipaddress.ip_address] *)

Inductive IpAddress : Type :=
| IPv4Address (value : Z)
| IPv6Address (value : Z) (scope : option string).

Definition ip_version (a : IpAddress) : Z := match a with IPv4Address _ => 4 | IPv6Address _ _ => 6 end.

Definition parse_octet (s : string) : option Z :=
  if forall_chars (char_in 48 57) s && truthy_str s && (String.length s <=? 3)%nat
     && negb (negb (String.eqb s "0") && startswith "0" s) then
    match base_digits 10 false 0 0 s with
    | Some (n, _) => if (n <=? 255)%Z then Some n else None
    | None => None
    end
  else None.

Definition parse_ipv4 (s : string) : option Z :=
  match map parse_octet (split_on "." s) with
  | [Some a; Some b; Some c; Some d] => Some (((a * 256 + b) * 256 + c) * 256 + d)%Z
  | _ => None
  end.

Definition parse_hextet (s : string) : option Z :=
  if forall_chars is_hex s && truthy_str s && (String.length s <=? 4)%nat
  then option_map fst (base_digits 16 false 0 0 s) else None.

Fixpoint parse_hextets (acc : Z) (l : list string) : option Z :=
  match l with
  | [] => Some acc
  | s :: l' =>
      match parse_hextet s with
      | Some h => parse_hextets (acc * 65536 + h)%Z l'
      | None => None
      end
  end.

(** The positions of the empty parts that are neither the first nor the last *)
Definition inner_gaps (parts : list string) : list nat :=
  List.filter (fun i => (1 <=? i)%nat && (i <? length parts - 1)%nat
                        && String.eqb (nth i parts "") "") (seq 0 (length parts)).

(** A trailing dotted quad stands for two parts *)
Definition expand_dotted (parts : list string) : option (list string) :=
  match last parts with
  | Some l =>
      if contains "." l then
        match parse_ipv4 l with
        | Some v => Some (removelast parts ++ [hex_text (v / 65536); hex_text (v mod 65536)])
        | None => None
        end
      else Some parts
  | None => Some parts
  end.

(** [IPv6Address._ip_int_from_string] *)
Definition parse_ipv6 (s : string) : option Z :=
  let parts := split_on ":" s in
  if negb (truthy_str s) || (length parts <? 3)%nat then None else
  match expand_dotted parts with
  | None => None
  | Some parts =>
      let n := length parts in
      let first_empty := String.eqb (nth 0 parts "") "" in
      let last_empty := String.eqb (nth (n - 1) parts "") "" in
      if (9 <? n)%nat then None else
      match inner_gaps parts with
      | [] =>
          if (n =? 8)%nat && negb first_empty && negb last_empty
          then parse_hextets 0 parts else None
      | [skip] =>
          let hi := if first_empty then (skip - 1)%nat else skip in
          let lo := if last_empty then (n - skip - 2)%nat else (n - skip - 1)%nat in
          if (first_empty && negb (hi =? 0)%nat) || (last_empty && negb (lo =? 0)%nat)
             || (8 <=? hi + lo)%nat then None
          else
            match parse_hextets 0 (take hi parts) with
            | Some h => parse_hextets (h * 65536 ^ Z.of_nat (8 - (hi + lo))) (drop (n - lo) parts)
            | None => None
            end
      | _ => None
      end
  end.

(** [ip_address(s)]; [None] is the [ValueError] *)
Definition ip_address (s : string) : option IpAddress :=
  if contains "/" s then None else
  match parse_ipv4 s with
  | Some v => Some (IPv4Address v)
  | None =>
      let '(addr, sep, scope) := partition_on "%" s in
      if sep && (negb (truthy_str scope) || contains "%" scope) then None
      else
        option_map (fun v => IPv6Address v (if sep then Some scope else None)) (parse_ipv6 addr)
  end.

Definition ipv4_text (v : Z) : string :=
  join "." (map (fun k => pretty ((v / 256 ^ k) mod 256)%Z) [3; 2; 1; 0]%Z).

(** The first longest run of zero hextets: its start and its length, the run that ends here
    being [cur] long *)
Fixpoint longest_zero_run (i cur : nat) (best : nat * nat) (l : list Z) : nat * nat :=
  match l with
  | [] => best
  | h :: l' =>
      if (h =? 0)%Z then
        let cur := S cur in
        longest_zero_run (S i) cur (if (best.2 <? cur)%nat then (S i - cur, cur)%nat else best) l'
      else longest_zero_run (S i) 0 best l'
  end.

Definition compressed_text (hextets : list Z) : string :=
  let '(start, len) := longest_zero_run 0 0 (0, 0)%nat hextets in
  let texts := map hex_text hextets in
  if (1 <? len)%nat
  then join ":" (take start texts) +:+ "::" +:+ join ":" (drop (start + len) texts)
  else join ":" texts.

Definition ipv6_text (v : Z) : string :=
  if (v / 4294967296 =? 65535)%Z then "::ffff:" +:+ ipv4_text (v mod 4294967296)
  else compressed_text (map (fun k => (v / 65536 ^ k) mod 65536)%Z [7; 6; 5; 4; 3; 2; 1; 0]%Z).

(** [str(a)] *)
Definition ip_text (a : IpAddress) : string :=
  match a with
  | IPv4Address v => ipv4_text v
  | IPv6Address v scope =>
      ipv6_text v +:+ match scope with Some s => "%" +:+ s | None => "" end
  end.

Example ip_address_cases :
  map (fun s => option_map ip_text (ip_address s))
    ["10.0.0.1"; "010.0.0.1"; "256.1.1.1"; "1.2.3"; "::1"; "::"; "2001:DB8:0:0:1::1"; "fe80::1%eth0";
     "fe80::1%"; "1::2::3"; ":1::2"; "1:2:3:4:5:6:7:8"; "1:2:3:4:5:6:7::"; "::ffff:1.2.3.4"; "1:2:3:4:5:6:7:8:9";
     "64:ff9b::192.0.2.33"; "1.2.3.4/32"; ""; "1:0:0:2:0:0:0:3"; "0:0:1:0:0:2:3:4"; "12345::"]
  = [Some "10.0.0.1"; None; None; None; Some "::1"; Some "::"; Some "2001:db8::1:0:0:1"; Some "fe80::1%eth0";
     None; None; None; Some "1:2:3:4:5:6:7:8"; Some "1:2:3:4:5:6:7:0"; Some "::ffff:1.2.3.4"; None;
     Some "64:ff9b::c000:221"; None; None; Some "1:0:0:2::3"; Some "::1:0:0:2:3:4"; None].
Proof. vm_compute. reflexivity. Qed.

Example py_int0_cases :
  map py_int0 ["0x2024"; "0X_1f"; " -12 "; "012"; "00"; "0b101"; "0x"; "1_0"; "1__0"; "0o17"; "abc"; ""]
  = [Some 8228; Some 31; Some (-12); None; Some 0; Some 5; None; Some 10; None; Some 15; None; None]%Z.
Proof. vm_compute. reflexivity. Qed.

Example shlex_split_cases :
  map shlex_split ["-A X -d 1.2.3.4/32 --comment 'a b' -j Y"; "a 'b"; "a\ b c"; "x '' y"; "a\"]
  = [Some ["-A"; "X"; "-d"; "1.2.3.4/32"; "--comment"; "a b"; "-j"; "Y"]; None; Some ["a b"; "c"];
     Some ["x"; ""; "y"]; None].
Proof. vm_compute. reflexivity. Qed.

(** ** Characters of the printed forms *)
Lemma forall_chars_app p a b : forall_chars p (a +:+ b) = forall_chars p a && forall_chars p b.
Proof. induction a as [|c a IH]; [done|]. change (String c a +:+ b) with (String c (a +:+ b)).
  cbn [forall_chars]. by rewrite IH, andb_assoc.
Qed.

Lemma contains_char_false c s : forall_chars (fun d => negb (Ascii.eqb c d)) s = true → contains (String c "") s = false.
Proof.
  induction s as [|d s IH]; cbn; [done|]. rewrite andb_true_iff, negb_true_iff. intros [Hd Hs].
  rewrite IH by done. rewrite orb_false_r.
  destruct (ascii_dec c d) as [->|]; [by rewrite Ascii.eqb_refl in Hd|done].
Qed.

Lemma contains_app_r x a b : contains x b = true → contains x (a +:+ b) = true.
Proof. intros H. induction a as [|c a IH]; [done|].
  change (String c a +:+ b) with (String c (a +:+ b)). cbn [contains]. by rewrite IH, orb_true_r.
Qed.

Lemma prefix_app a b : String.prefix a (a +:+ b) = true.
Proof. induction a as [|c a IH]; [by destruct b|].
  change (String c a +:+ b) with (String c (a +:+ b)). cbn [String.prefix]. by destruct (ascii_dec c c).
Qed.

Lemma contains_infix a x b : contains x (a +:+ x +:+ b) = true.
Proof.
  apply contains_app_r. destruct (x +:+ b) eqn:E.
  - destruct x; [done|discriminate].
  - cbn [contains]. rewrite <- E. by rewrite prefix_app.
Qed.

Lemma pretty_N_go_digits x s :
  forall_chars (char_in 48 57) s = true → forall_chars (char_in 48 57) (pretty_N_go x s) = true.
Proof.
  revert s. induction (N.lt_wf_0 x) as [x _ IH]; intros s Hs.
  assert (x = 0 ∨ 0 < x)%N as [->|Hx] by lia; [done|].
  rewrite pretty_N_go_step by done. apply IH; [by apply N.div_lt|].
  cbn. rewrite Hs, andb_true_r. unfold pretty_N_char. by repeat case_match.
Qed.

Lemma pretty_N_digits (n : N) : forall_chars (char_in 48 57) (pretty n) = true.
Proof. unfold pretty, pretty_N. case_decide; [done|]. by apply pretty_N_go_digits. Qed.

Lemma pretty_Z_cases (z : Z) :
  (forall_chars (char_in 48 57) (pretty z) = true) ∨
  (∃ s, pretty z = "-" +:+ s ∧ forall_chars (char_in 48 57) s = true).
Proof.
  destruct z as [|q|q]; [by left| left; apply pretty_N_digits|].
  right. exists (pretty (Npos q)). split; [done|apply pretty_N_digits].
Qed.

Lemma pretty_Z_nonneg_digits (z : Z) : (0 <= z)%Z → forall_chars (char_in 48 57) (pretty z) = true.
Proof. destruct z as [|q|q]; [done|intros _; apply pretty_N_digits|lia]. Qed.

Lemma ipv4_text_no_colon v : contains ":" (ipv4_text v) = false.
Proof.
  apply contains_char_false. unfold ipv4_text. cbn [map join String.concat].
  rewrite !forall_chars_app, !andb_true_iff.
  assert (H : ∀ z, forall_chars (fun d => negb (Ascii.eqb ":" d)) (pretty (z mod 256)%Z) = true).
  { intros z. apply (forall_chars_impl (char_in 48 57)).
    - intros c. destruct (Ascii.eqb ":" c) eqn:E; [|done]. apply Ascii.eqb_eq in E. by subst c.
    - apply pretty_Z_nonneg_digits. by apply Z.mod_pos_bound. }
  cbn [forall_chars]. rewrite !H.
  done.
Qed.

Lemma ipv6_text_colon v : contains ":" (ipv6_text v) = true.
Proof.
  unfold ipv6_text. destruct (v / 4294967296 =? 65535)%Z; [done|].
  unfold compressed_text. destruct (longest_zero_run _ _ _ _) as [start len].
  destruct (1 <? len)%nat.
  - apply contains_app_r. done.
  - unfold join. cbn [map String.concat]. apply contains_infix.
Qed.

Lemma ip_text_family a : contains ":" (ip_text a) = (ip_version a =? 6)%Z.
Proof.
  destruct a as [v|v scope]; cbn [ip_text ip_version]; [apply ipv4_text_no_colon|].
  pose proof (ipv6_text_colon v) as H. revert H. generalize (ipv6_text v) as s. intros s.
  induction s as [|c s IH]; [done|].
  change (String c s +:+ ?x) with (String c (s +:+ x)). cbn [contains].
  rewrite !orb_true_iff. intros [H|H]; [left|right; by apply IH].
  revert H. cbn [String.prefix]. destruct (ascii_dec ":" c); [|done]. intros _.
  by destruct (s +:+ _).
Qed.

(** ** Hexadecimal literals *)
Lemma hex_digit_spec d : (0 <= d < 16)%Z →
  hex_value (hex_digit d) = Some d ∧ is_hex (hex_digit d) = true.
Proof.
  intros H. assert (d = 0 ∨ d = 1 ∨ d = 2 ∨ d = 3 ∨ d = 4 ∨ d = 5 ∨ d = 6 ∨ d = 7 ∨ d = 8 ∨ d = 9 ∨ d = 10
    ∨ d = 11 ∨ d = 12 ∨ d = 13 ∨ d = 14 ∨ d = 15)%Z as Hd by lia.
  by destruct_or! Hd; subst.
Qed.

Lemma hex_digits_value fuel z acc count ready s :
  (0 <= z < 16 ^ Z.of_nat (S fuel))%Z →
  ∃ n, base_digits 16 ready acc count (hex_digits (S fuel) z s)
       = base_digits 16 true (acc * 16 ^ Z.of_nat n + z) (count + n) s.
Proof.
  revert z s. induction fuel as [|fuel IH]; intros z s Hz; cbn [hex_digits].
  all: assert (Hm : (0 <= z mod 16 < 16)%Z) by (apply Z.mod_pos_bound; lia).
  all: destruct (hex_digit_spec _ Hm) as [Hv _].
  all: assert (Hd : z = (16 * (z / 16) + z mod 16)%Z) by (apply Z.div_mod; lia).
  all: destruct (z <? 16)%Z eqn:E; [apply Z.ltb_lt in E|apply Z.ltb_ge in E].
  1,3: exists 1%nat; cbn [base_digits]; rewrite Hv;
       rewrite (proj2 (Z.ltb_lt (z mod 16) 16)) by lia;
       rewrite Nat.add_1_r; do 2 f_equal; change (16 ^ Z.of_nat 1)%Z with 16%Z;
       rewrite Z.mod_small by lia; lia.
  - change (16 ^ Z.of_nat 1)%Z with 16%Z in Hz. lia.
  - destruct (IH (z / 16)%Z (String (hex_digit (z mod 16)) s)) as [n Hn].
    + rewrite (Nat2Z.inj_succ (S fuel)), Z.pow_succ_r in Hz by lia.
      split; [apply Z.div_pos; lia|]. apply Z.div_lt_upper_bound; lia.
    + exists (S n). cbn [hex_digits] in Hn. rewrite Hn. cbn [base_digits]. rewrite Hv.
      rewrite (proj2 (Z.ltb_lt (z mod 16) 16)) by lia.
      rewrite Nat2Z.inj_succ, Z.pow_succ_r by lia. rewrite Nat.add_succ_r. f_equal.
      rewrite Hd at 3. ring.
Qed.

Lemma hex_digits_chars fuel z s :
  (0 <= z)%Z → forall_chars is_hex s = true → forall_chars is_hex (hex_digits fuel z s) = true.
Proof.
  revert z s. induction fuel as [|fuel IH]; intros z s Hz Hs; [done|]. cbn [hex_digits].
  destruct (hex_digit_spec (z mod 16)) as [_ Hh]; [apply Z.mod_pos_bound; lia|].
  assert (Hs' : forall_chars is_hex (String (hex_digit (z mod 16)) s) = true) by (cbn; by rewrite Hh).
  destruct (z <? 16)%Z; [done|]. apply IH; [apply Z.div_pos; lia|done].
Qed.

Lemma hex_text_nonneg z : (0 <= z)%Z →
  hex_text z = hex_digits (S (Z.to_nat (Z.log2 z))) z "" ∧
  forall_chars is_hex (hex_text z) = true ∧ hex_text z ≠ "" ∧
  ∃ n, base_digits 16 false 0 0 (hex_text z) = Some (z, n).
Proof.
  intros Hz. assert (E : hex_text z = hex_digits (S (Z.to_nat (Z.log2 z))) z "").
  { unfold hex_text. rewrite Z.abs_eq by done. by rewrite (proj2 (Z.ltb_ge z 0)) by lia. }
  split; [done|]. rewrite E.
  assert (Hb : ∃ n, base_digits 16 false 0 0 (hex_digits (S (Z.to_nat (Z.log2 z))) z "") = Some (z, n)).
  { destruct (hex_digits_value (Z.to_nat (Z.log2 z)) z 0 0 false "") as [n Hn].
    - split; [done|]. rewrite Nat2Z.inj_succ, Z2Nat.id by (apply Z.log2_nonneg).
      destruct (Z.eq_dec z 0) as [->|]; [done|].
      apply Z.lt_le_trans with (2 ^ Z.succ (Z.log2 z))%Z; [apply Z.log2_spec; lia|].
      apply Z.pow_le_mono_l. lia.
    - exists n. rewrite Hn. cbn [base_digits]. done. }
  split; [apply hex_digits_chars; done|]. split; [|done].
  destruct Hb as [n Hn]. intros E0. by rewrite E0 in Hn.
Qed.

Lemma lstrip_no_space s : forall_chars (fun c => negb (is_space c)) s = true → lstrip_by is_space s = s.
Proof. destruct s as [|c s]; cbn; [done|]. by destruct (is_space c). Qed.

Lemma rstrip_no_space s : forall_chars (fun c => negb (is_space c)) s = true → rstrip_by is_space s = s.
Proof.
  induction s as [|c s IH]; cbn; [done|]. destruct (is_space c); [done|]. cbn. intros H. by rewrite IH.
Qed.

Lemma strip_no_space s : forall_chars (fun c => negb (is_space c)) s = true → strip s = s.
Proof. intros H. unfold strip. by rewrite lstrip_no_space, rstrip_no_space. Qed.

Lemma is_hex_cases c : is_hex c = true → c ≠ "_"%char ∧ c ≠ "/"%char ∧ is_space c = false.
Proof. destruct c as [[] [] [] [] [] [] [] []]; vm_compute; done. Qed.

(** [int("0x" + f"{n:x}", 0)] is [n] *)
Lemma py_int0_hex z : (0 <= z)%Z → py_int0 ("0x" +:+ hex_text z) = Some z.
Proof.
  intros Hz. destruct (hex_text_nonneg z Hz) as (_ & Hh & Hne & n & Hn).
  unfold py_int0. rewrite strip_no_space.
  - change ("0x" +:+ hex_text z) with (String "0" (String "x" (hex_text z))). cbn match.
    unfold prefixed_digits. destruct (hex_text z) as [|c s] eqn:E; [done|].
    cbn in Hh. apply andb_true_iff in Hh as [Hc%is_hex_cases _].
    destruct Hc as (Hu & _). rewrite <- E in *.
    assert (Hm : drop_underscore (hex_text z) = hex_text z).
    { rewrite E. by destruct c as [[] [] [] [] [] [] [] []]. }
    rewrite Hm, Hn. cbn. f_equal. lia.
  - change ("0x" +:+ hex_text z) with (String "0" (String "x" (hex_text z))). cbn [forall_chars].
    apply (forall_chars_impl is_hex); [|done]. intros c Hc. by destruct (is_hex_cases c Hc) as (_ & _ & ->).
Qed.

Lemma forall_chars_join p sep l :
  forall_chars p sep = true → Forall (fun s => forall_chars p s = true) l → forall_chars p (join sep l) = true.
Proof.
  intros Hsep. induction 1 as [|s l Hs Hl IH]; [done|]. destruct l as [|t l]; [done|].
  change (join sep (s :: t :: l)) with (s +:+ sep +:+ join sep (t :: l)).
  by rewrite !forall_chars_app, Hs, Hsep, IH.
Qed.

(** Neither family prints a slash in the address itself. *)
Lemma ipv6_text_no_slash v : forall_chars (fun c => negb (Ascii.eqb "/" c)) (ipv6_text v) = true.
Proof.
  assert (Hhex : ∀ z, forall_chars (fun c => negb (Ascii.eqb "/" c)) (hex_text (z mod 65536)) = true).
  { intros z. apply (forall_chars_impl is_hex).
    - intros c (_ & Hc & _)%is_hex_cases. apply negb_true_iff, Ascii.eqb_neq. congruence.
    - apply hex_text_nonneg. by apply Z.mod_pos_bound. }
  unfold ipv6_text. destruct (v / 4294967296 =? 65535)%Z.
  - rewrite forall_chars_app. apply andb_true_iff. split; [done|].
    apply forall_chars_join; [done|]. apply Forall_map, Forall_true. intros z.
    apply (forall_chars_impl (char_in 48 57)).
    + intros c. destruct (Ascii.eqb "/" c) eqn:E; [|done]. apply Ascii.eqb_eq in E. by subst c.
    + apply pretty_Z_nonneg_digits. by apply Z.mod_pos_bound.
  - unfold compressed_text. destruct (longest_zero_run _ _ _ _) as [start len].
    assert (Hall : Forall (fun s => forall_chars (fun c => negb (Ascii.eqb "/" c)) s = true)
      (map hex_text (map (fun k => (v / 65536 ^ k) mod 65536)%Z [7; 6; 5; 4; 3; 2; 1; 0]%Z))).
    { apply Forall_map, Forall_map, Forall_true. intros z. apply Hhex. }
    destruct (1 <? len)%nat; [|by apply forall_chars_join].
    rewrite !forall_chars_app, !andb_true_iff.
    repeat split; [apply forall_chars_join; [done|by apply Forall_take]|apply forall_chars_join; [done|by apply Forall_drop]].
Qed.

Lemma ip_text_not_prefixed a s :
  contains "/" s = true → contains "%" s = false → ip_text a = s → ip_version a = 6%Z → False.
Proof.
  intros Hs Hp E Hv. destruct a as [|v scope]; [done|]. cbn in E. subst s.
  destruct scope as [sc|].
  - rewrite contains_infix in Hp. done.
  - assert (Hn : contains "/" (ipv6_text v +:+ "") = false); [|by rewrite Hn in Hs].
    apply contains_char_false. by rewrite forall_chars_app, ipv6_text_no_slash.
Qed.
