(* ===== verification/Profiles.v ===== *)
(** * Profiles, providers, their stores, and the reported connection state

    models/profile.py, models/provider.py, models/connection_state.py,
    config/profile_store.py and config/provider_store.py.  A store's state is the
    list of decoded records of its JSON file, in file order. *)
From stdpp Require Import base list strings gmap pretty sorting.
From Stdlib Require Import Ascii QArith.
From S2P Require Import Prelude PyData.

(** ** models/profile.py *)
Inductive ProtocolType : Type :=
| VLESS | VMESS | TROJAN | HYSTERIA2 | TUIC | SHADOWSOCKS
| WIREGUARD | AMNEZIAWG | SOCKS | HTTP | OPENVPN | OPENVPN_CLOAK.

#[global] Instance ProtocolType_eq_dec : EqDecision ProtocolType.
Proof. solve_decision. Defined.

(** [protocol.value] *)
Definition protocol_value (p : ProtocolType) : string :=
  match p with
  | VLESS => "vless" | VMESS => "vmess" | TROJAN => "trojan" | HYSTERIA2 => "hysteria2" | TUIC => "tuic"
  | SHADOWSOCKS => "shadowsocks" | WIREGUARD => "wireguard" | AMNEZIAWG => "amneziawg" | SOCKS => "socks" | HTTP => "http"
  | OPENVPN => "openvpn" | OPENVPN_CLOAK => "openvpn_cloak"
  end.

Inductive ProfileSource : Type := MANUAL_SOURCE | SUBSCRIPTION.

#[global] Instance ProfileSource_eq_dec : EqDecision ProfileSource.
Proof. solve_decision. Defined.

Inductive ResilienceCategory : Type := RESILIENT | COMPATIBILITY.

#[global] Instance ResilienceCategory_eq_dec : EqDecision ResilienceCategory.
Proof. solve_decision. Defined.

(** A [datetime]: wall-clock microseconds and, for an aware one, its UTC offset. *)
Record datetime : Type := { dt_wall : Z; dt_utcoffset : option Z }.

(** [d.replace(tzinfo=timezone.utc)] when [d.tzinfo is None] *)
Definition assume_utc (d : datetime) : datetime :=
  match dt_utcoffset d with
  | None => {| dt_wall := dt_wall d; dt_utcoffset := Some 0%Z |}
  | Some _ => d
  end.

(** The instant of an aware [datetime], in microseconds. *)
Definition dt_instant (d : datetime) : Z :=
  match dt_utcoffset d with Some o => (dt_wall d - o)%Z | None => dt_wall d end.

Record Profile : Type := {
  p_id : string;
  p_name : string;
  p_protocol : ProtocolType;
  p_config : pydict pyval;
  p_source : ProfileSource;
  p_provider_id : option string;
  p_in_rotation_pool : bool;
  p_enabled : bool;
  p_created_at : datetime;
  p_last_used : option datetime;
  p_last_health_check : option datetime;
  p_health_status : string;
  p_latency_ms : option pyfloat;
  p_last_latency_check : option datetime
}.

(** [PROTOCOL_RESILIENCE_CATEGORY], an association table as in the source *)
Definition PROTOCOL_RESILIENCE_CATEGORY : list (ProtocolType * ResilienceCategory) :=
  [ (VLESS, RESILIENT); (TROJAN, RESILIENT); (HYSTERIA2, RESILIENT);
    (AMNEZIAWG, RESILIENT); (OPENVPN_CLOAK, RESILIENT);
    (VMESS, COMPATIBILITY); (TUIC, COMPATIBILITY); (SHADOWSOCKS, COMPATIBILITY);
    (WIREGUARD, COMPATIBILITY); (SOCKS, COMPATIBILITY); (HTTP, COMPATIBILITY);
    (OPENVPN, COMPATIBILITY) ].

(** Direct indexing: a protocol without an entry raises [KeyError]. *)
Definition profile_resilience_category (p : Profile) : res ResilienceCategory :=
  match List.find (fun e => bool_decide (e.1 = p_protocol p)) PROTOCOL_RESILIENCE_CATEGORY with
  | Some e => Ok e.2
  | None => raise KeyError "protocol"
  end.

(** The category as a total function, for the specifications. *)
Definition resilient (p : Profile) : bool :=
  match profile_resilience_category p with Ok RESILIENT => true | _ => false end.

(** ** models/provider.py *)
Record Provider : Type := {
  prov_id : string;
  prov_name : string;
  prov_url : string;
  prov_last_updated : option datetime;
  prov_profiles : list string;
  prov_rotation_enabled : bool;
  prov_auto_update : bool;
  prov_update_interval_hours : Z;
  prov_metadata : pydict pyval
}.

(** [str(url or "").strip()] *)
Definition normalized_provider_url (url : string) : string := strip url.

(** ** config/profile_store.py *)
Section profile_store.
(** [parsers.openvpn_safety.validate_openvpn_profile] *)
Context (validate_openvpn_profile : Profile → res unit).

Definition ProfileStore_add (p : Profile) : PyM (list Profile) unit :=
  _ ← liftR (validate_openvpn_profile p);
  modifyS (fun items =>
    List.filter (fun item => negb (String.eqb (p_id item) (p_id p))) items ++ [p]).

Definition ProfileStore_update : Profile → PyM (list Profile) unit := ProfileStore_add.

Definition ProfileStore_update_atomically {T}
    (transform : list Profile → res (list Profile * T)) : PyM (list Profile) T :=
  current ← getS;
  rt ← liftR (transform current);
  _ ← liftR (map_res validate_openvpn_profile rt.1);
  _ ← modifyS (fun _ => rt.1);
  mret rt.2.
End profile_store.

Definition ProfileStore_get (profile_id : string) (items : list Profile) : option Profile :=
  List.find (fun item => String.eqb (p_id item) profile_id) items.

Definition ProfileStore_list (items : list Profile) : list Profile := items.

Definition ProfileStore_remove (profile_id : string) : PyM (list Profile) unit :=
  modifyS (List.filter (fun item => negb (String.eqb (p_id item) profile_id))).

(** ** config/provider_store.py *)
Definition ProviderStore_add (p : Provider) : PyM (list Provider) unit :=
  items ← getS;
  let provider_url := normalized_provider_url (prov_url p) in
  _ ← liftR (ensure
        (forallb (fun item =>
           String.eqb (prov_id item) (prov_id p)
           || negb (String.eqb (normalized_provider_url (prov_url item)) provider_url)) items)
        DuplicateProviderError "provider already exists");
  _ ← liftR (ensure
        (negb (negb (str_in (prov_id p) (map prov_id items)) && (2 <=? length items)%nat))
        ProviderLimitError "maximum 2 external providers allowed");
  let p' := {| prov_id := prov_id p; prov_name := prov_name p; prov_url := provider_url;
               prov_last_updated := prov_last_updated p; prov_profiles := prov_profiles p;
               prov_rotation_enabled := prov_rotation_enabled p;
               prov_auto_update := prov_auto_update p;
               prov_update_interval_hours := prov_update_interval_hours p;
               prov_metadata := prov_metadata p |} in
  modifyS (fun items =>
    List.filter (fun item => negb (String.eqb (prov_id item) (prov_id p))) items ++ [p']).

Definition ProviderStore_get (provider_id : string) (items : list Provider) : option Provider :=
  List.find (fun item => String.eqb (prov_id item) provider_id) items.

Definition ProviderStore_remove (provider_id : string) : PyM (list Provider) unit :=
  modifyS (List.filter (fun item => negb (String.eqb (prov_id item) provider_id))).

(** ** models/connection_state.py *)
Definition ALLOWED_STATUSES : list string :=
  [ "connected"; "reconnecting"; "all_failed"; "normal_network_temp";
    "kill_switch_active"; "kill_switch_failed"; "kill_switch_disable_failed";
    "dns_restore_failed"; "waiting_retry"; "rotation_unavailable";
    "recovery_disabled"; "recovered"; "standby"; "runtime_mismatch";
    "unsupported_policy"; "cleanup_failed" ].

Definition FAILURE_STATUSES : list string :=
  [ "all_failed"; "kill_switch_active"; "kill_switch_failed";
    "kill_switch_disable_failed"; "dns_restore_failed"; "normal_network_temp";
    "rotation_unavailable"; "recovery_disabled"; "waiting_retry";
    "runtime_mismatch"; "unsupported_policy"; "cleanup_failed" ].

Record ConnectionState : Type := {
  cs_active_profile_id : string;
  cs_connected_at : option datetime;
  cs_mode : string;
  cs_tun_active : bool;
  cs_proxy_active : bool;
  cs_kill_switch_active : bool;
  cs_kill_switch_status : string;
  cs_kill_switch_method : string;
  cs_kill_switch_consistent : bool;
  cs_runtime_mismatch_severity : string;
  cs_runtime_artifacts : list string;
  cs_lan_gateway_active : bool;
  cs_lan_gateway_interface : string;
  cs_lan_gateway_client_cidr : string;
  cs_lan_gateway_dns_mode : string;
  cs_lan_gateway_status : string;
  cs_status : string;
  cs_last_failure_reason : string;
  cs_last_failure_at : option datetime
}.

(** [ConnectionState.__post_init__] *)
Definition ConnectionState_post_init (c : ConnectionState) : res ConnectionState :=
  if str_in (cs_status c) ALLOWED_STATUSES then Ok c
  else raise ValueError ("invalid status: " +:+ cs_status c).

(** [ConnectionState(status=st, mode=m)]: every other field at its default *)
Definition default_ConnectionState (st m : string) : ConnectionState := {|
  cs_active_profile_id := ""; cs_connected_at := None; cs_mode := m;
  cs_tun_active := false; cs_proxy_active := false; cs_kill_switch_active := false;
  cs_kill_switch_status := "inactive"; cs_kill_switch_method := "";
  cs_kill_switch_consistent := true; cs_runtime_mismatch_severity := "";
  cs_runtime_artifacts := []; cs_lan_gateway_active := false; cs_lan_gateway_interface := "";
  cs_lan_gateway_client_cidr := ""; cs_lan_gateway_dns_mode := "";
  cs_lan_gateway_status := "disabled"; cs_status := st;
  cs_last_failure_reason := ""; cs_last_failure_at := None |}.

Definition new_ConnectionState (st m : string) : res ConnectionState :=
  ConnectionState_post_init (default_ConnectionState st m).

(** ** Theorems *)

(** Replacing the record with a given key keeps keys unique. *)
Lemma upsert_nodup {A} (key : A → string) l x :
  NoDup (map key l) →
  NoDup (map key (List.filter (fun y => negb (String.eqb (key y) (key x))) l ++ [x])).
Proof.
  intros H. rewrite map_app. apply NoDup_app. split; [|split].
  - eapply sublist_NoDup; [exact H|]. apply (fmap_sublist key), List_filter_sublist.
  - intros k Hk ->%list_elem_of_singleton.
    apply list_elem_of_fmap in Hk as (y & -> & [_ Hy]%List_filter_elem_of).
    by rewrite String.eqb_refl in Hy.
  - apply NoDup_singleton.
Qed.

Lemma filter_keep_nodup {A} (key : A → string) f l :
  NoDup (map key l) → NoDup (map key (List.filter f l)).
Proof.
  intros H. eapply sublist_NoDup; [exact H|]. apply (fmap_sublist key), List_filter_sublist.
Qed.

Lemma filter_other_key_find {A} (key : A → string) k l x :
  key x = k →
  List.find (fun y => String.eqb (key y) k)
    (List.filter (fun y => negb (String.eqb (key y) (key x))) l ++ [x]) = Some x.
Proof.
  intros <-. induction l as [|y l IH]; cbn; [by rewrite String.eqb_refl|].
  destruct (String.eqb (key y) (key x)) eqn:E; cbn; [done|]. by rewrite E.
Qed.

Lemma filter_find_other {A} (key : A → string) k k' l :
  k ≠ k' →
  List.find (fun y => String.eqb (key y) k)
    (List.filter (fun y => negb (String.eqb (key y) k')) l)
  = List.find (fun y => String.eqb (key y) k) l.
Proof.
  intros Hk. induction l as [|y l IH]; cbn; [done|].
  destruct (String.eqb_spec (key y) k') as [E|]; cbn.
  - destruct (String.eqb_spec (key y) k); [congruence | done].
  - by rewrite IH.
Qed.

Lemma find_app_miss {A} (f : A → bool) l x :
  f x = false → List.find f (l ++ [x]) = List.find f l.
Proof.
  intros H. induction l as [|y l IH]; cbn; [by rewrite H|]. by rewrite IH.
Qed.

Lemma find_filter_gone {A} (key : A → string) k l :
  List.find (fun y => String.eqb (key y) k)
    (List.filter (fun y => negb (String.eqb (key y) k)) l) = None.
Proof.
  induction l as [|y l IH]; cbn; [done|].
  destruct (String.eqb (key y) k) eqn:E; cbn; [done|]. by rewrite E.
Qed.

Definition provider_store_wf (items : list Provider) : Prop :=
  NoDup (map prov_id items)
  ∧ NoDup (map (fun p => normalized_provider_url (prov_url p)) items)
  ∧ (length items ≤ 2)%nat.

Lemma length_filter_lt {A} (f : A → bool) l x :
  x ∈ l → f x = false → (length (List.filter f l) < length l)%nat.
Proof.
  intros Hx Hf. induction l as [|y l IH]; [by apply not_elem_of_nil in Hx|].
  cbn. apply elem_of_cons in Hx as [->|Hx].
  - rewrite Hf. pose proof (filter_length_le f l). lia.
  - specialize (IH Hx). destruct (f y); cbn; lia.
Qed.

Lemma upsert_provider_wf items p p' :
  provider_store_wf items →
  prov_id p' = prov_id p →
  prov_url p' = normalized_provider_url (prov_url p) →
  (∀ q, q ∈ items → prov_id q ≠ prov_id p →
        normalized_provider_url (prov_url q) ≠ normalized_provider_url (prov_url p)) →
  (prov_id p ∈ map prov_id items ∨ (length items < 2)%nat) →
  provider_store_wf
    (List.filter (fun q => negb (String.eqb (prov_id q) (prov_id p))) items ++ [p']).
Proof.
  intros (Hid & Hurl & Hlen) Hi Hu Hdup Hcap. split; [|split].
  - rewrite <- Hi. by apply upsert_nodup.
  - rewrite map_app. apply NoDup_app. split; [|split].
    + by apply (filter_keep_nodup (fun p => normalized_provider_url (prov_url p))).
    + intros u Hq ->%list_elem_of_singleton.
      apply list_elem_of_fmap in Hq as (q & Hq & [Hin Hne]%List_filter_elem_of).
      rewrite Hu in Hq. unfold normalized_provider_url at 1 in Hq. rewrite strip_idem in Hq.
      apply negb_true_iff, String.eqb_neq in Hne. by apply (Hdup q Hin Hne).
    + apply NoDup_singleton.
  - rewrite length_app. cbn. destruct Hcap as [(q & Hq & Hin)%list_elem_of_fmap|Hlt].
    + assert ((length (List.filter (fun q => negb (String.eqb (prov_id q) (prov_id p))) items)
              < length items)%nat); [|lia].
      apply (length_filter_lt _ _ q); [done|]. by rewrite <- Hq, String.eqb_refl.
    + pose proof (filter_length_le (fun q => negb (String.eqb (prov_id q) (prov_id p))) items).
      lia.
Qed.

Lemma ProviderStore_add_cases p items :
  (∃ e, ProviderStore_add p items = (Err e, items))
  ∨ (provider_store_wf items → provider_store_wf (ProviderStore_add p items).2).
Proof.
  unfold ProviderStore_add, mbind, pym_bind, getS, liftR, ensure.
  destruct (forallb _ items) eqn:Hd; cbn; [|left; by eexists].
  destruct (negb (_ && _)) eqn:Hc; cbn; [|left; by eexists].
  right. intros Hwf. apply upsert_provider_wf; [done..| |].
  - intros q Hq Hne Hu. rewrite forallb_forall in Hd.
    rewrite list_elem_of_In in Hq. specialize (Hd q Hq).
    rewrite (proj2 (String.eqb_neq _ _) Hne), (proj2 (String.eqb_eq _ _) Hu) in Hd. done.
  - destruct (str_in (prov_id p) (map prov_id items)) eqn:Hs; cbn in Hc.
    + left. by apply str_in_spec.
    + right. destruct (length items) as [|[|n]]; [lia | lia | done].
Qed.

(** A step of the provider store: any call of [add] or [remove]. *)
Inductive provider_step : list Provider → list Provider → Prop :=
| step_add p items : provider_step items (ProviderStore_add p items).2
| step_remove i items : provider_step items (ProviderStore_remove i items).2.

(** from an empty provider file, whatever sequence of [add] and [remove]
    calls is made (rejected calls included), provider ids are unique, no two
    providers share a normalised URL, and there are never more than two. *)
Theorem provider_store_invariant items :
  rtc provider_step [] items → provider_store_wf items.
Proof.
  intros H. assert (provider_store_wf []) as H0 by (repeat constructor; cbn; lia).
  revert H0. induction H as [l|l l' l'' Hs _ IH]; [done|]. intros Hwf. apply IH.
  destruct Hs as [p l|i l].
  - destruct (ProviderStore_add_cases p l) as [[e He]|Ha]; [by rewrite He | auto].
  - destruct Hwf as (H1 & H2 & H3). cbn. split; [|split].
    + by apply filter_keep_nodup.
    + by apply (filter_keep_nodup (fun p => normalized_provider_url (prov_url p))).
    + pose proof (filter_length_le (fun q => negb (String.eqb (prov_id q) i)) l). lia.
Qed.

Definition demo_provider (i u : string) : Provider := {|
  prov_id := i; prov_name := i; prov_url := u; prov_last_updated := None; prov_profiles := [];
  prov_rotation_enabled := true; prov_auto_update := false; prov_update_interval_hours := 24;
  prov_metadata := [] |}.

(** Two additions, a third that is refused, and a removal. *)
Lemma provider_store_invariant_witness :
  provider_store_wf [demo_provider "b" "https://b"].
Proof.
  apply provider_store_invariant.
  eapply rtc_l; [apply (step_add (demo_provider "a" "https://a"))|].
  eapply rtc_l; [apply (step_add (demo_provider "b" " https://b "))|].
  eapply rtc_l; [apply (step_add (demo_provider "c" "https://c"))|].
  eapply rtc_l; [apply (step_remove "a")|]. apply rtc_refl.
Defined.
