(* ===== verification/Rotation.v ===== *)
(** * The rotation engine: rotation/rotation_engine.py

    [RotationEngine] drives an arbitrary driver over an arbitrary world [W]: the
    driver, the health check, the clock and the sleep function are the interface
    below, and every call of them can change [W] or raise.  A method is a state
    transformer on the engine's fields and the world.  Log messages are not
    modelled. *)
From stdpp Require Import base list strings gmap pretty sorting.
From Stdlib Require Import Ascii QArith Lqa.
From S2P Require Import Prelude PyData Profiles.

Record RotationResult : Type := {
  rr_profile : option Profile;
  rr_success : bool;
  rr_attempts : Z;
  rr_category : string;
  rr_rolled_back : bool;
  rr_cleanup_failed : bool
}.

Record RotationEngine : Type := {
  recent_keep : Z;
  min_seconds_between_rotations : Q;
  conservative_interval_multiplier : Q;
  max_attempts_per_cycle : Z;
  max_fails_before_rollback : Z;
  max_degraded_seconds_before_rollback : Q;
  warmup_seconds : Q;
  last_profile_id_ : option string;
  recent_profile_ids_ : list string;
  last_good_profile_id_ : option string;
  last_rotation_at_ : option Q;
  cleanup_barrier_failed_ : bool
}.

(** [RotationEngine()] *)
Definition RotationEngine_default : RotationEngine := {|
  recent_keep := 5; min_seconds_between_rotations := 120;
  conservative_interval_multiplier := 2; max_attempts_per_cycle := 8;
  max_fails_before_rollback := 4; max_degraded_seconds_before_rollback := 60;
  warmup_seconds := 3; last_profile_id_ := None; recent_profile_ids_ := [];
  last_good_profile_id_ := None; last_rotation_at_ := None;
  cleanup_barrier_failed_ := false |}.

(** ** Field updates *)
Definition set_history (last : option string) (recent : list string) (e : RotationEngine)
  : RotationEngine := {|
  recent_keep := recent_keep e;
  min_seconds_between_rotations := min_seconds_between_rotations e;
  conservative_interval_multiplier := conservative_interval_multiplier e;
  max_attempts_per_cycle := max_attempts_per_cycle e;
  max_fails_before_rollback := max_fails_before_rollback e;
  max_degraded_seconds_before_rollback := max_degraded_seconds_before_rollback e;
  warmup_seconds := warmup_seconds e;
  last_profile_id_ := last; recent_profile_ids_ := recent;
  last_good_profile_id_ := last_good_profile_id_ e;
  last_rotation_at_ := last_rotation_at_ e;
  cleanup_barrier_failed_ := cleanup_barrier_failed_ e |}.

Definition set_last_good (g : option string) (e : RotationEngine) : RotationEngine := {|
  recent_keep := recent_keep e;
  min_seconds_between_rotations := min_seconds_between_rotations e;
  conservative_interval_multiplier := conservative_interval_multiplier e;
  max_attempts_per_cycle := max_attempts_per_cycle e;
  max_fails_before_rollback := max_fails_before_rollback e;
  max_degraded_seconds_before_rollback := max_degraded_seconds_before_rollback e;
  warmup_seconds := warmup_seconds e;
  last_profile_id_ := last_profile_id_ e; recent_profile_ids_ := recent_profile_ids_ e;
  last_good_profile_id_ := g;
  last_rotation_at_ := last_rotation_at_ e;
  cleanup_barrier_failed_ := cleanup_barrier_failed_ e |}.

Definition set_last_rotation (t : option Q) (e : RotationEngine) : RotationEngine := {|
  recent_keep := recent_keep e;
  min_seconds_between_rotations := min_seconds_between_rotations e;
  conservative_interval_multiplier := conservative_interval_multiplier e;
  max_attempts_per_cycle := max_attempts_per_cycle e;
  max_fails_before_rollback := max_fails_before_rollback e;
  max_degraded_seconds_before_rollback := max_degraded_seconds_before_rollback e;
  warmup_seconds := warmup_seconds e;
  last_profile_id_ := last_profile_id_ e; recent_profile_ids_ := recent_profile_ids_ e;
  last_good_profile_id_ := last_good_profile_id_ e;
  last_rotation_at_ := t;
  cleanup_barrier_failed_ := cleanup_barrier_failed_ e |}.

Definition set_barrier (b : bool) (e : RotationEngine) : RotationEngine := {|
  recent_keep := recent_keep e;
  min_seconds_between_rotations := min_seconds_between_rotations e;
  conservative_interval_multiplier := conservative_interval_multiplier e;
  max_attempts_per_cycle := max_attempts_per_cycle e;
  max_fails_before_rollback := max_fails_before_rollback e;
  max_degraded_seconds_before_rollback := max_degraded_seconds_before_rollback e;
  warmup_seconds := warmup_seconds e;
  last_profile_id_ := last_profile_id_ e; recent_profile_ids_ := recent_profile_ids_ e;
  last_good_profile_id_ := last_good_profile_id_ e;
  last_rotation_at_ := last_rotation_at_ e;
  cleanup_barrier_failed_ := b |}.

(** ** Pure methods *)
Definition pool_size_category (pool_size : Z) : string :=
  if (pool_size =? 0)%Z then "unavailable"
  else if (pool_size =? 1)%Z then "single"
  else if (pool_size <=? 3)%Z then "conservative"
  else "full".

(** Membership in [_blocked_ids()] *)
Definition blocked_ids (e : RotationEngine) : list string :=
  recent_profile_ids_ e ++
  match last_profile_id_ e with
  | Some i => if truthy_str i then [i] else []
  | None => []
  end.

Definition candidates (e : RotationEngine) (pool : list Profile) : list Profile :=
  let filtered := List.filter (fun p => negb (str_in (p_id p) (blocked_ids e))) pool in
  match filtered with
  | [] => pool
  | _ => filtered
  end.

(** [now] is the reading of [self.clock()], made only when it is needed. *)
Definition can_rotate_now (e : RotationEngine) (category : string) (force : bool) (now : Q)
  : bool :=
  if force then true
  else match last_rotation_at_ e with
       | None => true
       | Some at_ =>
           let interval :=
             if String.eqb category "conservative"
             then (min_seconds_between_rotations e * conservative_interval_multiplier e)%Q
             else min_seconds_between_rotations e in
           Qle_bool interval (now - at_)
       end.

Definition remember (profile_id : string) (e : RotationEngine) : RotationEngine :=
  let items := profile_id ::
    List.filter (fun pid => negb (String.eqb pid profile_id)) (recent_profile_ids_ e) in
  set_history (Some profile_id) (py_take (recent_keep e) items) e.

Definition record_successful_profile (profile_id : string) (e : RotationEngine)
  : RotationEngine :=
  if truthy_str profile_id then set_last_good (Some profile_id) (remember profile_id e) else e.

(** ** The interface the engine is used with *)
Record RotationEnv (W D : Type) : Type := {
  (** [getattr(driver, "preflight_profile", None)] with [bool(...)] applied *)
  env_preflight : option (Profile → PyM W bool);
  env_disconnect : PyM W bool;
  env_connect : Profile → option D → PyM W bool;
  env_health_check : Profile → PyM W string;
  env_clock : PyM W Q;
  env_sleep : Q → PyM W unit
}.
Arguments env_preflight {W D}.
Arguments env_disconnect {W D}.
Arguments env_connect {W D}.
Arguments env_health_check {W D}.
Arguments env_clock {W D}.
Arguments env_sleep {W D}.

Section engine.
Context {W D : Type} (env : RotationEnv W D).

Abbreviation EM := (PyM (RotationEngine * W)).

Definition liftW {A} (m : PyM W A) : EM A := fun '(e, w) =>
  let '(r, w') := m w in (r, (e, w')).

Definition engine_update (f : RotationEngine → RotationEngine) : EM unit :=
  modifyS (fun '(e, w) => (f e, w)).

Definition engine_get : EM RotationEngine := gets fst.

(** [try: d = driver.disconnect()  except Exception: d = False] *)
Definition disconnect_or_false : EM bool :=
  try_except (liftW (env_disconnect env)) any_exn (fun _ => mret false).

(** The local function [cleanup_failed_attempt] of [_try_profile] *)
Definition cleanup_failed_attempt : EM bool :=
  disconnected ← disconnect_or_false;
  if (disconnected : bool) then mret false
  else _ ← engine_update (set_barrier true); mret true.

(** [_try_profile] from the connect call on: the teardown barrier is passed *)
Definition connect_and_check (p : Profile) (dns_policy : option D) : EM string :=
  connected ← liftW (env_connect env p dns_policy);
  if negb (connected : bool) then
    failed ← cleanup_failed_attempt;
    if (failed : bool) then mret "cleanup_failed" else mret "down"
  else
  e ← engine_get;
  _ ← (if Qltb 0 (warmup_seconds e) then liftW (env_sleep env (warmup_seconds e)) else mret tt);
  status ← liftW (env_health_check env p);
  if String.eqb status "ok" then mret status
  else
    failed ← cleanup_failed_attempt;
    if (failed : bool) then mret "cleanup_failed" else mret status.

Definition try_profile (p : Profile) (dns_policy : option D) : EM string :=
  preflight_ok ← match env_preflight env with
                 | Some preflight =>
                     try_except (liftW (preflight p)) any_exn (fun _ => mret false)
                 | None => mret true
                 end;
  if negb (preflight_ok : bool) then mret "preflight_failed" else
  disconnected ← disconnect_or_false;
  if negb (disconnected : bool) then
    _ ← engine_update (set_barrier true); mret "cleanup_failed"
  else connect_and_check p dns_policy.

Definition rollback (pool : list Profile) (dns_policy : option D) : EM (option Profile) :=
  e ← engine_get;
  match last_good_profile_id_ e with
  | None => mret None
  | Some good =>
      if negb (truthy_str good) then mret None else
      match List.find (fun p => String.eqb (p_id p) good) pool with
      | None => mret None
      | Some target =>
          status ← try_profile target dns_policy;
          if String.eqb status "ok" then
            _ ← engine_update (remember (p_id target)); mret (Some target)
          else mret None
      end
  end.

Definition stamp_rotation : EM unit :=
  now ← liftW (env_clock env);
  engine_update (set_last_rotation (Some now)).

Definition single_node_check (p : Profile) (dns_policy : option D) : EM RotationResult :=
  status ← try_profile p dns_policy;
  let success := String.eqb status "ok" in
  let cleanup_failed := String.eqb status "cleanup_failed" in
  _ ← (if success then engine_update (fun e => set_last_good (Some (p_id p)) (remember (p_id p) e))
       else mret tt);
  _ ← stamp_rotation;
  mret {| rr_profile := if success then Some p else None; rr_success := success;
          rr_attempts := 1; rr_category := "single"; rr_rolled_back := false;
          rr_cleanup_failed := cleanup_failed |}.

(** The results the loop and its epilogue return *)
Definition result_cleanup_failed (attempts : Z) (category : string) : RotationResult :=
  {| rr_profile := None; rr_success := false; rr_attempts := attempts;
     rr_category := category; rr_rolled_back := false; rr_cleanup_failed := true |}.

Definition result_failed (attempts : Z) (category : string) : RotationResult :=
  {| rr_profile := None; rr_success := false; rr_attempts := attempts;
     rr_category := category; rr_rolled_back := false; rr_cleanup_failed := false |}.

Definition result_ok (p : Profile) (attempts : Z) (category : string) (rolled_back : bool)
  : RotationResult :=
  {| rr_profile := Some p; rr_success := true; rr_attempts := attempts;
     rr_category := category; rr_rolled_back := rolled_back; rr_cleanup_failed := false |}.

(** The [for profile in candidates] loop of [rotate]: [inl] is a [return] from
    inside the loop, [inr] the attempts and the flag when the loop ends. *)
Fixpoint rotate_loop (pool : list Profile) (dns_policy : option D) (category : string)
    (cycle_start : Q) (cands : list Profile) (attempts failures : Z)
    (rollback_attempted : bool) : EM (RotationResult + (Z * bool)) :=
  match cands with
  | [] => mret (inr (attempts, rollback_attempted))
  | p :: rest =>
      e ← engine_get;
      if (max_attempts_per_cycle e <=? attempts)%Z
      then mret (inr (attempts, rollback_attempted)) else
      let attempts := (attempts + 1)%Z in
      status ← try_profile p dns_policy;
      if String.eqb status "cleanup_failed" then
        _ ← stamp_rotation; mret (inl (result_cleanup_failed attempts category))
      else if String.eqb status "ok" then
        _ ← engine_update (fun e => set_last_good (Some (p_id p)) (remember (p_id p) e));
        _ ← stamp_rotation; mret (inl (result_ok p attempts category false))
      else
      let failures := (failures + 1)%Z in
      now ← liftW (env_clock env);
      e ← engine_get;
      if negb rollback_attempted
         && ((max_fails_before_rollback e <=? failures)%Z
             || Qle_bool (max_degraded_seconds_before_rollback e) (now - cycle_start))
      then
        target ← rollback pool dns_policy;
        e ← engine_get;
        if cleanup_barrier_failed_ e then
          _ ← stamp_rotation; mret (inl (result_cleanup_failed attempts category))
        else match target with
        | Some t => _ ← stamp_rotation; mret (inl (result_ok t attempts category true))
        | None => rotate_loop pool dns_policy category cycle_start rest attempts failures true
        end
      else rotate_loop pool dns_policy category cycle_start rest attempts failures
             rollback_attempted
  end.

Definition rotate (pool : list Profile) (force : bool) (dns_policy : option D)
  : EM RotationResult :=
  _ ← engine_update (set_barrier false);
  let category := pool_size_category (py_len pool) in
  if String.eqb category "unavailable" then mret (result_failed 0 category) else
  if String.eqb category "single" then
    match pool with
    | p :: _ => single_node_check p dns_policy
    | [] => raiseM IndexError "list index out of range"
    end
  else
      e ← engine_get;
      allowed ← (if force || negb (bool_decide (is_Some (last_rotation_at_ e))) then mret true
                 else now ← liftW (env_clock env); mret (can_rotate_now e category force now));
      if negb (allowed : bool) then mret (result_failed 0 category) else
      let cands := candidates e pool in
      cycle_start ← liftW (env_clock env);
      outcome ← rotate_loop pool dns_policy category cycle_start cands 0 0 false;
      match outcome with
      | inl result => mret result
      | inr (attempts, rollback_attempted) =>
          target ← (if rollback_attempted : bool then mret None else rollback pool dns_policy);
          _ ← stamp_rotation;
          e ← engine_get;
          if cleanup_barrier_failed_ e then mret (result_cleanup_failed attempts category)
          else match target with
          | Some t => mret (result_ok t attempts category true)
          | None => mret (result_failed attempts category)
          end
      end.
End engine.

(** ** Specification: the calls the engine makes

    [logged_env env] behaves as [env] and records every driver call with its
    outcome, most recent first. *)
Inductive rot_event : Type :=
| EvPreflight (p : Profile) (r : res bool)
| EvDisconnect (r : res bool)
| EvConnect (p : Profile) (r : res bool)
| EvHealth (p : Profile) (r : res string).

Definition log_call {W A} (ev : res A → rot_event) (m : PyM W A)
  : PyM (W * list rot_event) A := fun '(w, l) =>
  let '(r, w') := m w in (r, (w', ev r :: l)).

Definition quiet_call {W A} (m : PyM W A) : PyM (W * list rot_event) A := fun '(w, l) =>
  let '(r, w') := m w in (r, (w', l)).

Definition logged_env {W D} (env : RotationEnv W D) : RotationEnv (W * list rot_event) D := {|
  env_preflight := (fun f p => log_call (EvPreflight p) (f p)) <$> env_preflight env;
  env_disconnect := log_call EvDisconnect (env_disconnect env);
  env_connect := fun p d => log_call (EvConnect p) (env_connect env p d);
  env_health_check := fun p => log_call (EvHealth p) (env_health_check env p);
  env_clock := quiet_call (env_clock env);
  env_sleep := fun t => quiet_call (env_sleep env t) |}.






Section engine_proofs.
Context {W D : Type} (env : RotationEnv W D).
(** The health check returns a health status (drivers/base.py: ok, degraded or
    down), never the engine's own marker. *)
Context (Hhealth : ∀ p w, (env_health_check env p w).1 ≠ Ok "cleanup_failed").

Abbreviation ST := (RotationEngine * (W * list rot_event))%type.
Definition lg (s : ST) : list rot_event := s.2.2.
Definition eng (s : ST) : RotationEngine := s.1.



Lemma hoare_log_call {A} (P : ST → Prop) (ev : res A → rot_event) (m : PyM W A)
    (Q : res A → ST → Prop) :
  (∀ r e w l w', P (e, (w, l)) → r = (m w).1 → Q r (e, (w', ev r :: l))) →
  hoare P (liftW (log_call ev m)) Q.
Proof.
  intros H [e [w l]] Hs. cbn. destruct (m w) as [r w'] eqn:E. cbn.
  eapply H; [exact Hs | by rewrite E].
Qed.

Lemma hoare_quiet {A} (P : ST → Prop) (m : PyM W A) (Q : res A → ST → Prop) :
  (∀ r e w l w', P (e, (w, l)) → Q r (e, (w', l))) →
  hoare P (liftW (quiet_call m)) Q.
Proof.
  intros H [e [w l]] Hs. cbn. destruct (m w) as [r w'] eqn:E. cbn. by eapply H.
Qed.



















End engine_proofs.

(** ** Theorems *)


(** A concrete world for the witnesses: the list of profile ids whose health check
    is good, and the current time. *)
Definition demo_profile (i : string) : Profile := {|
  p_id := i; p_name := i; p_protocol := VLESS; p_config := []; p_source := MANUAL_SOURCE;
  p_provider_id := None; p_in_rotation_pool := true; p_enabled := true;
  p_created_at := {| dt_wall := 0; dt_utcoffset := None |}; p_last_used := None;
  p_last_health_check := None; p_health_status := "unknown"; p_latency_ms := None;
  p_last_latency_check := None |}.

Definition demo_env : RotationEnv (list string * Q) unit := {|
  env_preflight := None;
  env_disconnect := fun w => (Ok true, w);
  env_connect := fun _ _ w => (Ok true, w);
  env_health_check := fun p w => (Ok (if str_in (p_id p) w.1 then "ok" else "down"), w);
  env_clock := fun w => (Ok w.2, w);
  env_sleep := fun t w => (Ok tt, (w.1, (w.2 + t)%Q)) |}.

Definition demo_pool : list Profile := map demo_profile ["a"; "b"; "c"].


Section engine_fields.
Context {W D : Type} (env : RotationEnv W D).
(** A predicate on the engine's fields kept by the four updates it performs. *)
Context (P : RotationEngine → Prop).
Context (Pbarrier : ∀ b e, P e → P (set_barrier b e)).
Context (Pstamp : ∀ t e, P e → P (set_last_rotation t e)).
Context (Pgood : ∀ g e, P e → P (set_last_good g e)).
Context (Premember : ∀ i e, P e → P (remember i e)).

Definition keeps {A} (m : PyM (RotationEngine * W) A) : Prop :=
  hoare (fun s => P s.1) m (fun _ s => P s.1).

Lemma keeps_ret {A} (a : A) : keeps (mret a).
Proof using Type. by intros s Hs. Qed.
Lemma keeps_bind {A B} (m : PyM (RotationEngine * W) A) (f : A → PyM _ B) :
  keeps m → (∀ a, keeps (f a)) → keeps (m ≫= f).
Proof using Type.
  intros Hm Hf. eapply hoare_bind with (R := fun _ s => P s.1); [|exact Hf].
  eapply hoare_conseq; [exact Hm | done |]. by intros [a|e] s H.
Qed.
Lemma keeps_liftW {A} (m : PyM W A) : keeps (liftW m).
Proof using Type. intros [e w] He. cbn. by destruct (m w). Qed.
Lemma keeps_try {A} (m : PyM (RotationEngine * W) A) hd h :
  keeps m → (∀ e, keeps (h e)) → keeps (try_except m hd h).
Proof using Type.
  intros Hm Hh. eapply hoare_try with (R := fun _ s => P s.1).
  - eapply hoare_conseq; [exact Hm | done |]. intros [a|e] s H; [done | by destruct (hd e)].
  - intros e _. apply Hh.
Qed.
Lemma keeps_update f : (∀ e, P e → P (f e)) → keeps (engine_update f).
Proof using Type. intros Hf [e w] He. cbn. by apply Hf. Qed.
Lemma keeps_get : keeps (engine_get (W := W)).
Proof using Type. by intros s Hs. Qed.

Ltac keeps := repeat first
  [ apply keeps_ret | apply keeps_liftW | apply keeps_get | apply keeps_bind; [|intros ?]
  | apply keeps_try; [|intros ?] | apply keeps_update; intros ? ?
  | solve [auto 2]
  | match goal with |- keeps (match ?x with _ => _ end) => destruct x end
  | match goal with |- keeps (if ?x then _ else _) => destruct x end
  | assumption ]; auto.

Lemma keeps_cleanup : keeps (cleanup_failed_attempt env).
Proof using Pbarrier. unfold cleanup_failed_attempt, disconnect_or_false. keeps. Qed.
Lemma keeps_try_profile p d : keeps (try_profile env p d).
Proof using Pbarrier.
  pose proof keeps_cleanup. unfold try_profile, connect_and_check, disconnect_or_false. keeps.
Qed.
Lemma keeps_rollback pool d : keeps (rollback env pool d).
Proof using Pbarrier Premember.
  pose proof keeps_try_profile. unfold rollback. keeps.
Qed.
Lemma keeps_stamp : keeps (stamp_rotation env).
Proof using Pstamp. unfold stamp_rotation. keeps. Qed.
Lemma keeps_loop pool d cat start cands att fl rb :
  keeps (rotate_loop env pool d cat start cands att fl rb).
Proof using All.
  revert att fl rb. pose proof keeps_stamp. pose proof keeps_try_profile.
  pose proof keeps_rollback.
  induction cands as [|p cands IH]; intros att fl rb; cbn [rotate_loop]; keeps.
Qed.
Lemma keeps_rotate pool force d : keeps (rotate env pool force d).
Proof using All.
  pose proof keeps_stamp. pose proof keeps_loop. pose proof keeps_rollback.
  pose proof keeps_try_profile. unfold rotate, single_node_check, raiseM. keeps.
Qed.
End engine_fields.

(** The rotation history: no id twice, at most [recent_keep] of them. *)
Definition history_wf (e : RotationEngine) : Prop :=
  NoDup (recent_profile_ids_ e) ∧ (py_len (recent_profile_ids_ e) <= Z.max 0 (recent_keep e))%Z.

Lemma remember_history i e :
  (0 <= recent_keep e)%Z → history_wf e → history_wf (remember i e).
Proof.
  intros Hk [Hn Hl]. unfold remember, history_wf, py_take, py_len in *. cbn.
  rewrite (proj2 (Z.ltb_ge _ _) Hk). split.
  - eapply sublist_NoDup; [|apply sublist_take]. apply NoDup_cons. split.
    + rewrite List_filter_elem_of, String.eqb_refl. by intros [_ H].
    + eapply sublist_NoDup; [exact Hn | apply List_filter_sublist].
  - rewrite length_take. lia.
Qed.

(** a rotation cycle, whatever the environment does and even when it raises,
    keeps the rotation history free of repeated ids and no longer than
    [recent_keep], and does not change the engine's configured limits. *)
Theorem rotate_history_invariant {W D} (env : RotationEnv W D) pool force d e w
    (Hkeep : (0 <= recent_keep e)%Z) (Hwf : history_wf e) :
  let e' := (rotate env pool force d (e, w)).2.1 in
  history_wf e' ∧ recent_keep e' = recent_keep e
  ∧ max_attempts_per_cycle e' = max_attempts_per_cycle e.
Proof.
  apply (keeps_rotate env (fun e' => history_wf e' ∧ recent_keep e' = recent_keep e
           ∧ max_attempts_per_cycle e' = max_attempts_per_cycle e)); cbn; auto.
  intros i e' (H1 & H2 & H3). split; [|done]. apply remember_history; [|done]. by rewrite H2.
Qed.

Lemma rotate_history_invariant_witness :
  let e' := (rotate demo_env demo_pool false None (RotationEngine_default, (["b"], 0%Q))).2.1 in
  history_wf e' ∧ recent_keep e' = recent_keep RotationEngine_default
  ∧ max_attempts_per_cycle e' = max_attempts_per_cycle RotationEngine_default.
Proof.
  apply rotate_history_invariant; [vm_compute; discriminate|].
  split; [apply NoDup_nil_2 | vm_compute; discriminate].
Defined.

(** an unforced rotation over two or more profiles inside the anti-loop window
    (doubled, by default, for pools of two or three) makes no driver call at all:
    it only reads the clock, and reports no attempt. *)
Theorem rotate_rate_limited {W D} (env : RotationEnv W D) pool d e w now w1 at_
    (Hpool : (2 ≤ length pool)%nat)
    (Hat : last_rotation_at_ e = Some at_)
    (Hclock : env_clock env w = (Ok now, w1))
    (Hwin : can_rotate_now e (pool_size_category (py_len pool)) false now = false) :
  rotate env pool false d (e, w)
  = (Ok (result_failed 0 (pool_size_category (py_len pool))), (set_barrier false e, w1)).
Proof.
  unfold rotate. cbn [mbind pym_bind engine_update modifyS].
  assert (String.eqb (pool_size_category (py_len pool)) "unavailable" = false
          ∧ String.eqb (pool_size_category (py_len pool)) "single" = false) as [-> ->].
  { unfold pool_size_category, py_len. rewrite !(proj2 (Z.eqb_neq _ _)) by lia.
    by destruct (_ <=? _)%Z. }
  unfold engine_update, modifyS, engine_get, gets, mbind, pym_bind.
  cbn [fst last_rotation_at_ set_barrier]. rewrite Hat, bool_decide_true by done. cbn [orb negb liftW]. rewrite Hclock.
  unfold mret, pym_ret. change (can_rotate_now (set_barrier false e)) with (can_rotate_now e).
  by rewrite Hwin.
Qed.

Lemma rotate_rate_limited_witness :
  rotate demo_env demo_pool false None
    (set_last_rotation (Some 0%Q) RotationEngine_default, (["b"], 239%Q))
  = (Ok (result_failed 0 "conservative"),
     (set_barrier false (set_last_rotation (Some 0%Q) RotationEngine_default), (["b"], 239%Q))).
Proof.
  apply (rotate_rate_limited demo_env demo_pool None
    (set_last_rotation (Some 0%Q) RotationEngine_default) (["b"], 239%Q) 239 (["b"], 239%Q) 0).
  - vm_compute. lia.
  - reflexivity.
  - reflexivity.
  - vm_compute. reflexivity.
Defined.

Lemma candidates_sublist e pool : candidates e pool `sublist_of` pool.
Proof.
  unfold candidates. destruct (List.filter _ pool) as [|q l] eqn:E; [done|].
  rewrite <- E. apply List_filter_sublist.
Qed.

(** the candidates of a cycle are exactly the pool members outside the recent
    history, in pool order, unless that leaves none, in which case they are the
    whole pool: a non-empty pool always yields a candidate. *)
Theorem candidates_spec e pool :
  (∀ p, p ∈ candidates e pool → p ∈ pool)
  ∧ (pool ≠ [] → candidates e pool ≠ [])
  ∧ ((∃ p, p ∈ pool ∧ p_id p ∉ blocked_ids e) →
     ∀ p, p ∈ candidates e pool ↔ p ∈ pool ∧ p_id p ∉ blocked_ids e)
  ∧ candidates e pool `sublist_of` pool.
Proof.
  assert (Hs := candidates_sublist e pool). unfold candidates in *.
  destruct (List.filter _ pool) as [|q l] eqn:E.
  - split; [done|]. split; [done|]. split; [|done].
    intros (p & Hp & Hb). rewrite List_filter_nil in E. specialize (E p Hp).
    apply negb_false_iff, str_in_spec in E. done.
  - rewrite <- E. split; [by intros p [H _]%List_filter_elem_of|].
    split; [by rewrite E|]. split; [|by rewrite E].
    intros _ p. rewrite List_filter_elem_of, negb_true_iff, str_in_false. done.
Qed.

(** ** How much a cycle can do *)
Fixpoint connects (l : list rot_event) : nat :=
  match l with
  | [] => 0
  | EvConnect _ _ :: l' => S (connects l')
  | _ :: l' => connects l'
  end.

Section engine_work.
Context {W D : Type} (env : RotationEnv W D) (M : Z).

Abbreviation ST := (RotationEngine * (W * list rot_event))%type.

(** At most [n] connects so far, under the limit [M]. *)
Definition upto (n : Z) (s : ST) : Prop :=
  (Z.of_nat (connects (lg s)) <= n)%Z ∧ max_attempts_per_cycle (eng s) = M.

Lemma upto_weaken n m s : (n <= m)%Z → upto n s → upto m s.
Proof using Type. unfold upto. lia. Qed.

Lemma upto_call {A} n k (ev : res A → rot_event) (m : PyM W A) :
  (∀ r, Z.of_nat (connects [ev r]) <= k)%Z →
  hoare (upto n) (liftW (log_call ev m)) (fun _ => upto (n + k)).
Proof using Type.
  intros Hk. apply hoare_log_call. unfold upto, lg, eng. intros r e w l w' [H1 H2] _.
  specialize (Hk r). cbn in *. destruct (ev r); cbn in *; lia.
Qed.

Lemma upto_quiet {A} n (m : PyM W A) : hoare (upto n) (liftW (quiet_call m)) (fun _ => upto n).
Proof using Type. by apply hoare_quiet. Qed.

Lemma upto_bind {A B} n m k (x : PyM ST A) (f : A → PyM ST B) :
  hoare (upto n) x (fun _ => upto m) → (m <= k)%Z →
  (∀ a, hoare (upto m) (f a) (fun _ => upto k)) →
  hoare (upto n) (x ≫= f) (fun _ => upto k).
Proof using Type.
  intros Hx Hmk Hf. eapply hoare_bind with (R := fun _ => upto m); [|exact Hf].
  eapply hoare_conseq; [exact Hx | done |]. intros [a|e] s H; [done|]. by eapply upto_weaken.
Qed.

Lemma upto_disconnect n : hoare (upto n) (disconnect_or_false (logged_env env)) (fun _ => upto n).
Proof using Type.
  eapply hoare_try with (R := fun _ => upto n); [|intros; by apply hoare_ret].
  eapply hoare_conseq; [apply (upto_call n 0); cbn; lia | done |].
  intros [a|e] s; cbn; by rewrite Z.add_0_r.
Qed.

Lemma upto_cleanup n : hoare (upto n) (cleanup_failed_attempt (logged_env env)) (fun _ => upto n).
Proof using Type.
  eapply upto_bind; [apply upto_disconnect | lia |]. intros [|]; [by apply hoare_ret|].
  eapply upto_bind; [|apply Z.le_refl|intros _; by apply hoare_ret].
  apply hoare_modify. by intros [e [w l]].
Qed.

Lemma upto_connect_and_check n p d :
  hoare (upto n) (connect_and_check (logged_env env) p d) (fun _ => upto (n + 1)).
Proof using Type.
  assert (∀ st, hoare (upto (n + 1)) (failed ← cleanup_failed_attempt (logged_env env);
    if (failed : bool) then mret "cleanup_failed" else mret st) (fun _ => upto (n + 1))) as Hc.
  { intros st. eapply upto_bind; [apply upto_cleanup | lia |]. intros [|]; by apply hoare_ret. }
  eapply upto_bind; [apply (upto_call n 1); cbn; lia | lia |].
  intros [|]; cbn [negb]; [|apply Hc].
  eapply upto_bind; [by apply hoare_gets | lia |]. intros e0.
  eapply upto_bind with (m := (n + 1)%Z); [|lia|].
  { destruct (Qltb 0 _); [apply upto_quiet | by apply hoare_ret]. }
  intros _. eapply upto_bind with (m := (n + 1)%Z); [|lia|].
  { eapply hoare_conseq; [apply (upto_call (n + 1) 0); cbn; lia | done |].
    intros r s. cbn. by rewrite Z.add_0_r. }
  intros st. destruct (String.eqb st "ok"); [by apply hoare_ret | apply Hc].
Qed.

Lemma upto_try_profile n p d :
  hoare (upto n) (try_profile (logged_env env) p d) (fun _ => upto (n + 1)).
Proof using Type.
  assert (∀ (a : string), hoare (upto n) (mret a) (fun _ => upto (n + 1))) as Hret.
  { intros a. apply hoare_ret. intros s. apply upto_weaken. lia. }
  eapply upto_bind with (m := n); [|lia|].
  { cbn. destruct (env_preflight env) as [pf|]; cbn; [|by apply hoare_ret].
    eapply hoare_try with (R := fun _ => upto n); [|intros; by apply hoare_ret].
    eapply hoare_conseq; [apply (upto_call n 0); cbn; lia | done |].
    intros [a|e] s; cbn; by rewrite Z.add_0_r. }
  intros [|]; cbn [negb]; [|apply Hret].
  eapply upto_bind; [apply upto_disconnect | lia |].
  intros [|]; cbn [negb]; [apply upto_connect_and_check|].
  eapply upto_bind with (m := n); [|lia|intros _; apply Hret].
  apply hoare_modify. by intros [e [w l]].
Qed.

Lemma upto_rollback n pool d :
  hoare (upto n) (rollback (logged_env env) pool d) (fun _ => upto (n + 1)).
Proof using Type.
  assert (∀ (a : option Profile) m, (m <= n + 1)%Z →
    hoare (upto m) (mret a) (fun _ => upto (n + 1))) as Hret.
  { intros a m Hm. apply hoare_ret. intros s. by apply upto_weaken. }
  eapply upto_bind; [by apply hoare_gets | lia |]. intros e.
  destruct (last_good_profile_id_ e) as [good|]; [|apply Hret; lia].
  destruct (negb _); [apply Hret; lia|]. destruct (List.find _ _) as [t|]; [|apply Hret; lia].
  eapply upto_bind; [apply upto_try_profile | lia |]. intros st.
  destruct (String.eqb st "ok"); [|apply Hret; lia].
  eapply upto_bind with (m := (n + 1)%Z); [|lia|intros _; apply Hret; lia].
  apply hoare_modify. by intros [e' [w l]].
Qed.

Lemma upto_stamp n : hoare (upto n) (stamp_rotation (logged_env env)) (fun _ => upto n).
Proof using Type.
  eapply upto_bind; [apply upto_quiet | lia |]. intros t. apply hoare_modify.
  by intros [e [w l]].
Qed.

Definition rb_z (rb : bool) : Z := if rb then 1 else 0.

Definition work_post (lim : Z) (r : res (RotationResult + (Z * bool))) (s : ST) : Prop :=
  upto (Z.max 0 M + 1) s ∧
  match r with
  | Ok (inl res) => upto (rr_attempts res + 1) s ∧ (0 <= rr_attempts res <= Z.max 0 M)%Z
                    ∧ (rr_attempts res <= lim)%Z
  | Ok (inr (att, rb)) => upto (att + rb_z rb) s ∧ (0 <= att <= Z.max 0 M)%Z ∧ (att <= lim)%Z
  | Err _ => True
  end.

Lemma work_return lim res n :
  (n <= rr_attempts res + 1)%Z → (0 <= rr_attempts res <= Z.max 0 M)%Z →
  (rr_attempts res <= lim)%Z →
  hoare (upto n) (_ ← stamp_rotation (logged_env env); mret (inl res)) (work_post lim).
Proof using Type.
  intros H1 H2 H3. eapply hoare_bind with (R := fun _ => upto n).
  - eapply hoare_conseq; [apply upto_stamp | done |]. intros [a|e] s H; [done|].
    split; [|done]. eapply upto_weaken; [|exact H]. lia.
  - intros _. apply hoare_ret. intros s H. split; [|split; [|done]];
      (eapply upto_weaken; [|exact H]); lia.
Qed.

Lemma work_bind {A} lim m k (x : PyM ST A) (f : A → PyM ST _) :
  hoare (upto m) x (fun _ => upto k) → (k <= Z.max 0 M + 1)%Z →
  (∀ a, hoare (upto k) (f a) (work_post lim)) →
  hoare (upto m) (x ≫= f) (work_post lim).
Proof using Type.
  intros Hx Hk Hf. eapply hoare_bind with (R := fun _ => upto k); [|exact Hf].
  eapply hoare_conseq; [exact Hx | done |]. intros [?|?] s Hs; [done|].
  split; [by eapply upto_weaken | done].
Qed.

Lemma rotate_loop_work lim pool d cat start cands attempts failures rb :
  (0 <= attempts <= Z.max 0 M)%Z → (attempts + py_len cands <= lim)%Z →
  hoare (upto (attempts + rb_z rb))
    (rotate_loop (logged_env env) pool d cat start cands attempts failures rb) (work_post lim).
Proof using Type.
  revert attempts failures rb.
  induction cands as [|p cands IH]; intros attempts failures rb Ha Hl; cbn [rotate_loop].
  { apply hoare_ret. intros s Hs. split; [eapply upto_weaken; [|exact Hs]; destruct rb; cbn; lia|].
    unfold py_len in Hl. cbn in Hl. split; [done | lia]. }
  assert (py_len (p :: cands) = py_len cands + 1 ∧ 0 <= py_len cands)%Z as [Hlen Hlen0]
    by (unfold py_len; cbn; lia).
  eapply hoare_bind with (R := fun e s => upto (attempts + rb_z rb) s
      ∧ max_attempts_per_cycle e = M); [apply hoare_gets; intros s Hs; split; [done | apply Hs]|].
  intros e0. destruct (Z.leb_spec (max_attempts_per_cycle e0) attempts) as [Hm|Hm].
  { apply hoare_ret. intros s [Hs _].
    split; [eapply upto_weaken; [|exact Hs]; destruct rb; cbn; lia|]. split; [done | lia]. }
  intros s [Hs He]. revert s Hs. rewrite He in Hm.
  set (a := (attempts + 1)%Z). set (n := (a + rb_z rb)%Z).
  assert (n <= Z.max 0 M + 1 ∧ n <= a + 1)%Z as [Hn1 Hn2] by (unfold n, a; destruct rb; cbn; lia).
  eapply work_bind with (k := n); [|done|].
  { replace n with (attempts + rb_z rb + 1)%Z by (unfold n, a; lia). apply upto_try_profile. }
  intros st. destruct (String.eqb st "cleanup_failed"); [apply work_return; cbn; lia|].
  destruct (String.eqb st "ok").
  { eapply work_bind with (k := n); [apply hoare_modify; by intros [e [w l]] | done |].
    intros _. apply work_return; cbn; lia. }
  eapply work_bind with (k := n); [apply upto_quiet | done |]. intros now.
  eapply work_bind with (k := n); [by apply hoare_gets | done |]. intros e1.
  destruct (negb rb && _) eqn:Erb; [|apply IH; lia].
  apply andb_prop in Erb as [->%negb_true_iff _].
  eapply work_bind with (k := (a + 1)%Z); [|lia|].
  { replace (a + 1)%Z with (n + 1)%Z by (unfold n; cbn; lia). apply upto_rollback. }
  intros t. eapply work_bind; [by apply hoare_gets | lia |]. intros e2.
  destruct (cleanup_barrier_failed_ e2); [apply work_return; cbn; lia|].
  destruct t as [t|]; [apply work_return; cbn; lia|].
  apply (IH a (failures + 1)%Z true); lia.
Qed.

(** Bounds on the whole call: connects, and the reported attempts. *)
Definition rotate_work (lim : Z) (r : res RotationResult) (s : ST) : Prop :=
  upto (Z.max 1 M + 1) s ∧
  match r with
  | Ok res => upto (rr_attempts res + 1) s ∧ (0 <= rr_attempts res <= Z.max 1 M)%Z
              ∧ (rr_attempts res <= lim)%Z
  | Err _ => True
  end.

Lemma rwork_bind {A} lim m k (x : PyM ST A) (f : A → PyM ST _) :
  hoare (upto m) x (fun _ => upto k) → (k <= Z.max 1 M + 1)%Z →
  (∀ a, hoare (upto k) (f a) (rotate_work lim)) →
  hoare (upto m) (x ≫= f) (rotate_work lim).
Proof using Type.
  intros Hx Hk Hf. eapply hoare_bind with (R := fun _ => upto k); [|exact Hf].
  eapply hoare_conseq; [exact Hx | done |]. intros [?|?] s Hs; [done|].
  split; [by eapply upto_weaken | done].
Qed.

Lemma rwork_ret lim res n :
  (n <= rr_attempts res + 1)%Z → (0 <= rr_attempts res <= Z.max 1 M)%Z →
  (rr_attempts res <= lim)%Z → hoare (upto n) (mret res) (rotate_work lim).
Proof using Type.
  intros H1 H2 H3. apply hoare_ret. intros s Hs. split; [|split; [|done]];
    (eapply upto_weaken; [|exact Hs]); lia.
Qed.

Lemma single_node_work p d :
  hoare (upto 0) (single_node_check (logged_env env) p d) (rotate_work 1).
Proof using Type.
  eapply rwork_bind with (k := 1%Z); [apply (upto_try_profile 0) | lia |]. intros st.
  eapply rwork_bind with (k := 1%Z); [|lia|].
  { destruct (String.eqb st "ok"); [|by apply hoare_ret]. apply hoare_modify. by intros [e [w l]]. }
  intros _. eapply rwork_bind; [apply upto_stamp | lia |]. intros _. apply rwork_ret; cbn; lia.
Qed.

Lemma rotate_work_spec pool force d :
  hoare (upto 0) (rotate (logged_env env) pool force d) (rotate_work (py_len pool)).
Proof using Type.
  unfold rotate. eapply rwork_bind with (k := 0%Z); [|lia|].
  { apply hoare_modify. by intros [e [w l]]. }
  intros _. assert (0 <= py_len pool)%Z by (unfold py_len; lia).
  destruct (String.eqb _ "unavailable"); [apply rwork_ret; cbn; lia|].
  destruct (String.eqb _ "single") eqn:E1.
  { destruct pool as [|p pool]; [apply hoare_lift; intros s Hs; split; [|done];
      eapply upto_weaken; [|exact Hs]; lia|].
    eapply hoare_conseq; [apply single_node_work | done |].
    intros [r|ex] s (H1 & H2); [|done]. split; [done|]. unfold py_len. cbn. intuition lia. }
  eapply rwork_bind; [by apply hoare_gets | lia |]. intros e0.
  eapply rwork_bind with (k := 0%Z); [|lia|].
  { destruct (force || _); [by apply hoare_ret|].
    eapply upto_bind; [apply upto_quiet | lia |]. intros now. by apply hoare_ret. }
  intros [|]; cbn [negb]; [|apply rwork_ret; cbn; lia].
  eapply rwork_bind; [apply upto_quiet | lia |]. intros start.
  eapply hoare_bind with (R := fun o => work_post (py_len pool) (Ok o)).
  { eapply hoare_conseq; [apply (rotate_loop_work (py_len pool) pool d _ start _ 0 0 false) | done |].
    - lia.
    - unfold py_len. pose proof (candidates_sublist e0 pool) as Hsub.
      apply sublist_length in Hsub. lia.
    - intros [o|ex] s [H1 H2]; [done|]. split; [eapply upto_weaken; [|exact H1]; lia | done]. }
  intros [res|[att rb]].
  { apply hoare_ret. intros s (H1 & H2 & H3 & H4).
    split; [eapply upto_weaken; [|exact H1]; lia|]. split; [done | lia]. }
  intros s (_ & Hs & Ha & Hl). revert s Hs.
  eapply rwork_bind with (k := (att + 1)%Z); [|lia|].
  { destruct rb; [by apply hoare_ret|]. rewrite Z.add_0_r. apply upto_rollback. }
  intros t. eapply rwork_bind; [apply upto_stamp | lia |]. intros _.
  eapply rwork_bind; [by apply hoare_gets | lia |]. intros e1.
  destruct (cleanup_barrier_failed_ e1), t as [t|]; apply rwork_ret; cbn; lia.
Qed.
End engine_work.

(** C29: one rotation cycle is bounded: it makes at most [max_attempts_per_cycle]
    connect calls (one, for a pool of a single profile) plus one for the rollback,
    also when it is cut short by an exception, and it reports no more attempts
    than that limit nor than the pool has members. *)
Theorem rotate_bounded {W D} (env : RotationEnv W D) pool force d e w :
  let '(r, s) := rotate (logged_env env) pool force d (e, (w, [])) in
  let M := max_attempts_per_cycle e in
  (Z.of_nat (connects (lg s)) <= Z.max 1 M + 1)%Z
  ∧ match r with
    | Ok res => (Z.of_nat (connects (lg s)) <= rr_attempts res + 1)%Z
                ∧ (0 <= rr_attempts res <= Z.max 1 M)%Z
                ∧ (rr_attempts res <= py_len pool)%Z
    | Err _ => True
    end.
Proof.
  pose proof (rotate_work_spec env (max_attempts_per_cycle e) pool force d (e, (w, []))) as H.
  destruct (rotate _ _ _ _ _) as [r s]. destruct H as [H1 H2]; [by split; cbn|].
  split; [apply H1|]. destruct r as [res|ex]; [|done]. destruct H2 as (H2 & H3 & H4).
  split; [apply H2 | done].
Qed.
