(* ===== verification/Recovery.v ===== *)
(** * Backoff between rotation cycles: rotation/recovery.py

    [Recovery] keeps the number of consecutive failures and the instant and the
    length of the current wait.  Each method takes the reading of [self.clock()]
    it makes as an argument.  Log messages are not modelled. *)
From stdpp Require Import base list strings gmap pretty sorting.
From Stdlib Require Import Ascii QArith Qminmax Qpower Lqa.
From S2P Require Import Prelude PyData.
#[local] Open Scope Q_scope.

Definition MIN_BACKOFF_INTERVAL_SECONDS : Q := 1.
Definition MAX_BACKOFF_INTERVAL_SECONDS : Q := 86400.

Record AllFailedAction : Type := {
  act_kill_switch_active : bool;
  act_notified : bool;
  act_message : string
}.

Record Recovery : Type := {
  base_interval_seconds : pyval;
  max_interval_seconds : pyval;
  consecutive_failures_ : Z;
  retry_started_at_ : option Q;
  retry_interval_seconds_ : Q
}.

(** [Recovery()] *)
Definition Recovery_init (base maximum : pyval) : Recovery := {|
  base_interval_seconds := base; max_interval_seconds := maximum;
  consecutive_failures_ := 0; retry_started_at_ := None; retry_interval_seconds_ := 0 |}.

Definition normalized_interval (value : pyval) (default : Q) : Q :=
  let clamp (interval : pyfloat) : Q :=
    match interval with
    | Fin q =>
        if Qltb q MIN_BACKOFF_INTERVAL_SECONDS then MIN_BACKOFF_INTERVAL_SECONDS
        else if Qltb MAX_BACKOFF_INTERVAL_SECONDS q then MAX_BACKOFF_INTERVAL_SECONDS
        else q
    | _ => default
    end in
  match value with
  | PInt z => match float_of_int z with Ok f => clamp f | Err _ => default end
  | PFloat f => clamp f
  | _ => default
  end.

Definition interval_bounds (r : Recovery) : Q * Q :=
  let base := normalized_interval (base_interval_seconds r) 10 in
  let maximum := normalized_interval (max_interval_seconds r) 300 in
  (base, if Qltb maximum base then base else maximum).

(** The [while] loop of [backoff_interval]; its first argument is
    [remaining_doublings], which bounds the number of iterations. *)
Fixpoint backoff_loop (remaining_doublings : nat) (interval maximum : Q) : Q :=
  match remaining_doublings with
  | O => interval
  | S n =>
      if Qltb interval maximum then
        if Qle_bool (maximum / 2) interval then maximum
        else backoff_loop n (interval * 2) maximum
      else interval
  end.

Definition backoff_interval (r : Recovery) (attempt : pyval) : Q :=
  match attempt with
  | PInt n =>
      if (n <=? 0)%Z then 0
      else let '(interval, maximum) := interval_bounds r in
           backoff_loop (Z.to_nat (n - 1)) interval maximum
  | _ => 0
  end.

Definition record_failure (now : Q) (r : Recovery) : Q * Recovery :=
  let failures := (consecutive_failures_ r + 1)%Z in
  let interval := backoff_interval r (PInt failures) in
  (interval,
   {| base_interval_seconds := base_interval_seconds r;
      max_interval_seconds := max_interval_seconds r;
      consecutive_failures_ := failures;
      retry_started_at_ := Some now;
      retry_interval_seconds_ := interval |}).

Definition record_success (r : Recovery) : Recovery :=
  {| base_interval_seconds := base_interval_seconds r;
     max_interval_seconds := max_interval_seconds r;
     consecutive_failures_ := 0;
     retry_started_at_ := None;
     retry_interval_seconds_ := 0 |}.

Definition can_retry_now (now : Q) (force : bool) (r : Recovery) : bool :=
  if force then true
  else match retry_started_at_ r with
       | None => true
       | Some started => Qle_bool (retry_interval_seconds_ r) (now - started)
       end.

Section actions.
(** The format specification [{interval:.1f}] *)
Context (format_1f : Q → string).

Definition handle_all_failed (kill_switch_active : bool) (now : Q) (r : Recovery)
  : AllFailedAction * Recovery :=
  let '(interval, r') := record_failure now r in
  let failures := pretty (consecutive_failures_ r') in
  if kill_switch_active then
    ({| act_kill_switch_active := true; act_notified := true;
        act_message := "all rotation candidates failed (consecutive_failures=" +:+ failures
          +:+ "); kill switch active, blocking traffic outside the tunnel, retrying in "
          +:+ format_1f interval +:+ "s" |}, r')
  else
    ({| act_kill_switch_active := false; act_notified := true;
        act_message := "all rotation candidates failed (consecutive_failures=" +:+ failures
          +:+ "); falling back to the normal network, retrying in "
          +:+ format_1f interval +:+ "s" |}, r').

Definition handle_rotation_unavailable (kill_switch_active : bool) (reason : string)
    (now : Q) (r : Recovery) : AllFailedAction * Recovery :=
  let '(interval, r') := record_failure now r in
  let failures := pretty (consecutive_failures_ r') in
  if kill_switch_active then
    ({| act_kill_switch_active := true; act_notified := true;
        act_message := "rotation unavailable (reason=" +:+ reason
          +:+ ", consecutive_failures=" +:+ failures
          +:+ "); kill switch active, blocking traffic outside the tunnel, retrying in "
          +:+ format_1f interval +:+ "s" |}, r')
  else
    ({| act_kill_switch_active := false; act_notified := true;
        act_message := "rotation unavailable (reason=" +:+ reason
          +:+ ", consecutive_failures=" +:+ failures
          +:+ "); retrying in " +:+ format_1f interval +:+ "s" |}, r').
End actions.

(** ** Specification: capped exponential backoff *)

(** The wait before attempt [n + 1], [n] failures after the first one. *)
Definition capped_doubling (base maximum : Q) (n : nat) : Q :=
  Qmin maximum (base * 2 ^ Z.of_nat n).

(** ** Lemmas *)
Lemma Qpow2_succ n : 2 ^ Z.of_nat (S n) == 2 * 2 ^ Z.of_nat n.
Proof.
  rewrite Nat2Z.inj_succ. unfold Z.succ. rewrite Qpower_plus by lra. cbn. ring.
Qed.

Lemma Qpow2_ge_1 n : 1 <= 2 ^ Z.of_nat n.
Proof. induction n as [|n IH]; [by vm_compute|]. rewrite Qpow2_succ. lra. Qed.

Lemma Qpow2_mono n m : (n ≤ m)%nat → 2 ^ Z.of_nat n <= 2 ^ Z.of_nat m.
Proof.
  induction 1 as [|m H IH]; [apply Qle_refl|]. rewrite Qpow2_succ.
  pose proof (Qpow2_ge_1 m). lra.
Qed.

Lemma backoff_loop_spec n base maximum :
  0 < base → base <= maximum → backoff_loop n base maximum == capped_doubling base maximum n.
Proof.
  unfold capped_doubling. revert base. induction n as [|n IH]; intros base Hb Hm.
  - cbn [backoff_loop]. change (2 ^ Z.of_nat 0) with 1. rewrite Q.min_r; lra.
  - cbn [backoff_loop]. pose proof (Qpow2_ge_1 n) as Hp.
    assert (base * 2 ^ Z.of_nat (S n) == base * 2 * 2 ^ Z.of_nat n) as Hs
      by (rewrite Qpow2_succ; ring).
    assert (maximum / 2 == maximum * (1#2)) as Hh by (field; discriminate).
    destruct (Qltb base maximum) eqn:E1.
    + destruct (Qle_bool (maximum / 2) base) eqn:E2.
      * apply Qle_bool_iff in E2. rewrite Hh in E2. assert (maximum <= base * 2) by lra.
        rewrite Q.min_l; [reflexivity|]. rewrite Hs. nra.
      * assert (base * 2 <= maximum).
        { apply Qlt_le_weak, Qnot_le_lt. intros Hc. assert (maximum / 2 <= base) as Hc' by lra.
          apply Qle_bool_iff in Hc'. congruence. }
        rewrite IH by lra. by rewrite Hs.
    + apply Qltb_false in E1. rewrite Q.min_l; [lra|]. rewrite Hs. nra.
Qed.

Lemma normalized_interval_range v d :
  MIN_BACKOFF_INTERVAL_SECONDS <= d <= MAX_BACKOFF_INTERVAL_SECONDS →
  MIN_BACKOFF_INTERVAL_SECONDS <= normalized_interval v d <= MAX_BACKOFF_INTERVAL_SECONDS.
Proof.
  intros Hd.
  assert (∀ f : pyfloat, MIN_BACKOFF_INTERVAL_SECONDS <=
    match f with
    | Fin q =>
        if Qltb q MIN_BACKOFF_INTERVAL_SECONDS then MIN_BACKOFF_INTERVAL_SECONDS
        else if Qltb MAX_BACKOFF_INTERVAL_SECONDS q then MAX_BACKOFF_INTERVAL_SECONDS else q
    | _ => d
    end <= MAX_BACKOFF_INTERVAL_SECONDS) as Hc.
  { intros [q| | |]; try done.
    destruct (Qltb q _) eqn:E1; [unfold MIN_BACKOFF_INTERVAL_SECONDS, MAX_BACKOFF_INTERVAL_SECONDS; lra|].
    destruct (Qltb _ q) eqn:E2; [unfold MIN_BACKOFF_INTERVAL_SECONDS, MAX_BACKOFF_INTERVAL_SECONDS; lra|].
    apply Qltb_false in E1, E2. done. }
  unfold normalized_interval. destruct v; [done|done| |apply Hc|done..].
  destruct (float_of_int z); [apply Hc | done].
Qed.

Lemma interval_bounds_range r :
  let '(base, maximum) := interval_bounds r in
  1 <= base ∧ base <= maximum ∧ maximum <= 86400.
Proof.
  unfold interval_bounds.
  pose proof (normalized_interval_range (base_interval_seconds r) 10) as H1.
  pose proof (normalized_interval_range (max_interval_seconds r) 300) as H2.
  unfold MIN_BACKOFF_INTERVAL_SECONDS, MAX_BACKOFF_INTERVAL_SECONDS in *.
  specialize (H1 ltac:(lra)). specialize (H2 ltac:(lra)).
  destruct (Qltb _ _) eqn:E; [lra|]. apply Qltb_false in E. lra.
Qed.

(** ** Theorems *)

(** for every configuration, even malformed, the wait after the [n]-th
    consecutive failure is the normalised base interval doubled [n - 1] times and
    capped at the normalised maximum: the loop with its early exit computes the
    closed form. *)
Theorem backoff_interval_closed_form (r : Recovery) (n : nat) :
  backoff_interval r (PInt (Z.of_nat (S n)))
  == capped_doubling (interval_bounds r).1 (interval_bounds r).2 n.
Proof.
  unfold backoff_interval. rewrite (proj2 (Z.leb_gt _ _)) by lia.
  pose proof (interval_bounds_range r) as H.
  destruct (interval_bounds r) as [base maximum]. cbn.
  replace (Z.to_nat _) with n by lia. apply backoff_loop_spec; lra.
Qed.

Lemma backoff_interval_bounds r n :
  1 <= backoff_interval r (PInt (Z.of_nat (S n))) ∧
  backoff_interval r (PInt (Z.of_nat (S n))) <= 86400.
Proof.
  pose proof (interval_bounds_range r) as H. unfold backoff_interval.
  rewrite (proj2 (Z.leb_gt _ _)) by lia. destruct (interval_bounds r) as [base maximum].
  rewrite backoff_loop_spec by lra. unfold capped_doubling.
  pose proof (Qpow2_ge_1 (Z.to_nat (Z.of_nat (S n) - 1))).
  split; [apply Q.min_glb; nra|]. eapply Qle_trans; [apply Q.le_min_l | lra].
Qed.

(** the wait never shrinks from one failure to the next, and always lies
    between one second and one day, whatever the configured values are. *)
Theorem backoff_interval_monotone_bounded (r : Recovery) (n m : nat) (H : (n ≤ m)%nat) :
  let b k := backoff_interval r (PInt (Z.of_nat (S k))) in
  b n <= b m ∧ 1 <= b n ∧ b m <= 86400.
Proof.
  cbn zeta. split; [|split; apply backoff_interval_bounds].
  pose proof (interval_bounds_range r) as Hb. unfold backoff_interval.
  rewrite !(proj2 (Z.leb_gt _ _)) by lia. destruct (interval_bounds r) as [base maximum].
  rewrite !backoff_loop_spec by lra. unfold capped_doubling. apply Q.min_le_compat_l.
  replace (Z.to_nat (Z.of_nat (S n) - 1)) with n by lia.
  replace (Z.to_nat (Z.of_nat (S m) - 1)) with m by lia.
  pose proof (Qpow2_mono n m H). nra.
Qed.

Lemma backoff_interval_monotone_bounded_witness :
  (2 ≤ 5)%nat ∧
  let r := Recovery_init (PInt 10) (PInt 300) in
  let b k := backoff_interval r (PInt (Z.of_nat (S k))) in
  b 2%nat <= b 5%nat ∧ 1 <= b 2%nat ∧ b 5%nat <= 86400.
Proof.
  split; [lia|].
  apply (backoff_interval_monotone_bounded (Recovery_init (PInt 10) (PInt 300)) 2 5). lia.
Defined.

(** The steps of a [Recovery] object: failures and successes at any instants, and
    the reconfiguration the runtime performs between them. *)
Inductive recovery_step : Recovery → Recovery → Prop :=
| step_failure now r : recovery_step r (record_failure now r).2
| step_success r : recovery_step r (record_success r)
| step_configure base maximum r :
    recovery_step r {| base_interval_seconds := base; max_interval_seconds := maximum;
                       consecutive_failures_ := consecutive_failures_ r;
                       retry_started_at_ := retry_started_at_ r;
                       retry_interval_seconds_ := retry_interval_seconds_ r |}.

Definition recovery_wf (r : Recovery) : Prop :=
  (0 <= consecutive_failures_ r)%Z
  ∧ match retry_started_at_ r with
    | None => consecutive_failures_ r = 0%Z ∧ retry_interval_seconds_ r = 0
    | Some _ => (0 < consecutive_failures_ r)%Z
                ∧ 1 <= retry_interval_seconds_ r ∧ retry_interval_seconds_ r <= 86400
    end.

Lemma recovery_step_wf r r' : recovery_wf r → recovery_step r r' → recovery_wf r'.
Proof.
  intros [Hn Hs] Hstep. destruct Hstep as [now r|r|b m r]; [|split; [cbn; lia | done]|done].
  split; cbn [record_failure snd consecutive_failures_ retry_started_at_]; [lia|].
  split; [lia|].
  replace (consecutive_failures_ r + 1)%Z
    with (Z.of_nat (S (Z.to_nat (consecutive_failures_ r)))) by lia.
  apply backoff_interval_bounds.
Qed.

Lemma recovery_reachable_wf base maximum r :
  rtc recovery_step (Recovery_init base maximum) r → recovery_wf r.
Proof.
  intros H. assert (recovery_wf (Recovery_init base maximum)) as H0 by done.
  revert H0. induction H as [|x y z Hs _ IH]; [done|]. intros Hx.
  eapply IH, recovery_step_wf; eauto.
Qed.

(** the backoff caps the wait and never the number of retries: in every state
    a [Recovery] object can reach, a retry is allowed at the latest one day after
    the last recorded failure. *)
Theorem recovery_never_stops_retrying base maximum r t now
    (Hr : rtc recovery_step (Recovery_init base maximum) r)
    (Ht : retry_started_at_ r = Some t) (Hnow : t + 86400 <= now) :
  can_retry_now now false r = true.
Proof.
  apply recovery_reachable_wf in Hr as [_ Hs]. unfold can_retry_now. rewrite Ht in Hs |- *.
  apply Qle_bool_iff. lra.
Qed.

Lemma recovery_never_stops_retrying_witness :
  can_retry_now 86403 false (record_failure 3 (Recovery_init (PInt 10) (PInt 300))).2 = true.
Proof.
  apply (recovery_never_stops_retrying (PInt 10) (PInt 300) _ 3).
  - eapply rtc_l; [apply (step_failure 3) | apply rtc_refl].
  - reflexivity.
  - vm_compute. discriminate.
Defined.

(** after a failure recorded at [t], an unforced retry is allowed exactly from
    [t] plus the backoff interval of the new failure count on; a forced one and
    one after a success always are. *)
Theorem can_retry_now_iff (r : Recovery) (t now : Q) :
  let r' := (record_failure t r).2 in
  (can_retry_now now false r' = true
     ↔ t + backoff_interval r (PInt (consecutive_failures_ r + 1)) <= now)
  ∧ can_retry_now now true r' = true
  ∧ can_retry_now now false (record_success r') = true.
Proof.
  cbn zeta. split; [|done]. cbn [can_retry_now record_failure snd retry_started_at_
    retry_interval_seconds_]. rewrite Qle_bool_iff. split; intros; lra.
Qed.
