(* ===== verification/NodeGroups.v ===== *)
(** * Node groups: eligibility, group documents, resolution and ranking

    rotation/pool_builder.py and node_groups/{models,store,resolver,scoring}.py.
    The current time enters as [now p], the instant (microseconds) at which the
    code reads the clock for profile [p]; the iteration order of a Python set is
    the instance of [PySet]. *)
From stdpp Require Import base list strings gmap pretty sorting.
From Stdlib Require Import Ascii QArith Lqa.
From S2P Require Import Prelude PyData Profiles.

(** Iterating over a Python set visits every element once, in some order. *)
Class PySet : Type := {
  set_iter : gset string → list string;
  set_iter_perm : ∀ s, set_iter s ≡ₚ elements s
}.

Definition pyset_sorted : PySet := {| set_iter := elements; set_iter_perm := fun s => reflexivity _ |}.

(** ** rotation/pool_builder.py *)
Definition origin_enabled (providers : list Provider) (p : Profile) : bool :=
  match p_source p with
  | SUBSCRIPTION =>
      match p_provider_id p with
      | Some pid =>
          if truthy_str pid then
            match ProviderStore_get pid providers with
            | Some prov => prov_rotation_enabled prov
            | None => false
            end
          else false
      | None => false
      end
  | MANUAL_SOURCE => true
  end.

(** [(now - last_check).total_seconds()] *)
Definition elapsed_seconds (now last : Z) : Q := (now - last) # 1000000.

Definition recently_failed (now : Z) (cooldown_seconds : pyfloat) (p : Profile) : bool :=
  if negb (String.eqb (p_health_status p) "down") then false
  else match p_last_health_check p with
       | None => false
       | Some d =>
           let last := dt_instant (assume_utc d) in
           if (now <? last)%Z then false
           else flt (Fin (elapsed_seconds now last)) cooldown_seconds
       end.

Definition eligible (providers : list Provider) (now : Profile → Z) (cooldown : pyfloat)
    (p : Profile) : bool :=
  origin_enabled providers p && p_enabled p && negb (recently_failed (now p) cooldown p).

(** [float(config.get("rotation", {}).get("health_status_cooldown_seconds", 0))] *)
Definition cooldown_seconds `{PyStr} (config : pydict pyval) : res pyfloat :=
  raw ← config_get config "rotation" "health_status_cooldown_seconds" (PInt 0);
  py_float raw.

Definition filter_eligible_profiles `{PyStr} (profiles : list Profile)
    (providers : list Provider) (config : pydict pyval) (now : Profile → Z)
  : res (list Profile) :=
  cooldown ← cooldown_seconds config;
  Ok (List.filter (eligible providers now cooldown) profiles).

Definition build_pool `{PyStr} (profile_store : list Profile) (providers : list Provider)
    (config : pydict pyval) (now : Profile → Z) : res (list Profile) :=
  let cands := List.filter p_in_rotation_pool (ProfileStore_list profile_store) in
  filter_eligible_profiles cands providers config now.

(** ** node_groups/models.py *)

(** [re.compile("^<prefix>(?P<x>.+)$").match(s)]: the captured text.  [.] excludes
    the newline and [$] also matches before a final one. *)
Definition action_body (prefix s : string) : option string :=
  if startswith prefix s then
    let body := drop_final_newline (str_drop (String.length prefix) s) in
    if truthy_str body && forall_chars (fun c => negb (Ascii.eqb c newline)) body
    then Some body else None
  else None.

(** [action] is [str(action)]. *)
Definition group_target (action : string) : option string :=
  strip <$> action_body "group:" (strip action).

Inductive NodeGroupResiliencePolicy : Type :=
| RESILIENT_ONLY | PREFERRED | COMPATIBILITY_ALLOWED.

#[global] Instance NodeGroupResiliencePolicy_eq_dec : EqDecision NodeGroupResiliencePolicy.
Proof. solve_decision. Defined.

Inductive NodeGroupSelectionMode : Type := SEL_MANUAL | SEL_AUTO.

#[global] Instance NodeGroupSelectionMode_eq_dec : EqDecision NodeGroupSelectionMode.
Proof. solve_decision. Defined.

(** Enum values and lookup by value *)
Definition policy_value (p : NodeGroupResiliencePolicy) : string :=
  match p with
  | RESILIENT_ONLY => "resilient_only"
  | PREFERRED => "preferred"
  | COMPATIBILITY_ALLOWED => "compatibility_allowed"
  end.

Definition policy_of_value (s : string) : res NodeGroupResiliencePolicy :=
  if String.eqb s "resilient_only" then Ok RESILIENT_ONLY
  else if String.eqb s "preferred" then Ok PREFERRED
  else if String.eqb s "compatibility_allowed" then Ok COMPATIBILITY_ALLOWED
  else raise PersistentValidationError "node_group.resilience_policy must be one of: resilient_only, preferred, compatibility_allowed".

Definition mode_value (m : NodeGroupSelectionMode) : string :=
  match m with SEL_MANUAL => "manual" | SEL_AUTO => "auto" end.

Definition mode_of_value (s : string) : res NodeGroupSelectionMode :=
  if String.eqb s "manual" then Ok SEL_MANUAL
  else if String.eqb s "auto" then Ok SEL_AUTO
  else raise PersistentValidationError "node_group.selection_mode must be one of: manual, auto".

Definition validate_name (name : string) : res string :=
  let normalized := strip name in
  if slug_match normalized then Ok normalized
  else raise PersistentValidationError "node_group.name must be a lowercase slug (letters, digits, '-', '_', max 64 chars)".

(** The loop of [_validate_id_list]; [acc] is [normalized]. *)
Fixpoint validate_ids (field : string) (items : list pyval) (acc : list string)
  : res (list string) :=
  match items with
  | [] => Ok acc
  | PStr item :: rest =>
      let candidate := strip item in
      if truthy_str candidate then
        validate_ids field rest (if str_in candidate acc then acc else acc ++ [candidate])
      else raise PersistentValidationError (field +:+ " entries must be non-empty strings")
  | _ :: _ => raise PersistentValidationError (field +:+ " entries must be non-empty strings")
  end.

Definition validate_id_list (v : pyval) (field : string) : res (list string) :=
  match v with
  | PList items => validate_ids field items []
  | _ => raise PersistentValidationError (field +:+ " must be a list")
  end.

Record NodeGroup : Type := {
  ng_name : string;
  ng_enabled : bool;
  ng_member_profile_ids : list string;
  ng_member_provider_ids : list string;
  ng_exclude_profile_ids : list string;
  ng_resilience_policy : NodeGroupResiliencePolicy;
  ng_selection_mode : NodeGroupSelectionMode;
  ng_manual_profile_id : option string
}.

(** [NodeGroup.__post_init__] on the constructor's arguments *)
Definition NodeGroup_post_init (name : string) (enabled : bool)
    (member_profile_ids member_provider_ids exclude_profile_ids : pyval)
    (resilience_policy selection_mode : string) (manual_profile_id : pyval) : res NodeGroup :=
  name ← validate_name name;
  members ← validate_id_list member_profile_ids "node_group.member_profile_ids";
  providers ← validate_id_list member_provider_ids "node_group.member_provider_ids";
  excluded ← validate_id_list exclude_profile_ids "node_group.exclude_profile_ids";
  policy ← policy_of_value resilience_policy;
  mode ← mode_of_value selection_mode;
  manual ← match mode with
           | SEL_MANUAL =>
               match manual_profile_id with
               | PStr s =>
                   if truthy_str (strip s) then Ok (Some (strip s))
                   else raise PersistentValidationError "node_group.manual_profile_id is required when selection_mode is 'manual'"
               | _ => raise PersistentValidationError "node_group.manual_profile_id is required when selection_mode is 'manual'"
               end
           | SEL_AUTO =>
               match manual_profile_id with
               | PNone => Ok None
               | _ => raise PersistentValidationError "node_group.manual_profile_id must not be set when selection_mode is 'auto'"
               end
           end;
  _ ← ensure (negb (existsb (fun i => str_in i excluded) members)) PersistentValidationError
        "node_group.member_profile_ids and node_group.exclude_profile_ids must not overlap directly";
  Ok {| ng_name := name; ng_enabled := enabled; ng_member_profile_ids := members;
        ng_member_provider_ids := providers; ng_exclude_profile_ids := excluded;
        ng_resilience_policy := policy; ng_selection_mode := mode;
        ng_manual_profile_id := manual |}.

Definition NODE_GROUP_FIELDS : list string :=
  [ "name"; "enabled"; "member_profile_ids"; "member_provider_ids";
    "exclude_profile_ids"; "resilience_policy"; "selection_mode"; "manual_profile_id" ].

Definition str_list_val (l : list string) : pyval := PList (map PStr l).

Definition NodeGroup_to_dict (g : NodeGroup) : pydict pyval :=
  [ ("name", PStr (ng_name g)); ("enabled", PBool (ng_enabled g));
    ("member_profile_ids", str_list_val (ng_member_profile_ids g));
    ("member_provider_ids", str_list_val (ng_member_provider_ids g));
    ("exclude_profile_ids", str_list_val (ng_exclude_profile_ids g));
    ("resilience_policy", PStr (policy_value (ng_resilience_policy g)));
    ("selection_mode", PStr (mode_value (ng_selection_mode g)));
    ("manual_profile_id", match ng_manual_profile_id g with Some s => PStr s | None => PNone end) ].

Definition NodeGroup_from_dict `{PyStr} (data : pydict pyval) : res NodeGroup :=
  _ ← reject_unknown_keys data NODE_GROUP_FIELDS "node_group";
  name ← dict_item "name" data;
  enabled ← strict_bool (dict_get_or "enabled" (PBool true) data) "node_group.enabled";
  NodeGroup_post_init (py_str name) enabled
    (dict_get_or "member_profile_ids" (PList []) data)
    (dict_get_or "member_provider_ids" (PList []) data)
    (dict_get_or "exclude_profile_ids" (PList []) data)
    (py_str (dict_get_or "resilience_policy" (PStr (policy_value PREFERRED)) data))
    (py_str (dict_get_or "selection_mode" (PStr (mode_value SEL_AUTO)) data))
    (dict_get_or "manual_profile_id" PNone data).

(** ** node_groups/store.py: the raw items of node_groups.json *)
Definition item_named (name : string) (item : pydict pyval) : bool :=
  match dict_get "name" item with Some (PStr s) => String.eqb s name | _ => false end.

Section group_store.
Context `{PyStr}.

Abbreviation GM := (PyM (list (pydict pyval))).

Definition NodeGroupStore_get (name : string) (items : list (pydict pyval))
  : res (option NodeGroup) :=
  match List.find (item_named name) items with
  | Some item => Some <$> NodeGroup_from_dict item
  | None => Ok None
  end.

Definition NodeGroupStore_list (items : list (pydict pyval)) : res (list NodeGroup) :=
  map_res NodeGroup_from_dict items.

Definition require_group (items : list (pydict pyval)) (name : string) : res NodeGroup :=
  match List.find (item_named name) items with
  | Some item => NodeGroup_from_dict item
  | None => raise NodeGroupStoreError ("node group not found: " +:+ name)
  end.

(** [_replace_unlocked]; [add] and [update] do the same with their argument. *)
Definition replace_group (group : NodeGroup) : GM NodeGroup :=
  validated ← liftR (NodeGroup_from_dict (NodeGroup_to_dict group));
  _ ← modifyS (fun items =>
        List.filter (fun item => negb (item_named (ng_name validated) item)) items
        ++ [NodeGroup_to_dict validated]);
  mret validated.

Definition NodeGroupStore_add (group : NodeGroup) : GM unit :=
  _ ← replace_group group; mret tt.

Definition NodeGroupStore_remove (name : string) : GM unit :=
  modifyS (List.filter (fun item => negb (item_named name item))).

(** Lock, load, require, mutate, validate, save: the shape of the setters below *)
Definition modify_group (name : string) (f : NodeGroup → NodeGroup) : GM NodeGroup :=
  items ← getS;
  group ← liftR (require_group items name);
  replace_group (f group).
End group_store.

Definition with_members (l : list string) (g : NodeGroup) : NodeGroup := {|
  ng_name := ng_name g; ng_enabled := ng_enabled g; ng_member_profile_ids := l;
  ng_member_provider_ids := ng_member_provider_ids g;
  ng_exclude_profile_ids := ng_exclude_profile_ids g;
  ng_resilience_policy := ng_resilience_policy g;
  ng_selection_mode := ng_selection_mode g; ng_manual_profile_id := ng_manual_profile_id g |}.

Definition with_providers (l : list string) (g : NodeGroup) : NodeGroup := {|
  ng_name := ng_name g; ng_enabled := ng_enabled g;
  ng_member_profile_ids := ng_member_profile_ids g; ng_member_provider_ids := l;
  ng_exclude_profile_ids := ng_exclude_profile_ids g;
  ng_resilience_policy := ng_resilience_policy g;
  ng_selection_mode := ng_selection_mode g; ng_manual_profile_id := ng_manual_profile_id g |}.

Definition with_excluded (l : list string) (g : NodeGroup) : NodeGroup := {|
  ng_name := ng_name g; ng_enabled := ng_enabled g;
  ng_member_profile_ids := ng_member_profile_ids g;
  ng_member_provider_ids := ng_member_provider_ids g; ng_exclude_profile_ids := l;
  ng_resilience_policy := ng_resilience_policy g;
  ng_selection_mode := ng_selection_mode g; ng_manual_profile_id := ng_manual_profile_id g |}.

Definition with_selection (m : NodeGroupSelectionMode) (manual : option string)
    (g : NodeGroup) : NodeGroup := {|
  ng_name := ng_name g; ng_enabled := ng_enabled g;
  ng_member_profile_ids := ng_member_profile_ids g;
  ng_member_provider_ids := ng_member_provider_ids g;
  ng_exclude_profile_ids := ng_exclude_profile_ids g;
  ng_resilience_policy := ng_resilience_policy g;
  ng_selection_mode := m; ng_manual_profile_id := manual |}.

Definition with_policy (p : NodeGroupResiliencePolicy) (g : NodeGroup) : NodeGroup := {|
  ng_name := ng_name g; ng_enabled := ng_enabled g;
  ng_member_profile_ids := ng_member_profile_ids g;
  ng_member_provider_ids := ng_member_provider_ids g;
  ng_exclude_profile_ids := ng_exclude_profile_ids g; ng_resilience_policy := p;
  ng_selection_mode := ng_selection_mode g; ng_manual_profile_id := ng_manual_profile_id g |}.

Definition with_enabled (b : bool) (g : NodeGroup) : NodeGroup := {|
  ng_name := ng_name g; ng_enabled := b;
  ng_member_profile_ids := ng_member_profile_ids g;
  ng_member_provider_ids := ng_member_provider_ids g;
  ng_exclude_profile_ids := ng_exclude_profile_ids g;
  ng_resilience_policy := ng_resilience_policy g;
  ng_selection_mode := ng_selection_mode g; ng_manual_profile_id := ng_manual_profile_id g |}.

(** [if x not in l: l.append(x)] and [[y for y in l if y != x]] *)
Definition add_once (x : string) (l : list string) : list string :=
  if str_in x l then l else l ++ [x].
Definition without (x : string) (l : list string) : list string :=
  List.filter (fun y => negb (String.eqb y x)) l.

Section group_setters.
Context `{PyStr}.

Definition add_member_profile (name profile_id : string) :=
  modify_group name (fun g => with_members (add_once profile_id (ng_member_profile_ids g)) g).
Definition remove_member_profile (name profile_id : string) :=
  modify_group name (fun g => with_members (without profile_id (ng_member_profile_ids g)) g).
Definition add_member_provider (name provider_id : string) :=
  modify_group name (fun g => with_providers (add_once provider_id (ng_member_provider_ids g)) g).
Definition remove_member_provider (name provider_id : string) :=
  modify_group name (fun g => with_providers (without provider_id (ng_member_provider_ids g)) g).
Definition add_exclude_profile (name profile_id : string) :=
  modify_group name (fun g => with_excluded (add_once profile_id (ng_exclude_profile_ids g)) g).
Definition remove_exclude_profile (name profile_id : string) :=
  modify_group name (fun g => with_excluded (without profile_id (ng_exclude_profile_ids g)) g).
Definition set_selection (name : string) (mode : NodeGroupSelectionMode)
    (profile_id : option string) := modify_group name (with_selection mode profile_id).
Definition set_resilience_policy (name : string) (policy : NodeGroupResiliencePolicy) :=
  modify_group name (with_policy policy).
Definition set_enabled (name : string) (enabled : bool) :=
  modify_group name (with_enabled enabled).
End group_setters.

(** ** node_groups/resolver.py *)
Definition provider_member (g : NodeGroup) (p : Profile) : bool :=
  match p_provider_id p with
  | Some pid => str_in pid (ng_member_provider_ids g)
  | None => false
  end.

Definition included_ids (g : NodeGroup) (profiles : list Profile) : gset string :=
  (list_to_set (ng_member_profile_ids g)
     ∪ list_to_set (map p_id (List.filter (provider_member g) profiles)))
  ∖ list_to_set (ng_exclude_profile_ids g).

Definition resolve_membership `{PySet} (g : NodeGroup) (profile_store : list Profile)
  : list Profile :=
  let profiles := ProfileStore_list profile_store in
  let by_id := index_by p_id profiles in
  omap (fun i => dict_get i by_id) (set_iter (included_ids g profiles)).

(** A list comprehension whose condition can raise *)
Fixpoint filter_res {A} (f : A → res bool) (l : list A) : res (list A) :=
  match l with
  | [] => Ok []
  | x :: l' => b ← f x; ys ← filter_res f l'; Ok (if b : bool then x :: ys else ys)
  end.

Definition is_resilient (p : Profile) : res bool :=
  c ← profile_resilience_category p; Ok (bool_decide (c = RESILIENT)).

Definition resolve_candidates `{PyStr, PySet} (g : NodeGroup) (profile_store : list Profile)
    (provider_store : list Provider) (config : pydict pyval) (now : Profile → Z)
  : res (list Profile) :=
  let members := resolve_membership g profile_store in
  eligible ← filter_eligible_profiles members provider_store config now;
  if bool_decide (ng_resilience_policy g = RESILIENT_ONLY)
  then filter_res is_resilient eligible
  else Ok eligible.

(** ** node_groups/scoring.py *)
Definition resilience_score (p : Profile) (policy : NodeGroupResiliencePolicy) : res Q :=
  if bool_decide (policy = PREFERRED)
  then b ← is_resilient p; Ok (if b : bool then 1%Q else 0%Q)
  else Ok 0%Q.

Definition fresh_latency_ms (p : Profile) (config : pydict pyval) (now : Z)
  : res (option pyfloat) :=
  match p_latency_ms p, p_last_latency_check p with
  | Some latency, Some d =>
      max_stale ← config_get config "rotation" "latency_max_stale_seconds" (PInt 300);
      let last := dt_instant (assume_utc d) in
      if (now <? last)%Z then Ok None
      else
        bound ← py_number max_stale;
        let elapsed := Fin (elapsed_seconds now last) in
        (* elapsed >= max_stale_seconds; comparisons with NaN are false *)
        let stale := match bound with NaN => false | _ => negb (flt elapsed bound) end in
        Ok (if stale then None else Some latency)
  | _, _ => Ok None
  end.

Record CandidateScore : Type := {
  sc_profile_id : string;
  sc_resilience : Q;
  sc_latency : option pyfloat;
  sc_health : option Q;
  sc_total : Q
}.

Definition score_candidate (policy : NodeGroupResiliencePolicy) (config : pydict pyval)
    (now : Profile → Z) (p : Profile) : res CandidateScore :=
  resilience ← resilience_score p policy;
  latency ← fresh_latency_ms p config (now p);
  let health : option Q := None in
  Ok {| sc_profile_id := p_id p; sc_resilience := resilience; sc_latency := latency;
        sc_health := health;
        sc_total := (resilience + match health with Some h => h | None => 0 end)%Q |}.

Definition score_candidates (cands : list Profile) (policy : NodeGroupResiliencePolicy)
    (config : pydict pyval) (now : Profile → Z) : res (list CandidateScore) :=
  map_res (score_candidate policy config now) cands.

Definition latency_rank (s : CandidateScore) : pyfloat :=
  match sc_latency s with Some f => f | None => PInf end.

(** [a == b] on floats *)
Definition feqb (a b : pyfloat) : bool :=
  match a, b with
  | Fin x, Fin y => Qeq_bool x y
  | PInf, PInf | NInf, NInf => true
  | _, _ => false
  end.

(** [key(a) < key(b)] for the key [(-total, latency_rank, profile_id)]: tuples
    compare at their first unequal position *)
Definition score_lt (a b : CandidateScore) : bool :=
  if negb (Qeq_bool (- sc_total a) (- sc_total b)) then Qltb (- sc_total a) (- sc_total b)
  else if negb (feqb (latency_rank a) (latency_rank b)) then flt (latency_rank a) (latency_rank b)
  else String.ltb (sc_profile_id a) (sc_profile_id b).

Definition rank_candidates (cands : list Profile) (policy : NodeGroupResiliencePolicy)
    (config : pydict pyval) (now : Profile → Z) : res (list CandidateScore) :=
  scores ← score_candidates cands policy config now;
  Ok (py_sorted score_lt scores).

Inductive NodeGroupSelectionResult : Type := SELECTED | UNAVAILABLE.

Record NodeGroupSelectionExplanation : Type := {
  ex_group_name : string;
  ex_result : NodeGroupSelectionResult;
  ex_selected_profile_id : option string;
  ex_candidates : list CandidateScore;
  ex_decided_by : option string
}.

Definition decided_by (ranked : list CandidateScore) : string :=
  match ranked with
  | a :: b :: _ =>
      if negb (Qeq_bool (sc_total a) (sc_total b)) then "resilience_score"
      else if negb (feqb (latency_rank a) (latency_rank b)) then "latency_tie_break"
      else "tie_break_by_id"
  | _ => "only_candidate"
  end.

Definition select_best (g : NodeGroup) (cands : list Profile) (config : pydict pyval)
    (now : Profile → Z) : res (option Profile * NodeGroupSelectionExplanation) :=
  ranked ← rank_candidates cands (ng_resilience_policy g) config now;
  match ranked with
  | [] => Ok (None, {| ex_group_name := ng_name g; ex_result := UNAVAILABLE;
                       ex_selected_profile_id := None; ex_candidates := [];
                       ex_decided_by := None |})
  | winner :: _ =>
      let by_id := index_by p_id cands in
      p ← dict_item (sc_profile_id winner) by_id;
      Ok (Some p, {| ex_group_name := ng_name g; ex_result := SELECTED;
                     ex_selected_profile_id := Some (sc_profile_id winner);
                     ex_candidates := ranked; ex_decided_by := Some (decided_by ranked) |})
  end.

(** ** Lemmas *)
Lemma resilience_category_total p :
  profile_resilience_category p = Ok (if resilient p then RESILIENT else COMPATIBILITY).
Proof. unfold resilient, profile_resilience_category. by destruct (p_protocol p). Qed.

Lemma is_resilient_eq p : is_resilient p = Ok (resilient p).
Proof.
  unfold is_resilient. rewrite resilience_category_total. cbn. by destruct (resilient p).
Qed.

Lemma filter_res_pure {A} (f : A → res bool) (g : A → bool) l :
  (∀ x, f x = Ok (g x)) → filter_res f l = Ok (List.filter g l).
Proof.
  intros H. induction l as [|x l IH]; [done|]. cbn. rewrite H. cbn. by rewrite IH.
Qed.

Lemma str_ltb_irrefl_le a b : String.ltb b a = false ↔ String.le a b.
Proof.
  unfold String.le, String.ltb, String.leb. rewrite (String.compare_antisym b a).
  destruct (String.compare a b); cbn; naive_solver.
Qed.

Lemma Qeq_bool_false a b : Qeq_bool a b = false ↔ ¬ (a == b)%Q.
Proof. rewrite <- Qeq_bool_iff. destruct (Qeq_bool a b); naive_solver. Qed.

(** Reflects the boolean comparisons of rationals in the context. *)
Ltac qreflect :=
  repeat match goal with
  | H : Qltb _ _ = true |- _ => apply Qltb_spec in H
  | H : Qltb _ _ = false |- _ => apply Qltb_false in H
  | H : Qeq_bool _ _ = true |- _ => apply Qeq_bool_iff in H
  | H : Qeq_bool _ _ = false |- _ => apply Qeq_bool_false in H
  | |- Qltb _ _ = true => apply Qltb_spec
  | |- Qltb _ _ = false => apply Qltb_false
  | |- Qeq_bool _ _ = true => apply Qeq_bool_iff
  end.

Definition not_nan (f : pyfloat) : Prop := f ≠ NaN.

Lemma float_trichotomy a b :
  not_nan a → not_nan b → flt a b = false → flt b a = false → feqb a b = true.
Proof. destruct a, b; cbn; try done. intros. qreflect. lra. Qed.

Lemma flt_trans a b c : flt a b = true → flt b c = true → flt a c = true.
Proof. destruct a, b, c; cbn; try done. intros. qreflect. lra. Qed.

Lemma flt_asym a b : flt a b = true → flt b a = false.
Proof. destruct a, b; cbn; try done. intros. qreflect. lra. Qed.

Lemma feqb_flt_l a b c : feqb a b = true → flt a c = flt b c.
Proof.
  destruct a, b, c; cbn; try done. intros H. apply Qeq_bool_iff in H.
  apply eq_true_iff_eq. rewrite !Qltb_spec. split; intros; lra.
Qed.

Lemma feqb_sym a b : feqb a b = feqb b a.
Proof.
  destruct a, b; cbn; try done. apply eq_true_iff_eq. rewrite !Qeq_bool_iff. split; intros; lra.
Qed.

Lemma feqb_flt_r a b c : feqb a b = true → flt c a = flt c b.
Proof.
  destruct a, b, c; cbn; try done. intros H. apply Qeq_bool_iff in H.
  apply eq_true_iff_eq. rewrite !Qltb_spec. split; intros; lra.
Qed.

Lemma feqb_not_lt a b : feqb a b = true → flt a b = false.
Proof. destruct a, b; cbn; try done. intros. qreflect. lra. Qed.

Lemma feqb_trans a b c : feqb a b = true → feqb b c = true → feqb a c = true.
Proof. destruct a, b, c; cbn; try done. intros. qreflect. lra. Qed.

(** The order the ranking realises, as a proposition: better total first, then
    fresh lower latency, then the id. *)
Definition ranked_before (a b : CandidateScore) : Prop :=
  (sc_total b < sc_total a)%Q
  ∨ (sc_total a == sc_total b)%Q
    ∧ (flt (latency_rank a) (latency_rank b) = true
       ∨ feqb (latency_rank a) (latency_rank b) = true
         ∧ String.le (sc_profile_id a) (sc_profile_id b)).

Definition measured (s : CandidateScore) : Prop := not_nan (latency_rank s).

Lemma score_lt_false a b :
  measured a → measured b → score_lt b a = false ↔ ranked_before a b.
Proof.
  intros Ha Hb. unfold score_lt, ranked_before.
  destruct (Qeq_bool (- sc_total b) (- sc_total a)) eqn:E1; cbn.
  - apply Qeq_bool_iff in E1. destruct (feqb (latency_rank b) (latency_rank a)) eqn:E2; cbn.
    + rewrite str_ltb_irrefl_le. rewrite feqb_sym in E2. split.
      * intros Hl. right. split; [lra | by right].
      * intros [Hq|[_ [Hf|[_ Hl]]]]; [lra | | done]. by rewrite feqb_not_lt in Hf.
    + split.
      * intros Hf. right. split; [lra|]. left.
        destruct (flt (latency_rank a) (latency_rank b)) eqn:Ef; [done|].
        by rewrite (float_trichotomy _ _ Hb Ha Hf Ef) in E2.
      * intros [Hq|[_ [Hf|[He _]]]]; [lra | by apply flt_asym |].
        rewrite feqb_sym in He. congruence.
  - apply Qeq_bool_false in E1. rewrite Qltb_false. split.
    + intros H. left. apply Qnot_le_lt. intros H'. apply E1. lra.
    + intros [H|[H _]]; [lra|]. destruct E1. lra.
Qed.

Lemma ranked_before_trans a b c : ranked_before a b → ranked_before b c → ranked_before a c.
Proof.
  unfold ranked_before. intros [H1|[H1 H1']] [H2|[H2 H2']];
    [left; lra | left; lra | left; lra |]. right. split; [lra|].
  destruct H1' as [H1'|[H1' L1]], H2' as [H2'|[H2' L2]].
  - left. by eapply flt_trans.
  - left. by rewrite <- (feqb_flt_r _ _ _ H2').
  - left. by rewrite (feqb_flt_l _ _ _ H1').
  - right. split; [by eapply feqb_trans | by etrans].
Qed.

Lemma score_lt_asym a b : measured a → measured b → score_lt a b = true → score_lt b a = false.
Proof.
  intros Ha Hb H. apply score_lt_false; [done..|]. unfold score_lt, ranked_before in *.
  destruct (Qeq_bool (- sc_total a) (- sc_total b)) eqn:E1; cbn in H.
  - apply Qeq_bool_iff in E1. right. split; [lra|].
    destruct (feqb _ _) eqn:E2; cbn in H; [|by left].
    right. split; [done|]. unfold String.le, String.leb, String.ltb in *.
    by destruct (String.compare _ _).
  - qreflect. left. lra.
Qed.

Lemma score_lt_trans a b c :
  measured a → measured b → measured c →
  score_lt b a = false → score_lt c b = false → score_lt c a = false.
Proof.
  intros Ha Hb Hc. rewrite !score_lt_false by done. apply ranked_before_trans.
Qed.

Lemma score_tie_same_id a b :
  measured a → measured b → score_lt a b = false → score_lt b a = false →
  sc_profile_id a = sc_profile_id b.
Proof.
  intros Ha Hb H1 H2. rewrite score_lt_false in H1, H2 by done.
  destruct H1 as [H1|[H1 [H1'|[H1' L1]]]], H2 as [H2|[H2 [H2'|[H2' L2]]]];
    try (exfalso; lra).
  - apply flt_asym in H1'. congruence.
  - rewrite feqb_sym in H2'. apply feqb_not_lt in H2'. congruence.
  - rewrite feqb_sym in H1'. apply feqb_not_lt in H1'. congruence.
  - by apply (anti_symm String.le).
Qed.

Lemma map_res_perm {A B} (f : A → res B) l l' ys :
  l ≡ₚ l' → map_res f l = Ok ys → ∃ ys', map_res f l' = Ok ys' ∧ ys ≡ₚ ys'.
Proof.
  intros Hp. revert ys. induction Hp as [|x l l' Hp IH|x y l|l l' l'' _ IH1 _ IH2]; intros ys.
  - intros [= <-]. by exists [].
  - cbn. destruct (f x); cbn; [|done]. destruct (map_res f l) as [zs|]; cbn; [|done].
    intros [= <-]. destruct (IH zs) as (zs' & -> & Hz); [done|]. cbn. eexists. split; [done|].
    by constructor.
  - cbn. destruct (f y), (f x); cbn; try done. destruct (map_res f l); cbn; try done.
    intros [= <-]. eexists. split; [done|]. constructor.
  - intros H. destruct (IH1 _ H) as (y1 & H1 & P1). destruct (IH2 _ H1) as (y2 & H2 & P2).
    exists y2. split; [done|]. by etrans.
Qed.

Lemma score_candidate_id policy config now p s :
  score_candidate policy config now p = Ok s → sc_profile_id s = p_id p.
Proof.
  unfold score_candidate. destruct (resilience_score p policy); cbn; [|done].
  destruct (fresh_latency_ms p config (now p)); cbn; [|done]. by intros [= <-].
Qed.

Lemma score_candidates_ids cands policy config now scores :
  score_candidates cands policy config now = Ok scores →
  map sc_profile_id scores = map p_id cands.
Proof.
  intros H%map_res_ok_inv. induction H as [|p s l l' Hs _ IH]; [done|]. cbn.
  by rewrite IH, (score_candidate_id _ _ _ _ _ Hs).
Qed.

(** No profile carries a NaN as its latency. *)
Definition latencies_ordered (cands : list Profile) : Prop :=
  Forall (fun p => p_latency_ms p ≠ Some NaN) cands.

Lemma score_candidate_measured policy config now p s :
  p_latency_ms p ≠ Some NaN → score_candidate policy config now p = Ok s → measured s.
Proof.
  intros Hl. unfold score_candidate. destruct (resilience_score p policy); cbn; [|done].
  destruct (fresh_latency_ms p config (now p)) as [o|] eqn:E; cbn; [|done].
  intros [= <-]. unfold measured, not_nan, latency_rank. cbn. destruct o as [f|]; [|done].
  unfold fresh_latency_ms in E. destruct (p_latency_ms p) as [f'|]; [|done].
  destruct (p_last_latency_check p); [|done]. destruct (config_get _ _ _ _); cbn in E; [|done].
  destruct (_ <? _)%Z; [done|]. destruct (py_number _) as [b|]; cbn in E; [|done].
  destruct (match b with NaN => false | _ => _ end); [done|]. injection E as <-. naive_solver.
Qed.

Lemma score_candidates_measured cands policy config now scores :
  latencies_ordered cands → score_candidates cands policy config now = Ok scores →
  Forall measured scores.
Proof.
  intros Hl H%map_res_ok_inv. revert Hl.
  induction H as [|p s l l' Hs _ IH]; intros Hl; constructor; inversion Hl; subst; auto.
  by eapply score_candidate_measured.
Qed.

Lemma rank_candidates_ok cands policy config now ranked :
  rank_candidates cands policy config now = Ok ranked →
  ∃ scores, score_candidates cands policy config now = Ok scores ∧ ranked = py_sorted score_lt scores.
Proof.
  unfold rank_candidates. destruct (score_candidates _ _ _ _) as [scores|]; cbn; [|done].
  intros [= <-]. eauto.
Qed.

Lemma rank_candidates_perm cands cands' policy config now ranked :
  NoDup (map p_id cands) → latencies_ordered cands → cands ≡ₚ cands' →
  rank_candidates cands policy config now = Ok ranked →
  rank_candidates cands' policy config now = Ok ranked.
Proof.
  intros Hn Hl Hp (scores & Hs & ->)%rank_candidates_ok. unfold rank_candidates.
  destruct (map_res_perm _ _ _ _ Hp Hs) as (scores' & Hs' & Hps).
  unfold score_candidates. rewrite Hs'. cbn. f_equal. symmetry.
  pose proof (score_candidates_measured _ _ _ _ _ Hl Hs) as Hm.
  apply (py_sorted_unique score_lt measured); [apply score_lt_asym | apply score_lt_trans | done | | done].
  intros a b Ha Hb H1 H2. rewrite Forall_forall in Hm.
  pose proof (score_tie_same_id a b (Hm _ Ha) (Hm _ Hb) H1 H2) as Hid.
  rewrite <- (score_candidates_ids _ _ _ _ _ Hs) in Hn.
  apply list_elem_of_lookup in Ha as [i Hi]. apply list_elem_of_lookup in Hb as [j Hj].
  assert (i = j) as ->; [|congruence].
  eapply NoDup_lookup; [exact Hn| |]; rewrite list_lookup_fmap.
  - by rewrite Hi.
  - rewrite Hj. cbn. by rewrite Hid.
Qed.

(** ** Resolution *)
Lemma find_index_unique (ids : list string) (profiles : list Profile) :
  NoDup ids → NoDup (map p_id (omap (fun i => dict_get i (index_by p_id profiles)) ids)).
Proof.
  induction ids as [|i ids IH]; intros Hn; [apply NoDup_nil_2|].
  apply NoDup_cons in Hn as [Hi Hn]. cbn.
  destruct (dict_get i (index_by p_id profiles)) as [p|] eqn:E; [|auto].
  apply NoDup_cons. split; [|auto].
  intros (q & Hq & (j & Hj & Hq')%list_elem_of_omap)%list_elem_of_fmap.
  apply index_by_some in E as [_ E]. apply index_by_some in Hq' as [_ Hq'].
  apply Hi. rewrite <- E, Hq, Hq'. done.
Qed.

Lemma set_iter_NoDup `{PySet} s : NoDup (set_iter s).
Proof. rewrite set_iter_perm. apply NoDup_elements. Qed.

Lemma resolve_membership_nodup `{PySet} g profiles :
  NoDup (map p_id (resolve_membership g profiles)).
Proof. apply find_index_unique, set_iter_NoDup. Qed.

(** The members of a group in a store with unique ids: listed or reached through a
    provider, and not excluded. *)
Definition group_member (g : NodeGroup) (p : Profile) : Prop :=
  (p_id p ∈ ng_member_profile_ids g ∨ provider_member g p = true)
  ∧ p_id p ∉ ng_exclude_profile_ids g.

Lemma resolve_membership_spec `{PySet} g profiles p :
  NoDup (map p_id profiles) →
  p ∈ resolve_membership g profiles ↔ p ∈ profiles ∧ group_member g p.
Proof.
  intros Hn. unfold resolve_membership, ProfileStore_list. rewrite list_elem_of_omap.
  setoid_rewrite set_iter_perm. setoid_rewrite elem_of_elements. unfold included_ids, group_member.
  setoid_rewrite elem_of_difference. setoid_rewrite elem_of_union.
  setoid_rewrite elem_of_list_to_set. split.
  - intros (i & [Hi Hx] & [Hp <-]%index_by_some). split; [done|]. split; [|done].
    destruct Hi as [Hi|(q & Hq & [Hqin Hqm]%List_filter_elem_of)%list_elem_of_fmap]; [by left|].
    right. assert (p = q) as ->; [|done].
    pose proof (index_by_unique p_id profiles q Hn Hqin) as H1.
    pose proof (index_by_unique p_id profiles p Hn Hp) as H2. congruence.
  - intros (Hp & Hm & Hx). exists (p_id p). split; [|by apply index_by_unique].
    split; [|done]. destruct Hm as [Hm|Hm]; [by left|]. right.
    apply list_elem_of_fmap. exists p. split; [done|]. by apply List_filter_elem_of.
Qed.

Lemma resolve_candidates_eq `{PyStr, PySet} g ps pv config now :
  resolve_candidates g ps pv config now
  = l ← filter_eligible_profiles (resolve_membership g ps) pv config now;
    Ok (if bool_decide (ng_resilience_policy g = RESILIENT_ONLY) then List.filter resilient l else l).
Proof.
  unfold resolve_candidates. destruct (filter_eligible_profiles _ _ _ _); cbn; [|done].
  destruct (bool_decide _); [|done]. apply filter_res_pure, is_resilient_eq.
Qed.

Lemma filter_eligible_ok `{PyStr} l pv config now l' :
  filter_eligible_profiles l pv config now = Ok l' →
  ∃ cooldown, l' = List.filter (eligible pv now cooldown) l
    ∧ cooldown_seconds config = Ok cooldown
    ∧ ∀ l2, filter_eligible_profiles l2 pv config now = Ok (List.filter (eligible pv now cooldown) l2).
Proof.
  unfold filter_eligible_profiles. destruct (cooldown_seconds config) as [c|]; cbn; [|done].
  intros [= <-]. exists c. done.
Qed.

Lemma resolve_candidates_sound `{PyStr, PySet} g ps pv config now cands :
  resolve_candidates g ps pv config now = Ok cands →
  NoDup (map p_id cands) ∧ ∀ p, p ∈ cands → p ∈ ps.
Proof.
  rewrite resolve_candidates_eq.
  destruct (filter_eligible_profiles _ _ _ _) as [l|] eqn:E; cbn; [|done].
  apply filter_eligible_ok in E as (c & -> & _). intros [= <-]. split.
  - destruct (bool_decide _); repeat apply filter_keep_nodup; apply resolve_membership_nodup.
  - intros p Hp. assert (p ∈ resolve_membership g ps) as Hm.
    { destruct (bool_decide _); rewrite !List_filter_elem_of in Hp; tauto. }
    apply list_elem_of_omap in Hm as (i & _ & [Hi _]%index_by_some). done.
Qed.

(** the candidate set of a group is exactly: the stored profiles that are
    listed or belong to a listed provider, minus every excluded one (exclusion
    wins), that pass the shared eligibility filter at the configured cooldown and, under [RESILIENT_ONLY],
    are of a resilient protocol; no profile appears twice. *)
Theorem resolve_candidates_exact `{PyStr, PySet} g ps pv config now cands
    (Hids : NoDup (map p_id ps))
    (Hok : resolve_candidates g ps pv config now = Ok cands) :
  NoDup (map p_id cands) ∧
  ∃ cooldown, cooldown_seconds config = Ok cooldown ∧ ∀ p, p ∈ cands ↔
    p ∈ ps ∧ group_member g p ∧ eligible pv now cooldown p = true
    ∧ (ng_resilience_policy g = RESILIENT_ONLY → resilient p = true).
Proof.
  split; [by eapply resolve_candidates_sound|]. rewrite resolve_candidates_eq in Hok.
  destruct (filter_eligible_profiles _ _ _ _) as [l|] eqn:E; cbn in Hok; [|done].
  apply filter_eligible_ok in E as (c & -> & Hc & _). injection Hok as <-.
  exists c. split; [done|]. intros p. pose proof (resolve_membership_spec g ps p Hids) as Hm.
  case_bool_decide as Hpol; rewrite !List_filter_elem_of, Hm; tauto.
Qed.

Lemma List_filter_perm {A} (f : A → bool) l l' : l ≡ₚ l' → List.filter f l ≡ₚ List.filter f l'.
Proof.
  induction 1 as [|x l l' _ IH|x y l|l l' l'' _ IH1 _ IH2]; cbn; [done|..].
  - destruct (f x); by rewrite IH.
  - destruct (f x), (f y); done || constructor.
  - by etrans.
Qed.

Lemma omap_perm {A B} (f : A → option B) l l' : l ≡ₚ l' → omap f l ≡ₚ omap f l'.
Proof. by intros ->. Qed.

Lemma resolve_candidates_order `{PyStr} (S1 S2 : PySet) g ps pv config now cands :
  @resolve_candidates _ S1 g ps pv config now = Ok cands →
  ∃ cands', @resolve_candidates _ S2 g ps pv config now = Ok cands' ∧ cands ≡ₚ cands'.
Proof.
  rewrite !resolve_candidates_eq.
  destruct (filter_eligible_profiles (@resolve_membership S1 g ps) pv config now) as [l|] eqn:E;
    cbn; [|done].
  apply filter_eligible_ok in E as (c & -> & _ & Hall). intros [= <-]. rewrite Hall. cbn.
  eexists. split; [done|].
  assert (@resolve_membership S1 g ps ≡ₚ @resolve_membership S2 g ps) as Hm.
  { unfold resolve_membership. apply omap_perm. by rewrite !set_iter_perm. }
  destruct (bool_decide _); by repeat apply List_filter_perm.
Qed.

(** ** Selection *)
Lemma index_by_perm cands cands' k :
  NoDup (map p_id cands) → cands ≡ₚ cands' →
  dict_get k (index_by p_id cands) = dict_get k (index_by p_id cands').
Proof.
  intros Hn Hp. assert (NoDup (map p_id cands')) as Hn' by (by rewrite <- Hp).
  destruct (dict_get k (index_by p_id cands)) as [p|] eqn:E.
  - apply index_by_some in E as [Hin <-]. symmetry. apply index_by_unique; [done|]. by rewrite <- Hp.
  - destruct (dict_get k (index_by p_id cands')) as [p|] eqn:E'; [|done].
    apply index_by_some in E' as [Hin <-]. rewrite <- Hp in Hin.
    by rewrite (index_by_unique p_id cands p Hn Hin) in E.
Qed.

(** the profile a group selects does not depend on the order in which Python
    iterates over sets: for any two iteration orders, resolving the group and
    selecting the best candidate gives the same profile and the same explanation. *)
Theorem selection_independent_of_set_order `{PyStr} (S1 S2 : PySet) g ps pv config now c1 c2 r
    (H1 : @resolve_candidates _ S1 g ps pv config now = Ok c1)
    (H2 : @resolve_candidates _ S2 g ps pv config now = Ok c2)
    (Hnan : latencies_ordered ps)
    (Hsel : select_best g c1 config now = Ok r) :
  select_best g c2 config now = Ok r.
Proof.
  destruct (resolve_candidates_order S1 S2 _ _ _ _ _ _ H1) as (c2' & H2' & Hp).
  rewrite H2 in H2'. injection H2' as <-.
  destruct (@resolve_candidates_sound _ S1 _ _ _ _ _ _ H1) as [Hn Hmem].
  assert (latencies_ordered c1) as Hl.
  { unfold latencies_ordered in *. rewrite Forall_forall in Hnan |- *. intros p Hp'.
    by apply Hnan, Hmem. }
  unfold select_best in *.
  destruct (rank_candidates c1 _ config now) as [ranked|] eqn:E; cbn in Hsel; [|done].
  rewrite (rank_candidates_perm _ _ _ _ _ _ Hn Hl Hp E). cbn.
  destruct ranked as [|w ranked]; [done|]. unfold dict_item in *.
  by rewrite <- (index_by_perm c1 c2 _ Hn Hp).
Qed.

Lemma StronglySorted_impl_head {A} (R Q : A → A → Prop) x l :
  StronglySorted R (x :: l) → (∀ y, y ∈ l → R x y → Q x y) → ∀ y, y ∈ l → Q x y.
Proof.
  intros H HQ y Hy. inversion H as [|?? _ Hf]; subst. rewrite Forall_forall in Hf. auto.
Qed.

(** selection picks a winner exactly when there is a candidate; the winner is
    one of the candidates, and no candidate beats it: every other one has a lower
    total, or an equal total and a latency that is worse or unmeasured, or ties on
    both and has a greater id.  Latency never outweighs the total, and the lookup
    of the winner cannot fail. *)
Theorem select_best_correct g cands config now ranked
    (Hids : NoDup (map p_id cands)) (Hnan : latencies_ordered cands)
    (Hrank : rank_candidates cands (ng_resilience_policy g) config now = Ok ranked) :
  match cands with
  | [] => ∃ ex, select_best g cands config now = Ok (None, ex) ∧ ex_result ex = UNAVAILABLE
  | _ => ∃ p ex winner,
      select_best g cands config now = Ok (Some p, ex)
      ∧ p ∈ cands ∧ ex_selected_profile_id ex = Some (p_id p) ∧ ex_result ex = SELECTED
      ∧ map sc_profile_id (ex_candidates ex) ≡ₚ map p_id cands
      ∧ sc_profile_id winner = p_id p ∧ head (ex_candidates ex) = Some winner
      ∧ ∀ s, s ∈ tail (ex_candidates ex) → ranked_before winner s
  end.
Proof.
  pose proof (rank_candidates_ok _ _ _ _ _ Hrank) as (scores & Hs & Hr).
  pose proof (score_candidates_ids _ _ _ _ _ Hs) as Hsid.
  pose proof (score_candidates_measured _ _ _ _ _ Hnan Hs) as Hm.
  pose proof (py_sorted_sorted score_lt measured score_lt_asym score_lt_trans _ Hm) as Hsort.
  assert (map sc_profile_id ranked ≡ₚ map p_id cands) as Hperm.
  { rewrite Hr, <- Hsid. by rewrite py_sorted_perm. }
  rewrite <- Hr in Hsort. unfold select_best. rewrite Hrank. cbn.
  assert (Forall measured ranked) as Hmr by (by rewrite Hr, py_sorted_perm).
  destruct ranked as [|w ranked].
  { apply Permutation_nil in Hperm. destruct cands; [|done]. by eexists. }
  assert (sc_profile_id w ∈ map p_id cands) as Hw.
  { rewrite <- Hperm. apply list_elem_of_here. }
  apply list_elem_of_fmap in Hw as (p & Hwp & Hp).
  destruct cands as [|p0 cands']; [by apply not_elem_of_nil in Hp|].
  unfold dict_item. rewrite Hwp, (index_by_unique p_id _ p Hids Hp). cbn.
  exists p, {| ex_group_name := ng_name g; ex_result := SELECTED;
               ex_selected_profile_id := Some (p_id p); ex_candidates := w :: ranked;
               ex_decided_by := Some (decided_by (w :: ranked)) |}, w.
  split; [done|]. do 5 (split; [done|]). split; [done|]. cbn.
  eapply StronglySorted_impl_head; [exact Hsort|]. intros s Hs' Hns.
  rewrite Forall_forall in Hmr. apply score_lt_false; [| |done]; apply Hmr;
    [apply list_elem_of_here | by apply list_elem_of_further].
Qed.

(** ** Well-formed groups *)
Definition ids_wf (l : list string) : Prop :=
  NoDup l ∧ Forall (fun s => strip s = s ∧ s ≠ "") l.

Definition NodeGroup_wf (g : NodeGroup) : Prop :=
  slug_core (ng_name g) = true
  ∧ ids_wf (ng_member_profile_ids g)
  ∧ ids_wf (ng_member_provider_ids g)
  ∧ ids_wf (ng_exclude_profile_ids g)
  ∧ match ng_selection_mode g, ng_manual_profile_id g with
    | SEL_MANUAL, Some s => strip s = s ∧ s ≠ ""
    | SEL_AUTO, None => True
    | _, _ => False
    end
  ∧ (∀ i, i ∈ ng_member_profile_ids g → i ∉ ng_exclude_profile_ids g).

Lemma ids_wf_snoc acc s : ids_wf acc → s ∉ acc → s ≠ "" → strip s = s → ids_wf (acc ++ [s]).
Proof.
  intros [Hn Hf] Hs H1 H2. split.
  - apply NoDup_app. split; [done|]. split; [|apply NoDup_singleton].
    by intros x Hx ->%list_elem_of_singleton.
  - apply Forall_app. split; [done|]. by constructor.
Qed.

Lemma validate_ids_sound field items acc r :
  ids_wf acc → validate_ids field items acc = Ok r → ids_wf r.
Proof.
  revert acc. induction items as [|v items IH]; intros acc Ha; cbn; [by intros [= <-]|].
  destruct v as [| | | |s| |]; try done.
  destruct (truthy_str (strip s)) eqn:Et; [|done]. apply IH.
  destruct (str_in (strip s) acc) eqn:Ei; [done|].
  apply ids_wf_snoc; [done | by apply str_in_false | by apply truthy_str_ne | apply strip_idem].
Qed.

Lemma validate_ids_complete field l acc :
  ids_wf l → (∀ s, s ∈ l → s ∉ acc) → validate_ids field (map PStr l) acc = Ok (acc ++ l).
Proof.
  revert acc. induction l as [|s l IH]; intros acc [Hn Hf] Hd; cbn; [by rewrite app_nil_r|].
  apply NoDup_cons in Hn as [Hs Hn]. apply Forall_cons in Hf as [[H1 H2] Hf].
  rewrite H1, (proj2 (truthy_str_ne s) H2), (proj2 (str_in_false s acc)) by (apply Hd, list_elem_of_here).
  rewrite IH; [by rewrite <- app_assoc | done |].
  intros x Hx [Hxa|Hxs]%elem_of_app; [|apply list_elem_of_singleton in Hxs as ->; done].
  by apply (Hd x); [apply list_elem_of_further|].
Qed.

Lemma validate_id_list_sound v field r : validate_id_list v field = Ok r → ids_wf r.
Proof.
  destruct v; try done. apply validate_ids_sound. split; [apply NoDup_nil_2 | constructor].
Qed.

Lemma validate_id_list_complete l field :
  ids_wf l → validate_id_list (str_list_val l) field = Ok l.
Proof. intros H. apply (validate_ids_complete field l []); [done|]. intros s _. apply not_elem_of_nil. Qed.

Lemma no_overlap_iff members excluded :
  negb (existsb (fun i => str_in i excluded) members) = true
  ↔ ∀ i, i ∈ members → i ∉ excluded.
Proof.
  rewrite negb_true_iff. rewrite <- not_true_iff_false, existsb_exists.
  setoid_rewrite str_in_spec. setoid_rewrite <- list_elem_of_In.
  split; [intros Hn i H1 H2; apply Hn; by exists i | intros Hn (i & H1 & H2); by apply (Hn i)].
Qed.

Lemma NodeGroup_post_init_wf name enabled a b c p m man g :
  NodeGroup_post_init name enabled a b c p m man = Ok g → NodeGroup_wf g.
Proof.
  unfold NodeGroup_post_init, validate_name. destruct (slug_match (strip name)) eqn:Es; cbn; [|done].
  rewrite slug_match_strip in Es.
  destruct (validate_id_list a _) eqn:Ea; cbn; [|done].
  destruct (validate_id_list b _) eqn:Eb; cbn; [|done].
  destruct (validate_id_list c _) eqn:Ec; cbn; [|done].
  destruct (policy_of_value p); cbn; [|done]. destruct (mode_of_value m) as [mode|]; cbn; [|done].
  destruct (match mode with SEL_MANUAL => _ | SEL_AUTO => _ end) as [manual|] eqn:Em; cbn; [|done].
  unfold ensure. destruct (negb (existsb _ _)) eqn:Eo; cbn; [|done]. intros [= <-].
  apply validate_id_list_sound in Ea, Eb, Ec.
  repeat (split; [done|]). cbn. split; [|by apply no_overlap_iff].
  destruct mode, man as [| | | |s| |]; try done; [|by injection Em as <-].
  destruct (truthy_str (strip s)) eqn:Et; [|done]. injection Em as <-.
  split; [apply strip_idem | by apply truthy_str_ne].
Qed.

Lemma NodeGroup_from_dict_wf `{PyStr} d g : NodeGroup_from_dict d = Ok g → NodeGroup_wf g.
Proof.
  unfold NodeGroup_from_dict. destruct (reject_unknown_keys _ _ _); cbn; [|done].
  destruct (dict_item _ _); cbn; [|done]. destruct (strict_bool _ _); cbn; [|done].
  apply NodeGroup_post_init_wf.
Qed.

Lemma NodeGroup_roundtrip `{PyStr} g :
  NodeGroup_wf g → NodeGroup_from_dict (NodeGroup_to_dict g) = Ok g.
Proof.
  intros (Hs & Ha & Hb & Hc & Hm & Ho). unfold NodeGroup_from_dict.
  destruct g as [name en ma mb mc pol mode man]. cbn in Hs, Ha, Hb, Hc, Hm, Ho.
  replace (reject_unknown_keys _ _ _) with (@Ok unit tt)
    by done. cbn -[str_list_val].
  unfold NodeGroup_post_init, validate_name.
  rewrite slug_match_strip, slug_core_strip, Hs by done. cbn -[str_list_val].
  rewrite !validate_id_list_complete by done. cbn.
  assert (policy_of_value (policy_value pol) = Ok pol) as -> by by destruct pol. cbn.
  assert (mode_of_value (mode_value mode) = Ok mode) as -> by by destruct mode. cbn.
  rewrite (proj2 (no_overlap_iff _ _) Ho). destruct mode, man as [s|]; try done.
  cbn. destruct Hm as [Hm1 Hm2]. by rewrite Hm1, (proj2 (truthy_str_ne s) Hm2).
Qed.

(** node-group documents round-trip: every group the code can construct from a
    document is well formed (slug name, duplicate-free trimmed ids, a pin exactly
    in manual mode, no id both listed and excluded), and serialising a well-formed
    group and reading it back gives the same group. *)
Theorem node_group_roundtrip `{PyStr} d g (Hd : NodeGroup_from_dict d = Ok g) :
  NodeGroup_wf g ∧ NodeGroup_from_dict (NodeGroup_to_dict g) = Ok g.
Proof.
  apply NodeGroup_from_dict_wf in Hd. split; [done | by apply NodeGroup_roundtrip].
Qed.

(** ** The store *)
Definition group_items_wf (items : list (pydict pyval)) : Prop :=
  ∃ gs, items = map NodeGroup_to_dict gs ∧ Forall NodeGroup_wf gs ∧ NoDup (map ng_name gs).

Lemma filter_named_map n gs :
  List.filter (fun item => negb (item_named n item)) (map NodeGroup_to_dict gs)
  = map NodeGroup_to_dict (List.filter (fun g => negb (String.eqb (ng_name g) n)) gs).
Proof.
  induction gs as [|g gs IH]; [done|]. cbn. rewrite IH.
  by destruct (String.eqb (ng_name g) n).
Qed.

Lemma replace_group_wf `{PyStr} g items :
  group_items_wf items →
  match replace_group g items with
  | (Ok v, items') => group_items_wf items' ∧ NodeGroup_wf v
                      ∧ NodeGroupStore_get (ng_name v) items' = Ok (Some v)
  | (Err _, items') => items' = items
  end.
Proof.
  intros (gs & -> & Hf & Hn). unfold replace_group, mbind, pym_bind, liftR.
  destruct (NodeGroup_from_dict (NodeGroup_to_dict g)) as [v|e] eqn:E; cbn; [|done].
  apply NodeGroup_from_dict_wf in E. rewrite filter_named_map. split; [|split; [done|]].
  - exists (List.filter (fun g => negb (String.eqb (ng_name g) (ng_name v))) gs ++ [v]).
    split; [by rewrite map_app|]. split.
    + apply Forall_app. split; [|by constructor]. rewrite Forall_forall in Hf |- *.
      intros x [Hx _]%List_filter_elem_of. auto.
    + by apply upsert_nodup.
  - unfold NodeGroupStore_get. rewrite <- (map_app NodeGroup_to_dict _ [v]).
    assert (∀ l, List.find (item_named (ng_name v)) (map NodeGroup_to_dict l)
      = NodeGroup_to_dict <$> List.find (fun g => String.eqb (ng_name g) (ng_name v)) l) as Hfind.
    { intros l. induction l as [|x l IH]; [done|]. cbn. destruct (String.eqb _ _); [done|]. apply IH. }
    rewrite Hfind, filter_other_key_find by done.
    change (Some <$> NodeGroup_from_dict (NodeGroup_to_dict v) = Ok (Some v)).
    by rewrite NodeGroup_roundtrip.
Qed.

(** One call of a mutating method of the store. *)
Inductive group_store_op : Type :=
| OpAdd (g : NodeGroup) | OpRemove (n : string)
| OpAddProfile (n i : string) | OpRemoveProfile (n i : string)
| OpAddProvider (n i : string) | OpRemoveProvider (n i : string)
| OpAddExclude (n i : string) | OpRemoveExclude (n i : string)
| OpSelection (n : string) (m : NodeGroupSelectionMode) (i : option string)
| OpPolicy (n : string) (p : NodeGroupResiliencePolicy) | OpEnabled (n : string) (b : bool).

Definition run_op `{PyStr} (op : group_store_op) : PyM (list (pydict pyval)) unit :=
  let drop (m : PyM (list (pydict pyval)) NodeGroup) := _ ← m; mret tt in
  match op with
  | OpAdd g => NodeGroupStore_add g
  | OpRemove n => NodeGroupStore_remove n
  | OpAddProfile n i => drop (add_member_profile n i)
  | OpRemoveProfile n i => drop (remove_member_profile n i)
  | OpAddProvider n i => drop (add_member_provider n i)
  | OpRemoveProvider n i => drop (remove_member_provider n i)
  | OpAddExclude n i => drop (add_exclude_profile n i)
  | OpRemoveExclude n i => drop (remove_exclude_profile n i)
  | OpSelection n m i => drop (set_selection n m i)
  | OpPolicy n p => drop (set_resilience_policy n p)
  | OpEnabled n b => drop (set_enabled n b)
  end.

Lemma modify_group_wf `{PyStr} n f items :
  group_items_wf items →
  let '(r, items') := modify_group n f items in
  group_items_wf items' ∧ (∀ e, r = Err e → items' = items).
Proof.
  intros Hw. unfold modify_group, mbind, pym_bind, getS, liftR.
  destruct (require_group items n) as [g|e]; cbn; [|done].
  pose proof (replace_group_wf (f g) items Hw) as Hr.
  destruct (replace_group (f g) items) as [[v|e] items']; [by destruct Hr | by subst items'].
Qed.

Lemma run_op_wf `{PyStr} op items :
  group_items_wf items →
  let '(r, items') := run_op op items in
  group_items_wf items' ∧ (∀ e, r = Err e → items' = items).
Proof.
  intros Hw.
  assert (∀ n f, let '(r, items') := (_ ← modify_group n f; mret tt) items in
    group_items_wf items' ∧ (∀ e, r = Err e → items' = items)) as Hm.
  { intros n f. pose proof (modify_group_wf n f items Hw) as H1. unfold mbind, pym_bind.
    destruct (modify_group n f items) as [[v|e] items']; destruct H1 as [H1 He]; [done|].
    split; [done|]. intros ? _. by apply (He e). }
  destruct op; try apply Hm; cbn.
  - unfold NodeGroupStore_add, mbind, pym_bind. pose proof (replace_group_wf g items Hw) as H1.
    destruct (replace_group g items) as [[v|e] items']; [by destruct H1 | by subst items'].
  - split; [|done]. destruct Hw as (gs & -> & Hf & Hn). rewrite filter_named_map. eexists.
    split; [done|]. split; [|by apply filter_keep_nodup].
    rewrite Forall_forall in Hf |- *. intros x [Hx _]%List_filter_elem_of. auto.
Qed.

Lemma run_ops_wf `{PyStr} ops items :
  group_items_wf items → group_items_wf (foldl (fun st op => (run_op op st).2) items ops).
Proof.
  revert items. induction ops as [|op ops IH]; intros items Hw; [done|]. cbn. apply IH.
  pose proof (run_op_wf op items Hw) as Hop. destruct (run_op op items). apply Hop.
Qed.

(** starting from an empty file, every sequence of store calls leaves a file
    whose entries are all well-formed groups with distinct names, and a call that
    raises leaves the file as it was: an invalid group is never persisted. *)
Theorem group_store_never_persists_invalid `{PyStr} ops :
  let items := foldl (fun st op => (run_op op st).2) [] ops in
  group_items_wf items
  ∧ ∀ op e, (run_op op items).1 = Err e → (run_op op items).2 = items.
Proof.
  cbn zeta. assert (group_items_wf []) as H0 by (exists []; repeat split; constructor).
  apply (run_ops_wf ops) in H0. split; [done|]. intros op e He.
  pose proof (run_op_wf op _ H0) as Hop. destruct (run_op op _) as [r items']. by eapply Hop.
Qed.

(** ** A concrete store *)
Definition demo_group : NodeGroup := {|
  ng_name := "eu"; ng_enabled := true; ng_member_profile_ids := ["a"; "b"];
  ng_member_provider_ids := []; ng_exclude_profile_ids := ["c"];
  ng_resilience_policy := PREFERRED; ng_selection_mode := SEL_AUTO;
  ng_manual_profile_id := None |}.

Definition demo_node (i : string) (proto : ProtocolType) (ms : Q) : Profile := {|
  p_id := i; p_name := i; p_protocol := proto; p_config := []; p_source := MANUAL_SOURCE;
  p_provider_id := None; p_in_rotation_pool := true; p_enabled := true;
  p_created_at := {| dt_wall := 0; dt_utcoffset := None |}; p_last_used := None;
  p_last_health_check := None; p_health_status := "ok"; p_latency_ms := Some (Fin ms);
  p_last_latency_check := Some {| dt_wall := 0; dt_utcoffset := None |} |}.

Definition demo_nodes : list Profile :=
  [demo_node "a" WIREGUARD 10; demo_node "b" VLESS 90; demo_node "c" VLESS 5; demo_node "d" VLESS 1].

Definition demo_pystr : PyStr := {| repr_compound := fun _ => ""; float_literal := fun _ => None |}.

(** Iteration in the opposite order *)
Definition pyset_reversed : PySet := {|
  set_iter := fun s => rev (elements s);
  set_iter_perm := fun s => symmetry (Permutation_rev (elements s)) |}.

Definition demo_candidates : list Profile := [demo_node "a" WIREGUARD 10; demo_node "b" VLESS 90].

Lemma resolve_candidates_exact_witness :
  NoDup (map p_id demo_candidates) ∧
  ∃ cooldown, @cooldown_seconds demo_pystr [] = Ok cooldown ∧ ∀ p, p ∈ demo_candidates ↔
    p ∈ demo_nodes ∧ group_member demo_group p ∧ eligible [] (fun _ => 0%Z) cooldown p = true
    ∧ (ng_resilience_policy demo_group = RESILIENT_ONLY → resilient p = true).
Proof.
  apply (@resolve_candidates_exact demo_pystr pyset_sorted demo_group demo_nodes [] [] (fun _ => 0%Z)).
  - by apply (bool_decide_unpack _).
  - vm_compute. reflexivity.
Defined.

Lemma selection_independent_of_set_order_witness :
  ∃ r, select_best demo_group (rev demo_candidates) [] (fun _ => 0%Z) = Ok r
       ∧ p_id <$> r.1 = Some "b".
Proof.
  eexists. split.
  - apply (@selection_independent_of_set_order demo_pystr pyset_sorted pyset_reversed demo_group
      demo_nodes [] [] (fun _ => 0%Z) demo_candidates); [vm_compute; reflexivity .. | | ].
    + repeat constructor; done.
    + vm_compute. reflexivity.
  - reflexivity.
Defined.

Lemma select_best_correct_witness :
  ∃ p ex winner,
    select_best demo_group demo_candidates [] (fun _ => 0%Z) = Ok (Some p, ex)
    ∧ p ∈ demo_candidates ∧ ex_selected_profile_id ex = Some (p_id p) ∧ ex_result ex = SELECTED
    ∧ map sc_profile_id (ex_candidates ex) ≡ₚ map p_id demo_candidates
    ∧ sc_profile_id winner = p_id p ∧ head (ex_candidates ex) = Some winner
    ∧ ∀ s, s ∈ tail (ex_candidates ex) → ranked_before winner s.
Proof.
  eapply (select_best_correct demo_group demo_candidates [] (fun _ => 0%Z)).
  - by apply (bool_decide_unpack _).
  - repeat constructor; done.
  - vm_compute. reflexivity.
Defined.

Lemma node_group_roundtrip_witness :
  ∃ g, NodeGroup_wf g ∧ @NodeGroup_from_dict demo_pystr (NodeGroup_to_dict g) = Ok g
       ∧ ng_name g = "eu".
Proof.
  pose (d := [("name", PStr " eu "); ("member_profile_ids", PList [PStr "a"; PStr " a"])]).
  destruct (@NodeGroup_from_dict demo_pystr d) as [g|] eqn:E; [|vm_compute in E; discriminate].
  exists g. destruct (@node_group_roundtrip demo_pystr d g E) as [H1 H2].
  split; [exact H1|split; [exact H2|]]. vm_compute in E. injection E as <-. reflexivity.
Defined.
