(* ===== verification/Dns.v ===== *)
(** * DNS policy data

    The data model of dns/models.py: modes, channels, resolvers, static entries,
    rules and the policy that the route chains, the drivers and the watchdog
    pass around.  A channel map is keyed by [DNSChannelName], in insertion order. *)
From stdpp Require Import base list strings.
From S2P Require Import Prelude PyData.

Inductive DNSMode : Type := DNS_AUTO | DNS_OFF | DNS_CUSTOM | DNS_ADVANCED.

#[global] Instance DNSMode_eq_dec : EqDecision DNSMode.
Proof. solve_decision. Defined.

Inductive DNSChannelName : Type :=
| CH_BOOTSTRAP | CH_DNS_SERVER | CH_PROXY_SERVER | CH_DIRECT | CH_PROXY | CH_FINAL.

#[global] Instance DNSChannelName_eq_dec : EqDecision DNSChannelName.
Proof. solve_decision. Defined.

Inductive DNSRuleAction : Type := USE_CHANNEL | DNS_REJECT.

Record Resolver : Type := {
  rv_uri : string;
  rv_label : option string;
  rv_enabled : bool;
  rv_metadata : pydict pyval
}.

Record DNSChannel : Type := {
  ch_name : DNSChannelName;
  ch_resolvers : list Resolver;
  ch_strategy : string
}.

Record StaticIPEntry : Type := { si_domain : string; si_ip : string; si_enabled : bool }.

Record DNSRule : Type := {
  dr_id : string;
  dr_pattern : string;
  dr_action : DNSRuleAction;
  dr_channel : option DNSChannelName;
  dr_enabled : bool;
  dr_priority : Z
}.

Record DNSPolicy : Type := {
  dp_mode : DNSMode;
  dp_channels : list (DNSChannelName * DNSChannel);
  dp_static_ips : list StaticIPEntry;
  dp_rules : list DNSRule;
  dp_test_domain : string;
  dp_ttl : string;
  dp_tun_hijack : bool;
  dp_resolve_inbound_domains : bool;
  dp_static_ip_enabled : bool;
  dp_rules_enabled : bool;
  dp_ecs_direct_enabled : bool;
  dp_ecs_direct_subnet : option string;
  dp_proxy_resolution_channel : string;
  dp_fakeip_inet4_range : string;
  dp_fakeip_inet6_range : string;
  dp_tun_domain_preservation : bool
}.

(** [policy.channels.get(name)] *)
Definition channel_get (name : DNSChannelName) (p : DNSPolicy) : option DNSChannel :=
  snd <$> List.find (fun kv => bool_decide (kv.1 = name)) (dp_channels p).

(** [Resolver(uri=..., label=...)] and [_default_dns_channels] *)
Definition public_resolver (uri label : string) : Resolver :=
  {| rv_uri := uri; rv_label := Some label; rv_enabled := true; rv_metadata := [] |}.

Definition default_dns_channels : list (DNSChannelName * DNSChannel) :=
  let resolvers := [public_resolver "udp://1.1.1.1" "Cloudflare";
                    public_resolver "udp://9.9.9.9" "Quad9"] in
  [ (CH_DIRECT, {| ch_name := CH_DIRECT; ch_resolvers := resolvers; ch_strategy := "auto" |});
    (CH_PROXY, {| ch_name := CH_PROXY; ch_resolvers := resolvers; ch_strategy := "auto" |}) ].

(** [DNSPolicy()] *)
Definition default_DNSPolicy : DNSPolicy := {|
  dp_mode := DNS_AUTO; dp_channels := default_dns_channels; dp_static_ips := []; dp_rules := [];
  dp_test_domain := "gstatic.com"; dp_ttl := "12h"; dp_tun_hijack := true;
  dp_resolve_inbound_domains := false; dp_static_ip_enabled := false; dp_rules_enabled := false;
  dp_ecs_direct_enabled := false; dp_ecs_direct_subnet := None;
  dp_proxy_resolution_channel := "fakeip"; dp_fakeip_inet4_range := "198.18.0.0/15";
  dp_fakeip_inet6_range := "fc00::/18"; dp_tun_domain_preservation := true |}.
