(* ===== verification/RouteChains.v ===== *)
(** * Route chains: documents, reference checks, runtime resolution, store

    route_chains/{models,validation,runtime,store}.py.  A constructor argument that
    may be an object or a raw document is a sum; an argument that may fail to be a
    list is an option.  The instants at which eligibility and latency freshness are
    evaluated for hop [i] are [now_health i] and [now_latency i]. *)
From stdpp Require Import base list strings gmap pretty sorting.
From Stdlib Require Import Ascii QArith.
From S2P Require Import Prelude PyData Profiles NodeGroups Dns.

(** ** route_chains/models.py *)
Definition ROUTE_CHAIN_SCHEMA_VERSION : Z := 1.

Definition ROUTE_CHAIN_DOCUMENT_FIELDS : list string := ["schema_version"; "chains"].
Definition ROUTE_CHAIN_FIELDS : list string :=
  [ "id"; "enabled"; "description"; "hops"; "dns_strategy"; "failure_policy";
    "health_policy"; "created_at"; "updated_at" ].
Definition CHAIN_HOP_FIELDS : list string := ["type"; "target"; "required"; "selection_policy"].

Inductive ChainHopType : Type := HOP_PROFILE | HOP_GROUP.
Inductive ChainDNSStrategy : Type := DNS_STRATEGY_CHAIN.
Inductive ChainFailurePolicy : Type := FAIL_CLOSED.
Inductive ChainHealthPolicy : Type := ALL_REQUIRED.

#[global] Instance ChainHopType_eq_dec : EqDecision ChainHopType.
Proof. solve_decision. Defined.

Definition hop_type_value (t : ChainHopType) : string :=
  match t with HOP_PROFILE => "profile" | HOP_GROUP => "group" end.
Definition dns_strategy_value (_ : ChainDNSStrategy) : string := "chain".
Definition failure_policy_value (_ : ChainFailurePolicy) : string := "fail_closed".
Definition health_policy_value (_ : ChainHealthPolicy) : string := "all_required".

(** The enum constructors, with the exception their callers turn [ValueError] into *)
Definition ChainHopType_of (s : string) : res ChainHopType :=
  if String.eqb s "profile" then Ok HOP_PROFILE
  else if String.eqb s "group" then Ok HOP_GROUP
  else raise PersistentValidationError "route_chain.hop.type must be one of: profile, group".

Definition ChainDNSStrategy_of (s : string) : res ChainDNSStrategy :=
  if String.eqb s "chain" then Ok DNS_STRATEGY_CHAIN
  else raise PersistentValidationError "route_chain.dns_strategy must be: chain".

Definition ChainFailurePolicy_of (s : string) : res ChainFailurePolicy :=
  if String.eqb s "fail_closed" then Ok FAIL_CLOSED
  else raise PersistentValidationError "route_chain.failure_policy must be: fail_closed".

Definition ChainHealthPolicy_of (s : string) : res ChainHealthPolicy :=
  if String.eqb s "all_required" then Ok ALL_REQUIRED
  else raise PersistentValidationError "route_chain.health_policy must be: all_required".

Definition validate_chain_id (value : pyval) (field_name : string) : res string :=
  match value with
  | PStr s =>
      let normalized := strip s in
      if slug_match normalized then Ok normalized
      else raise PersistentValidationError (field_name +:+
             " must be a lowercase slug (letters, digits, '-', '_', max 64 chars)")
  | _ => raise PersistentValidationError (field_name +:+ " must be a string")
  end.

(** [action] is [str(action)]. *)
Definition chain_target (action : string) : res (option string) :=
  match action_body "chain:" (strip action) with
  | None => Ok None
  | Some body => Some <$> validate_chain_id (PStr (strip body)) "chain action"
  end.

Definition required_string (value : pyval) (field_name : string) : res string :=
  match value with
  | PStr s =>
      if truthy_str (strip s) then Ok (strip s)
      else raise PersistentValidationError (field_name +:+ " must not be empty")
  | _ => raise PersistentValidationError (field_name +:+ " must be a string")
  end.

Definition optional_string (value : pyval) (field_name : string) : res (option string) :=
  match value with
  | PNone => Ok None
  | PStr s => Ok (if truthy_str (strip s) then Some (strip s) else None)
  | _ => raise PersistentValidationError (field_name +:+ " must be a string")
  end.

Record ChainHop : Type := {
  hop_type : ChainHopType;
  hop_target : string;
  hop_required : bool;
  hop_selection_policy : option string
}.

Definition ChainHop_post_init (type : string) (target required : pyval)
    (selection_policy : option string) : res ChainHop :=
  type ← ChainHopType_of type;
  target ← required_string target "route_chain.hop.target";
  target ← match type with
           | HOP_GROUP =>
               target ← validate_chain_id (PStr target) "route_chain.hop.target";
               _ ← ensure (match selection_policy with
                           | None => true
                           | Some s => String.eqb s "group_policy"
                           end) PersistentValidationError
                     "route_chain.hop.selection_policy must be 'group_policy' when set";
               Ok target
           | HOP_PROFILE =>
               _ ← ensure (match selection_policy with None => true | Some _ => false end)
                     PersistentValidationError
                     "route_chain.hop.selection_policy is only supported for group hops";
               Ok target
           end;
  required ← strict_bool required "route_chain.hop.required";
  _ ← ensure required PersistentValidationError
        "route_chain.hop.required must be true until explicit alternate-hop failover exists";
  Ok {| hop_type := type; hop_target := target; hop_required := required;
        hop_selection_policy := selection_policy |}.

Definition opt_item (k : string) (o : option string) : pydict pyval :=
  match o with Some s => [(k, PStr s)] | None => [] end.

Definition ChainHop_to_dict (h : ChainHop) : pydict pyval :=
  [ ("type", PStr (hop_type_value (hop_type h))); ("target", PStr (hop_target h));
    ("required", PBool (hop_required h)) ]
  ++ opt_item "selection_policy" (hop_selection_policy h).

(** [for field_name in names: if field_name not in data: raise] *)
Definition require_fields (data : pydict pyval) (names : list string) (object_name : string)
  : res unit :=
  match List.find (fun k => negb (dict_has k data)) names with
  | None => Ok tt
  | Some k => raise PersistentValidationError (object_name +:+ " missing required field: " +:+ k)
  end.

Definition ChainHop_from_dict `{PyStr} (v : pyval) : res ChainHop :=
  match v with
  | PDict data =>
      _ ← reject_unknown_keys data CHAIN_HOP_FIELDS "route_chain.hop";
      _ ← require_fields data ["type"; "target"] "route_chain.hop";
      type ← dict_item "type" data;
      target ← dict_item "target" data;
      required ← strict_bool (dict_get_or "required" (PBool true) data) "route_chain.hop.required";
      policy ← optional_string (dict_get_or "selection_policy" PNone data)
                 "route_chain.hop.selection_policy";
      ChainHop_post_init (py_str type) target (PBool required) policy
  | _ => raise PersistentValidationError "route_chain.hop must be an object"
  end.

Record RouteChain : Type := {
  rc_id : string;
  rc_hops : list ChainHop;
  rc_enabled : bool;
  rc_description : option string;
  rc_dns_strategy : ChainDNSStrategy;
  rc_failure_policy : ChainFailurePolicy;
  rc_health_policy : ChainHealthPolicy;
  rc_created_at : option string;
  rc_updated_at : option string
}.

(** A list argument whose items are objects or raw documents *)
Definition list_arg {A} (v : pyval) : option (list (A + pyval)) :=
  match v with PList l => Some (map inr l) | _ => None end.

Definition hop_arg `{PyStr} (h : ChainHop + pyval) : res ChainHop :=
  match h with inl h => Ok h | inr v => ChainHop_from_dict v end.

Definition RouteChain_post_init `{PyStr} (id : pyval) (hops : option (list (ChainHop + pyval)))
    (enabled description : pyval) (dns_strategy failure_policy health_policy : string)
    (created_at updated_at : pyval) : res RouteChain :=
  id ← validate_chain_id id "route_chain.id";
  enabled ← strict_bool enabled "route_chain.enabled";
  description ← optional_string description "route_chain.description";
  dns_strategy ← ChainDNSStrategy_of dns_strategy;
  failure_policy ← ChainFailurePolicy_of failure_policy;
  health_policy ← ChainHealthPolicy_of health_policy;
  items ← match hops with
          | Some (h :: hs) => Ok (h :: hs)
          | _ => raise PersistentValidationError "route_chain.hops must be a non-empty list"
          end;
  hops ← map_res hop_arg items;
  created_at ← optional_string created_at "route_chain.created_at";
  updated_at ← optional_string updated_at "route_chain.updated_at";
  Ok {| rc_id := id; rc_hops := hops; rc_enabled := enabled; rc_description := description;
        rc_dns_strategy := dns_strategy; rc_failure_policy := failure_policy;
        rc_health_policy := health_policy; rc_created_at := created_at;
        rc_updated_at := updated_at |}.

Definition RouteChain_to_dict (c : RouteChain) : pydict pyval :=
  [ ("id", PStr (rc_id c)); ("enabled", PBool (rc_enabled c));
    ("hops", PList (map (fun h => PDict (ChainHop_to_dict h)) (rc_hops c)));
    ("dns_strategy", PStr (dns_strategy_value (rc_dns_strategy c)));
    ("failure_policy", PStr (failure_policy_value (rc_failure_policy c)));
    ("health_policy", PStr (health_policy_value (rc_health_policy c))) ]
  ++ opt_item "description" (rc_description c)
  ++ opt_item "created_at" (rc_created_at c)
  ++ opt_item "updated_at" (rc_updated_at c).

Definition RouteChain_from_dict `{PyStr} (v : pyval) : res RouteChain :=
  match v with
  | PDict data =>
      _ ← reject_unknown_keys data ROUTE_CHAIN_FIELDS "route_chain";
      _ ← require_fields data ["id"; "hops"] "route_chain";
      id ← dict_item "id" data;
      enabled ← strict_bool (dict_get_or "enabled" (PBool false) data) "route_chain.enabled";
      RouteChain_post_init id (list_arg (dict_get_or "hops" (PList []) data)) (PBool enabled)
        (dict_get_or "description" PNone data)
        (py_str (dict_get_or "dns_strategy" (PStr (dns_strategy_value DNS_STRATEGY_CHAIN)) data))
        (py_str (dict_get_or "failure_policy" (PStr (failure_policy_value FAIL_CLOSED)) data))
        (py_str (dict_get_or "health_policy" (PStr (health_policy_value ALL_REQUIRED)) data))
        (dict_get_or "created_at" PNone data) (dict_get_or "updated_at" PNone data)
  | _ => raise PersistentValidationError "route_chain must be an object"
  end.

Record RouteChainDocument : Type := {
  rd_chains : list RouteChain;
  rd_schema_version : Z
}.

Definition chain_arg `{PyStr} (c : RouteChain + pyval) : res RouteChain :=
  match c with inl c => Ok c | inr v => RouteChain_from_dict v end.

(** [len(l) != len(set(l))] *)
Definition has_duplicates (l : list string) : bool := negb (bool_decide (NoDup l)).

Definition RouteChainDocument_post_init `{PyStr} (chains : option (list (RouteChain + pyval)))
    (schema_version : pyval) : res RouteChainDocument :=
  version ← strict_int schema_version "route_chains.schema_version";
  _ ← ensure (version =? ROUTE_CHAIN_SCHEMA_VERSION)%Z PersistentValidationError
        ("unsupported route_chains schema_version: " +:+ pretty version);
  items ← match chains with
          | Some l => Ok l
          | None => raise PersistentValidationError "route_chains.chains must be a list"
          end;
  chains ← map_res chain_arg items;
  _ ← ensure (negb (has_duplicates (map rc_id chains))) PersistentValidationError
        "route_chains.chains must not contain duplicate ids";
  Ok {| rd_chains := chains; rd_schema_version := version |}.

Definition RouteChainDocument_to_dict (d : RouteChainDocument) : pydict pyval :=
  [ ("schema_version", PInt (rd_schema_version d));
    ("chains", PList (map (fun c => PDict (RouteChain_to_dict c)) (rd_chains d))) ].

Definition RouteChainDocument_from_dict `{PyStr} (v : pyval) : res RouteChainDocument :=
  match v with
  | PDict data =>
      _ ← reject_unknown_keys data ROUTE_CHAIN_DOCUMENT_FIELDS "route_chains document";
      RouteChainDocument_post_init (list_arg (dict_get_or "chains" (PList []) data))
        (dict_get_or "schema_version" (PInt ROUTE_CHAIN_SCHEMA_VERSION) data)
  | _ => raise PersistentValidationError "route_chains document must be an object"
  end.

Definition opt_present (o : option string) : pyval :=
  PBool (match o with Some _ => true | None => false end).

Definition redact_chain (c : RouteChain) : pydict pyval :=
  [ ("id", PStr (rc_id c)); ("enabled", PBool (rc_enabled c));
    ("hop_count", PInt (Z.of_nat (length (rc_hops c))));
    ("hop_types", PList (map (fun h => PStr (hop_type_value (hop_type h))) (rc_hops c)));
    ("dns_strategy", PStr (dns_strategy_value (rc_dns_strategy c)));
    ("failure_policy", PStr (failure_policy_value (rc_failure_policy c)));
    ("health_policy", PStr (health_policy_value (rc_health_policy c)));
    ("description", match rc_description c with
                    | Some s => if truthy_str s then PStr "<redacted>" else PNone
                    | None => PNone
                    end);
    ("created_at_present", opt_present (rc_created_at c));
    ("updated_at_present", opt_present (rc_updated_at c)) ].

Definition redact_chain_document (d : RouteChainDocument) : pydict pyval :=
  [ ("schema_version", PInt (rd_schema_version d));
    ("chain_count", PInt (Z.of_nat (length (rd_chains d))));
    ("chains", PList (map (fun c => PDict (redact_chain c)) (rd_chains d))) ].

(** ** route_chains/validation.py *)
Record ChainValidationFinding : Type := {
  vf_code : string;
  vf_chain_id : string;
  vf_message : string;
  vf_hop_index : option N;
  vf_target_type : option string;
  vf_target : option string
}.

(** [enumerate(l, start=i)] *)
Fixpoint enumerate {A} (i : N) (l : list A) : list (N * A) :=
  match l with [] => [] | x :: l' => (i, x) :: enumerate (i + 1) l' end.

(** [repr] of a chain id: a slug needs no escapes *)
Definition repr_id (s : string) : string := "'" +:+ s +:+ "'".

Definition hop_finding (code : string) (chain : RouteChain) (index : N) (hop : ChainHop)
    (what : string) : ChainValidationFinding := {|
  vf_code := code; vf_chain_id := rc_id chain;
  vf_message := "chain " +:+ repr_id (rc_id chain) +:+ " hop " +:+ pretty index +:+ what;
  vf_hop_index := Some index; vf_target_type := Some (hop_type_value (hop_type hop));
  vf_target := Some (hop_target hop) |}.

Definition reference_finding (profile_ids group_names : gset string) (chain : RouteChain)
    (ih : N * ChainHop) : option ChainValidationFinding :=
  let '(index, hop) := ih in
  match hop_type hop with
  | HOP_PROFILE =>
      if bool_decide (hop_target hop ∈ profile_ids) then None
      else Some (hop_finding "missing_profile" chain index hop " references missing profile")
  | HOP_GROUP =>
      if bool_decide (hop_target hop ∈ group_names) then None
      else Some (hop_finding "missing_group" chain index hop " references missing group")
  end.

Definition validate_chain_references (document : RouteChainDocument)
    (profile_ids group_names : gset string) : list ChainValidationFinding :=
  flat_map (fun chain =>
    omap (reference_finding profile_ids group_names chain) (enumerate 1 (rc_hops chain)))
    (rd_chains document).

Definition chain_finding (code target what : string) : ChainValidationFinding := {|
  vf_code := code; vf_chain_id := target;
  vf_message := "chain route action references " +:+ what +:+ " chain " +:+ repr_id target;
  vf_hop_index := None; vf_target_type := Some "chain"; vf_target := Some target |}.

Definition validate_chain_action_reference (action : string) (document : RouteChainDocument)
  : res (option ChainValidationFinding) :=
  t ← chain_target action;
  Ok match t with
     | None => None
     | Some target =>
         match dict_get target (index_by rc_id (rd_chains document)) with
         | None => Some (chain_finding "missing_chain" target "missing")
         | Some chain =>
             if rc_enabled chain then None
             else Some (chain_finding "disabled_chain" target "disabled")
         end
     end.

(** [mapping.get(key) == expected] *)
Definition maps_to (m : pydict string) (k expected : string) : bool :=
  match dict_get k m with Some v => String.eqb v expected | None => false end.

Definition dependency_finding (profile_route_actions group_selected_profile_ids : pydict string)
    (chain : RouteChain) (ih : N * ChainHop) : option ChainValidationFinding :=
  let '(index, hop) := ih in
  let expected_action := "chain:" +:+ rc_id chain in
  match hop_type hop with
  | HOP_PROFILE =>
      if maps_to profile_route_actions (hop_target hop) expected_action
      then Some (hop_finding "self_cycle_profile_route_action" chain index hop
                   " selects a profile that requires the same chain")
      else None
  | HOP_GROUP =>
      match dict_get (hop_target hop) group_selected_profile_ids with
      | Some selected_profile =>
          if maps_to profile_route_actions selected_profile expected_action
          then Some (hop_finding "self_cycle_group_selected_profile" chain index hop
                       " selects a group whose selected profile requires the same chain")
          else None
      | None => None
      end
  end.

Definition validate_chain_runtime_dependencies (document : RouteChainDocument)
    (profile_route_actions group_selected_profile_ids : pydict string)
  : list ChainValidationFinding :=
  flat_map (fun chain =>
    omap (dependency_finding profile_route_actions group_selected_profile_ids chain)
      (enumerate 1 (rc_hops chain)))
    (rd_chains document).

Definition raise_for_findings (findings : list ChainValidationFinding) : res unit :=
  match findings with
  | [] => Ok tt
  | _ => raise PersistentValidationError (String.concat "; " (map vf_message findings))
  end.

(** ** route_chains/runtime.py *)
Definition SINGBOX_CHAIN_PROTOCOLS : list ProtocolType :=
  [VLESS; VMESS; TROJAN; HYSTERIA2; TUIC; SHADOWSOCKS; WIREGUARD; SOCKS; HTTP].

Inductive ChainRuntimeStatus : Type := CHAIN_RESOLVED | CHAIN_BLOCKED.

Inductive ChainHopRuntimeStatus : Type :=
| HS_RESOLVED | HS_MISSING | HS_DISABLED | HS_UNHEALTHY | HS_UNSUPPORTED | HS_UNRESOLVED.

#[global] Instance ChainHopRuntimeStatus_eq_dec : EqDecision ChainHopRuntimeStatus.
Proof. solve_decision. Defined.

Definition hop_status_value (s : ChainHopRuntimeStatus) : string :=
  match s with
  | HS_RESOLVED => "resolved" | HS_MISSING => "missing" | HS_DISABLED => "disabled"
  | HS_UNHEALTHY => "unhealthy" | HS_UNSUPPORTED => "unsupported" | HS_UNRESOLVED => "unresolved"
  end.

Inductive ChainDNSPathStatus : Type := CHAIN_OWNED | DNS_UNAVAILABLE | DNS_UNKNOWN.

#[global] Instance ChainDNSPathStatus_eq_dec : EqDecision ChainDNSPathStatus.
Proof. solve_decision. Defined.

Record ChainRuntimeHopPlan : Type := {
  hp_index : N;
  hp_hop_type : string;
  hp_target : string;
  hp_status : ChainHopRuntimeStatus;
  hp_outbound_tag : option string;
  hp_resolved_profile_id : option string;
  hp_resolved_profile : option Profile;
  hp_failure_reason : option string
}.

Record ChainRuntimePlan : Type := {
  pl_route_action : string;
  pl_chain_id : string;
  pl_status : ChainRuntimeStatus;
  pl_dns_path_status : ChainDNSPathStatus;
  pl_failure_policy : string;
  pl_health_policy : string;
  pl_route_outbound_tag : option string;
  pl_hops : list ChainRuntimeHopPlan;
  pl_failure_reason : option string
}.

Definition chain_hop_outbound_tag (chain_id : string) (index : N) : string :=
  "watchdogvpn-chain-" +:+ chain_id +:+ "-hop-" +:+ pretty index.

Definition chain_dns_path_status (dns_policy : option DNSPolicy) : ChainDNSPathStatus :=
  match dns_policy with
  | None => DNS_UNAVAILABLE
  | Some policy =>
      if bool_decide (dp_mode policy = DNS_OFF) then DNS_UNAVAILABLE
      else match channel_get CH_PROXY policy with
           | None => DNS_UNAVAILABLE
           | Some proxy_channel =>
               if existsb rv_enabled (ch_resolvers proxy_channel) then CHAIN_OWNED
               else DNS_UNAVAILABLE
           end
  end.

(** [_hop] with no outbound: the failing cases *)
Definition hop_failed (index : N) (hop_type target : string) (status : ChainHopRuntimeStatus)
    (reason : string) (resolved_profile_id : option string) : ChainRuntimeHopPlan := {|
  hp_index := index; hp_hop_type := hop_type; hp_target := target; hp_status := status;
  hp_outbound_tag := None; hp_resolved_profile_id := resolved_profile_id;
  hp_resolved_profile := None; hp_failure_reason := Some reason |}.

(** [_hop] of a resolved hop *)
Definition hop_resolved (chain_id : string) (index : N) (hop_type target : string) (p : Profile)
  : ChainRuntimeHopPlan := {|
  hp_index := index; hp_hop_type := hop_type; hp_target := target; hp_status := HS_RESOLVED;
  hp_outbound_tag := Some (chain_hop_outbound_tag chain_id index);
  hp_resolved_profile_id := Some (p_id p); hp_resolved_profile := Some p;
  hp_failure_reason := None |}.

Definition blocked (action chain_id reason : string) (dns_status : ChainDNSPathStatus)
    (hops : list ChainRuntimeHopPlan) : ChainRuntimePlan := {|
  pl_route_action := action; pl_chain_id := chain_id; pl_status := CHAIN_BLOCKED;
  pl_dns_path_status := dns_status; pl_failure_policy := "fail_closed";
  pl_health_policy := "all_required"; pl_route_outbound_tag := None; pl_hops := hops;
  pl_failure_reason := Some reason |}.

(** The stores a [ChainRuntimeResolver] reads, and its protocol table *)
Record ChainRuntimeResolver : Type := {
  cr_profiles : list Profile;
  cr_groups : list (pydict pyval);
  cr_providers : list Provider;
  cr_supported_protocols : list ProtocolType
}.

Section runtime.
Context `{PyStr, PySet} (rt : ChainRuntimeResolver) (now_health now_latency : N → Profile → Z).

(** [profile in filter_eligible_profiles([profile], ...)]: the filtered list holds
    that same object or nothing *)
Definition resolve_profile_health (index : N) (p : Profile) (config : pydict pyval) : res bool :=
  l ← filter_eligible_profiles [p] (cr_providers rt) config (now_health index);
  Ok match l with [] => false | _ :: _ => true end.

Definition protocol_supported (p : Profile) : bool :=
  bool_decide (p_protocol p ∈ cr_supported_protocols rt).

Definition profile_hop_plan (chain_id : string) (index : N) (profile_id : string)
    (config : pydict pyval) : res ChainRuntimeHopPlan :=
  match ProfileStore_get profile_id (cr_profiles rt) with
  | None => Ok (hop_failed index "profile" profile_id HS_MISSING "missing_profile" None)
  | Some p =>
      eligible ← resolve_profile_health index p config;
      if negb eligible then
        Ok (if negb (p_enabled p)
            then hop_failed index "profile" profile_id HS_DISABLED "disabled_profile" None
            else hop_failed index "profile" profile_id HS_UNHEALTHY "unhealthy_profile" None)
      else if negb (protocol_supported p) then
        Ok (hop_failed index "profile" profile_id HS_UNSUPPORTED "unsupported_profile_protocol" None)
      else Ok (hop_resolved chain_id index "profile" profile_id p)
  end.

(** The profile a group stands for: its pinned candidate, or the best one *)
Definition group_choice (index : N) (group : NodeGroup) (cands : list Profile)
    (config : pydict pyval) : res (option Profile) :=
  match ng_selection_mode group with
  | SEL_MANUAL =>
      Ok (List.find (fun c => match ng_manual_profile_id group with
                              | Some i => String.eqb (p_id c) i
                              | None => false
                              end) cands)
  | SEL_AUTO =>
      r ← select_best group cands config (now_latency index);
      Ok (fst r)
  end.

Definition group_hop_plan (chain_id : string) (index : N) (group_name : string)
    (config : pydict pyval) : res ChainRuntimeHopPlan :=
  g ← NodeGroupStore_get group_name (cr_groups rt);
  match g with
  | None => Ok (hop_failed index "group" group_name HS_MISSING "missing_group" None)
  | Some group =>
      if negb (ng_enabled group)
      then Ok (hop_failed index "group" group_name HS_DISABLED "disabled_group" None)
      else
        cands ← resolve_candidates group (cr_profiles rt) (cr_providers rt) config
                  (now_health index);
        match cands with
        | [] => Ok (hop_failed index "group" group_name HS_UNRESOLVED "empty_group_resolution" None)
        | _ :: _ =>
            choice ← group_choice index group cands config;
            match choice with
            | None => Ok (hop_failed index "group" group_name HS_UNRESOLVED
                            "empty_group_resolution" None)
            | Some p =>
                if negb (protocol_supported p) then
                  Ok (hop_failed index "group" group_name HS_UNSUPPORTED
                        "unsupported_profile_protocol" (Some (p_id p)))
                else Ok (hop_resolved chain_id index "group" group_name p)
            end
        end
  end.

Definition hop_plan (chain_id : string) (index : N) (hop : ChainHop) (config : pydict pyval)
  : res ChainRuntimeHopPlan :=
  match hop_type hop with
  | HOP_PROFILE => profile_hop_plan chain_id index (hop_target hop) config
  | HOP_GROUP => group_hop_plan chain_id index (hop_target hop) config
  end.

(** The loop of [resolve_chain_action]: all plans, or a blocked plan at the first hop
    that does not resolve.  [plans] is [hop_plans]. *)
Fixpoint plan_hops (action chain_id : string) (config : pydict pyval) (index : N)
    (hops : list ChainHop) (plans : list ChainRuntimeHopPlan)
  : res (ChainRuntimePlan + list ChainRuntimeHopPlan) :=
  match hops with
  | [] => Ok (inr plans)
  | hop :: rest =>
      plan ← hop_plan chain_id index hop config;
      let plans := plans ++ [plan] in
      if bool_decide (hp_status plan = HS_RESOLVED)
      then plan_hops action chain_id config (index + 1) rest plans
      else Ok (inl (blocked action chain_id
             (match hp_failure_reason plan with
              | Some r => if truthy_str r then r else hop_status_value (hp_status plan)
              | None => hop_status_value (hp_status plan)
              end) DNS_UNKNOWN plans))
  end.

Definition resolve_chain_action (action : string) (document : RouteChainDocument)
    (dns_policy : option DNSPolicy) (config : pydict pyval) : res ChainRuntimePlan :=
  t ← chain_target action;
  match t with
  | None => raise ValueError ("not a chain route action: " +:+ action)
  | Some chain_id =>
      match List.find (fun c => String.eqb (rc_id c) chain_id) (rd_chains document) with
      | None => Ok (blocked action chain_id "missing_chain" DNS_UNKNOWN [])
      | Some chain =>
          if negb (rc_enabled chain)
          then Ok (blocked action chain_id "disabled_chain" DNS_UNKNOWN [])
          else
            planned ← plan_hops action chain_id config 1 (rc_hops chain) [];
            match planned with
            | inl plan => Ok plan
            | inr plans =>
                let dns_status := chain_dns_path_status dns_policy in
                if negb (bool_decide (dns_status = CHAIN_OWNED))
                then Ok (blocked action chain_id "dns_path_unavailable" dns_status plans)
                else
                  match last plans with
                  | None => raise IndexError "list index out of range"
                  | Some final =>
                      Ok {| pl_route_action := action; pl_chain_id := chain_id;
                            pl_status := CHAIN_RESOLVED; pl_dns_path_status := dns_status;
                            pl_failure_policy := "fail_closed";
                            pl_health_policy := "all_required";
                            pl_route_outbound_tag := hp_outbound_tag final;
                            pl_hops := plans; pl_failure_reason := None |}
                  end
            end
      end
  end.
End runtime.

(** ** route_chains/store.py: the JSON value of chains.json, if the file exists *)
Section chain_store.
Context `{PyStr}.

Abbreviation CM := (PyM (option pyval)).

Definition empty_document : RouteChainDocument :=
  {| rd_chains := []; rd_schema_version := ROUTE_CHAIN_SCHEMA_VERSION |}.

(** [require_mapping(load_json(path, RouteChainDocument().to_dict()), path)] *)
Definition load_mapping (file : option pyval) : res (pydict pyval) :=
  require_mapping (match file with
                   | Some v => v
                   | None => PDict (RouteChainDocument_to_dict empty_document)
                   end) "chains.json".

Definition RouteChainStore_load (file : option pyval) : res RouteChainDocument :=
  data ← load_mapping file; RouteChainDocument_from_dict (PDict data).

Definition dump_document (d : RouteChainDocument) : CM unit :=
  modifyS (fun _ => Some (PDict (RouteChainDocument_to_dict d))).

Definition RouteChainStore_save (document : RouteChainDocument) : CM unit :=
  validated ← liftR (RouteChainDocument_from_dict (PDict (RouteChainDocument_to_dict document)));
  dump_document validated.

Definition RouteChainStore_list (file : option pyval) : res (list RouteChain) :=
  rd_chains <$> RouteChainStore_load file.

Definition RouteChainStore_get (chain_id : string) (file : option pyval)
  : res (option RouteChain) :=
  List.find (fun c => String.eqb (rc_id c) chain_id) <$> RouteChainStore_list file.

(** [RouteChainDocument(chains=chains)] *)
Definition new_document (chains : list RouteChain) : res RouteChainDocument :=
  RouteChainDocument_post_init (Some (map inl chains)) (PInt ROUTE_CHAIN_SCHEMA_VERSION).

Definition other_chains (chain_id : string) (chains : list RouteChain) : list RouteChain :=
  List.filter (fun c => negb (String.eqb (rc_id c) chain_id)) chains.

Definition RouteChainStore_add (chain : RouteChain) : CM unit :=
  validated ← liftR (RouteChain_from_dict (PDict (RouteChain_to_dict chain)));
  file ← getS;
  document ← liftR (RouteChainStore_load file);
  updated ← liftR (new_document (other_chains (rc_id validated) (rd_chains document) ++ [validated]));
  dump_document updated.

Definition RouteChainStore_remove (chain_id : string) : CM unit :=
  file ← getS;
  document ← liftR (RouteChainStore_load file);
  updated ← liftR (new_document (other_chains chain_id (rd_chains document)));
  dump_document updated.
End chain_store.

(** [ChainRuntimeResolver.resolve_action] on the chain file *)
Definition resolve_action `{PyStr, PySet} (rt : ChainRuntimeResolver)
    (now_health now_latency : N → Profile → Z) (chain_file : option pyval) (action : string)
    (dns_policy : option DNSPolicy) (config : pydict pyval) : res (option ChainRuntimePlan) :=
  t ← chain_target action;
  match t with
  | None => Ok None
  | Some _ =>
      document ← RouteChainStore_load chain_file;
      Some <$> resolve_chain_action rt now_health now_latency action document dns_policy config
  end.

(** ** Well-formed documents *)
Definition trimmed (s : string) : Prop := strip s = s ∧ s ≠ "".
Definition opt_trimmed (o : option string) : Prop := from_option trimmed True o.

Definition ChainHop_wf (h : ChainHop) : Prop :=
  trimmed (hop_target h) ∧ hop_required h = true ∧
  match hop_type h with
  | HOP_PROFILE => hop_selection_policy h = None
  | HOP_GROUP => slug_core (hop_target h) = true
                 ∧ (hop_selection_policy h = None ∨ hop_selection_policy h = Some "group_policy")
  end.

Definition RouteChain_wf (c : RouteChain) : Prop :=
  slug_core (rc_id c) = true ∧ rc_hops c ≠ [] ∧ Forall ChainHop_wf (rc_hops c)
  ∧ opt_trimmed (rc_description c) ∧ opt_trimmed (rc_created_at c) ∧ opt_trimmed (rc_updated_at c).

Definition RouteChainDocument_wf (d : RouteChainDocument) : Prop :=
  rd_schema_version d = ROUTE_CHAIN_SCHEMA_VERSION ∧ Forall RouteChain_wf (rd_chains d)
  ∧ NoDup (map rc_id (rd_chains d)).

Lemma ensure_ok b k msg u : ensure b k msg = Ok u → b = true.
Proof. by destruct b. Qed.

Lemma validate_chain_id_ok v f s : validate_chain_id v f = Ok s → slug_core s = true ∧ strip s = s.
Proof.
  destruct v as [| | | |x| |]; try done. cbn. destruct (slug_match (strip x)) eqn:E; [|done].
  intros [= <-]. rewrite slug_match_strip in E. split; [done | apply strip_idem].
Qed.

Lemma validate_chain_id_slug s f : slug_core s = true → validate_chain_id (PStr s) f = Ok s.
Proof.
  intros Hs. cbn. by rewrite slug_match_strip, slug_core_strip, Hs.
Qed.

Lemma required_string_ok v f s : required_string v f = Ok s → trimmed s.
Proof.
  destruct v as [| | | |x| |]; try done. cbn. destruct (truthy_str (strip x)) eqn:E; [|done].
  intros [= <-]. split; [apply strip_idem | by apply truthy_str_ne].
Qed.

Lemma required_string_trimmed s f : trimmed s → required_string (PStr s) f = Ok s.
Proof. intros [H1 H2]. cbn. by rewrite H1, (proj2 (truthy_str_ne s) H2). Qed.

Lemma optional_string_ok v f o : optional_string v f = Ok o → opt_trimmed o.
Proof.
  destruct v as [| | | |x| |]; try done; cbn; [by intros [= <-]|].
  destruct (truthy_str (strip x)) eqn:E; intros [= <-]; cbn; [|done].
  split; [apply strip_idem | by apply truthy_str_ne].
Qed.

Lemma optional_string_trimmed o f :
  opt_trimmed o → optional_string (from_option PStr PNone o) f = Ok o.
Proof. destruct o as [s|]; [|done]. intros [H1 H2]. cbn. by rewrite H1, (proj2 (truthy_str_ne s) H2). Qed.

Lemma slug_trimmed s : slug_core s = true → trimmed s.
Proof. intros H. split; [by apply slug_core_strip|]. by intros ->. Qed.

Lemma ChainHop_post_init_wf ty v r pol h : ChainHop_post_init ty v r pol = Ok h → ChainHop_wf h.
Proof.
  unfold ChainHop_post_init. destruct (ChainHopType_of ty) as [t|]; cbn; [|done].
  destruct (required_string v _) as [s|] eqn:Es; cbn; [|done]. apply required_string_ok in Es.
  destruct (match t with HOP_PROFILE => _ | HOP_GROUP => _ end) as [s'|] eqn:Et; cbn; [|done].
  destruct (strict_bool r _) as [[]|]; cbn; try done. intros [= <-].
  destruct t; cbn in Et |- *.
  - destruct pol; cbn in Et; [done|]. injection Et as <-. done.
  - destruct (slug_match (strip s)) eqn:Em; cbn in Et; [|done].
    rewrite slug_match_strip in Em. destruct Es as [Hs _]. rewrite Hs in Em, Et.
    destruct pol as [q|]; cbn in Et.
    + destruct (String.eqb_spec q "group_policy") as [->|]; cbn in Et; [|done].
      injection Et as <-. split; [by apply slug_trimmed | naive_solver].
    + injection Et as <-. split; [by apply slug_trimmed | naive_solver].
Qed.

Lemma ChainHop_from_dict_wf `{PyStr} v h : ChainHop_from_dict v = Ok h → ChainHop_wf h.
Proof.
  destruct v as [| | | | | |d]; try done. cbn. intros Hd. inv_res Hd.
  by apply ChainHop_post_init_wf in Hd.
Qed.

Lemma ChainHop_roundtrip `{PyStr} h :
  ChainHop_wf h → ChainHop_from_dict (PDict (ChainHop_to_dict h)) = Ok h.
Proof.
  destruct h as [t s r pol]. intros (Ht & Hr & Hp). cbn in Hr. subst r.
  unfold ChainHop_from_dict.
  replace (reject_unknown_keys _ _ _) with (@Ok unit tt)
    by by destruct pol.
  destruct t; cbn in Hp, Ht.
  - subst pol. cbn -[required_string]. by rewrite required_string_trimmed.
  - destruct Hp as [Hs [->| ->]]; cbn -[required_string validate_chain_id];
      rewrite required_string_trimmed by done; cbn -[validate_chain_id];
      by rewrite validate_chain_id_slug.
Qed.

Lemma list_arg_items {A} v items : list_arg (A := A) v = Some items → ∃ l, items = map inr l.
Proof. destruct v; try done. intros [= <-]. eauto. Qed.

Lemma RouteChain_from_dict_wf `{PyStr} v c : RouteChain_from_dict v = Ok c → RouteChain_wf c.
Proof.
  destruct v as [| | | | | |d]; try done. unfold RouteChain_from_dict, RouteChain_post_init.
  intros Hd. inv_res Hd. injection Hd as <-.
  destruct (list_arg _) as [[|x xs]|] eqn:El; try done.
  apply list_arg_items in El as [hs Hhs].
  match goal with E : Ok (x :: xs) = Ok _ |- _ => injection E as <- end.
  match goal with E : map_res _ (x :: xs) = Ok _ |- _ => rename E into Em end.
  split; [by eapply validate_chain_id_ok|]. split.
  { intros Hn. cbn in Hn. subst. cbn in Em. by inv_res Em. }
  split; [|repeat split; by eapply optional_string_ok].
  rewrite Hhs, map_res_map in Em. eapply map_res_Forall; [|exact Em].
  intros ??. apply ChainHop_from_dict_wf.
Qed.

Lemma RouteChain_post_init_wf `{PyStr} c :
  RouteChain_wf c →
  RouteChain_post_init (PStr (rc_id c))
    (list_arg (PList (map (fun h => PDict (ChainHop_to_dict h)) (rc_hops c))))
    (PBool (rc_enabled c)) (from_option PStr PNone (rc_description c)) "chain" "fail_closed"
    "all_required" (from_option PStr PNone (rc_created_at c))
    (from_option PStr PNone (rc_updated_at c)) = Ok c.
Proof.
  destruct c as [i hops en desc [] [] [] cr up]. intros (Hi & Hn & Hh & Hd & Hc & Hu).
  cbn in Hi, Hn, Hh, Hd, Hc, Hu. unfold RouteChain_post_init. rewrite validate_chain_id_slug by done. cbn -[optional_string].
  rewrite optional_string_trimmed by done. cbn -[optional_string map_res].
  assert (map_res hop_arg (map inr (map (fun h => PDict (ChainHop_to_dict h)) hops)) = Ok hops) as Hm.
  { rewrite map_res_map. apply (map_res_roundtrip _ _ ChainHop_wf); [|done].
    intros a. apply ChainHop_roundtrip. }
  destruct hops as [|h hs]; [done|]. cbn -[optional_string map_res hop_arg] in Hm |- *.
  rewrite Hm.
  cbn -[optional_string]. rewrite !optional_string_trimmed by done. done.
Qed.

Lemma RouteChain_roundtrip `{PyStr} c :
  RouteChain_wf c → RouteChain_from_dict (PDict (RouteChain_to_dict c)) = Ok c.
Proof.
  intros Hw. rewrite <- (RouteChain_post_init_wf c Hw). unfold RouteChain_from_dict.
  destruct c as [i hops en desc [] [] [] cr up].
  replace (reject_unknown_keys _ _ _) with (@Ok unit tt) by by destruct desc, cr, up.
  by destruct desc, cr, up.
Qed.

Lemma has_duplicates_false l : negb (has_duplicates l) = true ↔ NoDup l.
Proof. unfold has_duplicates. by rewrite negb_involutive, bool_decide_eq_true. Qed.

Lemma document_post_init_ok `{PyStr} chains v d :
  RouteChainDocument_post_init chains v = Ok d →
  ∃ items, chains = Some items ∧ map_res chain_arg items = Ok (rd_chains d)
  ∧ rd_schema_version d = ROUTE_CHAIN_SCHEMA_VERSION ∧ NoDup (map rc_id (rd_chains d)).
Proof.
  unfold RouteChainDocument_post_init. intros H0. inv_res H0. injection H0 as <-. cbn.
  repeat match goal with E : ensure _ _ _ = Ok _ |- _ => apply ensure_ok in E end.
  destruct chains as [items|]; [|done].
  match goal with E : Ok items = Ok _ |- _ => injection E as <- end.
  exists items. split; [done|]. split; [done|]. split; [by apply Z.eqb_eq|].
  by apply has_duplicates_false.
Qed.

Lemma RouteChainDocument_from_dict_wf `{PyStr} v d :
  RouteChainDocument_from_dict v = Ok d → RouteChainDocument_wf d.
Proof.
  destruct v as [| | | | | |data]; try done. unfold RouteChainDocument_from_dict. intros Hd.
  inv_res Hd. apply document_post_init_ok in Hd as (items & Hi & Hm & Hv & Hn).
  apply list_arg_items in Hi as [l ->]. rewrite map_res_map in Hm. split; [done|].
  split; [|done]. eapply map_res_Forall; [|exact Hm]. intros ??. apply RouteChain_from_dict_wf.
Qed.

Lemma document_post_init_valid `{PyStr} items chains :
  map_res chain_arg items = Ok chains → NoDup (map rc_id chains) →
  RouteChainDocument_post_init (Some items) (PInt ROUTE_CHAIN_SCHEMA_VERSION)
  = Ok {| rd_chains := chains; rd_schema_version := ROUTE_CHAIN_SCHEMA_VERSION |}.
Proof.
  intros Hm Hn. unfold RouteChainDocument_post_init. cbn. rewrite Hm. cbn.
  by rewrite (proj2 (has_duplicates_false _) Hn).
Qed.

Lemma RouteChainDocument_roundtrip `{PyStr} d :
  RouteChainDocument_wf d →
  RouteChainDocument_from_dict (PDict (RouteChainDocument_to_dict d)) = Ok d.
Proof.
  destruct d as [chains v]. intros (Hv & Hc & Hn). cbn in Hv, Hc, Hn. subst v.
  unfold RouteChainDocument_from_dict.
  replace (reject_unknown_keys _ _ _) with (@Ok unit tt) by done. cbn -[RouteChainDocument_post_init].
  apply document_post_init_valid; [|done].
  rewrite map_res_map. apply (map_res_roundtrip _ _ RouteChain_wf); [|done].
  intros a. apply RouteChain_roundtrip.
Qed.

(** a chain document that can be loaded is well formed (schema version 1,
    distinct slug ids, at least one hop per chain, every hop required, group hops
    naming a slug, no blank optional field) and survives serialisation unchanged. *)
Theorem chain_document_roundtrip `{PyStr} v d (Hd : RouteChainDocument_from_dict v = Ok d) :
  RouteChainDocument_wf d
  ∧ RouteChainDocument_from_dict (PDict (RouteChainDocument_to_dict d)) = Ok d.
Proof.
  apply RouteChainDocument_from_dict_wf in Hd. split; [done|]. by apply RouteChainDocument_roundtrip.
Qed.

(** ** The store *)
Lemma inl_chains_arg `{PyStr} chains : map_res chain_arg (map inl chains) = Ok chains.
Proof. induction chains as [|c l IH]; [done|]. cbn. by rewrite IH. Qed.

Lemma new_document_ok `{PyStr} chains :
  NoDup (map rc_id chains) →
  new_document chains
  = Ok {| rd_chains := chains; rd_schema_version := ROUTE_CHAIN_SCHEMA_VERSION |}.
Proof. apply document_post_init_valid, inl_chains_arg. Qed.

Lemma load_dumped `{PyStr} d :
  RouteChainDocument_wf d →
  RouteChainStore_load (Some (PDict (RouteChainDocument_to_dict d))) = Ok d.
Proof. intros Hw. unfold RouteChainStore_load. cbn. by apply RouteChainDocument_roundtrip. Qed.

Lemma load_wf `{PyStr} file d : RouteChainStore_load file = Ok d → RouteChainDocument_wf d.
Proof.
  unfold RouteChainStore_load. destruct (load_mapping file); cbn -[RouteChainDocument_from_dict]; [|done].
  apply RouteChainDocument_from_dict_wf.
Qed.

Lemma get_dumped `{PyStr} d i :
  RouteChainDocument_wf d →
  RouteChainStore_get i (Some (PDict (RouteChainDocument_to_dict d)))
  = Ok (List.find (fun c => String.eqb (rc_id c) i) (rd_chains d)).
Proof. intros Hw. unfold RouteChainStore_get, RouteChainStore_list. by rewrite load_dumped. Qed.

Lemma add_chain_wf d c :
  RouteChainDocument_wf d → RouteChain_wf c →
  RouteChainDocument_wf {| rd_chains := other_chains (rc_id c) (rd_chains d) ++ [c];
                           rd_schema_version := ROUTE_CHAIN_SCHEMA_VERSION |}.
Proof.
  intros (_ & Hw & Hn) Hc. split; [done|]. split; [|by apply upsert_nodup].
  apply Forall_app. split; [|by constructor]. rewrite Forall_forall in Hw |- *.
  intros x [Hx _]%List_filter_elem_of. auto.
Qed.

Lemma remove_chain_wf d i :
  RouteChainDocument_wf d →
  RouteChainDocument_wf {| rd_chains := other_chains i (rd_chains d);
                           rd_schema_version := ROUTE_CHAIN_SCHEMA_VERSION |}.
Proof.
  intros (_ & Hw & Hn). split; [done|]. split; [|by apply filter_keep_nodup].
  rewrite Forall_forall in Hw |- *. intros x [Hx _]%List_filter_elem_of. auto.
Qed.

(** the chain store is a map from ids to chains.  On a file that loads, adding
    a valid chain succeeds, leaves a file that loads, and afterwards [get] finds the
    new chain under its id and every other id as before; removing does the same with
    nothing found; and [save] of a valid document makes [load] return it. *)
Theorem chain_store_map `{PyStr} file chains
    (Hfile : RouteChainStore_list file = Ok chains) :
  (∀ c, RouteChain_wf c →
     ∃ file', RouteChainStore_add c file = (Ok tt, file')
     ∧ (RouteChainStore_get (rc_id c) file' = Ok (Some c))
     ∧ ∀ i, i ≠ rc_id c → RouteChainStore_get i file' = RouteChainStore_get i file)
  ∧ (∀ i, ∃ file', RouteChainStore_remove i file = (Ok tt, file')
     ∧ RouteChainStore_get i file' = Ok None
     ∧ ∀ j, j ≠ i → RouteChainStore_get j file' = RouteChainStore_get j file)
  ∧ (∀ d, RouteChainDocument_wf d →
     ∃ file', RouteChainStore_save d file = (Ok tt, file') ∧ RouteChainStore_load file' = Ok d).
Proof.
  unfold RouteChainStore_list in Hfile.
  destruct (RouteChainStore_load file) as [d|] eqn:El; cbn in Hfile; [|done].
  injection Hfile as <-. pose proof (load_wf _ _ El) as Hw.
  assert (∀ i, RouteChainStore_get i file
    = Ok (List.find (fun c => String.eqb (rc_id c) i) (rd_chains d))) as Hget.
  { intros i. unfold RouteChainStore_get, RouteChainStore_list. by rewrite El. }
  split; [|split].
  - intros c Hc. pose proof (add_chain_wf d c Hw Hc) as Hw'.
    unfold RouteChainStore_add, mbind, pym_bind, liftR, getS.
    rewrite RouteChain_roundtrip, El, new_document_ok by (done || apply Hw').
    eexists. split; [done|]. split; [|intros i Hi]; rewrite get_dumped by done.
    + f_equal. by apply (filter_other_key_find rc_id).
    + rewrite Hget. f_equal. cbn [rd_chains].
      rewrite find_app_miss by (by apply String.eqb_neq). by apply (filter_find_other rc_id).
  - intros i. pose proof (remove_chain_wf d i Hw) as Hw'.
    unfold RouteChainStore_remove, mbind, pym_bind, liftR, getS.
    rewrite El, new_document_ok by apply Hw'.
    eexists. split; [done|]. split; [|intros j Hj]; rewrite get_dumped by done.
    + f_equal. apply (find_filter_gone rc_id).
    + rewrite Hget. f_equal. by apply (filter_find_other rc_id).
  - intros d' Hd'. unfold RouteChainStore_save, mbind, pym_bind, liftR.
    rewrite RouteChainDocument_roundtrip by done. eexists. split; [done|]. by apply load_dumped.
Qed.

(** ** Runtime resolution *)
Lemma enumerate_lookup {A} (l : list A) i k :
  enumerate i l !! k = (fun x => ((i + N.of_nat k)%N, x)) <$> l !! k.
Proof.
  revert i k. induction l as [|x l IH]; intros i k; [done|].
  destruct k as [|k]; [cbn; by rewrite N.add_0_r|].
  etransitivity; [apply (IH (i + 1)%N k)|]. change ((x :: l) !! S k) with (l !! k).
  destruct (l !! k); cbn; [|done]. do 2 f_equal. lia.
Qed.

Lemma Forall_removelast {A} (P : A → Prop) l : Forall P l → Forall P (removelast l).
Proof.
  induction 1 as [|x l Hx Hl IH]; [constructor|]. destruct l; cbn; [constructor|]. by constructor.
Qed.

Section resolution.
Context `{PyStr, PySet} (rt : ChainRuntimeResolver) (now_health now_latency : N → Profile → Z).
Context (config : pydict pyval).

(** Profile [p] may carry hop [hop] at position [i]: it is stored, passes the shared
    eligibility filter and is of a supported protocol; it is the profile the hop
    names, or the choice of the enabled group the hop names. *)
Definition carries (i : N) (hop : ChainHop) (p : Profile) : Prop :=
  p ∈ cr_profiles rt ∧ p_protocol p ∈ cr_supported_protocols rt
  ∧ (∃ cooldown, cooldown_seconds config = Ok cooldown
       ∧ eligible (cr_providers rt) (now_health i) cooldown p = true)
  ∧ match hop_type hop with
    | HOP_PROFILE => p_id p = hop_target hop
    | HOP_GROUP => ∃ g cands,
        NodeGroupStore_get (hop_target hop) (cr_groups rt) = Ok (Some g) ∧ ng_enabled g = true
        ∧ resolve_candidates g (cr_profiles rt) (cr_providers rt) config (now_health i) = Ok cands
        ∧ p ∈ cands
        ∧ (ng_selection_mode g = SEL_MANUAL → ng_manual_profile_id g = Some (p_id p))
    end.

(** What a resolved hop plan says *)
Definition hop_plan_resolved (chain_id : string) (i : N) (hop : ChainHop)
    (plan : ChainRuntimeHopPlan) : Prop :=
  ∃ p, carries i hop p ∧ plan = hop_resolved chain_id i (hop_type_value (hop_type hop))
                                  (hop_target hop) p.

Lemma filter_eligible_elem l pv now r p :
  filter_eligible_profiles l pv config now = Ok r → p ∈ r →
  p ∈ l ∧ ∃ c, cooldown_seconds config = Ok c ∧ eligible pv now c p = true.
Proof.
  intros (c & -> & Hc & _)%filter_eligible_ok [Hp He]%List_filter_elem_of. eauto.
Qed.

Lemma resolve_candidates_elem g i cands p :
  resolve_candidates g (cr_profiles rt) (cr_providers rt) config (now_health i) = Ok cands →
  p ∈ cands →
  p ∈ cr_profiles rt
  ∧ ∃ c, cooldown_seconds config = Ok c ∧ eligible (cr_providers rt) (now_health i) c p = true.
Proof.
  intros Hr Hp. destruct (resolve_candidates_sound _ _ _ _ _ _ Hr) as [_ Hmem].
  split; [by apply Hmem|]. unfold resolve_candidates in Hr.
  destruct (filter_eligible_profiles _ _ _ _) as [l|] eqn:E; cbn in Hr; [|done].
  eapply filter_eligible_elem; [exact E|]. case_bool_decide; [|congruence].
  rewrite (filter_res_pure _ resilient) in Hr by apply is_resilient_eq. injection Hr as <-.
  by apply List_filter_elem_of in Hp as [Hp _].
Qed.

Lemma select_best_elem g cands now p ex :
  select_best g cands config now = Ok (Some p, ex) → p ∈ cands.
Proof.
  unfold select_best. intros Hs. inv_res Hs. injection Hs as <- _.
  unfold dict_item in *. destruct (dict_get _ _) eqn:Eg; [|done].
  match goal with E : Ok _ = Ok _ |- _ => injection E as <- end.
  by apply index_by_some in Eg as [? _].
Qed.

Lemma profile_hop_plan_resolved chain_id i target plan :
  profile_hop_plan rt now_health chain_id i target config = Ok plan →
  (hp_status plan = HS_RESOLVED ∧
   ∃ p, p ∈ cr_profiles rt ∧ p_protocol p ∈ cr_supported_protocols rt
   ∧ (∃ c, cooldown_seconds config = Ok c ∧ eligible (cr_providers rt) (now_health i) c p = true)
   ∧ p_id p = target
   ∧ plan = hop_resolved chain_id i "profile" target p)
  ∨ (hp_status plan ≠ HS_RESOLVED ∧ hp_outbound_tag plan = None
     ∧ ∃ r, hp_failure_reason plan = Some r ∧ r ≠ "").
Proof.
  unfold profile_hop_plan, ProfileStore_get. intros Hp.
  destruct (List.find _ _) as [p|] eqn:Ef; [|injection Hp as <-; right; naive_solver].
  apply List_find_elem_of in Ef as [Hmem Hid]. apply String.eqb_eq in Hid.
  unfold resolve_profile_health in Hp.
  destruct (filter_eligible_profiles _ _ _ _) as [l|] eqn:E; cbn in Hp; [|done].
  destruct l as [|q l]; cbn in Hp.
  { injection Hp as <-. right. destruct (negb _); naive_solver. }
  destruct (protocol_supported rt p) eqn:Es; cbn in Hp; injection Hp as <-; [|right; naive_solver].
  apply bool_decide_eq_true in Es. left. split; [done|]. exists p.
  destruct (filter_eligible_elem _ _ _ _ q E) as [Hq He]; [apply list_elem_of_here|].
  apply list_elem_of_singleton in Hq as ->. done.
Qed.

Lemma group_choice_elem i g cands p :
  group_choice now_latency i g cands config = Ok (Some p) →
  p ∈ cands ∧ (ng_selection_mode g = SEL_MANUAL → ng_manual_profile_id g = Some (p_id p)).
Proof.
  unfold group_choice. destruct (ng_selection_mode g) eqn:Em.
  - intros [= [Hp Hi]%List_find_elem_of]. destruct (ng_manual_profile_id g) as [m|]; [|done].
    apply String.eqb_eq in Hi as ->. done.
  - intros Hs. destruct (select_best _ _ _ _) as [[o ex]|] eqn:E; cbn in Hs; [|done].
    injection Hs as ->.
    split; [by eapply select_best_elem | done].
Qed.

Lemma group_hop_plan_resolved chain_id i target plan :
  group_hop_plan rt now_health now_latency chain_id i target config = Ok plan →
  (hp_status plan = HS_RESOLVED ∧
   ∃ p g cands, p_protocol p ∈ cr_supported_protocols rt
   ∧ NodeGroupStore_get target (cr_groups rt) = Ok (Some g) ∧ ng_enabled g = true
   ∧ resolve_candidates g (cr_profiles rt) (cr_providers rt) config (now_health i) = Ok cands
   ∧ p ∈ cands ∧ (ng_selection_mode g = SEL_MANUAL → ng_manual_profile_id g = Some (p_id p))
   ∧ plan = hop_resolved chain_id i "group" target p)
  ∨ (hp_status plan ≠ HS_RESOLVED ∧ hp_outbound_tag plan = None
     ∧ ∃ r, hp_failure_reason plan = Some r ∧ r ≠ "").
Proof.
  unfold group_hop_plan. intros Hp.
  destruct (NodeGroupStore_get target _) as [[g|]|] eqn:Eg; cbn in Hp; [| |done];
    [|injection Hp as <-; right; naive_solver].
  destruct (ng_enabled g) eqn:Een; cbn in Hp; [|injection Hp as <-; right; naive_solver].
  destruct (resolve_candidates _ _ _ _ _) as [cands|] eqn:Ec; cbn in Hp; [|done].
  destruct cands as [|c0 cs]; [injection Hp as <-; right; naive_solver|].
  destruct (group_choice _ _ _ _ _) as [[p|]|] eqn:Eh; cbn in Hp; [| |done];
    [|injection Hp as <-; right; naive_solver].
  destruct (protocol_supported rt p) eqn:Es; cbn in Hp; injection Hp as <-; [|right; naive_solver].
  apply bool_decide_eq_true in Es. apply group_choice_elem in Eh as [Hmem Hman].
  left. split; [done|]. exists p, g, (c0 :: cs). done.
Qed.

Lemma hop_plan_spec chain_id i hop plan :
  hop_plan rt now_health now_latency chain_id i hop config = Ok plan →
  (hp_status plan = HS_RESOLVED ∧ hop_plan_resolved chain_id i hop plan)
  ∨ (hp_status plan ≠ HS_RESOLVED ∧ hp_outbound_tag plan = None
     ∧ ∃ r, hp_failure_reason plan = Some r ∧ r ≠ "").
Proof.
  unfold hop_plan, hop_plan_resolved, carries. destruct (hop_type hop) eqn:Et.
  - intros [(Hs & p & H1 & H2 & H3 & H4 & H5)|Hf]%profile_hop_plan_resolved; [|by right].
    left. split; [done|]. exists p. done.
  - intros [(Hs & p & g & cands & H1 & H2 & H3 & H4 & H5 & H6 & H7)|Hf]%group_hop_plan_resolved;
      [|by right].
    left. split; [done|]. exists p. destruct (resolve_candidates_elem _ _ _ _ H4 H5).
    split; [|done]. repeat (split; [done|]). exists g, cands. done.
Qed.

Abbreviation resolved_at cid := (fun ih plan => hop_plan_resolved cid ih.1 ih.2 plan).

Lemma plan_hops_spec action cid i hops plans r :
  plan_hops rt now_health now_latency action cid config i hops plans = Ok r →
  match r with
  | inr out => ∃ new, out = plans ++ new ∧ Forall2 (resolved_at cid) (enumerate i hops) new
  | inl plan => ∃ new bad rest,
      pl_hops plan = plans ++ new ++ [bad] ∧ hp_status bad ≠ HS_RESOLVED
      ∧ Forall2 (resolved_at cid) (take (length new) (enumerate i hops)) new
      ∧ length hops = (length new + S rest)%nat
      ∧ ∃ reason, hp_failure_reason bad = Some reason ∧ reason ≠ ""
      ∧ plan = blocked action cid reason DNS_UNKNOWN (pl_hops plan)
  end.
Proof.
  revert i plans. induction hops as [|hop hops IH]; intros i plans; cbn.
  { intros [= <-]. exists []. split; [by rewrite app_nil_r | constructor]. }
  destruct (hop_plan _ _ _ _ _ _ _) as [plan|] eqn:Ep; cbn; [|done].
  apply hop_plan_spec in Ep as [[Hs Hr]|(Hs & Ht & reason & Hre & Hne)].
  - rewrite bool_decide_eq_true_2 by done. intros Hrest. apply IH in Hrest.
    destruct r as [bp|out].
    + destruct Hrest as (new & bad & rest & H1 & H2 & H3 & H4 & H5).
      exists (plan :: new), bad, rest. rewrite H1, <- app_assoc. repeat split; try done.
      * by constructor.
      * cbn. lia.
      * by rewrite <- app_assoc in H1; rewrite H1 in H5.
    + destruct Hrest as (new & -> & Hf). exists (plan :: new). rewrite <- app_assoc.
      split; [done|]. by constructor.
  - rewrite bool_decide_eq_false_2 by done. intros [= <-].
    rewrite Hre, (proj2 (truthy_str_ne reason) Hne). cbn.
    exists [], plan, (length hops). repeat split; [done | constructor |]. by exists reason.
Qed.

Lemma plan_hops_complete action cid i hops plans :
  (∀ k hop, hops !! k = Some hop → ∃ plan,
     hop_plan rt now_health now_latency cid (i + N.of_nat k) hop config = Ok plan
     ∧ hp_status plan = HS_RESOLVED) →
  ∃ out, plan_hops rt now_health now_latency action cid config i hops plans = Ok (inr out).
Proof.
  revert i plans. induction hops as [|hop hops IH]; intros i plans Hall; [by eexists|]. cbn.
  destruct (Hall 0%nat hop eq_refl) as (plan & Hp & Hs). rewrite N.add_0_r in Hp. rewrite Hp. cbn.
  rewrite bool_decide_eq_true_2 by done. apply IH. intros k h Hk.
  replace (i + 1 + N.of_nat k)%N with (i + N.of_nat (S k))%N by lia. by apply Hall.
Qed.

Lemma resolved_last cid chain_hops plans final :
  Forall2 (resolved_at cid) (enumerate 1 chain_hops) plans → last plans = Some final →
  hp_outbound_tag final = Some (chain_hop_outbound_tag cid (N.of_nat (length chain_hops))).
Proof.
  intros Hf Hl. rewrite last_lookup in Hl.
  destruct (Forall2_lookup_r _ _ _ _ _ Hf Hl) as ([i hop] & Hi & p & _ & ->). cbn.
  pose proof (Forall2_length _ _ _ Hf) as Hlen. rewrite enumerate_lookup in Hi.
  destruct (chain_hops !! _) eqn:Ek; [|done]. injection Hi as <- <-. do 2 f_equal.
  apply lookup_lt_Some in Ek.
  assert (length (enumerate 1 chain_hops) = length chain_hops) as Hel.
  { generalize 1%N. clear. induction chain_hops; intros; cbn; auto. }
  apply lookup_lt_Some in Hl. lia.
Qed.

Lemma resolved_statuses cid l plans :
  Forall2 (resolved_at cid) l plans → Forall (fun h => hp_status h = HS_RESOLVED) plans.
Proof. induction 1 as [|ih plan l plans (p & _ & ->) _ IH]; by constructor. Qed.

Lemma chain_resolution_spec action document dns_policy plan
    (Hplan : resolve_chain_action rt now_health now_latency action document dns_policy config
             = Ok plan) :
  chain_target action = Ok (Some (pl_chain_id plan)) ∧
  match pl_status plan with
  | CHAIN_RESOLVED => ∃ chain,
      chain ∈ rd_chains document ∧ rc_id chain = pl_chain_id plan ∧ rc_enabled chain = true
      ∧ chain_dns_path_status dns_policy = CHAIN_OWNED
      ∧ Forall2 (resolved_at (rc_id chain)) (enumerate 1 (rc_hops chain)) (pl_hops plan)
      ∧ pl_route_outbound_tag plan
        = Some (chain_hop_outbound_tag (rc_id chain) (N.of_nat (length (rc_hops chain))))
      ∧ pl_hops plan ≠ []
  | CHAIN_BLOCKED =>
      pl_route_outbound_tag plan = None
      ∧ (∃ reason, pl_failure_reason plan = Some reason ∧ reason ≠ "")
      ∧ Forall (fun h => hp_status h = HS_RESOLVED) (removelast (pl_hops plan))
  end.
Proof.
  unfold resolve_chain_action in Hplan.
  destruct (chain_target action) as [[cid|]|] eqn:Et; cbn in Hplan; [|done|done].
  destruct (List.find _ _) as [chain|] eqn:Ef; cbn in Hplan;
    [|injection Hplan as <-; naive_solver].
  apply List_find_elem_of in Ef as [Hmem Hid]. apply String.eqb_eq in Hid as <-.
  destruct (rc_enabled chain) eqn:Een; cbn in Hplan; [|injection Hplan as <-; naive_solver].
  destruct (plan_hops _ _ _ _ _ _ _ _ _) as [r|] eqn:Ep; cbn in Hplan; [|done].
  apply plan_hops_spec in Ep. destruct r as [bp|plans].
  - injection Hplan as <-.
    destruct Ep as (new & bad & rest & Hh & _ & Hf & _ & reason & _ & Hne & ->).
    cbn in Hh |- *. split; [done|]. split; [done|]. split; [by exists reason|].
    rewrite Hh, removelast_last. by eapply resolved_statuses.
  - destruct Ep as (new & -> & Hf). cbn [app] in Hplan, Hf.
    case_bool_decide as Hd; cbn in Hplan.
    + destruct (last new) as [final|] eqn:El; [|done]. injection Hplan as <-. cbn.
      split; [done|]. exists chain. repeat (split; [done|]).
      split; [by eapply resolved_last|]. by intros ->.
    + injection Hplan as <-. cbn. split; [done|]. split; [done|].
      split; [by exists "dns_path_unavailable"|].
      eapply Forall_removelast, resolved_statuses, Hf.
Qed.

(** resolution is fail-closed.  A plan that claims to be resolved names an enabled
    chain of the document, the DNS path is owned by the chain, and every hop, in
    order, is carried by a stored, eligible profile of a supported protocol that the
    hop names (or its enabled group chose); the traffic leaves through the tag of the
    last hop.  Any other plan is blocked: it has no outbound tag and a reason, and
    every hop planned before the last one is resolved. *)
Theorem chain_resolution_fail_closed action document dns_policy plan
    (Hplan : resolve_chain_action rt now_health now_latency action document dns_policy config
             = Ok plan) :
  chain_target action = Ok (Some (pl_chain_id plan)) ∧
  match pl_status plan with
  | CHAIN_RESOLVED => ∃ chain,
      chain ∈ rd_chains document ∧ rc_id chain = pl_chain_id plan ∧ rc_enabled chain = true
      ∧ chain_dns_path_status dns_policy = CHAIN_OWNED
      ∧ Forall2 (resolved_at (rc_id chain)) (enumerate 1 (rc_hops chain)) (pl_hops plan)
      ∧ pl_route_outbound_tag plan
        = Some (chain_hop_outbound_tag (rc_id chain) (N.of_nat (length (rc_hops chain))))
  | CHAIN_BLOCKED =>
      pl_route_outbound_tag plan = None
      ∧ (∃ reason, pl_failure_reason plan = Some reason ∧ reason ≠ "")
      ∧ Forall (fun h => hp_status h = HS_RESOLVED) (removelast (pl_hops plan))
  end.
Proof. destruct (chain_resolution_spec _ _ _ _ Hplan) as [? Hs]. split; [done|]. destruct (pl_status plan); naive_solver. Qed.

(** resolution is complete.  When the action names a chain of the document (the
    first with that id) that is enabled and has hops, each hop plans as resolved and
    the DNS path is owned by the chain, resolution returns a resolved plan. *)
Theorem chain_resolution_complete action document dns_policy chain
    (Hname : chain_target action = Ok (Some (rc_id chain)))
    (Hchain : List.find (fun c => String.eqb (rc_id c) (rc_id chain)) (rd_chains document)
              = Some chain)
    (Hen : rc_enabled chain = true) (Hhops : rc_hops chain ≠ [])
    (Hdns : chain_dns_path_status dns_policy = CHAIN_OWNED)
    (Hall : ∀ k hop, rc_hops chain !! k = Some hop → ∃ plan,
       hop_plan rt now_health now_latency (rc_id chain) (1 + N.of_nat k) hop config = Ok plan
       ∧ hp_status plan = HS_RESOLVED) :
  ∃ plan, resolve_chain_action rt now_health now_latency action document dns_policy config
          = Ok plan ∧ pl_status plan = CHAIN_RESOLVED ∧ pl_failure_reason plan = None.
Proof.
  destruct (plan_hops_complete action (rc_id chain) 1 (rc_hops chain) [] Hall) as [out Hout].
  pose proof (plan_hops_spec _ _ _ _ _ _ Hout) as (new & Hnew & Hf). cbn [app] in Hnew. subst out.
  unfold resolve_chain_action. rewrite Hname. cbn. rewrite Hchain, Hen. cbn. rewrite Hout, Hdns. cbn.
  destruct (last new) as [final|] eqn:El; [by eexists|]. apply last_None in El. subst new.
  apply Forall2_nil_inv_r in Hf. by destruct (rc_hops chain).
Qed.
End resolution.

(** ** Outbound tags *)
Lemma app_string_inj_l p a b : p +:+ a = p +:+ b → a = b.
Proof. induction p as [|c p IH]; cbn; [done|]. intros [= H]. auto. Qed.

(** The part after the last dash determines a string with a dash-free tail. *)
Lemma last_dash_inj a b d e :
  forall_chars (fun c => negb (Ascii.eqb c "-")) d = true →
  forall_chars (fun c => negb (Ascii.eqb c "-")) e = true →
  a +:+ String "-" d = b +:+ String "-" e → a = b ∧ d = e.
Proof.
  intros Hd He. revert b. induction a as [|c a IH]; intros [|c' b]; cbn.
  - by intros [= ->].
  - intros [= <- ->]. exfalso. clear He. revert Hd. induction b as [|x b IHb]; cbn; [done|].
    intros [_ H]%andb_prop. auto.
  - intros [= -> <-]. exfalso. clear IH Hd. revert He. induction a as [|x a IHa]; cbn; [done|].
    intros [_ H]%andb_prop. auto.
  - intros [= -> H]. by apply IH in H as [-> ->].
Qed.

Lemma pretty_N_no_dash (n : N) : forall_chars (fun c => negb (Ascii.eqb c "-")) (pretty n) = true.
Proof.
  assert (∀ x, Ascii.eqb (pretty_N_char x) "-" = false) as Hc.
  { intros x. unfold pretty_N_char. repeat case_match; done. }
  unfold pretty, pretty_N. case_decide; [done|].
  assert (∀ s, forall_chars (fun c => negb (Ascii.eqb c "-")) s = true →
    forall_chars (fun c => negb (Ascii.eqb c "-")) (pretty_N_go n s) = true) as Hgo; [|by apply Hgo].
  clear H. induction (N.lt_wf_0 n) as [x _ IH]. intros s Hs.
  destruct (decide (0 < x)%N) as [Hx|Hx].
  - rewrite pretty_N_go_step by done. apply IH; [by apply N.div_lt|]. cbn. by rewrite Hc, Hs.
  - assert (x = 0)%N as -> by lia. by rewrite pretty_N_go_0.
Qed.

(** outbound tags never collide: two hops have the same tag only when they are
    the same hop of the same chain, whatever the chain ids are. *)
Theorem chain_hop_outbound_tag_unique c1 c2 i j :
  chain_hop_outbound_tag c1 i = chain_hop_outbound_tag c2 j ↔ c1 = c2 ∧ i = j.
Proof.
  split; [|by intros [-> ->]]. unfold chain_hop_outbound_tag. intros H%app_string_inj_l.
  assert (∀ (c : string) (n : N), c +:+ "-hop-" +:+ pretty n = (c +:+ "-hop") +:+ String "-" (pretty n)) as Hre.
  { intros c n. clear. induction c as [|x c IH]; [done|]. exact (f_equal (String x) IH). }
  rewrite !Hre in H. apply last_dash_inj in H as [H1 H2]; [|apply pretty_N_no_dash..].
  split; [|by apply pretty_N_inj in H2].
  assert (∀ a b : string, a +:+ "-hop" = b +:+ "-hop" → a = b) as Hinj; [|by apply Hinj].
  clear. intros a b H. change "-hop" with (String "-" "hop") in H. by apply last_dash_inj in H as [? _].
Qed.

(** ** Reference checks *)
Lemma enumerate_elem_of {A} (l : list A) i x : x ∈ l → ∃ k, (k, x) ∈ enumerate i l.
Proof.
  intros [k Hk]%list_elem_of_lookup. exists (i + N.of_nat k)%N.
  apply list_elem_of_lookup. exists k. by rewrite enumerate_lookup, Hk.
Qed.

Lemma elem_of_enumerate {A} (l : list A) i k x : (k, x) ∈ enumerate i l → x ∈ l.
Proof.
  intros [n Hn]%list_elem_of_lookup. rewrite enumerate_lookup in Hn.
  destruct (l !! n) eqn:E; [|done]. injection Hn as _ <-. by eapply list_elem_of_lookup_2.
Qed.

(** A hop whose target exists *)
Definition hop_target_known (profile_ids group_names : gset string) (hop : ChainHop) : Prop :=
  match hop_type hop with
  | HOP_PROFILE => hop_target hop ∈ profile_ids
  | HOP_GROUP => hop_target hop ∈ group_names
  end.

Lemma reference_finding_None P G chain ih :
  reference_finding P G chain ih = None ↔ hop_target_known P G ih.2.
Proof.
  unfold reference_finding, hop_target_known. destruct ih as [i hop]. cbn.
  destruct (hop_type hop); case_bool_decide; naive_solver.
Qed.

Lemma flat_map_nil {A B} (f : A → list B) l : flat_map f l = [] ↔ ∀ x, x ∈ l → f x = [].
Proof.
  induction l as [|x l IH]; cbn.
  - split; [intros _ x Hx; by apply not_elem_of_nil in Hx | done].
  - split.
    + intros [Hx Hl]%app_nil y [->|Hy]%elem_of_cons; [done|]. by apply IH.
    + intros Hall. rewrite (Hall x) by apply list_elem_of_here. apply IH.
      intros y Hy. by apply Hall, list_elem_of_further.
Qed.

Lemma omap_nil_iff {A B} (f : A → option B) l : omap f l = [] ↔ ∀ x, x ∈ l → f x = None.
Proof.
  induction l as [|x l IH]; cbn.
  - split; [intros _ x Hx; by apply not_elem_of_nil in Hx | done].
  - destruct (f x) eqn:E.
    + split; [done|]. intros Hall. rewrite (Hall x) in E by apply list_elem_of_here. done.
    + rewrite IH. split; [intros Hall y [->|Hy]%elem_of_cons; auto|].
      intros Hall y Hy. by apply Hall, list_elem_of_further.
Qed.

(** the reference check accepts a document exactly when every hop of every chain
    names an existing profile or group, and each finding points at a hop of the named
    chain, by its one-based index, whose target is unknown. *)
Theorem chain_references_exact document P G :
  (raise_for_findings (validate_chain_references document P G) = Ok tt
   ↔ ∀ chain hop, chain ∈ rd_chains document → hop ∈ rc_hops chain → hop_target_known P G hop)
  ∧ ∀ f, f ∈ validate_chain_references document P G →
    ∃ chain k hop, chain ∈ rd_chains document ∧ rc_hops chain !! k = Some hop
      ∧ ¬ hop_target_known P G hop
      ∧ vf_chain_id f = rc_id chain ∧ vf_hop_index f = Some (1 + N.of_nat k)%N
      ∧ vf_target f = Some (hop_target hop).
Proof.
  split.
  - transitivity (validate_chain_references document P G = []).
    { by destruct (validate_chain_references document P G). }
    unfold validate_chain_references. rewrite flat_map_nil. setoid_rewrite omap_nil_iff.
    setoid_rewrite reference_finding_None. split.
    + intros Hall chain hop Hc [k Hk]%(enumerate_elem_of _ 1). by apply (Hall chain Hc (k, hop)).
    + intros Hall chain Hc [k hop] Hk%elem_of_enumerate. by eapply Hall.
  - intros f Hf. unfold validate_chain_references in Hf.
    apply list_elem_of_In, in_flat_map in Hf as (chain & Hc & Hf).
    apply list_elem_of_In in Hc. apply list_elem_of_In, list_elem_of_omap in Hf as ([i hop] & Hi & Hf).
    apply list_elem_of_lookup in Hi as [k Hk]. rewrite enumerate_lookup in Hk.
    destruct (rc_hops chain !! k) as [hop'|] eqn:Ek; [|done]. injection Hk as <- ->.
    exists chain, k, hop. split; [done|]. split; [done|].
    split; [intros Hkn; by rewrite (proj2 (reference_finding_None P G chain (_, hop)) Hkn) in Hf|].
    unfold reference_finding in Hf. destruct (hop_type hop); case_bool_decide; by simplify_eq/=.
Qed.

Lemma find_unique_index chains i :
  NoDup (map rc_id chains) →
  dict_get i (index_by rc_id chains) = List.find (fun c => String.eqb (rc_id c) i) chains.
Proof.
  intros Hn. destruct (List.find _ _) as [c|] eqn:E.
  - apply List_find_elem_of in E as [Hc <-%String.eqb_eq]. by apply index_by_unique.
  - destruct (dict_get i _) eqn:Ei; [|done]. apply index_by_some in Ei as [Hc Hi].
    apply list_elem_of_In, (find_none _ _ E) in Hc. rewrite Hi, String.eqb_refl in Hc. done.
Qed.

(** the static check of an action agrees with the resolver on a loaded document:
    it reports nothing exactly when the resolver gets past the lookup, i.e. does not
    block with [missing_chain] or [disabled_chain] before planning a hop. *)
Theorem chain_action_check_agrees `{PyStr, PySet} rt nh nl action document dns config plan
    (Hdoc : RouteChainDocument_wf document)
    (Hplan : resolve_chain_action rt nh nl action document dns config = Ok plan) :
  validate_chain_action_reference action document
  = Ok (match pl_hops plan, pl_failure_reason plan with
        | [], Some "missing_chain" => Some (chain_finding "missing_chain" (pl_chain_id plan) "missing")
        | [], Some "disabled_chain" => Some (chain_finding "disabled_chain" (pl_chain_id plan) "disabled")
        | _, _ => None
        end).
Proof.
  destruct Hdoc as (_ & Hw & Hn). unfold resolve_chain_action in Hplan.
  unfold validate_chain_action_reference.
  destruct (chain_target action) as [[cid|]|]; cbn in Hplan |- *; [|done|done].
  rewrite find_unique_index by done.
  destruct (List.find _ _) as [chain|] eqn:Ef; cbn in Hplan; [|by injection Hplan as <-].
  apply List_find_elem_of in Ef as [Hmem Hid]. apply String.eqb_eq in Hid as <-.
  destruct (rc_enabled chain) eqn:Een; cbn in Hplan; [|by injection Hplan as <-].
  assert (rc_hops chain ≠ []) as Hne by (rewrite Forall_forall in Hw; by apply Hw).
  assert (pl_hops plan ≠ []) as Hp; [|by destruct (pl_hops plan)].
  destruct (plan_hops _ _ _ _ _ _ _ _ _) as [r|] eqn:Ep; cbn in Hplan; [|done].
  apply plan_hops_spec in Ep. destruct r as [bp|plans].
  - injection Hplan as <-. destruct Ep as (new & bad & rest & Hh & _). rewrite Hh. by destruct new.
  - destruct Ep as (new & -> & Hf). cbn [app] in Hplan, Hf.
    assert (new ≠ []) as Hnew.
    { intros ->. apply Forall2_nil_inv_r in Hf. by destruct (rc_hops chain). }
    case_bool_decide; cbn in Hplan; [|by injection Hplan as <-].
    destruct (last new); [by injection Hplan as <- | done].
Qed.

(** ** Redaction *)
Definition masked_hop (h : ChainHop) : ChainHop := {|
  hop_type := hop_type h; hop_target := "masked"; hop_required := true;
  hop_selection_policy := None |}.

Definition masked_text (o : option string) : option string :=
  match o with Some s => Some (if truthy_str s then "masked" else "") | None => None end.

Definition masked_chain (c : RouteChain) : RouteChain := {|
  rc_id := rc_id c; rc_hops := map masked_hop (rc_hops c); rc_enabled := rc_enabled c;
  rc_description := masked_text (rc_description c); rc_dns_strategy := rc_dns_strategy c;
  rc_failure_policy := rc_failure_policy c; rc_health_policy := rc_health_policy c;
  rc_created_at := masked_text (rc_created_at c); rc_updated_at := masked_text (rc_updated_at c) |}.

(** redaction reveals nothing about hop targets, selection policies, descriptions
    or timestamps beyond their presence: the redacted view of a document is the one
    of the same document with all of those replaced by a fixed text. *)
Theorem redact_reveals_only_shape d :
  redact_chain_document d
  = redact_chain_document {| rd_chains := map masked_chain (rd_chains d);
                             rd_schema_version := rd_schema_version d |}.
Proof.
  unfold redact_chain_document. cbn [rd_chains rd_schema_version].
  rewrite length_map, map_map.
  rewrite (map_ext (fun c => PDict (redact_chain c)) (fun c => PDict (redact_chain (masked_chain c)))); [done|].
  intros c. unfold redact_chain. cbn -[truthy_str]. rewrite length_map, map_map.
  destruct (rc_description c) as [s|], (rc_created_at c), (rc_updated_at c); cbn; try done;
    destruct (truthy_str s); done.
Qed.

(** ** A concrete document *)
Definition demo_chain : RouteChain := {|
  rc_id := "exit"; rc_hops := [
    {| hop_type := HOP_PROFILE; hop_target := "a"; hop_required := true; hop_selection_policy := None |};
    {| hop_type := HOP_GROUP; hop_target := "eu"; hop_required := true;
       hop_selection_policy := Some "group_policy" |}];
  rc_enabled := true; rc_description := Some "two hops"; rc_dns_strategy := DNS_STRATEGY_CHAIN;
  rc_failure_policy := FAIL_CLOSED; rc_health_policy := ALL_REQUIRED; rc_created_at := None;
  rc_updated_at := None |}.

Definition demo_document : RouteChainDocument :=
  {| rd_chains := [demo_chain]; rd_schema_version := 1 |}.

Definition demo_resolver : ChainRuntimeResolver := {|
  cr_profiles := demo_nodes; cr_groups := [NodeGroup_to_dict demo_group]; cr_providers := [];
  cr_supported_protocols := SINGBOX_CHAIN_PROTOCOLS |}.

Abbreviation demo_now := (fun (_ : N) (_ : Profile) => 0%Z).

Definition demo_plan : option ChainRuntimePlan :=
  match @resolve_chain_action demo_pystr pyset_sorted demo_resolver demo_now demo_now
          " chain: exit" demo_document (Some default_DNSPolicy) [] with
  | Ok p => Some p
  | Err _ => None
  end.

Lemma demo_document_loads :
  @RouteChainDocument_from_dict demo_pystr (PDict (RouteChainDocument_to_dict demo_document))
  = Ok demo_document.
Proof. vm_compute. reflexivity. Qed.

Lemma chain_document_roundtrip_witness : RouteChainDocument_wf demo_document.
Proof.
  exact (proj1 (@chain_document_roundtrip demo_pystr _ demo_document demo_document_loads)).
Defined.

Lemma chain_store_map_witness :
  ∃ file', @RouteChainStore_add demo_pystr demo_chain None = (Ok tt, file')
    ∧ @RouteChainStore_get demo_pystr "exit" file' = Ok (Some demo_chain).
Proof.
  destruct (@chain_store_map demo_pystr None []) as [Hadd _]; [vm_compute; reflexivity|].
  destruct (Hadd demo_chain) as (file' & H1 & H2 & _).
  - apply (@RouteChain_from_dict_wf demo_pystr (PDict (RouteChain_to_dict demo_chain))).
    vm_compute. reflexivity.
  - exists file'. split; [exact H1 | exact H2].
Defined.

Lemma chain_resolution_fail_closed_witness :
  ∃ plan, demo_plan = Some plan
    ∧ pl_route_outbound_tag plan = Some "watchdogvpn-chain-exit-hop-2"
    ∧ map hp_resolved_profile_id (pl_hops plan) = [Some "a"; Some "b"].
Proof.
  destruct demo_plan as [plan|] eqn:E; [|vm_compute in E; discriminate].
  exists plan. split; [reflexivity|]. unfold demo_plan in E.
  destruct (resolve_chain_action _ _ _ _ _ _ _) as [q|] eqn:Er; [|discriminate].
  injection E as <-.
  destruct (@chain_resolution_fail_closed demo_pystr pyset_sorted demo_resolver demo_now demo_now
    [] _ _ _ _ Er) as [_ H].
  vm_compute in Er. injection Er as <-. cbn in H. destruct H as (c & Hc & _ & _ & _ & _ & Ht).
  split; [reflexivity | reflexivity].
Defined.

Lemma chain_resolution_complete_witness :
  ∃ plan, @resolve_chain_action demo_pystr pyset_sorted demo_resolver demo_now demo_now
            "chain:exit" demo_document (Some default_DNSPolicy) [] = Ok plan
    ∧ pl_status plan = CHAIN_RESOLVED ∧ pl_failure_reason plan = None.
Proof.
  apply (@chain_resolution_complete demo_pystr pyset_sorted demo_resolver demo_now demo_now []
           "chain:exit" demo_document (Some default_DNSPolicy) demo_chain);
    try (vm_compute; reflexivity); [discriminate|].
  intros [|[|k]] hop Hk; vm_compute in Hk; [injection Hk as <- .. | discriminate];
    eexists; (split; [vm_compute; reflexivity | reflexivity]).
Defined.

Lemma chain_action_check_agrees_witness :
  validate_chain_action_reference "chain:none" demo_document
  = Ok (Some (chain_finding "missing_chain" "none" "missing")).
Proof.
  destruct (@resolve_chain_action demo_pystr pyset_sorted demo_resolver demo_now demo_now
              "chain:none" demo_document None []) as [plan|] eqn:E;
    [|vm_compute in E; discriminate].
  rewrite (@chain_action_check_agrees demo_pystr pyset_sorted demo_resolver demo_now demo_now
             "chain:none" demo_document None [] plan
             (@RouteChainDocument_from_dict_wf demo_pystr _ _ demo_document_loads) E).
  vm_compute in E. injection E as <-. reflexivity.
Defined.
