(* ===== verification/AppPolicy.v ===== *)
(** * Application policy: documents and the fail-safe load

    app_policy/{models,store}.py.  [re.compile] and [re.search] are the class
    [PyRegex]; an action argument that may be an enum member or text is a sum. *)
From stdpp Require Import base list strings gmap pretty sorting.
From Stdlib Require Import Ascii QArith.
From S2P Require Import Prelude PyData NodeGroups RouteChains.

(** Python's regular expressions: [re.compile(p)] raises [re.error] unless
    [regex_valid p]; [regex_search p s] is [re.search(p, s) is not None]. *)
Class PyRegex : Type := {
  regex_valid : string → bool;
  regex_search : string → string → bool
}.

(** ** app_policy/models.py *)
Definition APP_POLICY_SCHEMA_VERSION : Z := 1.
Definition APP_POLICY_FIELDS : list string :=
  ["schema_version"; "enabled"; "mode"; "default_action"; "rules"].
Definition APP_POLICY_RULE_FIELDS : list string := ["id"; "action"; "match"; "enabled"].
Definition APP_POLICY_MATCH_FIELDS : list string :=
  ["process_name"; "process_path"; "process_path_regex"; "user"; "user_id"].
Definition UNAVAILABLE_ACTIONS : list string := ["auto"].

Inductive AppPolicyMode : Type := WHITELIST | BLACKLIST.

#[global] Instance AppPolicyMode_eq_dec : EqDecision AppPolicyMode.
Proof. solve_decision. Defined.

Inductive AppPolicyAction : Type := APP_CURRENT | APP_DIRECT | APP_BLOCK.

Inductive MatchConfidence : Type := CONF_HIGH | CONF_MEDIUM | CONF_LOW.

Definition app_mode_value (m : AppPolicyMode) : string :=
  match m with WHITELIST => "whitelist" | BLACKLIST => "blacklist" end.

Definition AppPolicyMode_of (s : string) : res AppPolicyMode :=
  if String.eqb s "whitelist" then Ok WHITELIST
  else if String.eqb s "blacklist" then Ok BLACKLIST
  else raise PersistentValidationError "app_policy.mode must be one of: whitelist, blacklist".

Definition app_action_value (a : AppPolicyAction) : string :=
  match a with APP_CURRENT => "current" | APP_DIRECT => "direct" | APP_BLOCK => "block" end.

Definition AppPolicyAction_of (s field_name : string) : res AppPolicyAction :=
  if String.eqb s "current" then Ok APP_CURRENT
  else if String.eqb s "direct" then Ok APP_DIRECT
  else if String.eqb s "block" then Ok APP_BLOCK
  else raise PersistentValidationError (field_name +:+
         " must be one of: current, direct, block, 'group:<name>', or 'chain:<id>'").

(** [AppPolicyAction | str]: a member, or the text of a group or chain action *)
Abbreviation app_action := (AppPolicyAction + string)%type.

Definition validate_app_action (value : app_action) (field_name : string) : res app_action :=
  match value with
  | inl a => Ok (inl a)
  | inr text =>
      let action := strip text in
      if str_in action UNAVAILABLE_ACTIONS then
        raise PersistentValidationError (field_name +:+ " action '" +:+ action +:+
          "' is scheduled for later multi-outbound support")
      else match group_target action with
           | Some _ => Ok (inr action)
           | None =>
               chain ← chain_target action;
               match chain with
               | Some _ => Ok (inr action)
               | None => inl <$> AppPolicyAction_of action field_name
               end
           end
  end.

Definition action_value (a : app_action) : string :=
  match a with inl a => app_action_value a | inr s => s end.

(** The loop bodies of [_string_list] and [_user_id_list] *)
Definition string_entry (field_name : string) (v : pyval) : res string :=
  match v with
  | PStr s =>
      if truthy_str (strip s) then Ok (strip s)
      else raise PersistentValidationError (field_name +:+ " must not contain empty values")
  | _ => raise PersistentValidationError (field_name +:+ " entries must be strings")
  end.

Definition nonempty_list (v : pyval) (field_name : string) : res (list pyval) :=
  match v with
  | PList (x :: l) => Ok (x :: l)
  | _ => raise PersistentValidationError (field_name +:+ " must be a non-empty list")
  end.

Definition string_list (v : pyval) (field_name : string) : res (list string) :=
  items ← nonempty_list v field_name; map_res (string_entry field_name) items.

Definition user_id_entry (field_name : string) (v : pyval) : res Z :=
  number ← strict_int v (field_name +:+ " entry");
  _ ← ensure (negb (number <? 0)%Z) PersistentValidationError
        (field_name +:+ " entries must not be negative");
  Ok number.

Definition user_id_list (v : pyval) (field_name : string) : res (list Z) :=
  items ← nonempty_list v field_name; map_res (user_id_entry field_name) items.

Definition validate_regex_list `{PyRegex} (v : pyval) (field_name : string)
  : res (list string) :=
  entries ← string_list v field_name;
  match List.find (fun p => negb (regex_valid p)) entries with
  | None => Ok entries
  | Some p => raise PersistentValidationError (field_name +:+ " contains an invalid regex: " +:+ p)
  end.

(** A validated matcher: texts or user ids *)
Abbreviation matcher := (list string + list Z)%type.

Definition validate_matcher `{PyRegex} (key : string) (value : pyval) : res matcher :=
  let field_name := "app_policy.rule.match." +:+ key in
  if String.eqb key "user_id" then inr <$> user_id_list value field_name
  else if String.eqb key "process_path_regex" then inl <$> validate_regex_list value field_name
  else inl <$> string_list value field_name.

Definition validate_match `{PyRegex} (v : pyval) : res (pydict matcher) :=
  match v with
  | PDict items =>
      _ ← reject_unknown_keys items APP_POLICY_MATCH_FIELDS "app policy rule match";
      validated ← collect_items validate_matcher items [];
      _ ← ensure (match validated with [] => false | _ => true end) PersistentValidationError
            "app policy rule must define at least one matcher";
      Ok validated
  | _ => raise PersistentValidationError "app policy rule match must be an object"
  end.

Definition confidence (m : pydict matcher) : MatchConfidence :=
  if dict_has "user_id" m || dict_has "process_path" m then CONF_HIGH
  else if dict_has "process_path_regex" m || dict_has "user" m then CONF_MEDIUM
  else CONF_LOW.

Record AppPolicyRule : Type := {
  ar_id : string;
  ar_action : app_action;
  ar_match : pydict matcher;
  ar_enabled : bool
}.

Definition AppPolicyRule_post_init `{PyRegex} (id : string) (action : app_action)
    (m enabled : pyval) : res AppPolicyRule :=
  let id := strip id in
  _ ← ensure (truthy_str id) PersistentValidationError "app policy rule id must not be empty";
  action ← validate_app_action action "app_policy.rule.action";
  m ← validate_match m;
  enabled ← strict_bool enabled "app_policy.rule.enabled";
  Ok {| ar_id := id; ar_action := action; ar_match := m; ar_enabled := enabled |}.

Definition match_confidence (r : AppPolicyRule) : MatchConfidence := confidence (ar_match r).

Definition matcher_val (m : matcher) : pyval :=
  match m with inl l => PList (map PStr l) | inr l => PList (map PInt l) end.

Definition AppPolicyRule_to_dict (r : AppPolicyRule) : pydict pyval :=
  [ ("id", PStr (ar_id r)); ("action", PStr (action_value (ar_action r)));
    ("match", PDict (map (fun kv => (kv.1, matcher_val kv.2)) (ar_match r)));
    ("enabled", PBool (ar_enabled r)) ].

Section documents.
Context `{PyStr, PyRegex}.

Definition AppPolicyRule_from_dict (v : pyval) : res AppPolicyRule :=
  match v with
  | PDict data =>
      _ ← reject_unknown_keys data APP_POLICY_RULE_FIELDS "app policy rule";
      _ ← require_fields data ["id"; "action"; "match"] "app policy rule";
      id ← dict_item "id" data;
      action ← dict_item "action" data;
      enabled ← strict_bool (dict_get_or "enabled" (PBool true) data) "app_policy.rule.enabled";
      AppPolicyRule_post_init (py_str id) (inr (py_str action))
        (dict_get_or "match" (PDict []) data) (PBool enabled)
  | _ => raise PersistentValidationError "app policy rule must be an object"
  end.

Record AppPolicy : Type := {
  ap_enabled : bool;
  ap_mode : AppPolicyMode;
  ap_default_action : app_action;
  ap_rules : list AppPolicyRule;
  ap_schema_version : Z
}.

(** [rules] holds rule objects here: both callers pass such a list. *)
Definition AppPolicy_post_init (enabled : pyval) (mode : string) (default_action : app_action)
    (rules : list AppPolicyRule) (schema_version : pyval) : res AppPolicy :=
  version ← strict_int schema_version "app_policy.schema_version";
  _ ← ensure (version =? APP_POLICY_SCHEMA_VERSION)%Z PersistentValidationError
        ("unsupported app policy schema_version: " +:+ pretty version);
  enabled ← strict_bool enabled "app_policy.enabled";
  mode ← AppPolicyMode_of mode;
  default_action ← validate_app_action default_action "app_policy.default_action";
  Ok {| ap_enabled := enabled; ap_mode := mode; ap_default_action := default_action;
        ap_rules := rules; ap_schema_version := version |}.

(** [AppPolicy()] *)
Definition AppPolicy_default : AppPolicy := {|
  ap_enabled := false; ap_mode := BLACKLIST; ap_default_action := inl APP_CURRENT;
  ap_rules := []; ap_schema_version := APP_POLICY_SCHEMA_VERSION |}.

Definition AppPolicy_disabled_due_to_error (reason : string) : res AppPolicy :=
  AppPolicy_post_init (PBool false) (app_mode_value BLACKLIST) (inl APP_BLOCK) []
    (PInt APP_POLICY_SCHEMA_VERSION).

Definition AppPolicy_to_dict (p : AppPolicy) : pydict pyval :=
  [ ("schema_version", PInt (ap_schema_version p)); ("enabled", PBool (ap_enabled p));
    ("mode", PStr (app_mode_value (ap_mode p)));
    ("default_action", PStr (action_value (ap_default_action p)));
    ("rules", PList (map (fun r => PDict (AppPolicyRule_to_dict r)) (ap_rules p))) ].

Definition AppPolicy_from_dict (v : pyval) : res AppPolicy :=
  match v with
  | PDict data =>
      _ ← reject_unknown_keys data APP_POLICY_FIELDS "app policy";
      rules ← match dict_get_or "rules" (PList []) data with
              | PList l => Ok l
              | _ => raise PersistentValidationError "app_policy.rules must be a list"
              end;
      enabled ← strict_bool (dict_get_or "enabled" (PBool false) data) "app_policy.enabled";
      rules ← map_res AppPolicyRule_from_dict rules;
      AppPolicy_post_init (PBool enabled)
        (py_str (dict_get_or "mode" (PStr (app_mode_value BLACKLIST)) data))
        (inr (py_str (dict_get_or "default_action" (PStr (app_action_value APP_CURRENT)) data)))
        rules
        (dict_get_or "schema_version" (PInt APP_POLICY_SCHEMA_VERSION) data)
  | _ => raise PersistentValidationError "app policy must be an object"
  end.

(** ** app_policy/store.py: [json] is the outcome of [load_json(self.path, {})] *)
Definition AppPolicyStore_load (json : res pyval) : res AppPolicy :=
  v ← json;
  data ← require_mapping v "app-policy.json";
  match data with
  | [] => Ok AppPolicy_default
  | _ => AppPolicy_from_dict (PDict data)
  end.

Record AppPolicyLoadResult : Type := {
  lr_policy : AppPolicy;
  lr_valid : bool;
  lr_error : option string
}.

Definition load_or_disabled (json : res pyval) : res AppPolicyLoadResult :=
  match AppPolicyStore_load json with
  | Ok p => Ok {| lr_policy := p; lr_valid := true; lr_error := None |}
  | Err e =>
      if is_instance e PersistentStoreError || is_instance e PersistentValidationError then
        p ← AppPolicy_disabled_due_to_error (exn_message e);
        Ok {| lr_policy := p; lr_valid := false; lr_error := Some (exn_message e) |}
      else Err e
  end.

(** [save]: the new content of the file *)
Definition AppPolicyStore_save (p : AppPolicy) : pyval := PDict (AppPolicy_to_dict p).
End documents.

(** ** Round trip *)
Definition action_wf (a : app_action) : Prop :=
  ∀ field, validate_app_action (inr (action_value a)) field = Ok a.

Definition matcher_wf `{PyRegex} (key : string) (m : matcher) : Prop :=
  match m with
  | inl l => key ≠ "user_id" ∧ l ≠ [] ∧ Forall trimmed l
             ∧ (key = "process_path_regex" → Forall (fun p => regex_valid p = true) l)
  | inr l => key = "user_id" ∧ l ≠ [] ∧ Forall (fun z => 0 <= z)%Z l
  end.

Definition match_wf `{PyRegex} (m : pydict matcher) : Prop :=
  m ≠ [] ∧ NoDup (map fst m)
  ∧ Forall (fun kv => kv.1 ∈ APP_POLICY_MATCH_FIELDS ∧ matcher_wf kv.1 kv.2) m.

Definition AppPolicyRule_wf `{PyRegex} (r : AppPolicyRule) : Prop :=
  trimmed (ar_id r) ∧ action_wf (ar_action r) ∧ match_wf (ar_match r).

Definition AppPolicy_wf `{PyRegex} (p : AppPolicy) : Prop :=
  ap_schema_version p = APP_POLICY_SCHEMA_VERSION ∧ action_wf (ap_default_action p)
  ∧ Forall AppPolicyRule_wf (ap_rules p).

#[local] Arguments validate_app_action : simpl never.

Lemma validate_app_action_wf a field r : validate_app_action a field = Ok r → action_wf r.
Proof.
  destruct a as [a|s]; [intros [= <-] f; by destruct a|].
  unfold validate_app_action. cbn zeta.
  assert (strip (strip s) = strip s) as Hs by apply strip_idem.
  destruct (str_in (strip s) UNAVAILABLE_ACTIONS) eqn:Eu; [done|].
  destruct (group_target (strip s)) as [g|] eqn:Eg.
  { intros [= <-] f. unfold validate_app_action. cbn zeta. cbn [action_value]. by rewrite Hs, Eu, Eg. }
  destruct (chain_target (strip s)) as [[c|]|] eqn:Ec; cbn; [| |done].
  { intros [= <-] f. unfold validate_app_action. cbn zeta. cbn [action_value].
    by rewrite Hs, Eu, Eg, Ec. }
  unfold AppPolicyAction_of. repeat case_match; intros [= <-] f; done.
Qed.

Lemma map_res_nonempty {A B} (f : A → res B) l r : map_res f l = Ok r → l ≠ [] → r ≠ [].
Proof. destruct l; [done|]. cbn. intros H _ ->. by inv_res H. Qed.

Lemma nonempty_list_ok v f l : nonempty_list v f = Ok l → l ≠ [] ∧ v = PList l.
Proof. destruct v as [| | | | |[|x xs]|]; try done. by intros [= <-]. Qed.

Lemma string_list_ok v f l : string_list v f = Ok l → l ≠ [] ∧ Forall trimmed l.
Proof.
  unfold string_list. destruct (nonempty_list v f) as [items|] eqn:E; cbn; [|done].
  apply nonempty_list_ok in E as [Hn _]. intros Hm. split; [by eapply map_res_nonempty|].
  eapply map_res_Forall; [|exact Hm]. intros x y. destruct x as [| | | |s| |]; try done. cbn.
  destruct (truthy_str (strip s)) eqn:Et; [|done]. intros [= <-].
  split; [apply strip_idem | by apply truthy_str_ne].
Qed.

Lemma string_list_roundtrip l f :
  l ≠ [] → Forall trimmed l → string_list (PList (map PStr l)) f = Ok l.
Proof.
  intros Hn Hl. unfold string_list.
  assert (nonempty_list (PList (map PStr l)) f = Ok (map PStr l)) as -> by by destruct l.
  apply (map_res_roundtrip _ _ trimmed); [|done].
  intros s [H1 H2]. cbn. by rewrite H1, (proj2 (truthy_str_ne s) H2).
Qed.

Lemma user_id_list_ok v f l : user_id_list v f = Ok l → l ≠ [] ∧ Forall (fun z => 0 <= z)%Z l.
Proof.
  unfold user_id_list. destruct (nonempty_list v f) as [items|] eqn:E; cbn; [|done].
  apply nonempty_list_ok in E as [Hn _]. intros Hm. split; [by eapply map_res_nonempty|].
  eapply map_res_Forall; [|exact Hm]. intros x y. destruct x; try done. cbn.
  destruct (z <? 0)%Z eqn:Ez; [done|]. intros [= <-]. lia.
Qed.

Lemma user_id_list_roundtrip l f :
  l ≠ [] → Forall (fun z => 0 <= z)%Z l → user_id_list (PList (map PInt l)) f = Ok l.
Proof.
  intros Hn Hl. unfold user_id_list.
  assert (nonempty_list (PList (map PInt l)) f = Ok (map PInt l)) as -> by by destruct l.
  apply (map_res_roundtrip _ _ (fun z => 0 <= z)%Z); [|done].
  intros z Hz. cbn. by rewrite (proj2 (Z.ltb_ge z 0)) by done.
Qed.

Lemma find_none_forall {A} (f : A → bool) l :
  List.find (fun x => negb (f x)) l = None ↔ Forall (fun x => f x = true) l.
Proof.
  induction l as [|x l IH]; cbn; [done|]. rewrite Forall_cons. destruct (f x); cbn.
  - rewrite IH. tauto.
  - split; [done|]. by intros [? _].
Qed.

Lemma validate_matcher_wf `{PyRegex} k v m : validate_matcher k v = Ok m → matcher_wf k m.
Proof.
  unfold validate_matcher. destruct (String.eqb_spec k "user_id") as [->|Hk].
  { destruct (user_id_list v _) eqn:E; [|done]. intros [= <-]. by apply user_id_list_ok in E. }
  destruct (String.eqb_spec k "process_path_regex") as [->|Hr].
  - unfold validate_regex_list. destruct (string_list v _) as [l|] eqn:E; cbn; [|done].
    destruct (List.find _ _) eqn:Ef; [done|]. intros [= <-]. apply string_list_ok in E as [E1 E2].
    repeat split; try done. intros _. by apply find_none_forall.
  - destruct (string_list v _) as [l|] eqn:E; [|done]. intros [= <-].
    by apply string_list_ok in E as [E1 E2].
Qed.

Lemma validate_matcher_roundtrip `{PyRegex} k m :
  matcher_wf k m → validate_matcher k (matcher_val m) = Ok m.
Proof.
  unfold validate_matcher. destruct m as [l|l]; cbn [matcher_val matcher_wf].
  - intros (Hk & Hn & Ht & Hr). rewrite (proj2 (String.eqb_neq _ _) Hk).
    destruct (String.eqb_spec k "process_path_regex") as [->|].
    + unfold validate_regex_list. rewrite string_list_roundtrip by done. cbn.
      by rewrite (proj2 (find_none_forall _ _) (Hr eq_refl)).
    + by rewrite string_list_roundtrip.
  - intros (-> & Hn & Hp). rewrite String.eqb_refl. by rewrite user_id_list_roundtrip.
Qed.

Lemma validate_match_wf `{PyRegex} v m : validate_match v = Ok m → match_wf m.
Proof.
  destruct v as [| | | | | |items]; try done. cbn -[APP_POLICY_MATCH_FIELDS]. intros Hm.
  destruct (reject_unknown_keys _ _ _) as [[]|] eqn:Er; cbn in Hm; [|done].
  destruct (collect_items _ items []) as [r|] eqn:Ev; cbn in Hm; [|done].
  destruct r as [|kv r]; cbn in Hm; [done|]. injection Hm as <-.
  rewrite reject_unknown_keys_ok in Er. split; [done|].
  eapply (collect_items_ok validate_matcher _ items []); [|apply NoDup_nil_2|constructor|exact Ev].
  apply Forall_forall. intros [k x] Hx y Hy. split; [|by eapply validate_matcher_wf].
  apply Er. cbn. apply list_elem_of_In, (in_map fst _ (k, x)), list_elem_of_In, Hx.
Qed.

Lemma validate_match_roundtrip `{PyRegex} m :
  match_wf m → validate_match (PDict (map (fun kv => (kv.1, matcher_val kv.2)) m)) = Ok m.
Proof.
  intros (Hne & Hn & Hf). cbn -[APP_POLICY_MATCH_FIELDS].
  rewrite (proj2 (reject_unknown_keys_ok _ _ _)).
  2: { intros k. rewrite map_map. cbn. intros (kv & -> & Hkv)%list_elem_of_fmap.
       rewrite Forall_forall in Hf. by apply Hf. }
  cbn. rewrite (collect_items_roundtrip _ _ m []); [| done |].
  - cbn. by destruct m.
  - eapply Forall_impl; [exact Hf|]. intros [k x] [_ Hx]. by apply validate_matcher_roundtrip.
Qed.

Section policy_lemmas.
Context `{PyStr, PyRegex}.

Lemma AppPolicyRule_from_dict_wf v r : AppPolicyRule_from_dict v = Ok r → AppPolicyRule_wf r.
Proof.
  destruct v as [| | | | | |d]; try done. unfold AppPolicyRule_from_dict, AppPolicyRule_post_init.
  intros Hr. inv_res Hr. injection Hr as <-.
  repeat match goal with E : ensure _ _ _ = Ok _ |- _ => apply ensure_ok in E end.
  split; [split; [apply strip_idem | by apply truthy_str_ne]|].
  split; [eapply validate_app_action_wf; eassumption | eapply validate_match_wf; eassumption].
Qed.

Lemma AppPolicyRule_roundtrip r :
  AppPolicyRule_wf r → AppPolicyRule_from_dict (PDict (AppPolicyRule_to_dict r)) = Ok r.
Proof.
  destruct r as [i a m en]. intros ([Hi1 Hi2] & Ha & Hm). cbn [ar_id] in Hi1, Hi2. cbn in Ha, Hm.
  unfold AppPolicyRule_from_dict.
  replace (reject_unknown_keys _ _ _) with (@Ok unit tt) by done.
  cbn -[AppPolicyRule_post_init]. unfold AppPolicyRule_post_init.
  rewrite Hi1, (proj2 (truthy_str_ne i) Hi2), Ha. cbn -[validate_match].
  rewrite validate_match_roundtrip by done. done.
Qed.

Lemma AppPolicy_from_dict_wf v p : AppPolicy_from_dict v = Ok p → AppPolicy_wf p.
Proof.
  destruct v as [| | | | | |d]; try done. unfold AppPolicy_from_dict, AppPolicy_post_init.
  intros Hp. inv_res Hp. injection Hp as <-.
  repeat match goal with E : ensure _ _ _ = Ok _ |- _ => apply ensure_ok in E end.
  split; [by apply Z.eqb_eq|]. split; [eapply validate_app_action_wf; eassumption|].
  eapply map_res_Forall; [|eassumption]. intros ??. apply AppPolicyRule_from_dict_wf.
Qed.

Lemma AppPolicy_roundtrip p :
  AppPolicy_wf p → AppPolicy_from_dict (PDict (AppPolicy_to_dict p)) = Ok p.
Proof.
  destruct p as [en mode da rules v]. intros (Hv & Ha & Hr). cbn in Hv, Ha, Hr. subst v.
  unfold AppPolicy_from_dict. replace (reject_unknown_keys _ _ _) with (@Ok unit tt) by done.
  cbn -[AppPolicyRule_from_dict AppPolicy_post_init].
  rewrite (map_res_roundtrip _ _ AppPolicyRule_wf);
    [|intros a; apply AppPolicyRule_roundtrip | done].
  cbn -[AppPolicy_post_init]. unfold AppPolicy_post_init. rewrite Ha. by destruct mode.
Qed.

(** a policy read from a document is well formed (schema version 1, non-blank rule
    ids, every rule with at least one known, non-empty matcher, user ids not negative,
    regexes that compile, actions that validate) and what is saved loads back as the
    same policy. *)
Theorem app_policy_roundtrip v p (Hp : AppPolicy_from_dict v = Ok p) :
  AppPolicy_wf p ∧ AppPolicyStore_load (Ok (AppPolicyStore_save p)) = Ok p.
Proof.
  apply AppPolicy_from_dict_wf in Hp. split; [done|]. unfold AppPolicyStore_load, AppPolicyStore_save.
  cbn -[AppPolicy_from_dict]. by apply AppPolicy_roundtrip.
Qed.

(** Every error of the loader is a validation error. *)
Ltac raises_validation :=
  repeat match goal with
  | H : Ok _ = Err _ |- _ => discriminate H
  | H : raise ?k ?m = Err ?e |- exn_class ?e = _ => by injection H as <-
  | H : ensure ?b _ _ = Err _ |- _ => destruct b; cbn in H
  | H : mbind _ ?m = Err _ |- _ =>
      let E := fresh "E" in destruct m eqn:E; cbn in H; [|injection H as ->]
  | H : fmap _ ?m = Err _ |- _ =>
      let E := fresh "E" in destruct m eqn:E; cbn in H; [|injection H as ->]
  | H : (match ?x with _ => _ end) = Err _ |- _ => destruct x eqn:?; cbn in H
  end.

Lemma map_res_err {A B} (f : A → res B) k l e :
  (∀ a e, f a = Err e → exn_class e = k) → map_res f l = Err e → exn_class e = k.
Proof.
  intros Hf. induction l as [|x l IH]; cbn; [done|].
  destruct (f x) eqn:E; cbn; [|intros [= <-]; by eapply Hf].
  destruct (map_res f l) eqn:E'; cbn; [done|]. intros [= <-]. by apply IH.
Qed.

Lemma validate_app_action_err a f e :
  validate_app_action a f = Err e → exn_class e = PersistentValidationError.
Proof.
  unfold validate_app_action, chain_target, validate_chain_id, AppPolicyAction_of. cbn zeta.
  intros He. raises_validation.
Qed.

Lemma string_list_err v f e : string_list v f = Err e → exn_class e = PersistentValidationError.
Proof.
  unfold string_list. intros He. destruct (nonempty_list v f) eqn:E; cbn in He.
  - eapply map_res_err; [|exact He]. intros x e'. unfold string_entry. intros. raises_validation.
  - injection He as <-. unfold nonempty_list in E. raises_validation.
Qed.

Lemma validate_matcher_err k v e :
  validate_matcher k v = Err e → exn_class e = PersistentValidationError.
Proof.
  unfold validate_matcher, validate_regex_list, user_id_list. cbn zeta. intros He.
  raises_validation; try (by eapply string_list_err).
  - eapply map_res_err; [|eassumption]. intros x e'. unfold user_id_entry, strict_int.
    intros. raises_validation.
  - unfold nonempty_list in *. raises_validation.
Qed.

Lemma validate_match_err v e : validate_match v = Err e → exn_class e = PersistentValidationError.
Proof.
  unfold validate_match, reject_unknown_keys. intros He. raises_validation.
  eapply collect_items_err; [|eassumption]. apply validate_matcher_err.
Qed.

Lemma require_fields_item d names o u k :
  require_fields d names o = Ok u → k ∈ names → ∃ v, dict_item k d = Ok v.
Proof.
  unfold require_fields, dict_item, dict_has. destruct (List.find _ _) eqn:E; [done|].
  intros _ Hk. apply list_elem_of_In, (find_none _ _ E) in Hk. destruct (dict_get k d); [by eexists | done].
Qed.

Lemma AppPolicyRule_from_dict_err v e :
  AppPolicyRule_from_dict v = Err e → exn_class e = PersistentValidationError.
Proof.
  destruct v as [| | | | | |d]; try by intros [= <-].
  unfold AppPolicyRule_from_dict. intros He.
  destruct (reject_unknown_keys _ _ _) eqn:Er; cbn in He.
  2: { unfold reject_unknown_keys in Er. injection He as ->. raises_validation. }
  destruct (require_fields _ _ _) eqn:Eq; cbn in He.
  2: { unfold require_fields in Eq. injection He as ->. raises_validation. }
  destruct (require_fields_item _ _ _ _ "id" Eq) as [vi Hi]; [by do 1 constructor|]. rewrite Hi in He. cbn in He.
  destruct (require_fields_item _ _ _ _ "action" Eq) as [va Ha]; [by do 2 constructor|]. rewrite Ha in He.
  cbn in He. unfold AppPolicyRule_post_init, strict_bool in He.
  raises_validation; [by eapply validate_match_err | by eapply validate_app_action_err].
Qed.

Lemma AppPolicyStore_load_err v e :
  AppPolicyStore_load (Ok v) = Err e → exn_class e = PersistentValidationError.
Proof.
  unfold AppPolicyStore_load, AppPolicy_from_dict, AppPolicy_post_init, reject_unknown_keys,
    require_mapping, AppPolicyMode_of, strict_bool, strict_int. cbn -[AppPolicyRule_from_dict].
  intros He. raises_validation;
    try (by eapply validate_app_action_err);
    (eapply map_res_err; [|eassumption]; apply AppPolicyRule_from_dict_err).
Qed.

(** loading fails safe.  Whatever the file holds, and also when it cannot be read
    or parsed, [load_or_disabled] returns a result: either the policy of the file,
    marked valid, or, marked invalid with the error, a disabled policy without rules
    whose default action is to block. *)
Theorem load_or_disabled_fail_safe json
    (Hjson : ∀ e, json = Err e → is_instance e PersistentStoreError = true) :
  ∃ r, load_or_disabled json = Ok r ∧
  if lr_valid r then AppPolicyStore_load json = Ok (lr_policy r) ∧ lr_error r = None
  else lr_policy r = {| ap_enabled := false; ap_mode := BLACKLIST;
                        ap_default_action := inl APP_BLOCK; ap_rules := [];
                        ap_schema_version := APP_POLICY_SCHEMA_VERSION |}
       ∧ ∃ e, AppPolicyStore_load json = Err e ∧ lr_error r = Some (exn_message e).
Proof.
  unfold load_or_disabled. destruct (AppPolicyStore_load json) as [p|e] eqn:El; [by eexists|].
  assert (is_instance e PersistentStoreError = true) as ->.
  { destruct json as [v|e']; [|injection El as <-; by apply Hjson].
    apply AppPolicyStore_load_err in El. unfold is_instance. rewrite El. done. }
  cbn. eexists. split; [done|]. cbn. split; [done|]. by exists e.
Qed.
End policy_lemmas.

(** A regex dialect where nothing but the empty pattern fails to compile, for the
    concrete examples *)
Definition demo_regex : PyRegex := {|
  regex_valid := truthy_str; regex_search := fun p s => contains p s |}.

Definition demo_policy_value : pyval :=
  PDict [ ("enabled", PBool true); ("mode", PStr "whitelist"); ("default_action", PStr "direct");
          ("rules", PList [PDict [ ("id", PStr " web "); ("action", PStr "chain:exit");
            ("match", PDict [("process_name", PList [PStr "curl "]); ("user_id", PList [PInt 1000])])]])].

Lemma app_policy_roundtrip_witness :
  ∃ p, @AppPolicyStore_load demo_pystr demo_regex (Ok (AppPolicyStore_save p)) = Ok p
       ∧ map ar_id (ap_rules p) = ["web"].
Proof.
  destruct (@AppPolicy_from_dict demo_pystr demo_regex demo_policy_value) as [p|] eqn:E;
    [|vm_compute in E; discriminate].
  exists p. destruct (@app_policy_roundtrip demo_pystr demo_regex _ p E) as [_ H].
  split; [exact H|]. vm_compute in E. injection E as <-. reflexivity.
Defined.

(** A rule without matchers invalidates the whole file. *)
Lemma load_or_disabled_fail_safe_witness :
  ∃ r, @load_or_disabled demo_pystr demo_regex
         (Ok (PDict [("enabled", PBool true); ("rules", PList [PDict [("id", PStr "x");
           ("action", PStr "direct"); ("match", PDict [])]])])) = Ok r
       ∧ lr_valid r = false ∧ ap_default_action (lr_policy r) = inl APP_BLOCK.
Proof.
  destruct (@load_or_disabled_fail_safe demo_pystr demo_regex
    (Ok (PDict [("enabled", PBool true); ("rules", PList [PDict [("id", PStr "x");
           ("action", PStr "direct"); ("match", PDict [])]])]))) as (r & Hr & Hp);
    [discriminate|].
  exists r. split; [exact Hr|]. assert (lr_valid r = false) as Hv.
  { vm_compute in Hr. injection Hr as <-. reflexivity. }
  split; [exact Hv|]. rewrite Hv in Hp. destruct Hp as [-> _]. reflexivity.
Defined.
