(* ===== verification/Rules.v ===== *)
(** * Routing rules: documents and the in-process engine

    rules/models.py and rules/rule_engine.py.  [ipaddress] is the class [PyNet], [re]
    the class [PyRegex] of the application policy. *)
From stdpp Require Import base list strings gmap pretty sorting.
From Stdlib Require Import Ascii QArith.
From S2P Require Import Prelude PyData NodeGroups RouteChains AppPolicy.

(** [ipaddress.ip_address(ip) in ipaddress.ip_network(value, strict=False)];
    [None]: one of the two raises [ValueError]. *)
Class PyNet : Type := { ip_in_network : string → string → option bool }.

(** ** [int(text)]: surrounding white space, a sign, decimal digits with single
    underscores between them; more than 4300 digits are refused. *)
Definition digit_value (c : ascii) : option Z :=
  let n := N_of_ascii c in
  if ((48 <=? n) && (n <=? 57))%N then Some (Z.of_N n - 48)%Z else None.

(** [prev]: the previous character was a digit *)
Fixpoint digits_value (prev : bool) (acc : Z) (count : nat) (s : string) : option (Z * nat) :=
  match s with
  | "" => if prev then Some (acc, count) else None
  | String c s' =>
      match digit_value c with
      | Some d => digits_value true (acc * 10 + d)%Z (S count) s'
      | None => if Ascii.eqb c "_" && prev then digits_value false acc count s' else None
      end
  end.

Definition py_int (text : string) : option Z :=
  let s := strip text in
  let '(sign, digits) := match s with
                         | String "-" s' => ((-1)%Z, s')
                         | String "+" s' => (1%Z, s')
                         | _ => (1%Z, s)
                         end in
  match digits_value false 0 0 digits with
  | Some (n, count) => if (count <=? 4300)%nat then Some (sign * n)%Z else None
  | None => None
  end.

(** ** rules/models.py *)
Definition RULE_FIELDS : list string := ["id"; "action"; "conditions"; "enabled"].
Definition RULE_GROUP_FIELDS : list string := ["name"; "enabled"; "rules"; "priority"].
Definition ALLOWED_RULE_CONDITIONS : list string :=
  [ "domain"; "domain_suffix"; "domain_keyword"; "domain_regex"; "ip_cidr"; "port"; "port_range";
    "protocol"; "network"; "ruleset_remote"; "ruleset_builtin"; "process_name"; "process_path" ].
Definition SIMPLE_RULE_ACTIONS : list string :=
  ["direct"; "current_profile"; "auto_select"; "block"].
Definition DEFAULT_RULE_GROUPS : list string :=
  ["recommended"; "direct"; "proxy"; "block"; "custom"; "app"; "imported"].

(** [action] is [str(action)]; [chain_target] may raise [PersistentValidationError]. *)
Definition validate_rule_action (action : string) : res string :=
  let action := strip action in
  if str_in action SIMPLE_RULE_ACTIONS then Ok action
  else match group_target action with
       | Some _ => Ok action
       | None =>
           chain ← chain_target action;
           match chain with
           | Some _ => Ok action
           | None => raise ValueError ("unsupported rule action: '" +:+ action +:+ "'")
           end
       end.

Definition validate_group_name (name : string) : res string :=
  let name := strip name in
  if slug_match name then Ok name
  else raise ValueError
    "rule group name must be a lowercase slug (letters, digits, '-', '_', max 64 chars)".

Record Rule : Type := {
  r_id : string;
  r_action : string;
  r_conditions : pydict (list string);
  r_enabled : bool
}.

Record RuleGroup : Type := {
  rg_name : string;
  rg_enabled : bool;
  rg_rules : list Rule;
  rg_priority : Z
}.

(** [reject_unknown_keys(data, ...)] followed by [data["..."]], for a [data] that may
    not be a dict: strings and lists are iterated over by [set(data)] and then cannot be
    indexed by a string; other values are not iterable. *)
Definition mapping_arg (v : pyval) (allowed : list string) (object_name : string)
  : res (pydict pyval) :=
  match v with
  | PDict d => _ ← reject_unknown_keys d allowed object_name; Ok d
  | PStr s =>
      _ ← ensure (String.eqb s "") PersistentValidationError
            (object_name +:+ " contains unsupported fields");
      raise TypeError "string indices must be integers"
  | PList l =>
      let names := omap (fun x => match x with PStr s => Some s | _ => None end) l in
      _ ← ensure (negb (length names =? length l)%nat || forallb (fun s => str_in s allowed) names)
            PersistentValidationError (object_name +:+ " contains unsupported fields");
      raise TypeError "list indices must be integers or slices"
  | _ => raise TypeError "object is not iterable"
  end.

Section documents.
Context `{PyStr}.

(** The loop body over [conditions.items()] *)
Definition validate_condition (key : string) (value : pyval) : res (list string) :=
  _ ← ensure (str_in key ALLOWED_RULE_CONDITIONS) ValueError
        ("unsupported rule condition type: '" +:+ key +:+ "'");
  match value with
  | PList (x :: l) =>
      let entries := map (fun item => strip (py_str item)) (x :: l) in
      _ ← ensure (forallb truthy_str entries) ValueError
            ("rule condition '" +:+ key +:+ "' must not contain empty values");
      Ok entries
  | _ => raise ValueError ("rule condition '" +:+ key +:+ "' must be a non-empty list")
  end.

Definition validate_rule_conditions (conditions : pyval) : res (pydict (list string)) :=
  match conditions with
  | PDict items =>
      validated ← collect_items validate_condition items [];
      _ ← ensure (match validated with [] => false | _ => true end) ValueError
            "rule must define at least one condition";
      Ok validated
  | _ => raise ValueError "rule conditions must be an object"
  end.

(** [Rule(id, action, conditions, enabled)] *)
Definition Rule_post_init (id action : string) (conditions : pyval) (enabled : bool) : res Rule :=
  let id := strip id in
  _ ← ensure (truthy_str id) ValueError "rule id must not be empty";
  action ← validate_rule_action action;
  conditions ← validate_rule_conditions conditions;
  Ok {| r_id := id; r_action := action; r_conditions := conditions; r_enabled := enabled |}.

Definition conditions_val (c : pydict (list string)) : pyval :=
  PDict (map (fun kv => (kv.1, PList (map PStr kv.2))) c).

Definition Rule_to_dict (r : Rule) : pydict pyval :=
  [ ("id", PStr (r_id r)); ("action", PStr (r_action r));
    ("conditions", conditions_val (r_conditions r)); ("enabled", PBool (r_enabled r)) ].

Definition Rule_from_dict (v : pyval) : res Rule :=
  data ← mapping_arg v RULE_FIELDS "rule";
  id ← dict_item "id" data;
  action ← dict_item "action" data;
  enabled ← strict_bool (dict_get_or "enabled" (PBool true) data) "rule.enabled";
  Rule_post_init (py_str id) (py_str action) (dict_get_or "conditions" (PDict []) data) enabled.

(** [RuleGroup(name, enabled, rules, priority)] with rule objects *)
Definition RuleGroup_post_init (name : string) (enabled : bool) (rules : list Rule)
    (priority : Z) : res RuleGroup :=
  name ← validate_group_name name;
  _ ← ensure (negb (has_duplicates (map r_id rules))) ValueError
        "rule group must not contain duplicate rule ids";
  Ok {| rg_name := name; rg_enabled := enabled; rg_rules := rules; rg_priority := priority |}.

Definition RuleGroup_to_dict (g : RuleGroup) : pydict pyval :=
  [ ("name", PStr (rg_name g)); ("enabled", PBool (rg_enabled g));
    ("rules", PList (map (fun r => PDict (Rule_to_dict r)) (rg_rules g)));
    ("priority", PInt (rg_priority g)) ].

Definition RuleGroup_from_dict (data : pydict pyval) : res RuleGroup :=
  _ ← reject_unknown_keys data RULE_GROUP_FIELDS "rule group";
  items ← match dict_get_or "rules" (PList []) data with
          | PList l => Ok l
          | _ => raise ValueError "rule group rules must be a list"
          end;
  name ← dict_item "name" data;
  enabled ← strict_bool (dict_get_or "enabled" (PBool true) data) "rule_group.enabled";
  rules ← map_res Rule_from_dict items;
  priority ← strict_int (dict_get_or "priority" (PInt 100) data) "rule_group.priority";
  RuleGroup_post_init (py_str name) enabled rules priority.
End documents.

(** ** rules/rule_engine.py *)
Definition PRIORITY_TIER_ORDER : list string := ["block"; "custom"; "app"; "imported"; "recommended"].
Definition UNEVALUABLE_CONDITIONS : list string := ["ruleset_remote"; "ruleset_builtin"].

Record TrafficInfo : Type := {
  t_domain : option string;
  t_ip : option string;
  t_port : option Z;
  t_protocol : option string;
  t_network : option string;
  t_process_name : option string;
  t_process_path : option string
}.

Definition normalized_domain (d : string) : string := rstrip_dots (lower (strip d)).

Definition TrafficInfo_post_init (t : TrafficInfo) : TrafficInfo := {|
  t_domain := match t_domain t with
              | Some d => let n := normalized_domain d in if truthy_str n then Some n else None
              | None => None
              end;
  t_ip := t_ip t; t_port := t_port t; t_protocol := t_protocol t; t_network := t_network t;
  t_process_name := t_process_name t; t_process_path := t_process_path t |}.

Record RuleMatch : Type := {
  rm_action : string;
  rm_group_name : option string;
  rm_rule_id : option string
}.

Definition match_domain (value domain : string) : bool :=
  String.eqb domain (normalized_domain value).

Definition match_domain_suffix (value domain : string) : bool :=
  let suffix := normalized_domain value in
  let suffix := if startswith "." suffix then str_drop 1 suffix else suffix in
  truthy_str suffix && (String.eqb domain suffix || endswith ("." +:+ suffix) domain).

Definition match_domain_keyword (value domain : string) : bool :=
  contains (lower (strip value)) domain.

Definition match_port (value : string) (port : Z) : bool :=
  match py_int value with Some n => (n =? port)%Z | None => false end.

Definition match_port_range (value : string) (port : Z) : bool :=
  let '(lhs, sep, rhs) := partition_on ":" value in
  if negb sep then match_port value port
  else match (if truthy_str lhs then py_int lhs else Some 0%Z),
             (if truthy_str rhs then py_int rhs else Some 65535%Z) with
       | Some lower, Some upper => (lower <=? port)%Z && (port <=? upper)%Z
       | _, _ => false
       end.

Definition match_exact_ci (value candidate : string) : bool :=
  String.eqb (lower (strip value)) (lower (strip candidate)).

Definition match_exact (value candidate : string) : bool := String.eqb (strip value) candidate.

Section engine.
Context `{PyRegex, PyNet}.

Definition match_domain_regex (value domain : string) : bool :=
  regex_valid value && regex_search value domain.

Definition match_ip_cidr (value ip : string) : bool :=
  match ip_in_network ip value with Some b => b | None => false end.

(** [any(matcher(value, field) for value in values)], false for a missing field *)
Definition any_value {A} (field : option A) (matcher : string → A → bool) (values : list string)
  : bool :=
  match field with Some x => existsb (fun v => matcher v x) values | None => false end.

(** The table [_MATCHERS] *)
Definition MATCHERS (t : TrafficInfo) : pydict (list string → bool) :=
  [ ("domain", any_value (t_domain t) match_domain);
    ("domain_suffix", any_value (t_domain t) match_domain_suffix);
    ("domain_keyword", any_value (t_domain t) match_domain_keyword);
    ("domain_regex", any_value (t_domain t) match_domain_regex);
    ("ip_cidr", any_value (t_ip t) match_ip_cidr);
    ("port", any_value (t_port t) match_port);
    ("port_range", any_value (t_port t) match_port_range);
    ("protocol", any_value (t_protocol t) match_exact_ci);
    ("network", any_value (t_network t) match_exact_ci);
    ("process_name", any_value (t_process_name t) match_exact);
    ("process_path", any_value (t_process_path t) match_exact) ].

Definition condition_matches (key : string) (values : list string) (t : TrafficInfo) : res bool :=
  if str_in key UNEVALUABLE_CONDITIONS then Ok false
  else match dict_get key (MATCHERS t) with
       | None => raise ValueError ("no matcher registered for rule condition: '" +:+ key +:+ "'")
       | Some m => Ok (m values)
       end.

(** [all(...)]: stops at the first condition that does not match *)
Fixpoint all_conditions (conditions : pydict (list string)) (t : TrafficInfo) : res bool :=
  match conditions with
  | [] => Ok true
  | (key, values) :: rest =>
      b ← condition_matches key values t;
      if b : bool then all_conditions rest t else Ok false
  end.

Definition rule_matches (r : Rule) (t : TrafficInfo) : res bool :=
  match r_conditions r with
  | [] => Ok false
  | conditions => all_conditions conditions t
  end.

(** [(a.priority, a.name) < (b.priority, b.name)] *)
Definition group_lt (a b : RuleGroup) : bool :=
  if (rg_priority a =? rg_priority b)%Z then String.ltb (rg_name a) (rg_name b)
  else (rg_priority a <? rg_priority b)%Z.

Definition is_imported (g : RuleGroup) : bool :=
  String.eqb (rg_name g) "imported" || startswith "imported-" (rg_name g).

(** [tiers[name].append(group)] *)
Definition tier_append (name : string) (g : RuleGroup) (tiers : pydict (list RuleGroup))
  : pydict (list RuleGroup) := dict_set name (dict_get_or name [] tiers ++ [g]) tiers.

Definition tier_step (tiers : pydict (list RuleGroup)) (g : RuleGroup) : pydict (list RuleGroup) :=
  if is_imported g then tier_append "imported" g tiers
  else if dict_has (rg_name g) tiers then tier_append (rg_name g) g tiers
  else tiers.

Definition group_by_tier (groups : list RuleGroup) : pydict (list RuleGroup) :=
  let tiers := foldl tier_step (map (fun n => (n, [])) PRIORITY_TIER_ORDER) groups in
  dict_set "imported" (py_sorted group_lt (dict_get_or "imported" [] tiers)) tiers.

Record RuleEngine : Type := { final_policy : string }.

Definition RuleEngine_post_init (policy : string) : res RuleEngine :=
  _ ← ensure (str_in policy SIMPLE_RULE_ACTIONS) ValueError
        ("unsupported final_policy: '" +:+ policy +:+ "'");
  Ok {| final_policy := policy |}.

(** The loops of [evaluate], innermost first *)
Fixpoint first_rule (t : TrafficInfo) (g : RuleGroup) (rules : list Rule) : res (option RuleMatch) :=
  match rules with
  | [] => Ok None
  | rule :: rest =>
      if negb (r_enabled rule) then first_rule t g rest
      else
        b ← rule_matches rule t;
        if b : bool then Ok (Some {| rm_action := r_action rule; rm_group_name := Some (rg_name g);
                                     rm_rule_id := Some (r_id rule) |})
        else first_rule t g rest
  end.

Fixpoint first_group (t : TrafficInfo) (groups : list RuleGroup) : res (option RuleMatch) :=
  match groups with
  | [] => Ok None
  | g :: rest =>
      if negb (rg_enabled g) then first_group t rest
      else
        m ← first_rule t g (rg_rules g);
        match m with Some m => Ok (Some m) | None => first_group t rest end
  end.

Fixpoint first_tier (t : TrafficInfo) (tiers : pydict (list RuleGroup)) (order : list string)
  : res (option RuleMatch) :=
  match order with
  | [] => Ok None
  | tier :: rest =>
      groups ← dict_item tier tiers;
      m ← first_group t groups;
      match m with Some m => Ok (Some m) | None => first_tier t tiers rest end
  end.

Definition evaluate (e : RuleEngine) (t : TrafficInfo) (groups : list RuleGroup) : res RuleMatch :=
  m ← first_tier t (group_by_tier groups) PRIORITY_TIER_ORDER;
  Ok match m with
     | Some m => m
     | None => {| rm_action := final_policy e; rm_group_name := None; rm_rule_id := None |}
     end.
End engine.

(** ** What the engine computes *)

(** The groups of a tier, in the order they are tried *)
Definition tier_groups (tier : string) (groups : list RuleGroup) : list RuleGroup :=
  if String.eqb tier "imported" then py_sorted group_lt (List.filter is_imported groups)
  else List.filter (fun g => String.eqb (rg_name g) tier) groups.

(** All enabled rules of enabled groups, in the order they are tried *)
Definition effective_rules (groups : list RuleGroup) : list (RuleGroup * Rule) :=
  flat_map (fun tier =>
    flat_map (fun g => map (pair g) (List.filter r_enabled (rg_rules g)))
      (List.filter rg_enabled (tier_groups tier groups)))
    PRIORITY_TIER_ORDER.

(** A rule whose condition keys are all allowed, as the constructor guarantees *)
Definition rule_keys_ok (r : Rule) : Prop :=
  Forall (fun kv => kv.1 ∈ ALLOWED_RULE_CONDITIONS) (r_conditions r).

Definition groups_ok (groups : list RuleGroup) : Prop :=
  Forall (fun g => Forall rule_keys_ok (rg_rules g)) groups.

Lemma tier_append_get name g tiers n :
  dict_get n (tier_append name g tiers)
  = if String.eqb n name then Some (dict_get_or name [] tiers ++ [g]) else dict_get n tiers.
Proof. apply dict_get_set. Qed.

(** The groups a tier collects, before sorting *)
Definition in_tier (n : string) (g : RuleGroup) : bool :=
  if is_imported g then String.eqb n "imported" else String.eqb (rg_name g) n.

Lemma tier_step_get tiers g n l :
  dict_get n tiers = Some l → is_Some (dict_get "imported" tiers) →
  dict_get n (tier_step tiers g) = Some (l ++ if in_tier n g then [g] else []).
Proof.
  intros Hn [li Hi]. unfold tier_step, in_tier. destruct (is_imported g).
  { rewrite tier_append_get. destruct (String.eqb_spec n "imported") as [->|].
    - rewrite Hi in Hn. injection Hn as <-. unfold dict_get_or. by rewrite Hi.
    - by rewrite app_nil_r. }
  unfold dict_has. destruct (dict_get (rg_name g) tiers) as [lg|] eqn:Eg.
  - rewrite tier_append_get, String.eqb_sym.
    destruct (String.eqb_spec (rg_name g) n) as [<-|]; [|by rewrite app_nil_r].
    unfold dict_get_or. rewrite Eg in Hn |- *. by injection Hn as <-.
  - destruct (String.eqb_spec (rg_name g) n) as [<-|]; [congruence | by rewrite app_nil_r].
Qed.

Lemma tier_fold_get groups tiers n l :
  dict_get n tiers = Some l → is_Some (dict_get "imported" tiers) →
  dict_get n (foldl tier_step tiers groups) = Some (l ++ List.filter (in_tier n) groups).
Proof.
  revert tiers l. induction groups as [|g groups IH]; intros tiers l Hn Hi; cbn.
  { by rewrite app_nil_r. }
  pose proof (tier_step_get _ g _ _ Hn Hi) as Hn'. destruct Hi as [li Hi].
  rewrite (IH _ _ Hn').
  - rewrite <- app_assoc. by destruct (in_tier n g).
  - rewrite (tier_step_get _ g _ _ Hi); by eexists.
Qed.

Lemma in_tier_other n g :
  n ∈ PRIORITY_TIER_ORDER → n ≠ "imported" → in_tier n g = String.eqb (rg_name g) n.
Proof.
  intros Hn Hi. unfold in_tier. destruct (is_imported g) eqn:E; [|done].
  rewrite (proj2 (String.eqb_neq _ _) Hi). symmetry. apply String.eqb_neq. intros <-.
  unfold is_imported in E. apply orb_prop in E as [E%String.eqb_eq|E]; [done|].
  revert E. unfold PRIORITY_TIER_ORDER in Hn.
  repeat (apply elem_of_cons in Hn as [->|Hn]; [done|]). by apply not_elem_of_nil in Hn.
Qed.

Lemma in_tier_imported g : in_tier "imported" g = is_imported g.
Proof.
  unfold in_tier. destruct (is_imported g) eqn:E; [done|].
  unfold is_imported in E. by apply orb_false_elim in E as [-> _].
Qed.

Lemma group_by_tier_get tier groups :
  tier ∈ PRIORITY_TIER_ORDER → dict_get tier (group_by_tier groups) = Some (tier_groups tier groups).
Proof.
  intros Ht. unfold group_by_tier, tier_groups. cbn zeta.
  set (start := map (fun n => (n, [])) PRIORITY_TIER_ORDER : pydict (list RuleGroup)).
  assert (∀ n, n ∈ PRIORITY_TIER_ORDER → dict_get n start = Some []) as Hs.
  { intros n Hn. unfold PRIORITY_TIER_ORDER in Hn.
    repeat (apply elem_of_cons in Hn as [->|Hn]; [done|]). by apply not_elem_of_nil in Hn. }
  rewrite dict_get_set. destruct (String.eqb_spec tier "imported") as [->|Hne].
  - unfold dict_get_or. rewrite (tier_fold_get _ _ _ [] (Hs _ Ht)) by by eexists.
    cbn [app]. do 2 f_equal. apply filter_ext. apply in_tier_imported.
  - rewrite (tier_fold_get _ _ _ [] (Hs _ Ht)) by by eexists. cbn [app]. f_equal.
    apply filter_ext. intros g. by apply in_tier_other.
Qed.

Section engine_spec.
Context `{PyRegex, PyNet}.

(** A condition holds of the traffic: its key has a matcher, and one of its values
    matches the traffic's field. *)
Definition condition_holds (t : TrafficInfo) (kv : string * list string) : bool :=
  negb (str_in kv.1 UNEVALUABLE_CONDITIONS)
  && match dict_get kv.1 (MATCHERS t) with Some m => m kv.2 | None => false end.

Definition rule_holds (t : TrafficInfo) (r : Rule) : bool :=
  match r_conditions r with [] => false | cs => forallb (condition_holds t) cs end.

Definition found_match (e : RuleEngine) (o : option (RuleGroup * Rule)) : RuleMatch :=
  match o with
  | Some (g, r) => {| rm_action := r_action r; rm_group_name := Some (rg_name g);
                      rm_rule_id := Some (r_id r) |}
  | None => {| rm_action := final_policy e; rm_group_name := None; rm_rule_id := None |}
  end.

(** Every allowed key is evaluable or registered: the module's own start-up check. *)
Lemma allowed_keys_registered t k :
  k ∈ ALLOWED_RULE_CONDITIONS →
  str_in k UNEVALUABLE_CONDITIONS = true ∨ is_Some (dict_get k (MATCHERS t)).
Proof.
  intros Hk. unfold ALLOWED_RULE_CONDITIONS in Hk.
  repeat (apply elem_of_cons in Hk as [->|Hk];
    [first [by left | right; by eexists]|]). by apply not_elem_of_nil in Hk.
Qed.

Lemma condition_matches_holds t k vs :
  k ∈ ALLOWED_RULE_CONDITIONS → condition_matches k vs t = Ok (condition_holds t (k, vs)).
Proof.
  intros Hk. unfold condition_matches, condition_holds. cbn [fst snd].
  destruct (allowed_keys_registered t k Hk) as [->|[m Hm]]; [done|].
  destruct (str_in k UNEVALUABLE_CONDITIONS); [done|]. by rewrite Hm.
Qed.

Lemma rule_matches_holds t r : rule_keys_ok r → rule_matches r t = Ok (rule_holds t r).
Proof.
  unfold rule_keys_ok, rule_matches, rule_holds. intros Hk.
  assert (all_conditions (r_conditions r) t = Ok (forallb (condition_holds t) (r_conditions r))) as Ha.
  { induction Hk as [|[k vs] cs Hk _ IH]; [done|]. cbn [all_conditions forallb].
    rewrite condition_matches_holds by done. cbn [mbind res_bind].
    by destruct (condition_holds t (k, vs)). }
  by destruct (r_conditions r).
Qed.

Abbreviation search t l := (List.find (fun gr : RuleGroup * Rule => rule_holds t gr.2) l).
Abbreviation as_match o :=
  (match o with
   | Some (g, r) => Some {| rm_action := r_action r; rm_group_name := Some (rg_name g);
                            rm_rule_id := Some (r_id r) |}
   | None => None
   end).

Lemma first_rule_spec t g rules :
  Forall rule_keys_ok rules →
  first_rule t g rules = Ok (as_match (search t (map (pair g) (List.filter r_enabled rules)))).
Proof.
  induction 1 as [|r rules Hr _ IH]; cbn; [done|]. destruct (r_enabled r); cbn; [|done].
  rewrite rule_matches_holds by done. cbn. by destruct (rule_holds t r).
Qed.

Lemma first_group_spec t groups :
  groups_ok groups →
  first_group t groups = Ok (as_match (search t
    (flat_map (fun g => map (pair g) (List.filter r_enabled (rg_rules g)))
       (List.filter rg_enabled groups)))).
Proof.
  induction 1 as [|g groups Hg _ IH]; cbn; [done|]. destruct (rg_enabled g); cbn; [|done].
  rewrite first_rule_spec by done. cbn. rewrite find_app.
  by destruct (search t (map (pair g) _)) as [[??]|].
Qed.

Lemma tier_groups_ok tier groups : groups_ok groups → groups_ok (tier_groups tier groups).
Proof.
  unfold groups_ok, tier_groups. rewrite !Forall_forall. intros Hg g Hin. apply Hg.
  destruct (String.eqb tier "imported").
  - rewrite py_sorted_perm in Hin. by apply List_filter_elem_of in Hin as [? _].
  - by apply List_filter_elem_of in Hin as [? _].
Qed.

Lemma first_tier_spec t groups order :
  groups_ok groups → (∀ n, n ∈ order → n ∈ PRIORITY_TIER_ORDER) →
  first_tier t (group_by_tier groups) order = Ok (as_match (search t (flat_map (fun tier =>
    flat_map (fun g => map (pair g) (List.filter r_enabled (rg_rules g)))
      (List.filter rg_enabled (tier_groups tier groups))) order))).
Proof.
  intros Hg. induction order as [|tier order IH]; intros Ho; cbn [first_tier flat_map]; [done|].
  unfold dict_item. rewrite group_by_tier_get by apply Ho, list_elem_of_here. cbn [mbind res_bind].
  rewrite first_group_spec by by apply tier_groups_ok. cbn [mbind res_bind]. rewrite find_app.
  destruct (search t (flat_map _ (List.filter rg_enabled _))) as [[??]|]; [done|].
  apply IH. intros n Hn. by apply Ho, list_elem_of_further.
Qed.

Lemma evaluate_spec e t groups :
  groups_ok groups → evaluate e t groups = Ok (found_match e (search t (effective_rules groups))).
Proof.
  intros Hg. unfold evaluate. rewrite first_tier_spec by done. cbn [mbind res_bind].
  unfold effective_rules. by destruct (search t _) as [[??]|].
Qed.
End engine_spec.

(** the engine is first-match over one total order.  For validated rule groups,
    evaluation never raises, and it returns the first enabled rule of an enabled group
    all of whose conditions hold, in the order block, custom, app, imported (by
    priority, then name), recommended and within a group in stored order; when there
    is none it returns the final policy. *)
Theorem rule_engine_first_match `{PyRegex, PyNet} e t groups (Hg : groups_ok groups) :
  evaluate e t groups
  = Ok match List.find (fun gr => rule_holds t gr.2) (effective_rules groups) with
       | Some (g, r) => {| rm_action := r_action r; rm_group_name := Some (rg_name g);
                           rm_rule_id := Some (r_id r) |}
       | None => {| rm_action := final_policy e; rm_group_name := None; rm_rule_id := None |}
       end.
Proof. by rewrite evaluate_spec. Qed.

(** A group that belongs to some tier *)
Definition ranked (g : RuleGroup) : bool := is_imported g || str_in (rg_name g) PRIORITY_TIER_ORDER.

Lemma filter_filter_sub {A} (f g : A → bool) l :
  (∀ x, f x = true → g x = true) → List.filter f (List.filter g l) = List.filter f l.
Proof.
  intros H. induction l as [|x l IH]; cbn; [done|]. destruct (g x) eqn:Eg; cbn.
  - by rewrite IH.
  - destruct (f x) eqn:Ef; [by rewrite (H _ Ef) in Eg | done].
Qed.

Lemma tier_groups_ranked tier groups :
  tier ∈ PRIORITY_TIER_ORDER → tier_groups tier (List.filter ranked groups) = tier_groups tier groups.
Proof.
  intros Ht. unfold tier_groups. rewrite !filter_filter_sub; [done| |].
  - intros g <-%String.eqb_eq. unfold ranked. by rewrite (proj2 (str_in_spec _ _) Ht), orb_true_r.
  - intros g Hg. unfold ranked. by rewrite Hg.
Qed.

Lemma first_tier_ranked `{PyRegex, PyNet} t groups order :
  (∀ n, n ∈ order → n ∈ PRIORITY_TIER_ORDER) →
  first_tier t (group_by_tier (List.filter ranked groups)) order
  = first_tier t (group_by_tier groups) order.
Proof.
  induction order as [|tier order IH]; intros Ho; cbn [first_tier]; [done|].
  pose proof (Ho tier (list_elem_of_here _ _)) as Ht. unfold dict_item.
  rewrite !group_by_tier_get, tier_groups_ranked by done. cbn [mbind res_bind].
  rewrite IH; [done|]. intros n Hn. by apply Ho, list_elem_of_further.
Qed.

(** a group outside the priority tiers never takes part in a decision: evaluation
    is the same with all such groups removed.  The default groups "direct" and "proxy"
    are such groups, so their rules have no effect. *)
Theorem unranked_groups_ignored `{PyRegex, PyNet} e t groups :
  evaluate e t groups = evaluate e t (List.filter ranked groups)
  ∧ List.filter (fun n => negb (ranked {| rg_name := n; rg_enabled := true; rg_rules := [];
                                          rg_priority := 100 |})) DEFAULT_RULE_GROUPS
    = ["direct"; "proxy"].
Proof.
  split; [|done]. unfold evaluate. by rewrite first_tier_ranked.
Qed.

(** ** Documents *)
Definition Rule_wf (r : Rule) : Prop :=
  trimmed (r_id r) ∧ validate_rule_action (r_action r) = Ok (r_action r)
  ∧ r_conditions r ≠ [] ∧ NoDup (map fst (r_conditions r))
  ∧ Forall (fun kv => kv.1 ∈ ALLOWED_RULE_CONDITIONS ∧ kv.2 ≠ [] ∧ Forall trimmed kv.2)
      (r_conditions r).

Definition RuleGroup_wf (g : RuleGroup) : Prop :=
  slug_core (rg_name g) = true ∧ Forall Rule_wf (rg_rules g) ∧ NoDup (map r_id (rg_rules g)).

Lemma Rule_wf_keys r : Rule_wf r → rule_keys_ok r.
Proof. intros (_ & _ & _ & _ & Hf). eapply Forall_impl; [exact Hf|]. by intros ? [? _]. Qed.

Lemma validate_rule_action_idem a b :
  validate_rule_action a = Ok b → validate_rule_action b = Ok b.
Proof.
  unfold validate_rule_action. cbn zeta. assert (strip (strip a) = strip a) as Hs by apply strip_idem.
  destruct (str_in (strip a) SIMPLE_RULE_ACTIONS) eqn:E1; [intros [= <-]; by rewrite Hs, E1|].
  destruct (group_target (strip a)) eqn:E2; [intros [= <-]; by rewrite Hs, E1, E2|].
  destruct (chain_target (strip a)) as [[c|]|] eqn:E3; cbn [mbind res_bind]; try done.
  intros [= <-]. by rewrite Hs, E1, E2, E3.
Qed.

Section rule_documents.
Context `{PyStr}.

Lemma validate_condition_ok k v l :
  validate_condition k v = Ok l → k ∈ ALLOWED_RULE_CONDITIONS ∧ l ≠ [] ∧ Forall trimmed l.
Proof.
  unfold validate_condition. destruct (str_in k ALLOWED_RULE_CONDITIONS) eqn:Ek;
    cbn [ensure mbind res_bind]; [|done].
  apply str_in_spec in Ek. destruct v as [| | | | |[|x xs]|]; try done.
  cbn zeta.
  destruct (forallb truthy_str _) eqn:Ef; cbn [ensure mbind res_bind]; [|done].
  intros [= <-]. split; [done|]. split; [done|].
  change (Forall trimmed (map (fun item => strip (py_str item)) (x :: xs))).
  rewrite forallb_forall in Ef. apply Forall_forall. intros s Hs.
  pose proof (Ef s (proj1 (list_elem_of_In _ _) Hs)) as Ht.
  apply list_elem_of_fmap in Hs as (y & -> & _).
  split; [apply strip_idem | by apply truthy_str_ne].
Qed.

Lemma validate_condition_roundtrip k l :
  k ∈ ALLOWED_RULE_CONDITIONS → l ≠ [] → Forall trimmed l →
  validate_condition k (PList (map PStr l)) = Ok l.
Proof.
  intros Hk Hl Ht. unfold validate_condition. rewrite (proj2 (str_in_spec _ _) Hk).
  cbn -[ALLOWED_RULE_CONDITIONS]. destruct l as [|s l]; [done|].
  cbn -[truthy_str strip]. rewrite map_map. cbn -[truthy_str strip].
  assert (map (fun x => strip x) l = l ∧ forallb truthy_str l = true ∧ trimmed s) as (-> & -> & Hs).
  { apply Forall_cons in Ht as [Hs Ht]. repeat split; try apply Hs.
    - rewrite <- (map_id l) at 2. apply map_ext_in. intros y Hy%list_elem_of_In.
      rewrite Forall_forall in Ht. by apply Ht.
    - apply forallb_forall. intros y Hy%list_elem_of_In. rewrite Forall_forall in Ht.
      by apply truthy_str_ne, Ht. }
  destruct Hs as [Hs1 Hs2]. by rewrite Hs1, (proj2 (truthy_str_ne s) Hs2).
Qed.

Lemma validate_rule_conditions_ok v c :
  validate_rule_conditions v = Ok c →
  c ≠ [] ∧ NoDup (map fst c)
  ∧ Forall (fun kv => kv.1 ∈ ALLOWED_RULE_CONDITIONS ∧ kv.2 ≠ [] ∧ Forall trimmed kv.2) c.
Proof.
  destruct v as [| | | | | |items]; try done. unfold validate_rule_conditions.
  destruct (collect_items _ items []) as [r|] eqn:Ev; cbn -[ALLOWED_RULE_CONDITIONS]; [|done].
  destruct r as [|kv r]; cbn -[ALLOWED_RULE_CONDITIONS]; [done|]. intros [= <-]. split; [done|].
  eapply (collect_items_ok validate_condition _ items []); [|apply NoDup_nil_2|constructor|exact Ev].
  apply Forall_forall. intros [k x] _ y. apply validate_condition_ok.
Qed.

Lemma Rule_from_dict_wf v r : Rule_from_dict v = Ok r → Rule_wf r.
Proof.
  unfold Rule_from_dict, Rule_post_init. cbn zeta. intros Hr.
  destruct (mapping_arg v _ _) as [d|]; cbn [mbind res_bind] in Hr; [|done].
  destruct (dict_item "id" d) as [i|]; cbn [mbind res_bind] in Hr; [|done].
  destruct (dict_item "action" d) as [a|]; cbn [mbind res_bind] in Hr; [|done].
  destruct (strict_bool _ _) as [en|]; cbn [mbind res_bind] in Hr; [|done].
  destruct (truthy_str (strip (py_str i))) eqn:Et; cbn [mbind res_bind ensure] in Hr; [|done].
  destruct (validate_rule_action _) as [act|] eqn:Ea; cbn [mbind res_bind] in Hr; [|done].
  destruct (validate_rule_conditions _) as [c|] eqn:Ec; cbn [mbind res_bind] in Hr; [|done].
  injection Hr as <-. split; [split; [apply strip_idem | by apply truthy_str_ne]|].
  split; [by eapply validate_rule_action_idem|]. by eapply validate_rule_conditions_ok.
Qed.

Lemma Rule_roundtrip r : Rule_wf r → Rule_from_dict (PDict (Rule_to_dict r)) = Ok r.
Proof.
  destruct r as [i a c en]. intros ([Hi1 Hi2] & Ha & Hne & Hn & Hf).
  cbn [r_id r_action r_conditions] in Hi1, Hi2, Ha, Hne, Hn, Hf. unfold Rule_from_dict.
  replace (mapping_arg _ _ _) with (Ok (Rule_to_dict
    {| r_id := i; r_action := a; r_conditions := c; r_enabled := en |})) by done.
  cbn [mbind res_bind]. unfold Rule_to_dict, dict_item, dict_get_or. cbn [dict_get r_id r_action r_conditions r_enabled].
  cbn -[Rule_post_init conditions_val]. unfold Rule_post_init, conditions_val.
  rewrite Hi1, (proj2 (truthy_str_ne i) Hi2), Ha. cbn [mbind res_bind ensure validate_rule_conditions].
  rewrite (collect_items_roundtrip _ (fun l => PList (map PStr l)) c []); [| done |].
  - cbn. by destruct c.
  - eapply Forall_impl; [exact Hf|]. intros [k l] (H1 & H2 & H3). by apply validate_condition_roundtrip.
Qed.

Lemma validate_group_name_ok n s : validate_group_name n = Ok s → slug_core s = true.
Proof.
  unfold validate_group_name. cbn zeta. destruct (slug_match (strip n)) eqn:E; [|done].
  intros [= <-]. by rewrite slug_match_strip in E.
Qed.

Lemma validate_group_name_slug s : slug_core s = true → validate_group_name s = Ok s.
Proof.
  intros Hs. unfold validate_group_name. cbn zeta. by rewrite slug_match_strip, slug_core_strip, Hs.
Qed.

Lemma RuleGroup_from_dict_wf d g : RuleGroup_from_dict d = Ok g → RuleGroup_wf g.
Proof.
  unfold RuleGroup_from_dict, RuleGroup_post_init. intros Hg.
  destruct (reject_unknown_keys _ _ _); cbn [mbind res_bind] in Hg; [|done].
  destruct (match dict_get_or _ _ _ with PList l => _ | _ => _ end) as [items|];
    cbn [mbind res_bind] in Hg; [|done].
  destruct (dict_item "name" d) as [n|]; cbn [mbind res_bind] in Hg; [|done].
  destruct (strict_bool _ _) as [en|]; cbn [mbind res_bind] in Hg; [|done].
  destruct (map_res Rule_from_dict items) as [rules|] eqn:Er; cbn [mbind res_bind] in Hg; [|done].
  destruct (strict_int _ _) as [pr|]; cbn [mbind res_bind] in Hg; [|done].
  destruct (validate_group_name _) as [name|] eqn:En; cbn [mbind res_bind] in Hg; [|done].
  destruct (negb (has_duplicates _)) eqn:Ed; cbn [mbind res_bind ensure] in Hg; [|done].
  injection Hg as <-. split; [by eapply validate_group_name_ok|].
  split; [|by apply has_duplicates_false].
  eapply map_res_Forall; [|exact Er]. intros ??. apply Rule_from_dict_wf.
Qed.

Lemma RuleGroup_roundtrip g : RuleGroup_wf g → RuleGroup_from_dict (RuleGroup_to_dict g) = Ok g.
Proof.
  destruct g as [n en rules pr]. intros (Hn & Hr & Hd). cbn [rg_name rg_rules] in Hn, Hr, Hd.
  unfold RuleGroup_from_dict. replace (reject_unknown_keys _ _ _) with (@Ok unit tt) by done.
  cbn -[Rule_from_dict RuleGroup_post_init Rule_to_dict].
  rewrite (map_res_roundtrip _ _ Rule_wf); [| intros a; apply Rule_roundtrip | done].
  cbn [mbind res_bind]. unfold RuleGroup_post_init. rewrite validate_group_name_slug by done.
  cbn [mbind res_bind]. by rewrite (proj2 (has_duplicates_false _) Hd).
Qed.
End rule_documents.

(** a rule group that loads is well formed: slug name, distinct non-blank rule ids,
    at least one condition per rule, only known condition keys, no blank value, a
    valid action; it survives serialisation unchanged, and the engine evaluates it
    without raising whatever the traffic. *)
Theorem rule_group_roundtrip `{PyStr, PyRegex, PyNet} d g (Hg : RuleGroup_from_dict d = Ok g) :
  RuleGroup_wf g ∧ RuleGroup_from_dict (RuleGroup_to_dict g) = Ok g
  ∧ ∀ e t, ∃ m, evaluate e t [g] = Ok m.
Proof.
  apply RuleGroup_from_dict_wf in Hg. split; [done|]. split; [by apply RuleGroup_roundtrip|].
  intros e t. eexists. apply evaluate_spec. constructor; [|constructor].
  destruct Hg as (_ & Hr & _). eapply Forall_impl; [exact Hr|]. apply Rule_wf_keys.
Qed.

(** ** Domain suffixes respect label boundaries *)
Definition labels (s : string) : list string := split_on "." s.

Lemma endswith_spec x s : endswith x s = true ↔ ∃ a, s = a +:+ x.
Proof.
  induction s as [|c s IH]; cbn [endswith].
  - rewrite orb_false_r, String.eqb_eq. split; [intros ->; by exists ""|].
    intros [[|c a] H]; [done | discriminate H].
  - rewrite orb_true_iff, String.eqb_eq, IH. split.
    + intros [<-|[a ->]]; [by exists "" | by exists (String c a)].
    + intros [[|c' a] H]; [by left|]. injection H as <- ->. right. by exists a.
Qed.

Lemma split_on_nonempty sep s : split_on sep s ≠ [].
Proof. destruct s as [|c s]; cbn; [done|]. destruct (Ascii.eqb c sep); [done|]. by destruct (split_on sep s). Qed.

Lemma labels_app a b : labels (a +:+ String "." b) = labels a ++ labels b.
Proof.
  induction a as [|c a IH]; [done|].
  change (labels (String c (a +:+ String "." b)) = labels (String c a) ++ labels b).
  unfold labels in *. cbn [split_on]. rewrite IH. destruct (Ascii.eqb c "."); [done|].
  pose proof (split_on_nonempty "." a). by destruct (split_on "." a).
Qed.

Lemma concat_cons x l : l ≠ [] → String.concat "." (x :: l) = x +:+ String "." (String.concat "." l).
Proof. by destruct l. Qed.

Lemma app_string_assoc (a b c : string) : (a +:+ b) +:+ c = a +:+ (b +:+ c).
Proof. induction a as [|x a IH]; [done|]. exact (f_equal (String x) IH). Qed.

Lemma concat_labels s : String.concat "." (labels s) = s.
Proof.
  induction s as [|c s IH]; [done|]. unfold labels in *. cbn [split_on].
  pose proof (split_on_nonempty "." s) as Hn. destruct (Ascii.eqb_spec c ".") as [->|].
  - rewrite concat_cons by done. by rewrite IH.
  - destruct (split_on "." s) as [|w [|w' ws]]; [done| |]; cbn in IH |- *; by rewrite <- IH.
Qed.

Lemma concat_app k l :
  k ≠ [] → l ≠ [] →
  String.concat "." (k ++ l) = String.concat "." k +:+ String "." (String.concat "." l).
Proof.
  intros Hk Hl. induction k as [|x k IH]; [done|]. destruct k as [|y k].
  - by apply concat_cons.
  - cbn [app]. rewrite (concat_cons x (y :: k ++ l)), (concat_cons x (y :: k)) by done.
    cbn [app] in IH. by rewrite IH, app_string_assoc.
Qed.

Lemma suffix_labels x d :
  (d = x ∨ ∃ a, d = a +:+ String "." x) ↔ ∃ k, labels d = k ++ labels x.
Proof.
  split.
  - intros [->|[a ->]]; [by exists []|]. exists (labels a). apply labels_app.
  - intros [k Hk]. pose proof (f_equal (String.concat ".") Hk) as H. rewrite concat_labels in H.
    destruct k as [|w k]; [left; cbn [app] in H; by rewrite concat_labels in H|].
    right. rewrite concat_app, concat_labels in H; [by eexists | done | apply split_on_nonempty].
Qed.

(** a [domain_suffix] value matches a domain exactly when the labels of the
    normalised value (lower case, no surrounding blanks, no trailing dots, one leading
    dot dropped) are the last labels of the domain: "example.com" matches
    "a.example.com" and never "badexample.com". *)
Theorem domain_suffix_label_boundary value domain :
  let suffix := let s := normalized_domain value in
                if startswith "." s then str_drop 1 s else s in
  match_domain_suffix value domain = true
  ↔ suffix ≠ "" ∧ ∃ prefix, labels domain = prefix ++ labels suffix.
Proof.
  cbn zeta. unfold match_domain_suffix. cbn zeta. rewrite andb_true_iff, truthy_str_ne.
  rewrite orb_true_iff, String.eqb_eq, endswith_spec, <- suffix_labels. done.
Qed.

(** ** Concrete rules *)
Definition demo_net : PyNet := {| ip_in_network := fun _ _ => None |}.

Definition demo_rule (i action key value : string) : Rule :=
  {| r_id := i; r_action := action; r_conditions := [(key, [value])]; r_enabled := true |}.

Definition demo_rule_groups : list RuleGroup :=
  [ {| rg_name := "recommended"; rg_enabled := true; rg_priority := 100;
       rg_rules := [demo_rule "r1" "direct" "domain_suffix" "example.com"] |};
    {| rg_name := "imported-2"; rg_enabled := true; rg_priority := 100;
       rg_rules := [demo_rule "i2" "block" "port_range" "1000:"] |};
    {| rg_name := "imported-1"; rg_enabled := true; rg_priority := 100;
       rg_rules := [demo_rule "i1" "chain:exit" "port_range" "1000:"] |} ].

Definition demo_traffic : TrafficInfo := TrafficInfo_post_init {|
  t_domain := Some "A.Example.com."; t_ip := None; t_port := Some 8443%Z; t_protocol := None;
  t_network := None; t_process_name := None; t_process_path := None |}.

Lemma rule_engine_first_match_witness :
  @evaluate demo_regex demo_net {| final_policy := "current_profile" |} demo_traffic demo_rule_groups
  = Ok {| rm_action := "chain:exit"; rm_group_name := Some "imported-1"; rm_rule_id := Some "i1" |}.
Proof.
  rewrite (@rule_engine_first_match demo_regex demo_net); [vm_compute; reflexivity|].
  repeat constructor.
Defined.

Lemma rule_group_roundtrip_witness :
  ∃ g, RuleGroup_wf g ∧ rg_name g = "custom".
Proof.
  pose (d := [("name", PStr " custom"); ("rules", PList [PDict [("id", PStr "a");
    ("action", PStr " direct "); ("conditions", PDict [("port", PList [PInt 53])])]])]).
  destruct (@RuleGroup_from_dict demo_pystr d) as [g|] eqn:E; [|vm_compute in E; discriminate].
  exists g. destruct (@rule_group_roundtrip demo_pystr demo_regex demo_net d g E) as [H _].
  split; [exact H|]. vm_compute in E. injection E as <-. reflexivity.
Defined.
