(* ===== verification/RuleRoutes.v ===== *)
(** * Translation of rule groups into sing-box route rules

    rules/singbox.py.  A sing-box rule is the dict the code builds.  [reject_action]
    and [resolve_outbound], closures over the chain plans in the source, take the
    plans as an argument; both can raise, through [chain_target]. *)
From stdpp Require Import base list strings gmap pretty sorting.
From Stdlib Require Import Ascii QArith.
From S2P Require Import Prelude PyData NodeGroups RouteChains AppPolicy Rules.

Abbreviation sbrule := (pydict pyval).

Section generator.
Context (current_outbound_tag : string) (plans : pydict ChainRuntimePlan).

Definition plan_resolved (p : ChainRuntimePlan) : bool :=
  match pl_status p with CHAIN_RESOLVED => true | CHAIN_BLOCKED => false end.

Definition reject_action (action : string) : res bool :=
  t ← chain_target action;
  Ok match t with
     | None => false
     | Some _ =>
         match dict_get action plans with
         | None => true
         | Some plan =>
             negb (plan_resolved plan)
             || match pl_route_outbound_tag plan with None => true | Some _ => false end
         end
     end.

Definition resolve_outbound (action : string) : res string :=
  t ← chain_target action;
  match t with
  | Some _ =>
      plan ← dict_item action plans;
      Ok match pl_route_outbound_tag plan with Some s => s | None => "None" end
  | None => Ok (if String.eqb action "direct" then "direct" else current_outbound_tag)
  end.

(** [action == "block" or reject_action(action)] and the branch on it *)
Definition verdict (action : string) : res (list (string * pyval)) :=
  reject ← (if String.eqb action "block" then Ok true else reject_action action);
  if reject : bool then Ok [("action", PStr "reject")]
  else outbound ← resolve_outbound action; Ok [("action", PStr "route"); ("outbound", PStr outbound)].

(** The loop over [rule.conditions.items()]; [None]: the rule is dropped. *)
Fixpoint translate_conditions (tags : pydict string) (conditions : pydict (list string))
    (singbox_rule : sbrule) (rule_set_values : list string) : option (sbrule * list string) :=
  match conditions with
  | [] => Some (singbox_rule, rule_set_values)
  | (key, values) :: rest =>
      if str_in key UNEVALUABLE_CONDITIONS then
        match tags with
        | [] => None
        | _ =>
            let found := omap (fun v => dict_get v tags) values in
            if negb (length found =? length values)%nat then None
            else translate_conditions tags rest singbox_rule (rule_set_values ++ found)
        end
      else translate_conditions tags rest (dict_set key (PList (map PStr values)) singbox_rule)
             rule_set_values
  end.

(** [rule_set_tags or {}] is [tags]. *)
Definition rule_to_singbox_rule (tags : pydict string) (rule : Rule) : res (option sbrule) :=
  if negb (r_enabled rule) then Ok None
  else
    match translate_conditions tags (r_conditions rule) [] [] with
    | None => Ok None
    | Some (singbox_rule, rule_set_values) =>
        let singbox_rule :=
          match rule_set_values with
          | [] => singbox_rule
          | _ => dict_set "rule_set" (PList (map PStr rule_set_values)) singbox_rule
          end in
        v ← verdict (r_action rule);
        Ok (Some (dict_update singbox_rule v))
    end.

Definition final_rule (policy : string) : res sbrule := verdict policy.

Definition app_policy_action (value : app_action) : string :=
  let action := action_value value in
  if String.eqb action "current" then "current_profile" else action.

Definition app_policy_rule_to_singbox_rule (rule : AppPolicyRule) : res (option sbrule) :=
  if negb (ar_enabled rule) then Ok None
  else
    let singbox_rule := map (fun kv => (kv.1, matcher_val kv.2)) (ar_match rule) in
    v ← verdict (app_policy_action (ar_action rule));
    Ok (Some (dict_update singbox_rule v)).

(** A comprehension that keeps the results that are not [None] *)
Fixpoint collect_some {A B} (f : A → res (option B)) (l : list A) : res (list B) :=
  match l with
  | [] => Ok []
  | x :: l' =>
      y ← f x;
      ys ← collect_some f l';
      Ok (match y with Some y => y :: ys | None => ys end)
  end.

Definition app_policy_rules (policy : option AppPolicy) : res (list sbrule) :=
  match policy with
  | None => Ok []
  | Some p =>
      if negb (ap_enabled p) then Ok []
      else
        rules ← collect_some app_policy_rule_to_singbox_rule (ap_rules p);
        let default_action := app_policy_action (ap_default_action p) in
        if bool_decide (ap_mode p = WHITELIST) || negb (String.eqb default_action "current_profile")
        then final ← final_rule default_action; Ok (rules ++ [final])
        else Ok rules
  end.

(** The loops of [build_singbox_route_rules], innermost first *)
Fixpoint group_rules (tags : pydict string) (groups : list RuleGroup) : res (list sbrule) :=
  match groups with
  | [] => Ok []
  | g :: rest =>
      here ← (if negb (rg_enabled g) then Ok []
              else collect_some (rule_to_singbox_rule tags) (rg_rules g));
      more ← group_rules tags rest;
      Ok (here ++ more)
  end.

Fixpoint tier_rules (tags : pydict string) (app_policy : option AppPolicy)
    (tiers : pydict (list RuleGroup)) (order : list string) : res (list sbrule) :=
  match order with
  | [] => Ok []
  | tier :: rest =>
      app ← (if String.eqb tier "app" then app_policy_rules app_policy else Ok []);
      groups ← dict_item tier tiers;
      here ← group_rules tags groups;
      more ← tier_rules tags app_policy tiers rest;
      Ok (app ++ here ++ more)
  end.

Definition build_singbox_route_rules (groups : list RuleGroup) (app_policy : option AppPolicy)
    (final_policy : string) (tags : pydict string) : res (list sbrule) :=
  rules ← tier_rules tags app_policy (group_by_tier groups) PRIORITY_TIER_ORDER;
  final ← final_rule final_policy;
  Ok (rules ++ [final]).
End generator.

(** ** Reading a generated table back *)
Definition strings_of (v : pyval) : list string :=
  match v with
  | PList l => omap (fun x => match x with PStr s => Some s | _ => None end) l
  | _ => []
  end.

(** The match part of a generated rule, and its verdict *)
Definition sb_match (sb : sbrule) : pydict (list string) :=
  omap (fun kv => if str_in kv.1 ["action"; "outbound"] then None
                  else Some (kv.1, strings_of kv.2)) sb.

Definition sb_verdict (sb : sbrule) : sbrule :=
  List.filter (fun kv => str_in kv.1 ["action"; "outbound"]) sb.

(** *** How sing-box reads a rule *)
(** The fields of a default route rule form families: the address fields are one, the port
    fields another, and every other field is on its own. *)
Definition address_fields : list string :=
  ["domain"; "domain_suffix"; "domain_keyword"; "domain_regex"; "ip_cidr"].
Definition port_fields : list string := ["port"; "port_range"].
Definition field_family (field : string) : string :=
  if str_in field address_fields then "address" else if str_in field port_fields then "port" else field.

(** The fields of one family are alternatives and all families present must hold; the rule
    without fields applies to everything.  Whether one field with its values matches the traffic
    is sing-box's own affair: [field_matches]. *)
Definition sb_holds (field_matches : TrafficInfo → string → list string → bool) (t : TrafficInfo)
    (sb : sbrule) : bool :=
  let fields := sb_match sb in
  forallb (fun kv => existsb (fun kv' => String.eqb (field_family kv'.1) (field_family kv.1)
                                         && field_matches t kv'.1 kv'.2) fields) fields.

(** No rule has two conditions of one family. *)
Definition one_per_family (r : Rule) : Prop := NoDup (map (fun kv => field_family kv.1) (r_conditions r)).

(** On the conditions of these rules and on this traffic, sing-box matches a field as the engine
    does. *)
Definition fields_agree `{PyRegex, PyNet} (field_matches : TrafficInfo → string → list string → bool)
    (t : TrafficInfo) (groups : list RuleGroup) : Prop :=
  ∀ g r kv, g ∈ groups → r ∈ rg_rules g → kv ∈ r_conditions r → kv.1 ∉ UNEVALUABLE_CONDITIONS →
    field_matches t kv.1 kv.2 = condition_holds t kv.

(** ** Verdicts *)
Section verdicts.
Context (cur : string) (plans : pydict ChainRuntimePlan).

Definition is_verdict (v : sbrule) : Prop :=
  v = [("action", PStr "reject")] ∨ ∃ o, v = [("action", PStr "route"); ("outbound", PStr o)].

Lemma verdict_total a t : chain_target a = Ok t → ∃ v, verdict cur plans a = Ok v ∧ is_verdict v.
Proof.
  intros Ht. unfold verdict, reject_action, resolve_outbound. rewrite Ht. cbn [mbind res_bind].
  destruct (String.eqb a "block"); cbn [mbind res_bind]; [eexists; split; [done | by left]|].
  destruct t as [c|]; [|eexists; split; [done | right; by eexists]].
  unfold dict_item. destruct (dict_get a plans) as [p|]; [|eexists; split; [done | by left]].
  destruct (negb (plan_resolved p) || _); [eexists; split; [done | by left]|].
  eexists; split; [done | right; by eexists].
Qed.

Lemma verdict_outbound a v o :
  verdict cur plans a = Ok v → dict_get "outbound" v = Some (PStr o) →
  (chain_target a = Ok None ∧ (o = "direct" ∨ o = cur))
  ∨ (∃ id plan, chain_target a = Ok (Some id) ∧ dict_get a plans = Some plan
     ∧ pl_status plan = CHAIN_RESOLVED ∧ pl_route_outbound_tag plan = Some o).
Proof.
  unfold verdict, reject_action, resolve_outbound, dict_item.
  destruct (String.eqb a "block"); cbn [mbind res_bind]; [by intros [= <-]|].
  destruct (chain_target a) as [[c|]|] eqn:Ec; cbn [mbind res_bind]; [| |done].
  - destruct (dict_get a plans) as [p|] eqn:Ep; [|by intros [= <-]].
    unfold plan_resolved. destruct (pl_status p) eqn:Es; cbn; [|by intros [= <-]].
    destruct (pl_route_outbound_tag p) as [s|] eqn:Et; cbn; [|by intros [= <-]].
    intros [= <-] [= <-]. right. by exists c, p.
  - cbn. intros [= <-] [= <-]. left. split; [done|]. destruct (String.eqb a "direct"); auto.
Qed.

Lemma verdict_is_verdict a v : verdict cur plans a = Ok v → is_verdict v.
Proof.
  unfold verdict. intros H. destruct (if String.eqb a "block" then _ else _) as [[]|]; cbn in H;
    [|destruct (resolve_outbound cur plans a); cbn in H|]; try done; injection H as <-;
    [by left | right; by eexists].
Qed.
End verdicts.

(** A validated action has a chain reading that does not raise. *)
Lemma startswith_group_chain s : startswith "group:" s = true → startswith "chain:" s = false.
Proof.
  destruct s as [|c s]; [done|]. unfold startswith. cbn [String.prefix].
  destruct (ascii_dec "g" c) as [<-|Hne]; [done | discriminate].
Qed.

Lemma validated_action_target a : validate_rule_action a = Ok a → ∃ t, chain_target a = Ok t.
Proof.
  unfold validate_rule_action. cbn zeta.
  destruct (str_in (strip a) SIMPLE_RULE_ACTIONS) eqn:E1.
  { intros [= Hs]. rewrite Hs in E1. exists None. apply str_in_spec in E1.
    unfold SIMPLE_RULE_ACTIONS in E1.
    repeat (apply elem_of_cons in E1 as [->|E1]; [done|]). by apply not_elem_of_nil in E1. }
  destruct (group_target (strip a)) eqn:E2.
  { intros [= Hs]. rewrite Hs in E2. exists None. unfold group_target in E2. unfold chain_target.
    unfold action_body in *. destruct (startswith "group:" (strip a)) eqn:Eg; [|done].
    by rewrite (startswith_group_chain _ Eg). }
  destruct (chain_target (strip a)) as [[c|]|] eqn:E3; cbn [mbind res_bind]; try done.
  intros [= Hs]. rewrite Hs in E3. by eexists.
Qed.

(** ** The table *)
Definition sb_conditions (c : pydict (list string)) : sbrule :=
  map (fun kv => (kv.1, PList (map PStr kv.2))) c.

Definition evaluable (r : Rule) : bool :=
  forallb (fun kv => negb (str_in kv.1 UNEVALUABLE_CONDITIONS)) (r_conditions r).

Lemma translate_evaluable c acc vs :
  NoDup (map fst acc ++ map fst c) →
  translate_conditions [] c acc vs
  = if forallb (fun kv => negb (str_in kv.1 UNEVALUABLE_CONDITIONS)) c
    then Some (acc ++ sb_conditions c, vs) else None.
Proof.
  revert acc. induction c as [|[k l] c IH]; intros acc Hn.
  { cbn. by rewrite app_nil_r. }
  cbn [translate_conditions forallb fst]. destruct (str_in k UNEVALUABLE_CONDITIONS); [done|].
  assert (k ∉ map fst acc) as Hk.
  { apply NoDup_app in Hn as (_ & Hd & _). intros Hin. apply (Hd k Hin), list_elem_of_here. }
  rewrite dict_set_fresh by done. cbn [negb andb]. rewrite IH.
  - by rewrite <- app_assoc.
  - by rewrite map_app, <- app_assoc.
Qed.

Lemma dict_update_verdict sb v :
  is_verdict v → "action" ∉ map fst sb → "outbound" ∉ map fst sb → dict_update sb v = sb ++ v.
Proof.
  intros [->|[o ->]] Ha Ho; unfold dict_update; cbn [foldl fst snd].
  - by apply dict_set_fresh.
  - rewrite (dict_set_fresh "action") by done. rewrite dict_set_fresh; [by rewrite <- app_assoc|].
    rewrite map_app, elem_of_app. cbn. intros [Hin|Hin%list_elem_of_singleton]; done.
Qed.

Section table.
Context (cur : string) (plans : pydict ChainRuntimePlan).

Definition vd (a : string) : sbrule := match verdict cur plans a with Ok v => v | Err _ => [] end.
Definition rule_sb (r : Rule) : sbrule := sb_conditions (r_conditions r) ++ vd (r_action r).

Lemma vd_ok a : validate_rule_action a = Ok a → verdict cur plans a = Ok (vd a) ∧ is_verdict (vd a).
Proof.
  intros [t Ht]%validated_action_target. destruct (verdict_total cur plans a t Ht) as (v & Hv & Hi).
  unfold vd. by rewrite Hv.
Qed.

Lemma keys_not_verdict r k :
  rule_keys_ok r → k ∈ ["action"; "outbound"] → k ∉ map fst (sb_conditions (r_conditions r)).
Proof.
  unfold rule_keys_ok, sb_conditions. intros Hk Hv Hin. rewrite map_map in Hin. cbn in Hin.
  apply list_elem_of_fmap in Hin as (kv & -> & Hkv). rewrite Forall_forall in Hk.
  apply Hk, str_in_spec in Hkv.
  repeat (apply elem_of_cons in Hv as [Hv|Hv]; [by rewrite Hv in Hkv|]). by apply not_elem_of_nil in Hv.
Qed.

Lemma rule_to_singbox_rule_wf r :
  Rule_wf r →
  rule_to_singbox_rule cur plans [] r
  = Ok (if r_enabled r && evaluable r then Some (rule_sb r) else None).
Proof.
  intros Hw. pose proof (Rule_wf_keys _ Hw) as Hk. destruct Hw as (_ & Ha & Hne & Hn & _).
  unfold rule_to_singbox_rule, evaluable. destruct (r_enabled r); [|done]. cbn [negb andb].
  rewrite translate_evaluable by done. destruct (forallb _ _); [|done]. cbn [app].
  destruct (vd_ok _ Ha) as [Hv Hi]. rewrite Hv. cbn [mbind res_bind].
  rewrite dict_update_verdict; [done| done | apply keys_not_verdict; [done|] ..];
    [apply list_elem_of_here | apply list_elem_of_further, list_elem_of_here].
Qed.

Lemma collect_rules_wf rules :
  Forall Rule_wf rules →
  collect_some (rule_to_singbox_rule cur plans []) rules
  = Ok (map rule_sb (List.filter evaluable (List.filter r_enabled rules))).
Proof.
  induction 1 as [|r rules Hr _ IH]; [done|]. cbn [collect_some].
  rewrite rule_to_singbox_rule_wf by done. cbn [mbind res_bind]. rewrite IH. cbn [mbind res_bind List.filter].
  destruct (r_enabled r); cbn [andb List.filter]; [|done]. by destruct (evaluable r).
Qed.

Definition groups_wf (groups : list RuleGroup) : Prop :=
  Forall (fun g => Forall Rule_wf (rg_rules g)) groups.

Abbreviation tagged gs :=
  (flat_map (fun g => map (pair g) (List.filter r_enabled (rg_rules g))) (List.filter rg_enabled gs)).
Abbreviation emitted l := (map (fun gr : RuleGroup * Rule => rule_sb gr.2)
  (List.filter (fun gr : RuleGroup * Rule => evaluable gr.2) l)).

Lemma emitted_pair g rules : emitted (map (pair g) rules) = map rule_sb (List.filter evaluable rules).
Proof. induction rules as [|r l IH]; cbn; [done|]. destruct (evaluable r); cbn; by rewrite IH. Qed.

Lemma emitted_app l1 l2 : emitted (l1 ++ l2) = emitted l1 ++ emitted l2.
Proof. by rewrite List.filter_app, map_app. Qed.

Lemma group_rules_wf groups :
  groups_wf groups → group_rules cur plans [] groups = Ok (emitted (tagged groups)).
Proof.
  induction 1 as [|g groups Hg _ IH]; [done|]. cbn [group_rules List.filter].
  destruct (rg_enabled g); cbn [negb].
  - rewrite collect_rules_wf by done. cbn [mbind res_bind]. rewrite IH. cbn [mbind res_bind flat_map].
    by rewrite emitted_app, emitted_pair.
  - cbn [mbind res_bind]. rewrite IH. done.
Qed.

Lemma tier_groups_wf tier groups : groups_wf groups → groups_wf (tier_groups tier groups).
Proof.
  unfold groups_wf, tier_groups. rewrite !Forall_forall. intros Hg g Hin. apply Hg.
  destruct (String.eqb tier "imported").
  - rewrite py_sorted_perm in Hin. by apply List_filter_elem_of in Hin as [? _].
  - by apply List_filter_elem_of in Hin as [? _].
Qed.

Lemma tier_rules_wf groups order :
  groups_wf groups → (∀ n, n ∈ order → n ∈ PRIORITY_TIER_ORDER) →
  tier_rules cur plans [] None (group_by_tier groups) order
  = Ok (emitted (flat_map (fun tier => tagged (tier_groups tier groups)) order)).
Proof.
  intros Hg. induction order as [|tier order IH]; intros Ho; [done|]. cbn [tier_rules flat_map].
  assert ((if String.eqb tier "app" then app_policy_rules cur plans None else Ok []) = Ok []) as ->
    by by destruct (String.eqb tier "app").
  unfold dict_item. rewrite group_by_tier_get by apply Ho, list_elem_of_here. cbn [mbind res_bind].
  rewrite group_rules_wf by by apply tier_groups_wf. cbn [mbind res_bind].
  rewrite IH by (intros n Hn; by apply Ho, list_elem_of_further). cbn [mbind res_bind app].
  by rewrite emitted_app.
Qed.

Lemma build_wf groups final :
  groups_wf groups → validate_rule_action final = Ok final →
  build_singbox_route_rules cur plans groups None final []
  = Ok (emitted (effective_rules groups) ++ [vd final]).
Proof.
  intros Hg Hf. unfold build_singbox_route_rules. rewrite tier_rules_wf by done.
  cbn [mbind res_bind]. unfold final_rule. destruct (vd_ok _ Hf) as [Hv _]. by rewrite Hv.
Qed.
End table.

Lemma strings_of_map l : strings_of (PList (map PStr l)) = l.
Proof. cbn. induction l as [|s l IH]; cbn; [done|]. by rewrite IH. Qed.

Lemma sb_match_rule c v :
  Forall (fun kv => kv.1 ∈ ALLOWED_RULE_CONDITIONS) c → is_verdict v →
  sb_match (sb_conditions c ++ v) = c ∧ sb_verdict (sb_conditions c ++ v) = v.
Proof.
  intros Hc Hv.
  assert (sb_match v = [] ∧ sb_verdict v = v) as [Hm Hve] by by destruct Hv as [->|[o ->]].
  unfold sb_match, sb_verdict in *.
  induction Hc as [|[k l] c Hk _ IH]; [done|]. cbn [sb_conditions map app omap list_omap List.filter fst snd].
  assert (str_in k ["action"; "outbound"] = false) as ->.
  { apply str_in_false. intros Hin. cbn in Hk. unfold ALLOWED_RULE_CONDITIONS in Hk.
    repeat (apply elem_of_cons in Hin as [->|Hin];
      [apply str_in_spec in Hk; vm_compute in Hk; discriminate|]). by apply not_elem_of_nil in Hin. }
  destruct IH as [IH1 IH2]. rewrite strings_of_map. split; [|exact IH2]. f_equal. exact IH1.
Qed.

(** With one field per family the alternatives disappear. *)
Lemma families_alone {A} (f : A → string) (p : A → bool) l :
  NoDup (map f l) → forallb (fun x => existsb (fun y => String.eqb (f y) (f x) && p y) l) l = forallb p l.
Proof.
  intros Hn. apply eq_true_iff_eq. rewrite !forallb_forall. split; intros Hall x Hx; specialize (Hall x Hx).
  - apply existsb_exists in Hall as (y & Hy & [Hf%String.eqb_eq Hp]%andb_true_iff).
    enough (y = x) as <- by done. revert Hn Hx Hy Hf. clear. induction l as [|a l IH]; [done|].
    cbn [map]. intros [Ha Hn]%NoDup_cons [->|Hx] [->|Hy] Hf; [done| | |by apply IH].
    + destruct Ha. rewrite <- Hf. by apply list_elem_of_In, in_map.
    + destruct Ha. rewrite Hf. by apply list_elem_of_In, in_map.
  - apply existsb_exists. exists x. split; [done|]. by rewrite String.eqb_refl.
Qed.

Lemma sb_holds_rule `{PyRegex, PyNet} field_matches cur plans t r :
  Rule_wf r → one_per_family r → evaluable r = true →
  (∀ kv, kv ∈ r_conditions r → kv.1 ∉ UNEVALUABLE_CONDITIONS → field_matches t kv.1 kv.2 = condition_holds t kv) →
  sb_holds field_matches t (rule_sb cur plans r) = rule_holds t r.
Proof.
  intros (_ & Ha & Hne & _ & Hf) Hone He Hagree. unfold sb_holds, rule_sb.
  destruct (sb_match_rule (r_conditions r) (vd cur plans (r_action r))) as [-> _].
  - eapply Forall_impl; [exact Hf|]. by intros ? [? _].
  - by apply vd_ok.
  - cbn zeta. rewrite (families_alone (fun kv => field_family kv.1) (fun kv => field_matches t kv.1 kv.2)) by done.
    transitivity (forallb (condition_holds t) (r_conditions r)); [|unfold rule_holds; by destruct (r_conditions r)].
    unfold evaluable in He. rewrite forallb_forall in He. apply eq_true_iff_eq. rewrite !forallb_forall.
    assert (∀ kv, In kv (r_conditions r) → field_matches t kv.1 kv.2 = condition_holds t kv) as Heq.
    { intros kv Hkv. apply Hagree; [by apply list_elem_of_In|]. apply str_in_false.
      by apply He, negb_true_iff in Hkv. }
    split; intros Hall kv Hkv; [rewrite <- Heq by done|rewrite Heq by done]; by apply Hall.
Qed.

Lemma find_emitted `{PyRegex, PyNet} field_matches cur plans t l :
  Forall (fun gr => Rule_wf gr.2 ∧ one_per_family gr.2 ∧
    ∀ kv, kv ∈ r_conditions gr.2 → kv.1 ∉ UNEVALUABLE_CONDITIONS →
      field_matches t kv.1 kv.2 = condition_holds t kv) l →
  List.find (sb_holds field_matches t) (map (fun gr : RuleGroup * Rule => rule_sb cur plans gr.2)
    (List.filter (fun gr => evaluable gr.2) l))
  = (fun gr => rule_sb cur plans gr.2) <$> List.find (fun gr => rule_holds t gr.2) l.
Proof.
  induction 1 as [|[g r] l (Hr & Hone & Hagree) _ IH]; [done|]. cbn [List.filter List.find snd] in *.
  pose proof (sb_holds_rule field_matches cur plans t r Hr Hone) as Hh.
  destruct (evaluable r) eqn:Ee.
  - cbn [map List.find snd]. rewrite (Hh eq_refl Hagree). by destruct (rule_holds t r).
  - assert (rule_holds t r = false) as ->; [|done].
    unfold rule_holds, evaluable in *. destruct (r_conditions r); [done|].
    apply not_true_iff_false. rewrite forallb_forall. intros Hall.
    apply not_true_iff_false in Ee. apply Ee. apply forallb_forall. intros kv Hkv.
    apply Hall in Hkv. by apply andb_prop in Hkv as [? _].
Qed.

Lemma effective_rules_from groups g r : (g, r) ∈ effective_rules groups → g ∈ groups ∧ r ∈ rg_rules g.
Proof.
  intros Hin. unfold effective_rules in Hin.
  apply list_elem_of_In, in_flat_map in Hin as (tier & _ & Hin).
  apply in_flat_map in Hin as (g' & Hg' & Hin). apply in_map_iff in Hin as (r' & [= -> ->] & Hr).
  apply filter_In in Hg' as [Hg' _]. apply filter_In in Hr as [Hr _].
  split; [|by apply list_elem_of_In]. apply list_elem_of_In in Hg'. unfold tier_groups in Hg'.
  destruct (String.eqb tier "imported").
  - rewrite py_sorted_perm in Hg'. by apply List_filter_elem_of in Hg' as [? _].
  - by apply List_filter_elem_of in Hg' as [? _].
Qed.

(** Two conditions of one family make the difference: the engine wants both, sing-box one of
    them.  A rule that blocks a domain within an address range does not match the domain alone in
    the engine, which lets it go direct, and does in the generated table, which rejects it. *)
Theorem mixed_families_diverge :
  let r := {| r_id := "r"; r_action := "block"; r_enabled := true;
              r_conditions := [("domain", ["a.example"]); ("ip_cidr", ["10.0.0.0/8"])] |} in
  let g := {| rg_name := "custom"; rg_enabled := true; rg_rules := [r]; rg_priority := 100 |} in
  let t := {| t_domain := Some "a.example"; t_ip := None; t_port := None; t_protocol := None;
              t_network := None; t_process_name := None; t_process_path := None |} in
  @evaluate demo_regex demo_net {| final_policy := "direct" |} t [g]
  = Ok {| rm_action := "direct"; rm_group_name := None; rm_rule_id := None |}
  ∧ ∃ table, build_singbox_route_rules "proxy" [] [g] None "direct" [] = Ok table
    ∧ sb_verdict <$> List.find (sb_holds (fun t k vs => @condition_holds demo_regex demo_net t (k, vs)) t) table
      = Some [("action", PStr "reject")].
Proof. split; [vm_compute; reflexivity|]. eexists. split; vm_compute; reflexivity. Qed.

(** C31: the generated route table makes the engine's decision.  For validated groups in which no
    rule has two conditions of one sing-box field family (two address conditions, or a port and
    a port range), without an application policy and without rule-set tags, generation succeeds;
    and for all traffic on which sing-box matches each single condition of these rules as the
    engine's matcher does, the first table entry that holds in sing-box's reading (fields of one
    family are alternatives, families are all required) carries exactly the verdict of the action
    the engine returns: disabled groups and rules, tiers, priorities and the final policy agree,
    and rules on external rule sets are neither emitted nor matched. *)
Theorem singbox_table_agrees_with_engine `{PyRegex, PyNet} field_matches cur plans groups final
    (Hg : groups_wf groups) (Hone : Forall (fun g => Forall one_per_family (rg_rules g)) groups)
    (Hf : validate_rule_action final = Ok final) :
  ∃ table, build_singbox_route_rules cur plans groups None final [] = Ok table
  ∧ ∀ t, fields_agree field_matches t groups → ∃ m sb v,
      evaluate {| final_policy := final |} t groups = Ok m
      ∧ List.find (sb_holds field_matches t) table = Some sb
      ∧ verdict cur plans (rm_action m) = Ok v ∧ sb_verdict sb = v.
Proof.
  rewrite build_wf by done. eexists. split; [done|]. intros t Hagree.
  assert (Forall (fun gr => Rule_wf gr.2 ∧ one_per_family gr.2 ∧
    ∀ kv, kv ∈ r_conditions gr.2 → kv.1 ∉ UNEVALUABLE_CONDITIONS →
      field_matches t kv.1 kv.2 = condition_holds t kv) (effective_rules groups)) as Hw.
  { apply Forall_forall. intros [g r] [Hgin Hrin]%effective_rules_from. cbn [snd]. unfold groups_wf in Hg.
    rewrite Forall_forall in Hg, Hone. pose proof (Hg g Hgin) as Hg1. pose proof (Hone g Hgin) as Hone1.
    rewrite Forall_forall in Hg1, Hone1. split; [by apply Hg1|]. split; [by apply Hone1|].
    intros kv Hkv Hev. by apply (Hagree g r kv). }
  assert (groups_ok groups) as Hok.
  { unfold groups_ok. eapply Forall_impl; [exact Hg|]. intros g Hr.
    eapply Forall_impl; [exact Hr|]. apply Rule_wf_keys. }
  rewrite evaluate_spec, find_app, (find_emitted field_matches) by done.
  destruct (List.find _ (effective_rules groups)) as [[g r]|] eqn:Ef; cbn [fmap option_fmap option_map].
  - apply List_find_elem_of in Ef as [Hin _]. rewrite Forall_forall in Hw. apply Hw in Hin as [Hin _].
    destruct (vd_ok cur plans _ (proj1 (proj2 Hin))) as [Hv Hi]. do 3 eexists.
    split; [done|]. split; [done|]. cbn [found_match rm_action snd]. split; [exact Hv|].
    apply sb_match_rule; [by apply Rule_wf_keys | done].
  - destruct (vd_ok cur plans _ Hf) as [Hv Hi]. do 3 eexists. split; [done|].
    cbn [List.find found_match rm_action final_policy].
    destruct (sb_match_rule [] (vd cur plans final)) as [Hm Hve]; [constructor | done |].
    cbn [sb_conditions map app] in Hm, Hve. unfold sb_holds. rewrite Hm. split; [done|]. done.
Qed.

(** ** Where traffic may go *)
Section outbounds.
Context (cur : string) (plans : pydict ChainRuntimePlan).

(** An outbound the table may name: direct, the connected profile, or the final tag
    of a chain that resolved *)
Definition known_outbound (o : string) : Prop :=
  o = "direct" ∨ o = cur
  ∨ ∃ action plan, dict_get action plans = Some plan ∧ pl_status plan = CHAIN_RESOLVED
                   ∧ pl_route_outbound_tag plan = Some o.

Definition sb_safe (sb : sbrule) : Prop :=
  dict_get "action" sb = Some (PStr "reject") ∧ dict_get "outbound" sb = None
  ∨ ∃ o, dict_get "action" sb = Some (PStr "route")
         ∧ dict_get "outbound" sb = Some (PStr o) ∧ known_outbound o.

Lemma verdict_safe base a v :
  dict_get "outbound" base = None → verdict cur plans a = Ok v → sb_safe (dict_update base v).
Proof.
  intros Hb Hv. pose proof (verdict_outbound cur plans a v) as Ho.
  destruct (verdict_is_verdict _ _ _ _ Hv) as [->|[o ->]]; unfold dict_update; cbn [foldl fst snd].
  - left. by rewrite dict_get_set_eq, dict_get_set_ne.
  - right. exists o. rewrite dict_get_set_ne, !dict_get_set_eq by done. repeat split.
    destruct (Ho o Hv eq_refl) as [[_ [->| ->]]|(i & p & _ & H1 & H2 & H3)];
      [by left | by right; left | right; right; by exists a, p].
Qed.

Lemma collect_some_Forall {A B} (f : A → res (option B)) (P : B → Prop) l r :
  (∀ a b, a ∈ l → f a = Ok (Some b) → P b) → collect_some f l = Ok r → Forall P r.
Proof.
  revert r. induction l as [|x l IH]; cbn; intros r Hf Hr; [by injection Hr as <-|].
  destruct (f x) as [y|] eqn:E; cbn in Hr; [|done].
  destruct (collect_some f l) as [ys|]; cbn in Hr; [|done]. injection Hr as <-.
  assert (Forall P ys) as Hys.
  { apply IH; [|done]. intros a b Ha. by apply Hf, list_elem_of_further. }
  destruct y as [y|]; [|done]. constructor; [|done]. eapply Hf; [apply list_elem_of_here | done].
Qed.

Lemma translate_no_outbound tags c acc vs sb vs' :
  Forall (fun kv => kv.1 ∈ ALLOWED_RULE_CONDITIONS) c → dict_get "outbound" acc = None →
  translate_conditions tags c acc vs = Some (sb, vs') → dict_get "outbound" sb = None.
Proof.
  intros Hc. revert acc vs. induction Hc as [|[k l] c Hk _ IH]; intros acc vs Ha; cbn [translate_conditions].
  { by intros [= <- _]. }
  destruct (str_in k UNEVALUABLE_CONDITIONS).
  - destruct tags as [|tg tags]; [done|]. cbn zeta. destruct (negb _); [done|]. by apply IH.
  - apply IH. rewrite dict_get_set_ne; [done|]. intros <-. apply str_in_spec in Hk. discriminate Hk.
Qed.

Lemma rule_safe tags r sb :
  rule_keys_ok r → rule_to_singbox_rule cur plans tags r = Ok (Some sb) → sb_safe sb.
Proof.
  intros Hk. unfold rule_to_singbox_rule. destruct (r_enabled r); cbn [negb]; [|done].
  destruct (translate_conditions _ _ _ _) as [[base vs]|] eqn:Et; [|done]. cbn zeta.
  apply translate_no_outbound in Et; [|done|done].
  destruct (verdict cur plans (r_action r)) as [v|] eqn:Ev; cbn [mbind res_bind]; [|done].
  intros [= <-]. eapply verdict_safe; [|exact Ev].
  destruct vs; [done|]. by rewrite dict_get_set_ne.
Qed.

Lemma app_rule_safe `{PyRegex} r sb :
  AppPolicyRule_wf r → app_policy_rule_to_singbox_rule cur plans r = Ok (Some sb) → sb_safe sb.
Proof.
  intros (_ & _ & _ & _ & Hf). unfold app_policy_rule_to_singbox_rule.
  destruct (ar_enabled r); cbn [negb]; [|done]. cbn zeta.
  destruct (verdict cur plans _) as [v|] eqn:Ev; cbn [mbind res_bind]; [|done].
  intros [= <-]. eapply verdict_safe; [|exact Ev]. apply dict_get_None. rewrite map_map. cbn.
  intros (kv & Hkv & Hin)%list_elem_of_fmap. rewrite Forall_forall in Hf.
  apply Hf in Hin as [Hin _]. rewrite <- Hkv in Hin. apply str_in_spec in Hin. discriminate Hin.
Qed.

Lemma final_safe a v : verdict cur plans a = Ok v → sb_safe v.
Proof.
  intros Hv. pose proof (verdict_safe [] a v eq_refl Hv) as Hs.
  by destruct (verdict_is_verdict _ _ _ _ Hv) as [->|[o ->]].
Qed.

Lemma app_policy_safe `{PyRegex} policy r :
  (∀ p, policy = Some p → Forall AppPolicyRule_wf (ap_rules p)) →
  app_policy_rules cur plans policy = Ok r → Forall sb_safe r.
Proof.
  intros Hp. unfold app_policy_rules. destruct policy as [p|]; [|by intros [= <-]].
  specialize (Hp p eq_refl). destruct (ap_enabled p); cbn [negb]; [|by intros [= <-]].
  destruct (collect_some _ _) as [l|] eqn:El; cbn [mbind res_bind]; [|done].
  assert (Forall sb_safe l) as Hl.
  { eapply collect_some_Forall; [|exact El]. intros a b Ha. rewrite Forall_forall in Hp.
    by apply app_rule_safe, Hp. }
  destruct (_ || _); [|by intros [= <-]]. unfold final_rule.
  destruct (verdict cur plans _) as [v|] eqn:Ev; cbn [mbind res_bind]; [|done].
  intros [= <-]. apply Forall_app. split; [done|]. constructor; [|constructor]. by eapply final_safe.
Qed.

Lemma group_rules_safe tags groups r :
  groups_ok groups → group_rules cur plans tags groups = Ok r → Forall sb_safe r.
Proof.
  intros Hg. revert r. induction Hg as [|g groups Hr _ IH]; intros r; cbn [group_rules].
  { by intros [= <-]. }
  destruct (if negb (rg_enabled g) then _ else _) as [here|] eqn:Eh; cbn [mbind res_bind]; [|done].
  destruct (group_rules cur plans tags groups) as [more|]; cbn [mbind res_bind]; [|done].
  intros [= <-]. apply Forall_app. split; [|by apply IH].
  destruct (negb (rg_enabled g)); [by injection Eh as <-|].
  eapply collect_some_Forall; [|exact Eh]. intros a b Ha. rewrite Forall_forall in Hr.
  by apply rule_safe, Hr.
Qed.

Lemma tier_rules_safe `{PyRegex} tags policy groups order r :
  groups_ok groups → (∀ p, policy = Some p → Forall AppPolicyRule_wf (ap_rules p)) →
  (∀ n, n ∈ order → n ∈ PRIORITY_TIER_ORDER) →
  tier_rules cur plans tags policy (group_by_tier groups) order = Ok r → Forall sb_safe r.
Proof.
  intros Hg Hp. revert r. induction order as [|tier order IH]; intros r Ho; cbn [tier_rules].
  { by intros [= <-]. }
  destruct (if String.eqb tier "app" then _ else _) as [app|] eqn:Ea; cbn [mbind res_bind]; [|done].
  unfold dict_item. rewrite group_by_tier_get by apply Ho, list_elem_of_here. cbn [mbind res_bind].
  destruct (group_rules _ _ _ _) as [here|] eqn:Eh; cbn [mbind res_bind]; [|done].
  destruct (tier_rules _ _ _ _ _ order) as [more|]; cbn [mbind res_bind]; [|done].
  intros [= <-]. apply Forall_app. split; [|apply Forall_app; split].
  - destruct (String.eqb tier "app"); [by eapply app_policy_safe | by injection Ea as <-].
  - eapply group_rules_safe; [|exact Eh]. by apply tier_groups_ok.
  - apply IH; [|done]. intros n Hn. by apply Ho, list_elem_of_further.
Qed.

Lemma table_safe `{PyRegex} groups policy final tags table :
  groups_ok groups → (∀ p, policy = Some p → Forall AppPolicyRule_wf (ap_rules p)) →
  build_singbox_route_rules cur plans groups policy final tags = Ok table → Forall sb_safe table ∧ table ≠ [].
Proof.
  intros Hg Hp. unfold build_singbox_route_rules.
  destruct (tier_rules _ _ _ _ _ _) as [l|] eqn:El; cbn [mbind res_bind]; [|done].
  unfold final_rule.
  destruct (verdict cur plans final) as [v|] eqn:Ev; cbn [mbind res_bind]; [|done].
  intros [= <-]. split; [|by destruct l]. apply Forall_app. split.
  - by eapply tier_rules_safe.
  - constructor; [by eapply final_safe | constructor].
Qed.

(** generated routes fail closed.  Every entry of the table, from rule groups,
    application policy or the final policy, and with any chain plans, either rejects
    and names no outbound, or routes to "direct", to the connected profile, or to the
    final tag of a chain whose plan is resolved: a chain that is missing, blocked or
    without a tag never lets traffic out. *)
Theorem routes_fail_closed `{PyRegex} groups policy final tags table
    (Hg : groups_ok groups)
    (Hp : ∀ p, policy = Some p → Forall AppPolicyRule_wf (ap_rules p))
    (Ht : build_singbox_route_rules cur plans groups policy final tags = Ok table) :
  Forall sb_safe table ∧ table ≠ [].
Proof. by eapply table_safe. Qed.
End outbounds.

Definition demo_plans : pydict ChainRuntimePlan :=
  match demo_plan with Some p => [("chain:exit", p)] | None => [] end.

Lemma demo_rule_groups_wf : groups_wf demo_rule_groups.
Proof.
  repeat (constructor; [repeat (constructor; [repeat split;
    first [done | by (apply (bool_decide_unpack _)) | repeat constructor; done]|]); constructor|]).
  constructor.
Qed.

Definition demo_fields (t : TrafficInfo) (k : string) (vs : list string) : bool :=
  @condition_holds demo_regex demo_net t (k, vs).

Lemma demo_one_per_family : Forall (fun g => Forall one_per_family (rg_rules g)) demo_rule_groups.
Proof.
  repeat (constructor; [repeat (constructor; [by apply (bool_decide_unpack _)|]); constructor|]). constructor.
Qed.

Lemma singbox_table_agrees_with_engine_witness :
  ∃ table, build_singbox_route_rules "proxy" demo_plans demo_rule_groups None "direct" [] = Ok table
  ∧ ∃ m sb v, @evaluate demo_regex demo_net {| final_policy := "direct" |} demo_traffic demo_rule_groups = Ok m
      ∧ List.find (sb_holds demo_fields demo_traffic) table = Some sb
      ∧ verdict "proxy" demo_plans (rm_action m) = Ok v ∧ sb_verdict sb = v.
Proof.
  destruct (@singbox_table_agrees_with_engine demo_regex demo_net demo_fields "proxy" demo_plans
    demo_rule_groups "direct" demo_rule_groups_wf demo_one_per_family eq_refl) as (table & H1 & H2).
  exists table. split; [exact H1|]. apply H2. intros g r kv _ _ _ _. by destruct kv.
Defined.

Lemma routes_fail_closed_witness :
  ∃ table, build_singbox_route_rules "proxy" demo_plans demo_rule_groups None "block" [] = Ok table
    ∧ Forall (sb_safe "proxy" demo_plans) table ∧ length table = 4%nat.
Proof.
  destruct (build_singbox_route_rules "proxy" demo_plans demo_rule_groups None "block" [])
    as [table|] eqn:E; [|vm_compute in E; discriminate].
  exists table. split; [reflexivity|]. split.
  - apply (@routes_fail_closed "proxy" demo_plans demo_regex demo_rule_groups None "block" [] table).
    + repeat constructor.
    + discriminate.
    + exact E.
  - vm_compute in E. injection E as <-. reflexivity.
Defined.
