(* ===== verification/RuleStore.v ===== *)
(** * The rule store: one JSON file per rule group

    rules/rule_store.py, with the write of config/persistence.py.  The state is the JSON values
    of the group files, by file stem, and of the backups.  Writes and deletions can fail: what
    the file system does during a call is its argument [disk].  The UTC timestamp of a call is
    its argument [timestamp].  The searches for a free name are loops without a bound in the
    source; they run here with one unit of fuel per existing file and one more. *)
From stdpp Require Import base list strings gmap pretty sorting.
From Stdlib Require Import Ascii QArith.
From S2P Require Import Prelude PyData Profiles NodeGroups RouteChains AppPolicy Rules.

Record rule_dir : Type := {
  rd_groups : pydict pyval;
  rd_backups : pydict pyval
}.

Abbreviation RM := (PyM rule_dir).

Definition write_group (name : string) (v : pyval) (d : rule_dir) : rule_dir :=
  {| rd_groups := dict_set name v (rd_groups d); rd_backups := rd_backups d |}.

Definition write_backup (name : string) (v : pyval) (d : rule_dir) : rule_dir :=
  {| rd_groups := rd_groups d; rd_backups := dict_set name v (rd_backups d) |}.

Definition unlink_group (name : string) (d : rule_dir) : rule_dir :=
  {| rd_groups := List.filter (fun kv => negb (String.eqb kv.1 name)) (rd_groups d);
     rd_backups := rd_backups d |}.

Definition out_of_fuel : exn := Exn OtherError "no free name found".

(** *** Writes *)
Inductive rule_path : Type := GroupFile (name : string) | BackupFile (name : string).

(** What the file system does during a call *)
Record disk : Type := {
  dk_write : rule_path → write_outcome;
  dk_unlink : string → option exn
}.

(** A file system on which everything succeeds *)
Definition healthy : disk := {| dk_write := fun _ => WDone; dk_unlink := fun _ => None |}.

Definition write_file (path : rule_path) (v : pyval) : rule_dir → rule_dir :=
  match path with GroupFile name => write_group name v | BackupFile name => write_backup name v end.

Definition dump_json (dk : disk) (path : rule_path) (v : pyval) : RM unit := fun d =>
  match dk_write dk path with
  | WDone => (Ok tt, write_file path v d)
  | WRefused e => (Err e, d)
  | WPublished e => (Err e, write_file path v d)
  end.

(** [target.unlink()] *)
Definition unlink (dk : disk) (name : string) : RM unit := fun d =>
  match dk_unlink dk name with
  | None => (Ok tt, unlink_group name d)
  | Some e => (Err e, d)
  end.

Section store.
Context `{PyStr} (dk : disk).

(** [RuleGroup.from_dict(require_mapping(v, path))] *)
Definition group_of_file (v : pyval) : res RuleGroup :=
  data ← require_mapping v "rule group file"; RuleGroup_from_dict data.

Definition read_group (name : string) (d : rule_dir) : res (option RuleGroup) :=
  match dict_get name (rd_groups d) with
  | None => Ok None
  | Some v => Some <$> group_of_file v
  end.

Definition get_group (name : string) (d : rule_dir) : res (option RuleGroup) :=
  target ← validate_group_name name; read_group target d.

(** [validated = RuleGroup.from_dict(group.to_dict()); dump_json(target, ...)] *)
Definition save_validated (target : string) (group : RuleGroup) : RM RuleGroup :=
  validated ← liftR (RuleGroup_from_dict (RuleGroup_to_dict group));
  _ ← dump_json dk (GroupFile target) (PDict (RuleGroup_to_dict validated));
  mret validated.

Definition add_group (group : RuleGroup) : RM unit :=
  target ← liftR (validate_group_name (rg_name group));
  _ ← save_validated target group;
  mret tt.

(** A name that is free according to [taken], tried with the suffixes -[n], -[n+1], ... *)
Fixpoint free_suffix (fuel : nat) (taken : string → res bool) (base : string) (n : N)
  : res string :=
  match fuel with
  | O => Err out_of_fuel
  | S fuel' =>
      let candidate := base +:+ "-" +:+ pretty n in
      b ← taken candidate;
      if b : bool then free_suffix fuel' taken base (n + 1) else Ok candidate
  end.

(** The plain name first, then the suffixes from 2 on *)
Definition free_name (fuel : nat) (taken : string → res bool) (base : string) : res string :=
  b ← taken base;
  if b : bool then free_suffix fuel taken base 2 else Ok base.

Definition backup_path (timestamp name : string) (d : rule_dir) : res string :=
  name ← validate_group_name name;
  free_name (S (length (rd_backups d))) (fun n => Ok (dict_has n (rd_backups d)))
    (name +:+ "-" +:+ timestamp).

Definition replace_rule_group (timestamp : string) (group : RuleGroup) (backup_existing : bool)
  : RM (option string) :=
  target ← liftR (validate_group_name (rg_name group));
  validated ← liftR (RuleGroup_from_dict (RuleGroup_to_dict group));
  d ← getS;
  backup ← match dict_get target (rd_groups d) with
           | Some v =>
               if backup_existing then
                 existing ← liftR (group_of_file v);
                 path ← liftR (backup_path timestamp (rg_name existing) d);
                 _ ← dump_json dk (BackupFile path) (PDict (RuleGroup_to_dict existing));
                 mret (Some path)
               else mret None
           | None => mret None
           end;
  _ ← dump_json dk (GroupFile target) (PDict (RuleGroup_to_dict validated));
  mret backup.

(** [sorted(self.path.glob("*.json"))] compares the file names. *)
Definition file_lt (a b : string * pyval) : bool :=
  String.ltb (a.1 +:+ ".json") (b.1 +:+ ".json").

Definition list_groups (d : rule_dir) : res (list RuleGroup) :=
  map_res (fun kv => group_of_file kv.2) (py_sorted file_lt (rd_groups d)).

Definition update_group (group : RuleGroup) : RM unit := add_group group.

Definition remove_group (name : string) : RM unit :=
  target ← liftR (validate_group_name name);
  d ← getS;
  if dict_has target (rd_groups d) then unlink dk target else mret tt.

Definition require_rule_group (name : string) : RM RuleGroup :=
  d ← getS;
  g ← liftR (get_group name d);
  match g with
  | Some g => mret g
  | None => raiseM RuleStoreError ("rule group not found: " +:+ name)
  end.

Definition with_group_enabled (b : bool) (g : RuleGroup) : RuleGroup := {|
  rg_name := rg_name g; rg_enabled := b; rg_rules := rg_rules g; rg_priority := rg_priority g |}.
Definition with_rules (rs : list Rule) (g : RuleGroup) : RuleGroup := {|
  rg_name := rg_name g; rg_enabled := rg_enabled g; rg_rules := rs; rg_priority := rg_priority g |}.
Definition with_priority (p : Z) (g : RuleGroup) : RuleGroup := {|
  rg_name := rg_name g; rg_enabled := rg_enabled g; rg_rules := rg_rules g; rg_priority := p |}.

Definition enable_group (name : string) : RM unit :=
  g ← require_rule_group name; update_group (with_group_enabled true g).

Definition disable_group (name : string) : RM unit :=
  g ← require_rule_group name; update_group (with_group_enabled false g).

(** [_load_required_group_unlocked] on the validated target *)
Definition load_required (target : string) : RM RuleGroup :=
  d ← getS;
  match dict_get target (rd_groups d) with
  | None => raiseM RuleStoreError ("rule group not found: " +:+ target)
  | Some v => liftR (group_of_file v)
  end.

Definition add_rule (group_name : string) (rule : Rule) : RM RuleGroup :=
  target ← liftR (validate_group_name group_name);
  group ← load_required target;
  _ ← liftR (ensure (negb (str_in (r_id rule) (map r_id (rg_rules group)))) RuleStoreError
        ("rule already exists: " +:+ r_id rule));
  save_validated target (with_rules (rg_rules group ++ [rule]) group).

Definition remove_rule (group_name rule_id : string) : RM RuleGroup :=
  target ← liftR (validate_group_name group_name);
  group ← load_required target;
  let rules := List.filter (fun r => negb (String.eqb (r_id r) rule_id)) (rg_rules group) in
  _ ← liftR (ensure (negb (length rules =? length (rg_rules group))%nat) RuleStoreError
        ("rule not found: " +:+ rule_id));
  save_validated target (with_rules rules group).

Definition set_priority (group_name : string) (priority : Z) : RM RuleGroup :=
  target ← liftR (validate_group_name group_name);
  group ← load_required target;
  save_validated target (with_priority priority group).

(** [Rule(id=..., action=..., conditions=..., enabled=enabled)] for the named rule *)
Definition set_enabled_in (rule_id : string) (enabled : bool) (r : Rule) : res Rule :=
  if String.eqb (r_id r) rule_id
  then Rule_post_init (r_id r) (r_action r) (conditions_val (r_conditions r)) enabled
  else Ok r.

Definition set_rule_enabled (group_name rule_id : string) (enabled : bool) : RM RuleGroup :=
  target ← liftR (validate_group_name group_name);
  group ← load_required target;
  _ ← liftR (ensure (str_in rule_id (map r_id (rg_rules group))) RuleStoreError
        ("rule not found: " +:+ rule_id));
  rules ← liftR (map_res (set_enabled_in rule_id enabled) (rg_rules group));
  save_validated target (with_rules rules group).

Fixpoint ensure_groups (names : list string) : RM unit :=
  match names with
  | [] => mret tt
  | name :: rest =>
      d ← getS;
      g ← liftR (get_group name d);
      _ ← match g with
          | None => group ← liftR (RuleGroup_post_init name true [] 100); add_group group
          | Some _ => mret tt
          end;
      ensure_groups rest
  end.

Definition ensure_default_groups : RM unit := ensure_groups DEFAULT_RULE_GROUPS.

Definition group_exists (d : rule_dir) (name : string) : res bool :=
  g ← get_group name d; Ok match g with Some _ => true | None => false end.

Definition import_group (timestamp : string) (rules : list Rule) (prefix : string)
  : RM RuleGroup :=
  d ← getS;
  name ← liftR (free_name (S (length (rd_groups d))) (group_exists d)
                  (prefix +:+ "-" +:+ timestamp));
  group ← liftR (RuleGroup_post_init name true rules 100);
  _ ← add_group group;
  mret group.
End store.

(** ** The store's invariant *)
Definition file_wf (kv : string * pyval) : Prop :=
  ∃ g, RuleGroup_wf g ∧ rg_name g = kv.1 ∧ kv.2 = PDict (RuleGroup_to_dict g).

Definition store_wf (d : rule_dir) : Prop :=
  NoDup (map fst (rd_groups d)) ∧ Forall file_wf (rd_groups d).

(** The group stored under a name *)
Definition stored `{PyStr} (d : rule_dir) (n : string) : option RuleGroup :=
  match dict_get n (rd_groups d) with
  | Some v => match group_of_file v with Ok g => Some g | Err _ => None end
  | None => None
  end.

(** A backup is never overwritten. *)
Definition backups_kept (d d' : rule_dir) : Prop :=
  ∀ n v, dict_get n (rd_backups d) = Some v → dict_get n (rd_backups d') = Some v.

(** Every group file of before is as it was. *)
Definition groups_kept (d d' : rule_dir) : Prop :=
  ∀ n v, dict_get n (rd_groups d) = Some v → dict_get n (rd_groups d') = Some v.

(** No write of the call fails after its publication. *)
Definition fails_clean (dk : disk) : Prop := ∀ path e, dk_write dk path ≠ WPublished e.

Section store_lemmas.
Context `{PyStr} (dk : disk).

Lemma group_of_file_wf g : RuleGroup_wf g → group_of_file (PDict (RuleGroup_to_dict g)) = Ok g.
Proof. intros Hg. unfold group_of_file. cbn [require_mapping mbind res_bind]. by apply RuleGroup_roundtrip. Qed.

Lemma stored_wf d n v :
  store_wf d → dict_get n (rd_groups d) = Some v →
  ∃ g, RuleGroup_wf g ∧ rg_name g = n ∧ group_of_file v = Ok g ∧ stored d n = Some g.
Proof.
  intros [_ Hf] Hv. unfold stored. rewrite Hv. apply dict_get_elem_of in Hv.
  rewrite Forall_forall in Hf. destruct (Hf _ Hv) as (g & Hg & Hn & Hval). cbn in Hn, Hval. subst v.
  exists g. by rewrite group_of_file_wf.
Qed.

Lemma stored_write d n g m :
  RuleGroup_wf g →
  stored (write_group n (PDict (RuleGroup_to_dict g)) d) m
  = if String.eqb m n then Some g else stored d m.
Proof.
  intros Hg. unfold stored, write_group. cbn [rd_groups]. rewrite dict_get_set.
  destruct (String.eqb m n); [|done]. by rewrite group_of_file_wf.
Qed.

Lemma write_group_wf d g :
  store_wf d → RuleGroup_wf g →
  store_wf (write_group (rg_name g) (PDict (RuleGroup_to_dict g)) d).
Proof.
  intros [Hn Hf] Hg. split; cbn [rd_groups write_group].
  - by apply dict_set_nodup.
  - apply dict_set_Forall; [by exists g | done].
Qed.

Lemma save_validated_wf n g d :
  RuleGroup_wf g → save_validated healthy n g d = (Ok g, write_group n (PDict (RuleGroup_to_dict g)) d).
Proof.
  intros Hg. unfold save_validated, mbind, pym_bind, liftR. by rewrite RuleGroup_roundtrip.
Qed.

(** Revalidation keeps the (normalised) name. *)
Lemma revalidated_name g g' :
  RuleGroup_from_dict (RuleGroup_to_dict g) = Ok g' → validate_group_name (rg_name g) = Ok (rg_name g').
Proof.
  unfold RuleGroup_from_dict. replace (reject_unknown_keys _ _ _) with (@Ok unit tt) by done.
  cbn -[Rule_from_dict RuleGroup_post_init Rule_to_dict].
  destruct (map_res _ _) as [rs|]; cbn -[RuleGroup_post_init]; [|done].
  unfold RuleGroup_post_init.
  destruct (validate_group_name (rg_name g)) as [t|] eqn:Et; cbn [mbind res_bind]; [|done].
  destruct (ensure _ _ _); cbn [mbind res_bind]; [|done]. by intros [= <-].
Qed.

(** A call keeps the invariant and the backups, and the group files when it raises. *)
Definition keeps_at {A} (m : RM A) (d : rule_dir) : Prop :=
  let '(r, d') := m d in
  store_wf d' ∧ backups_kept d d' ∧ ∀ e, r = Err e → fails_clean dk → rd_groups d' = rd_groups d.
Definition keeps_store {A} (m : RM A) : Prop := ∀ d, store_wf d → keeps_at m d.

Lemma kept_refl {A} (r : res A) d :
  store_wf d → store_wf d ∧ backups_kept d d ∧ ∀ e, r = Err e → fails_clean dk → rd_groups d = rd_groups d.
Proof. intros Hd. split; [exact Hd|]. split; [intros n v Hv; exact Hv|done]. Qed.

Lemma keeps_same {A} (m : RM A) (r : res A) d : store_wf d → m d = (r, d) → keeps_at m d.
Proof. intros Hd Hm. unfold keeps_at. rewrite Hm. by apply kept_refl. Qed.

Lemma keeps_lift {A B} (r : res A) (k : A → RM B) d :
  store_wf d → (∀ a, r = Ok a → keeps_at (k a) d) → keeps_at (liftR r ≫= k) d.
Proof.
  intros Hd Hk. unfold keeps_at, mbind, pym_bind, liftR. destruct r; [by apply Hk|]. by apply (kept_refl (Err e)).
Qed.

Lemma keeps_getS {B} (k : rule_dir → RM B) d : keeps_at (k d) d → keeps_at (getS ≫= k) d.
Proof. done. Qed.

Lemma keeps_drop {A B} (m : RM A) (k : A → B) d : keeps_at m d → keeps_at (x ← m; mret (k x)) d.
Proof.
  unfold keeps_at, mbind, pym_bind. destruct (m d) as [[a|e] d']; intros (H1 & H2 & H3); [done|].
  split; [done|]. split; [done|]. intros ? _. by apply (H3 e).
Qed.

(** The last write of a call: what came before left the group files alone. *)
Lemma write_target_keeps g d d1 :
  store_wf d1 → RuleGroup_wf g → backups_kept d d1 → rd_groups d1 = rd_groups d →
  let '(r, d') := dump_json dk (GroupFile (rg_name g)) (PDict (RuleGroup_to_dict g)) d1 in
  store_wf d' ∧ backups_kept d d' ∧ ∀ e, r = Err e → fails_clean dk → rd_groups d' = rd_groups d.
Proof.
  intros Hd Hg Hb Hr. unfold dump_json. destruct (dk_write dk _) as [|e|e] eqn:E; cbn [write_file].
  - split; [by apply write_group_wf|]. split; [exact Hb|done].
  - split; [exact Hd|]. split; [exact Hb|done].
  - split; [by apply write_group_wf|]. split; [exact Hb|]. intros e' _ Hc. by destruct (Hc _ _ E).
Qed.

Lemma keeps_save t g d :
  store_wf d → validate_group_name (rg_name g) = Ok t → keeps_at (save_validated dk t g) d.
Proof.
  intros Hd Ht. unfold save_validated. apply keeps_lift; [done|]. intros g' Hg'.
  pose proof (RuleGroup_from_dict_wf _ _ Hg') as Hw. apply revalidated_name in Hg'. rewrite Ht in Hg'.
  injection Hg' as ->. apply (keeps_drop (dump_json dk _ _) (fun _ => g')).
  apply (write_target_keeps g' d d); [exact Hd|exact Hw|intros n v Hv; exact Hv|done].
Qed.

Lemma keeps_load {B} t (k : RuleGroup → RM B) d :
  store_wf d →
  (∀ g, RuleGroup_wf g → rg_name g = t → stored d t = Some g → keeps_at (k g) d) →
  keeps_at (load_required t ≫= k) d.
Proof.
  intros Hd Hk. unfold keeps_at, load_required, mbind, pym_bind, getS.
  destruct (dict_get t (rd_groups d)) as [v|] eqn:Ev; [|by apply (kept_refl (Err _))].
  destruct (stored_wf _ _ _ Hd Ev) as (g & Hg & Hn & Hv & Hs). unfold liftR. rewrite Hv.
  by apply Hk.
Qed.

Lemma wf_name g : RuleGroup_wf g → validate_group_name (rg_name g) = Ok (rg_name g).
Proof. intros (Hs & _). by apply validate_group_name_slug. Qed.

Lemma keeps_add_group g : keeps_store (add_group dk g).
Proof.
  intros d Hd. apply keeps_lift; [done|]. intros t Ht. apply keeps_drop. by apply keeps_save.
Qed.

Lemma keeps_edit n (k : string → RuleGroup → RM RuleGroup) :
  (∀ d g, store_wf d → RuleGroup_wf g → keeps_at (k (rg_name g) g) d) →
  keeps_store (t ← liftR (validate_group_name n); g ← load_required t; k t g).
Proof.
  intros Hk d Hd. apply keeps_lift; [done|]. intros t Ht. apply keeps_load; [done|].
  intros g Hg <- _. by apply Hk.
Qed.

Lemma keeps_require {B} n (k : RuleGroup → RM B) d :
  store_wf d → (∀ g, RuleGroup_wf g → keeps_at (k g) d) → keeps_at (require_rule_group n ≫= k) d.
Proof.
  intros Hd Hk. unfold require_rule_group, get_group, read_group, keeps_at, mbind, pym_bind, getS, liftR.
  destruct (validate_group_name n) as [t|]; cbn [res_bind]; [|by apply (kept_refl (Err _))].
  destruct (dict_get t (rd_groups d)) as [v|] eqn:Ev; [|by apply (kept_refl (Err _))].
  destruct (stored_wf _ _ _ Hd Ev) as (g & Hg & _ & Hv & _). rewrite Hv. cbn. by apply Hk.
Qed.

Lemma store_wf_filter f d b :
  store_wf d → store_wf {| rd_groups := List.filter f (rd_groups d); rd_backups := b |}.
Proof.
  intros [Hn Hf]. split; cbn [rd_groups].
  - by apply filter_keep_nodup.
  - rewrite Forall_forall in Hf |- *. intros x [Hx _]%List_filter_elem_of. auto.
Qed.

Lemma keeps_remove n : keeps_store (remove_group dk n).
Proof.
  intros d Hd. apply keeps_lift; [done|]. intros t _. apply keeps_getS.
  destruct (dict_has t (rd_groups d)); [|by eapply keeps_same]. unfold keeps_at, unlink.
  destruct (dk_unlink dk t); [by apply (kept_refl (Err _))|]. split; [by apply store_wf_filter|].
  split; [intros m v Hv; exact Hv|done].
Qed.

(** The name found is free. *)
Lemma free_suffix_not_taken fuel taken base n name :
  free_suffix fuel taken base n = Ok name → taken name = Ok false.
Proof.
  revert n. induction fuel as [|fuel IH]; intros n; cbn [free_suffix]; [done|].
  destruct (taken (base +:+ "-" +:+ pretty n)) as [[]|] eqn:E; cbn [mbind res_bind]; [apply IH| |done]. by intros [= <-].
Qed.

Lemma backup_path_free ts n d path : backup_path ts n d = Ok path → dict_get path (rd_backups d) = None.
Proof.
  unfold backup_path. destruct (validate_group_name n) as [t|]; cbn [mbind res_bind]; [|done]. unfold free_name.
  assert (∀ p, Ok (dict_has p (rd_backups d)) = Ok false → dict_get p (rd_backups d) = None) as Hp.
  { intros p [= Hp]. unfold dict_has in Hp. by destruct (dict_get p _). }
  cbn [mbind res_bind]. destruct (dict_has _ (rd_backups d)) eqn:E.
  - intros Hf. apply Hp. by eapply (free_suffix_not_taken _ (fun n => Ok (dict_has n (rd_backups d)))).
  - intros [= <-]. apply Hp. by rewrite E.
Qed.

Lemma write_backup_kept path v d : dict_get path (rd_backups d) = None → backups_kept d (write_backup path v d).
Proof.
  intros Hp n x Hx. cbn. rewrite dict_get_set_ne; [done|]. intros ->. congruence.
Qed.

(** The backup is written before the target, and only to a free name. *)
Lemma keeps_replace ts g b : keeps_store (replace_rule_group dk ts g b).
Proof.
  intros d Hd. apply keeps_lift; [done|]. intros t Ht. apply keeps_lift; [done|]. intros g' Hg'.
  apply keeps_getS. pose proof (RuleGroup_from_dict_wf _ _ Hg') as Hw.
  apply revalidated_name in Hg'. rewrite Ht in Hg'. injection Hg' as ->.
  assert (∀ d1 (r : option string), store_wf d1 → backups_kept d d1 → rd_groups d1 = rd_groups d →
    let '(x, d') := (_ ← dump_json dk (GroupFile (rg_name g')) (PDict (RuleGroup_to_dict g')); mret r) d1 in
    store_wf d' ∧ backups_kept d d' ∧ ∀ e, x = Err e → fails_clean dk → rd_groups d' = rd_groups d) as Hend.
  { intros d1 r H1 H2 H3. pose proof (write_target_keeps g' d d1 H1 Hw H2 H3) as Hk. unfold mbind, pym_bind.
    destruct (dump_json dk _ _ d1) as [[u|e] d']; destruct Hk as (? & ? & Hk); [done|].
    split; [done|]. split; [done|]. intros ? _. by apply (Hk e). }
  unfold keeps_at. unfold mbind at 1, pym_bind at 1.
  assert (backups_kept d d) as Hrefl by (intros n x Hx; exact Hx).
  destruct (dict_get (rg_name g') (rd_groups d)) as [v|] eqn:Ev; [|by apply Hend].
  destruct b; [|by apply Hend]. unfold mbind at 1 2 3, pym_bind at 1 2 3, liftR.
  destruct (group_of_file v) as [ex|]; [|by apply (kept_refl (Err _))].
  destruct (backup_path ts (rg_name ex) d) as [path|] eqn:Ep; [|by apply (kept_refl (Err _))].
  apply backup_path_free in Ep. unfold dump_json at 1. destruct (dk_write dk (BackupFile path)) as [|e|e].
  - apply Hend; [exact Hd|by apply write_backup_kept|done].
  - by apply (kept_refl (Err _)).
  - split; [exact Hd|]. split; [by apply write_backup_kept|done].
Qed.

Lemma add_group_wf g d :
  RuleGroup_wf g → add_group healthy g d = (Ok tt, write_group (rg_name g) (PDict (RuleGroup_to_dict g)) d).
Proof.
  intros Hg. unfold add_group, mbind, pym_bind, liftR. rewrite wf_name by done.
  by rewrite save_validated_wf.
Qed.

Definition empty_group (n : string) : RuleGroup :=
  {| rg_name := n; rg_enabled := true; rg_rules := []; rg_priority := 100 |}.

(** Creating a missing group changes no other file, however its write ends. *)
Lemma add_missing n d :
  slug_core n = true → store_wf d → dict_get n (rd_groups d) = None →
  let d' := (add_group dk (empty_group n) d).2 in
  store_wf d' ∧ rd_backups d' = rd_backups d ∧ groups_kept d d'.
Proof.
  intros Hs Hd Hn.
  assert (RuleGroup_wf (empty_group n)) as Hg
    by (split; [done | split; [constructor | apply NoDup_nil_2]]).
  assert (groups_kept d (write_group n (PDict (RuleGroup_to_dict (empty_group n))) d)) as Hk.
  { intros m v Hm. cbn [write_group rd_groups]. rewrite dict_get_set_ne; [done|]. intros ->. congruence. }
  unfold add_group, save_validated, mbind, pym_bind, liftR. rewrite wf_name, RuleGroup_roundtrip by done.
  unfold dump_json. destruct (dk_write dk _); cbn [write_file snd].
  - split; [by apply (write_group_wf d (empty_group n))|]. split; [done|exact Hk].
  - split; [exact Hd|]. split; [done|]. intros m v Hm. exact Hm.
  - split; [by apply (write_group_wf d (empty_group n))|]. split; [done|exact Hk].
Qed.

Lemma ensure_groups_keeps names d :
  Forall (fun n => slug_core n = true) names → store_wf d →
  let d' := (ensure_groups dk names d).2 in
  store_wf d' ∧ rd_backups d' = rd_backups d ∧ groups_kept d d'.
Proof.
  intros Hn. revert d. induction Hn as [|n names Hs _ IH]; intros d Hd;
    [split; [exact Hd|]; split; [done|]; intros m v Hm; exact Hm|].
  cbn [ensure_groups]. unfold get_group, read_group, mbind, pym_bind, getS, liftR.
  rewrite validate_group_name_slug by done. cbn [res_bind].
  destruct (dict_get n (rd_groups d)) as [v|] eqn:Ev.
  { destruct (stored_wf _ _ _ Hd Ev) as (g & _ & _ & Hv & _). rewrite Hv. cbn. by apply IH. }
  assert (RuleGroup_post_init n true [] 100 = Ok (empty_group n)) as ->.
  { unfold RuleGroup_post_init. by rewrite validate_group_name_slug. }
  pose proof (add_missing n d Hs Hd Ev) as Hadd. cbn zeta in Hadd |- *.
  destruct (add_group dk (empty_group n) d) as [[u|e] d1]; cbn [snd] in Hadd |- *; [|done].
  destruct Hadd as (Hd1 & Hb & Hg). destruct (IH d1 Hd1) as (Hd2 & Hb2 & Hg2).
  split; [done|]. split; [congruence|]. intros m v Hm. by apply Hg2, Hg.
Qed.
End store_lemmas.

(** One call of a method that changes the rule directory *)
Inductive rule_store_op : Type :=
| RAddGroup (g : RuleGroup) | RRemoveGroup (n : string) | REnable (n : string) | RDisable (n : string)
| RAddRule (n : string) (r : Rule) | RRemoveRule (n i : string) | RPriority (n : string) (p : Z)
| RRuleEnabled (n i : string) (b : bool)
| RReplace (ts : string) (g : RuleGroup) (backup : bool)
| RImport (ts : string) (rules : list Rule) (prefix : string)
| REnsureDefaults.

Definition run_rule_op `{PyStr} (dk : disk) (op : rule_store_op) : RM unit :=
  match op with
  | RAddGroup g => add_group dk g
  | RRemoveGroup n => remove_group dk n
  | REnable n => enable_group dk n
  | RDisable n => disable_group dk n
  | RAddRule n r => _ ← add_rule dk n r; mret tt
  | RRemoveRule n i => _ ← remove_rule dk n i; mret tt
  | RPriority n p => _ ← set_priority dk n p; mret tt
  | RRuleEnabled n i b => _ ← set_rule_enabled dk n i b; mret tt
  | RReplace ts g b => _ ← replace_rule_group dk ts g b; mret tt
  | RImport ts rs p => _ ← import_group dk ts rs p; mret tt
  | REnsureDefaults => ensure_default_groups dk
  end.

(** What one call does to a well-formed directory *)
Definition call_keeps `{PyStr} (dk : disk) (op : rule_store_op) (d : rule_dir) : Prop :=
  let '(r, d') := run_rule_op dk op d in
  store_wf d' ∧ backups_kept d d'
  ∧ ∀ e, r = Err e → fails_clean dk →
      groups_kept d d' ∧ (op ≠ REnsureDefaults → rd_groups d' = rd_groups d).

Section rule_ops.
Context `{PyStr} (dk : disk).

Lemma keeps_at_call op d : keeps_at dk (run_rule_op dk op) d → call_keeps dk op d.
Proof.
  unfold keeps_at, call_keeps. destruct (run_rule_op dk op d) as [r d']. intros (H1 & H2 & H3).
  split; [done|]. split; [done|]. intros e He Hc. pose proof (H3 e He Hc) as Hg. split; [|done].
  intros n v. by rewrite Hg.
Qed.

Lemma call_keeps_wf op d : store_wf d → call_keeps dk op d.
Proof.
  intros Hd. destruct op; lazymatch goal with
    | |- call_keeps _ REnsureDefaults _ => idtac
    | _ => apply keeps_at_call; cbn [run_rule_op]; try apply keeps_drop
    end.
  - by apply keeps_add_group.
  - by apply keeps_remove.
  - apply keeps_require; [done|]. intros g _. by apply keeps_add_group.
  - apply keeps_require; [done|]. intros g _. by apply keeps_add_group.
  - apply keeps_edit; [|done]. intros d' g Hd' Hg. apply keeps_lift; [done|]. intros _ _.
    apply keeps_save; [done|]. exact (wf_name g Hg).
  - apply keeps_edit; [|done]. intros d' g Hd' Hg. apply keeps_lift; [done|]. intros _ _.
    apply keeps_save; [done|]. exact (wf_name g Hg).
  - apply keeps_edit; [|done]. intros d' g Hd' Hg. apply keeps_save; [done|]. exact (wf_name g Hg).
  - apply keeps_edit; [|done]. intros d' g Hd' Hg. apply keeps_lift; [done|]. intros _ _.
    apply keeps_lift; [done|]. intros rs _. apply keeps_save; [done|]. exact (wf_name g Hg).
  - by apply keeps_replace.
  - apply keeps_getS, keeps_lift; [done|]. intros name _. apply keeps_lift; [done|]. intros g _.
    by apply keeps_drop, keeps_add_group.
  - unfold call_keeps. cbn [run_rule_op]. unfold ensure_default_groups.
    assert (Forall (fun n => slug_core n = true) DEFAULT_RULE_GROUPS) as Hslug by (repeat constructor).
    pose proof (ensure_groups_keeps dk DEFAULT_RULE_GROUPS d Hslug Hd) as Hk. cbn zeta in Hk.
    destruct (ensure_groups dk DEFAULT_RULE_GROUPS d) as [r d']. destruct Hk as (Hd' & Hb & Hg).
    split; [exact Hd'|]. split; [intros n v; cbn in Hb; by rewrite Hb|]. intros e _ _. by split.
Qed.
End rule_ops.

(** A rule directory that is still empty *)
Definition empty_dir : rule_dir := {| rd_groups := []; rd_backups := [] |}.

(** C32: starting from an empty directory, after any sequence of store calls on a file system that
    may refuse any write or deletion (raising calls included), every group file holds a
    well-formed group under its own name, with distinct names.  From there, no call overwrites a
    backup, and a call that raises leaves every existing group file as it was (a replacement may
    have written its backup, and the creation of the default groups may have added some of the
    missing ones; all other calls add no group file), unless a write raised after its
    replacement was published. *)
Theorem rule_store_invariant `{PyStr} (calls : list (disk * rule_store_op)) :
  let d := foldl (fun d c => (run_rule_op c.1 c.2 d).2) empty_dir calls in
  store_wf d
  ∧ ∀ dk op, let '(r, d') := run_rule_op dk op d in
      backups_kept d d'
      ∧ ∀ e, r = Err e → fails_clean dk →
          groups_kept d d' ∧ (op ≠ REnsureDefaults → rd_groups d' = rd_groups d).
Proof.
  cbn zeta.
  assert (∀ d, store_wf d → store_wf (foldl (fun d c => (run_rule_op c.1 c.2 d).2) d calls)) as Hall.
  { induction calls as [|[dk op] calls IH]; intros d Hd; [done|]. cbn. apply IH.
    pose proof (call_keeps_wf dk op d Hd) as Hk. unfold call_keeps in Hk.
    destruct (run_rule_op dk op d). apply Hk. }
  assert (store_wf empty_dir) as H0 by (split; [apply NoDup_nil_2 | constructor]).
  split; [by apply Hall|]. intros dk op. pose proof (call_keeps_wf dk op _ (Hall _ H0)) as Hk.
  unfold call_keeps in Hk. destruct (run_rule_op dk op _) as [r d']. tauto.
Qed.

(** A replacement whose second write is refused raises after its backup was written. *)
Example refused_replacement_leaves_backup :
  let dk := {| dk_write := fun path => match path with GroupFile _ => WRefused (Exn OSError "disk full")
                                       | BackupFile _ => WDone end; dk_unlink := fun _ => None |} in
  let d := (@add_group demo_pystr healthy (empty_group "home") empty_dir).2 in
  let '(r, d') := @replace_rule_group demo_pystr dk "1" (empty_group "home") true d in
  r = Err (Exn OSError "disk full") ∧ rd_groups d' = rd_groups d
  ∧ map fst (rd_backups d') = ["home-1"].
Proof. vm_compute. auto. Qed.

(** ** Free names *)
Lemma lstrip_app_nonspace p a c b :
  p c = false → lstrip_by p (a +:+ String c b) = lstrip_by p a +:+ String c b.
Proof.
  intros Hc. induction a as [|x a IH].
  - change ("" +:+ String c b) with (String c b). cbn [lstrip_by]. by rewrite Hc.
  - change (String x a +:+ String c b) with (String x (a +:+ String c b)). cbn [lstrip_by].
    by destruct (p x).
Qed.

Lemma rstrip_app_kept p a t : rstrip_by p t = t → t ≠ "" → rstrip_by p (a +:+ t) = a +:+ t.
Proof.
  intros Ht Hn. induction a as [|x a IH]; [done|].
  change (String x a +:+ t) with (String x (a +:+ t)). cbn [rstrip_by]. rewrite IH.
  assert (String.eqb (a +:+ t) "" = false) as ->; [|by rewrite andb_false_r].
  apply String.eqb_neq. by destruct a, t.
Qed.

Lemma pretty_N_no_space (n : N) : forall_chars (fun c => negb (is_space c)) (pretty n) = true.
Proof.
  assert (∀ x, is_space (pretty_N_char x) = false) as Hc.
  { intros x. unfold pretty_N_char. repeat case_match; done. }
  unfold pretty, pretty_N. case_decide; [done|].
  assert (∀ s, forall_chars (fun c => negb (is_space c)) s = true →
    forall_chars (fun c => negb (is_space c)) (pretty_N_go n s) = true) as Hgo; [|by apply Hgo].
  clear H. induction (N.lt_wf_0 n) as [x _ IH]. intros s Hs.
  destruct (decide (0 < x)%N) as [Hx|Hx].
  - rewrite pretty_N_go_step by done. apply IH; [by apply N.div_lt|]. cbn [forall_chars]. by rewrite Hc, Hs.
  - assert (x = 0)%N as -> by lia. by rewrite pretty_N_go_0.
Qed.

(** The file a suffixed candidate is looked up under *)
Lemma strip_candidate base (n : N) :
  strip (base +:+ "-" +:+ pretty n) = lstrip base +:+ String "-" (pretty n).
Proof.
  unfold strip, lstrip.
  change (base +:+ "-" +:+ pretty n) with (base +:+ String "-" (pretty n)).
  rewrite lstrip_app_nonspace by done. apply rstrip_app_kept; [|done].
  apply rstrip_forall. cbn [forall_chars]. by rewrite pretty_N_no_space.
Qed.

Lemma validate_group_name_strip n t : validate_group_name n = Ok t → t = strip n.
Proof. unfold validate_group_name. cbn zeta. destruct (slug_match (strip n)); [|done]. by intros [= <-]. Qed.

Section import.
Context `{PyStr}.

Lemma group_exists_wf d n :
  store_wf d →
  (∃ t, validate_group_name n = Ok t ∧ group_exists d n = Ok (dict_has t (rd_groups d)))
  ∨ ∃ e, group_exists d n = Err e ∧ exn_class e = ValueError.
Proof.
  intros Hd. unfold group_exists, get_group, read_group, dict_has.
  destruct (validate_group_name n) as [t|e] eqn:Et; cbn [mbind res_bind].
  - left. exists t. split; [done|]. destruct (dict_get t (rd_groups d)) as [v|] eqn:Ev; [|done].
    destruct (stored_wf _ _ _ Hd Ev) as (g & _ & _ & Hv & _). by rewrite Hv.
  - right. exists e. split; [done|]. unfold validate_group_name in Et. cbn zeta in Et.
    destruct (slug_match (strip n)); [done|]. by injection Et as <-.
Qed.

(** Running out of fuel means that many distinct names are taken. *)
Lemma free_suffix_fuel d base fuel n :
  store_wf d → free_suffix fuel (group_exists d) base n = Err out_of_fuel →
  ∃ l, length l = fuel ∧ NoDup l ∧ (∀ x, x ∈ l → x ∈ map fst (rd_groups d))
       ∧ (∀ x, x ∈ l → ∃ k, (n <= k)%N ∧ x = lstrip base +:+ String "-" (pretty k)).
Proof.
  intros Hd. revert n. induction fuel as [|fuel IH]; intros n; cbn [free_suffix].
  { intros _. exists []. split; [done|]. split; [apply NoDup_nil_2|].
    split; intros x Hx; by apply not_elem_of_nil in Hx. }
  cbn zeta. destruct (group_exists_wf d (base +:+ "-" +:+ pretty n) Hd) as [(t & Ht & Hb)|(e & He & Hk)].
  2: { rewrite He. cbn [mbind res_bind]. intros [= ->]. discriminate Hk. }
  rewrite Hb. cbn [mbind res_bind]. destruct (dict_has t (rd_groups d)) eqn:Eh; [|done].
  intros (l & Hl & Hn & Hin & Hk)%IH. exists (t :: l). cbn [length]. rewrite Hl.
  apply validate_group_name_strip in Ht. rewrite strip_candidate in Ht. split; [done|].
  split; [apply NoDup_cons; split; [|done]|]; [|split].
  - intros (k & Hk1 & Hk2)%Hk. rewrite Ht in Hk2.
    apply last_dash_inj in Hk2 as [_ Hk2]; [|apply pretty_N_no_dash..].
    apply (inj pretty) in Hk2. lia.
  - intros x [->|Hx]%elem_of_cons; [|by apply Hin]. unfold dict_has in Eh.
    destruct (dict_get t (rd_groups d)) as [v|] eqn:Ev; [|done]. apply dict_get_elem_of in Ev.
    apply list_elem_of_In, (in_map fst _ (t, v)), list_elem_of_In, Ev.
  - intros x [->|Hx]%elem_of_cons; [exists n; split; [lia | done]|].
    destruct (Hk x Hx) as (k & Hk1 & Hk2). exists k. split; [lia | done].
Qed.

Lemma free_name_fuel d base :
  store_wf d → free_name (S (length (rd_groups d))) (group_exists d) base ≠ Err out_of_fuel.
Proof.
  intros Hd. unfold free_name.
  destruct (group_exists_wf d base Hd) as [(t & _ & ->)|(e & -> & Hk)]; cbn [mbind res_bind].
  - destruct (dict_has t (rd_groups d)); [|done].
    intros (l & Hl & Hn & Hin & _)%free_suffix_fuel; [|done].
    pose proof (submseteq_length _ _ (NoDup_submseteq _ _ Hn Hin)) as Hlen.
    rewrite length_map in Hlen. lia.
  - intros [= ->]. discriminate Hk.
Qed.

Lemma free_suffix_free fuel d base n name :
  store_wf d → free_suffix fuel (group_exists d) base n = Ok name → group_exists d name = Ok false.
Proof.
  intros Hd. revert n. induction fuel as [|fuel IH]; intros n; cbn [free_suffix]; [done|]. cbn zeta.
  destruct (group_exists d (base +:+ "-" +:+ pretty n)) as [[]|] eqn:E; cbn [mbind res_bind];
    [apply IH | | done].
  by intros [= <-].
Qed.

Lemma free_name_free fuel d base name :
  store_wf d → free_name fuel (group_exists d) base = Ok name → group_exists d name = Ok false.
Proof.
  intros Hd. unfold free_name.
  destruct (group_exists d base) as [[]|] eqn:E; cbn [mbind res_bind]; [| | done].
  - by apply free_suffix_free.
  - by intros [= <-].
Qed.

(** importing always finishes and never overwrites.  On a valid directory and a file system
    on which writes succeed, the search for a free group name ends within one step per existing file; when the call
    succeeds, the new group's name was not in use, it holds the imported rules in
    order, it can be read back, and every other group is as before; when it raises,
    the directory is unchanged. *)
Theorem import_group_fresh ts rules prefix d
    (Hd : store_wf d) (Hr : Forall Rule_wf rules) :
  match import_group healthy ts rules prefix d with
  | (Ok g, d') =>
      dict_get (rg_name g) (rd_groups d) = None ∧ rg_rules g = rules
      ∧ stored d' (rg_name g) = Some g
      ∧ ∀ n, n ≠ rg_name g → stored d' n = stored d n
  | (Err e, d') => e ≠ out_of_fuel ∧ d' = d
  end.
Proof.
  unfold import_group, mbind, pym_bind, getS, liftR.
  pose proof (free_name_fuel d (prefix +:+ "-" +:+ ts) Hd) as Hfuel.
  destruct (free_name _ _ _) as [name|e] eqn:En; [|by split; [congruence|]].
  apply free_name_free in En; [|done].
  destruct (group_exists_wf d name Hd) as [(t & Ht & Hb)|(e & He & _)]; [|congruence].
  rewrite Hb in En. injection En as En. unfold RuleGroup_post_init. rewrite Ht. cbn [mbind res_bind].
  destruct (negb (has_duplicates (map r_id rules))) eqn:Eu; cbn [ensure mbind res_bind]; [|done].
  set (g := {| rg_name := t; rg_enabled := true; rg_rules := rules; rg_priority := 100 |}).
  assert (RuleGroup_wf g) as Hg.
  { split; [by eapply validate_group_name_ok|]. split; [done|]. by apply has_duplicates_false. }
  rewrite add_group_wf by done. cbn [rg_name rg_rules g].
  unfold dict_has in En. destruct (dict_get t (rd_groups d)) eqn:Ev; [done|].
  split; [done|]. split; [done|]. split.
  - rewrite stored_write by done. by rewrite String.eqb_refl.
  - intros n Hn. rewrite stored_write by done. by rewrite (proj2 (String.eqb_neq n t) Hn).
Qed.
End import.

(** ** Editing a group *)
Definition rule_with_enabled (b : bool) (r : Rule) : Rule :=
  {| r_id := r_id r; r_action := r_action r; r_conditions := r_conditions r; r_enabled := b |}.

(** The rules with the flag of one of them set *)
Definition flag_rule (rule_id : string) (b : bool) (rules : list Rule) : list Rule :=
  map (fun r => if String.eqb (r_id r) rule_id then rule_with_enabled b r else r) rules.

Section edits.
Context `{PyStr}.

Lemma Rule_post_init_again r b :
  Rule_wf r →
  Rule_post_init (r_id r) (r_action r) (conditions_val (r_conditions r)) b
  = Ok (rule_with_enabled b r).
Proof. intros Hr. exact (Rule_roundtrip (rule_with_enabled b r) Hr). Qed.

Lemma flag_rules_ok rule_id b rules :
  Forall Rule_wf rules → map_res (set_enabled_in rule_id b) rules = Ok (flag_rule rule_id b rules).
Proof.
  induction 1 as [|r rules Hr _ IH]; [done|]. cbn [map_res].
  assert (set_enabled_in rule_id b r
    = Ok (if String.eqb (r_id r) rule_id then rule_with_enabled b r else r)) as ->.
  { unfold set_enabled_in. destruct (String.eqb (r_id r) rule_id); [|done].
    by apply Rule_post_init_again. }
  cbn [mbind res_bind]. by rewrite IH.
Qed.

Lemma filter_id_length i (rules : list Rule) :
  (length (List.filter (fun r => negb (String.eqb (r_id r) i)) rules) =? length rules)%nat
  = negb (str_in i (map r_id rules)).
Proof.
  induction rules as [|r rules IH]; [done|]. cbn [List.filter map str_in existsb length].
  rewrite (String.eqb_sym i (r_id r)). destruct (String.eqb (r_id r) i); cbn [negb orb length]; [|exact IH].
  apply Nat.eqb_neq. pose proof (filter_length_le (fun r => negb (String.eqb (r_id r) i)) rules). lia.
Qed.

Lemma flag_rule_wf i b rules : Forall Rule_wf rules → Forall Rule_wf (flag_rule i b rules).
Proof.
  unfold flag_rule. intros Hr. apply Forall_map. eapply Forall_impl; [exact Hr|].
  intros r Hw. cbn. by destruct (String.eqb (r_id r) i).
Qed.

Lemma flag_rule_ids rule_id b rules : map r_id (flag_rule rule_id b rules) = map r_id rules.
Proof.
  unfold flag_rule. rewrite map_map. apply map_ext. intros r. by destruct (String.eqb _ _).
Qed.

Lemma edit_loaded {A} n g d (k : string → RuleGroup → RM A) :
  store_wf d → stored d n = Some g →
  RuleGroup_wf g ∧ rg_name g = n
  ∧ (t ← liftR (validate_group_name n); x ← load_required t; k t x) d = k n g d.
Proof.
  intros Hd Hs. unfold stored in Hs. destruct (dict_get n (rd_groups d)) as [v|] eqn:Ev; [|done].
  destruct (stored_wf _ _ _ Hd Ev) as (g' & Hg & Hn & Hv & _). rewrite Hv in Hs. injection Hs as <-.
  split; [done|]. split; [done|]. unfold load_required, mbind, pym_bind, liftR, getS.
  rewrite <- Hn, wf_name by done. rewrite Hn, Ev. by rewrite Hv.
Qed.

Lemma save_edit n g g' d :
  RuleGroup_wf g' → rg_name g' = n → stored d n = Some g →
  let '(r, d') := save_validated healthy n g' d in
  r = Ok g' ∧ stored d' n = Some g' ∧ (∀ m, m ≠ n → stored d' m = stored d m).
Proof.
  intros Hg' Hn Hs. rewrite save_validated_wf by done. split; [done|].
  split; [|intros m Hm]; rewrite stored_write by done.
  - by rewrite String.eqb_refl.
  - by rewrite (proj2 (String.eqb_neq _ _) Hm).
Qed.

(** on a file system on which writes succeed, edits of a stored group do what they say and
    nothing else.  Adding a rule with
    a fresh id appends it; with an id in use it raises [RuleStoreError].  Removing
    drops exactly the rules with that id and setting the flag changes only the flag of
    the named rule, and both raise when there is none; all other groups, the order of
    the rules and everything else in the group stay, and a refused edit changes
    nothing. *)
Theorem rule_edits n g d (Hd : store_wf d) (Hs : stored d n = Some g) :
  (∀ r, Rule_wf r →
     if str_in (r_id r) (map r_id (rg_rules g))
     then add_rule healthy n r d = (Err (Exn RuleStoreError ("rule already exists: " +:+ r_id r)), d)
     else let '(res, d') := add_rule healthy n r d in
          res = Ok (with_rules (rg_rules g ++ [r]) g)
          ∧ stored d' n = Some (with_rules (rg_rules g ++ [r]) g)
          ∧ ∀ m, m ≠ n → stored d' m = stored d m)
  ∧ (∀ i, let kept := List.filter (fun r => negb (String.eqb (r_id r) i)) (rg_rules g) in
     if str_in i (map r_id (rg_rules g))
     then let '(res, d') := remove_rule healthy n i d in
          res = Ok (with_rules kept g) ∧ stored d' n = Some (with_rules kept g)
          ∧ ∀ m, m ≠ n → stored d' m = stored d m
     else remove_rule healthy n i d = (Err (Exn RuleStoreError ("rule not found: " +:+ i)), d))
  ∧ (∀ i b,
     if str_in i (map r_id (rg_rules g))
     then let '(res, d') := set_rule_enabled healthy n i b d in
          res = Ok (with_rules (flag_rule i b (rg_rules g)) g)
          ∧ stored d' n = Some (with_rules (flag_rule i b (rg_rules g)) g)
          ∧ ∀ m, m ≠ n → stored d' m = stored d m
     else set_rule_enabled healthy n i b d = (Err (Exn RuleStoreError ("rule not found: " +:+ i)), d)).
Proof.
  split; [|split].
  - intros r Hr. unfold add_rule.
    destruct (edit_loaded n g d (fun t group => _ ← liftR (ensure (negb (str_in (r_id r)
      (map r_id (rg_rules group)))) RuleStoreError ("rule already exists: " +:+ r_id r));
      save_validated healthy t (with_rules (rg_rules group ++ [r]) group)) Hd Hs) as (Hg & Hn & ->).
    unfold mbind, pym_bind, liftR. destruct (str_in _ _) eqn:Ei; cbn [negb ensure]; [done|].
    apply save_edit with (g := g); [|done|done]. destruct Hg as (H1 & H2 & H3). split; [done|].
    split; [apply Forall_app; by split; [|constructor]|]. cbn [with_rules rg_rules]. rewrite map_app.
    apply NoDup_app. split; [done|]. split; [|apply NoDup_singleton].
    apply str_in_false in Ei. intros x Hx Hx'. apply list_elem_of_singleton in Hx' as ->. done.
  - intros i. cbn zeta. unfold remove_rule.
    destruct (edit_loaded n g d (fun t group =>
      _ ← liftR (ensure (negb (length (List.filter (fun r => negb (String.eqb (r_id r) i))
            (rg_rules group)) =? length (rg_rules group))%nat) RuleStoreError
        ("rule not found: " +:+ i));
      save_validated healthy t (with_rules (List.filter (fun r => negb (String.eqb (r_id r) i))
        (rg_rules group)) group)) Hd Hs) as (Hg & Hn & ->).
    unfold mbind, pym_bind, liftR. rewrite filter_id_length.
    destruct (str_in i (map r_id (rg_rules g))); cbn [negb ensure]; [|done].
    apply save_edit with (g := g); [|done|done]. destruct Hg as (H1 & H2 & H3). split; [done|].
    split; [|by apply filter_keep_nodup]. rewrite Forall_forall in H2 |- *.
    intros x [Hx _]%List_filter_elem_of. auto.
  - intros i b. unfold set_rule_enabled.
    destruct (edit_loaded n g d (fun t group =>
      _ ← liftR (ensure (str_in i (map r_id (rg_rules group))) RuleStoreError
        ("rule not found: " +:+ i));
      rules ← liftR (map_res (set_enabled_in i b) (rg_rules group));
      save_validated healthy t (with_rules rules group)) Hd Hs) as (Hg & Hn & ->).
    unfold mbind, pym_bind, liftR. destruct Hg as (H1 & H2 & H3).
    destruct (str_in i (map r_id (rg_rules g))); cbn [ensure]; [|done].
    rewrite flag_rules_ok by done. apply save_edit with (g := g); [|done|done].
    split; [done|]. split; [by apply flag_rule_wf|]. cbn [with_rules rg_rules]. by rewrite flag_rule_ids.
Qed.
End edits.

Definition demo_dir : rule_dir :=
  {| rd_groups := map (fun g => (rg_name g, PDict (RuleGroup_to_dict g))) demo_rule_groups;
     rd_backups := [] |}.

Lemma demo_dir_wf : store_wf demo_dir.
Proof.
  split; [by apply (bool_decide_unpack _)|]. apply Forall_map.
  assert (Forall RuleGroup_wf demo_rule_groups) as Hw.
  { unfold demo_rule_groups. repeat (apply Forall_cons; split; [match goal with |- RuleGroup_wf ?g =>
      apply (@RuleGroup_from_dict_wf demo_pystr (RuleGroup_to_dict g)); vm_compute; reflexivity end|]).
    constructor. }
  eapply Forall_impl; [exact Hw|]. intros g Hg. by exists g.
Qed.

Lemma import_group_fresh_witness :
  ∃ g d', @import_group demo_pystr healthy "1" [demo_rule "x" "block" "port" "25"] "imported" demo_dir
          = (Ok g, d') ∧ rg_name g = "imported-1-2" ∧ @stored demo_pystr d' "imported-1-2" = Some g.
Proof.
  pose proof (@import_group_fresh demo_pystr "1" [demo_rule "x" "block" "port" "25"] "imported"
    demo_dir demo_dir_wf) as H.
  destruct (@import_group demo_pystr _ _ _ _ _) as [[g|e] d'] eqn:E; [|vm_compute in E; discriminate].
  exists g, d'. split; [reflexivity|].
  assert (rg_name g = "imported-1-2") as Hn by (vm_compute in E; injection E as <- _; reflexivity).
  split; [exact Hn|]. rewrite <- Hn. apply H. constructor; [|constructor].
  apply (@Rule_from_dict_wf demo_pystr (PDict (Rule_to_dict (demo_rule "x" "block" "port" "25")))).
  vm_compute. reflexivity.
Defined.

Lemma rule_edits_witness :
  ∃ g, @stored demo_pystr demo_dir "recommended" = Some g
    ∧ @remove_rule demo_pystr healthy "recommended" "nope" demo_dir
      = (Err (Exn RuleStoreError "rule not found: nope"), demo_dir).
Proof.
  destruct (@stored demo_pystr demo_dir "recommended") as [g|] eqn:E;
    [|vm_compute in E; discriminate].
  exists g. split; [reflexivity|].
  destruct (@rule_edits demo_pystr "recommended" g demo_dir demo_dir_wf E) as (_ & H & _).
  specialize (H "nope"). vm_compute in E. injection E as <-. exact H.
Defined.
