(* ===== verification/StateManager.v ===== *)
(** * The persistent runtime state: state.toml

    config/state_manager.py, at two levels.  [StateManager_load], [StateManager_save] and
    [StateManager_set] work on what the file reads as: absent, unreadable (invalid TOML or an I/O
    error), or a table; this is the level the watchdog's model uses.  [text_load] and [text_save]
    work on the text: they read it with tomllib and write it with tomli_w or, without that
    package, with the renderer of the source.  [text_save_refines] says when the text level
    implements the table level, and [fallback_reads_escapes] when it does not. *)
From stdpp Require Import base list strings gmap pretty sorting.
From Stdlib Require Import Ascii QArith.
From S2P Require Import Prelude PyData PyText NodeGroups RouteChains Rules.

Definition DEFAULT_STATE : pydict pyval :=
  [ ("app_autostart_enabled", PBool false); ("vpn_autoconnect_enabled", PBool false);
    ("vpn_desired_state", PStr "off"); ("active_profile_id", PStr "");
    ("routing_state_version", PStr "1"); ("routing_policy", PStr "rule");
    ("capture_modes", PStr "local_proxy,tun"); ("default_route_action", PStr "current");
    ("active_mode", PStr "rules"); ("language_mode", PStr "system");
    ("selected_language", PStr "en"); ("last_failure_reason", PStr "");
    ("last_failure_at", PStr "") ].

Definition ALLOWED_VPN_DESIRED_STATES : list string := ["on"; "off"].
Definition ALLOWED_ACTIVE_MODES : list string := ["rules"; "global"; "direct"; "tun"; "proxy"].
Definition SUPPORTED_ROUTING_STATE_VERSION : string := "1".
Definition ALLOWED_ROUTING_POLICIES : list string := ["rule"; "global"].
Definition ALLOWED_CAPTURE_MODES : list string := ["local_proxy"; "tun"; "system_proxy"].
Definition CAPTURE_MODE_ORDER : list string := ["local_proxy"; "tun"; "system_proxy"].
Definition CONNECTABLE_CAPTURE_MODE_SETS : list (list string) :=
  [["local_proxy"]; ["local_proxy"; "tun"]].
Definition REPRESENTABLE_CAPTURE_MODE_SETS : list (list string) :=
  CONNECTABLE_CAPTURE_MODE_SETS
  ++ [["local_proxy"; "system_proxy"]; ["local_proxy"; "tun"; "system_proxy"]].
Definition ALLOWED_DEFAULT_ROUTE_ACTIONS : list string := ["current"; "direct"; "block"].
Definition ALLOWED_LANGUAGE_MODES : list string := ["system"; "manual"].
Definition STATE_BOOL_FIELDS : list string := ["app_autostart_enabled"; "vpn_autoconnect_enabled"].
Definition STATE_STRING_FIELDS : list string :=
  [ "vpn_desired_state"; "active_profile_id"; "routing_state_version"; "routing_policy";
    "capture_modes"; "default_route_action"; "active_mode"; "language_mode"; "selected_language";
    "last_failure_reason"; "last_failure_at" ].
Definition ROUTING_STATE_FIELDS : list string :=
  ["routing_state_version"; "routing_policy"; "capture_modes"; "default_route_action"].

Definition routing_state (policy modes action : string) : pydict pyval :=
  [ ("routing_state_version", PStr SUPPORTED_ROUTING_STATE_VERSION); ("routing_policy", PStr policy);
    ("capture_modes", PStr modes); ("default_route_action", PStr action) ].

Definition LEGACY_MODE_TO_ROUTING_STATE : pydict (pydict pyval) :=
  [ ("rules", routing_state "rule" "local_proxy,tun" "current");
    ("global", routing_state "global" "local_proxy,tun" "current");
    ("direct", routing_state "global" "local_proxy" "direct");
    ("tun", routing_state "global" "local_proxy,tun" "current");
    ("proxy", routing_state "global" "local_proxy" "current") ].

Definition routing_state_from_legacy_mode (mode : string) : res (pydict pyval) :=
  match dict_get mode LEGACY_MODE_TO_ROUTING_STATE with
  | Some d => Ok d
  | None => raise PersistentValidationError
              "active_mode must be one of: rules, global, direct, tun, proxy"
  end.

Definition parse_capture_modes (value : string) : res (list string) :=
  let raw_modes := List.filter truthy_str (map strip (split_on "," value)) in
  _ ← ensure (match raw_modes with [] => false | _ => true end) PersistentValidationError
        "capture_modes must include at least one capture mode";
  _ ← ensure (negb (has_duplicates raw_modes)) PersistentValidationError
        "capture_modes must not contain duplicate entries";
  _ ← ensure (forallb (fun m => str_in m ALLOWED_CAPTURE_MODES) raw_modes) PersistentValidationError
        "capture_modes contains unsupported entries";
  let modes := List.filter (fun m => str_in m raw_modes) CAPTURE_MODE_ORDER in
  _ ← ensure (negb (str_in "system_proxy" modes && negb (str_in "local_proxy" modes)))
        PersistentValidationError "system_proxy capture requires local_proxy";
  _ ← ensure (bool_decide (modes ∈ REPRESENTABLE_CAPTURE_MODE_SETS)) PersistentValidationError
        "capture_modes must be one of the representable sets";
  Ok modes.

Definition capture_modes_connectable (modes : list string) : bool :=
  bool_decide (modes ∈ CONNECTABLE_CAPTURE_MODE_SETS).

(** [str(state.get(key, ""))] of a field that holds a string *)
Definition state_str (key : string) (state : pydict pyval) : string :=
  match dict_get key state with Some (PStr s) => s | _ => "" end.

Definition validate_routing_fields (state : pydict pyval) : res (pydict pyval) :=
  _ ← ensure (String.eqb (state_str "routing_state_version" state) SUPPORTED_ROUTING_STATE_VERSION)
        PersistentValidationError "unsupported routing_state_version";
  _ ← ensure (str_in (state_str "routing_policy" state) ALLOWED_ROUTING_POLICIES)
        PersistentValidationError "routing_policy must be one of: rule, global";
  let action := state_str "default_route_action" state in
  _ ← (if str_in action ALLOWED_DEFAULT_ROUTE_ACTIONS then Ok tt
       else t ← chain_target action;
            match t with
            | Some _ => Ok tt
            | None => raise PersistentValidationError
                "default_route_action must be one of: current, direct, block, or chain:<id>"
            end);
  modes ← parse_capture_modes (state_str "capture_modes" state);
  Ok (dict_set "capture_modes" (PStr (String.concat "," modes)) state).

Definition rollback_active_mode_for_routing_state (state : pydict pyval) : res string :=
  let routing_policy := state_str "routing_policy" state in
  capture_modes ← parse_capture_modes (state_str "capture_modes" state);
  let default_action := state_str "default_route_action" state in
  if String.eqb routing_policy "rule" && String.eqb default_action "current"
     && negb (str_in "tun" capture_modes) then Ok "rules"
  else if String.eqb routing_policy "global" && bool_decide (capture_modes = ["local_proxy"])
          && String.eqb default_action "current" then Ok "global"
  else if String.eqb routing_policy "global" && bool_decide (capture_modes = ["local_proxy"])
          && String.eqb default_action "direct" then Ok "direct"
  else if String.eqb routing_policy "global" && str_in "tun" capture_modes
          && String.eqb default_action "current" then Ok "tun"
  else raise PersistentValidationError "routing state has no exact legacy active_mode equivalent".

Definition same_routing (a b : pydict pyval) : bool :=
  forallb (fun k => String.eqb (state_str k a) (state_str k b))
    ["routing_policy"; "capture_modes"; "default_route_action"].

Definition compatibility_active_mode_for_routing_state (state : pydict pyval) (fallback : string)
  : res string :=
  matched ← (if str_in fallback ALLOWED_ACTIVE_MODES then
               fallback_state ← routing_state_from_legacy_mode fallback;
               Ok (same_routing fallback_state state)
             else Ok false);
  if matched : bool then Ok fallback
  else match rollback_active_mode_for_routing_state state with
       | Ok m => Ok m
       | Err e =>
           if is_instance e PersistentValidationError
           then Ok (if str_in fallback ALLOWED_ACTIVE_MODES then fallback else "global")
           else Err e
       end.

(** The body of the loop over [state.items()] *)
Definition validate_state_field (key : string) (value : pyval) : res pyval :=
  if str_in key STATE_BOOL_FIELDS then PBool <$> strict_bool value key
  else if str_in key STATE_STRING_FIELDS then
    match value with
    | PStr s => Ok (PStr s)
    | _ => raise PersistentValidationError (key +:+ " must be a string")
    end
  else raise PersistentValidationError ("unsupported state field: " +:+ key).

Definition validate_state (state : pydict pyval) : res (pydict pyval) :=
  let has_routing_state := existsb (fun k => dict_has k state) ROUTING_STATE_FIELDS in
  validated ← collect_items validate_state_field state DEFAULT_STATE;
  _ ← ensure (str_in (state_str "vpn_desired_state" validated) ALLOWED_VPN_DESIRED_STATES)
        PersistentValidationError "vpn_desired_state must be 'on' or 'off'";
  _ ← ensure (str_in (state_str "active_mode" validated) ALLOWED_ACTIVE_MODES)
        PersistentValidationError "active_mode must be one of: rules, global, direct, tun, proxy";
  validated ← (if negb has_routing_state then
                 legacy ← routing_state_from_legacy_mode (state_str "active_mode" validated);
                 Ok (dict_update validated legacy)
               else
                 v ← validate_routing_fields validated;
                 mode ← compatibility_active_mode_for_routing_state v (state_str "active_mode" v);
                 Ok (dict_set "active_mode" (PStr mode) v));
  _ ← ensure (str_in (state_str "language_mode" validated) ALLOWED_LANGUAGE_MODES)
        PersistentValidationError "language_mode must be 'system' or 'manual'";
  _ ← ensure (truthy_str (state_str "selected_language" validated)) PersistentValidationError
        "selected_language must not be empty";
  Ok validated.

(** ** The manager

    The file as the table that it reads as, which is what the other components see of it.  [text_save]
    below is the save with its text and its fallible write; [text_save_refines] relates the two, where
    the text reads as the table that was written. *)
Inductive state_file : Type :=
| FileAbsent
| FileUnreadable (reason : string)
| FileTable (table : pydict pyval).

Definition StateManager_load (f : state_file) : res (pydict pyval) :=
  match f with
  | FileAbsent => Ok DEFAULT_STATE
  | FileUnreadable reason => raise PersistentStoreError reason
  | FileTable table => validate_state table
  end.

Definition StateManager_save (state : pydict pyval) : PyM state_file unit :=
  payload ← liftR (validate_state state);
  modifyS (fun _ => FileTable payload).

Definition StateManager_get (key : string) (default : pyval) (f : state_file) : res pyval :=
  state ← StateManager_load f; Ok (dict_get_or key default state).

Definition StateManager_set `{PyStr} (key : string) (value : pyval) : PyM state_file unit :=
  f ← getS;
  state ← liftR (StateManager_load f);
  let state := dict_set key value state in
  state ← (if String.eqb key "active_mode" then
             legacy ← liftR (routing_state_from_legacy_mode (py_str value));
             mret (dict_update state legacy)
           else mret state);
  StateManager_save state.


(** ** The text of the file *)
(** The TOML reader and writer: [tomllib.load], with [None] for [TOMLDecodeError], and
    [tomli_w.dumps], with [None] when the package is not installed *)
Record toml_libs : Type := {
  tl_loads : string → option (pydict pyval);
  tl_dumps : option (pydict pyval → string)
}.

Inductive text_file : Type :=
| TextAbsent
| TextError (reason : string)
| TextFile (text : string).

Definition quote : ascii := "034".
Definition backslash : ascii := "092".

(** The branch of [_save_unlocked] without tomli_w: strings are put between quotes as they are. *)
Definition render_value `{PyStr} (v : pyval) : string :=
  match v with
  | PBool b => if b then "true" else "false"
  | _ => String quote (py_str v +:+ String quote "")
  end.

Definition render_line `{PyStr} (kv : string * pyval) : string := kv.1 +:+ " = " +:+ render_value kv.2.

Definition render_state `{PyStr} (payload : pydict pyval) : string :=
  String.concat (String newline "") (map render_line payload) +:+ String newline "".

Definition text_load (T : toml_libs) (f : text_file) : res (pydict pyval) :=
  match f with
  | TextAbsent => Ok DEFAULT_STATE
  | TextError reason => raise PersistentStoreError reason
  | TextFile text =>
      match tl_loads T text with
      | None => raise PersistentStoreError "invalid TOML"
      | Some table => validate_state table
      end
  end.

Definition serialise `{PyStr} (T : toml_libs) (payload : pydict pyval) : string :=
  match tl_dumps T with Some dumps => dumps payload | None => render_state payload end.

Definition text_save `{PyStr} (T : toml_libs) (outcome : write_outcome) (state : pydict pyval)
  : PyM text_file unit :=
  payload ← liftR (validate_state state);
  atomic_write outcome (TextFile (serialise T payload)).

(** What a file reads as *)
Definition reads_as (T : toml_libs) (f : text_file) : state_file :=
  match f with
  | TextAbsent => FileAbsent
  | TextError reason => FileUnreadable reason
  | TextFile text =>
      match tl_loads T text with Some table => FileTable table | None => FileUnreadable "invalid TOML" end
  end.

(** ** The shape of a validated state *)
Record st : Type := {
  s_autostart : bool; s_autoconnect : bool;
  s_desired : string; s_profile : string; s_version : string; s_policy : string;
  s_modes : string; s_action : string; s_mode : string; s_lang_mode : string;
  s_lang : string; s_reason : string; s_at : string
}.

Definition state_dict (r : st) : pydict pyval :=
  [ ("app_autostart_enabled", PBool (s_autostart r)); ("vpn_autoconnect_enabled", PBool (s_autoconnect r));
    ("vpn_desired_state", PStr (s_desired r)); ("active_profile_id", PStr (s_profile r));
    ("routing_state_version", PStr (s_version r)); ("routing_policy", PStr (s_policy r));
    ("capture_modes", PStr (s_modes r)); ("default_route_action", PStr (s_action r));
    ("active_mode", PStr (s_mode r)); ("language_mode", PStr (s_lang_mode r));
    ("selected_language", PStr (s_lang r)); ("last_failure_reason", PStr (s_reason r));
    ("last_failure_at", PStr (s_at r)) ].

Definition action_allowed (a : string) : Prop :=
  a ∈ ALLOWED_DEFAULT_ROUTE_ACTIONS ∨ ∃ i, chain_target a = Ok (Some i).

Definition state_ok (r : st) : Prop :=
  s_desired r ∈ ALLOWED_VPN_DESIRED_STATES ∧ s_mode r ∈ ALLOWED_ACTIVE_MODES
  ∧ s_version r = SUPPORTED_ROUTING_STATE_VERSION ∧ s_policy r ∈ ALLOWED_ROUTING_POLICIES
  ∧ action_allowed (s_action r)
  ∧ (∃ modes, modes ∈ REPRESENTABLE_CAPTURE_MODE_SETS ∧ s_modes r = String.concat "," modes)
  ∧ compatibility_active_mode_for_routing_state (state_dict r) (s_mode r) = Ok (s_mode r)
  ∧ s_lang_mode r ∈ ALLOWED_LANGUAGE_MODES ∧ s_lang r ≠ "".

(** Splits a membership in a concrete list. *)
Ltac split_elem H :=
  repeat (apply elem_of_cons in H as [->|H]; [|]); try (by apply not_elem_of_nil in H).

Lemma set_field_shape k v x r :
  validate_state_field k v = Ok x → ∃ r', dict_set k x (state_dict r) = state_dict r'.
Proof.
  unfold validate_state_field. destruct (str_in k STATE_BOOL_FIELDS) eqn:Eb.
  - apply str_in_spec in Eb. destruct v; try done. intros [= <-].
    split_elem Eb; eexists (Build_st _ _ _ _ _ _ _ _ _ _ _ _ _); reflexivity.
  - destruct (str_in k STATE_STRING_FIELDS) eqn:Es; [|done].
    apply str_in_spec in Es. destruct v; try done. intros [= <-].
    split_elem Es; eexists (Build_st _ _ _ _ _ _ _ _ _ _ _ _ _); reflexivity.
Qed.

Lemma collect_state_shape items r d :
  collect_items validate_state_field items (state_dict r) = Ok d → ∃ r', d = state_dict r'.
Proof.
  revert r. induction items as [|[k v] items IH]; intros r; cbn [collect_items].
  { intros [= <-]. by exists r. }
  destruct (validate_state_field k v) as [x|] eqn:E; cbn [mbind res_bind]; [|done].
  destruct (set_field_shape k v x r E) as [r' ->]. apply IH.
Qed.

Lemma collect_state_id r : collect_items validate_state_field (state_dict r) DEFAULT_STATE = Ok (state_dict r).
Proof. by destruct r. Qed.

Lemma parse_capture_modes_representable v modes :
  parse_capture_modes v = Ok modes → modes ∈ REPRESENTABLE_CAPTURE_MODE_SETS.
Proof.
  unfold parse_capture_modes. cbn zeta. intros H. inv_res H. injection H as <-.
  repeat match goal with E : ensure _ _ _ = Ok _ |- _ => apply ensure_ok in E end.
  by eapply bool_decide_eq_true.
Qed.

Lemma parse_capture_modes_canonical modes :
  modes ∈ REPRESENTABLE_CAPTURE_MODE_SETS → parse_capture_modes (String.concat "," modes) = Ok modes.
Proof. intros H. unfold REPRESENTABLE_CAPTURE_MODE_SETS in H. cbn [app] in H. split_elem H; by vm_compute. Qed.

Definition with_modes (m : string) (r : st) : st := {|
  s_autostart := s_autostart r; s_autoconnect := s_autoconnect r; s_desired := s_desired r;
  s_profile := s_profile r; s_version := s_version r; s_policy := s_policy r; s_modes := m;
  s_action := s_action r; s_mode := s_mode r; s_lang_mode := s_lang_mode r; s_lang := s_lang r;
  s_reason := s_reason r; s_at := s_at r |}.

Definition with_mode (m : string) (r : st) : st := {|
  s_autostart := s_autostart r; s_autoconnect := s_autoconnect r; s_desired := s_desired r;
  s_profile := s_profile r; s_version := s_version r; s_policy := s_policy r; s_modes := s_modes r;
  s_action := s_action r; s_mode := m; s_lang_mode := s_lang_mode r; s_lang := s_lang r;
  s_reason := s_reason r; s_at := s_at r |}.

Lemma validate_routing_fields_ok r d :
  validate_routing_fields (state_dict r) = Ok d →
  ∃ modes, d = state_dict (with_modes (String.concat "," modes) r)
  ∧ s_version r = SUPPORTED_ROUTING_STATE_VERSION ∧ s_policy r ∈ ALLOWED_ROUTING_POLICIES
  ∧ action_allowed (s_action r) ∧ modes ∈ REPRESENTABLE_CAPTURE_MODE_SETS.
Proof.
  unfold validate_routing_fields.
  change (state_str "routing_state_version" (state_dict r)) with (s_version r).
  change (state_str "routing_policy" (state_dict r)) with (s_policy r).
  change (state_str "default_route_action" (state_dict r)) with (s_action r).
  change (state_str "capture_modes" (state_dict r)) with (s_modes r). cbn zeta.
  destruct (String.eqb_spec (s_version r) SUPPORTED_ROUTING_STATE_VERSION) as [Hv|];
    cbn [ensure mbind res_bind]; [|done].
  destruct (str_in (s_policy r) ALLOWED_ROUTING_POLICIES) eqn:Ep; cbn [ensure mbind res_bind]; [|done].
  apply str_in_spec in Ep.
  destruct (if str_in (s_action r) ALLOWED_DEFAULT_ROUTE_ACTIONS then _ else _) as [[]|] eqn:Ea;
    cbn [mbind res_bind]; [|done].
  assert (action_allowed (s_action r)) as Ha.
  { destruct (str_in (s_action r) ALLOWED_DEFAULT_ROUTE_ACTIONS) eqn:Es; [left; by apply str_in_spec|].
    right. destruct (chain_target (s_action r)) as [[i|]|] eqn:Ec; cbn in Ea; [by exists i|done|done]. }
  destruct (parse_capture_modes (s_modes r)) as [modes|] eqn:Em; cbn [mbind res_bind]; [|done].
  intros [= <-]. exists modes. split; [done|]. repeat (split; [done|]).
  by eapply parse_capture_modes_representable.
Qed.

Lemma compatibility_stable d fb m :
  fb ∈ ALLOWED_ACTIVE_MODES → compatibility_active_mode_for_routing_state d fb = Ok m →
  m ∈ ALLOWED_ACTIVE_MODES ∧ compatibility_active_mode_for_routing_state d m = Ok m.
Proof.
  intros Hfb. unfold compatibility_active_mode_for_routing_state.
  rewrite (proj2 (str_in_spec fb _) Hfb).
  assert (∀ x, x ∈ ALLOWED_ACTIVE_MODES → ∃ t, routing_state_from_legacy_mode x = Ok t) as Hleg.
  { intros x Hx. unfold ALLOWED_ACTIVE_MODES in Hx. split_elem Hx; by eexists. }
  destruct (Hleg fb Hfb) as [t Ht]. rewrite Ht. cbn [mbind res_bind].
  destruct (same_routing t d) eqn:Es.
  { intros [= <-]. rewrite (proj2 (str_in_spec fb _) Hfb), Ht. cbn [mbind res_bind]. by rewrite Es. }
  assert (∀ x, rollback_active_mode_for_routing_state d = Ok x → x ∈ ALLOWED_ACTIVE_MODES) as Hroll.
  { intros x Hx. unfold rollback_active_mode_for_routing_state in Hx. cbn zeta in Hx. inv_res Hx;
      injection Hx as <-; apply str_in_spec; reflexivity. }
  destruct (rollback_active_mode_for_routing_state d) as [x|e] eqn:Er.
  - intros [= <-]. pose proof (Hroll x eq_refl) as Hx. split; [done|].
    rewrite (proj2 (str_in_spec x _) Hx). destruct (Hleg x Hx) as [t' ->]. cbn [mbind res_bind].
    by destruct (same_routing t' d).
  - destruct (is_instance e PersistentValidationError) eqn:Ei; [|done]. intros [= <-].
    split; [done|]. rewrite (proj2 (str_in_spec fb _) Hfb), Ht. cbn [mbind res_bind]. by rewrite Es.
Qed.

Lemma legacy_state_ok r :
  s_desired r ∈ ALLOWED_VPN_DESIRED_STATES → s_mode r ∈ ALLOWED_ACTIVE_MODES →
  s_lang_mode r ∈ ALLOWED_LANGUAGE_MODES → s_lang r ≠ "" →
  ∃ legacy r', routing_state_from_legacy_mode (s_mode r) = Ok legacy
    ∧ dict_update (state_dict r) legacy = state_dict r' ∧ state_ok r'
    ∧ s_lang_mode r' = s_lang_mode r ∧ s_lang r' = s_lang r.
Proof.
  intros Hd Hm Hlm Hl. destruct r as [a b des prof ver pol modes act mode lm lang re at_]. cbn in *.
  unfold ALLOWED_ACTIVE_MODES in Hm.
  split_elem Hm; (eexists; eexists (Build_st _ _ _ _ _ _ _ _ _ _ _ _ _); split; [reflexivity|];
    split; [cbn; reflexivity|]; split; [|split; reflexivity]; unfold state_ok; cbn;
    split; [done|]; split; [by apply str_in_spec|]; split; [done|]; split; [by apply str_in_spec|];
    split; [left; by apply str_in_spec|]; split;
    [first [by exists ["local_proxy"; "tun"]; split; [by apply (bool_decide_unpack _)|]
           |by exists ["local_proxy"]; split; [by apply (bool_decide_unpack _)|]]|];
    split; [by vm_compute|]; done).
Qed.

Lemma legacy_state_shape r legacy :
  s_mode r ∈ ALLOWED_ACTIVE_MODES → routing_state_from_legacy_mode (s_mode r) = Ok legacy →
  ∃ r', dict_update (state_dict r) legacy = state_dict r' ∧ s_lang_mode r' = s_lang_mode r
    ∧ s_lang r' = s_lang r.
Proof.
  intros Em Eg. destruct r as [a b des prof ver pol modes act mode lm lang re at_].
  cbn in Em. unfold ALLOWED_ACTIVE_MODES in Em. cbn [s_mode] in Eg.
  split_elem Em; injection Eg as <-; eexists (Build_st _ _ _ _ _ _ _ _ _ _ _ _ _);
    (split; [cbn; reflexivity | done]).
Qed.

Lemma validate_state_shape s v : validate_state s = Ok v → ∃ r, v = state_dict r ∧ state_ok r.
Proof.
  unfold validate_state. cbn zeta. intros H.
  destruct (collect_items _ s DEFAULT_STATE) as [d|] eqn:Ec; cbn [mbind res_bind] in H; [|done].
  change DEFAULT_STATE with (state_dict (Build_st false false "off" "" "1" "rule" "local_proxy,tun"
    "current" "rules" "system" "en" "" "")) in Ec.
  apply collect_state_shape in Ec as [r ->].
  change (state_str "vpn_desired_state" (state_dict r)) with (s_desired r) in H.
  change (state_str "active_mode" (state_dict r)) with (s_mode r) in H.
  destruct (str_in (s_desired r) _) eqn:Ed; cbn [ensure mbind res_bind] in H; [|done].
  destruct (str_in (s_mode r) ALLOWED_ACTIVE_MODES) eqn:Em; cbn [ensure mbind res_bind] in H; [|done].
  apply str_in_spec in Ed, Em.
  match type of H with (mbind _ ?m) = _ => destruct m as [d|] eqn:Er; cbn [mbind res_bind] in H; [|done] end.
  destruct (str_in (state_str "language_mode" d) _) eqn:Elm; cbn [ensure mbind res_bind] in H; [|done].
  destruct (truthy_str (state_str "selected_language" d)) eqn:El; cbn [ensure mbind res_bind] in H; [|done].
  injection H as <-. apply str_in_spec in Elm. apply truthy_str_ne in El.
  destruct (negb (existsb _ _)).
  - destruct (routing_state_from_legacy_mode (s_mode r)) as [legacy|] eqn:Eg; cbn [mbind res_bind] in Er; [|done].
    injection Er as <-.
    destruct (legacy_state_shape r legacy Em Eg) as (r0 & Hr0 & Hlm0 & Hl0).
    rewrite Hr0 in Elm, El.
    change (state_str "language_mode" (state_dict r0)) with (s_lang_mode r0) in Elm.
    change (state_str "selected_language" (state_dict r0)) with (s_lang r0) in El.
    rewrite Hlm0 in Elm. rewrite Hl0 in El.
    destruct (legacy_state_ok r Ed Em Elm El) as (lg & r' & Hlg & Hu & Hok & _).
    rewrite Eg in Hlg. injection Hlg as <-. exists r'. done.
  - destruct (validate_routing_fields (state_dict r)) as [d'|] eqn:Ev; cbn [mbind res_bind] in Er; [|done].
    apply validate_routing_fields_ok in Ev as (modes & -> & Hver & Hpol & Hact & Hmodes).
    change (state_str "active_mode" (state_dict (with_modes (String.concat "," modes) r))) with (s_mode r) in Er.
    destruct (compatibility_active_mode_for_routing_state _ (s_mode r)) as [m|] eqn:Eco;
      cbn [mbind res_bind] in Er; [|done].
    injection Er as <-. exists (with_mode m (with_modes (String.concat "," modes) r)). split; [done|].
    apply compatibility_stable in Eco as [Hm Hst]; [|done]. unfold state_ok. cbn [with_mode with_modes
      s_desired s_mode s_version s_policy s_action s_modes s_lang_mode s_lang].
    repeat (split; [done|]). split; [by exists modes|]. split; [exact Hst|]. done.
Qed.

Lemma validate_routing_fields_stable r :
  s_version r = SUPPORTED_ROUTING_STATE_VERSION → s_policy r ∈ ALLOWED_ROUTING_POLICIES →
  action_allowed (s_action r) →
  (∃ modes, modes ∈ REPRESENTABLE_CAPTURE_MODE_SETS ∧ s_modes r = String.concat "," modes) →
  validate_routing_fields (state_dict r) = Ok (state_dict r).
Proof.
  intros Hv Hp Ha (modes & Hmo & Hmo'). unfold validate_routing_fields.
  change (state_str "routing_state_version" (state_dict r)) with (s_version r).
  change (state_str "routing_policy" (state_dict r)) with (s_policy r).
  change (state_str "default_route_action" (state_dict r)) with (s_action r).
  change (state_str "capture_modes" (state_dict r)) with (s_modes r). cbn zeta.
  rewrite Hv, String.eqb_refl, (proj2 (str_in_spec _ _) Hp). cbn [ensure mbind res_bind].
  assert ((if str_in (s_action r) ALLOWED_DEFAULT_ROUTE_ACTIONS then Ok tt
    else t ← chain_target (s_action r); match t with Some _ => Ok tt | None =>
      raise PersistentValidationError
        "default_route_action must be one of: current, direct, block, or chain:<id>" end)
    = Ok tt) as ->.
  { destruct Ha as [Ha|[i Hi]]; [by rewrite (proj2 (str_in_spec _ _) Ha)|].
    destruct (str_in _ _); [done|]. by rewrite Hi. }
  cbn [mbind res_bind]. rewrite Hmo', parse_capture_modes_canonical by done. cbn [mbind res_bind].
  rewrite <- Hmo'. by destruct r.
Qed.

Lemma validate_state_ok r : state_ok r → validate_state (state_dict r) = Ok (state_dict r).
Proof.
  intros (Hd & Hm & Hv & Hp & Ha & (modes & Hmo & Hmo') & Hc & Hlm & Hl).
  unfold validate_state. cbn zeta. rewrite collect_state_id. cbn [mbind res_bind].
  change (state_str "vpn_desired_state" (state_dict r)) with (s_desired r).
  change (state_str "active_mode" (state_dict r)) with (s_mode r).
  rewrite (proj2 (str_in_spec _ _) Hd), (proj2 (str_in_spec _ _) Hm). cbn [ensure mbind res_bind].
  replace (existsb (fun k => dict_has k (state_dict r)) ROUTING_STATE_FIELDS) with true by done.
  cbn [negb].
  rewrite validate_routing_fields_stable by first [done | by exists modes].
  cbn [mbind res_bind]. change (state_str "active_mode" (state_dict r)) with (s_mode r).
  rewrite Hc. cbn [mbind res_bind]. replace (dict_set "active_mode" (PStr (s_mode r)) (state_dict r)) with (state_dict r) by by destruct r.
  change (state_str "language_mode" (state_dict r)) with (s_lang_mode r).
  change (state_str "selected_language" (state_dict r)) with (s_lang r).
  rewrite (proj2 (str_in_spec _ _) Hlm), (proj2 (truthy_str_ne _) Hl). done.
Qed.

(** ** Properties of the manager *)

Lemma load_shape f v : StateManager_load f = Ok v → ∃ r, v = state_dict r ∧ state_ok r.
Proof.
  destruct f as [|reason|table]; cbn [StateManager_load]; [|done|apply validate_state_shape].
  intros [= <-]. apply (validate_state_shape []). by vm_compute.
Qed.

(** The four values the runtime writes: nothing else in the state constrains them. *)
Definition free_update (k v : string) : Prop :=
  k ∈ ["active_profile_id"; "last_failure_reason"; "last_failure_at"]
  ∨ k = "vpn_desired_state" ∧ v ∈ ALLOWED_VPN_DESIRED_STATES.

Lemma free_update_keeps_ok k v r :
  free_update k v → state_ok r →
  ∃ r', dict_set k (PStr v) (state_dict r) = state_dict r' ∧ state_ok r' ∧ k ≠ "active_mode".
Proof.
  intros Hk Hr. destruct r as [a b des prof ver pol modes act mode lm lang re at_].
  assert (∀ d p re' at', d ∈ ALLOWED_VPN_DESIRED_STATES →
    state_ok (Build_st a b d p ver pol modes act mode lm lang re' at')) as Hgen.
  { intros d p re' at' Hd. unfold state_ok in *. cbn in Hr |- *. destruct Hr as (_ & Hr). split; [done|].
    exact Hr. }
  destruct Hr as [Hdes _]. cbn in Hdes.
  destruct Hk as [Hk|[-> Hv]]; [split_elem Hk|];
    (eexists (Build_st _ _ _ _ _ _ _ _ _ _ _ _ _); split; [cbn; reflexivity|]; split; [by apply Hgen | done]).
Qed.

Lemma set_run `{PyStr} k v f s :
  StateManager_load f = Ok s → k ≠ "active_mode" →
  StateManager_set k v f =
    match validate_state (dict_set k v s) with
    | Ok t => (Ok tt, FileTable t)
    | Err e => (Err e, f)
    end.
Proof.
  intros Hl Hk. unfold StateManager_set, StateManager_save, liftR, getS, modifyS, mbind, pym_bind.
  rewrite Hl. destruct (String.eqb_spec k "active_mode"); [done|].
  cbn. by destruct (validate_state _).
Qed.

(** ** Documents of plain lines *)
(** The part of TOML that the renderer aims at: lines with a bare key and a boolean or a basic
    string, whose escapes are resolved and which holds no bare control character *)
Definition bare_char (c : ascii) : bool :=
  char_in 48 57 c || char_in 65 90 c || char_in 97 122 c || Ascii.eqb c "_" || Ascii.eqb c "-".

Definition control_char (c : ascii) : bool :=
  char_in 0 8 c || char_in 10 31 c || char_in 127 127 c.

Definition unescape (c : ascii) : option ascii :=
  if Ascii.eqb c quote || Ascii.eqb c backslash then Some c
  else if Ascii.eqb c "b" then Some "008"%char
  else if Ascii.eqb c "t" then Some "009"%char
  else if Ascii.eqb c "n" then Some newline
  else if Ascii.eqb c "f" then Some "012"%char
  else if Ascii.eqb c "r" then Some "013"%char
  else None.

(** A basic string after its opening quote: the content and what follows the closing quote *)
Fixpoint basic_string (s : string) : option (string * string) :=
  match s with
  | "" => None
  | String c s' =>
      if Ascii.eqb c quote then Some ("", s')
      else if Ascii.eqb c backslash then
        match s' with
        | "" => None
        | String e s'' =>
            match unescape e, basic_string s'' with
            | Some x, Some (t, rest) => Some (String x t, rest)
            | _, _ => None
            end
        end
      else if control_char c then None
      else match basic_string s' with Some (t, rest) => Some (String c t, rest) | None => None end
  end.

Definition toml_value (s : string) : option pyval :=
  if String.eqb s "true" then Some (PBool true)
  else if String.eqb s "false" then Some (PBool false)
  else match s with
       | String c s' =>
           if Ascii.eqb c quote
           then match basic_string s' with Some (t, "") => Some (PStr t) | _ => None end
           else None
       | "" => None
       end.

Fixpoint span_bare (s : string) : string * string :=
  match s with
  | String c s' => if bare_char c then let '(k, rest) := span_bare s' in (String c k, rest) else ("", s)
  | "" => ("", "")
  end.

Fixpoint drop_prefix (p s : string) : option string :=
  match p, s with
  | "", _ => Some s
  | String a p', String b s' => if Ascii.eqb a b then drop_prefix p' s' else None
  | _, _ => None
  end.

Definition toml_line (s : string) : option (string * pyval) :=
  let '(k, rest) := span_bare s in
  if String.eqb k "" then None
  else match drop_prefix " = " rest with
       | Some v => match toml_value v with Some x => Some (k, x) | None => None end
       | None => None
       end.

Fixpoint toml_lines (lines : list string) : option (pydict pyval) :=
  match lines with
  | [] => Some []
  | "" :: rest => toml_lines rest
  | l :: rest =>
      match toml_line l, toml_lines rest with
      | Some (k, v), Some d => if dict_has k d then None else Some ((k, v) :: d)
      | _, _ => None
      end
  end.

Definition toml_doc (text : string) : option (pydict pyval) := toml_lines (split_on newline text).

(** A table of booleans and strings under distinct bare keys *)
Definition scalar (v : pyval) : Prop := match v with PBool _ | PStr _ => True | _ => False end.

Definition flat_table (d : pydict pyval) : Prop :=
  NoDup (map fst d) ∧ Forall (fun kv => kv.1 ≠ "" ∧ forall_chars bare_char kv.1 = true ∧ scalar kv.2) d.

(** What is documented of the libraries: tomllib reads back what tomli_w writes, and reads
    documents of plain lines as TOML says. *)
Record toml_laws (T : toml_libs) : Prop := {
  dumps_read_back : ∀ dumps d, tl_dumps T = Some dumps → flat_table d → tl_loads T (dumps d) = Some d;
  lines_read : ∀ text d, toml_doc text = Some d → tl_loads T text = Some d
}.

(** A string that needs no escape *)
Definition plain_char (c : ascii) : bool :=
  negb (control_char c) && negb (Ascii.eqb c quote) && negb (Ascii.eqb c backslash).

Definition plain_state (d : pydict pyval) : Prop :=
  Forall (fun kv => match kv.2 with PStr s => forall_chars plain_char s = true | _ => True end) d.

Lemma split_on_line sep a b :
  forall_chars (fun c => negb (Ascii.eqb c sep)) a = true →
  split_on sep (a +:+ String sep b) = a :: split_on sep b.
Proof.
  induction a as [|c a IH].
  - intros _. change ("" +:+ String sep b) with (String sep b). cbn [split_on]. by rewrite Ascii.eqb_refl.
  - cbn [forall_chars]. intros [Hc Ha]%andb_true_iff. apply negb_true_iff in Hc.
    change (String c a +:+ String sep b) with (String c (a +:+ String sep b)). cbn [split_on].
    by rewrite Hc, IH.
Qed.

Lemma basic_plain t rest :
  forall_chars plain_char t = true → basic_string (t +:+ String quote rest) = Some (t, rest).
Proof.
  induction t as [|c t IH]; [done|]. cbn [forall_chars].
  intros [[[Hc Hq]%andb_true_iff Hb]%andb_true_iff Ht]%andb_true_iff. apply negb_true_iff in Hc, Hq, Hb.
  change (String c t +:+ String quote rest) with (String c (t +:+ String quote rest)). cbn [basic_string].
  by rewrite Hq, Hb, Hc, IH.
Qed.

Lemma span_bare_key k s : forall_chars bare_char k = true → span_bare (k +:+ " = " +:+ s) = (k, " = " +:+ s).
Proof.
  induction k as [|c k IH]; [done|]. cbn [forall_chars]. intros [Hc Hk]%andb_true_iff.
  change (String c k +:+ " = " +:+ s) with (String c (k +:+ " = " +:+ s)). cbn [span_bare]. by rewrite Hc, IH.
Qed.

Section rendered.
Context `{PyStr}.

Definition line_ok (kv : string * pyval) : Prop :=
  kv.1 ≠ "" ∧ forall_chars bare_char kv.1 = true
  ∧ match kv.2 with PBool _ => True | PStr s => forall_chars plain_char s = true | _ => False end.

Lemma toml_line_rendered kv : line_ok kv → toml_line (render_line kv) = Some kv.
Proof.
  destruct kv as [k v]. intros (Hne & Hk & Hv). cbn [fst snd] in *. unfold toml_line, render_line. cbn [fst snd].
  rewrite span_bare_key by done. destruct (String.eqb_spec k ""); [done|].
  change (drop_prefix " = " (" = " +:+ render_value v)) with (Some (render_value v)). cbv beta iota.
  destruct v as [|b| | |s| |]; try done; [by destruct b|]. unfold toml_value, render_value. cbn [py_str].
  destruct (String.eqb_spec (String quote (s +:+ String quote "")) "true") as [E|_]; [discriminate E|].
  destruct (String.eqb_spec (String quote (s +:+ String quote "")) "false") as [E|_]; [discriminate E|].
  rewrite Ascii.eqb_refl, basic_plain by done. done.
Qed.

Lemma line_no_newline kv : line_ok kv → forall_chars (fun c => negb (Ascii.eqb c newline)) (render_line kv) = true.
Proof.
  destruct kv as [k v]. intros (_ & Hk & Hv). cbn [fst snd] in *. unfold render_line. cbn [fst snd].
  rewrite !forall_chars_app. apply andb_true_iff. split.
  - eapply forall_chars_impl; [|exact Hk]. intros c Hc. destruct (Ascii.eqb_spec c newline) as [->|]; done.
  - apply andb_true_iff. split; [done|]. destruct v as [|b| | |s| |]; try done; [by destruct b|].
    unfold render_value. cbn [py_str forall_chars]. rewrite forall_chars_app. apply andb_true_iff. split; [done|].
    apply andb_true_iff. split; [|done]. eapply forall_chars_impl; [|exact Hv]. intros c Hc.
    destruct (Ascii.eqb_spec c newline) as [->|]; done.
Qed.

Lemma render_cons kv d : render_state (kv :: d) =
  render_line kv +:+ String newline (match d with [] => "" | _ => render_state d end).
Proof.
  unfold render_state. destruct d as [|kv' d]; [done|]. cbn [map String.concat].
  by rewrite !app_string_assoc.
Qed.

(** The renderer's text reads as the table when nothing needs an escape. *)
Lemma toml_doc_rendered d : d ≠ [] → NoDup (map fst d) → Forall line_ok d → toml_doc (render_state d) = Some d.
Proof.
  intros Hne Hn Hf. unfold toml_doc. induction d as [|kv d IH]; [done|].
  apply NoDup_cons in Hn as [Hk Hn]. apply Forall_cons in Hf as [Hkv Hf].
  rewrite render_cons, split_on_line by by apply line_no_newline. cbn [toml_lines].
  assert (toml_lines (split_on newline (match d with [] => "" | _ => render_state d end)) = Some d) as Hd.
  { destruct d as [|kv' d]; [done|]. by apply IH. }
  pose proof (toml_line_rendered kv Hkv) as Hl. destruct (render_line kv) as [|c l] eqn:El; [discriminate Hl|].
  rewrite Hl, Hd. destruct kv as [k v]. unfold dict_has. cbn [fst] in Hk.
  by rewrite (proj2 (dict_get_None k d) Hk).
Qed.

Lemma state_flat r : flat_table (state_dict r).
Proof. split; [by apply (bool_decide_unpack _)|]. repeat (apply Forall_cons; split; [by repeat split|]). constructor. Qed.

(** What a saved state reads as *)
Lemma saved_reads_back T r :
  toml_laws T → (tl_dumps T ≠ None ∨ plain_state (state_dict r)) →
  tl_loads T (serialise T (state_dict r)) = Some (state_dict r).
Proof.
  intros HT Hp. unfold serialise. pose proof (state_flat r) as Hflat. destruct (tl_dumps T) as [dumps|] eqn:Ed.
  - by apply (dumps_read_back T HT).
  - destruct Hp as [?|Hp]; [done|]. apply (lines_read T HT). destruct Hflat as [Hn Hf].
    apply toml_doc_rendered; [done|done|]. rewrite !Forall_forall in *. unfold plain_state in Hp.
    rewrite Forall_forall in Hp. intros kv Hkv. destruct (Hf kv Hkv) as (H1 & H2 & H3). split; [done|].
    split; [done|]. specialize (Hp kv Hkv). by destruct (kv.2).
Qed.


(** The text level implements the table level, for writes that are done. *)
Lemma text_save_refines T state f payload :
  toml_laws T → validate_state state = Ok payload → (tl_dumps T ≠ None ∨ plain_state payload) →
  let '(r, f') := text_save T WDone state f in StateManager_save state (reads_as T f) = (r, reads_as T f').
Proof.
  intros HT Hv Hp. destruct (validate_state_shape _ _ Hv) as (r & -> & _).
  unfold text_save, StateManager_save, mbind, pym_bind, liftR. rewrite Hv. cbn.
  by rewrite saved_reads_back.
Qed.
End rendered.

(** Without tomli_w a value with a backslash does not survive: the profile id a\nb, with a
    backslash, is read back with a line break in its place. *)
Theorem fallback_reads_escapes `{PyStr} T f0 :
  toml_laws T → tl_dumps T = None →
  let id := String "a" (String backslash "nb") in
  let state := dict_set "active_profile_id" (PStr id) DEFAULT_STATE in
  let '(r, f) := text_save T WDone state f0 in
  r = Ok tt ∧ text_load T f = Ok (dict_set "active_profile_id" (PStr (String "a" (String newline "b"))) DEFAULT_STATE).
Proof.
  intros HT Hd. cbn zeta. unfold text_save, mbind, pym_bind, liftR.
  assert (∀ x, validate_state (dict_set "active_profile_id" (PStr x) DEFAULT_STATE)
    = Ok (dict_set "active_profile_id" (PStr x) DEFAULT_STATE)) as Hv by reflexivity.
  rewrite Hv. cbn [atomic_write]. split; [done|]. cbn [text_load]. unfold serialise. rewrite Hd.
  rewrite (lines_read T HT _ (dict_set "active_profile_id" (PStr (String "a" (String newline "b"))) DEFAULT_STATE));
    [apply Hv|]. vm_compute. reflexivity.
Qed.






(** [set] of a field the runtime owns (the desired state, the active profile, the last
    failure) on a state that loads always succeeds, and the state loaded afterwards is the state
    loaded before with that one field changed. *)
Theorem state_set_frame `{PyStr} f s k v :
  StateManager_load f = Ok s → free_update k v →
  ∃ f', StateManager_set k (PStr v) f = (Ok tt, f')
  ∧ StateManager_load f' = Ok (dict_set k (PStr v) s)
  ∧ StateManager_get k PNone f' = Ok (PStr v)
  ∧ ∀ k' d, k' ≠ k → StateManager_get k' d f' = StateManager_get k' d f.
Proof.
  intros Hl Hk. destruct (load_shape f s Hl) as (r & -> & Hok).
  destruct (free_update_keeps_ok k v r Hk Hok) as (r' & Hr' & Hok' & Hne).
  exists (FileTable (state_dict r')). rewrite (set_run k _ f _ Hl Hne), Hr', validate_state_ok by done.
  assert (StateManager_load (FileTable (state_dict r')) = Ok (state_dict r')) as Hl'
    by by apply validate_state_ok.
  split; [done|]. split; [done|]. unfold StateManager_get. rewrite Hl', Hl. cbn [mbind res_bind].
  unfold dict_get_or. rewrite <- Hr', dict_get_set_eq. split; [done|].
  intros k' d Hne'. by rewrite dict_get_set_ne.
Qed.

Lemma state_set_frame_witness :
  ∃ f', @StateManager_set demo_pystr "vpn_desired_state" (PStr "on") FileAbsent = (Ok tt, f')
  ∧ StateManager_get "active_profile_id" PNone f' = Ok (PStr "").
Proof.
  destruct (@state_set_frame demo_pystr FileAbsent DEFAULT_STATE "vpn_desired_state" "on") as (f' & Hs & _ & _ & Hg).
  - reflexivity.
  - right. split; [reflexivity|]. by apply str_in_spec.
  - exists f'. split; [exact Hs|]. rewrite Hg by done. reflexivity.
Defined.

(** selecting a legacy [active_mode] migrates the routing state completely: the mode is one of
    the five or the call fails and leaves the file as it was; when it succeeds, the loaded state
    has that mode and exactly the routing fields of the migration table, and every other field
    is as before. *)
Theorem state_set_active_mode `{PyStr} f s m :
  StateManager_load f = Ok s →
  (m ∉ ALLOWED_ACTIVE_MODES →
     StateManager_set "active_mode" (PStr m) f
     = (raise PersistentValidationError "active_mode must be one of: rules, global, direct, tun, proxy", f))
  ∧ (m ∈ ALLOWED_ACTIVE_MODES →
     ∃ f' legacy, routing_state_from_legacy_mode m = Ok legacy
       ∧ StateManager_set "active_mode" (PStr m) f = (Ok tt, f')
       ∧ StateManager_load f' = Ok (dict_update (dict_set "active_mode" (PStr m) s) legacy)
       ∧ (∀ k, k ∈ ROUTING_STATE_FIELDS → StateManager_get k PNone f' = Ok (dict_get_or k PNone legacy))).
Proof.
  intros Hl. destruct (load_shape f s Hl) as (r & -> & Hok). split; intros Hm.
  - unfold StateManager_set, liftR, getS, mbind, pym_bind. rewrite Hl. cbn [String.eqb Ascii.eqb Bool.eqb py_str].
    enough (routing_state_from_legacy_mode m = raise PersistentValidationError
      "active_mode must be one of: rules, global, direct, tun, proxy") as -> by done.
    unfold routing_state_from_legacy_mode.
    by rewrite (proj2 (dict_get_None m LEGACY_MODE_TO_ROUTING_STATE)).
  - destruct Hok as (Hd & _ & _ & _ & _ & _ & _ & Hlm & Hlg).
    destruct (legacy_state_ok (with_mode m r)) as (legacy & r' & Hleg & Hu & Hok' & _); try done.
    cbn [with_mode s_mode] in Hleg.
    exists (FileTable (state_dict r')), legacy. split; [done|].
    assert (dict_update (dict_set "active_mode" (PStr m) (state_dict r)) legacy = state_dict r') as Hu' by done.
    rewrite Hu'. unfold StateManager_set, StateManager_save, liftR, getS, modifyS, mbind, pym_bind.
    rewrite Hl. cbn [String.eqb Ascii.eqb Bool.eqb py_str]. rewrite Hleg. unfold mret, pym_ret.
    rewrite Hu', validate_state_ok by done. split; [done|].
    assert (StateManager_load (FileTable (state_dict r')) = Ok (state_dict r')) as Hl'
      by by apply validate_state_ok.
    split; [done|]. intros k Hk. unfold StateManager_get. rewrite Hl'. cbn [mbind res_bind].
    rewrite <- Hu'. unfold ALLOWED_ACTIVE_MODES in Hm. unfold ROUTING_STATE_FIELDS in Hk.
    split_elem Hm; injection Hleg as <-; split_elem Hk; reflexivity.
Qed.

Lemma state_set_active_mode_witness :
  ∃ f' legacy, routing_state_from_legacy_mode "direct" = Ok legacy
    ∧ @StateManager_set demo_pystr "active_mode" (PStr "direct") FileAbsent = (Ok tt, f').
Proof.
  destruct (proj2 (@state_set_active_mode demo_pystr FileAbsent DEFAULT_STATE "direct" eq_refl))
    as (f' & legacy & Hl & Hs & _); [by apply str_in_spec|]. by exists f', legacy.
Defined.
