(* ===== verification/WatchdogPolicy.v ===== *)
(** * What the watchdog requests and which profiles it may use

    The decision methods of [WatchdogRuntime] (core/watchdog.py) that only read the stores:
    the capabilities the persistent policy requires of a driver, the driver class of a
    profile, the node group that governs rotation and the candidate pool it yields, and the
    connection mode.  The stores are arguments: the parsed app-policy file, the rule
    directory, the node-group items, the profiles and the providers. *)
From stdpp Require Import base list strings gmap pretty sorting.
From Stdlib Require Import Ascii QArith.
From S2P Require Import Prelude PyData Profiles NodeGroups Dns RouteChains AppPolicy Rules RuleStore StateManager.

(** ** Drivers *)
Definition DRIVER_POLICY_CAPABILITIES : gset string :=
  {[ "dns"; "routing"; "app_policy"; "chains"; "lan_proxy"; "lan_gateway"; "capture" ]}.

(** The classes of drivers/; [NativePolicyDriver] wraps a native transport. *)
Inductive native_class : Type := AmneziaWGDriver | OpenVPNDriver | OpenVPNCloakDriver.
Inductive driver_class : Type :=
| SingBoxDriver
| NativePolicyDriver (native : native_class)
| BareDriver (native : native_class)
| OtherDriver (name : string).

#[global] Instance native_class_eq_dec : EqDecision native_class.
Proof. solve_decision. Defined.
#[global] Instance driver_class_eq_dec : EqDecision driver_class.
Proof. solve_decision. Defined.

(** [type(d).__name__] *)
Definition class_name (c : driver_class) : string :=
  match c with
  | SingBoxDriver => "SingBoxDriver"
  | NativePolicyDriver _ => "NativePolicyDriver"
  | BareDriver AmneziaWGDriver => "AmneziaWGDriver"
  | BareDriver OpenVPNDriver => "OpenVPNDriver"
  | BareDriver OpenVPNCloakDriver => "OpenVPNCloakDriver"
  | OtherDriver name => name
  end.

(** The class attribute [policy_capabilities]; a class from elsewhere declares its own. *)
Definition policy_capabilities (declared : string → gset string) (c : driver_class) : gset string :=
  match c with
  | SingBoxDriver | NativePolicyDriver _ => DRIVER_POLICY_CAPABILITIES
  | BareDriver _ => ∅
  | OtherDriver name => declared name
  end.

(** [select_driver(profile)]: the class of the new instance *)
Definition select_driver (profile : option Profile) : driver_class :=
  match profile with
  | Some p =>
      match p_protocol p with
      | AMNEZIAWG => NativePolicyDriver AmneziaWGDriver
      | OPENVPN => NativePolicyDriver OpenVPNDriver
      | OPENVPN_CLOAK => NativePolicyDriver OpenVPNCloakDriver
      | _ => SingBoxDriver
      end
  | None => SingBoxDriver
  end.

(** [driver_type_for_profile(profile)]: the name of the class and its capabilities *)
Definition driver_type_for_profile (profile : option Profile) : string * gset string :=
  match profile with
  | None => ("SingBoxDriver", DRIVER_POLICY_CAPABILITIES)
  | Some p =>
      if bool_decide (p_protocol p ∈ [AMNEZIAWG; OPENVPN; OPENVPN_CLOAK])
      then ("NativePolicyDriver", DRIVER_POLICY_CAPABILITIES)
      else ("SingBoxDriver", DRIVER_POLICY_CAPABILITIES)
  end.

(** [str(action)] of an [AppPolicyAction | str] *)
Definition str_app_action (a : app_action) : string :=
  match a with
  | inl APP_CURRENT => "AppPolicyAction.CURRENT"
  | inl APP_DIRECT => "AppPolicyAction.DIRECT"
  | inl APP_BLOCK => "AppPolicyAction.BLOCK"
  | inr s => s
  end.

(** [actions.add(a)] for every [a] of [l] with [chain_target(a) is not None] *)
Fixpoint add_chain_actions (l : list string) (actions : gset string) : res (gset string) :=
  match l with
  | [] => Ok actions
  | a :: l' =>
      t ← chain_target a;
      add_chain_actions l' (match t with Some _ => {[ a ]} ∪ actions | None => actions end)
  end.

Definition chain_actions_from_rule_groups (groups : list RuleGroup) : res (gset string) :=
  add_chain_actions
    (flat_map (fun g => map r_action (List.filter r_enabled (rg_rules g)))
       (List.filter rg_enabled groups)) ∅.

Definition chain_actions_from_app_policy (policy : AppPolicy) : res (gset string) :=
  if negb (ap_enabled policy) then Ok ∅
  else add_chain_actions
    (map (fun r => str_app_action (ar_action r)) (List.filter ar_enabled (ap_rules policy))
     ++ [str_app_action (ap_default_action policy)]) ∅.

Section policy.
Context `{PyStr, PySet, PyRegex}.

Definition runtime_app_policy (json : res pyval) : res AppPolicy :=
  result ← load_or_disabled json;
  if lr_valid result then Ok (lr_policy result)
  else AppPolicy_post_init (PBool true) (app_mode_value WHITELIST) (inl APP_BLOCK) []
         (PInt APP_POLICY_SCHEMA_VERSION).

Definition lan_capabilities (config : pydict pyval) : gset string :=
  match dict_get_or "lan_sharing" (PDict []) config with
  | PDict lan_config =>
      match dict_get "enabled" lan_config with
      | Some (PBool true) =>
          match dict_get "mode" lan_config with
          | Some (PStr mode) =>
              if String.eqb mode "proxy" then {[ "lan_proxy" ]}
              else if String.eqb mode "gateway" then {[ "lan_gateway" ]} else ∅
          | _ => ∅
          end
      | _ => ∅
      end
  | _ => ∅
  end.

Definition requested_policy_capabilities (state config : pydict pyval) (app_json : res pyval)
    (rules : rule_dir) : res (gset string) :=
  let base : gset string := {[ "dns"; "routing"; "capture" ]} in
  rule_caps ← (if String.eqb (state_str "routing_policy" state) "rule" then
                 app_policy ← runtime_app_policy app_json;
                 groups ← list_groups rules;
                 a ← chain_actions_from_rule_groups groups;
                 b ← chain_actions_from_app_policy app_policy;
                 Ok ((if ap_enabled app_policy then {[ "app_policy" ]} else ∅)
                     ∪ (if bool_decide (a ∪ b = ∅) then ∅ else {[ "chains" ]}))
               else Ok (∅ : gset string));
  t ← chain_target (state_str "default_route_action" state);
  Ok (base ∪ rule_caps ∪ (match t with Some _ => {[ "chains" ]} | None => ∅ end)
      ∪ lan_capabilities config).

(** ** The node group that governs rotation *)
Definition app_policy_group_target (policy : AppPolicy) : option string :=
  if negb (ap_enabled policy) then None
  else match omap (fun r => group_target (str_app_action (ar_action r)))
               (List.filter ar_enabled (ap_rules policy)) with
       | name :: _ => Some name
       | [] => group_target (str_app_action (ap_default_action policy))
       end.

Fixpoint rules_group_target (rules : list Rule) : option string :=
  match rules with
  | [] => None
  | r :: rest =>
      if negb (r_enabled r) then rules_group_target rest
      else match group_target (r_action r) with
           | Some name => Some name
           | None => rules_group_target rest
           end
  end.

Fixpoint groups_group_target (groups : list RuleGroup) : option string :=
  match groups with
  | [] => None
  | g :: rest =>
      if negb (rg_enabled g) then groups_group_target rest
      else match rules_group_target (rg_rules g) with
           | Some name => Some name
           | None => groups_group_target rest
           end
  end.

(** The loop over [PRIORITY_TIER_ORDER] of [_effective_node_group] *)
Fixpoint scan_tiers (tiers : pydict (list RuleGroup)) (policy : AppPolicy) (order : list string)
  : res (option string) :=
  match order with
  | [] => Ok None
  | tier :: rest =>
      let app_name := if String.eqb tier "app" then app_policy_group_target policy else None in
      match app_name with
      | Some name => Ok (Some name)
      | None =>
          groups ← dict_item tier tiers;
          match groups_group_target groups with
          | Some name => Ok (Some name)
          | None => scan_tiers tiers policy rest
          end
      end
  end.

Definition effective_node_group (rules : rule_dir) (app_json : res pyval)
    (node_groups : list (pydict pyval)) : res (option string * option NodeGroup) :=
  groups ← list_groups rules;
  let tiers := group_by_tier groups in
  app_policy ← runtime_app_policy app_json;
  target ← scan_tiers tiers app_policy PRIORITY_TIER_ORDER;
  match target with
  | Some name => group ← NodeGroupStore_get name node_groups; Ok (Some name, group)
  | None => Ok (None, None)
  end.

(** ** The candidate pool *)
Definition group_scoped_pool (group : NodeGroup) (profiles : list Profile)
    (providers : list Provider) (config : pydict pyval) (now_health now_latency : Profile → Z)
  : res (list Profile) :=
  candidates ← resolve_candidates group profiles providers config now_health;
  match ng_selection_mode group with
  | SEL_MANUAL =>
      Ok (List.filter (fun p => bool_decide (Some (p_id p) = ng_manual_profile_id group)) candidates)
  | SEL_AUTO =>
      ranked ← rank_candidates candidates (ng_resilience_policy group) config now_latency;
      let by_id := index_by p_id candidates in
      map_res (fun score => dict_item (sc_profile_id score) by_id) ranked
  end.

Definition compatible_pool (rules : rule_dir) (app_json : res pyval)
    (node_groups : list (pydict pyval)) (profiles : list Profile) (providers : list Provider)
    (config : pydict pyval) (now_health now_latency : Profile → Z) : res (list Profile) :=
  target ← effective_node_group rules app_json node_groups;
  match target with
  | (None, _) => build_pool profiles providers config now_health
  | (Some _, None) => Ok []
  | (Some _, Some group) =>
      if negb (ng_enabled group) then Ok []
      else group_scoped_pool group profiles providers config now_health now_latency
  end.

(** ** The part of [_connect_options] that maps the routing state *)
Definition final_policy_of (default_action : string) : res string :=
  t ← chain_target default_action;
  match t with
  | Some _ => Ok default_action
  | None =>
      if String.eqb default_action "current" then Ok "current_profile"
      else if String.eqb default_action "direct" then Ok "direct"
      else if String.eqb default_action "block" then Ok "block"
      else raise PersistentValidationError
             "default_route_action must be one of: current, direct, block, or chain:<id>"
  end.

Definition connect_mode (routing_policy default_action : string) (capture_modes : list string)
  : string :=
  if String.eqb routing_policy "rule" then "rules"
  else if str_in "tun" capture_modes && String.eqb default_action "current" then "tun"
  else if String.eqb default_action "direct" && bool_decide (capture_modes = ["local_proxy"]) then "direct"
  else if String.eqb default_action "block" && bool_decide (capture_modes = ["local_proxy"]) then "rules"
  else "global".
End policy.

(** ** Specification: the enabled actions in the order traffic is matched *)
Definition rule_actions (tier : string) (groups : list RuleGroup) : list string :=
  flat_map (fun g => map r_action (List.filter r_enabled (rg_rules g)))
    (List.filter rg_enabled (tier_groups tier groups)).

Definition app_actions (policy : AppPolicy) : list string :=
  if ap_enabled policy
  then map (fun r => str_app_action (ar_action r)) (List.filter ar_enabled (ap_rules policy))
       ++ [str_app_action (ap_default_action policy)]
  else [].

Definition ordered_actions (groups : list RuleGroup) (policy : AppPolicy) : list string :=
  flat_map (fun tier => (if String.eqb tier "app" then app_actions policy else [])
                        ++ rule_actions tier groups) PRIORITY_TIER_ORDER.

(** ** Lemmas *)
Lemma head_omap_app {A B} (f : A → option B) l1 l2 :
  head (omap f (l1 ++ l2)) = match head (omap f l1) with Some x => Some x | None => head (omap f l2) end.
Proof. rewrite omap_app. by destruct (omap f l1). Qed.

Lemma omap_map {A B C} (f : B → option C) (g : A → B) l : omap f (map g l) = omap (fun x => f (g x)) l.
Proof. induction l as [|x l IH]; [done|]. cbn. rewrite <- IH. done. Qed.

Lemma rules_group_target_head rules :
  rules_group_target rules = head (omap group_target (map r_action (List.filter r_enabled rules))).
Proof.
  induction rules as [|r rules IH]; [done|]. cbn. destruct (r_enabled r); cbn; [|done].
  by destruct (group_target (r_action r)).
Qed.

Lemma groups_group_target_head groups :
  groups_group_target groups
  = head (omap group_target (flat_map (fun g => map r_action (List.filter r_enabled (rg_rules g)))
            (List.filter rg_enabled groups))).
Proof.
  induction groups as [|g groups IH]; [done|]. cbn. destruct (rg_enabled g); cbn; [|done].
  rewrite head_omap_app, <- rules_group_target_head, <- IH. done.
Qed.

Lemma app_policy_group_target_head policy :
  app_policy_group_target policy = head (omap group_target (app_actions policy)).
Proof.
  unfold app_policy_group_target, app_actions. destruct (ap_enabled policy); [|done]. cbn [negb].
  rewrite head_omap_app, omap_map.
  destruct (omap _ (List.filter ar_enabled (ap_rules policy))) as [|x l]; [|done]. cbn.
  by destruct (group_target (str_app_action (ap_default_action policy))).
Qed.

Lemma scan_tiers_head groups policy order :
  (∀ t, t ∈ order → t ∈ PRIORITY_TIER_ORDER) →
  scan_tiers (group_by_tier groups) policy order
  = Ok (head (omap group_target (flat_map (fun tier =>
      (if String.eqb tier "app" then app_actions policy else []) ++ rule_actions tier groups) order))).
Proof.
  induction order as [|t order IH]; intros Hin; [done|]. cbn [scan_tiers flat_map].
  rewrite !head_omap_app. cbn zeta.
  replace (if String.eqb t "app" then app_policy_group_target policy else None)
    with (head (omap group_target (if String.eqb t "app" then app_actions policy else [])))
    by (destruct (String.eqb t "app"); [by rewrite app_policy_group_target_head|done]).
  destruct (head (omap group_target (if String.eqb t "app" then _ else _))); [done|]. unfold dict_item.
  rewrite group_by_tier_get by (apply Hin; left). cbn [mbind res_bind].
  rewrite groups_group_target_head. fold (rule_actions t groups).
  destruct (head (omap group_target (rule_actions t groups))); [done|]. apply IH. intros t' Ht'. apply Hin. by right.
Qed.

Section policy_proofs.
Context `{PyStr, PySet, PyRegex}.

Lemma effective_node_group_eq rules app_json items groups policy :
  list_groups rules = Ok groups → runtime_app_policy app_json = Ok policy →
  effective_node_group rules app_json items
  = match head (omap group_target (ordered_actions groups policy)) with
    | Some name => group ← NodeGroupStore_get name items; Ok (Some name, group)
    | None => Ok (None, None)
    end.
Proof.
  intros Hg Hp. unfold effective_node_group. rewrite Hg, Hp. cbn [mbind res_bind].
  rewrite scan_tiers_head by done. reflexivity.
Qed.

(** The ranked pool: looking the scores up by id cannot fail. *)
Lemma ranked_lookup cands (ranked : list CandidateScore) :
  NoDup (map p_id cands) → map sc_profile_id ranked ⊆ map p_id cands →
  ∃ pool, map_res (fun s => dict_item (sc_profile_id s) (index_by p_id cands)) ranked = Ok pool
    ∧ map p_id pool = map sc_profile_id ranked ∧ pool ⊆ cands.
Proof.
  intros Hn. induction ranked as [|s ranked IH]; intros Hsub.
  { exists []. repeat split; [done..|]. apply list_subseteq_nil. }
  cbn [map] in Hsub. destruct IH as (pool & Hpool & Hids & Hin).
  { intros x Hx. apply Hsub. by right. }
  pose proof (Hsub (sc_profile_id s) (list_elem_of_here _ _)) as (p & Hp & Hpc)%list_elem_of_fmap.
  assert (dict_item (sc_profile_id s) (index_by p_id cands) = Ok p) as Hd.
  { unfold dict_item. by rewrite Hp, (index_by_unique p_id cands p Hn Hpc). }
  cbn [map_res]. rewrite Hd. cbn [mbind res_bind]. rewrite Hpool. cbn [mbind res_bind]. exists (p :: pool).
  split; [done|]. split; [cbn; congruence|]. intros x [->|Hx]%elem_of_cons; auto.
Qed.

Lemma same_ids_perm (pool cands : list Profile) :
  NoDup (map p_id cands) → pool ⊆ cands → map p_id pool ≡ₚ map p_id cands → pool ≡ₚ cands.
Proof.
  intros Hn Hsub Hp. assert (NoDup (map p_id pool)) as Hn' by by rewrite Hp.
  apply NoDup_Permutation; [by eapply (NoDup_fmap_1 p_id) | by eapply (NoDup_fmap_1 p_id) |].
  intros x. split; [apply Hsub|]. intros Hx.
  assert (p_id x ∈ map p_id pool) as (y & Hy & Hyp)%list_elem_of_fmap.
  { rewrite Hp. by apply list_elem_of_fmap_2. }
  assert (Some x = Some y) as [= ->]; [|done].
  rewrite <- (index_by_unique p_id cands x Hn Hx), <- (index_by_unique p_id cands y Hn (Hsub y Hyp)).
  by rewrite Hy.
Qed.

Lemma group_scoped_pool_cases g ps pv config nh nl pool :
  group_scoped_pool g ps pv config nh nl = Ok pool →
  ∃ cands, resolve_candidates g ps pv config nh = Ok cands ∧ pool ⊆ cands
  ∧ (ng_selection_mode g = SEL_MANUAL → ∀ p, p ∈ pool → ng_manual_profile_id g = Some (p_id p))
  ∧ (ng_selection_mode g = SEL_AUTO →
       ∃ ranked, rank_candidates cands (ng_resilience_policy g) config nl = Ok ranked
         ∧ map p_id pool = map sc_profile_id ranked ∧ pool ≡ₚ cands).
Proof.
  unfold group_scoped_pool. destruct (resolve_candidates g ps pv config nh) as [cands|] eqn:Ec;
    cbn [mbind res_bind]; [|done].
  pose proof (resolve_candidates_sound _ _ _ _ _ _ Ec) as [Hn _].
  intros Hp. exists cands. split; [done|]. destruct (ng_selection_mode g).
  - injection Hp as <-. split; [intros p [? _]%List_filter_elem_of; done|]. split; [|done].
    intros _ p [_ Hp]%List_filter_elem_of. apply bool_decide_eq_true in Hp. done.
  - destruct (rank_candidates _ _ _ _) as [ranked|] eqn:Er; cbn [mbind res_bind] in Hp; [|done].
    apply rank_candidates_ok in Er as Hr. destruct Hr as (scores & Hs & ->).
    apply score_candidates_ids in Hs.
    assert (map sc_profile_id (py_sorted score_lt scores) ≡ₚ map p_id cands) as Hperm.
    { rewrite <- Hs. by rewrite py_sorted_perm. }
    destruct (ranked_lookup cands (py_sorted score_lt scores) Hn) as (pool' & Hp' & Hids & Hsub).
    { intros x. by rewrite Hperm. }
    rewrite Hp' in Hp. injection Hp as <-. split; [done|]. split; [done|]. intros _.
    exists (py_sorted score_lt scores). split; [done|]. split; [done|].
    apply same_ids_perm; [done..|]. by rewrite Hids.
Qed.
End policy_proofs.

(** ** Properties *)
Section policy_theorems.
Context `{PyStr, PySet, PyRegex}.

(** the pool rotation draws from follows the policy that governs the traffic and fails closed.
    The governing node group is the first [group:<name>] among the enabled actions in the order
    traffic is matched.  Without one, the pool is the rotation pool; when the named group does
    not exist or is disabled, the pool is empty, never the rotation pool; otherwise every
    profile of it is a stored, eligible member of that group, and under a manual pin it is the
    pinned profile and no other. *)
Theorem compatible_pool_fail_closed rules app_json items ps pv config nh nl pool groups policy
    (Hids : NoDup (map p_id ps))
    (Hgroups : list_groups rules = Ok groups) (Hpolicy : runtime_app_policy app_json = Ok policy)
    (Hpool : compatible_pool rules app_json items ps pv config nh nl = Ok pool) :
  match head (omap group_target (ordered_actions groups policy)) with
  | None => build_pool ps pv config nh = Ok pool
  | Some name =>
      ∃ found, NodeGroupStore_get name items = Ok found ∧
      match found with
      | None => pool = []
      | Some g =>
          (ng_enabled g = false → pool = [])
          ∧ ∀ p, p ∈ pool →
              p ∈ ps ∧ group_member g p
              ∧ (∃ c, cooldown_seconds config = Ok c ∧ eligible pv nh c p = true)
              ∧ (ng_resilience_policy g = RESILIENT_ONLY → resilient p = true)
              ∧ (ng_selection_mode g = SEL_MANUAL → ng_manual_profile_id g = Some (p_id p))
      end
  end.
Proof.
  unfold compatible_pool in Hpool. rewrite (effective_node_group_eq _ _ _ _ _ Hgroups Hpolicy) in Hpool.
  destruct (head _) as [name|]; cbn [mbind res_bind] in Hpool; [|done].
  destruct (NodeGroupStore_get name items) as [found|]; cbn [mbind res_bind] in Hpool; [|done].
  exists found. split; [done|]. destruct found as [g|]; [|by injection Hpool as <-].
  destruct (ng_enabled g); cbn [negb] in Hpool.
  2: { injection Hpool as <-. split; [done|]. by intros p ?%not_elem_of_nil. }
  split; [done|]. intros p Hp.
  apply group_scoped_pool_cases in Hpool as (cands & Hc & Hsub & Hman & _).
  rewrite resolve_candidates_eq in Hc.
  destruct (filter_eligible_profiles _ _ _ _) as [l|] eqn:E; cbn [mbind res_bind] in Hc; [|done].
  apply filter_eligible_ok in E as (c & -> & Hcool & _). injection Hc as <-.
  pose proof (Hsub p Hp) as Hpc. pose proof (resolve_membership_spec g ps p Hids) as Hm.
  case_bool_decide as Hpol; rewrite !List_filter_elem_of, Hm in Hpc;
    (split; [tauto|]; split; [tauto|]; split; [exists c; tauto|]; split; [tauto|];
     intros ?; by apply Hman).
Qed.

(** under automatic selection the pool is all the candidates of the group, each once, in the
    order of their scores, so the first profile tried is the one [select_best] explains. *)
Theorem auto_pool_is_ranking g ps pv config nh nl pool
    (Hauto : ng_selection_mode g = SEL_AUTO)
    (Hpool : group_scoped_pool g ps pv config nh nl = Ok pool) :
  ∃ cands ex, resolve_candidates g ps pv config nh = Ok cands ∧ pool ≡ₚ cands
  ∧ select_best g cands config nl = Ok (head pool, ex)
  ∧ map p_id pool = map sc_profile_id (ex_candidates ex).
Proof.
  apply group_scoped_pool_cases in Hpool as (cands & Hc & Hsub & _ & Hrank).
  destruct (Hrank Hauto) as (ranked & Hr & Hids & Hperm). exists cands.
  pose proof (resolve_candidates_sound _ _ _ _ _ _ Hc) as [Hn _].
  unfold select_best. rewrite Hr. cbn [mbind res_bind].
  destruct ranked as [|w ranked]; destruct pool as [|p pool]; try done.
  { eexists. done. }
  cbn [map] in Hids. injection Hids as Hid Hids.
  unfold dict_item. rewrite <- Hid, (index_by_unique p_id cands p Hn) by (apply Hsub; left).
  cbn [mbind res_bind head]. eexists. split; [done|]. split; [done|]. split; [done|].
  cbn. by rewrite Hid, Hids.
Qed.

(** A union of known capabilities *)
Ltac caps_within :=
  repeat apply union_least; try assumption; try apply empty_subseteq;
  apply singleton_subseteq_l; by apply (bool_decide_unpack _).

Lemma requested_within_all state config app_json rules caps :
  requested_policy_capabilities state config app_json rules = Ok caps → caps ⊆ DRIVER_POLICY_CAPABILITIES.
Proof.
  assert (lan_capabilities config ⊆ DRIVER_POLICY_CAPABILITIES) as Hlan.
  { unfold lan_capabilities.
    repeat (match goal with |- context [match ?x with _ => _ end] => destruct x end;
            try apply empty_subseteq); caps_within. }
  unfold requested_policy_capabilities. cbn zeta. intros Hr.
  destruct (if String.eqb _ "rule" then _ else _) as [a|] eqn:E in Hr; cbn [mbind res_bind] in Hr; [|done].
  assert (a ⊆ DRIVER_POLICY_CAPABILITIES) as Ha.
  { destruct (String.eqb _ "rule"); [|injection E as <-; apply empty_subseteq].
    inv_res E. injection E as <-. destruct (ap_enabled _), (bool_decide _); caps_within. }
  destruct (chain_target _) as [t|]; cbn [mbind res_bind] in Hr; [|done]. injection Hr as <-.
  destruct t; caps_within.
Qed.

(** the capability contract looked up before a driver is built is the contract of the driver
    that is built, and every capability the persistent policy can request is one the built-in
    drivers declare: the policy preflight never rejects a profile under the built-in selector,
    whatever the stores hold. *)
Theorem builtin_drivers_enforce_policy declared p state config app_json rules caps
    (Hcaps : requested_policy_capabilities state config app_json rules = Ok caps) :
  driver_type_for_profile (Some p)
    = (class_name (select_driver (Some p)), policy_capabilities declared (select_driver (Some p)))
  ∧ caps ∖ policy_capabilities declared (select_driver (Some p)) = ∅.
Proof.
  apply requested_within_all in Hcaps.
  assert (policy_capabilities declared (select_driver (Some p)) = DRIVER_POLICY_CAPABILITIES) as ->.
  { unfold select_driver. by destruct (p_protocol p). }
  split; [|by apply subseteq_empty_difference_L]. unfold driver_type_for_profile, select_driver. by destruct (p_protocol p).
Qed.
End policy_theorems.

(** ** Witnesses *)
Definition demo_rules : rule_dir := {| rd_groups := [("custom", PDict (RuleGroup_to_dict
  {| rg_name := "custom"; rg_enabled := true; rg_priority := 0;
     rg_rules := [{| r_id := "r1"; r_action := "group:eu"; r_conditions := [("domain", ["a.b"])];
                     r_enabled := true |}] |}))]; rd_backups := [] |}.

Definition demo_eu_pool : list Profile := [demo_node "b" VLESS 90; demo_node "a" WIREGUARD 10].

Lemma demo_eu_pool_eq :
  @compatible_pool demo_pystr pyset_sorted demo_regex demo_rules (Ok (PDict [])) [NodeGroup_to_dict demo_group]
    demo_nodes [] [] (fun _ => 0%Z) (fun _ => 0%Z) = Ok demo_eu_pool.
Proof. vm_compute. reflexivity. Qed.

Lemma compatible_pool_fail_closed_witness :
  ∃ g, @NodeGroupStore_get demo_pystr "eu" [NodeGroup_to_dict demo_group] = Ok (Some g)
  ∧ ∀ p, p ∈ demo_eu_pool → p ∈ demo_nodes ∧ group_member g p.
Proof.
  pose proof (@compatible_pool_fail_closed demo_pystr pyset_sorted demo_regex demo_rules (Ok (PDict []))
    [NodeGroup_to_dict demo_group] demo_nodes [] [] (fun _ => 0%Z) (fun _ => 0%Z) demo_eu_pool) as T.
  assert (NoDup (map p_id demo_nodes)) as Hn by by apply (bool_decide_unpack _).
  specialize (T _ _ Hn ltac:(vm_compute; reflexivity) ltac:(vm_compute; reflexivity) demo_eu_pool_eq).
  vm_compute in T. destruct T as ([g|] & Hg & Hp); [|discriminate Hp].
  exists g. split; [rewrite <- Hg; vm_compute; reflexivity|]. intros p Hin.
  destruct Hp as [_ Hp]. destruct (Hp p Hin) as (H1 & H2 & _). split; [exact H1 | exact H2].
Defined.

Lemma auto_pool_is_ranking_witness :
  ∃ cands ex, @resolve_candidates demo_pystr pyset_sorted demo_group demo_nodes [] [] (fun _ => 0%Z) = Ok cands
  ∧ demo_eu_pool ≡ₚ cands
  ∧ select_best demo_group cands [] (fun _ => 0%Z) = Ok (head demo_eu_pool, ex)
  ∧ map p_id demo_eu_pool = map sc_profile_id (ex_candidates ex).
Proof.
  apply (@auto_pool_is_ranking demo_pystr pyset_sorted demo_group demo_nodes [] [] (fun _ => 0%Z) (fun _ => 0%Z));
    vm_compute; reflexivity.
Defined.

Lemma builtin_drivers_enforce_policy_witness :
  ∃ caps, @requested_policy_capabilities demo_pystr demo_regex DEFAULT_STATE [] (Ok (PDict [])) demo_rules = Ok caps
  ∧ caps ∖ policy_capabilities (fun _ => ∅) (select_driver (Some (demo_node "a" OPENVPN 1))) = ∅.
Proof.
  eexists. split; [reflexivity|].
  apply (@builtin_drivers_enforce_policy demo_pystr demo_regex (fun _ => ∅) (demo_node "a" OPENVPN 1)
    DEFAULT_STATE [] (Ok (PDict [])) demo_rules). reflexivity.
Defined.
