(* ===== verification/Health.v ===== *)
(** * Egress health checks

    rotation/health_targets.py (the probe of several HTTPS targets with a success quorum) and
    rotation/health_checker.py (the deep check of a connected driver).  The [curl] process, the
    performance counter around it and the driver are the interface [HealthEnv]; every call of
    it can change the world [W] or raise. *)
From stdpp Require Import base list strings gmap pretty sorting.
From Stdlib Require Import Ascii QArith Qround.
From S2P Require Import Prelude PyData Profiles NodeGroups RouteChains AppPolicy Rules.

Definition DEFAULT_HEALTH_TARGETS : list string :=
  ["https://www.facebook.com/"; "https://www.instagram.com/"; "https://www.youtube.com/"].
Definition DEFAULT_SUCCESS_QUORUM : Z := 2.
Definition DEFAULT_TIMEOUT_SECONDS : pyfloat := Fin 5.
Definition PROXY_BASED_MODES : list string := ["sing-box"].

Record HealthTargetResult : Type := {
  ht_target : string;
  ht_reachable : bool;
  ht_classification : string;
  ht_curl_exit_code : option Z;
  ht_latency_ms : option Q
}.

Record HealthProbeResult : Type := {
  hp_targets : list HealthTargetResult;
  hp_success_count : Z;
  hp_required_successes : Z;
  hp_classification : string;
  hp_latency_ms : option Q
}.

Record HealthCheckResult : Type := {
  hc_status : string;
  hc_latency_ms : option Q;
  hc_classification : string
}.

Definition reachable (r : HealthProbeResult) : bool :=
  (hp_required_successes r <=? hp_success_count r)%Z.

Definition validate_success_quorum (value : pyval) (targets : list string) : res Z :=
  match value with
  | PInt n =>
      if (n <? 1)%Z || (py_len targets <? n)%Z
      then raise ValueError ("rotation.health_success_quorum must be between 1 and "
             +:+ pretty (py_len targets))
      else Ok n
  | _ => raise ValueError "rotation.health_success_quorum must be an integer"
  end.

Definition target_failure_classification (exit_code : Z) : string :=
  if bool_decide (exit_code ∈ [5; 6]%Z) then "dns_interference_suspected"
  else if (exit_code =? 22)%Z then "third_party_service_failure"
  else if bool_decide (exit_code ∈ [7; 28; 35; 52; 55; 56; 92; 95; 97]%Z)
  then "endpoint_censorship_or_network_interference_suspected"
  else "target_transport_failure".

Definition count_reachable (results : list HealthTargetResult) : Z :=
  py_len (List.filter ht_reachable results).

Definition overall_classification (results : list HealthTargetResult) (required : Z) : string :=
  let successful := count_reachable results in
  if (required <=? successful)%Z then "healthy"
  else
    let failures : gset string :=
      list_to_set (map ht_classification (List.filter (fun r => negb (ht_reachable r)) results)) in
    if negb (successful =? 0)%Z then "insufficient_target_quorum"
    else if bool_decide (failures = {[ "dns_interference_suspected" ]}) then "dns_interference_suspected"
    else if bool_decide (failures = {[ "third_party_service_failure" ]}) then "third_party_outage"
    else if bool_decide (failures = {[ "endpoint_censorship_or_network_interference_suspected" ]})
    then "endpoint_censorship_or_network_interference_suspected"
    else if bool_decide (failures = {[ "probe_unavailable" ]}) then "probe_unavailable"
    else "all_targets_unreachable".

(** [statistics.median] of a non-empty list *)
Definition median (l : list Q) : Q :=
  let sorted := py_sorted Qltb l in
  let n := length l in
  let at_ i := nth i sorted 0%Q in
  if Nat.odd n then at_ (n / 2)%nat else ((at_ (n / 2 - 1)%nat + at_ (n / 2)%nat) / 2)%Q.

(** [int(v)] *)
Definition int_of_val (v : pyval) : res Z :=
  match v with
  | PInt z => Ok z
  | PBool b => Ok (if b then 1 else 0)%Z
  | PFloat (Fin q) => Ok (if Qltb q 0 then - Qfloor (- q) else Qfloor q)%Z
  | PFloat NaN => raise ValueError "cannot convert float NaN to integer"
  | PFloat _ => raise OverflowError "cannot convert float infinity to integer"
  | PStr s => match py_int s with
              | Some z => Ok z
              | None => raise ValueError "invalid literal for int() with base 10"
              end
  | _ => raise TypeError "int() argument must be a string or a number"
  end.

(** ** The interface *)
Record HealthEnv (W : Type) : Type := {
  (** [shutil.which("curl")] *)
  he_which_curl : PyM W bool;
  (** one [curl] run through the proxy or not, with [--max-time]: its exit code and the
      rounded milliseconds it took *)
  he_curl : bool → Z → string → PyM W (Z * Q);
  he_health_check : PyM W string;
  he_status : PyM W ConnectionState;
  (** [round(x, 3)] *)
  he_round3 : Q → Q
}.
Arguments he_which_curl {W}.
Arguments he_curl {W}.
Arguments he_health_check {W}.
Arguments he_status {W}.
Arguments he_round3 {W}.

Section health.
Context {W : Type} (env : HealthEnv W).

Definition unavailable_result (target : string) : HealthTargetResult :=
  {| ht_target := target; ht_reachable := false; ht_classification := "probe_unavailable";
     ht_curl_exit_code := None; ht_latency_ms := None |}.

Definition target_result (target : string) (code : Z) (ms : Q) : HealthTargetResult :=
  if (code =? 0)%Z
  then {| ht_target := target; ht_reachable := true; ht_classification := "ok";
          ht_curl_exit_code := Some 0%Z; ht_latency_ms := Some ms |}
  else {| ht_target := target; ht_reachable := false;
          ht_classification := target_failure_classification code;
          ht_curl_exit_code := Some code; ht_latency_ms := None |}.

Fixpoint probe_each (via_proxy : bool) (timeout : Z) (targets : list string)
  : PyM W (list HealthTargetResult) :=
  match targets with
  | [] => mret []
  | t :: rest =>
      run ← he_curl env via_proxy timeout t;
      results ← probe_each via_proxy timeout rest;
      mret (target_result t run.1 run.2 :: results)
  end.

Definition probe_targets (via_proxy : bool) (targets : list string) (timeout : pyfloat)
    (success_quorum : pyval) : PyM W HealthProbeResult :=
  required ← liftR (validate_success_quorum success_quorum targets);
  have_curl ← he_which_curl env;
  if negb (have_curl : bool) then
    mret {| hp_targets := map unavailable_result targets; hp_success_count := 0;
            hp_required_successes := required; hp_classification := "probe_unavailable";
            hp_latency_ms := None |}
  else
    max_time ← (match targets with
                | [] => mret 0%Z
                | _ => liftR (int_of_val (PFloat timeout))
                end);
    results ← probe_each via_proxy max_time targets;
    let latencies := omap ht_latency_ms results in
    mret {| hp_targets := results; hp_success_count := count_reachable results;
            hp_required_successes := required;
            hp_classification := overall_classification results required;
            hp_latency_ms := match latencies with
                             | [] => None
                             | _ => Some (he_round3 env (median latencies))
                             end |}.

(** [_check_full]; [verify] is a [VerifyFn] *)
Definition check_full (verify : bool → PyM W HealthProbeResult) : PyM W HealthCheckResult :=
  driver_status ← he_health_check env;
  if String.eqb driver_status "down" then
    mret {| hc_status := "down"; hc_latency_ms := None; hc_classification := "tunnel_failure" |}
  else
  state ← he_status env;
  let via_proxy := if cs_tun_active state then Some false
                   else if str_in (cs_mode state) PROXY_BASED_MODES && cs_proxy_active state
                   then Some true else None in
  match via_proxy with
  | None => mret {| hc_status := "down"; hc_latency_ms := None; hc_classification := "no_active_route" |}
  | Some via_proxy =>
      probe ← verify via_proxy;
      if negb (reachable probe) then
        mret {| hc_status := "degraded"; hc_latency_ms := None;
                hc_classification := hp_classification probe |}
      else if String.eqb driver_status "degraded" then
        mret {| hc_status := "degraded"; hc_latency_ms := hp_latency_ms probe;
                hc_classification := "driver_degraded" |}
      else mret {| hc_status := "ok"; hc_latency_ms := hp_latency_ms probe;
                   hc_classification := hp_classification probe |}
  end.

(** [tuple(v)]; the configuration loader admits lists of strings only *)
Definition health_targets_of (v : pyval) : res (list string) :=
  match v with
  | PList l => map_res (fun x => match x with
                                 | PStr s => Ok s
                                 | _ => raise TypeError "expected str, bytes or os.PathLike object"
                                 end) l
  | PStr s => Ok (map (fun c => String c "") (String.list_ascii_of_string s))
  | PDict d => Ok (map fst d)
  | _ => raise TypeError "object is not iterable"
  end.

(** [WatchdogRuntime._configured_verify] *)
Definition configured_verify `{PyStr} (config : pydict pyval) : res (bool → PyM W HealthProbeResult) :=
  raw_targets ← config_get config "rotation" "health_targets" (PList (map PStr DEFAULT_HEALTH_TARGETS));
  targets ← health_targets_of raw_targets;
  raw_quorum ← config_get config "rotation" "health_success_quorum" (PInt DEFAULT_SUCCESS_QUORUM);
  quorum ← int_of_val raw_quorum;
  raw_timeout ← config_get config "rotation" "test_timeout_seconds" (PFloat DEFAULT_TIMEOUT_SECONDS);
  timeout ← py_float raw_timeout;
  Ok (fun via_proxy => probe_targets via_proxy targets timeout (PInt quorum)).
End health.

(** ** Lemmas *)
Lemma count_reachable_eq (results : list HealthTargetResult) :
  count_reachable results = Z.of_nat (length (List.filter ht_reachable results)).
Proof. done. Qed.

Lemma overall_healthy_iff results required :
  overall_classification results required = "healthy" ↔ (required <= count_reachable results)%Z.
Proof.
  unfold overall_classification. cbn zeta. destruct (Z.leb_spec required (count_reachable results)); [done|].
  split; [|lia]. by repeat case_match.
Qed.

Section health_proofs.
Context {W : Type} (env : HealthEnv W).

Lemma probe_each_targets via timeout targets w rs w' :
  probe_each env via timeout targets w = (Ok rs, w') →
  map ht_target rs = targets
  ∧ Forall (fun r => ht_reachable r = true ↔ ht_curl_exit_code r = Some 0%Z) rs.
Proof.
  revert w rs w'. induction targets as [|t targets IH]; intros w rs w'; cbn.
  { intros [= <- <-]. done. }
  unfold mbind, pym_bind. destruct (he_curl env via timeout t w) as [[[code ms]|] w1]; [|done].
  destruct (probe_each env via timeout targets w1) as [[rs'|] w2] eqn:E; [|done].
  intros [= <- <-]. apply IH in E as [Ht Hf]. split; [cbn; f_equal; [|done]|constructor; [|done]];
    unfold target_result; cbn; destruct (Z.eqb_spec code 0) as [->|]; cbn; try done; clear IH Ht Hf; naive_solver.
Qed.

(** a probe reports its egress reachable exactly when at least the required number of the
    configured targets, one result per target in order, answered with exit code 0; the required
    number is between 1 and the number of targets, so a probe without [curl] or without any
    answer is never reachable, and the classification is "healthy" in exactly that case. *)
Theorem probe_quorum via targets timeout quorum w r w' :
  probe_targets env via targets timeout quorum w = (Ok r, w') →
  map ht_target (hp_targets r) = targets
  ∧ (1 <= hp_required_successes r <= Z.of_nat (length targets))%Z
  ∧ (reachable r = true ↔
      (hp_required_successes r
       <= Z.of_nat (length (List.filter (fun t => bool_decide (ht_curl_exit_code t = Some 0%Z)) (hp_targets r))))%Z)
  ∧ (reachable r = true ↔ hp_classification r = "healthy").
Proof.
  unfold probe_targets, mbind, pym_bind, liftR.
  destruct (validate_success_quorum quorum targets) as [req|] eqn:Eq; [|done].
  assert (1 <= req <= Z.of_nat (length targets))%Z as Hreq.
  { destruct quorum; try done. cbn in Eq. destruct (_ || _) eqn:E; [done|]. injection Eq as <-.
    unfold py_len in E. lia. }
  destruct (he_which_curl env w) as [[[]|] w1]; [| |done]; cbn [negb].
  - match goal with |- context [match ?m w1 with _ => _ end] => destruct (m w1) as [[mt|] w2] end; [|done].
    destruct (probe_each env via mt targets w2) as [[rs|] w3] eqn:E; [|done].
    intros [= <- <-]. apply probe_each_targets in E as [Ht Hf]. unfold reachable. cbn.
    split; [done|]. split; [done|]. rewrite overall_healthy_iff, Z.leb_le, count_reachable_eq.
    split; [|done].
    replace (List.filter ht_reachable rs)
      with (List.filter (fun t => bool_decide (ht_curl_exit_code t = Some 0%Z)) rs); [done|].
    clear -Hf. induction Hf as [|r rs Hr _ IH]; [done|]. cbn.
    rewrite IH, (bool_decide_ext _ (ht_reachable r = true)) by by rewrite Hr.
    by destruct (ht_reachable r).
  - intros [= <- <-]. unfold reachable. cbn. split; [by rewrite map_map, map_id|]. split; [done|].
    assert (List.filter (fun t => bool_decide (ht_curl_exit_code t = Some 0%Z)) (map unavailable_result targets) = [])
      as -> by (clear; by induction targets).
    rewrite !Z.leb_le. cbn. split; [done|]. split; [lia|done].
Qed.

(** the deep check answers "ok" only on evidence: the driver reported neither down nor
    degraded, it has an active route (a TUN interface, or the local proxy of a proxy-based
    mode), and the probe through that very route reached its quorum.  A driver that is down is
    never probed. *)
Theorem deep_check_ok_sound verify w r w' :
  check_full env verify w = (Ok r, w') → hc_status r = "ok" →
  ∃ w1 st w2 probe via,
    he_health_check env w = (Ok st, w1) ∧ st ≠ "down" ∧ st ≠ "degraded"
    ∧ (∃ cs, he_status env w1 = (Ok cs, w2)
         ∧ (if via : bool then cs_tun_active cs = false ∧ cs_mode cs ∈ PROXY_BASED_MODES
                               ∧ cs_proxy_active cs = true
            else cs_tun_active cs = true))
    ∧ verify via w2 = (Ok probe, w') ∧ reachable probe = true
    ∧ hc_latency_ms r = hp_latency_ms probe.
Proof.
  unfold check_full, mbind, pym_bind. intros Hr Hok.
  destruct (he_health_check env w) as [[st|] w1] eqn:Eh; [|done].
  destruct (String.eqb_spec st "down") as [->|Hd]; [by injection Hr as <- _|].
  destruct (he_status env w1) as [[cs|] w2] eqn:Es; [|done].
  set (route := if cs_tun_active cs then Some false else _) in Hr.
  destruct route as [via|] eqn:Er; [|by injection Hr as <- _].
  destruct (verify via w2) as [[probe|] w3] eqn:Ev; [|done].
  destruct (reachable probe) eqn:Ereach; cbn [negb] in Hr; [|by injection Hr as <- _].
  destruct (String.eqb_spec st "degraded") as [->|Hg]; [by injection Hr as <- _|].
  injection Hr as <- <-. exists w1, st, w2, probe, via. repeat (split; [done|]). split; [|done].
  exists cs. split; [done|]. subst route. destruct (cs_tun_active cs); [by injection Er as <-|].
  destruct (str_in (cs_mode cs) PROXY_BASED_MODES) eqn:Em; [|done].
  destruct (cs_proxy_active cs); [|done]. injection Er as <-. apply str_in_spec in Em. done.
Qed.
End health_proofs.

(** ** Witnesses *)
Definition demo_health_env : HealthEnv unit := {|
  he_which_curl := mret true;
  he_curl := fun _ _ t => mret (if String.eqb t "https://c/" then 28%Z else 0%Z, 40%Q);
  he_health_check := mret "ok";
  he_status := mret {|
    cs_active_profile_id := "a"; cs_connected_at := None; cs_mode := "sing-box";
    cs_tun_active := true; cs_proxy_active := true; cs_kill_switch_active := true;
    cs_kill_switch_status := "applied"; cs_kill_switch_method := "nft";
    cs_kill_switch_consistent := true; cs_runtime_mismatch_severity := "";
    cs_runtime_artifacts := []; cs_lan_gateway_active := false; cs_lan_gateway_interface := "";
    cs_lan_gateway_client_cidr := ""; cs_lan_gateway_dns_mode := "";
    cs_lan_gateway_status := "disabled"; cs_status := "connected";
    cs_last_failure_reason := ""; cs_last_failure_at := None |};
  he_round3 := fun q => q |}.

Definition demo_targets : list string := ["https://a/"; "https://b/"; "https://c/"].

Lemma probe_quorum_witness :
  ∃ r, probe_targets demo_health_env false demo_targets (Fin 5) (PInt 2) () = (Ok r, ())
  ∧ reachable r = true ∧ hp_classification r = "healthy".
Proof.
  eexists. split; [reflexivity|]. split; [reflexivity|].
  apply (probe_quorum demo_health_env false demo_targets (Fin 5) (PInt 2) () _ () eq_refl). reflexivity.
Defined.

Lemma deep_check_ok_sound_witness :
  ∃ r probe, check_full demo_health_env (fun via => probe_targets demo_health_env via demo_targets (Fin 5) (PInt 2)) ()
    = (Ok r, ()) ∧ hc_latency_ms r = hp_latency_ms probe ∧ reachable probe = true.
Proof.
  eexists.
  destruct (deep_check_ok_sound demo_health_env
    (fun via => probe_targets demo_health_env via demo_targets (Fin 5) (PInt 2)) () _ () eq_refl eq_refl)
    as (w1 & st & w2 & probe & via & _ & _ & _ & _ & _ & Hr & Hl).
  exists probe. split; [reflexivity|]. split; [exact Hl | exact Hr].
Defined.
