(* ===== verification/Watchdog.v ===== *)
(** * The watchdog runtime

    [WatchdogRuntime] and [_RuntimeDriverRouter] of core/watchdog.py.  The drivers, the kill
    switch, the DNS snapshot, the configuration file, the clocks and the processes it calls are
    the interface [WatchdogEnv] over a world [W]: every call can change [W] or raise.  The
    persistent state file and the profile store are part of the runtime's state, because its
    methods read and write them; the stores it only reads are in [Stores].  Log messages are
    not modelled. *)
From stdpp Require Import base list strings gmap pretty sorting.
From Stdlib Require Import Ascii QArith.
From S2P Require Import Prelude PyData Profiles Rotation Recovery NodeGroups Dns RouteChains AppPolicy Rules RuleStore StateManager WatchdogPolicy Health.

(** ** Data *)

(** A driver object: its class and its identity *)
Record Driver : Type := { d_class : driver_class; d_oid : N }.

#[global] Instance Driver_eq_dec : EqDecision Driver.
Proof. solve_decision. Defined.

(** [type(a) is type(b)] *)
Definition same_type (a b : driver_class) : bool :=
  match a, b with
  | NativePolicyDriver _, NativePolicyDriver _ => true
  | _, _ => bool_decide (a = b)
  end.

(** The attributes of the kill switch that the runtime assigns *)
Inductive ks_attr : Type :=
| KA_tunnel_interface (s : string)
| KA_block_ipv6 (b : bool)
| KA_allow_lan (b : bool)
| KA_allowed_endpoints (l : list string)
| KA_direct_egress_uid (u : option Z).

(** The keys of [kill_switch.status()] that are read; [None] is an absent key *)
Record KillSwitchStatus : Type := {
  kss_active : option bool;
  kss_artifacts_present : option bool;
  kss_consistent : option bool;
  kss_method : string;
  kss_mismatch_reasons : list string
}.

Record EffectiveRuntimeObservation : Type := {
  ob_processes : list string;
  ob_interfaces : list string;
  ob_listener_ports : list Z;
  ob_routing_artifacts : list string;
  ob_listener_observable : bool
}.

Record LANProxyRuntimeConfig : Type := {
  lp_bind_address : string; lp_socks_port : Z; lp_http_port : Z;
  lp_username : string; lp_password : string; lp_firewall_managed : bool
}.

Record LANGatewayRuntimeConfig : Type := {
  lg_lan_interface : string; lg_client_cidr : string; lg_dns_mode : string;
  lg_firewall_managed : bool; lg_tunnel_interface : string
}.

(** The keyword arguments of [driver.connect] *)
Record ConnectOptions : Type := {
  co_mode : string;
  co_final_policy : string;
  co_capture_modes : list string;
  co_lan_proxy : option LANProxyRuntimeConfig;
  co_lan_gateway : option LANGatewayRuntimeConfig;
  co_rules : option (list RuleGroup * AppPolicy * pydict string * list (pydict string));
  co_chain_runtime_plans : pydict ChainRuntimePlan;
  co_management_peers : option (list string)
}.

(** The stores the runtime only reads *)
Record Stores : Type := {
  st_providers : list Provider;
  st_rules : rule_dir;
  st_app_policy : res pyval;
  st_node_groups : list (pydict pyval);
  st_chains : option pyval
}.

(** ** The interface *)
Record WatchdogEnv (W : Type) : Type := {
  we_new_driver : driver_class → PyM W Driver;
  we_connect : Driver → Profile → option DNSPolicy → ConnectOptions → PyM W bool;
  we_disconnect : Driver → PyM W bool;
  we_health_check : Driver → PyM W string;
  we_status : Driver → PyM W ConnectionState;
  (** the class attributes of a driver class from elsewhere *)
  we_declared_capabilities : string → gset string;
  we_declared_egress_check : string → bool;
  (** [getattr(driver, "preflight_management_path", None)] *)
  we_preflight_management : Driver → option (Profile → string → list string → PyM W (list string));
  we_ks_assign : ks_attr → PyM W unit;
  we_ks_apply_atomic : PyM W bool;
  we_ks_disable : PyM W bool;
  we_ks_is_active : PyM W bool;
  we_ks_status : PyM W KillSwitchStatus;
  (** [load_snapshot(path)]: whether the snapshot is NetworkManager's *)
  we_load_snapshot : PyM W (option bool);
  we_root_snapshot_exists : PyM W bool;
  we_nm_dns_restore : PyM W unit;
  we_restore_state : PyM W unit;
  we_unlink_snapshot : PyM W unit;
  we_load_config : PyM W (pydict pyval);
  we_load_dns_policy : PyM W DNSPolicy;
  we_utcnow : PyM W datetime;
  we_monotonic : PyM W Q;
  we_sleep : Q → PyM W unit;
  (** the readings of [datetime.now] made for each profile of a pool *)
  we_pool_clock : PyM W (Profile → Z);
  we_chain_clock : PyM W (N → Profile → Z);
  we_which_curl : PyM W bool;
  we_curl : bool → Z → string → PyM W (Z * Q);
  we_validate_endpoint : Profile → list string → PyM W unit;
  we_rule_set_plan : list RuleGroup → PyM W (pydict string * list (pydict string));
  we_interface_addresses : option string → PyM W (pydict (list string));
  we_lan_credentials : PyM W (string * string);
  we_observe : PyM W EffectiveRuntimeObservation;
  (** functions of the standard library, of parsers/endpoint_policy.py and of
      parsers/openvpn_safety.py *)
  we_endpoint_host : Profile → res (option string);
  we_canonical_ip : string → option string;
  we_validate_openvpn : Profile → res unit;
  we_isoformat : datetime → string;
  we_fromisoformat : string → option datetime;
  we_round3 : Q → Q;
  we_format_1f : Q → string;
  we_getuid : Z
}.
Arguments we_new_driver {W}.
Arguments we_connect {W}.
Arguments we_disconnect {W}.
Arguments we_health_check {W}.
Arguments we_status {W}.
Arguments we_declared_capabilities {W}.
Arguments we_declared_egress_check {W}.
Arguments we_preflight_management {W}.
Arguments we_ks_assign {W}.
Arguments we_ks_apply_atomic {W}.
Arguments we_ks_disable {W}.
Arguments we_ks_is_active {W}.
Arguments we_ks_status {W}.
Arguments we_load_snapshot {W}.
Arguments we_root_snapshot_exists {W}.
Arguments we_nm_dns_restore {W}.
Arguments we_restore_state {W}.
Arguments we_unlink_snapshot {W}.
Arguments we_load_config {W}.
Arguments we_load_dns_policy {W}.
Arguments we_utcnow {W}.
Arguments we_monotonic {W}.
Arguments we_sleep {W}.
Arguments we_pool_clock {W}.
Arguments we_chain_clock {W}.
Arguments we_which_curl {W}.
Arguments we_curl {W}.
Arguments we_validate_endpoint {W}.
Arguments we_rule_set_plan {W}.
Arguments we_interface_addresses {W}.
Arguments we_lan_credentials {W}.
Arguments we_observe {W}.
Arguments we_endpoint_host {W}.
Arguments we_canonical_ip {W}.
Arguments we_validate_openvpn {W}.
Arguments we_isoformat {W}.
Arguments we_fromisoformat {W}.
Arguments we_round3 {W}.
Arguments we_format_1f {W}.
Arguments we_getuid {W}.

(** [driver_selector]: the module's [select_driver], the closure over [self.driver] that
    [__post_init__] installs, or another callable *)
Inductive selector (W : Type) : Type :=
| SelOriginal
| SelCurrent
| SelCustom (f : Profile → PyM W Driver).
Arguments SelOriginal {W}.
Arguments SelCurrent {W}.
Arguments SelCustom {W} f.

Record WatchdogRuntime (W : Type) : Type := {
  rt_driver : Driver;
  rt_selector : selector W;
  rt_stores : Stores;
  rt_state : state_file;
  rt_profiles : list Profile;
  rt_engine : RotationEngine;
  rt_recovery : Recovery;
  rt_reconnect_failures : Z;
  rt_forced : bool;
  rt_barrier : bool;
  rt_health_detail : string;
  rt_world : W
}.
Arguments rt_driver {W}.
Arguments rt_selector {W}.
Arguments rt_stores {W}.
Arguments rt_state {W}.
Arguments rt_profiles {W}.
Arguments rt_engine {W}.
Arguments rt_recovery {W}.
Arguments rt_reconnect_failures {W}.
Arguments rt_forced {W}.
Arguments rt_barrier {W}.
Arguments rt_health_detail {W}.
Arguments rt_world {W}.

(** ** Field updates *)
Section updates.
Context {W : Type}.
Implicit Types (rt : WatchdogRuntime W).

Definition set_driver (d : Driver) rt : WatchdogRuntime W :=
  Build_WatchdogRuntime W d (rt_selector rt) (rt_stores rt) (rt_state rt) (rt_profiles rt) (rt_engine rt)
    (rt_recovery rt) (rt_reconnect_failures rt) (rt_forced rt) (rt_barrier rt) (rt_health_detail rt) (rt_world rt).
Definition set_selector (s : selector W) rt : WatchdogRuntime W :=
  Build_WatchdogRuntime W (rt_driver rt) s (rt_stores rt) (rt_state rt) (rt_profiles rt) (rt_engine rt)
    (rt_recovery rt) (rt_reconnect_failures rt) (rt_forced rt) (rt_barrier rt) (rt_health_detail rt) (rt_world rt).
Definition set_state (f : state_file) rt : WatchdogRuntime W :=
  Build_WatchdogRuntime W (rt_driver rt) (rt_selector rt) (rt_stores rt) f (rt_profiles rt) (rt_engine rt)
    (rt_recovery rt) (rt_reconnect_failures rt) (rt_forced rt) (rt_barrier rt) (rt_health_detail rt) (rt_world rt).
Definition set_profiles (l : list Profile) rt : WatchdogRuntime W :=
  Build_WatchdogRuntime W (rt_driver rt) (rt_selector rt) (rt_stores rt) (rt_state rt) l (rt_engine rt)
    (rt_recovery rt) (rt_reconnect_failures rt) (rt_forced rt) (rt_barrier rt) (rt_health_detail rt) (rt_world rt).
Definition set_engine (e : RotationEngine) rt : WatchdogRuntime W :=
  Build_WatchdogRuntime W (rt_driver rt) (rt_selector rt) (rt_stores rt) (rt_state rt) (rt_profiles rt) e
    (rt_recovery rt) (rt_reconnect_failures rt) (rt_forced rt) (rt_barrier rt) (rt_health_detail rt) (rt_world rt).
Definition set_recovery (r : Recovery) rt : WatchdogRuntime W :=
  Build_WatchdogRuntime W (rt_driver rt) (rt_selector rt) (rt_stores rt) (rt_state rt) (rt_profiles rt) (rt_engine rt)
    r (rt_reconnect_failures rt) (rt_forced rt) (rt_barrier rt) (rt_health_detail rt) (rt_world rt).
Definition set_reconnect_failures (n : Z) rt : WatchdogRuntime W :=
  Build_WatchdogRuntime W (rt_driver rt) (rt_selector rt) (rt_stores rt) (rt_state rt) (rt_profiles rt) (rt_engine rt)
    (rt_recovery rt) n (rt_forced rt) (rt_barrier rt) (rt_health_detail rt) (rt_world rt).
Definition set_forced (b : bool) rt : WatchdogRuntime W :=
  Build_WatchdogRuntime W (rt_driver rt) (rt_selector rt) (rt_stores rt) (rt_state rt) (rt_profiles rt) (rt_engine rt)
    (rt_recovery rt) (rt_reconnect_failures rt) b (rt_barrier rt) (rt_health_detail rt) (rt_world rt).
Definition set_barrier_failed (b : bool) rt : WatchdogRuntime W :=
  Build_WatchdogRuntime W (rt_driver rt) (rt_selector rt) (rt_stores rt) (rt_state rt) (rt_profiles rt) (rt_engine rt)
    (rt_recovery rt) (rt_reconnect_failures rt) (rt_forced rt) b (rt_health_detail rt) (rt_world rt).
Definition set_health_detail (s : string) rt : WatchdogRuntime W :=
  Build_WatchdogRuntime W (rt_driver rt) (rt_selector rt) (rt_stores rt) (rt_state rt) (rt_profiles rt) (rt_engine rt)
    (rt_recovery rt) (rt_reconnect_failures rt) (rt_forced rt) (rt_barrier rt) s (rt_world rt).
Definition set_world (w : W) rt : WatchdogRuntime W :=
  Build_WatchdogRuntime W (rt_driver rt) (rt_selector rt) (rt_stores rt) (rt_state rt) (rt_profiles rt) (rt_engine rt)
    (rt_recovery rt) (rt_reconnect_failures rt) (rt_forced rt) (rt_barrier rt) (rt_health_detail rt) w.
End updates.

(** [__post_init__] *)
Definition WatchdogRuntime_post_init {W} (rt : WatchdogRuntime W) : WatchdogRuntime W :=
  match rt_selector rt, d_class (rt_driver rt) with
  | SelOriginal, OtherDriver _ => set_selector SelCurrent rt
  | _, _ => rt
  end.

(** [str.isalpha] *)
Definition is_alpha (c : ascii) : bool :=
  let n := N_of_ascii c in
  ((65 <=? n) && (n <=? 90) || (97 <=? n) && (n <=? 122) || (n =? 170) || (n =? 181) || (n =? 186)
   || (192 <=? n) && (n <=? 255) && negb (n =? 215) && negb (n =? 247))%N.

Fixpoint drop_underscores (s : string) : string :=
  match s with
  | "" => ""
  | String c s' => if Ascii.eqb c "_" then drop_underscores s' else String c (drop_underscores s')
  end.

Definition safe_classification (c : string) : string :=
  let t := drop_underscores c in
  if truthy_str t && forall_chars is_alpha t then c else "unknown".

(** The assignments of [_record_health_result]; [latency] is [None] when none was measured *)
Definition with_health (status : string) (now : datetime) (latency : option (option Q)) (p : Profile)
  : Profile := {|
  p_id := p_id p; p_name := p_name p; p_protocol := p_protocol p; p_config := p_config p;
  p_source := p_source p; p_provider_id := p_provider_id p;
  p_in_rotation_pool := p_in_rotation_pool p; p_enabled := p_enabled p;
  p_created_at := p_created_at p; p_last_used := p_last_used p;
  p_last_health_check := Some now; p_health_status := status;
  p_latency_ms := match latency with Some l => Fin <$> l | None => p_latency_ms p end;
  p_last_latency_check := match latency with Some _ => Some now | None => p_last_latency_check p end |}.

(** [state.status = s] *)
Definition with_status (s : string) (c : ConnectionState) : ConnectionState := {|
  cs_active_profile_id := cs_active_profile_id c; cs_connected_at := cs_connected_at c;
  cs_mode := cs_mode c; cs_tun_active := cs_tun_active c; cs_proxy_active := cs_proxy_active c;
  cs_kill_switch_active := cs_kill_switch_active c; cs_kill_switch_status := cs_kill_switch_status c;
  cs_kill_switch_method := cs_kill_switch_method c; cs_kill_switch_consistent := cs_kill_switch_consistent c;
  cs_runtime_mismatch_severity := cs_runtime_mismatch_severity c;
  cs_runtime_artifacts := cs_runtime_artifacts c; cs_lan_gateway_active := cs_lan_gateway_active c;
  cs_lan_gateway_interface := cs_lan_gateway_interface c;
  cs_lan_gateway_client_cidr := cs_lan_gateway_client_cidr c;
  cs_lan_gateway_dns_mode := cs_lan_gateway_dns_mode c; cs_lan_gateway_status := cs_lan_gateway_status c;
  cs_status := s; cs_last_failure_reason := cs_last_failure_reason c;
  cs_last_failure_at := cs_last_failure_at c |}.

Definition runtime_state_active (s : ConnectionState) : bool :=
  String.eqb (cs_status s) "connected" || cs_tun_active s || cs_proxy_active s
  || negb (String.eqb (cs_mode s) "standby").

(** [except (PersistentStoreError, PersistentValidationError)] *)
Definition store_error (e : exn) : bool :=
  is_instance e PersistentStoreError || is_instance e PersistentValidationError.

(** [sorted(set(l))] *)
Definition sorted_set (l : list string) : list string :=
  py_sorted String.ltb (remove_dups l).

Section runtime.
Context `{PyStr, PySet, PyRegex} {W : Type} (env : WatchdogEnv W).

Abbreviation RT := (WatchdogRuntime W).
Abbreviation WM := (PyM (WatchdogRuntime W)).

(** A call of the interface *)
Definition io {A} (m : PyM W A) : WM A := fun rt =>
  let '(r, w) := m (rt_world rt) in (r, set_world w rt).

Definition update (f : RT → RT) : WM unit := modifyS f.

(** ** The persistent state *)
Definition sm_load : WM (pydict pyval) := f ← gets rt_state; liftR (StateManager_load f).

Definition sm_get (key : string) (default : pyval) : WM pyval :=
  f ← gets rt_state; liftR (StateManager_get key default f).

Definition sm_set (key value : string) : WM unit := fun rt =>
  let '(r, f) := StateManager_set key (PStr value) (rt_state rt) in (r, set_state f rt).

(** A method of the profile store *)
Definition on_profiles {A} (m : PyM (list Profile) A) : WM A := fun rt =>
  let '(r, l) := m (rt_profiles rt) in (r, set_profiles l rt).

Definition flag_of (v : pyval) : bool := match v with PBool b => b | _ => false end.

Definition record_last_failure (reason : string) : WM unit :=
  _ ← sm_set "last_failure_reason" reason;
  now ← io (we_utcnow env);
  sm_set "last_failure_at" (we_isoformat env now).

Definition clear_last_failure : WM unit :=
  _ ← sm_set "last_failure_reason" "";
  sm_set "last_failure_at" "".

Definition active_profile : WM (option Profile) :=
  v ← sm_get "active_profile_id" (PStr "");
  let active_profile_id := py_str v in
  if negb (truthy_str active_profile_id) then mret None
  else gets (fun rt => ProfileStore_get active_profile_id (rt_profiles rt)).

Definition conn_state (status mode : string) : WM ConnectionState := liftR (new_ConnectionState status mode).

Definition standby_state : WM ConnectionState := conn_state "standby" "standby".

Definition driver_status : WM ConnectionState := d ← gets rt_driver; io (we_status env d).

(** [getattr(self.driver, "requires_profile_egress_check", False)] *)
Definition requires_egress_check (d : Driver) : bool :=
  match d_class d with
  | SingBoxDriver | NativePolicyDriver _ => true
  | BareDriver _ => false
  | OtherDriver name => we_declared_egress_check env name
  end.

Definition automatic_actions_enabled (require_autoconnect : bool) : WM bool :=
  f ← gets rt_state;
  match StateManager_load f with
  | Err e => if store_error e then mret false else liftR (Err e)
  | Ok state =>
      let desired_state := py_str (dict_get_or "vpn_desired_state" (PStr "off") state) in
      if String.eqb desired_state "off" then mret false
      else if negb (String.eqb desired_state "on") then mret false
      else if require_autoconnect
              && negb (flag_of (dict_get_or "vpn_autoconnect_enabled" (PBool false) state))
      then mret false
      else mret true
  end.

Definition automatic_disabled_state : WM ConnectionState :=
  f ← gets rt_state;
  match StateManager_get "last_failure_reason" (PStr "") f with
  | Err e => if store_error e then standby_state else liftR (Err e)
  | Ok v =>
      let reason := py_str v in
      if str_in reason ["dns_restore_failed"; "kill_switch_disable_failed"]
      then conn_state reason "standby" else standby_state
  end.

Definition autoconnect_enabled : WM bool :=
  f ← gets rt_state;
  match StateManager_get "vpn_autoconnect_enabled" (PBool false) f with
  | Ok v => mret (flag_of v)
  | Err e => if store_error e then mret false else liftR (Err e)
  end.

(** ** The kill switch *)
Definition kill_switch_allowed_endpoints (profile : option Profile) : res (list string) :=
  match profile with
  | None => Ok []
  | Some p =>
      match we_endpoint_host env p with
      | Err e => if is_instance e ValueError then Ok [] else Err e
      | Ok None => Ok []
      | Ok (Some host) =>
          if negb (truthy_str (strip host)) then Ok []
          else match we_canonical_ip env (strip host) with Some ip => Ok [ip] | None => Ok [] end
      end
  end.

Definition configure_kill_switch (config : pydict pyval) (profile : option Profile) : WM unit :=
  tunnel ← liftR (config_get config "kill_switch" "tunnel_interface" (PStr "wdvpn-tun0"));
  _ ← io (we_ks_assign env (KA_tunnel_interface (py_str tunnel)));
  raw ← liftR (config_get config "kill_switch" "block_ipv6" (PBool true));
  block_ipv6 ← liftR (strict_bool raw "kill_switch.block_ipv6");
  _ ← io (we_ks_assign env (KA_block_ipv6 block_ipv6));
  raw ← liftR (config_get config "kill_switch" "allow_lan" (PBool true));
  allow_lan ← liftR (strict_bool raw "kill_switch.allow_lan");
  _ ← io (we_ks_assign env (KA_allow_lan allow_lan));
  endpoints ← liftR (kill_switch_allowed_endpoints profile);
  _ ← io (we_ks_assign env (KA_allowed_endpoints endpoints));
  io (we_ks_assign env (KA_direct_egress_uid (match profile with Some _ => Some (we_getuid env) | None => None end))).

(** [strict_bool(config.get("kill_switch", {}).get("enabled", False), "kill_switch.enabled")] *)
Definition kill_switch_configured (config : pydict pyval) : res bool :=
  raw ← config_get config "kill_switch" "enabled" (PBool false);
  strict_bool raw "kill_switch.enabled".

Definition apply_desired_on_protection (profile : option Profile) : WM bool :=
  config ← io (we_load_config env);
  _ ← configure_kill_switch config profile;
  applied ← io (we_ks_apply_atomic env);
  if (applied : bool) then
    configured ← liftR (kill_switch_configured config);
    _ ← update (set_forced (negb configured));
    mret true
  else mret false.

Definition protect_connection_attempt (profile : Profile) : WM bool :=
  apply_desired_on_protection (Some profile).

Definition maintain_kill_switch_for_active_runtime : WM bool :=
  config ← io (we_load_config env);
  configured ← liftR (kill_switch_configured config);
  forced ← gets rt_forced;
  if negb configured && negb forced then mret true else
  profile ← active_profile;
  _ ← configure_kill_switch config profile;
  status ← io (we_ks_status env);
  active ← match kss_active status with Some b => mret b | None => io (we_ks_is_active env) end;
  if active && default true (kss_consistent status) then mret true else
  io (we_ks_apply_atomic env).

Definition apply_all_failed_kill_switch (config : pydict pyval) : WM bool :=
  profile ← active_profile;
  _ ← configure_kill_switch config profile;
  configured ← liftR (kill_switch_configured config);
  active ← io (we_ks_is_active env);
  if (active : bool) then mret true else
  forced ← gets rt_forced;
  if negb configured && negb forced then mret false else
  io (we_ks_apply_atomic env).

Definition handle_manual_disconnect_kill_switch : WM unit :=
  config ← io (we_load_config env);
  profile ← active_profile;
  _ ← configure_kill_switch config profile;
  active ← io (we_ks_is_active env);
  if negb (active : bool) then update (set_forced false) else
  raw ← liftR (config_get config "kill_switch" "on_manual_disconnect" (PStr "disable"));
  let policy := lower (strip (py_str raw)) in
  if String.eqb policy "keep" then update (set_forced false) else
  disabled ← io (we_ks_disable env);
  if (disabled : bool) then update (set_forced false) else mret tt.

Definition restore_dns_snapshot_if_present : WM bool :=
  snapshot ← try_except (snapshot ← io (we_load_snapshot env); mret (Ok snapshot)) any_exn
               (fun e => mret (Err e));
  match snapshot with
  | Err _ => mret false
  | Ok None => mret true
  | Ok (Some network_manager) =>
      try_except
        (_ ← (if network_manager : bool then
                _ ← io (we_root_snapshot_exists env); io (we_nm_dns_restore env)
              else io (we_restore_state env));
         _ ← io (we_unlink_snapshot env);
         mret true) any_exn (fun _ => mret false)
  end.

(** ** Drivers and connection options *)
(** The body of [_candidate_driver_for_profile], [d] being [self.driver] *)
Definition pick_driver (d : Driver) (sel : selector W) (profile : Profile) : WM Driver :=
  match sel with
  | SelOriginal =>
      candidate ← io (we_new_driver env (select_driver (Some profile)));
      if negb (same_type (d_class candidate) (d_class d)) then mret candidate
      else match d_class candidate, d_class d with
           | NativePolicyDriver n, NativePolicyDriver n' =>
               if bool_decide (n = n') then mret d else mret candidate
           | _, _ => mret d
           end
  | SelCurrent => mret d
  | SelCustom f =>
      selected ← io (f profile);
      if same_type (d_class selected) (d_class d) then mret d else mret selected
  end.

Definition candidate_driver_for_profile (profile : Profile) : WM Driver :=
  d ← gets rt_driver;
  sel ← gets rt_selector;
  pick_driver d sel profile.

Definition driver_policy_contract_for_profile (profile : Profile) : WM (string * gset string) :=
  sel ← gets rt_selector;
  match sel with
  | SelOriginal => mret (driver_type_for_profile (Some profile))
  | _ =>
      driver ← candidate_driver_for_profile profile;
      mret (class_name (d_class driver),
            WatchdogPolicy.policy_capabilities (we_declared_capabilities env) (d_class driver))
  end.

Definition runtime_policy_capabilities : WM (gset string) :=
  state ← sm_load;
  config ← io (we_load_config env);
  stores ← gets rt_stores;
  liftR (requested_policy_capabilities state config (st_app_policy stores) (st_rules stores)).

Definition unsupported_policy (driver_name : string) (unsupported : gset string) : exn :=
  Exn UnsupportedDriverPolicyError ("driver " +:+ driver_name
    +:+ " cannot enforce requested WatchdogVPN policy: "
    +:+ String.concat ", " (py_sorted String.ltb (elements unsupported))).

(** [unsupported = requested - capabilities; if unsupported: raise ...] *)
Definition check_policy_contract (requested : gset string) (profile : Profile) : WM unit :=
  contract ← driver_policy_contract_for_profile profile;
  let unsupported := requested ∖ contract.2 in
  if bool_decide (unsupported = ∅) then mret tt
  else liftR (Err (unsupported_policy contract.1 unsupported)).

Definition endpoint_policy_fakeip_allowlist : WM (list string) :=
  try_except
    (state ← driver_status;
     if negb (cs_tun_active state || cs_proxy_active state
              || match cs_runtime_artifacts state with [] => false | _ => true end)
     then mret []
     else policy ← io (we_load_dns_policy env);
          mret [dp_fakeip_inet4_range policy; dp_fakeip_inet6_range policy])
    any_exn (fun _ => mret []).

(** [lan_config[key]] *)
Definition lan_field (lan : pydict pyval) (key : string) : res pyval := dict_item key lan.

(** [config.get("lan_sharing", {})] when sharing is enabled in mode [m] *)
Definition lan_enabled (config : pydict pyval) (m : string) : res (option (pydict pyval)) :=
  match dict_get_or "lan_sharing" (PDict []) config with
  | PDict lan =>
      if negb (truthy (dict_get_or "enabled" (PBool false) lan)) then Ok None
      else match dict_get "mode" lan with
           | Some (PStr mode) => Ok (if String.eqb mode m then Some lan else None)
           | _ => Ok None
           end
  | _ => raise AttributeError "object has no attribute 'get'"
  end.

Definition lan_proxy_runtime_config : WM (option LANProxyRuntimeConfig) :=
  config ← io (we_load_config env);
  lan ← liftR (lan_enabled config "proxy");
  match lan with
  | None => mret None
  | Some lan =>
      raw ← liftR (lan_field lan "bind_address");
      let bind_address := py_str raw in
      addresses ← io (we_interface_addresses env None);
      if negb (str_in bind_address (flat_map snd addresses)) then
        raiseM RuntimeError ("lan_sharing.bind_address is not assigned to this host: " +:+ bind_address)
      else
      credentials ← io (we_lan_credentials env);
      raw ← liftR (lan_field lan "socks_port"); socks ← liftR (int_of_val raw);
      raw ← liftR (lan_field lan "http_port"); http ← liftR (int_of_val raw);
      managed ← liftR (lan_field lan "firewall_managed");
      mret (Some {| lp_bind_address := bind_address; lp_socks_port := socks; lp_http_port := http;
                    lp_username := credentials.1; lp_password := credentials.2;
                    lp_firewall_managed := truthy managed |})
  end.

Definition lan_gateway_runtime_config (capture_modes : list string)
  : WM (option LANGatewayRuntimeConfig) :=
  config ← io (we_load_config env);
  lan ← liftR (lan_enabled config "gateway");
  match lan with
  | None => mret None
  | Some lan =>
      if negb (str_in "tun" capture_modes) then
        raiseM RuntimeError "lan_sharing gateway mode requires capture_modes to include tun"
      else
      raw ← liftR (lan_field lan "gateway_interface");
      let interface_name := py_str raw in
      interfaces ← io (we_interface_addresses env (Some "inet"));
      match dict_get interface_name interfaces with
      | None => raiseM RuntimeError
          ("lan_sharing.gateway_interface is not assigned to this host: " +:+ interface_name)
      | Some addresses =>
          if String.eqb interface_name "lo" then
            raiseM RuntimeError "lan_sharing.gateway_interface must be non-loopback"
          else match addresses with
          | [] => raiseM RuntimeError
              ("lan_sharing.gateway_interface has no IPv4 address: " +:+ interface_name)
          | _ =>
              cidr ← liftR (lan_field lan "gateway_client_cidr");
              dns_mode ← liftR (lan_field lan "gateway_dns_mode");
              managed ← liftR (lan_field lan "firewall_managed");
              tunnel ← liftR (config_get config "kill_switch" "tunnel_interface" (PStr "wdvpn-tun0"));
              mret (Some {| lg_lan_interface := interface_name; lg_client_cidr := py_str cidr;
                            lg_dns_mode := py_str dns_mode; lg_firewall_managed := truthy managed;
                            lg_tunnel_interface := py_str tunnel |})
          end
      end
  end.

(** [for action in sorted(actions): ...] of [_chain_runtime_plans] *)
Fixpoint chain_plans (actions : list string) (dns_policy : DNSPolicy) (config : pydict pyval)
    (plans : pydict ChainRuntimePlan) : WM (pydict ChainRuntimePlan) :=
  match actions with
  | [] => mret plans
  | action :: rest =>
      stores ← gets rt_stores;
      profiles ← gets rt_profiles;
      now_health ← io (we_chain_clock env);
      now_latency ← io (we_chain_clock env);
      let resolver := {| cr_profiles := profiles; cr_groups := st_node_groups stores;
                         cr_providers := st_providers stores;
                         cr_supported_protocols := SINGBOX_CHAIN_PROTOCOLS |} in
      plan ← liftR (resolve_action resolver now_health now_latency (st_chains stores) action
                      (Some dns_policy) config);
      chain_plans rest dns_policy config
        (match plan with Some p => dict_set action p plans | None => plans end)
  end.

Definition chain_runtime_plans (actions : gset string) (dns_policy : DNSPolicy)
    (config : pydict pyval) : WM (pydict ChainRuntimePlan) :=
  chain_plans (py_sorted String.ltb (elements actions)) dns_policy config [].

Definition connect_options : WM ConnectOptions :=
  state ← sm_load;
  let routing_policy := py_str (dict_get_or "routing_policy" (PStr "rule") state) in
  capture_modes ← liftR (parse_capture_modes (py_str (dict_get_or "capture_modes" (PStr "local_proxy") state)));
  let default_action := py_str (dict_get_or "default_route_action" (PStr "current") state) in
  match capture_modes with
  | [] => raiseM RuntimeError "no usable capture mode is configured"
  | _ =>
  if str_in "system_proxy" capture_modes then
    raiseM RuntimeError "system_proxy capture is not implemented yet; use local_proxy or tun"
  else
  final_policy ← liftR (final_policy_of default_action);
  let mode := connect_mode routing_policy default_action capture_modes in
  runtime_config ← io (we_load_config env);
  dns_policy ← io (we_load_dns_policy env);
  default_chain ← liftR (chain_target default_action);
  let default_actions : gset string := match default_chain with Some _ => {[ default_action ]} | None => ∅ end in
  lan_proxy ← lan_proxy_runtime_config;
  lan_gateway ← lan_gateway_runtime_config capture_modes;
  rules ← (if String.eqb routing_policy "rule" then
             stores ← gets rt_stores;
             groups ← liftR (list_groups (st_rules stores));
             app_policy ← liftR (runtime_app_policy (st_app_policy stores));
             a ← liftR (chain_actions_from_rule_groups groups);
             b ← liftR (chain_actions_from_app_policy app_policy);
             plan ← io (we_rule_set_plan env groups);
             mret (a ∪ b, Some (groups, app_policy, plan.1, plan.2))
           else mret (∅, None));
  plans ← chain_runtime_plans (default_actions ∪ rules.1) dns_policy runtime_config;
  mret {| co_mode := mode; co_final_policy := final_policy; co_capture_modes := capture_modes;
          co_lan_proxy := lan_proxy; co_lan_gateway := lan_gateway; co_rules := rules.2;
          co_chain_runtime_plans := plans; co_management_peers := None |}
  end.

Definition with_peers (peers : list string) (o : ConnectOptions) : ConnectOptions := {|
  co_mode := co_mode o; co_final_policy := co_final_policy o; co_capture_modes := co_capture_modes o;
  co_lan_proxy := co_lan_proxy o; co_lan_gateway := co_lan_gateway o; co_rules := co_rules o;
  co_chain_runtime_plans := co_chain_runtime_plans o; co_management_peers := Some peers |}.

(** The mandatory endpoint validation of [_prepare_driver_for_connection] *)
Definition endpoint_preflight (profile : Profile) : WM unit :=
  try_except
    (host ← liftR (we_endpoint_host env profile);
     match host with
     | None => mret tt
     | Some _ =>
         allowlist ← endpoint_policy_fakeip_allowlist;
         io (we_validate_endpoint env profile allowlist)
     end)
    (fun e => is_instance e ValueError)
    (fun e => raiseM EndpointPolicyConnectionError
                ("endpoint policy rejected connection: " +:+ exn_message e)).

Definition prepare_driver_for_connection (profile : Profile) : WM (Driver * ConnectOptions) :=
  contract ← driver_policy_contract_for_profile profile;
  requested ← runtime_policy_capabilities;
  let unsupported := requested ∖ contract.2 in
  if negb (bool_decide (unsupported = ∅)) then liftR (Err (unsupported_policy contract.1 unsupported)) else
  _ ← endpoint_preflight profile;
  driver ← candidate_driver_for_profile profile;
  options ← connect_options;
  match we_preflight_management env driver with
  | None => mret (driver, options)
  | Some preflight =>
      peers ← io (preflight profile (co_mode options) (co_capture_modes options));
      mret (driver, with_peers peers options)
  end.

Definition teardown_active_driver : WM bool :=
  d ← gets rt_driver;
  disconnected ← try_except (io (we_disconnect env d)) any_exn (fun _ => mret false);
  if (disconnected : bool) then _ ← update (set_barrier_failed false); mret true
  else
    _ ← update (set_barrier_failed true);
    _ ← record_last_failure "cleanup_failed";
    mret false.

Definition activate_driver (selected_driver : Driver) (disconnect_current : bool) : WM Driver :=
  ok ← (if disconnect_current then teardown_active_driver else mret true);
  if negb (ok : bool) then
    d ← gets rt_driver;
    raiseM TeardownBarrierError ("runtime cleanup failed for " +:+ class_name (d_class d)
      +:+ "; refusing to start another runtime")
  else
    _ ← update (set_driver selected_driver);
    mret selected_driver.

(** ** Status *)
Definition observation_artifacts (o : EffectiveRuntimeObservation) : list string :=
  sorted_set (map (fun n => "owned_process:" +:+ n) (ob_processes o)
              ++ map (fun n => "interface:" +:+ n) (ob_interfaces o)
              ++ map (fun p => "owned_listener:tcp/" +:+ pretty p) (ob_listener_ports o)
              ++ ob_routing_artifacts o).

Definition nonempty {A} (l : list A) : bool := match l with [] => false | _ => true end.

Definition with_effective_runtime_status (o : EffectiveRuntimeObservation) (s : ConnectionState)
  : ConnectionState :=
  let artifacts := sorted_set (cs_runtime_artifacts s ++ observation_artifacts o
    ++ if nonempty (ob_processes o) && negb (ob_listener_observable o)
       then ["observation:owned-listeners-unavailable"] else []) in
  let status := if String.eqb (cs_status s) "standby" && nonempty artifacts
                then "runtime_mismatch" else cs_status s in {|
  cs_active_profile_id := cs_active_profile_id s; cs_connected_at := cs_connected_at s;
  cs_mode := cs_mode s;
  cs_tun_active := cs_tun_active s || nonempty (ob_interfaces o);
  cs_proxy_active := cs_proxy_active s
    || existsb (fun p => bool_decide (p ∈ ob_listener_ports o)) [2080; 2081]%Z;
  cs_kill_switch_active := cs_kill_switch_active s; cs_kill_switch_status := cs_kill_switch_status s;
  cs_kill_switch_method := cs_kill_switch_method s; cs_kill_switch_consistent := cs_kill_switch_consistent s;
  cs_runtime_mismatch_severity :=
    if String.eqb status "runtime_mismatch" then "critical" else cs_runtime_mismatch_severity s;
  cs_runtime_artifacts := artifacts;
  cs_lan_gateway_active := cs_lan_gateway_active s; cs_lan_gateway_interface := cs_lan_gateway_interface s;
  cs_lan_gateway_client_cidr := cs_lan_gateway_client_cidr s;
  cs_lan_gateway_dns_mode := cs_lan_gateway_dns_mode s; cs_lan_gateway_status := cs_lan_gateway_status s;
  cs_status := status; cs_last_failure_reason := cs_last_failure_reason s;
  cs_last_failure_at := cs_last_failure_at s |}.

(** The assignments of [_with_kill_switch_status]: [active], [artifacts_present] and
    [consistent] with their defaults resolved *)
Definition kill_switch_view (active artifacts_present consistent : bool) (method : string)
    (reasons : list string) (s : ConnectionState) : ConnectionState :=
  let applied := artifacts_present && consistent && active in
  let partial := negb applied && artifacts_present in {|
  cs_active_profile_id := cs_active_profile_id s; cs_connected_at := cs_connected_at s;
  cs_mode := cs_mode s; cs_tun_active := cs_tun_active s; cs_proxy_active := cs_proxy_active s;
  cs_kill_switch_active := cs_kill_switch_active s || active;
  cs_kill_switch_status := if applied then "applied" else if partial then "partial" else "inactive";
  cs_kill_switch_method := method; cs_kill_switch_consistent := consistent;
  cs_runtime_mismatch_severity := if partial then "critical" else cs_runtime_mismatch_severity s;
  cs_runtime_artifacts :=
    if partial then sorted_set (cs_runtime_artifacts s
      ++ ["kill_switch:" +:+ (if truthy_str method then method else "unknown") +:+ "/partial"]
      ++ map (fun r => "kill_switch_mismatch:" +:+ r) reasons)
    else cs_runtime_artifacts s;
  cs_lan_gateway_active := cs_lan_gateway_active s; cs_lan_gateway_interface := cs_lan_gateway_interface s;
  cs_lan_gateway_client_cidr := cs_lan_gateway_client_cidr s;
  cs_lan_gateway_dns_mode := cs_lan_gateway_dns_mode s; cs_lan_gateway_status := cs_lan_gateway_status s;
  cs_status := if partial then "runtime_mismatch"
               else if applied && String.eqb (cs_status s) "standby" then "kill_switch_active"
               else cs_status s;
  cs_last_failure_reason := cs_last_failure_reason s; cs_last_failure_at := cs_last_failure_at s |}.

Definition with_kill_switch_status (s : ConnectionState) : WM ConnectionState :=
  _ ← try_except
        (config ← io (we_load_config env);
         profile ← active_profile;
         configure_kill_switch config profile)
        (fun e => store_error e || is_instance e ValueError) (fun _ => mret tt);
  raw ← io (we_ks_status env);
  active ← match kss_active raw with Some b => mret b | None => io (we_ks_is_active env) end;
  mret (kill_switch_view active (default active (kss_artifacts_present raw))
          (default true (kss_consistent raw)) (kss_method raw) (kss_mismatch_reasons raw) s).

Definition with_lan_gateway (status interface cidr dns_mode : string) (s : ConnectionState)
  : ConnectionState := {|
  cs_active_profile_id := cs_active_profile_id s; cs_connected_at := cs_connected_at s;
  cs_mode := cs_mode s; cs_tun_active := cs_tun_active s; cs_proxy_active := cs_proxy_active s;
  cs_kill_switch_active := cs_kill_switch_active s; cs_kill_switch_status := cs_kill_switch_status s;
  cs_kill_switch_method := cs_kill_switch_method s; cs_kill_switch_consistent := cs_kill_switch_consistent s;
  cs_runtime_mismatch_severity := cs_runtime_mismatch_severity s;
  cs_runtime_artifacts := cs_runtime_artifacts s; cs_lan_gateway_active := cs_lan_gateway_active s;
  cs_lan_gateway_interface := interface; cs_lan_gateway_client_cidr := cidr;
  cs_lan_gateway_dns_mode := dns_mode; cs_lan_gateway_status := status;
  cs_status := cs_status s; cs_last_failure_reason := cs_last_failure_reason s;
  cs_last_failure_at := cs_last_failure_at s |}.

Definition with_lan_gateway_status (s : ConnectionState) : WM ConnectionState :=
  lan ← try_except
          (config ← io (we_load_config env);
           match dict_get_or "lan_sharing" (PDict []) config with
           | PDict lan =>
               mret (if truthy (dict_get_or "enabled" (PBool false) lan)
                        && match dict_get "mode" lan with
                           | Some (PStr mode) => String.eqb mode "gateway"
                           | _ => false
                           end
                     then Some lan else None)
           | _ => raiseM AttributeError "object has no attribute 'get'"
           end) store_error (fun _ => mret None);
  let keep status := with_lan_gateway status (cs_lan_gateway_interface s)
                       (cs_lan_gateway_client_cidr s) (cs_lan_gateway_dns_mode s) s in
  if cs_lan_gateway_active s then mret (keep (if cs_tun_active s then "applied" else "degraded"))
  else match lan with
       | Some lan =>
           mret (with_lan_gateway "configured"
                   (py_str (dict_get_or "gateway_interface" (PStr "") lan))
                   (py_str (dict_get_or "gateway_client_cidr" (PStr "") lan))
                   (py_str (dict_get_or "gateway_dns_mode" (PStr "manual") lan)) s)
       | None => mret (keep "disabled")
       end.

Definition with_last_failure (s : ConnectionState) : WM ConnectionState :=
  v ← sm_get "last_failure_reason" (PStr "");
  let reason := py_str v in
  at_raw ← (if truthy_str reason then v ← sm_get "last_failure_at" (PStr ""); mret (py_str v)
            else mret "");
  mret {|
    cs_active_profile_id := cs_active_profile_id s; cs_connected_at := cs_connected_at s;
    cs_mode := cs_mode s; cs_tun_active := cs_tun_active s; cs_proxy_active := cs_proxy_active s;
    cs_kill_switch_active := cs_kill_switch_active s; cs_kill_switch_status := cs_kill_switch_status s;
    cs_kill_switch_method := cs_kill_switch_method s; cs_kill_switch_consistent := cs_kill_switch_consistent s;
    cs_runtime_mismatch_severity := cs_runtime_mismatch_severity s;
    cs_runtime_artifacts := cs_runtime_artifacts s; cs_lan_gateway_active := cs_lan_gateway_active s;
    cs_lan_gateway_interface := cs_lan_gateway_interface s;
    cs_lan_gateway_client_cidr := cs_lan_gateway_client_cidr s;
    cs_lan_gateway_dns_mode := cs_lan_gateway_dns_mode s; cs_lan_gateway_status := cs_lan_gateway_status s;
    cs_status := if String.eqb reason "cleanup_failed" then "cleanup_failed" else cs_status s;
    cs_last_failure_reason := reason;
    cs_last_failure_at := if truthy_str at_raw then we_fromisoformat env at_raw else None |}.

Definition status : WM ConnectionState :=
  raw ← driver_status;
  observation ← io (we_observe env);
  ks ← with_kill_switch_status (with_effective_runtime_status observation raw);
  lan ← with_lan_gateway_status ks;
  with_last_failure lan.

Definition cleanup_failure_state : WM ConnectionState :=
  s ← status; mret (with_status "cleanup_failed" s).

(** ** Health results *)
Definition record_health_result (profile : Profile) (status : string) (latency : option (option Q))
  : WM unit :=
  now ← io (we_utcnow env);
  on_profiles (ProfileStore_update (we_validate_openvpn env) (with_health status now latency profile)).

Definition health_env (d : Driver) : HealthEnv W := {|
  he_which_curl := we_which_curl env; he_curl := we_curl env;
  he_health_check := we_health_check env d; he_status := we_status env d;
  he_round3 := we_round3 env |}.

(** [_checked_and_recorded]; the driver it is given is the active one, directly or through
    the router *)
Definition checked_and_recorded (profile : Profile) (retry_startup_failure : bool) : WM string :=
  d ← gets rt_driver;
  config ← io (we_load_config env);
  verify ← liftR (configured_verify (health_env d) config);
  result ← io (check_full (health_env d) verify);
  result ← (if retry_startup_failure && requires_egress_check d
               && negb (String.eqb (hc_status result) "ok")
            then _ ← io (we_sleep env 1); io (check_full (health_env d) verify)
            else mret result);
  _ ← record_health_result profile (hc_status result) (Some (hc_latency_ms result));
  _ ← update (set_health_detail
        (if String.eqb (hc_status result) "ok" then ""
         else "selected egress health check failed: " +:+ safe_classification (hc_classification result)));
  mret (hc_status result).

(** ** Manual operations *)
Definition fail_manual_connect : WM bool :=
  torn_down ← teardown_active_driver;
  if negb (torn_down : bool) then mret false else
  _ ← handle_manual_disconnect_kill_switch;
  _ ← restore_dns_snapshot_if_present;
  _ ← sm_set "vpn_desired_state" "off";
  _ ← sm_set "active_profile_id" "";
  _ ← record_last_failure "connect_failed";
  mret false.

Definition driver_connect (driver : Driver) (profile : Profile) (options : ConnectOptions) : WM bool :=
  dns_policy ← io (we_load_dns_policy env);
  io (we_connect env driver profile (Some dns_policy) options).

Definition connect (profile : Profile) : WM bool :=
  _ ← update (set_health_detail "");
  prepared ← prepare_driver_for_connection profile;
  active_driver ← activate_driver prepared.1 true;
  protected ← protect_connection_attempt profile;
  if negb (protected : bool) then mret false else
  _ ← sm_set "vpn_desired_state" "on";
  _ ← sm_set "active_profile_id" (p_id profile);
  connected ← driver_connect active_driver profile prepared.2;
  if negb (connected : bool) then fail_manual_connect else
  d ← gets rt_driver;
  healthy ← (if requires_egress_check d
             then status ← checked_and_recorded profile true; mret (String.eqb status "ok")
             else mret true);
  if negb (healthy : bool) then fail_manual_connect else
  _ ← clear_last_failure;
  _ ← update (fun rt => set_engine (record_successful_profile (p_id profile) (rt_engine rt)) rt);
  mret true.

Definition disconnect : WM bool :=
  torn_down ← teardown_active_driver;
  if negb (torn_down : bool) then mret false else
  _ ← handle_manual_disconnect_kill_switch;
  _ ← restore_dns_snapshot_if_present;
  _ ← sm_set "vpn_desired_state" "off";
  _ ← sm_set "active_profile_id" "";
  _ ← update (set_health_detail "");
  _ ← clear_last_failure;
  mret true.

Definition shutdown : WM bool :=
  f ← gets rt_state;
  desired_on ← match StateManager_get "vpn_desired_state" (PStr "off") f with
               | Ok v => mret (String.eqb (py_str v) "on")
               | Err e => if store_error e then mret true else liftR (Err e)
               end;
  protection_ok ← (if desired_on : bool then
                     try_except (profile ← active_profile; apply_desired_on_protection profile)
                       any_exn (fun _ => mret false)
                   else mret true);
  d ← gets rt_driver;
  disconnected ← try_finally
    (try_except (io (we_disconnect env d)) any_exn (fun _ => mret false))
    (_ ← restore_dns_snapshot_if_present;
     if negb (desired_on : bool) then handle_manual_disconnect_kill_switch else mret tt);
  if (desired_on : bool) then mret protection_ok else mret disconnected.

Definition health_check : WM string :=
  enabled ← automatic_actions_enabled false;
  if negb (enabled : bool) then mret "standby"
  else d ← gets rt_driver; io (we_health_check env d).

(** ** Startup *)
Definition startup_autoconnect_disabled : WM ConnectionState :=
  restored ← restore_dns_snapshot_if_present;
  if negb (restored : bool) then
    _ ← record_last_failure "dns_restore_failed"; conn_state "dns_restore_failed" "standby"
  else
  active ← io (we_ks_is_active env);
  cleared ← (if active : bool then
               disabled ← io (we_ks_disable env);
               if negb (disabled : bool) then mret false
               else still ← io (we_ks_is_active env); mret (negb still)
             else mret true);
  if negb (cleared : bool) then
    _ ← record_last_failure "kill_switch_disable_failed"; conn_state "kill_switch_disable_failed" "standby"
  else
  _ ← sm_set "vpn_desired_state" "off";
  _ ← sm_set "active_profile_id" "";
  _ ← update (set_forced false);
  _ ← clear_last_failure;
  standby_state.

(** From the activation of the prepared driver to the end of [startup] *)
Definition startup_connect (require_restart_protection : bool) (profile : Profile)
    (prepared : Driver * ConnectOptions) : WM ConnectionState :=
  activated ← try_except (d ← activate_driver prepared.1 true; mret (Some d))
                (fun e => is_instance e TeardownBarrierError) (fun _ => mret None);
  match activated with
  | None => cleanup_failure_state
  | Some active_driver =>
      protected ← (if require_restart_protection then mret true else protect_connection_attempt profile);
      if negb (protected : bool) then conn_state "kill_switch_failed" "standby" else
      connected ← driver_connect active_driver profile prepared.2;
      if negb (connected : bool) then driver_status else
      d ← gets rt_driver;
      healthy ← (if negb (requires_egress_check d) then mret true
                 else status ← checked_and_recorded profile true; mret (String.eqb status "ok"));
      if (healthy : bool) then
        _ ← clear_last_failure;
        _ ← update (fun rt => set_engine (record_successful_profile (p_id profile) (rt_engine rt)) rt);
        driver_status
      else
        torn_down ← teardown_active_driver;
        if negb (torn_down : bool) then cleanup_failure_state else driver_status
  end.

(** The outcomes of [_prepare_driver_for_connection] that [startup] handles *)
Definition startup_prepare (profile : Profile) : WM (Driver * ConnectOptions + ConnectionState) :=
  try_except (prepared ← prepare_driver_for_connection profile; mret (inl prepared))
    (fun e => is_instance e UnsupportedDriverPolicyError || is_instance e ManagementPathSafetyError
              || is_instance e EndpointPolicyConnectionError)
    (fun e =>
       if is_instance e UnsupportedDriverPolicyError then
         _ ← record_last_failure "unsupported_policy";
         s ← conn_state "unsupported_policy" "standby"; mret (inr s)
       else if is_instance e ManagementPathSafetyError then
         _ ← record_last_failure "management_path_unprotected";
         s ← standby_state; mret (inr s)
       else
         _ ← record_last_failure "endpoint_resolution_failed";
         s ← standby_state; mret (inr s)).

Definition startup (require_restart_protection : bool) : WM ConnectionState :=
  f ← gets rt_state;
  match StateManager_load f with
  | Err e => if store_error e then standby_state else liftR (Err e)
  | Ok state =>
      let desired := py_str (dict_get_or "vpn_desired_state" (PStr "off") state) in
      if String.eqb desired "off" then standby_state
      else if negb (String.eqb desired "on") then standby_state else
      let active_profile_id := py_str (dict_get_or "active_profile_id" (PStr "") state) in
      profile ← (if truthy_str active_profile_id
                 then gets (fun rt => ProfileStore_get active_profile_id (rt_profiles rt))
                 else mret None);
      if negb (flag_of (dict_get_or "vpn_autoconnect_enabled" (PBool false) state))
      then startup_autoconnect_disabled else
      protected ← (if require_restart_protection then apply_desired_on_protection profile else mret true);
      if negb (protected : bool) then
        _ ← record_last_failure "kill_switch_failed"; conn_state "kill_switch_failed" "standby"
      else if negb (truthy_str active_profile_id) then standby_state
      else match profile with
           | None => standby_state
           | Some profile =>
               prepared ← startup_prepare profile;
               match prepared with
               | inr s => mret s
               | inl prepared => startup_connect require_restart_protection profile prepared
               end
           end
  end.

(** ** Rotation *)
(** [float(section[key])] when [key in section] *)
Definition recovery_setting (config : pydict pyval) (section key : string) : res (option pyval) :=
  match dict_get_or section (PDict []) config with
  | PDict d => match dict_get key d with
               | Some raw => f ← py_float raw; Ok (Some (PFloat f))
               | None => Ok None
               end
  | _ => raise TypeError "argument of this type is not iterable"
  end.

Definition with_intervals (base maximum : pyval) (r : Recovery) : Recovery := {|
  base_interval_seconds := base; max_interval_seconds := maximum;
  consecutive_failures_ := consecutive_failures_ r; retry_started_at_ := retry_started_at_ r;
  retry_interval_seconds_ := retry_interval_seconds_ r |}.

Definition configure_recovery (config : pydict pyval) : WM unit :=
  base ← liftR (recovery_setting config "watchdog" "reconnect_backoff_seconds");
  _ ← update (fun rt => set_recovery (with_intervals (default (base_interval_seconds (rt_recovery rt)) base)
                (max_interval_seconds (rt_recovery rt)) (rt_recovery rt)) rt);
  maximum ← liftR (recovery_setting config "rotation" "max_backoff_interval_seconds");
  update (fun rt => set_recovery (with_intervals (base_interval_seconds (rt_recovery rt))
            (default (max_interval_seconds (rt_recovery rt)) maximum) (rt_recovery rt)) rt).

Definition recovery_success : WM unit := update (fun rt => set_recovery (record_success (rt_recovery rt)) rt).

Definition as_recovered (s : ConnectionState) (kill_switch_active : bool) : res ConnectionState :=
  ConnectionState_post_init {|
    cs_active_profile_id := cs_active_profile_id s; cs_connected_at := cs_connected_at s;
    cs_mode := cs_mode s; cs_tun_active := cs_tun_active s; cs_proxy_active := cs_proxy_active s;
    cs_kill_switch_active := kill_switch_active; cs_kill_switch_status := cs_kill_switch_status s;
    cs_kill_switch_method := cs_kill_switch_method s; cs_kill_switch_consistent := cs_kill_switch_consistent s;
    cs_runtime_mismatch_severity := cs_runtime_mismatch_severity s;
    cs_runtime_artifacts := cs_runtime_artifacts s; cs_lan_gateway_active := cs_lan_gateway_active s;
    cs_lan_gateway_interface := cs_lan_gateway_interface s;
    cs_lan_gateway_client_cidr := cs_lan_gateway_client_cidr s;
    cs_lan_gateway_dns_mode := cs_lan_gateway_dns_mode s; cs_lan_gateway_status := cs_lan_gateway_status s;
    cs_status := "recovered"; cs_last_failure_reason := ""; cs_last_failure_at := None |}.

Definition restore_kill_switch_after_recovery (config : pydict pyval) : WM bool :=
  configured ← liftR (kill_switch_configured config);
  forced ← gets rt_forced;
  if negb configured && negb forced then io (we_ks_is_active env)
  else maintain_kill_switch_for_active_runtime.

Definition recovered_state_after_stable_connection (config : pydict pyval) : WM ConnectionState :=
  kill_switch_active ← restore_kill_switch_after_recovery config;
  s ← driver_status;
  liftR (as_recovered s kill_switch_active).

Definition rotation_enabled (config : pydict pyval) : res bool :=
  raw ← config_get config "rotation" "enabled" (PBool false);
  strict_bool raw "rotation.enabled".

(** The common end of [_handle_rotation_unavailable] and of the all-failed branch *)
Definition report_exhausted (status : string) (action : AllFailedAction) : WM ConnectionState :=
  forced ← gets rt_forced;
  let status := if (forced : bool) then status
                else if act_kill_switch_active action then "kill_switch_active" else status in
  _ ← record_last_failure status;
  s ← driver_status;
  conn_state status (cs_mode s).

Definition handle_rotation_unavailable_runtime (config : pydict pyval) (reason : string)
  : WM ConnectionState :=
  kill_switch_active ← apply_all_failed_kill_switch config;
  now ← io (we_monotonic env);
  r ← gets rt_recovery;
  let '(action, r') := handle_rotation_unavailable (we_format_1f env) kill_switch_active reason now r in
  _ ← update (set_recovery r');
  report_exhausted "rotation_unavailable" action.

Definition runtime_pool (config : pydict pyval) : WM (list Profile) :=
  stores ← gets rt_stores;
  profiles ← gets rt_profiles;
  now_health ← io (we_pool_clock env);
  now_latency ← io (we_pool_clock env);
  liftR (compatible_pool (st_rules stores) (st_app_policy stores) (st_node_groups stores) profiles
           (st_providers stores) config now_health now_latency).

(** The policy check of every candidate of the pool *)
Fixpoint check_pool_contracts (requested : gset string) (pool : list Profile) : WM unit :=
  match pool with
  | [] => mret tt
  | p :: rest => _ ← check_policy_contract requested p; check_pool_contracts requested rest
  end.

(** ** [_RuntimeDriverRouter]: the driver the rotation engine is given *)
Record Router : Type := {
  ro_teardown_verified : bool;
  ro_prepared : option (string * (Driver * ConnectOptions))
}.

Definition Router_init : Router := {| ro_teardown_verified := false; ro_prepared := None |}.

Abbreviation RW := (WatchdogRuntime W * Router)%type.

(** A method of the runtime called by the router *)
Definition on_runtime {A} (m : WM A) : PyM RW A := fun '(rt, ro) =>
  let '(r, rt') := m rt in (r, (rt', ro)).

Definition router_update (f : Router → Router) : PyM RW unit := modifyS (fun '(rt, ro) => (rt, f ro)).

Definition set_prepared (p : option (string * (Driver * ConnectOptions))) (ro : Router) : Router :=
  {| ro_teardown_verified := ro_teardown_verified ro; ro_prepared := p |}.

Definition set_verified (b : bool) (ro : Router) : Router :=
  {| ro_teardown_verified := b; ro_prepared := ro_prepared ro |}.

(** The exceptions of the preparation that skip a candidate *)
Definition prepare_error (e : exn) : bool :=
  is_instance e EndpointPolicyConnectionError || is_instance e ManagementPathSafetyError
  || is_instance e UnsupportedDriverPolicyError.

Definition router_prepare (profile : Profile) : PyM RW (option (Driver * ConnectOptions)) :=
  try_except (prepared ← on_runtime (prepare_driver_for_connection profile); mret (Some prepared))
    prepare_error (fun _ => mret None).

Definition router_preflight_profile (profile : Profile) : PyM RW bool :=
  _ ← router_update (set_prepared None);
  prepared ← router_prepare profile;
  match prepared with
  | None => mret false
  | Some prepared => _ ← router_update (set_prepared (Some (p_id profile, prepared))); mret true
  end.

Definition router_disconnect : PyM RW bool :=
  ok ← on_runtime teardown_active_driver;
  _ ← router_update (set_verified ok);
  mret ok.

Definition router_connect (profile : Profile) (dns_policy : option DNSPolicy) : PyM RW bool :=
  ro ← gets snd;
  if negb (ro_teardown_verified ro) then
    _ ← on_runtime (update (set_barrier_failed true));
    _ ← on_runtime (record_last_failure "cleanup_failed");
    mret false
  else
  prepared ← match ro_prepared ro with
             | Some (i, prepared) =>
                 if String.eqb i (p_id profile) then mret (Some prepared) else router_prepare profile
             | None => router_prepare profile
             end;
  match prepared with
  | None => mret false
  | Some prepared =>
      _ ← router_update (set_prepared None);
      driver ← on_runtime (activate_driver prepared.1 false);
      protected ← on_runtime (protect_connection_attempt profile);
      if negb (protected : bool) then mret false else
      _ ← router_update (set_verified false);
      on_runtime (io (we_connect env driver profile dns_policy prepared.2))
  end.

Definition router_env : RotationEnv RW DNSPolicy := {|
  env_preflight := Some router_preflight_profile;
  env_disconnect := router_disconnect;
  env_connect := router_connect;
  env_health_check := fun p => on_runtime (checked_and_recorded p true);
  env_clock := on_runtime (io (we_monotonic env));
  env_sleep := fun t => on_runtime (io (we_sleep env t)) |}.

(** [self.rotation_engine.rotate(pool, _RuntimeDriverRouter(self), ...)] *)
Definition run_rotation (pool : list Profile) (force : bool) (dns_policy : DNSPolicy)
  : WM RotationResult := fun rt =>
  let '(r, (e, (rt', _))) :=
    rotate router_env pool force (Some dns_policy) (rt_engine rt, (rt, Router_init)) in
  (r, set_engine e rt').

(** The outcome of a rotation that ran *)
Definition finish_rotation (config : pydict pyval) (result : RotationResult) : WM ConnectionState :=
  barrier ← gets rt_barrier;
  if rr_cleanup_failed result || barrier then cleanup_failure_state else
  match rr_success result, rr_profile result with
  | true, Some p =>
      _ ← update (set_reconnect_failures 0);
      _ ← recovery_success;
      _ ← sm_set "active_profile_id" (p_id p);
      _ ← clear_last_failure;
      recovered_state_after_stable_connection config
  | _, _ =>
      if String.eqb (rr_category result) "unavailable" || (rr_attempts result =? 0)%Z
      then handle_rotation_unavailable_runtime config (rr_category result)
      else
      kill_switch_active ← apply_all_failed_kill_switch config;
      now ← io (we_monotonic env);
      r ← gets rt_recovery;
      let '(action, r') := handle_all_failed (we_format_1f env) kill_switch_active now r in
      _ ← update (set_recovery r');
      report_exhausted "all_failed" action
  end.

Definition attempt_rotation (config : pydict pyval) (force : bool) (exclude_profile_id : option string)
  : WM ConnectionState :=
  _ ← update (set_barrier_failed false);
  _ ← configure_recovery config;
  enabled ← (if force then mret true else liftR (rotation_enabled config));
  if negb (enabled : bool) then handle_rotation_unavailable_runtime config "disabled" else
  pool ← runtime_pool config;
  let pool := match exclude_profile_id with
              | Some i => if truthy_str i then List.filter (fun p => negb (String.eqb (p_id p) i)) pool
                          else pool
              | None => pool
              end in
  supported ← try_except
    (requested ← runtime_policy_capabilities; _ ← check_pool_contracts requested pool; mret true)
    (fun e => is_instance e UnsupportedDriverPolicyError) (fun _ => mret false);
  if negb (supported : bool) then
    _ ← record_last_failure "unsupported_policy";
    s ← driver_status;
    conn_state "unsupported_policy" (cs_mode s)
  else
  dns_policy ← io (we_load_dns_policy env);
  result ← run_rotation pool force dns_policy;
  finish_rotation config result.

Definition try_reconnect (profile : Profile) : WM bool :=
  prepared ← try_except (prepared ← prepare_driver_for_connection profile; mret (Some prepared))
    prepare_error
    (fun e =>
       _ ← record_last_failure
             (if is_instance e UnsupportedDriverPolicyError then "unsupported_policy"
              else if is_instance e ManagementPathSafetyError then "management_path_unprotected"
              else "endpoint_policy_rejected");
       mret None);
  match prepared with
  | None => mret false
  | Some prepared =>
      activated ← try_except (d ← activate_driver prepared.1 true; mret (Some d))
                    (fun e => is_instance e TeardownBarrierError) (fun _ => mret None);
      match activated with
      | None => mret false
      | Some driver =>
          protected ← protect_connection_attempt profile;
          if negb (protected : bool) then mret false else
          connected ← driver_connect driver profile prepared.2;
          if negb (connected : bool) then mret false else
          status ← checked_and_recorded profile true;
          if String.eqb status "ok" then
            _ ← update (fun rt => set_engine (record_successful_profile (p_id profile) (rt_engine rt)) rt);
            mret true
          else
            _ ← teardown_active_driver; mret false
      end
  end.

Definition recover_from_failure : WM ConnectionState :=
  _ ← update (set_barrier_failed false);
  config ← io (we_load_config env);
  _ ← configure_recovery config;
  r ← gets rt_recovery;
  can_retry ← match retry_started_at_ r with
              | None => mret true
              | Some _ => now ← io (we_monotonic env); mret (can_retry_now now false r)
              end;
  if negb (can_retry : bool) then
    _ ← record_last_failure "waiting_retry";
    s ← driver_status;
    conn_state "waiting_retry" (cs_mode s)
  else
  current_profile ← active_profile;
  reconnected ← match current_profile with Some p => try_reconnect p | None => mret false end;
  if (reconnected : bool) then
    _ ← update (set_reconnect_failures 0);
    _ ← recovery_success;
    _ ← clear_last_failure;
    recovered_state_after_stable_connection config
  else
  barrier ← gets rt_barrier;
  if (barrier : bool) then cleanup_failure_state else
  _ ← update (fun rt => set_reconnect_failures (rt_reconnect_failures rt + 1) rt);
  raw ← liftR (config_get config "watchdog" "reconnect_attempts" (PInt 3));
  reconnect_attempts ← liftR (int_of_val raw);
  failures ← gets rt_reconnect_failures;
  if (failures <? reconnect_attempts)%Z then
    _ ← record_last_failure "reconnecting";
    s ← driver_status;
    conn_state "reconnecting" (cs_mode s)
  else
  _ ← update (set_reconnect_failures 0);
  attempt_rotation config false (p_id <$> current_profile).

(** ** The ticks *)
Definition run_iteration : WM ConnectionState :=
  enabled ← automatic_actions_enabled false;
  if negb (enabled : bool) then standby_state else
  autoconnect ← autoconnect_enabled;
  current_state ← driver_status;
  if negb autoconnect && negb (runtime_state_active current_state) then automatic_disabled_state else
  maintained ← maintain_kill_switch_for_active_runtime;
  if negb (maintained : bool) then
    _ ← record_last_failure "kill_switch_failed";
    conn_state "kill_switch_failed" (cs_mode current_state)
  else
  profile ← active_profile;
  d ← gets rt_driver;
  health ← match profile with
           | Some p =>
               if requires_egress_check d then checked_and_recorded p false
               else st ← io (we_health_check env d); _ ← record_health_result p st None; mret st
           | None => io (we_health_check env d)
           end;
  if String.eqb health "ok" then _ ← recovery_success; driver_status
  else if negb autoconnect then
    _ ← record_last_failure "recovery_disabled";
    s ← driver_status;
    mret (with_status "recovery_disabled" s)
  else recover_from_failure.

Definition rotate_now (force : bool) : WM ConnectionState :=
  enabled ← automatic_actions_enabled false;
  if negb (enabled : bool) then standby_state else
  config ← io (we_load_config env);
  attempt_rotation config force None.

Definition scheduled_rotation_enabled (config : pydict pyval) : res bool :=
  raw ← config_get config "rotation" "scheduled_interval_hours" (PInt 0);
  hours ← strict_int raw "rotation.scheduled_interval_hours";
  Ok (0 <? hours)%Z.

Definition scheduled_rotate : WM ConnectionState :=
  enabled ← automatic_actions_enabled true;
  if negb (enabled : bool) then automatic_disabled_state else
  config ← io (we_load_config env);
  scheduled ← liftR (scheduled_rotation_enabled config);
  if negb (scheduled : bool) then status else
  pool ← runtime_pool config;
  match pool with
  | [] => status
  | _ => attempt_rotation config true None
  end.

(** ** The node-group auto test *)
(** An item of [test_results] *)
Record TestResult : Type := {
  tr_profile_id : string; tr_connected : bool; tr_health_status : string; tr_latency_ms : option pyfloat
}.

(** The dictionary that [node_group_auto_test] returns *)
Record AutoTestReport : Type := {
  ar_group_name : string; ar_result : string; ar_selected_profile_id : option string;
  ar_tested : list TestResult; ar_candidates : list CandidateScore
}.

(** The guard: nothing may be running and the kill switch must be off *)
Definition auto_test_guard (state : ConnectionState) : res unit :=
  if cs_kill_switch_active state || negb (String.eqb (cs_kill_switch_status state) "inactive")
  then raise RuntimeError "node-group auto-test requires the kill switch to be inactive"
  else if truthy_str (cs_active_profile_id state) || cs_tun_active state || cs_proxy_active state
          || negb (String.eqb (cs_status state) "standby")
  then raise RuntimeError "node-group auto-test requires standby/disconnected state"
  else Ok tt.

(** [if not driver.disconnect(): raise RuntimeError(...)] *)
Definition auto_test_stop (driver : Driver) (profile : Profile) : WM unit :=
  disconnected ← io (we_disconnect env driver);
  if (disconnected : bool) then mret tt
  else raiseM RuntimeError ("node-group auto-test failed to disconnect profile: " +:+ p_id profile).

(** The body of the [try] block; the store has the profile, which the check has just updated. *)
Definition auto_test_measure (profile : Profile) : WM TestResult :=
  e ← gets rt_engine;
  _ ← (if Qltb 0 (warmup_seconds e) then io (we_sleep env (warmup_seconds e)) else mret tt);
  status ← checked_and_recorded profile true;
  refreshed ← gets (fun rt => ProfileStore_get (p_id profile) (rt_profiles rt));
  mret {| tr_profile_id := p_id profile; tr_connected := true; tr_health_status := status;
          tr_latency_ms := p_latency_ms (default profile refreshed) |}.

(** The activation and the start of one candidate *)
Definition auto_test_start (options : ConnectOptions) (dns_policy : DNSPolicy) (profile : Profile)
  : WM (Driver * bool) :=
  candidate ← candidate_driver_for_profile profile;
  driver ← activate_driver candidate false;
  connected ← io (we_connect env driver profile (Some dns_policy) options);
  mret (driver, connected).

(** What follows the start: the candidate is measured and stopped *)
Definition auto_test_finish (profile : Profile) (started : Driver * bool) : WM TestResult :=
  if negb started.2 then
    _ ← record_health_result profile "down" (Some None);
    _ ← auto_test_stop started.1 profile;
    mret {| tr_profile_id := p_id profile; tr_connected := false; tr_health_status := "down";
            tr_latency_ms := None |}
  else try_finally (auto_test_measure profile) (auto_test_stop started.1 profile).

(** [for profile in candidates] *)
Fixpoint auto_test_each (options : ConnectOptions) (dns_policy : DNSPolicy) (candidates : list Profile)
  : WM (list TestResult) :=
  match candidates with
  | [] => mret []
  | profile :: rest =>
      started ← auto_test_start options dns_policy profile;
      result ← auto_test_finish profile started;
      results ← auto_test_each options dns_policy rest;
      mret (result :: results)
  end.

(** [ok_profile_ids] *)
Definition ok_profile_ids (tested : list TestResult) : list string :=
  map tr_profile_id (List.filter (fun t => tr_connected t && String.eqb (tr_health_status t) "ok") tested).

(** The group, when it exists and is enabled *)
Definition auto_test_group (group_name : string) : WM NodeGroup :=
  stores ← gets rt_stores;
  found ← liftR (NodeGroupStore_get group_name (st_node_groups stores));
  match found with
  | None => raiseM RuntimeError ("node group not found: " +:+ group_name)
  | Some group =>
      if ng_enabled group then mret group
      else raiseM RuntimeError ("node group is disabled: " +:+ group_name)
  end.

(** [resolve_node_group_candidates(group, self.profile_store, self.provider_store, config)] *)
Definition group_candidates (group : NodeGroup) (config : pydict pyval) : WM (list Profile) :=
  stores ← gets rt_stores;
  profiles ← gets rt_profiles;
  now ← io (we_pool_clock env);
  liftR (resolve_candidates group profiles (st_providers stores) config now).

(** From the measurements to the returned dictionary *)
Definition auto_test_report (group_name : string) (group : NodeGroup) (config : pydict pyval)
    (tested : list TestResult) : WM AutoTestReport :=
  stores ← gets rt_stores;
  found ← liftR (NodeGroupStore_get group_name (st_node_groups stores));
  let refreshed_group := default group found in
  candidates ← group_candidates refreshed_group config;
  now ← io (we_pool_clock env);
  ranked ← liftR (rank_candidates
                    (List.filter (fun p => str_in (p_id p) (ok_profile_ids tested)) candidates)
                    (ng_resilience_policy refreshed_group) config now);
  let selected := sc_profile_id <$> head ranked in
  mret {| ar_group_name := group_name;
          ar_result := match selected with
                       | Some i => if truthy_str i then "selected" else "unavailable"
                       | None => "unavailable"
                       end;
          ar_selected_profile_id := selected; ar_tested := tested; ar_candidates := ranked |}.

Definition node_group_auto_test (group_name : string) : WM AutoTestReport :=
  state ← status;
  _ ← liftR (auto_test_guard state);
  group ← auto_test_group group_name;
  config ← io (we_load_config env);
  candidates ← group_candidates group config;
  requested ← runtime_policy_capabilities;
  _ ← check_pool_contracts requested candidates;
  options ← connect_options;
  dns_policy ← io (we_load_dns_policy env);
  tested ← auto_test_each options dns_policy candidates;
  auto_test_report group_name group config tested.
End runtime.
