(* ===== verification/WatchdogSafety.v ===== *)
(** * Safety of the watchdog's calls

    What the runtime of [Watchdog] does to drivers and to the kill switch, over every
    implementation of its interface: [logged_watchdog] records the driver and kill-switch calls
    with their outcomes, and the invariant says of the record that no driver is started before
    the previous one is verifiably down and the kill switch is in force for the new profile; the
    starts of the node-group auto test, which runs without the kill switch, are judged by what
    the drivers and the kill switch reported instead. *)
From stdpp Require Import base list strings gmap pretty sorting.
From Stdlib Require Import Ascii QArith.
From S2P Require Import Prelude Steps PyData Profiles Rotation Recovery NodeGroups Dns RouteChains AppPolicy Rules RuleStore StateManager WatchdogPolicy Health Watchdog.

(** ** The public operations *)
Inductive watchdog_op : Type :=
| OpStartup (require_restart_protection : bool)
| OpConnect (p : Profile)
| OpDisconnect
| OpShutdown
| OpRunIteration
| OpRotateNow (force : bool)
| OpScheduledRotate
| OpNodeGroupAutoTest (group_name : string)
| OpHealthCheck
| OpStatus.

(** ** The record of operations and calls *)
Inductive wd_event : Type :=
| EvBegin (op : watchdog_op)
| EvDriverStatus (d : Driver) (r : res ConnectionState)
| EvKsStatus (r : res KillSwitchStatus)
| EvKsActive (r : res bool)
| EvDriverConnect (d : Driver) (p : Profile) (r : res bool)
| EvDriverDisconnect (d : Driver) (r : res bool)
| EvKsEndpoints (l : list string)
| EvKsApply (r : res bool)
| EvKsDisable (r : res bool).

Section logged.
Context {W : Type}.
Abbreviation LW := (W * list wd_event)%type.

Definition silent {A} (m : PyM W A) : PyM LW A := fun '(w, l) =>
  let '(r, w') := m w in (r, (w', l)).

Definition recorded {A} (ev : res A → wd_event) (m : PyM W A) : PyM LW A := fun '(w, l) =>
  let '(r, w') := m w in (r, (w', ev r :: l)).

Definition logged_watchdog (env : WatchdogEnv W) : WatchdogEnv LW := {|
  we_new_driver := fun c => silent (we_new_driver env c);
  we_connect := fun d p dns o => recorded (EvDriverConnect d p) (we_connect env d p dns o);
  we_disconnect := fun d => recorded (EvDriverDisconnect d) (we_disconnect env d);
  we_health_check := fun d => silent (we_health_check env d);
  we_status := fun d => recorded (EvDriverStatus d) (we_status env d);
  we_declared_capabilities := we_declared_capabilities env;
  we_declared_egress_check := we_declared_egress_check env;
  we_preflight_management := fun d =>
    (fun f p mode modes => silent (f p mode modes)) <$> we_preflight_management env d;
  we_ks_assign := fun a =>
    match a with
    | KA_allowed_endpoints l => recorded (fun _ => EvKsEndpoints l) (we_ks_assign env a)
    | _ => silent (we_ks_assign env a)
    end;
  we_ks_apply_atomic := recorded EvKsApply (we_ks_apply_atomic env);
  we_ks_disable := recorded EvKsDisable (we_ks_disable env);
  we_ks_is_active := recorded EvKsActive (we_ks_is_active env);
  we_ks_status := recorded EvKsStatus (we_ks_status env);
  we_load_snapshot := silent (we_load_snapshot env);
  we_root_snapshot_exists := silent (we_root_snapshot_exists env);
  we_nm_dns_restore := silent (we_nm_dns_restore env);
  we_restore_state := silent (we_restore_state env);
  we_unlink_snapshot := silent (we_unlink_snapshot env);
  we_load_config := silent (we_load_config env);
  we_load_dns_policy := silent (we_load_dns_policy env);
  we_utcnow := silent (we_utcnow env);
  we_monotonic := silent (we_monotonic env);
  we_sleep := fun t => silent (we_sleep env t);
  we_pool_clock := silent (we_pool_clock env);
  we_chain_clock := silent (we_chain_clock env);
  we_which_curl := silent (we_which_curl env);
  we_curl := fun b t u => silent (we_curl env b t u);
  we_validate_endpoint := fun p l => silent (we_validate_endpoint env p l);
  we_rule_set_plan := fun g => silent (we_rule_set_plan env g);
  we_interface_addresses := fun f => silent (we_interface_addresses env f);
  we_lan_credentials := silent (we_lan_credentials env);
  we_observe := silent (we_observe env);
  we_endpoint_host := we_endpoint_host env;
  we_canonical_ip := we_canonical_ip env;
  we_validate_openvpn := we_validate_openvpn env;
  we_isoformat := we_isoformat env;
  we_fromisoformat := we_fromisoformat env;
  we_round3 := we_round3 env;
  we_format_1f := we_format_1f env;
  we_getuid := we_getuid env |}.

(** The driver that may have a running tunnel: the last one started and not verifiably
    stopped since *)
Fixpoint live (l : list wd_event) : option Driver :=
  match l with
  | [] => None
  | EvDriverConnect d _ _ :: _ => Some d
  | EvDriverDisconnect d (Ok true) :: l' =>
      match live l' with
      | Some d' => if bool_decide (d = d') then None else Some d'
      | None => None
      end
  | _ :: l' => live l'
  end.

(** The endpoints last assigned to the kill switch *)
Fixpoint assigned (l : list wd_event) : option (list string) :=
  match l with
  | [] => None
  | EvKsEndpoints e :: _ => Some e
  | _ :: l' => assigned l'
  end.

(** The endpoints of the policy in force: applied successfully, with nothing assigned,
    re-applied or disabled since *)
Fixpoint protecting (l : list wd_event) : option (list string) :=
  match l with
  | [] => None
  | EvKsApply (Ok true) :: l' => assigned l'
  | EvKsApply _ :: _ | EvKsDisable _ :: _ | EvKsEndpoints _ :: _ => None
  | _ :: l' => protecting l'
  end.

(** The driver reports that nothing runs. *)
Definition reports_idle (s : ConnectionState) : bool :=
  negb (truthy_str (cs_active_profile_id s) || cs_tun_active s || cs_proxy_active s)
  && String.eqb (cs_status s) "standby".

(** The driver that may have a running tunnel when its own reports count too: the last one
    started and neither verifiably stopped nor reporting itself idle since *)
Fixpoint running (l : list wd_event) : option Driver :=
  match l with
  | [] => None
  | EvDriverConnect d _ _ :: _ => Some d
  | EvDriverDisconnect d (Ok true) :: l' =>
      match running l' with
      | Some d' => if bool_decide (d = d') then None else Some d'
      | None => None
      end
  | EvDriverStatus d (Ok s) :: l' =>
      match running l' with
      | Some d' => if bool_decide (d = d') && reports_idle s then None else Some d'
      | None => None
      end
  | _ :: l' => running l'
  end.

(** No artifact of the kill switch was reported present. *)
Definition no_artifacts (st : KillSwitchStatus) : bool := negb (default false (kss_artifacts_present st)).

(** The last report of the kill switch, newer than any application of it, says that it is off:
    inactive by its own status, or by a second question when the status leaves it open. *)
Fixpoint ks_off (l : list wd_event) : bool :=
  match l with
  | [] => false
  | EvKsApply _ :: _ => false
  | EvKsStatus (Ok st) :: _ => bool_decide (kss_active st = Some false) && no_artifacts st
  | EvKsActive (Ok false) :: EvKsStatus (Ok st) :: _ => bool_decide (kss_active st = None) && no_artifacts st
  | EvKsStatus _ :: _ | EvKsActive _ :: _ => false
  | _ :: l' => ks_off l'
  end.

(** The operation under way is the node-group auto test. *)
Fixpoint auto_testing (l : list wd_event) : bool :=
  match l with
  | [] => false
  | EvBegin (OpNodeGroupAutoTest _) :: _ => true
  | EvBegin _ :: _ => false
  | _ :: l' => auto_testing l'
  end.

(** Every driver start happened with no tunnel left and the profile's policy in force, or, in
    an auto test, with no tunnel left and the kill switch reported off. *)
Fixpoint connects_safe (env : WatchdogEnv W) (l : list wd_event) : Prop :=
  match l with
  | [] => True
  | EvDriverConnect d p r :: l' =>
      (if auto_testing l' then running l' = None ∧ ks_off l' = true
       else live l' = None
            ∧ ∃ e, kill_switch_allowed_endpoints env (Some p) = Ok e ∧ protecting l' = Some e)
      ∧ connects_safe env l'
  | _ :: l' => connects_safe env l'
  end.
End logged.

(** ** The two relations *)
Section relations.
Context {W : Type} (env : WatchdogEnv W).
Abbreviation LRT := (WatchdogRuntime (W * list wd_event)).

Definition log (rt : LRT) : list wd_event := (rt_world rt).2.

(** The selector makes no driver or kill-switch call. *)
Definition selector_silent (s : selector (W * list wd_event)) : Prop :=
  match s with SelCustom f => ∃ g, ∀ p, f p = silent (g p) | _ => True end.

(** A question put to a driver *)
Definition is_obs (e : wd_event) : Prop :=
  match e with EvDriverStatus _ _ => True | _ => False end.

(** Only questions to drivers recorded, the same driver *)
Definition same (rt rt' : LRT) : Prop :=
  selector_silent (rt_selector rt) →
  rt_driver rt' = rt_driver rt ∧ selector_silent (rt_selector rt')
  ∧ ∃ evs, log rt' = evs ++ log rt ∧ Forall is_obs evs.

Definition is_ks (e : wd_event) : Prop :=
  match e with
  | EvKsEndpoints _ | EvKsApply _ | EvKsDisable _ | EvKsStatus _ | EvKsActive _ => True
  | _ => is_obs e
  end.

Lemma obs_is_ks e : is_obs e → is_ks e.
Proof. by destruct e. Qed.

(** Only questions and kill-switch calls recorded, the same driver *)
Definition ks_only (rt rt' : LRT) : Prop :=
  selector_silent (rt_selector rt) →
  rt_driver rt' = rt_driver rt ∧ selector_silent (rt_selector rt')
  ∧ ∃ evs, log rt' = evs ++ log rt ∧ Forall is_ks evs.

#[export] Instance same_preorder : PreOrder same.
Proof.
  split; [intros rt Hs; split; [done|split; [done|by exists []]]|]. intros r1 r2 r3 H1 H2 Hs.
  destruct (H1 Hs) as (? & Hs2 & e1 & ? & ?). destruct (H2 Hs2) as (? & ? & e2 & ? & ?).
  split; [congruence|]. split; [done|]. exists (e2 ++ e1). split; [rewrite <- app_assoc; congruence|].
  by apply Forall_app.
Qed.

#[export] Instance ks_only_preorder : PreOrder ks_only.
Proof.
  split; [intros rt Hs; split; [done|split; [done|by exists []]]|]. intros r1 r2 r3 H1 H2 Hs.
  destruct (H1 Hs) as (? & Hs2 & e1 & ? & ?). destruct (H2 Hs2) as (? & ? & e2 & ? & ?).
  split; [congruence|]. split; [done|]. exists (e2 ++ e1). split; [rewrite <- app_assoc; congruence|].
  by apply Forall_app.
Qed.

Lemma same_ks_only rt rt' : same rt rt' → ks_only rt rt'.
Proof.
  intros H Hs. destruct (H Hs) as (? & ? & evs & ? & Ho). split; [done|]. split; [done|]. exists evs.
  split; [done|]. eapply Forall_impl; [exact Ho|]. apply obs_is_ks.
Qed.

Lemma steps_same_ks {A} (m : PyM LRT A) : steps same m → steps ks_only m.
Proof. intros Hm s. apply same_ks_only, Hm. Qed.

Lemma steps_io_silent {A} (m : PyM W A) : steps same (io (silent m)).
Proof.
  intros rt Hs. unfold io, silent, log. destruct (rt_world rt) as [w l]. destruct (m w) as [r w'].
  split; [done|]. split; [done|]. by exists [].
Qed.

Lemma steps_io_obs {A} (ev : res A → wd_event) (m : PyM W A) :
  (∀ r, is_obs (ev r)) → steps same (io (recorded ev m)).
Proof.
  intros Hev rt Hs. unfold io, recorded, log. destruct (rt_world rt) as [w l]. destruct (m w) as [r w'].
  cbn. split; [done|]. split; [done|]. exists [ev r]. split; [done|]. by constructor.
Qed.

Lemma steps_io_ks {A} (ev : res A → wd_event) (m : PyM W A) :
  (∀ r, is_ks (ev r)) → steps ks_only (io (recorded ev m)).
Proof.
  intros Hev rt Hs. unfold io, recorded, log. destruct (rt_world rt) as [w l]. destruct (m w) as [r w'].
  cbn. split; [done|]. split; [done|]. exists [ev r]. split; [done|]. by constructor.
Qed.

(** An update of a field that is neither the driver, the selector nor the world *)
Lemma steps_update_same (f : LRT → LRT) :
  (∀ rt, rt_driver (f rt) = rt_driver rt ∧ rt_selector (f rt) = rt_selector rt ∧ rt_world (f rt) = rt_world rt) →
  steps same (update f).
Proof.
  intros Hf rt Hs. cbn. destruct (Hf rt) as (Hd & He & Hw). unfold log. rewrite Hd, He, Hw.
  split; [done|]. split; [done|]. by exists [].
Qed.

Lemma steps_sm_set `{PyStr} k v : steps same (sm_set (W := W * list wd_event) k v).
Proof.
  intros rt Hs. unfold sm_set. destruct (StateManager_set _ _ _). split; [done|]. split; [done|]. by exists [].
Qed.

Lemma steps_on_profiles {A} (m : PyM (list Profile) A) :
  steps same (on_profiles (W := W * list wd_event) m).
Proof.
  intros rt Hs. unfold on_profiles. destruct (m _). split; [done|]. split; [done|]. by exists [].
Qed.
End relations.

#[export] Hint Resolve steps_io_silent steps_sm_set steps_on_profiles : steps.
#[export] Hint Extern 2 (steps same (io _)) => (apply steps_io_silent) : steps.
#[export] Hint Extern 2 (steps same (io _)) => (apply steps_io_obs; done) : steps.
#[export] Hint Extern 2 (steps same (update _)) => (apply steps_update_same; done) : steps.
#[export] Hint Extern 4 (steps ks_only _) => (apply steps_same_ks; solve [auto 2 with steps]) : steps.

(** ** Every method but the driver calls *)
Section methods.
Context `{PyStr, PySet, PyRegex} {W : Type} (env : WatchdogEnv W).
Abbreviation lenv := (logged_watchdog env).

Lemma steps_record_last_failure r : steps same (record_last_failure lenv r).
Proof. unfold record_last_failure. steps_tac. Qed.
#[local] Hint Resolve steps_record_last_failure : steps.

Lemma steps_clear_last_failure : steps same (clear_last_failure (W := W * list wd_event)).
Proof. unfold clear_last_failure. steps_tac. Qed.

Lemma steps_sm_get k d : steps same (sm_get (W := W * list wd_event) k d).
Proof. unfold sm_get. steps_tac. Qed.

Lemma steps_sm_load : steps same (sm_load (W := W * list wd_event)).
Proof. unfold sm_load. steps_tac. Qed.
#[local] Hint Resolve steps_clear_last_failure steps_sm_get steps_sm_load : steps.

Lemma steps_active_profile : steps same (active_profile (W := W * list wd_event)).
Proof. unfold active_profile. steps_tac. Qed.

Lemma steps_conn_state s m : steps same (conn_state (W := W * list wd_event) s m).
Proof. unfold conn_state. steps_tac. Qed.

Lemma steps_driver_status : steps same (driver_status lenv).
Proof. unfold driver_status. steps_tac. Qed.
#[local] Hint Resolve steps_active_profile steps_conn_state steps_driver_status : steps.

Lemma steps_standby_state : steps same (standby_state (W := W * list wd_event)).
Proof. unfold standby_state. steps_tac. Qed.
#[local] Hint Resolve steps_standby_state : steps.

Lemma steps_automatic_actions_enabled b : steps same (automatic_actions_enabled (W := W * list wd_event) b).
Proof. unfold automatic_actions_enabled. steps_tac. Qed.

Lemma steps_automatic_disabled_state : steps same (automatic_disabled_state (W := W * list wd_event)).
Proof. unfold automatic_disabled_state. steps_tac. Qed.

Lemma steps_autoconnect_enabled : steps same (autoconnect_enabled (W := W * list wd_event)).
Proof. unfold autoconnect_enabled. steps_tac. Qed.
#[local] Hint Resolve steps_automatic_actions_enabled steps_automatic_disabled_state
  steps_autoconnect_enabled : steps.

Lemma steps_ks_assign a : steps ks_only (io (we_ks_assign lenv a)).
Proof. destruct a; cbn; try by apply steps_io_ks. all: steps_tac. Qed.

Lemma steps_ks_apply : steps ks_only (io (we_ks_apply_atomic lenv)).
Proof. by apply steps_io_ks. Qed.

Lemma steps_ks_disable : steps ks_only (io (we_ks_disable lenv)).
Proof. by apply steps_io_ks. Qed.

Lemma steps_ks_status : steps ks_only (io (we_ks_status lenv)).
Proof. by apply steps_io_ks. Qed.

Lemma steps_ks_is_active : steps ks_only (io (we_ks_is_active lenv)).
Proof. by apply steps_io_ks. Qed.
#[local] Hint Resolve steps_ks_assign steps_ks_apply steps_ks_disable steps_ks_status steps_ks_is_active : steps.

Lemma steps_configure_kill_switch c p : steps ks_only (configure_kill_switch lenv c p).
Proof. unfold configure_kill_switch. steps_tac. Qed.
#[local] Hint Resolve steps_configure_kill_switch : steps.

Lemma steps_apply_protection p : steps ks_only (apply_desired_on_protection lenv p).
Proof. unfold apply_desired_on_protection. steps_tac. Qed.

Lemma steps_maintain : steps ks_only (maintain_kill_switch_for_active_runtime lenv).
Proof. unfold maintain_kill_switch_for_active_runtime. steps_tac. Qed.

Lemma steps_all_failed_ks c : steps ks_only (apply_all_failed_kill_switch lenv c).
Proof. unfold apply_all_failed_kill_switch. steps_tac. Qed.

Lemma steps_manual_disconnect_ks : steps ks_only (handle_manual_disconnect_kill_switch lenv).
Proof. unfold handle_manual_disconnect_kill_switch. steps_tac. Qed.
#[local] Hint Resolve steps_apply_protection steps_maintain steps_all_failed_ks
  steps_manual_disconnect_ks : steps.

Lemma steps_restore_dns : steps same (restore_dns_snapshot_if_present lenv).
Proof. unfold restore_dns_snapshot_if_present. steps_tac. Qed.

Lemma steps_pick_driver d sel p : selector_silent sel → steps same (pick_driver lenv d sel p).
Proof.
  intros Hs. unfold pick_driver. destruct sel as [| |f]; [steps_tac..|]. destruct Hs as [g Hg].
  rewrite Hg. steps_tac.
Qed.

Lemma steps_candidate_driver p : steps same (candidate_driver_for_profile lenv p).
Proof. intros rt Hs. by apply (steps_pick_driver (rt_driver rt) (rt_selector rt) p Hs). Qed.
#[local] Hint Resolve steps_restore_dns steps_candidate_driver : steps.

Lemma steps_driver_contract p : steps same (driver_policy_contract_for_profile lenv p).
Proof. unfold driver_policy_contract_for_profile. steps_tac. Qed.

Lemma steps_policy_capabilities : steps same (runtime_policy_capabilities lenv).
Proof. unfold runtime_policy_capabilities. steps_tac. Qed.
#[local] Hint Resolve steps_driver_contract steps_policy_capabilities : steps.

Lemma steps_check_contract c p : steps same (check_policy_contract lenv c p).
Proof. unfold check_policy_contract. steps_tac. Qed.
#[local] Hint Resolve steps_check_contract : steps.

Lemma steps_check_pool c pool : steps same (check_pool_contracts lenv c pool).
Proof. induction pool; cbn [check_pool_contracts]; steps_tac. Qed.

Lemma steps_fakeip : steps same (endpoint_policy_fakeip_allowlist lenv).
Proof. unfold endpoint_policy_fakeip_allowlist. steps_tac. Qed.
#[local] Hint Resolve steps_check_pool steps_fakeip : steps.

Lemma steps_lan_proxy : steps same (lan_proxy_runtime_config lenv).
Proof. unfold lan_proxy_runtime_config. steps_tac. Qed.

Lemma steps_lan_gateway m : steps same (lan_gateway_runtime_config lenv m).
Proof. unfold lan_gateway_runtime_config. steps_tac. Qed.

Lemma steps_chain_plans l d c plans : steps same (chain_plans lenv l d c plans).
Proof. revert plans. induction l; intros; cbn [chain_plans]; steps_tac. Qed.
#[local] Hint Resolve steps_lan_proxy steps_lan_gateway steps_chain_plans : steps.

Lemma steps_connect_options : steps same (connect_options lenv).
Proof. unfold connect_options, chain_runtime_plans. steps_tac. Qed.

Lemma steps_endpoint_preflight p : steps same (endpoint_preflight lenv p).
Proof. unfold endpoint_preflight. steps_tac. Qed.
#[local] Hint Resolve steps_connect_options steps_endpoint_preflight : steps.

Lemma steps_prepare p : steps same (prepare_driver_for_connection lenv p).
Proof.
  unfold prepare_driver_for_connection. steps_tac.
  cbn in *. destruct (we_preflight_management env _); [|done].
  match goal with Hx : _ <$> _ = Some _ |- _ => injection Hx as <- end. steps_tac.
Qed.
#[local] Hint Resolve steps_prepare : steps.

Lemma steps_with_ks_status s : steps ks_only (with_kill_switch_status lenv s).
Proof. unfold with_kill_switch_status. steps_tac. Qed.

Lemma steps_with_lan_status s : steps same (with_lan_gateway_status lenv s).
Proof. unfold with_lan_gateway_status. steps_tac. Qed.

Lemma steps_with_last_failure s : steps same (with_last_failure lenv s).
Proof. unfold with_last_failure. steps_tac. Qed.
#[local] Hint Resolve steps_with_ks_status steps_with_lan_status steps_with_last_failure : steps.

Lemma steps_status : steps ks_only (status lenv).
Proof. unfold status. steps_tac. Qed.
#[local] Hint Resolve steps_status : steps.

Lemma steps_cleanup_failure_state : steps ks_only (cleanup_failure_state lenv).
Proof. unfold cleanup_failure_state. steps_tac. Qed.

Lemma steps_record_health p s l : steps same (record_health_result lenv p s l).
Proof. unfold record_health_result. steps_tac. Qed.
#[local] Hint Resolve steps_cleanup_failure_state steps_record_health : steps.

(** The deep health check *)
Definition unlogged (w w' : W * list wd_event) : Prop := ∃ evs, w'.2 = evs ++ w.2 ∧ Forall is_obs evs.

#[local] Instance unlogged_preorder : PreOrder unlogged.
Proof.
  split; [intros w; by exists []|]. intros w1 w2 w3 (e1 & H1' & ?) (e2 & H2' & ?). exists (e2 ++ e1).
  split; [rewrite <- app_assoc; congruence|]. by apply Forall_app.
Qed.

Lemma steps_silent {A} (m : PyM W A) : steps unlogged (silent m).
Proof. intros [w l]. unfold silent. destruct (m w). by exists []. Qed.
#[local] Hint Resolve steps_silent : steps.

Lemma steps_recorded_obs {A} (ev : res A → wd_event) (m : PyM W A) :
  (∀ r, is_obs (ev r)) → steps unlogged (recorded ev m).
Proof.
  intros Hev [w l]. unfold recorded. destruct (m w) as [r w']. exists [ev r]. split; [done|]. by constructor.
Qed.

Lemma steps_io_unlogged {A} (m : PyM (W * list wd_event) A) : steps unlogged m → steps same (io m).
Proof.
  intros Hm rt Hs. specialize (Hm (rt_world rt)). unfold io, log. destruct (m (rt_world rt)) as [r w]. done.
Qed.

#[local] Hint Extern 2 (steps unlogged _) => (apply steps_silent) : steps.
#[local] Hint Extern 2 (steps unlogged _) => (apply steps_recorded_obs; done) : steps.

Lemma steps_probe_each d via t l : steps unlogged (probe_each (health_env lenv d) via t l).
Proof. induction l; cbn [probe_each]; steps_tac. Qed.
#[local] Hint Resolve steps_probe_each : steps.

Lemma steps_verify d config verify via :
  configured_verify (health_env lenv d) config = Ok verify → steps unlogged (verify via).
Proof.
  unfold configured_verify. intros Hv. inv_res Hv. injection Hv as <-. unfold probe_targets. steps_tac.
Qed.

Lemma steps_check_full d config verify :
  configured_verify (health_env lenv d) config = Ok verify →
  steps same (io (check_full (health_env lenv d) verify)).
Proof.
  intros Hv. apply steps_io_unlogged. unfold check_full. steps_tac. by eapply steps_verify.
Qed.

Lemma steps_checked_and_recorded p retry : steps same (checked_and_recorded lenv p retry).
Proof.
  unfold checked_and_recorded. apply steps_bind; [typeclasses eauto|steps_tac|]. intros d.
  apply steps_bind; [typeclasses eauto|steps_tac|]. intros config.
  intros rt. unfold mbind at 1, pym_bind at 1, liftR at 1.
  destruct (configured_verify (health_env lenv d) config) as [verify|] eqn:Ev; [|reflexivity].
  revert rt. pose proof (steps_check_full _ _ _ Ev) as Hc.
  match goal with |- ∀ rt, same rt (?m rt).2 => change (steps same m) end. steps_tac.
Qed.
#[local] Hint Resolve steps_checked_and_recorded : steps.

(** *** Rotation bookkeeping *)
Lemma steps_configure_recovery c : steps same (configure_recovery (W := W * list wd_event) c).
Proof. unfold configure_recovery. steps_tac. Qed.

Lemma steps_runtime_pool c : steps same (runtime_pool lenv c).
Proof. unfold runtime_pool. steps_tac. Qed.

Lemma steps_recovered c : steps ks_only (recovered_state_after_stable_connection lenv c).
Proof. unfold recovered_state_after_stable_connection, restore_kill_switch_after_recovery. steps_tac. Qed.

Lemma steps_report s a : steps same (report_exhausted lenv s a).
Proof. unfold report_exhausted. steps_tac. Qed.
#[local] Hint Resolve steps_configure_recovery steps_runtime_pool steps_recovered steps_report : steps.

Lemma steps_unavailable c r : steps ks_only (handle_rotation_unavailable_runtime lenv c r).
Proof. unfold handle_rotation_unavailable_runtime. steps_tac. Qed.
#[local] Hint Resolve steps_unavailable : steps.

Lemma steps_recovery_success : steps same (recovery_success (W := W * list wd_event)).
Proof. unfold recovery_success. steps_tac. Qed.
#[local] Hint Resolve steps_recovery_success : steps.

Lemma steps_finish_rotation c r : steps ks_only (finish_rotation lenv c r).
Proof. unfold finish_rotation. steps_tac. Qed.

Lemma steps_startup_disabled : steps ks_only (startup_autoconnect_disabled lenv).
Proof. unfold startup_autoconnect_disabled. steps_tac. Qed.

Lemma steps_startup_prepare p : steps same (startup_prepare lenv p).
Proof. unfold startup_prepare. steps_tac. Qed.
End methods.

#[export] Hint Resolve steps_record_last_failure steps_clear_last_failure steps_sm_get steps_sm_load
  steps_active_profile steps_conn_state steps_driver_status steps_standby_state
  steps_automatic_actions_enabled steps_automatic_disabled_state steps_autoconnect_enabled
  steps_ks_assign steps_ks_apply steps_ks_disable steps_ks_status steps_ks_is_active
  steps_configure_kill_switch steps_apply_protection steps_connect_options
  steps_maintain steps_all_failed_ks steps_manual_disconnect_ks steps_restore_dns steps_candidate_driver
  steps_policy_capabilities steps_check_pool steps_prepare steps_status
  steps_cleanup_failure_state steps_record_health steps_checked_and_recorded steps_configure_recovery
  steps_runtime_pool steps_recovered steps_report steps_unavailable steps_recovery_success
  steps_finish_rotation steps_startup_disabled steps_startup_prepare : steps.

(** ** The invariant *)
Section invariant.
Context `{PyStr, PySet, PyRegex} {W : Type} (env : WatchdogEnv W).
Abbreviation lenv := (logged_watchdog env).
Abbreviation LRT := (WatchdogRuntime (W * list wd_event)).

(** No auto test is under way, and every start so far was safe. *)
Definition starts_safe (l : list wd_event) : Prop := auto_testing l = false ∧ connects_safe env l.

(** ... and only the active driver can have a tunnel. *)
Definition runtime_safe (rt : LRT) : Prop :=
  selector_silent (rt_selector rt) ∧ starts_safe (log rt)
  ∧ ∀ d, live (log rt) = Some d → d = rt_driver rt.

(** ... no tunnel is left, and [d] is the active driver *)
Definition torn_down (d : Driver) (rt : LRT) : Prop :=
  runtime_safe rt ∧ live (log rt) = None ∧ rt_driver rt = d.

(** ... and the kill switch is in force for [p] *)
Definition ready (d : Driver) (p : Profile) (rt : LRT) : Prop :=
  torn_down d rt
  ∧ ∃ e, kill_switch_allowed_endpoints env (Some p) = Ok e ∧ protecting (log rt) = Some e.

Lemma ks_events_live evs l : Forall is_ks evs → live (evs ++ l) = live l.
Proof. induction 1 as [|e evs He _ IH]; [done|]. by destruct e. Qed.

Lemma ks_events_connects evs l : Forall is_ks evs → connects_safe env l → connects_safe env (evs ++ l).
Proof. induction 1 as [|e evs He _ IH]; [done|]. by destruct e. Qed.

Lemma ks_events_testing evs l : Forall is_ks evs → auto_testing (evs ++ l) = auto_testing l.
Proof. induction 1 as [|e evs He _ IH]; [done|]. by destruct e. Qed.

Lemma ks_events_safe evs l : Forall is_ks evs → starts_safe l → starts_safe (evs ++ l).
Proof. intros He [Ht Hc]. split; [by rewrite ks_events_testing|by apply ks_events_connects]. Qed.

Lemma obs_protecting evs l : Forall is_obs evs → protecting (evs ++ l) = protecting l.
Proof. induction 1 as [|e evs He _ IH]; [done|]. by destruct e. Qed.

Lemma ks_only_safe rt rt' : ks_only rt rt' → runtime_safe rt → runtime_safe rt'.
Proof.
  intros Hk (Hs & Hc & Hl). destruct (Hk Hs) as (Hd & Hs' & evs & He & Hks). unfold runtime_safe.
  rewrite He, Hd, ks_events_live by done. auto using ks_events_safe.
Qed.

Lemma ks_only_torn_down d rt rt' : ks_only rt rt' → torn_down d rt → torn_down d rt'.
Proof.
  intros Hk (Hsafe & Hl & Hd). split; [by eapply ks_only_safe|]. destruct Hsafe as (Hs & _).
  destruct (Hk Hs) as (Hd' & _ & evs & He & Hks). by rewrite He, Hd', ks_events_live.
Qed.

Lemma same_ready d p rt rt' : same rt rt' → ready d p rt → ready d p rt'.
Proof.
  intros Hk (Ht & Hp). split; [eapply ks_only_torn_down; [by apply same_ks_only|done]|].
  destruct Ht as ((Hs & _) & _). destruct (Hk Hs) as (_ & _ & evs & -> & He). by rewrite obs_protecting.
Qed.

Lemma torn_down_safe d rt : torn_down d rt → runtime_safe rt.
Proof. by intros [? _]. Qed.

Lemma ready_torn_down d p rt : ready d p rt → torn_down d rt.
Proof. by intros [? _]. Qed.

Lemma hoare_safe {A} (m : PyM LRT A) : steps ks_only m → hoare runtime_safe m (fun _ => runtime_safe).
Proof. intros Hm. apply (steps_hoare ks_only); [done|]. apply ks_only_safe. Qed.

Lemma hoare_torn_down {A} d (m : PyM LRT A) : steps ks_only m → hoare (torn_down d) m (fun _ => torn_down d).
Proof. intros Hm. apply (steps_hoare ks_only); [done|]. apply ks_only_torn_down. Qed.

Lemma hoare_ready {A} d p (m : PyM LRT A) : steps same m → hoare (ready d p) m (fun _ => ready d p).
Proof. intros Hm. apply (steps_hoare same); [done|]. apply same_ready. Qed.

(** Stopping the active driver *)
Lemma driver_disconnect_spec d :
  hoare (fun rt => runtime_safe rt ∧ rt_driver rt = d) (io (we_disconnect lenv d))
    (fun r rt => runtime_safe rt ∧ rt_driver rt = d ∧ (r = Ok true → live (log rt) = None)).
Proof.
  intros rt [(Hs & Hc & Hl) <-]. unfold io, log in *. cbn. unfold recorded.
  destruct (rt_world rt) as [w l] eqn:Ew. destruct (we_disconnect env (rt_driver rt) w) as [r w']. cbn in *.
  assert (r = Ok true → live (EvDriverDisconnect (rt_driver rt) r :: l) = None) as Hlive.
  { intros ->. cbn. destruct (live l) as [d'|] eqn:E; [|done]. rewrite (Hl d' eq_refl). by rewrite bool_decide_true. }
  split; [|done]. split; [done|]. split; [done|]. unfold log. cbn [rt_world set_world snd].
  destruct r as [[]|]; [by rewrite Hlive|by apply Hl..].
Qed.

Lemma teardown_spec :
  hoare runtime_safe (teardown_active_driver lenv)
    (fun r rt => runtime_safe rt ∧ (r = Ok true → live (log rt) = None)).
Proof.
  apply hoare_gets_bind. intros d.
  eapply (hoare_bind _ _ _ (fun (b : bool) rt => runtime_safe rt ∧ (b = true → live (log rt) = None))).
  - eapply (hoare_try _ _ _ _ _ (fun _ => runtime_safe)).
    + eapply hoare_conseq; [apply driver_disconnect_spec|done|]. intros [b|e] rt (Hs & _ & Hl); cbn; [|done].
      split; [done|]. intros ->. by apply Hl.
    + intros e _ rt Hrt. done.
  - intros [].
    + intros rt [Hs Hl]. cbn. split; [exact Hs|]. intros _. by apply Hl.
    + intros rt [Hs _]. split.
      * revert rt Hs. apply (hoare_safe (_ ← update (set_barrier_failed true);
          _ ← record_last_failure lenv "cleanup_failed"; mret false)). steps_tac.
      * intros Hr. exfalso. revert Hr. unfold mbind, pym_bind. cbn.
        by destruct (record_last_failure lenv "cleanup_failed" _) as [[]].
Qed.

Lemma activate_spec d :
  hoare runtime_safe (activate_driver lenv d true)
    (fun r rt => match r with Ok d' => d' = d ∧ torn_down d rt | Err _ => runtime_safe rt end).
Proof.
  unfold activate_driver.
  eapply (hoare_bind _ _ _ (fun (b : bool) rt => runtime_safe rt ∧ (b = true → live (log rt) = None))).
  { eapply hoare_conseq; [apply teardown_spec|done|]. intros [b|e] rt [Hs Hl]; [|done]. split; [done|].
    intros ->. by apply Hl. }
  intros []; cbn [negb].
  - intros rt [(Hs & Hc & Hd) Hl]. cbn. split; [done|]. specialize (Hl eq_refl).
    split; [|done]. split; [done|]. split; [done|]. intros d'.
    change (live (log rt) = Some d' → d' = d). by rewrite Hl.
  - intros rt [Hs _]. done.
Qed.

(** A postcondition on normal returns *)
Definition on_ok {A} (Q : A → LRT → Prop) (r : res A) (rt : LRT) : Prop :=
  match r with Ok a => Q a rt | Err _ => True end.

Lemma hoare_any_bind {A B} (m : PyM LRT A) (f : A → PyM LRT B) (Q : B → LRT → Prop) :
  (∀ a, hoare (fun _ => True) (f a) (on_ok Q)) → hoare (fun _ => True) (m ≫= f) (on_ok Q).
Proof.
  intros Hf rt _. unfold mbind, pym_bind. destruct (m rt) as [[a|e] rt']; [by apply Hf|done].
Qed.

Lemma hoare_intro {A} (P : LRT → Prop) (m : PyM LRT A) (Q : res A → LRT → Prop) :
  (∀ rt r rt', P rt → m rt = (r, rt') → Q r rt') → hoare P m Q.
Proof. intros Hm rt Hrt. by destruct (m rt) as [r rt'] eqn:E; eapply Hm. Qed.

Lemma io_recorded_log {A} (ev : res A → wd_event) (m : PyM W A) (rt : LRT) r rt' :
  io (recorded ev m) rt = (r, rt') → log rt' = ev r :: log rt.
Proof.
  unfold io, recorded, log. destruct (rt_world rt) as [w l]. destruct (m w) as [r0 w']. by intros [= <- <-].
Qed.

(** Installing the policy of a candidate *)
Lemma configure_assigns c p :
  hoare (fun _ => True) (configure_kill_switch lenv c p)
    (on_ok (fun _ rt => ∃ e, kill_switch_allowed_endpoints env p = Ok e ∧ assigned (log rt) = Some e)).
Proof.
  unfold configure_kill_switch. do 8 (apply hoare_any_bind; intros ?).
  intros rt _. unfold mbind at 1, pym_bind at 1, liftR.
  change (kill_switch_allowed_endpoints lenv p) with (kill_switch_allowed_endpoints env p).
  destruct (kill_switch_allowed_endpoints env p) as [e|]; [|done].
  unfold mbind, pym_bind, io. cbn. unfold recorded, silent, log.
  destruct (rt_world rt) as [w l]. destruct (we_ks_assign env (KA_allowed_endpoints e) w) as [[u|] w1]; [|done].
  cbn. destruct (we_ks_assign env _ w1) as [[u'|] w2]; [|done]. cbn. eauto.
Qed.

Lemma apply_protection_protects p :
  hoare (fun _ => True) (apply_desired_on_protection lenv p)
    (on_ok (fun b rt => b = true →
       ∃ e, kill_switch_allowed_endpoints env p = Ok e ∧ protecting (log rt) = Some e)).
Proof.
  unfold apply_desired_on_protection. apply hoare_any_bind. intros config.
  eapply (hoare_bind _ _ _ (fun _ rt =>
    ∃ e, kill_switch_allowed_endpoints env p = Ok e ∧ assigned (log rt) = Some e)).
  { eapply hoare_conseq; [apply configure_assigns|done|]. by intros [u|] rt Hr. }
  intros u. apply hoare_intro. intros rt r rt' (e & He & Ha). unfold mbind, pym_bind, liftR.
  destruct (io (we_ks_apply_atomic lenv) rt) as [[[]|] rt1] eqn:E; [|by intros [= <- <-]..].
  apply io_recorded_log in E. destruct (kill_switch_configured config); [|by intros [= <- <-]].
  intros [= <- <-]. intros _. exists e. split; [done|].
  change (protecting (log rt1) = Some e). by rewrite E.
Qed.

Lemma protect_spec d p :
  hoare (torn_down d) (protect_connection_attempt lenv p)
    (fun r rt => torn_down d rt ∧ (r = Ok true → ready d p rt)).
Proof.
  intros rt Hrt. pose proof (hoare_torn_down d _ (steps_apply_protection env (Some p)) rt Hrt) as Ht.
  pose proof (apply_protection_protects (Some p) rt I) as Hp. unfold protect_connection_attempt in *.
  destruct (apply_desired_on_protection lenv (Some p) rt) as [r rt']. cbn in *.
  split; [done|]. intros ->. split; [done|]. by apply Hp.
Qed.

(** Starting a driver *)
Lemma connect_event_safe d p dns o :
  hoare (ready d p) (io (we_connect lenv d p dns o)) (fun _ => runtime_safe).
Proof.
  intros rt (((Hs & Hc & Hl) & Hlive & Hd) & Hp). unfold io, log in *. cbn. unfold recorded.
  destruct (rt_world rt) as [w l]. destruct (we_connect env d p dns o w) as [r w']. cbn in *.
  destruct Hc as [Ht Hc]. split; [done|]. unfold starts_safe. cbn. rewrite Ht. split; [done|].
  unfold log. cbn. congruence.
Qed.

Lemma driver_connect_safe d p o :
  hoare (ready d p) (driver_connect lenv d p o) (fun _ => runtime_safe).
Proof.
  unfold driver_connect. eapply (hoare_bind _ _ _ (fun _ => ready d p)).
  - eapply hoare_conseq; [apply hoare_ready; steps_tac|done|]. intros [a|e] rt Hr; [done|].
    by eapply torn_down_safe, ready_torn_down.
  - intros dns. apply connect_event_safe.
Qed.
End invariant.

(** ** Every operation keeps the runtime safe *)
Section operations.
Context `{PyStr, PySet, PyRegex} {W : Type} (env : WatchdogEnv W).
Abbreviation lenv := (logged_watchdog env).
Abbreviation LRT := (WatchdogRuntime (W * list wd_event)).

Definition safe_step (rt rt' : LRT) : Prop := runtime_safe env rt → runtime_safe env rt'.

#[local] Instance safe_step_preorder : PreOrder safe_step.
Proof. split; [intros rt; exact id|]. intros r1 r2 r3 H1' H2' Hs. by apply H2', H1'. Qed.

Lemma steps_ks_safe {A} (m : PyM LRT A) : steps ks_only m → steps safe_step m.
Proof. intros Hm rt Hs. eapply ks_only_safe; [apply Hm | exact Hs]. Qed.
#[local] Hint Extern 6 (steps safe_step _) => (apply steps_ks_safe; solve [auto 4 with steps]) : steps.

Lemma hoare_steps_safe {A} (m : PyM LRT A) :
  steps safe_step m → hoare (runtime_safe env) m (fun _ => runtime_safe env).
Proof. intros Hm rt. apply Hm. Qed.

Lemma safe_of_hoare {A} (m : PyM LRT A) (Q : res A → LRT → Prop) :
  hoare (runtime_safe env) m Q → (∀ r rt, Q r rt → runtime_safe env rt) → steps safe_step m.
Proof. intros Hm HQ rt Hrt. eapply HQ, Hm, Hrt. Qed.

Lemma steps_teardown : steps safe_step (teardown_active_driver lenv).
Proof. eapply safe_of_hoare; [apply teardown_spec|]. by intros r rt [? _]. Qed.
#[local] Hint Resolve steps_teardown : steps.

Lemma steps_fail_manual_connect : steps safe_step (fail_manual_connect lenv).
Proof. unfold fail_manual_connect. steps_tac. Qed.

Lemma steps_disconnect : steps safe_step (disconnect lenv).
Proof. unfold disconnect. steps_tac. Qed.
#[local] Hint Resolve steps_fail_manual_connect : steps.

(** A step that records nothing, before the driver is started *)
Lemma ready_bind {A B} d p (m : PyM LRT A) (f : A → PyM LRT B) :
  steps same m → (∀ a, hoare (ready env d p) (f a) (fun _ => runtime_safe env)) →
  hoare (ready env d p) (m ≫= f) (fun _ => runtime_safe env).
Proof.
  intros Hm Hf. eapply (hoare_bind _ _ _ (fun _ => ready env d p)); [|done].
  eapply hoare_conseq; [by apply hoare_ready|done|]. intros [a|e] rt Hr; [done|].
  by eapply torn_down_safe, ready_torn_down.
Qed.

(** Starting the driver, then anything that keeps the runtime safe *)
Lemma start_bind {A} d p o (k : bool → PyM LRT A) :
  (∀ b, steps safe_step (k b)) →
  hoare (ready env d p) (driver_connect lenv d p o ≫= k) (fun _ => runtime_safe env).
Proof.
  intros Hk. eapply (hoare_bind _ _ _ (fun _ => runtime_safe env)).
  - eapply hoare_conseq; [apply driver_connect_safe|done|]. by intros [b|e] rt Hr.
  - intros b. by apply hoare_steps_safe.
Qed.

(** Protecting the attempt, then starting the driver *)
Lemma protect_bind {A} d p (fallback : PyM LRT A) (start : PyM LRT A) :
  steps safe_step fallback → hoare (ready env d p) start (fun _ => runtime_safe env) →
  hoare (torn_down env d)
    (protected ← protect_connection_attempt lenv p; if negb protected then fallback else start)
    (fun _ => runtime_safe env).
Proof.
  intros Hf Hs. eapply (hoare_bind _ _ _ (fun (b : bool) rt => torn_down env d rt ∧ (b = true → ready env d p rt))).
  - eapply hoare_conseq; [apply protect_spec|done|]. intros [b|e] rt [Ht Hr]; [|by eapply torn_down_safe].
    split; [done|]. intros ->. by apply Hr.
  - intros []; cbn [negb]; intros rt [Ht Hr]; [by apply Hs, Hr|]. apply Hf. by eapply torn_down_safe.
Qed.

(** Activating the driver, then a computation that expects it active and torn down *)
Lemma activate_bind {A} d (k : Driver → PyM LRT A) :
  hoare (torn_down env d) (k d) (fun _ => runtime_safe env) →
  steps safe_step (activate_driver lenv d true ≫= k).
Proof.
  intros Hk. eapply safe_of_hoare; [|intros r rt Hr; exact Hr].
  eapply (hoare_bind _ _ _ (fun d' rt => d' = d ∧ torn_down env d rt)).
  - eapply hoare_conseq; [apply activate_spec|done|]. by intros [d'|e] rt Hr.
  - intros d' rt [-> Ht]. by apply Hk.
Qed.

Lemma steps_connect p : steps safe_step (connect lenv p).
Proof.
  unfold connect. apply steps_bind; [typeclasses eauto|steps_tac|]. intros _.
  apply steps_bind; [typeclasses eauto|steps_tac|]. intros [d o]. apply activate_bind.
  apply protect_bind; [steps_tac|]. do 2 (apply ready_bind; [steps_tac|]; intros _).
  apply start_bind. intros b. steps_tac.
Qed.

(** Activation with the barrier caught *)
Lemma try_activate_spec d :
  hoare (runtime_safe env)
    (try_except (d' ← activate_driver lenv d true; mret (Some d'))
       (fun e => is_instance e TeardownBarrierError) (fun _ => mret None))
    (fun r rt => match r with Ok (Some d') => d' = d ∧ torn_down env d rt | _ => runtime_safe env rt end).
Proof.
  eapply (hoare_try _ _ _ _ _ (fun _ => runtime_safe env)); [|by intros e _ rt Hrt].
  eapply (hoare_bind _ _ _ (fun d' rt => d' = d ∧ torn_down env d rt)).
  - eapply hoare_conseq; [apply activate_spec|done|]. intros [d'|e] rt Hr; [done|]. by destruct (is_instance _ _).
  - by intros d' rt Hr.
Qed.

Lemma try_activate_bind {A} d (k : option Driver → PyM LRT A) :
  steps safe_step (k None) → hoare (torn_down env d) (k (Some d)) (fun _ => runtime_safe env) →
  steps safe_step
    (try_except (d' ← activate_driver lenv d true; mret (Some d'))
       (fun e => is_instance e TeardownBarrierError) (fun _ => mret None) ≫= k).
Proof.
  intros Hn Hk. eapply safe_of_hoare; [|intros r rt Hr; exact Hr].
  eapply (hoare_bind _ _ _ (fun o rt => match o with Some d' => d' = d ∧ torn_down env d rt
                                        | None => runtime_safe env rt end)).
  - eapply hoare_conseq; [apply try_activate_spec|done|]. by intros [[d'|]|e] rt Hr.
  - intros [d'|] rt; [intros [-> Ht]; by apply Hk|]. apply Hn.
Qed.

Lemma steps_try_reconnect p : steps safe_step (try_reconnect lenv p).
Proof.
  unfold try_reconnect. apply steps_bind; [typeclasses eauto|steps_tac|].
  intros [[d o]|]; [|steps_tac]. apply try_activate_bind; [steps_tac|]. apply protect_bind; [steps_tac|].
  apply start_bind. intros b. steps_tac.
Qed.
#[local] Hint Resolve steps_try_reconnect : steps.

(** The policy in force survives a teardown. *)
Definition keeps_policy (rt rt' : LRT) : Prop :=
  selector_silent (rt_selector rt) →
  selector_silent (rt_selector rt') ∧ protecting (log rt') = protecting (log rt).

#[export] Instance keeps_policy_preorder : PreOrder keeps_policy.
Proof.
  split; [intros rt Hs; done|]. intros r1 r2 r3 H1' H2' Hs. destruct (H1' Hs) as [Hs2 ?].
  destruct (H2' Hs2). split; [done|congruence].
Qed.

Lemma steps_same_policy {A} (m : PyM LRT A) : steps same m → steps keeps_policy m.
Proof.
  intros Hm rt Hs. destruct (Hm rt Hs) as (_ & ? & evs & -> & He). by rewrite obs_protecting.
Qed.
#[local] Hint Extern 6 (steps keeps_policy _) => (apply steps_same_policy; solve [auto 4 with steps]) : steps.

Lemma steps_disconnect_policy d : steps keeps_policy (io (we_disconnect lenv d)).
Proof.
  intros rt Hs. unfold io, log. cbn. unfold recorded. destruct (rt_world rt) as [w l].
  by destruct (we_disconnect env d w) as [r w'].
Qed.
#[local] Hint Resolve steps_disconnect_policy : steps.

Lemma steps_set_driver_policy d : steps keeps_policy (update (set_driver d)).
Proof. intros rt Hs. done. Qed.
#[local] Hint Resolve steps_set_driver_policy : steps.

Lemma steps_activate_policy d b : steps keeps_policy (activate_driver lenv d b).
Proof. unfold activate_driver, teardown_active_driver. steps_tac. Qed.
#[local] Hint Resolve steps_activate_policy : steps.

Definition in_force (p : Profile) (rt : LRT) : Prop :=
  selector_silent (rt_selector rt)
  ∧ ∃ e, kill_switch_allowed_endpoints env (Some p) = Ok e ∧ protecting (log rt) = Some e.

Lemma hoare_in_force {A} p (m : PyM LRT A) : steps keeps_policy m → hoare (in_force p) m (fun _ => in_force p).
Proof.
  intros Hm. apply (steps_hoare keeps_policy); [done|]. intros rt rt' Hk [Hs Hp].
  destruct (Hk Hs) as [Hs' He]. split; [done|]. by rewrite He.
Qed.

Lemma startup_connect_unprotected p prepared : steps safe_step (startup_connect lenv false p prepared).
Proof.
  unfold startup_connect. destruct prepared as [d o]. apply try_activate_bind; [steps_tac|].
  apply protect_bind; [steps_tac|]. apply start_bind. intros b. steps_tac.
Qed.

Lemma startup_connect_protected p prepared :
  hoare (fun rt => runtime_safe env rt ∧ in_force p rt) (startup_connect lenv true p prepared)
    (fun _ => runtime_safe env).
Proof.
  unfold startup_connect. destruct prepared as [d o].
  eapply (hoare_bind _ _ _ (fun od rt => match od with Some d' => d' = d ∧ ready env d p rt
                                         | None => runtime_safe env rt end)).
  - eapply hoare_conseq; [eapply hoare_and; [apply (try_activate_spec d)|apply (hoare_in_force p); steps_tac]| |].
    + intros rt [Hs Hp]. exact (conj Hs Hp).
    + intros [[d'|]|e] rt [Hr [_ Hp]]; [|exact Hr..]. destruct Hr as [-> Ht]. by split.
  - intros [d'|]; [|apply hoare_steps_safe; steps_tac].
    intros rt [-> Hr]. revert rt Hr.
    match goal with |- ∀ rt, _ → runtime_safe env (?m rt).2 =>
      change (hoare (ready env d p) m (fun _ => runtime_safe env)) end.
    apply ready_bind; [steps_tac|]. intros []; cbn [negb].
    + apply start_bind. intros b. steps_tac.
    + eapply hoare_conseq; [apply hoare_steps_safe; steps_tac| |done].
      intros rt Hr. by eapply torn_down_safe, ready_torn_down.
Qed.

Lemma protection_in_force p :
  hoare (runtime_safe env) (apply_desired_on_protection lenv p)
    (fun r rt => runtime_safe env rt
       ∧ (r = Ok true → match p with Some p => in_force p rt | None => True end)).
Proof.
  intros rt Hrt. pose proof (hoare_safe env _ (steps_apply_protection env p) rt Hrt) as Hs.
  pose proof (apply_protection_protects env p rt I) as Hp.
  destruct (apply_desired_on_protection lenv p rt) as [r rt']. cbn in *.
  split; [done|]. intros ->. destruct p as [p|]; [|done]. destruct Hs as [Hsel _]. split; [done|].
  by apply Hp.
Qed.

(** The end of [startup], once the profile is known *)
Lemma startup_with_profile b p :
  hoare (fun rt => runtime_safe env rt ∧ (b = true → in_force p rt))
    (prepared ← startup_prepare lenv p;
     match prepared with
     | inr s => mret s
     | inl prepared => startup_connect lenv b p prepared
     end) (fun _ => runtime_safe env).
Proof.
  eapply (hoare_bind _ _ _ (fun _ rt => runtime_safe env rt ∧ (b = true → in_force p rt))).
  - intros rt [Hs Hp]. pose proof (steps_startup_prepare env p) as Hsp.
    pose proof (hoare_safe env _ (steps_same_ks _ Hsp) rt Hs) as Hs'.
    pose proof (hoare_in_force p _ (steps_same_policy _ Hsp) rt) as Hp'.
    destruct (startup_prepare lenv p rt) as [[x|] rt']; cbn in *; [|done]. split; [done|].
    intros Hb. by apply Hp', Hp.
  - intros [prepared|s]; [|by intros rt [Hs _]]. destruct b.
    + eapply hoare_conseq; [apply startup_connect_protected| |done]. intros rt [Hs Hp]. auto.
    + intros rt [Hs _]. by apply (startup_connect_unprotected p prepared).
Qed.

Lemma steps_startup b : steps safe_step (startup lenv b).
Proof.
  unfold startup. apply steps_bind; [typeclasses eauto|steps_tac|]. intros f.
  destruct (StateManager_load f) as [st|e]; [|steps_tac].
  destruct (String.eqb _ "off"); [steps_tac|]. destruct (negb (String.eqb _ "on")); [steps_tac|].
  apply steps_bind; [typeclasses eauto|steps_tac|]. intros profile.
  destruct (negb (flag_of _)); [steps_tac|].
  eapply safe_of_hoare; [|intros r rt Hr; exact Hr].
  eapply (hoare_bind _ _ _ (fun (x : bool) rt => runtime_safe env rt
    ∧ (x = true → b = true → match profile with Some p => in_force p rt | None => True end))).
  - destruct b; [|by intros rt Hs; cbn; split; [|done]].
    eapply hoare_conseq; [apply protection_in_force|done|]. intros [x|e] rt [Hs Hp]; [|exact Hs].
    split; [exact Hs|]. intros -> _. by apply Hp.
  - intros []; cbn [negb]; [|intros rt [Hs _]; revert rt Hs; apply hoare_steps_safe; steps_tac].
    destruct (negb (truthy_str _)); [intros rt [Hs _]; revert rt Hs; apply hoare_steps_safe; steps_tac|].
    destruct profile as [p|]; [|intros rt [Hs _]; revert rt Hs; apply hoare_steps_safe; steps_tac].
    eapply hoare_conseq; [apply (startup_with_profile b p)| |done]. intros rt [Hs Hp]. split; [done|].
    by apply Hp.
Qed.

Lemma finally_safe {A} (P : LRT → Prop) (m : PyM LRT A) (f : PyM LRT unit) :
  hoare P m (fun _ => runtime_safe env) → steps safe_step f →
  hoare P (try_finally m f) (fun _ => runtime_safe env).
Proof.
  intros Hm Hf rt Hrt. specialize (Hm rt Hrt). unfold try_finally. destruct (m rt) as [r rt'].
  specialize (Hf rt' Hm). by destruct (f rt') as [[u|e] rt''].
Qed.

Lemma steps_shutdown : steps safe_step (shutdown lenv).
Proof.
  unfold shutdown. apply steps_bind; [typeclasses eauto|steps_tac|]. intros f.
  apply steps_bind; [typeclasses eauto|steps_tac|]. intros desired.
  apply steps_bind; [typeclasses eauto|steps_tac|]. intros ok.
  eapply safe_of_hoare; [|intros r rt Hr; exact Hr]. apply hoare_gets_bind. intros d.
  eapply (hoare_bind _ _ _ (fun _ => runtime_safe env)); [|intros a; apply hoare_steps_safe; steps_tac].
  eapply hoare_conseq; [apply (finally_safe (fun rt => runtime_safe env rt ∧ rt_driver rt = d))|done|].
  - eapply (hoare_try _ _ _ _ _ (fun _ => runtime_safe env)); [|by intros e _ rt' ?].
    eapply hoare_conseq; [apply driver_disconnect_spec|done|]. intros [x|e] rt' [? _]; done.
  - steps_tac.
  - by intros [x|e] rt Hr.
Qed.
End operations.

(** ** Rotation keeps what every call of its interface keeps *)
Section world_invariant.
Context {V D : Type} (renv : RotationEnv V D) (I : V → Prop).

Definition keeps_I (v v' : V) : Prop := I v → I v'.
Definition keeps_world (s s' : RotationEngine * V) : Prop := I s.2 → I s'.2.

#[local] Instance keeps_world_preorder : PreOrder keeps_world.
Proof. split; [intros s; exact id|]. intros s1 s2 s3 H1 H2 Hs. by apply H2, H1. Qed.

Context (Hpre : ∀ f p, env_preflight renv = Some f → steps keeps_I (f p))
  (Hdisc : steps keeps_I (env_disconnect renv))
  (Hconn : ∀ p d, steps keeps_I (env_connect renv p d))
  (Hhealth : ∀ p, steps keeps_I (env_health_check renv p))
  (Hclock : steps keeps_I (env_clock renv))
  (Hsleep : ∀ t, steps keeps_I (env_sleep renv t)).

Lemma steps_liftW {A} (m : PyM V A) : steps keeps_I m → steps keeps_world (liftW m).
Proof. intros Hm [e v] Hv. specialize (Hm v Hv). cbn. by destruct (m v). Qed.

Lemma steps_engine_update f : steps keeps_world (engine_update f).
Proof. intros [e v] Hv. exact Hv. Qed.

Lemma steps_engine_get : steps keeps_world engine_get.
Proof. intros s Hs. exact Hs. Qed.
#[local] Hint Resolve steps_engine_update steps_engine_get : steps.
#[local] Hint Extern 3 (steps keeps_world (liftW _)) => (apply steps_liftW; solve [auto]) : steps.

Lemma steps_disconnect_or_false : steps keeps_world (disconnect_or_false renv).
Proof. unfold disconnect_or_false. steps_tac. Qed.
#[local] Hint Resolve steps_disconnect_or_false : steps.

Lemma steps_cleanup_failed_attempt : steps keeps_world (cleanup_failed_attempt renv).
Proof. unfold cleanup_failed_attempt. steps_tac. Qed.
#[local] Hint Resolve steps_cleanup_failed_attempt : steps.

Lemma steps_connect_and_check p d : steps keeps_world (connect_and_check renv p d).
Proof. unfold connect_and_check. steps_tac. Qed.
#[local] Hint Resolve steps_connect_and_check : steps.

Lemma steps_try_profile p d : steps keeps_world (try_profile renv p d).
Proof. unfold try_profile. steps_tac. Qed.
#[local] Hint Resolve steps_try_profile : steps.

Lemma steps_rollback pool d : steps keeps_world (rollback renv pool d).
Proof. unfold rollback. steps_tac. Qed.

Lemma steps_stamp : steps keeps_world (stamp_rotation renv).
Proof. unfold stamp_rotation. steps_tac. Qed.
#[local] Hint Resolve steps_rollback steps_stamp : steps.

Lemma steps_rotate_loop pool d c t cands a f b : steps keeps_world (rotate_loop renv pool d c t cands a f b).
Proof. revert a f b. induction cands; intros; cbn [rotate_loop]; steps_tac. Qed.
#[local] Hint Resolve steps_rotate_loop : steps.

Lemma steps_rotate pool force d : steps keeps_world (rotate renv pool force d).
Proof. unfold rotate, single_node_check. steps_tac. Qed.
End world_invariant.

(** ** The router *)
Section router.
Context `{PyStr, PySet, PyRegex} {W : Type} (env : WatchdogEnv W).
Abbreviation lenv := (logged_watchdog env).
Abbreviation LRW := (WatchdogRuntime (W * list wd_event) * Router)%type.

Definition router_safe (s : LRW) : Prop :=
  runtime_safe env s.1 ∧ (ro_teardown_verified s.2 = true → live (log s.1) = None).

Definition router_step := keeps_I router_safe.

#[local] Instance router_step_preorder : PreOrder router_step.
Proof. split; [intros s; exact id|]. intros s1 s2 s3 H1' H2' Hs. by apply H2', H1'. Qed.

(** A method that makes no driver call *)
Lemma steps_on_runtime {A} (m : PyM (WatchdogRuntime (W * list wd_event)) A) :
  steps ks_only m → steps router_step (on_runtime m).
Proof.
  intros Hm [rt ro] [Hs Hv]. specialize (Hm rt). unfold on_runtime. destruct (m rt) as [r rt']. cbn in *.
  split; [by eapply ks_only_safe|]. cbn [fst snd]. intros Hver. destruct Hs as [Hsel _].
  destruct (Hm Hsel) as (_ & _ & evs & -> & Hks). rewrite ks_events_live by done. by apply Hv.
Qed.
#[local] Hint Extern 3 (steps router_step (on_runtime _)) =>
  (apply steps_on_runtime; solve [auto 4 with steps]) : steps.

Lemma steps_set_prepared p : steps router_step (router_update (set_prepared p)).
Proof. intros [rt ro] Hs. exact Hs. Qed.
#[local] Hint Resolve steps_set_prepared : steps.

Lemma steps_router_prepare p : steps router_step (router_prepare lenv p).
Proof. unfold router_prepare. steps_tac. Qed.
#[local] Hint Resolve steps_router_prepare : steps.

Lemma steps_router_preflight p : steps router_step (router_preflight_profile lenv p).
Proof. unfold router_preflight_profile. steps_tac. Qed.

(** A teardown never brings a tunnel up, even when it raises. *)
Definition stays_down (rt rt' : WatchdogRuntime (W * list wd_event)) : Prop :=
  selector_silent (rt_selector rt) →
  selector_silent (rt_selector rt') ∧ (live (log rt) = None → live (log rt') = None).

#[local] Instance stays_down_preorder : PreOrder stays_down.
Proof.
  split; [intros rt Hs; done|]. intros r1 r2 r3 H1' H2' Hs. destruct (H1' Hs) as [Hs2 ?].
  destruct (H2' Hs2). auto.
Qed.

Lemma steps_same_down {A} (m : PyM (WatchdogRuntime (W * list wd_event)) A) :
  steps same m → steps stays_down m.
Proof.
  intros Hm rt Hs. destruct (steps_same_ks _ Hm rt Hs) as (_ & ? & evs & -> & He).
  by rewrite ks_events_live.
Qed.
#[local] Hint Extern 6 (steps stays_down _) => (apply steps_same_down; solve [auto 4 with steps]) : steps.

Lemma steps_disconnect_down d : steps stays_down (io (we_disconnect lenv d)).
Proof.
  intros rt Hs. destruct (io (we_disconnect lenv d) rt) as [r rt'] eqn:E.
  apply io_recorded_log in E as El. split.
  - unfold io in E. by destruct (we_disconnect lenv d (rt_world rt)); injection E as <- <-.
  - cbn [snd]. rewrite El. cbn. intros ->. by destruct r as [[]|].
Qed.
#[local] Hint Resolve steps_disconnect_down : steps.

Lemma steps_teardown_down : steps stays_down (teardown_active_driver lenv).
Proof. unfold teardown_active_driver. steps_tac. Qed.

Lemma steps_router_disconnect : steps router_step (router_disconnect lenv).
Proof.
  intros [rt ro] [Hs Hv]. pose proof (teardown_spec env rt Hs) as [Hs' Hl].
  pose proof (steps_teardown_down rt (proj1 Hs)) as [_ Hdown].
  unfold router_disconnect, mbind, pym_bind, on_runtime.
  destruct (teardown_active_driver lenv rt) as [[b|e] rt'] eqn:E; cbn in *.
  - split; [done|]. cbn. intros ->. by apply Hl.
  - split; [done|]. cbn. intros Hver. by apply Hdown, Hv.
Qed.

(** Activation without a teardown, once one is verified *)
Lemma activate_verified_spec d :
  hoare (fun rt => runtime_safe env rt ∧ live (log rt) = None) (activate_driver lenv d false)
    (fun r rt => r = Ok d ∧ torn_down env d rt).
Proof.
  intros rt [(Hs & Hc & Hl) Hlive]. cbn. split; [done|]. split; [|done].
  split; [done|]. split; [done|]. intros d'. change (live (log rt) = Some d' → d' = d). by rewrite Hlive.
Qed.

(** From the activation of the prepared driver on *)
Lemma router_start_spec p dns prepared :
  hoare (fun s => runtime_safe env s.1 ∧ live (log s.1) = None)
    (driver ← on_runtime (activate_driver lenv prepared.1 false);
     protected ← on_runtime (protect_connection_attempt lenv p);
     if negb protected then mret false else
     _ ← router_update (set_verified false);
     on_runtime (io (we_connect lenv driver p dns prepared.2)))
    (fun _ => router_safe).
Proof.
  intros [rt ro] [Hs Hl]. cbn [fst] in *.
  pose proof (activate_verified_spec prepared.1 rt (conj Hs Hl)) as [Hr Ht].
  unfold mbind, pym_bind, on_runtime. destruct (activate_driver lenv prepared.1 false rt) as [r rt1].
  cbn in Hr, Ht. subst r. pose proof (protect_spec env _ p rt1 Ht) as [Ht2 Hready].
  destruct (protect_connection_attempt lenv p rt1) as [[[]|e] rt2]; cbn in Ht2, Hready; cbn [negb].
  - pose proof (connect_event_safe env _ p dns prepared.2 rt2 (Hready eq_refl)) as Hs3. cbn.
    cbn in Hs3. destruct (io _ rt2) as [r rt3]. split; [exact Hs3|done].
  - split; [by eapply torn_down_safe|]. intros _. apply Ht2.
  - split; [by eapply torn_down_safe|]. intros _. apply Ht2.
Qed.

(** No tunnel is left, whatever the router remembers. *)
Definition runtime_down (s : LRW) : Prop := runtime_safe env s.1 ∧ live (log s.1) = None.
Definition down_step := keeps_I runtime_down.

#[local] Instance down_step_preorder : PreOrder down_step.
Proof. split; [intros s; exact id|]. intros s1 s2 s3 H1' H2' Hs. by apply H2', H1'. Qed.

Lemma steps_on_runtime_down {A} (m : PyM (WatchdogRuntime (W * list wd_event)) A) :
  steps ks_only m → steps down_step (on_runtime m).
Proof.
  intros Hm [rt ro] [Hs Hl]. specialize (Hm rt). unfold on_runtime. destruct (m rt) as [r rt']. cbn in *.
  split; [by eapply ks_only_safe|]. cbn [fst]. destruct Hs as [Hsel _].
  destruct (Hm Hsel) as (_ & _ & evs & -> & Hks). by rewrite ks_events_live.
Qed.
#[local] Hint Extern 3 (steps down_step (on_runtime _)) =>
  (apply steps_on_runtime_down; solve [auto 4 with steps]) : steps.

Lemma steps_router_update_down f : steps down_step (router_update f).
Proof. intros [rt ro] Hs. exact Hs. Qed.
#[local] Hint Resolve steps_router_update_down : steps.

Lemma steps_prepare_down p : steps down_step (router_prepare lenv p).
Proof. unfold router_prepare. steps_tac. Qed.
#[local] Hint Resolve steps_prepare_down : steps.

Lemma down_safe s : runtime_down s → router_safe s.
Proof. intros [Hs Hl]. by split. Qed.

Lemma hoare_down {A B} (m : PyM LRW A) (f : A → PyM LRW B) :
  steps down_step m → (∀ a, hoare runtime_down (f a) (fun _ => router_safe)) →
  hoare runtime_down (m ≫= f) (fun _ => router_safe).
Proof.
  intros Hm Hf. eapply (hoare_bind _ _ _ (fun _ => runtime_down)); [|done].
  intros s Hs. specialize (Hm s Hs). destruct (m s) as [[a|e] s']; [done|by apply down_safe].
Qed.

Lemma steps_router_connect p dns : steps router_step (router_connect lenv p dns).
Proof.
  enough (hoare router_safe (router_connect lenv p dns) (fun _ => router_safe)) as Hm by (intros s Hs; by apply Hm).
  unfold router_connect. apply hoare_gets_bind. intros ro. destruct (ro_teardown_verified ro) eqn:Ev; cbn [negb].
  - apply (hoare_conseq _ runtime_down _ _ (fun _ => router_safe)).
    2: { intros s [[Hs Hv] Hro]. split; [exact Hs|]. apply Hv. by rewrite Hro. }
    2: { intros r s Hs. exact Hs. }
    apply (hoare_down (match ro_prepared ro with Some _ => _ | None => _ end)); [steps_tac|].
    intros [prepared|]; [|by intros s Hs; apply down_safe].
    apply hoare_down; [steps_tac|]. intros _. apply router_start_spec.
  - intros s [Hs _]. revert s Hs. match goal with |- ∀ s, _ → router_safe (?m s).2 =>
      change (steps router_step m) end. steps_tac.
Qed.

Lemma steps_run_rotation pool force dns : steps (safe_step env) (run_rotation lenv pool force dns).
Proof.
  intros rt Hs. unfold run_rotation.
  assert (router_safe ((rotate (router_env lenv) pool force (Some dns) (rt_engine rt, (rt, Router_init))).2).2)
    as [Hsafe _].
  { apply (steps_rotate (router_env lenv) router_safe).
    - intros f p [= <-]. apply steps_router_preflight.
    - apply steps_router_disconnect.
    - apply steps_router_connect.
    - intros p. change (steps router_step (on_runtime (checked_and_recorded lenv p true))). steps_tac.
    - change (steps router_step (on_runtime (io (we_monotonic lenv)))). steps_tac.
    - intros t. change (steps router_step (on_runtime (io (we_sleep lenv t)))). steps_tac.
    - by split. }
  destruct (rotate _ _ _ _ _) as [r [e [rt' ro]]]. cbn in Hsafe |- *. exact Hsafe.
Qed.
End router.

(** ** The node-group auto test *)
Section auto_test.
Context `{PyStr, PySet, PyRegex} {W : Type} (env : WatchdogEnv W).
Abbreviation lenv := (logged_watchdog env).
Abbreviation LRT := (WatchdogRuntime (W * list wd_event)).

(** An auto test is under way, every start so far was safe, and the selector is silent. *)
Definition testing_starts (rt : LRT) : Prop :=
  selector_silent (rt_selector rt) ∧ auto_testing (log rt) = true ∧ connects_safe env (log rt).

(** ... and only the active driver can have a tunnel. *)
Definition testing_safe (rt : LRT) : Prop :=
  testing_starts rt ∧ ∀ d, live (log rt) = Some d → d = rt_driver rt.

(** Nothing runs and the kill switch is off, as far as drivers and kill switch tell. *)
Definition reported_idle (rt : LRT) : Prop := running (log rt) = None ∧ ks_off (log rt) = true.

Definition test_ready (rt : LRT) : Prop := testing_safe rt ∧ reported_idle rt.

Lemma running_live l : running l = live l ∨ running l = None.
Proof.
  induction l as [|e l IH]; [by left|]. destruct e as [|d [s|]| | | |d [[]|]| | |]; cbn; auto.
  - destruct IH as [->| ->]; [|by right]. destruct (live l); [|by right].
    destruct (_ && _); [by right|by left].
  - destruct IH as [->| ->]; [by left|by right].
Qed.

Lemma obs_running evs l : Forall is_obs evs → running l = None → running (evs ++ l) = None.
Proof.
  intros He Hr. induction He as [|e evs He _ IH]; [done|].
  destruct e as [|? [s|]| | | | | | |]; try done; cbn; by rewrite ?IH.
Qed.

Lemma ks_running evs l : Forall is_ks evs → running l = None → running (evs ++ l) = None.
Proof.
  intros He Hr. induction He as [|e evs He _ IH]; [done|].
  destruct e as [|? [s|]| | | | | | |]; try done; cbn; by rewrite ?IH.
Qed.

Lemma obs_ks_off evs l : Forall is_obs evs → ks_off (evs ++ l) = ks_off l.
Proof. induction 1 as [|e evs He _ IH]; [done|]. by destruct e. Qed.

Lemma ks_only_testing rt rt' : ks_only rt rt' → testing_safe rt → testing_safe rt'.
Proof.
  intros Hk ((Hs & Ht & Hc) & Hl). destruct (Hk Hs) as (Hd & Hs' & evs & He & Hks).
  unfold testing_safe, testing_starts. rewrite He, Hd, ks_events_live, ks_events_testing by done.
  auto using ks_events_connects.
Qed.

Lemma same_reported rt rt' :
  same rt rt' → selector_silent (rt_selector rt) → reported_idle rt → reported_idle rt'.
Proof.
  intros Hk Hs [Hr Ho]. destruct (Hk Hs) as (_ & _ & evs & He & Hobs). unfold reported_idle.
  rewrite He, obs_ks_off by done. auto using obs_running.
Qed.

Lemma hoare_testing {A} (m : PyM LRT A) : steps ks_only m → hoare testing_safe m (fun _ => testing_safe).
Proof. intros Hm. apply (steps_hoare ks_only); [done|]. apply ks_only_testing. Qed.

Lemma hoare_test_ready {A} (m : PyM LRT A) : steps same m → hoare test_ready m (fun _ => test_ready).
Proof.
  intros Hm. apply (steps_hoare same); [done|]. intros rt rt' Hk [Hs Hi]. split.
  - eapply ks_only_testing; [by apply same_ks_only|done].
  - eapply same_reported; [done| |done]. apply Hs.
Qed.

Definition test_result {A} (r : res A) : LRT → Prop :=
  match r with Ok _ => test_ready | Err _ => testing_safe end.

Lemma test_bind {A B} (m : PyM LRT A) (f : A → PyM LRT B) :
  steps same m → (∀ a, hoare test_ready (f a) test_result) → hoare test_ready (m ≫= f) test_result.
Proof.
  intros Hm Hf. eapply (hoare_bind _ _ _ (fun _ => test_ready)); [|done].
  eapply hoare_conseq; [by apply hoare_test_ready|done|]. intros [a|e] rt Hr; [done|apply Hr].
Qed.

(** *** What the guard checks *)
Lemma idle_effective o s : reports_idle (with_effective_runtime_status o s) = true → reports_idle s = true.
Proof.
  unfold reports_idle. rewrite !andb_true_iff, !negb_true_iff, !orb_false_iff.
  intros [[[? [? _]%orb_false_iff] [? _]%orb_false_iff] Hst]. split; [auto|]. revert Hst. cbn.
  destruct (String.eqb (cs_status s) "standby") eqn:E; cbn; by rewrite ?E.
Qed.

Lemma idle_view a b c m rs s : reports_idle (kill_switch_view a b c m rs s) = true → reports_idle s = true.
Proof.
  unfold reports_idle, kill_switch_view. cbn.
  destruct (negb _); [|done]. destruct (String.eqb (cs_status s) "standby") eqn:E; [done|].
  destruct b, c, a; cbn; rewrite ?E; done.
Qed.

(** What a connection state says agrees with the record. *)
Definition vouched_idle (s : ConnectionState) (rt : LRT) : Prop :=
  reports_idle s = true → running (log rt) = None.

Definition vouched_off (s : ConnectionState) (rt : LRT) : Prop :=
  cs_kill_switch_active s = false → cs_kill_switch_status s = "inactive" → ks_off (log rt) = true.

Lemma ks_vouched s rt rt' :
  ks_only rt rt' → testing_safe rt → vouched_idle s rt → testing_safe rt' ∧ vouched_idle s rt'.
Proof.
  intros Hk Ht Hv. split; [by eapply ks_only_testing|]. intros Hi. destruct Ht as [[Hs _] _].
  destruct (Hk Hs) as (_ & _ & evs & -> & Hks). apply ks_running; [done|]. by apply Hv.
Qed.

Lemma driver_status_vouched :
  hoare testing_safe (driver_status lenv)
    (fun r rt => match r with Ok s => testing_safe rt ∧ vouched_idle s rt | Err _ => testing_safe rt end).
Proof.
  intros rt Hrt. pose proof (hoare_testing _ (steps_same_ks _ (steps_driver_status env)) rt Hrt) as Ht.
  revert Ht. unfold driver_status, mbind, pym_bind. cbn [gets].
  destruct (io (we_status lenv (rt_driver rt)) rt) as [r rt'] eqn:E. apply io_recorded_log in E. cbn.
  intros Ht. destruct r as [s|e]; [|exact Ht]. split; [exact Ht|]. intros Hi.
  rewrite E. cbn. rewrite Hi. destruct (running_live (log rt)) as [->| ->]; [|done].
  destruct (live (log rt)) as [d|] eqn:El; [|done]. destruct Hrt as [_ Hl]. rewrite (Hl d El).
  by rewrite bool_decide_true.
Qed.
Lemma kill_switch_vouched s :
  hoare (fun _ => True) (with_kill_switch_status lenv s) (on_ok vouched_off).
Proof.
  unfold with_kill_switch_status. apply hoare_any_bind. intros _. apply hoare_intro. intros rt r rt' _.
  unfold mbind at 1, pym_bind at 1. destruct (io (we_ks_status lenv) rt) as [[st|e] rt1] eqn:E1;
    apply io_recorded_log in E1; [|by intros [= <- <-]].
  destruct (kss_active st) as [b|] eqn:Ea; unfold mbind, pym_bind; cbn [mret pym_ret].
  - intros [= <- <-] Hact Hoff. rewrite E1. cbn in Hact, Hoff |- *. apply orb_false_iff in Hact as [_ ->].
    rewrite Ea. unfold no_artifacts. destruct (kss_artifacts_present st) as [[]|]; cbn in *; [|done..].
    by rewrite andb_false_r in Hoff.
  - destruct (io (we_ks_is_active lenv) rt1) as [[b|e] rt2] eqn:E2; apply io_recorded_log in E2; [|by intros [= <- <-]].
    intros [= <- <-] Hact Hoff. rewrite E2, E1. cbn in Hact, Hoff |- *. apply orb_false_iff in Hact as [_ ->].
    rewrite Ea. unfold no_artifacts. destruct (kss_artifacts_present st) as [[]|]; cbn in *; [|done..].
    by rewrite andb_false_r in Hoff.
Qed.

(** The view never turns a busy state into an idle one. *)
Lemma view_of_status s :
  hoare (fun _ => True) (with_kill_switch_status lenv s)
    (on_ok (fun s' _ => reports_idle s' = true → reports_idle s = true)).
Proof.
  unfold with_kill_switch_status. do 3 (apply hoare_any_bind; intros ?). intros rt _. cbn. apply idle_view.
Qed.

(** The states of the last two steps carry the fields the guard reads; the last failure can
    only replace the status. *)
Definition guard_fields (s s' : ConnectionState) : Prop :=
  (reports_idle s' = true → reports_idle s = true)
  ∧ cs_kill_switch_active s' = cs_kill_switch_active s
  ∧ cs_kill_switch_status s' = cs_kill_switch_status s.

Lemma lan_guard_fields s :
  hoare (fun _ => True) (with_lan_gateway_status lenv s) (on_ok (fun s' _ => guard_fields s s')).
Proof.
  unfold with_lan_gateway_status. apply hoare_any_bind. intros lan. apply hoare_intro. intros rt r rt' _.
  destruct (cs_lan_gateway_active s); [by intros [= <- <-]|]. by destruct lan; intros [= <- <-].
Qed.

Lemma failure_guard_fields s :
  hoare (fun _ => True) (with_last_failure lenv s) (on_ok (fun s' _ => guard_fields s s')).
Proof.
  unfold with_last_failure. do 2 (apply hoare_any_bind; intros ?). apply hoare_intro. intros rt r rt' _.
  intros [= <- <-]. split; [|done]. unfold reports_idle. cbn. destruct (String.eqb _ "cleanup_failed"); [|done].
  cbn. by rewrite andb_false_r.
Qed.

Definition vouched (s : ConnectionState) (rt : LRT) : Prop :=
  testing_safe rt ∧ vouched_idle s rt ∧ vouched_off s rt.

Lemma vouched_step {A} (m : PyM LRT A) s rt : steps same m → vouched s rt → vouched s (m rt).2.
Proof.
  intros Hm (Ht & Hi & Ho). specialize (Hm rt). destruct (ks_vouched s rt (m rt).2) as [Ht' Hi']; [|done..|].
  { by apply same_ks_only. }
  split; [done|]. split; [done|]. intros Ha Hs. destruct Ht as [[Hsel _] _].
  destruct (Hm Hsel) as (_ & _ & evs & -> & Hobs). rewrite obs_ks_off by done. by apply Ho.
Qed.

Lemma vouched_fields s s' rt : guard_fields s s' → vouched s rt → vouched s' rt.
Proof.
  intros (Hi & Ha & Hs) (Ht & Hvi & Hvo). split; [done|]. split.
  - intros ?. by apply Hvi, Hi.
  - unfold vouched_off. rewrite Ha, Hs. done.
Qed.

Lemma vouched_bind s (m : ConnectionState → PyM LRT ConnectionState) :
  steps same (m s) → hoare (fun _ => True) (m s) (on_ok (fun s' _ => guard_fields s s')) →
  hoare (vouched s) (m s)
    (fun r rt => match r with Ok s' => vouched s' rt | Err _ => testing_safe rt end).
Proof.
  intros Hm Hf rt Hv. pose proof (vouched_step (m s) s rt Hm Hv) as Hv'. specialize (Hf rt I).
  destruct (m s rt) as [[s'|e] rt']; cbn in *; [by eapply vouched_fields|apply Hv'].
Qed.

(** The status of the runtime is true to the record. *)
Lemma status_vouched :
  hoare testing_safe (status lenv)
    (fun r rt => match r with Ok s => vouched s rt | Err _ => testing_safe rt end).
Proof.
  unfold status. eapply (hoare_bind _ _ _ (fun s rt => testing_safe rt ∧ vouched_idle s rt)).
  { eapply hoare_conseq; [apply driver_status_vouched|done|]. by intros [s|e] rt Hr. }
  intros raw. eapply (hoare_bind _ _ _ (fun _ rt => testing_safe rt ∧ vouched_idle raw rt)).
  { intros rt [Ht Hv]. destruct (ks_vouched raw rt (io (we_observe lenv) rt).2) as [Ht' Hv']; [|done..|].
    { apply steps_same_ks. steps_tac. }
    by destruct (io (we_observe lenv) rt) as [[o|e] rt']. }
  intros o. eapply (hoare_bind _ _ _ vouched).
  { intros rt [Ht Hv]. pose proof (kill_switch_vouched (with_effective_runtime_status o raw) rt I) as Ho.
    destruct (ks_vouched raw rt (with_kill_switch_status lenv (with_effective_runtime_status o raw) rt).2)
      as [Ht' Hv']; [apply steps_with_ks_status|done..|].
    pose proof (view_of_status (with_effective_runtime_status o raw) rt I) as Hview.
    destruct (with_kill_switch_status _ _ rt) as [[s|e] rt']; cbn in *; [|done]. split; [done|].
    split; [|done]. intros Hi. by apply Hv', (idle_effective o), Hview. }
  intros s. eapply (hoare_bind _ _ _ vouched).
  { eapply hoare_conseq; [apply vouched_bind; [apply steps_with_lan_status|apply lan_guard_fields]|done|].
    by intros [s'|e] rt Hr. }
  intros s'. apply vouched_bind; [apply steps_with_last_failure|apply failure_guard_fields].
Qed.

Lemma guard_idle s rt : auto_test_guard s = Ok tt → vouched s rt → test_ready rt.
Proof.
  unfold auto_test_guard. destruct (cs_kill_switch_active s || _) eqn:Ek; [done|].
  destruct (_ || negb (String.eqb (cs_status s) "standby")) eqn:Ei; [done|]. intros _ (Ht & Hi & Ho).
  apply orb_false_iff in Ek as [Ha Hs%negb_false_iff%String.eqb_eq]. apply orb_false_iff in Ei as [Ei Est].
  split; [done|]. split; [apply Hi|by apply Ho]. unfold reports_idle. rewrite Ei.
  by apply negb_false_iff in Est as ->.
Qed.
(** *** One candidate *)
(** The candidate [d] is active and started, and the kill switch is off. *)
Definition under_test (d : Driver) (rt : LRT) : Prop :=
  testing_safe rt ∧ rt_driver rt = d ∧ ks_off (log rt) = true.

Lemma same_under_test d rt rt' : same rt rt' → under_test d rt → under_test d rt'.
Proof.
  intros Hk (Ht & Hd & Ho). split; [eapply ks_only_testing; [by apply same_ks_only|done]|].
  destruct Ht as [[Hs _] _]. destruct (Hk Hs) as (-> & _ & evs & -> & He). by rewrite obs_ks_off.
Qed.

Lemma hoare_under_test {A} d (m : PyM LRT A) : steps same m → hoare (under_test d) m (fun _ => under_test d).
Proof. intros Hm. apply (steps_hoare same); [done|]. apply same_under_test. Qed.

Lemma auto_test_start_spec o dns p :
  hoare test_ready (auto_test_start lenv o dns p)
    (fun r rt => match r with Ok x => under_test x.1 rt | Err _ => testing_safe rt end).
Proof.
  unfold auto_test_start. eapply (hoare_bind _ _ _ (fun _ => test_ready)).
  { eapply hoare_conseq; [apply hoare_test_ready; steps_tac|done|]. intros [d|e] rt Hr; [done|apply Hr]. }
  intros d rt (((Hs & Ht & Hc) & Hl) & Hr & Ho).
  change (activate_driver lenv d false ≫= ?k) with ((fun rt => k d (set_driver d rt)) : PyM LRT (Driver * bool)).
  unfold mbind, pym_bind. cbn beta.
  destruct (io (we_connect lenv d p (Some dns) o) (set_driver d rt)) as [r rt'] eqn:E.
  apply io_recorded_log in E as El. assert (rt_driver rt' = d ∧ rt_selector rt' = rt_selector rt) as [Hd Hsel].
  { unfold io in E. by destruct (we_connect lenv _ _ _ _ _); injection E as <- <-. }
  change (log (set_driver d rt)) with (log rt) in El.
  assert (testing_safe rt') as Hsafe.
  { split; [split; [by rewrite Hsel|]; rewrite El; cbn; by rewrite Ht|]. rewrite El, Hd. cbn. congruence. }
  destruct r as [b|e]; cbn [fst snd]; [|exact Hsafe]. split; [exact Hsafe|]. split; [exact Hd|].
  change (ks_off (log rt') = true). by rewrite El.
Qed.

Lemma auto_test_stop_spec d p :
  hoare (under_test d) (auto_test_stop lenv d p) test_result.
Proof.
  unfold auto_test_stop. apply hoare_intro. intros rt r rt' (((Hs & Ht & Hc) & Hl) & Hd & Ho).
  unfold mbind, pym_bind. destruct (io (we_disconnect lenv d) rt) as [x rt1] eqn:E.
  apply io_recorded_log in E as El. assert (rt_driver rt1 = d ∧ rt_selector rt1 = rt_selector rt) as [Hd1 Hsel].
  { unfold io in E. by destruct (we_disconnect lenv _ _); injection E as <- <-. }
  assert (testing_safe rt1) as Hsafe.
  { split; [split; [by rewrite Hsel|]; by rewrite El|]. rewrite El, Hd1. subst d. cbn.
    destruct x as [[]|]; [|exact Hl..]. destruct (live (log rt)) as [d'|] eqn:Elive; [|done].
    destruct (bool_decide _); [done|exact Hl]. }
  destruct x as [[]|e]; intros [= <- <-]; [|exact Hsafe..]. split; [exact Hsafe|]. split; [|by rewrite El].
  destruct (running_live (log rt1)) as [->| ->]; [|done]. rewrite El. cbn.
  destruct (live (log rt)) as [d'|]; [|done]. subst d. rewrite (Hl d' eq_refl). by rewrite bool_decide_true.
Qed.

Lemma test_result_ready {A} (r : res A) rt : test_ready rt → test_result r rt.
Proof. intros Hr. destruct r; [done|apply Hr]. Qed.

Lemma auto_test_finish_spec p started :
  hoare (under_test started.1) (auto_test_finish lenv p started) test_result.
Proof.
  unfold auto_test_finish. destruct (negb _).
  - eapply (hoare_bind _ _ _ (fun _ => under_test started.1)).
    { eapply hoare_conseq; [apply hoare_under_test; steps_tac|done|]. intros [x|e] rt Hr; [done|apply Hr]. }
    intros _. eapply (hoare_bind _ _ _ (fun _ => test_ready)); [|by intros ? rt Hr].
    eapply hoare_conseq; [apply auto_test_stop_spec|done|]. by intros [x|e] rt Hr.
  - intros rt Hu. assert (steps same (auto_test_measure lenv p)) as Hm by (unfold auto_test_measure; steps_tac).
    pose proof (hoare_under_test _ _ Hm rt Hu) as Hu'. unfold try_finally.
    destruct (auto_test_measure lenv p rt) as [r rt1]. cbn in Hu'.
    pose proof (auto_test_stop_spec started.1 p rt1 Hu') as Hstop.
    destruct (auto_test_stop lenv started.1 p rt1) as [[x|e] rt2]; [by apply test_result_ready|exact Hstop].
Qed.

Lemma auto_test_each_spec o dns cands : hoare test_ready (auto_test_each lenv o dns cands) test_result.
Proof.
  induction cands as [|p cands IH]; cbn [auto_test_each]; [by intros rt Hr|].
  eapply (hoare_bind _ _ _ (fun x => under_test x.1)).
  { eapply hoare_conseq; [apply auto_test_start_spec|done|]. by intros [x|e] rt Hr. }
  intros started. eapply (hoare_bind _ _ _ (fun _ => test_ready)).
  { eapply hoare_conseq; [apply auto_test_finish_spec|done|]. by intros [x|e] rt Hr. }
  intros result. eapply (hoare_bind _ _ _ (fun _ => test_ready)); [|by intros ? rt Hr].
  eapply hoare_conseq; [apply IH|done|]. by intros [x|e] rt Hr.
Qed.

Lemma steps_group_candidates g c : steps same (group_candidates lenv g c).
Proof. unfold group_candidates. steps_tac. Qed.

Lemma steps_auto_test_group n : steps same (auto_test_group (W := W * list wd_event) n).
Proof. unfold auto_test_group. steps_tac. Qed.
#[local] Hint Resolve steps_group_candidates steps_auto_test_group : steps.

Lemma steps_auto_test_report n g c t : steps same (auto_test_report lenv n g c t).
Proof. unfold auto_test_report. steps_tac. Qed.

(** An auto test makes only safe starts, and one that returns leaves nothing running. *)
Lemma auto_test_spec n : hoare testing_safe (node_group_auto_test lenv n) test_result.
Proof.
  unfold node_group_auto_test. eapply (hoare_bind _ _ _ vouched).
  { eapply hoare_conseq; [apply status_vouched|done|]. by intros [s|e] rt Hr. }
  intros s. eapply (hoare_bind _ _ _ (fun _ => test_ready)).
  { intros rt Hv. unfold liftR. cbn. destruct (auto_test_guard s) as [[]|e] eqn:E; [by eapply guard_idle|apply Hv]. }
  intros _. do 7 (apply test_bind; [steps_tac|]; intros ?).
  eapply (hoare_bind _ _ _ (fun _ => test_ready)).
  { eapply hoare_conseq; [apply auto_test_each_spec|done|]. by intros [x|e] rt Hr. }
  intros t. eapply hoare_conseq; [apply hoare_test_ready, steps_auto_test_report|done|].
  intros r rt. apply test_result_ready.
Qed.
End auto_test.

Section operations_safe.
Context `{PyStr, PySet, PyRegex} {W : Type} (env : WatchdogEnv W).

(** The runtime after an operation, whether it returned or raised *)
Definition run_watchdog_op (op : watchdog_op) (rt : WatchdogRuntime W) : WatchdogRuntime W :=
  match op with
  | OpStartup b => (startup env b rt).2
  | OpConnect p => (connect env p rt).2
  | OpDisconnect => (disconnect env rt).2
  | OpShutdown => (shutdown env rt).2
  | OpRunIteration => (run_iteration env rt).2
  | OpRotateNow b => (rotate_now env b rt).2
  | OpScheduledRotate => (scheduled_rotate env rt).2
  | OpNodeGroupAutoTest group_name => (node_group_auto_test env group_name rt).2
  | OpHealthCheck => (health_check env rt).2
  | OpStatus => (status env rt).2
  end.
End operations_safe.

(** The record says which operation is under way. *)
Definition begin_op {W} (op : watchdog_op) (rt : WatchdogRuntime (W * list wd_event))
  : WatchdogRuntime (W * list wd_event) :=
  set_world ((rt_world rt).1, EvBegin op :: (rt_world rt).2) rt.

(** A sequence of operations with its record *)
Definition run_logged `{PyStr, PySet, PyRegex} {W} (env : WatchdogEnv W) (ops : list watchdog_op)
    (rt : WatchdogRuntime (W * list wd_event)) : WatchdogRuntime (W * list wd_event) :=
  foldl (fun s op => run_watchdog_op (logged_watchdog env) op (begin_op op s)) rt ops.

Section operation_proofs.
Context `{PyStr, PySet, PyRegex} {W : Type} (env : WatchdogEnv W).
Abbreviation lenv := (logged_watchdog env).

#[local] Instance safe_step_preorder' : PreOrder (safe_step env).
Proof. apply safe_step_preorder. Qed.
#[local] Hint Extern 6 (steps (safe_step env) _) => (apply steps_ks_safe; solve [auto 4 with steps]) : steps.
#[local] Hint Resolve steps_try_reconnect steps_run_rotation : steps.

Lemma steps_attempt_rotation c f x : steps (safe_step env) (attempt_rotation lenv c f x).
Proof. unfold attempt_rotation. steps_tac. Qed.
#[local] Hint Resolve steps_attempt_rotation : steps.

Lemma steps_recover_from_failure : steps (safe_step env) (recover_from_failure lenv).
Proof. unfold recover_from_failure. steps_tac. Qed.
#[local] Hint Resolve steps_recover_from_failure : steps.

Lemma steps_run_iteration : steps (safe_step env) (run_iteration lenv).
Proof. unfold run_iteration. steps_tac. Qed.

Lemma steps_rotate_now f : steps (safe_step env) (rotate_now lenv f).
Proof. unfold rotate_now. steps_tac. Qed.

Lemma steps_scheduled_rotate : steps (safe_step env) (scheduled_rotate lenv).
Proof. unfold scheduled_rotate. steps_tac. Qed.

Lemma steps_health_check : steps (safe_step env) (health_check lenv).
Proof. unfold health_check. steps_tac. Qed.

(** Between two operations *)
Definition at_rest (rt : WatchdogRuntime (W * list wd_event)) : Prop :=
  selector_silent (rt_selector rt) ∧ connects_safe env (log rt)
  ∧ ∀ d, live (log rt) = Some d → d = rt_driver rt.

Lemma safe_at_rest rt : runtime_safe env rt → at_rest rt.
Proof. intros (Hs & [_ Hc] & Hl). by split. Qed.

Lemma run_watchdog_op_safe op rt : at_rest rt → at_rest (run_watchdog_op lenv op (begin_op op rt)).
Proof.
  intros (Hs & Hc & Hl).
  destruct (auto_testing [EvBegin op]) eqn:Eop.
  - destruct op as [| | | | | | |n| |]; try done. cbn [run_watchdog_op].
    assert (testing_safe env (begin_op (OpNodeGroupAutoTest n) rt)) as Ht by done.
    pose proof (auto_test_spec env n _ Ht) as Hr.
    destruct (node_group_auto_test lenv n _) as [[x|e] rt']; [destruct Hr as [Hr _]|];
      destruct Hr as ((? & _ & ?) & ?); by split.
  - assert (runtime_safe env (begin_op op rt)) as Hsafe by (split; [done|]; split; [by destruct op|done]).
    apply safe_at_rest. revert Hsafe. destruct op; try done; cbn [run_watchdog_op].
    + apply steps_startup.
    + apply steps_connect.
    + apply steps_disconnect.
    + apply steps_shutdown.
    + apply steps_run_iteration.
    + apply steps_rotate_now.
    + apply steps_scheduled_rotate.
    + apply steps_health_check.
    + intros Hsafe. eapply ks_only_safe; [apply steps_status | exact Hsafe].
Qed.

Lemma run_ops_safe ops rt : at_rest rt → at_rest (run_logged env ops rt).
Proof.
  unfold run_logged. revert rt. induction ops as [|op ops IH]; intros rt Hrt; [done|].
  by apply IH, run_watchdog_op_safe.
Qed.

(** C1: whatever the drivers, the kill switch, the files and the clocks do, raise or answer, no
    sequence of startup, manual connect, disconnect, shutdown, health ticks, rotations, node-group
    auto tests and status requests ever starts a tunnel unsafely: outside auto tests each start
    happens when no driver can still have a tunnel up (the last one started was stopped and
    reported it) and while the kill switch was successfully applied with the endpoints of exactly
    the profile being started; an auto test starts a candidate only when the last driver started
    was stopped or has since reported itself idle, and after the kill switch was last reported
    off and not applied since.  Only the runtime's active driver can have a tunnel, so none is
    ever orphaned.  A replaced driver selector is assumed to make no driver or kill-switch call. *)
Theorem watchdog_starts_are_safe ops (rt : WatchdogRuntime (W * list wd_event)) :
  selector_silent (rt_selector rt) → log rt = [] →
  let rt' := run_logged env ops rt in
  connects_safe env (log rt') ∧ ∀ d, live (log rt') = Some d → d = rt_driver rt'.
Proof.
  intros Hsel Hlog. apply (run_ops_safe ops). split; [done|]. by rewrite Hlog.
Qed.
End operation_proofs.

(** ** A concrete runtime *)
Definition demo_env_ks (on : bool) : WatchdogEnv bool := {|
  we_new_driver := fun c => mret {| d_class := c; d_oid := 1 |};
  we_connect := fun _ _ _ _ _ => (Ok true, true);
  we_disconnect := fun _ _ => (Ok true, false);
  we_health_check := fun _ up => (Ok (if up then "ok" else "down"), up);
  we_status := fun _ up => (Ok (if up then {|
      cs_active_profile_id := "a"; cs_connected_at := None; cs_mode := "sing-box";
      cs_tun_active := true; cs_proxy_active := true; cs_kill_switch_active := true;
      cs_kill_switch_status := "applied"; cs_kill_switch_method := "nft";
      cs_kill_switch_consistent := true; cs_runtime_mismatch_severity := "";
      cs_runtime_artifacts := []; cs_lan_gateway_active := false; cs_lan_gateway_interface := "";
      cs_lan_gateway_client_cidr := ""; cs_lan_gateway_dns_mode := "";
      cs_lan_gateway_status := "disabled"; cs_status := "connected";
      cs_last_failure_reason := ""; cs_last_failure_at := None |}
    else default_ConnectionState "standby" "standby"), up);
  we_declared_capabilities := fun _ => ∅; we_declared_egress_check := fun _ => false;
  we_preflight_management := fun _ => None;
  we_ks_assign := fun _ => mret tt; we_ks_apply_atomic := mret true; we_ks_disable := mret true;
  we_ks_is_active := mret on;
  we_ks_status := mret {| kss_active := Some on; kss_artifacts_present := Some on;
    kss_consistent := Some true; kss_method := "nft"; kss_mismatch_reasons := [] |};
  we_load_snapshot := mret None; we_root_snapshot_exists := mret false;
  we_nm_dns_restore := mret tt; we_restore_state := mret tt; we_unlink_snapshot := mret tt;
  we_load_config := mret []; we_load_dns_policy := mret default_DNSPolicy;
  we_utcnow := mret {| dt_wall := 0; dt_utcoffset := Some 0%Z |};
  we_monotonic := mret 0%Q; we_sleep := fun _ => mret tt;
  we_pool_clock := mret (fun _ => 0%Z); we_chain_clock := mret (fun _ _ => 0%Z);
  we_which_curl := mret true; we_curl := fun _ _ _ => mret (0%Z, 40%Q);
  we_validate_endpoint := fun _ _ => mret tt; we_rule_set_plan := fun _ => mret ([], []);
  we_interface_addresses := fun _ => mret []; we_lan_credentials := mret ("u", "p");
  we_observe := mret {| ob_processes := []; ob_interfaces := []; ob_listener_ports := [];
    ob_routing_artifacts := []; ob_listener_observable := true |};
  we_endpoint_host := fun _ => Ok (Some "192.0.2.1"); we_canonical_ip := Some;
  we_validate_openvpn := fun _ => Ok tt; we_isoformat := fun _ => "1970-01-01T00:00:00+00:00";
  we_fromisoformat := fun _ => None; we_round3 := fun q => q; we_format_1f := fun _ => "1.0";
  we_getuid := 1000 |}.

Definition demo_watchdog_env : WatchdogEnv bool := demo_env_ks true.

Definition demo_runtime {V} (v : V) : WatchdogRuntime V := {|
  rt_driver := {| d_class := SingBoxDriver; d_oid := 0 |}; rt_selector := SelOriginal;
  rt_stores := {| st_providers := []; st_rules := {| rd_groups := []; rd_backups := [] |};
    st_app_policy := Ok (PDict []); st_node_groups := []; st_chains := None |};
  rt_state := FileAbsent; rt_profiles := demo_nodes; rt_engine := RotationEngine_default;
  rt_recovery := Recovery_init (PFloat (Fin 10)) (PFloat (Fin 300)); rt_reconnect_failures := 0;
  rt_forced := false; rt_barrier := false; rt_health_detail := ""; rt_world := v |}.

Definition demo_ops : list watchdog_op :=
  [OpStartup true; OpConnect (demo_node "a" OPENVPN 10); OpRunIteration; OpConnect (demo_node "b" VLESS 90);
   OpRotateNow true].

Lemma watchdog_starts_are_safe_witness :
  let rt' := @run_logged demo_pystr pyset_sorted demo_regex _ demo_watchdog_env demo_ops
               (demo_runtime (false, [])) in
  length (List.filter (fun e => match e with EvDriverConnect _ _ _ => true | _ => false end) (log rt')) = 3%nat
  ∧ connects_safe demo_watchdog_env (log rt') ∧ ∀ d, live (log rt') = Some d → d = rt_driver rt'.
Proof.
  split; [vm_compute; reflexivity|].
  apply (@watchdog_starts_are_safe demo_pystr pyset_sorted demo_regex _ demo_watchdog_env demo_ops
    (demo_runtime (false, []))); [exact I | reflexivity].
Defined.

(** An auto test that runs: the kill switch is off, and the candidates of the group are started,
    measured and stopped one after the other. *)
Definition demo_grouped_runtime {V} (v : V) : WatchdogRuntime V :=
  Build_WatchdogRuntime V {| d_class := SingBoxDriver; d_oid := 0 |} SelOriginal
    {| st_providers := []; st_rules := {| rd_groups := []; rd_backups := [] |};
       st_app_policy := Ok (PDict []); st_node_groups := [NodeGroup_to_dict demo_group]; st_chains := None |}
    FileAbsent demo_nodes RotationEngine_default
    (Recovery_init (PFloat (Fin 10)) (PFloat (Fin 300))) 0 false false "" v.

Definition is_driver_event (e : wd_event) : bool :=
  match e with EvDriverConnect _ _ _ | EvDriverDisconnect _ _ => true | _ => false end.

Lemma auto_test_runs :
  let rt' := @run_logged demo_pystr pyset_sorted demo_regex _ (demo_env_ks false)
               [OpNodeGroupAutoTest (ng_name demo_group)] (demo_grouped_runtime (false, [])) in
  length (List.filter is_driver_event (log rt')) = 4%nat ∧ running (log rt') = None
  ∧ connects_safe (demo_env_ks false) (log rt') ∧ ∀ d, live (log rt') = Some d → d = rt_driver rt'.
Proof.
  split; [vm_compute; reflexivity|]. split; [vm_compute; reflexivity|].
  apply (@run_ops_safe demo_pystr pyset_sorted demo_regex _ (demo_env_ks false)
    [OpNodeGroupAutoTest (ng_name demo_group)] (demo_grouped_runtime (false, []))). by split.
Qed.
