(* ===== verification/WatchdogLifecycle.v ===== *)
(** * The persistent lifecycle of the watchdog

    What the operations of [Watchdog] do to the persistent state: the user's desired state, the
    active profile and the recorded failure, abstracted from state.toml by [view].  The theorems
    hold over every implementation of the interface. *)
From stdpp Require Import base list strings gmap pretty sorting.
From Stdlib Require Import Ascii QArith.
From S2P Require Import Prelude Steps PyData Profiles Rotation Recovery NodeGroups Dns RouteChains AppPolicy Rules RuleStore StateManager WatchdogPolicy Health Watchdog WatchdogSafety.

(** ** The abstract state *)
Record lifecycle : Type := {
  lc_desired : string;
  lc_active : string;
  lc_reason : string
}.

Definition lifecycle_of (s : pydict pyval) : lifecycle := {|
  lc_desired := state_str "vpn_desired_state" s; lc_active := state_str "active_profile_id" s;
  lc_reason := state_str "last_failure_reason" s |}.

Definition view {W} (rt : WatchdogRuntime W) : option lifecycle :=
  match StateManager_load (rt_state rt) with Ok s => Some (lifecycle_of s) | Err _ => None end.

(** Writing one field *)
Definition lc_set (k x : string) (v : lifecycle) : lifecycle := {|
  lc_desired := if String.eqb k "vpn_desired_state" then x else lc_desired v;
  lc_active := if String.eqb k "active_profile_id" then x else lc_active v;
  lc_reason := if String.eqb k "last_failure_reason" then x else lc_reason v |}.

Section lifecycle.
Context `{PyStr, PySet, PyRegex} {W : Type} (env : WatchdogEnv W).
Abbreviation RT := (WatchdogRuntime W).

Lemma set_free f s k x :
  StateManager_load f = Ok s → free_update k x →
  ∃ f', StateManager_set k (PStr x) f = (Ok tt, f') ∧ StateManager_load f' = Ok (dict_set k (PStr x) s).
Proof.
  intros Hl Hk. destruct (load_shape f s Hl) as (r & -> & Hok).
  destruct (free_update_keeps_ok k x r Hk Hok) as (r' & Hr' & Hok' & Hne).
  exists (FileTable (state_dict r')). rewrite (set_run k _ f _ Hl Hne), Hr', validate_state_ok by done.
  split; [done|]. by apply validate_state_ok.
Qed.

Lemma lifecycle_of_set k x s : lifecycle_of (dict_set k (PStr x) s) = lc_set k x (lifecycle_of s).
Proof.
  unfold lifecycle_of, lc_set, state_str. rewrite !dict_get_set. f_equal; cbn [lc_desired lc_active lc_reason];
    rewrite String.eqb_sym; by destruct (String.eqb k _).
Qed.

Lemma sm_set_view (rt : RT) v k x :
  view rt = Some v → free_update k x →
  ∃ f', sm_set k x rt = (Ok tt, set_state f' rt) ∧ view (set_state f' rt) = Some (lc_set k x v).
Proof.
  unfold view. intros Hv Hk. destruct (StateManager_load (rt_state rt)) as [s|] eqn:Hl; [|done].
  injection Hv as <-. destruct (set_free _ _ _ _ Hl Hk) as (f' & Hs & Hl'). exists f'.
  unfold sm_set. rewrite Hs. split; [done|]. cbn. by rewrite Hl', lifecycle_of_set.
Qed.

(** ** Methods that leave the state file alone *)
Definition keeps_state (rt rt' : RT) : Prop := rt_state rt' = rt_state rt.

#[export] Instance keeps_state_preorder : PreOrder keeps_state.
Proof. split; [intros rt; done|]. intros r1 r2 r3. unfold keeps_state. congruence. Qed.

Lemma steps_io_state {A} (m : PyM W A) : steps keeps_state (io m).
Proof. intros rt. unfold io. by destruct (m (rt_world rt)). Qed.

Lemma steps_profiles_state {A} (m : PyM (list Profile) A) : steps keeps_state (on_profiles (W := W) m).
Proof. intros rt. unfold on_profiles. by destruct (m (rt_profiles rt)). Qed.
#[local] Hint Resolve steps_io_state steps_profiles_state : steps.
#[local] Hint Extern 2 (steps keeps_state (update _)) => (apply steps_modify; intros ?; unfold keeps_state; reflexivity) : steps.

Lemma state_active_profile : steps keeps_state (active_profile (W := W)).
Proof. unfold active_profile, sm_get. steps_tac. Qed.

Lemma state_driver_status : steps keeps_state (driver_status env).
Proof. unfold driver_status. steps_tac. Qed.

Lemma state_configure_ks c p : steps keeps_state (configure_kill_switch env c p).
Proof. unfold configure_kill_switch. steps_tac. Qed.
#[local] Hint Resolve state_active_profile state_driver_status state_configure_ks : steps.

Lemma state_protection p : steps keeps_state (apply_desired_on_protection env p).
Proof. unfold apply_desired_on_protection. steps_tac. Qed.

Lemma state_manual_disconnect_ks : steps keeps_state (handle_manual_disconnect_kill_switch env).
Proof. unfold handle_manual_disconnect_kill_switch. steps_tac. Qed.

Lemma state_restore_dns : steps keeps_state (restore_dns_snapshot_if_present env).
Proof. unfold restore_dns_snapshot_if_present. steps_tac. Qed.
#[local] Hint Resolve state_protection state_manual_disconnect_ks state_restore_dns : steps.

Lemma state_candidate p : steps keeps_state (candidate_driver_for_profile env p).
Proof. unfold candidate_driver_for_profile, pick_driver. steps_tac. Qed.
#[local] Hint Resolve state_candidate : steps.

Lemma state_chain_plans l d c plans : steps keeps_state (chain_plans env l d c plans).
Proof. revert plans. induction l; intros; cbn [chain_plans]; steps_tac. Qed.

Lemma state_lan_proxy : steps keeps_state (lan_proxy_runtime_config env).
Proof. unfold lan_proxy_runtime_config. steps_tac. Qed.

Lemma state_lan_gateway m : steps keeps_state (lan_gateway_runtime_config env m).
Proof. unfold lan_gateway_runtime_config. steps_tac. Qed.
#[local] Hint Resolve state_chain_plans state_lan_proxy state_lan_gateway : steps.

Lemma state_connect_options : steps keeps_state (connect_options env).
Proof. unfold connect_options, chain_runtime_plans, sm_load. steps_tac. Qed.
#[local] Hint Resolve state_connect_options : steps.

Lemma state_prepare p : steps keeps_state (prepare_driver_for_connection env p).
Proof.
  unfold prepare_driver_for_connection, driver_policy_contract_for_profile, runtime_policy_capabilities,
    endpoint_preflight, endpoint_policy_fakeip_allowlist, sm_load. steps_tac.
Qed.

Lemma state_record_health p s l : steps keeps_state (record_health_result env p s l).
Proof. unfold record_health_result. steps_tac. Qed.
#[local] Hint Resolve state_prepare state_record_health : steps.

Lemma state_checked p b : steps keeps_state (checked_and_recorded env p b).
Proof. unfold checked_and_recorded. steps_tac. Qed.

Lemma state_driver_connect d p o : steps keeps_state (driver_connect env d p o).
Proof. unfold driver_connect. steps_tac. Qed.
#[local] Hint Resolve state_checked state_driver_connect : steps.
End lifecycle.

#[export] Hint Resolve steps_io_state steps_profiles_state state_active_profile state_driver_status
  state_configure_ks state_protection state_manual_disconnect_ks state_restore_dns state_candidate
  state_prepare state_record_health state_checked state_driver_connect : steps.
#[export] Hint Extern 2 (steps keeps_state (update _)) =>
  (apply steps_modify; intros ?; unfold keeps_state; reflexivity) : steps.

(** ** Triples over the abstract state *)
Section triples.
Context `{PyStr, PySet, PyRegex} {W : Type} (env : WatchdogEnv W).
Abbreviation RT := (WatchdogRuntime W).

Definition at_ (v : lifecycle) (rt : RT) : Prop := view rt = Some v.

(** A postcondition on normal returns *)
Definition returns {A} (Q : A → RT → Prop) (r : res A) (rt : RT) : Prop :=
  match r with Ok a => Q a rt | Err _ => True end.

Lemma hoare_returns_bind {A B} (P : RT → Prop) (m : PyM RT A) (f : A → PyM RT B) (R : A → RT → Prop)
    (Q : B → RT → Prop) :
  hoare P m (returns R) → (∀ a, hoare (R a) (f a) (returns Q)) → hoare P (m ≫= f) (returns Q).
Proof. intros Hm Hf. eapply hoare_bind; [eapply hoare_conseq; [exact Hm|done|]; by intros [a|e]|done]. Qed.

Lemma keeps_state_view rt rt' v : keeps_state (W := W) rt rt' → at_ v rt → at_ v rt'.
Proof. unfold at_, view, keeps_state. by intros ->. Qed.

(** A method that leaves the state file alone *)
Lemma hoare_frame_bind {A B} v (m : PyM RT A) (f : A → PyM RT B) (Q : B → RT → Prop) :
  steps keeps_state m → (∀ a, hoare (at_ v) (f a) (returns Q)) → hoare (at_ v) (m ≫= f) (returns Q).
Proof.
  intros Hm Hf. eapply (hoare_returns_bind _ _ _ (fun _ => at_ v)); [|done].
  intros rt Hv. specialize (Hm rt). apply (keeps_state_view _ _ v) in Hm; [|done].
  by destruct (m rt) as [[a|e] rt'].
Qed.

(** A write of a field the runtime owns *)
Lemma hoare_set_bind {A} v k x (f : unit → PyM RT A) (Q : A → RT → Prop) :
  free_update k x → hoare (at_ (lc_set k x v)) (f tt) (returns Q) →
  hoare (at_ v) (sm_set k x ≫= f) (returns Q).
Proof.
  intros Hk Hf rt Hv. destruct (sm_set_view rt v k x Hv Hk) as (f' & Hs & Hv').
  unfold mbind, pym_bind. rewrite Hs. by apply Hf.
Qed.

Lemma free_reason x : free_update "last_failure_reason" x.
Proof. left. by apply str_in_spec. Qed.

Lemma free_at x : free_update "last_failure_at" x.
Proof. left. by apply str_in_spec. Qed.

Lemma free_active x : free_update "active_profile_id" x.
Proof. left. by apply str_in_spec. Qed.

Lemma free_desired x : x ∈ ["on"; "off"] → free_update "vpn_desired_state" x.
Proof. intros Hx. by right. Qed.

Lemma lc_set_at x v : lc_set "last_failure_at" x v = v.
Proof. by destruct v. Qed.

(** The recorded failure changes even when the clock raises afterwards. *)
Lemma record_failure_spec v reason :
  hoare (at_ v) (record_last_failure env reason)
    (fun _ rt => at_ (lc_set "last_failure_reason" reason v) rt).
Proof.
  intros rt Hv. unfold record_last_failure.
  destruct (sm_set_view rt v _ _ Hv (free_reason reason)) as (f' & Hs & Hv').
  unfold mbind at 1, pym_bind at 1. rewrite Hs. unfold mbind, pym_bind.
  pose proof (steps_io_state (we_utcnow env) (set_state f' rt)) as Hio.
  destruct (io (we_utcnow env) (set_state f' rt)) as [[now|e] rt1]; cbn in Hio |- *;
    apply (keeps_state_view (set_state f' rt) rt1) in Hv' as Hv1; [|done| |done]; [|done].
  destruct (sm_set_view rt1 _ _ _ Hv1 (free_at (we_isoformat env now))) as (f'' & Hs2 & Hv2).
  rewrite Hs2. by rewrite lc_set_at in Hv2.
Qed.

Lemma clear_failure_bind {A} v (f : unit → PyM RT A) (Q : A → RT → Prop) :
  hoare (at_ (lc_set "last_failure_reason" "" v)) (f tt) (returns Q) →
  hoare (at_ v) (clear_last_failure ≫= f) (returns Q).
Proof.
  intros Hf rt Hv. unfold clear_last_failure.
  destruct (sm_set_view rt v _ _ Hv (free_reason "")) as (f' & Hs & Hv').
  destruct (sm_set_view _ _ _ _ Hv' (free_at "")) as (f'' & Hs2 & Hv2). rewrite lc_set_at in Hv2.
  unfold mbind, pym_bind. rewrite Hs, Hs2. by apply Hf.
Qed.

Definition cleanup_barrier (v : lifecycle) (rt : RT) : Prop :=
  at_ (lc_set "last_failure_reason" "cleanup_failed" v) rt ∧ rt_barrier rt = true.

Lemma record_keeps_barrier reason rt : rt_barrier (record_last_failure env reason rt).2 = rt_barrier rt.
Proof.
  unfold record_last_failure, mbind, pym_bind, sm_set, io.
  destruct (StateManager_set _ _ _) as [[[]|] f]; [|done].
  destruct (we_utcnow env _) as [[now|] w]; [|done]. by destruct (StateManager_set _ _ _).
Qed.

Lemma teardown_view v :
  hoare (at_ v) (teardown_active_driver env)
    (returns (fun (b : bool) rt => if b then at_ v rt ∧ rt_barrier rt = false else cleanup_barrier v rt)).
Proof.
  unfold teardown_active_driver. apply hoare_frame_bind; [steps_tac|]. intros d.
  apply hoare_frame_bind; [apply steps_try; [typeclasses eauto| |]; intros; [apply steps_io_state|steps_tac]|].
  intros []; [done|]. intros rt Hv. cbn [mbind pym_bind update modifyS].
  assert (at_ v (set_barrier_failed true rt)) as Hv' by done.
  pose proof (record_failure_spec v "cleanup_failed" _ Hv') as Hr.
  pose proof (record_keeps_barrier "cleanup_failed" (set_barrier_failed true rt)) as Hb.
  unfold mbind, pym_bind. cbn. destruct (record_last_failure env "cleanup_failed" _) as [[u|e] rt']; [|done].
  by split.
Qed.
End triples.

(** ** Manual connect and disconnect *)
Section manual.
Context `{PyStr, PySet, PyRegex} {W : Type} (env : WatchdogEnv W).
Abbreviation RT := (WatchdogRuntime W).

Definition clean_standby (reason : string) : lifecycle :=
  {| lc_desired := "off"; lc_active := ""; lc_reason := reason |}.

Definition wanted (id : string) (v : lifecycle) : lifecycle :=
  {| lc_desired := "on"; lc_active := id; lc_reason := lc_reason v |}.

Lemma lc_clean reason v :
  lc_set "last_failure_reason" reason (lc_set "active_profile_id" "" (lc_set "vpn_desired_state" "off" v))
  = clean_standby reason.
Proof. done. Qed.

Lemma standby_after_teardown {A} v (f : unit → PyM RT A) (Q : A → RT → Prop) :
  hoare (at_ (lc_set "active_profile_id" "" (lc_set "vpn_desired_state" "off" v))) (f tt) (returns Q) →
  hoare (at_ v)
    (_ ← handle_manual_disconnect_kill_switch env; _ ← restore_dns_snapshot_if_present env;
     _ ← sm_set "vpn_desired_state" "off"; u ← sm_set "active_profile_id" ""; f u) (returns Q).
Proof.
  intros Hf. apply hoare_frame_bind; [steps_tac|]. intros _. apply hoare_frame_bind; [steps_tac|]. intros _.
  apply hoare_set_bind; [apply free_desired; by apply str_in_spec|].
  apply hoare_set_bind; [apply free_active|]. done.
Qed.

Lemma teardown_bind {A} v (f : bool → PyM RT A) (Q : A → RT → Prop) :
  hoare (fun rt => at_ v rt ∧ rt_barrier rt = false) (f true) (returns Q) →
  hoare (cleanup_barrier v) (f false) (returns Q) →
  hoare (at_ v) (teardown_active_driver env ≫= f) (returns Q).
Proof.
  intros Ht Hf. eapply hoare_returns_bind; [apply teardown_view|]. by intros [].
Qed.

Lemma activate_view_bind {A} v d (f : Driver → PyM RT A) (Q : A → RT → Prop) :
  (∀ d', hoare (at_ v) (f d') (returns Q)) → hoare (at_ v) (activate_driver env d true ≫= f) (returns Q).
Proof.
  intros Hf. eapply (hoare_returns_bind _ _ _ (fun _ => at_ v)); [|done].
  unfold activate_driver. apply teardown_bind; cbn [negb].
  - intros rt [Hv _]. exact Hv.
  - intros rt _. done.
Qed.

Lemma fail_manual_connect_view v :
  hoare (at_ v) (fail_manual_connect env)
    (returns (fun b rt => b = false ∧ (at_ (clean_standby "connect_failed") rt ∨ cleanup_barrier v rt))).
Proof.
  unfold fail_manual_connect. apply teardown_bind; cbn [negb].
  2: { intros rt Hb. cbn. auto. }
  eapply hoare_conseq; [|by intros rt [Hv _]|intros r rt Hr; exact Hr].
  apply (standby_after_teardown v (fun _ => _ ← record_last_failure env "connect_failed"; mret false)).
  eapply (hoare_returns_bind _ _ _ (fun _ => at_ (clean_standby "connect_failed"))).
  - eapply hoare_conseq; [apply record_failure_spec|done|]. intros [u|e] rt Hr; [|done]. cbn.
    by rewrite lc_clean in Hr.
  - intros _ rt Hr. cbn. auto.
Qed.

(** The states a manual connect can end in *)
Definition connect_post (id : string) (v : lifecycle) (connected : bool) (rt : RT) : Prop :=
  if connected then at_ {| lc_desired := "on"; lc_active := id; lc_reason := "" |} rt
  else at_ v rt ∨ at_ (clean_standby "connect_failed") rt ∨ cleanup_barrier (wanted id v) rt.

Lemma failed_connect_post id v :
  hoare (at_ (wanted id v)) (fail_manual_connect env) (returns (connect_post id v)).
Proof.
  eapply hoare_conseq; [apply fail_manual_connect_view|done|]. intros [b|e] rt Hr; [|done].
  destruct Hr as [-> Hr]. cbn. tauto.
Qed.

Lemma connect_returns p v : hoare (at_ v) (connect env p) (returns (connect_post (p_id p) v)).
Proof.
  unfold connect. apply hoare_frame_bind; [steps_tac|]. intros _.
  apply hoare_frame_bind; [steps_tac|]. intros prepared. apply activate_view_bind. intros d.
  apply hoare_frame_bind; [unfold protect_connection_attempt; steps_tac|].
  intros []; cbn [negb]; [|intros rt0 Hv; cbn; auto].
  apply hoare_set_bind; [apply free_desired; by apply str_in_spec|].
  apply hoare_set_bind; [apply free_active|].
  change (lc_set "active_profile_id" (p_id p) (lc_set "vpn_desired_state" "on" v)) with (wanted (p_id p) v).
  apply hoare_frame_bind; [steps_tac|]. intros []; cbn [negb]; [|apply failed_connect_post].
  apply hoare_frame_bind; [steps_tac|]. intros d'. apply hoare_frame_bind; [steps_tac|].
  intros []; cbn [negb]; [|apply failed_connect_post].
  apply clear_failure_bind. apply hoare_frame_bind; [steps_tac|]. intros _ rt0 Hv. exact Hv.
Qed.

(** *** Calls that raise *)
(** A postcondition on exceptions *)
Definition raises {A} (E : RT → Prop) (r : res A) (rt : RT) : Prop :=
  match r with Ok _ => True | Err _ => E rt end.

Lemma hoare_raises_bind {A B} (P : RT → Prop) (m : PyM RT A) (f : A → PyM RT B) (R : A → RT → Prop)
    (E : RT → Prop) :
  hoare P m (raises E) → hoare P m (returns R) → (∀ a, hoare (R a) (f a) (raises E)) →
  hoare P (m ≫= f) (raises E).
Proof.
  intros He Hr Hf rt Hrt. specialize (He rt Hrt). specialize (Hr rt Hrt). unfold mbind, pym_bind.
  destruct (m rt) as [[a|e] rt']; [by apply Hf|exact He].
Qed.

Lemma raises_frame_bind {A B} v (m : PyM RT A) (f : A → PyM RT B) (E : RT → Prop) :
  steps keeps_state m → (∀ rt, at_ v rt → E rt) → (∀ a, hoare (at_ v) (f a) (raises E)) →
  hoare (at_ v) (m ≫= f) (raises E).
Proof.
  intros Hm HE Hf rt Hv. specialize (Hm rt). apply (keeps_state_view _ _ v) in Hm; [|done].
  unfold mbind, pym_bind. destruct (m rt) as [[a|e] rt']; [by apply Hf|by apply HE].
Qed.

Lemma raises_set_bind {A} v k x (f : unit → PyM RT A) (E : RT → Prop) :
  free_update k x → hoare (at_ (lc_set k x v)) (f tt) (raises E) →
  hoare (at_ v) (sm_set k x ≫= f) (raises E).
Proof.
  intros Hk Hf rt Hv. destruct (sm_set_view rt v k x Hv Hk) as (f' & Hs & Hv').
  unfold mbind, pym_bind. rewrite Hs. by apply Hf.
Qed.

Lemma raises_clear_bind {A} v (f : unit → PyM RT A) (E : RT → Prop) :
  hoare (at_ (lc_set "last_failure_reason" "" v)) (f tt) (raises E) →
  hoare (at_ v) (clear_last_failure ≫= f) (raises E).
Proof.
  intros Hf rt Hv. destruct (sm_set_view rt v _ _ Hv (free_reason "")) as (f' & Hs & Hv').
  destruct (sm_set_view _ _ _ _ Hv' (free_at "")) as (f'' & Hs2 & Hv2). rewrite lc_set_at in Hv2.
  unfold clear_last_failure, mbind, pym_bind. rewrite Hs, Hs2. by apply Hf.
Qed.

Lemma raises_ret {A} (P E : RT → Prop) (a : A) : hoare P (mret a) (raises E).
Proof. by intros rt _. Qed.

(** A teardown raises only while recording its own failure. *)
Lemma teardown_raises v : hoare (at_ v) (teardown_active_driver env) (raises (cleanup_barrier v)).
Proof.
  unfold teardown_active_driver. eapply (hoare_raises_bind _ _ _ (fun _ => at_ v)); [by intros rt ?..|].
  intros d. eapply (hoare_raises_bind _ _ _ (fun _ => at_ v)).
  - intros rt _. unfold try_except, any_exn. by destruct (io _ rt) as [[b|e] rt1].
  - intros rt Hv. pose proof (steps_io_state (we_disconnect env d) rt) as Hio. unfold try_except, any_exn.
    destruct (io _ rt) as [[b|e] rt1]; exact (keeps_state_view rt rt1 v Hio Hv).
  - intros []; [by intros rt _|]. intros rt Hv.
    pose proof (record_failure_spec env v "cleanup_failed" (set_barrier_failed true rt) Hv) as Hr.
    pose proof (record_keeps_barrier env "cleanup_failed" (set_barrier_failed true rt)) as Hb.
    unfold mbind, pym_bind. cbn in *. destruct (record_last_failure env "cleanup_failed" _) as [[u|x] rt'];
      [exact I|exact (conj Hr Hb)].
Qed.

Lemma raises_teardown_bind {A} v (f : bool → PyM RT A) (E : RT → Prop) :
  (∀ rt, cleanup_barrier v rt → E rt) →
  hoare (fun rt => at_ v rt ∧ rt_barrier rt = false) (f true) (raises E) →
  hoare (cleanup_barrier v) (f false) (raises E) →
  hoare (at_ v) (teardown_active_driver env ≫= f) (raises E).
Proof.
  intros HE Ht Hf. eapply hoare_raises_bind; [|apply teardown_view|by intros []].
  eapply hoare_conseq; [apply teardown_raises|done|]. intros [b|e] rt Hr; [done|by apply HE].
Qed.

(** The states a manual connect that raises can leave: nothing persistent changed; the cleanup
    barrier, from before or after the profile was written; the VPN desired with the new profile
    and the old failure record; or the clean standby, when only the last timestamp is missing *)
Definition connect_raised (id : string) (v : lifecycle) (rt : RT) : Prop :=
  at_ v rt ∨ cleanup_barrier v rt ∨ at_ (wanted id v) rt ∨ cleanup_barrier (wanted id v) rt
  ∨ at_ (clean_standby "connect_failed") rt.

Lemma fail_manual_connect_raises id v :
  hoare (at_ (wanted id v)) (fail_manual_connect env) (raises (connect_raised id v)).
Proof.
  unfold fail_manual_connect. apply raises_teardown_bind; cbn [negb]; [unfold connect_raised; tauto| |apply raises_ret].
  eapply hoare_conseq; [|by intros rt [Hv _]|intros r rt Hr; exact Hr].
  do 2 (apply raises_frame_bind; [steps_tac|unfold connect_raised; tauto|]; intros _).
  apply raises_set_bind; [apply free_desired; by apply str_in_spec|].
  apply raises_set_bind; [apply free_active|].
  intros rt Hv. pose proof (record_failure_spec env _ "connect_failed" rt Hv) as Hr. rewrite lc_clean in Hr.
  unfold mbind, pym_bind. destruct (record_last_failure env "connect_failed" rt) as [[u|e] rt']; [done|].
  do 4 right. exact Hr.
Qed.

Lemma connect_raises p v : hoare (at_ v) (connect env p) (raises (connect_raised (p_id p) v)).
Proof.
  unfold connect. do 2 (apply raises_frame_bind; [steps_tac|unfold connect_raised; tauto|]; intros ?).
  eapply (hoare_raises_bind _ _ _ (fun _ => at_ v)).
  { unfold activate_driver. apply raises_teardown_bind; cbn [negb]; [unfold connect_raised; tauto|by intros rt _|].
    intros rt Hb. right; left. exact Hb. }
  { unfold activate_driver. apply teardown_bind; cbn [negb]; [by intros rt [Hv _]|by intros rt _]. }
  intros d. apply raises_frame_bind; [unfold protect_connection_attempt; steps_tac|unfold connect_raised; tauto|].
  intros []; cbn [negb]; [|apply raises_ret].
  apply raises_set_bind; [apply free_desired; by apply str_in_spec|].
  apply raises_set_bind; [apply free_active|].
  change (lc_set "active_profile_id" (p_id p) (lc_set "vpn_desired_state" "on" v)) with (wanted (p_id p) v).
  apply raises_frame_bind; [steps_tac|unfold connect_raised; tauto|].
  intros []; cbn [negb]; [|apply fail_manual_connect_raises].
  do 2 (apply raises_frame_bind; [steps_tac|unfold connect_raised; tauto|]; intros ?).
  destruct (negb _); [apply fail_manual_connect_raises|].
  apply raises_clear_bind. by intros rt _.
Qed.

(** C6: with writes of the state file that succeed, a manual connect that returns ends in one of
    four states and no other.  True: the VPN is desired on, the profile is the active one and no
    failure is recorded.  False: either nothing persistent changed (the kill switch could not be
    installed, before anything else was touched), or the clean standby with the VPN desired off,
    no active profile and the failure recorded, so no background loop retries it, or the teardown
    of the failed tunnel is itself unproven, which is recorded as the cleanup barrier.  One that
    raises leaves nothing changed, the cleanup barrier, the clean standby, or (when the driver,
    the health check or the lifting of the kill switch raised) the VPN still desired on with the
    new profile and no new failure recorded. *)
Theorem manual_connect_outcome p v (rt : RT) r rt' :
  view rt = Some v → connect env p rt = (r, rt') →
  match r with
  | Ok connected => connect_post (p_id p) v connected rt'
  | Err _ => connect_raised (p_id p) v rt'
  end.
Proof.
  intros Hv Hc. pose proof (connect_returns p v rt Hv) as Hr. pose proof (connect_raises p v rt Hv) as He.
  rewrite Hc in Hr, He. by destruct r.
Qed.


End manual.

Lemma manual_connect_outcome_witness :
  ∃ rt', @connect demo_pystr pyset_sorted demo_regex _ demo_watchdog_env (demo_node "b" VLESS 90)
           (demo_runtime false) = (Ok true, rt')
  ∧ view rt' = Some {| lc_desired := "on"; lc_active := "b"; lc_reason := "" |}.
Proof.
  eexists. split; [vm_compute; reflexivity|].
  apply (@manual_connect_outcome demo_pystr pyset_sorted demo_regex _ demo_watchdog_env (demo_node "b" VLESS 90)
    {| lc_desired := "off"; lc_active := ""; lc_reason := "" |} (demo_runtime false) (Ok true)).
  - reflexivity.
  - vm_compute; reflexivity.
Defined.



(** ** Shutdown, and what the desired state forbids *)
Lemma state_shutdown `{PyStr} {W} (env : WatchdogEnv W) : steps keeps_state (shutdown env).
Proof. unfold shutdown. steps_tac. Qed.

Section desired_state.
Context `{PyStr, PySet, PyRegex} {W : Type} (env : WatchdogEnv W).
Abbreviation lenv := (logged_watchdog env).
Abbreviation LRT := (WatchdogRuntime (W * list wd_event)).

(** The user wants the VPN, or the state file cannot say otherwise. *)
Definition wants_vpn (f : state_file) : Prop :=
  match StateManager_load f with
  | Ok s => state_str "vpn_desired_state" s = "on"
  | Err e => store_error e = true
  end.

Lemma get_desired f :
  StateManager_get "vpn_desired_state" (PStr "off") f
  = match StateManager_load f with
    | Ok s => Ok (PStr (state_str "vpn_desired_state" s))
    | Err e => Err e
    end.
Proof.
  unfold StateManager_get. destruct (StateManager_load f) as [s|] eqn:El; [|done].
  by destruct (load_shape f s El) as (r & -> & _).
Qed.

Lemma shutdown_desired f :
  wants_vpn f →
  match StateManager_get "vpn_desired_state" (PStr "off") f with
  | Ok v => mret (String.eqb (py_str v) "on")
  | Err e => if store_error e then mret true else liftR (Err e)
  end = (mret true : PyM LRT bool).
Proof.
  unfold wants_vpn. rewrite get_desired. destruct (StateManager_load f) as [s|e]; intros Hw.
  - cbn [py_str]. by rewrite Hw.
  - by rewrite Hw.
Qed.

#[local] Hint Extern 6 (steps keeps_policy _) => (apply steps_same_policy; solve [auto 4 with steps]) : steps.

Lemma hoare_pure {A} (P : LRT → Prop) (φ : Prop) (m : PyM LRT A) (Q : res A → LRT → Prop) :
  (φ → hoare P m Q) → hoare (fun rt => P rt ∧ φ) m Q.
Proof. intros Hm rt [Hrt Hphi]. by apply Hm. Qed.

(** If [ok], the kill switch is in force. *)
Definition sealed_if (ok : bool) (rt : LRT) : Prop :=
  selector_silent (rt_selector rt) ∧ (ok = true → is_Some (protecting (log rt))).

Lemma hoare_sealed {A} ok (m : PyM LRT A) : steps keeps_policy m → hoare (sealed_if ok) m (fun _ => sealed_if ok).
Proof.
  intros Hm. apply (steps_hoare keeps_policy); [done|]. intros rt rt' Hk [Hs Hp].
  destruct (Hk Hs) as [Hs' He]. split; [done|]. by rewrite He.
Qed.

Lemma shutdown_protection :
  hoare (fun rt : LRT => selector_silent (rt_selector rt))
    (try_except (profile ← active_profile; apply_desired_on_protection lenv profile) any_exn (fun _ => mret false))
    (fun r rt => match r with Ok ok => sealed_if ok rt | Err _ => False end).
Proof.
  intros rt Hsel. unfold try_except, any_exn.
  assert (steps ks_only (profile ← active_profile; apply_desired_on_protection lenv profile)) as Hks by steps_tac.
  destruct (Hks rt Hsel) as (_ & Hsel' & _).
  pose proof (hoare_any_bind active_profile (fun profile => apply_desired_on_protection lenv profile)
    (fun b rt => b = true → is_Some (protecting (log rt)))) as Hp.
  assert (∀ p, hoare (fun _ => True) (apply_desired_on_protection lenv p)
    (on_ok (fun b rt => b = true → is_Some (protecting (log rt))))) as Hp1.
  { intros p. eapply hoare_conseq; [apply apply_protection_protects|done|].
    intros [b|e] rt' Hr; [|done]. intros ->. destruct (Hr eq_refl) as (e & _ & He). by exists e. }
  specialize (Hp Hp1 rt I). destruct ((profile ← active_profile; apply_desired_on_protection lenv profile) rt)
    as [[ok|e] rt']; cbn in *; (split; [exact Hsel'|]); [exact Hp|intros Hx; discriminate Hx].
Qed.

(** C9: shutting down never changes the user's desired state, on any outcome, and a shutdown that
    reports success while the VPN is desired (or the state is unreadable) leaves the kill switch
    in force: applied successfully, and neither disabled nor reconfigured afterwards, so traffic
    stays blocked until the next start. *)
Theorem shutdown_fail_closed (rt : LRT) :
  selector_silent (rt_selector rt) →
  rt_state (shutdown lenv rt).2 = rt_state rt
  ∧ (wants_vpn (rt_state rt) → (shutdown lenv rt).1 = Ok true →
       is_Some (protecting (log (shutdown lenv rt).2))).
Proof.
  intros Hsel. split; [apply state_shutdown|]. intros Hw.
  enough (hoare (fun rt => selector_silent (rt_selector rt) ∧ wants_vpn (rt_state rt)) (shutdown lenv)
    (fun r rt => r = Ok true → is_Some (protecting (log rt)))) as Hh by by apply Hh.
  unfold shutdown. apply hoare_gets_bind. intros f.
  apply (hoare_conseq _ (fun rt => selector_silent (rt_selector rt) ∧ wants_vpn f) _ _
    (fun r rt => r = Ok true → is_Some (protecting (log rt)))); [|intros rt0 [[? ?] <-]; done|done].
  apply hoare_pure. intros Hwf. rewrite (shutdown_desired f Hwf).
  eapply (hoare_bind _ _ _ (fun (b : bool) rt => b = true ∧ selector_silent (rt_selector rt)));
    [by intros rt0 Hs0|]. intros b. apply (hoare_conseq _ (fun rt => selector_silent (rt_selector rt) ∧ b = true)
    _ _ (fun r rt => r = Ok true → is_Some (protecting (log rt)))); [|by intros rt0 [-> ?]|done].
  apply hoare_pure. intros ->. eapply (hoare_bind _ _ _ sealed_if).
  - eapply hoare_conseq; [apply shutdown_protection|done|]. by intros [ok|e] rt0.
  - intros ok. apply hoare_gets_bind. intros d.
    apply (hoare_conseq _ (sealed_if ok) _ _ (fun r rt => r = Ok true → is_Some (protecting (log rt))));
      [|by intros rt0 [? _]|done].
    eapply (hoare_bind _ _ _ (fun _ => sealed_if ok)).
    + eapply hoare_conseq; [apply (hoare_sealed ok)|done|by intros [x|e] rt0 Hr].
      apply steps_finally; [typeclasses eauto| |steps_tac].
      apply steps_try; [typeclasses eauto|apply steps_disconnect_policy|intros e; steps_tac].
    + intros x rt0 [_ Hp]. cbn. intros [= ->]. by apply Hp.
Qed.

(** ** Standby *)
Definition standby : ConnectionState := default_ConnectionState "standby" "standby".

(** The user does not want the VPN, or the state file cannot be read. *)
Definition stands_by (f : state_file) : Prop :=
  match StateManager_load f with
  | Ok s => state_str "vpn_desired_state" s = "off"
  | Err e => store_error e = true
  end.

Lemma loaded_desired {V} (rt : WatchdogRuntime V) s :
  StateManager_load (rt_state rt) = Ok s →
  py_str (dict_get_or "vpn_desired_state" (PStr "off") s) = state_str "vpn_desired_state" s.
Proof. intros Hl. by destruct (load_shape _ s Hl) as (r & -> & _). Qed.

Lemma stands_by_disabled {V} (rt : WatchdogRuntime V) b :
  stands_by (rt_state rt) → automatic_actions_enabled b rt = (Ok false, rt).
Proof.
  unfold stands_by. intros Hs. unfold automatic_actions_enabled, mbind, pym_bind, gets.
  destruct (StateManager_load (rt_state rt)) as [s|e] eqn:El; [|by rewrite Hs].
  by rewrite (loaded_desired rt s El), Hs.
Qed.

(** The answer of a scheduled rotation: the last failure when it is one of the two that keep a
    startup without autoconnect from cleaning up, and standby otherwise *)
Definition disabled_answer (f : state_file) : ConnectionState :=
  match StateManager_load f with
  | Ok s => let reason := state_str "last_failure_reason" s in
            if bool_decide (reason = "dns_restore_failed" ∨ reason = "kill_switch_disable_failed")
            then default_ConnectionState reason "standby" else standby
  | Err _ => standby
  end.

Lemma disabled_state_answer {V} (rt : WatchdogRuntime V) :
  stands_by (rt_state rt) → automatic_disabled_state rt = (Ok (disabled_answer (rt_state rt)), rt).
Proof.
  unfold stands_by, disabled_answer, automatic_disabled_state, mbind, pym_bind, gets, StateManager_get.
  intros Hs. destruct (StateManager_load (rt_state rt)) as [s|e] eqn:El; cbn [mbind res_bind]; [|by rewrite Hs].
  destruct (load_shape _ s El) as (r & -> & _).
  set (reason := state_str "last_failure_reason" (state_dict r)).
  change (py_str _) with reason. case_bool_decide as Hb.
  - destruct Hb as [-> | ->]; reflexivity.
  - replace (str_in reason _) with false; [done|]. symmetry. apply not_true_iff_false. intros Hin%str_in_spec.
    apply Hb. set_solver.
Qed.

(** C8: while the VPN is desired off, or the state file is unreadable or invalid, the automatic
    paths are inert: a health tick, a rotation request, a startup and a health query answer
    standby, and a scheduled rotation answers standby or, when the recorded failure is a failed
    DNS restore or a kill switch that could not be disabled, that failure as its status; none of
    them calls a driver, the kill switch or anything else, and none changes anything. *)
Theorem desired_off_is_inert {V} (wenv : WatchdogEnv V) (rt : WatchdogRuntime V) force protect :
  stands_by (rt_state rt) →
  run_iteration wenv rt = (Ok standby, rt)
  ∧ rotate_now wenv force rt = (Ok standby, rt)
  ∧ startup wenv protect rt = (Ok standby, rt)
  ∧ health_check wenv rt = (Ok "standby", rt)
  ∧ scheduled_rotate wenv rt = (Ok (disabled_answer (rt_state rt)), rt).
Proof.
  intros Hs. unfold run_iteration, rotate_now, health_check, scheduled_rotate.
  assert (∀ A b (f : bool → PyM (WatchdogRuntime V) A), (automatic_actions_enabled b ≫= f) rt = f false rt) as Hf.
  { intros A b f. unfold mbind, pym_bind. by rewrite (stands_by_disabled rt b Hs). }
  rewrite !Hf. cbn [negb]. do 2 (split; [done|]). split; [|split; [done|by apply disabled_state_answer]].
  unfold startup, mbind, pym_bind, gets. unfold stands_by in Hs.
  destruct (StateManager_load (rt_state rt)) as [s|e] eqn:El; [|by rewrite Hs].
  by rewrite (loaded_desired rt s El), Hs.
Qed.

(** ** Autoconnect off *)
Lemma autoconnect_flag {V} (rt : WatchdogRuntime V) s :
  StateManager_load (rt_state rt) = Ok s →
  dict_get "vpn_autoconnect_enabled" s = Some (PBool false) →
  autoconnect_enabled rt = (Ok false, rt) ∧ automatic_actions_enabled true rt = (Ok false, rt)
  ∧ ∃ b, automatic_actions_enabled false rt = (Ok b, rt).
Proof.
  intros Hl Ha. unfold autoconnect_enabled, automatic_actions_enabled, mbind, pym_bind, gets, StateManager_get.
  rewrite Hl. cbn [mbind res_bind]. unfold dict_get_or. rewrite Ha. split; [done|].
  destruct (String.eqb _ "off"); [by eauto|]. destruct (String.eqb _ "on"); by eauto.
Qed.

(** with autoconnect off, nothing runs behind the user's back: a health tick, a scheduled
    rotation and a startup never start, stop or replace a driver; all they may touch is the kill
    switch (the tick to keep it in force, the startup to lift it), so recovering a lost tunnel
    is left to the user. *)
Theorem autoconnect_off_never_starts (rt : LRT) s protect :
  StateManager_load (rt_state rt) = Ok s →
  dict_get "vpn_autoconnect_enabled" s = Some (PBool false) →
  ks_only rt (run_iteration lenv rt).2
  ∧ same rt (scheduled_rotate lenv rt).2
  ∧ ks_only rt (startup lenv protect rt).2.
Proof.
  intros Hl Ha. destruct (autoconnect_flag rt s Hl Ha) as (Hauto & Hact & b & Hb). split; [|split].
  - unfold run_iteration. unfold mbind at 1, pym_bind at 1. rewrite Hb.
    destruct b; cbn [negb]; [|by apply steps_same_ks, steps_standby_state].
    unfold mbind at 1, pym_bind at 1. rewrite Hauto. cbn [negb].
    match goal with |- ks_only rt (?m rt).2 => enough (steps ks_only m) as Hm by apply Hm end.
    steps_tac.
  - unfold scheduled_rotate, mbind, pym_bind. rewrite Hact. cbn [negb]. apply steps_automatic_disabled_state.
  - unfold startup. unfold mbind at 1, pym_bind at 1, gets at 1. rewrite Hl. cbn zeta.
    match goal with |- ks_only rt (?m rt).2 => enough (steps ks_only m) as Hm by apply Hm end.
    destruct (String.eqb _ "off"); [steps_tac|]. destruct (negb (String.eqb _ "on")); [steps_tac|].
    apply steps_bind; [typeclasses eauto|steps_tac|]. intros profile.
    unfold dict_get_or. rewrite Ha. cbn [flag_of negb]. steps_tac.
Qed.
End desired_state.

(** The VPN is desired, autoconnect is off *)
Definition demo_on_file : state_file :=
  FileTable [("vpn_desired_state", PStr "on"); ("active_profile_id", PStr "b")].

Definition demo_on_state : pydict pyval :=
  match StateManager_load demo_on_file with Ok s => s | Err _ => [] end.

Definition demo_on_runtime : WatchdogRuntime (bool * list wd_event) :=
  set_state demo_on_file (demo_runtime (true, [])).

Lemma shutdown_fail_closed_witness :
  let out := @shutdown demo_pystr _ (logged_watchdog demo_watchdog_env) demo_on_runtime in
  out.1 = Ok true ∧ is_Some (protecting (log out.2)).
Proof.
  split; [vm_compute; reflexivity|].
  apply (@shutdown_fail_closed demo_pystr _ demo_watchdog_env demo_on_runtime I); vm_compute; reflexivity.
Defined.

Lemma desired_off_is_inert_witness :
  @run_iteration demo_pystr pyset_sorted demo_regex _ demo_watchdog_env (demo_runtime true)
  = (Ok standby, demo_runtime true).
Proof.
  apply (@desired_off_is_inert demo_pystr pyset_sorted demo_regex _ demo_watchdog_env (demo_runtime true) false false).
  reflexivity.
Defined.

Lemma autoconnect_off_never_starts_witness :
  ks_only demo_on_runtime
    (@run_iteration demo_pystr pyset_sorted demo_regex _ (logged_watchdog demo_watchdog_env) demo_on_runtime).2.
Proof.
  assert (StateManager_load (rt_state demo_on_runtime) = Ok demo_on_state) as Hl by (vm_compute; reflexivity).
  assert (dict_get "vpn_autoconnect_enabled" demo_on_state = Some (PBool false)) as Ha by (vm_compute; reflexivity).
  exact (proj1 (@autoconnect_off_never_starts demo_pystr pyset_sorted demo_regex _ demo_watchdog_env demo_on_runtime
    demo_on_state true Hl Ha)).
Defined.
