(* ===== verification/KillSwitch.v ===== *)
(** * The firewall kill switch

    core/kill_switch.py: the nftables and iptables commands of the policy, their batch
    script, the inspection of the installed rules and the operations of [KillSwitch].  Command
    execution and [shutil.which] are an environment over an abstract world; the listings they
    return are parsed as the code parses them.  Log messages are not modelled. *)
From stdpp Require Import base list strings pretty.
From Stdlib Require Import Ascii ZArith.
From S2P Require Import Prelude PyData PyText.

Definition WATCHDOGVPN_TABLE : string := "watchdogvpn".
Definition WATCHDOGVPN_CHAIN : string := "output".
Definition WATCHDOGVPN_CAPTURE_GUARD_CHAIN : string := "capture_postrouting".
Definition WATCHDOGVPN_IPTABLES_CHAIN : string := "WATCHDOGVPN-OUTPUT".
Definition WATCHDOGVPN_COMMENT : string := "WatchdogVPN kill switch".
Definition dquote : string := String "034" "".
Definition WATCHDOGVPN_NFT_COMMENT : string := dquote +:+ WATCHDOGVPN_COMMENT +:+ dquote.
Definition SING_BOX_CAPTURE_MARK : string := "0x2023".
Definition SING_BOX_OUTBOUND_MARK : string := "0x2024".
Definition SING_BOX_TUN_DNS_ENDPOINTS : list string := ["172.19.0.2"].
Definition DEFAULT_LAN_CIDRS : list string :=
  ["10.0.0.0/8"; "172.16.0.0/12"; "192.168.0.0/16"; "169.254.0.0/16"].
Definition LOOPBACK_CIDRS : list string := ["127.0.0.0/8"; "::1/128"].

Record CommandResult : Type := { cr_returncode : Z; cr_stdout : string; cr_stderr : string }.

Record KillSwitchStatus : Type := {
  kst_available : bool;
  kst_artifacts_present : bool;
  kst_active : bool;
  kst_method : option string;
  kst_rules_applied : bool;
  kst_consistent : bool;
  kst_mismatch_reasons : list string;
  kst_tunnel_interface : string;
  kst_block_ipv6 : bool;
  kst_allow_lan : bool;
  kst_allowed_endpoints : list string;
  kst_direct_egress_uid : option Z
}.

Record FirewallState : Type := {
  fs_method : string;
  fs_artifacts_present : bool;
  fs_active : bool;
  fs_consistent : bool;
  fs_mismatch_reasons : list string
}.

(** [_FirewallState(method=m)] *)
Definition no_firewall (m : string) : FirewallState := {|
  fs_method := m; fs_artifacts_present := false; fs_active := false; fs_consistent := true;
  fs_mismatch_reasons := []
|}.

(** The data fields of [KillSwitch]; its callables are [KillSwitchEnv]. *)
Record KillSwitch : Type := {
  ks_tunnel_interface : string;
  ks_block_ipv6 : bool;
  ks_allow_lan : bool;
  ks_allowed_endpoints : list string;
  ks_direct_egress_uid : option Z;
  ks_lan_cidrs : list string;
  ks_method : option string
}.

Definition default_kill_switch : KillSwitch := {|
  ks_tunnel_interface := "wdvpn-tun0"; ks_block_ipv6 := true; ks_allow_lan := true;
  ks_allowed_endpoints := []; ks_direct_egress_uid := None; ks_lan_cidrs := DEFAULT_LAN_CIDRS;
  ks_method := None
|}.

Definition set_method (m : option string) (k : KillSwitch) : KillSwitch := {|
  ks_tunnel_interface := ks_tunnel_interface k; ks_block_ipv6 := ks_block_ipv6 k;
  ks_allow_lan := ks_allow_lan k; ks_allowed_endpoints := ks_allowed_endpoints k;
  ks_direct_egress_uid := ks_direct_egress_uid k; ks_lan_cidrs := ks_lan_cidrs k;
  ks_method := m
|}.

(** ** nftables rules *)
Definition nft_rule_in_chain (chain : string) (match_tokens : list string) (verdict : string)
    : list string :=
  ["nft"; "add"; "rule"; "inet"; WATCHDOGVPN_TABLE; chain] ++ match_tokens
  ++ ["counter"; verdict; "comment"; WATCHDOGVPN_NFT_COMMENT].

Definition nft_rule (match_tokens : list string) (verdict : string) : list string :=
  nft_rule_in_chain WATCHDOGVPN_CHAIN match_tokens verdict.

(** [ip_address(e)] for the endpoints that parse *)
Definition parsed_endpoints (k : KillSwitch) : list IpAddress :=
  omap ip_address (ks_allowed_endpoints k).

Definition nft_family (a : IpAddress) : string := if (ip_version a =? 6)%Z then "ip6" else "ip".

Definition nft_lan_rules (k : KillSwitch) : list (list string) :=
  map (fun cidr => nft_rule ["ip"; "daddr"; cidr] "accept") (ks_lan_cidrs k).

Definition nft_loopback_destination_rules : list (list string) :=
  map (fun cidr => nft_rule [if contains ":" cidr then "ip6" else "ip"; "daddr"; cidr] "accept")
    LOOPBACK_CIDRS.

Definition nft_endpoint_rules (k : KillSwitch) : list (list string) :=
  map (fun a => nft_rule [nft_family a; "daddr"; ip_text a] "accept") (parsed_endpoints k).

Definition direct_egress_match (uid : Z) : list string :=
  ["meta"; "skuid"; pretty uid; "meta"; "mark"; SING_BOX_OUTBOUND_MARK].

Definition nft_direct_egress_rules (k : KillSwitch) : list (list string) :=
  match ks_direct_egress_uid k with
  | None => []
  | Some uid => [nft_rule (direct_egress_match uid) "accept"]
  end.

Definition nft_internal_dns_rules : list (list string) :=
  flat_map (fun endpoint =>
    map (fun protocol => nft_rule ["ip"; "daddr"; endpoint; protocol; "dport"; "53"] "accept")
      ["udp"; "tcp"]) SING_BOX_TUN_DNS_ENDPOINTS.

Definition nft_dns_leak_block_rules : list (list string) :=
  map (fun port => nft_rule ["udp"; "dport"; pretty port] "reject") [53; 853]%Z
  ++ map (fun port => nft_rule ["tcp"; "dport"; pretty port] "reject") [53; 853]%Z.

Definition nft_capture_egress_rules : list (list string) :=
  [nft_rule ["meta"; "mark"; SING_BOX_CAPTURE_MARK] "accept"].

Definition nft_capture_guard_rules (k : KillSwitch) : list (list string) :=
  [ nft_rule_in_chain WATCHDOGVPN_CAPTURE_GUARD_CHAIN
      ["meta"; "mark"; SING_BOX_CAPTURE_MARK; "oifname"; ks_tunnel_interface k] "accept";
    nft_rule_in_chain WATCHDOGVPN_CAPTURE_GUARD_CHAIN
      ["meta"; "mark"; SING_BOX_CAPTURE_MARK] "drop" ].

Definition nft_terminal_drop_rules : list (list string) :=
  map (fun protocol => nft_rule ["meta"; "l4proto"; protocol] "drop")
    ["tcp"; "udp"; "icmp"; "ipv6-icmp"]
  ++ [nft_rule [] "drop"].

Definition nft_chain_command (chain hook policy : string) : list string :=
  ["nft"; "add"; "chain"; "inet"; WATCHDOGVPN_TABLE; chain; "{"; "type"; "filter"; "hook"; hook;
   "priority"; "0;"; "policy"; policy; "}"].

Definition nft_enable_commands (k : KillSwitch) : list (list string) :=
  [["nft"; "add"; "table"; "inet"; WATCHDOGVPN_TABLE];
   nft_chain_command WATCHDOGVPN_CHAIN "output" "drop;";
   nft_chain_command WATCHDOGVPN_CAPTURE_GUARD_CHAIN "postrouting" "accept;"]
  ++ nft_capture_guard_rules k
  ++ [nft_rule ["oifname"; "lo"] "accept"]
  ++ nft_loopback_destination_rules
  ++ [nft_rule ["oifname"; ks_tunnel_interface k] "accept"]
  ++ nft_direct_egress_rules k
  ++ nft_endpoint_rules k
  ++ nft_internal_dns_rules
  ++ nft_dns_leak_block_rules
  ++ nft_capture_egress_rules
  ++ [nft_rule ["ct"; "state"; "established,related"] "accept"]
  ++ (if ks_allow_lan k then nft_lan_rules k else [])
  ++ (if negb (ks_block_ipv6 k) then [nft_rule ["ip6"; "daddr"; "::/0"] "accept"] else [])
  ++ nft_terminal_drop_rules.

(** The class of [r"[A-Za-z0-9_./:@,+-]+"] *)
Definition plain_char (c : ascii) : bool :=
  char_in 48 57 c || char_in 65 90 c || char_in 97 122 c
  || existsb (Ascii.eqb c) ["_"; "."; "/"; ":"; "@"; ","; "+"; "-"]%char.

Definition nft_batch_token (token : string) : string :=
  if str_in token ["{"; "}"] || endswith ";" token || String.eqb token WATCHDOGVPN_NFT_COMMENT
  then token
  else if truthy_str token && forall_chars plain_char token then token
  else dquote +:+ replace_char "034" ("\" +:+ dquote) (replace_char "\" "\\" token) +:+ dquote.

Definition nft_batch_line (command : list string) : string :=
  join " " (map nft_batch_token (drop 1 command)).

Definition nft_batch_script (commands : list (list string)) : string :=
  join (String newline "") (map nft_batch_line commands) +:+ String newline "".

(** ** iptables rules *)
Definition managed_comment : list string := ["-m"; "comment"; "--comment"; WATCHDOGVPN_COMMENT].

(** [tokens.index(x)] of a token that is present *)
Fixpoint index_of (x : string) (l : list string) : nat :=
  match l with
  | [] => 0
  | y :: l' => if String.eqb y x then 0 else S (index_of x l')
  end.

Definition iptables_rule_command (binary : string) (tokens : list string) : list string :=
  let verdict_index := index_of "-j" tokens in
  [binary; "-A"; WATCHDOGVPN_IPTABLES_CHAIN] ++ take verdict_index tokens ++ managed_comment
  ++ drop verdict_index tokens.

(** The commands that are written out as [-A chain <match> -m comment ... -j <target>] *)
Definition iptables_append (binary : string) (match_tokens : list string) (target : string)
    : list string :=
  [binary; "-A"; WATCHDOGVPN_IPTABLES_CHAIN] ++ match_tokens ++ managed_comment ++ ["-j"; target].

Definition iptables_direct_egress_rules (k : KillSwitch) (binary : string) : list (list string) :=
  match ks_direct_egress_uid k with
  | None => []
  | Some uid =>
      [iptables_rule_command binary
         ["-m"; "owner"; "--uid-owner"; pretty uid; "-m"; "mark"; "--mark"; SING_BOX_OUTBOUND_MARK;
          "-j"; "ACCEPT"]]
  end.

Definition iptables_lan_rules (k : KillSwitch) (binary : string) : list (list string) :=
  map (fun cidr => iptables_append binary ["-d"; cidr] "ACCEPT") (ks_lan_cidrs k).

Definition iptables_endpoint_rules (k : KillSwitch) : list (list string) :=
  flat_map (fun a =>
    if negb (ip_version a =? 4)%Z then [] else [iptables_append "iptables" ["-d"; ip_text a] "ACCEPT"])
    (parsed_endpoints k).

Definition ip6tables_endpoint_rules (k : KillSwitch) : list (list string) :=
  flat_map (fun a =>
    if negb (ip_version a =? 6)%Z then [] else [iptables_append "ip6tables" ["-d"; ip_text a] "ACCEPT"])
    (parsed_endpoints k).

Definition iptables_internal_dns_rules (binary : string) : list (list string) :=
  flat_map (fun endpoint =>
    match ip_address endpoint with
    | None => []
    | Some a =>
        if String.eqb binary "iptables" && negb (ip_version a =? 4)%Z then []
        else if String.eqb binary "ip6tables" && negb (ip_version a =? 6)%Z then []
        else map (fun protocol =>
               iptables_append binary ["-d"; ip_text a; "-p"; protocol; "--dport"; "53"] "ACCEPT")
               ["udp"; "tcp"]
    end) SING_BOX_TUN_DNS_ENDPOINTS.

Definition iptables_dns_leak_block_rules (binary : string) : list (list string) :=
  flat_map (fun protocol =>
    map (fun port => iptables_append binary ["-p"; protocol; "--dport"; port] "REJECT")
      ["53"; "853"]) ["udp"; "tcp"].

Definition iptables_established (binary : string) : list string :=
  iptables_append binary ["-m"; "conntrack"; "--ctstate"; "ESTABLISHED,RELATED"] "ACCEPT".

Definition ip6tables_enable_commands (k : KillSwitch) : list (list string) :=
  [["ip6tables"; "-N"; WATCHDOGVPN_IPTABLES_CHAIN];
   iptables_append "ip6tables" ["-o"; "lo"] "ACCEPT";
   iptables_append "ip6tables" ["-d"; "::1/128"] "ACCEPT";
   iptables_append "ip6tables" ["-o"; ks_tunnel_interface k] "ACCEPT"]
  ++ iptables_direct_egress_rules k "ip6tables"
  ++ ip6tables_endpoint_rules k
  ++ iptables_internal_dns_rules "ip6tables"
  ++ iptables_dns_leak_block_rules "ip6tables"
  ++ [iptables_established "ip6tables"]
  ++ [iptables_append "ip6tables" [] "REJECT";
      ["ip6tables"; "-I"; "OUTPUT"; "-j"; WATCHDOGVPN_IPTABLES_CHAIN]].

(** The list [commands] of [_enable_iptables] before the IPv6 part *)
Definition iptables_enable_commands (k : KillSwitch) : list (list string) :=
  [["iptables"; "-N"; WATCHDOGVPN_IPTABLES_CHAIN];
   iptables_append "iptables" ["-o"; "lo"] "ACCEPT";
   iptables_append "iptables" ["-d"; "127.0.0.0/8"] "ACCEPT";
   iptables_append "iptables" ["-o"; ks_tunnel_interface k] "ACCEPT"]
  ++ iptables_direct_egress_rules k "iptables"
  ++ iptables_endpoint_rules k
  ++ iptables_internal_dns_rules "iptables"
  ++ iptables_dns_leak_block_rules "iptables"
  ++ [iptables_established "iptables"]
  ++ (if ks_allow_lan k then iptables_lan_rules k "iptables" else [])
  ++ [iptables_append "iptables" [] "REJECT";
      ["iptables"; "-I"; "OUTPUT"; "-j"; WATCHDOGVPN_IPTABLES_CHAIN]].

Definition expected_iptables_commands (k : KillSwitch) (binary : string) : list (list string) :=
  let loopback := if String.eqb binary "ip6tables" then "::1/128" else "127.0.0.0/8" in
  [iptables_rule_command binary ["-o"; "lo"; "-j"; "ACCEPT"];
   iptables_rule_command binary ["-d"; loopback; "-j"; "ACCEPT"];
   iptables_rule_command binary ["-o"; ks_tunnel_interface k; "-j"; "ACCEPT"]]
  ++ iptables_direct_egress_rules k binary
  ++ (if String.eqb binary "ip6tables" then ip6tables_endpoint_rules k else iptables_endpoint_rules k)
  ++ iptables_internal_dns_rules binary
  ++ iptables_dns_leak_block_rules binary
  ++ [iptables_rule_command binary
        ["-m"; "conntrack"; "--ctstate"; "ESTABLISHED,RELATED"; "-j"; "ACCEPT"]]
  ++ (if String.eqb binary "iptables" && ks_allow_lan k then iptables_lan_rules k binary else [])
  ++ [iptables_rule_command binary ["-j"; "REJECT"]].

Definition expected_iptables_rules (k : KillSwitch) (binary : string)
    : list (string * list string) :=
  imap (fun i command =>
          ("missing_managed_rule:" +:+ binary +:+ "/" +:+ pretty i, drop 3 command))
    (expected_iptables_commands k binary).

(** ** Inspection of the listings *)

(** [\bchain\s+<name>\s*\{(?P<body>.*?)^\s*\}] with MULTILINE and DOTALL *)
Definition chain_pattern (name : string) : list ritem :=
  [RWordB] ++ rlit "chain" ++ rplus is_space ++ rlit name ++ [RStar is_space] ++ rlit "{"
  ++ [ROpen; RLazy (fun _ => true); RClose; RLineStart; RStar is_space] ++ rlit "}".

(** [\b<first>\s+<second>\b] *)
Definition two_words (first second : string) : list ritem :=
  [RWordB] ++ rlit first ++ rplus is_space ++ rlit second ++ [RWordB].

(** [\b0x0*([0-9a-fA-F]+)\b] *)
Definition hex_mark_pattern : list ritem :=
  [RWordB] ++ rlit "0x" ++ [RStar (Ascii.eqb "0"); ROpen] ++ rplus is_hex ++ [RClose; RWordB].

Definition hex_mark_text (digits : string) : string :=
  "0x" +:+ hex_text (default 0%Z (option_map fst (base_digits 16 false 0 0 digits))).

Definition normalized_nft_line (line : string) : string :=
  re_sub hex_mark_pattern hex_mark_text (join " " (py_split (replace_char "034" "" line))).

Definition managed_nft_rule_lines (chain : string) : list string :=
  List.filter (contains ("comment " +:+ WATCHDOGVPN_COMMENT))
    (map normalized_nft_line (splitlines chain)).

Definition nft_rule_present (lines : list string) (match_tokens : list string) (verdict : string)
    : bool :=
  existsb (fun line => contains (join " " match_tokens) line
                       && contains (" " +:+ verdict +:+ " comment ") (" " +:+ line +:+ " ")) lines.

Definition expected_nft_rule_count (k : KillSwitch) : Z :=
  19 + py_len (parsed_endpoints k)
  + (match ks_direct_egress_uid k with Some _ => 1 | None => 0 end)
  + (if ks_allow_lan k then py_len (ks_lan_cidrs k) else 0)
  + (if negb (ks_block_ipv6 k) then 1 else 0).

(** The dict [checks] of [_inspect_nftables], in the order of its assignments *)
Definition nft_checks (k : KillSwitch) (chain guard_chain : string) (managed_lines guard_lines : list string)
    : list (string * bool) :=
  [ ("missing_output_hook", re_found (two_words "hook" "output") chain);
    ("missing_drop_policy", re_found (two_words "policy" "drop") chain);
    ("missing_loopback_allow", nft_rule_present managed_lines ["oifname"; "lo"] "accept");
    ("missing_loopback_ipv4_allow", nft_rule_present managed_lines ["ip"; "daddr"; "127.0.0.0/8"] "accept");
    ("missing_loopback_ipv6_allow", nft_rule_present managed_lines ["ip6"; "daddr"; "::1"] "accept");
    ("missing_tunnel_allow", nft_rule_present managed_lines ["oifname"; ks_tunnel_interface k] "accept");
    ("missing_capture_output_allow",
      nft_rule_present managed_lines ["meta"; "mark"; SING_BOX_CAPTURE_MARK] "accept");
    ("missing_capture_guard_hook", re_found (two_words "hook" "postrouting") guard_chain);
    ("missing_capture_guard_accept_policy", re_found (two_words "policy" "accept") guard_chain);
    ("missing_capture_guard_tunnel_allow",
      nft_rule_present guard_lines
        ["meta"; "mark"; SING_BOX_CAPTURE_MARK; "oifname"; ks_tunnel_interface k] "accept");
    ("missing_capture_guard_drop",
      nft_rule_present guard_lines ["meta"; "mark"; SING_BOX_CAPTURE_MARK] "drop");
    ("missing_established_allow",
      nft_rule_present managed_lines ["ct"; "state"; "established,related"] "accept");
    ("missing_terminal_drop",
      existsb (fun line => startswith "counter " line
                           && contains " drop comment " (" " +:+ line +:+ " ")) managed_lines) ]
  ++ (match ks_direct_egress_uid k with
      | Some uid =>
          [("missing_direct_egress_allow:" +:+ pretty uid,
            nft_rule_present managed_lines (direct_egress_match uid) "accept")]
      | None => []
      end)
  ++ map (fun a => ("missing_endpoint_allow:" +:+ ip_text a,
                    nft_rule_present managed_lines [nft_family a; "daddr"; ip_text a] "accept"))
       (parsed_endpoints k)
  ++ flat_map (fun endpoint =>
       map (fun protocol =>
              ("missing_internal_dns_allow:" +:+ endpoint +:+ "/" +:+ protocol,
               nft_rule_present managed_lines ["ip"; "daddr"; endpoint; protocol; "dport"; "53"] "accept"))
         ["udp"; "tcp"]) SING_BOX_TUN_DNS_ENDPOINTS
  ++ flat_map (fun protocol =>
       map (fun port => ("missing_dns_reject:" +:+ protocol +:+ "/" +:+ port,
                         nft_rule_present managed_lines [protocol; "dport"; port] "reject"))
         ["53"; "853"]) ["udp"; "tcp"]
  ++ (if ks_allow_lan k then
        map (fun cidr => ("missing_lan_allow:" +:+ cidr,
                          nft_rule_present managed_lines ["ip"; "daddr"; cidr] "accept")) (ks_lan_cidrs k)
      else [])
  ++ (if negb (ks_block_ipv6 k)
      then [("missing_ipv6_allow", nft_rule_present managed_lines ["ip6"; "daddr"; "::/0"] "accept")] else [])
  ++ map (fun protocol => ("missing_terminal_drop:" +:+ protocol,
                           nft_rule_present managed_lines ["meta"; "l4proto"; protocol] "drop"))
       ["tcp"; "udp"; "icmp"; "ipv6-icmp"].

(** [[reason for reason, passed in checks.items() if not passed]] *)
Definition failed_checks (checks : list (string * bool)) : list string :=
  map fst (List.filter (fun c => negb c.2) (dict_update [] checks)).

(** [_inspect_nftables] on the result of the [nft list table] command *)
Definition nft_state_of_listing (k : KillSwitch) (result : CommandResult) : FirewallState :=
  if negb (cr_returncode result =? 0)%Z then no_firewall "nftables" else
  let output := cr_stdout result in
  let chain := default "" (re_search (chain_pattern WATCHDOGVPN_CHAIN) output) in
  let guard_chain := default "" (re_search (chain_pattern WATCHDOGVPN_CAPTURE_GUARD_CHAIN) output) in
  let active := re_found (two_words "hook" "output") chain && re_found (two_words "policy" "drop") chain in
  let managed_lines := managed_nft_rule_lines chain in
  let guard_lines := managed_nft_rule_lines guard_chain in
  let managed_rule_count := (py_len managed_lines + py_len guard_lines)%Z in
  let expected := expected_nft_rule_count k in
  let reasons := failed_checks (nft_checks k chain guard_chain managed_lines guard_lines)
                 ++ (if negb (managed_rule_count =? expected)%Z
                     then ["managed_rule_count:" +:+ pretty managed_rule_count +:+ "/" +:+ pretty expected]
                     else []) in
  {| fs_method := "nftables"; fs_artifacts_present := true; fs_active := active;
     fs_consistent := active && bool_decide (reasons = []); fs_mismatch_reasons := reasons |}.

(** One pass of [_canonicalize_iptables_tokens]: the token after each [key] is rewritten;
    [prev] is the token before [l] in the list as it was. *)
Fixpoint rewrite_after (key : string) (f : string → string) (prev : string) (l : list string)
    : list string :=
  match l with
  | [] => []
  | x :: l' => (if String.eqb prev key then f x else x) :: rewrite_after key f x l'
  end.

Definition canonical_destination (value : string) : string :=
  match ip_address value with
  | None => value
  | Some a => ip_text a +:+ "/" +:+ (if (ip_version a =? 4)%Z then "32" else "128")
  end.

Definition canonical_mark (value : string) : string :=
  match py_int0 (nth 0 (split_on "/" value) "") with
  | None => value
  | Some n => "0x" +:+ hex_text n
  end.

Definition canonicalize_iptables_tokens (tokens : list string) : list string :=
  rewrite_after "--mark" canonical_mark "" (rewrite_after "-d" canonical_destination "" tokens).

Definition iptables_chain_rules (output : string) : list (list string) :=
  omap (fun line =>
    match shlex_split line with
    | None => None
    | Some tokens =>
        if bool_decide (take 2 tokens = ["-A"; WATCHDOGVPN_IPTABLES_CHAIN])
        then Some (canonicalize_iptables_tokens (drop 2 tokens)) else None
    end) (splitlines output).

(** [all(any(token == candidate for candidate in iterator) for token in expected)] *)
Fixpoint consumes (expected actual : list string) : bool :=
  match actual with
  | [] => match expected with [] => true | _ => false end
  | c :: actual' =>
      match expected with
      | [] => true
      | t :: expected' => if String.eqb t c then consumes expected' actual' else consumes expected actual'
      end
  end.

Definition iptables_rule_contains (actual expected : list string) : bool :=
  consumes (canonicalize_iptables_tokens expected) actual.

Definition iptables_rule_matches_expected (actual expected : list string) : bool :=
  let canonical_expected := canonicalize_iptables_tokens expected in
  if bool_decide (take 2 canonical_expected = ["-m"; "comment"])
  then bool_decide (take (length canonical_expected) actual = canonical_expected)
  else iptables_rule_contains actual canonical_expected.

(** [_inspect_iptables_family] on the results of its two commands *)
Definition iptables_family_state (k : KillSwitch) (binary : string) (chain_result jump_result : CommandResult)
    : FirewallState :=
  let has_chain := (cr_returncode chain_result =? 0)%Z in
  let has_jump := (cr_returncode jump_result =? 0)%Z in
  if negb (has_chain || has_jump) then no_firewall binary else
  let output := if has_chain then cr_stdout chain_result else "" in
  let actual_rules := iptables_chain_rules output in
  let expected_rules := expected_iptables_rules k binary in
  let missing_rules :=
    map fst (List.filter (fun e => negb (existsb (fun rule => iptables_rule_matches_expected rule e.2)
                                           actual_rules)) expected_rules) in
  let terminal_rule := managed_comment ++ ["-j"; "REJECT"] in
  let has_terminal_reject :=
    existsb (fun rule => bool_decide (take (length terminal_rule) rule = terminal_rule)) actual_rules in
  let active := has_chain && has_jump && has_terminal_reject in
  let reasons :=
    failed_checks [("missing_managed_chain", has_chain); ("missing_output_jump", has_jump);
                   ("missing_terminal_reject", has_terminal_reject)]
    ++ missing_rules
    ++ (if negb (py_len actual_rules =? py_len expected_rules)%Z
        then ["managed_rule_count:" +:+ pretty (py_len actual_rules) +:+ "/" +:+ pretty (py_len expected_rules)]
        else []) in
  {| fs_method := binary; fs_artifacts_present := true; fs_active := active;
     fs_consistent := active && bool_decide (reasons = []); fs_mismatch_reasons := reasons |}.

(** ** The operations *)

(** [runner], [nft_batch_runner] and [which] *)
Record KillSwitchEnv (W : Type) : Type := {
  ke_run : list string → PyM W CommandResult;
  ke_nft_batch : string → PyM W CommandResult;
  ke_which : string → PyM W (option string)
}.
Arguments ke_run {W} _ _ _.
Arguments ke_nft_batch {W} _ _ _.
Arguments ke_which {W} _ _ _.

Section operations.
Context {W : Type} (env : KillSwitchEnv W).

Definition KM (A : Type) : Type := PyM (KillSwitch * W) A.

Definition on_world {A} (m : PyM W A) : KM A := fun '(k, w) =>
  let '(r, w') := m w in (r, (k, w')).

Definition self : KM KillSwitch := gets fst.
Definition assign_method (m : option string) : KM unit := modifyS (fun '(k, w) => (set_method m k, w)).

Definition run (command : list string) : KM CommandResult := on_world (ke_run env command).

(** [bool(self.which(name))] *)
Definition which (name : string) : KM bool :=
  found ← on_world (ke_which env name);
  mret (match found with Some p => truthy_str p | None => false end).

Definition detect_method : KM (option string) :=
  nft ← which "nft";
  if nft : bool then mret (Some "nftables") else
  iptables ← which "iptables";
  mret (if iptables : bool then Some "iptables" else None).

(** [self.method or self.detect_method()] *)
Definition chosen_method : KM (option string) :=
  k ← self;
  match ks_method k with
  | Some m => if truthy_str m then mret (Some m) else detect_method
  | None => detect_method
  end.

(** Both only look at the return code. *)
Definition run_optional (command : list string) : KM bool :=
  result ← run command; mret (cr_returncode result =? 0)%Z.
Definition run_required (command : list string) : KM bool :=
  result ← run command; mret (cr_returncode result =? 0)%Z.

Definition inspect_nftables : KM FirewallState :=
  k ← self;
  result ← run ["nft"; "list"; "table"; "inet"; WATCHDOGVPN_TABLE];
  mret (nft_state_of_listing k result).

Definition inspect_iptables_family (binary : string) : KM FirewallState :=
  k ← self;
  chain_result ← run [binary; "-S"; WATCHDOGVPN_IPTABLES_CHAIN];
  jump_result ← run [binary; "-C"; "OUTPUT"; "-j"; WATCHDOGVPN_IPTABLES_CHAIN];
  mret (iptables_family_state k binary chain_result jump_result).

(** [block_ipv6 and which("ip6tables")] and [block_ipv6 and not which("ip6tables")] *)
Definition ipv6_backend (wanted : bool) : KM bool :=
  k ← self;
  if ks_block_ipv6 k then found ← which "ip6tables"; mret (Bool.eqb found wanted) else mret false.

Definition inspect_iptables : KM FirewallState :=
  k ← self;
  ipv4 ← inspect_iptables_family "iptables";
  checked ← ipv6_backend true;
  ipv6 ← (if checked : bool then inspect_iptables_family "ip6tables" else mret (no_firewall "ip6tables"));
  let artifacts_present := fs_artifacts_present ipv4 || fs_artifacts_present ipv6 in
  with_ipv6 ← ipv6_backend true;
  let reasons := fs_mismatch_reasons ipv4
                 ++ (if with_ipv6 : bool then map (fun r => "ipv6:" +:+ r) (fs_mismatch_reasons ipv6) else []) in
  unavailable ← ipv6_backend false;
  let reasons := reasons ++ (if unavailable : bool then ["ipv6_backend_unavailable"] else []) in
  active ← (if fs_active ipv4 then
              if negb (ks_block_ipv6 k) then mret true else
              found ← which "ip6tables";
              mret (negb found || fs_active ipv6)
            else mret false);
  mret {| fs_method := "iptables"; fs_artifacts_present := artifacts_present; fs_active := active;
          fs_consistent := artifacts_present && active && bool_decide (reasons = []);
          fs_mismatch_reasons := reasons |}.

(** [sorted(set(l))] *)
Definition sorted_set (l : list string) : list string := py_sorted String.ltb (remove_dups l).

(** The value [status()] builds from the states of the backends that are present *)
Definition status_of_states (k : KillSwitch) (states : list FirewallState) (detected : option string)
    : KillSwitchStatus :=
  let artifacts := List.filter fs_artifacts_present states in
  let reasons := flat_map fs_mismatch_reasons artifacts
                 ++ (if (1 <? length artifacts)%nat then ["multiple_firewall_backends_present"] else []) in
  let active := existsb fs_active artifacts in
  let consistent := (length artifacts <=? 1)%nat && forallb fs_consistent artifacts in
  {| kst_available := negb (bool_decide (states = []));
     kst_artifacts_present := negb (bool_decide (artifacts = []));
     kst_active := active;
     kst_method := match artifacts with
                   | [] => detected
                   | [s] => Some (fs_method s)
                   | _ => Some (join "+" (map fs_method artifacts))
                   end;
     kst_rules_applied := negb (bool_decide (artifacts = [])) && active && consistent;
     kst_consistent := consistent;
     kst_mismatch_reasons := sorted_set reasons;
     kst_tunnel_interface := ks_tunnel_interface k;
     kst_block_ipv6 := ks_block_ipv6 k;
     kst_allow_lan := ks_allow_lan k;
     kst_allowed_endpoints := ks_allowed_endpoints k;
     kst_direct_egress_uid := ks_direct_egress_uid k |}.

(** The method is only looked up when no artifact is present. *)
Definition status : KM KillSwitchStatus :=
  nft ← which "nft";
  s1 ← (if nft : bool then s ← inspect_nftables; mret [s] else mret []);
  iptables ← which "iptables";
  s2 ← (if iptables : bool then s ← inspect_iptables; mret [s] else mret []);
  let states := (s1 ++ s2 : list FirewallState) in
  detected ← (if bool_decide (List.filter fs_artifacts_present states = []) then chosen_method
              else mret None);
  k ← self;
  mret (status_of_states k states detected).

Definition is_active : KM bool := s ← status; mret (kst_active s).

Definition disable_nftables : KM bool :=
  run_optional ["nft"; "delete"; "table"; "inet"; WATCHDOGVPN_TABLE].

(** [[self._run_optional(c) for c in commands]] *)
Fixpoint run_each (commands : list (list string)) : KM (list bool) :=
  match commands with
  | [] => mret []
  | c :: cs => b ← run_optional c; bs ← run_each cs; mret (b :: bs)
  end.

Definition iptables_disable_commands (binary : string) : list (list string) :=
  [[binary; "-D"; "OUTPUT"; "-j"; WATCHDOGVPN_IPTABLES_CHAIN];
   [binary; "-F"; WATCHDOGVPN_IPTABLES_CHAIN];
   [binary; "-X"; WATCHDOGVPN_IPTABLES_CHAIN]].

Definition disable_iptables : KM bool :=
  results ← run_each (iptables_disable_commands "iptables");
  ip6 ← which "ip6tables";
  results6 ← (if ip6 : bool then run_each (iptables_disable_commands "ip6tables") else mret []);
  mret (forallb id (results ++ results6 : list bool)).

(** [for command in commands: if not self._run_required(command): return False] *)
Fixpoint run_all_required (commands : list (list string)) : KM bool :=
  match commands with
  | [] => mret true
  | c :: cs => b ← run_required c; if b : bool then run_all_required cs else mret false
  end.

Definition enable_nftables : KM bool :=
  _ ← disable_nftables;
  k ← self;
  ok ← run_all_required (nft_enable_commands k);
  if ok : bool then mret true else _ ← disable_nftables; mret false.

Definition enable_iptables : KM bool :=
  _ ← disable_iptables;
  k ← self;
  with_ipv6 ← ipv6_backend true;
  ok ← run_all_required
         (iptables_enable_commands k ++ if with_ipv6 : bool then ip6tables_enable_commands k else []);
  if ok : bool then mret true else _ ← disable_iptables; mret false.

Definition enable : KM bool :=
  method ← chosen_method;
  match method with
  | None => mret false
  | Some m =>
      _ ← assign_method (Some m);
      if String.eqb m "nftables" then
        iptables ← which "iptables";
        _ ← (if iptables : bool then disable_iptables else mret true);
        enable_nftables
      else
        nft ← which "nft";
        _ ← (if nft : bool then disable_nftables else mret true);
        missing ← ipv6_backend false;
        if missing : bool then _ ← disable_iptables; mret false else enable_iptables
  end.

Definition apply_atomic : KM bool :=
  method ← chosen_method;
  if negb (bool_decide (method = Some "nftables")) then mret false else
  _ ← assign_method method;
  existing ← inspect_nftables;
  k ← self;
  let commands :=
    (if fs_artifacts_present existing then [["nft"; "delete"; "table"; "inet"; WATCHDOGVPN_TABLE]] else [])
    ++ nft_enable_commands k in
  result ← on_world (ke_nft_batch env (nft_batch_script commands));
  if negb (cr_returncode result =? 0)%Z then mret false else
  s ← status;
  mret (kst_active s && kst_consistent s).

Definition disable : KM bool :=
  nft ← which "nft";
  _ ← (if nft : bool then disable_nftables else mret true);
  iptables ← which "iptables";
  _ ← (if iptables : bool then disable_iptables else mret true);
  s ← status;
  if negb (kst_active s) && negb (kst_artifacts_present s)
  then _ ← assign_method None; mret true else mret false.

End operations.
