(* ===== verification/KillSwitchPolicy.v ===== *)
(** * What the kill switch lets out

    The packets that the generated nftables and iptables rules accept.  The matching of one
    packet against the tokens of a rule is the firewall's and a parameter; a chain takes the
    verdict of its first matching rule, or its policy.  The section on installation connects
    the commands with the ruleset that a firewall holds after they ran. *)
From stdpp Require Import base list strings pretty.
From Stdlib Require Import Ascii ZArith.
From S2P Require Import Prelude PyData PyText KillSwitch.

(** ** The rules that the commands denote *)
Record fw_rule : Type := Rule { ru_chain : string; ru_match : list string; ru_verdict : string }.

Definition nft_decode_rule (command : list string) : option fw_rule :=
  match command with
  | "nft" :: "add" :: "rule" :: "inet" :: table :: chain :: rest =>
      if negb (String.eqb table WATCHDOGVPN_TABLE) then None else
      match reverse rest with
      | _ :: "comment" :: verdict :: "counter" :: m => Some (Rule chain (reverse m) verdict)
      | _ => None
      end
  | _ => None
  end.

(** The name, the hook and the policy of a base chain *)
Definition nft_decode_chain (command : list string) : option (string * (string * string)) :=
  match command with
  | ["nft"; "add"; "chain"; "inet"; table; chain; "{"; "type"; "filter"; "hook"; hook; "priority"; "0;";
     "policy"; policy; "}"] =>
      if String.eqb table WATCHDOGVPN_TABLE then Some (chain, (hook, policy)) else None
  | _ => None
  end.

Definition nft_rules (commands : list (list string)) : list fw_rule := omap nft_decode_rule commands.
Definition nft_chains (commands : list (list string)) : pydict (string * string) :=
  omap nft_decode_chain commands.

Definition iptables_decode_rule (binary : string) (command : list string) : option fw_rule :=
  match command with
  | b :: "-A" :: chain :: rest =>
      if negb (String.eqb b binary) then None else
      match reverse rest with
      | target :: "-j" :: _ :: "--comment" :: "comment" :: "-m" :: m => Some (Rule chain (reverse m) target)
      | _ => None
      end
  | _ => None
  end.

Definition iptables_rules (binary : string) (commands : list (list string)) : list fw_rule :=
  omap (iptables_decode_rule binary) commands.

Section semantics.
Context {packet : Type} (matches : list string → packet → bool).

(** The verdict of the first rule of the chain that matches *)
Fixpoint first_verdict (chain : string) (rules : list fw_rule) (p : packet) : option string :=
  match rules with
  | [] => None
  | r :: rules' =>
      if String.eqb (ru_chain r) chain && matches (ru_match r) p then Some (ru_verdict r)
      else first_verdict chain rules' p
  end.

(** The packet passes every base chain attached to the hook. *)
Definition nft_hook_accepts (commands : list (list string)) (hook : string) (p : packet) : bool :=
  forallb (fun '(chain, (h, policy)) =>
    negb (String.eqb h hook) ||
    match first_verdict chain (nft_rules commands) p with
    | Some v => String.eqb v "accept"
    | None => String.eqb policy "accept;"
    end) (nft_chains commands).

(** A packet leaves the host when the output hook and then the postrouting hook accept it;
    [q] is the packet as postrouting sees it, after the final routing decision. *)
Definition nft_egress (commands : list (list string)) (p q : packet) : bool :=
  nft_hook_accepts commands "output" p && nft_hook_accepts commands "postrouting" q.

(** The packet returns from the managed chain of the OUTPUT hook without a [REJECT]. *)
Definition iptables_egress (binary : string) (commands : list (list string)) (p : packet) : bool :=
  match first_verdict WATCHDOGVPN_IPTABLES_CHAIN (iptables_rules binary commands) p with
  | Some v => String.eqb v "ACCEPT"
  | None => true
  end.

(** ** The policy, stated on packets *)
Definition is_dns (p : packet) : bool :=
  existsb (fun m => matches m p)
    [["udp"; "dport"; "53"]; ["udp"; "dport"; "853"]; ["tcp"; "dport"; "53"]; ["tcp"; "dport"; "853"]].

Definition to_endpoint (k : KillSwitch) (p : packet) : bool :=
  existsb (fun a => matches [nft_family a; "daddr"; ip_text a] p) (parsed_endpoints k).

Definition direct_egress (k : KillSwitch) (p : packet) : bool :=
  match ks_direct_egress_uid k with Some uid => matches (direct_egress_match uid) p | None => false end.

(** Accepted whatever the port *)
Definition trusted (k : KillSwitch) (p : packet) : bool :=
  matches ["oifname"; "lo"] p || matches ["ip"; "daddr"; "127.0.0.0/8"] p
  || matches ["ip6"; "daddr"; "::1/128"] p || matches ["oifname"; ks_tunnel_interface k] p
  || direct_egress k p || to_endpoint k p
  || matches ["ip"; "daddr"; "172.19.0.2"; "udp"; "dport"; "53"] p
  || matches ["ip"; "daddr"; "172.19.0.2"; "tcp"; "dport"; "53"] p.

(** Accepted unless it is DNS *)
Definition tolerated (k : KillSwitch) (p : packet) : bool :=
  matches ["meta"; "mark"; SING_BOX_CAPTURE_MARK] p
  || matches ["ct"; "state"; "established,related"] p
  || (ks_allow_lan k && existsb (fun cidr => matches ["ip"; "daddr"; cidr] p) (ks_lan_cidrs k))
  || (negb (ks_block_ipv6 k) && matches ["ip6"; "daddr"; "::/0"] p).

Definition nft_permitted (k : KillSwitch) (p q : packet) : bool :=
  (trusted k p || (negb (is_dns p) && tolerated k p))
  && (negb (matches ["meta"; "mark"; SING_BOX_CAPTURE_MARK] q)
      || matches ["oifname"; ks_tunnel_interface k] q).
End semantics.

(** ** Decoding the generated commands *)
Lemma nft_decode_generated chain m v :
  nft_decode_rule (nft_rule_in_chain chain m v) = Some (Rule chain m v).
Proof.
  unfold nft_rule_in_chain. cbn -[reverse].
  rewrite reverse_app. change (reverse ["counter"; v; "comment"; WATCHDOGVPN_NFT_COMMENT])
    with [WATCHDOGVPN_NFT_COMMENT; "comment"; v; "counter"].
  cbn -[reverse]. by rewrite reverse_involutive.
Qed.

Lemma iptables_decode_generated binary m t :
  iptables_decode_rule binary (iptables_append binary m t) = Some (Rule WATCHDOGVPN_IPTABLES_CHAIN m t).
Proof.
  unfold iptables_append. cbn -[reverse]. rewrite String.eqb_refl. cbn -[reverse].
  rewrite reverse_app. change (reverse ["-m"; "comment"; "--comment"; WATCHDOGVPN_COMMENT; "-j"; t])
    with [t; "-j"; WATCHDOGVPN_COMMENT; "--comment"; "comment"; "-m"].
  cbn -[reverse]. by rewrite reverse_involutive.
Qed.

Lemma omap_map_some {A B C} (f : B → option C) (g : A → B) (h : A → C) l :
  (∀ x, f (g x) = Some (h x)) → omap f (map g l) = map h l.
Proof. intros H. induction l as [|x l IH]; [done|]. cbn. by rewrite H, IH. Qed.

Definition out (m : list string) (v : string) : fw_rule := Rule WATCHDOGVPN_CHAIN m v.
Definition accept_each {A} (f : A → list string) (l : list A) : list fw_rule := map (fun x => out (f x) "accept") l.

(** The rules of the table, in order *)
Definition nft_policy (k : KillSwitch) : list fw_rule :=
  [ Rule WATCHDOGVPN_CAPTURE_GUARD_CHAIN
      ["meta"; "mark"; SING_BOX_CAPTURE_MARK; "oifname"; ks_tunnel_interface k] "accept";
    Rule WATCHDOGVPN_CAPTURE_GUARD_CHAIN ["meta"; "mark"; SING_BOX_CAPTURE_MARK] "drop" ]
  ++ accept_each id [["oifname"; "lo"]; ["ip"; "daddr"; "127.0.0.0/8"]; ["ip6"; "daddr"; "::1/128"];
                     ["oifname"; ks_tunnel_interface k]]
  ++ accept_each direct_egress_match (option_list (ks_direct_egress_uid k))
  ++ accept_each (fun a => [nft_family a; "daddr"; ip_text a]) (parsed_endpoints k)
  ++ accept_each id [["ip"; "daddr"; "172.19.0.2"; "udp"; "dport"; "53"];
                     ["ip"; "daddr"; "172.19.0.2"; "tcp"; "dport"; "53"]]
  ++ map (fun m => out m "reject")
       [["udp"; "dport"; "53"]; ["udp"; "dport"; "853"]; ["tcp"; "dport"; "53"]; ["tcp"; "dport"; "853"]]
  ++ accept_each id [["meta"; "mark"; SING_BOX_CAPTURE_MARK]; ["ct"; "state"; "established,related"]]
  ++ accept_each (fun cidr => ["ip"; "daddr"; cidr]) (if ks_allow_lan k then ks_lan_cidrs k else [])
  ++ accept_each id (if negb (ks_block_ipv6 k) then [["ip6"; "daddr"; "::/0"]] else [])
  ++ map (fun m => out m "drop")
       [["meta"; "l4proto"; "tcp"]; ["meta"; "l4proto"; "udp"]; ["meta"; "l4proto"; "icmp"];
        ["meta"; "l4proto"; "ipv6-icmp"]; []].

Lemma nft_dns_rules_decoded :
  omap nft_decode_rule nft_dns_leak_block_rules =
  map (fun m => out m "reject")
    [["udp"; "dport"; "53"]; ["udp"; "dport"; "853"]; ["tcp"; "dport"; "53"]; ["tcp"; "dport"; "853"]].
Proof. vm_compute. reflexivity. Qed.

Lemma nft_rules_of_policy k : nft_rules (nft_enable_commands k) = nft_policy k.
Proof.
  unfold nft_rules, nft_enable_commands, nft_policy. rewrite !omap_app, nft_dns_rules_decoded.
  assert (Hlan : omap nft_decode_rule (if ks_allow_lan k then nft_lan_rules k else [])
                 = accept_each (fun cidr => ["ip"; "daddr"; cidr]) (if ks_allow_lan k then ks_lan_cidrs k else [])).
  { destruct (ks_allow_lan k); [|done]. apply omap_map_some. intros x. apply nft_decode_generated. }
  assert (Hend : omap nft_decode_rule (nft_endpoint_rules k)
                 = accept_each (fun a => [nft_family a; "daddr"; ip_text a]) (parsed_endpoints k)).
  { apply omap_map_some. intros x. apply nft_decode_generated. }
  assert (Huid : omap nft_decode_rule (nft_direct_egress_rules k)
                 = accept_each direct_egress_match (option_list (ks_direct_egress_uid k))).
  { unfold nft_direct_egress_rules. by destruct (ks_direct_egress_uid k). }
  rewrite Hlan, Hend, Huid. by destruct (ks_block_ipv6 k).
Qed.

Lemma nft_chains_of_policy k :
  nft_chains (nft_enable_commands k)
  = [(WATCHDOGVPN_CHAIN, ("output", "drop;")); (WATCHDOGVPN_CAPTURE_GUARD_CHAIN, ("postrouting", "accept;"))].
Proof.
  unfold nft_chains, nft_enable_commands. rewrite !omap_app.
  assert (H0 : ∀ c m v, nft_decode_chain (nft_rule_in_chain c m v) = None) by done.
  assert (Hmap : ∀ A (f : A → list string) c v l,
            omap nft_decode_chain (map (fun x => nft_rule_in_chain c (f x) v) l) = []).
  { intros A f c v l. induction l as [|x l IH]; [done|]. exact IH. }
  assert (Hlan : omap nft_decode_chain (if ks_allow_lan k then nft_lan_rules k else []) = []).
  { destruct (ks_allow_lan k); [|done]. apply Hmap. }
  assert (Hend : omap nft_decode_chain (nft_endpoint_rules k) = []) by apply Hmap.
  rewrite Hlan, Hend. unfold nft_direct_egress_rules.
  by destruct (ks_direct_egress_uid k), (ks_block_ipv6 k).
Qed.

Section semantics_lemmas.
Context {packet : Type} (matches : list string → packet → bool).

Lemma first_verdict_app chain l1 l2 p :
  first_verdict matches chain (l1 ++ l2) p =
  match first_verdict matches chain l1 p with
  | Some v => Some v
  | None => first_verdict matches chain l2 p
  end.
Proof.
  induction l1 as [|r l1 IH]; [done|]. cbn.
  by destruct (String.eqb (ru_chain r) chain && matches (ru_match r) p).
Qed.

(** Rules of one chain with one verdict *)
Lemma first_verdict_uniform {A} chain v (f : A → list string) l p :
  first_verdict matches chain (map (fun x => Rule chain (f x) v) l) p =
  if existsb (fun x => matches (f x) p) l then Some v else None.
Proof.
  induction l as [|x l IH]; [done|]. cbn. rewrite String.eqb_refl. cbn.
  destruct (matches (f x) p); [done|]. exact IH.
Qed.

Lemma first_verdict_other {A} chain chain' v (f : A → list string) l p :
  String.eqb chain' chain = false →
  first_verdict matches chain (map (fun x => Rule chain' (f x) v) l) p = None.
Proof. intros H. induction l as [|x l IH]; [done|]. cbn. by rewrite H. Qed.

End semantics_lemmas.

Section policy.
Context {packet : Type} (matches : list string → packet → bool).

(** The groups of rules that make up the two predicates *)
Lemma trusted_groups k p :
  trusted matches k p =
  existsb (fun m => matches m p)
    [["oifname"; "lo"]; ["ip"; "daddr"; "127.0.0.0/8"]; ["ip6"; "daddr"; "::1/128"];
     ["oifname"; ks_tunnel_interface k]]
  || existsb (fun uid => matches (direct_egress_match uid) p) (option_list (ks_direct_egress_uid k))
  || existsb (fun a => matches [nft_family a; "daddr"; ip_text a] p) (parsed_endpoints k)
  || existsb (fun m => matches m p)
       [["ip"; "daddr"; "172.19.0.2"; "udp"; "dport"; "53"];
        ["ip"; "daddr"; "172.19.0.2"; "tcp"; "dport"; "53"]].
Proof.
  unfold trusted, direct_egress, to_endpoint. cbn [existsb]. rewrite !orb_false_r, !orb_assoc.
  by destruct (ks_direct_egress_uid k); cbn; rewrite ?orb_false_r.
Qed.

Lemma tolerated_groups k p :
  tolerated matches k p =
  existsb (fun m => matches m p)
    [["meta"; "mark"; SING_BOX_CAPTURE_MARK]; ["ct"; "state"; "established,related"]]
  || existsb (fun cidr => matches ["ip"; "daddr"; cidr] p) (if ks_allow_lan k then ks_lan_cidrs k else [])
  || existsb (fun m => matches m p) (if negb (ks_block_ipv6 k) then [["ip6"; "daddr"; "::/0"]] else []).
Proof.
  unfold tolerated. destruct (ks_allow_lan k), (ks_block_ipv6 k); cbn; by rewrite ?orb_false_r, ?orb_assoc.
Qed.

Lemma output_verdict k p :
  first_verdict matches WATCHDOGVPN_CHAIN (nft_policy k) p =
  if trusted matches k p then Some "accept"
  else if is_dns matches p then Some "reject"
  else if tolerated matches k p then Some "accept"
  else if existsb (fun m => matches m p)
            [["meta"; "l4proto"; "tcp"]; ["meta"; "l4proto"; "udp"]; ["meta"; "l4proto"; "icmp"];
             ["meta"; "l4proto"; "ipv6-icmp"]; []] then Some "drop" else None.
Proof.
  rewrite trusted_groups, tolerated_groups.
  unfold nft_policy, accept_each, out. rewrite !first_verdict_app, !first_verdict_uniform.
  cbn [first_verdict ru_chain String.eqb id].
  change (String.eqb WATCHDOGVPN_CAPTURE_GUARD_CHAIN WATCHDOGVPN_CHAIN) with false. cbn [andb].
  unfold is_dns, id.
  repeat match goal with |- context [existsb ?f ?l] => destruct (existsb f l); cbn [orb]; try done end.
Qed.

(** A rule with two conditions matches when both do. *)
Context (mark_and_interface : ∀ mark i p,
  matches ["meta"; "mark"; mark; "oifname"; i] p = matches ["meta"; "mark"; mark] p && matches ["oifname"; i] p).

Lemma guard_verdict k q :
  first_verdict matches WATCHDOGVPN_CAPTURE_GUARD_CHAIN (nft_policy k) q =
  if matches ["meta"; "mark"; SING_BOX_CAPTURE_MARK] q
  then if matches ["oifname"; ks_tunnel_interface k] q then Some "accept" else Some "drop"
  else None.
Proof.
  unfold nft_policy, accept_each, out. rewrite !first_verdict_app, !first_verdict_other by done.
  cbn [first_verdict ru_chain ru_match ru_verdict]. rewrite String.eqb_refl, mark_and_interface. cbn [andb].
  by destruct (matches ["meta"; "mark"; SING_BOX_CAPTURE_MARK] q),
    (matches ["oifname"; ks_tunnel_interface k] q).
Qed.

Lemma nft_egress_permitted k p q :
  nft_egress matches (nft_enable_commands k) p q = nft_permitted matches k p q.
Proof.
  unfold nft_egress, nft_hook_accepts. rewrite nft_chains_of_policy, nft_rules_of_policy.
  cbn [forallb String.eqb Ascii.eqb Bool.eqb negb orb andb].
  rewrite output_verdict, guard_verdict. unfold nft_permitted.
  destruct (matches ["meta"; "mark"; SING_BOX_CAPTURE_MARK] q), (matches ["oifname"; ks_tunnel_interface k] q);
    destruct (trusted matches k p), (is_dns matches p), (tolerated matches k p); try done;
    match goal with |- context [existsb ?f ?l] => by destruct (existsb f l) end.
Qed.
(** C23: the generated nftables rules enforce exactly the stated policy: a packet leaves the host
    iff it is trusted (loopback, the tunnel, the daemon's marked direct egress, an allowed
    endpoint, the tunnel's DNS server), or it is not DNS and is captured, part of an established
    connection, for an allowed LAN or unblocked IPv6 -- and, if it carries the capture mark, it
    finally leaves through the tunnel.  DNS (ports 53 and 853) is thus let out only where it is
    trusted, which includes the daemon's marked direct egress and the allowed endpoints. *)
Theorem nft_policy_exact k p q :
  nft_egress matches (nft_enable_commands k) p q = nft_permitted matches k p q.
Proof. apply nft_egress_permitted. Qed.
End policy.

(** ** iptables: the expected rules are the appended ones *)
Lemma pretty_Z_not_jump (z : Z) : String.eqb (pretty z) "-j" = false.
Proof.
  apply String.eqb_neq. intros E. destruct (pretty_Z_cases z) as [H|(s & Hs & H)].
  - by rewrite E in H.
  - rewrite E in Hs. change ("-j" = String "-" s) in Hs. injection Hs as <-. done.
Qed.

Lemma iptables_direct_egress_append k binary :
  iptables_direct_egress_rules k binary =
  map (fun uid => iptables_append binary
         ["-m"; "owner"; "--uid-owner"; pretty uid; "-m"; "mark"; "--mark"; SING_BOX_OUTBOUND_MARK] "ACCEPT")
    (option_list (ks_direct_egress_uid k)).
Proof.
  unfold iptables_direct_egress_rules. destruct (ks_direct_egress_uid k) as [uid|]; [|done].
  unfold iptables_rule_command. cbn -[pretty take drop].
  rewrite pretty_Z_not_jump. reflexivity.
Qed.

(** The commands that append a rule to the managed chain, without binary and chain *)
Definition appended_rules (commands : list (list string)) : list (list string) :=
  map (drop 3) (List.filter (fun c => bool_decide (take 2 (drop 1 c) = ["-A"; WATCHDOGVPN_IPTABLES_CHAIN])) commands).

Lemma appended_rules_app l1 l2 : appended_rules (l1 ++ l2) = appended_rules l1 ++ appended_rules l2.
Proof. unfold appended_rules. by rewrite List.filter_app, map_app. Qed.

Lemma appended_all l :
  (∀ c, c ∈ l → ∃ b m t, c = iptables_append b m t) → appended_rules l = map (drop 3) l.
Proof.
  intros H. induction l as [|c l IH]; [done|].
  destruct (H c) as (b & m & t & ->); [left|].
  unfold appended_rules in *. cbn [List.filter].
  rewrite bool_decide_true by done. cbn [map]. f_equal. apply IH. intros d Hd. apply H. by right.
Qed.

Definition iptables_enable_of (binary : string) (k : KillSwitch) : list (list string) :=
  if String.eqb binary "ip6tables" then ip6tables_enable_commands k else iptables_enable_commands k.

Lemma endpoint_rules_appended k :
  appended_rules (iptables_endpoint_rules k) = map (drop 3) (iptables_endpoint_rules k)
  ∧ appended_rules (ip6tables_endpoint_rules k) = map (drop 3) (ip6tables_endpoint_rules k).
Proof.
  split; apply appended_all; intros c Hc; apply list_elem_of_In, in_flat_map in Hc as (a & _ & Hc).
  - destruct (negb (ip_version a =? 4)%Z); [done|]. destruct Hc as [<-|[]]. eauto.
  - destruct (negb (ip_version a =? 6)%Z); [done|]. destruct Hc as [<-|[]]. eauto.
Qed.

Lemma lan_rules_appended k binary :
  appended_rules (iptables_lan_rules k binary) = map (drop 3) (iptables_lan_rules k binary).
Proof. apply appended_all. intros c (cidr & -> & _)%list_elem_of_fmap. eauto. Qed.

Lemma direct_egress_appended k binary :
  appended_rules (iptables_direct_egress_rules k binary) = map (drop 3) (iptables_direct_egress_rules k binary).
Proof.
  apply appended_all. rewrite iptables_direct_egress_append. intros c (u & -> & _)%list_elem_of_fmap. eauto.
Qed.

Lemma expected_iptables_commands_appended k binary :
  binary = "iptables" ∨ binary = "ip6tables" →
  ks_tunnel_interface k ≠ "-j" →
  map (drop 3) (expected_iptables_commands k binary) = appended_rules (iptables_enable_of binary k).
Proof.
  intros Hb Ht%String.eqb_neq.
  assert (Htun : ∀ b, iptables_rule_command b ["-o"; ks_tunnel_interface k; "-j"; "ACCEPT"]
                      = iptables_append b ["-o"; ks_tunnel_interface k] "ACCEPT").
  { intros b. unfold iptables_rule_command. cbn -[take drop]. by rewrite Ht. }
  unfold expected_iptables_commands. rewrite Htun. destruct (endpoint_rules_appended k) as [He4 He6].
  destruct Hb as [-> | ->]; unfold iptables_enable_of; cbn [String.eqb Ascii.eqb Bool.eqb andb];
    unfold iptables_enable_commands, ip6tables_enable_commands;
    rewrite !appended_rules_app, !map_app, direct_egress_appended, ?He4, ?He6; [|done].
  destruct (ks_allow_lan k); [rewrite lan_rules_appended|]; done.
Qed.

(** ** Packets of one interface, mark, destination and UDP port *)
Record sample_packet : Type := SamplePacket { sp_oif : string; sp_mark : string; sp_dst : string; sp_udp_port : string }.

Fixpoint sample_matches (tokens : list string) (p : sample_packet) : bool :=
  match tokens with
  | [] => true
  | "oifname" :: i :: rest => String.eqb i (sp_oif p) && sample_matches rest p
  | "meta" :: "mark" :: m :: rest => String.eqb m (sp_mark p) && sample_matches rest p
  | "ip" :: "daddr" :: d :: rest => String.eqb d (sp_dst p) && sample_matches rest p
  | "udp" :: "dport" :: d :: rest => String.eqb d (sp_udp_port p) && sample_matches rest p
  | _ => false
  end.

Lemma sample_mark_and_interface mark i p :
  sample_matches ["meta"; "mark"; mark; "oifname"; i] p
  = sample_matches ["meta"; "mark"; mark] p && sample_matches ["oifname"; i] p.
Proof. cbn. by rewrite !andb_true_r. Qed.

(** A resolver on the LAN and a captured packet that leaves by the physical interface are
    blocked, the same captured packet through the tunnel is let out. *)
Lemma nft_policy_exact_witness :
  map (fun p => nft_egress sample_matches (nft_enable_commands default_kill_switch) p p)
    [ SamplePacket "eth0" "" "10.0.0.0/8" "53"; SamplePacket "eth0" "" "10.0.0.0/8" "123";
      SamplePacket "eth0" "0x2023" "8.8.8.8" "443"; SamplePacket "wdvpn-tun0" "0x2023" "8.8.8.8" "443" ]
  = [false; true; false; true].
Proof.
  cbn [map]. rewrite !(nft_policy_exact sample_matches sample_mark_and_interface default_kill_switch).
  vm_compute. reflexivity.
Defined.

(** ** The policy of the iptables fallback *)
Section iptables_policy.
Context {packet : Type} (matches : list string → packet → bool).
(** A rule without a condition matches every packet. *)
Context (unconditional : ∀ p, matches [] p = true).

Definition iptables_owner_match (uid : Z) : list string :=
  ["-m"; "owner"; "--uid-owner"; pretty uid; "-m"; "mark"; "--mark"; SING_BOX_OUTBOUND_MARK].

Definition iptables_dns_matches : list (list string) :=
  [["-p"; "udp"; "--dport"; "53"]; ["-p"; "udp"; "--dport"; "853"];
   ["-p"; "tcp"; "--dport"; "53"]; ["-p"; "tcp"; "--dport"; "853"]].

(** What is let out of one address family: [loopback] is its loopback network, [version] its
    endpoints, [dns] the DNS server of the tunnel, [lan] the LAN networks *)
Definition iptables_permitted (k : KillSwitch) (version : Z) (loopback : string) (dns lan : list (list string))
    (p : packet) : bool :=
  let some := existsb (fun m => matches m p) in
  some [["-o"; "lo"]; ["-d"; loopback]; ["-o"; ks_tunnel_interface k]]
  || existsb (fun uid => matches (iptables_owner_match uid) p) (option_list (ks_direct_egress_uid k))
  || existsb (fun a => (ip_version a =? version)%Z && matches ["-d"; ip_text a] p) (parsed_endpoints k)
  || some dns
  || (negb (some iptables_dns_matches)
      && (matches ["-m"; "conntrack"; "--ctstate"; "ESTABLISHED,RELATED"] p || some lan)).

Definition ipt_rule (m : list string) (t : string) : fw_rule := Rule WATCHDOGVPN_IPTABLES_CHAIN m t.

Definition iptables_policy (k : KillSwitch) (version : Z) (loopback : string) (dns lan : list (list string))
    : list fw_rule :=
  map (fun m => ipt_rule m "ACCEPT") [["-o"; "lo"]; ["-d"; loopback]; ["-o"; ks_tunnel_interface k]]
  ++ map (fun uid => ipt_rule (iptables_owner_match uid) "ACCEPT") (option_list (ks_direct_egress_uid k))
  ++ map (fun a => ipt_rule ["-d"; ip_text a] "ACCEPT")
       (List.filter (fun a => (ip_version a =? version)%Z) (parsed_endpoints k))
  ++ map (fun m => ipt_rule m "ACCEPT") dns
  ++ map (fun m => ipt_rule m "REJECT") iptables_dns_matches
  ++ map (fun m => ipt_rule m "ACCEPT") [["-m"; "conntrack"; "--ctstate"; "ESTABLISHED,RELATED"]]
  ++ map (fun m => ipt_rule m "ACCEPT") lan
  ++ map (fun m => ipt_rule m "REJECT") [[]].

Lemma existsb_filter {A} (f g : A → bool) l : existsb g (List.filter f l) = existsb (fun x => f x && g x) l.
Proof. induction l as [|x l IH]; [done|]. cbn. destruct (f x); cbn; by rewrite IH. Qed.

Lemma iptables_policy_verdict k version loopback dns lan p :
  first_verdict matches WATCHDOGVPN_IPTABLES_CHAIN (iptables_policy k version loopback dns lan) p
  = Some (if iptables_permitted k version loopback dns lan p then "ACCEPT" else "REJECT").
Proof.
  unfold iptables_policy, iptables_permitted, ipt_rule. rewrite !first_verdict_app, !first_verdict_uniform, existsb_filter.
  assert (Hall : existsb (fun m => matches m p) [[]] = true) by (cbn; by rewrite unconditional).
  assert (Hest : existsb (fun m => matches m p) [["-m"; "conntrack"; "--ctstate"; "ESTABLISHED,RELATED"]]
                 = matches ["-m"; "conntrack"; "--ctstate"; "ESTABLISHED,RELATED"] p)
    by (cbn [existsb]; apply orb_false_r).
  rewrite Hall, Hest.
  repeat match goal with
  | |- context [existsb ?f ?l] => destruct (existsb f l); cbn [orb andb negb]; try done
  end; by destruct (matches _ p).
Qed.

Lemma decode_append_each {A} binary (f : A → list string) t l :
  omap (iptables_decode_rule binary) (map (fun x => iptables_append binary (f x) t) l) = map (fun x => ipt_rule (f x) t) l.
Proof. apply omap_map_some. intros x. apply iptables_decode_generated. Qed.

Lemma decode_endpoints (b : string) (version : Z) l :
  omap (iptables_decode_rule b)
    (flat_map (fun a => if negb (ip_version a =? version)%Z then [] else [iptables_append b ["-d"; ip_text a] "ACCEPT"]) l)
  = map (fun a => ipt_rule ["-d"; ip_text a] "ACCEPT") (List.filter (fun a => (ip_version a =? version)%Z) l).
Proof.
  induction l as [|a l IH]; [done|]. cbn [flat_map List.filter]. rewrite omap_app, IH.
  destruct (ip_version a =? version)%Z; cbn [negb map]; [|done].
  cbn [omap list_omap]. by rewrite iptables_decode_generated.
Qed.

Definition iptables_internal_dns : list (list string) :=
  map (fun protocol => ["-d"; "172.19.0.2"; "-p"; protocol; "--dport"; "53"]) ["udp"; "tcp"].
Definition iptables_lan (k : KillSwitch) : list (list string) :=
  if ks_allow_lan k then map (fun cidr => ["-d"; cidr]) (ks_lan_cidrs k) else [].

Lemma decode_owner k binary :
  omap (iptables_decode_rule binary) (iptables_direct_egress_rules k binary)
  = map (fun uid => ipt_rule (iptables_owner_match uid) "ACCEPT") (option_list (ks_direct_egress_uid k)).
Proof. rewrite iptables_direct_egress_append. apply decode_append_each. Qed.

Lemma iptables_rules_of_policy k :
  iptables_rules "iptables" (iptables_enable_commands k)
  = iptables_policy k 4 "127.0.0.0/8" iptables_internal_dns (iptables_lan k).
Proof.
  unfold iptables_rules, iptables_enable_commands, iptables_endpoint_rules.
  rewrite !omap_app, decode_owner, decode_endpoints. unfold iptables_policy.
  assert (Hlan : omap (iptables_decode_rule "iptables") (if ks_allow_lan k then iptables_lan_rules k "iptables" else [])
                 = map (fun m => ipt_rule m "ACCEPT") (iptables_lan k)).
  { unfold iptables_lan. destruct (ks_allow_lan k); [|done]. unfold iptables_lan_rules.
    rewrite decode_append_each. by rewrite map_map. }
  rewrite Hlan. reflexivity.
Qed.

Lemma ip6tables_rules_of_policy k :
  iptables_rules "ip6tables" (ip6tables_enable_commands k) = iptables_policy k 6 "::1/128" [] [].
Proof.
  unfold iptables_rules, ip6tables_enable_commands, ip6tables_endpoint_rules.
  rewrite !omap_app, decode_owner, decode_endpoints. unfold iptables_policy. reflexivity.
Qed.

(** the iptables fallback enforces, per address family, exactly this policy: loopback, the
    tunnel, the daemon's marked direct egress, the allowed endpoints of that family and (IPv4)
    the tunnel's DNS server are accepted; any other DNS is rejected; established connections
    and, for IPv4, the allowed LAN networks are accepted; everything else is rejected. *)
Theorem iptables_policy_exact k p :
  iptables_egress matches "iptables" (iptables_enable_commands k) p
  = iptables_permitted k 4 "127.0.0.0/8" iptables_internal_dns (iptables_lan k) p
  ∧ iptables_egress matches "ip6tables" (ip6tables_enable_commands k) p
    = iptables_permitted k 6 "::1/128" [] [] p.
Proof.
  unfold iptables_egress. rewrite iptables_rules_of_policy, ip6tables_rules_of_policy, !iptables_policy_verdict.
  split; match goal with |- context [if ?b then _ else _] => by destruct b end.
Qed.
End iptables_policy.

Definition sample_iptables_matches (tokens : list string) (p : sample_packet) : bool :=
  match tokens with
  | [] => true
  | ["-o"; i] => String.eqb i (sp_oif p)
  | ["-d"; d] => String.eqb d (sp_dst p)
  | ["-p"; "udp"; "--dport"; port] => String.eqb port (sp_udp_port p)
  | _ => false
  end.

Lemma iptables_policy_exact_witness :
  map (iptables_egress sample_iptables_matches "iptables" (iptables_enable_commands default_kill_switch))
    [ SamplePacket "eth0" "" "10.0.0.0/8" "53"; SamplePacket "eth0" "" "10.0.0.0/8" "123";
      SamplePacket "eth0" "" "8.8.8.8" "443"; SamplePacket "wdvpn-tun0" "" "8.8.8.8" "443" ]
  = [false; true; false; true].
Proof.
  cbn [map]. rewrite !(λ p, proj1 (iptables_policy_exact sample_iptables_matches (fun _ => eq_refl) default_kill_switch p)).
  vm_compute. reflexivity.
Defined.
