(* ===== verification/KillSwitchInspect.v ===== *)
(** * What the inspection of the kill switch establishes

    The checks of [_inspect_nftables] and [_inspect_iptables_family] (core/kill_switch.py)
    compared with the rules that the enabling commands generate. *)
From stdpp Require Import base list strings pretty.
From Stdlib Require Import Ascii ZArith.
From S2P Require Import Prelude PyData PyText KillSwitch KillSwitchPolicy.

(** ** Canonical iptables tokens *)
Section rewrite_after.
Context (k1 k2 : string) (f1 f2 : string → string).
Context (f1_k1 : ∀ x, f1 x = k1 ↔ x = k1) (f1_k2 : ∀ x, f1 x = k2 ↔ x = k2).
Context (f2_k1 : ∀ x, f2 x = k1 ↔ x = k1) (f2_k2 : ∀ x, f2 x = k2 ↔ x = k2).
Context (f1_idem : ∀ x, f1 (f1 x) = f1 x) (f2_idem : ∀ x, f2 (f2 x) = f2 x) (k_ne : k1 ≠ k2).

(** The rewritten token of [x] after [prev] *)
Definition rewritten (prev x : string) : string :=
  if String.eqb prev k1 then f1 x else if String.eqb prev k2 then f2 x else x.

Definition rewrite_both (prev : string) (l : list string) : list string :=
  rewrite_after k2 f2 prev (rewrite_after k1 f1 prev l).

Lemma rewritten_keys prev x :
  String.eqb (rewritten prev x) k1 = String.eqb x k1 ∧ String.eqb (rewritten prev x) k2 = String.eqb x k2.
Proof.
  assert (H : ∀ f k, (∀ x, f x = k ↔ x = k) → String.eqb (f x) k = String.eqb x k).
  { intros f k Hf. apply eq_true_iff_eq. rewrite !String.eqb_eq. apply Hf. }
  unfold rewritten. destruct (String.eqb prev k1), (String.eqb prev k2); auto.
Qed.

Lemma rewrite_after_prev key f p p' l :
  String.eqb p key = String.eqb p' key → rewrite_after key f p l = rewrite_after key f p' l.
Proof. intros H. destruct l; cbn; [done|]. by rewrite H. Qed.

Lemma rewrite_both_cons prev x l :
  rewrite_both prev (x :: l) = rewritten prev x :: rewrite_both x l.
Proof.
  unfold rewrite_both, rewritten. cbn. f_equal.
  - destruct (String.eqb prev k1) eqn:E1; [|done]. apply String.eqb_eq in E1. subst prev.
    rewrite (proj2 (String.eqb_neq k1 k2)) by done. done.
  - apply rewrite_after_prev. destruct (String.eqb prev k1); [|done].
    apply eq_true_iff_eq. rewrite !String.eqb_eq. apply f1_k2.
Qed.

Lemma rewrite_both_prev p p' l :
  String.eqb p k1 = String.eqb p' k1 → String.eqb p k2 = String.eqb p' k2 →
  rewrite_both p l = rewrite_both p' l.
Proof.
  intros H1 H2. destruct l; [done|]. rewrite !rewrite_both_cons. unfold rewritten. by rewrite H1, H2.
Qed.

Lemma rewrite_both_idem prev l : rewrite_both prev (rewrite_both prev l) = rewrite_both prev l.
Proof.
  revert prev. induction l as [|x l IH]; intros prev; [done|].
  rewrite !rewrite_both_cons. destruct (rewritten_keys prev x) as [H1 H2]. f_equal.
  - unfold rewritten. destruct (String.eqb prev k1); [done|]. by destruct (String.eqb prev k2).
  - rewrite <- (IH x) at 2. by apply rewrite_both_prev.
Qed.
End rewrite_after.

Lemma canonical_destination_slash x :
  canonical_destination x = x ∨ contains "/" (canonical_destination x) = true.
Proof.
  unfold canonical_destination. destruct (ip_address x) as [a|]; [right|by left].
  apply (contains_infix _ "/").
Qed.

Lemma ip_address_slash x : contains "/" x = true → ip_address x = None.
Proof. intros H. unfold ip_address. by rewrite H. Qed.

Lemma canonical_destination_idem x : canonical_destination (canonical_destination x) = canonical_destination x.
Proof.
  destruct (canonical_destination_slash x) as [E|H]; [by rewrite !E|].
  unfold canonical_destination at 1. by rewrite ip_address_slash.
Qed.

Lemma canonical_destination_key key x :
  ip_address key = None → contains "/" key = false → canonical_destination x = key ↔ x = key.
Proof.
  intros Hk Hs. split.
  - intros H. destruct (canonical_destination_slash x) as [E|E]; congruence.
  - intros ->. unfold canonical_destination. by rewrite Hk.
Qed.

Lemma split_on_no_sep sep s : forall_chars (fun c => negb (Ascii.eqb c sep)) s = true → split_on sep s = [s].
Proof.
  induction s as [|c s IH]; [done|]. cbn. rewrite andb_true_iff, negb_true_iff. intros [-> H]. by rewrite IH.
Qed.

Lemma canonical_mark_cases x :
  canonical_mark x = x ∨ ∃ n, canonical_mark x = "0x" +:+ hex_text n.
Proof. unfold canonical_mark. destruct (py_int0 _) as [n|]; eauto. Qed.

Lemma canonical_mark_hex n : canonical_mark ("0x" +:+ hex_text n) = "0x" +:+ hex_text n.
Proof.
  unfold canonical_mark. destruct (Z.le_gt_cases 0 n) as [Hn|Hn].
  - destruct (hex_text_nonneg n Hn) as (_ & Hh & _). rewrite split_on_no_sep.
    + cbn [nth]. by rewrite py_int0_hex.
    + change ("0x" +:+ hex_text n) with (String "0" (String "x" (hex_text n))). cbn [forall_chars].
      apply (forall_chars_impl is_hex); [|done]. intros c (_ & Hc & _)%is_hex_cases.
      apply negb_true_iff. by apply Ascii.eqb_neq.
  - (* a negative number prints as 0x-..., which is no literal *)
    assert (Hneg : ∃ d, hex_text n = String "-" d ∧ forall_chars is_hex d = true).
    { unfold hex_text. rewrite (proj2 (Z.ltb_lt n 0)) by done. eexists. split; [reflexivity|].
      apply hex_digits_chars; [lia|done]. }
    destruct Hneg as (d & -> & Hd).
    assert (Hs : forall_chars (fun c => negb (Ascii.eqb c "/")) d = true).
    { apply (forall_chars_impl is_hex); [|done]. intros c (_ & Hc & _)%is_hex_cases.
      apply negb_true_iff. by apply Ascii.eqb_neq. }
    assert (Hw : forall_chars (fun c => negb (is_space c)) d = true).
    { apply (forall_chars_impl is_hex); [|done]. intros c (_ & _ & Hc)%is_hex_cases. by rewrite Hc. }
    change ("0x" +:+ String "-" d) with (String "0" (String "x" (String "-" d))).
    rewrite split_on_no_sep by (cbn; by rewrite Hs). cbn [nth].
    unfold py_int0. rewrite strip_no_space by (cbn; by rewrite Hw). done.
Qed.

Lemma canonical_mark_idem x : canonical_mark (canonical_mark x) = canonical_mark x.
Proof. destruct (canonical_mark_cases x) as [E|[n E]]; rewrite !E; [done|apply canonical_mark_hex]. Qed.

Lemma canonical_mark_key key x :
  canonical_mark key = key → (∀ n, "0x" +:+ hex_text n ≠ key) → canonical_mark x = key ↔ x = key.
Proof.
  intros Hk Hn. split; [|by intros ->].
  intros H. destruct (canonical_mark_cases x) as [E|[n E]]; [congruence|]. rewrite H in E. by destruct (Hn n).
Qed.

Lemma canonicalize_idem l :
  canonicalize_iptables_tokens (canonicalize_iptables_tokens l) = canonicalize_iptables_tokens l.
Proof.
  apply (rewrite_both_idem "-d" "--mark" canonical_destination canonical_mark).
  - intros x. by apply canonical_destination_key.
  - intros x. by apply canonical_destination_key.
  - intros x. apply canonical_mark_key; done.
  - intros x. apply canonical_mark_key; done.
  - apply canonical_destination_idem.
  - apply canonical_mark_idem.
  - done.
Qed.

(** ** iptables *)
Lemma consumes_refl l : consumes l l = true.
Proof. induction l as [|x l IH]; [done|]. cbn. by rewrite String.eqb_refl. Qed.

(** The canonical form of a rule is recognised as that rule. *)
Lemma matches_own_rule r : iptables_rule_matches_expected (canonicalize_iptables_tokens r) r = true.
Proof.
  unfold iptables_rule_matches_expected, iptables_rule_contains. case_bool_decide as H.
  - apply bool_decide_true. apply take_ge. done.
  - rewrite canonicalize_idem. apply consumes_refl.
Qed.

Lemma expected_rules_snd k binary : map snd (expected_iptables_rules k binary) = map (drop 3) (expected_iptables_commands k binary).
Proof.
  unfold expected_iptables_rules. generalize (expected_iptables_commands k binary) as l. intros l.
  change (map snd (imap ?f l)) with (snd <$> imap f l). rewrite fmap_imap.
  rewrite <- imap_const. apply imap_ext. done.
Qed.

Lemma last_appended_rule k binary :
  In (managed_comment ++ ["-j"; "REJECT"]) (map (drop 3) (expected_iptables_commands k binary)).
Proof. unfold expected_iptables_commands. rewrite !map_app, !in_app_iff. do 7 right. by left. Qed.

(** a managed chain that lists the rules which enabling appends, in the canonical spelling
    of the tool, is inspected as active and consistent with no mismatch, for both families: the
    expected rules and the appended ones are the same list. *)
Theorem iptables_inspection_accepts k binary chain_result jump_result :
  binary = "iptables" ∨ binary = "ip6tables" →
  ks_tunnel_interface k ≠ "-j" →
  cr_returncode chain_result = 0%Z → cr_returncode jump_result = 0%Z →
  iptables_chain_rules (cr_stdout chain_result)
  = map canonicalize_iptables_tokens (appended_rules (iptables_enable_of binary k)) →
  iptables_family_state k binary chain_result jump_result =
  {| fs_method := binary; fs_artifacts_present := true; fs_active := true; fs_consistent := true;
     fs_mismatch_reasons := [] |}.
Proof.
  intros Hb Ht Hc Hj Hrules. unfold iptables_family_state. rewrite Hc, Hj. cbn [Z.eqb negb orb].
  rewrite Hrules, <- expected_iptables_commands_appended by done.
  set (expected := expected_iptables_rules k binary).
  rewrite <- expected_rules_snd. fold expected.
  assert (Hmissing : List.filter (fun e => negb (existsb (fun rule => iptables_rule_matches_expected rule e.2)
            (map canonicalize_iptables_tokens (map snd expected)))) expected = []).
  { apply List_filter_nil. intros e He. apply negb_false_iff, existsb_exists.
    exists (canonicalize_iptables_tokens e.2). split; [|apply matches_own_rule].
    apply in_map, in_map. by apply list_elem_of_In. }
  rewrite Hmissing.
  assert (Hterm : existsb (fun rule => bool_decide (take (length (managed_comment ++ ["-j"; "REJECT"])) rule
                     = managed_comment ++ ["-j"; "REJECT"])) (map canonicalize_iptables_tokens (map snd expected)) = true).
  { apply existsb_exists. exists (managed_comment ++ ["-j"; "REJECT"]). split; [|done].
    change (managed_comment ++ ["-j"; "REJECT"])
      with (canonicalize_iptables_tokens (managed_comment ++ ["-j"; "REJECT"])).
    apply in_map. unfold expected. rewrite expected_rules_snd. apply last_appended_rule. }
  rewrite Hterm. unfold py_len. rewrite !length_map, Z.eqb_refl. done.
Qed.

(** ** nftables *)

Lemma dict_set_key_elem {V} x (b : V) d y : y ∈ map fst (dict_set x b d) ↔ y = x ∨ y ∈ map fst d.
Proof.
  rewrite dict_set_keys. unfold dict_has. destruct (dict_get x d) as [v|] eqn:E.
  - split; [by right|]. intros [->|]; [|done].
    apply dict_get_elem_of in E. by apply (list_elem_of_fmap_2 fst _ (x, v)).
  - rewrite elem_of_app, list_elem_of_singleton. tauto.
Qed.

(** Checks whose value depends only on their name: none of them hides another *)
Lemma failed_checks_nil (value : string → bool) (checks : list (string * bool)) :
  Forall (fun c => c.2 = value c.1) checks →
  failed_checks checks = [] ↔ Forall (fun c => c.2 = true) checks.
Proof.
  intros Hv. unfold failed_checks.
  assert (Hd : ∀ d, Forall (fun c => c.2 = value c.1) d →
    Forall (fun c => c.2 = value c.1) (dict_update d checks) ∧
    ∀ x, x ∈ map fst (dict_update d checks) ↔ x ∈ map fst d ∨ x ∈ map fst checks).
  { unfold dict_update. induction Hv as [|[x b] l Hx Hl IH]; intros d Hd; cbn.
    - split; [done|]. intros y. rewrite elem_of_nil. tauto.
    - destruct (IH (dict_set x b d)) as [H1 H2]; [by apply dict_set_Forall|].
      split; [done|]. intros y. rewrite H2, dict_set_key_elem, elem_of_cons. tauto. }
  destruct (Hd [] ltac:(done)) as [Hval Hkeys]. rewrite Forall_forall in Hval, Hv.
  split.
  - intros Hnil. apply map_eq_nil in Hnil. rewrite List_filter_nil in Hnil.
    apply Forall_forall. intros [x b] Hxb.
    assert (Hx : x ∈ map fst (dict_update [] checks)).
    { apply Hkeys. right. by apply (list_elem_of_fmap_2 fst _ (x, b)). }
    apply list_elem_of_fmap in Hx as ([y c] & -> & Hy).
    pose proof (Hv _ Hxb) as E1. pose proof (Hval _ Hy) as E2. pose proof (Hnil _ Hy) as E3.
    cbn in *. apply negb_false_iff in E3. congruence.
  - intros Hall. rewrite Forall_forall in Hall.
    assert (Hnil : List.filter (fun c => negb c.2) (dict_update [] checks) = []); [|by rewrite Hnil].
    apply List_filter_nil. intros [y c] Hy. cbn. apply negb_false_iff.
    assert (Hx : y ∈ map fst checks).
    { destruct (proj1 (Hkeys y)) as [Hn|]; [by apply (list_elem_of_fmap_2 fst _ (y, c))|by apply not_elem_of_nil in Hn|done]. }
    apply list_elem_of_fmap in Hx as ([x b] & -> & Hb).
    pose proof (Hv _ Hb) as E1. pose proof (Hval _ Hy) as E2. pose proof (Hall _ Hb) as E3. cbn in *. congruence.
Qed.

Section nft_inspection.
Context (k : KillSwitch) (chain guard_chain : string) (managed_lines guard_lines : list string).

(** The checks with a fixed name *)
Definition fixed_checks : list (string * bool) :=
  take 13 (nft_checks k chain guard_chain managed_lines guard_lines)
  ++ [("missing_internal_dns_allow:172.19.0.2/udp",
        nft_rule_present managed_lines ["ip"; "daddr"; "172.19.0.2"; "udp"; "dport"; "53"] "accept");
      ("missing_internal_dns_allow:172.19.0.2/tcp",
        nft_rule_present managed_lines ["ip"; "daddr"; "172.19.0.2"; "tcp"; "dport"; "53"] "accept");
      ("missing_dns_reject:udp/53", nft_rule_present managed_lines ["udp"; "dport"; "53"] "reject");
      ("missing_dns_reject:udp/853", nft_rule_present managed_lines ["udp"; "dport"; "853"] "reject");
      ("missing_dns_reject:tcp/53", nft_rule_present managed_lines ["tcp"; "dport"; "53"] "reject");
      ("missing_dns_reject:tcp/853", nft_rule_present managed_lines ["tcp"; "dport"; "853"] "reject");
      ("missing_ipv6_allow", nft_rule_present managed_lines ["ip6"; "daddr"; "::/0"] "accept");
      ("missing_terminal_drop:tcp", nft_rule_present managed_lines ["meta"; "l4proto"; "tcp"] "drop");
      ("missing_terminal_drop:udp", nft_rule_present managed_lines ["meta"; "l4proto"; "udp"] "drop");
      ("missing_terminal_drop:icmp", nft_rule_present managed_lines ["meta"; "l4proto"; "icmp"] "drop");
      ("missing_terminal_drop:ipv6-icmp", nft_rule_present managed_lines ["meta"; "l4proto"; "ipv6-icmp"] "drop")].

(** The value of a check, from its name alone *)
Definition check_value (name : string) : bool :=
  match dict_get name fixed_checks with
  | Some b => b
  | None =>
      let '(tag, _, rest) := partition_on ":" name in
      if String.eqb tag "missing_direct_egress_allow" then
        nft_rule_present managed_lines ["meta"; "skuid"; rest; "meta"; "mark"; SING_BOX_OUTBOUND_MARK] "accept"
      else if String.eqb tag "missing_endpoint_allow" then
        nft_rule_present managed_lines [if contains ":" rest then "ip6" else "ip"; "daddr"; rest] "accept"
      else nft_rule_present managed_lines ["ip"; "daddr"; rest] "accept"
  end.

Lemma nft_checks_by_name :
  Forall (fun c => c.2 = check_value c.1) (nft_checks k chain guard_chain managed_lines guard_lines).
Proof.
  unfold nft_checks. rewrite !Forall_app. repeat split.
  - repeat (apply Forall_cons; split; [reflexivity|]). constructor.
  - destruct (ks_direct_egress_uid k) as [uid|]; [|constructor].
    apply Forall_cons. split; [|constructor]. reflexivity.
  - apply Forall_map, Forall_true. intros a. cbn [fst snd].
    unfold nft_family. rewrite <- ip_text_family. reflexivity.
  - repeat (apply Forall_cons; split; [reflexivity|]). constructor.
  - repeat (apply Forall_cons; split; [reflexivity|]). constructor.
  - destruct (ks_allow_lan k); [|constructor]. apply Forall_map, Forall_true. intros a. reflexivity.
  - destruct (ks_block_ipv6 k); [constructor|]. apply Forall_cons. split; [reflexivity|constructor].
  - repeat (apply Forall_cons; split; [reflexivity|]). constructor.
Qed.

(** How a rule must appear among the managed lines of its chain: its match (with the host
    prefix of the loopback address left out, as it is printed) and its verdict; the final
    unconditional rule starts with its counter. *)
Definition rule_listed (r : fw_rule) : bool :=
  let lines := if String.eqb (ru_chain r) WATCHDOGVPN_CAPTURE_GUARD_CHAIN then guard_lines else managed_lines in
  match ru_match r with
  | [] => existsb (fun line => startswith "counter " line
                     && contains (" " +:+ ru_verdict r +:+ " comment ") (" " +:+ line +:+ " ")) lines
  | m =>
      nft_rule_present lines
        (if bool_decide (m = ["ip6"; "daddr"; "::1/128"]) then ["ip6"; "daddr"; "::1"] else m) (ru_verdict r)
  end.

Definition hooks_listed : bool :=
  re_found (two_words "hook" "output") chain && re_found (two_words "policy" "drop") chain
  && re_found (two_words "hook" "postrouting") guard_chain && re_found (two_words "policy" "accept") guard_chain.

Lemma rule_listed_plain m v :
  m ≠ [] → m ≠ ["ip6"; "daddr"; "::1/128"] → rule_listed (out m v) = nft_rule_present managed_lines m v.
Proof. intros Hm Hl. unfold rule_listed. destruct m; [done|]. cbn [ru_match out]. by rewrite bool_decide_false. Qed.

Lemma rules_listed_each {A} (f : A → list string) v l :
  (∀ x, f x ≠ [] ∧ f x ≠ ["ip6"; "daddr"; "::1/128"]) →
  Forall (fun r => rule_listed r = true) (map (fun x => out (f x) v) l) ↔
  Forall (fun x => nft_rule_present managed_lines (f x) v = true) l.
Proof.
  intros H. rewrite Forall_map. apply Forall_iff. intros x. destruct (H x).
  by rewrite rule_listed_plain.
Qed.

Lemma endpoint_match_plain a : [nft_family a; "daddr"; ip_text a] ≠ ["ip6"; "daddr"; "::1/128"].
Proof.
  intros [= Hf Ht]. eapply (ip_text_not_prefixed a "::1/128"); try done.
  unfold nft_family in Hf. by destruct (Z.eqb_spec (ip_version a) 6).
Qed.

Lemma nft_checks_are_rules :
  Forall (fun c => c.2 = true) (nft_checks k chain guard_chain managed_lines guard_lines) ↔
  hooks_listed = true ∧ Forall (fun r => rule_listed r = true) (nft_policy k).
Proof.
  unfold nft_checks, nft_policy, accept_each, hooks_listed.
  rewrite !Forall_app, !andb_true_iff.
  rewrite (rules_listed_each direct_egress_match), (rules_listed_each (fun a => [nft_family a; _; _])),
    (rules_listed_each (fun cidr => ["ip"; "daddr"; cidr])) by (intros x; split; (done || apply endpoint_match_plain)).
  assert (Hlan : Forall (fun c => c.2 = true)
     (if ks_allow_lan k then map (fun cidr => ("missing_lan_allow:" +:+ cidr,
        nft_rule_present managed_lines ["ip"; "daddr"; cidr] "accept")) (ks_lan_cidrs k) else [])
     ↔ Forall (fun cidr => nft_rule_present managed_lines ["ip"; "daddr"; cidr] "accept" = true)
         (if ks_allow_lan k then ks_lan_cidrs k else [])).
  { destruct (ks_allow_lan k); [|by rewrite !Forall_nil]. by rewrite Forall_map. }
  assert (Hv6 : Forall (fun c => c.2 = true)
     (if negb (ks_block_ipv6 k)
      then [("missing_ipv6_allow", nft_rule_present managed_lines ["ip6"; "daddr"; "::/0"] "accept")] else [])
     ↔ Forall (fun r => rule_listed r = true)
         (map (fun x => out (id x) "accept") (if negb (ks_block_ipv6 k) then [["ip6"; "daddr"; "::/0"]] else []))).
  { destruct (ks_block_ipv6 k); cbn [negb map]; by rewrite ?Forall_cons, !Forall_nil. }
  assert (Huid : Forall (fun c => c.2 = true)
     (match ks_direct_egress_uid k with
      | Some uid => [("missing_direct_egress_allow:" +:+ pretty uid,
                      nft_rule_present managed_lines (direct_egress_match uid) "accept")]
      | None => [] end)
     ↔ Forall (fun uid => nft_rule_present managed_lines (direct_egress_match uid) "accept" = true)
         (option_list (ks_direct_egress_uid k))).
  { destruct (ks_direct_egress_uid k); cbn [option_list option_rect]; by rewrite ?Forall_cons, !Forall_nil. }
  rewrite Hlan, Hv6, Huid, (Forall_map _ _ (parsed_endpoints k)). clear Hlan Hv6 Huid.
  cbn [SING_BOX_TUN_DNS_ENDPOINTS flat_map map app]. rewrite !Forall_cons, !Forall_nil. cbn [fst snd].
  split; intros H; decompose [and] H; clear H; repeat split; assumption.
Qed.
End nft_inspection.

(** [_expected_nft_rule_count] is the number of generated rules. *)
Lemma expected_count_is_generated k : expected_nft_rule_count k = py_len (nft_policy k).
Proof.
  unfold expected_nft_rule_count, py_len, nft_policy, accept_each.
  rewrite !length_app, !length_map.
  destruct (ks_direct_egress_uid k), (ks_allow_lan k), (ks_block_ipv6 k); cbn [length option_list option_rect negb]; lia.
Qed.

(** The chain bodies that the inspection cuts out of a listing *)
Definition listed_chain (name : string) (result : CommandResult) : string :=
  default "" (re_search (chain_pattern name) (cr_stdout result)).

(** C25: the inspection of the nftables table reports it consistent exactly when the listing
    shows both base chains with their hooks and policies, a managed line for every rule that
    enabling generates, in its own chain, and no other number of managed lines: the hand-written
    checks and the generator agree for every configuration. *)
Theorem nft_inspection_exact k result :
  cr_returncode result = 0%Z →
  let chain := listed_chain WATCHDOGVPN_CHAIN result in
  let guard_chain := listed_chain WATCHDOGVPN_CAPTURE_GUARD_CHAIN result in
  let managed_lines := managed_nft_rule_lines chain in
  let guard_lines := managed_nft_rule_lines guard_chain in
  let rules := nft_rules (nft_enable_commands k) in
  fs_consistent (nft_state_of_listing k result) = true ↔
  hooks_listed chain guard_chain = true
  ∧ Forall (fun r => rule_listed managed_lines guard_lines r = true) rules
  ∧ (length managed_lines + length guard_lines = length rules)%nat.
Proof.
  intros Hrc chain guard_chain managed_lines guard_lines rules.
  unfold nft_state_of_listing. rewrite Hrc. cbn [Z.eqb negb fs_consistent].
  fold (listed_chain WATCHDOGVPN_CHAIN result) (listed_chain WATCHDOGVPN_CAPTURE_GUARD_CHAIN result).
  fold chain guard_chain managed_lines guard_lines. unfold rules. rewrite nft_rules_of_policy.
  pose proof (failed_checks_nil _ _ (nft_checks_by_name k chain guard_chain managed_lines guard_lines)) as Hnil.
  rewrite nft_checks_are_rules in Hnil.
  assert (Hcount : ∀ r, (if negb (py_len managed_lines + py_len guard_lines =? expected_nft_rule_count k)%Z
            then [r] else []) = ([] : list string)
          ↔ (length managed_lines + length guard_lines = length (nft_policy k))%nat).
  { intros r. rewrite expected_count_is_generated. unfold py_len.
    destruct (Z.eqb_spec (Z.of_nat (length managed_lines) + Z.of_nat (length guard_lines))
                (Z.of_nat (length (nft_policy k)))); cbn [negb]; split; (done || lia). }
  rewrite andb_true_iff, bool_decide_eq_true, app_nil, Hnil, Hcount.
  split; [tauto|]. intros (Hh & Hr & Hc). repeat split; try done.
  unfold hooks_listed in Hh. rewrite !andb_true_iff in *. tauto.
Qed.

(** ** A listing as the tools print it *)
Definition sample_line (m v : string) : string :=
  "        " +:+ m +:+ (if truthy_str m then " " else "") +:+ "counter packets 12 bytes 840 " +:+ v +:+ " comment "
  +:+ WATCHDOGVPN_NFT_COMMENT.

Definition sample_nft_listing : string :=
  join (String newline "")
    (["table inet watchdogvpn {"; "    chain output {";
      "        type filter hook output priority filter; policy drop;"]
     ++ map (fun '(m, v) => sample_line m v)
          [ ("oifname " +:+ dquote +:+ "lo" +:+ dquote, "accept"); ("ip daddr 127.0.0.0/8", "accept");
            ("ip6 daddr ::1", "accept"); ("oifname " +:+ dquote +:+ "wdvpn-tun0" +:+ dquote, "accept");
            ("meta skuid 998 meta mark 0x00002024", "accept"); ("ip daddr 203.0.113.7", "accept");
            ("ip daddr 172.19.0.2 udp dport 53", "accept"); ("ip daddr 172.19.0.2 tcp dport 53", "accept");
            ("udp dport 53", "reject"); ("udp dport 853", "reject"); ("tcp dport 53", "reject");
            ("tcp dport 853", "reject"); ("meta mark 0x00002023", "accept");
            ("ct state established,related", "accept"); ("ip daddr 10.0.0.0/8", "accept");
            ("ip daddr 172.16.0.0/12", "accept"); ("ip daddr 192.168.0.0/16", "accept");
            ("ip daddr 169.254.0.0/16", "accept"); ("meta l4proto tcp", "drop"); ("meta l4proto udp", "drop");
            ("meta l4proto icmp", "drop"); ("meta l4proto ipv6-icmp", "drop"); ("", "drop") ]
     ++ ["    }"; ""; "    chain capture_postrouting {";
         "        type filter hook postrouting priority filter; policy accept;"]
     ++ map (fun '(m, v) => sample_line m v)
          [ ("meta mark 0x00002023 oifname " +:+ dquote +:+ "wdvpn-tun0" +:+ dquote, "accept");
            ("meta mark 0x00002023", "drop") ]
     ++ ["    }"; "}"; ""]).

Definition sample_kill_switch : KillSwitch := {|
  ks_tunnel_interface := "wdvpn-tun0"; ks_block_ipv6 := true; ks_allow_lan := true;
  ks_allowed_endpoints := ["203.0.113.7"; "vpn.example.net"]; ks_direct_egress_uid := Some 998%Z;
  ks_lan_cidrs := DEFAULT_LAN_CIDRS; ks_method := None
|}.

Example sample_listing_consistent :
  nft_state_of_listing sample_kill_switch {| cr_returncode := 0; cr_stdout := sample_nft_listing; cr_stderr := "" |}
  = {| fs_method := "nftables"; fs_artifacts_present := true; fs_active := true; fs_consistent := true;
       fs_mismatch_reasons := [] |}.
Proof. vm_compute. reflexivity. Qed.

Lemma nft_inspection_exact_witness :
  let result := {| cr_returncode := 0; cr_stdout := sample_nft_listing; cr_stderr := "" |} in
  length (managed_nft_rule_lines (listed_chain WATCHDOGVPN_CHAIN result)) = 23%nat ∧
  Forall (fun r => rule_listed (managed_nft_rule_lines (listed_chain WATCHDOGVPN_CHAIN result))
                     (managed_nft_rule_lines (listed_chain WATCHDOGVPN_CAPTURE_GUARD_CHAIN result)) r = true)
    (nft_rules (nft_enable_commands sample_kill_switch)).
Proof.
  intros result. split; [vm_compute; reflexivity|].
  apply (proj1 (nft_inspection_exact sample_kill_switch result ltac:(reflexivity))).
  vm_compute. reflexivity.
Defined.

Definition sample_iptables_listing : string :=
  join (String newline "")
    ([ "-N WATCHDOGVPN-OUTPUT" ]
     ++ map (fun '(m, t) => "-A WATCHDOGVPN-OUTPUT " +:+ m +:+ (if truthy_str m then " " else "")
               +:+ "-m comment --comment " +:+ WATCHDOGVPN_NFT_COMMENT +:+ " -j " +:+ t)
          [ ("-o lo", "ACCEPT"); ("-d 127.0.0.0/8", "ACCEPT"); ("-o wdvpn-tun0", "ACCEPT");
            ("-m owner --uid-owner 998 -m mark --mark 0x2024", "ACCEPT"); ("-d 203.0.113.7/32", "ACCEPT");
            ("-d 172.19.0.2/32 -p udp --dport 53", "ACCEPT"); ("-d 172.19.0.2/32 -p tcp --dport 53", "ACCEPT");
            ("-p udp --dport 53", "REJECT"); ("-p udp --dport 853", "REJECT"); ("-p tcp --dport 53", "REJECT");
            ("-p tcp --dport 853", "REJECT"); ("-m conntrack --ctstate ESTABLISHED,RELATED", "ACCEPT");
            ("-d 10.0.0.0/8", "ACCEPT"); ("-d 172.16.0.0/12", "ACCEPT"); ("-d 192.168.0.0/16", "ACCEPT");
            ("-d 169.254.0.0/16", "ACCEPT"); ("", "REJECT") ]).

Lemma iptables_inspection_accepts_witness :
  fs_active (iptables_family_state sample_kill_switch "iptables"
               {| cr_returncode := 0; cr_stdout := sample_iptables_listing; cr_stderr := "" |}
               {| cr_returncode := 0; cr_stdout := ""; cr_stderr := "" |}) = true.
Proof.
  rewrite (iptables_inspection_accepts sample_kill_switch "iptables"
             {| cr_returncode := 0; cr_stdout := sample_iptables_listing; cr_stderr := "" |}
             {| cr_returncode := 0; cr_stdout := ""; cr_stderr := "" |}); try reflexivity.
  - by left.
  - discriminate.
Defined.
