(* ===== verification/KillSwitchRun.v ===== *)
(** * Installing and removing the kill switch

    The outcomes of [apply_atomic], [enable] and [disable] (core/kill_switch.py) in terms of
    the ruleset a firewall holds, for every firewall that behaves as [NftFirewall] states, and
    the commands that [apply_atomic] runs. *)
From stdpp Require Import base list strings pretty.
From Stdlib Require Import Ascii ZArith.
From S2P Require Import Prelude Steps PyData PyText KillSwitch KillSwitchPolicy KillSwitchInspect.

Definition nft_list_command : list string := ["nft"; "list"; "table"; "inet"; WATCHDOGVPN_TABLE].
Definition nft_delete_command : list string := ["nft"; "delete"; "table"; "inet"; WATCHDOGVPN_TABLE].

(** The effect of an accepted command on the table: the commands it was built with *)
Definition nft_effect (table : list (list string)) (command : list string) : list (list string) :=
  if bool_decide (command = nft_delete_command) then [] else table ++ [command].

Definition replace_commands (existing : bool) (k : KillSwitch) : list (list string) :=
  (if existing then [nft_delete_command] else []) ++ nft_enable_commands k.

(** What the code relies on of [nft], for the configuration [k]: which commands change the
    managed table and how.  [installed] is the table, as the commands that built it. *)
Class NftFirewall {W : Type} (env : KillSwitchEnv W) (k : KillSwitch) : Type := {
  installed : W → list (list string);
  which_inert : ∀ name w, installed (ke_which env name w).2 = installed w;
  (* listing the table, and every command of another tool *)
  inspect_inert : ∀ c w, c = nft_list_command ∨ head c ≠ Some "nft" → installed (ke_run env c w).2 = installed w;
  (* listing or deleting the table fails only when there is none *)
  absent_list : ∀ w r w', ke_run env nft_list_command w = (Ok r, w') → cr_returncode r ≠ 0%Z → installed w = [];
  absent_delete : ∀ w r w', ke_run env nft_delete_command w = (Ok r, w') → cr_returncode r ≠ 0%Z →
    installed w = [] ∧ installed w' = [];
  accepted : ∀ c w r w', c = nft_delete_command ∨ c ∈ nft_enable_commands k →
    ke_run env c w = (Ok r, w') → cr_returncode r = 0%Z → installed w' = nft_effect (installed w) c;
  (* a batch takes effect as a whole or not at all *)
  batch_accepted : ∀ existing w r w',
    ke_nft_batch env (nft_batch_script (replace_commands existing k)) w = (Ok r, w') →
    cr_returncode r = 0%Z → installed w' = foldl nft_effect (installed w) (replace_commands existing k);
  batch_refused : ∀ existing w r w',
    ke_nft_batch env (nft_batch_script (replace_commands existing k)) w = (Ok r, w') →
    cr_returncode r ≠ 0%Z → installed w' = installed w
}.

(** ** Inspection changes nothing *)
Section inert.
Context {W : Type} (env : KillSwitchEnv W) (R : W → W → Prop) `{!PreOrder R}.
Context (which_R : ∀ name w, R w (ke_which env name w).2).
Context (inspect_R : ∀ c w, c = nft_list_command ∨ head c ≠ Some "nft" ∧ (nth 1 c "" = "-S" ∨ nth 1 c "" = "-C") →
  R w (ke_run env c w).2).

(** The kill switch is the same object with the same fields, the world moves within [R]. *)
Definition world_step (s s' : KillSwitch * W) : Prop := s'.1 = s.1 ∧ R s.2 s'.2.

#[export] Instance world_step_preorder : PreOrder world_step.
Proof.
  split.
  - intros s. split; [done|reflexivity].
  - intros s1 s2 s3 [H1 H2] [H3 H4]. split; [congruence|by etrans].
Qed.

Lemma ks_steps_on_world {A} (m : PyM W A) : (∀ w, R w (m w).2) → steps world_step (on_world m).
Proof. intros H [k w]. specialize (H w). unfold on_world. destruct (m w). by split. Qed.

#[local] Hint Resolve which_R : steps.

Lemma ks_steps_which name : steps world_step (which env name).
Proof. apply steps_bind; [typeclasses eauto|by apply ks_steps_on_world|]. steps_tac. Qed.

Lemma ks_steps_self : steps world_step (self (W := W)).
Proof. apply steps_gets. typeclasses eauto. Qed.

Lemma ks_steps_inspection c :
  c = nft_list_command ∨ head c ≠ Some "nft" ∧ (nth 1 c "" = "-S" ∨ nth 1 c "" = "-C") →
  steps world_step (run env c).
Proof. intros Hc. apply ks_steps_on_world. intros w. by apply inspect_R. Qed.

#[local] Hint Resolve ks_steps_which ks_steps_self : steps.

Lemma ks_steps_inspect_nftables : steps world_step (inspect_nftables env).
Proof.
  unfold inspect_nftables. apply steps_bind; [typeclasses eauto|apply ks_steps_self|intros k].
  apply steps_bind; [typeclasses eauto|apply ks_steps_inspection; by left|steps_tac].
Qed.

Lemma ks_steps_inspect_family binary :
  binary ≠ "nft" → steps world_step (inspect_iptables_family env binary).
Proof.
  intros Hb. unfold inspect_iptables_family. apply steps_bind; [typeclasses eauto|apply ks_steps_self|intros k].
  do 2 (apply steps_bind; [typeclasses eauto|apply ks_steps_inspection; right; split; [cbn; congruence|auto]|intros ?]).
  steps_tac.
Qed.

Lemma ks_steps_ipv6_backend b : steps world_step (ipv6_backend env b).
Proof. unfold ipv6_backend. steps_tac. Qed.

#[local] Hint Resolve ks_steps_inspect_nftables ks_steps_ipv6_backend : steps.

Lemma ks_steps_inspect_iptables : steps world_step (inspect_iptables env).
Proof.
  assert (H4 : steps world_step (inspect_iptables_family env "iptables")) by by apply ks_steps_inspect_family.
  assert (H6 : steps world_step (inspect_iptables_family env "ip6tables")) by by apply ks_steps_inspect_family.
  unfold inspect_iptables. steps_tac.
Qed.

#[local] Hint Resolve ks_steps_inspect_iptables : steps.

Lemma ks_steps_chosen_method : steps world_step (chosen_method env).
Proof. unfold chosen_method, detect_method. steps_tac. Qed.

#[local] Hint Resolve ks_steps_chosen_method : steps.

Lemma ks_steps_status : steps world_step (status env).
Proof. unfold status. steps_tac. Qed.
End inert.

(** ** Outcomes *)
Section outcomes.
Context {W : Type} (env : KillSwitchEnv W) (k : KillSwitch) `{!NftFirewall env k}.

Definition same_table (w w' : W) : Prop := installed w' = installed w.

#[local] Instance same_table_preorder : PreOrder same_table.
Proof. split; [by intros w|]. intros w1 w2 w3 H1 H2. unfold same_table in *. congruence. Qed.

Abbreviation unchanged := (world_step same_table).

Lemma inert_of {A} (m : KM A) (s : KillSwitch * W) r s' :
  steps unchanged m → m s = (r, s') → s'.1 = s.1 ∧ installed s'.2 = installed s.2.
Proof. intros H E. specialize (H s). rewrite E in H. exact H. Qed.

Lemma which_same name w : same_table w (ke_which env name w).2.
Proof. apply which_inert. Qed.

Lemma inspect_same c w :
  c = nft_list_command ∨ head c ≠ Some "nft" ∧ (nth 1 c "" = "-S" ∨ nth 1 c "" = "-C") →
  same_table w (ke_run env c w).2.
Proof. intros Hc. apply inspect_inert. tauto. Qed.

Lemma other_tool_same c : head c ≠ Some "nft" → steps unchanged (run env c).
Proof. intros Hc. apply ks_steps_on_world. intros w. apply inspect_inert. by right. Qed.

#[local] Hint Resolve which_same inspect_same : steps.

Lemma status_same : steps unchanged (status env).
Proof. apply ks_steps_status; [typeclasses eauto|apply which_same|apply inspect_same]. Qed.
Lemma chosen_same : steps unchanged (chosen_method env).
Proof. apply ks_steps_chosen_method; [typeclasses eauto|apply which_same]. Qed.
Lemma wh_same name : steps unchanged (which env name).
Proof. apply ks_steps_which; [typeclasses eauto|apply which_same]. Qed.

Lemma run_each_same l : Forall (fun c => head c ≠ Some "nft") l → steps unchanged (run_each env l).
Proof.
  induction 1 as [|c l Hc Hl IH]; cbn [run_each]; [steps_tac|].
  apply steps_bind; [typeclasses eauto| |intros b; apply steps_bind; [typeclasses eauto|done|steps_tac]].
  unfold run_optional. apply steps_bind; [typeclasses eauto|by apply other_tool_same|steps_tac].
Qed.

Lemma disable_iptables_same : steps unchanged (disable_iptables env).
Proof.
  unfold disable_iptables.
  assert (Hd : ∀ b, b ≠ "nft" → steps unchanged (run_each env (iptables_disable_commands b))).
  { intros b Hb. apply run_each_same. repeat (constructor; [cbn; congruence|]). constructor. }
  assert (H4 := Hd "iptables" ltac:(done)). assert (H6 := Hd "ip6tables" ltac:(done)).
  assert (Hw := wh_same "ip6tables"). steps_tac.
Qed.

Lemma run_ok_inv c (s : KillSwitch * W) r s' :
  run env c s = (Ok r, s') → s'.1 = s.1 ∧ ke_run env c s.2 = (Ok r, s'.2).
Proof.
  destruct s as [k0 w]. unfold run, on_world. destruct (ke_run env c w) as [r0 w'] eqn:E.
  intros [= -> <-]. by split.
Qed.

(** [artifacts_present] of the inspection is the success of the listing. *)
Lemma nft_artifacts_present k0 r : fs_artifacts_present (nft_state_of_listing k0 r) = (cr_returncode r =? 0)%Z.
Proof. unfold nft_state_of_listing. by destruct (cr_returncode r =? 0)%Z. Qed.

Lemma inspect_nftables_inv s st s' :
  inspect_nftables env s = (Ok st, s') →
  s'.1 = s.1 ∧ installed s'.2 = installed s.2 ∧ (fs_artifacts_present st = false → installed s.2 = []).
Proof.
  intros H. bind_inv H k0 s1 H1. bind_inv H r s2 H2. apply ret_ok_inv in H as [<- <-].
  unfold self, gets in H1. injection H1 as <- <-.
  apply run_ok_inv in H2 as [Hk Hr]. split; [done|]. split.
  - pose proof (inspect_inert nft_list_command s.2 (or_introl eq_refl)) as HI.
    unfold nft_list_command in HI. by rewrite Hr in HI.
  - rewrite nft_artifacts_present. intros Hz%Z.eqb_neq. by eapply absent_list.
Qed.

Lemma enable_commands_add k0 : Forall (fun c => nth 1 c "" = "add") (nft_enable_commands k0).
Proof.
  unfold nft_enable_commands, nft_direct_egress_rules, nft_endpoint_rules, nft_lan_rules.
  rewrite !Forall_app. repeat split.
  all: try (repeat (apply Forall_cons; split; [done|]); by apply Forall_nil).
  - destruct (ks_direct_egress_uid k0); repeat constructor.
  - by apply Forall_map, Forall_true.
  - destruct (ks_allow_lan k0); [|constructor]. by apply Forall_map, Forall_true.
  - destruct (ks_block_ipv6 k0); repeat constructor.
Qed.

Lemma enable_commands_not_delete k0 c : c ∈ nft_enable_commands k0 → c ≠ nft_delete_command.
Proof. pose proof (enable_commands_add k0) as H. rewrite Forall_forall in H. by intros Hc%H ->. Qed.

Lemma effects_of_adds table l :
  (∀ c, c ∈ l → c ≠ nft_delete_command) → foldl nft_effect table l = table ++ l.
Proof.
  revert table. induction l as [|c l IH]; intros table Hl; cbn; [by rewrite app_nil_r|].
  unfold nft_effect at 2. rewrite bool_decide_false by (apply Hl; left).
  rewrite IH, <- app_assoc; [done|]. intros d Hd. apply Hl. by right.
Qed.

Lemma effects_of_replace table existing k0 :
  existing = true ∨ table = [] → foldl nft_effect table (replace_commands existing k0) = nft_enable_commands k0.
Proof.
  intros H. unfold replace_commands. rewrite foldl_app.
  rewrite effects_of_adds by apply enable_commands_not_delete.
  destruct existing; [done|]. destruct H as [H| ->]; done.
Qed.

(** ** Atomic replacement *)
Lemma apply_atomic_cases k0 w b s' :
  nft_enable_commands k0 = nft_enable_commands k →
  apply_atomic env (k0, w) = (Ok b, s') →
  (b = false ∧ installed s'.2 = installed w) ∨ installed s'.2 = nft_enable_commands k.
Proof.
  intros Hk H. unfold apply_atomic in H. bind_inv H m s1 Hm.
  destruct (inert_of _ _ _ _ chosen_same Hm) as [Hk1 Hi1].
  destruct (negb (bool_decide (m = Some "nftables"))).
  { apply ret_ok_inv in H as [<- <-]. by left. }
  bind_inv H u s2 Ha. unfold assign_method, modifyS in Ha. destruct s1 as [k1 w1]. injection Ha as <- <-.
  bind_inv H st s3 Hi. apply inspect_nftables_inv in Hi as (Hk3 & Hi3 & Habs).
  bind_inv H k4 s4 Hs. unfold self, gets in Hs. injection Hs as <- <-.
  bind_inv H r s5 Hb. destruct s3 as [k3 w3]. cbn in Hk1, Hi1, Hk3, Hi3, Habs. subst k3 k1.
  assert (Ebatch : ke_nft_batch env (nft_batch_script (replace_commands (fs_artifacts_present st) k)) w3 = (Ok r, s5.2)).
  { unfold replace_commands. rewrite <- Hk. unfold on_world in Hb.
    destruct (ke_nft_batch _ _ w3) as [r0 w5] eqn:Eb. by injection Hb as -> <-. }
  destruct (Z.eqb_spec (cr_returncode r) 0) as [Hz|Hz]; cbn [negb] in H.
  - right. apply batch_accepted in Ebatch; [|done].
    rewrite effects_of_replace in Ebatch.
    + bind_inv H stt s6 Hst. apply ret_ok_inv in H as [_ <-].
      destruct (inert_of _ _ _ _ status_same Hst) as [_ Hi6]. congruence.
    + destruct (fs_artifacts_present st); [by left|right]. rewrite Hi3. by apply Habs.
  - left. apply ret_ok_inv in H as [<- <-]. split; [done|]. apply batch_refused in Ebatch; [|done].
    cbn. congruence.
Qed.

(** The status that a successful replacement was checked with *)
Lemma apply_atomic_verified k0 w s' :
  apply_atomic env (k0, w) = (Ok true, s') →
  ∃ s st, status env s = (Ok st, s') ∧ kst_active st = true ∧ kst_consistent st = true.
Proof.
  intros H. unfold apply_atomic in H. bind_inv H m s1 Hm.
  destruct (negb (bool_decide (m = Some "nftables"))); [by apply ret_ok_inv in H as [? _]|].
  bind_inv H u s2 Ha. bind_inv H st s3 Hi. bind_inv H k4 s4 Hs. bind_inv H r s5 Hb.
  destruct (negb (cr_returncode r =? 0)%Z); [by apply ret_ok_inv in H as [? _]|].
  bind_inv H st' s6 Hst. apply ret_ok_inv in H as [Hv <-]. apply andb_true_iff in Hv as [??]. eauto.
Qed.

(** ** Imperative installation and removal *)
Lemma disable_nftables_inv s b s' :
  disable_nftables env s = (Ok b, s') → s'.1 = s.1 ∧ installed s'.2 = [].
Proof.
  intros H. unfold disable_nftables, run_optional in H. bind_inv H r s1 Hr. apply ret_ok_inv in H as [_ <-].
  apply run_ok_inv in Hr as [Hk Hr]. split; [done|].
  destruct (decide (cr_returncode r = 0%Z)) as [Hz|Hz].
  - eapply accepted in Hr; [|by left|done]. exact Hr.
  - by eapply absent_delete in Hr as [_ ?].
Qed.

Lemma run_all_required_inv l s b s' :
  (∀ c, c ∈ l → c ∈ nft_enable_commands k) →
  run_all_required env l s = (Ok b, s') →
  s'.1 = s.1 ∧ (b = true → installed s'.2 = installed s.2 ++ l).
Proof.
  revert s. induction l as [|c l IH]; intros s Hl H; cbn [run_all_required] in H.
  - apply ret_ok_inv in H as [<- <-]. by rewrite app_nil_r.
  - bind_inv H ok s1 Hc. unfold run_required in Hc. bind_inv Hc r s2 Hr. apply ret_ok_inv in Hc as [<- <-].
    apply run_ok_inv in Hr as [Hk2 Hr].
    destruct (Z.eqb_spec (cr_returncode r) 0) as [Hz|Hz].
    + apply IH in H as [Hk' Hi]; [|intros d Hd; apply Hl; by right].
      split; [congruence|]. intros Hb. rewrite (Hi Hb).
      eapply accepted in Hr; [|right; apply Hl; left|done]. rewrite Hr. unfold nft_effect.
      rewrite bool_decide_false by (apply (enable_commands_not_delete k), Hl; left).
      by rewrite <- app_assoc.
    + apply ret_ok_inv in H as [<- <-]. done.
Qed.

Lemma enable_nftables_inv k0 w b s' :
  nft_enable_commands k0 = nft_enable_commands k →
  enable_nftables env (k0, w) = (Ok b, s') →
  s'.1 = k0 ∧ installed s'.2 = if b then nft_enable_commands k else [].
Proof.
  intros Hk H. unfold enable_nftables in H. bind_inv H d s1 Hd. apply disable_nftables_inv in Hd as [Hk1 Hi1].
  bind_inv H k1 s2 Hs. unfold self, gets in Hs. injection Hs as <- <-. bind_inv H ok s3 Hr.
  cbn in Hk1. rewrite Hk1, Hk in Hr. apply run_all_required_inv in Hr as [Hk3 Hi3]; [|done].
  destruct ok.
  - apply ret_ok_inv in H as [<- <-]. rewrite Hi3, Hi1 by done. split; [congruence|done].
  - bind_inv H d2 s4 Hd2. apply ret_ok_inv in H as [<- <-].
    apply disable_nftables_inv in Hd2 as [Hk4 Hi4]. split; [congruence|done].
Qed.

(** [status()] when [nft] is found *)
Lemma status_absent_inv (s : KillSwitch * W) st s' :
  (∀ w, ∃ path, (ke_which env "nft" w).1 = Ok (Some path) ∧ path ≠ "") →
  status env s = (Ok st, s') → kst_artifacts_present st = false → installed s'.2 = [].
Proof.
  intros Hnft H Hst. destruct (inert_of _ _ _ _ status_same H) as [_ Hi]. rewrite Hi.
  unfold status in H. bind_inv H b1 s1 H1. 
  destruct (inert_of _ _ _ _ (wh_same "nft") H1) as [_ Hi1].
  assert (Hb1 : b1 = true).
  { unfold which in H1. bind_inv H1 f s0 Hf. apply ret_ok_inv in H1 as [<- <-].
    destruct s as [k0 w]. unfold on_world in Hf. destruct (Hnft w) as (path & Hp & Hne).
    destruct (ke_which env "nft" w) as [r w']. cbn in Hp. subst r. injection Hf as <- _.
    unfold truthy_str. by apply negb_true_iff, String.eqb_neq. }
  subst b1. bind_inv H l1 s2 H2. bind_inv H2 st1 s3 H3. apply ret_ok_inv in H2 as [<- <-].
  apply inspect_nftables_inv in H3 as (_ & Hi3 & Habs).
  bind_inv H b2 s4 H4. bind_inv H l2 s5 H5. bind_inv H det s6 H6. bind_inv H k7 s7 H7.
  apply ret_ok_inv in H as [<- <-]. cbn in Hst. apply negb_false_iff, bool_decide_eq_true in Hst.
  rewrite <- Hi1. apply Habs. destruct (fs_artifacts_present st1); [discriminate Hst|done].
Qed.
End outcomes.

Section theorems.
Context {W packet : Type} (env : KillSwitchEnv W) (k : KillSwitch) `{!NftFirewall env k}.
Context (matches : list string → packet → bool).
Context (mark_and_interface : ∀ mark i p,
  matches ["meta"; "mark"; mark; "oifname"; i] p = matches ["meta"; "mark"; mark] p && matches ["oifname"; i] p).

(** C24: when [apply_atomic] reports success, the table that the firewall holds is exactly the
    generated policy, it was verified active and consistent, and from then on packets leave the
    host only as the policy permits; when it reports failure, the table is either the one from
    before or that same complete policy, never a part of it. *)
Theorem apply_atomic_enforces w b s' :
  apply_atomic env (k, w) = (Ok b, s') →
  (b = true →
    (∀ p q, nft_egress matches (installed s'.2) p q = nft_permitted matches k p q)
    ∧ ∃ s st, status env s = (Ok st, s') ∧ kst_active st = true ∧ kst_consistent st = true)
  ∧ (installed s'.2 = installed w ∨ installed s'.2 = nft_enable_commands k).
Proof.
  intros H. pose proof (apply_atomic_cases env k k w b s' eq_refl H) as Hc. split; [|tauto].
  intros ->. split; [|by eapply apply_atomic_verified].
  destruct Hc as [[? _]|Hc]; [done|]. intros p q. rewrite Hc. by apply nft_egress_permitted.
Qed.

(** the imperative path through nftables ends with the same table as the atomic one when it
    reports success, and with no managed table at all when it reports failure. *)
Theorem enable_outcome w s1 b s' :
  chosen_method env (k, w) = (Ok (Some "nftables"), s1) →
  enable env (k, w) = (Ok b, s') →
  installed s'.2 = (if b then nft_enable_commands k else []) ∧ ks_method s'.1 = Some "nftables".
Proof.
  intros H1 H. unfold enable in H. bind_inv H m s0 H0. rewrite H1 in H0. injection H0 as <- <-.
  destruct (inert_of env k _ _ _ _ (chosen_same env k) H1) as [Hk1 _]. destruct s1 as [k1 w1]. cbn in Hk1. subst k1.
  bind_inv H u s2 Ha. unfold assign_method, modifyS in Ha. injection Ha as <- <-.
  cbn [String.eqb Ascii.eqb Bool.eqb] in H. bind_inv H ipt s3 Hw.
  destruct (inert_of env k _ _ _ _ (wh_same env k "iptables") Hw) as [Hk3 _].
  bind_inv H d s4 Hd.
  assert (Hk4 : s4.1 = s3.1).
  { destruct ipt; [|by apply ret_ok_inv in Hd as [_ <-]].
    by destruct (inert_of env k _ _ _ _ (disable_iptables_same env k) Hd). }
  destruct s4 as [k4 w4]. cbn in Hk3, Hk4. rewrite Hk3 in Hk4. subst k4.
  apply (enable_nftables_inv env k) in H as [Hk' Hi]; [|done]. split; [done|]. by rewrite Hk'.
Qed.

(** when [disable] reports success on a host that has [nft], no managed table is left and
    the method is forgotten, so that the next activation detects it again; it reports success
    only on the word of an inspection made after the removal. *)
Theorem disable_outcome w s' :
  (∀ w, ∃ path, (ke_which env "nft" w).1 = Ok (Some path) ∧ path ≠ "") →
  disable env (k, w) = (Ok true, s') →
  installed s'.2 = [] ∧ ks_method s'.1 = None
  ∧ ∃ s st t, status env s = (Ok st, t) ∧ t.2 = s'.2 ∧ kst_active st = false ∧ kst_artifacts_present st = false.
Proof.
  intros Hnft H. unfold disable in H. bind_inv H b1 s1 H1. bind_inv H b2 s2 H2. bind_inv H b3 s3 H3.
  bind_inv H b4 s4 H4. bind_inv H st s5 H5.
  destruct (negb (kst_active st) && negb (kst_artifacts_present st)) eqn:E; [|by apply ret_ok_inv in H as [? _]].
  apply andb_true_iff in E as [Ea%negb_true_iff Ep%negb_true_iff].
  pose proof (status_absent_inv env k _ _ _ Hnft H5 Ep) as Hi.
  bind_inv H u s6 H6. apply ret_ok_inv in H as [_ <-].
  unfold assign_method, modifyS in H6. destruct s5 as [k5 w5]. injection H6 as <- <-.
  repeat split; [done|]. exists s4, st, (k5, w5). done.
Qed.
End theorems.

(** ** The commands of the atomic replacement *)
Inductive fw_event : Type := EvRun (command : list string) | EvBatch (script : string).

Definition logged_firewall {W} (env : KillSwitchEnv W) : KillSwitchEnv (W * list fw_event) := {|
  ke_run := fun c '(w, l) => let '(r, w') := ke_run env c w in (r, (w', EvRun c :: l));
  ke_nft_batch := fun s '(w, l) => let '(r, w') := ke_nft_batch env s w in (r, (w', EvBatch s :: l));
  ke_which := fun n '(w, l) => let '(r, w') := ke_which env n w in (r, (w', l))
|}.

(** Everything but listing, [-S] and [-C] *)
Definition may_change (e : fw_event) : bool :=
  match e with
  | EvBatch _ => true
  | EvRun c => negb (bool_decide (c = nft_list_command) || str_in (nth 1 c "") ["-S"; "-C"])
  end.

Section single_change.
Context {W : Type} (env : KillSwitchEnv W).

Definition same_changes (w w' : W * list fw_event) : Prop :=
  List.filter may_change w'.2 = List.filter may_change w.2.

#[local] Instance same_changes_preorder : PreOrder same_changes.
Proof. split; [by intros w|]. intros w1 w2 w3 H1 H2. unfold same_changes in *. congruence. Qed.

Lemma logged_which_same name w : same_changes w (ke_which (logged_firewall env) name w).2.
Proof. destruct w as [w l]. unfold same_changes. cbn. by destruct (ke_which env name w). Qed.

Lemma logged_inspect_same c w :
  c = nft_list_command ∨ head c ≠ Some "nft" ∧ (nth 1 c "" = "-S" ∨ nth 1 c "" = "-C") →
  same_changes w (ke_run (logged_firewall env) c w).2.
Proof.
  intros Hc. destruct w as [w l]. unfold same_changes. cbn -[nth]. destruct (ke_run env c w) as [r w'].
  cbn [snd List.filter may_change].
  assert (E : bool_decide (c = nft_list_command) || str_in (nth 1 c "") ["-S"; "-C"] = true); [|by rewrite E].
  apply orb_true_iff. destruct Hc as [Hc|[_ Hc]]; [left; by apply bool_decide_true|right].
  destruct Hc as [-> | ->]; done.
Qed.

Abbreviation quiet := (world_step same_changes).

Lemma logged_status_same : steps quiet (status (logged_firewall env)).
Proof. apply ks_steps_status; [typeclasses eauto|apply logged_which_same|apply logged_inspect_same]. Qed.
Lemma logged_chosen_same : steps quiet (chosen_method (logged_firewall env)).
Proof. apply ks_steps_chosen_method; [typeclasses eauto|apply logged_which_same]. Qed.
Lemma logged_inspect_nftables_same : steps quiet (inspect_nftables (logged_firewall env)).
Proof. apply ks_steps_inspect_nftables; [typeclasses eauto|apply logged_inspect_same]. Qed.

(** [apply_atomic] makes at most one change to the firewall, and that change is one batch
    which, if the listing found a table, first deletes it: there is no command in between at
    which the host would be without the old and the new policy. *)
Theorem apply_atomic_single_change k w l :
  let s' := (apply_atomic (logged_firewall env) (k, (w, l))).2 in
  List.filter may_change s'.2.2 = List.filter may_change l ∨
  ∃ existing, List.filter may_change s'.2.2
    = EvBatch (nft_batch_script (replace_commands existing k)) :: List.filter may_change l.
Proof.
  intros s'. subst s'. unfold apply_atomic, KM. rewrite bind_final.
  pose proof (logged_chosen_same (k, (w, l))) as H1.
  destruct (chosen_method (logged_firewall env) (k, (w, l))) as [[m|e] [k1 [w1 l1]]];
    destruct H1 as [Hk1 H1]; cbn in Hk1; subst k1; unfold same_changes in H1; cbn [snd] in H1; [|by left].
  destruct (negb (bool_decide (m = Some "nftables"))); [by left|].
  rewrite bind_final. cbn [assign_method modifyS]. rewrite bind_final.
  pose proof (logged_inspect_nftables_same (set_method m k, (w1, l1))) as H2.
  destruct (inspect_nftables (logged_firewall env) (set_method m k, (w1, l1))) as [[st|e] [k2 [w2 l2]]];
    destruct H2 as [Hk2 H2]; cbn in Hk2; subst k2; unfold same_changes in H2; cbn [snd] in H2; [|left; cbn; congruence].
  right. exists (fs_artifacts_present st). rewrite bind_final. cbn [self gets fst]. rewrite bind_final.
  fold nft_delete_command. change (nft_enable_commands (set_method m k)) with (nft_enable_commands k).
  fold (replace_commands (fs_artifacts_present st) k).
  set (script := nft_batch_script (replace_commands (fs_artifacts_present st) k)).
  unfold on_world at 1. cbn [ke_nft_batch logged_firewall]. destruct (ke_nft_batch env script w2) as [[r|e] w3].
  2: { cbn [snd List.filter may_change]. congruence. }
  destruct (negb (cr_returncode r =? 0)%Z); [cbn [snd List.filter may_change mret pym_ret]; congruence|].
  rewrite bind_final.
  pose proof (logged_status_same (set_method m k, (w3, EvBatch script :: l2))) as H3.
  destruct (status (logged_firewall env) (set_method m k, (w3, EvBatch script :: l2))) as [[st'|e] [k4 [w4 l4]]];
    destruct H3 as [_ H3]; unfold same_changes in H3; cbn [snd List.filter may_change] in H3;
    cbn [snd mret pym_ret]; congruence.
Qed.
End single_change.

(** ** A firewall that keeps the table of one configuration *)
Definition sample_result (rc : Z) (out : string) : CommandResult :=
  {| cr_returncode := rc; cr_stdout := out; cr_stderr := "" |}.

Definition sample_firewall : KillSwitchEnv (list (list string)) := {|
  ke_run := fun c w =>
    if bool_decide (c = nft_list_command) then
      (Ok (if bool_decide (w = []) then sample_result 1 "" else sample_result 0 sample_nft_listing), w)
    else if bool_decide (c = nft_delete_command) then
      (Ok (if bool_decide (w = []) then sample_result 1 "" else sample_result 0 ""), [])
    else if bool_decide (head c = Some "nft") && String.eqb (nth 1 c "") "add"
    then (Ok (sample_result 0 ""), w ++ [c])
    else (Ok (sample_result 1 ""), w);
  ke_nft_batch := fun s w =>
    if String.eqb s (nft_batch_script (replace_commands true sample_kill_switch))
    then (Ok (sample_result 0 ""), nft_enable_commands sample_kill_switch)
    else if String.eqb s (nft_batch_script (replace_commands false sample_kill_switch))
    then (Ok (sample_result 0 ""), w ++ nft_enable_commands sample_kill_switch)
    else (Ok (sample_result 1 ""), w);
  ke_which := fun name w => (Ok (if String.eqb name "nft" then Some "/usr/sbin/nft" else None), w)
|}.

Lemma sample_scripts_differ :
  String.eqb (nft_batch_script (replace_commands false sample_kill_switch))
    (nft_batch_script (replace_commands true sample_kill_switch)) = false.
Proof. vm_compute. reflexivity. Qed.

Lemma sample_batch existing w :
  ke_nft_batch sample_firewall (nft_batch_script (replace_commands existing sample_kill_switch)) w
  = (Ok (sample_result 0 ""), foldl nft_effect w (replace_commands existing sample_kill_switch)).
Proof.
  unfold sample_firewall. cbn [ke_nft_batch].
  destruct existing.
  - rewrite String.eqb_refl. unfold replace_commands. rewrite foldl_app, effects_of_adds; [done|].
    apply enable_commands_not_delete.
  - rewrite sample_scripts_differ, String.eqb_refl. unfold replace_commands.
    rewrite foldl_app, effects_of_adds; [done|]. apply enable_commands_not_delete.
Qed.

#[refine] Instance sample_nft_firewall : NftFirewall sample_firewall sample_kill_switch :=
  {| installed := fun w => w |}.
Proof.
  - done.
  - intros c w Hc. cbn. destruct Hc as [->|Hc]; [by rewrite bool_decide_true|].
    case_bool_decide; [done|]. case_bool_decide as Hd; [by subst c|].
    rewrite bool_decide_false by done. done.
  - intros w r w'. cbn. rewrite bool_decide_true by done. intros [= <- <-]. by case_bool_decide.
  - intros w r w'. cbn. intros [= <- <-]. by case_bool_decide.
  - intros c w r w' Hc. cbn. destruct Hc as [->|Hc].
    + intros [= <- <-]. done.
    + pose proof (enable_commands_not_delete _ _ Hc) as Hd.
      pose proof (enable_commands_add sample_kill_switch) as Ha. rewrite Forall_forall in Ha. apply Ha in Hc.
      rewrite (bool_decide_false (c = nft_list_command)) by (intros ->; done).
      rewrite (bool_decide_false (c = nft_delete_command)) by done.
      destruct (bool_decide (head c = Some "nft") && String.eqb (nth 1 c "") "add"); intros [= <- <-]; [|done].
      intros _. unfold nft_effect. by rewrite bool_decide_false.
  - intros existing w r w'. rewrite sample_batch. intros [= <- <-]. done.
  - intros existing w r w'. rewrite sample_batch. intros [= <- <-]. done.
Defined.

(** On a host without a table the replacement succeeds and nothing is sent in clear. *)
Lemma apply_atomic_enforces_witness :
  nft_egress sample_matches (installed (apply_atomic sample_firewall (sample_kill_switch, [])).2.2)
    (SamplePacket "eth0" "" "198.51.100.1" "443") (SamplePacket "eth0" "" "198.51.100.1" "443") = false.
Proof.
  rewrite (proj1 (proj1 (apply_atomic_enforces sample_firewall sample_kill_switch sample_matches
    sample_mark_and_interface [] true (apply_atomic sample_firewall (sample_kill_switch, [])).2
    ltac:(vm_compute; reflexivity)) eq_refl)).
  vm_compute. reflexivity.
Defined.

Lemma enable_outcome_witness :
  installed (enable sample_firewall (sample_kill_switch, [["nft"; "add"; "table"; "inet"; "watchdogvpn"]])).2.2
  = nft_enable_commands sample_kill_switch.
Proof.
  apply (proj1 (enable_outcome sample_firewall sample_kill_switch [["nft"; "add"; "table"; "inet"; "watchdogvpn"]]
    (sample_kill_switch, [["nft"; "add"; "table"; "inet"; "watchdogvpn"]]) true
    (enable sample_firewall (sample_kill_switch, [["nft"; "add"; "table"; "inet"; "watchdogvpn"]])).2
    ltac:(reflexivity) ltac:(vm_compute; reflexivity))).
Defined.

Lemma disable_outcome_witness :
  installed (disable sample_firewall (sample_kill_switch, nft_enable_commands sample_kill_switch)).2.2 = [].
Proof.
  apply (proj1 (disable_outcome sample_firewall sample_kill_switch (nft_enable_commands sample_kill_switch)
    (disable sample_firewall (sample_kill_switch, nft_enable_commands sample_kill_switch)).2
    ltac:(intros w; exists "/usr/sbin/nft"; done) ltac:(vm_compute; reflexivity))).
Defined.
