(* ===== verification/Protocol.v ===== *)
(** * The messages between the daemon and its clients

    daemon/protocol.py: requests, responses and events, their dictionaries and lines.  JSON text
    is a pair of functions, [dumps] and [loads]; [loads] gives the message of its
    [JSONDecodeError] or the value. *)
From stdpp Require Import base list strings pretty.
From Stdlib Require Import Ascii ZArith QArith.
From S2P Require Import Prelude PyData PyText.

Definition PROTOCOL_VERSION : Z := 1.
Definition MESSAGE_TYPE_REQUEST : string := "request".
Definition MESSAGE_TYPE_RESPONSE : string := "response".
Definition MESSAGE_TYPE_EVENT : string := "event".

Definition COMMAND_CONNECT : string := "connect".
Definition COMMAND_DISCONNECT : string := "disconnect".
Definition COMMAND_STATUS : string := "status".
Definition COMMAND_ROTATE : string := "rotate".
Definition COMMAND_NODE_GROUP_AUTO_TEST : string := "node_group_auto_test".
Definition COMMAND_COMMAND_OUTCOME : string := "command_outcome".
Definition COMMAND_COMMAND_CANCEL : string := "command_cancel".

Definition ALLOWED_COMMANDS : list string :=
  [ COMMAND_CONNECT; COMMAND_COMMAND_CANCEL; COMMAND_COMMAND_OUTCOME; COMMAND_DISCONNECT;
    COMMAND_NODE_GROUP_AUTO_TEST; COMMAND_STATUS; COMMAND_ROTATE ].

Definition COMMAND_PAYLOAD_FIELDS : pydict (list string) :=
  [ (COMMAND_CONNECT, ["profile_id"]); (COMMAND_DISCONNECT, []); (COMMAND_STATUS, []);
    (COMMAND_ROTATE, ["force"]); (COMMAND_NODE_GROUP_AUTO_TEST, ["group_name"]);
    (COMMAND_COMMAND_OUTCOME, ["command_id"]); (COMMAND_COMMAND_CANCEL, ["command_id"]) ].

(** Seconds *)
Definition COMMAND_TIMEOUT_SECONDS : pydict Q :=
  [ (COMMAND_STATUS, 5); (COMMAND_CONNECT, 30); (COMMAND_DISCONNECT, 30); (COMMAND_ROTATE, 30);
    (COMMAND_NODE_GROUP_AUTO_TEST, 120); (COMMAND_COMMAND_OUTCOME, 5); (COMMAND_COMMAND_CANCEL, 5) ]%Q.

Definition MUTATING_COMMANDS : list string :=
  [COMMAND_CONNECT; COMMAND_DISCONNECT; COMMAND_ROTATE; COMMAND_NODE_GROUP_AUTO_TEST].

Definition command_timeout_seconds (command : string) : res Q :=
  match dict_get command COMMAND_TIMEOUT_SECONDS with
  | Some t => Ok t
  | None => raise UnknownCommandError ("unknown command: " +:+ command)
  end.

Definition EVENT_STATE_CHANGED : string := "state_changed".
Definition EVENT_HEALTH_CHECK : string := "health_check".
Definition EVENT_ROTATION : string := "rotation".
Definition EVENT_SHUTDOWN : string := "shutdown".
Definition ALLOWED_EVENTS : list string :=
  [EVENT_STATE_CHANGED; EVENT_HEALTH_CHECK; EVENT_ROTATION; EVENT_SHUTDOWN].

Definition REQUEST_FIELDS : list string := ["version"; "type"; "command"; "payload"; "command_id"].
Definition RESPONSE_FIELDS : list string := ["version"; "type"; "ok"; "payload"; "error"].
Definition EVENT_FIELDS : list string := ["version"; "type"; "event"; "payload"].

(** ** Identifiers: [uuid.UUID] *)

(** [s.replace(pat, "")]; [skip] counts the characters of a match still to be dropped *)
Fixpoint remove_all_from (pat : string) (skip : nat) (s : string) : string :=
  match s with
  | "" => ""
  | String c s' =>
      match skip with
      | S k => remove_all_from pat k s'
      | O => if startswith pat s then remove_all_from pat (String.length pat - 1) s'
             else String c (remove_all_from pat 0 s')
      end
  end.
Definition remove_all (pat s : string) : string := remove_all_from pat 0 s.

(** [int(s, 16)] *)
Definition py_int16 (text : string) : option Z :=
  let s := strip text in
  let sign := if startswith "-" s then (-1)%Z else 1%Z in
  let body := if startswith "-" s || startswith "+" s then str_drop 1 s else s in
  option_map (Z.mul sign)
    (if startswith "0x" body || startswith "0X" body then prefixed_digits 16 (str_drop 2 body)
     else option_map fst (base_digits 16 false 0 0 body)).

Definition braces (c : ascii) : bool := Ascii.eqb c "{" || Ascii.eqb c "}".

(** [uuid.UUID(value)]; [None] is the [ValueError] *)
Definition uuid_parse (value : string) : option Z :=
  let hex := remove_all "uuid:" (remove_all "urn:" value) in
  let hex := remove_all "-" (rstrip_by braces (lstrip_by braces hex)) in
  if negb (String.length hex =? 32)%nat then None
  else match py_int16 hex with
       | Some n => if (0 <=? n)%Z && (n <? 2 ^ 128)%Z then Some n else None
       | None => None
       end.

(** ['%032x' % n] of a number below [2 ** 128]: its [k] last digits, before [acc] *)
Fixpoint hex_fixed (k : nat) (n : Z) (acc : string) : string :=
  match k with
  | O => acc
  | S k' => hex_fixed k' (n / 16) (String (hex_digit (n mod 16)) acc)
  end.
Definition hex32 (n : Z) : string := hex_fixed 32 n "".

(** [str(uuid)] *)
Definition uuid_text (n : Z) : string :=
  let h := hex32 n in
  String.substring 0 8 h +:+ "-" +:+ String.substring 8 4 h +:+ "-" +:+ String.substring 12 4 h
  +:+ "-" +:+ String.substring 16 4 h +:+ "-" +:+ String.substring 20 12 h.

(** ** Field validators *)
Definition require_command_id (v : pyval) (field_name : string) : res string :=
  match v with
  | PStr value =>
      match uuid_parse value with
      | None => raise MalformedMessageError (field_name +:+ " must be a UUID string")
      | Some parsed =>
          if negb (String.eqb (uuid_text parsed) (lower value))
          then raise MalformedMessageError (field_name +:+ " must be a canonical UUID string")
          else Ok (lower value)
      end
  | _ => raise MalformedMessageError (field_name +:+ " must be a UUID string")
  end.

(** [data.get(key)], [None] when absent *)
Definition get_or_none (key : string) (data : pydict pyval) : pyval := dict_get_or key PNone data.

Definition optional_command_id (v : pyval) (field_name : string) : res (option string) :=
  match v with
  | PNone => Ok None
  | _ => id ← require_command_id v field_name; Ok (Some id)
  end.

Definition require_object (v : pyval) (field_name : string) : res (pydict pyval) :=
  match v with
  | PDict d => Ok d
  | _ => raise MalformedMessageError (field_name +:+ " must be an object")
  end.

Definition optional_mapping (v : pyval) (field_name : string) : res (pydict pyval) :=
  match v with
  | PNone => Ok []
  | _ => require_object v field_name
  end.

Definition require_string (v : pyval) (field_name : string) : res string :=
  match v with
  | PStr s => if truthy_str s then Ok s
              else raise MalformedMessageError (field_name +:+ " must be a non-empty string")
  | _ => raise MalformedMessageError (field_name +:+ " must be a non-empty string")
  end.

(** [v == 1]: the integer, [True] and the float *)
Definition is_version (v : pyval) : bool :=
  match v with
  | PInt z => (z =? PROTOCOL_VERSION)%Z
  | PBool b => b
  | PFloat (Fin q) => Qeq_bool q 1
  | _ => false
  end.

Definition unknown_keys (data : pydict pyval) (allowed : list string) : list string :=
  py_sorted String.ltb (List.filter (fun k => negb (str_in k allowed)) (map fst data)).

Definition reject_unknown_fields (data : pydict pyval) (allowed : list string) (object_name : string) : res unit :=
  match unknown_keys data allowed with
  | [] => Ok tt
  | names => raise MalformedMessageError
               (object_name +:+ " contains unsupported fields: " +:+ String.concat ", " names)
  end.

Section messages.
Context `{PyStr}.

Definition validate_version (data : pydict pyval) : res unit :=
  let version := get_or_none "version" data in
  ensure (is_version version) UnsupportedVersionError ("unsupported protocol version: " +:+ py_str version).

Definition validate_type (data : pydict pyval) (expected : string) : res unit :=
  actual ← require_string (get_or_none "type" data) "message.type";
  ensure (String.eqb actual expected) UnexpectedMessageTypeError
    ("expected " +:+ expected +:+ " message, got " +:+ actual).

(** ** Requests *)

(** What building a request raises: [UnsupportedPayloadFieldsError] carries data. *)
Inductive request_error : Type :=
| UnsupportedPayload (command : string) (fields : list string)
| RequestExn (e : exn).

Definition request_error_exn (e : request_error) : exn :=
  match e with
  | UnsupportedPayload command fields =>
      Exn UnsupportedPayloadFieldsError
        ("request.payload contains unsupported fields for " +:+ command +:+ ": " +:+ String.concat ", " fields)
  | RequestExn e => e
  end.

Record Request : Type := {
  rq_command : string;
  rq_payload : pydict pyval;
  rq_command_id : option string
}.

Definition lift_request {A} (r : res A) : request_error + A :=
  match r with Ok a => inr a | Err e => inl (RequestExn e) end.

Definition Request_post_init (r : Request) : request_error + Request :=
  if negb (str_in (rq_command r) ALLOWED_COMMANDS)
  then inl (RequestExn (Exn UnknownCommandError ("unknown command: " +:+ rq_command r)))
  else match dict_get (rq_command r) COMMAND_PAYLOAD_FIELDS with
       | None => inl (RequestExn (Exn KeyError (rq_command r)))
       | Some allowed =>
           match unknown_keys (rq_payload r) allowed with
           | [] =>
               match rq_command_id r with
               | None => inr r
               | Some id =>
                   match require_command_id (PStr id) "request.command_id" with
                   | Ok _ => inr r
                   | Err e => inl (RequestExn e)
                   end
               end
           | fields => inl (UnsupportedPayload (rq_command r) fields)
           end
       end.

Definition Request_to_dict (r : Request) : pydict pyval :=
  [ ("version", PInt PROTOCOL_VERSION); ("type", PStr MESSAGE_TYPE_REQUEST);
    ("command", PStr (rq_command r)); ("payload", PDict (rq_payload r)) ]
  ++ match rq_command_id r with Some id => [("command_id", PStr id)] | None => [] end.

Definition Request_from_dict (data : pydict pyval) : request_error + Request :=
  match (_ ← validate_version data;
         _ ← validate_type data MESSAGE_TYPE_REQUEST;
         _ ← reject_unknown_fields data REQUEST_FIELDS "request";
         command ← require_string (get_or_none "command" data) "request.command";
         payload ← optional_mapping (get_or_none "payload" data) "request.payload";
         id ← optional_command_id (get_or_none "command_id" data) "request.command_id";
         Ok {| rq_command := command; rq_payload := payload; rq_command_id := id |}) with
  | Ok r => Request_post_init r
  | Err e => inl (RequestExn e)
  end.

(** ** Responses and events *)
Record Response : Type := { rs_ok : bool; rs_payload : pydict pyval; rs_error : option string }.

Definition opt_str (s : option string) : pyval := match s with Some t => PStr t | None => PNone end.

Definition Response_to_dict (r : Response) : pydict pyval :=
  [ ("version", PInt PROTOCOL_VERSION); ("type", PStr MESSAGE_TYPE_RESPONSE); ("ok", PBool (rs_ok r));
    ("payload", PDict (rs_payload r)); ("error", opt_str (rs_error r)) ].

Definition Response_from_dict (data : pydict pyval) : res Response :=
  _ ← validate_version data;
  _ ← validate_type data MESSAGE_TYPE_RESPONSE;
  _ ← reject_unknown_fields data RESPONSE_FIELDS "response";
  ok ← match get_or_none "ok" data with
       | PBool b => Ok b
       | _ => raise MalformedMessageError "response.ok must be a boolean"
       end;
  error ← match get_or_none "error" data with
          | PNone => Ok None
          | PStr s => Ok (Some s)
          | _ => raise MalformedMessageError "response.error must be a string or null"
          end;
  payload ← optional_mapping (get_or_none "payload" data) "response.payload";
  Ok {| rs_ok := ok; rs_payload := payload; rs_error := error |}.

Record Event : Type := { ev_event : string; ev_payload : pydict pyval }.

Definition Event_post_init (e : Event) : res Event :=
  if str_in (ev_event e) ALLOWED_EVENTS then Ok e
  else raise UnknownEventError ("unknown event: " +:+ ev_event e).

Definition Event_to_dict (e : Event) : pydict pyval :=
  [ ("version", PInt PROTOCOL_VERSION); ("type", PStr MESSAGE_TYPE_EVENT); ("event", PStr (ev_event e));
    ("payload", PDict (ev_payload e)) ].

Definition Event_from_dict (data : pydict pyval) : res Event :=
  _ ← validate_version data;
  _ ← validate_type data MESSAGE_TYPE_EVENT;
  _ ← reject_unknown_fields data EVENT_FIELDS "event";
  event ← require_string (get_or_none "event" data) "event.event";
  payload ← optional_mapping (get_or_none "payload" data) "event.payload";
  Event_post_init {| ev_event := event; ev_payload := payload |}.

(** ** Lines *)
Inductive message : Type :=
| MRequest (r : Request)
| MResponse (r : Response)
| MEvent (e : Event).

Definition message_to_dict (m : message) : pydict pyval :=
  match m with
  | MRequest r => Request_to_dict r
  | MResponse r => Response_to_dict r
  | MEvent e => Event_to_dict e
  end.

Definition key_before {V} (a b : string * V) : bool := String.ltb a.1 b.1.

(** What [json.dumps(..., sort_keys=True)] writes *)
Fixpoint sort_keys (v : pyval) : pyval :=
  match v with
  | PList l => PList (map sort_keys l)
  | PDict d => PDict (py_sorted key_before (map (fun '(k, x) => (k, sort_keys x)) d))
  | _ => v
  end.

Section lines.
Context (dumps : pyval → string) (loads : string → string + pyval).

Definition encode_message (m : message) : string :=
  dumps (sort_keys (PDict (message_to_dict m))) +:+ String newline "".

(** [_decode_envelope] on decoded text; bytes that are not UTF-8 are refused before *)
Definition decode_envelope (line : string) : res (pydict pyval) :=
  if negb (endswith (String newline "") line)
  then raise MalformedMessageError "message line must end with newline"
  else if contains (String newline "") (String.substring 0 (String.length line - 1) line)
  then raise MalformedMessageError "message line must contain exactly one JSON object"
  else match loads line with
       | inl msg => raise MalformedMessageError ("invalid JSON message: " +:+ msg)
       | inr (PDict d) => Ok d
       | inr _ => raise MalformedMessageError "message must be a JSON object"
       end.

Definition decode_request_line (line : string) : request_error + Request :=
  match decode_envelope line with
  | Ok data => Request_from_dict data
  | Err e => inl (RequestExn e)
  end.
Definition decode_response_line (line : string) : res Response :=
  data ← decode_envelope line; Response_from_dict data.
Definition decode_event_line (line : string) : res Event :=
  data ← decode_envelope line; Event_from_dict data.

Definition decode_message_line (line : string) : request_error + message :=
  match (data ← decode_envelope line;
         message_type ← require_string (get_or_none "type" data) "message.type";
         Ok (data, message_type)) with
  | Err e => inl (RequestExn e)
  | Ok (data, message_type) =>
      if String.eqb message_type MESSAGE_TYPE_REQUEST then
        match Request_from_dict data with inr r => inr (MRequest r) | inl e => inl e end
      else if String.eqb message_type MESSAGE_TYPE_RESPONSE then
        lift_request (r ← Response_from_dict data; Ok (MResponse r))
      else if String.eqb message_type MESSAGE_TYPE_EVENT then
        lift_request (e ← Event_from_dict data; Ok (MEvent e))
      else inl (RequestExn (Exn UnexpectedMessageTypeError ("unexpected message type: " +:+ message_type)))
  end.
End lines.
End messages.

(** ** Canonical identifiers *)
Lemma prefix_forall p pat s : String.prefix pat s = true → forall_chars p s = true → forall_chars p pat = true.
Proof.
  revert s. induction pat as [|c pat IH]; intros s; [done|]. destruct s as [|d s]; [done|]. cbn.
  destruct (ascii_dec c d) as [->|]; [|done]. rewrite !andb_true_iff. intros H [??]. split; [done|by eapply IH].
Qed.

Lemma contains_forall p pat s : forall_chars p s = true → forall_chars p pat = false → contains pat s = false.
Proof.
  intros Hs Hp. induction s as [|c s IH]; cbn.
  - rewrite orb_false_r. destruct pat; [done|done].
  - apply orb_false_iff. split.
    + destruct (String.prefix pat (String c s)) eqn:E; [|done]. eapply prefix_forall in E; [|exact Hs]. congruence.
    + apply IH. cbn in Hs. by apply andb_true_iff in Hs as [_ ?].
Qed.

Lemma remove_all_absent pat s : contains pat s = false → remove_all pat s = s.
Proof.
  unfold remove_all. induction s as [|c s IH]; [done|]. cbn -[String.prefix]. intros [H1 H2]%orb_false_iff.
  unfold startswith. by rewrite H1, IH.
Qed.

Lemma remove_all_dash a b : remove_all "-" (a +:+ "-" +:+ b) = remove_all "-" a +:+ remove_all "-" b.
Proof.
  unfold remove_all. induction a as [|c a IH].
  - change ("" +:+ "-" +:+ b) with (String "-" b). cbn. by destruct b.
  - change (String c a +:+ "-" +:+ b) with (String c (a +:+ "-" +:+ b)). cbn -[String.prefix].
    unfold startswith. cbn [String.prefix]. destruct (ascii_dec "-" c).
    { assert (Hp : ∀ x, String.prefix "" x = true) by (by intros []). by rewrite !Hp. }
    change (String c ?x +:+ ?y) with (String c (x +:+ y)). f_equal. exact IH.
Qed.

Lemma strip_by_absent p s :
  forall_chars (fun c => negb (p c)) s = true → lstrip_by p s = s ∧ rstrip_by p s = s.
Proof.
  intros H. split.
  - destruct s as [|c s]; cbn in *; [done|]. by destruct (p c).
  - induction s as [|c s IH]; cbn in *; [done|]. destruct (p c); [done|]. cbn in *. by rewrite IH.
Qed.

Definition lower_hex (c : ascii) : bool := char_in 48 57 c || char_in 97 102 c.

Lemma lower_hex_facts c : lower_hex c = true →
  is_space c = false ∧ c ≠ "-"%char ∧ c ≠ "+"%char ∧ c ≠ "x"%char ∧ c ≠ "X"%char ∧ c ≠ ":"%char
  ∧ braces c = false ∧ lower_char c = c.
Proof. destruct c as [[] [] [] [] [] [] [] []]; vm_compute; try done; intros _; repeat split; done. Qed.

Lemma hex_digit_lower d : (0 <= d < 16)%Z → lower_hex (hex_digit d) = true.
Proof.
  intros H. assert (d = 0 ∨ d = 1 ∨ d = 2 ∨ d = 3 ∨ d = 4 ∨ d = 5 ∨ d = 6 ∨ d = 7 ∨ d = 8 ∨ d = 9 ∨ d = 10
    ∨ d = 11 ∨ d = 12 ∨ d = 13 ∨ d = 14 ∨ d = 15)%Z as Hd by lia.
  by destruct_or! Hd; subst.
Qed.

Lemma hex_fixed_spec k n acc :
  String.length (hex_fixed k n acc) = (k + String.length acc)%nat
  ∧ (forall_chars lower_hex acc = true → forall_chars lower_hex (hex_fixed k n acc) = true).
Proof.
  revert n acc. induction k as [|k IH]; intros n acc; [done|]. cbn [hex_fixed].
  destruct (IH (n / 16)%Z (String (hex_digit (n mod 16)) acc)) as [H1 H2]. split.
  - rewrite H1. cbn. lia.
  - intros Ha. apply H2. cbn. by rewrite hex_digit_lower, Ha by (apply Z.mod_pos_bound; lia).
Qed.

Lemma hex_fixed_value k n acc z count ready :
  (0 <= n)%Z →
  base_digits 16 ready z count (hex_fixed k n acc)
  = base_digits 16 (ready || negb (k =? 0)%nat) (z * 16 ^ Z.of_nat k + n mod 16 ^ Z.of_nat k) (count + k) acc.
Proof.
  revert n acc. induction k as [|k IH]; intros n acc Hn; cbn [hex_fixed].
  - cbn [Nat.eqb negb]. rewrite orb_false_r, Nat.add_0_r. f_equal. change (Z.of_nat 0) with 0%Z. rewrite Z.pow_0_r, Z.mod_1_r. lia.
  - rewrite IH by (apply Z.div_pos; lia). cbn [base_digits].
    assert (Hm : (0 <= n mod 16 < 16)%Z) by (apply Z.mod_pos_bound; lia).
    destruct (hex_digit_spec _ Hm) as [Hv _]. rewrite Hv, (proj2 (Z.ltb_lt (n mod 16) 16)) by lia.
    rewrite orb_true_r, Nat.add_succ_r. f_equal.
    rewrite Nat2Z.inj_succ, Z.pow_succ_r by lia.
    rewrite (Z.rem_mul_r n 16) by lia. ring.
Qed.

Lemma substrings_of_32 h :
  String.length h = 32%nat →
  h = String.substring 0 8 h +:+ String.substring 8 4 h +:+ String.substring 12 4 h +:+ String.substring 16 4 h
      +:+ String.substring 20 12 h.
Proof.
  intros Hl. do 32 (destruct h as [|? h]; [discriminate Hl|]). destruct h; [reflexivity|discriminate Hl].
Qed.

Lemma forall_chars_substring p n m s : forall_chars p s = true → forall_chars p (String.substring n m s) = true.
Proof.
  revert n m. induction s as [|c s IH]; intros n m; [by destruct n, m|].
  intros H. pose proof H as H'. cbn in H'. apply andb_true_iff in H' as [Hc Hs].
  destruct n; cbn; [|by apply IH]. destruct m; [done|]. cbn. by rewrite Hc, IH.
Qed.

Lemma remove_dashes h : String.length h = 32%nat → forall_chars lower_hex h = true →
  remove_all "-" (String.substring 0 8 h +:+ "-" +:+ String.substring 8 4 h +:+ "-" +:+ String.substring 12 4 h
  +:+ "-" +:+ String.substring 16 4 h +:+ "-" +:+ String.substring 20 12 h) = h.
Proof.
  intros Hl Hh. rewrite !remove_all_dash.
  assert (H : ∀ n m, remove_all "-" (String.substring n m h) = String.substring n m h).
  { intros n m. apply remove_all_absent. apply (contains_forall lower_hex); [by apply forall_chars_substring|vm_compute; reflexivity]. }
  rewrite !H. symmetry. by apply substrings_of_32.
Qed.

Lemma uuid_text_chars n :
  forall_chars (fun c => lower_hex c || Ascii.eqb c "-") (uuid_text n) = true.
Proof.
  assert (Hh : forall_chars (fun c => lower_hex c || Ascii.eqb c "-") (hex32 n) = true).
  { apply (forall_chars_impl lower_hex); [by intros c ->|]. by apply hex_fixed_spec. }
  unfold uuid_text. rewrite !forall_chars_app, !forall_chars_substring by done. done.
Qed.

Lemma startswith_head p c pat s : p c = false → forall_chars p s = true → startswith (String c pat) s = false.
Proof.
  intros Hc Hs. unfold startswith. destruct (String.prefix (String c pat) s) eqn:E; [|done].
  eapply prefix_forall in E; [|exact Hs]. cbn in E. by rewrite Hc in E.
Qed.

Lemma startswith_second p c d s : p d = false → forall_chars p s = true → startswith (String c (String d "")) s = false.
Proof.
  intros Hd Hs. unfold startswith. destruct (String.prefix (String c (String d "")) s) eqn:E; [|done].
  eapply prefix_forall in E; [|exact Hs]. cbn in E. rewrite Hd in E. by rewrite andb_false_r in E.
Qed.

Lemma py_int16_hex32 n : (0 <= n < 2 ^ 128)%Z → py_int16 (hex32 n) = Some n.
Proof.
  intros Hn. destruct (hex_fixed_spec 32 n "") as [Hl Hh]. specialize (Hh eq_refl). fold (hex32 n) in Hl, Hh.
  unfold py_int16. rewrite strip_no_space.
  2: { apply (forall_chars_impl lower_hex); [|done]. by intros c [-> _]%lower_hex_facts. }
  rewrite (startswith_head lower_hex "-"), (startswith_head lower_hex "+") by done. cbn [orb].
  rewrite (startswith_second lower_hex "0" "x"), (startswith_second lower_hex "0" "X") by done. cbn [orb].
  unfold hex32. rewrite hex_fixed_value by lia. cbn [base_digits Nat.eqb negb orb option_map fst].
  f_equal. rewrite Z.mod_small; [lia|]. change (16 ^ Z.of_nat 32)%Z with (2 ^ 128)%Z. lia.
Qed.

(** Parsing the canonical text of an identifier gives the identifier back. *)
Lemma uuid_roundtrip n : (0 <= n < 2 ^ 128)%Z → uuid_parse (uuid_text n) = Some n ∧ lower (uuid_text n) = uuid_text n.
Proof.
  intros Hn. pose proof (uuid_text_chars n) as Hc. split.
  - unfold uuid_parse.
    rewrite (remove_all_absent "urn:"), (remove_all_absent "uuid:") by (eapply contains_forall; [exact Hc|vm_compute; reflexivity]).
    destruct (strip_by_absent braces (uuid_text n)) as [Hl Hr].
    { eapply forall_chars_impl; [|exact Hc]. intros c. destruct c as [[] [] [] [] [] [] [] []]; vm_compute; done. }
    rewrite Hl, Hr. destruct (hex_fixed_spec 32 n "") as [Hlen Hh]. specialize (Hh eq_refl).
    fold (hex32 n) in Hlen, Hh. unfold uuid_text. rewrite remove_dashes by done. rewrite Hlen. cbn [Nat.add Nat.eqb negb String.length].
    rewrite py_int16_hex32 by done. rewrite (proj2 (Z.leb_le 0 n)), (proj2 (Z.ltb_lt n (2 ^ 128))) by lia. done.
  - revert Hc. generalize (uuid_text n) as s. intros s. induction s as [|c s IH]; [done|]. cbn.
    intros [H1 H2]%andb_true_iff. rewrite IH by done. f_equal.
    apply orb_true_iff in H1 as [H1|H1]; [by apply lower_hex_facts|]. apply Ascii.eqb_eq in H1. by subst c.
Qed.

(** What is accepted as a command identifier is canonical. *)
Lemma require_command_id_canonical v f id :
  require_command_id v f = Ok id →
  (∃ n, (0 <= n < 2 ^ 128)%Z ∧ id = uuid_text n) ∧ ∀ f', require_command_id (PStr id) f' = Ok id.
Proof.
  unfold require_command_id at 1. destruct v; try done. destruct (uuid_parse s) as [n|] eqn:E; [|done].
  destruct (String.eqb_spec (uuid_text n) (lower s)) as [Ht|]; [|done]. intros [= <-].
  assert (Hn : (0 <= n < 2 ^ 128)%Z).
  { unfold uuid_parse in E. destruct (negb _); [done|]. destruct (py_int16 _) as [m|]; [|done].
    destruct ((0 <=? m)%Z && (m <? 2 ^ 128)%Z) eqn:Er; [|done]. injection E as ->. lia. }
  rewrite <- Ht. split; [eauto|]. intros f'. unfold require_command_id.
  destruct (uuid_roundtrip n Hn) as [-> ->]. by rewrite String.eqb_refl.
Qed.

(** ** Well-formed messages *)
Definition Request_wf (r : Request) : Prop :=
  rq_command r ∈ ALLOWED_COMMANDS
  ∧ (∃ allowed, dict_get (rq_command r) COMMAND_PAYLOAD_FIELDS = Some allowed
                ∧ ∀ key, key ∈ map fst (rq_payload r) → key ∈ allowed)
  ∧ ∀ id, rq_command_id r = Some id → require_command_id (PStr id) "request.command_id" = Ok id.

Definition Event_wf (e : Event) : Prop := ev_event e ∈ ALLOWED_EVENTS.

Definition message_wf (m : message) : Prop :=
  match m with MRequest r => Request_wf r | MResponse _ => True | MEvent e => Event_wf e end.

Definition sort_payload (d : pydict pyval) : pydict pyval :=
  py_sorted key_before (map (fun '(k, x) => (k, sort_keys x)) d).

(** The message as it is read back: the same one, with the payload's keys in order *)
Definition sorted_message (m : message) : message :=
  match m with
  | MRequest r => MRequest {| rq_command := rq_command r; rq_payload := sort_payload (rq_payload r);
                              rq_command_id := rq_command_id r |}
  | MResponse r => MResponse {| rs_ok := rs_ok r; rs_payload := sort_payload (rs_payload r); rs_error := rs_error r |}
  | MEvent e => MEvent {| ev_event := ev_event e; ev_payload := sort_payload (ev_payload e) |}
  end.

Lemma unknown_keys_nil d allowed : unknown_keys d allowed = [] ↔ ∀ key, key ∈ map fst d → key ∈ allowed.
Proof.
  unfold unknown_keys.
  assert (H : py_sorted String.ltb (List.filter (fun k => negb (str_in k allowed)) (map fst d)) = []
              ↔ List.filter (fun k => negb (str_in k allowed)) (map fst d) = []).
  { split; [|by intros ->]. intros E. pose proof (py_sorted_perm String.ltb (List.filter (fun k => negb (str_in k allowed)) (map fst d))) as Hp.
    rewrite E in Hp. by apply Permutation_nil in Hp. }
  rewrite H, List_filter_nil. split; intros Hx x Hin; specialize (Hx x Hin).
  - apply negb_false_iff in Hx. by apply str_in_spec.
  - apply negb_false_iff. by apply str_in_spec.
Qed.

Lemma sort_payload_keys d key : key ∈ map fst (sort_payload d) → key ∈ map fst d.
Proof.
  unfold sort_payload. intros Hk. apply list_elem_of_fmap in Hk as ([k v] & -> & Hk).
  rewrite (py_sorted_perm key_before) in Hk. apply list_elem_of_fmap in Hk as ([k' v'] & [= -> ->] & Hk).
  by apply (list_elem_of_fmap_2 fst _ (k', v')).
Qed.

Lemma post_init_wf r : Request_wf r → Request_post_init r = inr r.
Proof.
  intros (Hc & (allowed & Ha & Hk) & Hid). unfold Request_post_init.
  rewrite (proj2 (str_in_spec _ _) Hc), Ha, (proj2 (unknown_keys_nil _ _) Hk). cbn [negb].
  destruct (rq_command_id r) as [id|] eqn:E; [|done]. by rewrite (Hid id eq_refl).
Qed.

Lemma post_init_inv r r' : Request_post_init r = inr r' →
  r' = r ∧ rq_command r ∈ ALLOWED_COMMANDS
  ∧ ∃ allowed, dict_get (rq_command r) COMMAND_PAYLOAD_FIELDS = Some allowed
               ∧ ∀ key, key ∈ map fst (rq_payload r) → key ∈ allowed.
Proof.
  unfold Request_post_init. destruct (str_in _ _) eqn:Ec; [|done]. cbn [negb].
  destruct (dict_get _ _) as [allowed|] eqn:Ea; [|done].
  destruct (unknown_keys _ _) eqn:Eu; [|done]. intros H.
  assert (r' = r) as ->.
  { destruct (rq_command_id r); [|congruence]. destruct (require_command_id _ _); congruence. }
  split; [done|]. split; [by apply str_in_spec|]. exists allowed. split; [done|]. by apply unknown_keys_nil.
Qed.

Section protocol_theorems.
Context `{PyStr}.

Lemma request_dict_roundtrip r : Request_wf r →
  ∃ d, sort_keys (PDict (Request_to_dict r)) = PDict d
  ∧ dict_get "type" d = Some (PStr MESSAGE_TYPE_REQUEST)
  ∧ Request_from_dict d = inr {| rq_command := rq_command r; rq_payload := sort_payload (rq_payload r);
                                 rq_command_id := rq_command_id r |}.
Proof.
  intros Hr. assert (Hwf : Request_wf {| rq_command := rq_command r; rq_payload := sort_payload (rq_payload r);
                                 rq_command_id := rq_command_id r |}).
  { destruct Hr as (Hc & (allowed & Ha & Hk) & Hid). repeat split; cbn; [done| |done].
    exists allowed. split; [done|]. intros key Hkey. by apply Hk, sort_payload_keys. }
  destruct Hr as (Hc & _ & Hid). assert (Hne : truthy_str (rq_command r) = true).
  { unfold ALLOWED_COMMANDS in Hc. rewrite !elem_of_cons in Hc. destruct_or! Hc; try by rewrite Hc.
    by apply elem_of_nil in Hc. }
  destruct r as [command payload [id|]]; cbn [rq_command rq_payload rq_command_id] in *.
  - exists [("command", PStr command); ("command_id", PStr id); ("payload", PDict (sort_payload payload));
            ("type", PStr MESSAGE_TYPE_REQUEST); ("version", PInt PROTOCOL_VERSION)].
    split; [reflexivity|]. split; [reflexivity|].
    unfold Request_from_dict. cbn -[require_command_id sort_payload Request_post_init truthy_str].
    rewrite Hne. cbn -[require_command_id sort_payload Request_post_init]. rewrite (Hid id eq_refl).
    cbn -[Request_post_init sort_payload]. by apply post_init_wf.
  - exists [("command", PStr command); ("payload", PDict (sort_payload payload));
            ("type", PStr MESSAGE_TYPE_REQUEST); ("version", PInt PROTOCOL_VERSION)].
    split; [reflexivity|]. split; [reflexivity|].
    unfold Request_from_dict. cbn -[sort_payload Request_post_init truthy_str].
    rewrite Hne. cbn -[Request_post_init sort_payload]. by apply post_init_wf.
Qed.

Lemma response_dict_roundtrip r :
  ∃ d, sort_keys (PDict (Response_to_dict r)) = PDict d
  ∧ dict_get "type" d = Some (PStr MESSAGE_TYPE_RESPONSE)
  ∧ Response_from_dict d = Ok {| rs_ok := rs_ok r; rs_payload := sort_payload (rs_payload r); rs_error := rs_error r |}.
Proof.
  destruct r as [ok payload error].
  exists [("error", opt_str error); ("ok", PBool ok); ("payload", PDict (sort_payload payload));
          ("type", PStr MESSAGE_TYPE_RESPONSE); ("version", PInt PROTOCOL_VERSION)].
  destruct error; split; try reflexivity; split; reflexivity.
Qed.

Lemma event_dict_roundtrip e : Event_wf e →
  ∃ d, sort_keys (PDict (Event_to_dict e)) = PDict d
  ∧ dict_get "type" d = Some (PStr MESSAGE_TYPE_EVENT)
  ∧ Event_from_dict d = Ok {| ev_event := ev_event e; ev_payload := sort_payload (ev_payload e) |}.
Proof.
  intros He. destruct e as [event payload]. unfold Event_wf in He. cbn [ev_event] in He.
  exists [("event", PStr event); ("payload", PDict (sort_payload payload));
          ("type", PStr MESSAGE_TYPE_EVENT); ("version", PInt PROTOCOL_VERSION)].
  split; [reflexivity|]. split; [reflexivity|].
  unfold ALLOWED_EVENTS in He. rewrite !elem_of_cons in He. destruct_or! He; [subst event; reflexivity..|].
  by apply elem_of_nil in He.
Qed.

Context (dumps : pyval → string) (loads : string → string + pyval).

Lemma endswith_newline s : endswith (String newline "") (s +:+ String newline "") = true.
Proof.
  induction s as [|c s IH]; [done|]. change (String c s +:+ String newline "") with (String c (s +:+ String newline "")).
  cbn [endswith]. rewrite IH. apply orb_true_r.
Qed.

Lemma length_with_newline s : (0 < String.length (s +:+ String newline ""))%nat.
Proof.
  destruct s as [|c s]; [apply Nat.lt_0_succ|]. change (String c s +:+ String newline "") with (String c (s +:+ String newline "")).
  apply Nat.lt_0_succ.
Qed.

Lemma drop_last_newline s :
  String.substring 0 (String.length (s +:+ String newline "") - 1) (s +:+ String newline "") = s.
Proof.
  induction s as [|c s IH]; [done|]. change (String c s +:+ String newline "") with (String c (s +:+ String newline "")).
  cbn [String.length]. replace (S (String.length (s +:+ String newline "")) - 1)%nat
    with (S (String.length (s +:+ String newline "") - 1)).
  - cbn [String.substring]. by rewrite IH.
  - pose proof (length_with_newline s). lia.
Qed.

Lemma decode_encoded m d :
  contains (String newline "") (dumps (sort_keys (PDict (message_to_dict m)))) = false →
  loads (encode_message dumps m) = inr (PDict d) →
  decode_envelope loads (encode_message dumps m) = Ok d.
Proof.
  intros Hn Hl. unfold decode_envelope. unfold encode_message at 1 2 3.
  rewrite endswith_newline, drop_last_newline, Hn. cbn [negb]. by rewrite Hl.
Qed.

(** C30: every well-formed message survives encoding and decoding as a line: reading it back, by
    the general reader or by the reader of its kind, gives the same message with the keys of its
    payload in order, provided the JSON text of that message is one line that parses back. *)
Theorem message_roundtrip m :
  message_wf m →
  contains (String newline "") (dumps (sort_keys (PDict (message_to_dict m)))) = false →
  loads (encode_message dumps m) = inr (sort_keys (PDict (message_to_dict m))) →
  decode_message_line loads (encode_message dumps m) = inr (sorted_message m)
  ∧ match m, sorted_message m with
    | MRequest _, MRequest r => decode_request_line loads (encode_message dumps m) = inr r
    | MResponse _, MResponse r => decode_response_line loads (encode_message dumps m) = Ok r
    | MEvent _, MEvent e => decode_event_line loads (encode_message dumps m) = Ok e
    | _, _ => False
    end.
Proof.
  intros Hwf Hn Hl. unfold decode_message_line, decode_request_line, decode_response_line, decode_event_line.
  destruct m as [r|r|e].
  - destruct (request_dict_roundtrip r Hwf) as (d & Hd & Ht & Hr). cbn [message_to_dict] in Hl. rewrite Hd in Hl.
    rewrite (decode_encoded (MRequest r) d Hn Hl). cbn [mbind res_bind]. unfold get_or_none, dict_get_or. rewrite Ht.
    cbn -[Request_from_dict sorted_message]. by rewrite Hr.
  - destruct (response_dict_roundtrip r) as (d & Hd & Ht & Hr). cbn [message_to_dict] in Hl. rewrite Hd in Hl.
    rewrite (decode_encoded (MResponse r) d Hn Hl). cbn [mbind res_bind]. unfold get_or_none, dict_get_or. rewrite Ht.
    cbn -[Response_from_dict sorted_message]. by rewrite Hr.
  - destruct (event_dict_roundtrip e Hwf) as (d & Hd & Ht & Hr). cbn [message_to_dict] in Hl. rewrite Hd in Hl.
    rewrite (decode_encoded (MEvent e) d Hn Hl). cbn [mbind res_bind]. unfold get_or_none, dict_get_or. rewrite Ht.
    cbn -[Event_from_dict sorted_message]. by rewrite Hr.
Qed.

(** whatever line arrives, a request that is let through names an allowed command, carries only
    the payload fields of that command, and its identifier, if any, is the canonical text of a
    128-bit number. *)
Theorem decoded_request_wf line r :
  decode_request_line loads line = inr r →
  Request_wf r ∧ ∀ id, rq_command_id r = Some id → ∃ n, (0 <= n < 2 ^ 128)%Z ∧ id = uuid_text n.
Proof.
  unfold decode_request_line. destruct (decode_envelope loads line) as [data|e]; [|done].
  unfold Request_from_dict.
  destruct (_ ← validate_version data; _) as [r0|e] eqn:E; [|done]. intros Hp.
  apply post_init_inv in Hp as (-> & Hc & Hk).
  assert (Hid : ∀ id, rq_command_id r0 = Some id → ∃ v, require_command_id v "request.command_id" = Ok id).
  { destruct (validate_version data); [|done]. cbn [mbind res_bind] in E.
    destruct (validate_type data _); [|done]. cbn [mbind res_bind] in E.
    destruct (reject_unknown_fields _ _ _); [|done]. cbn [mbind res_bind] in E.
    destruct (require_string _ _); [|done]. cbn [mbind res_bind] in E.
    destruct (optional_mapping _ _); [|done]. cbn [mbind res_bind] in E.
    destruct (optional_command_id _ _) as [oid|] eqn:Eo; [|done]. injection E as <-. cbn [rq_command_id].
    intros id ->. revert Eo. unfold optional_command_id.
    destruct (get_or_none "command_id" data) as [|b|z|f|s|l|d] eqn:Ev; try discriminate;
      (destruct (require_command_id _ _) as [i|] eqn:Er; [|discriminate]); intros [= <-]; eauto. }
  split.
  - split; [done|]. split; [done|]. intros id Hi. destruct (Hid id Hi) as [v Hv].
    by destruct (require_command_id_canonical _ _ _ Hv) as [_ ->].
  - intros id Hi. destruct (Hid id Hi) as [v Hv]. by destruct (require_command_id_canonical _ _ _ Hv) as [? _].
Qed.
End protocol_theorems.

Definition sample_request : message := MRequest {|
  rq_command := COMMAND_CONNECT; rq_payload := [("profile_id", PStr "p1")];
  rq_command_id := Some "0a1b2c3d-0000-4000-8000-00000000000f" |}.
Definition sample_loads (_ : string) : string + pyval := inr (sort_keys (PDict (message_to_dict sample_request))).

Definition protocol_pystr : PyStr := {| repr_compound := fun _ => ""; float_literal := fun _ => None |}.

Lemma sample_request_wf : message_wf sample_request.
Proof.
  split; [apply str_in_spec; reflexivity|]. split.
  - exists ["profile_id"]. split; [reflexivity|]. intros key Hk. exact Hk.
  - intros id [= <-]. vm_compute. reflexivity.
Qed.

Lemma message_roundtrip_witness :
  @decode_message_line protocol_pystr sample_loads (encode_message (fun _ => "{}") sample_request) = inr sample_request.
Proof.
  exact (proj1 (@message_roundtrip protocol_pystr (fun _ => "{}") sample_loads sample_request sample_request_wf
    ltac:(reflexivity) ltac:(reflexivity))).
Defined.

Lemma decoded_request_wf_witness :
  @decode_request_line protocol_pystr sample_loads ("{}" +:+ String newline "") =
    inr {| rq_command := COMMAND_CONNECT; rq_payload := [("profile_id", PStr "p1")];
           rq_command_id := Some "0a1b2c3d-0000-4000-8000-00000000000f" |}
  ∧ ∃ n, (0 <= n < 2 ^ 128)%Z ∧ "0a1b2c3d-0000-4000-8000-00000000000f" = uuid_text n.
Proof.
  split; [vm_compute; reflexivity|].
  apply (proj2 (@decoded_request_wf protocol_pystr sample_loads ("{}" +:+ String newline "")
    {| rq_command := COMMAND_CONNECT; rq_payload := [("profile_id", PStr "p1")];
       rq_command_id := Some "0a1b2c3d-0000-4000-8000-00000000000f" |} ltac:(vm_compute; reflexivity))).
  reflexivity.
Defined.
