(* ===== verification/Worker.v ===== *)
(** * The runtime worker

    daemon/runtime_worker.py, with the counters of metrics/recorder.py, the event bus as the
    list of broadcast events, and the request dispatch of daemon/ipc_server.py.  First the
    handlers, which run on the worker thread over any runtime; then the worker as a state
    machine: each step is one section of the source that no other thread can interleave with
    (a critical section of one of the two locks, a queue operation, or a call on the worker
    thread), so that a run is any interleaving of the clients with the worker. *)
From stdpp Require Import base list strings gmap pretty.
From Stdlib Require Import Ascii ZArith QArith.
From S2P Require Import Prelude Steps PyData PyText Profiles Protocol.

(** ** models/connection_state.py: [ConnectionState.to_dict] *)
Definition ConnectionState_to_dict (isoformat : datetime → string) (c : ConnectionState) : pydict pyval :=
  [ ("active_profile_id", PStr (cs_active_profile_id c));
    ("connected_at", opt_str (isoformat <$> cs_connected_at c));
    ("mode", PStr (cs_mode c)); ("tun_active", PBool (cs_tun_active c));
    ("proxy_active", PBool (cs_proxy_active c));
    ("kill_switch_active", PBool (cs_kill_switch_active c));
    ("kill_switch_status", PStr (cs_kill_switch_status c));
    ("kill_switch_method", PStr (cs_kill_switch_method c));
    ("kill_switch_consistent", PBool (cs_kill_switch_consistent c));
    ("runtime_mismatch_severity", PStr (cs_runtime_mismatch_severity c));
    ("runtime_artifacts", PList (map PStr (cs_runtime_artifacts c)));
    ("lan_gateway_active", PBool (cs_lan_gateway_active c));
    ("lan_gateway_interface", PStr (cs_lan_gateway_interface c));
    ("lan_gateway_client_cidr", PStr (cs_lan_gateway_client_cidr c));
    ("lan_gateway_dns_mode", PStr (cs_lan_gateway_dns_mode c));
    ("lan_gateway_status", PStr (cs_lan_gateway_status c));
    ("status", PStr (cs_status c)); ("last_failure_reason", PStr (cs_last_failure_reason c));
    ("last_failure_at", opt_str (isoformat <$> cs_last_failure_at c)) ].

(** ** metrics/recorder.py: the counters of each record; storing them never raises *)
Definition counters := pydict Z.

Definition record_connection_result (connected : bool) : counters :=
  [("command.connect.attempt", 1); ("command.connect." +:+ (if connected then "success" else "failure"), 1)]%Z.
Definition record_disconnect_result (disconnected : bool) : counters :=
  [("command.disconnect.attempt", 1); ("command.disconnect." +:+ (if disconnected then "success" else "failure"), 1)]%Z.
Definition aggregate_status (status : string) : string :=
  if str_in status ALLOWED_STATUSES then status else "standby".
Definition record_rotation (kind : string) (c : ConnectionState) : counters :=
  [("rotation." +:+ kind +:+ ".attempt", 1);
   ("rotation." +:+ kind +:+ ".status." +:+ aggregate_status (cs_status c), 1)]%Z.
Definition record_health_check (c : ConnectionState) : counters :=
  let status := aggregate_status (cs_status c) in
  [("health_check.status." +:+ status, 1%Z)]
  ++ (if str_in status ["reconnecting"; "recovered"; "all_failed"; "kill_switch_active"; "rotation_unavailable"]
      then [("recovery.status." +:+ status, 1%Z)] else []).
Definition record_node_group_auto_test (result : string) : counters :=
  let category := if str_in result ["selected"; "unavailable"] then result else "unknown" in
  [("node_group.auto_test.attempt", 1); ("node_group.auto_test." +:+ category, 1)]%Z.
Definition record_runtime_error : counters := [("error.runtime", 1%Z)].

(** ** The runtime that the worker drives *)

(** The protocol class [RuntimeLike]; the attributes of [UnsupportedDriverPolicyError] and
    [datetime.isoformat] come with it. *)
Record RuntimeLike (W : Type) : Type := {
  rl_profile_get : string → PyM W (option Profile);
  rl_connect : Profile → PyM W bool;
  rl_disconnect : PyM W bool;
  rl_status : PyM W ConnectionState;
  rl_automatic_actions_enabled : PyM W bool;
  rl_rotate_now : bool → PyM W ConnectionState;
  rl_run_iteration : PyM W ConnectionState;
  rl_scheduled_rotate : PyM W ConnectionState;
  rl_node_group_auto_test : string → PyM W (pydict pyval);
  rl_last_error : W → string;
  rl_unsupported_capabilities : exn → list string;
  rl_driver_name : exn → string;
  rl_isoformat : datetime → string
}.
Arguments rl_profile_get {W}.
Arguments rl_connect {W}.
Arguments rl_disconnect {W}.
Arguments rl_status {W}.
Arguments rl_automatic_actions_enabled {W}.
Arguments rl_rotate_now {W}.
Arguments rl_run_iteration {W}.
Arguments rl_scheduled_rotate {W}.
Arguments rl_node_group_auto_test {W}.
Arguments rl_last_error {W}.
Arguments rl_unsupported_capabilities {W}.
Arguments rl_driver_name {W}.
Arguments rl_isoformat {W}.

(** What the handlers read and write besides the runtime *)
Record Outputs : Type := {
  ou_events : list Event;
  ou_metrics : list counters;
  ou_last_tick_status : option string
}.

Record WorkerRequest : Type := {
  wr_command : string;
  wr_payload : pydict pyval;
  wr_command_id : string;
  wr_deadline : option Q
}.

Definition cancelled_response (command_id command : string) : Response := {|
  rs_ok := false;
  rs_payload := [("command_id", PStr command_id); ("command", PStr command); ("outcome", PStr "cancelled");
                 ("error_kind", PStr "command_cancelled")];
  rs_error := Some "command cancelled before execution"
|}.

Definition with_command_metadata (r : Response) (command_id command : string) : Response := {|
  rs_ok := rs_ok r;
  rs_payload := dict_update (rs_payload r)
    [("command_id", PStr command_id); ("command", PStr command); ("outcome", PStr "completed")];
  rs_error := rs_error r
|}.

Definition rotate_outcome_reason (status : string) : string :=
  "rotation did not recover a healthy connection: status=" +:+ status.

Definition worker_require_string (v : pyval) (field_name : string) : res string :=
  match v with
  | PStr s => if truthy_str (strip s) then Ok (strip s)
              else raise ValueError (field_name +:+ " must be a non-empty string")
  | _ => raise ValueError (field_name +:+ " must be a non-empty string")
  end.

Definition failure (payload : pydict pyval) (error : string) : Response :=
  {| rs_ok := false; rs_payload := payload; rs_error := Some error |}.

Section handlers.
Context `{PyStr} {W : Type} (runtime : RuntimeLike W) (runtime_provenance : pydict pyval).

(** Handlers run over the runtime's world and the outputs. *)
Definition HM (A : Type) : Type := PyM (W * Outputs) A.

Definition on_runtime {A} (m : PyM W A) : HM A := fun '(w, o) =>
  let '(r, w') := m w in (r, (w', o)).

Definition broadcast (event : string) (payload : pydict pyval) : HM unit :=
  modifyS (fun '(w, o) => (w, {| ou_events := ou_events o ++ [{| ev_event := event; ev_payload := payload |}];
                                 ou_metrics := ou_metrics o; ou_last_tick_status := ou_last_tick_status o |})).
Definition record (c : counters) : HM unit :=
  modifyS (fun '(w, o) => (w, {| ou_events := ou_events o; ou_metrics := ou_metrics o ++ [c];
                                 ou_last_tick_status := ou_last_tick_status o |})).
Definition set_last_tick_status (s : option string) : HM unit :=
  modifyS (fun '(w, o) => (w, {| ou_events := ou_events o; ou_metrics := ou_metrics o; ou_last_tick_status := s |})).

Definition state_payload (c : ConnectionState) : pydict pyval := ConnectionState_to_dict (rl_isoformat runtime) c.
Definition broadcast_state (payload : pydict pyval) : HM unit := broadcast EVENT_STATE_CHANGED payload.

(** [except Exception] around a call of the runtime *)
Definition caught {A} (m : HM A) : HM (res A) := fun s => let '(r, s') := m s in (Ok r, s').

Definition handle_tick : HM unit :=
  outcome ← caught (on_runtime (rl_run_iteration runtime));
  match outcome with
  | Err _ => record record_runtime_error
  | Ok state =>
      let payload := state_payload state in
      _ ← record (record_health_check state);
      _ ← broadcast EVENT_HEALTH_CHECK payload;
      last ← gets (fun s => ou_last_tick_status s.2);
      if bool_decide (Some (cs_status state) = last) then mret tt else
      _ ← set_last_tick_status (Some (cs_status state));
      broadcast_state payload
  end.

Definition handle_scheduled_rotation : HM unit :=
  outcome ← caught (on_runtime (rl_scheduled_rotate runtime));
  match outcome with
  | Err _ => record record_runtime_error
  | Ok state =>
      let payload := state_payload state in
      _ ← record (record_rotation "scheduled" state);
      _ ← broadcast EVENT_ROTATION payload;
      broadcast_state payload
  end.

(** The replies to the three exceptions of [runtime.connect] that have one *)
Definition connect_refused (profile : Profile) (e : exn) (kind : string) (details : pydict pyval) (announce : bool)
    : HM Response :=
  state ← on_runtime (rl_status runtime);
  let payload := state_payload state in
  _ ← record (record_connection_result false);
  _ ← (if announce then broadcast_state payload else mret tt);
  mret (failure ([("error_kind", PStr kind); ("profile_id", PStr (p_id profile)); ("state", PDict payload)] ++ details)
          (exn_message e)).

Definition handle_connect (payload : pydict pyval) : HM Response :=
  match worker_require_string (get_or_none "profile_id" payload) "profile_id" with
  | Err e =>
      if is_instance e ValueError then mret (failure [("error_kind", PStr "invalid_input")] (exn_message e))
      else liftR (Err e)
  | Ok profile_id =>
      found ← on_runtime (rl_profile_get runtime profile_id);
      match found with
      | None => mret (failure [("error_kind", PStr "profile_not_found")] ("profile not found: " +:+ profile_id))
      | Some profile =>
          outcome ← caught (on_runtime (rl_connect runtime profile));
          match outcome with
          | Err e =>
              if is_instance e UnsupportedDriverPolicyError then
                connect_refused profile e "unsupported_policy"
                  [("unsupported_capabilities", PList (map PStr (rl_unsupported_capabilities runtime e)));
                   ("driver", PStr (rl_driver_name runtime e))] false
              else if is_instance e ManagementPathSafetyError then
                connect_refused profile e "management_path_unprotected" [("error_detail", PStr (exn_message e))] false
              else if is_instance e TeardownBarrierError then
                connect_refused profile e "cleanup_failed" [("error_detail", PStr (exn_message e))] true
              else liftR (Err e)
          | Ok connected =>
              state ← on_runtime (rl_status runtime);
              let payload := state_payload state in
              _ ← record (record_connection_result connected);
              _ ← broadcast_state payload;
              detail ← gets (fun s => strip (rl_last_error runtime s.1));
              mret {| rs_ok := connected;
                      rs_payload := [("connected", PBool connected); ("profile_id", PStr (p_id profile));
                                     ("state", PDict payload)]
                        ++ (if connected then [] else
                              [("error_kind", PStr "connect_failed")]
                              ++ (if truthy_str detail then [("error_detail", PStr detail)] else []));
                      rs_error := if connected then None else Some "connect failed" |}
          end
      end
  end.

Definition handle_disconnect : HM Response :=
  disconnected ← on_runtime (rl_disconnect runtime);
  state ← on_runtime (rl_status runtime);
  let payload := state_payload state in
  _ ← record (record_disconnect_result disconnected);
  _ ← broadcast_state payload;
  mret {| rs_ok := disconnected; rs_payload := [("disconnected", PBool disconnected); ("state", PDict payload)];
          rs_error := if (disconnected : bool) then None else Some "disconnect failed" |}.

Definition handle_status : HM Response :=
  state ← on_runtime (rl_status runtime);
  mret {| rs_ok := true;
          rs_payload := [("state", PDict (state_payload state)); ("runtime_provenance", PDict runtime_provenance)];
          rs_error := None |}.

Definition handle_rotate (payload : pydict pyval) : HM Response :=
  match dict_get_or "force" (PBool false) payload with
  | PBool force =>
      performed ← on_runtime (rl_automatic_actions_enabled runtime);
      state ← on_runtime (rl_rotate_now runtime force);
      let payload := state_payload state in
      let ok := negb performed || negb (str_in (cs_status state) FAILURE_STATUSES) in
      _ ← record (record_rotation "manual" state);
      _ ← broadcast EVENT_ROTATION payload;
      _ ← broadcast_state payload;
      mret {| rs_ok := ok; rs_payload := [("state", PDict payload); ("performed", PBool performed)];
              rs_error := if (ok : bool) then None else Some (rotate_outcome_reason (cs_status state)) |}
  | _ => mret (failure [] "force must be a boolean")
  end.

Definition handle_node_group_auto_test (payload : pydict pyval) : HM Response :=
  group_name ← liftR (worker_require_string (get_or_none "group_name" payload) "group_name");
  result ← on_runtime (rl_node_group_auto_test runtime group_name);
  _ ← record (record_node_group_auto_test (py_str (dict_get_or "result" (PStr "unknown") result)));
  mret {| rs_ok := true; rs_payload := result; rs_error := None |}.

Definition dispatch_command (r : WorkerRequest) : HM Response :=
  let unknown := raiseM UnknownCommandError ("unknown command: " +:+ wr_command r) in
  if negb (str_in (wr_command r) ALLOWED_COMMANDS) then unknown
  else if String.eqb (wr_command r) COMMAND_CONNECT then handle_connect (wr_payload r)
  else if String.eqb (wr_command r) COMMAND_DISCONNECT then handle_disconnect
  else if String.eqb (wr_command r) COMMAND_STATUS then handle_status
  else if String.eqb (wr_command r) COMMAND_ROTATE then handle_rotate (wr_payload r)
  else if String.eqb (wr_command r) COMMAND_NODE_GROUP_AUTO_TEST then handle_node_group_auto_test (wr_payload r)
  else unknown.

Definition handle_request (r : WorkerRequest) : HM Response :=
  try_except (dispatch_command r) any_exn (fun e => mret (failure [] (exn_message e))).
End handlers.

(** ** The worker as a state machine *)

(** [_CommandRecord.state] *)
Inductive record_state : Type := RQueued | RRunning | RCompleted | RCancelled.
#[global] Instance record_state_eq_dec : EqDecision record_state.
Proof. solve_decision. Defined.

Definition state_name (s : record_state) : string :=
  match s with
  | RQueued => "queued" | RRunning => "running" | RCompleted => "completed" | RCancelled => "cancelled"
  end.

(** [cr_request] is the request object, as its position among the submitted ones *)
Record CommandRecord : Type := {
  rec_command : string;
  rec_state : record_state;
  rec_response : option Response;
  rec_request : nat
}.

Inductive item : Type := IStop | ITick | IScheduled | IRequest (oid : nat).
#[global] Instance item_eq_dec : EqDecision item.
Proof. solve_decision. Defined.

(** Where the worker thread is *)
Inductive phase : Type :=
| PWaiting                            (* at [self._queue.get()] *)
| PTaken (i : item)                   (* before [self._runtime_busy = True] *)
| PBusy (i : item)                    (* before the item is handled *)
| PExpired (oid : nat)                (* cancelled or expired, before it is recorded *)
| PChecked (oid : nat)                (* neither, before the record is looked up *)
| PRunning (oid : nat)                (* the runtime is working on it *)
| PHandled (oid : nat) (r : Response) (* before the outcome is recorded *)
| PReply (oid : nat) (r : Response)   (* before [response_queue.put] *)
| PFinish (i : item)                  (* at the [finally] *)
| PStopped.

Definition MAX_RETAINED_FINAL_OUTCOMES : nat := 512.

Record WorkerState (W : Type) : Type := WS {
  ws_requests : list WorkerRequest;           (* every request object *)
  ws_cancelled : gset nat;                    (* those with [cancellation_requested] set *)
  ws_pending : list nat;                      (* registered by a client, not yet in the queue *)
  ws_queue : list item;
  ws_records : gmap string CommandRecord;
  ws_final_ids : list string;
  ws_busy : bool;
  ws_tick_pending : bool;
  ws_phase : phase;
  ws_world : W * Outputs;
  ws_executed : list nat;                     (* mutating requests given to the runtime, in order *)
  ws_replies : list (nat * Response)          (* what was put into response queues *)
}.
Arguments WS {W}.
Arguments ws_requests {W}.
Arguments ws_cancelled {W}.
Arguments ws_pending {W}.
Arguments ws_queue {W}.
Arguments ws_records {W}.
Arguments ws_final_ids {W}.
Arguments ws_busy {W}.
Arguments ws_tick_pending {W}.
Arguments ws_phase {W}.
Arguments ws_world {W}.
Arguments ws_executed {W}.
Arguments ws_replies {W}.

Section machine.
Context `{PyStr} {W : Type} (runtime : RuntimeLike W) (runtime_provenance : pydict pyval).
Abbreviation state := (WorkerState W).

Definition set_phase (p : phase) (s : state) : state :=
  WS (ws_requests s) (ws_cancelled s) (ws_pending s) (ws_queue s) (ws_records s) (ws_final_ids s) (ws_busy s)
     (ws_tick_pending s) p (ws_world s) (ws_executed s) (ws_replies s).
Definition set_queue (q : list item) (s : state) : state :=
  WS (ws_requests s) (ws_cancelled s) (ws_pending s) q (ws_records s) (ws_final_ids s) (ws_busy s)
     (ws_tick_pending s) (ws_phase s) (ws_world s) (ws_executed s) (ws_replies s).
Definition set_pending (l : list nat) (s : state) : state :=
  WS (ws_requests s) (ws_cancelled s) l (ws_queue s) (ws_records s) (ws_final_ids s) (ws_busy s)
     (ws_tick_pending s) (ws_phase s) (ws_world s) (ws_executed s) (ws_replies s).
Definition set_records (m : gmap string CommandRecord) (f : list string) (s : state) : state :=
  WS (ws_requests s) (ws_cancelled s) (ws_pending s) (ws_queue s) m f (ws_busy s)
     (ws_tick_pending s) (ws_phase s) (ws_world s) (ws_executed s) (ws_replies s).
Definition set_flags (busy tick : bool) (s : state) : state :=
  WS (ws_requests s) (ws_cancelled s) (ws_pending s) (ws_queue s) (ws_records s) (ws_final_ids s) busy
     tick (ws_phase s) (ws_world s) (ws_executed s) (ws_replies s).
Definition set_world (w : W * Outputs) (s : state) : state :=
  WS (ws_requests s) (ws_cancelled s) (ws_pending s) (ws_queue s) (ws_records s) (ws_final_ids s) (ws_busy s)
     (ws_tick_pending s) (ws_phase s) w (ws_executed s) (ws_replies s).
Definition add_request (r : WorkerRequest) (s : state) : state :=
  WS (ws_requests s ++ [r]) (ws_cancelled s) (ws_pending s) (ws_queue s) (ws_records s) (ws_final_ids s) (ws_busy s)
     (ws_tick_pending s) (ws_phase s) (ws_world s) (ws_executed s) (ws_replies s).
Definition set_cancelled (oid : nat) (s : state) : state :=
  WS (ws_requests s) ({[ oid ]} ∪ ws_cancelled s) (ws_pending s) (ws_queue s) (ws_records s) (ws_final_ids s) (ws_busy s)
     (ws_tick_pending s) (ws_phase s) (ws_world s) (ws_executed s) (ws_replies s).
Definition add_executed (oid : nat) (s : state) : state :=
  WS (ws_requests s) (ws_cancelled s) (ws_pending s) (ws_queue s) (ws_records s) (ws_final_ids s) (ws_busy s)
     (ws_tick_pending s) (ws_phase s) (ws_world s) (ws_executed s ++ [oid]) (ws_replies s).
Definition add_reply (oid : nat) (r : Response) (s : state) : state :=
  WS (ws_requests s) (ws_cancelled s) (ws_pending s) (ws_queue s) (ws_records s) (ws_final_ids s) (ws_busy s)
     (ws_tick_pending s) (ws_phase s) (ws_world s) (ws_executed s) (ws_replies s ++ [(oid, r)]).

(** *** Clients *)
Definition mutating (r : WorkerRequest) : bool := str_in (wr_command r) MUTATING_COMMANDS.
Definition is_alive (s : state) : bool := match ws_phase s with PStopped => false | _ => true end.

(** [submit_request] up to the release of the lock: the request object and its record.  A
    request whose identifier is taken raises and leaves no trace. *)
Definition register (r : WorkerRequest) (s : state) : res unit * state :=
  if negb (is_alive s) then (raise RuntimeError "runtime worker is not running", s)
  else
    let oid := length (ws_requests s) in
    if negb (mutating r) then (Ok tt, set_pending (ws_pending s ++ [oid]) (add_request r s))
    else match ws_records s !! wr_command_id r with
         | Some _ => (raise RuntimeError ("duplicate command id: " +:+ wr_command_id r), s)
         | None =>
             (Ok tt, set_pending (ws_pending s ++ [oid])
                (set_records (<[ wr_command_id r := {| rec_command := wr_command r; rec_state := RQueued;
                                                       rec_response := None; rec_request := oid |} ]> (ws_records s))
                   (ws_final_ids s) (add_request r s)))
         end.

(** [self._queue.put(request)] *)
Definition enqueue (oid : nat) (s : state) : state :=
  set_queue (ws_queue s ++ [IRequest oid]) (set_pending (List.filter (fun o => negb (o =? oid)%nat) (ws_pending s)) s).

(** [_retain_final_command_locked]: the loop drops identifiers from the left *)
Fixpoint evict (surplus : nat) (ids : list string) (m : gmap string CommandRecord)
    : list string * gmap string CommandRecord :=
  match surplus, ids with
  | S n, id :: ids' =>
      evict n ids' (match m !! id with
                    | Some r => match rec_response r with Some _ => delete id m | None => m end
                    | None => m
                    end)
  | _, _ => (ids, m)
  end.

Definition retain_final (command_id : string) (s : state) : state :=
  let ids := ws_final_ids s ++ [command_id] in
  let '(ids', m) := evict (length ids - MAX_RETAINED_FINAL_OUTCOMES) ids (ws_records s) in
  set_records m ids' s.

Definition finalize (command_id : string) (r : CommandRecord) (st : record_state) (response : Response) (s : state)
    : state :=
  retain_final command_id
    (set_records (<[ command_id := {| rec_command := rec_command r; rec_state := st; rec_response := Some response;
                                      rec_request := rec_request r |} ]> (ws_records s)) (ws_final_ids s) s).

Definition not_found_response (command_id : string) : Response :=
  failure [("command_id", PStr command_id); ("error_kind", PStr "command_not_found")] "command outcome not found".

Definition in_progress (command_id command outcome error : string) : Response :=
  failure [("command_id", PStr command_id); ("command", PStr command); ("outcome", PStr outcome);
           ("error_kind", PStr "command_in_progress")] error.

Definition command_outcome (command_id : string) (s : state) : Response :=
  match ws_records s !! command_id with
  | None => not_found_response command_id
  | Some r =>
      match rec_response r with
      | Some response => response
      | None => in_progress command_id (rec_command r) (state_name (rec_state r)) "command is still running"
      end
  end.

Definition cancel_command (command_id : string) (s : state) : Response * state :=
  match ws_records s !! command_id with
  | None => (not_found_response command_id, s)
  | Some r =>
      match rec_response r with
      | Some response => (response, s)
      | None =>
          if bool_decide (rec_state r = RQueued) then
            let response := cancelled_response command_id (rec_command r) in
            (response, finalize command_id r RCancelled response (set_cancelled (rec_request r) s))
          else (in_progress command_id (rec_command r) "running"
                  "command is already running; query command outcome for its final result", s)
      end
  end.

Definition submit_tick (s : state) : state :=
  if ws_busy s || ws_tick_pending s || negb (bool_decide (ws_queue s = [])) then s
  else set_queue (ws_queue s ++ [ITick]) (set_flags (ws_busy s) true s).

Definition submit_scheduled_rotation (s : state) : state := set_queue (ws_queue s ++ [IScheduled]) s.
Definition stop (s : state) : state := set_queue (ws_queue s ++ [IStop]) s.

(** *** The worker thread *)
Definition deadline_expired (now : Q) (r : WorkerRequest) : bool :=
  match wr_deadline r with Some d => Qle_bool d now | None => false end.

(** [_record_final_response] *)
Definition record_final_response (r : WorkerRequest) (response : Response) (st : record_state) (s : state) : state :=
  match ws_records s !! wr_command_id r with
  | None => s
  | Some c => match rec_response c with
              | None => finalize (wr_command_id r) c st response s
              | Some _ => s
              end
  end.

(** One step of [_run] and [_execute_request]; [now] is [time.monotonic()]. *)
Definition worker_step (now : Q) (s : state) : option state :=
  match ws_phase s with
  | PWaiting =>
      match ws_queue s with
      | [] => None
      | i :: q => Some (set_phase (PTaken i) (set_queue q s))
      end
  | PTaken IStop => Some (set_phase PStopped s)
  | PTaken i => Some (set_phase (PBusy i) (set_flags true (ws_tick_pending s) s))
  | PBusy ITick => Some (set_phase (PFinish ITick) (set_world (handle_tick runtime (ws_world s)).2 s))
  | PBusy IScheduled =>
      Some (set_phase (PFinish IScheduled) (set_world (handle_scheduled_rotation runtime (ws_world s)).2 s))
  | PBusy (IRequest oid) =>
      match ws_requests s !! oid with
      | None => None
      | Some r =>
          if negb (mutating r) then
            match handle_request runtime runtime_provenance r (ws_world s) with
            | (Ok response, w) => Some (set_phase (PFinish (IRequest oid)) (add_reply oid response (set_world w s)))
            | (Err _, _) => None
            end
          else if bool_decide (oid ∈ ws_cancelled s) || deadline_expired now r
          then Some (set_phase (PExpired oid) s)
          else Some (set_phase (PChecked oid) s)
      end
  | PExpired oid =>
      r ← ws_requests s !! oid;
      let response := cancelled_response (wr_command_id r) (wr_command r) in
      Some (set_phase (PReply oid response) (record_final_response r response RCancelled s))
  | PChecked oid =>
      r ← ws_requests s !! oid;
      match ws_records s !! wr_command_id r with
      | Some c =>
          match rec_response c with
          | None =>
              Some (set_phase (PRunning oid)
                (set_records (<[ wr_command_id r := {| rec_command := rec_command c; rec_state := RRunning;
                                                       rec_response := rec_response c; rec_request := rec_request c |} ]>
                                (ws_records s)) (ws_final_ids s) s))
          | Some _ => Some (set_phase (PReply oid (cancelled_response (wr_command_id r) (wr_command r))) s)
          end
      | None => Some (set_phase (PReply oid (cancelled_response (wr_command_id r) (wr_command r))) s)
      end
  | PRunning oid =>
      r ← ws_requests s !! oid;
      match handle_request runtime runtime_provenance r (ws_world s) with
      | (Ok response, w) =>
          Some (set_phase (PHandled oid (with_command_metadata response (wr_command_id r) (wr_command r)))
                  (add_executed oid (set_world w s)))
      | (Err _, _) => None
      end
  | PHandled oid response =>
      r ← ws_requests s !! oid;
      Some (set_phase (PReply oid response) (record_final_response r response RCompleted s))
  | PReply oid response => Some (set_phase (PFinish (IRequest oid)) (add_reply oid response s))
  | PFinish i => Some (set_phase PWaiting (set_flags false (if bool_decide (i = ITick) then false else ws_tick_pending s) s))
  | PBusy IStop | PStopped => None
  end.

(** A worker whose thread has started *)
Definition initial (w : W * Outputs) : state := WS [] ∅ [] [] ∅ [] false false PWaiting w [] [].

(** What one of the threads does next *)
Inductive action : Type :=
| ARegister (r : WorkerRequest)
| AEnqueue (oid : nat)
| ACancel (command_id : string)
| ATick
| AScheduled
| AStop
| AWorker (now : Q).

Inductive step : action → state → state → Prop :=
| step_register r s : step (ARegister r) s (register r s).2
| step_enqueue oid s : oid ∈ ws_pending s → step (AEnqueue oid) s (enqueue oid s)
| step_cancel id s : step (ACancel id) s (cancel_command id s).2
| step_tick s : is_alive s = true → step ATick s (submit_tick s)
| step_scheduled s : is_alive s = true → step AScheduled s (submit_scheduled_rotation s)
| step_stop s : is_alive s = true → step AStop s (stop s)
| step_worker now s s' : worker_step now s = Some s' → step (AWorker now) s s'.

Inductive run_of : state → list action → state → Prop :=
| run_nil s : run_of s [] s
| run_snoc s l a s' s'' : run_of s l s' → step a s' s'' → run_of s (l ++ [a]) s''.
End machine.

(** ** daemon/ipc_server.py: one request line *)
Section ipc.
Context `{PyStr} {W : Type}.

(** [_command_id_from_payload] *)
Definition command_id_from_payload (payload : pydict pyval) : res string :=
  match get_or_none "command_id" payload with
  | PStr command_id =>
      match uuid_parse command_id with
      | None => raise ProtocolError "command_id must be a UUID string"
      | Some parsed =>
          if negb (String.eqb (uuid_text parsed) (lower command_id))
          then raise ProtocolError "command_id must be a canonical UUID string"
          else Ok (lower command_id)
      end
  | _ => raise ProtocolError "command_id must be a UUID string"
  end.

(** The two commands that [_dispatch] answers without the queue *)
Definition dispatch_control (request : Request) (s : WorkerState W) : option (res Response * WorkerState W) :=
  if String.eqb (rq_command request) COMMAND_COMMAND_OUTCOME then
    Some (id ← command_id_from_payload (rq_payload request); Ok (command_outcome id s), s)
  else if String.eqb (rq_command request) COMMAND_COMMAND_CANCEL then
    Some (match command_id_from_payload (rq_payload request) with
          | Ok id => let '(r, s') := cancel_command id s in (Ok r, s')
          | Err e => (Err e, s)
          end)
  else None.

(** The request that [submit] makes: [generated] is [str(uuid.uuid4())], used when the client
    sent no identifier; [timeout] is also the deadline. *)
Definition dispatched_request (request : Request) (generated : string) (now timeout : Q) : WorkerRequest := {|
  wr_command := rq_command request;
  wr_payload := rq_payload request;
  wr_command_id := match rq_command_id request with
                   | Some id => if truthy_str id then id else generated
                   | None => generated
                   end;
  wr_deadline := if Qeq_bool timeout 0 then None else Some (now + timeout)
|}.

(** [except queue.Empty] *)
Definition dispatch_timed_out (request : Request) (command_id : string) (s : WorkerState W)
    : Response * WorkerState W :=
  if negb (str_in (rq_command request) MUTATING_COMMANDS) then
    (failure [("command", PStr (rq_command request)); ("error_kind", PStr "command_timeout")]
       "daemon runtime command timed out", s)
  else cancel_command command_id s.

(** The replies of [_RequestHandler.handle] to a line that raised *)
Definition error_reply (e : request_error) : Response :=
  match e with
  | UnsupportedPayload command fields =>
      failure [("error_kind", PStr "unsupported_payload_fields"); ("command", PStr command);
               ("unsupported_fields", PList (map PStr fields))] (exn_message (request_error_exn e))
  | RequestExn e => failure [] (exn_message e)
  end.
End ipc.
