(* ===== verification/WorkerSafety.v ===== *)
(** * Invariants of the runtime worker

    What holds of the state machine of [Worker] under every interleaving of clients, timers
    and the worker thread. *)
From stdpp Require Import base list strings gmap pretty.
From Stdlib Require Import Ascii ZArith QArith.
From S2P Require Import Prelude Steps PyData PyText Profiles Protocol Worker.

(** ** The handlers never raise *)
Section total.
Context `{PyStr} {W : Type} (runtime : RuntimeLike W) (provenance : pydict pyval).

Definition returns {S A} (m : PyM S A) : Prop := ∀ s, ∃ a, (m s).1 = Ok a.

Lemma returns_bind {S A B} (m : PyM S A) (f : A → PyM S B) : returns m → (∀ a, returns (f a)) → returns (m ≫= f).
Proof.
  intros Hm Hf s. destruct (Hm s) as [a Ha]. unfold mbind, pym_bind. destruct (m s) as [r s']. cbn in Ha. subst r.
  apply Hf.
Qed.

Lemma returns_ret {S A} (a : A) : returns (mret a : PyM S A).
Proof. intros s. by exists a. Qed.
Lemma returns_gets {S A} (f : S → A) : returns (gets f).
Proof. intros s. by exists (f s). Qed.
Lemma returns_modify {S} (f : S → S) : returns (modifyS f).
Proof. intros s. by exists tt. Qed.
Lemma returns_caught {A} (m : HM (W := W) A) : returns (caught m).
Proof. intros s. unfold caught. destruct (m s) as [r s']. by exists r. Qed.

Lemma handle_request_returns r : returns (handle_request runtime provenance r).
Proof.
  intros s. unfold handle_request, try_except. destruct (dispatch_command runtime provenance r s) as [[a|e] s']; cbn; eauto.
Qed.

Lemma handle_tick_returns : returns (handle_tick runtime).
Proof.
  unfold handle_tick. apply returns_bind; [apply returns_caught|]. intros [state|e]; [|apply returns_modify].
  do 2 (apply returns_bind; [apply returns_modify|intros _]). apply returns_bind; [apply returns_gets|intros last].
  case_bool_decide; [apply returns_ret|]. apply returns_bind; [apply returns_modify|intros _; apply returns_modify].
Qed.

Lemma handle_scheduled_rotation_returns : returns (handle_scheduled_rotation runtime).
Proof.
  unfold handle_scheduled_rotation. apply returns_bind; [apply returns_caught|]. intros [state|e]; [|apply returns_modify].
  do 2 (apply returns_bind; [apply returns_modify|intros _]). apply returns_modify.
Qed.
End total.

(** ** Positions of the request objects *)
Definition item_oid (i : item) : option nat := match i with IRequest o => Some o | _ => None end.

(** The request that the worker holds: not yet given to the runtime, or after that *)
Definition phase_waiting (p : phase) : list nat :=
  match p with
  | PTaken (IRequest o) | PBusy (IRequest o) | PExpired o | PChecked o | PRunning o => [o]
  | _ => []
  end.
Definition phase_answered (p : phase) : list nat :=
  match p with PHandled o _ | PReply o _ => [o] | _ => [] end.

Section invariant.
Context `{PyStr} {W : Type} (runtime : RuntimeLike W) (provenance : pydict pyval).
Abbreviation state := (WorkerState W).

Definition waiting (s : state) : list nat :=
  phase_waiting (ws_phase s) ++ omap item_oid (ws_queue s) ++ ws_pending s.

(** Every request object is in one place: with its client, in the queue, with the worker, or
    answered. *)
Definition tracked (s : state) : list nat :=
  map fst (ws_replies s) ++ phase_answered (ws_phase s) ++ waiting s.

Record Positions (s : state) : Prop := {
  pos_nodup : NoDup (tracked s);
  pos_bound : ∀ o, o ∈ tracked s → (o < length (ws_requests s))%nat;
  pos_exec_nodup : NoDup (ws_executed s);
  pos_exec : ∀ o, o ∈ ws_executed s → (o ∉ waiting s) ∧ (o < length (ws_requests s))%nat
}.

(** The records and the cancellation flags agree with what was executed. *)
Record Records (s : state) : Prop := {
  rec_cancelled : ∀ o, o ∈ ws_cancelled s → (o ∉ ws_executed s) ∧ (o < length (ws_requests s))%nat;
  rec_unique : ∀ o1 o2 r1 r2, ws_requests s !! o1 = Some r1 → ws_requests s !! o2 = Some r2 →
    mutating r1 = true → mutating r2 = true → wr_command_id r1 = wr_command_id r2 → o1 = o2;
  rec_owner : ∀ id c, ws_records s !! id = Some c → ∃ r, ws_requests s !! rec_request c = Some r ∧
    mutating r = true ∧ wr_command_id r = id;
  rec_queued : ∀ id c, ws_records s !! id = Some c → rec_state c = RQueued →
    rec_response c = None ∧ (rec_request c ∉ ws_executed s) ∧ (rec_request c ∉ ws_cancelled s);
  rec_running : ∀ id c, ws_records s !! id = Some c → rec_state c = RRunning →
    rec_response c = None ∧ (rec_request c ∉ ws_cancelled s) ∧
    (ws_phase s = PRunning (rec_request c) ∨ ∃ r, ws_phase s = PHandled (rec_request c) r);
  rec_final : ∀ id c, ws_records s !! id = Some c → (rec_state c = RCompleted ∨ rec_state c = RCancelled) →
    is_Some (rec_response c);
  rec_phase_running : ∀ o, ws_phase s = PRunning o →
    ∃ r c, ws_requests s !! o = Some r ∧ ws_records s !! wr_command_id r = Some c ∧ rec_state c = RRunning;
  rec_phase_mutating : ∀ o, (ws_phase s = PExpired o ∨ ws_phase s = PChecked o ∨ ws_phase s = PRunning o
                             ∨ ∃ x, ws_phase s = PHandled o x) →
    ∃ r, ws_requests s !! o = Some r ∧ mutating r = true
}.

(** A record is evicted only when it is final, and finalised only once. *)
Definition records_move (id : string) (m m' : gmap string CommandRecord) : Prop :=
  ∀ x, m' !! x = m !! x
    ∨ (m' !! x = None ∧ ∃ c, m !! x = Some c ∧ is_Some (rec_response c))
    ∨ (x = id ∧ (m' !! x = None ∨ ∃ c c', m !! x = Some c ∧ rec_response c = None ∧ m' !! x = Some c' ∧
         rec_request c' = rec_request c ∧ is_Some (rec_response c') ∧ (rec_state c' = RCompleted ∨ rec_state c' = RCancelled))).

Lemma evict_spec n ids m ids' m' :
  evict n ids m = (ids', m') →
  ids' = drop n ids ∧
  ∀ x, m' !! x = m !! x ∨ (x ∈ take n ids ∧ m' !! x = None ∧ ∃ c, m !! x = Some c ∧ is_Some (rec_response c)).
Proof.
  revert ids m. induction n as [|n IH]; intros ids m; [intros [= <- <-]; by eauto|].
  destruct ids as [|id ids]; [intros [= <- <-]; by eauto|]. cbn [evict]. intros E.
  apply IH in E as [-> Hx]. split; [done|]. intros x. destruct (Hx x) as [Hl|(Hin & Hn & c & Hc & Hr)].
  - destruct (m !! id) as [r|] eqn:Em; [|by left]. destruct (rec_response r) eqn:Er; [|by left].
    destruct (decide (x = id)) as [->|Hne].
    + right. rewrite lookup_delete_eq in Hl. split; [left|]. split; [done|]. exists r. by rewrite Er.
    + left. by rewrite lookup_delete_ne in Hl by done.
  - right. split; [by right|]. split; [done|]. exists c. split; [|done].
    destruct (m !! id) as [r|] eqn:Em; [|done]. destruct (rec_response r) eqn:Er; [|done].
    by apply lookup_delete_Some in Hc as [_ ?].
Qed.

Lemma finalize_spec id c st resp (s : state) :
  ws_records s !! id = Some c → rec_response c = None → st = RCompleted ∨ st = RCancelled →
  ∃ m' f', finalize id c st resp s = set_records m' f' s ∧ records_move id (ws_records s) m'
    ∧ (∀ c', m' !! id = Some c' → is_Some (rec_response c'))
    ∧ f' = drop (length (ws_final_ids s ++ [id]) - MAX_RETAINED_FINAL_OUTCOMES) (ws_final_ids s ++ [id]).
Proof.
  intros Hc Hr Hst. unfold finalize, retain_final. cbn [ws_final_ids ws_records set_records].
  destruct (evict _ _ _) as [ids' m'] eqn:E. apply evict_spec in E as [-> Hx].
  exists m', (drop (length (ws_final_ids s ++ [id]) - MAX_RETAINED_FINAL_OUTCOMES) (ws_final_ids s ++ [id])).
  split; [done|]. split; [|split; [|done]].
  2: { intros c' Hc'. destruct (Hx id) as [Hl|(_ & Hn & _)]; [|congruence].
       rewrite lookup_insert_eq in Hl. rewrite Hc' in Hl. injection Hl as ->. by eexists. }
  intros x. destruct (decide (x = id)) as [->|Hne].
  - right; right. split; [done|]. destruct (Hx id) as [Hl|(_ & Hn & _)]; [|by left].
    rewrite lookup_insert_eq in Hl. right. eexists c, _. split; [done|]. split; [done|]. split; [exact Hl|].
    split; [done|]. split; [by eexists|done].
  - destruct (Hx x) as [Hl|(_ & Hn & c' & Hl & Hs)]; rewrite lookup_insert_ne in Hl by done; [by left|].
    right; left. eauto.
Qed.

(** ** Positions *)
Lemma record_final_response_spec r resp st (s : state) :
  (st = RCompleted ∨ st = RCancelled) →
  ∃ m' f', record_final_response r resp st s = set_records m' f' s ∧ records_move (wr_command_id r) (ws_records s) m'
    ∧ (∀ c, m' !! wr_command_id r = Some c → is_Some (rec_response c)).
Proof.
  intros Hst. unfold record_final_response. destruct (ws_records s !! wr_command_id r) as [c|] eqn:Ec.
  - destruct (rec_response c) as [x|] eqn:Er.
    + exists (ws_records s), (ws_final_ids s). split; [by destruct s|]. split; [by intros ?; left|].
      intros c' Hc'. rewrite Ec in Hc'. injection Hc' as <-. by rewrite Er.
    + destruct (finalize_spec (wr_command_id r) c st resp s Ec Er Hst) as (m' & f' & -> & Hm & Hfin & _). eauto.
  - exists (ws_records s), (ws_final_ids s). split; [by destruct s|]. split; [by intros ?; left|]. congruence.
Qed.

(** A step that keeps the request where the ghost lists see it *)
Lemma tracked_same (s s' : state) :
  ws_replies s' = ws_replies s → ws_queue s' = ws_queue s → ws_pending s' = ws_pending s →
  phase_waiting (ws_phase s') = phase_waiting (ws_phase s) → phase_answered (ws_phase s') = phase_answered (ws_phase s) →
  tracked s' = tracked s ∧ waiting s' = waiting s.
Proof. intros H1 H2 H3 H4 H5. unfold tracked, waiting. by rewrite H1, H2, H3, H4, H5. Qed.

Lemma worker_step_tracked now s s' :
  worker_step runtime provenance now s = Some s' →
  tracked s' ≡ₚ tracked s ∧ ws_requests s' = ws_requests s ∧ ws_cancelled s' = ws_cancelled s
  ∧ ((ws_executed s' = ws_executed s ∧ ∀ o, o ∈ waiting s' → o ∈ waiting s)
     ∨ ∃ o, ws_phase s = PRunning o ∧ ws_executed s' = ws_executed s ++ [o]
            ∧ waiting s = o :: waiting s').
Proof.
  intros Hs. unfold worker_step in Hs.
  destruct (ws_phase s) as [|i|i|o|o|o|o resp|o resp|i|] eqn:Ep.
  - (* the next item *)
    destruct (ws_queue s) as [|i q] eqn:Eq; [done|]. injection Hs as <-.
    assert (Hw : tracked (set_phase (PTaken i) (set_queue q s)) = tracked s
                 ∧ waiting (set_phase (PTaken i) (set_queue q s)) = waiting s).
    { unfold tracked, waiting. rewrite Ep, Eq. by destruct i. }
    destruct Hw as [-> ->]. eauto 10.
  - destruct i; injection Hs as <-;
      (edestruct (tracked_same s) as [-> ->]; [..|by eauto 10]; cbn; by rewrite ?Ep).
  - destruct i as [| | |o]; [done|..].
    1,2: injection Hs as <-; (edestruct (tracked_same s) as [-> ->]; [..|by eauto 10]; cbn; by rewrite ?Ep).
    destruct (ws_requests s !! o) as [r|]; [|done]. destruct (mutating r); cbn [negb] in Hs.
    + destruct (_ || _); injection Hs as <-;
        (edestruct (tracked_same s) as [-> ->]; [..|by eauto 10]; cbn; by rewrite ?Ep).
    + destruct (handle_request _ _ _ _) as [[resp|e] w]; [|done]. injection Hs as <-.
      split; [|split; [done|split; [done|left; split; [done|]]]].
      * unfold tracked, waiting. rewrite Ep. cbn. rewrite map_app. cbn. rewrite <- app_assoc. done.
      * unfold waiting. rewrite Ep. cbn. intros x Hx. by right.
  - destruct (ws_requests s !! o) as [r|]; [|done]. cbn in Hs. injection Hs as <-.
    destruct (record_final_response_spec r (cancelled_response (wr_command_id r) (wr_command r)) RCancelled s)
      as (m' & f' & -> & _); [by right|].
    split; [|split; [done|split; [done|left; split; [done|]]]].
    + unfold tracked, waiting. rewrite Ep. cbn. done.
    + unfold waiting. rewrite Ep. cbn. intros x Hx. by right.
  - destruct (ws_requests s !! o) as [r|]; [|done]. cbn in Hs.
    destruct (ws_records s !! wr_command_id r) as [c|]; [destruct (rec_response c)|]; injection Hs as <-.
    2: (edestruct (tracked_same s) as [-> ->]; [..|by eauto 10]; cbn; by rewrite ?Ep).
    all: (split; [|split; [done|split; [done|left; split; [done|]]]];
      [unfold tracked, waiting; rewrite Ep; done|unfold waiting; rewrite Ep; cbn; intros x Hx; by right]).
  - destruct (ws_requests s !! o) as [r|]; [|done]. cbn in Hs.
    destruct (handle_request _ _ _ _) as [[resp|e] w]; [|done]. injection Hs as <-.
    split; [|split; [done|split; [done|right; exists o; split; [done|]]]].
    + unfold tracked, waiting. rewrite Ep. done.
    + split; [done|]. unfold waiting. by rewrite Ep.
  - destruct (ws_requests s !! o) as [r|]; [|done]. cbn in Hs. injection Hs as <-.
    destruct (record_final_response_spec r resp RCompleted s) as (m' & f' & -> & _); [by left|].
    edestruct (tracked_same s) as [-> ->]; [..|by eauto 10]; cbn; by rewrite ?Ep.
  - injection Hs as <-. split; [|split; [done|split; [done|left; split; [done|]]]].
    + unfold tracked, waiting. rewrite Ep. cbn. rewrite map_app. cbn. by rewrite <- app_assoc.
    + unfold waiting. rewrite Ep. cbn. done.
  - injection Hs as <-. edestruct (tracked_same s) as [-> ->]; [..|by eauto 10]; cbn; by rewrite ?Ep.
  - done.
Qed.

(** Cancelling only touches the records and one flag. *)
Lemma cancel_command_frame id (s : state) :
  (cancel_command id s).2 = s
  ∨ ∃ c, ws_records s !! id = Some c ∧ rec_response c = None ∧ rec_state c = RQueued
    ∧ ∃ m' f', (cancel_command id s).2 = set_records m' f' (set_cancelled (rec_request c) s)
               ∧ records_move id (ws_records s) m' ∧ (∀ c', m' !! id = Some c' → is_Some (rec_response c')).
Proof.
  unfold cancel_command. destruct (ws_records s !! id) as [c|] eqn:Ec; [|by left].
  destruct (rec_response c) eqn:Er; [by left|]. case_bool_decide as Hq; [|by left].
  right. exists c. split; [done|]. split; [done|]. split; [done|].
  destruct (finalize_spec id c RCancelled (cancelled_response id (rec_command c)) (set_cancelled (rec_request c) s))
    as (m' & f' & Hf & Hm & Hfin & _); [done|done|by right|].
  exists m', f'. done.
Qed.

(** A client does not reuse the identifier of another mutating request. *)
Definition fresh_action (a : action) (s : state) : Prop :=
  match a with
  | ARegister r => mutating r = true → ∀ r', r' ∈ ws_requests s → mutating r' = true →
                   wr_command_id r' ≠ wr_command_id r
  | _ => True
  end.

Lemma register_cases r (s : state) :
  (register r s).2 = s
  ∨ ∃ m, (register r s).2 = set_pending (ws_pending s ++ [length (ws_requests s)])
           (set_records m (ws_final_ids s) (add_request r s))
      ∧ (m = ws_records s ∧ mutating r = false
         ∨ ws_records s !! wr_command_id r = None ∧ mutating r = true
           ∧ m = <[ wr_command_id r := {| rec_command := wr_command r; rec_state := RQueued; rec_response := None;
                                          rec_request := length (ws_requests s) |} ]> (ws_records s)).
Proof.
  unfold register. destruct (is_alive s); [|by left]. cbn [negb]. destruct (mutating r) eqn:Em; cbn [negb].
  - destruct (ws_records s !! wr_command_id r) eqn:El; [by left|]. right. eexists. split; [reflexivity|]. right. done.
  - right. exists (ws_records s). split; [by destruct s|]. by left.
Qed.

Lemma filter_out_perm (o : nat) l :
  NoDup l → o ∈ l → o :: List.filter (fun x => negb (x =? o)%nat) l ≡ₚ l.
Proof.
  induction 1 as [|x l Hx Hl IH]; intros Ho; [by apply elem_of_nil in Ho|]. cbn [List.filter].
  destruct (Nat.eqb_spec x o) as [->|Hne]; cbn [negb].
  - f_equiv. clear IH Ho. induction l as [|y l IH]; [done|]. cbn [List.filter].
    rewrite not_elem_of_cons in Hx. destruct Hx as [Hy Hx]. destruct (Nat.eqb_spec y o); [congruence|]. cbn.
    f_equiv. apply IH; [done|by inversion Hl].
  - rewrite Permutation_swap. f_equiv. apply IH. apply elem_of_cons in Ho as [|]; [congruence|done].
Qed.

Lemma enqueue_tracked o (s : state) :
  NoDup (tracked s) → o ∈ ws_pending s → tracked (enqueue o s) ≡ₚ tracked s ∧ waiting (enqueue o s) ≡ₚ waiting s.
Proof.
  intros Hnd Ho.
  assert (Hp : NoDup (ws_pending s)).
  { unfold tracked, waiting in Hnd. by do 4 (apply NoDup_app in Hnd as (_ & _ & Hnd)). }
  assert (Hw : waiting (enqueue o s) ≡ₚ waiting s).
  { unfold waiting. cbn. rewrite omap_app. cbn. rewrite <- app_assoc. f_equiv. f_equiv.
    by apply filter_out_perm. }
  split; [|done]. unfold tracked. by rewrite Hw.
Qed.

Lemma positions_step a s s' :
  Positions s → step runtime provenance a s s' → Positions s'.
Proof.
  intros [Hnd Hb Hen He] Hs. destruct Hs as [r s|o s Ho|id s|s _|s _|s _|now s s' Hs].
  - destruct (register_cases r s) as [->|(m & -> & _)]; [done|].
    set (n := length (ws_requests s)).
    assert (Ht : tracked (set_pending (ws_pending s ++ [n]) (set_records m (ws_final_ids s) (add_request r s)))
                 = tracked s ++ [n]).
    { unfold tracked, waiting. cbn. by rewrite !app_assoc. }
    assert (Hw : waiting (set_pending (ws_pending s ++ [n]) (set_records m (ws_final_ids s) (add_request r s)))
                 = waiting s ++ [n]).
    { unfold waiting. cbn. by rewrite !app_assoc. }
    assert (Hfresh : n ∉ tracked s) by (intros Hin; apply Hb in Hin; unfold n in Hin; lia).
    constructor; rewrite ?Ht, ?Hw; cbn; rewrite ?length_app; cbn.
    + apply NoDup_app. split; [done|]. split; [|apply NoDup_singleton]. intros x Hx ->%list_elem_of_singleton. done.
    + intros x [Hx| ->%list_elem_of_singleton]%elem_of_app; [apply Hb in Hx; lia|unfold n; lia].
    + done.
    + intros x Hx. destruct (He x Hx) as [Hnw Hlt]. split; [|lia].
      intros [?| ->%list_elem_of_singleton]%elem_of_app; [done|unfold n in Hlt; lia].
  - destruct (enqueue_tracked o s Hnd Ho) as [Ht Hw]. constructor; try setoid_rewrite Ht; try setoid_rewrite Hw; done.
  - destruct (cancel_command_frame id s) as [->|(c & _ & _ & _ & m' & f' & -> & _)]; [done|]. by constructor.
  - unfold submit_tick. destruct (_ || _); [done|]. 
    assert (Hw : waiting (set_queue (ws_queue s ++ [ITick]) (set_flags (ws_busy s) true s)) = waiting s).
    { unfold waiting. cbn. by rewrite omap_app, app_nil_r. }
    constructor; unfold tracked; rewrite ?Hw; done.
  - assert (Hw : waiting (submit_scheduled_rotation s) = waiting s).
    { unfold waiting. cbn. by rewrite omap_app, app_nil_r. }
    constructor; unfold tracked; rewrite ?Hw; done.
  - assert (Hw : waiting (stop s) = waiting s). { unfold waiting. cbn. by rewrite omap_app, app_nil_r. }
    constructor; unfold tracked; rewrite ?Hw; done.
  - destruct (worker_step_tracked _ _ _ Hs) as (Ht & Hr & _ & Hex).
    constructor; rewrite ?Hr; try setoid_rewrite Ht; try done.
    + destruct Hex as [[-> _]|(o & Hp & -> & Hw)]; [done|]. apply NoDup_app. split; [done|].
      split; [|apply NoDup_singleton]. intros x Hx ->%list_elem_of_singleton. apply He in Hx as [Hx _]. apply Hx.
      rewrite Hw. left.
    + destruct Hex as [[-> Hsub]|(o & Hp & -> & Hw)].
      * intros x Hx. apply He in Hx as [Hx Hlt]. split; [|done]. by intros ?%Hsub.
      * assert (Hndw : NoDup (waiting s)).
        { unfold tracked in Hnd. by do 2 (apply NoDup_app in Hnd as (_ & _ & Hnd)). }
        rewrite Hw in Hndw. apply NoDup_cons in Hndw as [Hno _].
        intros x [Hx| ->%list_elem_of_singleton]%elem_of_app.
        -- apply He in Hx as [Hx Hlt]. split; [|done]. rewrite Hw in Hx. intros Hin. apply Hx. by right.
        -- split; [done|]. apply Hb. unfold tracked. rewrite Hw. apply elem_of_app. right. apply elem_of_app. right. left.
Qed.

(** ** Records *)
Lemma move_inv id m m' x c' :
  records_move id m m' → m' !! x = Some c' →
  ∃ c, m !! x = Some c ∧ rec_request c' = rec_request c
       ∧ (c' = c ∨ x = id ∧ is_Some (rec_response c') ∧ (rec_state c' = RCompleted ∨ rec_state c' = RCancelled)).
Proof.
  intros Hm Hx. destruct (Hm x) as [Hl|[(Hn & _)|(-> & [Hn|(c & c'' & Hc & _ & Hl & Hr & Hs & Hst)])]]; [|congruence..|].
  - exists c'. split; [congruence|]. by split; [|left].
  - rewrite Hx in Hl. injection Hl as <-. exists c. split; [done|]. split; [done|]. right. done.
Qed.

(** The parts of the state that the records depend on *)
Lemma records_frame s s' :
  Records s → ws_requests s' = ws_requests s → ws_cancelled s' = ws_cancelled s → ws_records s' = ws_records s →
  ws_executed s' = ws_executed s → ws_phase s' = ws_phase s → Records s'.
Proof. intros [] E0 E1 E2 E3 E4. constructor; rewrite ?E0, ?E1, ?E2, ?E3, ?E4; done. Qed.

(** The same, when the worker moves to a phase without a record *)
Definition neutral_phase (p : phase) : Prop :=
  (∀ o, p ≠ PExpired o) ∧ (∀ o, p ≠ PChecked o) ∧ (∀ o, p ≠ PRunning o) ∧ (∀ o x, p ≠ PHandled o x).

Lemma no_running s : Records s → (∀ o, ws_phase s ≠ PRunning o) → (∀ o x, ws_phase s ≠ PHandled o x) →
  ∀ id c, ws_records s !! id = Some c → rec_state c ≠ RRunning.
Proof.
  intros Hr H1 H2 id c Hc Hs. destruct (rec_running _ Hr id c Hc Hs) as (_ & _ & [Hp|[x Hp]]); [by eapply H1|by eapply H2].
Qed.

Lemma records_phase s s' :
  Records s → ws_requests s' = ws_requests s → ws_cancelled s' = ws_cancelled s → ws_records s' = ws_records s →
  ws_executed s' = ws_executed s →
  (∀ o, ws_phase s ≠ PRunning o) → (∀ o x, ws_phase s ≠ PHandled o x) →
  (neutral_phase (ws_phase s') ∨ ∃ o r, (ws_phase s' = PExpired o ∨ ws_phase s' = PChecked o)
                                        ∧ ws_requests s !! o = Some r ∧ mutating r = true) →
  Records s'.
Proof.
  intros Hrec E1 E2 E3 E4 Hn1 Hn2 Hp. pose proof (no_running s Hrec Hn1 Hn2) as Hnr. destruct Hrec.
  constructor; rewrite ?E1, ?E2, ?E3, ?E4; try done.
  - intros id c Hc Hs. by destruct (Hnr id c Hc).
  - intros o Ho. destruct Hp as [(_ & _ & Hp & _)|(o' & r & [Hp|Hp] & _)]; [by destruct (Hp o)|congruence..].
  - intros o Ho. destruct Hp as [(H1 & H2 & H3 & H4)|(o' & r & Hp & Hr & Hm)].
    + destruct Ho as [Ho|[Ho|[Ho|[x Ho]]]]; [by destruct (H1 o)|by destruct (H2 o)|by destruct (H3 o)|by destruct (H4 o x)].
    + assert (o = o') as -> by (destruct Hp as [Hp|Hp]; rewrite Hp in Ho;
        destruct Ho as [Ho|[Ho|[Ho|[x Ho]]]]; congruence). eauto.
Qed.

(** Finalising a record, when the worker moves on *)
Lemma records_finalise id m' f' s p :
  Records s → records_move id (ws_records s) m' →
  (∀ x c, m' !! x = Some c → rec_state c ≠ RRunning) → neutral_phase p →
  Records (set_phase p (set_records m' f' s)).
Proof.
  intros [] Hm Hnr (H1 & H2 & H3 & H4). constructor; cbn; try done.
  - intros x c' Hc. destruct (move_inv _ _ _ _ _ Hm Hc) as (c & Hl & -> & _). eauto.
  - intros x c' Hc Hs. destruct (move_inv _ _ _ _ _ Hm Hc) as (c & Hl & Hr & [->|(_ & _ & [|])]); [eauto|congruence..].
  - intros x c' Hc Hs. by destruct (Hnr x c' Hc).
  - intros x c' Hc Hs. destruct (move_inv _ _ _ _ _ Hm Hc) as (c & Hl & Hr & [->|(_ & ? & _)]); eauto.
  - intros o ->. by destruct (H3 o).
  - intros o Ho. destruct Ho as [Ho|[Ho|[Ho|[x Ho]]]]; [by destruct (H1 o)|by destruct (H2 o)|by destruct (H3 o)|by destruct (H4 o x)].
Qed.

Lemma neutral_reply o r : neutral_phase (PReply o r).
Proof. by repeat split. Qed.

(** The record that a mutating request finds under its identifier is its own. *)
Lemma own_record s o r c :
  Records s → ws_requests s !! o = Some r → mutating r = true → ws_records s !! wr_command_id r = Some c →
  rec_request c = o.
Proof.
  intros Hrec Hr Hm Hc. destruct (rec_owner _ Hrec _ _ Hc) as (r' & Hr' & Hm' & Hid).
  by eapply (rec_unique _ Hrec).
Qed.

Lemma records_start o r c s :
  Records s → ws_phase s = PChecked o → ws_requests s !! o = Some r →
  ws_records s !! wr_command_id r = Some c → rec_response c = None →
  Records (set_phase (PRunning o)
    (set_records (<[ wr_command_id r := {| rec_command := rec_command c; rec_state := RRunning;
                                           rec_response := None; rec_request := rec_request c |} ]>
                    (ws_records s)) (ws_final_ids s) s)).
Proof.
  intros Hrec Hp Hr Hc Hresp.
  assert (Hm : mutating r = true).
  { destruct (rec_phase_mutating _ Hrec o) as (r' & Hr' & Hm'); [tauto|]. congruence. }
  pose proof (own_record s o r c Hrec Hr Hm Hc) as Ho.
  assert (Hnr : ∀ id c, ws_records s !! id = Some c → rec_state c ≠ RRunning).
  { apply no_running; [done|..]; by rewrite Hp. }
  assert (Hq : rec_state c = RQueued).
  { destruct (rec_state c) eqn:E; [done|by destruct (Hnr _ _ Hc)|..];
      (destruct (rec_final _ Hrec _ _ Hc) as [z Hz]; [rewrite E; tauto|congruence]). }
  destruct (rec_queued _ Hrec _ _ Hc Hq) as (_ & Hne & Hnc). destruct Hrec.
  constructor; cbn; try done.
  - intros id d [[<- <-]|[Hne' Hd]]%lookup_insert_Some; cbn; [|by eauto]. rewrite Ho. eauto.
  - intros id d [[<- <-]|[Hne' Hd]]%lookup_insert_Some Hs; [done|by eauto].
  - intros id d [[<- <-]|[Hne' Hd]]%lookup_insert_Some Hs; cbn; [|by destruct (Hnr _ _ Hd)].
    split; [done|]. split; [done|]. left. by rewrite Ho.
  - intros id d [[<- <-]|[Hne' Hd]]%lookup_insert_Some Hs; cbn in *; [by destruct Hs|by eauto].
  - intros o' [= <-]. eexists r, _. split; [done|]. split; [apply lookup_insert_eq|done].
  - intros o' [Ho'|[Ho'|[Ho'|[x Ho']]]]; try done. injection Ho' as <-. eauto.
Qed.

Lemma records_handled o resp w s r :
  Records s → ws_phase s = PRunning o → ws_requests s !! o = Some r →
  Records (set_phase (PHandled o resp) (add_executed o (set_world w s))).
Proof.
  intros Hrec Hp Hr. destruct (rec_phase_running _ Hrec o Hp) as (r' & c & Hr' & Hc & Hrun).
  rewrite Hr in Hr'. injection Hr' as <-.
  destruct (rec_running _ Hrec _ _ Hc Hrun) as (_ & Hnc & Hpc).
  assert (Ho : rec_request c = o) by (destruct Hpc as [Hpc|[x Hpc]]; rewrite Hp in Hpc; congruence).
  rewrite Ho in Hnc.
  pose proof (rec_phase_mutating _ Hrec o ltac:(tauto)) as Hmut.
  pose proof Hrec as Hrec0. destruct Hrec. constructor; cbn; try done.
  - intros x Hx. destruct (rec_cancelled0 x Hx) as [Hne Hlt]. split; [|done].
    intros [?| ->%list_elem_of_singleton]%elem_of_app; done.
  - intros id d Hd Hs. destruct (rec_queued0 id d Hd Hs) as (H1 & H2 & H3). split; [done|]. split; [|done].
    intros [?|Hdo%list_elem_of_singleton]%elem_of_app; [done|].
    destruct (rec_owner0 id d Hd) as (r' & Hr' & _ & <-). rewrite Hdo, Hr in Hr'. injection Hr' as <-. congruence.
  - intros id d Hd Hs. destruct (rec_running0 id d Hd Hs) as (H1 & H2 & H3). split; [done|]. split; [done|].
    right. exists resp. destruct H3 as [H3|[x H3]]; rewrite Hp in H3; congruence.
  - intros o' [Ho'|[Ho'|[Ho'|[x Ho']]]]; try done. injection Ho' as <- _. done.
Qed.

Lemma records_worker now s s' :
  Positions s → Records s → worker_step runtime provenance now s = Some s' → Records s'.
Proof.
  intros Hpos Hrec Hs. unfold worker_step in Hs.
  destruct (ws_phase s) as [|i|i|o|o|o|o resp|o resp|i|] eqn:Ep.
  - destruct (ws_queue s) as [|i q]; [done|]. injection Hs as <-.
    eapply (records_phase s); rewrite ?Ep; try done. left. by repeat split.
  - destruct i; injection Hs as <-; (eapply (records_phase s); rewrite ?Ep; try done; left; by repeat split).
  - destruct i as [| | |o]; [done|..].
    1,2: injection Hs as <-; (eapply (records_phase s); rewrite ?Ep; try done; left; by repeat split).
    destruct (ws_requests s !! o) as [r|] eqn:Er; [|done]. destruct (mutating r) eqn:Em; cbn [negb] in Hs.
    + destruct (_ || _); injection Hs as <-; (eapply (records_phase s); rewrite ?Ep; try done; right; exists o, r; cbn; tauto).
    + destruct (handle_request _ _ _ _) as [[resp|e] w]; [|done]. injection Hs as <-.
      eapply (records_phase s); rewrite ?Ep; try done. left. by repeat split.
  - destruct (ws_requests s !! o) as [r|] eqn:Er; [|done]. cbn in Hs. injection Hs as <-.
    destruct (record_final_response_spec r (cancelled_response (wr_command_id r) (wr_command r)) RCancelled s)
      as (m' & f' & -> & Hm & _); [by right|].
    eapply records_finalise; [done|exact Hm| |apply neutral_reply].
    intros x c' Hc. destruct (move_inv _ _ _ _ _ Hm Hc) as (c & Hl & _ & [->|(_ & _ & [|])]); [|congruence..].
    eapply (no_running s); [done|..|exact Hl]; by rewrite Ep.
  - destruct (ws_requests s !! o) as [r|] eqn:Er; [|done]. cbn in Hs.
    destruct (ws_records s !! wr_command_id r) as [c|] eqn:Ec; [destruct (rec_response c) eqn:Ersp|]; injection Hs as <-.
    1,3: (eapply (records_phase s); rewrite ?Ep; try done; left; by repeat split).
    by apply (records_start o r c).
  - destruct (ws_requests s !! o) as [r|] eqn:Er; [|done]. cbn in Hs.
    destruct (handle_request _ _ _ _) as [[resp|e] w]; [|done]. injection Hs as <-. by apply (records_handled o _ w s r).
  - destruct (ws_requests s !! o) as [r|] eqn:Er; [|done]. cbn in Hs. injection Hs as <-.
    destruct (record_final_response_spec r resp RCompleted s) as (m' & f' & -> & Hm & Hfin); [by left|].
    eapply records_finalise; [done|exact Hm| |apply neutral_reply].
    intros x c' Hc Hrun. destruct (move_inv _ _ _ _ _ Hm Hc) as (c & Hl & _ & [->|(_ & _ & [|])]); [|congruence..].
    destruct (rec_running _ Hrec _ _ Hl Hrun) as (Hresp & _ & [Hp|[y Hp]]); rewrite Ep in Hp; [done|].
    injection Hp as Ho _. destruct (rec_owner _ Hrec _ _ Hl) as (r' & Hr' & _ & <-).
    rewrite <- Ho, Er in Hr'. injection Hr' as <-. destruct (Hfin c Hc) as [z Hz]. congruence.
  - injection Hs as <-. eapply (records_phase s); rewrite ?Ep; try done. left. by repeat split.
  - injection Hs as <-. eapply (records_phase s); rewrite ?Ep; try done. left. by repeat split.
  - done.
Qed.

Lemma records_cancel id s : Records s → Records (cancel_command id s).2.
Proof.
  intros Hrec. destruct (cancel_command_frame id s) as [->|(c & Hc & Hresp & Hq & m' & f' & -> & Hm & Hfin)]; [done|].
  destruct (rec_queued _ Hrec _ _ Hc Hq) as (_ & Hne & Hnc).
  destruct (rec_owner _ Hrec _ _ Hc) as (r & Hr & Hmut & Hid).
  assert (Hother : ∀ x d, x ≠ id → ws_records s !! x = Some d → rec_request d ≠ rec_request c).
  { intros x d Hx Hd E. destruct (rec_owner _ Hrec _ _ Hd) as (r' & Hr' & _ & Hid'). rewrite E, Hr in Hr'.
    injection Hr' as <-. congruence. }
  assert (Hnew : ∀ x d, m' !! x = Some d → is_Some (rec_response d) ∨ (ws_records s !! x = Some d ∧ x ≠ id)).
  { intros x d Hd. destruct (move_inv _ _ _ _ _ Hm Hd) as (d0 & Hl & _ & [->|(-> & Hs & _)]); [|by left].
    destruct (decide (x = id)) as [->|]; [left; eauto|by right]. }
  destruct Hrec. constructor; cbn; try done.
  - intros o [->%elem_of_singleton|Ho]%elem_of_union; [|eauto]. split; [done|]. by apply lookup_lt_Some in Hr.
  - intros x d Hd. destruct (move_inv _ _ _ _ _ Hm Hd) as (d0 & Hl & -> & _). eauto.
  - intros x d Hd Hs. destruct (move_inv _ _ _ _ _ Hm Hd) as (d0 & Hl & _ & [->|(_ & _ & [|])]); [|congruence..].
    destruct (rec_queued0 x d0 Hl Hs) as (H1 & H2 & H3). split; [done|]. split; [done|].
    destruct (Hnew x d0 Hd) as [[z Hz]|[_ Hx]]; [congruence|].
    intros [Ho%elem_of_singleton|]%elem_of_union; [by apply (Hother x d0 Hx Hl)|done].
  - intros x d Hd Hs. destruct (move_inv _ _ _ _ _ Hm Hd) as (d0 & Hl & _ & [->|(_ & _ & [|])]); [|congruence..].
    destruct (rec_running0 x d0 Hl Hs) as (H1 & H2 & H3). split; [done|]. split; [|done].
    destruct (Hnew x d0 Hd) as [[z Hz]|[_ Hx]]; [congruence|].
    intros [Ho%elem_of_singleton|]%elem_of_union; [by apply (Hother x d0 Hx Hl)|done].
  - intros x d Hd Hs. destruct (Hnew x d Hd) as [?|[Hl _]]; [done|eauto].
  - intros o Ho. destruct (rec_phase_running0 o Ho) as (r' & d & Hr' & Hd & Hs).
    exists r', d. split; [done|]. split; [|done].
    destruct (Hm (wr_command_id r')) as [->|[(_ & d1 & Hd1 & [z Hz])|(Hx & _)]]; [done|..].
    + rewrite Hd in Hd1. injection Hd1 as <-. destruct (rec_running0 _ _ Hd Hs) as (? & _). congruence.
    + rewrite Hx in Hd. congruence.
Qed.

Lemma records_register r s : Positions s → Records s → fresh_action (ARegister r) s → Records (register r s).2.
Proof.
  intros Hpos Hrec Hfresh. destruct (register_cases r s) as [->|(m & -> & Hcase)]; [done|].
  assert (Hlen : ∀ o x, ws_requests s !! o = Some x → (ws_requests s ++ [r]) !! o = Some x).
  { intros o x Hx. by apply lookup_app_l_Some. }
  assert (Hold : ∀ id d, ws_records s !! id = Some d → ∃ r', (ws_requests s ++ [r]) !! rec_request d = Some r' ∧
            mutating r' = true ∧ wr_command_id r' = id).
  { intros id d Hd. destruct (rec_owner _ Hrec _ _ Hd) as (r' & Hr' & ?). eauto. }
  assert (Hm : ∀ id d, m !! id = Some d →
            ws_records s !! id = Some d ∨ (mutating r = true ∧ id = wr_command_id r ∧
              d = {| rec_command := wr_command r; rec_state := RQueued; rec_response := None;
                     rec_request := length (ws_requests s) |})).
  { intros id d Hd. destruct Hcase as [[-> _]|(_ & Hmut & ->)]; [by left|].
    apply lookup_insert_Some in Hd as [[<- <-]|[_ Hd]]; [by right|by left]. }
  assert (Hkeep : ∀ id d, ws_records s !! id = Some d → m !! id = Some d).
  { intros id d Hd. destruct Hcase as [[-> _]|(Hn & _ & ->)]; [done|]. rewrite lookup_insert_ne; [done|congruence]. }
  destruct Hrec. constructor; cbn; rewrite ?length_app; cbn; try done.
  - intros o Ho. destruct (rec_cancelled0 o Ho). split; [done|lia].
  - intros o1 o2 r1 r2 H1 H2 Hm1 Hm2 Hid.
    apply lookup_app_Some in H1 as [H1|[Hl1 H1]], H2 as [H2|[Hl2 H2]].
    + eauto.
    + apply list_lookup_singleton_Some in H2 as [H2 <-]. apply list_elem_of_lookup_2 in H1.
      by destruct (Hfresh Hm2 r1 H1 Hm1).
    + apply list_lookup_singleton_Some in H1 as [H1 <-]. apply list_elem_of_lookup_2 in H2.
      by destruct (Hfresh Hm1 r2 H2 Hm2).
    + apply list_lookup_singleton_Some in H1 as [H1 _], H2 as [H2 _]. lia.
  - intros id d [Hd|(Hmut & -> & ->)]%Hm; [by apply Hold|]. exists r. cbn.
    split; [|done]. rewrite lookup_app_r, Nat.sub_diag by lia. done.
  - intros id d [Hd|(Hmut & -> & ->)]%Hm Hs; [eauto|]. cbn. split; [done|]. split.
    + intros He. apply (pos_exec _ Hpos) in He as [_ ?]. lia.
    + intros He. apply rec_cancelled0 in He as [_ ?]. lia.
  - intros id d [Hd|(Hmut & -> & ->)]%Hm Hs; [eauto|done].
  - intros id d [Hd|(Hmut & -> & ->)]%Hm Hs; [eauto|]. by destruct Hs.
  - intros o Ho. destruct (rec_phase_running0 o Ho) as (r' & d & Hr' & Hd & Hs). exists r', d. eauto.
  - intros o Ho. destruct (rec_phase_mutating0 o Ho) as (r' & Hr' & Hmut). eauto.
Qed.

Lemma records_step a s s' :
  Positions s → Records s → fresh_action a s → step runtime provenance a s s' → Records s'.
Proof.
  intros Hpos Hrec Hf Hs. destruct Hs as [r s|o s Ho|id s|s _|s _|s _|now s s' Hs].
  - by apply records_register.
  - by eapply (records_frame s).
  - by apply records_cancel.
  - unfold submit_tick. destruct (_ || _); [done|]. by eapply (records_frame s).
  - by eapply (records_frame s).
  - by eapply (records_frame s).
  - by eapply records_worker.
Qed.

(** ** Runs in which identifiers are not reused *)
Inductive fresh_run : state → list action → state → Prop :=
| fresh_nil s : fresh_run s [] s
| fresh_snoc s l a s' s'' : fresh_run s l s' → fresh_action a s' → step runtime provenance a s' s'' →
    fresh_run s (l ++ [a]) s''.

Lemma fresh_run_app s l s' l' s'' : fresh_run s l s' → fresh_run s' l' s'' → fresh_run s (l ++ l') s''.
Proof.
  intros H1 H2. induction H2 as [s0|s0 l0 a s1 s2 Hrun IH Hf Hst]; [by rewrite app_nil_r|].
  rewrite app_assoc. econstructor; eauto.
Qed.

Lemma initial_positions w : Positions (initial w).
Proof. constructor; cbn; try apply NoDup_nil_2; intros o Ho; by apply elem_of_nil in Ho. Qed.

Lemma initial_records w : Records (initial w).
Proof.
  constructor; cbn; try done; try (intros id c Hc; by rewrite lookup_empty in Hc).
  intros o [Ho|[Ho|[Ho|[x Ho]]]]; done.
Qed.

Lemma run_invariant s l s' :
  fresh_run s l s' → Positions s → Records s → Positions s' ∧ Records s'.
Proof.
  induction 1 as [s|s l a s1 s2 Hrun IH Hf Hst]; [done|]. intros Hp Hr. destruct (IH Hp Hr) as [Hp1 Hr1].
  split; [by eapply positions_step|by eapply records_step].
Qed.














Lemma requests_step a s s' : step runtime provenance a s s' → ws_requests s `prefix_of` ws_requests s'.
Proof.
  intros Hs. destruct Hs as [r s|o s Ho|id s|s _|s _|s _|now s s' Hs]; try done.
  - destruct (register_cases r s) as [->|(m & -> & _)]; [done|]. cbn. by eexists.
  - destruct (cancel_command_frame id s) as [->|(c & _ & _ & _ & m' & f' & -> & _)]; done.
  - unfold submit_tick. by destruct (_ || _).
  - destruct (worker_step_tracked _ _ _ Hs) as (_ & -> & _). done.
Qed.







(** ** Answers *)

(** Steps of the worker thread until it waits for the next item *)
Definition rank (p : phase) : nat :=
  match p with
  | PWaiting | PStopped | PTaken IStop | PBusy IStop => 0
  | PFinish _ => 1
  | PReply _ _ | PBusy ITick | PBusy IScheduled => 2
  | PHandled _ _ | PExpired _ | PTaken ITick | PTaken IScheduled => 3
  | PRunning _ => 4
  | PChecked _ => 5
  | PBusy (IRequest _) => 6
  | PTaken (IRequest _) => 7
  end.
Definition ending (p : phase) : Prop := p = PStopped ∨ p = PTaken IStop ∨ p = PBusy IStop.

(** The request [o] is answered within [m] steps of the worker thread *)
Inductive due (o m : nat) (s : state) : Prop :=
| due_answered : o ∈ map fst (ws_replies s) → due o m s
| due_held : o ∈ phase_waiting (ws_phase s) ++ phase_answered (ws_phase s) → (rank (ws_phase s) <= m)%nat → due o m s
| due_queued q1 q2 : ws_queue s = q1 ++ IRequest o :: q2 → IStop ∉ q1 → ¬ ending (ws_phase s) →
    (rank (ws_phase s) + 8 * S (length q1) <= m)%nat → due o m s.

Lemma due_client o m s s' :
  ws_phase s' = ws_phase s → ws_replies s' = ws_replies s → ws_queue s `prefix_of` ws_queue s' →
  due o m s → due o m s'.
Proof.
  intros Ep Er [k Ek] [Ha|Hh Hm|q1 q2 Hq Hstop He Hm].
  - apply due_answered. by rewrite Er.
  - apply due_held; by rewrite Ep.
  - eapply due_queued; rewrite ?Ep; try done. rewrite Ek, Hq, <- app_assoc. done.
Qed.

Definition is_worker (a : action) : bool := match a with AWorker _ => true | _ => false end.

Lemma client_step_frame a s s' :
  step runtime provenance a s s' → is_worker a = false →
  ws_phase s' = ws_phase s ∧ ws_replies s' = ws_replies s ∧ ws_queue s `prefix_of` ws_queue s'.
Proof.
  intros Hs Ha. destruct Hs as [r s|o s Ho|id s|s _|s _|s _|now s s' Hs]; [..|done].
  - destruct (register_cases r s) as [->|(m & -> & _)]; done.
  - repeat split. by eexists.
  - destruct (cancel_command_frame id s) as [->|(c & _ & _ & _ & m' & f' & -> & _)]; done.
  - unfold submit_tick. destruct (_ || _); [done|]. repeat split. by eexists.
  - repeat split. by eexists.
  - repeat split. by eexists.
Qed.

Local Ltac phase_moves Hend :=
  split; [cbn; lia|]; split; [by apply Hend|]; split; [done|]; split; [done|]; intros ? ?; by right.

(** The phases of one item, as the worker passes through them *)
Lemma worker_step_rank now s s' :
  worker_step runtime provenance now s = Some s' → ws_phase s ≠ PWaiting → ¬ ending (ws_phase s) →
  (S (rank (ws_phase s')) <= rank (ws_phase s))%nat ∧ ¬ ending (ws_phase s') ∧ ws_queue s' = ws_queue s
  ∧ ws_replies s `prefix_of` ws_replies s'
  ∧ ∀ o, o ∈ phase_waiting (ws_phase s) ++ phase_answered (ws_phase s) →
         o ∈ map fst (ws_replies s') ∨ o ∈ phase_waiting (ws_phase s') ++ phase_answered (ws_phase s').
Proof.
  intros Hs Hw He.
  assert (Hfin : ∀ r resp st, ws_queue (record_final_response r resp st s) = ws_queue s
                 ∧ ws_replies (record_final_response r resp st s) = ws_replies s).
  { intros r resp st. unfold record_final_response. destruct (_ !! _) as [c|]; [|done]. destruct (rec_response c); [done|].
    unfold finalize, retain_final. by destruct (evict _ _ _). }
  assert (Hend : ∀ p, (∀ i, p ≠ PTaken i) → (∀ i, p ≠ PBusy i) → p ≠ PStopped → ¬ ending p).
  { intros p H1 H2 H3 [|[|]]; [done|by eapply H1|by eapply H2]. }
  unfold worker_step in Hs. destruct (ws_phase s) as [|i|i|o|o|o|o resp|o resp|i|] eqn:Ep; [done|..].
  - destruct i; [by destruct He; right; left|injection Hs as <-; cbn..];
      (split; [lia|]; split; [by intros [|[|]]|]; split; [done|]; split; [done|]; intros o' Ho'; by right).
  - destruct i as [| | |o]; [by destruct He; right; right|..].
    1,2: injection Hs as <-; cbn; phase_moves Hend.
    destruct (ws_requests s !! o) as [r|]; [|done]. destruct (mutating r); cbn [negb] in Hs.
    + destruct (_ || _); injection Hs as <-; cbn; phase_moves Hend.
    + destruct (handle_request _ _ _ _) as [[resp|e] w]; [|done]. injection Hs as <-. cbn.
      split; [lia|]. split; [by apply Hend|]. split; [done|]. split; [by eexists|]. intros o' ->%list_elem_of_singleton.
      left. rewrite map_app. apply elem_of_app. right. by left.
  - destruct (ws_requests s !! o) as [r|]; [|done]. cbn in Hs. injection Hs as <-. cbn.
    destruct (Hfin r (cancelled_response (wr_command_id r) (wr_command r)) RCancelled) as [-> ->].
    phase_moves Hend.
  - destruct (ws_requests s !! o) as [r|]; [|done]. cbn in Hs.
    destruct (ws_records s !! wr_command_id r) as [c|]; [destruct (rec_response c)|]; injection Hs as <-; cbn;
      phase_moves Hend.
  - destruct (ws_requests s !! o) as [r|]; [|done]. cbn in Hs.
    destruct (handle_request _ _ _ _) as [[resp|e] w]; [|done]. injection Hs as <-. cbn.
    phase_moves Hend.
  - destruct (ws_requests s !! o) as [r|]; [|done]. cbn in Hs. injection Hs as <-. cbn.
    destruct (Hfin r resp RCompleted) as [-> ->].
    phase_moves Hend.
  - injection Hs as <-. cbn. split; [lia|]. split; [by apply Hend|]. split; [done|]. split; [by eexists|].
    intros o' ->%list_elem_of_singleton. left. rewrite map_app. apply elem_of_app. right. by left.
  - injection Hs as <-. cbn. split; [lia|]. split; [by apply Hend|]. split; [done|]. split; [done|]. intros o' Ho'. by apply elem_of_nil in Ho'.
  - destruct He. by left.
Qed.

Lemma phase_cases p : p = PWaiting ∨ ending p ∨ p ≠ PWaiting ∧ ¬ ending p.
Proof.
  unfold ending. destruct p as [|[]|[]| | | | | | |]; try tauto; right; right; (split; [done|]); by intros [|[|]].
Qed.

Lemma worker_step_replies now s s' :
  worker_step runtime provenance now s = Some s' → ws_replies s `prefix_of` ws_replies s'.
Proof.
  intros Hs. destruct (phase_cases (ws_phase s)) as [Hp|[[Hp|[Hp|Hp]]|[Hw He]]];
    [unfold worker_step in Hs; rewrite Hp in Hs..|by apply worker_step_rank in Hs; tauto].
  - destruct (ws_queue s); [done|]. by injection Hs as <-.
  - done.
  - by injection Hs as <-.
  - done.
Qed.

Lemma held_not_ending o p : o ∈ phase_waiting p ++ phase_answered p → p ≠ PWaiting ∧ ¬ ending p ∧ (2 <= rank p)%nat.
Proof.
  destruct p as [|[]|[]| | | | | | |]; cbn; intros Ho; try by apply elem_of_nil in Ho.
  all: split; [done|]; split; [by intros [|[|]]|lia].
Qed.

Lemma due_worker o m now s s' :
  worker_step runtime provenance now s = Some s' → due o (S m) s → due o m s'.
Proof.
  intros Hs [Ha|Hh Hm|q1 q2 Hq Hstop He Hm].
  - apply due_answered. apply worker_step_replies in Hs as [k ->]. rewrite map_app. apply elem_of_app. by left.
  - destruct (held_not_ending _ _ Hh) as (Hw & He & _).
    destruct (worker_step_rank _ _ _ Hs Hw He) as (Hr & _ & _ & _ & Ho).
    destruct (Ho o Hh); [by apply due_answered|]. apply due_held; [done|lia].
  - destruct (phase_cases (ws_phase s)) as [Hw|[|[Hw _]]]; [|done|].
    + unfold worker_step in Hs. rewrite Hw in *. cbn [rank] in Hm. destruct q1 as [|i q1]; cbn in Hq; rewrite Hq in Hs;
        injection Hs as <-; [apply due_held; cbn; [left|cbn in Hm; lia]|].
      rewrite not_elem_of_cons in Hstop. destruct Hstop as [Hi Hstop].
      eapply due_queued; [done|done| |].
      * intros [|[Hp|]]; [done| |done]. cbn in Hp. congruence.
      * cbn in *. destruct i; lia.
    + destruct (worker_step_rank _ _ _ Hs Hw He) as (Hr & He' & Hq' & _). eapply due_queued; [by rewrite Hq'|done..|lia].
Qed.

Lemma due_zero o s : due o 0 s → o ∈ map fst (ws_replies s).
Proof. intros [|Hh Hm|]; [done| |lia]. apply held_not_ending in Hh as (_ & _ & ?). lia. Qed.

Lemma due_weaken o m m' s : (m <= m')%nat → due o m s → due o m' s.
Proof. intros Hle [|Hh Hm|q1 q2 Hq Hstop He Hm]; [by apply due_answered|apply due_held; [done|lia]|eapply due_queued; eauto; lia]. Qed.

Definition worker_steps (l : list action) : nat := length (List.filter is_worker l).

Lemma due_run o m s l s' : fresh_run s l s' → due o m s → due o (m - worker_steps l) s'.
Proof.
  induction 1 as [s|s l a s1 s2 Hrun IH Hf Hst]; intros Hd; [by rewrite Nat.sub_0_r|].
  unfold worker_steps in *. rewrite List.filter_app, length_app. specialize (IH Hd).
  destruct (is_worker a) eqn:Ea; cbn; rewrite Ea; cbn.
  - inversion Hst as [| | | | | |now t1 t2 Hw]; subst; try done. destruct (m - _)%nat as [|k] eqn:Ek in IH.
    + eapply due_answered. apply due_zero in IH. apply worker_step_replies in Hw as [k ->]. rewrite map_app. apply elem_of_app. by left.
    + eapply due_worker in IH; [|done]. eapply due_weaken; [|done]. lia.
  - rewrite Nat.add_0_r. destruct (client_step_frame _ _ _ Hst Ea) as (Hp & Hr & Hq). by eapply due_client.
Qed.

Lemma worker_enabled now s :
  Positions s → ¬ ending (ws_phase s) → (ws_phase s = PWaiting → ws_queue s ≠ []) →
  is_Some (worker_step runtime provenance now s).
Proof.
  intros Hpos He Hq.
  assert (Hreq : ∀ o, o ∈ phase_waiting (ws_phase s) ++ phase_answered (ws_phase s) → ∃ r, ws_requests s !! o = Some r).
  { intros o Ho. apply lookup_lt_is_Some_2, (pos_bound _ Hpos). unfold tracked, waiting.
    apply elem_of_app in Ho as [Ho|Ho]; rewrite !elem_of_app; tauto. }
  unfold worker_step. destruct (ws_phase s) as [|i|i|o|o|o|o resp|o resp|i|] eqn:Ep; try by eexists.
  - destruct (ws_queue s); [by destruct Hq|by eexists].
  - destruct i; by eexists.
  - destruct i as [| | |o]; [by destruct He; right; right|by eexists..|]. destruct (Hreq o) as [r ->]; [by left|].
    destruct (mutating r); cbn [negb]; [by destruct (_ || _); eexists|].
    destruct (handle_request_returns runtime provenance r (ws_world s)) as [a Ha].
    destruct (handle_request _ _ _ _) as [x w]. cbn in Ha. subst x. by eexists.
  - destruct (Hreq o) as [r ->]; [by left|]. by eexists.
  - destruct (Hreq o) as [r ->]; [by left|]. cbn. destruct (_ !! _) as [c|]; [destruct (rec_response c)|]; by eexists.
  - destruct (Hreq o) as [r ->]; [by left|]. cbn.
    destruct (handle_request_returns runtime provenance r (ws_world s)) as [a Ha].
    destruct (handle_request _ _ _ _) as [x w]. cbn in Ha. subst x. by eexists.
  - destruct (Hreq o) as [r ->]; [by left|]. by eexists.
  - by destruct He; left.
Qed.

(** In the run [l] from the start to [s'], the worker gave [r] to the runtime in phase [p]: it called
    [handle_request] on the runtime as that run had left it, which answered [given], and the run went
    on with the runtime that this call left. *)
Definition handled (w : W * Outputs) (l : list action) (s' : state) (p : phase) (r : WorkerRequest) (given : Response) : Prop :=
  ∃ l1 now l2 s1 s2, l = l1 ++ AWorker now :: l2 ∧ fresh_run (initial w) l1 s1 ∧ worker_step runtime provenance now s1 = Some s2
    ∧ fresh_run s2 l2 s' ∧ ws_phase s1 = p ∧ handle_request runtime provenance r (ws_world s1) = (Ok given, ws_world s2).
(** What the worker answers: to a mutating request, what the runtime gave for it with the identifier
    of the command, or that it was cancelled, and then the runtime did not see it; to another
    request, what the runtime gave for it *)
Definition honest_by (gave : phase → WorkerRequest → Response → Prop) (s : state) (o : nat) (resp : Response) : Prop :=
  ∀ r, ws_requests s !! o = Some r →
    if mutating r then
      (o ∈ ws_executed s ∧ ∃ given, gave (PRunning o) r given ∧ resp = with_command_metadata given (wr_command_id r) (wr_command r))
      ∨ ((o ∉ ws_executed s) ∧ resp = cancelled_response (wr_command_id r) (wr_command r))
    else gave (PBusy (IRequest o)) r resp.
Definition honest_reply (w : W * Outputs) (l : list action) (s : state) (o : nat) (resp : Response) : Prop :=
  honest_by (handled w l s) s o resp.

(** The command that a phase is about *)
Definition phase_command (p : phase) : option nat :=
  match p with PExpired o | PChecked o | PRunning o | PHandled o _ | PReply o _ => Some o | _ => None end.
Lemma phase_command_held p o : phase_command p = Some o → o ∈ phase_waiting p ++ phase_answered p.
Proof. destruct p; cbn; intros [= <-]; left. Qed.

Record Honest (gave : phase → WorkerRequest → Response → Prop) (s : state) : Prop := {
  hon_replies : ∀ o resp, (o, resp) ∈ ws_replies s → honest_by gave s o resp;
  hon_reply : ∀ o resp, ws_phase s = PReply o resp → honest_by gave s o resp;
  hon_handled : ∀ o resp, ws_phase s = PHandled o resp →
    o ∈ ws_executed s ∧ ∀ r, ws_requests s !! o = Some r →
      ∃ given, gave (PRunning o) r given ∧ resp = with_command_metadata given (wr_command_id r) (wr_command r);
  hon_command : ∀ o r, phase_command (ws_phase s) = Some o → ws_requests s !! o = Some r → mutating r = true
}.
Arguments hon_replies {gave s}.
Arguments hon_reply {gave s}.
Arguments hon_handled {gave s}.
Arguments hon_command {gave s}.

Lemma executed_step a s s' o :
  step runtime provenance a s s' → (o ∉ waiting s) → (o ∈ ws_executed s' ↔ o ∈ ws_executed s).
Proof.
  intros Hs Ho. destruct Hs as [r s|o' s Ho'|id s|s _|s _|s _|now s s' Hs]; try done.
  - destruct (register_cases r s) as [->|(m & -> & _)]; done.
  - destruct (cancel_command_frame id s) as [->|(c & _ & _ & _ & m' & f' & -> & _)]; done.
  - unfold submit_tick. by destruct (_ || _).
  - destruct (worker_step_tracked _ _ _ Hs) as (_ & _ & _ & [[-> _]|(o' & _ & -> & Hw)]); [done|].
    rewrite elem_of_app, list_elem_of_singleton. split; [|by left]. intros [| ->]; [done|]. destruct Ho. rewrite Hw. left.
Qed.

Lemma answered_not_waiting s o :
  Positions s → o ∈ map fst (ws_replies s) ++ phase_answered (ws_phase s) →
  (o ∉ waiting s) ∧ (o < length (ws_requests s))%nat.
Proof.
  intros Hpos Ho. pose proof (pos_nodup _ Hpos) as Hnd. unfold tracked in Hnd. rewrite app_assoc in Hnd.
  apply NoDup_app in Hnd as (_ & Hd & _). split; [by apply Hd|].
  apply (pos_bound _ Hpos). unfold tracked. rewrite app_assoc. apply elem_of_app. by left.
Qed.

Lemma held_bound s o : Positions s → o ∈ phase_waiting (ws_phase s) ++ phase_answered (ws_phase s) → (o < length (ws_requests s))%nat.
Proof.
  intros Hpos Ho. apply (pos_bound _ Hpos). unfold tracked, waiting. rewrite !elem_of_app in *. destruct Ho; auto.
Qed.

Section giving.
(** What the runtime gave so far, and with one more step *)
Context (gave gave' : phase → WorkerRequest → Response → Prop) (gave_more : ∀ p r given, gave p r given → gave' p r given).

Lemma honest_keep a s s' o resp :
  Positions s → step runtime provenance a s s' → o ∈ map fst (ws_replies s) ++ phase_answered (ws_phase s) →
  honest_by gave s o resp → honest_by gave' s' o resp.
Proof.
  intros Hpos Hs Ho Hh r Hr. destruct (answered_not_waiting s o Hpos Ho) as [Hw Hlt].
  assert (Hr' : ws_requests s !! o = Some r). { apply requests_step in Hs as [k Hk]. rewrite Hk in Hr. by rewrite lookup_app_l in Hr. }
  specialize (Hh r Hr'). destruct (mutating r); [|by apply gave_more]. rewrite !(executed_step _ _ _ _ Hs Hw).
  destruct Hh as [(He & given & Hg & Hresp)|Hh]; [left|by right]. split; [done|]. exists given. auto.
Qed.

Lemma honest_replies_kept a s s' :
  Positions s → Honest gave s → step runtime provenance a s s' →
  ∀ o resp, (o, resp) ∈ ws_replies s → honest_by gave' s' o resp.
Proof.
  intros Hpos Hh Hs o resp Ho. eapply honest_keep; [done|done| |by apply (hon_replies Hh)].
  apply elem_of_app. left. apply list_elem_of_fmap. by exists (o, resp).
Qed.

Lemma honest_client a s s' :
  Positions s → Honest gave s → step runtime provenance a s s' → is_worker a = false → Honest gave' s'.
Proof.
  intros Hpos Hh Hs Ha. destruct (client_step_frame _ _ _ Hs Ha) as (Hp & Hr & _).
  assert (Hold : ∀ o r, (o < length (ws_requests s))%nat → ws_requests s' !! o = Some r → ws_requests s !! o = Some r).
  { intros o r Hlt Hlk. apply requests_step in Hs as [k Hk]. rewrite Hk in Hlk. by rewrite lookup_app_l in Hlk. }
  constructor; rewrite ?Hp, ?Hr.
  - by eapply honest_replies_kept.
  - intros o resp Ho. eapply honest_keep; [done|done| |by apply (hon_reply Hh)].
    rewrite Ho. apply elem_of_app. right. left.
  - intros o resp Ho. destruct (hon_handled Hh o resp Ho) as [He Hg].
    destruct (answered_not_waiting s o Hpos) as [Hw Hlt]; [rewrite Ho; apply elem_of_app; right; left|].
    rewrite (executed_step _ _ _ _ Hs Hw). split; [done|]. intros r Hlk. destruct (Hg r) as (given & ? & ?); [by apply Hold|]. exists given. auto.
  - intros o r Ho Hlk. apply (hon_command Hh o r Ho), Hold; [|done]. by apply held_bound, phase_command_held.
Qed.

(** The worker answers [o] with the cancelled response, and did not execute it. *)
Lemma honest_cancelled s o r :
  Positions s → ws_requests s !! o = Some r → mutating r = true → o ∈ phase_waiting (ws_phase s) →
  honest_by gave' s o (cancelled_response (wr_command_id r) (wr_command r)).
Proof.
  intros Hpos Hr Hm Ho r' Hr'. rewrite Hr in Hr'. injection Hr' as <-. rewrite Hm. right. split; [|done].
  intros He. apply (pos_exec _ Hpos) in He as [Hw _]. apply Hw. unfold waiting. apply elem_of_app. by left.
Qed.

(** A worker step to a phase that is about no command *)
Lemma honest_quiet (s' : state) :
  (∀ o resp, (o, resp) ∈ ws_replies s' → honest_by gave' s' o resp) →
  phase_command (ws_phase s') = None → Honest gave' s'.
Proof. intros Hk Hp. constructor; [done|..]; intros o resp Ho; by rewrite Ho in Hp. Qed.

Lemma final_frame r resp st (s : state) : ∃ m f, record_final_response r resp st s = set_records m f s.
Proof.
  unfold record_final_response. destruct (_ !! _) as [c|]; [|by exists (ws_records s), (ws_final_ids s); destruct s].
  destruct (rec_response c); [by exists (ws_records s), (ws_final_ids s); destruct s|].
  unfold finalize, retain_final. destruct (evict _ _ _) as [ids' m']. by exists m', ids'.
Qed.

Lemma honest_worker now s s' :
  (∀ p r given, ws_phase s = p → handle_request runtime provenance r (ws_world s) = (Ok given, ws_world s') → gave' p r given) →
  Positions s → Honest gave s → worker_step runtime provenance now s = Some s' → Honest gave' s'.
Proof.
  intros Hnew Hpos Hh Hs. pose proof (step_worker runtime provenance now s s' Hs) as Hst.
  pose proof (honest_replies_kept _ _ _ Hpos Hh Hst) as Hk. pose proof (hon_command Hh) as Hcmd.
  assert (Hlast : ∀ o resp, ws_replies s' = ws_replies s ++ [(o, resp)] → honest_by gave' s' o resp →
            phase_command (ws_phase s') = None → Honest gave' s').
  { intros o resp Er Hr Hp. apply honest_quiet; [|done]. rewrite Er. intros o' x [?|[= -> ->]%list_elem_of_singleton]%elem_of_app; [by apply Hk|done]. }
  unfold worker_step in Hs. destruct (ws_phase s) as [|i|i|o|o|o|o resp|o resp|i|] eqn:Ep.
  - destruct (ws_queue s); [done|]. injection Hs as <-. by apply honest_quiet.
  - destruct i; injection Hs as <-; by apply honest_quiet.
  - destruct i as [| | |o]; [done|injection Hs as <-; by apply honest_quiet..|].
    destruct (ws_requests s !! o) as [r|] eqn:Er; [|done]. destruct (mutating r) eqn:Em; cbn [negb] in Hs.
    + destruct (_ || _); injection Hs as <-; (constructor; [done|done|done|]); cbn; intros o' r' [= <-] Hr'; rewrite Er in Hr'; by injection Hr' as <-.
    + destruct (handle_request _ _ _ _) as [[resp|e] w] eqn:Eh; [|done]. injection Hs as <-.
      apply (Hlast o resp); [done| |done]. intros r' Hr'. cbn in Hr'. rewrite Er in Hr'. injection Hr' as <-. rewrite Em. by apply Hnew.
  - destruct (ws_requests s !! o) as [r|] eqn:Er; [|done]. cbn in Hs. injection Hs as <-.
    destruct (final_frame r (cancelled_response (wr_command_id r) (wr_command r)) RCancelled s) as (m & f & Hmf).
    rewrite Hmf in *. constructor; [done| |done|cbn; intros o' r' [= <-]; by apply Hcmd]. cbn. intros o' x [= <- <-].
    apply (honest_cancelled s o r Hpos Er); [by apply (Hcmd o)|]. rewrite Ep. left.
  - destruct (ws_requests s !! o) as [r|] eqn:Er; [|done]. cbn in Hs.
    destruct (ws_records s !! wr_command_id r) as [c|]; [destruct (rec_response c)|]; injection Hs as <-.
    2: constructor; [done|done|done|cbn; intros o' r' [= <-]; by apply Hcmd].
    all: constructor; [done| |done|cbn; intros o' r' [= <-]; by apply Hcmd]; cbn; intros o' x [= <- <-];
      apply (honest_cancelled s o r Hpos Er); [by apply (Hcmd o)|rewrite Ep; left].
  - destruct (ws_requests s !! o) as [r|] eqn:Er; [|done]. cbn in Hs.
    destruct (handle_request _ _ _ _) as [[resp|e] w] eqn:Eh; [|done]. injection Hs as <-.
    constructor; [done|done| |cbn; intros o' r' [= <-]; by apply Hcmd]. cbn. intros o' x [= <- <-]. split; [apply elem_of_app; right; left|].
    intros r' Hr'. rewrite Er in Hr'. injection Hr' as <-. exists resp. split; [by apply Hnew|done].
  - destruct (ws_requests s !! o) as [r|] eqn:Er; [|done]. cbn in Hs. injection Hs as <-.
    destruct (final_frame r resp RCompleted s) as (m & f & Hmf). destruct (hon_handled Hh o resp Ep) as [He Hg].
    rewrite Hmf in *. constructor; [done| |done|cbn; intros o' r' [= <-]; by apply Hcmd]. cbn. intros o' x [= <- <-]. intros r' Hr'.
    rewrite (Hcmd o r' eq_refl Hr'). left. split; [done|]. destruct (Hg r' Hr') as (given & ? & ?). exists given. auto.
  - injection Hs as <-. apply (Hlast o resp); [done| |done].
    eapply honest_keep; [done|exact Hst| |by apply (hon_reply Hh)]. rewrite Ep. apply elem_of_app. right. left.
  - injection Hs as <-. by apply honest_quiet.
  - done.
Qed.
End giving.

Lemma handled_more w l a s s' p r given : fresh_action a s → step runtime provenance a s s' → handled w l s p r given → handled w (l ++ [a]) s' p r given.
Proof.
  intros Hf Hst (l1 & now & l2 & s1 & s2 & -> & H1 & H2 & H3 & H4 & H5). exists l1, now, (l2 ++ [a]), s1, s2.
  rewrite <- app_assoc. repeat split; [done..| |done|done]. by econstructor.
Qed.
Lemma honest_run w l s : fresh_run (initial w) l s → Honest (handled w l s) s.
Proof.
  intros Hrun. remember (initial w) as s0 eqn:E0. induction Hrun as [s|s l a s1 s2 Hrun IH Hf Hst]; subst s; [by constructor|].
  specialize (IH eq_refl).
  assert (Hp1 : Positions s1). { pose proof (initial_positions w) as Hp. clear -Hrun Hp. induction Hrun; eauto using positions_step. }
  pose proof (fun p r given => handled_more w l a s1 s2 p r given Hf Hst) as Hmore.
  destruct (is_worker a) eqn:Ea; [|by eapply honest_client; eauto].
  inversion Hst as [| | | | | |now t1 t2 Hw]; subst; try done. eapply honest_worker; [exact Hmore| |done..].
  intros p r given Hph Hg. exists l, now, [], s1, s2. repeat split; [done..|constructor|done|done].
Qed.

Lemma due_enabled o m s now :
  Positions s → due o m s → (o ∉ map fst (ws_replies s)) → is_Some (worker_step runtime provenance now s).
Proof.
  intros Hpos Hd Ho. destruct Hd as [|Hh _|q1 q2 Hq _ He _]; [done|..]; apply worker_enabled; try done.
  - by apply held_not_ending in Hh as (_ & ? & _).
  - intros Hw. by apply held_not_ending in Hh as (? & _).
  - intros _ Hn. rewrite Hn in Hq. by destruct q1.
Qed.

(** C27: in every run in which no command identifier is submitted twice, every queued request that
    no stop item precedes is answered.  Whatever the other threads
    do, and whatever the runtime raises, the worker thread can always take another step until
    then, and the steps that the item in progress still takes, 8 for each item in front of the
    request and 8 for the request itself are enough.  The answer to a mutating request is what
    [handle_request] gave when the worker called it for this request on the runtime as the run had
    left it, with the identifier of the command put in, or, if the runtime was never given the
    command, that it was cancelled; the answer to any other request is what [handle_request] gave
    for it in the same way. *)
Theorem worker_answers w l s o q1 q2 :
  fresh_run (initial w) l s → ws_queue s = q1 ++ IRequest o :: q2 → (IStop ∉ q1) → ¬ ending (ws_phase s) →
  ∀ l' s', fresh_run s l' s' →
    ((o ∉ map fst (ws_replies s')) → ∀ now, is_Some (worker_step runtime provenance now s'))
    ∧ ((rank (ws_phase s) + 8 * S (length q1) <= worker_steps l')%nat → ∃ resp, (o, resp) ∈ ws_replies s' ∧ honest_reply w (l ++ l') s' o resp).
Proof.
  intros Hrun Hq Hstop He l' s' Hrun'. pose proof (fresh_run_app _ _ _ _ _ Hrun Hrun') as Hall.
  destruct (run_invariant _ _ _ Hall (initial_positions w) (initial_records w)) as [Hpos' _].
  pose proof (honest_run _ _ _ Hall) as Hh.
  assert (Hd : due o (rank (ws_phase s) + 8 * S (length q1)) s) by (by eapply due_queued).
  apply (due_run _ _ _ _ _ Hrun') in Hd. split.
  - intros Ho now. by eapply due_enabled.
  - intros Hle. replace (rank (ws_phase s) + 8 * S (length q1) - worker_steps l')%nat with 0%nat in Hd by lia. apply due_zero in Hd.
    apply list_elem_of_fmap in Hd as ([o' resp] & -> & Hin). exists resp. split; [done|]. by apply (hon_replies Hh).
Qed.

(** ** Running a schedule *)
Definition action_fresh (a : action) (s : state) : bool :=
  match a with
  | ARegister r => negb (mutating r)
                   || forallb (fun r' => negb (mutating r' && String.eqb (wr_command_id r') (wr_command_id r))) (ws_requests s)
  | _ => true
  end.

Definition exec_action (a : action) (s : state) : option state :=
  match a with
  | ARegister r => Some (register r s).2
  | AEnqueue o => if bool_decide (o ∈ ws_pending s) then Some (enqueue o s) else None
  | ACancel id => Some (cancel_command id s).2
  | ATick => if is_alive s then Some (submit_tick s) else None
  | AScheduled => if is_alive s then Some (submit_scheduled_rotation s) else None
  | AStop => if is_alive s then Some (stop s) else None
  | AWorker now => worker_step runtime provenance now s
  end.

Fixpoint exec (l : list action) (s : state) : option state :=
  match l with
  | [] => Some s
  | a :: l' => if action_fresh a s then s' ← exec_action a s; exec l' s' else None
  end.

Lemma exec_action_step a s s' : exec_action a s = Some s' → step runtime provenance a s s'.
Proof.
  destruct a; cbn; intros E; [injection E as <-; constructor| | injection E as <-; constructor|..|by constructor];
    (case_bool_decide || destruct (is_alive s) eqn:?); [|done|..]; try done; injection E as <-; by constructor.
Qed.

Lemma action_fresh_spec a s : action_fresh a s = true → fresh_action a s.
Proof.
  destruct a as [r|?|?| | | |?]; cbn; try done. intros E Hm r' Hr' Hm' Hid. rewrite Hm in E. cbn in E.
  rewrite forallb_forall in E. apply list_elem_of_In in Hr'. specialize (E r' Hr').
  by rewrite Hm', Hid, String.eqb_refl in E.
Qed.

Lemma exec_fresh_run l s s' : exec l s = Some s' → fresh_run s l s'.
Proof.
  revert s. induction l as [|a l IH]; intros s; cbn; [intros [= <-]; constructor|].
  destruct (action_fresh a s) eqn:Ef; [|done]. destruct (exec_action a s) as [s1|] eqn:Ea; [|done]. intros E.
  apply (fresh_run_app s [a] s1); [|by apply IH].
  apply (fresh_snoc s [] a s s1); [constructor|by apply action_fresh_spec|by apply exec_action_step].
Qed.
End invariant.

(** ** A run *)
Definition idle_state : ConnectionState := default_ConnectionState "standby" "standby".

Definition idle_runtime : RuntimeLike unit := {|
  rl_profile_get := fun _ => mret None;
  rl_connect := fun _ => mret true;
  rl_disconnect := mret true;
  rl_status := mret idle_state;
  rl_automatic_actions_enabled := mret true;
  rl_rotate_now := fun _ => mret idle_state;
  rl_run_iteration := mret idle_state;
  rl_scheduled_rotate := mret idle_state;
  rl_node_group_auto_test := fun _ => mret [];
  rl_last_error := fun _ => "";
  rl_unsupported_capabilities := fun _ => [];
  rl_driver_name := fun _ => "";
  rl_isoformat := fun _ => ""
|}.

Definition idle_world : unit * Outputs := (tt, {| ou_events := []; ou_metrics := []; ou_last_tick_status := None |}).
Definition a_request (id : string) : WorkerRequest :=
  {| wr_command := COMMAND_DISCONNECT; wr_payload := []; wr_command_id := id; wr_deadline := None |}.

Definition after (l : list action) : WorkerState unit :=
  default (initial idle_world) (@exec protocol_pystr unit idle_runtime [] l (initial idle_world)).

Definition two_queued : list action := [ARegister (a_request "a"); ARegister (a_request "b"); AEnqueue 0; ATick; AEnqueue 1].
Definition eight : list action := replicate 8 (AWorker 0).



Lemma worker_answers_witness :
  ∃ resp, (1%nat, resp) ∈ ws_replies (after (two_queued ++ eight ++ eight))
    ∧ @honest_reply protocol_pystr unit idle_runtime [] idle_world (two_queued ++ eight ++ eight) (after (two_queued ++ eight ++ eight)) 1 resp.
Proof.
  assert (Hrun : @fresh_run protocol_pystr unit idle_runtime [] (initial idle_world) two_queued (after two_queued)).
  { apply exec_fresh_run. vm_compute. reflexivity. }
  apply (worker_answers _ _ _ _ _ 1 [IRequest 0] [] Hrun) with (l' := eight ++ eight).
  - vm_compute. reflexivity.
  - intros Hin. apply list_elem_of_singleton in Hin. discriminate.
  - intros [E|[E|E]]; vm_compute in E; discriminate.
  - apply exec_fresh_run. vm_compute. reflexivity.
  - vm_compute. lia.
Defined.
