(* ===== verification/Provision.v ===== *)
(** * Provisioning: transactions, steps and journals

    compat/provisioning/model.py and the journal of compat/provisioning/journal.py: the two
    state machines, the plan, the journal with the operations that change it, and the records of
    ownership and custody.  Journals are read back from disk with the types that
    [from_jsonable] checks or that the engine wrote. *)
From stdpp Require Import base list strings gmap pretty.
From Stdlib Require Import Ascii ZArith.
From S2P Require Import Prelude Steps PyData.

(** ** The state machines *)
Inductive TransactionState : Type :=
| T_PLANNED | T_AUTHORIZED | T_APPLYING | T_VERIFYING | T_PREPARE_TERMINAL_PREPARED | T_COMMITTED
| T_PREPARATION_FAILED | T_ROLLING_BACK | T_ROLLED_BACK | T_ROLLBACK_FAILED | T_RECOVERY_REQUIRED
| T_RECOVERING | T_UNINSTALL_PLANNED | T_UNINSTALLING | T_REVOKING_OWNERSHIP
| T_UNINSTALL_TERMINAL_PREPARED | T_UNINSTALLED | T_UNINSTALL_FAILED.
#[global] Instance TransactionState_eq_dec : EqDecision TransactionState.
Proof. solve_decision. Defined.

Inductive StepState : Type :=
| S_PLANNED | S_APPLYING | S_APPLIED | S_APPLY_FAILED | S_VERIFYING | S_VERIFIED | S_VERIFY_FAILED
| S_UNDOING | S_UNDONE | S_UNDO_FAILED.
#[global] Instance StepState_eq_dec : EqDecision StepState.
Proof. solve_decision. Defined.

(** The values of the two enumerations *)
Definition transaction_value (s : TransactionState) : string :=
  match s with
  | T_PLANNED => "planned" | T_AUTHORIZED => "authorized" | T_APPLYING => "applying"
  | T_VERIFYING => "verifying" | T_PREPARE_TERMINAL_PREPARED => "prepare_terminal_prepared"
  | T_COMMITTED => "committed" | T_PREPARATION_FAILED => "preparation_failed"
  | T_ROLLING_BACK => "rolling_back" | T_ROLLED_BACK => "rolled_back"
  | T_ROLLBACK_FAILED => "rollback_failed" | T_RECOVERY_REQUIRED => "recovery_required"
  | T_RECOVERING => "recovering" | T_UNINSTALL_PLANNED => "uninstall_planned"
  | T_UNINSTALLING => "uninstalling" | T_REVOKING_OWNERSHIP => "revoking_ownership"
  | T_UNINSTALL_TERMINAL_PREPARED => "uninstall_terminal_prepared" | T_UNINSTALLED => "uninstalled"
  | T_UNINSTALL_FAILED => "uninstall_failed"
  end.
Definition step_value (s : StepState) : string :=
  match s with
  | S_PLANNED => "planned" | S_APPLYING => "applying" | S_APPLIED => "applied"
  | S_APPLY_FAILED => "apply_failed" | S_VERIFYING => "verifying" | S_VERIFIED => "verified"
  | S_VERIFY_FAILED => "verify_failed" | S_UNDOING => "undoing" | S_UNDONE => "undone"
  | S_UNDO_FAILED => "undo_failed"
  end.

Definition TRANSACTION_TRANSITIONS (s : TransactionState) : list TransactionState :=
  match s with
  | T_PLANNED => [T_AUTHORIZED]
  | T_AUTHORIZED => [T_APPLYING]
  | T_APPLYING => [T_VERIFYING; T_ROLLING_BACK; T_RECOVERY_REQUIRED]
  | T_VERIFYING => [T_PREPARE_TERMINAL_PREPARED; T_COMMITTED; T_ROLLING_BACK; T_RECOVERY_REQUIRED]
  | T_PREPARE_TERMINAL_PREPARED => [T_COMMITTED; T_RECOVERY_REQUIRED]
  | T_COMMITTED => [T_UNINSTALL_PLANNED]
  | T_PREPARATION_FAILED => []
  | T_ROLLING_BACK => [T_ROLLED_BACK; T_ROLLBACK_FAILED]
  | T_ROLLED_BACK => [T_PREPARATION_FAILED]
  | T_ROLLBACK_FAILED => [T_RECOVERY_REQUIRED]
  | T_RECOVERY_REQUIRED => [T_RECOVERING]
  | T_RECOVERING => [T_APPLYING; T_VERIFYING; T_ROLLING_BACK; T_RECOVERY_REQUIRED; T_UNINSTALLING;
                     T_REVOKING_OWNERSHIP; T_UNINSTALL_TERMINAL_PREPARED]
  | T_UNINSTALL_PLANNED => [T_UNINSTALLING]
  | T_UNINSTALLING => [T_REVOKING_OWNERSHIP; T_UNINSTALL_FAILED; T_RECOVERY_REQUIRED]
  | T_REVOKING_OWNERSHIP => [T_UNINSTALL_TERMINAL_PREPARED; T_UNINSTALLED; T_UNINSTALL_FAILED; T_RECOVERY_REQUIRED]
  | T_UNINSTALL_TERMINAL_PREPARED => [T_UNINSTALLED; T_RECOVERY_REQUIRED]
  | T_UNINSTALLED => []
  | T_UNINSTALL_FAILED => [T_RECOVERY_REQUIRED]
  end.

Definition STEP_TRANSITIONS (s : StepState) : list StepState :=
  match s with
  | S_PLANNED => [S_APPLYING]
  | S_APPLYING => [S_APPLIED; S_APPLY_FAILED]
  | S_APPLIED => [S_VERIFYING]
  | S_APPLY_FAILED => [S_UNDOING]
  | S_VERIFYING => [S_VERIFIED; S_VERIFY_FAILED]
  | S_VERIFIED => [S_UNDOING]
  | S_VERIFY_FAILED => [S_UNDOING]
  | S_UNDOING => [S_UNDONE; S_UNDO_FAILED]
  | S_UNDONE | S_UNDO_FAILED => []
  end.

Definition transition_transaction (current next_state : TransactionState) : res TransactionState :=
  if bool_decide (next_state ∈ TRANSACTION_TRANSITIONS current) then Ok next_state
  else raise InvalidTransitionError ("invalid transaction transition: " +:+ transaction_value current +:+ " -> "
         +:+ transaction_value next_state).

Definition transition_step (current next_state : StepState) : res StepState :=
  if bool_decide (next_state ∈ STEP_TRANSITIONS current) then Ok next_state
  else raise InvalidTransitionError ("invalid step transition: " +:+ step_value current +:+ " -> " +:+ step_value next_state).

(** ** Plans and results *)
Record ProvisioningStep : Type := {
  ps_sequence : Z; ps_step_id : string; ps_action_type : string; ps_intent : pydict pyval;
  ps_target : option string
}.

Record ProvisioningPlan : Type := {
  pp_capability_id : string; pp_dependency_id : string; pp_resolved_target : string; pp_architecture : string;
  pp_support_classification : string; pp_selected_method_id : string; pp_selected_method_kind : string;
  pp_postcondition : string; pp_executor_id : string; pp_executor_version : string;
  pp_steps : list ProvisioningStep; pp_selected_asset : option (pydict pyval)
}.

(** [sequences == sorted(sequences)] and without repetition *)
Fixpoint increasing (l : list Z) : bool :=
  match l with
  | x :: (y :: _) as l' => (x <? y)%Z && increasing l'
  | _ => true
  end.

(** [ProvisioningPlan.__post_init__] *)
Definition ProvisioningPlan_post_init (p : ProvisioningPlan) : res ProvisioningPlan :=
  match pp_steps p with
  | [] => raise ValueError "a provisioning plan must declare at least one step"
  | steps => if increasing (map ps_sequence steps) then Ok p
             else raise ValueError "provisioning plan steps must have strictly increasing unique sequences"
  end.

Record ExecutionResult : Type := {
  er_status : string; er_observed : pydict pyval; er_undo_record : option (pydict pyval);
  er_error_kind : option string; er_error : option string
}.
Record VerificationResult : Type := {
  vr_status : string; vr_evidence : pydict pyval; vr_error_kind : option string; vr_error : option string
}.
Record RollbackResult : Type := {
  rr_status : string; rr_residual : bool; rr_evidence : pydict pyval; rr_error_kind : option string;
  rr_error : option string
}.

Inductive RecoveryAction : Type := RESUME | ROLLBACK | REQUIRE_MANUAL.
#[global] Instance RecoveryAction_eq_dec : EqDecision RecoveryAction.
Proof. solve_decision. Defined.

Record RecoveryDecision : Type := {
  rd_transaction_id : string; rd_action : RecoveryAction; rd_reason : string
}.

(** ** Ownership and custody *)
Record IntermediateIdentity : Type := {
  ii_relative_name : string; ii_dev : Z; ii_ino : Z; ii_uid : Z; ii_mode : Z
}.
Record PathComponentIdentity : Type := {
  pc_index : Z; pc_relative_name : string; pc_dev : Z; pc_ino : Z; pc_uid : Z; pc_mode : Z
}.
Record PathAuthority : Type := {
  pa_root_path : string; pa_target_relative_path : string; pa_component_count : Z;
  pa_components : list PathComponentIdentity
}.
Record PathAuthorityV2Component : Type := {
  p2c_index : Z; p2c_name : string; p2c_role : string; p2c_dev : Z; p2c_ino : Z; p2c_uid : Z; p2c_gid : Z;
  p2c_mode : Z; p2c_nlink : Z; p2c_integrity : option string
}.
Record PathAuthorityV2 : Type := {
  p2_schema : string; p2_transaction_id : string; p2_plan_digest : string; p2_resource_id : string;
  p2_configured_root : string; p2_root_path : string; p2_target_relative_path : string;
  p2_component_count : Z; p2_components : list PathAuthorityV2Component; p2_chain_digest : string;
  p2_authority_digest : string
}.

Inductive CustodyState : Type := MOVE_PENDING | MOVED | DELETED.
#[global] Instance CustodyState_eq_dec : EqDecision CustodyState.
Proof. solve_decision. Defined.

Record CustodyRecord : Type := {
  cr_resource_id : string; cr_state : CustodyState;
  cr_original_path : string; cr_original_parent : string; cr_original_name : string;
  cr_original_dev : Z; cr_original_ino : Z; cr_original_uid : Z; cr_original_gid : Z; cr_original_mode : Z;
  cr_original_nlink : Z; cr_authorized_hash : option string;
  cr_custody_dir : string; cr_custody_dir_dev : Z; cr_custody_dir_ino : Z; cr_custody_dir_uid : Z;
  cr_custody_dir_gid : Z; cr_custody_dir_mode : Z; cr_custody_name : string;
  cr_moved_dev : option Z; cr_moved_ino : option Z; cr_moved_uid : option Z; cr_moved_gid : option Z;
  cr_moved_mode : option Z; cr_moved_nlink : option Z; cr_moved_hash : option string
}.

Record OwnershipCandidate : Type := {
  oc_artifact_type : string; oc_resource_identity : string; oc_pre_existing : bool;
  oc_method_id : option string; oc_source : option string; oc_version : option string;
  oc_integrity : option string; oc_uid : option Z; oc_gid : option Z; oc_mode : option Z; oc_nlink : option Z;
  oc_post_install_fingerprint : option string; oc_intermediate_identities : list IntermediateIdentity;
  oc_path_authority : option PathAuthority; oc_path_authority_v2 : option PathAuthorityV2
}.

Record OwnershipRecord : Type := {
  ow_capability_id : string; ow_candidate : OwnershipCandidate; ow_product_owned : bool;
  ow_created_by_transaction : option string; ow_executor_id : string; ow_executor_version : string;
  ow_recorded_at : string
}.

Record UninstallPlan : Type := {
  up_capability_id : string; up_transaction_id : string; up_target_transaction_id : string;
  up_ownership_records : list OwnershipRecord; up_steps : list ProvisioningStep
}.

(** [UninstallPlan.__post_init__] *)
Definition UninstallPlan_post_init (p : UninstallPlan) : res UninstallPlan :=
  match up_ownership_records p with
  | [] => raise ValueError "an uninstall plan requires at least one owned resource"
  | records => if existsb (fun r => negb (ow_product_owned r)) records
               then raise ValueError "uninstall plan may only include product-owned ownership records"
               else Ok p
  end.

(** ** The journal *)
Record StepRecord : Type := {
  sr_sequence : Z; sr_step_id : string; sr_action_type : string; sr_state : StepState; sr_intent : pydict pyval;
  sr_target : option string; sr_before_state : option (pydict pyval); sr_started_at : option string;
  sr_completed_at : option string; sr_verification : option (pydict pyval); sr_undo_record : option (pydict pyval);
  sr_error_kind : option string; sr_error : option string
}.

(** [StepRecord(sequence=..., state=PLANNED, ...)] of a planned step *)
Definition planned_record (s : ProvisioningStep) : StepRecord := {|
  sr_sequence := ps_sequence s; sr_step_id := ps_step_id s; sr_action_type := ps_action_type s;
  sr_state := S_PLANNED; sr_intent := ps_intent s; sr_target := ps_target s; sr_before_state := None;
  sr_started_at := None; sr_completed_at := None; sr_verification := None; sr_undo_record := None;
  sr_error_kind := None; sr_error := None
|}.

Definition set_sr_state (st : StepState) (r : StepRecord) : StepRecord := {|
  sr_sequence := sr_sequence r; sr_step_id := sr_step_id r; sr_action_type := sr_action_type r;
  sr_state := st; sr_intent := sr_intent r; sr_target := sr_target r; sr_before_state := sr_before_state r;
  sr_started_at := sr_started_at r; sr_completed_at := sr_completed_at r; sr_verification := sr_verification r;
  sr_undo_record := sr_undo_record r; sr_error_kind := sr_error_kind r; sr_error := sr_error r
|}.

(** The keyword updates of [with_state]: a field that is not named keeps its value *)
Record step_updates : Type := {
  su_before_state : option (pydict pyval); su_started_at : option string; su_completed_at : option string;
  su_verification : option (pydict pyval); su_undo_record : option (option (pydict pyval));
  su_error : option (option string * option string)
}.
Definition no_updates : step_updates := {|
  su_before_state := None; su_started_at := None; su_completed_at := None; su_verification := None;
  su_undo_record := None; su_error := None
|}.
Definition started (t : string) : step_updates := {|
  su_before_state := None; su_started_at := Some t; su_completed_at := None; su_verification := None;
  su_undo_record := None; su_error := None
|}.
Definition started_from (t : string) (before : pydict pyval) : step_updates := {|
  su_before_state := Some before; su_started_at := Some t; su_completed_at := None; su_verification := None;
  su_undo_record := None; su_error := None
|}.
Definition completed (t : string) : step_updates := {|
  su_before_state := None; su_started_at := None; su_completed_at := Some t; su_verification := None;
  su_undo_record := None; su_error := None
|}.
Definition failed (t : string) (kind error : option string) : step_updates := {|
  su_before_state := None; su_started_at := None; su_completed_at := Some t; su_verification := None;
  su_undo_record := None; su_error := Some (kind, error)
|}.
Definition completed_with_undo (t : string) (undo : option (pydict pyval)) : step_updates := {|
  su_before_state := None; su_started_at := None; su_completed_at := Some t; su_verification := None;
  su_undo_record := Some undo; su_error := None
|}.
Definition verified (t : string) (evidence : pydict pyval) : step_updates := {|
  su_before_state := None; su_started_at := None; su_completed_at := Some t; su_verification := Some evidence;
  su_undo_record := None; su_error := None
|}.
Definition verify_failed (t : string) (v : VerificationResult) : step_updates := {|
  su_before_state := None; su_started_at := None; su_completed_at := Some t; su_verification := Some (vr_evidence v);
  su_undo_record := None; su_error := Some (vr_error_kind v, vr_error v)
|}.

(** [dataclasses.replace(self, **updates)] *)
Definition replace_step (u : step_updates) (r : StepRecord) : StepRecord :=
  let keep {A} (new : option A) (old : option A) := match new with Some x => Some x | None => old end in
  {| sr_sequence := sr_sequence r; sr_step_id := sr_step_id r; sr_action_type := sr_action_type r;
     sr_state := sr_state r; sr_intent := sr_intent r; sr_target := sr_target r;
     sr_before_state := keep (su_before_state u) (sr_before_state r);
     sr_started_at := keep (su_started_at u) (sr_started_at r);
     sr_completed_at := keep (su_completed_at u) (sr_completed_at r);
     sr_verification := keep (su_verification u) (sr_verification r);
     sr_undo_record := match su_undo_record u with Some x => x | None => sr_undo_record r end;
     sr_error_kind := match su_error u with Some (k, _) => k | None => sr_error_kind r end;
     sr_error := match su_error u with Some (_, m) => m | None => sr_error r end |}.

Definition StepRecord_with_state (new_state : StepState) (u : step_updates) (r : StepRecord) : res StepRecord :=
  st ← transition_step (sr_state r) new_state;
  Ok (replace_step u (set_sr_state st r)).

Record TransactionJournal : Type := {
  tj_schema_version : Z; tj_transaction_id : string; tj_operation : string; tj_state : TransactionState;
  tj_created_at : string; tj_updated_at : string; tj_plan_digest : string; tj_capability_id : string;
  tj_dependency_id : string; tj_target : string; tj_architecture : string; tj_support_classification : string;
  tj_selected_method : pydict string; tj_executor : pydict string; tj_steps : list StepRecord;
  tj_selected_asset : option (pydict pyval); tj_ownership_candidates : list (pydict pyval);
  tj_owned_snapshot : list OwnershipRecord; tj_custody_records : list CustodyRecord;
  tj_provenance : option (pydict pyval); tj_failure : option (pydict pyval); tj_recovery : option (pydict pyval)
}.

Definition is_terminal (j : TransactionJournal) : bool :=
  match TRANSACTION_TRANSITIONS (tj_state j) with [] => true | _ => false end.

Definition set_tj (st : TransactionState) (now : string) (steps : list StepRecord) (custody : list CustodyRecord)
    (provenance failure recovery : option (pydict pyval)) (j : TransactionJournal) : TransactionJournal := {|
  tj_schema_version := tj_schema_version j; tj_transaction_id := tj_transaction_id j; tj_operation := tj_operation j;
  tj_state := st; tj_created_at := tj_created_at j; tj_updated_at := now; tj_plan_digest := tj_plan_digest j;
  tj_capability_id := tj_capability_id j; tj_dependency_id := tj_dependency_id j; tj_target := tj_target j;
  tj_architecture := tj_architecture j; tj_support_classification := tj_support_classification j;
  tj_selected_method := tj_selected_method j; tj_executor := tj_executor j; tj_steps := steps;
  tj_selected_asset := tj_selected_asset j; tj_ownership_candidates := tj_ownership_candidates j;
  tj_owned_snapshot := tj_owned_snapshot j; tj_custody_records := custody; tj_provenance := provenance;
  tj_failure := failure; tj_recovery := recovery
|}.

(** The keyword updates of [TransactionJournal.with_state] *)
Inductive journal_update : Type :=
| no_update
| with_recovery (d : pydict pyval)
| with_failure (d : pydict pyval)
| with_provenance (d : pydict pyval).

Definition with_state (new_state : TransactionState) (now : string) (u : journal_update) (j : TransactionJournal)
    : res TransactionJournal :=
  st ← transition_transaction (tj_state j) new_state;
  Ok (set_tj st now (tj_steps j) (tj_custody_records j)
        (match u with with_provenance d => Some d | _ => tj_provenance j end)
        (match u with with_failure d => Some d | _ => tj_failure j end)
        (match u with with_recovery d => Some d | _ => tj_recovery j end) j).

(** [journal.step(sequence)] *)
Definition find_step (sequence : Z) (j : TransactionJournal) : option StepRecord :=
  List.find (fun r => (sr_sequence r =? sequence)%Z) (tj_steps j).

Definition journal_step (sequence : Z) (j : TransactionJournal) : res StepRecord :=
  match find_step sequence j with
  | Some r => Ok r
  | None => raise JournalError ("journal " +:+ tj_transaction_id j +:+ " has no step with sequence " +:+ pretty sequence)
  end.

Definition with_step (updated : StepRecord) (j : TransactionJournal) : TransactionJournal :=
  set_tj (tj_state j) (tj_updated_at j)
    (map (fun r => if (sr_sequence r =? sr_sequence updated)%Z then updated else r) (tj_steps j))
    (tj_custody_records j) (tj_provenance j) (tj_failure j) (tj_recovery j) j.

(** [_journal_with_custody_record] followed by the new [updated_at] *)
Definition with_custody_record (now : string) (c : CustodyRecord) (j : TransactionJournal) : TransactionJournal :=
  set_tj (tj_state j) now (tj_steps j)
    (List.filter (fun x => negb (String.eqb (cr_resource_id x) (cr_resource_id c))) (tj_custody_records j) ++ [c])
    (tj_provenance j) (tj_failure j) (tj_recovery j) j.

Definition unresolved_custody_records (j : TransactionJournal) : list CustodyRecord :=
  List.filter (fun c => negb (bool_decide (cr_state c = DELETED))) (tj_custody_records j).

(** ** Comparing a journal with a plan *)
Definition step_matches (r : StepRecord) (s : ProvisioningStep) : bool :=
  String.eqb (sr_step_id r) (ps_step_id s) && String.eqb (sr_action_type r) (ps_action_type s)
  && bool_decide (sr_target r = ps_target s) && dict_eqb (sr_intent r) (ps_intent s).

(** [{step.sequence: step for step in plan.steps}] *)
Definition plan_step_at (sequence : Z) (steps : list ProvisioningStep) : option ProvisioningStep :=
  List.find (fun s => (ps_sequence s =? sequence)%Z) (rev steps).

(** [_journal_steps_match_plan_exactly] and its counterpart for uninstall plans *)
Definition steps_match_exactly (records : list StepRecord) (steps : list ProvisioningStep) : bool :=
  let sequences := map sr_sequence records in
  if negb (length records =? length steps)%nat then false
  else if negb (bool_decide (NoDup sequences)) then false
  else if negb (forallb (fun z => existsb (Z.eqb z) (map ps_sequence steps)) sequences
                && forallb (fun z => existsb (Z.eqb z) sequences) (map ps_sequence steps)) then false
  else forallb (fun r => match plan_step_at (sr_sequence r) steps with
                         | Some s => step_matches r s
                         | None => false
                         end) records.

Definition journal_steps_match_plan_exactly (j : TransactionJournal) (p : ProvisioningPlan) : bool :=
  steps_match_exactly (tj_steps j) (pp_steps p).
Definition uninstall_journal_steps_match_plan_exactly (j : TransactionJournal) (p : UninstallPlan) : bool :=
  steps_match_exactly (tj_steps j) (up_steps p).

(** [_steps_consistent_with_transaction_state] *)
Definition steps_consistent_with_transaction_state (j : TransactionJournal) : bool :=
  if negb (String.eqb (tj_operation j) "prepare") then true
  else if bool_decide (tj_state j ∈ [T_APPLYING; T_VERIFYING])
  then negb (existsb (fun r => bool_decide (sr_state r ∈ [S_UNDOING; S_UNDONE; S_UNDO_FAILED])) (tj_steps j))
  else true.

(** ** Sets of states *)
Definition NEEDS_RECOVERY_ATTENTION : list TransactionState :=
  [T_APPLYING; T_VERIFYING; T_PREPARE_TERMINAL_PREPARED; T_ROLLING_BACK; T_RECOVERY_REQUIRED; T_RECOVERING;
   T_UNINSTALLING; T_REVOKING_OWNERSHIP; T_UNINSTALL_TERMINAL_PREPARED; T_ROLLBACK_FAILED; T_UNINSTALL_FAILED].
Definition UNDOABLE_STEP_STATES : list StepState := [S_APPLIED; S_VERIFYING; S_VERIFIED; S_VERIFY_FAILED].
Definition DYNAMIC_VERIFIED_SHA256 : string := "__watchdogvpn_dynamic_verified_sha256__".

Definition SCHEMA_VERSION : Z := 1.

(** [_initial_journal] *)
Definition initial_journal (plan_digest : ProvisioningPlan → string) (plan : ProvisioningPlan)
    (transaction_id now_value : string) : TransactionJournal := {|
  tj_schema_version := SCHEMA_VERSION; tj_transaction_id := transaction_id; tj_operation := "prepare";
  tj_state := T_PLANNED; tj_created_at := now_value; tj_updated_at := now_value;
  tj_plan_digest := plan_digest plan; tj_capability_id := pp_capability_id plan;
  tj_dependency_id := pp_dependency_id plan; tj_target := pp_resolved_target plan;
  tj_architecture := pp_architecture plan; tj_support_classification := pp_support_classification plan;
  tj_selected_method := [("id", pp_selected_method_id plan); ("kind", pp_selected_method_kind plan)];
  tj_executor := [("id", pp_executor_id plan); ("version", pp_executor_version plan)];
  tj_steps := map planned_record (pp_steps plan); tj_selected_asset := pp_selected_asset plan;
  tj_ownership_candidates := []; tj_owned_snapshot := []; tj_custody_records := []; tj_provenance := None;
  tj_failure := None; tj_recovery := None
|}.

(** [_build_uninstall_plan] *)
Definition build_uninstall_plan (capability_id transaction_id : string) (owned : list OwnershipRecord)
    : res UninstallPlan :=
  match owned with
  | [] => raise IndexError "list index out of range"
  | first :: _ =>
      UninstallPlan_post_init {|
        up_capability_id := capability_id; up_transaction_id := transaction_id;
        up_target_transaction_id := default "" (ow_created_by_transaction first);
        up_ownership_records := owned;
        up_steps := imap (fun index record => {|
          ps_sequence := Z.of_nat index; ps_step_id := "uninstall_" +:+ pretty (Z.of_nat index);
          ps_action_type := "remove_file";
          ps_intent := [("resource_identity", PStr (oc_resource_identity (ow_candidate record)));
                        ("expected_sha256", match oc_integrity (ow_candidate record) with
                                            | Some h => PStr h | None => PNone end)];
          ps_target := Some (oc_resource_identity (ow_candidate record)) |}) (rev owned)
      |}
  end.

(** [_initial_uninstall_journal] *)
Definition initial_uninstall_journal (uninstall_digest : UninstallPlan → string) (plan : UninstallPlan)
    (now_value : string) : TransactionJournal := {|
  tj_schema_version := SCHEMA_VERSION; tj_transaction_id := up_transaction_id plan; tj_operation := "uninstall";
  tj_state := T_UNINSTALL_PLANNED; tj_created_at := now_value; tj_updated_at := now_value;
  tj_plan_digest := uninstall_digest plan; tj_capability_id := up_capability_id plan;
  tj_dependency_id := "unspecified";
  tj_target := (if truthy_str (up_target_transaction_id plan) then up_target_transaction_id plan else "n/a");
  tj_architecture := "n/a"; tj_support_classification := "n/a";
  tj_selected_method := [("id", "uninstall"); ("kind", "uninstall")];
  tj_executor := [("id", "uninstall"); ("version", "1")];
  tj_steps := map planned_record (up_steps plan); tj_selected_asset := None;
  tj_ownership_candidates := []; tj_owned_snapshot := up_ownership_records plan; tj_custody_records := [];
  tj_provenance := None; tj_failure := None; tj_recovery := None
|}.

(** [_mark_uninstall_step_failed] *)
Definition mark_uninstall_step_failed (error_kind error now_value : string) (r : StepRecord) : res StepRecord :=
  r1 ← (if bool_decide (sr_state r = S_PLANNED) then StepRecord_with_state S_APPLYING (started now_value) r else Ok r);
  StepRecord_with_state S_APPLY_FAILED (failed now_value (Some error_kind) (Some error)) r1.

(** [_uninstall_failure_requires_recovery] and [_uninstall_residuals_require_recovery] *)
Definition uninstall_failure_requires_recovery (j : TransactionJournal) : bool :=
  existsb (fun r => bool_decide (sr_error_kind r = Some "path_policy_violation")) (tj_steps j).
Definition uninstall_residuals_require_recovery (residuals : list string) : bool :=
  str_in "identity_mismatch" residuals.
