(* ===== verification/ProvisionEngine.v ===== *)
(** * The provisioning engine

    compat/provisioning/engine.py: applying a plan step by step behind a write-ahead journal,
    rolling back, recovering an interrupted transaction, and uninstalling.  The executors
    (compat/provisioning/executors.py declares their interface), the journal and ownership
    files, the descriptor-based file operations of paths.py and the clock are the interface
    [ProvEnv] over a world [W].  The model also keeps the log of what was asked of them, in
    order, so that an interruption is a prefix of the log. *)
From stdpp Require Import base list strings gmap pretty.
From Stdlib Require Import Ascii ZArith.
From S2P Require Import Prelude Steps PyData Provision.

(** ** Data of the engine *)
Inductive PrepareStatus : Type :=
| P_DRY_RUN | P_ALREADY_PRESENT | P_ALREADY_PROVISIONED | P_OWNERSHIP_CONFLICT | P_OWNERSHIP_INVALID | P_COMMITTED
| P_PREPARATION_FAILED | P_ROLLBACK_FAILED | P_RECIPE_NOT_IMPLEMENTED | P_OUT_OF_CONTRACT | P_OFFLINE
| P_PENDING_RECOVERY | P_RECOVERY_REQUIRED | P_UNINSTALLED | P_UNINSTALL_FAILED.
#[global] Instance PrepareStatus_eq_dec : EqDecision PrepareStatus.
Proof. solve_decision. Defined.

Record PrepareOutcome : Type := {
  po_status : PrepareStatus; po_plan : option ProvisioningPlan; po_transaction_id : option string;
  po_reason : string; po_residuals : list string; po_error_kind : option string
}.

(** The fields of [ResolutionDecision] that the engine reads *)
Record ResolutionDecision : Type := {
  de_capability_id : string; de_dependency_id : string; de_resolved_distribution : option string;
  de_resolved_release : option string; de_support_classification : string;
  de_machine_architecture : option string; de_selected_method_id : option string;
  de_selected_method_kind : option string; de_resolution_status : string; de_execution_ready : bool;
  de_selected_asset : option (pydict pyval)
}.

(** What [stat_identity_relative] returns *)
Record FileIdentity : Type := {
  fi_is_symlink : bool; fi_is_regular : bool; fi_nlink : Z; fi_mode : Z; fi_uid : Z; fi_gid : Z
}.

(** [remove_file_if_owned_relative] calls back the custody recorder while it works: it ends, or
    it reports a record and goes on with what the recorder did. *)
Inductive removal (W : Type) : Type :=
| Removed (outcome : res bool) (w : W)
| RecordCustody (c : CustodyRecord) (w : W) (continue : res unit → W → removal W).
Arguments Removed {W}.
Arguments RecordCustody {W}.

(** What is asked of the outside, in order.  A write that raised may or may not have reached
    the disk; [ERead j]: recovery takes up the journal [j] that it read. *)
Inductive event : Type :=
| EWrite (j : TransactionJournal) (done : bool)
| ERead (j : TransactionJournal)
| EApply (r : StepRecord)
| EUndo (r : StepRecord)
| ERemove (r : StepRecord)
| EPublish (capability_id : string) (records : list OwnershipRecord) (done : bool)
| ERevoke (capability_id : string).

(** The executors [E], descriptors [D] and the world [W] *)
Record ProvEnv (W E D : Type) : Type := {
  (* executors *)
  ex_id : E → string;
  ex_version : E → string;
  ex_supported_method_kind : E → string;
  ex_network_required : E → bool;
  ex_postcondition_description : E → string;
  ex_replay_safe : E → StepRecord → bool;
  ex_reconstruct_undo_record : E → StepRecord → res (pydict pyval);
  ex_expected_ownership : E → ProvisioningPlan → ProvisioningStep → res OwnershipCandidate;
  ex_plan_steps : E → string → string → PyM W (list ProvisioningStep);
  ex_apply : E → StepRecord → PyM W ExecutionResult;
  ex_verify : E → StepRecord → ExecutionResult → PyM W VerificationResult;
  ex_undo : E → StepRecord → ExecutionResult → PyM W RollbackResult;
  ex_postcondition : E → ProvisioningPlan → PyM W VerificationResult;
  ex_inspect : E → StepRecord → PyM W (pydict pyval);
  ex_recovery_bound : E → TransactionJournal → PyM W E;
  (* digests *)
  pe_plan_digest : ProvisioningPlan → string;
  pe_uninstall_digest : UninstallPlan → string;
  (* the process *)
  pe_now : W → string * W;
  pe_signaled : W → bool;
  pe_network_available : PyM W bool;
  pe_new_transaction_id : W → string * W;
  pe_lock : string → PyM W unit;
  pe_unlock : PyM W unit;
  (* journal and ownership files *)
  pe_write_journal : TransactionJournal → PyM W unit;
  pe_read_journal : string → PyM W TransactionJournal;
  pe_list_transaction_ids : PyM W (list string);
  pe_read_ownership : string → PyM W (list OwnershipRecord);
  pe_write_ownership : string → list OwnershipRecord → PyM W unit;
  pe_delete_ownership : string → PyM W unit;
  pe_lstat_ownership : string → PyM W unit;
  (* paths *)
  pa_open_context : PyM W unit;
  pa_close_context : PyM W unit;
  pa_cache_intermediates : string → PyM W unit;
  pa_verify_roots : PyM W unit;
  pa_validate_target : string → PyM W string;
  pa_owned_relative : string → PyM W (string * list string);
  pa_handle : string → PyM W D;
  pa_open_root : string → PyM W D;
  pa_close_root : D → PyM W unit;
  pa_stat : D → string → PyM W FileIdentity;
  pa_capture_intermediates : D → string → PyM W (list IntermediateIdentity);
  pa_capture_authority : D → string → PyM W PathAuthority;
  pa_capture_authority_v2 : D → string → string → string → string → option string → PyM W PathAuthorityV2;
  pa_verify_authority : D → option PathAuthority → string → PyM W unit;
  pa_verify_authority_v2 : D → option PathAuthorityV2 → string → option string → option string → string → PyM W unit;
  pa_verify_intermediates : D → list IntermediateIdentity → PyM W unit;
  pa_confirm_absent : string → PyM W (bool * string);
  pa_remove : D → string → pyval → string → W → removal W
}.
Arguments ex_id {W E D}.
Arguments ex_version {W E D}.
Arguments ex_supported_method_kind {W E D}.
Arguments ex_network_required {W E D}.
Arguments ex_postcondition_description {W E D}.
Arguments ex_replay_safe {W E D}.
Arguments ex_reconstruct_undo_record {W E D}.
Arguments ex_expected_ownership {W E D}.
Arguments ex_plan_steps {W E D}.
Arguments ex_apply {W E D}.
Arguments ex_verify {W E D}.
Arguments ex_undo {W E D}.
Arguments ex_postcondition {W E D}.
Arguments ex_inspect {W E D}.
Arguments ex_recovery_bound {W E D}.
Arguments pe_plan_digest {W E D}.
Arguments pe_uninstall_digest {W E D}.
Arguments pe_now {W E D}.
Arguments pe_signaled {W E D}.
Arguments pe_network_available {W E D}.
Arguments pe_new_transaction_id {W E D}.
Arguments pe_lock {W E D}.
Arguments pe_unlock {W E D}.
Arguments pe_write_journal {W E D}.
Arguments pe_read_journal {W E D}.
Arguments pe_list_transaction_ids {W E D}.
Arguments pe_read_ownership {W E D}.
Arguments pe_write_ownership {W E D}.
Arguments pe_delete_ownership {W E D}.
Arguments pe_lstat_ownership {W E D}.
Arguments pa_open_context {W E D}.
Arguments pa_close_context {W E D}.
Arguments pa_cache_intermediates {W E D}.
Arguments pa_verify_roots {W E D}.
Arguments pa_validate_target {W E D}.
Arguments pa_owned_relative {W E D}.
Arguments pa_handle {W E D}.
Arguments pa_open_root {W E D}.
Arguments pa_close_root {W E D}.
Arguments pa_stat {W E D}.
Arguments pa_capture_intermediates {W E D}.
Arguments pa_capture_authority {W E D}.
Arguments pa_capture_authority_v2 {W E D}.
Arguments pa_verify_authority {W E D}.
Arguments pa_verify_authority_v2 {W E D}.
Arguments pa_verify_intermediates {W E D}.
Arguments pa_confirm_absent {W E D}.
Arguments pa_remove {W E D}.

(** The state of the model: the world and the log *)
Record PState (W : Type) : Type := PS { ps_world : W; ps_log : list event }.
Arguments PS {W}.
Arguments ps_world {W}.
Arguments ps_log {W}.

(** [%o] *)
Fixpoint octal_digits (fuel : nat) (z : Z) : string :=
  match fuel with
  | O => ""
  | S n => (if (z <? 8)%Z then "" else octal_digits n (z / 8)) +:+ pretty (z mod 8)%Z
  end.
Definition octal (z : Z) : string := octal_digits (S (Z.to_nat (Z.log2 z))) z.

(** The value of an optional text in a dict *)
Definition or_none (o : option string) : pyval := match o with Some s => PStr s | None => PNone end.
Definition get (key : string) (d : pydict pyval) : pyval := dict_get_or key PNone d.
Definition is_true (v : pyval) : bool := match v with PBool true => true | _ => false end.
Definition is_false (v : pyval) : bool := match v with PBool false => true | _ => false end.

Definition decision (j : TransactionJournal) (a : RecoveryAction) (reason : string) : RecoveryDecision :=
  {| rd_transaction_id := tj_transaction_id j; rd_action := a; rd_reason := reason |}.

Definition outcome (st : PrepareStatus) (plan : option ProvisioningPlan) (id : option string) (reason : string)
    (residuals : list string) (kind : option string) : PrepareOutcome :=
  {| po_status := st; po_plan := plan; po_transaction_id := id; po_reason := reason; po_residuals := residuals;
     po_error_kind := kind |}.

Section engine.
Context `{PyStr} {W E D : Type} (env : ProvEnv W E D) (registry : list ((string * string) * E))
        (expected_executor_version : string).

Definition PM (A : Type) : Type := PyM (PState W) A.

(** ** Calls of the outside *)
Definition io {A} (m : PyM W A) : PM A := fun s =>
  let '(r, w) := m (ps_world s) in (r, PS w (ps_log s)).
Definition note (e : event) : PM unit := modifyS (fun s => PS (ps_world s) (ps_log s ++ [e])).
Definition now : PM string := fun s =>
  let '(t, w) := pe_now env (ps_world s) in (Ok t, PS w (ps_log s)).
Definition signaled : PM bool := gets (fun s => pe_signaled env (ps_world s)).

Definition is_ok {A} (r : res A) : bool := match r with Ok _ => true | Err _ => false end.

Definition write_journal (j : TransactionJournal) : PM unit := fun s =>
  let '(r, w) := pe_write_journal env j (ps_world s) in (r, PS w (ps_log s ++ [EWrite j (is_ok r)])).
Definition write_ownership (capability_id : string) (records : list OwnershipRecord) : PM unit := fun s =>
  let '(r, w) := pe_write_ownership env capability_id records (ps_world s) in
  (r, PS w (ps_log s ++ [EPublish capability_id records (is_ok r)])).
Definition read_journal (transaction_id : string) : PM TransactionJournal := io (pe_read_journal env transaction_id).

(** [try: m  except handled as e] when the handler goes on *)
Definition attempt {A} (handled : exn → bool) (m : PM A) : PM (A + exn) := fun s =>
  match m s with
  | (Ok a, s') => (Ok (inl a), s')
  | (Err e, s') => if handled e then (Ok (inr e), s') else (Err e, s')
  end.

(** [TrustedExecutorRegistry.resolve] *)
Definition resolve (method_kind method_id version : string) : res E :=
  let unregistered := raise ExecutorNotRegisteredError
    ("no trusted executor registered for method_kind=" +:+ method_kind +:+ " method_id=" +:+ method_id
     +:+ " executor_version=" +:+ version) in
  match List.find (fun '(k, _) => String.eqb k.1 method_kind && String.eqb k.2 method_id) registry with
  | Some (_, e) => if String.eqb (ex_version env e) version then Ok e else unregistered
  | None => unregistered
  end.

(** *** The wrappers around executors *)
Definition inspect_failed (e : exn) : pydict pyval :=
  [("exists", PNone); ("is_symlink", PNone); ("content_matches", PNone); ("inspect_error", PStr (exn_message e))].
Definition safe_inspect (ex : E) (r : StepRecord) : PM (pydict pyval) :=
  try_except (io (ex_inspect env ex r)) any_exn (fun e => mret (inspect_failed e)).

Definition apply_failure (kind : string) (e : exn) : ExecutionResult :=
  {| er_status := "apply_failed"; er_observed := []; er_undo_record := None; er_error_kind := Some kind;
     er_error := Some (exn_message e) |}.
Definition safe_apply (ex : E) (r : StepRecord) : PM ExecutionResult :=
  _ ← note (EApply r);
  try_except (io (ex_apply env ex r)) any_exn (fun e =>
    mret (apply_failure (if is_instance e DurabilityError then "durability_unknown" else "executor_error") e)).

Definition verification_failure (e : exn) : VerificationResult :=
  {| vr_status := "verification_failed"; vr_evidence := []; vr_error_kind := Some "executor_error";
     vr_error := Some (exn_message e) |}.
Definition safe_verify (ex : E) (r : StepRecord) (result : ExecutionResult) : PM VerificationResult :=
  try_except (io (ex_verify env ex r result)) any_exn (fun e => mret (verification_failure e)).
Definition safe_postcondition (ex : E) (plan : ProvisioningPlan) : PM VerificationResult :=
  try_except (io (ex_postcondition env ex plan)) any_exn (fun e => mret (verification_failure e)).

Definition undo_failure (kind : string) (e : exn) : RollbackResult :=
  {| rr_status := "undo_failed"; rr_residual := true; rr_evidence := []; rr_error_kind := Some kind;
     rr_error := Some (exn_message e) |}.
Definition safe_undo (ex : E) (r : StepRecord) (execution : ExecutionResult) : PM RollbackResult :=
  _ ← note (EUndo r);
  try_except (io (ex_undo env ex r execution)) any_exn (fun e =>
    mret (undo_failure (if is_instance e DurabilityError then "durability_unknown" else "executor_error") e)).

(** [ExecutionResult(status="applied", undo_record=...)] *)
Definition applied_result (undo : pydict pyval) : ExecutionResult :=
  {| er_status := "applied"; er_observed := []; er_undo_record := Some undo; er_error_kind := None; er_error := None |}.

Definition authoritative_undo_record (ex : E) (r : StepRecord) : res (pydict pyval) :=
  reconstructed ← ex_reconstruct_undo_record env ex r;
  match sr_undo_record r with
  | Some persisted =>
      if negb (dict_eqb persisted reconstructed)
      then raise ProvisioningError ("step " +:+ sr_step_id r +:+ " persisted undo_record diverges from what this executor would deterministically reconstruct; refusing to trust it")
      else Ok reconstructed
  | None => Ok reconstructed
  end.

(** *** Changing the journal: the two forms in which the engine does it *)

(** [record = record.with_state(...); journal = journal.with_step(record); write_journal(journal)] *)
Definition advance_step (st : StepState) (u : step_updates) (journal : TransactionJournal) (r : StepRecord)
    : PM (TransactionJournal * StepRecord) :=
  r' ← liftR (StepRecord_with_state st u r);
  let journal' := with_step r' journal in
  _ ← write_journal journal';
  mret (journal', r').

(** [journal = journal.with_state(..., now=now(), ...); write_journal(journal)] *)
Definition advance (st : TransactionState) (u : journal_update) (journal : TransactionJournal) : PM TransactionJournal :=
  t ← now;
  j ← liftR (with_state st t u journal);
  _ ← write_journal j;
  mret j.

(** ** Applying a plan *)

(** How [_run_apply_loop] leaves the loop: the journal, [apply_ok] and [durability_unknown] *)
Definition loop_exit : Type := TransactionJournal * bool * bool.

(** The result of the step's action: performed now, found to have been performed before an
    interruption, or a return *)
Definition obtain_result (ex : E) (journal : TransactionJournal) (r : StepRecord)
    : PM ((TransactionJournal * StepRecord * ExecutionResult) + loop_exit) :=
  match sr_state r with
  | S_PLANNED =>
      before_state ← safe_inspect ex r;
      t ← now;
      '(journal, r) ← advance_step S_APPLYING (started_from t before_state) journal r;
      result ← safe_apply ex r;
      mret (inl (journal, r, result))
  | S_APPLYING =>
      observed ← safe_inspect ex r;
      if truthy (get "path_policy_error" observed) then
        raiseM ProvisioningError ("step " +:+ sr_step_id r +:+ " failed path policy during resume inspection: "
          +:+ py_str (get "path_policy_error" observed))
      else if truthy (get "inspect_error" observed) then
        raiseM ProvisioningError ("step " +:+ sr_step_id r +:+ " could not be inspected during resume: "
          +:+ py_str (get "inspect_error" observed))
      else if truthy (get "is_symlink" observed) then
        raiseM ProvisioningError ("step " +:+ sr_step_id r +:+ " is ambiguous for resume: unexpected symlink")
      else if truthy (get "exists" observed) && is_true (get "content_matches" observed) then
        undo ← liftR (ex_reconstruct_undo_record env ex r);
        mret (inl (journal, r, applied_result undo))
      else if negb (truthy (get "exists" observed)) then
        if negb (ex_replay_safe env ex r) then
          raiseM ProvisioningError ("step " +:+ sr_step_id r +:+ " is not declared replay-safe; cannot resume automatically")
        else
          result ← safe_apply ex r;
          mret (inl (journal, r, result))
      else raiseM ProvisioningError ("step " +:+ sr_step_id r +:+ " content diverged from what was recorded; ambiguous for resume")
  | S_APPLIED | S_VERIFYING =>
      undo ← attempt (fun e => is_instance e ProvisioningError) (liftR (authoritative_undo_record ex r));
      match undo with
      | inl undo_record => mret (inl (journal, r, applied_result undo_record))
      | inr e =>
          journal ← advance T_RECOVERY_REQUIRED
            (with_recovery [("reason", PStr "undo_record_diverged"); ("step_id", PStr (sr_step_id r));
                            ("error", PStr (exn_message e))]) journal;
          mret (inr (journal, false, true))
      end
  | st => raiseM ProvisioningError ("step " +:+ sr_step_id r +:+ " is in an unexpected state for apply resume: " +:+ step_value st)
  end.

(** The action did not succeed *)
Definition apply_failed (ex : E) (journal : TransactionJournal) (r : StepRecord) (result : ExecutionResult)
    : PM loop_exit :=
  if bool_decide (er_error_kind result = Some "durability_unknown") then
    journal ← advance T_RECOVERY_REQUIRED
      (with_recovery [("reason", PStr "durability_unknown"); ("step_id", PStr (sr_step_id r));
                      ("error", or_none (er_error result))]) journal;
    mret (journal, false, true)
  else
    observed ← safe_inspect ex r;
    if is_false (get "exists" observed) && negb (truthy (get "is_symlink" observed)) then
      t ← now;
      '(journal, _) ← advance_step S_APPLY_FAILED (failed t (er_error_kind result) (er_error result)) journal r;
      mret (journal, false, false)
    else
      journal ← advance T_RECOVERY_REQUIRED
        (with_recovery [("reason", PStr "possible_partial_effect"); ("step_id", PStr (sr_step_id r));
                        ("error", or_none (er_error result)); ("error_kind", or_none (er_error_kind result))]) journal;
      mret (journal, false, true).

(** The step is to be verified *)
Definition verify_applied (ex : E) (journal : TransactionJournal) (r : StepRecord) (result : ExecutionResult)
    : PM (TransactionJournal + loop_exit) :=
  verification ← safe_verify ex r result;
  t ← now;
  if negb (String.eqb (vr_status verification) "verified") then
    '(journal, _) ← advance_step S_VERIFY_FAILED (verify_failed t verification) journal r;
    mret (inr (journal, false, false))
  else
    '(journal, _) ← advance_step S_VERIFIED (verified t (vr_evidence verification)) journal r;
    mret (inl journal).

(** One step of the plan *)
Definition apply_one (ex : E) (journal : TransactionJournal) (sequence : Z) : PM (TransactionJournal + loop_exit) :=
  r ← liftR (journal_step sequence journal);
  if bool_decide (sr_state r = S_VERIFIED) then mret (inl journal) else
  interrupted ← signaled;
  if interrupted && bool_decide (sr_state r = S_PLANNED) then
    t1 ← now;
    r ← liftR (StepRecord_with_state S_APPLYING (started t1) r);
    t2 ← now;
    '(journal, _) ← advance_step S_APPLY_FAILED
      (failed t2 (Some "interrupted") (Some "interrupted before this step began")) journal r;
    mret (inr (journal, false, false))
  else if (interrupted : bool) then mret (inr (journal, false, false)) else
  obtained ← obtain_result ex journal r;
  match obtained with
  | inr exit => mret (inr exit)
  | inl (journal, r, result) =>
      if negb (String.eqb (er_status result) "applied") then
        exit ← apply_failed ex journal r result;
        mret (inr exit)
      else
        match sr_state r with
        | S_APPLYING =>
            t ← now;
            '(journal, r) ← advance_step S_APPLIED (completed_with_undo t (er_undo_record result)) journal r;
            interrupted ← signaled;
            if (interrupted : bool) then mret (inr (journal, false, false)) else
            '(journal, r) ← advance_step S_VERIFYING no_updates journal r;
            verify_applied ex journal r result
        | S_APPLIED =>
            '(journal, r) ← advance_step S_VERIFYING no_updates journal r;
            verify_applied ex journal r result
        | _ => verify_applied ex journal r result
        end
  end.

Fixpoint run_apply_loop (ex : E) (journal : TransactionJournal) (sequences : list Z) : PM loop_exit :=
  match sequences with
  | [] => mret (journal, true, false)
  | sequence :: rest =>
      after ← apply_one ex journal sequence;
      match after with
      | inl journal => run_apply_loop ex journal rest
      | inr exit => mret exit
      end
  end.

(** ** Rolling back *)
Definition record_undo_failed (kind error : option string) (journal : TransactionJournal) (residuals : list string)
    (r : StepRecord) : PM (TransactionJournal * list string) :=
  t ← now;
  '(journal, r) ← advance_step S_UNDO_FAILED (failed t kind error) journal r;
  mret (journal, residuals ++ [sr_step_id r]).

Definition record_undone (journal : TransactionJournal) (residuals : list string) (r : StepRecord)
    : PM (TransactionJournal * list string) :=
  t ← now;
  '(journal, _) ← advance_step S_UNDONE (completed t) journal r;
  mret (journal, residuals).

(** The undo itself, from the state [UNDOING] *)
Definition undo_from (ex : E) (journal : TransactionJournal) (residuals : list string) (r : StepRecord)
    : PM (TransactionJournal * list string) :=
  undo ← attempt (fun e => is_instance e ProvisioningError) (liftR (authoritative_undo_record ex r));
  match undo with
  | inr e => record_undo_failed (Some "undo_record_diverged") (Some (exn_message e)) journal residuals r
  | inl undo_record =>
      result ← safe_undo ex r (applied_result undo_record);
      if String.eqb (rr_status result) "undone" then record_undone journal residuals r
      else record_undo_failed (rr_error_kind result) (rr_error result) journal residuals r
  end.

Definition rollback_one (ex : E) (sequence : Z) (journal : TransactionJournal) (residuals : list string)
    : PM (TransactionJournal * list string) :=
  current ← liftR (journal_step sequence journal);
  if bool_decide (sr_state current = S_UNDOING) then
    observed ← safe_inspect ex current;
    if truthy (get "path_policy_error" observed) then
      record_undo_failed (Some "path_policy_violation") (Some (py_str (get "path_policy_error" observed))) journal residuals current
    else if truthy (get "inspect_error" observed) then
      record_undo_failed (Some "inspection_error") (Some (py_str (get "inspect_error" observed))) journal residuals current
    else if negb (truthy (get "exists" observed)) then record_undone journal residuals current
    else if truthy (get "is_symlink" observed) then
      record_undo_failed (Some "unexpected_symlink") (Some "target is a symlink during rollback recovery") journal residuals current
    else if is_false (get "content_matches" observed) then
      record_undo_failed (Some "content_diverged") (Some "target content diverged from its recorded undo_record") journal residuals current
    else undo_from ex journal residuals current
  else if negb (bool_decide (sr_state current ∈ UNDOABLE_STEP_STATES)) then mret (journal, residuals)
  else
    '(journal, r) ← advance_step S_UNDOING no_updates journal current;
    undo_from ex journal residuals r.

Fixpoint rollback_loop (ex : E) (sequences : list Z) (journal : TransactionJournal) (residuals : list string)
    : PM (TransactionJournal * list string) :=
  match sequences with
  | [] => mret (journal, residuals)
  | sequence :: rest =>
      '(journal, residuals) ← rollback_one ex sequence journal residuals;
      rollback_loop ex rest journal residuals
  end.

(** [sorted(journal.steps, key=lambda item: item.sequence, reverse=True)] *)
Definition reverse_order (steps : list StepRecord) : list StepRecord :=
  py_sorted (fun a b => (sr_sequence b <? sr_sequence a)%Z) steps.

Definition run_rollback (ex : E) (journal : TransactionJournal) : PM (TransactionJournal * bool * list string) :=
  '(journal, residuals) ← rollback_loop ex (map sr_sequence (reverse_order (tj_steps journal))) journal [];
  mret (journal, match residuals with [] => true | _ => false end, residuals).

(** ** Identity checks and provenance *)
Fixpoint for_each {A} (f : A → PM unit) (l : list A) : PM unit :=
  match l with
  | [] => mret tt
  | x :: l' => _ ← f x; for_each f l'
  end.

(** [_eager_cache_intermediates_for_targets] *)
Definition cache_targets (targets : list string) : PM unit :=
  for_each (fun target => if truthy_str target then io (pa_cache_intermediates env target) else mret tt) targets.

(** [_verify_terminal_identity] *)
Definition verify_terminal_identity (records : list OwnershipRecord) (require_leaf : bool) : PM unit :=
  _ ← io (pa_verify_roots env);
  for_each (fun record =>
    if ow_product_owned record then
      let c := ow_candidate record in
      validated ← io (pa_validate_target env (oc_resource_identity c));
      handle ← io (pa_handle env validated);
      _ ← io (pa_verify_authority env handle (oc_path_authority c) validated);
      _ ← (if require_leaf
           then io (pa_verify_authority_v2 env handle (oc_path_authority_v2 c) validated
                      (ow_created_by_transaction record) None (oc_resource_identity c))
           else mret tt);
      io (pa_verify_intermediates env handle (oc_intermediate_identities c))
    else mret tt) records.

Definition is_hex64 (s : string) : bool :=
  (String.length s =? 64)%nat
  && forall_chars (fun c => contains (String c "") "0123456789abcdefABCDEF") s.

(** [_dynamic_verified_sha256_for_step] *)
Definition dynamic_verified_sha256 (r : StepRecord) (s : ProvisioningStep) (expected : OwnershipCandidate)
    : res (option string) :=
  if negb (bool_decide (oc_integrity expected = Some DYNAMIC_VERIFIED_SHA256)) then Ok None
  else if negb (py_eqb (get "integrity_policy" (ps_intent s)) (PStr "record_verified_sha256"))
  then raise ProvisioningError "dynamic integrity placeholder used without explicit step policy"
  else match get "sha256" (default [] (sr_verification r)) with
       | PStr sha256 =>
           if is_hex64 sha256 then Ok (Some (lower sha256))
           else raise ProvisioningError ("dynamic integrity step " +:+ sr_step_id r +:+ " has no verified sha256")
       | _ => raise ProvisioningError ("dynamic integrity step " +:+ sr_step_id r +:+ " has no verified sha256")
       end.

Definition effective_integrity (dynamic : option string) (expected : OwnershipCandidate) : option string :=
  match dynamic with Some d => Some d | None => oc_integrity expected end.
Definition effective_fingerprint (dynamic : option string) (expected : OwnershipCandidate) : option string :=
  match dynamic with
  | Some d => if bool_decide (oc_post_install_fingerprint expected = Some DYNAMIC_VERIFIED_SHA256) then Some d
              else oc_post_install_fingerprint expected
  | None => oc_post_install_fingerprint expected
  end.

Definition cannot_finalize {A} (resource reason : string) : res A :=
  raise ProvisioningError ("cannot finalize ownership for " +:+ resource +:+ ": " +:+ reason).

(** The comparison of the file with what the executor expects of it *)
Definition check_identity (resource : string) (expected : OwnershipCandidate) (i : FileIdentity) : res unit :=
  let differs (e : option Z) (actual : Z) := match e with Some v => negb (actual =? v)%Z | None => false end in
  let num (e : option Z) := match e with Some v => v | None => 0%Z end in
  if fi_is_symlink i || negb (fi_is_regular i) then cannot_finalize resource "not a regular, non-symlink file"
  else if differs (oc_nlink expected) (fi_nlink i) then
    cannot_finalize resource ("st_nlink is " +:+ pretty (fi_nlink i) +:+ ", expected " +:+ pretty (num (oc_nlink expected)))
  else if differs (oc_mode expected) (fi_mode i) then
    cannot_finalize resource ("mode is " +:+ octal (fi_mode i) +:+ ", expected " +:+ octal (num (oc_mode expected)))
  else if differs (oc_uid expected) (fi_uid i) then
    cannot_finalize resource ("uid is " +:+ pretty (fi_uid i) +:+ ", expected " +:+ pretty (num (oc_uid expected)))
  else if differs (oc_gid expected) (fi_gid i) then
    cannot_finalize resource ("gid is " +:+ pretty (fi_gid i) +:+ ", expected " +:+ pretty (num (oc_gid expected)))
  else Ok tt.

(** The ownership record of one step *)
Definition ownership_of_step (ex : E) (journal : TransactionJournal) (plan : ProvisioningPlan) (now_value : string)
    (r : StepRecord) : PM OwnershipRecord :=
  let resource := match dict_get "path" (default [] (sr_undo_record r)) with
                  | Some v => v
                  | None => PStr (default "" (sr_target r))
                  end in
  match plan_step_at (sr_sequence r) (pp_steps plan) with
  | None => liftR (cannot_finalize (py_str resource) ("no matching plan step for sequence " +:+ pretty (sr_sequence r)))
  | Some plan_step =>
      expected ← liftR (ex_expected_ownership env ex plan plan_step);
      dynamic ← liftR (dynamic_verified_sha256 r plan_step expected);
      captured ← try_except
        (match resource with
         | PStr path =>
             validated ← io (pa_validate_target env path);
             handle ← io (pa_handle env validated);
             ident ← io (pa_stat env handle validated);
             intermediates ← io (pa_capture_intermediates env handle validated);
             authority ← io (pa_capture_authority env handle validated);
             v2 ← io (pa_capture_authority_v2 env handle validated (tj_transaction_id journal) (tj_plan_digest journal)
                        validated (effective_integrity dynamic expected));
             mret (validated, ident, intermediates, authority, v2)
         | _ => raiseM TypeError "expected str, bytes or os.PathLike object"
         end)
        (fun e => is_instance e PathPolicyError || is_instance e OSError)
        (fun e => liftR (cannot_finalize (py_str resource) (exn_message e)));
      let '(validated, ident, intermediates, authority, v2) := captured in
      _ ← liftR (check_identity (py_str resource) expected ident);
      let if_expected (e : option Z) (actual : Z) := match e with Some _ => Some actual | None => None end in
      mret {|
        ow_capability_id := pp_capability_id plan;
        ow_candidate := {|
          oc_artifact_type := oc_artifact_type expected; oc_resource_identity := validated;
          oc_pre_existing := oc_pre_existing expected; oc_method_id := oc_method_id expected;
          oc_source := oc_source expected; oc_version := oc_version expected;
          oc_integrity := effective_integrity dynamic expected;
          oc_uid := if_expected (oc_uid expected) (fi_uid ident);
          oc_gid := if_expected (oc_gid expected) (fi_gid ident);
          oc_mode := if_expected (oc_mode expected) (fi_mode ident);
          oc_nlink := if_expected (oc_nlink expected) (fi_nlink ident);
          oc_post_install_fingerprint := effective_fingerprint dynamic expected;
          oc_intermediate_identities := intermediates; oc_path_authority := Some authority;
          oc_path_authority_v2 := Some v2 |};
        ow_product_owned := true; ow_created_by_transaction := Some (tj_transaction_id journal);
        ow_executor_id := pp_executor_id plan; ow_executor_version := pp_executor_version plan;
        ow_recorded_at := now_value |}
  end.

Definition or_none_int (o : option Z) : pyval := match o with Some z => PInt z | None => PNone end.

(** The entry of the provenance for an ownership record *)
Definition provenance_entry (r : OwnershipRecord) : pyval :=
  let c := ow_candidate r in
  PDict [
    ("resource_identity", PStr (oc_resource_identity c)); ("artifact_type", PStr (oc_artifact_type c));
    ("integrity", or_none (oc_integrity c)); ("uid", or_none_int (oc_uid c)); ("gid", or_none_int (oc_gid c));
    ("mode", or_none_int (oc_mode c)); ("executor_id", PStr (ow_executor_id r));
    ("executor_version", PStr (ow_executor_version r)); ("method_id", or_none (oc_method_id c));
    ("intermediate_identities", PList (map (fun i => PDict [
        ("relative_name", PStr (ii_relative_name i)); ("dev", PInt (ii_dev i)); ("ino", PInt (ii_ino i));
        ("uid", PInt (ii_uid i)); ("mode", PInt (ii_mode i))]) (oc_intermediate_identities c)));
    ("path_authority", match oc_path_authority c with
       | Some a => PDict [("root_path", PStr (pa_root_path a));
                          ("target_relative_path", PStr (pa_target_relative_path a));
                          ("component_count", PInt (pa_component_count a))]
       | None => PNone end);
    ("path_authority_v2", match oc_path_authority_v2 c with
       | Some a => PDict [("schema", PStr (p2_schema a)); ("authority_digest", PStr (p2_authority_digest a));
                          ("chain_digest", PStr (p2_chain_digest a)); ("component_count", PInt (p2_component_count a))]
       | None => PNone end) ].

Fixpoint map_pm {A B} (f : A → PM B) (l : list A) : PM (list B) :=
  match l with
  | [] => mret []
  | x :: l' => y ← f x; ys ← map_pm f l'; mret (y :: ys)
  end.

Definition finalize_provenance (ex : E) (journal : TransactionJournal) (plan : ProvisioningPlan) (now_value : string)
    : PM (pydict pyval) :=
  records ← map_pm (ownership_of_step ex journal plan now_value) (tj_steps journal);
  _ ← write_ownership (pp_capability_id plan) records;
  mret [("transaction_id", PStr (tj_transaction_id journal)); ("committed_at", PStr now_value);
        ("ownership_records", PList (map provenance_entry records))].

(** ** Preparing *)
Definition apply_and_verify (ex : E) (journal : TransactionJournal) (plan : ProvisioningPlan) : PM loop_exit :=
  '(journal, apply_ok, durability_unknown) ← run_apply_loop ex journal (map ps_sequence (pp_steps plan));
  if (durability_unknown : bool) then mret (journal, false, true)
  else if negb apply_ok then mret (journal, false, false)
  else
    journal ← (if negb (bool_decide (tj_state journal = T_VERIFYING)) then advance T_VERIFYING no_update journal
               else mret journal);
    postcondition ← safe_postcondition ex plan;
    if negb (String.eqb (vr_status postcondition) "verified") then
      journal ← advance T_ROLLING_BACK
        (with_failure (dict_update
           [("reason", PStr "postcondition_verification_failed"); ("error_kind", or_none (vr_error_kind postcondition));
            ("error", or_none (vr_error postcondition))] (vr_evidence postcondition))) journal;
      mret (journal, false, false)
    else mret (journal, true, false).

(** Publishing ownership and committing, the same in [_finish_prepare] and in recovery *)
Definition publish_and_commit (ex : E) (journal : TransactionJournal) (plan : ProvisioningPlan)
    : PM (TransactionJournal + exn) :=
  _ ← verify_terminal_identity [] true;
  t ← now;
  provenance ← attempt (fun e => is_instance e ProvisioningError) (finalize_provenance ex journal plan t);
  match provenance with
  | inr e =>
      _ ← advance T_RECOVERY_REQUIRED
        (with_recovery [("reason", PStr ("cannot finalize provenance: " +:+ exn_message e))]) journal;
      mret (inr e)
  | inl provenance =>
      let reverify := (records ← io (pe_read_ownership env (pp_capability_id plan)); verify_terminal_identity records true) in
      _ ← reverify;
      journal ← advance T_PREPARE_TERMINAL_PREPARED (with_provenance provenance) journal;
      _ ← reverify;
      journal ← advance T_COMMITTED no_update journal;
      _ ← reverify;
      mret (inl journal)
  end.

Definition with_residuals (j : TransactionJournal) (residuals : list string) : journal_update :=
  with_failure (dict_set "residuals" (PList (map PStr residuals)) (default [] (tj_failure j))).

Definition finish_prepare (ex : E) (journal : TransactionJournal) (plan : ProvisioningPlan)
    (apply_ok durability_unknown : bool) (transaction_id : string) : PM PrepareOutcome :=
  if durability_unknown then
    let step_id := get "step_id" (default [] (tj_recovery journal)) in
    mret (outcome P_RECOVERY_REQUIRED (Some plan) (Some transaction_id)
            "an action's effect may have occurred but its directory durability could not be confirmed; recovery required"
            [if truthy step_id then py_str step_id else "unknown"] (Some "durability_unknown"))
  else if apply_ok then
    published ← publish_and_commit ex journal plan;
    match published with
    | inr _ =>
        mret (outcome P_RECOVERY_REQUIRED (Some plan) (Some transaction_id)
                "postcondition verified but ownership could not be finalized; recovery required"
                ["provenance"] (Some "provenance_finalization_failed"))
    | inl _ => mret (outcome P_COMMITTED (Some plan) (Some transaction_id) "provisioned and verified" [] None)
    end
  else
    journal ← (if negb (bool_decide (tj_state journal = T_ROLLING_BACK)) then advance T_ROLLING_BACK no_update journal
               else mret journal);
    '(journal, rollback_ok, residuals) ← run_rollback ex journal;
    if (rollback_ok : bool) then
      _ ← verify_terminal_identity [] true;
      journal ← advance T_ROLLED_BACK no_update journal;
      _ ← verify_terminal_identity [] true;
      _ ← advance T_PREPARATION_FAILED no_update journal;
      mret (outcome P_PREPARATION_FAILED (Some plan) (Some transaction_id)
              "provisioning failed; rollback completed cleanly" [] None)
    else
      _ ← advance T_ROLLBACK_FAILED (with_residuals journal residuals) journal;
      mret (outcome P_ROLLBACK_FAILED (Some plan) (Some transaction_id) "rollback did not complete cleanly" residuals
              (Some "rollback_failed")).

(** ** Plans *)
Definition make_plan (ex : E) (capability_id dependency_id resolved_target architecture support_classification
    method_id method_kind executor_id executor_version : string) (steps : list ProvisioningStep)
    (asset : option (pydict pyval)) : res ProvisioningPlan :=
  ProvisioningPlan_post_init {|
    pp_capability_id := capability_id; pp_dependency_id := dependency_id; pp_resolved_target := resolved_target;
    pp_architecture := architecture; pp_support_classification := support_classification;
    pp_selected_method_id := method_id; pp_selected_method_kind := method_kind;
    pp_postcondition := ex_postcondition_description env ex; pp_executor_id := executor_id;
    pp_executor_version := executor_version; pp_steps := steps; pp_selected_asset := asset |}.

Definition truthy_opt (o : option string) : bool := match o with Some s => truthy_str s | None => false end.

Definition build_plan (d : ResolutionDecision) : PM (ProvisioningPlan * E) :=
  if negb (String.eqb (de_resolution_status d) "method_selected") || negb (de_execution_ready d) then
    raiseM ExecutionNotReadyError ("decision is not execution-ready (resolution_status=" +:+ de_resolution_status d +:+ ")")
  else match de_selected_method_id d, de_selected_method_kind d with
  | Some method_id, Some method_kind =>
      if negb (truthy_str method_id) || negb (truthy_str method_kind) then
        raiseM ExecutionNotReadyError "decision has no selected method to execute"
      else
        ex ← liftR (resolve method_kind method_id expected_executor_version);
        if negb (String.eqb (ex_supported_method_kind env ex) method_kind) then
          raiseM ExecutorNotRegisteredError ("registered executor kind " +:+ ex_supported_method_kind env ex
            +:+ " does not match decision method_kind " +:+ method_kind)
        else
          let resolved_target := if truthy_opt (de_resolved_release d) then de_resolved_release d
                                 else de_resolved_distribution d in
          match resolved_target, de_machine_architecture d with
          | Some resolved_target, Some architecture =>
              steps ← io (ex_plan_steps env ex (de_capability_id d) (de_dependency_id d));
              plan ← liftR (make_plan ex (de_capability_id d) (de_dependency_id d) resolved_target architecture
                              (de_support_classification d) method_id method_kind (ex_id env ex) (ex_version env ex)
                              steps (de_selected_asset d));
              mret (plan, ex)
          | _, _ => raiseM ExecutionNotReadyError "decision is missing a concrete resolved target or architecture"
          end
  | _, _ => raiseM ExecutionNotReadyError "decision has no selected method to execute"
  end.

(** The executor and the plan of a journal, as the trusted code gives them *)
Definition journal_executor (j : TransactionJournal) : res E :=
  kind ← dict_item "kind" (tj_selected_method j);
  id ← dict_item "id" (tj_selected_method j);
  resolve kind id (dict_get_or "version" expected_executor_version (tj_executor j)).

Definition rebuild_plan (ex : E) (j : TransactionJournal) : PM ProvisioningPlan :=
  steps ← io (ex_plan_steps env ex (tj_capability_id j) (tj_dependency_id j));
  liftR (method_id ← dict_item "id" (tj_selected_method j);
         method_kind ← dict_item "kind" (tj_selected_method j);
         executor_id ← dict_item "id" (tj_executor j);
         executor_version ← dict_item "version" (tj_executor j);
         make_plan ex (tj_capability_id j) (tj_dependency_id j) (tj_target j) (tj_architecture j)
           (tj_support_classification j) method_id method_kind executor_id executor_version steps (tj_selected_asset j)).

Definition value_or_key_error (e : exn) : bool := is_instance e ValueError || is_instance e KeyError.
Definition journal_error (e : exn) : bool := is_instance e JournalError || is_instance e IdentifierError.
Definition path_error (e : exn) : bool := is_instance e OSError || is_instance e PathPolicyError.

(** ** The authority of ownership records *)

(** [_load_committed_source_journal] *)
Definition load_committed_source_journal (transaction_id capability_id : string) : PM (option TransactionJournal) :=
  read ← attempt journal_error (read_journal transaction_id);
  mret (match read with
        | inr _ => None
        | inl j => if negb (bool_decide (tj_state j = T_COMMITTED)) || negb (String.eqb (tj_operation j) "prepare")
                      || negb (String.eqb (tj_capability_id j) capability_id) then None
                   else match tj_provenance j with None => None | Some _ => Some j end
        end).

Inductive UninstallScanResult : Type := NONE_FOUND | COMPLETED_FOUND | UNKNOWN.

Fixpoint scan_uninstalls (capability_id target_transaction_id : string) (exclude : option string) (ids : list string)
    : PM UninstallScanResult :=
  match ids with
  | [] => mret NONE_FOUND
  | id :: rest =>
      if bool_decide (exclude = Some id) then scan_uninstalls capability_id target_transaction_id exclude rest else
      read ← attempt journal_error (read_journal id);
      match read with
      | inr _ => mret UNKNOWN
      | inl j =>
          if String.eqb (tj_operation j) "uninstall" && String.eqb (tj_capability_id j) capability_id
             && String.eqb (tj_target j) target_transaction_id
             && bool_decide (tj_state j ∈ [T_REVOKING_OWNERSHIP; T_UNINSTALL_TERMINAL_PREPARED; T_UNINSTALLED])
          then mret COMPLETED_FOUND
          else scan_uninstalls capability_id target_transaction_id exclude rest
      end
  end.

(** [_capability_has_completed_uninstall] *)
Definition capability_has_completed_uninstall (capability_id target_transaction_id : string) (exclude : option string)
    : PM UninstallScanResult :=
  listed ← attempt journal_error (io (pe_list_transaction_ids env));
  match listed with
  | inr _ => mret UNKNOWN
  | inl ids => scan_uninstalls capability_id target_transaction_id exclude ids
  end.

(** [_ownership_intermediates_are_current], with descriptors bound *)
Definition intermediates_are_current (record : OwnershipRecord) (locked require_leaf : bool) : PM bool :=
  if negb locked then mret true else
  let c := ow_candidate record in
  checked ← attempt path_error
    ('(validated, _) ← io (pa_owned_relative env (oc_resource_identity c));
     handle ← io (pa_handle env validated);
     _ ← io (pa_verify_authority env handle (oc_path_authority c) validated);
     _ ← (if require_leaf
          then io (pa_verify_authority_v2 env handle (oc_path_authority_v2 c) validated
                     (ow_created_by_transaction record) None (oc_resource_identity c))
          else mret tt);
     io (pa_verify_intermediates env handle (oc_intermediate_identities c)));
  mret (match checked with inl _ => true | inr _ => false end).

(** The fields of a record that the executor's expectation determines *)
Definition candidate_matches (c expected : OwnershipCandidate) (dynamic : option string) : bool :=
  String.eqb (oc_artifact_type c) (oc_artifact_type expected)
  && String.eqb (oc_resource_identity c) (oc_resource_identity expected)
  && Bool.eqb (oc_pre_existing c) (oc_pre_existing expected)
  && bool_decide (oc_method_id c = oc_method_id expected)
  && bool_decide (oc_source c = oc_source expected)
  && bool_decide (oc_version c = oc_version expected)
  && bool_decide (oc_integrity c = effective_integrity dynamic expected)
  && bool_decide (oc_uid c = oc_uid expected) && bool_decide (oc_gid c = oc_gid expected)
  && bool_decide (oc_mode c = oc_mode expected) && bool_decide (oc_nlink c = oc_nlink expected)
  && bool_decide (oc_post_install_fingerprint c = effective_fingerprint dynamic expected).

(** [{step.target: step for step in plan.steps if step.target}] *)
Definition plan_step_for (target : string) (steps : list ProvisioningStep) : option ProvisioningStep :=
  List.find (fun s => truthy_opt (ps_target s) && bool_decide (ps_target s = Some target)) (rev steps).

(** One ownership record against the plan of its transaction *)
Definition record_has_authority (ex : E) (journal : TransactionJournal) (plan : ProvisioningPlan)
    (locked require_live : bool) (record : OwnershipRecord) : PM bool :=
  let c := ow_candidate record in
  match plan_step_for (oc_resource_identity c) (pp_steps plan) with
  | None => mret false
  | Some plan_step =>
      expected ← liftR (ex_expected_ownership env ex plan plan_step);
      match List.find (fun r => (sr_sequence r =? ps_sequence plan_step)%Z) (rev (tj_steps journal)) with
      | None => mret false
      | Some r =>
          dynamic ← attempt (fun e => is_instance e ProvisioningError) (liftR (dynamic_verified_sha256 r plan_step expected));
          match dynamic with
          | inr _ => mret false
          | inl dynamic =>
              if negb (String.eqb (ow_capability_id record) (tj_capability_id journal)) then mret false
              else if negb (candidate_matches c expected dynamic) then mret false
              else
                located ← attempt (fun e => path_error e || is_instance e ValueError)
                            (io (pa_owned_relative env (oc_resource_identity c)));
                match located with
                | inr _ => mret false
                | inl (validated, parts) =>
                    match oc_path_authority c, oc_path_authority_v2 c with
                    | Some _, Some _ =>
                        let verify handle :=
                          _ ← io (pa_verify_authority env handle (oc_path_authority c) validated);
                          if require_live
                          then io (pa_verify_authority_v2 env handle (oc_path_authority_v2 c) validated
                                     (ow_created_by_transaction record) (Some (tj_plan_digest journal))
                                     (oc_resource_identity c))
                          else mret tt in
                        verified ← attempt path_error
                          (if locked then handle ← io (pa_handle env validated); verify handle
                           else handle ← io (pa_open_root env validated);
                                try_finally (verify handle) (io (pa_close_root env handle)));
                        match verified with
                        | inr _ => mret false
                        | inl _ =>
                            if negb (bool_decide (removelast parts = []))
                               && bool_decide (length (oc_intermediate_identities c) = 0%nat) then mret false
                            else
                              current ← intermediates_are_current record locked require_live;
                              mret (current
                                && bool_decide (Some (ow_executor_id record) = dict_get "id" (tj_executor journal))
                                && bool_decide (Some (ow_executor_version record) = dict_get "version" (tj_executor journal))
                                && bool_decide (ow_created_by_transaction record = Some (tj_transaction_id journal)))
                        end
                    | _, _ => mret false
                    end
                end
          end
      end
  end.

Fixpoint all_pm {A} (f : A → PM bool) (l : list A) : PM bool :=
  match l with
  | [] => mret true
  | x :: l' => b ← f x; if (b : bool) then all_pm f l' else mret false
  end.

(** [set(a) == set(b)] for strings *)
Definition same_set (a b : list string) : bool :=
  forallb (fun x => str_in x b) a && forallb (fun x => str_in x a) b.

Definition target_names (steps : list ProvisioningStep) : list string :=
  List.filter truthy_str (omap ps_target steps).

Definition validate_ownership_authority (locked : bool) (exclude : option string) (require_live : bool)
    (capability_id : string) (records : list OwnershipRecord) : PM bool :=
  let owned := List.filter ow_product_owned records in
  match owned with
  | [] => mret true
  | first :: _ =>
      match ow_created_by_transaction first with
      | None => mret false
      | Some transaction_id =>
          if negb (forallb (fun r => bool_decide (ow_created_by_transaction r = Some transaction_id)) owned) then mret false
          else
            source ← load_committed_source_journal transaction_id capability_id;
            match source with
            | None => mret false
            | Some journal =>
                scan ← capability_has_completed_uninstall capability_id transaction_id exclude;
                match scan with
                | COMPLETED_FOUND | UNKNOWN => mret false
                | NONE_FOUND =>
                    resolved ← attempt (fun e => is_instance e ExecutorNotRegisteredError || is_instance e KeyError)
                                 (liftR (journal_executor journal));
                    match resolved with
                    | inr _ => mret false
                    | inl ex =>
                        rebuilt ← attempt value_or_key_error (rebuild_plan ex journal);
                        match rebuilt with
                        | inr _ => mret false
                        | inl plan =>
                            if negb (String.eqb (pe_plan_digest env plan) (tj_plan_digest journal)) then mret false
                            else if negb (journal_steps_match_plan_exactly journal plan) then mret false
                            else if existsb (fun r => negb (bool_decide (sr_state r = S_VERIFIED))) (tj_steps journal) then mret false
                            else if existsb (fun r => match sr_verification r, sr_undo_record r with
                                                      | Some _, Some (_ :: _) => false | _, _ => true end) (tj_steps journal)
                            then mret false
                            else if negb (same_set (target_names (pp_steps plan))
                                            (map (fun r => oc_resource_identity (ow_candidate r)) owned)) then mret false
                            else all_pm (record_has_authority ex journal plan locked require_live) owned
                        end
                    end
                end
            end
      end
  end.

(** ** Idempotency *)
Inductive IdempotencyOutcome : Type := I_NOT_PRESENT | I_ALREADY_PRESENT | I_ALREADY_PROVISIONED | I_OWNERSHIP_CONFLICT.

(** The recorded integrity against the plan and the inspection *)
Definition integrity_agrees (steps : list ProvisioningStep) (inspections : list (pydict pyval)) (c : OwnershipCandidate)
    : bool :=
  let here := List.filter (fun '(s, _) => bool_decide (ps_target s = Some (oc_resource_identity c)))
                (rev (combine steps inspections)) in
  let intent := match here with (s, _) :: _ => ps_intent s | [] => [] end in
  let inspection := match List.filter (fun '(s, _) => truthy_opt (ps_target s)) here with
                    | (_, i) :: _ => i | [] => [] end in
  if py_eqb (get "integrity_policy" intent) (PStr "record_verified_sha256")
  then py_eqb (get "sha256" inspection) (or_none (oc_integrity c))
  else py_eqb (or_none (oc_integrity c)) (get "content_sha256" intent).

(** The file of an owned record, as it is now *)
Definition live_identity_agrees (record : OwnershipRecord) : PM bool :=
  let c := ow_candidate record in
  found ← attempt path_error
    (validated ← io (pa_validate_target env (oc_resource_identity c));
     handle ← io (pa_handle env validated);
     io (pa_stat env handle validated));
  mret (match found with
        | inr _ => false
        | inl i =>
            let agrees (o : option Z) (z : Z) := match o with Some v => (v =? z)%Z | None => true end in
            agrees (oc_uid c) (fi_uid i) && agrees (oc_gid c) (fi_gid i) && agrees (oc_mode c) (fi_mode i)
        end).

Definition check_idempotency (plan : ProvisioningPlan) (ex : E) (existing_ownership : list OwnershipRecord)
    : PM (IdempotencyOutcome * list (pydict pyval)) :=
  inspections ← map_pm (fun s => observed ← io (ex_inspect env ex (planned_record s));
                                 mret (dict_update [("step_id", PStr (ps_step_id s))] observed)) (pp_steps plan);
  let conflict := (I_OWNERSHIP_CONFLICT, inspections) in
  let exists_ i := truthy (get "exists" i) in
  if existsb (fun i => truthy (get "path_policy_error" i)) inspections then mret conflict
  else if negb (existsb exists_ inspections) then mret (I_NOT_PRESENT, inspections)
  else if existsb (fun i => truthy (get "is_symlink" i)) inspections
          || existsb (fun i => exists_ i && is_false (get "content_matches" i)) inspections
          || negb (forallb (fun i => exists_ i && is_true (get "content_matches" i)) inspections) then mret conflict
  else
    let owned := List.filter (fun r => ow_product_owned r && String.eqb (ow_executor_id r) (ex_id env ex)
                   && String.eqb (ow_executor_version r) (ex_version env ex)
                   && bool_decide (oc_method_id (ow_candidate r) = Some (pp_selected_method_id plan))) existing_ownership in
    match owned with
    | [] => mret (I_ALREADY_PRESENT, inspections)
    | first :: _ =>
        if negb (length owned =? length (pp_steps plan))%nat then mret conflict else
        valid ← validate_ownership_authority true None true (pp_capability_id plan) owned;
        if negb (valid : bool) then mret conflict else
        source ← attempt journal_error (read_journal (default "" (ow_created_by_transaction first)));
        match source with
        | inr _ => mret conflict
        | inl source =>
            if negb (String.eqb (tj_plan_digest source) (pe_plan_digest env plan)) then mret conflict
            else if negb (forallb (fun s => match ps_target s with
                                            | Some t => str_in t (map (fun r => oc_resource_identity (ow_candidate r)) owned)
                                            | None => false end) (pp_steps plan)
                          && forallb (fun r => str_in (oc_resource_identity (ow_candidate r)) (omap ps_target (pp_steps plan))) owned)
            then mret conflict
            else
              agrees ← all_pm (fun r => if integrity_agrees (pp_steps plan) inspections (ow_candidate r)
                                        then live_identity_agrees r else mret false) owned;
              if negb (agrees : bool) then mret conflict else
              postcondition ← safe_postcondition ex plan;
              if negb (String.eqb (vr_status postcondition) "verified") then mret conflict
              else mret (I_ALREADY_PROVISIONED, inspections)
        end
    end.

(** ** Recovery *)
Inductive Verdict : Type := RESUME_APPLY | RESUME_ROLLBACK | AMBIGUOUS.
#[global] Instance Verdict_eq_dec : EqDecision Verdict.
Proof. solve_decision. Defined.

(** The steps of an interrupted forward transaction, in order, up to the first that decides *)
Fixpoint inspect_steps (ex : E) (steps : list StepRecord) : PM (Verdict * string) :=
  match steps with
  | [] => mret (RESUME_APPLY, "no step in progress; resuming forward")
  | r :: rest =>
      let name := "step " +:+ sr_step_id r in
      match sr_state r with
      | S_APPLY_FAILED | S_VERIFY_FAILED => mret (RESUME_ROLLBACK, name +:+ " already failed; resuming by completing rollback")
      | S_UNDOING => mret (RESUME_ROLLBACK, name +:+ " was mid-undo; resuming rollback")
      | S_APPLYING =>
          observed ← safe_inspect ex r;
          mret (if truthy (get "path_policy_error" observed) then
                  (AMBIGUOUS, name +:+ " failed path policy during recovery inspection: " +:+ py_str (get "path_policy_error" observed))
                else if truthy (get "inspect_error" observed) then
                  (AMBIGUOUS, name +:+ " could not be inspected during recovery: " +:+ py_str (get "inspect_error" observed))
                else if truthy (get "is_symlink" observed) then (AMBIGUOUS, name +:+ " shows an unexpected symlink")
                else if negb (truthy (get "exists" observed)) then
                  if negb (ex_replay_safe env ex r)
                  then (AMBIGUOUS, name +:+ " did not complete and is not declared replay-safe")
                  else (RESUME_APPLY, name +:+ " did not complete; safe to retry from scratch")
                else if is_true (get "content_matches" observed)
                then (RESUME_APPLY, name +:+ " already completed before the interruption; resuming forward")
                else (AMBIGUOUS, name +:+ " exists but its content does not match what was expected"))
      | S_VERIFYING => mret (RESUME_APPLY, name +:+ " applied; only verification needs to be redone")
      | _ => inspect_steps ex rest
      end
  end.

Definition inspect_recovery_boundary (ex : E) (journal : TransactionJournal) : PM (Verdict * string) :=
  match tj_state journal with
  | T_ROLLING_BACK => mret (RESUME_ROLLBACK, "resuming rollback already in progress")
  | T_APPLYING | T_RECOVERY_REQUIRED | T_RECOVERING => inspect_steps ex (tj_steps journal)
  | T_VERIFYING => mret (RESUME_APPLY, "resuming transaction-level postcondition verification")
  | T_PREPARE_TERMINAL_PREPARED => mret (RESUME_APPLY, "resuming prepared terminal commit")
  | st => mret (AMBIGUOUS, "unrecognized transaction state for recovery: " +:+ transaction_value st)
  end.

(** [journal.with_state(..., now=journal.updated_at); write_journal(journal)] *)
Definition advance_at (t : string) (st : TransactionState) (u : journal_update) (journal : TransactionJournal)
    : PM TransactionJournal :=
  j ← liftR (with_state st t u journal);
  _ ← write_journal j;
  mret j.

Definition finalize_recovery_rollback (journal : TransactionJournal) (rollback_ok : bool) (residuals : list string)
    : PM RecoveryDecision :=
  let t := tj_updated_at journal in
  if rollback_ok then
    _ ← verify_terminal_identity [] true;
    journal ← advance_at t T_ROLLED_BACK no_update journal;
    _ ← verify_terminal_identity [] true;
    journal ← advance_at t T_PREPARATION_FAILED no_update journal;
    mret (decision journal ROLLBACK "resumed rollback completed cleanly")
  else
    journal ← advance_at t T_ROLLBACK_FAILED (with_residuals journal residuals) journal;
    mret (decision journal REQUIRE_MANUAL
            ("rollback did not complete cleanly during recovery; residuals: " +:+ py_str (PList (map PStr residuals)))).

(** The ways in which recovery gives up: the journal is marked, unless it is already *)
Definition require_manual (journal : TransactionJournal) (recovery_reason reason : string) : PM RecoveryDecision :=
  journal ← (if negb (bool_decide (tj_state journal = T_RECOVERY_REQUIRED))
             then advance T_RECOVERY_REQUIRED (with_recovery [("reason", PStr recovery_reason)]) journal
             else mret journal);
  mret (decision journal REQUIRE_MANUAL reason).

Definition resume_rollback (ex : E) (journal : TransactionJournal) : PM RecoveryDecision :=
  '(journal, rollback_ok, residuals) ← run_rollback ex journal;
  finalize_recovery_rollback journal rollback_ok residuals.

Definition resume_apply (ex : E) (journal : TransactionJournal) (plan : ProvisioningPlan) : PM RecoveryDecision :=
  journal ← (if bool_decide (tj_state journal = T_RECOVERING) then advance T_APPLYING no_update journal else mret journal);
  '(journal, apply_ok, durability_unknown) ← apply_and_verify ex journal plan;
  if (apply_ok : bool) then
    published ← publish_and_commit ex journal plan;
    match published with
    | inr _ => mret (decision journal REQUIRE_MANUAL "postcondition verified but ownership could not be finalized during recovery")
    | inl journal => mret (decision journal RESUME "resumed and committed")
    end
  else if (durability_unknown : bool) then
    mret (decision journal REQUIRE_MANUAL "durability could not be confirmed during recovery; manual review required")
  else
    journal ← (if negb (bool_decide (tj_state journal = T_ROLLING_BACK))
               then advance T_ROLLING_BACK (with_failure [("reason", PStr "recovery_apply_failed")]) journal
               else mret journal);
    resume_rollback ex journal.

(** The journal was found to be recoverable: [verdict] says which way *)
Definition recover_verdict (ex : E) (journal : TransactionJournal) (plan : ProvisioningPlan) (verdict : Verdict)
    (reason : string) : PM RecoveryDecision :=
  match verdict with
  | AMBIGUOUS => require_manual journal reason reason
  | _ =>
      journal ← (if bool_decide (tj_state journal = T_RECOVERY_REQUIRED) then advance T_RECOVERING no_update journal
                 else mret journal);
      if bool_decide (tj_state journal = T_PREPARE_TERMINAL_PREPARED) then
        let reverify := (records ← io (pe_read_ownership env (tj_capability_id journal)); verify_terminal_identity records true) in
        _ ← verify_terminal_identity [] true;
        _ ← reverify;
        journal ← advance T_COMMITTED no_update journal;
        _ ← reverify;
        mret (decision journal RESUME "resumed and committed")
      else match verdict with
      | RESUME_APPLY => resume_apply ex journal plan
      | _ =>
          journal ← (if bool_decide (tj_state journal ∈ [T_RECOVERING; T_APPLYING])
                     then advance T_ROLLING_BACK no_update journal else mret journal);
          resume_rollback ex journal
      end
  end.

(** [_recover_one] for a "prepare" journal *)
Definition recover_prepare (journal : TransactionJournal) : PM RecoveryDecision :=
  resolved ← attempt (fun e => is_instance e ExecutorNotRegisteredError) (liftR (journal_executor journal));
  match resolved with
  | inr e => require_manual journal (exn_message e) (exn_message e)
  | inl ex =>
      bound ← attempt (fun e => is_instance e ProvisioningError) (io (ex_recovery_bound env ex journal));
      match bound with
      | inr e =>
          let reason := "cannot bind recovery to the journal's recorded release state: " +:+ exn_message e in
          require_manual journal reason reason
      | inl ex =>
          rebuilt ← attempt value_or_key_error (rebuild_plan ex journal);
          match rebuilt with
          | inr e =>
              let reason := "cannot rebuild plan for recovery: " +:+ exn_message e in
              require_manual journal reason reason
          | inl plan =>
              _ ← cache_targets (omap ps_target (pp_steps plan));
              if negb (String.eqb (pe_plan_digest env plan) (tj_plan_digest journal)) then
                require_manual journal "plan_digest_mismatch" "plan_digest no longer matches the journal"
              else if negb (journal_steps_match_plan_exactly journal plan) then
                require_manual journal "journal_steps_do_not_match_plan" "journal steps no longer match the reconstructed plan"
              else if negb (steps_consistent_with_transaction_state journal) then
                require_manual journal "steps_inconsistent_with_transaction_state"
                  "step states are inconsistent with the transaction's own top-level state"
              else
                '(verdict, reason) ← inspect_recovery_boundary ex journal;
                recover_verdict ex journal plan verdict reason
          end
      end
  end.

(** ** Uninstalling *)

(** [_detect_ownership_drift] *)
Definition detect_ownership_drift (record : OwnershipRecord) (validated : string) (handle : D) : PM (option string) :=
  let c := ow_candidate record in
  if negb (String.eqb validated (oc_resource_identity c)) then
    mret (Some ("path drifted: expected " +:+ oc_resource_identity c +:+ ", resolved to " +:+ validated))
  else
    found ← attempt path_error (io (pa_stat env handle validated));
    match found with
    | inr e => mret (Some ("cannot inspect current identity: " +:+ exn_message e))
    | inl i =>
        checked ← attempt path_error (_ ← io (pa_verify_authority env handle (oc_path_authority c) validated);
                                      io (pa_verify_intermediates env handle (oc_intermediate_identities c)));
        match checked with
        | inr e => mret (Some ("path authority drifted: " +:+ exn_message e))
        | inl _ =>
            let expected_nlink := default 1%Z (oc_nlink c) in
            let differs (o : option Z) (z : Z) := match o with Some v => negb (z =? v)%Z | None => false end in
            let num (o : option Z) := default 0%Z o in
            mret (if negb (fi_nlink i =? expected_nlink)%Z then
                    Some ("hard link count drifted to " +:+ pretty (fi_nlink i) +:+ " (expected " +:+ pretty expected_nlink +:+ ")")
                  else if differs (oc_uid c) (fi_uid i) then
                    Some ("owner uid drifted: expected " +:+ pretty (num (oc_uid c)) +:+ ", found " +:+ pretty (fi_uid i))
                  else if differs (oc_gid c) (fi_gid i) then
                    Some ("owner gid drifted: expected " +:+ pretty (num (oc_gid c)) +:+ ", found " +:+ pretty (fi_gid i))
                  else if differs (oc_mode c) (fi_mode i) then
                    Some ("mode drifted: expected " +:+ octal (num (oc_mode c)) +:+ ", found " +:+ octal (fi_mode i))
                  else None)
        end
    end.

(** A removal with the custody recorder of [_make_custody_recorder]: [box] is [journal_box["journal"]] *)
Fixpoint run_removal (m : removal W) (log : list event) (box : TransactionJournal)
    : res bool * TransactionJournal * PState W :=
  match m with
  | Removed r w => (r, box, PS w log)
  | RecordCustody c w continue =>
      let '(t, w1) := pe_now env w in
      let journal := with_custody_record t c box in
      let '(r, w2) := pe_write_journal env journal w1 in
      run_removal (continue r w2) (log ++ [EWrite journal (is_ok r)]) (if is_ok r then journal else box)
  end.

Definition remove_owned (handle : D) (validated : string) (expected_sha256 : pyval) (resource_id : string)
    (r : StepRecord) (box : TransactionJournal) : PM (res bool * TransactionJournal) := fun s =>
  let '(removed, box', s') :=
    run_removal (pa_remove env handle validated expected_sha256 resource_id (ps_world s)) (ps_log s ++ [ERemove r]) box in
  (Ok (removed, box'), s').

(** The progress of the loop: [journal_box["journal"]], [residuals] and [ok] *)
Definition progress : Type := TransactionJournal * list string * bool.

(** A step that failed; [boxed]: the branch also stores the journal in the box *)
Definition uninstall_failed (boxed : bool) (kind error : string) (box : TransactionJournal) (residuals : list string)
    (r : StepRecord) : PM progress :=
  t ← now;
  r' ← liftR (mark_uninstall_step_failed kind error t r);
  let journal := with_step r' box in
  _ ← write_journal journal;
  mret (if boxed then journal else box, residuals ++ [sr_step_id r'], false).

(** The part for the state [APPLYING] *)
Definition uninstall_act (handle : D) (validated resource : string) (box : TransactionJournal) (residuals : list string)
    (r : StepRecord) : PM ((TransactionJournal * StepRecord) + progress) :=
  found ← attempt path_error (io (pa_stat env handle validated));
  match found with
  | inr e =>
      if is_instance e FileNotFoundError then
        if existsb (fun c => String.eqb (cr_resource_id c) resource && negb (bool_decide (cr_state c = DELETED)))
             (tj_custody_records box)
        then p ← uninstall_failed true "custody_recovery_required"
                   "resource basename is absent while custody transaction is not deleted" box residuals r;
             mret (inr p)
        else t ← now; jr ← advance_step S_APPLIED (completed t) box r; mret (inl jr)
      else p ← uninstall_failed true "inspection_error" (exn_message e) box residuals r; mret (inr p)
  | inl i =>
      if fi_is_symlink i then
        p ← uninstall_failed false "unexpected_symlink" "target is a symlink during uninstall recovery" box residuals r;
        mret (inr p)
      else
        drift ← (match List.find (fun o => String.eqb (oc_resource_identity (ow_candidate o)) resource) (tj_owned_snapshot box) with
                 | Some owned => detect_ownership_drift owned validated handle
                 | None => mret None
                 end);
        match drift with
        | Some d => p ← uninstall_failed true "ownership_drift" d box residuals r; mret (inr p)
        | None =>
            '(removed, box) ← remove_owned handle validated (get "expected_sha256" (sr_intent r)) resource r box;
            match removed with
            | Err e => p ← uninstall_failed true "ownership_drift" (exn_message e) box residuals r; mret (inr p)
            | Ok _ => t ← now; jr ← advance_step S_APPLIED (completed t) box r; mret (inl jr)
            end
        end
  end.

(** The part for the state [VERIFYING]: absence, and nothing else, verifies the step *)
Definition uninstall_verify (handle : D) (validated : string) (box : TransactionJournal) (residuals : list string)
    (ok : bool) (r : StepRecord) : PM progress :=
  found ← attempt path_error (io (pa_stat env handle validated));
  t ← now;
  match found with
  | inr e =>
      if is_instance e FileNotFoundError then
        '(box, _) ← advance_step S_VERIFIED (verified t [("removed", PBool true)]) box r;
        mret (box, residuals, ok)
      else
        '(box, r) ← advance_step S_VERIFY_FAILED (failed t (Some "inspection_error") (Some (exn_message e))) box r;
        mret (box, residuals ++ [sr_step_id r], false)
  | inl _ =>
      '(box, r) ← advance_step S_VERIFY_FAILED (failed t (Some "residual") (Some "path still exists after removal")) box r;
      mret (box, residuals ++ [sr_step_id r], false)
  end.

Definition uninstall_one (sequence : Z) (p : progress) : PM progress :=
  let '(box, residuals, ok) := p in
  r ← liftR (journal_step sequence box);
  if bool_decide (sr_state r = S_VERIFIED) then mret p else
  value ← liftR (dict_item "resource_identity" (sr_intent r));
  match value with
  | PStr resource =>
      located ← attempt (fun e => is_instance e PathPolicyError)
        (validated ← io (pa_validate_target env resource);
         handle ← io (pa_handle env validated);
         mret (validated, handle));
      match located with
      | inr e => uninstall_failed false "path_policy_violation" (exn_message e) box residuals r
      | inl (validated, handle) =>
          '(box, r) ← (if bool_decide (sr_state r = S_PLANNED)
                       then t ← now; advance_step S_APPLYING (started t) box r else mret (box, r));
          acted ← (if bool_decide (sr_state r = S_APPLYING) then uninstall_act handle validated resource box residuals r
                   else mret (inl (box, r)));
          match acted with
          | inr p => mret p
          | inl (box, r) =>
              '(box, r) ← (if bool_decide (sr_state r = S_APPLIED) then advance_step S_VERIFYING no_updates box r
                           else mret (box, r));
              uninstall_verify handle validated box residuals ok r
          end
      end
  | _ => raiseM TypeError "expected str, bytes or os.PathLike object"
  end.

Fixpoint uninstall_loop (sequences : list Z) (p : progress) : PM progress :=
  match sequences with
  | [] => mret p
  | sequence :: rest => p ← uninstall_one sequence p; uninstall_loop rest p
  end.

(** The part that [_uninstall_source_matches] and [_revocation_boundary_is_safe] share: the
    snapshot, its authority, and the plan rebuilt from it *)
Definition snapshot_plan_matches (exclude : option string) (journal : TransactionJournal) : PM (option string) :=
  let owned := List.filter ow_product_owned (tj_owned_snapshot journal) in
  match owned with
  | [] => mret (Some "empty ownership snapshot")
  | _ =>
      valid ← validate_ownership_authority true exclude false (tj_capability_id journal) owned;
      if negb (valid : bool) then mret (Some "ownership snapshot no longer traces to a valid committed transaction") else
      rebuilt ← attempt (fun e => is_instance e ValueError)
                  (liftR (build_uninstall_plan (tj_capability_id journal) (tj_transaction_id journal) owned));
      mret (match rebuilt with
            | inr e => Some ("cannot rebuild uninstall plan from snapshot: " +:+ exn_message e)
            | inl plan =>
                if negb (String.eqb (pe_uninstall_digest env plan) (tj_plan_digest journal))
                then Some "uninstall plan digest no longer matches the journal's own snapshot"
                else if negb (uninstall_journal_steps_match_plan_exactly journal plan)
                then Some "uninstall journal steps no longer match the plan reconstructed from the ownership snapshot"
                else None
            end)
  end.

Definition uninstall_source_matches (journal : TransactionJournal) : PM bool :=
  reason ← snapshot_plan_matches None journal;
  mret (match reason with None => true | Some _ => false end).

Fixpoint confirm_all_absent (records : list OwnershipRecord) : PM (option string) :=
  match records with
  | [] => mret None
  | record :: rest =>
      '(absent, reason) ← io (pa_confirm_absent env (oc_resource_identity (ow_candidate record)));
      if (absent : bool) then confirm_all_absent rest else mret (Some reason)
  end.

(** [_revocation_boundary_is_safe]: [None] is safe, otherwise the reason *)
Definition revocation_boundary_is_safe (journal : TransactionJournal) : PM (option string) :=
  reason ← snapshot_plan_matches (Some (tj_transaction_id journal)) journal;
  match reason with
  | Some reason => mret (Some reason)
  | None =>
      if existsb (fun r => negb (bool_decide (sr_state r = S_VERIFIED))) (tj_steps journal)
      then mret (Some "not every uninstall step is VERIFIED")
      else confirm_all_absent (List.filter ow_product_owned (tj_owned_snapshot journal))
  end.

(** [_run_uninstall_loop] *)
Definition run_uninstall_loop (journal : TransactionJournal) : PM (TransactionJournal * bool * list string) :=
  matches ← uninstall_source_matches journal;
  if negb (matches : bool) then
    verified ← attempt (fun e => is_instance e StateRootIdentityError || is_instance e PathPolicyError)
                 (verify_terminal_identity (tj_owned_snapshot journal) true);
    mret (journal, false, match verified with inl _ => ["plan_digest_mismatch"] | inr _ => ["identity_mismatch"] end)
  else
    _ ← io (pa_verify_roots env);
    match unresolved_custody_records journal with
    | (_ :: _) as unresolved => mret (journal, false, map cr_resource_id unresolved)
    | [] =>
        '(journal, residuals, ok) ← uninstall_loop (map sr_sequence (tj_steps journal)) (journal, [], true);
        mret (journal, ok, residuals)
    end.

(** [_revoke_ownership_and_verify]; its callers do not look at the result *)
Definition revoke_ownership_and_verify (capability_id : string) : PM bool :=
  _ ← note (ERevoke capability_id);
  deleted ← attempt (fun e => is_instance e DurabilityError || is_instance e OSError) (io (pe_delete_ownership env capability_id));
  match deleted with
  | inr _ => mret false
  | inl _ =>
      found ← attempt (fun e => is_instance e OSError) (io (pe_lstat_ownership env capability_id));
      mret (match found with inr e => is_instance e FileNotFoundError | inl _ => false end)
  end.

(** The end of an uninstall: from the state [REVOKING_OWNERSHIP], with ownership found to be
    safe to revoke *)
Definition complete_uninstall (journal : TransactionJournal) (records : list OwnershipRecord) : PM TransactionJournal :=
  _ ← verify_terminal_identity records false;
  journal ← advance T_UNINSTALL_TERMINAL_PREPARED no_update journal;
  _ ← verify_terminal_identity records false;
  journal ← advance T_UNINSTALLED no_update journal;
  _ ← revoke_ownership_and_verify (tj_capability_id journal);
  mret journal.

Definition path_policy_failure (residuals : list string) : journal_update :=
  with_recovery [("reason", PStr "uninstall path policy failure; manual recovery required");
                 ("residuals", PList (map PStr residuals))].

(** [_recover_uninstall] from [REVOKING_OWNERSHIP] *)
Definition recover_revocation (journal : TransactionJournal) : PM RecoveryDecision :=
  unsafe ← revocation_boundary_is_safe journal;
  match unsafe with
  | Some reason =>
      journal ← advance T_RECOVERY_REQUIRED
        (with_recovery [("reason", PStr ("unsafe to revoke ownership: " +:+ reason))]) journal;
      mret (decision journal REQUIRE_MANUAL ("unsafe to revoke ownership: " +:+ reason))
  | None =>
      journal ← complete_uninstall journal (tj_owned_snapshot journal);
      mret (decision journal RESUME "resumed uninstall and completed")
  end.

(** Back to the boundary that the steps show *)
Definition resume_uninstall (journal : TransactionJournal) : PM TransactionJournal :=
  if bool_decide (tj_state journal = T_RECOVERY_REQUIRED) then
    journal ← advance T_RECOVERING no_update journal;
    if forallb (fun r => bool_decide (sr_state r = S_VERIFIED)) (tj_steps journal)
    then advance T_REVOKING_OWNERSHIP no_update journal
    else advance T_UNINSTALLING no_update journal
  else mret journal.

Definition recover_uninstall (journal : TransactionJournal) : PM RecoveryDecision :=
  _ ← cache_targets (map (fun r => oc_resource_identity (ow_candidate r)) (tj_owned_snapshot journal));
  if existsb (fun r => bool_decide (sr_state r ∈ [S_VERIFY_FAILED; S_APPLY_FAILED])) (tj_steps journal) then
    require_manual journal "an uninstall step already failed; manual review required" "an uninstall step already failed"
  else
    journal ← resume_uninstall journal;
    if bool_decide (tj_state journal = T_UNINSTALLING) then
      '(journal, ok, residuals) ← run_uninstall_loop journal;
      if negb (ok : bool) then
        if uninstall_failure_requires_recovery journal || uninstall_residuals_require_recovery residuals then
          journal ← advance T_RECOVERY_REQUIRED (path_policy_failure residuals) journal;
          mret (decision journal REQUIRE_MANUAL "uninstall path policy failure; manual recovery required")
        else
          journal ← advance T_UNINSTALL_FAILED (with_failure [("residuals", PList (map PStr residuals))]) journal;
          mret (decision journal REQUIRE_MANUAL "uninstall did not complete for all resources during recovery")
      else
        journal ← advance T_REVOKING_OWNERSHIP no_update journal;
        recover_revocation journal
    else if bool_decide (tj_state journal = T_UNINSTALL_TERMINAL_PREPARED) then
      _ ← verify_terminal_identity (tj_owned_snapshot journal) false;
      journal ← advance T_UNINSTALLED no_update journal;
      _ ← revoke_ownership_and_verify (tj_capability_id journal);
      mret (decision journal RESUME "resumed uninstall terminal cleanup")
    else recover_revocation journal.

(** [_recover_one] *)
Definition recover_one (journal : TransactionJournal) : PM RecoveryDecision :=
  let given_up reason :=
    journal ← advance T_RECOVERY_REQUIRED (with_recovery [("reason", PStr reason)]) journal;
    mret (decision journal REQUIRE_MANUAL reason) in
  if bool_decide (tj_state journal = T_ROLLBACK_FAILED) then
    given_up "a previous rollback attempt already failed; manual review required"
  else if bool_decide (tj_state journal = T_UNINSTALL_FAILED) then
    given_up "a previous uninstall attempt already failed; manual review required"
  else if String.eqb (tj_operation journal) "uninstall" then recover_uninstall journal
  else recover_prepare journal.

Fixpoint recover_each (ids : list string) : PM (list RecoveryDecision) :=
  match ids with
  | [] => mret []
  | id :: rest =>
      read ← attempt any_exn (read_journal id);
      match read with
      | inr e =>
          ds ← recover_each rest;
          mret ({| rd_transaction_id := id; rd_action := REQUIRE_MANUAL;
                   rd_reason := "journal is unreadable/invalid: " +:+ exn_message e |} :: ds)
      | inl journal =>
          _ ← note (ERead journal);
          if negb (bool_decide (tj_state journal ∈ NEEDS_RECOVERY_ATTENTION)) then recover_each rest
          else d ← recover_one journal; ds ← recover_each rest; mret (d :: ds)
      end
  end.

(** [_recover_pending_locked] *)
Definition recover_pending_locked : PM (list RecoveryDecision) :=
  listed ← attempt any_exn (io (pe_list_transaction_ids env));
  match listed with
  | inr e => mret [{| rd_transaction_id := "<state-scan>"; rd_action := REQUIRE_MANUAL;
                      rd_reason := "cannot enumerate pending transactions: " +:+ exn_message e |}]
  | inl ids => recover_each ids
  end.

(** ** The entry points *)
Definition new_transaction_id : PM string := fun s =>
  let '(t, w) := pe_new_transaction_id env (ps_world s) in (Ok t, PS w (ps_log s)).

(** [with acquire_provisioner_lock(...)], [_open_locked_context] and [_close_locked_context] *)
Definition with_lock {A} (transaction_id : string) (body : PM A) : PM A :=
  _ ← io (pe_lock env transaction_id);
  try_finally (_ ← io (pa_open_context env); try_finally body (io (pa_close_context env))) (io (pe_unlock env)).

Definition identity_error (e : exn) : bool := is_instance e StateRootIdentityError || is_instance e PathPolicyError.

Definition identity_changed (plan : option ProvisioningPlan) (transaction_id : string) (e : exn) : PM PrepareOutcome :=
  mret (outcome P_RECOVERY_REQUIRED plan (Some transaction_id)
          ("state root identity changed during the transaction; refusing to report a clean outcome: " +:+ exn_message e)
          [] (Some "state_root_identity_mismatch")).

Definition blocking (reports : list RecoveryDecision) : list string :=
  map rd_transaction_id (List.filter (fun d => bool_decide (rd_action d = REQUIRE_MANUAL)) reports).

(** A new transaction: the journal up to [APPLYING], then the plan *)
Definition run_transaction (plan : ProvisioningPlan) (ex : E) (transaction_id : string) : PM PrepareOutcome :=
  t ← now;
  let journal := initial_journal (pe_plan_digest env) plan transaction_id t in
  _ ← write_journal journal;
  journal ← advance T_AUTHORIZED no_update journal;
  journal ← advance T_APPLYING no_update journal;
  '(journal, apply_ok, durability_unknown) ← apply_and_verify ex journal plan;
  finish_prepare ex journal plan apply_ok durability_unknown transaction_id.

(** The part of [prepare] that holds the lock *)
Definition prepare_locked (plan : ProvisioningPlan) (ex : E) (transaction_id : string) : PM PrepareOutcome :=
  _ ← cache_targets (omap ps_target (pp_steps plan));
  reports ← recover_pending_locked;
  match blocking reports with
  | (_ :: _) as ids =>
      mret (outcome P_PENDING_RECOVERY (Some plan) None
              ("cannot start a new transaction while others require manual recovery: " +:+ py_str (PList (map PStr ids)))
              [] (Some "recovery_required"))
  | [] =>
      existing ← io (pe_read_ownership env (pp_capability_id plan));
      '(idempotency, evidence) ← check_idempotency plan ex existing;
      match idempotency with
      | I_ALREADY_PRESENT => mret (outcome P_ALREADY_PRESENT (Some plan) None
          "capability already present before WatchdogVPN; no write performed, no uninstall right granted" [] None)
      | I_ALREADY_PROVISIONED => mret (outcome P_ALREADY_PROVISIONED (Some plan) None
          "identity/version/hash/executor/postcondition already match; no duplication" [] None)
      | I_OWNERSHIP_CONFLICT => mret (outcome P_OWNERSHIP_CONFLICT (Some plan) None
          ("an existing but divergent component was found: " +:+ py_str (PList (map PDict evidence))) []
          (Some "ownership_conflict"))
      | I_NOT_PRESENT => run_transaction plan ex transaction_id
      end
  end.

Definition prepare (d : ResolutionDecision) (apply : bool) : PM PrepareOutcome :=
  built ← attempt (fun e => is_instance e ExecutorNotRegisteredError || is_instance e ExecutionNotReadyError) (build_plan d);
  match built with
  | inr e =>
      if is_instance e ExecutorNotRegisteredError
      then mret (outcome P_RECIPE_NOT_IMPLEMENTED None None (exn_message e) [] (Some "recipe_not_implemented"))
      else mret (outcome P_OUT_OF_CONTRACT None None (exn_message e) [] (Some "execution_not_ready"))
  | inl (plan, ex) =>
      if negb apply then
        mret (outcome P_DRY_RUN (Some plan) None "dry-run: plan constructed, nothing mutated" [] None)
      else
        offline ← (if ex_network_required env ex then available ← io (pe_network_available env); mret (negb available)
                   else mret false);
        if (offline : bool) then
          mret (outcome P_OFFLINE (Some plan) None "capability requires network and none is available" [] (Some "offline"))
        else
          transaction_id ← new_transaction_id;
          try_except (with_lock transaction_id (prepare_locked plan ex transaction_id)) identity_error
            (identity_changed (Some plan) transaction_id)
  end.

Definition recover_pending : PM (list RecoveryDecision) :=
  id ← new_transaction_id;
  let transaction_id := "recovery-" +:+ id in
  try_except (with_lock transaction_id recover_pending_locked) identity_error
    (fun e => mret [{| rd_transaction_id := transaction_id; rd_action := REQUIRE_MANUAL;
                       rd_reason := "state root identity changed during recovery: " +:+ exn_message e |}]).

Definition invalid_ownership (capability_id : string) : PrepareOutcome :=
  outcome P_OWNERSHIP_INVALID None None
    ("ownership records for capability " +:+ capability_id
     +:+ " do not correspond, in full, to any committed transaction; refusing to uninstall") [] (Some "ownership_invalid").

(** A new uninstall transaction *)
Definition run_uninstall (capability_id transaction_id : string) (owned : list OwnershipRecord) : PM PrepareOutcome :=
  plan ← liftR (build_uninstall_plan capability_id transaction_id owned);
  t ← now;
  let journal := initial_uninstall_journal (pe_uninstall_digest env) plan t in
  _ ← write_journal journal;
  journal ← advance T_UNINSTALLING no_update journal;
  '(journal, ok, residuals) ← run_uninstall_loop journal;
  if negb (ok : bool) then
    if uninstall_failure_requires_recovery journal || uninstall_residuals_require_recovery residuals then
      _ ← advance T_RECOVERY_REQUIRED (path_policy_failure residuals) journal;
      mret (outcome P_RECOVERY_REQUIRED None (Some transaction_id)
              "uninstall path policy failure; manual recovery required" residuals (Some "recovery_required"))
    else
      _ ← advance T_UNINSTALL_FAILED (with_failure [("residuals", PList (map PStr residuals))]) journal;
      mret (outcome P_UNINSTALL_FAILED None (Some transaction_id)
              "uninstall did not complete for all resources" residuals (Some "uninstall_failed"))
  else
    journal ← advance T_REVOKING_OWNERSHIP no_update journal;
    unsafe ← revocation_boundary_is_safe journal;
    match unsafe with
    | Some reason =>
        _ ← advance T_RECOVERY_REQUIRED
          (with_recovery [("reason", PStr ("unsafe to revoke ownership: " +:+ reason))]) journal;
        mret (outcome P_RECOVERY_REQUIRED None (Some transaction_id)
                ("unsafe to revoke ownership: " +:+ reason) [] (Some "recovery_required"))
    | None =>
        _ ← complete_uninstall journal owned;
        mret (outcome P_UNINSTALLED None (Some transaction_id)
                ("uninstalled " +:+ pretty (py_len owned) +:+ " resource(s)") [] None)
    end.

(** The part of [uninstall] that holds the lock *)
Definition uninstall_locked (capability_id transaction_id : string) : PM PrepareOutcome :=
  reports ← recover_pending_locked;
  match blocking reports with
  | (_ :: _) as ids =>
      mret (outcome P_PENDING_RECOVERY None None
              ("cannot uninstall while others require manual recovery: " +:+ py_str (PList (map PStr ids)))
              [] (Some "recovery_required"))
  | [] =>
      records ← io (pe_read_ownership env capability_id);
      let owned := List.filter ow_product_owned records in
      match owned with
      | [] => mret (outcome P_OUT_OF_CONTRACT None None "nothing to uninstall" [] (Some "nothing_to_uninstall"))
      | _ =>
          _ ← cache_targets (map (fun r => oc_resource_identity (ow_candidate r)) owned);
          valid ← validate_ownership_authority true None true capability_id owned;
          if negb (valid : bool) then mret (invalid_ownership capability_id)
          else run_uninstall capability_id transaction_id owned
      end
  end.

Definition uninstall (capability_id : string) (apply : bool) : PM PrepareOutcome :=
  records ← io (pe_read_ownership env capability_id);
  let owned := List.filter ow_product_owned records in
  match owned with
  | [] => mret (outcome P_OUT_OF_CONTRACT None None
      ("no product-owned resources recorded for capability " +:+ capability_id +:+ "; nothing to uninstall") []
      (Some "nothing_to_uninstall"))
  | _ =>
      valid ← validate_ownership_authority false None true capability_id owned;
      if negb (valid : bool) then mret (invalid_ownership capability_id)
      else if negb apply then
        mret (outcome P_DRY_RUN None None
                ("uninstall dry-run: " +:+ pretty (py_len owned) +:+ " resource(s) would be removed") [] None)
      else
        transaction_id ← new_transaction_id;
        try_except (with_lock transaction_id (uninstall_locked capability_id transaction_id)) identity_error
          (identity_changed None transaction_id)
  end.
End engine.
