(* ===== verification/ProvisionLog.v ===== *)
(** * The log of the provisioning engine, judged

    The log of [ProvisionEngine] is judged event by event against what the disk may hold at that
    point: a prefix of the log is what an interruption leaves, so a property of every event of
    the log is a property of every interruption. *)
From stdpp Require Import base list strings gmap pretty.
From Stdlib Require Import Ascii ZArith.
From S2P Require Import Prelude Steps PyData Provision ProvisionEngine.

(** ** What the disk may hold *)
Definition written (id : string) (j : TransactionJournal) : bool := String.eqb (tj_transaction_id j) id.

Definition disk_step (id : string) (held : list TransactionJournal) (e : event) : list TransactionJournal :=
  match e with
  | EWrite j done => if written id j then (if done then [j] else j :: held) else held
  | ERead j => if written id j then [j] else held
  | _ => held
  end.

(** The journals that the file of transaction [id] may contain: the last one written or read,
    and those of later writes that raised *)
Definition disk (id : string) (log : list event) : list TransactionJournal := foldl (disk_step id) [] log.

(** ** Good events *)
Definition step_reach : StepState → StepState → Prop := rtc (fun a b => b ∈ STEP_TRANSITIONS a).

(** The same step, later *)
Record step_follows (r0 r : StepRecord) : Prop := {
  sf_sequence : sr_sequence r = sr_sequence r0;
  sf_step_id : sr_step_id r = sr_step_id r0;
  sf_action : sr_action_type r = sr_action_type r0;
  sf_intent : sr_intent r = sr_intent r0;
  sf_target : sr_target r = sr_target r0;
  sf_state : step_reach (sr_state r0) (sr_state r)
}.

(** The same transaction, later: no state is skipped and nothing else changes *)
Record follows (j0 j : TransactionJournal) : Prop := {
  fo_id : tj_transaction_id j = tj_transaction_id j0;
  fo_operation : tj_operation j = tj_operation j0;
  fo_digest : tj_plan_digest j = tj_plan_digest j0;
  fo_capability : tj_capability_id j = tj_capability_id j0;
  fo_state : tj_state j = tj_state j0 ∨ tj_state j ∈ TRANSACTION_TRANSITIONS (tj_state j0);
  fo_steps : Forall2 step_follows (tj_steps j0) (tj_steps j)
}.

Definition starts (j : TransactionJournal) : Prop :=
  tj_state j = T_PLANNED ∧ Forall (fun r => sr_state r = S_PLANNED) (tj_steps j).

(** Every journal that the disk may hold for some transaction contains this very record *)
Definition recorded (r : StepRecord) (log : list event) : Prop :=
  ∃ id, disk id log ≠ [] ∧ ∀ j, j ∈ disk id log → r ∈ tj_steps j.

Definition all_verified (j : TransactionJournal) : Prop := Forall (fun r => sr_state r = S_VERIFIED) (tj_steps j).

Definition event_ok (log : list event) (e : event) : Prop :=
  match e with
  | EWrite j _ => tj_operation j = "uninstall" ∨ starts j ∨ ∀ j0, j0 ∈ disk (tj_transaction_id j) log → follows j0 j
  | ERead _ => True
  | EApply r | ERemove r => sr_state r = S_APPLYING ∧ recorded r log
  | EUndo r => sr_state r = S_UNDOING ∧ recorded r log
  | EPublish capability_id records _ =>
      ∃ id j, disk id log = [j] ∧ tj_capability_id j = capability_id ∧ tj_state j = T_VERIFYING ∧ all_verified j
              ∧ Forall (fun o => ow_created_by_transaction o = Some id) records
  | ERevoke capability_id =>
      ∃ id j, disk id log = [j] ∧ tj_capability_id j = capability_id ∧ tj_state j = T_UNINSTALLED
  end.

Definition log_ok (log : list event) : Prop := ∀ pre e post, log = pre ++ e :: post → event_ok pre e.

Lemma disk_snoc id log e : disk id (log ++ [e]) = disk_step id (disk id log) e.
Proof. unfold disk. by rewrite foldl_snoc. Qed.

Lemma log_ok_nil : log_ok [].
Proof. intros pre e post E. by destruct pre. Qed.

Lemma log_ok_snoc log e : log_ok (log ++ [e]) ↔ log_ok log ∧ event_ok log e.
Proof.
  split.
  - intros Hl. split; [|by apply (Hl log e [])]. intros pre e' post ->. apply (Hl pre e' (post ++ [e])).
    by rewrite <- app_assoc.
  - intros [Hl He] pre e' post E. destruct post as [|x post] using rev_ind.
    + apply app_inj_tail in E as [-> ->]. done.
    + rewrite app_comm_cons, app_assoc in E. apply app_inj_tail in E as [-> _]. by eapply Hl.
Qed.

(** ** Specifications of computations over the log *)
Section spec.
Context {W : Type} (Ex : exn → Prop).

(** From a log in [P], the computation ends with [Q], or raises an exception in [Ex] and leaves a
    good log *)
Definition spec {A} (P : list event → Prop) (m : PyM (PState W) A) (Q : A → list event → Prop) : Prop :=
  ∀ s, P (ps_log s) →
    match m s with
    | (Ok a, s') => Q a (ps_log s')
    | (Err e, s') => log_ok (ps_log s') ∧ Ex e
    end.

Lemma spec_ret {A} (P : list event → Prop) (a : A) (Q : A → list event → Prop) :
  (∀ l, P l → Q a l) → spec P (mret a) Q.
Proof. intros Hq s Hs. cbn. by apply Hq. Qed.

Lemma spec_bind {A B} P (m : PyM (PState W) A) (f : A → PyM (PState W) B) R Q :
  spec P m R → (∀ a, spec (R a) (f a) Q) → spec P (m ≫= f) Q.
Proof.
  intros Hm Hf s Hs. specialize (Hm s Hs). unfold mbind, pym_bind. destruct (m s) as [[a|e] s']; [|done].
  by apply Hf.
Qed.

Lemma spec_conseq {A} (P P' : list event → Prop) (m : PyM (PState W) A) (Q Q' : A → list event → Prop) :
  spec P' m Q' → (∀ l, P l → P' l) → (∀ a l, Q' a l → Q a l) → spec P m Q.
Proof. intros Hm Hp Hq s Hs. specialize (Hm s (Hp _ Hs)). destruct (m s) as [[a|e] s']; [by apply Hq|done]. Qed.

(** A precondition that does not depend on the log *)
Lemma spec_pure {A} (P : list event → Prop) (F : Prop) (m : PyM (PState W) A) Q :
  (∀ l, P l → F) → (F → spec P m Q) → spec P m Q.
Proof. intros HF Hm s Hs. by apply (Hm (HF _ Hs)). Qed.

Lemma spec_lift {A} P (r : res A) (Q : A → list event → Prop) :
  (∀ a l, r = Ok a → P l → Q a l) → (∀ e l, r = Err e → P l → log_ok l ∧ Ex e) → spec P (liftR r) Q.
Proof. intros Ho He s Hs. unfold liftR. destruct r as [a|e]; eauto. Qed.

(** Computations that leave the log as it is *)
Definition silent {A} (m : PyM (PState W) A) : Prop := ∀ s, ps_log (m s).2 = ps_log s.
Definition raises_ex {A} (m : PyM (PState W) A) : Prop := ∀ s, match (m s).1 with Ok _ => True | Err e => Ex e end.

Lemma spec_silent {A} P (m : PyM (PState W) A) :
  silent m → raises_ex m → (∀ l, P l → log_ok l) → spec P m (fun _ => P).
Proof.
  intros Hm Hx Hp s Hs. specialize (Hm s). specialize (Hx s). destruct (m s) as [[a|e] s']; cbn in *; rewrite Hm; eauto.
Qed.

Lemma spec_try_silent {A} P (m : PyM (PState W) A) hd h Q :
  silent m → (∀ a l, P l → Q a l) → (∀ e, spec P (h e) Q) → (∀ l, P l → log_ok l) →
  (∀ s e s', m s = (Err e, s') → hd e = false → Ex e) → spec P (try_except m hd h) Q.
Proof.
  intros Hm Hq Hh Hp Hx s Hs. unfold try_except. pose proof (Hm s) as Hl. destruct (m s) as [[a|e] s'] eqn:Em; cbn in Hl.
  - apply Hq. by rewrite Hl.
  - destruct (hd e) eqn:Eh; [apply Hh; by rewrite Hl|]. rewrite Hl. split; [by apply Hp|by eapply Hx].
Qed.
End spec.
Arguments silent {W A}.
