(* ===== verification/ProvisionSafety.v ===== *)
(** * Crash safety of the provisioning engine

    Specifications, over the log of [ProvisionLog], of every operation of [ProvisionEngine]:
    what a transaction leaves on the disk however it ends, and that recovery and uninstalling
    keep the log good whatever the executors, the files and the paths do. *)
From stdpp Require Import base list strings gmap pretty.
From Stdlib Require Import Ascii ZArith.
From S2P Require Import Prelude Steps PyData Provision ProvisionEngine ProvisionLog.

(** ** The transaction *)
Definition may_raise {W A} (Ex : exn → Prop) (m : PyM W A) : Prop :=
  ∀ w, match (m w).1 with Ok _ => True | Err e => Ex e end.

(** The exceptions of the interface that reach the callers of a transaction *)
Record EnvRaises {W E D} (Ex : exn → Prop) (env : ProvEnv W E D) : Prop := {
  rs_write : ∀ j, may_raise Ex (pe_write_journal env j);
  rs_publish : ∀ c l, may_raise Ex (pe_write_ownership env c l);
  rs_owned : ∀ c, may_raise Ex (pe_read_ownership env c);
  rs_roots : may_raise Ex (pa_verify_roots env);
  rs_target : ∀ t, may_raise Ex (pa_validate_target env t);
  rs_handle : ∀ t, may_raise Ex (pa_handle env t);
  rs_stat : ∀ h t, may_raise Ex (pa_stat env h t);
  rs_capture : ∀ h t, may_raise Ex (pa_capture_intermediates env h t);
  rs_capture_authority : ∀ h t, may_raise Ex (pa_capture_authority env h t);
  rs_capture_v2 : ∀ h t a b c i, may_raise Ex (pa_capture_authority_v2 env h t a b c i);
  rs_authority : ∀ h a t, may_raise Ex (pa_verify_authority env h a t);
  rs_v2 : ∀ h a t b c i, may_raise Ex (pa_verify_authority_v2 env h a t b c i);
  rs_intermediates : ∀ h l, may_raise Ex (pa_verify_intermediates env h l);
  rs_undo : ∀ ex r e, ex_reconstruct_undo_record env ex r = Err e → Ex e;
  rs_expected : ∀ ex p t e, ex_expected_ownership env ex p t = Err e → Ex e
}.

Lemma may_raise_any {W A} (m : PyM W A) : may_raise (fun _ => True) m.
Proof. intros w. by destruct (m w) as [[a|e] w']. Qed.

Lemma env_raises_any {W E D} (env : ProvEnv W E D) : EnvRaises (fun _ => True) env.
Proof. by constructor; intros; try apply may_raise_any. Qed.

Section transaction.
Context `{PyStr} {W E D : Type} (env : ProvEnv W E D) (Ex : exn → Prop).
Context (Hraise : EnvRaises Ex env) (Hex : ∀ k msg, k ≠ InvalidTransitionError → Ex (Exn k msg)).
Abbreviation spec := (@spec W Ex _).

Lemma silent_io {A} (m : PyM W A) : silent (io m).
Proof. intros s. unfold io. by destruct (m (ps_world s)). Qed.

Lemma raises_io {A} (m : PyM W A) : may_raise Ex m → raises_ex Ex (io m).
Proof. intros Hm s. specialize (Hm (ps_world s)). unfold io. by destruct (m (ps_world s)) as [[a|e] w]. Qed.

Lemma spec_io {A} P (m : PyM W A) : may_raise Ex m → (∀ l, P l → log_ok l) → spec P (io m) (fun _ => P).
Proof. intros Hm Hp. apply spec_silent; [apply silent_io|by apply raises_io|done]. Qed.

Lemma spec_now P : spec P (now env) (fun _ => P).
Proof. intros s Hs. unfold now. by destruct (pe_now env (ps_world s)). Qed.

(** The process may be told to stop *)
Definition interruptible : Prop := ∃ w, pe_signaled env w = true.

Lemma spec_signaled P : spec P (signaled env) (fun b l => P l ∧ (b = true → interruptible)).
Proof. intros s Hs. split; [done|]. by exists (ps_world s). Qed.

(** The wrappers around the executors never raise. *)
Lemma spec_guarded {A} P (m : PyM W A) (h : exn → A) :
  (∀ l, P l → log_ok l) → spec P (try_except (io m) any_exn (fun e => mret (h e))) (fun _ => P).
Proof.
  intros Hp. apply spec_try_silent; [apply silent_io|done| |done|done]. intros e. by apply spec_ret.
Qed.

(** An action of the executor, after its record reached the disk *)
Lemma spec_noted {A} P (e : event) (m : PyM W A) (h : exn → A) (Q : list event → Prop) :
  (∀ l, P l → log_ok l ∧ event_ok l e) → (∀ l, P l → Q (l ++ [e])) → (∀ l, Q l → log_ok l) →
  spec P (_ ← note e; try_except (io m) any_exn (fun e => mret (h e))) (fun _ => Q).
Proof.
  intros Hp Hq Hl. apply (spec_bind Ex P _ _ (fun _ => Q)).
  - intros s Hs. cbn. by apply Hq.
  - intros _. by apply spec_guarded.
Qed.

(** *** Writing the journal *)

(** The transaction's journal is [j], in the program and on the disk *)
Record Held (j : TransactionJournal) (l : list event) : Prop := {
  held_ok : log_ok l;
  held_disk : disk (tj_transaction_id j) l = [j]
}.

(** ... and its steps have different sequence numbers *)
Definition distinct (j : TransactionJournal) : Prop := NoDup (map sr_sequence (tj_steps j)).
Record Cur (j : TransactionJournal) (l : list event) : Prop := {
  cur_held : Held j l;
  cur_nodup : distinct j
}.

Lemma cur_ok j l : Cur j l → log_ok l.
Proof. intros Hc. apply Hc. Qed.

Lemma cur_disk j l : Cur j l → disk (tj_transaction_id j) l = [j].
Proof. intros Hc. apply Hc. Qed.

Lemma spec_write P j :
  (∀ l, P l → log_ok l ∧ event_ok l (EWrite j true)) → spec P (write_journal env j) (fun _ => Held j).
Proof.
  intros Hp s Hs. destruct (Hp _ Hs) as [Hl He]. unfold write_journal.
  pose proof (rs_write _ _ Hraise j (ps_world s)) as Hx. destruct (pe_write_journal env j (ps_world s)) as [[u|e] w]; cbn in *.
  - constructor; [by apply log_ok_snoc|]. rewrite disk_snoc; cbn; unfold written; by rewrite String.eqb_refl.
  - split; [|done]. apply log_ok_snoc. split; [done|]. exact He.
Qed.

Lemma step_follows_refl r : step_follows r r.
Proof. by constructor. Qed.

Lemma follows_write j j' l : Held j l → follows j j' → log_ok l ∧ event_ok l (EWrite j' true).
Proof.
  intros [Hl Hd] Hf. split; [done|]. right; right. intros j0. rewrite (fo_id _ _ Hf), Hd.
  intros ->%list_elem_of_singleton. done.
Qed.

Lemma follows_nodup j j' : follows j j' → distinct j → distinct j'.
Proof.
  intros Hf. unfold distinct. enough (map sr_sequence (tj_steps j') = map sr_sequence (tj_steps j)) as -> by done.
  induction (fo_steps _ _ Hf) as [|r r' l l' Hr _ IH]; [done|]. cbn. by rewrite IH, (sf_sequence _ _ Hr).
Qed.

Lemma with_state_follows st t u j j' : with_state st t u j = Ok j' → follows j j' ∧ tj_state j' = st ∧ tj_steps j' = tj_steps j.
Proof.
  unfold with_state, transition_transaction. case_bool_decide as Hst; [|done]. intros [= <-].
  split; [|done]. constructor; cbn; try done; [by right|]. induction (tj_steps j); constructor; eauto using step_follows_refl.
Qed.

Lemma with_state_legal st t u j : st ∈ TRANSACTION_TRANSITIONS (tj_state j) → ∃ j', with_state st t u j = Ok j'.
Proof. intros Hst. unfold with_state, transition_transaction. rewrite bool_decide_true by done. by eexists. Qed.

Lemma with_state_raises st t u j e : with_state st t u j = Err e → exn_class e = InvalidTransitionError.
Proof. unfold with_state, transition_transaction. case_bool_decide; [done|]. by intros [= <-]. Qed.

(** The journal after [advance] *)
Definition advanced (st : TransactionState) (j j' : TransactionJournal) : Prop :=
  follows j j' ∧ tj_state j' = st ∧ tj_steps j' = tj_steps j.

Lemma spec_advance_at t st u j :
  (∀ e, Ex e) ∨ st ∈ TRANSACTION_TRANSITIONS (tj_state j) →
  spec (Held j) (advance_at env t st u j) (fun j' l => Held j' l ∧ advanced st j j').
Proof.
  intros Hst. unfold advance_at. eapply spec_bind with (R := fun j' l => Held j l ∧ advanced st j j').
  - apply spec_lift; [intros j' l Hj' Hc; split; [done|by eapply with_state_follows]|].
    intros e l He Hc. split; [apply Hc|]. destruct Hst as [Hany|Hst]; [done|].
    destruct (with_state_legal st t u j Hst) as [j' Hj']. congruence.
  - intros j'. apply spec_pure with (F := advanced st j j'); [by intros l []|]. intros Hadv.
    eapply spec_bind with (R := fun _ => Held j').
    + apply spec_write. intros l [Hc _]; eapply follows_write; [done|apply Hadv].
    + intros _. by apply spec_ret.
Qed.

(** What holds of [Held] holds of [Cur] *)
Lemma spec_cur (m : TransactionJournal → PM TransactionJournal) st j :
  spec (Held j) (m j) (fun j' l => Held j' l ∧ advanced st j j') →
  spec (Cur j) (m j) (fun j' l => Cur j' l ∧ advanced st j j').
Proof.
  intros Hm. apply spec_pure with (F := distinct j); [by intros l []|]. intros Hn.
  eapply spec_conseq; [exact Hm|by intros l []|]. intros j' l [Hc Ha]. split; [|done].
  constructor; [done|]. by eapply follows_nodup; [apply Ha|].
Qed.

Lemma spec_advance_held st u j :
  (∀ e, Ex e) ∨ st ∈ TRANSACTION_TRANSITIONS (tj_state j) →
  spec (Held j) (advance env st u j) (fun j' l => Held j' l ∧ advanced st j j').
Proof. intros Hst. unfold advance. eapply spec_bind; [apply spec_now|]. intros t. by apply spec_advance_at. Qed.

Lemma spec_advance st u j :
  (∀ e, Ex e) ∨ st ∈ TRANSACTION_TRANSITIONS (tj_state j) →
  spec (Cur j) (advance env st u j) (fun j' l => Cur j' l ∧ advanced st j j').
Proof. intros Hst. by apply (spec_cur (advance env st u)), spec_advance_held. Qed.

(** [r] is the record that the journal has for its sequence number *)
Definition at_step (j : TransactionJournal) (r : StepRecord) : Prop := find_step (sr_sequence r) j = Some r.

Lemma at_step_elem j r : at_step j r → r ∈ tj_steps j.
Proof. intros Hr. by apply List_find_elem_of in Hr as [? _]. Qed.

Lemma find_step_sequence z j r : find_step z j = Some r → sr_sequence r = z ∧ at_step j r.
Proof.
  intros Hf. pose proof Hf as Hs. apply List_find_elem_of in Hs as [_ Hz%Z.eqb_eq]. split; [done|]. unfold at_step. by rewrite Hz.
Qed.

Lemma find_step_nodup j r : distinct j → r ∈ tj_steps j → at_step j r.
Proof.
  unfold distinct, at_step, find_step. induction (tj_steps j) as [|x l IH]; intros Hn Hr; [by apply elem_of_nil in Hr|].
  cbn in *. apply NoDup_cons in Hn as [Hx Hn]. apply elem_of_cons in Hr as [->|Hr]; [by rewrite Z.eqb_refl|].
  destruct (Z.eqb_spec (sr_sequence x) (sr_sequence r)) as [Heq|]; [|by apply IH].
  destruct Hx. rewrite Heq. by apply list_elem_of_fmap_2.
Qed.

(** The journal in which a record moved to [st], with the record *)
Definition moved (st : StepState) (j : TransactionJournal) (r : StepRecord) (j' : TransactionJournal) (r' : StepRecord) : Prop :=
  j' = with_step r' j ∧ step_follows r r' ∧ sr_state r' = st ∧ at_step j' r'.

Lemma with_step_at j r : r ∈ tj_steps (with_step r j) → distinct (with_step r j) → at_step (with_step r j) r.
Proof. intros Hr Hn. by apply find_step_nodup. Qed.

Lemma with_step_elem j r r' : r ∈ tj_steps j → sr_sequence r' = sr_sequence r → r' ∈ tj_steps (with_step r' j).
Proof.
  intros Hr Hs. cbn. apply list_elem_of_fmap. exists r. split; [|done]. by rewrite Hs, Z.eqb_refl.
Qed.

Lemma with_step_sequences j r : map sr_sequence (tj_steps (with_step r j)) = map sr_sequence (tj_steps j).
Proof.
  cbn. induction (tj_steps j) as [|x l IH]; [done|]. cbn. rewrite IH. f_equal.
  by destruct (Z.eqb_spec (sr_sequence x) (sr_sequence r)).
Qed.

Lemma with_step_follows j r r' :
  distinct j → at_step j r → step_follows r r' → follows j (with_step r' j).
Proof.
  intros Hn Hr Hf. constructor; cbn; try done; [by left|].
  assert (Hl : ∀ x, x ∈ tj_steps j → sr_sequence x = sr_sequence r' → x = r).
  { intros x Hx Hs. apply (find_step_nodup j) in Hx; [|done]. unfold at_step in *.
    rewrite Hs, (sf_sequence _ _ Hf) in Hx. congruence. }
  clear Hn Hr. induction (tj_steps j) as [|x l IH]; [constructor|]. constructor; [|apply IH; intros y Hy; apply Hl; by right].
  destruct (Z.eqb_spec (sr_sequence x) (sr_sequence r')) as [Heq|]; [|apply step_follows_refl].
  rewrite (Hl x); [done|by left|done].
Qed.

Lemma StepRecord_with_state_follows st u r r' :
  StepRecord_with_state st u r = Ok r' → step_follows r r' ∧ sr_state r' = st.
Proof.
  unfold StepRecord_with_state, transition_step. case_bool_decide as Hst; [|done]. intros [= <-].
  split; [|done]. constructor; cbn; try done. by apply rtc_once.
Qed.

Lemma StepRecord_with_state_legal st u r : st ∈ STEP_TRANSITIONS (sr_state r) → ∃ r', StepRecord_with_state st u r = Ok r'.
Proof. intros Hst. unfold StepRecord_with_state, transition_step. rewrite bool_decide_true by done. by eexists. Qed.

(** Writing the journal with a new version of the record [r] *)
Lemma spec_write_step j r r' :
  at_step j r → step_follows r r' → spec (Cur j) (write_journal env (with_step r' j)) (fun _ l => Cur (with_step r' j) l ∧ moved (sr_state r') j r (with_step r' j) r').
Proof.
  intros Hr Hf. apply spec_pure with (F := distinct j); [by intros l []|]. intros Hn.
  assert (Hn' : distinct (with_step r' j)) by (unfold distinct; by rewrite with_step_sequences).
  eapply spec_conseq; [apply (spec_write (Cur j))|done|].
  - intros l Hc. by eapply follows_write, with_step_follows; [apply Hc|..].
  - intros ? l Hc. split; [done|]. split; [done|]. split; [done|]. split; [done|].
    apply with_step_at; [|done]. eapply with_step_elem; [by apply at_step_elem|apply Hf].
Qed.

Lemma spec_advance_step_any st u j r :
  at_step j r → (∀ e, Ex e) ∨ st ∈ STEP_TRANSITIONS (sr_state r) →
  spec (Cur j) (advance_step env st u j r) (fun '(j', r') l => Cur j' l ∧ moved st j r j' r').
Proof.
  intros Hr Hst. unfold advance_step.
  eapply spec_bind with (R := fun x l => Cur j l ∧ step_follows r x ∧ sr_state x = st).
  { apply spec_lift; [intros x l Hx Hc; split; [done|by eapply StepRecord_with_state_follows]|].
    intros e l He Hc. split; [by apply cur_ok in Hc|]. destruct Hst as [Hany|Hst]; [done|].
    destruct (StepRecord_with_state_legal st u r Hst) as [r' Hr']. congruence. }
  intros r'. apply spec_pure with (F := step_follows r r' ∧ sr_state r' = st); [by intros l []|]. intros [Hf Hs].
  eapply spec_bind; [eapply spec_conseq; [by apply spec_write_step|by intros l []|done]|].
  intros ?. apply spec_ret. intros l [Hc Hm]. rewrite Hs in Hm. done.
Qed.

Lemma spec_advance_step st u j r :
  at_step j r → st ∈ STEP_TRANSITIONS (sr_state r) →
  spec (Cur j) (advance_step env st u j r) (fun '(j', r') l => Cur j' l ∧ moved st j r j' r').
Proof. intros Hr Hst. apply spec_advance_step_any; auto. Qed.

(** *** Applying *)

(** Only the step [z] may have changed *)
Definition only_step (z : Z) (j j' : TransactionJournal) : Prop :=
  tj_state j' = tj_state j ∧ tj_transaction_id j' = tj_transaction_id j ∧ tj_capability_id j' = tj_capability_id j
  ∧ map sr_sequence (tj_steps j') = map sr_sequence (tj_steps j)
  ∧ ∀ r, sr_sequence r ≠ z → r ∈ tj_steps j' → r ∈ tj_steps j.

Lemma only_step_refl z j : only_step z j j.
Proof. done. Qed.

Lemma only_step_trans z j1 j2 j3 : only_step z j1 j2 → only_step z j2 j3 → only_step z j1 j3.
Proof. intros (A1 & B1 & C1 & D1 & E1) (A2 & B2 & C2 & D2 & E2). repeat split; try congruence. eauto. Qed.

Lemma moved_only_step st j r j' r' : moved st j r j' r' → only_step (sr_sequence r) j j' ∧ sr_sequence r' = sr_sequence r.
Proof.
  intros (-> & Hf & _ & _). pose proof (sf_sequence _ _ Hf) as Hs. split; [|done].
  repeat split; [apply with_step_sequences|]. intros x Hx Hin. cbn in Hin. apply list_elem_of_fmap in Hin as (y & Hy & Hin).
  destruct (Z.eqb_spec (sr_sequence y) (sr_sequence r')) as [Heq|]; [subst x; congruence|by subst x].
Qed.

(** The step [z] of the journal is in the state [st] *)
Definition step_is (z : Z) (st : StepState → Prop) (j : TransactionJournal) : Prop :=
  ∃ r, find_step z j = Some r ∧ st (sr_state r).

Lemma moved_step_is st (F : StepState → Prop) j r j' r' : moved st j r j' r' → F st → step_is (sr_sequence r) F j'.
Proof.
  intros Hm Hst. destruct (moved_only_step _ _ _ _ _ Hm) as [_ Hs]. destruct Hm as (-> & _ & He & Hat).
  exists r'. split; [by rewrite <- Hs|congruence].
Qed.

Definition forward_state (st : TransactionState) : Prop := st = T_APPLYING ∨ st = T_VERIFYING.

Definition failing (st : StepState) : Prop :=
  st = S_APPLY_FAILED ∨ st = S_VERIFY_FAILED ∨ st = S_APPLIED ∧ interruptible.

(** The transaction is left to recovery *)
Definition given_up (j j' : TransactionJournal) : Prop :=
  tj_state j' = T_RECOVERY_REQUIRED ∧ tj_transaction_id j' = tj_transaction_id j.

(** How one step of the plan leaves the loop *)
Definition exit_ok (z : Z) (j : TransactionJournal) (x : loop_exit) (l : list event) : Prop :=
  let '(j', ok, durability_unknown) := x in
  Cur j' l ∧ ok = false ∧
  if durability_unknown then given_up j j'
  else only_step z j j' ∧
       (step_is z failing j' ∨ interruptible ∧ j' = j ∧ step_is z (fun st => st ≠ S_PLANNED) j).

Lemma forward_recovery st : forward_state st → T_RECOVERY_REQUIRED ∈ TRANSACTION_TRANSITIONS st.
Proof. by intros [-> | ->]; cbn; set_solver. Qed.

Lemma spec_require_recovery u j :
  forward_state (tj_state j) → spec (Cur j) (advance env T_RECOVERY_REQUIRED u j) (fun j' l => Cur j' l ∧ given_up j j').
Proof.
  intros Hst. eapply spec_conseq; [apply spec_advance; right; by apply forward_recovery|done|].
  intros j' l (Hc & Hf & Hs & _). split; [done|]. split; [done|apply Hf].
Qed.

Lemma spec_inspect P ex r : (∀ l, P l → log_ok l) → spec P (safe_inspect env ex r) (fun _ => P).
Proof. apply spec_guarded. Qed.

Lemma recorded_at j r l : Cur j l → at_step j r → recorded r l.
Proof.
  intros Hc Hr. exists (tj_transaction_id j). rewrite (cur_disk _ _ Hc). split; [done|].
  intros j' ->%list_elem_of_singleton. by apply at_step_elem.
Qed.

Lemma cur_note j l e : Cur j l → event_ok l e → (∀ k, disk_step (tj_transaction_id j) k e = k) → Cur j (l ++ [e]).
Proof.
  intros [[Hl Hd] Hn] He Hk. constructor; [|done]. constructor; [by apply log_ok_snoc|by rewrite disk_snoc, Hk].
Qed.

Lemma spec_apply j ex r :
  at_step j r → sr_state r = S_APPLYING → spec (Cur j) (safe_apply env ex r) (fun _ => Cur j).
Proof.
  intros Hr Hs. unfold safe_apply. apply spec_noted.
  - intros l Hc. split; [apply Hc|]. split; [done|]. by eapply recorded_at.
  - intros l Hc. apply cur_note; [done| |done]. split; [done|]. by eapply recorded_at.
  - intros l Hc. apply Hc.
Qed.

(** What a step offers to the rest of the loop *)
Definition obtained_ok (z : Z) (j : TransactionJournal) (o : (TransactionJournal * StepRecord * ExecutionResult) + loop_exit)
    (l : list event) : Prop :=
  match o with
  | inl (j', r', result) =>
      Cur j' l ∧ only_step z j j' ∧ at_step j' r' ∧ sr_sequence r' = z
      ∧ (sr_state r' = S_APPLYING
         ∨ er_status result = "applied" ∧ (sr_state r' = S_APPLIED ∨ sr_state r' = S_VERIFYING))
  | inr x => exit_ok z j x l
  end.

Lemma spec_raise {A} P k msg (Q : A → list event → Prop) :
  k ≠ InvalidTransitionError → (∀ l, P l → log_ok l) → spec P (raiseM k msg) Q.
Proof. intros Hk Hp s Hs. cbn. split; [by apply Hp|by apply Hex]. Qed.

Lemma spec_attempt_lift {A} P (hd : exn → bool) (r : res A) (Q : A + exn → list event → Prop) :
  (∀ l, P l → log_ok l) → (∀ e, r = Err e → hd e = false → Ex e) →
  (∀ a l, r = Ok a → P l → Q (inl a) l) → (∀ e l, r = Err e → P l → Q (inr e) l) →
  spec P (attempt hd (liftR r)) Q.
Proof.
  intros Hp Hx Ho He s Hs. unfold attempt, liftR. destruct r as [a|e]; [by apply Ho|].
  destruct (hd e) eqn:Eh; [by apply He|]. split; [by apply Hp|by apply Hx].
Qed.

Lemma authoritative_undo_raises ex r e : authoritative_undo_record env ex r = Err e → Ex e.
Proof.
  unfold authoritative_undo_record. destruct (ex_reconstruct_undo_record env ex r) as [u|x] eqn:Er; cbn.
  - destruct (sr_undo_record r); [|done]. destruct (negb _); [|done]. intros [= <-]. by apply Hex.
  - intros [= <-]. by eapply rs_undo.
Qed.

Lemma obtained_here j r result l :
  Cur j l → at_step j r →
  (sr_state r = S_APPLYING ∨ er_status result = "applied" ∧ (sr_state r = S_APPLIED ∨ sr_state r = S_VERIFYING)) →
  obtained_ok (sr_sequence r) j (inl (j, r, result)) l.
Proof. intros Hc Hr Hs. cbn. pose proof (only_step_refl (sr_sequence r) j). tauto. Qed.

Lemma spec_obtain_result ex j r :
  at_step j r → forward_state (tj_state j) → sr_state r ≠ S_VERIFIED →
  spec (Cur j) (obtain_result env ex j r) (obtained_ok (sr_sequence r) j).
Proof.
  intros Hr Hst Hnv. unfold obtain_result.
  assert (Hl : ∀ l, Cur j l → log_ok l) by (apply cur_ok).
  assert (Hdone : ∀ undo, (sr_state r = S_APPLYING ∨ sr_state r = S_APPLIED ∨ sr_state r = S_VERIFYING) →
    spec (Cur j) (mret (inl (j, r, applied_result undo))) (obtained_ok (sr_sequence r) j)).
  { intros undo Hs. apply spec_ret. intros l Hc. apply obtained_here; [done..|].
    destruct Hs as [Hs|Hs]; [by left|]. right. split; [done|tauto]. }
  destruct (sr_state r) eqn:Es; try (apply spec_raise; done).
  - eapply spec_bind; [by apply spec_inspect|]. intros before. eapply spec_bind; [apply spec_now|]. intros t.
    eapply spec_bind; [apply spec_advance_step; [done|rewrite Es; cbn; set_solver]|]. intros [j' r'].
    apply spec_pure with (F := moved S_APPLYING j r j' r'); [by intros l []|]. intros Hm.
    destruct (moved_only_step _ _ _ _ _ Hm) as [Ho Hseq]. destruct Hm as (_ & _ & Hs' & Hat).
    eapply spec_bind with (R := fun _ => Cur j').
    { eapply spec_conseq; [by apply spec_apply|by intros l []|done]. }
    intros result. apply spec_ret. intros l Hc. cbn. tauto.
  - eapply spec_bind; [by apply spec_inspect|]. intros observed.
    do 3 (destruct (truthy _); [by apply spec_raise|]).
    destruct (truthy _ && is_true _).
    { eapply spec_bind; [apply spec_lift; [intros u l _ Hc; exact Hc|intros e l He Hc; split; [by apply Hl|by eapply rs_undo]]|].
      intros undo. apply Hdone. tauto. }
    destruct (negb _); [|by apply spec_raise]. destruct (negb _); [by apply spec_raise|].
    eapply spec_bind; [by apply spec_apply|]. intros result. apply spec_ret. intros l Hc. apply obtained_here; [done..|tauto].
  - eapply spec_bind with (R := fun _ => Cur j); [apply spec_attempt_lift; [done| |done|done]|].
    { intros e He _. by eapply authoritative_undo_raises. }
    intros [undo|e]; [apply Hdone; tauto|].
    eapply spec_bind; [by apply spec_require_recovery|].
    intros j'. apply spec_ret. by intros l [Hc [? ?]].
  - eapply spec_bind with (R := fun _ => Cur j); [apply spec_attempt_lift; [done| |done|done]|].
    { intros e He _. by eapply authoritative_undo_raises. }
    intros [undo|e]; [apply Hdone; tauto|].
    eapply spec_bind; [by apply spec_require_recovery|].
    intros j'. apply spec_ret. by intros l [Hc [? ?]].
Qed.

Lemma spec_apply_failed ex j0 j r result :
  at_step j r → sr_state r = S_APPLYING → forward_state (tj_state j) → only_step (sr_sequence r) j0 j →
  spec (Cur j) (apply_failed env ex j r result) (exit_ok (sr_sequence r) j0).
Proof.
  intros Hr Hs Hst Ho. unfold apply_failed.
  assert (Hl : ∀ l, Cur j l → log_ok l) by (apply cur_ok).
  assert (Hrec : ∀ u, spec (Cur j) (journal ← advance env T_RECOVERY_REQUIRED u j; mret (journal, false, true)) (exit_ok (sr_sequence r) j0)).
  { intros u. eapply spec_bind; [by apply spec_require_recovery|].
    intros j'. apply spec_ret. intros l [Hc [? ?]]. split; [done|]. split; [done|]. split; [done|]. destruct Ho as (_ & <- & _); done. }
  case_bool_decide; [apply Hrec|]. eapply spec_bind; [by apply spec_inspect|]. intros observed.
  destruct (is_false _ && negb _); [|apply Hrec]. eapply spec_bind; [apply spec_now|]. intros t.
  eapply spec_bind; [apply spec_advance_step; [done|rewrite Hs; cbn; set_solver]|]. intros [j' r'].
  apply spec_ret. intros l [Hc Hm]. destruct (moved_only_step _ _ _ _ _ Hm) as [Ho' _].
  split; [done|]. split; [done|]. split; [by eapply only_step_trans|]. left. eapply moved_step_is; [done|]. unfold failing. tauto.
Qed.

(** After a step of the plan *)
Definition after_ok (z : Z) (j : TransactionJournal) (a : TransactionJournal + loop_exit) (l : list event) : Prop :=
  match a with
  | inl j' => Cur j' l ∧ only_step z j j' ∧ step_is z (fun st => st = S_VERIFIED) j'
  | inr x => exit_ok z j x l
  end.

Lemma spec_verify_applied ex j0 j r result :
  at_step j r → sr_state r = S_VERIFYING → only_step (sr_sequence r) j0 j →
  spec (Cur j) (verify_applied env ex j r result) (after_ok (sr_sequence r) j0).
Proof.
  intros Hr Hs Ho. unfold verify_applied. eapply spec_bind; [apply spec_guarded, cur_ok|]. intros v.
  eapply spec_bind; [apply spec_now|]. intros t. destruct (negb _).
  - eapply spec_bind; [apply spec_advance_step; [done|rewrite Hs; cbn; set_solver]|]. intros [j' r'].
    apply spec_ret. intros l [Hc Hm]. destruct (moved_only_step _ _ _ _ _ Hm) as [Ho' _].
    split; [done|]. split; [done|]. split; [by eapply only_step_trans|]. left. eapply moved_step_is; [done|]. unfold failing. tauto.
  - eapply spec_bind; [apply spec_advance_step; [done|rewrite Hs; cbn; set_solver]|]. intros [j' r'].
    apply spec_ret. intros l [Hc Hm]. destruct (moved_only_step _ _ _ _ _ Hm) as [Ho' _].
    split; [done|]. split; [by eapply only_step_trans|]. by eapply moved_step_is.
Qed.

Lemma spec_journal_step P z j :
  (∀ l, P l → log_ok l) → spec P (liftR (journal_step z j)) (fun r l => P l ∧ find_step z j = Some r).
Proof.
  intros Hp. unfold journal_step. apply spec_lift; destruct (find_step z j); try done.
  - by intros r l [= <-].
  - intros e l [= <-] Hl. split; [by apply Hp|by apply Hex].
Qed.

(** From a record that was applied to its verification *)
Lemma spec_to_verifying ex j0 j r result :
  at_step j r → sr_state r = S_APPLIED → only_step (sr_sequence r) j0 j →
  spec (Cur j) ('(j, r) ← advance_step env S_VERIFYING no_updates j r; verify_applied env ex j r result)
    (after_ok (sr_sequence r) j0).
Proof.
  intros Hr Hs Ho. eapply spec_bind; [apply spec_advance_step; [done|rewrite Hs; cbn; set_solver]|]. intros [j' r'].
  apply spec_pure with (F := moved S_VERIFYING j r j' r'); [by intros l []|]. intros Hm.
  destruct (moved_only_step _ _ _ _ _ Hm) as [Ho' Hq]. destruct Hm as (_ & _ & Hs' & Hat). rewrite <- Hq.
  eapply spec_conseq; [apply (spec_verify_applied ex j0); [done..|]|by intros l []|done].
  rewrite Hq. by eapply only_step_trans.
Qed.

Lemma spec_apply_one ex j z :
  forward_state (tj_state j) → spec (Cur j) (apply_one env ex j z) (after_ok z j).
Proof.
  intros Hst. unfold apply_one. assert (Hl : ∀ l, Cur j l → log_ok l) by (apply cur_ok).
  eapply spec_bind; [by apply spec_journal_step|]. intros r.
  apply spec_pure with (F := find_step z j = Some r); [by intros l []|]. intros Hf.
  destruct (find_step_sequence _ _ _ Hf) as [<- Hr]. eapply spec_conseq with (P' := Cur j); [|by intros l []|done].
  case_bool_decide as Hv.
  { apply spec_ret. intros l Hc. split; [done|]. split; [apply only_step_refl|]. by exists r. }
  eapply spec_bind; [apply spec_signaled|]. intros interrupted.
  apply spec_pure with (F := interrupted = true → interruptible); [by intros l []|]. intros Hint.
  eapply spec_conseq with (P' := Cur j); [|by intros l []|done]. destruct interrupted; cbn [andb]; [specialize (Hint eq_refl)|clear Hint].
  - case_bool_decide as Hp.
    + eapply spec_bind; [apply spec_now|]. intros t1.
      destruct (StepRecord_with_state_legal S_APPLYING (started t1) r) as [r1 Hr1]; [rewrite Hp; cbn; set_solver|].
      destruct (StepRecord_with_state_follows _ _ _ _ Hr1) as [Hf1 Hs1]. rewrite Hr1.
      eapply spec_bind with (R := fun x l => Cur j l ∧ x = r1); [by apply spec_lift; [intros ? ? [= ->]|]|].
      intros x. apply spec_pure with (F := x = r1); [by intros l []|]. intros ->.
      eapply spec_bind; [apply spec_now|]. intros t2. unfold advance_step.
      destruct (StepRecord_with_state_legal S_APPLY_FAILED (failed t2 (Some "interrupted") (Some "interrupted before this step began")) r1)
        as [r2 Hr2]; [rewrite Hs1; cbn; set_solver|].
      destruct (StepRecord_with_state_follows _ _ _ _ Hr2) as [Hf2 Hs2]. rewrite Hr2.
      assert (Hf12 : step_follows r r2).
      { destruct Hf1, Hf2. constructor; try congruence. by etrans. }
      eapply spec_bind with (R := fun x l => ∃ j', x = (j', r2) ∧ Cur j' l ∧ moved S_APPLY_FAILED j r j' r2).
      { eapply spec_bind with (R := fun x l => Cur j l ∧ x = r2); [by apply spec_lift; [intros ? l [= ->] []|]|].
        intros x. apply spec_pure with (F := x = r2); [by intros l []|]. intros ->.
        eapply spec_bind; [eapply spec_conseq; [by apply (spec_write_step j r r2)|by intros l []|done]|].
        intros ?. apply spec_ret. intros l [Hc Hm]. rewrite Hs2 in Hm. eauto. }
      intros [j' r']. apply spec_ret. intros l (j1 & [= -> ->] & Hc & Hm). destruct (moved_only_step _ _ _ _ _ Hm) as [Ho' _].
      split; [done|]. split; [done|]. split; [done|]. left. eapply moved_step_is; [done|]. unfold failing. tauto.
    + apply spec_ret. intros l Hc. split; [done|]. split; [done|]. split; [apply only_step_refl|]. right. split; [done|]. split; [done|]. by exists r.
  - eapply spec_bind; [by apply spec_obtain_result|]. intros [[[j1 r1] result]|x]; [|by apply spec_ret].
    eapply spec_pure; [intros l (_ & F); exact F|]. intros (Ho & Hr1 & Hseq & Hs1).
    assert (Hst1 : forward_state (tj_state j1)) by (destruct Ho as (-> & _); done).
    eapply spec_conseq with (P' := Cur j1); [|by intros l []|done]. rewrite <- Hseq in *.
    destruct (negb (String.eqb (er_status result) "applied")) eqn:Ea.
    + assert (Hap : sr_state r1 = S_APPLYING).
      { destruct Hs1 as [|[Hok _]]; [done|]. by rewrite Hok in Ea. }
      eapply spec_bind; [by apply (spec_apply_failed ex j)|]. intros x. by apply spec_ret.
    + destruct Hs1 as [Hs|[_ [Hs|Hs]]]; rewrite Hs.
      * eapply spec_bind; [apply spec_now|]. intros t.
        eapply spec_bind; [apply spec_advance_step; [done|rewrite Hs; cbn; set_solver]|]. intros [j2 r2].
        apply spec_pure with (F := moved S_APPLIED j1 r1 j2 r2); [by intros l []|]. intros Hm.
        destruct (moved_only_step _ _ _ _ _ Hm) as [Ho2 Hq2]. pose proof Hm as (_ & _ & Hs2 & Hat2).
        eapply spec_conseq with (P' := Cur j2); [|by intros l []|done].
        eapply spec_bind; [apply spec_signaled|]. intros []; [|eapply spec_conseq with (P' := Cur j2); [|by intros l []|done]].
        -- apply spec_ret. intros l [Hc Hint]. specialize (Hint eq_refl). split; [done|]. split; [done|]. split; [by eapply only_step_trans|].
           left. eapply moved_step_is; [done|]. unfold failing. tauto.
        -- rewrite <- Hq2. apply spec_to_verifying; [done..|]. rewrite Hq2. by eapply only_step_trans.
      * by apply spec_to_verifying.
      * by apply spec_verify_applied.
Qed.


(** Only the steps [zs] may have changed *)
Definition only_steps (zs : list Z) (j j' : TransactionJournal) : Prop :=
  tj_state j' = tj_state j ∧ tj_transaction_id j' = tj_transaction_id j ∧ tj_capability_id j' = tj_capability_id j
  ∧ map sr_sequence (tj_steps j') = map sr_sequence (tj_steps j)
  ∧ ∀ r, (sr_sequence r ∉ zs) → r ∈ tj_steps j' → r ∈ tj_steps j.

Lemma only_steps_cons z zs j1 j2 j3 : only_step z j1 j2 → only_steps zs j2 j3 → only_steps (z :: zs) j1 j3.
Proof.
  intros (A1 & B1 & C1 & D1 & E1) (A2 & B2 & C2 & D2 & E2). repeat split; try congruence.
  intros r Hr Hin. rewrite not_elem_of_cons in Hr. apply E1; [tauto|]. apply E2; tauto.
Qed.

Lemma only_step_steps z j j' : only_step z j j' → only_steps [z] j j'.
Proof. intros (A & B & C & F & G). repeat split; try done. intros r Hr. apply G. rewrite list_elem_of_singleton in Hr. done. Qed.

Lemma find_step_elem z j r : find_step z j = Some r → r ∈ tj_steps j ∧ sr_sequence r = z.
Proof. intros Hf. destruct (find_step_sequence _ _ _ Hf) as [? Hr]. by split; [apply at_step_elem|]. Qed.

(** A step outside [zs] is still in its state *)
Lemma only_steps_step_is zs z F j j' :
  distinct j → only_steps zs j j' → (z ∉ zs) → step_is z F j → step_is z F j'.
Proof.
  intros Hn (_ & _ & _ & Hs & Hu) Hz (r & Hf & Hst). destruct (find_step_elem _ _ _ Hf) as [Hr Hq].
  assert (Hin : z ∈ map sr_sequence (tj_steps j')).
  { rewrite Hs, <- Hq. by apply list_elem_of_fmap_2. }
  apply list_elem_of_fmap in Hin as (r' & Hz' & Hr').
  assert (Hold : r' ∈ tj_steps j) by (apply Hu; [by rewrite <- Hz'|done]).
  pose proof (find_step_nodup j r Hn Hr) as H1. pose proof (find_step_nodup j r' Hn Hold) as H2. unfold at_step in *.
  assert (r' = r) as -> by (rewrite <- Hz' in H2; rewrite Hq in H1; congruence).
  exists r. split; [|done]. rewrite <- Hq. apply find_step_nodup; [unfold distinct; by rewrite Hs|done].
Qed.

(** The loop stopped: the steps before are verified; one failed, or found the process interrupted
    before it could go on *)
Definition stopped (zs : list Z) (j j' : TransactionJournal) : Prop :=
  ∃ done z rest, zs = done ++ z :: rest ∧ only_steps (done ++ [z]) j j'
    ∧ (∀ z, z ∈ done → step_is z (fun st => st = S_VERIFIED) j')
    ∧ (step_is z failing j' ∨ interruptible ∧ ∃ r, find_step z j' = Some r ∧ sr_state r ≠ S_PLANNED ∧ r ∈ tj_steps j).

(** How the loop ends *)
Definition loop_ok (zs : list Z) (j : TransactionJournal) (x : loop_exit) (l : list event) : Prop :=
  let '(j', ok, durability_unknown) := x in
  Cur j' l ∧
  if durability_unknown then ok = false ∧ given_up j j'
  else if ok then only_steps zs j j' ∧ ∀ z, z ∈ zs → step_is z (fun st => st = S_VERIFIED) j'
  else stopped zs j j'.

Lemma spec_apply_loop ex zs j :
  NoDup zs → forward_state (tj_state j) → spec (Cur j) (run_apply_loop env ex j zs) (loop_ok zs j).
Proof.
  revert j. induction zs as [|z zs IH]; intros j Hn Hst; cbn [run_apply_loop].
  { apply spec_ret. intros l Hc. split; [done|]. split; [done|]. intros z Hz. by apply elem_of_nil in Hz. }
  apply NoDup_cons in Hn as [Hz Hn]. eapply spec_bind; [by apply spec_apply_one|]. intros [j1|[[j1 ok] dur]].
  - apply spec_pure with (F := only_step z j j1 ∧ step_is z (fun st => st = S_VERIFIED) j1 ∧ distinct j1);
      [by intros l (Hc & ? & ?); destruct Hc|].
    intros (Ho & Hv & Hn1). assert (Hst1 : forward_state (tj_state j1)) by (destruct Ho as (-> & _); done).
    eapply spec_conseq; [apply (IH j1); done|by intros l []|].
    intros [[j2 ok] dur] l [Hc Hq]. split; [done|]. destruct dur.
    { destruct Hq as (-> & Hs & Hi). destruct Ho as (_ & Ho & _). split; [done|]. split; congruence. }
    destruct ok.
    + destruct Hq as [Hu Hq]. split; [by eapply only_steps_cons|]. intros x [->|Hx]%elem_of_cons; [|by apply Hq].
      by eapply only_steps_step_is.
    + destruct Hq as (done & y & rest & -> & Hu & Hd & Hy). rewrite not_elem_of_app, not_elem_of_cons in Hz.
      exists (z :: done), y, rest. split; [done|]. split; [by eapply only_steps_cons|]. split.
      * intros x [->|Hx]%elem_of_cons; [|by apply Hd]. eapply only_steps_step_is; [done|done| |done]. set_solver.
      * destruct Hy as [Hy|(Hi & r & Hf & Hs & Hr)]; [by left|]. right. split; [done|]. exists r. split; [done|]. split; [done|].
        apply Ho; [|done]. destruct (find_step_elem _ _ _ Hf) as [_ ->]. intros ->. tauto.
  - apply spec_ret. intros l (Hc & -> & Hd). split; [done|]. destruct dur; [done|]. destruct Hd as [Ho Hd].
    exists [], z, zs. split; [done|]. split; [by apply only_step_steps|].
    split; [intros x Hx; by apply elem_of_nil in Hx|].
    destruct Hd as [Hd|(Hi & -> & (r & Hf & Hs))]; [by left|]. right. split; [done|]. exists r. split; [done|]. split; [done|]. by apply find_step_elem in Hf as [? _].
Qed.

(** *** Rolling back *)

(** From which states a step can be undone without an illegal transition *)
Definition rollbackable (st : StepState) : Prop := st ≠ S_APPLIED ∧ st ≠ S_VERIFYING.
Definition settled (st : StepState) : Prop := (st ∉ UNDOABLE_STEP_STATES) ∧ st ≠ S_UNDOING.

(** The steps [zs] were rolled back: what changed was undone, or is among the residuals *)
Record rolled (zs : list Z) (j : TransactionJournal) (residuals : list string) (j' : TransactionJournal)
    (residuals' : list string) : Prop := {
  ro_only : only_steps zs j j';
  ro_settled : ∀ r, r ∈ tj_steps j' → sr_sequence r ∈ zs → settled (sr_state r);
  ro_changed : ∀ r, r ∈ tj_steps j' →
    r ∈ tj_steps j ∨ sr_state r = S_UNDONE ∨ sr_state r = S_UNDO_FAILED ∧ sr_step_id r ∈ residuals';
  ro_residuals : ∀ id, id ∈ residuals' →
    id ∈ residuals ∨ ∃ r, r ∈ tj_steps j' ∧ sr_state r = S_UNDO_FAILED ∧ sr_step_id r = id;
  ro_stays : ∀ r, r ∈ tj_steps j → settled (sr_state r) → r ∈ tj_steps j';
  ro_kept : residuals ⊆ residuals'
}.

Definition rolled_post (zs : list Z) (j : TransactionJournal) (residuals : list string)
    (x : TransactionJournal * list string) (l : list event) : Prop :=
  Cur x.1 l ∧ rolled zs j residuals x.1 x.2.

Lemma moved_elem st j r j' r' x :
  distinct j → at_step j r → moved st j r j' r' → x ∈ tj_steps j' → x = r' ∨ x ∈ tj_steps j ∧ sr_sequence x ≠ sr_sequence r.
Proof.
  intros Hn Hr Hm Hx. destruct (moved_only_step _ _ _ _ _ Hm) as [(_ & _ & _ & Hs & Ho) Hq].
  destruct (decide (sr_sequence x = sr_sequence r)) as [He|He]; [|right; split; [by apply Ho|done]]. left.
  destruct Hm as (_ & _ & _ & Hat). apply find_step_nodup in Hx; [|unfold distinct; by rewrite Hs].
  unfold at_step in *. rewrite He, <- Hq in Hx. congruence.
Qed.

Lemma moved_stays st j r j' r' x :
  distinct j → at_step j r → moved st j r j' r' → x ∈ tj_steps j → x ≠ r → x ∈ tj_steps j'.
Proof.
  intros Hn Hr Hm Hx Hne. destruct (moved_only_step _ _ _ _ _ Hm) as [_ Hq]. destruct Hm as (-> & _).
  cbn. apply list_elem_of_fmap. exists x. split; [|done]. destruct (Z.eqb_spec (sr_sequence x) (sr_sequence r')) as [He|]; [|done].
  destruct Hne. apply find_step_nodup in Hx; [|done]. unfold at_step in Hx, Hr. rewrite He, Hq in Hx. congruence.
Qed.

(** A step that ended, as undone or as a residual *)
Lemma moved_rolled st j r j' r' residuals residuals' :
  distinct j → at_step j r → sr_state r = S_UNDOING → moved st j r j' r' →
  (st = S_UNDONE ∧ residuals' = residuals ∨ st = S_UNDO_FAILED ∧ residuals' = residuals ++ [sr_step_id r']) →
  rolled [sr_sequence r] j residuals j' residuals'.
Proof.
  intros Hn Hr Hu Hm Hst. pose proof (fun x => moved_stays _ _ _ _ _ x Hn Hr Hm) as Hstay. pose proof (fun x => moved_elem _ _ _ _ _ x Hn Hr Hm) as Hel.
  destruct (moved_only_step _ _ _ _ _ Hm) as [Ho Hq]. destruct Hm as (_ & _ & Hs' & Hat). constructor.
  - by apply only_step_steps.
  - intros x Hx He%list_elem_of_singleton. destruct (Hel x Hx) as [->|[_ ?]]; [|done]. rewrite Hs'.
    destruct Hst as [[-> _]|[-> _]]; (split; [by apply (bool_decide_unpack _)|done]).
  - intros x Hx. destruct (Hel x Hx) as [->|[? _]]; [|by left]. right. rewrite Hs'.
    destruct Hst as [[-> _]|[-> ->]]; [by left|right; split; [done|set_solver]].
  - intros id Hid. destruct Hst as [[-> ->]|[-> ->]]; [by left|]. apply elem_of_app in Hid as [?|Hid%list_elem_of_singleton]; [by left|].
    right. exists r'. split; [by apply at_step_elem|]. by split.
  - intros x Hx [_ Hne]. apply Hstay; [done|]. by intros ->.
  - destruct Hst as [[_ ->]|[_ ->]]; set_solver.
Qed.

Lemma spec_record_undo_failed kind error j residuals r :
  at_step j r → sr_state r = S_UNDOING →
  spec (Cur j) (record_undo_failed env kind error j residuals r) (rolled_post [sr_sequence r] j residuals).
Proof.
  intros Hr Hs. apply spec_pure with (F := distinct j); [by intros l []|]. intros Hn. unfold record_undo_failed.
  eapply spec_bind; [apply spec_now|]. intros t.
  eapply spec_bind; [apply spec_advance_step; [done|rewrite Hs; cbn; set_solver]|]. intros [j' r'].
  apply spec_ret. intros l [Hc Hm]. split; [done|]. eapply moved_rolled; [done..|]. by right.
Qed.

Lemma spec_record_undone j residuals r :
  at_step j r → sr_state r = S_UNDOING →
  spec (Cur j) (record_undone env j residuals r) (rolled_post [sr_sequence r] j residuals).
Proof.
  intros Hr Hs. apply spec_pure with (F := distinct j); [by intros l []|]. intros Hn. unfold record_undone.
  eapply spec_bind; [apply spec_now|]. intros t.
  eapply spec_bind; [apply spec_advance_step; [done|rewrite Hs; cbn; set_solver]|]. intros [j' r'].
  apply spec_ret. intros l [Hc Hm]. split; [done|]. eapply moved_rolled; [done..|]. by left.
Qed.

Lemma spec_undo j ex r execution :
  at_step j r → sr_state r = S_UNDOING → spec (Cur j) (safe_undo env ex r execution) (fun _ => Cur j).
Proof.
  intros Hr Hs. unfold safe_undo. apply spec_noted.
  - intros l Hc. split; [by eapply cur_ok|]. split; [done|]. by eapply recorded_at.
  - intros l Hc. apply cur_note; [done| |done]. split; [done|]. by eapply recorded_at.
  - apply cur_ok.
Qed.

Lemma spec_undo_from ex j residuals r :
  at_step j r → sr_state r = S_UNDOING →
  spec (Cur j) (undo_from env ex j residuals r) (rolled_post [sr_sequence r] j residuals).
Proof.
  intros Hr Hs. unfold undo_from.
  eapply spec_bind with (R := fun _ => Cur j); [apply spec_attempt_lift; [apply cur_ok| |done|done]|].
  { intros e He _. by eapply authoritative_undo_raises. }
  intros [undo|e]; [|by apply spec_record_undo_failed].
  eapply spec_bind; [by apply spec_undo|]. intros result.
  destruct (String.eqb _ _); [by apply spec_record_undone|by apply spec_record_undo_failed].
Qed.

Lemma rolled_refl zs j residuals :
  (∀ r, r ∈ tj_steps j → sr_sequence r ∈ zs → settled (sr_state r)) → rolled zs j residuals j residuals.
Proof. intros Hs. constructor; [done|done|by left|by left|done|done]. Qed.

Lemma moved_then_rolled j r j1 r1 residuals j2 residuals' :
  distinct j → at_step j r → sr_state r ∈ UNDOABLE_STEP_STATES → moved S_UNDOING j r j1 r1 → rolled [sr_sequence r] j1 residuals j2 residuals' →
  rolled [sr_sequence r] j residuals j2 residuals'.
Proof.
  intros Hn Hr Hu Hm Hro. destruct (moved_only_step _ _ _ _ _ Hm) as [Ho Hq].
  constructor; [|apply Hro|..|apply Hro| |apply Hro].
  - destruct Ho as (A & B & C & F & G), (ro_only _ _ _ _ _ Hro) as (A' & B' & C' & F' & G').
    repeat split; try congruence. intros x Hx Hin. apply G; [set_solver|]. by apply G'.
  - intros x Hx. destruct (ro_changed _ _ _ _ _ Hro x Hx) as [Hold|?]; [|by right].
    destruct (moved_elem _ _ _ _ _ x Hn Hr Hm Hold) as [->|[? _]]; [|by left].
    destruct (ro_settled _ _ _ _ _ Hro r1 Hx) as [_ Hno]; [rewrite Hq; set_solver|].
    by destruct Hno, Hm as (_ & _ & -> & _).
  - intros x Hx Hset. apply (ro_stays _ _ _ _ _ Hro); [|done]. eapply moved_stays; [done..|]. intros ->. by destruct Hset.
Qed.

Lemma undoable_legal st : rollbackable st → st ∈ UNDOABLE_STEP_STATES → S_UNDOING ∈ STEP_TRANSITIONS st.
Proof.
  intros [? ?] Hst. unfold UNDOABLE_STEP_STATES in Hst.
  destruct st; try done; try (by apply (bool_decide_unpack _)); by apply (bool_decide_pack _) in Hst.
Qed.

Definition may_roll_back (j : TransactionJournal) : Prop :=
  (∀ e, Ex e) ∨ Forall (fun r => rollbackable (sr_state r)) (tj_steps j).

Lemma spec_rollback_one ex z j residuals :
  may_roll_back j → spec (Cur j) (rollback_one env ex z j residuals) (rolled_post [z] j residuals).
Proof.
  intros Hroll. unfold rollback_one. eapply spec_bind; [apply spec_journal_step, cur_ok|]. intros r.
  apply spec_pure with (F := find_step z j = Some r); [by intros l []|]. intros Hf.
  destruct (find_step_sequence _ _ _ Hf) as [<- Hr]. eapply spec_conseq with (P' := Cur j); [|by intros l []|done].
  apply spec_pure with (F := distinct j); [by intros l []|]. intros Hn.
  case_bool_decide as Hu.
  - eapply spec_bind; [apply spec_inspect, cur_ok|]. intros observed.
    destruct (truthy _); [by apply spec_record_undo_failed|]. destruct (truthy _); [by apply spec_record_undo_failed|].
    destruct (negb _); [by apply spec_record_undone|]. destruct (truthy _); [by apply spec_record_undo_failed|].
    destruct (is_false _); [by apply spec_record_undo_failed|]. by apply spec_undo_from.
  - case_bool_decide as Hin; cbn.
    + eapply spec_bind; [apply spec_advance_step_any; [done|]|].
      { destruct Hroll as [?|Hroll]; [by left|right]. apply undoable_legal; [|done].
        rewrite Forall_forall in Hroll. by apply Hroll, at_step_elem. }
      intros [j1 r1]. apply spec_pure with (F := moved S_UNDOING j r j1 r1); [by intros l []|]. intros Hm.
      destruct (moved_only_step _ _ _ _ _ Hm) as [_ Hq]. pose proof Hm as (_ & _ & Hs1 & Hat1).
      eapply spec_conseq; [by apply spec_undo_from|by intros l []|]. intros [j2 res2] l [Hc Hro]. split; [done|].
      rewrite Hq in Hro. by eapply moved_then_rolled.
    + apply spec_ret. intros l Hc. split; [done|]. apply rolled_refl. intros x Hx He%list_elem_of_singleton.
      apply find_step_nodup in Hx; [|done]. unfold at_step in *. rewrite He in Hx.
      assert (x = r) as -> by (cbn in Hx; congruence). by split.
Qed.

Lemma rolled_cons z zs j residuals j1 residuals1 j2 residuals2 :
  rolled [z] j residuals j1 residuals1 → rolled zs j1 residuals1 j2 residuals2 →
  rolled (z :: zs) j residuals j2 residuals2.
Proof.
  intros H1 H2. pose proof (ro_only _ _ _ _ _ H2) as (A2 & B2 & C2 & D2 & E2).
  pose proof (ro_only _ _ _ _ _ H1) as (A1 & B1 & C1 & D1 & E1). constructor.
  - repeat split; try congruence. intros r Hr Hin. rewrite not_elem_of_cons in Hr. apply E1; [rewrite list_elem_of_singleton; tauto|]. apply E2; tauto.
  - intros r Hr Hin. destruct (decide (sr_sequence r ∈ zs)) as [Hz|Hz]; [by apply (ro_settled _ _ _ _ _ H2)|].
    apply elem_of_cons in Hin as [Hin|]; [|done]. apply (ro_settled _ _ _ _ _ H1); [by apply E2|set_solver].
  - intros r Hr. destruct (ro_changed _ _ _ _ _ H2 r Hr) as [Hold|?]; [|by right].
    destruct (ro_changed _ _ _ _ _ H1 r Hold) as [?|[?|[? Hid]]]; [by left|by right; left|].
    right; right. split; [done|]. by apply (ro_kept _ _ _ _ _ H2).
  - intros id Hid. destruct (ro_residuals _ _ _ _ _ H2 id Hid) as [Hid1|?]; [|by right].
    destruct (ro_residuals _ _ _ _ _ H1 id Hid1) as [?|(r & Hr & Hs & Hi)]; [by left|]. right. exists r. split; [|done].
    apply (ro_stays _ _ _ _ _ H2); [done|]. rewrite Hs. split; [by apply (bool_decide_unpack _)|done].
  - intros r Hr Hs. apply (ro_stays _ _ _ _ _ H2); [|done]. by apply (ro_stays _ _ _ _ _ H1).
  - etrans; [apply H1|apply H2].
Qed.

Lemma rolled_may j residuals j' residuals' zs : may_roll_back j → rolled zs j residuals j' residuals' → may_roll_back j'.
Proof.
  intros [?|Hj] Hro; [by left|right]. rewrite Forall_forall in *. intros r Hr.
  destruct (ro_changed _ _ _ _ _ Hro r Hr) as [?|[->|[-> _]]]; [by apply Hj|done|done].
Qed.

Lemma spec_rollback_loop ex zs j residuals :
  may_roll_back j → spec (Cur j) (rollback_loop env ex zs j residuals) (rolled_post zs j residuals).
Proof.
  revert j residuals. induction zs as [|z zs IH]; intros j residuals Hroll; cbn [rollback_loop].
  { apply spec_ret. intros l Hc. split; [done|]. apply rolled_refl. intros r _ Hr. by apply elem_of_nil in Hr. }
  eapply spec_bind; [by apply spec_rollback_one|]. intros [j1 res1].
  apply spec_pure with (F := rolled [z] j residuals j1 res1); [by intros l []|]. intros H1.
  eapply spec_conseq; [apply IH; by eapply rolled_may|by intros l []|].
  intros [j2 res2] l [Hc H2]. split; [done|]. by eapply rolled_cons.
Qed.

(** After a rollback nothing is left to undo, and the residuals are what could not be undone. *)
Definition rollback_post (j : TransactionJournal) (x : TransactionJournal * bool * list string) (l : list event) : Prop :=
  let '(j', ok, residuals) := x in
  Cur j' l ∧ tj_state j' = tj_state j ∧ tj_capability_id j' = tj_capability_id j ∧ tj_transaction_id j' = tj_transaction_id j
  ∧ (ok = true ↔ residuals = [])
  ∧ (∀ r, r ∈ tj_steps j' → settled (sr_state r) ∧ (r ∈ tj_steps j ∨ sr_state r = S_UNDONE
         ∨ sr_state r = S_UNDO_FAILED ∧ sr_step_id r ∈ residuals))
  ∧ (∀ id, id ∈ residuals → ∃ r, r ∈ tj_steps j' ∧ sr_state r = S_UNDO_FAILED ∧ sr_step_id r = id).

Lemma spec_run_rollback ex j : may_roll_back j → spec (Cur j) (run_rollback env ex j) (rollback_post j).
Proof.
  intros Hroll. unfold run_rollback. eapply spec_bind; [by apply spec_rollback_loop|]. intros [j' residuals].
  apply spec_ret. intros l [Hc Hro]. cbn in Hc, Hro. destruct (ro_only _ _ _ _ _ Hro) as (A & B & C & F & _).
  split; [done|]. split; [done|]. split; [done|]. split; [done|]. split; [by destruct residuals|]. split.
  - intros r Hr. split; [|by apply (ro_changed _ _ _ _ _ Hro)]. apply (ro_settled _ _ _ _ _ Hro); [done|].
    unfold reverse_order. rewrite py_sorted_perm, <- F. by apply list_elem_of_fmap_2.
  - intros id Hid. destruct (ro_residuals _ _ _ _ _ Hro id Hid) as [Hid'|?]; [by apply elem_of_nil in Hid'|done].
Qed.

(** *** Checks that leave the journal alone *)
Definition calm {A} (m : PyM (PState W) A) : Prop :=
  ∀ s, ps_log (m s).2 = ps_log s ∧ match (m s).1 with Ok _ => True | Err e => Ex e end.

Lemma spec_calm {A} P (m : PyM (PState W) A) : calm m → (∀ l, P l → log_ok l) → spec P m (fun _ => P).
Proof. intros Hm. apply spec_silent; intros s; apply Hm. Qed.

Lemma calm_ret {A} (a : A) : calm (mret a).
Proof. done. Qed.

Lemma calm_bind {A B} (m : PyM (PState W) A) (f : A → PyM (PState W) B) : calm m → (∀ a, calm (f a)) → calm (m ≫= f).
Proof.
  intros Hm Hf s. destruct (Hm s) as [Hl He]. unfold mbind, pym_bind. destruct (m s) as [[a|e] s']; [|done].
  cbn in *. rewrite <- Hl. apply Hf.
Qed.

Lemma calm_io {A} (m : PyM W A) : may_raise Ex m → calm (io m).
Proof. intros Hm s. split; [apply silent_io|by apply raises_io]. Qed.

Lemma calm_now : calm (now env).
Proof. intros s. unfold now. by destruct (pe_now env (ps_world s)). Qed.

Lemma calm_lift {A} (r : res A) : (∀ e, r = Err e → Ex e) → calm (liftR r).
Proof. intros Hr s. split; [done|]. cbn. destruct r; eauto. Qed.

Lemma calm_raise {A} k msg : k ≠ InvalidTransitionError → calm (raiseM (A := A) k msg).
Proof. intros Hk s. split; [done|]. cbn. by apply Hex. Qed.

Lemma calm_attempt {A} hd (m : PyM (PState W) A) : calm m → calm (attempt hd m).
Proof.
  intros Hm s. destruct (Hm s) as [Hl He]. unfold attempt. destruct (m s) as [[a|e] s']; [done|].
  by destruct (hd e).
Qed.

Lemma calm_try {A} (m : PyM (PState W) A) hd h : calm m → (∀ e, calm (h e)) → calm (try_except m hd h).
Proof.
  intros Hm Hh s. destruct (Hm s) as [Hl He]. unfold try_except. destruct (m s) as [[a|e] s']; [done|].
  destruct (hd e); [|done]. cbn in Hl. rewrite <- Hl. apply Hh.
Qed.

Lemma calm_finally {A} (m : PyM (PState W) A) f : calm m → calm f → calm (try_finally m f).
Proof.
  intros Hm Hf s. destruct (Hm s) as [Hl He]. unfold try_finally. destruct (m s) as [r s']. destruct (Hf s') as [Hl' He'].
  cbn in *. destruct (f s') as [[u|e] s'']; cbn in *; split; congruence || done.
Qed.

Lemma calm_for_each {A} (f : A → PyM (PState W) unit) l : (∀ x, calm (f x)) → calm (for_each f l).
Proof. intros Hf. induction l as [|x l IH]; [done|]. cbn. by apply calm_bind. Qed.

Lemma calm_map_pm {A B} (f : A → PyM (PState W) B) l : (∀ x, calm (f x)) → calm (map_pm f l).
Proof.
  intros Hf. induction l as [|x l IH]; [done|]. cbn. apply calm_bind; [done|]. intros y. by apply calm_bind.
Qed.

Lemma calm_all_pm {A} (f : A → PyM (PState W) bool) l : (∀ x, calm (f x)) → calm (all_pm f l).
Proof. intros Hf. induction l as [|x l IH]; [done|]. cbn. apply calm_bind; [done|]. by intros []. Qed.

Lemma calm_guarded {A} (m : PyM W A) (h : exn → A) : calm (try_except (io m) any_exn (fun e => mret (h e))).
Proof.
  intros s. unfold try_except, io. by destruct (m (ps_world s)) as [[a|e] w].
Qed.

Lemma cannot_finalize_raises {A} x y e : cannot_finalize (A := A) x y = Err e → Ex e.
Proof. intros [= <-]. by apply Hex. Qed.

Lemma dynamic_raises r s c e : dynamic_verified_sha256 r s c = Err e → Ex e.
Proof.
  unfold dynamic_verified_sha256. destruct (negb _); [done|]. destruct (negb _); [intros [= <-]; by apply Hex|].
  destruct (get _ _); try (intros [= <-]; by apply Hex). destruct (is_hex64 _); [done|]. intros [= <-]. by apply Hex.
Qed.

Lemma check_identity_raises x c i e : check_identity x c i = Err e → Ex e.
Proof.
  unfold check_identity. repeat match goal with |- context [if ?b then _ else _] => destruct b end;
    try apply cannot_finalize_raises. done.
Qed.

Ltac calm :=
  repeat (first
    [ apply calm_ret | apply calm_now | apply calm_guarded | apply calm_attempt | apply calm_finally
    | apply calm_for_each; intros ? | apply calm_map_pm; intros ? | apply calm_all_pm; intros ?
    | apply calm_bind; [|intros ?] | apply calm_try; [|intros ?] | apply calm_io; apply Hraise
    | apply calm_raise; done
    | apply calm_lift; first [apply cannot_finalize_raises | apply dynamic_raises | apply check_identity_raises | by eapply rs_expected]
    | progress cbv zeta
    | match goal with
      | |- calm (if ?b then _ else _) => destruct b
      | |- calm (match ?x with _ => _ end) => destruct x
      end ]).

Lemma calm_terminal records leaf : calm (verify_terminal_identity env records leaf).
Proof. unfold verify_terminal_identity. calm. Qed.

Lemma calm_ownership_of_step ex j plan t r : calm (ownership_of_step env ex j plan t r).
Proof. unfold ownership_of_step. calm. Qed.

(** What every result of a computation satisfies *)
Definition gives {A} (m : PyM (PState W) A) (F : A → Prop) : Prop := ∀ s a s', m s = (Ok a, s') → F a.

Lemma gives_bind {A B} (m : PyM (PState W) A) (f : A → PyM (PState W) B) F : (∀ a, gives (f a) F) → gives (m ≫= f) F.
Proof. intros Hf s b s'. unfold mbind, pym_bind. destruct (m s) as [[a|e] s1]; [|done]. apply Hf. Qed.

Lemma gives_map_pm {A B} (f : A → PyM (PState W) B) l F : (∀ x, gives (f x) F) → gives (map_pm f l) (Forall F).
Proof.
  intros Hf. induction l as [|x l IH]; cbn; [by intros s ys s' [= <-]|]. intros s ys s'. unfold mbind, pym_bind.
  destruct (f x s) as [[y|e] s1] eqn:E1; [|done]. destruct (map_pm f l s1) as [[zs|e] s2] eqn:E2; [|done]. intros [= <- _].
  constructor; [by eapply Hf|by eapply IH].
Qed.

(** The records that a transaction publishes are its own. *)
Lemma ownership_of_step_created ex j plan t r :
  gives (ownership_of_step env ex j plan t r) (fun o => ow_created_by_transaction o = Some (tj_transaction_id j)).
Proof.
  unfold ownership_of_step. cbv zeta. destruct (plan_step_at _ _); [|done].
  apply gives_bind; intros a. apply gives_bind; intros a0. apply gives_bind; intros a1. destruct a1 as [[[[validated ident] intermediates] authority] v2]. apply gives_bind; intros _. by intros st o st' [= <- _].
Qed.

Lemma spec_gives {A} P (m : PyM (PState W) A) Q (F : A → Prop) :
  spec P m Q → gives m F → spec P m (fun a l => Q a l ∧ F a).
Proof.
  intros Hm Hf s Hs. specialize (Hm s Hs). specialize (Hf s). destruct (m s) as [[a|e] s']; [|done]. split; [done|by eapply Hf].
Qed.

(** *** Committing *)

(** The journal [j] stays, and ownership was published *)
Definition published (capability_id : string) (l : list event) : Prop := ∃ records, EPublish capability_id records true ∈ l.

Lemma write_ownership_cur j capability_id records s :
  tj_state j = T_VERIFYING → all_verified j → tj_capability_id j = capability_id →
  Forall (fun o => ow_created_by_transaction o = Some (tj_transaction_id j)) records →
  Cur j (ps_log s) →
  match write_ownership env capability_id records s with
  | (Ok _, s') => Cur j (ps_log s') ∧ published capability_id (ps_log s')
  | (Err e, s') => Cur j (ps_log s') ∧ Ex e
  end.
Proof.
  intros Hst Hv Hcap Hrec Hc. unfold write_ownership. pose proof (rs_publish _ _ Hraise capability_id records (ps_world s)) as Hx.
  assert (Hn : ∀ b, Cur j (ps_log s ++ [EPublish capability_id records b])).
  { intros b. apply cur_note; [done| |done]. exists (tj_transaction_id j), j. split; [by apply cur_disk|]. done. }
  destruct (pe_write_ownership env capability_id records (ps_world s)) as [[u|e] w]; cbn in *; (split; [apply Hn|]); [|done].
  exists records. apply elem_of_app. right. by left.
Qed.

Lemma spec_finalize hd ex j plan t :
  tj_state j = T_VERIFYING → all_verified j → tj_capability_id j = pp_capability_id plan →
  spec (Cur j) (attempt hd (finalize_provenance env ex j plan t))
    (fun x l => Cur j l ∧ match x with inl _ => published (pp_capability_id plan) l | inr _ => True end).
Proof.
  intros Hst Hv Hcap s Hc. unfold attempt, finalize_provenance, mbind, pym_bind.
  destruct (calm_map_pm (ownership_of_step env ex j plan t) (tj_steps j) (calm_ownership_of_step ex j plan t) s) as [Hl He].
  pose proof (gives_map_pm _ (tj_steps j) _ (ownership_of_step_created ex j plan t) s) as Hg.
  destruct (map_pm _ _ s) as [[records|e] s1]; cbn in *.
  - pose proof (write_ownership_cur j _ records s1 Hst Hv Hcap (Hg _ _ eq_refl)) as Hw. rewrite Hl in Hw. specialize (Hw Hc).
    destruct (write_ownership env _ records s1) as [[u|e] s2]; [done|]. destruct Hw as [Hw Hx].
    destruct (hd e); [done|]. split; [by apply cur_ok in Hw|done].
  - destruct (hd e); rewrite Hl; [done|]. split; [by eapply cur_ok|done].
Qed.

(** How a commit ends *)
Definition committed (capability_id : string) (l : list event) (j' : TransactionJournal) : Prop :=
  tj_state j' = T_COMMITTED ∧ all_verified j' ∧ tj_capability_id j' = capability_id ∧ published capability_id l.

Lemma advanced_verified st j j' : advanced st j j' → all_verified j → all_verified j'.
Proof. intros (_ & _ & Hs). unfold all_verified. by rewrite Hs. Qed.

Lemma spec_pre {A} (P P' : list event → Prop) (m : PyM (PState W) A) Q : spec P' m Q → (∀ l, P l → P' l) → spec P m Q.
Proof. intros Hm Hp. by eapply spec_conseq. Qed.

(** A check between two writes *)
Lemma spec_then {A B} P (m : PyM (PState W) A) (k : A → PyM (PState W) B) Q :
  calm m → (∀ l, P l → log_ok l) → (∀ a, spec P (k a) Q) → spec P (m ≫= k) Q.
Proof. intros Hm Hp Hk. eapply spec_bind; [by apply spec_calm|done]. Qed.

(** What was logged before stays logged *)
Lemma published_app capability_id l l' : published capability_id l → published capability_id (l ++ l').
Proof. intros [records Hr]. exists records. apply elem_of_app. by left. Qed.

Lemma write_journal_log j s : ∃ b, ps_log (write_journal env j s).2 = ps_log s ++ [EWrite j b].
Proof. unfold write_journal. destruct (pe_write_journal env j (ps_world s)) as [r w]. by exists (is_ok r). Qed.

Lemma advance_log st u j s : ∃ l', ps_log (advance env st u j s).2 = ps_log s ++ l'.
Proof.
  unfold advance, mbind, pym_bind. destruct (calm_now s) as [Hl _]. destruct (now env s) as [[t|e] s1]; cbn in Hl; rewrite <- Hl;
    [|exists []; by rewrite app_nil_r].
  unfold liftR. destruct (with_state st t u j) as [j'|e]; [|exists []; by rewrite app_nil_r].
  destruct (write_journal_log j' s1) as [b Hb]. destruct (write_journal env j' s1) as [[r|e] s2]; cbn in *; by eexists.
Qed.

Lemma spec_advance_published capability_id st u j :
  (∀ e, Ex e) ∨ st ∈ TRANSACTION_TRANSITIONS (tj_state j) →
  spec (fun l => Cur j l ∧ published capability_id l) (advance env st u j)
    (fun j' l => (Cur j' l ∧ published capability_id l) ∧ advanced st j j').
Proof.
  intros Hst s [Hc Hp]. pose proof (spec_advance st u j Hst s Hc) as Ha. destruct (advance_log st u j s) as [l' Hl].
  destruct (advance env st u j s) as [[j'|e] s']; [|done]. cbn in Hl. destruct Ha as [Ha ?]. split; [|done]. split; [done|].
  rewrite Hl. by apply published_app.
Qed.

Lemma spec_publish_and_commit ex j plan :
  tj_state j = T_VERIFYING → all_verified j → tj_capability_id j = pp_capability_id plan →
  spec (Cur j) (publish_and_commit env ex j plan)
    (fun x l => log_ok l ∧ match x with
       | inl j' => Cur j' l ∧ tj_transaction_id j' = tj_transaction_id j ∧ committed (pp_capability_id plan) l j'
       | inr _ => ∃ j', Cur j' l ∧ tj_transaction_id j' = tj_transaction_id j ∧ tj_state j' = T_RECOVERY_REQUIRED end).
Proof.
  intros Hst Hv Hcap. unfold publish_and_commit. cbv zeta.
  apply spec_then; [apply calm_terminal|apply cur_ok|]. intros _. eapply spec_bind; [apply spec_now|]. intros t.
  eapply spec_bind; [by apply spec_finalize|]. intros [provenance|e].
  - set (P := fun j l => Cur j l ∧ published (pp_capability_id plan) l).
    assert (Hp : ∀ j l, P j l → log_ok l) by (intros ? l [Hc _]; by apply cur_ok in Hc).
    assert (Hre : calm (records ← io (pe_read_ownership env (pp_capability_id plan)); verify_terminal_identity env records true)).
    { apply calm_bind; [apply calm_io, Hraise|]. intros records. apply calm_terminal. }
    apply (spec_then (P j)); [exact Hre|apply Hp|]. intros _.
    eapply spec_bind; [apply spec_advance_published; right; rewrite Hst; by apply (bool_decide_unpack _)|]. intros j1.
    apply spec_pure with (F := advanced T_PREPARE_TERMINAL_PREPARED j j1); [by intros l []|]. intros A1.
    apply spec_pre with (P' := P j1); [|by intros l []].
    apply (spec_then (P j1)); [exact Hre|apply Hp|]. intros _. pose proof A1 as (F1 & S1 & _).
    eapply spec_bind; [apply spec_advance_published; right; rewrite S1; by apply (bool_decide_unpack _)|]. intros j2.
    apply spec_pure with (F := advanced T_COMMITTED j1 j2); [by intros l []|]. intros A2. pose proof A2 as (F2 & S2 & _).
    apply spec_pre with (P' := P j2); [|by intros l []].
    apply (spec_then (P j2)); [exact Hre|apply Hp|]. intros _. apply spec_ret. intros l [Hc Hpub].
    split; [by apply cur_ok in Hc|]. split; [done|]. rewrite (fo_id _ _ F2), (fo_id _ _ F1). split; [done|].
    split; [done|]. split; [by eapply advanced_verified, advanced_verified|]. split; [|done].
    by rewrite (fo_capability _ _ F2), (fo_capability _ _ F1).
  - eapply spec_bind with (R := fun j' l => Cur j' l ∧ advanced T_RECOVERY_REQUIRED j j').
    { eapply spec_conseq; [apply (spec_advance T_RECOVERY_REQUIRED)|by intros l []|done].
      right. rewrite Hst. by apply (bool_decide_unpack _). }
    intros j'. apply spec_ret. intros l (Hc & Hf & Hs & _). split; [by apply cur_ok in Hc|]. exists j'.
    split; [done|]. split; [apply Hf|done].
Qed.

(** *** Preparing *)

(** The plan names the steps of the journal *)
Record plan_of (plan : ProvisioningPlan) (j : TransactionJournal) : Prop := {
  pl_nodup : NoDup (map ps_sequence (pp_steps plan));
  pl_steps : map sr_sequence (tj_steps j) ⊆ map ps_sequence (pp_steps plan);
  pl_capability : tj_capability_id j = pp_capability_id plan
}.

Lemma plan_of_same plan j j' :
  plan_of plan j → map sr_sequence (tj_steps j') = map sr_sequence (tj_steps j) →
  tj_capability_id j' = tj_capability_id j → plan_of plan j'.
Proof. intros [A B C] Hs Hc. constructor; [done|by rewrite Hs|congruence]. Qed.

Lemma all_verified_from zs j :
  distinct j → map sr_sequence (tj_steps j) ⊆ zs → (∀ z, z ∈ zs → step_is z (fun st => st = S_VERIFIED) j) → all_verified j.
Proof.
  intros Hn Hs Hz. apply Forall_forall. intros r Hr. destruct (Hz (sr_sequence r)) as (r' & Hf & Hv).
  { apply Hs. by apply list_elem_of_fmap_2. }
  apply find_step_nodup in Hr; [|done]. unfold at_step in Hr. congruence.
Qed.

(** How [_apply_and_verify] ends *)
Definition applied_ok (plan : ProvisioningPlan) (j : TransactionJournal) (x : loop_exit) (l : list event) : Prop :=
  let '(j', ok, durability_unknown) := x in
  Cur j' l ∧
  if durability_unknown then ok = false ∧ given_up j j'
  else tj_transaction_id j' = tj_transaction_id j ∧ plan_of plan j' ∧
    if ok then tj_state j' = T_VERIFYING ∧ all_verified j'
    else tj_state j' = T_ROLLING_BACK ∧ all_verified j'
         ∨ tj_state j' = tj_state j ∧ stopped (map ps_sequence (pp_steps plan)) j j'.

Lemma spec_to_verifying_transaction j :
  forward_state (tj_state j) →
  spec (Cur j) (if negb (bool_decide (tj_state j = T_VERIFYING)) then advance env T_VERIFYING no_update j else mret j)
    (fun j' l => Cur j' l ∧ tj_state j' = T_VERIFYING ∧ tj_steps j' = tj_steps j ∧ tj_transaction_id j' = tj_transaction_id j
                 ∧ tj_capability_id j' = tj_capability_id j).
Proof.
  intros Hst. case_bool_decide as Hv; cbn.
  - by apply spec_ret.
  - eapply spec_conseq; [apply spec_advance; right|done|].
    + destruct Hst as [->|?]; [by apply (bool_decide_unpack _)|done].
    + intros j' l (Hc & Hf & Hs & Hsteps). do 3 (split; [done|]). split; apply Hf.
Qed.

Lemma spec_apply_and_verify ex j plan :
  forward_state (tj_state j) → plan_of plan j → spec (Cur j) (apply_and_verify env ex j plan) (applied_ok plan j).
Proof.
  intros Hst Hpl. unfold apply_and_verify. eapply spec_bind; [by apply spec_apply_loop; [apply Hpl|]|].
  intros [[j1 ok] dur]. destruct dur; [by apply spec_ret; intros l (Hc & _ & ?)|]. destruct ok; cbn [negb].
  - eapply spec_pure; [intros l (Hc & F); exact (conj (cur_nodup _ _ Hc) F)|]. intros (Hn & Ho & Hz).
    pose proof Ho as (A & B & C & F & _).
    assert (Hpl1 : plan_of plan j1) by (by eapply plan_of_same).
    assert (Hv : all_verified j1).
    { eapply all_verified_from; [done|apply Hpl1|done]. }
    eapply spec_bind; [eapply spec_conseq; [apply (spec_to_verifying_transaction j1); by rewrite A|by intros l []|done]|]. intros j2.
    eapply spec_pure; [intros l (_ & F2); exact F2|]. intros (S2 & T2 & I2 & C2).
    assert (Hpl2 : plan_of plan j2) by (eapply plan_of_same; [exact Hpl1|by rewrite T2|done]).
    assert (Hv2 : all_verified j2) by (unfold all_verified; by rewrite T2).
    apply spec_pre with (P' := Cur j2); [|by intros l []].
    apply spec_then; [apply calm_guarded|apply cur_ok|]. intros post. destruct (negb _).
    + eapply spec_bind; [apply spec_advance; right; rewrite S2; by apply (bool_decide_unpack _)|]. intros j3.
      apply spec_ret. intros l (Hc & Hf & S3 & T3). split; [done|]. split; [rewrite (fo_id _ _ Hf); congruence|].
      split; [eapply plan_of_same; [exact Hpl2|by rewrite T3|apply Hf]|]. left. split; [done|]. unfold all_verified. by rewrite T3.
    + apply spec_ret. intros l Hc. split; [done|]. split; [congruence|]. done.
  - apply spec_ret. intros l (Hc & Hs). split; [done|]. pose proof Hs as (? & ? & ? & _ & (A & B & C & F & _) & _).
    split; [done|]. split; [by eapply plan_of_same|]. by right.
Qed.

Definition starts_planned (j : TransactionJournal) : Prop := Forall (fun r => sr_state r = S_PLANNED) (tj_steps j).

(** The states of the steps when a transaction that nothing interrupted turns back, and after *)
Definition turning (st : StepState) : Prop :=
  (∀ e, Ex e) ∨ st = S_PLANNED ∨ st = S_VERIFIED ∨ st = S_APPLY_FAILED ∨ st = S_VERIFY_FAILED.
Definition clean (st : StepState) : Prop := (∀ e, Ex e) ∨ st = S_PLANNED ∨ st = S_APPLY_FAILED ∨ st = S_UNDONE.

Lemma turning_may j : Forall (fun r => turning (sr_state r)) (tj_steps j) → may_roll_back j.
Proof.
  intros Hj. unfold may_roll_back. induction Hj as [|r l Hr _ IH]; [by right|]. destruct Hr as [?|Hr]; [by left|].
  destruct IH as [?|IH]; [by left|right]. constructor; [|done]. by destruct Hr as [->|[->|[->| ->]]].
Qed.

Lemma turning_clean st : turning st → settled st → clean st.
Proof.
  intros [?|Hst] [Hn _]; [by left|]. right. destruct Hst as [->|[->|[->| ->]]]; [tauto| |tauto|];
    by destruct Hn; apply (bool_decide_unpack _).
Qed.

Lemma planned_stopped plan j j' :
  (∀ e, Ex e) ∨ ¬ interruptible → distinct j' → starts_planned j → stopped (map ps_sequence (pp_steps plan)) j j' →
  Forall (fun r => turning (sr_state r)) (tj_steps j').
Proof.
  intros [Hany|Hq] Hn Hp Hs; apply Forall_forall; intros r Hr; [by left|right].
  destruct Hs as (done & z & rest & _ & (_ & _ & _ & _ & Ho) & Hd & Hz). destruct (decide (sr_sequence r ∈ done ++ [z])) as [Hin|Hin].
  - apply find_step_nodup in Hr; [|done]. unfold at_step in Hr. apply elem_of_app in Hin as [Hin|Hin%list_elem_of_singleton]; [|subst z].
    + destruct (Hd _ Hin) as (r' & Hf & Hv). right; left. congruence.
    + destruct Hz as [(r' & Hf & Hv)|[Hi _]]; [|done]. unfold failing in Hv. rewrite Hf in Hr. simplify_eq. tauto.
  - left. unfold starts_planned in Hp. rewrite Forall_forall in Hp. by apply Hp, Ho.
Qed.

(** What the outcome of a transaction says about its journal *)
Definition outcome_ok (plan : ProvisioningPlan) (id : string) (o : PrepareOutcome) (l : list event) : Prop :=
  ∃ j, Cur j l ∧ tj_transaction_id j = id ∧
  match po_status o with
  | P_COMMITTED => committed (pp_capability_id plan) l j
  | P_PREPARATION_FAILED =>
      tj_state j = T_PREPARATION_FAILED ∧ po_residuals o = [] ∧ Forall (fun r => clean (sr_state r)) (tj_steps j)
  | P_ROLLBACK_FAILED =>
      tj_state j = T_ROLLBACK_FAILED ∧ po_residuals o ≠ []
      ∧ (∀ s, s ∈ po_residuals o → ∃ r, r ∈ tj_steps j ∧ sr_state r = S_UNDO_FAILED ∧ sr_step_id r = s)
      ∧ Forall (fun r => clean (sr_state r) ∨ sr_state r = S_UNDO_FAILED ∧ sr_step_id r ∈ po_residuals o) (tj_steps j)
  | P_RECOVERY_REQUIRED => tj_state j = T_RECOVERY_REQUIRED
  | _ => False
  end.

Lemma spec_to_rolling_back j u :
  forward_state (tj_state j) ∨ tj_state j = T_ROLLING_BACK →
  spec (Cur j) (if negb (bool_decide (tj_state j = T_ROLLING_BACK)) then advance env T_ROLLING_BACK u j else mret j)
    (fun j' l => Cur j' l ∧ tj_state j' = T_ROLLING_BACK ∧ tj_steps j' = tj_steps j ∧ tj_transaction_id j' = tj_transaction_id j).
Proof.
  intros Hst. case_bool_decide as Hv; cbn.
  - by apply spec_ret.
  - eapply spec_conseq; [apply spec_advance; right|done|].
    + destruct Hst as [[-> | ->]|?]; [by apply (bool_decide_unpack _)..|done].
    + intros j' l (Hc & Hf & Hs & Hsteps). do 3 (split; [done|]). apply Hf.
Qed.

(** Turning back *)
Lemma spec_turn_back {A} ex j (k : TransactionJournal * bool * list string → PyM (PState W) A) u Q :
  forward_state (tj_state j) ∨ tj_state j = T_ROLLING_BACK → Forall (fun r => turning (sr_state r)) (tj_steps j) →
  (∀ j' ok residuals,
     tj_state j' = T_ROLLING_BACK → tj_transaction_id j' = tj_transaction_id j → (ok = true ↔ residuals = []) →
     Forall (fun r => clean (sr_state r) ∨ sr_state r = S_UNDO_FAILED ∧ sr_step_id r ∈ residuals) (tj_steps j') →
     (∀ s, s ∈ residuals → ∃ r, r ∈ tj_steps j' ∧ sr_state r = S_UNDO_FAILED ∧ sr_step_id r = s) →
     spec (Cur j') (k (j', ok, residuals)) Q) →
  spec (Cur j) (j ← (if negb (bool_decide (tj_state j = T_ROLLING_BACK)) then advance env T_ROLLING_BACK u j else mret j);
                x ← run_rollback env ex j; k x) Q.
Proof.
  intros Hst Ht Hk. eapply spec_bind; [by apply spec_to_rolling_back|]. intros j1.
  eapply spec_pure; [intros l (_ & F); exact F|]. intros (S1 & T1 & I1).
  apply spec_pre with (P' := Cur j1); [|by intros l []].
  assert (Ht1 : Forall (fun r => turning (sr_state r)) (tj_steps j1)) by (by rewrite T1).
  eapply spec_bind; [apply spec_run_rollback; by apply turning_may|]. intros [[j2 ok] residuals].
  eapply spec_pure; [intros l (_ & F); exact F|]. intros (S2 & _ & I2 & Hok & Hsteps & Hres).
  apply spec_pre with (P' := Cur j2); [|by intros l []]. apply Hk; [congruence|congruence|done| |done].
  apply Forall_forall. intros r Hr. destruct (Hsteps r Hr) as [Hset [Hold|[Hu|Hf]]]; [|left; right; tauto|by right].
  left. apply turning_clean; [|done]. rewrite Forall_forall in Ht1. by apply Ht1.
Qed.

Lemma spec_finish_prepare ex j plan ok id :
  (ok = true → tj_state j = T_VERIFYING ∧ all_verified j) →
  (ok = false → (forward_state (tj_state j) ∨ tj_state j = T_ROLLING_BACK) ∧ Forall (fun r => turning (sr_state r)) (tj_steps j)) →
  tj_capability_id j = pp_capability_id plan → tj_transaction_id j = id →
  spec (Cur j) (finish_prepare env ex j plan ok false id) (outcome_ok plan id).
Proof.
  intros Hok Hno Hcap Hid. unfold finish_prepare. destruct ok.
  - destruct (Hok eq_refl) as [Hst Hv]. eapply spec_bind; [by apply spec_publish_and_commit|]. intros [j'|e]; apply spec_ret; intros l [Hl Hp].
    + destruct Hp as (Hc & Hi & Hcom). exists j'. rewrite Hi. done.
    + destruct Hp as (j' & Hc & Hi & Hs). exists j'. rewrite Hi. done.
  - destruct (Hno eq_refl) as [Hst Ht]. apply spec_turn_back; [done..|]. intros j' ok residuals Hs Hi Hr Hsteps Hres.
    destruct ok.
    + destruct Hr as [Hr _]. specialize (Hr eq_refl) as ->.
      apply spec_then; [apply calm_terminal|apply cur_ok|]. intros _.
      eapply spec_bind; [apply spec_advance; right; rewrite Hs; by apply (bool_decide_unpack _)|]. intros j2.
      eapply spec_pure; [intros l (_ & F); exact F|]. intros (F2 & S2 & T2). apply spec_pre with (P' := Cur j2); [|by intros l []].
      apply spec_then; [apply calm_terminal|apply cur_ok|]. intros _.
      eapply spec_bind; [apply spec_advance; right; rewrite S2; by apply (bool_decide_unpack _)|]. intros j3.
      apply spec_ret. intros l (Hc & F3 & S3 & T3). exists j3. split; [done|].
      split; [by rewrite (fo_id _ _ F3), (fo_id _ _ F2), Hi|]. split; [done|]. split; [done|]. rewrite T3, T2.
      eapply Forall_impl; [exact Hsteps|]. intros r [?|[_ Hf]]; [done|]. by apply elem_of_nil in Hf.
    + eapply spec_bind; [apply spec_advance; right; rewrite Hs; by apply (bool_decide_unpack _)|]. intros j2.
      apply spec_ret. intros l (Hc & F2 & S2 & T2). exists j2. split; [done|]. split; [by rewrite (fo_id _ _ F2), Hi|].
      split; [done|]. cbn [po_residuals outcome]. rewrite T2. split; [|done]. intros E0. destruct Hr as [_ Hr]. by specialize (Hr E0).
Qed.

(** A plan that was constructed *)
Lemma increasing_lower x l : increasing (x :: l) = true → Forall (fun y => (x < y)%Z) l ∧ increasing l = true.
Proof.
  revert x. induction l as [|y l IH]; intros x Hl; [by split|]. cbn in Hl. apply andb_true_iff in Hl as [Hxy%Z.ltb_lt Hl].
  split; [|done]. constructor; [done|]. destruct (IH y Hl) as [Hy _]. eapply Forall_impl; [exact Hy|]. cbn. lia.
Qed.

Lemma increasing_nodup l : increasing l = true → NoDup l.
Proof.
  induction l as [|x l IH]; intros Hl; [constructor|]. destruct (increasing_lower x l Hl) as [Hx Hl'].
  constructor; [|by apply IH]. intros Hin. rewrite Forall_forall in Hx. specialize (Hx x Hin). lia.
Qed.

Lemma post_init_nodup p p' : ProvisioningPlan_post_init p = Ok p' → p' = p ∧ NoDup (map ps_sequence (pp_steps p)).
Proof.
  unfold ProvisioningPlan_post_init. destruct (pp_steps p) as [|s l] eqn:E1; [done|].
  destruct (increasing _) eqn:E2; [|done]. intros [= <-]. split; [done|]. by apply increasing_nodup.
Qed.

Definition constructed (p : ProvisioningPlan) : Prop := ProvisioningPlan_post_init p = Ok p.

Lemma spec_run_transaction plan ex id :
  (∀ e, Ex e) ∨ ¬ interruptible → constructed plan →
  spec log_ok (run_transaction env plan ex id) (outcome_ok plan id).
Proof.
  intros Hint [_ Hnd]%post_init_nodup. unfold run_transaction. eapply spec_bind; [apply spec_now|]. intros t. cbv zeta.
  set (j0 := initial_journal (pe_plan_digest env) plan id t).
  assert (Hseq : map sr_sequence (tj_steps j0) = map ps_sequence (pp_steps plan)) by (cbn; by rewrite map_map).
  assert (Hp0 : starts_planned j0) by (apply Forall_forall; cbn; by intros r (s & -> & _)%list_elem_of_fmap).
  eapply spec_bind with (R := fun _ => Cur j0).
  { eapply spec_conseq; [apply (spec_write log_ok)|done|].
    - intros l Hl. split; [done|]. by right; left.
    - intros ? l Hl. constructor; [done|]. unfold distinct. by rewrite Hseq. }
  intros _. eapply spec_bind; [apply spec_advance; right; by apply (bool_decide_unpack _)|]. intros j1.
  eapply spec_pure; [intros l (_ & F); exact F|]. intros (F1 & S1 & T1). apply spec_pre with (P' := Cur j1); [|by intros l []].
  eapply spec_bind; [apply spec_advance; right; rewrite S1; by apply (bool_decide_unpack _)|]. intros j2.
  eapply spec_pure; [intros l (_ & F); exact F|]. intros (F2 & S2 & T2). apply spec_pre with (P' := Cur j2); [|by intros l []].
  assert (Hid : tj_transaction_id j2 = id) by (by rewrite (fo_id _ _ F2), (fo_id _ _ F1)).
  assert (Hpl : plan_of plan j2).
  { constructor; [done|by rewrite T2, T1, Hseq|]. by rewrite (fo_capability _ _ F2), (fo_capability _ _ F1). }
  assert (Hp2 : starts_planned j2) by (unfold starts_planned; by rewrite T2, T1).
  eapply spec_bind; [apply spec_apply_and_verify; [by left|done]|]. intros [[j3 ok] dur]. destruct dur.
  { apply spec_ret. intros l (Hc & -> & S3 & I3). exists j3. rewrite I3. done. }
  eapply spec_pure; [intros l (Hc & F); exact (conj (cur_nodup _ _ Hc) F)|]. intros (Hn & I3 & Hpl3 & Hok).
  apply spec_pre with (P' := Cur j3); [|by intros l []].
  apply spec_finish_prepare; [by intros -> | |apply Hpl3|congruence].
  intros ->. destruct Hok as [[Hs Hv]|[Hs Hst]].
  - split; [by right|]. eapply Forall_impl; [exact Hv|]. intros r Hr. right. cbn in Hr. tauto.
  - split; [left; left; congruence|]. by eapply planned_stopped.
Qed.

(** ** Recovery and uninstalling

    From here on any exception may reach the caller: what counts is the log. *)
Section recovery.
Context (registry : list ((string * string) * E)) (version : string) (Hany : ∀ e, Ex e).

Lemma calm_any {A} (m : PyM (PState W) A) : silent m → calm m.
Proof. intros Hm s. split; [apply Hm|]. destruct (m s) as [[a|e] s']; cbn; auto. Qed.

Lemma calm_io_any {A} (m : PyM W A) : calm (io m).
Proof. apply calm_any, silent_io. Qed.

Lemma calm_lift_any {A} (r : res A) : calm (liftR r).
Proof. by apply calm_any. Qed.

Lemma calm_raise_any {A} k msg : calm (raiseM (A := A) k msg).
Proof. by apply calm_any. Qed.

Ltac calm_all :=
  repeat (first
    [ apply calm_ret | apply calm_now | apply calm_guarded | apply calm_attempt | apply calm_finally
    | apply calm_for_each; intros ? | apply calm_map_pm; intros ? | apply calm_all_pm; intros ?
    | apply calm_bind; [|intros ?] | apply calm_try; [|intros ?] | apply calm_io_any | apply calm_lift_any
    | apply calm_raise_any | assumption
    | progress cbv zeta
    | match goal with
      | |- calm (if ?b then _ else _) => destruct b
      | |- calm (match ?x with _ => _ end) => destruct x
      end ]).

Lemma calm_cache targets : calm (cache_targets env targets).
Proof. unfold cache_targets. calm_all. Qed.

Lemma calm_rebuild ex j : calm (rebuild_plan env ex j).
Proof. unfold rebuild_plan. calm_all. Qed.

Lemma calm_scan cap target exclude ids : calm (scan_uninstalls env cap target exclude ids).
Proof. induction ids as [|id ids IH]; cbn [scan_uninstalls]; unfold read_journal; calm_all. Qed.

Lemma calm_record_has_authority ex j plan locked live r : calm (record_has_authority env ex j plan locked live r).
Proof. unfold record_has_authority, intermediates_are_current. calm_all. Qed.

Lemma calm_authority locked exclude live cap records :
  calm (validate_ownership_authority env registry version locked exclude live cap records).
Proof.
  unfold validate_ownership_authority, load_committed_source_journal, capability_has_completed_uninstall, read_journal.
  calm_all; first [apply calm_scan | apply calm_rebuild | apply calm_record_has_authority].
Qed.

Lemma calm_idempotency plan ex existing : calm (check_idempotency env registry version plan ex existing).
Proof.
  unfold check_idempotency, live_identity_agrees, read_journal. calm_all. apply calm_authority.
Qed.

Lemma calm_inspect_steps ex steps : calm (inspect_steps env ex steps).
Proof. induction steps as [|r steps IH]; cbn [inspect_steps]; unfold safe_inspect; calm_all. Qed.

Lemma calm_boundary ex j : calm (inspect_recovery_boundary env ex j).
Proof. unfold inspect_recovery_boundary. calm_all; apply calm_inspect_steps. Qed.

Lemma calm_drift r v h : calm (detect_ownership_drift env r v h).
Proof. unfold detect_ownership_drift. calm_all. Qed.

Lemma calm_snapshot exclude j : calm (snapshot_plan_matches env registry version exclude j).
Proof. unfold snapshot_plan_matches. calm_all; apply calm_authority. Qed.

Lemma calm_absent records : calm (confirm_all_absent env records).
Proof. induction records as [|r records IH]; cbn [confirm_all_absent]; calm_all. Qed.

Lemma calm_revocation j : calm (revocation_boundary_is_safe env registry version j).
Proof. unfold revocation_boundary_is_safe. calm_all; first [apply calm_snapshot|apply calm_absent]. Qed.

Lemma calm_build_plan d : calm (build_plan env registry version d).
Proof. unfold build_plan. calm_all. Qed.

(** *** Recovering a preparation *)
Definition safe {A} (_ : A) (l : list event) : Prop := log_ok l.

Lemma spec_advance_any st u j : spec (Held j) (advance env st u j) (fun j' l => Held j' l ∧ advanced st j j').
Proof. apply spec_advance_held. by left. Qed.

Lemma spec_advance_cur st u j : spec (Cur j) (advance env st u j) (fun j' l => Cur j' l ∧ advanced st j j').
Proof. apply spec_advance. by left. Qed.

Lemma spec_require_manual j x y : spec (Held j) (require_manual env j x y) safe.
Proof.
  unfold require_manual. destruct (negb _).
  - eapply spec_bind; [apply spec_advance_any|]. intros j'. apply spec_ret. intros l [Hc _]. apply Hc.
  - eapply spec_bind; [by apply (spec_ret _ (Held j) j (fun _ => Held j))|]. intros j'. apply spec_ret. intros l Hc. apply Hc.
Qed.

Lemma cur_safe {A} (a : A) j l : Cur j l → safe a l.
Proof. apply cur_ok. Qed.

Lemma spec_finalize_rollback j ok residuals : spec (Cur j) (finalize_recovery_rollback env j ok residuals) safe.
Proof.
  unfold finalize_recovery_rollback. cbv zeta. assert (Hat : ∀ t st u j, spec (Cur j) (advance_at env t st u j) (fun j' => Cur j')).
  { intros t st u i. eapply spec_conseq; [apply (spec_cur (advance_at env t st u) st), spec_advance_at; by left|done|by intros j' l []]. }
  destruct ok.
  - apply spec_then; [apply calm_terminal|apply cur_ok|]. intros _. eapply spec_bind; [apply Hat|]. intros j1.
    apply spec_then; [apply calm_terminal|apply cur_ok|]. intros _. eapply spec_bind; [apply Hat|]. intros j2.
    apply spec_ret. apply cur_ok.
  - eapply spec_bind; [apply Hat|]. intros j1. apply spec_ret. apply cur_ok.
Qed.

Lemma spec_resume_rollback ex j : spec (Cur j) (resume_rollback env ex j) safe.
Proof.
  unfold resume_rollback. eapply spec_bind; [apply spec_run_rollback; by left|]. intros [[j' ok] residuals].
  eapply spec_pre; [apply (spec_finalize_rollback j')|by intros l []].
Qed.

(** [advance] under a condition *)
Lemma spec_advance_when (b : bool) st u j :
  spec (Cur j) (if b then advance env st u j else mret j)
    (fun j' l => Cur j' l ∧ if b then advanced st j j' else j' = j).
Proof. destruct b; [apply spec_advance_cur|by apply spec_ret]. Qed.

Lemma spec_resume_apply ex j plan :
  forward_state (tj_state j) ∨ tj_state j = T_RECOVERING → plan_of plan j →
  spec (Cur j) (resume_apply env ex j plan) safe.
Proof.
  intros Hst Hpl. unfold resume_apply. eapply spec_bind; [apply spec_advance_when|]. intros j1.
  eapply spec_pure; [intros l (_ & F); exact F|]. intros H1. apply spec_pre with (P' := Cur j1); [|by intros l []].
  assert (Hj1 : forward_state (tj_state j1) ∧ plan_of plan j1).
  { case_bool_decide as Hr; [|subst j1; tauto]. destruct H1 as (F1 & S1 & T1). split; [by left|].
    eapply plan_of_same; [done|by rewrite T1|apply F1]. }
  destruct Hj1 as [Hst1 Hpl1]. eapply spec_bind; [by apply spec_apply_and_verify|]. intros [[j2 ok] dur].
  destruct dur; [|destruct ok].
  - destruct ok; [by intros s (_ & [=] & _)|]. apply spec_ret. intros l [Hc _]. by apply cur_ok in Hc.
  - eapply spec_pure; [intros l (_ & F); exact F|]. intros (_ & Hpl2 & S2 & V2).
    apply spec_pre with (P' := Cur j2); [|by intros l []].
    eapply spec_bind; [apply spec_publish_and_commit; [done|done|apply Hpl2]|]. intros [j3|e]; apply spec_ret; by intros l [].
  - apply spec_pre with (P' := Cur j2); [|by intros l []]. eapply spec_bind; [apply spec_advance_when|]. intros j3.
    eapply spec_pre; [apply spec_resume_rollback|by intros l []].
Qed.

(** The states in which recovery goes forward *)
Lemma boundary_forward ex j :
  gives (inspect_recovery_boundary env ex j) (fun v => v.1 = RESUME_APPLY →
    tj_state j ∈ [T_APPLYING; T_RECOVERY_REQUIRED; T_RECOVERING; T_VERIFYING; T_PREPARE_TERMINAL_PREPARED]).
Proof.
  intros s a s'. unfold inspect_recovery_boundary. destruct (tj_state j); intros Ha Hv;
    try (by apply (bool_decide_unpack _)); by injection Ha as <- <-.
Qed.

Lemma spec_recover_verdict ex j plan verdict reason :
  plan_of plan j →
  (verdict = RESUME_APPLY → tj_state j ∈ [T_APPLYING; T_RECOVERY_REQUIRED; T_RECOVERING; T_VERIFYING; T_PREPARE_TERMINAL_PREPARED]) →
  spec (Cur j) (recover_verdict env ex j plan verdict reason) safe.
Proof.
  intros Hpl Hv. unfold recover_verdict. destruct (decide (verdict = AMBIGUOUS)) as [->|Hna].
  { eapply spec_pre; [apply spec_require_manual|]. by intros l []. }
  assert (Hgo : spec (Cur j) (
      journal ← (if bool_decide (tj_state j = T_RECOVERY_REQUIRED) then advance env T_RECOVERING no_update j else mret j);
      if bool_decide (tj_state journal = T_PREPARE_TERMINAL_PREPARED) then
        _ ← verify_terminal_identity env [] true;
        _ ← (records ← io (pe_read_ownership env (tj_capability_id journal)); verify_terminal_identity env records true);
        journal' ← advance env T_COMMITTED no_update journal;
        _ ← (records ← io (pe_read_ownership env (tj_capability_id journal)); verify_terminal_identity env records true);
        mret (decision journal' RESUME "resumed and committed")
      else match verdict with
      | RESUME_APPLY => resume_apply env ex journal plan
      | _ =>
          journal ← (if bool_decide (tj_state journal ∈ [T_RECOVERING; T_APPLYING])
                     then advance env T_ROLLING_BACK no_update journal else mret journal);
          resume_rollback env ex journal
      end) safe); [|by destruct verdict].
  eapply spec_bind; [apply spec_advance_when|]. intros j1.
  eapply spec_pure; [intros l (_ & F); exact F|]. intros H1. apply spec_pre with (P' := Cur j1); [|by intros l []].
  assert (Hre : calm (records ← io (pe_read_ownership env (tj_capability_id j1)); verify_terminal_identity env records true)).
  { apply calm_bind; [apply calm_io_any|]. intros records. apply calm_terminal. }
  destruct (bool_decide (tj_state j1 = T_PREPARE_TERMINAL_PREPARED)) eqn:Hp.
  - apply spec_then; [apply calm_terminal|apply cur_ok|]. intros _. apply spec_then; [exact Hre|apply cur_ok|]. intros _.
    eapply spec_bind; [apply spec_advance_cur|]. intros j2. apply spec_pre with (P' := Cur j2); [|by intros l []].
    apply spec_then; [exact Hre|apply cur_ok|]. intros _. apply spec_ret. apply cur_ok.
  - assert (Hroll : spec (Cur j1) (
        journal ← (if bool_decide (tj_state j1 ∈ [T_RECOVERING; T_APPLYING]) then advance env T_ROLLING_BACK no_update j1 else mret j1);
        resume_rollback env ex journal) safe).
    { eapply spec_bind; [apply spec_advance_when|]. intros j2. eapply spec_pre; [apply spec_resume_rollback|by intros l []]. }
    destruct verdict; [clear Hroll|done..]. specialize (Hv eq_refl). destruct (bool_decide (tj_state j = T_RECOVERY_REQUIRED)) eqn:Hr; [|apply bool_decide_eq_false in Hr].
    + destruct H1 as (F1 & S1 & T1). apply spec_resume_apply; [by right|]. eapply plan_of_same; [done|by rewrite T1|apply F1].
    + subst j1. apply spec_resume_apply; [|done]. unfold forward_state. rewrite !elem_of_cons, elem_of_nil in Hv. apply bool_decide_eq_false in Hp. tauto.
Qed.

Lemma rebuild_plan_gives ex j : gives (rebuild_plan env ex j) (fun p => constructed p ∧ pp_capability_id p = tj_capability_id j).
Proof.
  unfold rebuild_plan. apply gives_bind. intros steps s p s'. unfold liftR. intros [= Hp _].
  destruct (dict_item "id" (tj_selected_method j)); [|done]. destruct (dict_item "kind" _); [|done].
  destruct (dict_item "id" _); [|done]. destruct (dict_item "version" _); [|done]. cbn in Hp. unfold make_plan in Hp.
  destruct (post_init_nodup _ _ Hp) as [-> _]. by split.
Qed.

Lemma steps_match_plan j p :
  constructed p → pp_capability_id p = tj_capability_id j → journal_steps_match_plan_exactly j p = true →
  distinct j ∧ plan_of p j.
Proof.
  intros [_ Hn]%post_init_nodup Hcap. unfold journal_steps_match_plan_exactly, steps_match_exactly.
  destruct (negb (_ =? _)%nat); [done|]. case_bool_decide as Hd; cbn; [|done].
  destruct (forallb _ (map sr_sequence _)) eqn:Ef; cbn; [|done]. intros _. split; [done|]. constructor; [done| |done].
  intros z Hz. rewrite forallb_forall in Ef. specialize (Ef z). rewrite <- list_elem_of_In in Ef. specialize (Ef Hz).
  apply existsb_exists in Ef as (y & Hy & ->%Z.eqb_eq). by apply list_elem_of_In.
Qed.

Lemma spec_recover_prepare j : spec (Held j) (recover_prepare env registry version j) safe.
Proof.
  assert (Hl : ∀ l, Held j l → log_ok l) by (by intros l []).
  unfold recover_prepare. apply spec_then; [apply calm_attempt, calm_lift_any|done|]. intros [ex|e]; [|apply spec_require_manual].
  apply spec_then; [apply calm_attempt, calm_io_any|done|]. intros [ex'|e]; [|apply spec_require_manual].
  eapply spec_bind with (R := fun x l => Held j l ∧
      match x with inl p => constructed p ∧ pp_capability_id p = tj_capability_id j | inr _ => True end).
  { apply spec_gives; [apply spec_calm; [apply calm_attempt, calm_rebuild|done]|]. intros s x s'. unfold attempt.
    destruct (rebuild_plan env ex' j s) as [[p|e] s1] eqn:Er; [|by destruct (value_or_key_error e); intros [= <- _]].
    intros [= <- _]. by eapply rebuild_plan_gives. }
  intros [p|e]; [|eapply spec_pre; [apply spec_require_manual|by intros l []]].
  eapply spec_pure; [intros l (_ & F); exact F|]. intros [Hp Hcap]. apply spec_pre with (P' := Held j); [|by intros l []].
  apply spec_then; [apply calm_cache|done|]. intros _. destruct (negb _); [apply spec_require_manual|].
  destruct (journal_steps_match_plan_exactly j p) eqn:Em; [|apply spec_require_manual]. cbn [negb].
  destruct (negb _); [apply spec_require_manual|]. destruct (steps_match_plan j p Hp Hcap Em) as [Hn Hpl].
  apply spec_pre with (P' := Cur j); [|by intros l ?].
  eapply spec_bind; [apply spec_gives; [apply spec_calm; [apply calm_boundary|apply cur_ok]|apply boundary_forward]|].
  intros [verdict reason]. eapply spec_pure; [intros l (_ & F); exact F|]. intros Hv.
  eapply spec_pre; [by apply spec_recover_verdict|by intros l []].
Qed.

(** *** Uninstalling *)
Definition uninstalls (j : TransactionJournal) : Prop := tj_operation j = "uninstall".

(** The journal of an uninstall in the program: every version that the disk may hold has the
    same records for the steps [zs], those still to be processed *)
Record UCur (zs : list Z) (box : TransactionJournal) (l : list event) : Prop := {
  uc_ok : log_ok l;
  uc_uninstall : uninstalls box;
  uc_distinct : distinct box;
  uc_held : disk (tj_transaction_id box) l ≠ [];
  uc_steps : ∀ j r, j ∈ disk (tj_transaction_id box) l → r ∈ tj_steps box → sr_sequence r ∈ zs → r ∈ tj_steps j
}.

Lemma spec_uninstall_write (P : list event → Prop) j :
  uninstalls j → (∀ l, P l → log_ok l) → spec P (write_journal env j) (fun _ => Held j).
Proof. intros Hj Hp. apply spec_write. intros l Hl. split; [by apply Hp|by left]. Qed.

Lemma held_ucur zs j l : Held j l → uninstalls j → distinct j → UCur zs j l.
Proof.
  intros [Hl Hd] Hu Hn. constructor; [done..| |]; rewrite Hd; [done|]. by intros i r ->%list_elem_of_singleton.
Qed.

Lemma spec_uninstall_advance (P : list event → Prop) st u j :
  uninstalls j → (∀ l, P l → log_ok l) →
  spec P (advance env st u j) (fun j' l => Held j' l ∧ uninstalls j' ∧ advanced st j j').
Proof.
  intros Hj Hp. unfold advance. eapply spec_bind; [apply spec_now|]. intros t.
  eapply spec_bind with (R := fun j' l => P l ∧ advanced st j j').
  { apply spec_lift; [intros j' l Hj' Hl; split; [done|by eapply with_state_follows]|].
    intros e l _ Hl. split; [by apply Hp|apply Hany]. }
  intros j'. eapply spec_pure; [intros l (_ & F); exact F|]. intros Ha.
  assert (Hu : uninstalls j') by (unfold uninstalls; destruct Ha as (F & _); by rewrite (fo_operation _ _ F)).
  apply spec_pre with (P' := P); [|by intros l []].
  eapply spec_bind; [by apply (spec_uninstall_write P j')|]. intros ?. by apply spec_ret.
Qed.

Lemma spec_uninstall_step zs st u box r :
  at_step box r →
  spec (UCur zs box) (advance_step env st u box r)
    (fun '(box', r') l => UCur zs box' l ∧ at_step box' r' ∧ sr_sequence r' = sr_sequence r ∧ sr_state r' = st).
Proof.
  intros Hr. apply spec_pure with (F := uninstalls box ∧ distinct box); [by intros l []|]. intros [Hu Hn]. unfold advance_step.
  eapply spec_bind with (R := fun x l => UCur zs box l ∧ step_follows r x ∧ sr_state x = st).
  { apply spec_lift; [intros x l Hx Hc; split; [done|by eapply StepRecord_with_state_follows]|].
    intros e l _ Hl. split; [apply Hl|apply Hany]. }
  intros r'. eapply spec_pure; [intros l (_ & F); exact F|]. intros [Hf Hs].
  assert (Hn' : distinct (with_step r' box)) by (unfold distinct; by rewrite with_step_sequences).
  eapply spec_bind; [apply (spec_uninstall_write _ (with_step r' box)); [done|by intros l [[] _]]|].
  intros ?. apply spec_ret. intros l Hl. split; [by apply held_ucur|]. split; [|split; [apply Hf|done]].
  apply with_step_at; [|done]. eapply with_step_elem; [by apply at_step_elem|apply Hf].
Qed.

(** A journal that differs only outside [zs] may be on the disk too. *)
Lemma ucur_write zs box j b l :
  UCur zs box l → uninstalls j → tj_transaction_id j = tj_transaction_id box →
  (∀ r, r ∈ tj_steps box → sr_sequence r ∈ zs → r ∈ tj_steps j) → UCur zs box (l ++ [EWrite j b]).
Proof.
  intros [Hl Hu Hn Hh Hs] Hj Hid Hr. constructor; [|done|done|..].
  - apply log_ok_snoc. split; [done|by left].
  - rewrite disk_snoc. cbn. unfold written. rewrite Hid, String.eqb_refl. by destruct b.
  - intros i r. rewrite disk_snoc. cbn. unfold written. rewrite Hid, String.eqb_refl. intros Hi.
    assert (i = j ∨ i ∈ disk (tj_transaction_id box) l) as [->|Hold] by (destruct b; set_solver); [apply Hr|by apply Hs].
Qed.

Lemma mark_failed_sequence kind error t r r' : mark_uninstall_step_failed kind error t r = Ok r' → sr_sequence r' = sr_sequence r.
Proof.
  unfold mark_uninstall_step_failed. intros Hm.
  destruct (if bool_decide (sr_state r = S_PLANNED) then _ else _) as [r1|e] eqn:E1; [|done]. cbn in Hm.
  destruct (StepRecord_with_state_follows _ _ _ _ Hm) as [Hf _]. rewrite (sf_sequence _ _ Hf).
  case_bool_decide; [|by simplify_eq]. destruct (StepRecord_with_state_follows _ _ _ _ E1) as [Hf1 _]. apply Hf1.
Qed.

Lemma spec_uninstall_failed boxed kind error z zs box residuals r :
  (z ∉ zs) → sr_sequence r = z →
  spec (UCur (z :: zs) box) (uninstall_failed env boxed kind error box residuals r) (fun p l => UCur zs p.1.1 l).
Proof.
  intros Hz Hq. unfold uninstall_failed. eapply spec_bind; [apply spec_now|]. intros t.
  eapply spec_bind with (R := fun r' l => UCur (z :: zs) box l ∧ sr_sequence r' = z).
  { apply spec_lift; [intros r' l Hr' Hc; split; [done|]; rewrite <- Hq; by eapply mark_failed_sequence|].
    intros e l _ Hl. split; [apply Hl|apply Hany]. }
  intros r'. eapply spec_pure; [intros l (_ & F); exact F|]. intros Hq'.
  intros s [Hc _]. unfold write_journal, mbind, pym_bind.
  assert (Hw : ∀ b, UCur zs box (ps_log s ++ [EWrite (with_step r' box) b])).
  { intros b. apply ucur_write; [|apply Hc|done|].
    - destruct Hc as [A B C F G]. constructor; try done. intros i x Hi Hx Hin. apply G; [done..|by right].
    - intros x Hx Hin. cbn. apply list_elem_of_fmap. exists x. split; [|done].
      destruct (Z.eqb_spec (sr_sequence x) (sr_sequence r')) as [He|]; [|done]. congruence. }
  destruct (pe_write_journal env (with_step r' box) (ps_world s)) as [[u|e] w]; cbn.
  - destruct boxed; [|apply Hw]. apply held_ucur; [|apply Hc|unfold distinct; rewrite with_step_sequences; apply Hc].
    constructor; [apply (Hw true)|]. rewrite disk_snoc. cbn. unfold written. by rewrite String.eqb_refl.
  - split; [apply (Hw false)|apply Hany].
Qed.

Lemma run_removal_ok zs m : ∀ log box,
  UCur zs box log →
  let '(_, box', s') := run_removal env m log box in
  UCur zs box' (ps_log s') ∧ tj_steps box' = tj_steps box.
Proof.
  induction m as [r w|c w continue IH]; intros log box Hc; cbn [run_removal]; [done|].
  destruct (pe_now env w) as [t w1]. destruct (pe_write_journal env (with_custody_record t c box) w1) as [r w2].
  assert (Hw : UCur zs box (log ++ [EWrite (with_custody_record t c box) (is_ok r)])).
  { apply ucur_write; [done|apply Hc|done|done]. }
  specialize (IH r w2 (log ++ [EWrite (with_custody_record t c box) (is_ok r)])
                (if is_ok r then with_custody_record t c box else box)).
  destruct (run_removal _ _ _ _) as [[r' box'] s']. destruct (is_ok r) eqn:Er; [|by apply IH].
  apply IH. apply held_ucur; [|apply Hc|apply Hc]. constructor; [apply Hw|].
  rewrite disk_snoc. cbn. unfold written. by rewrite String.eqb_refl.
Qed.

Lemma ucur_ok zs box l : UCur zs box l → log_ok l.
Proof. intros Hc. apply Hc. Qed.

(** The file is touched only while every version of the journal has the step as [APPLYING]. *)
Lemma spec_remove_owned z zs handle validated sha resource r box :
  at_step box r → sr_sequence r = z → sr_state r = S_APPLYING →
  spec (UCur (z :: zs) box) (remove_owned env handle validated sha resource r box)
    (fun x l => UCur (z :: zs) x.2 l ∧ tj_steps x.2 = tj_steps box).
Proof.
  intros Hr Hq Hs s Hc. unfold remove_owned.
  assert (Hn : UCur (z :: zs) box (ps_log s ++ [ERemove r])).
  { destruct Hc as [A B C F G]. constructor; [|done|done|by rewrite disk_snoc|].
    - apply log_ok_snoc. split; [done|]. split; [done|]. exists (tj_transaction_id box). split; [done|].
      intros j Hj. apply G; [done|by apply at_step_elem|rewrite Hq; by left].
    - intros j x. rewrite disk_snoc. apply G. }
  pose proof (run_removal_ok (z :: zs) (pa_remove env handle validated sha resource (ps_world s)) _ box Hn) as Hm.
  by destruct (run_removal _ _ _ _) as [[removed box'] s'].
Qed.

(** The file is gone, or was removed; or the step failed *)
Definition acted_ok (z : Z) (zs : list Z) (x : (TransactionJournal * StepRecord) + progress) (l : list event) : Prop :=
  match x with
  | inl (box, r) => UCur (z :: zs) box l ∧ at_step box r ∧ sr_sequence r = z
  | inr p => UCur zs p.1.1 l
  end.

Lemma spec_acted_failed boxed kind error z zs box residuals r :
  (z ∉ zs) → sr_sequence r = z →
  spec (UCur (z :: zs) box) (p ← uninstall_failed env boxed kind error box residuals r; mret (inr p)) (acted_ok z zs).
Proof. intros Hz Hq. eapply spec_bind; [by apply spec_uninstall_failed|]. intros p. by apply spec_ret. Qed.

Lemma spec_acted_applied z zs box r :
  at_step box r → sr_sequence r = z →
  spec (UCur (z :: zs) box) (t ← now env; jr ← advance_step env S_APPLIED (completed t) box r; mret (inl jr)) (acted_ok z zs).
Proof.
  intros Hr Hq. eapply spec_bind; [apply spec_now|]. intros t. eapply spec_bind; [by apply spec_uninstall_step|].
  intros [box' r']. apply spec_ret. intros l (Hc & Ha & Hq' & _). split; [done|]. split; [done|congruence].
Qed.

Lemma spec_uninstall_act handle validated resource z zs box residuals r :
  (z ∉ zs) → at_step box r → sr_sequence r = z → sr_state r = S_APPLYING →
  spec (UCur (z :: zs) box) (uninstall_act env handle validated resource box residuals r) (acted_ok z zs).
Proof.
  intros Hz Hr Hq Hs. unfold uninstall_act.
  apply spec_then; [apply calm_attempt, calm_io_any|apply ucur_ok|]. intros [i|e].
  - destruct (fi_is_symlink i); [by apply spec_acted_failed|].
    apply spec_then; [destruct (List.find _ _); [apply calm_drift|apply calm_ret]|apply ucur_ok|].
    intros [d|]; [by apply spec_acted_failed|].
    eapply spec_bind; [by apply spec_remove_owned|]. intros [removed box'].
    eapply spec_pure; [intros l (_ & F); exact F|]. cbn [snd]. intros Hst.
    apply spec_pre with (P' := UCur (z :: zs) box'); [|by intros l []].
    assert (Hr' : at_step box' r) by (unfold at_step, find_step; by rewrite Hst).
    destruct removed; [by apply spec_acted_applied|by apply spec_acted_failed].
  - destruct (is_instance e FileNotFoundError); [|by apply spec_acted_failed].
    destruct (existsb _ _); [by apply spec_acted_failed|by apply spec_acted_applied].
Qed.

Lemma ucur_drop z zs box l : UCur (z :: zs) box l → UCur zs box l.
Proof. intros [A B C F G]. constructor; try done. intros i x Hi Hx Hin. apply G; [done..|by right]. Qed.

Lemma spec_uninstall_verify handle validated z zs box residuals ok r :
  at_step box r →
  spec (UCur (z :: zs) box) (uninstall_verify env handle validated box residuals ok r) (fun p l => UCur zs p.1.1 l).
Proof.
  intros Hr. unfold uninstall_verify. apply spec_then; [apply calm_attempt, calm_io_any|apply ucur_ok|]. intros found.
  eapply spec_bind; [apply spec_now|]. intros t.
  assert (Hstep : ∀ st u (k : TransactionJournal → StepRecord → progress), (∀ b x, (k b x).1.1 = b) →
    spec (UCur (z :: zs) box) ('(b, x) ← advance_step env st u box r; mret (k b x)) (fun p l => UCur zs p.1.1 l)).
  { intros st u k Hk. eapply spec_bind; [by apply spec_uninstall_step|]. intros [box' r']. apply spec_ret.
    intros l [Hc _]. rewrite Hk. by eapply ucur_drop. }
  destruct found as [i|e]; [|destruct (is_instance e FileNotFoundError)].
  - by apply (Hstep _ _ (fun b x => (b, residuals ++ [sr_step_id x], false))).
  - by apply (Hstep _ _ (fun b _ => (b, residuals, ok))).
  - by apply (Hstep _ _ (fun b x => (b, residuals ++ [sr_step_id x], false))).
Qed.

Lemma spec_uninstall_one z zs p :
  (z ∉ zs) → spec (UCur (z :: zs) p.1.1) (uninstall_one env z p) (fun p' l => UCur zs p'.1.1 l).
Proof.
  intros Hz. destruct p as [[box residuals] ok]. cbn [fst]. unfold uninstall_one.
  eapply spec_bind; [apply spec_journal_step, ucur_ok|]. intros r.
  eapply spec_pure; [intros l (_ & F); exact F|]. intros Hf. destruct (find_step_sequence _ _ _ Hf) as [Hq Hr].
  apply spec_pre with (P' := UCur (z :: zs) box); [|by intros l []].
  case_bool_decide; [apply spec_ret; intros l Hc; by eapply ucur_drop|].
  apply spec_then; [apply calm_lift_any|apply ucur_ok|]. intros value.
  destruct value; try (apply spec_raise; [done|apply ucur_ok]).
  apply spec_then; [apply calm_attempt; calm_all|apply ucur_ok|]. intros [[validated handle]|e]; [|by apply spec_uninstall_failed].
  eapply spec_bind with (R := fun x l => UCur (z :: zs) x.1 l ∧ at_step x.1 x.2 ∧ sr_sequence x.2 = z).
  { case_bool_decide; [|by apply spec_ret]. eapply spec_bind; [apply spec_now|]. intros t.
    eapply spec_conseq; [by apply spec_uninstall_step|done|]. intros [box' r'] l (Hc & Ha & Hq' & _).
    split; [done|]. split; [done|]. cbn. congruence. }
  intros [box1 r1]. eapply spec_pure; [intros l (_ & F); exact F|]. cbn [fst snd]. intros [Hr1 Hq1].
  apply spec_pre with (P' := UCur (z :: zs) box1); [|by intros l []].
  eapply spec_bind with (R := acted_ok z zs).
  { case_bool_decide; [by apply spec_uninstall_act|by apply spec_ret]. }
  intros [[box2 r2]|p]; [|by apply spec_ret].
  eapply spec_pure; [intros l (_ & F); exact F|]. intros [Hr2 Hq2].
  apply spec_pre with (P' := UCur (z :: zs) box2); [|by intros l []].
  eapply spec_bind with (R := fun x l => UCur (z :: zs) x.1 l ∧ at_step x.1 x.2).
  { case_bool_decide; [|by apply spec_ret]. eapply spec_conseq; [by apply spec_uninstall_step|done|].
    by intros [box' r'] l (Hc & Ha & _). }
  intros [box3 r3]. eapply spec_pure; [intros l (_ & F); exact F|]. cbn [fst snd]. intros Hr3.
  eapply spec_pre; [by apply (spec_uninstall_verify handle validated z zs box3)|by intros l []].
Qed.

Lemma spec_uninstall_loop zs p :
  NoDup zs → spec (UCur zs p.1.1) (uninstall_loop env zs p) (fun p' l => UCur [] p'.1.1 l).
Proof.
  revert p. induction zs as [|z zs IH]; intros p Hn; cbn [uninstall_loop]; [by apply spec_ret|].
  apply NoDup_cons in Hn as [Hz Hn]. eapply spec_bind; [by apply spec_uninstall_one|]. intros p'. by apply IH.
Qed.

Lemma snapshot_distinct exclude j :
  gives (snapshot_plan_matches env registry version exclude j) (fun reason => reason = None → distinct j).
Proof.
  unfold snapshot_plan_matches. destruct (List.filter _ _) as [|o owned]; [by intros s a s' [= <- _]|].
  apply gives_bind. intros valid. destruct (negb valid); [by intros s a s' [= <- _]|].
  apply gives_bind. intros [plan|e] s a s'; intros [= <- _]; [|done]. destruct (negb _); [done|].
  unfold uninstall_journal_steps_match_plan_exactly, steps_match_exactly. destruct (negb (_ =? _)%nat); [done|].
  by case_bool_decide.
Qed.

Lemma spec_run_uninstall_loop j :
  uninstalls j →
  spec (Held j) (run_uninstall_loop env registry version j) (fun x l => log_ok l ∧ uninstalls x.1.1).
Proof.
  intros Hu. unfold run_uninstall_loop, uninstall_source_matches. assert (Hl : ∀ l, Held j l → log_ok l) by (by intros l []).
  eapply spec_bind with (R := fun b l => Held j l ∧ (b = true → distinct j)).
  { eapply spec_bind; [apply spec_gives; [apply spec_calm; [apply calm_snapshot|done]|apply snapshot_distinct]|].
    intros [reason|]; apply spec_ret; intros l [Hc Hd]; split; [done|done|done|by intros _; apply Hd]. }
  intros matches. eapply spec_pure; [intros l (_ & F); exact F|]. intros Hd. apply spec_pre with (P' := Held j); [|by intros l []].
  destruct matches; cbn [negb].
  - apply spec_then; [apply calm_io_any|done|]. intros _. destruct (unresolved_custody_records j) as [|c cs]; [|apply spec_ret; intros l Hc; split; [by apply Hl|done]].
    specialize (Hd eq_refl). eapply spec_bind with (R := fun p l => UCur [] p.1.1 l).
    { eapply spec_pre; [by apply (spec_uninstall_loop _ (j, [], true))|]. intros l Hc. by apply held_ucur. }
    intros [[j' residuals] ok]. apply spec_ret. intros l Hc. split; apply Hc.
  - apply spec_then; [apply calm_attempt, calm_terminal|done|]. intros v. apply spec_ret. intros l Hc. split; [by apply Hl|done].
Qed.

(** Ownership is revoked after the end of the uninstall is on the disk. *)
Lemma spec_revoke j :
  tj_state j = T_UNINSTALLED → spec (Held j) (revoke_ownership_and_verify env (tj_capability_id j)) safe.
Proof.
  intros Hs. unfold revoke_ownership_and_verify. eapply spec_bind with (R := fun _ => log_ok).
  { intros s [Hl Hd]. cbn. apply log_ok_snoc. split; [done|]. by exists (tj_transaction_id j), j. }
  intros _. apply (spec_calm log_ok); [|done]. calm_all.
Qed.

Lemma spec_complete_uninstall P j records :
  uninstalls j → (∀ l, P l → log_ok l) → spec P (complete_uninstall env j records) safe.
Proof.
  intros Hu Hp. unfold complete_uninstall. apply spec_then; [apply calm_terminal|done|]. intros _.
  eapply spec_bind; [by apply spec_uninstall_advance|]. intros j1.
  eapply spec_pure; [intros l (_ & F); exact F|]. intros [Hu1 _]. apply spec_pre with (P' := Held j1); [|by intros l []].
  apply spec_then; [apply calm_terminal|by intros l []|]. intros _.
  eapply spec_bind; [apply spec_uninstall_advance; [done|by intros l []]|]. intros j2.
  eapply spec_pure; [intros l (_ & F); exact F|]. intros [Hu2 (_ & S2 & _)].
  eapply spec_bind; [eapply spec_pre; [by apply spec_revoke|by intros l []]|]. intros b. by apply spec_ret.
Qed.

Lemma spec_end_in (P : list event → Prop) {A} st u j (k : TransactionJournal → A) :
  uninstalls j → (∀ l, P l → log_ok l) → spec P (j ← advance env st u j; mret (k j)) safe.
Proof.
  intros Hu Hp. eapply spec_bind; [by apply spec_uninstall_advance|]. intros j'. apply spec_ret. intros l [Hc _]. apply Hc.
Qed.

Lemma spec_recover_revocation P j :
  uninstalls j → (∀ l, P l → log_ok l) → spec P (recover_revocation env registry version j) safe.
Proof.
  intros Hu Hp. unfold recover_revocation. apply spec_then; [apply calm_revocation|done|]. intros [reason|].
  - by apply spec_end_in.
  - eapply spec_bind; [by apply spec_complete_uninstall|]. intros j'. by apply spec_ret.
Qed.

Lemma spec_resume_uninstall j :
  uninstalls j → spec (Held j) (resume_uninstall env j) (fun j' l => Held j' l ∧ uninstalls j').
Proof.
  intros Hu. unfold resume_uninstall. case_bool_decide; [|by apply spec_ret].
  assert (Ha : ∀ st j, uninstalls j → spec (Held j) (advance env st no_update j) (fun j' l => Held j' l ∧ uninstalls j')).
  { intros st i Hi. eapply spec_conseq; [apply (spec_uninstall_advance (Held i)); [done|by intros l []]|done|]. by intros j' l (? & ? & _). }
  eapply spec_bind; [by apply Ha|]. intros j1. eapply spec_pure; [intros l (_ & F); exact F|]. intros Hu1.
  apply spec_pre with (P' := Held j1); [|by intros l []]. destruct (forallb _ _); by apply Ha.
Qed.

Lemma spec_recover_uninstall j : uninstalls j → spec (Held j) (recover_uninstall env registry version j) safe.
Proof.
  intros Hu0. unfold recover_uninstall. apply spec_then; [apply calm_cache|by intros l []|]. intros _.
  destruct (existsb _ _); [apply spec_require_manual|]. eapply spec_bind; [by apply spec_resume_uninstall|]. intros j1.
  eapply spec_pure; [intros l (_ & F); exact F|]. intros Hu. apply spec_pre with (P' := Held j1); [|by intros l []].
  case_bool_decide.
  - eapply spec_bind; [by apply spec_run_uninstall_loop|]. intros [[j2 ok] residuals].
    eapply spec_pure; [intros l (_ & F); exact F|]. cbn [fst]. intros Hu2.
    assert (Hl : ∀ l, log_ok l ∧ uninstalls j2 → log_ok l) by (by intros l []).
    destruct (negb ok); [destruct (_ || _); by apply spec_end_in|].
    eapply spec_bind; [by apply spec_uninstall_advance|]. intros j3.
    eapply spec_pure; [intros l (_ & F); exact F|]. intros [Hu3 _]. apply spec_recover_revocation; [done|]. by intros l [[] _].
  - case_bool_decide; [|apply spec_recover_revocation; [done|by intros l []]].
    apply spec_then; [apply calm_terminal|by intros l []|]. intros _.
    eapply spec_bind; [apply spec_uninstall_advance; [done|by intros l []]|]. intros j2.
    eapply spec_pure; [intros l (_ & F); exact F|]. intros [Hu2 (_ & S2 & _)].
    eapply spec_bind; [eapply spec_pre; [by apply spec_revoke|by intros l []]|]. intros b. by apply spec_ret.
Qed.

Lemma spec_recover_one j : spec (Held j) (recover_one env registry version j) safe.
Proof.
  unfold recover_one. cbv zeta.
  assert (Hg : ∀ reason, spec (Held j) (journal ← advance env T_RECOVERY_REQUIRED (with_recovery [("reason", PStr reason)]) j;
                                        mret (decision journal REQUIRE_MANUAL reason)) safe).
  { intros reason. eapply spec_bind; [apply spec_advance_any|]. intros j'. apply spec_ret. intros l [Hc _]. apply Hc. }
  case_bool_decide; [apply Hg|]. case_bool_decide; [apply Hg|].
  destruct (String.eqb_spec (tj_operation j) "uninstall"); [by apply spec_recover_uninstall|apply spec_recover_prepare].
Qed.

Lemma spec_recover_each ids : spec log_ok (recover_each env registry version ids) safe.
Proof.
  induction ids as [|id ids IH]; cbn [recover_each]; [by apply spec_ret|].
  apply spec_then; [apply calm_attempt, calm_io_any|done|]. intros [j|e].
  - eapply spec_bind with (R := fun _ => Held j).
    { intros s Hl. cbn. constructor; [by apply log_ok_snoc|]. rewrite disk_snoc. cbn. unfold written. by rewrite String.eqb_refl. }
    intros _. case_bool_decide; cbn [negb].
    + eapply spec_bind; [apply spec_recover_one|]. intros d. eapply spec_bind; [exact IH|]. intros ds. by apply spec_ret.
    + eapply spec_pre; [exact IH|]. by intros l [].
  - eapply spec_bind; [exact IH|]. intros ds. by apply spec_ret.
Qed.

Lemma spec_recover_pending_locked : spec log_ok (recover_pending_locked env registry version) safe.
Proof.
  unfold recover_pending_locked. apply spec_then; [apply calm_attempt, calm_io_any|done|]. intros [ids|e];
    [apply spec_recover_each|by apply spec_ret].
Qed.

(** *** The entry points *)
Lemma spec_try {A} P (m : PyM (PState W) A) hd h :
  spec P m safe → (∀ e, spec log_ok (h e) safe) → spec P (try_except m hd h) safe.
Proof.
  intros Hm Hh s Hs. specialize (Hm s Hs). unfold try_except. destruct (m s) as [[a|e] s']; [done|].
  destruct Hm as [Hl He]. destruct (hd e); [by apply Hh|done].
Qed.

Lemma spec_finally {A} P (m : PyM (PState W) A) f : spec P m safe → calm f → spec P (try_finally m f) safe.
Proof.
  intros Hm Hf s Hs. specialize (Hm s Hs). unfold try_finally, safe in *. destruct (m s) as [r s'].
  destruct (Hf s') as [Hl He]. assert (log_ok (ps_log s')) by (destruct r; tauto).
  destruct (f s') as [[u|e] s'']; cbn in *; rewrite Hl; [|done]. by destruct r.
Qed.

Lemma spec_with_lock {A} id (m : PyM (PState W) A) : spec log_ok m safe → spec log_ok (with_lock env id m) safe.
Proof.
  intros Hm. unfold with_lock. apply spec_then; [apply calm_io_any|done|]. intros _. apply spec_finally; [|apply calm_io_any].
  apply spec_then; [apply calm_io_any|done|]. intros _. apply spec_finally; [done|apply calm_io_any].
Qed.

Lemma calm_new_id : calm (new_transaction_id env).
Proof. intros s. unfold new_transaction_id. by destruct (pe_new_transaction_id env (ps_world s)). Qed.

Lemma spec_return {A} (a : A) : spec log_ok (mret a) safe.
Proof. by apply spec_ret. Qed.

Lemma spec_run_uninstall cap id owned : spec log_ok (run_uninstall env registry version cap id owned) safe.
Proof.
  unfold run_uninstall. apply spec_then; [apply calm_lift_any|done|]. intros plan. eapply spec_bind; [apply spec_now|]. intros t.
  cbv zeta. set (j0 := initial_uninstall_journal (pe_uninstall_digest env) plan t). assert (Hu0 : uninstalls j0) by done.
  eapply spec_bind; [by apply (spec_uninstall_write log_ok)|]. intros ?.
  eapply spec_bind; [apply spec_uninstall_advance; [done|by intros l []]|]. intros j1.
  eapply spec_pure; [intros l (_ & F); exact F|]. intros [Hu1 _]. apply spec_pre with (P' := Held j1); [|by intros l []].
  eapply spec_bind; [by apply spec_run_uninstall_loop|]. intros [[j2 ok] residuals].
  eapply spec_pure; [intros l (_ & F); exact F|]. cbn [fst]. intros Hu2.
  assert (Hl : ∀ l, log_ok l ∧ uninstalls j2 → log_ok l) by (by intros l []).
  destruct (negb ok); [destruct (_ || _); by apply spec_end_in|].
  eapply spec_bind; [by apply spec_uninstall_advance|]. intros j3.
  eapply spec_pure; [intros l (_ & F); exact F|]. intros [Hu3 _]. apply spec_pre with (P' := Held j3); [|by intros l []].
  apply spec_then; [apply calm_revocation|by intros l []|]. intros [reason|].
  - apply spec_end_in; [done|by intros l []].
  - eapply spec_bind; [apply spec_complete_uninstall; [done|by intros l []]|]. intros j'. by apply spec_ret.
Qed.

Lemma spec_uninstall_locked cap id : spec log_ok (uninstall_locked env registry version cap id) safe.
Proof.
  unfold uninstall_locked. eapply spec_bind; [apply spec_recover_pending_locked|]. intros reports.
  destruct (blocking reports); [|apply spec_return]. apply (spec_then log_ok); [apply calm_io_any|done|]. intros records.
  cbv zeta. destruct (List.filter _ records) eqn:Eo; [apply spec_return|]. apply spec_then; [apply calm_cache|done|]. intros _.
  apply spec_then; [apply calm_authority|done|]. intros []; [apply spec_run_uninstall|apply spec_return].
Qed.

Lemma spec_uninstall cap apply : spec log_ok (uninstall env registry version cap apply) safe.
Proof.
  unfold uninstall. apply spec_then; [apply calm_io_any|done|]. intros records. cbv zeta.
  destruct (List.filter _ records) eqn:Eo; [apply spec_return|].
  apply spec_then; [apply calm_authority|done|]. intros []; cbn [negb]; [|apply spec_return].
  destruct apply; cbn [negb]; [|apply spec_return]. apply spec_then; [apply calm_new_id|done|]. intros id.
  apply spec_try; [apply spec_with_lock, spec_uninstall_locked|]. intros e. apply spec_return.
Qed.

Lemma spec_recover_pending : spec log_ok (recover_pending env registry version) safe.
Proof.
  unfold recover_pending. apply spec_then; [apply calm_new_id|done|]. intros id. cbv zeta.
  apply spec_try; [apply spec_with_lock, spec_recover_pending_locked|]. intros e. apply spec_return.
Qed.

Lemma build_plan_constructed d : gives (build_plan env registry version d) (fun x => constructed x.1).
Proof.
  unfold build_plan. destruct (_ || _); [done|]. destruct (de_selected_method_id d), (de_selected_method_kind d); try done.
  destruct (_ || _); [done|]. apply gives_bind. intros ex. destruct (negb _); [done|]. cbv zeta.
  destruct (if truthy_opt _ then _ else _), (de_machine_architecture d); try done.
  apply gives_bind. intros steps st x st'. unfold mbind, pym_bind, liftR.
  destruct (make_plan _ _ _ _ _ _ _ _ _ _ _ _) as [p|e] eqn:Ep; [|done]. intros [= <- _].
  unfold make_plan in Ep. destruct (post_init_nodup _ _ Ep) as [-> _]. exact Ep.
Qed.

Lemma spec_prepare_locked plan ex id : constructed plan → spec log_ok (prepare_locked env registry version plan ex id) safe.
Proof.
  intros Hp. unfold prepare_locked. apply spec_then; [apply calm_cache|done|]. intros _.
  eapply spec_bind; [apply spec_recover_pending_locked|]. intros reports.
  destruct (blocking reports); [|apply spec_return]. apply (spec_then log_ok); [apply calm_io_any|done|]. intros existing.
  apply spec_then; [apply calm_idempotency|done|]. intros [[] evidence]; try apply spec_return.
  eapply spec_conseq; [apply spec_run_transaction; [by left|done]|done|]. intros o l (j & Hc & _). by eapply cur_ok.
Qed.

Lemma spec_prepare d apply : spec log_ok (prepare env registry version d apply) safe.
Proof.
  unfold prepare. eapply spec_bind with (R := fun x l => log_ok l ∧ match x with inl (p, _) => constructed p | inr _ => True end).
  { apply spec_gives; [apply spec_calm; [apply calm_attempt, calm_build_plan|done]|]. intros s x s'. unfold attempt.
    destruct (build_plan env registry version d s) as [[[p ex]|e] s1] eqn:Eb; [|by case_match; intros [= <- _]].
    intros [= <- _]. apply (build_plan_constructed d s (p, ex) s1 Eb). }
  intros [[plan ex]|e].
  - eapply spec_pure; [intros l (_ & F); exact F|]. intros Hp. apply spec_pre with (P' := log_ok); [|by intros l []].
    destruct apply; cbn [negb]; [|apply spec_return].
    apply spec_then; [calm_all|done|]. intros [|]; [apply spec_return|].
    apply spec_then; [apply calm_new_id|done|]. intros id.
    apply spec_try; [by apply spec_with_lock, spec_prepare_locked|]. intros e. apply spec_return.
  - apply spec_pre with (P' := log_ok); [|by intros l []]. destruct (is_instance _ _); apply spec_return.
Qed.
End recovery.
End transaction.
