(* ===== verification/Provisioning.v ===== *)
(** * Guarantees of the provisioning engine

    The theorems about whole calls of the engine, from the specifications of [ProvisionSafety],
    and an environment on which they are evaluated. *)
From stdpp Require Import base list strings gmap pretty.
From Stdlib Require Import Ascii ZArith.
From S2P Require Import Prelude Steps PyData Provision ProvisionEngine ProvisionLog ProvisionSafety.

(** ** Calls of the engine, one after another *)
Inductive call : Type :=
| CPrepare (d : ResolutionDecision) (apply : bool)
| CRecover
| CUninstall (capability_id : string) (apply : bool).

Section calls.
Context `{PyStr} {W E D : Type} (env : ProvEnv W E D) (registry : list ((string * string) * E)) (version : string).

Definition run_call (c : call) (s : PState W) : PState W :=
  match c with
  | CPrepare d apply => (prepare env registry version d apply s).2
  | CRecover => (recover_pending env registry version s).2
  | CUninstall capability_id apply => (uninstall env registry version capability_id apply s).2
  end.
Definition run_calls (cs : list call) (s : PState W) : PState W := foldl (fun s c => run_call c s) s cs.

Lemma safe_state {A} (m : PyM (PState W) A) s :
  spec (fun _ => True) log_ok m safe → log_ok (ps_log s) → log_ok (ps_log (m s).2).
Proof. intros Hm Hs. specialize (Hm s Hs). by destruct (m s) as [[a|e] s']; [|destruct Hm]. Qed.

Lemma run_call_ok c s : log_ok (ps_log s) → log_ok (ps_log (run_call c s)).
Proof.
  pose proof (env_raises_any env) as Hr. destruct c; cbn [run_call]; apply safe_state;
    [by apply spec_prepare|by apply spec_recover_pending|by apply spec_uninstall].
Qed.
End calls.

(** ** What the outcome of a transaction says *)
Definition outcome_says (plan : ProvisioningPlan) (id : string) (o : PrepareOutcome) (l : list event) : Prop :=
  ∃ j, disk id l = [j] ∧ tj_transaction_id j = id ∧
  match po_status o with
  | P_COMMITTED => tj_state j = T_COMMITTED ∧ all_verified j ∧ published (pp_capability_id plan) l
  | P_PREPARATION_FAILED =>
      tj_state j = T_PREPARATION_FAILED ∧ po_residuals o = []
      ∧ Forall (fun r => sr_state r ∈ [S_PLANNED; S_APPLY_FAILED; S_UNDONE]) (tj_steps j)
  | P_ROLLBACK_FAILED =>
      tj_state j = T_ROLLBACK_FAILED ∧ po_residuals o ≠ []
      ∧ (∀ s, s ∈ po_residuals o ↔ ∃ r, r ∈ tj_steps j ∧ sr_state r = S_UNDO_FAILED ∧ sr_step_id r = s)
      ∧ Forall (fun r => sr_state r ∈ [S_PLANNED; S_APPLY_FAILED; S_UNDONE; S_UNDO_FAILED]) (tj_steps j)
  | P_RECOVERY_REQUIRED => tj_state j = T_RECOVERY_REQUIRED
  | _ => False
  end.

(** Every exception but that of an illegal transition *)
Definition legal (e : exn) : Prop := exn_class e ≠ InvalidTransitionError.

Lemma clean_legal st : clean legal st → st ∈ [S_PLANNED; S_APPLY_FAILED; S_UNDONE].
Proof.
  intros [Hall|Hst]; [by destruct (Hall (Exn InvalidTransitionError ""))|].
  destruct Hst as [->|[->| ->]]; by apply (bool_decide_unpack _).
Qed.

Lemma outcome_ok_says plan id o l : outcome_ok legal plan id o l → outcome_says plan id o l.
Proof.
  intros (j & Hc & Hid & Ho). exists j. split; [rewrite <- Hid; by apply cur_disk|]. split; [done|].
  destruct (po_status o); try done.
  - destruct Ho as (A & B & _ & C). done.
  - destruct Ho as (A & B & C). split; [done|]. split; [done|]. eapply Forall_impl; [exact C|]. intros r. apply clean_legal.
  - destruct Ho as (A & B & C & F). rewrite Forall_forall in F. split; [done|]. split; [done|]. split.
    + intros s. split; [by apply C|]. intros (r & Hr & Hs & <-). destruct (F r Hr) as [Hcl%clean_legal|[_ ?]]; [|done].
      rewrite Hs in Hcl. by apply (bool_decide_pack _) in Hcl.
    + apply Forall_forall. intros r Hr. destruct (F r Hr) as [Hcl%clean_legal|[-> _]]; [|by apply (bool_decide_unpack _)].
      set_solver.
Qed.

(** ** Rolling back in order *)
Lemma reverse_order_rev steps : increasing (map sr_sequence steps) = true → reverse_order steps = rev steps.
Proof.
  unfold reverse_order. induction steps as [|x l IH]; intros Hl; [done|].
  destruct (increasing_lower (sr_sequence x) (map sr_sequence l) Hl) as [Hx Hl']. cbn. fold (py_sorted (fun a b => (sr_sequence b <? sr_sequence a)%Z) l).
  rewrite (IH Hl'). assert (Hr : Forall (fun y => (sr_sequence x < sr_sequence y)%Z) (rev l)).
  { apply Forall_rev. clear -Hx. induction l as [|y l IH']; cbn in *; [constructor|]. apply Forall_cons in Hx as [? ?]. constructor; auto. }
  revert Hr. generalize (rev l). intros k0 Hr. induction Hr as [|y k Hy _ IHk]; cbn; [done|]. rewrite (proj2 (Z.ltb_lt _ _) Hy). by rewrite IHk.
Qed.

Section wedged.
Context `{PyStr} {W E D : Type} (env : ProvEnv W E D).

(** A step that nothing has to be done for *)
Lemma rollback_one_planned ex r j residuals s :
  at_step j r → sr_state r = S_PLANNED → rollback_one env ex (sr_sequence r) j residuals s = (Ok (j, residuals), s).
Proof.
  intros Hr Hs. unfold rollback_one, journal_step, mbind, pym_bind, liftR. rewrite Hr. cbn.
  rewrite (bool_decide_false (sr_state r = S_UNDOING)) by (by rewrite Hs).
  rewrite Hs. by rewrite bool_decide_false by (by intros Hin%(bool_decide_pack _)).
Qed.

Lemma rollback_loop_planned ex rs zs j residuals s :
  Forall (fun r => at_step j r ∧ sr_state r = S_PLANNED) rs →
  rollback_loop env ex (map sr_sequence rs ++ zs) j residuals s = rollback_loop env ex zs j residuals s.
Proof.
  induction 1 as [|r rs [Hr Hs] _ IH]; [done|]. cbn [map app rollback_loop]. unfold mbind, pym_bind.
  by rewrite rollback_one_planned.
Qed.

Lemma rollback_one_applied ex r j residuals s :
  at_step j r → sr_state r = S_APPLIED ∨ sr_state r = S_VERIFYING →
  ∃ e, rollback_one env ex (sr_sequence r) j residuals s = (Err e, s) ∧ exn_class e = InvalidTransitionError.
Proof.
  intros Hr Hs. unfold rollback_one, journal_step, mbind, pym_bind, liftR. rewrite Hr. cbn.
  rewrite (bool_decide_false (sr_state r = S_UNDOING)) by (by destruct Hs as [-> | ->]).
  rewrite (bool_decide_true (sr_state r ∈ UNDOABLE_STEP_STATES))
    by (destruct Hs as [-> | ->]; by apply (bool_decide_unpack _)).
  cbn. unfold advance_step, mbind, pym_bind, liftR, StepRecord_with_state, transition_step. cbn.
  rewrite bool_decide_false by (destruct Hs as [-> | ->]; by intros Hin%(bool_decide_pack _)). by eexists.
Qed.
End wedged.

(** ** An environment to evaluate

    One executor whose plan is one file; the world keeps the journals, and whether the process
    was told to stop. *)
Module Demo.
Record world : Type := { w_signaled : bool; w_journals : list TransactionJournal }.

Section demo.
Context (stop : bool) (verifies : string).

Definition store (j : TransactionJournal) (w : world) : world :=
  {| w_signaled := w_signaled w;
     w_journals := j :: List.filter (fun i => negb (String.eqb (tj_transaction_id i) (tj_transaction_id j))) (w_journals w) |}.
Definition load (id : string) (w : world) : res TransactionJournal :=
  match List.find (fun i => String.eqb (tj_transaction_id i) id) (w_journals w) with
  | Some j => Ok j
  | None => raise JournalError "no such journal"
  end.
Definition undo : pydict pyval := [("path", PStr "/opt/tool")].
Definition step : ProvisioningStep :=
  {| ps_sequence := 0; ps_step_id := "install"; ps_action_type := "write_file"; ps_intent := [];
     ps_target := Some "/opt/tool" |}.
Definition candidate : OwnershipCandidate := {|
  oc_artifact_type := "file"; oc_resource_identity := "/opt/tool"; oc_pre_existing := false; oc_method_id := None;
  oc_source := None; oc_version := None; oc_integrity := None; oc_uid := None; oc_gid := None; oc_mode := None;
  oc_nlink := None; oc_post_install_fingerprint := None; oc_intermediate_identities := []; oc_path_authority := None;
  oc_path_authority_v2 := None |}.
Definition authority : PathAuthority :=
  {| pa_root_path := "/opt"; pa_target_relative_path := "tool"; pa_component_count := 0; pa_components := [] |}.
Definition authority_v2 : PathAuthorityV2 :=
  {| p2_schema := "v2"; p2_transaction_id := "t"; p2_plan_digest := "d"; p2_resource_id := "/opt/tool";
     p2_configured_root := "/opt"; p2_root_path := "/opt"; p2_target_relative_path := "tool"; p2_component_count := 0;
     p2_components := []; p2_chain_digest := ""; p2_authority_digest := "" |}.

Definition env : ProvEnv world unit unit := {|
  ex_id _ := "executor"; ex_version _ := "1"; ex_supported_method_kind _ := "pinned_source_build"; ex_network_required _ := false;
  ex_postcondition_description _ := "installed"; ex_replay_safe _ _ := true;
  ex_reconstruct_undo_record _ _ := Ok undo; ex_expected_ownership _ _ _ := Ok candidate;
  ex_plan_steps _ _ _ := mret [step];
  ex_apply _ _ := fun w => (Ok (applied_result undo), {| w_signaled := stop; w_journals := w_journals w |});
  ex_verify _ _ _ := mret {| vr_status := verifies; vr_evidence := []; vr_error_kind := None; vr_error := None |};
  ex_undo _ _ _ := mret {| rr_status := "undone"; rr_residual := false; rr_evidence := []; rr_error_kind := None; rr_error := None |};
  ex_postcondition _ _ := mret {| vr_status := "verified"; vr_evidence := []; vr_error_kind := None; vr_error := None |};
  ex_inspect _ _ := mret [("exists", PBool false)]; ex_recovery_bound e _ := mret e;
  pe_plan_digest _ := "digest"; pe_uninstall_digest _ := "digest";
  pe_now w := ("now", w); pe_signaled w := stop && w_signaled w; pe_network_available := mret true;
  pe_new_transaction_id w := ("tx", w); pe_lock _ := mret tt; pe_unlock := mret tt;
  pe_write_journal j := fun w => (Ok tt, store j w); pe_read_journal id := fun w => (load id w, w);
  pe_list_transaction_ids := fun w => (Ok (map tj_transaction_id (w_journals w)), w);
  pe_read_ownership _ := mret []; pe_write_ownership _ _ := mret tt; pe_delete_ownership _ := mret tt;
  pe_lstat_ownership _ := mret tt;
  pa_open_context := mret tt; pa_close_context := mret tt; pa_cache_intermediates _ := mret tt; pa_verify_roots := mret tt;
  pa_validate_target t := mret t; pa_owned_relative t := mret (t, [t]); pa_handle _ := mret tt; pa_open_root _ := mret tt;
  pa_close_root _ := mret tt;
  pa_stat _ _ := mret {| fi_is_symlink := false; fi_is_regular := true; fi_nlink := 1; fi_mode := 420; fi_uid := 0; fi_gid := 0 |};
  pa_capture_intermediates _ _ := mret []; pa_capture_authority _ _ := mret authority;
  pa_capture_authority_v2 _ _ _ _ _ _ := mret authority_v2; pa_verify_authority _ _ _ := mret tt;
  pa_verify_authority_v2 _ _ _ _ _ _ := mret tt; pa_verify_intermediates _ _ := mret tt;
  pa_confirm_absent _ := mret (true, ""); pa_remove _ _ _ _ w := Removed (Ok true) w
|}.
End demo.

Definition registry : list ((string * string) * unit) := [(("pinned_source_build", "build"), tt)].
Definition plan : ProvisioningPlan := {|
  pp_capability_id := "tool"; pp_dependency_id := "dep"; pp_resolved_target := "12"; pp_architecture := "x86_64";
  pp_support_classification := "supported"; pp_selected_method_id := "build"; pp_selected_method_kind := "pinned_source_build";
  pp_postcondition := "installed"; pp_executor_id := "executor"; pp_executor_version := "1"; pp_steps := [step];
  pp_selected_asset := None |}.
Definition start : PState world := PS {| w_signaled := false; w_journals := [] |} [].
#[local] Instance py_str : PyStr := {| repr_compound _ := ""; float_literal _ := None |}.

Lemma raises_nothing stop verifies : EnvRaises legal (env stop verifies).
Proof. by constructor. Qed.
End Demo.

(** ** The theorems *)
Section theorems.
Context `{PyStr} {W E D : Type} (env : ProvEnv W E D).

(** C2: whatever the executors, the journal files, the paths and the clock do, after any sequence
    of calls every event of the log is good: a file is applied, undone or removed only while
    every journal that the disk may hold has the step as being applied or undone (so that no
    crash can lose it); a journal of a preparation moves only along the declared transitions;
    ownership is published only for a transaction all of whose steps are verified on the disk,
    and revoked only after the uninstall is recorded as finished. *)
Theorem provisioning_write_ahead (registry : list ((string * string) * E)) (version : string) (cs : list call) (w : W) :
  log_ok (ps_log (run_calls env registry version cs (PS w []))).
Proof.
  unfold run_calls. assert (Hs : log_ok (ps_log (PS w []))) by apply log_ok_nil. revert Hs.
  generalize (PS w []). induction cs as [|c cs IH]; intros s Hs; [done|]. cbn. by apply IH, run_call_ok.
Qed.

(** C3: a transaction that no signal interrupts ends in one of four ways, and its journal on the
    disk says which: committed, with every step verified and ownership published; failed, with
    every step back to what it was; rolled back in part, the residuals being exactly the steps
    that could not be undone; or left to recovery.  It never asks for an illegal transition. *)
Theorem transaction_outcome (plan : ProvisioningPlan) (ex : E) (id : string) (s : PState W) :
  EnvRaises legal env → (∀ w, pe_signaled env w = false) → constructed plan → log_ok (ps_log s) →
  match run_transaction env plan ex id s with
  | (Ok o, s') => outcome_says plan id o (ps_log s')
  | (Err e, s') => log_ok (ps_log s') ∧ legal e
  end.
Proof.
  intros Hr Hq Hp Hs. assert (Hex : ∀ k msg, k ≠ InvalidTransitionError → legal (Exn k msg)) by done.
  pose proof (spec_run_transaction env legal Hr Hex plan ex id) as Ht.
  specialize (Ht ltac:(right; intros [w Hw]; congruence) Hp s Hs).
  destruct (run_transaction env plan ex id s) as [[o|e] s']; [by apply outcome_ok_says|done].
Qed.

(** a rollback whose last started step is applied, or being verified, always raises the
    exception of an illegal transition before it undoes anything: the engine lists these states
    as undoable, and the table of transitions has no way from them to the undo.  A transaction
    that a signal stops right after an action is left there, and so is every later recovery. *)
Theorem applied_step_stops_rollback (ex : E) (j : TransactionJournal) (before after : list StepRecord) (r : StepRecord)
    (s : PState W) :
  tj_steps j = before ++ r :: after → increasing (map sr_sequence (tj_steps j)) = true →
  sr_state r = S_APPLIED ∨ sr_state r = S_VERIFYING → Forall (fun x => sr_state x = S_PLANNED) after →
  ∃ e, run_rollback env ex j s = (Err e, s) ∧ exn_class e = InvalidTransitionError.
Proof.
  intros Hj Hi Hr Ha. unfold run_rollback. rewrite (reverse_order_rev _ Hi), Hj.
  assert (Hat : ∀ x, x ∈ tj_steps j → at_step j x).
  { intros x. apply find_step_nodup. by apply increasing_nodup. }
  rewrite rev_app_distr. cbn [rev]. rewrite <- !app_assoc, map_app. unfold mbind at 1, pym_bind at 1.
  rewrite rollback_loop_planned.
  - cbn [map app rollback_loop]. unfold mbind, pym_bind.
    destruct (rollback_one_applied env ex r j [] s) as (e & He & Hc); [apply Hat; rewrite Hj; set_solver|done|].
    rewrite He. by exists e.
  - apply Forall_rev. rewrite Forall_forall in Ha |- *. intros x Hx. split; [|by apply Ha].
    apply Hat. rewrite Hj. set_solver.
Qed.

(** a transaction that was rolling back and whose executor is no longer registered is not
    handed over to manual review: recovery raises the exception of an illegal transition. *)
Theorem rolling_back_unregistered_raises (registry : list ((string * string) * E)) (version : string)
    (j : TransactionJournal) (msg : string) (s : PState W) :
  tj_state j = T_ROLLING_BACK → tj_operation j = "prepare" →
  journal_executor env registry version j = raise ExecutorNotRegisteredError msg →
  ∃ e, (recover_one env registry version j s).1 = Err e ∧ exn_class e = InvalidTransitionError.
Proof.
  intros Hs Ho He. unfold recover_one. do 2 (case_bool_decide; [congruence|]). rewrite Ho. cbn [negb].
  unfold recover_prepare. rewrite He. unfold attempt, liftR, raise, mbind at 1, pym_bind at 1.
  replace (is_instance _ ExecutorNotRegisteredError) with true by (vm_compute; reflexivity).
  unfold require_manual, mbind, pym_bind. case_bool_decide; [congruence|]. cbn. unfold advance, now, mbind, pym_bind, liftR.
  destruct (pe_now env (ps_world s)) as [t w]. unfold with_state, transition_transaction. rewrite Hs.
  rewrite bool_decide_false by (by intros Hin%(bool_decide_pack _)). eexists. split; reflexivity.
Qed.
End theorems.

(** ** Witnesses *)
#[local] Existing Instance Demo.py_str.

Lemma transaction_outcome_witness :
  let '(r, s) := run_transaction (Demo.env false "verified") Demo.plan tt "tx" Demo.start in
  match r with
  | Ok o => po_status o = P_COMMITTED ∧ outcome_says Demo.plan "tx" o (ps_log s)
  | Err _ => False
  end.
Proof.
  pose proof (transaction_outcome (Demo.env false "verified") Demo.plan tt "tx" Demo.start
    (Demo.raises_nothing _ _) (fun _ => eq_refl) eq_refl log_ok_nil) as Ht.
  destruct (run_transaction (Demo.env false "verified") Demo.plan tt "tx" Demo.start) as [[o|e] s'] eqn:E0.
  - split; [|exact Ht]. vm_compute in E0. injection E0 as <- _. reflexivity.
  - vm_compute in E0. discriminate.
Defined.

(** The journal that a signal after the action leaves *)
Definition stopped_journal : TransactionJournal :=
  default (initial_journal (fun _ => "digest") Demo.plan "tx" "now")
    (head (Demo.w_journals (ps_world (run_transaction (Demo.env true "verified") Demo.plan tt "tx" Demo.start).2))).

Lemma applied_step_stops_rollback_witness :
  tj_state stopped_journal = T_ROLLING_BACK ∧
  ∃ e, run_rollback (Demo.env false "verified") tt stopped_journal Demo.start = (Err e, Demo.start)
       ∧ exn_class e = InvalidTransitionError.
Proof.
  split; [vm_compute; reflexivity|].
  apply (applied_step_stops_rollback (Demo.env false "verified") tt stopped_journal [] []
    (default (planned_record Demo.step) (head (tj_steps stopped_journal)))).
  - vm_compute. reflexivity.
  - vm_compute. reflexivity.
  - left. vm_compute. reflexivity.
  - constructor.
Defined.

Lemma rolling_back_unregistered_raises_witness :
  ∃ e, (recover_one (Demo.env false "verified") [] "1" stopped_journal Demo.start).1 = Err e
       ∧ exn_class e = InvalidTransitionError.
Proof.
  eapply (rolling_back_unregistered_raises (Demo.env false "verified") [] "1" stopped_journal); vm_compute; reflexivity.
Defined.
