(* ===== verification/Support.v ===== *)
(** * Support classes of distributions

    compat/support_model.py: how the facts about a release become its public support class, how
    evidence ages, and how the states of capabilities become the readiness of a host or a
    protocol.  The enumerations are inductive types, so the [isinstance] checks of the source
    on them hold by typing; instants and durations are in microseconds. *)
From stdpp Require Import base list strings.
From Stdlib Require Import ZArith.
From S2P Require Import Prelude.

(** ** States *)
Inductive SupportClassification : Type := CERTIFIED | SUPPORTED | FAMILY_INFERRED | EXPERIMENTAL | UNSUPPORTED.
#[global] Instance SupportClassification_eq_dec : EqDecision SupportClassification.
Proof. solve_decision. Defined.
Inductive HostReadiness : Type := READY | NEEDS_PREPARATION | PREPARATION_FAILED | INCOMPATIBLE.
Inductive ProtocolReadiness : Type := OPERABLE | PROVISIONABLE | ABSENT | UNSUPPORTED_HERE.
Inductive FreshnessState : Type := F_CURRENT | F_EXPIRED | F_ABSENT.
#[global] Instance FreshnessState_eq_dec : EqDecision FreshnessState.
Proof. solve_decision. Defined.
Inductive CertificationReviewStatus : Type := R_CURRENT | R_REVIEW_DUE | R_REVIEW_OVERDUE.
Inductive CoreCapabilityStatus : Type := C_PRESENT | C_PROVISIONABLE | C_PREPARATION_FAILED | C_IMPOSSIBLE.
#[global] Instance CoreCapabilityStatus_eq_dec : EqDecision CoreCapabilityStatus.
Proof. solve_decision. Defined.
Inductive ProtocolRuntimeStatus : Type := R_PRESENT | R_PROVISIONABLE | R_ABSENT | R_IMPOSSIBLE.
#[global] Instance ProtocolRuntimeStatus_eq_dec : EqDecision ProtocolRuntimeStatus.
Proof. solve_decision. Defined.

Definition support_value (c : SupportClassification) : string :=
  match c with
  | CERTIFIED => "certified" | SUPPORTED => "supported" | FAMILY_INFERRED => "family_inferred"
  | EXPERIMENTAL => "experimental" | UNSUPPORTED => "unsupported"
  end.
Definition core_value (c : CoreCapabilityStatus) : string :=
  match c with
  | C_PRESENT => "present" | C_PROVISIONABLE => "provisionable" | C_PREPARATION_FAILED => "preparation_failed"
  | C_IMPOSSIBLE => "impossible"
  end.
Definition runtime_value (c : ProtocolRuntimeStatus) : string :=
  match c with
  | R_PRESENT => "present" | R_PROVISIONABLE => "provisionable" | R_ABSENT => "absent" | R_IMPOSSIBLE => "impossible"
  end.

Definition SUPPORT_CLASSES : list SupportClassification := [CERTIFIED; SUPPORTED; FAMILY_INFERRED; EXPERIMENTAL; UNSUPPORTED].
Definition CORE_STATUSES : list CoreCapabilityStatus := [C_PRESENT; C_PROVISIONABLE; C_PREPARATION_FAILED; C_IMPOSSIBLE].
Definition RUNTIME_STATUSES : list ProtocolRuntimeStatus := [R_PRESENT; R_PROVISIONABLE; R_ABSENT; R_IMPOSSIBLE].

(** [parse(SupportClassification, value)] *)
Definition parse_support (v : string) : res SupportClassification :=
  match List.find (fun c => String.eqb (support_value c) v) SUPPORT_CLASSES with
  | Some c => Ok c
  | None => raise DomainError ("unknown SupportClassification value: " +:+ v)
  end.

(** ** Facts *)
Record CommonFacts : Type := {
  cf_has_adapter : bool; cf_meets_technical_floor : bool; cf_expressly_excluded : bool; cf_eol_or_withdrawn : bool;
  cf_is_derivative : bool; cf_has_own_evidence : bool; cf_family_inference_allowed : bool;
  cf_has_valid_field_certification : bool; cf_family_has_certified_anchor : bool
}.

(** [StableReleaseFacts]: the fields that it shares with [RollingFacts], and its own *)
Record StableReleaseFacts : Type := {
  st_common : CommonFacts; st_admitted : bool; st_future_or_unevaluated : bool; st_vendor_maintained : bool;
  st_ci_green : bool
}.

(** A [datetime]: microseconds, and whether it has a [tzinfo] *)
Record datetime : Type := { dt_us : Z; dt_aware : bool }.
Record RollingFacts : Type := { ro_common : CommonFacts; ro_last_validated : option datetime }.

(** ** Ageing evidence *)
Definition evaluate_freshness (last_validated : option datetime) (expiry : Z) (now : datetime) : res FreshnessState :=
  if (expiry <=? 0)%Z then raise DomainError "expiry must be a positive timedelta"
  else if dt_aware now then raise DomainError "'now' must be a naive datetime (explicit no-tzinfo policy)"
  else match last_validated with
  | None => Ok F_ABSENT
  | Some v =>
      if dt_aware v then raise DomainError "'last_validated' must be a naive datetime (explicit no-tzinfo policy)"
      else if (dt_us now <? dt_us v)%Z
      then raise DomainError "evaluation instant precedes last_validated (validated in the future)"
      else Ok (if (expiry <? dt_us now - dt_us v)%Z then F_EXPIRED else F_CURRENT)
  end.

Definition evaluate_certification_review (cert_date : datetime) (review_due review_overdue : Z) (now : datetime)
    : res CertificationReviewStatus :=
  if (review_due <=? 0)%Z || (review_overdue <=? 0)%Z
  then raise DomainError "review_due and review_overdue must be positive timedeltas"
  else if (review_overdue <=? review_due)%Z then raise DomainError "review_due must be strictly earlier than review_overdue"
  else if dt_aware now then raise DomainError "'now' must be a naive datetime (explicit no-tzinfo policy)"
  else if dt_aware cert_date then raise DomainError "'cert_date' must be a naive datetime (explicit no-tzinfo policy)"
  else if (dt_us now <? dt_us cert_date)%Z
  then raise DomainError "evaluation instant precedes cert_date (certified in the future)"
  else
    let age := (dt_us now - dt_us cert_date)%Z in
    Ok (if (review_overdue <? age)%Z then R_REVIEW_OVERDUE else if (review_due <? age)%Z then R_REVIEW_DUE else R_CURRENT).

(** ** Contradictions *)
Definition validate_common_evidence (f : CommonFacts) : res unit :=
  if cf_has_valid_field_certification f && negb (cf_has_adapter f)
  then raise DomainError "a certified release must have an adapter"
  else if cf_has_valid_field_certification f && negb (cf_meets_technical_floor f)
  then raise DomainError "a release below the technical floor cannot be certified"
  else if cf_has_valid_field_certification f && cf_is_derivative f && negb (cf_has_own_evidence f)
  then raise DomainError "a derivative without its own evidence cannot hold a valid field certification"
  else if negb (cf_is_derivative f) && cf_family_inference_allowed f
  then raise DomainError "family inference applies only to derivatives"
  else if negb (cf_is_derivative f) && negb (cf_has_own_evidence f)
  then raise DomainError "a non-derivative release must carry its own evidence status"
  else Ok tt.

Definition validate_stable (f : StableReleaseFacts) : res unit :=
  let c := st_common f in
  _ ← validate_common_evidence c;
  if st_admitted f && cf_expressly_excluded c then raise DomainError "a release cannot be both admitted and expressly excluded"
  else if st_admitted f && st_future_or_unevaluated f
  then raise DomainError "a release cannot be both admitted and future/not-yet-evaluated"
  else if st_admitted f && cf_eol_or_withdrawn c then raise DomainError "a release cannot be both admitted and EOL/withdrawn"
  else if cf_expressly_excluded c && st_future_or_unevaluated f
  then raise DomainError "a release cannot be both expressly excluded and future/not-yet-evaluated"
  else if st_future_or_unevaluated f && cf_eol_or_withdrawn c
  then raise DomainError "a release cannot be both future/not-yet-evaluated and EOL/withdrawn"
  else Ok tt.

(** ** Classes *)
Definition family_inferred (c : CommonFacts) : bool :=
  cf_is_derivative c && negb (cf_has_own_evidence c) && cf_family_inference_allowed c && cf_family_has_certified_anchor c.

Definition classify_support_stable (f : StableReleaseFacts) : res SupportClassification :=
  let c := st_common f in
  _ ← validate_stable f;
  Ok (if negb (cf_has_adapter c) then UNSUPPORTED
      else if negb (cf_meets_technical_floor c) then UNSUPPORTED
      else if cf_eol_or_withdrawn c then UNSUPPORTED
      else if cf_expressly_excluded c then UNSUPPORTED
      else if cf_has_valid_field_certification c then CERTIFIED
      else if family_inferred c then FAMILY_INFERRED
      else if st_future_or_unevaluated f then EXPERIMENTAL
      else if st_admitted f && st_vendor_maintained f && st_ci_green f && cf_family_has_certified_anchor c then SUPPORTED
      else EXPERIMENTAL).

Definition classify_support_rolling (f : RollingFacts) (expiry : Z) (now : datetime) : res SupportClassification :=
  let c := ro_common f in
  _ ← validate_common_evidence c;
  freshness ← evaluate_freshness (ro_last_validated f) expiry now;
  Ok (if negb (cf_has_adapter c) then UNSUPPORTED
      else if negb (cf_meets_technical_floor c) then UNSUPPORTED
      else if cf_eol_or_withdrawn c then UNSUPPORTED
      else if cf_expressly_excluded c then UNSUPPORTED
      else if cf_has_valid_field_certification c then CERTIFIED
      else if family_inferred c then FAMILY_INFERRED
      else if bool_decide (freshness = F_CURRENT) then SUPPORTED
      else EXPERIMENTAL).

Definition classify_support (facts : StableReleaseFacts + RollingFacts) (expiry : option Z) (now : option datetime)
    : res SupportClassification :=
  match facts with
  | inl f => classify_support_stable f
  | inr f =>
      match expiry, now with
      | Some expiry, Some now => classify_support_rolling f expiry now
      | _, _ => raise DomainError "rolling classification requires an injected 'expiry' and 'now'"
      end
  end.

(** ** Readiness *)
Definition classify_host_readiness (statuses : list CoreCapabilityStatus) : res HostReadiness :=
  match statuses with
  | [] => raise DomainError "a host must declare at least one required core capability"
  | _ =>
      let any s := existsb (fun x => bool_decide (x = s)) statuses in
      Ok (if any C_IMPOSSIBLE then INCOMPATIBLE
          else if any C_PREPARATION_FAILED then PREPARATION_FAILED
          else if any C_PROVISIONABLE then NEEDS_PREPARATION
          else READY)
  end.

Definition classify_protocol_readiness (statuses : list ProtocolRuntimeStatus) : res ProtocolReadiness :=
  match statuses with
  | [] => raise DomainError "a protocol must declare at least one required runtime"
  | _ =>
      let any s := existsb (fun x => bool_decide (x = s)) statuses in
      Ok (if any R_IMPOSSIBLE then UNSUPPORTED_HERE
          else if any R_ABSENT then ABSENT
          else if any R_PROVISIONABLE then PROVISIONABLE
          else OPERABLE)
  end.

(** ** Checks of a given result *)
Definition check_expected (expected : res SupportClassification) (result : SupportClassification) : res unit :=
  e ← expected;
  if bool_decide (result = e) then Ok tt
  else raise DomainError ("result " +:+ support_value result +:+ " contradicts the precedence-determined " +:+ support_value e).
Definition check_stable_invariants (f : StableReleaseFacts) (result : SupportClassification) : res unit :=
  check_expected (classify_support_stable f) result.
Definition check_rolling_invariants (f : RollingFacts) (result : SupportClassification) (expiry : Z) (now : datetime)
    : res unit :=
  check_expected (classify_support_rolling f expiry now) result.

(** ** Theorems *)

(** as time passes, the class of a rolling distribution only ever falls from supported to
    experimental, when its evidence expires; certification, inference and exclusion do not
    depend on the clock, and no later instant makes a valid input invalid. *)
Theorem rolling_support_decays (f : RollingFacts) (expiry : Z) (now later : datetime) (c : SupportClassification) :
  classify_support_rolling f expiry now = Ok c → (dt_us now ≤ dt_us later)%Z → dt_aware later = false →
  ∃ c', classify_support_rolling f expiry later = Ok c'
    ∧ (c' = c ∨ c = SUPPORTED ∧ c' = EXPERIMENTAL)
    ∧ (c = SUPPORTED → c' = SUPPORTED ↔ ∃ v, ro_last_validated f = Some v ∧ (dt_us later - dt_us v ≤ expiry)%Z).
Proof.
  intros Hc Hle Hl. unfold classify_support_rolling in *. destruct (validate_common_evidence (ro_common f)); [|done].
  cbn in Hc |- *. unfold evaluate_freshness in *. destruct (Z.leb_spec expiry 0); [done|]. rewrite Hl.
  destruct (dt_aware now); [done|]. destruct (ro_last_validated f) as [v|].
  - destruct (dt_aware v); [done|]. destruct (Z.ltb_spec (dt_us now) (dt_us v)); [done|].
    rewrite (proj2 (Z.ltb_ge (dt_us later) (dt_us v))) by lia. cbn in Hc |- *. injection Hc as <-.
    eexists. split; [reflexivity|].
    assert (Hv : (∃ v0, Some v = Some v0 ∧ (dt_us later - dt_us v0 ≤ expiry)%Z) ↔ (dt_us later - dt_us v ≤ expiry)%Z).
    { split; [intros (v0 & [= <-] & ?); done|by eauto]. }
    rewrite Hv. destruct (negb (cf_has_adapter _)); [by split; [left|]|]. destruct (negb (cf_meets_technical_floor _)); [by split; [left|]|].
    destruct (cf_eol_or_withdrawn _); [by split; [left|]|]. destruct (cf_expressly_excluded _); [by split; [left|]|].
    destruct (cf_has_valid_field_certification _); [by split; [left|]|]. destruct (family_inferred _); [by split; [left|]|].
    destruct (Z.ltb_spec expiry (dt_us now - dt_us v)), (Z.ltb_spec expiry (dt_us later - dt_us v)); try (exfalso; lia); cbn;
      (split; [first [by left|by right]|]); intros Hs; try done; split; intros; done || lia.
  - cbn in Hc |- *. eexists. split; [exact Hc|]. split; [by left|]. injection Hc as <-. intros Hs.
    repeat case_match; done.
Qed.

Lemma rolling_support_decays_witness :
  let f := {| ro_common := {| cf_has_adapter := true; cf_meets_technical_floor := true; cf_expressly_excluded := false;
                cf_eol_or_withdrawn := false; cf_is_derivative := false; cf_has_own_evidence := true;
                cf_family_inference_allowed := false; cf_has_valid_field_certification := false;
                cf_family_has_certified_anchor := false |};
              ro_last_validated := Some {| dt_us := 100; dt_aware := false |} |} in
  classify_support_rolling f 50 {| dt_us := 120; dt_aware := false |} = Ok SUPPORTED ∧
  ∃ c', classify_support_rolling f 50 {| dt_us := 151; dt_aware := false |} = Ok c' ∧ c' ≠ SUPPORTED.
Proof.
  intros f. split; [reflexivity|].
  destruct (rolling_support_decays f 50 {| dt_us := 120; dt_aware := false |} {| dt_us := 151; dt_aware := false |} SUPPORTED)
    as (c' & Hc & _ & Hd); [reflexivity|cbn; lia|reflexivity|].
  exists c'. split; [exact Hc|]. intros E0. apply (Hd eq_refl) in E0 as (v & [= <-] & Hv). cbn in Hv. lia.
Defined.

(** How much a class promises *)
Definition rank (c : SupportClassification) : nat :=
  match c with UNSUPPORTED => 0 | EXPERIMENTAL => 1 | FAMILY_INFERRED => 2 | SUPPORTED => 3 | CERTIFIED => 4 end.

(** The same release with at least as much evidence *)
Record more_evidence (f f' : StableReleaseFacts) : Prop := {
  me_certification : Is_true (cf_has_valid_field_certification (st_common f)) → Is_true (cf_has_valid_field_certification (st_common f'));
  me_anchor : Is_true (cf_family_has_certified_anchor (st_common f)) → Is_true (cf_family_has_certified_anchor (st_common f'));
  me_vendor : Is_true (st_vendor_maintained f) → Is_true (st_vendor_maintained f');
  me_ci : Is_true (st_ci_green f) → Is_true (st_ci_green f');
  me_adapter : cf_has_adapter (st_common f') = cf_has_adapter (st_common f);
  me_floor : cf_meets_technical_floor (st_common f') = cf_meets_technical_floor (st_common f);
  me_excluded : cf_expressly_excluded (st_common f') = cf_expressly_excluded (st_common f);
  me_eol : cf_eol_or_withdrawn (st_common f') = cf_eol_or_withdrawn (st_common f);
  me_derivative : cf_is_derivative (st_common f') = cf_is_derivative (st_common f);
  me_own : cf_has_own_evidence (st_common f') = cf_has_own_evidence (st_common f);
  me_inference : cf_family_inference_allowed (st_common f') = cf_family_inference_allowed (st_common f);
  me_admitted : st_admitted f' = st_admitted f;
  me_future : st_future_or_unevaluated f' = st_future_or_unevaluated f
}.

(** More evidence never lowers the class of a stable release. *)
Theorem stable_support_monotone (f f' : StableReleaseFacts) (c c' : SupportClassification) :
  more_evidence f f' → classify_support_stable f = Ok c → classify_support_stable f' = Ok c' → (rank c ≤ rank c')%nat.
Proof.
  intros [A B C D E1 E2 E3 E4 E5 E6 E7 E8 E9] Hc Hc'. unfold classify_support_stable in *.
  destruct (validate_stable f); [|done]. destruct (validate_stable f'); [|done]. cbn in Hc, Hc'.
  injection Hc as <-. injection Hc' as <-. unfold family_inferred. rewrite E1, E2, E3, E4, E5, E6, E7, E8, E9.
  destruct (cf_has_adapter (st_common f)), (cf_meets_technical_floor (st_common f)), (cf_eol_or_withdrawn (st_common f)),
    (cf_expressly_excluded (st_common f)); cbn; try lia.
  destruct (cf_has_valid_field_certification (st_common f)), (cf_has_valid_field_certification (st_common f'));
    cbn in A; try (by destruct (A I)); try (repeat case_match; cbn; lia).
  destruct (cf_is_derivative (st_common f) && negb (cf_has_own_evidence (st_common f))
            && cf_family_inference_allowed (st_common f)), (st_future_or_unevaluated f), (st_admitted f),
    (cf_family_has_certified_anchor (st_common f)), (cf_family_has_certified_anchor (st_common f'));
    cbn in *; try (by destruct (B I)); try lia;
    destruct (st_vendor_maintained f), (st_vendor_maintained f'); cbn in *; try (by destruct (C I)); try lia;
    destruct (st_ci_green f), (st_ci_green f'); cbn in *; try (by destruct (D I)); lia.
Qed.
