(* ===== verification/Resolver.v ===== *)
(** * Choosing how to provide a dependency

    compat/dependency_resolution.py: from the compatibility manifest, the facts about the
    distribution and the capabilities observed, the method by which a missing dependency may be
    provided.  The manifest is the validated one: its candidates are records whose fields are
    the keys the resolver reads, with the defaults of its [data.get] calls.  The availability
    provider is injected; a call of it gives an answer or raises. *)
From stdpp Require Import base list strings gmap pretty sorting.
From Stdlib Require Import Ascii ZArith.
From S2P Require Import Prelude PyData Provision ProvisionEngine Provisioning Support.

(** ** Availability *)
Inductive AvailabilityStatus : Type :=
| AVAILABLE | UNAVAILABLE | UNKNOWN_ | TIMEOUT | PERMISSION_DENIED | MALFORMED_RESPONSE | PROVIDER_ERROR.
#[global] Instance AvailabilityStatus_eq_dec : EqDecision AvailabilityStatus.
Proof. solve_decision. Defined.
Definition availability_value (s : AvailabilityStatus) : string :=
  match s with
  | AVAILABLE => "available" | UNAVAILABLE => "unavailable" | UNKNOWN_ => "unknown" | TIMEOUT => "timeout"
  | PERMISSION_DENIED => "permission_denied" | MALFORMED_RESPONSE => "malformed_response"
  | PROVIDER_ERROR => "provider_error"
  end.
Definition AVAILABILITY_STATUSES : list AvailabilityStatus :=
  [AVAILABLE; UNAVAILABLE; UNKNOWN_; TIMEOUT; PERMISSION_DENIED; MALFORMED_RESPONSE; PROVIDER_ERROR].

Record AvailabilityObservation : Type := {
  ob_status : AvailabilityStatus; ob_evidence : string; ob_reason : string; ob_error_kind : option string
}.
Definition observation (s : AvailabilityStatus) (evidence reason : string) (kind : option string)
    : AvailabilityObservation :=
  {| ob_status := s; ob_evidence := evidence; ob_reason := reason; ob_error_kind := kind |}.

Record SelectedArtifact : Type := {
  sa_architecture : pyval; sa_asset_name : pyval; sa_archive_or_binary_kind : pyval; sa_official_download_base : pyval;
  sa_sha256 : pyval; sa_expected_executable : pyval
}.

(** What a provider returns: anything else, or an observation with fields of any type; the last
    field is the identity that an [ArtifactAvailabilityObservation] adds *)
Inductive provider_answer : Type :=
| NotObservation
| Answer (status evidence reason error_kind : pyval) (artifact : option (pydict pyval)).

(** ** The manifest *)
Record TargetScope : Type := {
  ts_technical_families : list string; ts_rolling_distributions : list string; ts_stable_releases : list string
}.

Record MethodCandidate : Type := {
  mc_method_id : string; mc_priority : Z; mc_kind : string; mc_method_ref : string; mc_target_identity : string;
  mc_target_scope : TargetScope; mc_architectures : list string; mc_implementation_status : string;
  mc_postcondition : string;
  (* data *)
  mc_evidence : list string; mc_package_names : list string; mc_exposed_package_names : list string;
  mc_repository_package : option string; mc_repository : pydict pyval; mc_compatible_targets : list (pydict pyval);
  mc_assets : list (pydict pyval); mc_integrity : pydict pyval; mc_components : list (pydict pyval);
  mc_revision_type : pyval; mc_revision : pyval
}.

Record DependencyRequirement : Type := {
  dq_dependency_id : string; dq_capability_id : string; dq_description : string; dq_method_chain : list MethodCandidate
}.

(** An entry of "dependency_requirements", with its chain in the order of the file *)
Record RawRequirement : Type := {
  rw_capability_id : string; rw_description : string; rw_method_chain : list MethodCandidate
}.
Record Manifest : Type := {
  mf_dependency_requirements : pydict RawRequirement; mf_core_host_capabilities : list string;
  mf_protocol_capabilities : list string
}.

(** The facts and results of compat/detection.py that the resolver reads *)
Record DistroFacts : Type := {
  df_resolved_distribution : option string; df_resolved_release : option string; df_technical_family : option string;
  df_release_model : option string; df_machine_architecture : option string; df_mapped_base_release : option string
}.
Record CapabilityResult : Type := { cp_capability_id : string; cp_domain_status : string }.

Record AvailabilityProvider : Type := {
  av_provider_type : string;
  av_authoritative : bool;
  av_package_exists : MethodCandidate → string → string → res provider_answer;
  av_repository_supports_exact_target : MethodCandidate → string → res provider_answer;
  av_artifact_exists : MethodCandidate → string → SelectedArtifact → res provider_answer;
  av_artifact_integrity_metadata_available : MethodCandidate → string → SelectedArtifact → res provider_answer;
  av_source_revision_available : MethodCandidate → string → res provider_answer
}.

(** ** Decisions *)
Inductive ResolutionStatus : Type :=
| Q_ALREADY_PRESENT | Q_METHOD_SELECTED | Q_RECIPE_NOT_IMPLEMENTED | Q_AVAILABILITY_UNKNOWN | Q_OUT_OF_CONTRACT
| Q_NO_SAFE_ROUTE | Q_AMBIGUOUS | Q_CAPABILITY_OBSERVATION_MISSING | Q_PREPARATION_FAILED | Q_INTERNAL_ERROR.
#[global] Instance ResolutionStatus_eq_dec : EqDecision ResolutionStatus.
Proof. solve_decision. Defined.
Definition resolution_value (s : ResolutionStatus) : string :=
  match s with
  | Q_ALREADY_PRESENT => "already_present" | Q_METHOD_SELECTED => "method_selected"
  | Q_RECIPE_NOT_IMPLEMENTED => "recipe_not_implemented" | Q_AVAILABILITY_UNKNOWN => "availability_unknown"
  | Q_OUT_OF_CONTRACT => "out_of_contract" | Q_NO_SAFE_ROUTE => "no_safe_route" | Q_AMBIGUOUS => "ambiguous"
  | Q_CAPABILITY_OBSERVATION_MISSING => "capability_observation_missing"
  | Q_PREPARATION_FAILED => "preparation_failed" | Q_INTERNAL_ERROR => "internal_error"
  end.

Record CandidateRejection : Type := {
  rj_method_id : string; rj_method_kind : string; rj_reason : string; rj_evidence : string; rj_error_kind : option string
}.

(** [_decision_common] *)
Record DecisionCommon : Type := {
  dc_capability_id : string; dc_dependency_id : string; dc_facts : DistroFacts; dc_support_classification : string;
  dc_observed_capability_status : option string; dc_candidate_chain : list string; dc_provider_type : string;
  dc_provider_authoritative : bool
}.

Record ResolverDecision : Type := {
  dd_common : DecisionCommon; dd_selected_method_id : option string; dd_selected_method_kind : option string;
  dd_resolution_status : ResolutionStatus; dd_execution_ready : bool; dd_rejected_candidates : list CandidateRejection;
  dd_evidence : list string; dd_reason : string; dd_availability_observations : list (pydict pyval);
  dd_all_availability_observations : list (pydict pyval); dd_selected_asset : option SelectedArtifact;
  dd_error_kind : option string
}.

Section resolver.
Context `{PyStr} (provider : AvailabilityProvider).

(** ** Asking the provider *)
Definition provider_error (reason : string) (kind evidence : string) : AvailabilityObservation :=
  observation PROVIDER_ERROR evidence reason (Some kind).

Definition status_of_value (v : string) : option AvailabilityStatus :=
  List.find (fun s => String.eqb (availability_value s) v) AVAILABILITY_STATUSES.

(** [_provider_asset_mismatch] *)
Definition asset_fields (target_id : string) (a : SelectedArtifact) : list (string * pyval) :=
  [("target_id", PStr target_id); ("architecture", sa_architecture a); ("asset_name", sa_asset_name a);
   ("official_download_base", sa_official_download_base a); ("sha256", sa_sha256 a);
   ("expected_executable", sa_expected_executable a)].
Definition provider_asset_mismatch (status : AvailabilityStatus) (artifact : option (pydict pyval)) (target_id : string)
    (a : SelectedArtifact) : option string :=
  if negb (bool_decide (status = AVAILABLE)) then None
  else match artifact with
  | None => Some "artifact provider returned available without structured artifact identity"
  | Some fields =>
      match List.find (fun '(k, v) => negb (py_eqb (get k fields) v)) (asset_fields target_id a) with
      | Some (k, _) => Some ("artifact provider " +:+ k +:+ " mismatch")
      | None => None
      end
  end.

(** [_provider_call], with the call made; [asset]: the subject of a question about an artifact *)
Definition provider_call (asset : option (string * SelectedArtifact)) (answered : res provider_answer)
    : res AvailabilityObservation :=
  match answered with
  | Err e => Ok (observation PROVIDER_ERROR (exn_message e) "availability provider raised an exception" (Some "provider_error"))
  | Ok NotObservation => Ok (provider_error "availability provider returned invalid observation" "provider_error" "")
  | Ok (Answer status evidence reason kind artifact) =>
      let invalid := Ok (provider_error "availability provider returned invalid status" "provider_error" (py_str status)) in
      match status with
      | PList _ | PDict _ => raise TypeError "unhashable type"
      | PStr v =>
          match status_of_value v with
          | None => invalid
          | Some s =>
              match evidence, reason with
              | PStr evidence, PStr reason =>
                  match (match kind with PNone => Some None | PStr k => Some (Some k) | _ => None end) with
                  | None => Ok (provider_error "availability provider returned invalid error_kind" "provider_error" "")
                  | Some kind =>
                      if av_authoritative provider && bool_decide (s = AVAILABLE) && negb (truthy_str evidence)
                      then Ok (provider_error "authoritative provider returned available without evidence" "provider_error" "")
                      else match (match asset with
                                  | Some (target_id, a) => provider_asset_mismatch s artifact target_id a
                                  | None => None end) with
                           | Some mismatch => Ok (provider_error mismatch "artifact_subject_mismatch" evidence)
                           | None => Ok (observation s evidence reason kind)
                           end
                  end
              | PStr _, _ => Ok (provider_error "availability provider returned invalid reason" "provider_error" "")
              | _, _ => Ok (provider_error "availability provider returned invalid evidence" "provider_error" "")
              end
          end
      | _ => invalid
      end
  end.

(** [_observation_record] *)
Definition observation_record (operation : string) (c : MethodCandidate) (target_id : string)
    (package_name : option string) (o : AvailabilityObservation) (asset : option SelectedArtifact) : pydict pyval :=
  let external := String.eqb (mc_kind c) "external_repo_exact" in
  [("candidate_priority", PInt (mc_priority c)); ("operation", PStr operation); ("method_id", PStr (mc_method_id c));
   ("target", PStr target_id); ("status", PStr (availability_value (ob_status o))); ("evidence", PStr (ob_evidence o));
   ("reason", PStr (ob_reason o)); ("error_kind", or_none (ob_error_kind o));
   ("provider_type", PStr (av_provider_type provider)); ("provider_authoritative", PBool (av_authoritative provider))]
  ++ match package_name with
     | Some p =>
         ("package_name", PStr p) ::
         (if external
          then [("package_origin",
                 if str_in p (mc_exposed_package_names c)
                 then PStr ("external_repository:" +:+ py_str (get "id" (mc_repository c)))
                 else PStr "base_repository")]
          else [])
     | None => []
     end
  ++ match asset with
     | Some a => [("asset", PDict [("architecture", sa_architecture a); ("asset_name", sa_asset_name a);
                                   ("archive_or_binary_kind", sa_archive_or_binary_kind a);
                                   ("official_download_base", sa_official_download_base a); ("sha256", sa_sha256 a);
                                   ("expected_executable", sa_expected_executable a)])]
     | None => []
     end
  ++ (if external then [("repository", PDict (mc_repository c))] else []).

(** [_all_packages_exist] *)
Fixpoint packages_exist (c : MethodCandidate) (target_id : string) (names : list string) (observations : list (pydict pyval))
    : res (AvailabilityObservation * list (pydict pyval)) :=
  match names with
  | [] => Ok (observation AVAILABLE "all declared packages available" "" None, observations)
  | p :: rest =>
      o ← provider_call None (av_package_exists provider c target_id p);
      let observations := observations ++ [observation_record "package_exists" c target_id (Some p) o None] in
      if negb (bool_decide (ob_status o = AVAILABLE)) then
        Ok (observation (ob_status o) (ob_evidence o)
              (if truthy_str (ob_reason o) then ob_reason o else "package unavailable: " +:+ p) (ob_error_kind o), observations)
      else packages_exist c target_id rest observations
  end.
Definition all_packages_exist (c : MethodCandidate) (target_id : string)
    : res (AvailabilityObservation * list (pydict pyval)) :=
  packages_exist c target_id (mc_package_names c) [].

(** [_external_repo_target_is_compatible] *)
Definition external_repo_target_is_compatible (c : MethodCandidate) (target_id : string) : bool :=
  existsb (fun entry => py_eqb (get "target_id" entry) (PStr target_id)
                        && py_eqb (get "series" entry) (get "series" (mc_repository c))) (mc_compatible_targets c).

(** [_select_artifact_for_architecture] *)
Definition select_artifact_for_architecture (c : MethodCandidate) (architecture : option string) : res SelectedArtifact :=
  match List.filter (fun a => py_eqb (get "architecture" a) (or_none architecture)) (mc_assets c) with
  | [a] =>
      architecture ← dict_item "architecture" a;
      asset_name ← dict_item "asset_name" a;
      kind ← dict_item "archive_or_binary_kind" a;
      base ← dict_item "official_download_base" a;
      sha256 ← dict_item "sha256" a;
      executable ← dict_item "expected_executable" a;
      Ok {| sa_architecture := architecture; sa_asset_name := asset_name; sa_archive_or_binary_kind := kind;
            sa_official_download_base := base; sa_sha256 := sha256; sa_expected_executable := executable |}
  | matches => raise DependencyResolutionError
      ("artifact candidate " +:+ mc_method_id c +:+ " has " +:+ pretty (length matches) +:+ " assets for architecture "
       +:+ py_str (or_none architecture))
  end.

(** [_check_candidate_availability] *)
Definition check_candidate_availability (c : MethodCandidate) (target_id : string) (facts : DistroFacts)
    : res (AvailabilityObservation * list (pydict pyval) * option SelectedArtifact) :=
  if String.eqb (mc_kind c) "official_package_exact" then
    '(o, observations) ← all_packages_exist c target_id;
    Ok (o, observations, None)
  else if String.eqb (mc_kind c) "external_repo_exact" then
    if negb (external_repo_target_is_compatible c target_id) then
      let o := observation UNAVAILABLE
        ("compatible_targets=" +:+ py_str (PList (map PDict (mc_compatible_targets c))) +:+ " target=" +:+ target_id
         +:+ " repository_series=" +:+ py_str (get "series" (mc_repository c)))
        "target_release_not_explicitly_compatible" (Some "target_release_not_explicitly_compatible") in
      Ok (o, [observation_record "repository_supports_exact_target" c target_id None o None], None)
    else
      repo ← provider_call None (av_repository_supports_exact_target provider c target_id);
      let observations := [observation_record "repository_supports_exact_target" c target_id None repo None] in
      if negb (bool_decide (ob_status repo = AVAILABLE)) then Ok (repo, observations, None)
      else
        match (match mc_repository_package c with Some p => if truthy_str p then Some p else None | None => None end) with
        | Some p =>
            bootstrap ← provider_call None (av_package_exists provider c target_id p);
            let observations := observations ++ [observation_record "repository_package_available" c target_id (Some p) bootstrap None] in
            if negb (bool_decide (ob_status bootstrap = AVAILABLE)) then Ok (bootstrap, observations, None)
            else '(o, more) ← all_packages_exist c target_id; Ok (o, observations ++ more, None)
        | None => '(o, more) ← all_packages_exist c target_id; Ok (o, observations ++ more, None)
        end
  else if String.eqb (mc_kind c) "official_artifact_pinned" then
    a ← select_artifact_for_architecture c (df_machine_architecture facts);
    artifact ← provider_call (Some (target_id, a)) (av_artifact_exists provider c target_id a);
    let observations := [observation_record "artifact_exists" c target_id None artifact (Some a)] in
    if negb (bool_decide (ob_status artifact = AVAILABLE)) then Ok (artifact, observations, Some a)
    else
      integrity ← provider_call (Some (target_id, a)) (av_artifact_integrity_metadata_available provider c target_id a);
      Ok (integrity, observations ++ [observation_record "artifact_integrity_metadata_available" c target_id None integrity (Some a)],
          Some a)
  else if String.eqb (mc_kind c) "pinned_source_build" then
    source ← provider_call None (av_source_revision_available provider c target_id);
    Ok (source, [observation_record "source_revision_available" c target_id None source None], None)
  else
    let o := observation MALFORMED_RESPONSE "" "unknown method kind" None in
    Ok (o, [observation_record "unknown" c target_id None o None], None).

(** ** The candidates *)
Definition rejection (c : MethodCandidate) (reason evidence : string) (kind : option string) : CandidateRejection :=
  {| rj_method_id := mc_method_id c; rj_method_kind := mc_kind c; rj_reason := reason; rj_evidence := evidence;
     rj_error_kind := kind |}.

Definition opt_in (o : option string) (l : list string) : bool := match o with Some s => str_in s l | None => false end.

(** [_candidate_target]: the exact target, or why there is none *)
Definition candidate_target (facts : DistroFacts) (c : MethodCandidate) : string + CandidateRejection :=
  let reject reason := inr (rejection c reason "" None) in
  if negb (opt_in (df_technical_family facts) (ts_technical_families (mc_target_scope c)))
  then reject "technical_family_not_applicable"
  else if negb (opt_in (df_machine_architecture facts) (mc_architectures c)) then reject "architecture_not_supported"
  else if bool_decide (df_release_model facts = Some "rolling") then
    if negb (String.eqb (mc_target_identity c) "rolling_distribution") then reject "rolling_target_requires_rolling_identity"
    else match df_resolved_distribution facts with
         | Some d => if str_in d (ts_rolling_distributions (mc_target_scope c)) then inl d
                     else reject "rolling_distribution_not_explicitly_targeted"
         | None => reject "rolling_distribution_not_explicitly_targeted"
         end
  else if negb (bool_decide (df_release_model facts = Some "stable")) then reject "release_model_unknown"
  else match df_resolved_release facts with
  | None => reject "release_unknown"
  | Some release =>
      if negb (str_in release (ts_stable_releases (mc_target_scope c))) then reject "stable_release_not_explicitly_targeted"
      else if String.eqb (mc_target_identity c) "mapped_base_release" then
        match df_mapped_base_release facts with
        | Some base => if truthy_str base then inl base else reject "mapped_base_release_absent"
        | None => reject "mapped_base_release_absent"
        end
      else if String.eqb (mc_target_identity c) "rolling_distribution" then reject "stable_target_cannot_use_rolling_identity"
      else if negb (String.eqb (mc_target_identity c) "resolved_release") then reject "unknown_target_identity"
      else inl release
  end.

(** [_is_sha256] and [_is_git_commit] *)
Definition is_hex (n : nat) (v : pyval) : bool :=
  match v with
  | PStr s => (String.length s =? n)%nat && forall_chars (fun c => contains (String c "") "0123456789abcdefABCDEF") s
  | _ => false
  end.
Definition is_sha256 : pyval → bool := is_hex 64.
Definition is_git_commit : pyval → bool := is_hex 40.

(** [type(v) is str and v] *)
Definition nonempty_str (v : pyval) : bool := match v with PStr s => truthy_str s | _ => false end.

Definition source_component_has_complete_security_metadata (d : pydict pyval) : bool :=
  py_eqb (get "resolution" d) (PStr "latest_official_release")
  || (py_eqb (get "revision_type" d) (PStr "commit") && is_git_commit (get "revision" d) && nonempty_str (get "tag" d)).

Definition candidate_has_complete_security_metadata (c : MethodCandidate) : bool :=
  if String.eqb (mc_kind c) "official_artifact_pinned" then
    let i := mc_integrity c in
    match i with
    | [] => false
    | _ =>
        if negb (dict_has "type" i) then false
        else if py_eqb (get "type" i) (PStr "sha256") then forallb (fun arch => is_sha256 (get arch i)) (mc_architectures c)
        else if py_eqb (get "type" i) (PStr "signature")
        then forallb (fun field => nonempty_str (get field i)) ["signature"; "key_fingerprint"; "key_provenance"; "verification_policy"]
        else false
    end
  else if String.eqb (mc_kind c) "pinned_source_build" then
    match mc_components c with
    | (_ :: _) as components => forallb source_component_has_complete_security_metadata components
    | [] => py_eqb (mc_revision_type c) (PStr "commit") && is_git_commit (mc_revision c)
    end
  else true.

Definition availability_blocks_chain (s : AvailabilityStatus) : bool :=
  bool_decide (s ∈ [UNKNOWN_; TIMEOUT; PERMISSION_DENIED; MALFORMED_RESPONSE; PROVIDER_ERROR]).
Definition availability_rejection_reason (s : AvailabilityStatus) : string :=
  match s with
  | UNAVAILABLE => "candidate_unavailable"
  | UNKNOWN_ => "availability_unknown"
  | _ => availability_value s
  end.

(** ** The resolution *)
Definition load_requirement (m : Manifest) (dependency_id : string) : res DependencyRequirement :=
  match dict_get dependency_id (mf_dependency_requirements m) with
  | None => raise DependencyResolutionError ("unknown dependency: " +:+ dependency_id)
  | Some raw =>
      if negb (bool_decide (NoDup (map mc_priority (rw_method_chain raw))))
      then raise DependencyResolutionError ("dependency " +:+ dependency_id +:+ " has duplicate priorities")
      else Ok {| dq_dependency_id := dependency_id; dq_capability_id := rw_capability_id raw;
                 dq_description := rw_description raw;
                 dq_method_chain := py_sorted (fun a b => (mc_priority a <? mc_priority b)%Z) (rw_method_chain raw) |}
  end.

Definition validate_support_classification (v : string) : res unit :=
  match parse_support v with
  | Ok _ => Ok tt
  | Err _ => raise DependencyResolutionError ("invalid support_classification: " +:+ v)
  end.

(** [_capability_status] *)
Definition capability_status (m : Manifest) (results : list CapabilityResult) (capability_id : string)
    : res (option string) :=
  let core := mf_core_host_capabilities m in
  let known c := str_in c core || str_in c (mf_protocol_capabilities m) in
  if negb (known capability_id)
  then raise DependencyResolutionError ("dependency references unknown capability: " +:+ capability_id)
  else match List.find (fun r => negb (known (cp_capability_id r))) results with
  | Some r => raise DependencyResolutionError ("capability result references unknown capability: " +:+ cp_capability_id r)
  | None =>
      match List.filter (fun r => String.eqb (cp_capability_id r) capability_id) results with
      | [] => Ok None
      | [r] =>
          let valid := if str_in capability_id core then map core_value CORE_STATUSES else map runtime_value RUNTIME_STATUSES in
          if negb (str_in (cp_domain_status r) valid)
          then raise DependencyResolutionError ("invalid domain_status for " +:+ capability_id +:+ ": " +:+ cp_domain_status r)
          else Ok (Some (cp_domain_status r))
      | _ => raise DependencyResolutionError ("duplicate capability result for " +:+ capability_id)
      end
  end.

(** A decision without a method *)
Definition no_method (common : DecisionCommon) (st : ResolutionStatus) (ready : bool) (evidence : list string)
    (reason : string) (kind : option string) : ResolverDecision :=
  {| dd_common := common; dd_selected_method_id := None; dd_selected_method_kind := None; dd_resolution_status := st;
     dd_execution_ready := ready; dd_rejected_candidates := []; dd_evidence := evidence; dd_reason := reason;
     dd_availability_observations := []; dd_all_availability_observations := []; dd_selected_asset := None;
     dd_error_kind := kind |}.

(** The candidate's own rejection when it is not available *)
Definition unavailable (c : MethodCandidate) (o : AvailabilityObservation) : CandidateRejection :=
  rejection c (if truthy_str (ob_reason o) then ob_reason o else availability_rejection_reason (ob_status o))
    (if truthy_str (ob_evidence o) then ob_evidence o else ob_reason o)
    (Some (match ob_error_kind o with
           | Some k => if truthy_str k then k else availability_value (ob_status o)
           | None => availability_value (ob_status o) end)).

Fixpoint resolve_chain (common : DecisionCommon) (facts : DistroFacts) (chain : list MethodCandidate)
    (rejections : list CandidateRejection) (all : list (pydict pyval)) : res ResolverDecision :=
  match chain with
  | [] =>
      Ok {| dd_common := common; dd_selected_method_id := None; dd_selected_method_kind := None;
            dd_resolution_status := Q_NO_SAFE_ROUTE; dd_execution_ready := false; dd_rejected_candidates := rejections;
            dd_evidence := []; dd_reason := "no candidate in the declared chain qualified for this exact target";
            dd_availability_observations := []; dd_all_availability_observations := all; dd_selected_asset := None;
            dd_error_kind := Some "no_safe_route" |}
  | c :: rest =>
      match candidate_target facts c with
      | inr r => resolve_chain common facts rest (rejections ++ [r]) all
      | inl target_id =>
          if negb (candidate_has_complete_security_metadata c) then
            resolve_chain common facts rest
              (rejections ++ [rejection c "pin_metadata_incomplete" "method lacks complete pin or integrity metadata"
                                (Some "pin_metadata_incomplete")]) all
          else
            '(o, observations, asset) ← check_candidate_availability c target_id facts;
            let all := all ++ observations in
            if negb (bool_decide (ob_status o = AVAILABLE)) then
              let rejections := rejections ++ [unavailable c o] in
              if availability_blocks_chain (ob_status o) then
                Ok {| dd_common := common; dd_selected_method_id := None; dd_selected_method_kind := None;
                      dd_resolution_status := Q_AVAILABILITY_UNKNOWN; dd_execution_ready := false;
                      dd_rejected_candidates := rejections ++ map (fun lower =>
                        rejection lower "not_evaluated_due_to_higher_priority_unknown"
                          ("blocked by " +:+ availability_value (ob_status o) +:+ " on " +:+ mc_method_id c)
                          (Some "not_evaluated_due_to_higher_priority_unknown")) rest;
                      dd_evidence := (if truthy_str (ob_evidence o) then [ob_evidence o] else []);
                      dd_reason := "higher-priority candidate availability is indeterminate";
                      dd_availability_observations := observations; dd_all_availability_observations := all;
                      dd_selected_asset := asset; dd_error_kind := rj_error_kind (unavailable c o) |}
              else resolve_chain common facts rest rejections all
            else
              let ready := String.eqb (mc_kind c) "pinned_source_build"
                           && String.eqb (mc_implementation_status c) "implemented" in
              Ok {| dd_common := common; dd_selected_method_id := Some (mc_method_id c);
                    dd_selected_method_kind := Some (mc_kind c);
                    dd_resolution_status := (if ready then Q_METHOD_SELECTED else Q_RECIPE_NOT_IMPLEMENTED);
                    dd_execution_ready := ready; dd_rejected_candidates := rejections;
                    dd_evidence := mc_evidence c ++ [ob_evidence o];
                    dd_reason := (if ready then "method selected by strict exact-target chain"
                                  else "method selected but execution belongs to a later transactional provisioning task");
                    dd_availability_observations := observations; dd_all_availability_observations := all;
                    dd_selected_asset := asset; dd_error_kind := None |}
      end
  end.

Definition decision_common (facts : DistroFacts) (support_classification : string) (q : DependencyRequirement)
    (observed : option string) : DecisionCommon :=
  {| dc_capability_id := dq_capability_id q; dc_dependency_id := dq_dependency_id q; dc_facts := facts;
     dc_support_classification := support_classification; dc_observed_capability_status := observed;
     dc_candidate_chain := map mc_method_id (dq_method_chain q); dc_provider_type := av_provider_type provider;
     dc_provider_authoritative := av_authoritative provider |}.

Definition resolve_dependency (m : Manifest) (facts : DistroFacts) (support_classification : string)
    (results : list CapabilityResult) (dependency_id : string) : res ResolverDecision :=
  q ← load_requirement m dependency_id;
  _ ← validate_support_classification support_classification;
  observed ← capability_status m results (dq_capability_id q);
  let common := decision_common facts support_classification q observed in
  if String.eqb support_classification "unsupported" || bool_decide (df_resolved_distribution facts = None) then
    Ok (no_method common Q_OUT_OF_CONTRACT false [] "target distribution is outside the compatibility contract"
          (Some "out_of_contract"))
  else if bool_decide (observed = Some "present") then
    Ok (no_method common Q_ALREADY_PRESENT true ["observed capability already present"]
          "dependency already satisfied on this host" None)
  else if bool_decide (observed = None) then
    Ok (no_method common Q_CAPABILITY_OBSERVATION_MISSING false []
          "capability observation is missing for required dependency" (Some "capability_observation_missing"))
  else if bool_decide (observed = Some "impossible") then
    Ok (no_method common Q_NO_SAFE_ROUTE false [] "observed capability state is explicitly impossible here"
          (Some "capability_impossible"))
  else if bool_decide (observed = Some "preparation_failed") then
    Ok (no_method common Q_PREPARATION_FAILED false []
          "capability preparation has already failed before dependency resolution" (Some "preparation_failed"))
  else resolve_chain common facts (dq_method_chain q) [] [].

(** [resolve_all]: the decisions of the report, in the order of the dependency names *)
Fixpoint resolve_each (m : Manifest) (facts : DistroFacts) (support_classification : string)
    (results : list CapabilityResult) (ids : list string) : res (list ResolverDecision) :=
  match ids with
  | [] => Ok []
  | id :: rest =>
      d ← resolve_dependency m facts support_classification results id;
      ds ← resolve_each m facts support_classification results rest;
      Ok (d :: ds)
  end.
Definition resolve_all (m : Manifest) (facts : DistroFacts) (support_classification : string)
    (results : list CapabilityResult) : res (list ResolverDecision) :=
  resolve_each m facts support_classification results (py_sorted String.ltb (map fst (mf_dependency_requirements m))).
End resolver.

(** ** The deterministic provider

    [StaticAvailabilityProvider]: a table of answers, keyed by operation, method, target and
    package *)
Inductive static_value : Type :=
| SObservation (a : provider_answer)
| SStatus (status : string).
Definition static_key : Type := string * string * string * pyval.
Definition key_eqb (a b : static_key) : bool :=
  let '(o, m, t, p) := a in
  let '(o', m', t', p') := b in
  String.eqb o o' && String.eqb m m' && String.eqb t t' && py_eqb p p'.

Definition static_lookup (table : list (static_key * static_value)) (default_status operation : string)
    (c : MethodCandidate) (target_id : string) (package_name : pyval) : provider_answer :=
  let plain s := Answer (PStr s) (PStr "static fixture availability") (PStr "") PNone None in
  match List.find (fun '(k, _) => key_eqb k (operation, mc_method_id c, target_id, package_name)) table with
  | None => plain default_status
  | Some (_, SObservation a) => a
  | Some (_, SStatus s) => plain s
  end.

(** [_artifact_lookup]: an available answer names the artifact it was asked for *)
Definition static_artifact_lookup (table : list (static_key * static_value)) (default_status operation : string)
    (c : MethodCandidate) (target_id : string) (a : SelectedArtifact) : provider_answer :=
  match static_lookup table default_status operation c target_id (sa_asset_name a) with
  | Answer (PStr "available") evidence reason kind None =>
      Answer (PStr "available") evidence reason kind (Some (asset_fields target_id a))
  | answer => answer
  end.

Definition static_provider (table : list (static_key * static_value)) (default_status : string) (authoritative : bool)
    : AvailabilityProvider := {|
  av_provider_type := "static_fixture";
  av_authoritative := authoritative;
  av_package_exists c t p := Ok (static_lookup table default_status "package_exists" c t (PStr p));
  av_repository_supports_exact_target c t :=
    Ok (static_lookup table default_status "repository_supports_exact_target" c t PNone);
  av_artifact_exists c t a := Ok (static_artifact_lookup table default_status "artifact_exists" c t a);
  av_artifact_integrity_metadata_available c t a :=
    Ok (static_artifact_lookup table default_status "artifact_integrity_metadata_available" c t a);
  av_source_revision_available c t := Ok (static_lookup table default_status "source_revision_available" c t PNone)
|}.

(** ** The decision that the engine receives: [dataclasses.asdict] of the artifact *)
Definition asset_dict (a : SelectedArtifact) : pydict pyval :=
  [("architecture", sa_architecture a); ("asset_name", sa_asset_name a);
   ("archive_or_binary_kind", sa_archive_or_binary_kind a); ("official_download_base", sa_official_download_base a);
   ("sha256", sa_sha256 a); ("expected_executable", sa_expected_executable a)].
Definition engine_decision (d : ResolverDecision) : ResolutionDecision := {|
  de_capability_id := dc_capability_id (dd_common d); de_dependency_id := dc_dependency_id (dd_common d);
  de_resolved_distribution := df_resolved_distribution (dc_facts (dd_common d));
  de_resolved_release := df_resolved_release (dc_facts (dd_common d));
  de_support_classification := dc_support_classification (dd_common d);
  de_machine_architecture := df_machine_architecture (dc_facts (dd_common d));
  de_selected_method_id := dd_selected_method_id d; de_selected_method_kind := dd_selected_method_kind d;
  de_resolution_status := resolution_value (dd_resolution_status d); de_execution_ready := dd_execution_ready d;
  de_selected_asset := option_map asset_dict (dd_selected_asset d)
|}.

(** ** Reference *)
Section reference.
Context `{PyStr} (provider : AvailabilityProvider) (facts : DistroFacts).

(** What one candidate amounts to, on its own *)
Inductive verdict : Type := Usable | Ruled_out | Undecided.
#[global] Instance verdict_eq_dec : EqDecision verdict.
Proof. solve_decision. Defined.

Definition judge (c : MethodCandidate) : res verdict :=
  match candidate_target facts c with
  | inr _ => Ok Ruled_out
  | inl target_id =>
      if negb (candidate_has_complete_security_metadata c) then Ok Ruled_out
      else
        '(o, _, _) ← check_candidate_availability provider c target_id facts;
        Ok (match ob_status o with AVAILABLE => Usable | UNAVAILABLE => Ruled_out | _ => Undecided end)
  end.

Definition ruled_out (c : MethodCandidate) : bool := match judge c with Ok Ruled_out => true | _ => false end.

(** The chain up to its first candidate that is not ruled out *)
Fixpoint split_chain (chain : list MethodCandidate) : list MethodCandidate * option (MethodCandidate * list MethodCandidate) :=
  match chain with
  | [] => ([], None)
  | c :: rest => if ruled_out c then let '(out, x) := split_chain rest in (c :: out, x) else ([], Some (c, rest))
  end.

(** The decision agrees with the first candidate that is not ruled out *)
Definition decided (chain : list MethodCandidate) (before : list string) (d : ResolverDecision) : Prop :=
  let '(out, x) := split_chain chain in
  match x with
  | None =>
      dd_selected_method_id d = None ∧ dd_resolution_status d = Q_NO_SAFE_ROUTE ∧ dd_execution_ready d = false
      ∧ map rj_method_id (dd_rejected_candidates d) = before ++ map mc_method_id chain
  | Some (c, lower) =>
      judge c = Ok Usable ∧ dd_selected_method_id d = Some (mc_method_id c) ∧ dd_selected_method_kind d = Some (mc_kind c)
      ∧ dd_execution_ready d = String.eqb (mc_kind c) "pinned_source_build" && String.eqb (mc_implementation_status c) "implemented"
      ∧ dd_resolution_status d = (if dd_execution_ready d then Q_METHOD_SELECTED else Q_RECIPE_NOT_IMPLEMENTED)
      ∧ map rj_method_id (dd_rejected_candidates d) = before ++ map mc_method_id out
      ∨ judge c = Ok Undecided ∧ dd_selected_method_id d = None ∧ dd_resolution_status d = Q_AVAILABILITY_UNKNOWN
        ∧ dd_execution_ready d = false
        ∧ map rj_method_id (dd_rejected_candidates d) = before ++ map mc_method_id chain
  end.

Lemma candidate_target_rejection c r : candidate_target facts c = inr r → rj_method_id r = mc_method_id c.
Proof.
  unfold candidate_target. intros Hr. repeat (case_match; simplify_eq; try done).
Qed.

Lemma decided_cons c chain before d :
  ruled_out c = true → decided chain (before ++ [mc_method_id c]) d → decided (c :: chain) before d.
Proof.
  intros Hc. unfold decided. cbn [split_chain]. rewrite Hc. destruct (split_chain chain) as [out [[c' lower]|]]; cbn [map];
    by rewrite <- !app_assoc.
Qed.

Lemma decided_head c chain before d :
  ruled_out c = false →
  (judge c = Ok Usable ∧ dd_selected_method_id d = Some (mc_method_id c) ∧ dd_selected_method_kind d = Some (mc_kind c)
   ∧ dd_execution_ready d = String.eqb (mc_kind c) "pinned_source_build" && String.eqb (mc_implementation_status c) "implemented"
   ∧ dd_resolution_status d = (if dd_execution_ready d then Q_METHOD_SELECTED else Q_RECIPE_NOT_IMPLEMENTED)
   ∧ map rj_method_id (dd_rejected_candidates d) = before
   ∨ judge c = Ok Undecided ∧ dd_selected_method_id d = None ∧ dd_resolution_status d = Q_AVAILABILITY_UNKNOWN
     ∧ dd_execution_ready d = false
     ∧ map rj_method_id (dd_rejected_candidates d) = before ++ map mc_method_id (c :: chain)) →
  decided (c :: chain) before d.
Proof. intros Hc. unfold decided. cbn [split_chain]. rewrite Hc. cbn [map]. rewrite app_nil_r. done. Qed.

Lemma resolve_chain_decided common chain rejections all d :
  resolve_chain provider common facts chain rejections all = Ok d → decided chain (map rj_method_id rejections) d.
Proof.
  revert rejections all. induction chain as [|c chain IH]; intros rejections all; cbn [resolve_chain].
  { intros [= <-]. unfold decided. cbn. by rewrite app_nil_r. }
  assert (Hout : ∀ r all', rj_method_id r = mc_method_id c → ruled_out c = true →
    resolve_chain provider common facts chain (rejections ++ [r]) all' = Ok d → decided (c :: chain) (map rj_method_id rejections) d).
  { intros r all' Hr Hc Hd. apply decided_cons; [done|]. specialize (IH _ _ Hd). rewrite map_app in IH. cbn [map] in IH. by rewrite Hr in IH. }
  assert (Hj : judge c = judge c) by done. unfold judge at 2 in Hj.
  destruct (candidate_target facts c) as [target_id|r] eqn:Et.
  - destruct (negb _); [apply Hout; [done|unfold ruled_out; by rewrite Hj]|].
    destruct (check_candidate_availability provider c target_id facts) as [[[o observations] asset]|e] eqn:Ec; [|done].
    cbn [mbind res_bind] in Hj |- *. case_bool_decide as Ha; cbn [negb].
    + intros [= <-]. rewrite Ha in Hj. apply decided_head; [unfold ruled_out; by rewrite Hj|left]. cbn. by repeat split.
    + destruct (ob_status o) eqn:Es; try done; cbn in Hj |- *;
        try (apply Hout; [done|unfold ruled_out; by rewrite Hj]);
        (intros [= <-]; apply decided_head; [unfold ruled_out; by rewrite Hj|right]; cbn;
         split; [done|]; split; [done|]; split; [done|]; split; [done|];
         rewrite !map_app, map_map; cbn; by rewrite <- app_assoc).
  - apply Hout; [by apply candidate_target_rejection|unfold ruled_out; by rewrite Hj].
Qed.
End reference.

(** ** Theorems *)
Section theorems.
Context `{PyStr} (provider : AvailabilityProvider) (m : Manifest) (facts : DistroFacts) (support_classification : string)
        (results : list CapabilityResult) (dependency_id : string).

Lemma resolve_chain_common common chain rejections all d :
  resolve_chain provider common facts chain rejections all = Ok d → dd_common d = common.
Proof.
  revert rejections all. induction chain as [|c chain IH]; intros rejections all; cbn [resolve_chain]; [by intros [= <-]|].
  destruct (candidate_target facts c) as [target_id|r]; [|apply IH]. destruct (negb _); [apply IH|].
  destruct (check_candidate_availability provider c target_id facts) as [[[o observations] asset]|e]; [|done]. cbn.
  destruct (negb _); [|by intros [= <-]]. destruct (availability_blocks_chain _); [by intros [= <-]|apply IH].
Qed.

(** The dependency is missing on a host inside the contract *)
Definition wanted (observed : option string) : Prop :=
  support_classification ≠ "unsupported" ∧ df_resolved_distribution facts ≠ None
  ∧ (observed = Some "provisionable" ∨ observed = Some "absent").

#[global] Instance wanted_dec observed : Decision (wanted observed).
Proof. unfold wanted. apply _. Defined.

Lemma capability_status_values capability_id observed :
  capability_status m results capability_id = Ok (Some observed) →
  observed ∈ ["present"; "provisionable"; "preparation_failed"; "impossible"; "absent"].
Proof.
  unfold capability_status. destruct (negb _); [done|]. destruct (List.find _ _); [done|].
  destruct (List.filter _ _) as [|r [|r' l]]; [done| |done]. destruct (str_in (cp_domain_status r) _) eqn:Ev; [|done].
  intros [= <-]. unfold str_in in Ev. apply existsb_exists in Ev as (x & Hx & ->%String.eqb_eq).
  apply list_elem_of_In in Hx. destruct (existsb _ _); cbn in Hx; set_solver.
Qed.

Lemma load_requirement_sorted q :
  load_requirement m dependency_id = Ok q → StronglySorted (fun a b => (mc_priority a < mc_priority b)%Z) (dq_method_chain q).
Proof.
  unfold load_requirement. destruct (dict_get _ _) as [raw|]; [|done]. case_bool_decide as Hn; [|done]. cbn. intros [= <-]. cbn.
  set (lt := fun a b => (mc_priority a <? mc_priority b)%Z).
  assert (Hs : StronglySorted (not_after lt) (py_sorted lt (rw_method_chain raw))).
  { apply (py_sorted_sorted lt (fun _ => True)); [| |by apply Forall_true]; unfold lt; intros *;
      rewrite ?Z.ltb_lt, ?Z.ltb_ge; lia. }
  assert (Hd : NoDup (map mc_priority (py_sorted lt (rw_method_chain raw)))) by (by rewrite py_sorted_perm).
  revert Hd. induction Hs as [|c l _ IH Hc]; intros Hd; [constructor|]. cbn in Hd. apply NoDup_cons in Hd as [Hc' Hd].
  constructor; [by apply IH|]. rewrite Forall_forall in Hc |- *. intros x Hx. specialize (Hc x Hx). unfold not_after, lt in Hc.
  apply Z.ltb_ge in Hc. assert (mc_priority c ≠ mc_priority x); [|lia]. intros He. apply Hc'. rewrite He.
  by apply list_elem_of_fmap_2.
Qed.

Lemma resolve_dependency_cases d :
  resolve_dependency provider m facts support_classification results dependency_id = Ok d →
  ∃ q observed, load_requirement m dependency_id = Ok q ∧ capability_status m results (dq_capability_id q) = Ok observed
    ∧ dd_common d = decision_common provider facts support_classification q observed
    ∧ (wanted observed ∧ resolve_chain provider (decision_common provider facts support_classification q observed) facts
                           (dq_method_chain q) [] [] = Ok d
       ∨ ¬ wanted observed ∧ dd_selected_method_id d = None ∧ dd_resolution_status d ≠ Q_METHOD_SELECTED
         ∧ (dd_execution_ready d = true ↔ dd_resolution_status d = Q_ALREADY_PRESENT)
         ∧ (dd_resolution_status d = Q_ALREADY_PRESENT ↔ support_classification ≠ "unsupported"
              ∧ df_resolved_distribution facts ≠ None ∧ observed = Some "present")).
Proof.
  unfold resolve_dependency. destruct (load_requirement m dependency_id) as [q|]; [|done]. cbn.
  destruct (validate_support_classification _); [|done]. cbn.
  destruct (capability_status m results (dq_capability_id q)) as [observed|] eqn:Eo; [|done]. cbn. intros Hd.
  exists q, observed. split; [done|]. split; [done|].
  assert (Hcom : dd_common d = decision_common provider facts support_classification q observed ∧
    (wanted observed → resolve_chain provider (decision_common provider facts support_classification q observed) facts
                         (dq_method_chain q) [] [] = Ok d) ∧
    (¬ wanted observed → dd_selected_method_id d = None ∧ dd_resolution_status d ≠ Q_METHOD_SELECTED
         ∧ (dd_execution_ready d = true ↔ dd_resolution_status d = Q_ALREADY_PRESENT)
         ∧ (dd_resolution_status d = Q_ALREADY_PRESENT ↔ support_classification ≠ "unsupported"
              ∧ df_resolved_distribution facts ≠ None ∧ observed = Some "present"))).
  { unfold wanted. destruct (String.eqb_spec support_classification "unsupported") as [Hs|Hs]; cbn in Hd.
    { injection Hd as <-. cbn. split; [done|]. split; [tauto|]. intros _. repeat split; try done; tauto. }
    case_bool_decide as H1; [injection Hd as <-; cbn; split; [done|]; split; [tauto|]; intros _; repeat split; try done; tauto|].
    case_bool_decide as H2; [injection Hd as <-; cbn; subst observed; split; [done|]; split; [by intros (_ & _ & [[=]|[=]])|]; done|].
    case_bool_decide as H3; [injection Hd as <-; cbn; subst observed; split; [done|]; split; [by intros (_ & _ & [[=]|[=]])|]; intros _; repeat split; try done; by intros (_ & _ & [=])|].
    case_bool_decide as H4; [injection Hd as <-; cbn; subst observed; split; [done|]; split; [by intros (_ & _ & [[=]|[=]])|]; intros _; repeat split; try done; by intros (_ & _ & [=])|].
    case_bool_decide as H5; [injection Hd as <-; cbn; subst observed; split; [done|]; split; [by intros (_ & _ & [[=]|[=]])|]; intros _; repeat split; try done; by intros (_ & _ & [=])|].
    split; [by eapply resolve_chain_common|]. split; [done|]. intros Hw. destruct Hw. split; [done|]. split; [done|].
    destruct observed as [o|]; [|done]. apply capability_status_values in Eo. set_solver. }
  destruct Hcom as (Hc & Hw & Hn). split; [done|]. destruct (decide (wanted observed)) as [Hd'|Hd']; [left|right]; auto.
Qed.

(** the decision is the one of the first candidate, in strictly increasing priority, that is
    not ruled out on its own: that candidate is selected if it is usable and nothing is if it
    cannot be decided; every candidate passed over is accounted for.  Outside the contract, or
    when the capability is not known to be missing, no method is ever selected. *)
Theorem resolution_first_decisive (d : ResolverDecision) :
  resolve_dependency provider m facts support_classification results dependency_id = Ok d →
  ∃ q observed, load_requirement m dependency_id = Ok q ∧ capability_status m results (dq_capability_id q) = Ok observed
    ∧ StronglySorted (fun a b => (mc_priority a < mc_priority b)%Z) (dq_method_chain q)
    ∧ (wanted observed ∧ decided provider facts (dq_method_chain q) [] d
       ∨ ¬ wanted observed ∧ dd_selected_method_id d = None
         ∧ (dd_execution_ready d = true ↔ support_classification ≠ "unsupported"
              ∧ df_resolved_distribution facts ≠ None ∧ observed = Some "present")).
Proof.
  intros Hd. destruct (resolve_dependency_cases d Hd) as (q & observed & Hq & Ho & _ & Hcase). exists q, observed.
  split; [done|]. split; [done|]. split; [by apply load_requirement_sorted|]. destruct Hcase as [[Hw Hc]|(Hw & Hm & _ & Hr & Hp)].
  - left. split; [done|]. apply (resolve_chain_decided provider facts _ _ _ _ d Hc).
  - right. by rewrite Hr, Hp.
Qed.

(** A commit: forty hexadecimal digits *)
Definition hex_digit (c : ascii) : bool :=
  let n := N_of_ascii c in
  ((48 <=? n) && (n <=? 57) || (65 <=? n) && (n <=? 70) || (97 <=? n) && (n <=? 102))%N.

Definition commit_id (v : pyval) : Prop :=
  ∃ s, v = PStr s ∧ String.length s = 40%nat ∧ forall_chars hex_digit s = true.

(** A component is pinned to a commit with its tag, or declares the policy that resolves it to
    the latest official release. *)
Definition identified_component (d : pydict pyval) : Prop :=
  dict_get "resolution" d = Some (PStr "latest_official_release")
  ∨ (dict_get "revision_type" d = Some (PStr "commit")
     ∧ (∃ v, dict_get "revision" d = Some v ∧ commit_id v)
     ∧ ∃ t, dict_get "tag" d = Some (PStr t) ∧ t ≠ "").

(** A source build without components is pinned to a commit itself. *)
Definition identified_source (c : MethodCandidate) : Prop :=
  match mc_components c with
  | [] => mc_revision_type c = PStr "commit" ∧ commit_id (mc_revision c)
  | components => Forall identified_component components
  end.

Lemma hex_contains c : contains (String c "") "0123456789abcdefABCDEF" = hex_digit c.
Proof. destruct c as [[] [] [] [] [] [] [] []]; reflexivity. Qed.

Lemma git_commit_id v : is_git_commit v = true → commit_id v.
Proof.
  destruct v; try done. intros [Hl%Nat.eqb_eq Hc]%andb_true_iff. exists s. split; [done|]. split; [done|].
  rewrite <- Hc. clear. induction s as [|c s IH]; [done|]. cbn [forall_chars]. by rewrite hex_contains, IH.
Qed.

Lemma eqb_is_str v s : py_eqb v (PStr s) = true → v = PStr s.
Proof. destruct v; cbn; try done. by intros ->%String.eqb_eq. Qed.

Lemma get_some k d v : get k d = v → v ≠ PNone → dict_get k d = Some v.
Proof. unfold get, dict_get_or. destruct (dict_get k d) as [x|]; cbn; congruence. Qed.

Lemma component_identified d : source_component_has_complete_security_metadata d = true → identified_component d.
Proof.
  intros [Hr%eqb_is_str|Hp]%orb_true_iff; [left; by apply get_some|right].
  apply andb_true_iff in Hp as [[Ht%eqb_is_str Hc%git_commit_id]%andb_true_iff Htag].
  split; [by apply get_some|]. destruct Hc as (s & Hs & Hc). split.
  - exists (PStr s). split; [by apply get_some|]. by exists s.
  - destruct (get "tag" d) as [| | | |t| |] eqn:Eg; try done. exists t. split; [by apply get_some|]. by destruct t.
Qed.

Lemma complete_identified c :
  mc_kind c = "pinned_source_build" → candidate_has_complete_security_metadata c = true → identified_source c.
Proof.
  intros Hk. unfold candidate_has_complete_security_metadata, identified_source. rewrite Hk. cbn [String.eqb Ascii.eqb Bool.eqb].
  destruct (mc_components c) as [|x l].
  - intros [Ht%eqb_is_str Hc%git_commit_id]%andb_true_iff. done.
  - intros Hf. apply Forall_forall. intros y Hy. apply component_identified.
    apply (proj1 (forallb_forall _ _) Hf y). apply list_elem_of_In. exact Hy.
Qed.

(** What a candidate that the engine may execute satisfies *)
Record executable (q : DependencyRequirement) (c : MethodCandidate) : Prop := {
  xe_chain : c ∈ dq_method_chain q;
  xe_kind : mc_kind c = "pinned_source_build";
  xe_implemented : mc_implementation_status c = "implemented";
  xe_identified : identified_source c;
  xe_target : ∃ target_id o, candidate_target facts c = inl target_id
    ∧ provider_call provider None (av_source_revision_available provider c target_id) = Ok o ∧ ob_status o = AVAILABLE;
  xe_first : ∀ c', c' ∈ dq_method_chain q → (mc_priority c' < mc_priority c)%Z → ruled_out provider facts c' = true
}.

Lemma split_chain_app chain out c lower :
  split_chain provider facts chain = (out, Some (c, lower)) →
  chain = out ++ c :: lower ∧ Forall (fun x => ruled_out provider facts x = true) out.
Proof.
  revert out. induction chain as [|x chain IH]; intros out; cbn [split_chain]; [done|].
  destruct (ruled_out provider facts x) eqn:Ex; [|by intros [= <- <- <-]].
  destruct (split_chain provider facts chain) as [out' y]. intros [= <- ->]. destruct (IH out' eq_refl) as [-> Hf].
  split; [done|by constructor].
Qed.

Lemma judge_usable c :
  mc_kind c = "pinned_source_build" → judge provider facts c = Ok Usable →
  candidate_has_complete_security_metadata c = true
  ∧ ∃ target_id o, candidate_target facts c = inl target_id
    ∧ provider_call provider None (av_source_revision_available provider c target_id) = Ok o ∧ ob_status o = AVAILABLE.
Proof.
  intros Hk. unfold judge. destruct (candidate_target facts c) as [target_id|r]; [|done].
  destruct (candidate_has_complete_security_metadata c); [|done]. cbn [negb]. unfold check_candidate_availability.
  rewrite Hk. cbn [String.eqb Ascii.eqb Bool.eqb]. cbn.
  destruct (provider_call provider None _) as [o|e] eqn:Eo; [|done]. cbn. intros Hs. split; [done|]. exists target_id, o.
  split; [done|]. split; [done|]. by destruct (ob_status o).
Qed.

Lemma ready_executable d :
  resolve_dependency provider m facts support_classification results dependency_id = Ok d →
  dd_resolution_status d = Q_METHOD_SELECTED → dd_execution_ready d = true →
  ∃ q c, load_requirement m dependency_id = Ok q ∧ executable q c ∧ dd_selected_method_id d = Some (mc_method_id c)
    ∧ dd_selected_method_kind d = Some (mc_kind c).
Proof.
  intros Hd Hs Hr. destruct (resolve_dependency_cases d Hd) as (q & observed & Hq & Ho & _ & Hcase).
  destruct Hcase as [[Hw Hc]|(_ & _ & ? & _)]; [|done]. exists q.
  pose proof (resolve_chain_decided provider facts _ _ _ _ d Hc) as Hdec. unfold decided in Hdec.
  destruct (split_chain provider facts (dq_method_chain q)) as [out [[c lower]|]] eqn:Esp; [|by destruct Hdec as (_ & ? & ? & _); congruence].
  destruct Hdec as [(Hj & Hid & Hk & Hrd & _)|(_ & _ & ? & _)]; [|congruence].
  rewrite Hr in Hrd. symmetry in Hrd. apply andb_true_iff in Hrd as [Hkind%String.eqb_eq Himpl%String.eqb_eq].
  destruct (split_chain_app _ _ _ _ Esp) as [Hch Hout]. destruct (judge_usable c Hkind Hj) as [Hp Ht].
  exists c. split; [done|]. split; [|done]. pose proof (load_requirement_sorted q Hq) as Hsort. rewrite Hch in Hsort.
  constructor; try done; [rewrite Hch; set_solver|by apply complete_identified|]. rewrite Hch.
  intros c' Hin Hlt. rewrite Forall_forall in Hout.
  apply elem_of_app in Hin as [Hin|Hin]; [by apply Hout|]. exfalso.
  assert (Htail : StronglySorted (fun a b => (mc_priority a < mc_priority b)%Z) (c :: lower)).
  { clear -Hsort. induction out as [|x out IH]; [done|]. apply IH. by apply StronglySorted_inv in Hsort as [? _]. }
  apply StronglySorted_inv in Htail as [_ Hlow]. rewrite Forall_forall in Hlow.
  apply elem_of_cons in Hin as [->|Hin]; [lia|]. specialize (Hlow c' Hin). lia.
Qed.

(** C4: whatever the manifest, the host and the provider say, preparing the resolver's decision
    leaves the host untouched unless the decision names a method of the chain that is an
    implemented source build for this exact target, each source of which is pinned to a commit
    (forty hexadecimal digits, a component also with its tag) or, for a component, declares the
    latest-official-release policy instead; the provider reported the revision available, and
    every candidate of higher priority is ruled out. *)
Theorem only_safe_methods_execute {W E D : Type} (env : ProvEnv W E D) (registry : list ((string * string) * E))
    (version : string) (d : ResolverDecision) (apply : bool) (s : PState W) :
  resolve_dependency provider m facts support_classification results dependency_id = Ok d →
  (prepare env registry version (engine_decision d) apply s).2 ≠ s →
  ∃ q c, load_requirement m dependency_id = Ok q ∧ executable q c ∧ dd_selected_method_id d = Some (mc_method_id c).
Proof.
  intros Hd Hs. destruct (decide (dd_resolution_status d = Q_METHOD_SELECTED)) as [Hm|Hm];
    [destruct (dd_execution_ready d) eqn:Hr|].
  - destruct (ready_executable d Hd Hm Hr) as (q & c & ? & ? & ? & _). by exists q, c.
  - destruct Hs. unfold prepare, build_plan, mbind, pym_bind, attempt. cbn. rewrite Hr. rewrite orb_true_r. reflexivity.
  - destruct Hs. unfold prepare, build_plan, mbind, pym_bind, attempt. cbn.
    assert (Hne : String.eqb (resolution_value (dd_resolution_status d)) "method_selected" = false) by (by destruct (dd_resolution_status d)).
    rewrite Hne. reflexivity.
Qed.
End theorems.

(** ** Witnesses *)
#[local] Existing Instance Demo.py_str.

Definition demo_candidate : MethodCandidate := {|
  mc_method_id := "build"; mc_priority := 1; mc_kind := "pinned_source_build"; mc_method_ref := "source";
  mc_target_identity := "resolved_release";
  mc_target_scope := {| ts_technical_families := ["debian"]; ts_rolling_distributions := []; ts_stable_releases := ["debian-12"] |};
  mc_architectures := ["x86_64"]; mc_implementation_status := "implemented"; mc_postcondition := "installed";
  mc_evidence := []; mc_package_names := []; mc_exposed_package_names := []; mc_repository_package := None;
  mc_repository := []; mc_compatible_targets := []; mc_assets := []; mc_integrity := []; mc_components := [];
  mc_revision_type := PStr "commit"; mc_revision := PStr "0123456789abcdef0123456789abcdef01234567" |}.

(** A package of higher priority that the provider does not have *)
Definition demo_package : MethodCandidate := {|
  mc_method_id := "package"; mc_priority := 0; mc_kind := "official_package_exact"; mc_method_ref := "package";
  mc_target_identity := "resolved_release"; mc_target_scope := mc_target_scope demo_candidate;
  mc_architectures := ["x86_64"]; mc_implementation_status := "implemented"; mc_postcondition := "installed";
  mc_evidence := []; mc_package_names := ["tool"]; mc_exposed_package_names := []; mc_repository_package := None;
  mc_repository := []; mc_compatible_targets := []; mc_assets := []; mc_integrity := []; mc_components := [];
  mc_revision_type := PNone; mc_revision := PNone |}.

Definition demo_manifest : Manifest := {|
  mf_dependency_requirements := [("dep", {| rw_capability_id := "tool"; rw_description := "a tool";
                                            rw_method_chain := [demo_candidate; demo_package] |})];
  mf_core_host_capabilities := []; mf_protocol_capabilities := ["tool"] |}.
Definition demo_facts : DistroFacts := {|
  df_resolved_distribution := Some "debian"; df_resolved_release := Some "debian-12"; df_technical_family := Some "debian";
  df_release_model := Some "stable"; df_machine_architecture := Some "x86_64"; df_mapped_base_release := None |}.
Definition demo_provider : AvailabilityProvider :=
  static_provider [(("package_exists", "package", "debian-12", PStr "tool"), SStatus "unavailable")] "available" false.
Definition demo_results : list CapabilityResult := [{| cp_capability_id := "tool"; cp_domain_status := "absent" |}].
Definition demo_resolution : res ResolverDecision :=
  resolve_dependency demo_provider demo_manifest demo_facts "supported" demo_results "dep".
Definition demo_decision : ResolverDecision :=
  match demo_resolution with
  | Ok d => d
  | Err _ => no_method (decision_common demo_provider demo_facts "" {| dq_dependency_id := ""; dq_capability_id := "";
               dq_description := ""; dq_method_chain := [] |} None) Q_INTERNAL_ERROR false [] "" None
  end.

Lemma resolution_first_decisive_witness :
  dd_selected_method_id demo_decision = Some "build" ∧
  ∃ q, load_requirement demo_manifest "dep" = Ok q ∧ map mc_method_id (dq_method_chain q) = ["package"; "build"]
       ∧ decided demo_provider demo_facts (dq_method_chain q) [] demo_decision.
Proof.
  split; [vm_compute; reflexivity|].
  destruct (resolution_first_decisive demo_provider demo_manifest demo_facts "supported" demo_results "dep" demo_decision)
    as (q & observed & Hq & Ho & _ & Hcase); [vm_compute; reflexivity|].
  exists q. split; [exact Hq|]. split; [vm_compute in Hq; injection Hq as <-; reflexivity|].
  destruct Hcase as [[_ Hd]|(_ & Hm & _)]; [exact Hd|]. vm_compute in Hm. discriminate.
Defined.

Lemma only_safe_methods_execute_witness :
  ∃ q c, load_requirement demo_manifest "dep" = Ok q ∧ executable demo_provider demo_facts q c ∧ mc_method_id c = "build".
Proof.
  destruct (only_safe_methods_execute demo_provider demo_manifest demo_facts "supported" demo_results "dep"
              (Demo.env false "verified") Demo.registry "1" demo_decision true Demo.start)
    as (q & c & Hq & Hx & Hid); [vm_compute; reflexivity| |].
  - intros E0. apply (f_equal (fun s => length (ps_log s))) in E0. vm_compute in E0. discriminate.
  - exists q, c. split; [exact Hq|]. split; [exact Hx|]. vm_compute in Hid. injection Hid as Hid. symmetry. exact Hid.
Defined.
