(* ===== verification/PyUrl.v ===== *)
(** * Addresses with prefixes and URLs

    The parts of [ipaddress.ip_network] and of [urllib.parse.urlsplit] (CPython 3.12) that the
    DNS documents use.  Strings hold code points below 256, on which the NFKC check of
    [urlsplit] never finds a separator. *)
From stdpp Require Import base list strings.
From Stdlib Require Import Ascii ZArith.
From S2P Require Import Prelude PyText.

(** ** [ipaddress.ip_network] *)

Definition is_digit (c : ascii) : bool := char_in 48 57 c.

(** [int(text)] of ASCII digits *)
Definition digits_value (s : string) : option Z :=
  if truthy_str s && forall_chars is_digit s then option_map fst (base_digits 10 false 0 0 s) else None.

Definition mask_of (width p : Z) : Z := (2 ^ width - 2 ^ (width - p))%Z.

(** [_prefix_from_prefix_string] *)
Definition prefix_number (width : Z) (s : string) : option Z :=
  match digits_value s with
  | Some p => if (p <=? width)%Z then Some p else None
  | None => None
  end.

(** [_prefix_from_ip_string]: a netmask, or a hostmask *)
Definition prefix_mask (s : string) : option Z :=
  match parse_ipv4 s with
  | Some v =>
      let lengths := map Z.of_nat (seq 0 33) in
      match List.find (fun p => (mask_of 32 p =? v)%Z) lengths with
      | Some p => Some p
      | None => List.find (fun p => (mask_of 32 p =? Z.lxor v (2 ^ 32 - 1))%Z) lengths
      end
  | None => None
  end.

Record IpNetwork : Type := { nw_version : Z; nw_address : Z; nw_prefix : Z }.

(** The network of an address: [strict] refuses host bits, otherwise they are cleared *)
Definition make_network (strict : bool) (version width addr p : Z) : option IpNetwork :=
  let network := Z.land addr (mask_of width p) in
  if strict && negb (network =? addr)%Z then None
  else Some {| nw_version := version; nw_address := network; nw_prefix := p |}.

Definition ipv4_network (strict : bool) (addr : string) (prefix : option string) : option IpNetwork :=
  match parse_ipv4 addr with
  | Some v =>
      match prefix with
      | None => make_network strict 4 32 v 32
      | Some s =>
          match (match prefix_number 32 s with Some p => Some p | None => prefix_mask s end) with
          | Some p => make_network strict 4 32 v p
          | None => None
          end
      end
  | None => None
  end.

(** [IPv6Address(text)]: a scope follows a percent sign *)
Definition scoped_ipv6 (s : string) : option Z :=
  let '(addr, sep, scope) := partition_on "%" s in
  if sep && (negb (truthy_str scope) || contains "%" scope) then None else parse_ipv6 addr.

Definition ipv6_network (strict : bool) (addr : string) (prefix : option string) : option IpNetwork :=
  match scoped_ipv6 addr with
  | Some v =>
      match (match prefix with None => Some 128%Z | Some s => prefix_number 128 s end) with
      | Some p => make_network strict 6 128 v p
      | None => None
      end
  | None => None
  end.

(** [None] is the [ValueError] *)
Definition ip_network (strict : bool) (s : string) : option IpNetwork :=
  match split_on "/" s with
  | [addr] =>
      match ipv4_network strict addr None with Some n => Some n | None => ipv6_network strict addr None end
  | [addr; p] =>
      match ipv4_network strict addr (Some p) with Some n => Some n | None => ipv6_network strict addr (Some p) end
  | _ => None
  end.

Example ip_network_cases :
  map (fun s => option_map (fun n => (nw_version n, nw_prefix n)) (ip_network true s))
    ["198.18.0.0/15"; "198.18.0.1/15"; "fc00::/18"; "10.0.0.0/255.0.0.0"; "10.0.0.0/0.255.255.255"; "10.0.0.0"; "::1";
     "10.0.0.0/33"; "10.0.0.0/8/8"; "fc00::/129"; "fc00::/ffff::"; "10.0.0.0/"; "10.0.0.0/0.255.0.255"; "fe80::%eth0/64"]
  = [Some (4, 15); None; Some (6, 18); Some (4, 8); Some (4, 8); Some (4, 32); Some (6, 128); None; None; None; None; None; None;
     Some (6, 64)]%Z.
Proof. vm_compute. reflexivity. Qed.

(** ** [urllib.parse.urlsplit] *)

Record SplitResult : Type := { sp_scheme : string; sp_netloc : string; sp_path : string; sp_query : string; sp_fragment : string }.

(** The controls and the space that are removed in front *)
Definition is_c0_or_space (c : ascii) : bool := char_in 0 32 c.
Fixpoint remove_chars (p : ascii → bool) (s : string) : string :=
  match s with
  | "" => ""
  | String c s' => if p c then remove_chars p s' else String c (remove_chars p s')
  end.
Definition is_tab_or_newline (c : ascii) : bool := Ascii.eqb c "009" || Ascii.eqb c "010" || Ascii.eqb c "013".

Definition is_ascii_alpha (c : ascii) : bool := char_in 65 90 c || char_in 97 122 c.
Definition is_scheme_char (c : ascii) : bool :=
  is_ascii_alpha c || is_digit c || Ascii.eqb c "+" || Ascii.eqb c "-" || Ascii.eqb c ".".

Definition split_scheme (url : string) : string * string :=
  let '(head, sep, tail) := partition_on ":" url in
  match head with
  | String c _ =>
      if sep && is_ascii_alpha c && forall_chars is_scheme_char head then (lower head, tail) else ("", url)
  | "" => ("", url)
  end.

(** [_splitnetloc]: up to the first slash, question mark or hash *)
Fixpoint split_netloc (s : string) : string * string :=
  match s with
  | "" => ("", "")
  | String c s' =>
      if Ascii.eqb c "/" || Ascii.eqb c "?" || Ascii.eqb c "#" then ("", s)
      else let '(a, b) := split_netloc s' in (String c a, b)
  end.

(** [text.rpartition(c)]: without the separator everything is in the last part *)
Fixpoint rpartition_on (sep : ascii) (s : string) : string * bool * string :=
  match s with
  | "" => ("", false, "")
  | String c s' =>
      let '(a, found, b) := rpartition_on sep s' in
      if found then (String c a, true, b)
      else if Ascii.eqb c sep then ("", true, s')
      else ("", false, String c b)
  end.

(** [_check_bracketed_host]: an IPvFuture literal or an IPv6 address *)
Definition bracketed_host_ok (host : string) : bool :=
  match host with
  | String "v" rest =>
      let '(version, sep, tail) := partition_on "." rest in
      sep && truthy_str version && forall_chars is_hex version
      && truthy_str tail && forall_chars (fun c => negb (Ascii.eqb c newline)) tail
  | _ => match ip_address host with Some (IPv6Address _ _) => true | _ => false end
  end.

(** [_check_bracketed_netloc] *)
Definition bracketed_netloc_ok (netloc : string) : bool :=
  let '(_, _, hostinfo) := rpartition_on "@" netloc in
  let '(before, have_open, bracketed) := partition_on "[" hostinfo in
  if have_open then
    let '(host, _, port) := partition_on "]" bracketed in
    negb (truthy_str before) && (negb (truthy_str port) || startswith ":" port) && bracketed_host_ok host
  else let '(host, _, _) := partition_on ":" hostinfo in bracketed_host_ok host.

Definition netloc_ok (netloc : string) : bool :=
  match contains "[" netloc, contains "]" netloc with
  | true, true => bracketed_netloc_ok netloc
  | false, false => true
  | _, _ => false
  end.

Definition urlsplit (url : string) : res SplitResult :=
  let url := remove_chars is_tab_or_newline (lstrip_by is_c0_or_space url) in
  let '(scheme, url) := split_scheme url in
  let '(netloc, url) := if startswith "//" url then split_netloc (str_drop 2 url) else ("", url) in
  if negb (netloc_ok netloc) then raise ValueError "Invalid IPv6 URL" else
  let '(url, _, fragment) := partition_on "#" url in
  let '(path, _, query) := partition_on "?" url in
  Ok {| sp_scheme := scheme; sp_netloc := netloc; sp_path := path; sp_query := query; sp_fragment := fragment |}.

(** [_userinfo], [_hostinfo] and the properties made of them *)
Definition url_username (u : SplitResult) : option string :=
  let '(userinfo, have, _) := rpartition_on "@" (sp_netloc u) in
  if have then Some (partition_on ":" userinfo).1.1 else None.
Definition url_password (u : SplitResult) : option string :=
  let '(userinfo, have, _) := rpartition_on "@" (sp_netloc u) in
  let '(_, have_password, password) := partition_on ":" userinfo in
  if have && have_password then Some password else None.

Definition hostinfo (u : SplitResult) : string * option string :=
  let '(_, _, info) := rpartition_on "@" (sp_netloc u) in
  let '(_, have_open, bracketed) := partition_on "[" info in
  let '(host, port) :=
    if have_open then
      let '(host, _, rest) := partition_on "]" bracketed in (host, (partition_on ":" rest).2)
    else let '(host, _, port) := partition_on ":" info in (host, port) in
  (host, if truthy_str port then Some port else None).

Definition url_hostname (u : SplitResult) : option string :=
  let '(host, _) := hostinfo u in
  if truthy_str host then
    let '(name, percent, zone) := partition_on "%" host in
    Some (lower name +:+ (if percent then "%" else "") +:+ zone)
  else None.

Definition url_port (u : SplitResult) : res (option Z) :=
  match (hostinfo u).2 with
  | None => Ok None
  | Some port =>
      match digits_value port with
      | None => raise ValueError ("Port could not be cast to integer value as " +:+ port)
      | Some p => if (p <=? 65535)%Z then Ok (Some p) else raise ValueError "Port out of range 0-65535"
      end
  end.

Example urlsplit_cases :
  map (fun s => match urlsplit s with
                | Ok u => Some (sp_scheme u, url_username u, url_hostname u, url_port u, (sp_path u, sp_query u, sp_fragment u))
                | Err _ => None end)
    ["https://1.1.1.1/dns-query"; "TLS://Dns.Example:853"; "udp://[2620:FE::fe]:53"; "https://u:p@host:99999/x?q#f"; "udp://[1.1.1.1]";
     "1.1.1.1"; "udp://[::1]x"; "local"; "a:b@c"]
  = [Some ("https", None, Some "1.1.1.1", Ok None, ("/dns-query", "", ""));
     Some ("tls", None, Some "dns.example", Ok (Some 853%Z), ("", "", ""));
     Some ("udp", None, Some "2620:fe::fe", Ok (Some 53%Z), ("", "", ""));
     Some ("https", Some "u", Some "host", Err (Exn ValueError "Port out of range 0-65535"), ("/x", "q", "f"));
     None; Some ("", None, None, Ok None, ("1.1.1.1", "", "")); None; Some ("", None, None, Ok None, ("local", "", ""));
     Some ("a", None, None, Ok None, ("b@c", "", ""))].
Proof. vm_compute. reflexivity. Qed.
