(* ===== verification/DnsPolicy.v ===== *)
(** * DNS policy documents

    dns/resolver_parser.py and the documents of dns/models.py: resolver addresses, channels,
    static entries, rules and the policy, with their validation and their dictionary form.
    [re.compile] of a user's pattern is the interface [PyRegex]. *)
From stdpp Require Import base list strings.
From Stdlib Require Import Ascii ZArith.
From S2P Require Import Prelude PyData PyText PyUrl Dns AppPolicy.

(** ** Resolver addresses *)
Inductive ResolverTransport : Type := T_LOCAL | T_DHCP | T_UDP | T_TCP | T_TLS | T_HTTPS.
#[global] Instance ResolverTransport_eq_dec : EqDecision ResolverTransport.
Proof. solve_decision. Defined.

Record ParsedResolver : Type := {
  pr_uri : string; pr_transport : ResolverTransport; pr_host : option string; pr_port : option Z; pr_path : option string
}.

Definition host_label_char (c : ascii) : bool := is_ascii_alpha c || is_digit c || Ascii.eqb c "-".
Definition host_label_core (s : string) : bool :=
  truthy_str s && forall_chars host_label_char s && (String.length s <=? 63)%nat.
(** [_HOSTNAME_RE.match]: the dollar also matches before a final newline *)
Definition host_label (s : string) : bool := host_label_core s || host_label_core (drop_final_newline s).

Definition valid_hostname (host : string) : bool :=
  if (253 <? String.length host)%nat || endswith "." host then false
  else
    let labels := split_on "." host in
    forallb truthy_str labels
    && forallb (fun l => host_label l && negb (startswith "-" l) && negb (endswith "-" l)) labels.

Definition is_ip (host : string) : bool := match ip_address host with Some _ => true | None => false end.

Definition require_ip (host : string) : res unit :=
  if is_ip host then Ok tt else raise ResolverParseError "resolver host must be an IP address".
Definition require_host_or_ip (host : string) : res unit :=
  if is_ip host then Ok tt
  else if negb (valid_hostname host) then raise ResolverParseError "resolver host must be a valid hostname or IP address"
  else Ok tt.

Definition parse_port (u : SplitResult) : res (option Z) :=
  match url_port u with
  | Err _ => raise ResolverParseError "resolver uri port is invalid"
  | Ok None => Ok None
  | Ok (Some p) =>
      if ((1 <=? p) && (p <=? 65535))%Z then Ok (Some p) else raise ResolverParseError "resolver uri port is out of range"
  end.

Definition truthy_opt (o : option string) : bool := match o with Some s => truthy_str s | None => false end.

Definition transport_of_scheme (scheme : string) : option ResolverTransport :=
  if String.eqb scheme "udp" then Some T_UDP else if String.eqb scheme "tcp" then Some T_TCP
  else if String.eqb scheme "tls" then Some T_TLS else if String.eqb scheme "https" then Some T_HTTPS else None.

Definition parse_resolver_uri (uri : string) : res ParsedResolver :=
  let raw := strip uri in
  if String.eqb raw "local" then
    Ok {| pr_uri := "local"; pr_transport := T_LOCAL; pr_host := None; pr_port := None; pr_path := None |}
  else if String.eqb raw "dhcp://auto" then
    Ok {| pr_uri := "dhcp://auto"; pr_transport := T_DHCP; pr_host := None; pr_port := None; pr_path := None |}
  else if negb (truthy_str raw) then raise ResolverParseError "resolver uri must not be empty"
  else
    parts ← urlsplit raw;
    let scheme := lower (sp_scheme parts) in
    match transport_of_scheme scheme with
    | None => raise ResolverParseError
        ("unsupported resolver transport: " +:+ (if truthy_str scheme then scheme else "<none>"))
    | Some transport =>
        if truthy_opt (url_username parts) || truthy_opt (url_password parts)
        then raise ResolverParseError "resolver uri must not contain credentials"
        else match url_hostname parts with
        | None => raise ResolverParseError "resolver uri must include a host"
        | Some hostname =>
            if truthy_str (sp_fragment parts) then raise ResolverParseError "resolver uri must not include a fragment"
            else if truthy_str (sp_query parts) then raise ResolverParseError "resolver uri must not include a query string"
            else
              let host := lower (strip hostname) in
              let bare := negb (truthy_str (sp_path parts)) || String.eqb (sp_path parts) "/" in
              port ← parse_port parts;
              _ ← (match transport with
                   | T_HTTPS =>
                       _ ← require_host_or_ip host;
                       if bare then raise ResolverParseError "https resolver uri must include a path" else Ok tt
                   | T_TLS =>
                       _ ← require_host_or_ip host;
                       if bare then Ok tt else raise ResolverParseError "tls resolver uri must not include a path"
                   | _ =>
                       _ ← require_ip host;
                       if bare then Ok tt else raise ResolverParseError (scheme +:+ " resolver uri must not include a path")
                   end);
              Ok {| pr_uri := raw; pr_transport := transport; pr_host := Some host; pr_port := port;
                    pr_path := if truthy_str (sp_path parts) then Some (sp_path parts) else None |}
        end
    end.

(** ** Domain names, times to live and patterns *)
Definition domain_char (c : ascii) : bool := char_in 97 122 c || is_digit c || Ascii.eqb c "-".
(** The body of [DOMAIN_LABEL_RE] *)
Definition domain_label_core (s : string) : bool :=
  truthy_str s && forall_chars domain_char s && (String.length s <=? 63)%nat
  && negb (startswith "-" s) && negb (endswith "-" s).
Definition domain_label (s : string) : bool := domain_label_core s || domain_label_core (drop_final_newline s).

Definition validate_domain_name (domain : string) : res unit :=
  if (253 <? String.length domain)%nat then raise ValueError "domain name is too long"
  else
    let labels := split_on "." domain in
    if (length labels <? 2)%nat then raise ValueError "domain name must be fully qualified"
    else if negb (forallb domain_label labels) then raise ValueError "invalid domain name"
    else Ok tt.

(** [DNS_TTL_RE]: amounts with their units, left to right.  The state: nothing of an amount
    yet; its integer part; just after the point; its fraction; inside [ns] or [us]; after an
    [m], which [s] may follow. *)
Inductive ttl_state : Type :=
| TtlStart | TtlInt (acc : string) | TtlPoint (acc : string) | TtlFrac (acc : string) | TtlSecond | TtlM.

Fixpoint ttl_amounts (st : ttl_state) (s : string) : option (list string) :=
  match s with
  | "" => match st with TtlStart | TtlM => Some [] | _ => None end
  | String c s' =>
      let ch := String c "" in
      let unit_after acc :=
        if Ascii.eqb c "n" || Ascii.eqb c "u" then cons acc <$> ttl_amounts TtlSecond s'
        else if Ascii.eqb c "m" then cons acc <$> ttl_amounts TtlM s'
        else if Ascii.eqb c "s" || Ascii.eqb c "h" then cons acc <$> ttl_amounts TtlStart s'
        else None in
      match st with
      | TtlStart => if is_digit c then ttl_amounts (TtlInt ch) s' else None
      | TtlM =>
          if Ascii.eqb c "s" then ttl_amounts TtlStart s'
          else if is_digit c then ttl_amounts (TtlInt ch) s' else None
      | TtlSecond => if Ascii.eqb c "s" then ttl_amounts TtlStart s' else None
      | TtlInt acc =>
          if is_digit c then ttl_amounts (TtlInt (acc +:+ ch)) s'
          else if Ascii.eqb c "." then ttl_amounts (TtlPoint (acc +:+ ch)) s' else unit_after acc
      | TtlPoint acc => if is_digit c then ttl_amounts (TtlFrac (acc +:+ ch)) s' else None
      | TtlFrac acc => if is_digit c then ttl_amounts (TtlFrac (acc +:+ ch)) s' else unit_after acc
      end
  end.

(** [float(amount) > 0] of a decimal numeral *)
Definition decimal_positive (amount : string) : bool := negb (forall_chars (fun c => negb (char_in 49 57 c)) amount).

Definition validate_dns_ttl (value : string) : res unit :=
  let bad := raise ValueError "dns ttl must be a positive duration such as 30m or 12h" in
  match ttl_amounts TtlStart value with
  | None | Some [] => bad
  | Some amounts =>
      if negb (existsb decimal_positive amounts) then raise ValueError "dns ttl must be greater than zero" else Ok tt
  end.

Definition DNS_RULE_PATTERN_TYPES : list string := ["domain"; "suffix"; "keyword"; "regex"; "geosite"; "rule_set"].

Definition validate_dns_rule_pattern `{PyRegex} (pattern : string) : res unit :=
  if negb (contains ":" pattern) then raise ValueError "dns rule pattern must include a type prefix"
  else
    let '(pattern_type, _, value) := partition_on ":" pattern in
    let pattern_type := strip pattern_type in
    let value := strip value in
    if negb (str_in pattern_type DNS_RULE_PATTERN_TYPES) then raise ValueError "unsupported dns rule pattern type"
    else if negb (truthy_str value) then raise ValueError "dns rule pattern value must not be empty"
    else if str_in pattern_type ["domain"; "suffix"] then validate_domain_name (rstrip_dots (lower value))
    else if String.eqb pattern_type "regex" && negb (regex_valid value)
    then raise ValueError "invalid dns rule regex pattern"
    else Ok tt.

Example domain_cases :
  map (fun d => match validate_domain_name d with Ok _ => true | Err _ => false end)
    ["example.com"; "a.b"; "localhost"; "-a.com"; "a-.com"; "a..b"; "EXAMPLE.com"; "x_y.com"; "xn--a.b-c"]
  = [true; true; false; false; false; false; false; false; true].
Proof. vm_compute. reflexivity. Qed.
Example ttl_cases :
  map (fun d => match validate_dns_ttl d with Ok _ => true | Err _ => false end)
    ["12h"; "1h30m"; "1.5s"; "5ms"; "0s"; "0h0.0m"; "0h1ns"; "12"; "h"; "1.h"; "1m5"; ""; "1ss"; "1mm"; "-1s"]
  = [true; true; true; true; false; false; true; false; false; false; false; false; false; false; false].
Proof. vm_compute. reflexivity. Qed.

(** ** Documents *)
Definition mode_value (m : DNSMode) : string :=
  match m with DNS_AUTO => "auto" | DNS_OFF => "off" | DNS_CUSTOM => "custom" | DNS_ADVANCED => "advanced" end.
Definition channel_value (c : DNSChannelName) : string :=
  match c with
  | CH_BOOTSTRAP => "bootstrap_dns" | CH_DNS_SERVER => "dns_server" | CH_PROXY_SERVER => "proxy_server"
  | CH_DIRECT => "direct" | CH_PROXY => "proxy" | CH_FINAL => "final"
  end.
Definition action_value (a : DNSRuleAction) : string :=
  match a with USE_CHANNEL => "use_channel" | DNS_REJECT => "reject" end.

Definition DNS_MODES : list DNSMode := [DNS_AUTO; DNS_OFF; DNS_CUSTOM; DNS_ADVANCED].
Definition DNS_CHANNELS : list DNSChannelName := [CH_BOOTSTRAP; CH_DNS_SERVER; CH_PROXY_SERVER; CH_DIRECT; CH_PROXY; CH_FINAL].
Definition DNS_ACTIONS : list DNSRuleAction := [USE_CHANNEL; DNS_REJECT].

(** [E(value)] of an enumeration of texts *)
Definition enum_of {A} (value : A → string) (members : list A) (v : pyval) : res A :=
  match v with
  | PStr s =>
      match List.find (fun a => String.eqb (value a) s) members with
      | Some a => Ok a
      | None => raise ValueError "not a valid member"
      end
  | _ => raise ValueError "not a valid member"
  end.

Definition RESOLVER_FIELDS : list string := ["uri"; "label"; "enabled"; "metadata"].
Definition DNS_CHANNEL_FIELDS : list string := ["name"; "resolvers"; "strategy"].
Definition STATIC_IP_ENTRY_FIELDS : list string := ["domain"; "ip"; "enabled"].
Definition DNS_RULE_FIELDS : list string := ["id"; "pattern"; "action"; "channel"; "enabled"; "priority"].
Definition DNS_POLICY_FIELDS : list string :=
  ["mode"; "channels"; "static_ips"; "rules"; "test_domain"; "ttl"; "tun_hijack"; "resolve_inbound_domains";
   "static_ip_enabled"; "rules_enabled"; "ecs_direct_enabled"; "ecs_direct_subnet"; "proxy_resolution_channel";
   "fakeip_inet4_range"; "fakeip_inet6_range"; "tun_domain_preservation"].

(** [reject_unknown_keys(v, ...)] of any value and the first access to it, which only a dict
    survives; [miss]: what the access raises on another value, [AttributeError] for [v.get] and
    [TypeError] for an index *)
Definition open_object (miss : exn_kind) (v : pyval) (allowed : list string) (name : string) : res (pydict pyval) :=
  match v with
  | PDict d => _ ← reject_unknown_keys d allowed name; Ok d
  | PStr "" | PList [] => raise miss "not an object"
  | PStr _ => raise PersistentValidationError (name +:+ " contains unsupported fields")
  | PList l =>
      if existsb (fun x => match x with PList _ | PDict _ => true | _ => false end) l then raise TypeError "unhashable type"
      else if forallb (fun x => match x with PStr s => str_in s allowed | _ => false end) l
      then raise miss "not an object"
      else if forallb (fun x => match x with PStr _ => true | _ => false end) l
      then raise PersistentValidationError (name +:+ " contains unsupported fields")
      else raise TypeError "sequence item is not a string"
  | _ => raise TypeError "object is not iterable"
  end.

Section documents.
Context `{PyStr, PyRegex}.

(** [str(value).strip() or None] of an optional value *)
Definition strip_or_none (v : pyval) : option string :=
  match v with
  | PNone => None
  | _ => let s := strip (py_str v) in if truthy_str s then Some s else None
  end.

(** *** [Resolver] *)
Definition Resolver_make (uri : string) (label : pyval) (enabled : bool) (metadata : pydict pyval) : res Resolver :=
  let uri := strip uri in
  if negb (truthy_str uri) then raise ValueError "resolver uri must not be empty"
  else
    _ ← parse_resolver_uri uri;
    Ok {| rv_uri := uri; rv_label := strip_or_none label; rv_enabled := enabled; rv_metadata := metadata |}.

Definition Resolver_to_dict (r : Resolver) : pydict pyval :=
  [("uri", PStr (rv_uri r)); ("label", match rv_label r with Some l => PStr l | None => PNone end);
   ("enabled", PBool (rv_enabled r)); ("metadata", PDict (rv_metadata r))].

Definition Resolver_from_dict (v : pyval) : res Resolver :=
  match v with
  | PStr uri => Resolver_make uri PNone true []
  | _ =>
      data ← open_object AttributeError v RESOLVER_FIELDS "resolver";
      match dict_get_or "metadata" (PDict []) data with
      | PDict metadata =>
          uri ← dict_item "uri" data;
          enabled ← strict_bool (dict_get_or "enabled" (PBool true) data) "resolver.enabled";
          Resolver_make (py_str uri) (dict_get_or "label" PNone data) enabled metadata
      | _ => raise ValueError "resolver metadata must be an object"
      end
  end.

(** *** [DNSChannel] *)
Definition MAX_RESOLVERS_PER_CHANNEL : nat := 4.

Definition DNSChannel_make (name : DNSChannelName) (resolvers : list Resolver) (strategy : string) : res DNSChannel :=
  if (MAX_RESOLVERS_PER_CHANNEL <? length resolvers)%nat then raise ValueError "dns channel supports at most 4 resolvers"
  else if negb (String.eqb strategy "auto")
  then raise ValueError "unsupported dns channel strategy; resolver racing is not supported"
  else Ok {| ch_name := name; ch_resolvers := resolvers; ch_strategy := strategy |}.

Definition DNSChannel_to_dict (c : DNSChannel) : pydict pyval :=
  [("name", PStr (channel_value (ch_name c)));
   ("resolvers", PList (map (fun r => PDict (Resolver_to_dict r)) (ch_resolvers c)));
   ("strategy", PStr (ch_strategy c))].

Definition DNSChannel_from_dict (data : pydict pyval) : res DNSChannel :=
  _ ← reject_unknown_keys data DNS_CHANNEL_FIELDS "dns channel";
  match dict_get_or "resolvers" (PList []) data with
  | PList items =>
      name ← dict_item "name" data;
      name ← enum_of channel_value DNS_CHANNELS name;
      resolvers ← map_res Resolver_from_dict items;
      DNSChannel_make name resolvers (py_str (dict_get_or "strategy" (PStr "auto") data))
  | _ => raise ValueError "dns channel resolvers must be a list"
  end.

(** *** [StaticIPEntry] *)
Definition StaticIPEntry_make (domain ip : string) (enabled : bool) : res StaticIPEntry :=
  let domain := rstrip_dots (lower (strip domain)) in
  let ip := strip ip in
  if negb (truthy_str domain) then raise ValueError "static ip domain must not be empty"
  else if negb (truthy_str ip) then raise ValueError "static ip address must not be empty"
  else
    _ ← validate_domain_name domain;
    if is_ip ip then Ok {| si_domain := domain; si_ip := ip; si_enabled := enabled |}
    else raise ValueError "static ip address must be a valid IP address".

Definition StaticIPEntry_to_dict (e : StaticIPEntry) : pydict pyval :=
  [("domain", PStr (si_domain e)); ("ip", PStr (si_ip e)); ("enabled", PBool (si_enabled e))].

Definition StaticIPEntry_from_dict (v : pyval) : res StaticIPEntry :=
  data ← open_object TypeError v STATIC_IP_ENTRY_FIELDS "static ip entry";
  domain ← dict_item "domain" data;
  ip ← dict_item "ip" data;
  enabled ← strict_bool (dict_get_or "enabled" (PBool true) data) "static_ip.enabled";
  StaticIPEntry_make (py_str domain) (py_str ip) enabled.

(** *** [DNSRule] *)
Definition DNSRule_make (id pattern : string) (action : DNSRuleAction) (channel : pyval) (enabled : bool) (priority : Z)
    : res DNSRule :=
  let id := strip id in
  let pattern := strip pattern in
  channel ← match channel with PNone => Ok None | v => Some <$> enum_of channel_value DNS_CHANNELS v end;
  if negb (truthy_str id) then raise ValueError "dns rule id must not be empty"
  else if negb (truthy_str pattern) then raise ValueError "dns rule pattern must not be empty"
  else match action, channel with
  | USE_CHANNEL, None => raise ValueError "dns rule channel is required for use_channel action"
  | _, _ =>
      _ ← validate_dns_rule_pattern pattern;
      Ok {| dr_id := id; dr_pattern := pattern; dr_action := action; dr_channel := channel; dr_enabled := enabled;
            dr_priority := priority |}
  end.

Definition DNSRule_to_dict (r : DNSRule) : pydict pyval :=
  [("id", PStr (dr_id r)); ("pattern", PStr (dr_pattern r)); ("action", PStr (action_value (dr_action r)));
   ("channel", match dr_channel r with Some c => PStr (channel_value c) | None => PNone end);
   ("enabled", PBool (dr_enabled r)); ("priority", PInt (dr_priority r))].

Definition DNSRule_from_dict (v : pyval) : res DNSRule :=
  data ← open_object TypeError v DNS_RULE_FIELDS "dns rule";
  id ← dict_item "id" data;
  pattern ← dict_item "pattern" data;
  action ← enum_of action_value DNS_ACTIONS (dict_get_or "action" (PStr "use_channel") data);
  enabled ← strict_bool (dict_get_or "enabled" (PBool true) data) "dns_rule.enabled";
  priority ← strict_int (dict_get_or "priority" (PInt 100) data) "dns_rule.priority";
  DNSRule_make (py_str id) (py_str pattern) action (dict_get_or "channel" PNone data) enabled priority.

(** *** [DNSPolicy] *)
Definition ALLOWED_PROXY_RESOLUTION_CHANNELS : list string := ["fakeip"; "proxy"; "direct"; "final"].

Definition validate_ip_network (value : string) (version : Z) : res unit :=
  match ip_network true value with
  | None => raise ValueError "invalid FakeIP range"
  | Some n => if (nw_version n =? version)%Z then Ok tt else raise ValueError "FakeIP range IP version mismatch"
  end.
Definition validate_ecs_subnet (value : string) : res unit :=
  match ip_network false value with Some _ => Ok tt | None => raise ValueError "invalid ECS direct subnet" end.

(** [DNSPolicy.__post_init__] on a policy whose parts are objects already; the fields hold the
    texts that the constructor received, and [ecs] the value of the subnet *)
Definition DNSPolicy_post_init (p : DNSPolicy) (ecs : pyval) : res DNSPolicy :=
  let test_domain := rstrip_dots (lower (strip (dp_test_domain p))) in
  let ttl := strip (dp_ttl p) in
  let proxy := strip (dp_proxy_resolution_channel p) in
  let ecs := strip_or_none ecs in
  let inet4 := strip (dp_fakeip_inet4_range p) in
  let inet6 := strip (dp_fakeip_inet6_range p) in
  if negb (forallb (fun kv => bool_decide (ch_name kv.2 = kv.1)) (dp_channels p))
  then raise ValueError "dns channel key must match channel name"
  else if negb (truthy_str test_domain) then raise ValueError "dns test domain must not be empty"
  else if negb (truthy_str ttl) then raise ValueError "dns ttl must not be empty"
  else
    _ ← validate_dns_ttl ttl;
    if negb (str_in proxy ALLOWED_PROXY_RESOLUTION_CHANNELS) then raise ValueError "unsupported proxy resolution channel"
    else if dp_ecs_direct_enabled p && bool_decide (ecs = None)
    then raise ValueError "ecs direct subnet is required when ECS is enabled"
    else
      _ ← match ecs with Some s => validate_ecs_subnet s | None => Ok tt end;
      _ ← validate_ip_network inet4 4;
      _ ← validate_ip_network inet6 6;
      Ok {| dp_mode := dp_mode p; dp_channels := dp_channels p; dp_static_ips := dp_static_ips p; dp_rules := dp_rules p;
            dp_test_domain := test_domain; dp_ttl := ttl; dp_tun_hijack := dp_tun_hijack p;
            dp_resolve_inbound_domains := dp_resolve_inbound_domains p; dp_static_ip_enabled := dp_static_ip_enabled p;
            dp_rules_enabled := dp_rules_enabled p; dp_ecs_direct_enabled := dp_ecs_direct_enabled p;
            dp_ecs_direct_subnet := ecs; dp_proxy_resolution_channel := proxy; dp_fakeip_inet4_range := inet4;
            dp_fakeip_inet6_range := inet6; dp_tun_domain_preservation := dp_tun_domain_preservation p |}.

Definition DNSPolicy_to_dict (p : DNSPolicy) : pydict pyval :=
  [("mode", PStr (mode_value (dp_mode p)));
   ("channels", PDict (map (fun kv => (channel_value kv.1, PDict (DNSChannel_to_dict kv.2))) (dp_channels p)));
   ("static_ips", PList (map (fun e => PDict (StaticIPEntry_to_dict e)) (dp_static_ips p)));
   ("rules", PList (map (fun r => PDict (DNSRule_to_dict r)) (dp_rules p)));
   ("test_domain", PStr (dp_test_domain p)); ("ttl", PStr (dp_ttl p)); ("tun_hijack", PBool (dp_tun_hijack p));
   ("resolve_inbound_domains", PBool (dp_resolve_inbound_domains p)); ("static_ip_enabled", PBool (dp_static_ip_enabled p));
   ("rules_enabled", PBool (dp_rules_enabled p)); ("ecs_direct_enabled", PBool (dp_ecs_direct_enabled p));
   ("ecs_direct_subnet", match dp_ecs_direct_subnet p with Some s => PStr s | None => PNone end);
   ("proxy_resolution_channel", PStr (dp_proxy_resolution_channel p));
   ("fakeip_inet4_range", PStr (dp_fakeip_inet4_range p)); ("fakeip_inet6_range", PStr (dp_fakeip_inet6_range p));
   ("tun_domain_preservation", PBool (dp_tun_domain_preservation p))].

(** [dict(value)]: a dict, or a list of pairs; a text of two characters is a pair *)
Definition pair_of (v : pyval) : res (string * pyval) :=
  match v with
  | PList [PStr k; x] => Ok (k, x)
  | PStr (String a (String b "")) => Ok (String a "", PStr (String b ""))
  | PList [PList _; _] | PList [PDict _; _] => raise TypeError "unhashable type"
  | PList [_; _] => raise TypeError "dns channel contains unsupported fields"
  | PList _ | PStr _ => raise ValueError "dictionary update sequence element has the wrong length"
  | PDict [(a, _); (b, _)] => Ok (a, PStr b)
  | PDict _ => raise ValueError "dictionary update sequence element has the wrong length"
  | _ => raise TypeError "cannot convert dictionary update sequence element to a sequence"
  end.
Definition dict_of (v : pyval) : res (pydict pyval) :=
  match v with
  | PDict d => Ok d
  | PList l => pairs ← map_res pair_of l; Ok (dict_update [] pairs)
  | PStr "" => Ok []
  | PStr _ => raise ValueError "dictionary update sequence element has length 1; 2 is required"
  | _ => raise TypeError "object is not iterable"
  end.

(** One item of "channels": the value of "name" is the key *)
Definition channel_entry (kv : string * pyval) : res (DNSChannelName * DNSChannel) :=
  name ← enum_of channel_value DNS_CHANNELS (PStr kv.1);
  value ← dict_of kv.2;
  channel ← DNSChannel_from_dict (dict_set "name" (PStr kv.1) value);
  Ok (name, channel).

Definition DNSPolicy_from_dict (data : pydict pyval) : res DNSPolicy :=
  _ ← reject_unknown_keys data DNS_POLICY_FIELDS "dns policy";
  let text key dflt := py_str (dict_get_or key (PStr dflt) data) in
  let flag key dflt := strict_bool (dict_get_or key (PBool dflt) data) ("dns_policy." +:+ key) in
  match dict_get_or "channels" (PDict []) data with
  | PDict raw_channels =>
      match dict_get_or "static_ips" (PList []) data, dict_get_or "rules" (PList []) data with
      | PList static_ips, PList rules =>
          channels ← map_res channel_entry raw_channels;
          mode ← enum_of mode_value DNS_MODES (dict_get_or "mode" (PStr "auto") data);
          static_ips ← map_res StaticIPEntry_from_dict static_ips;
          rules ← map_res DNSRule_from_dict rules;
          tun_hijack ← flag "tun_hijack" true;
          resolve_inbound_domains ← flag "resolve_inbound_domains" false;
          static_ip_enabled ← flag "static_ip_enabled" false;
          rules_enabled ← flag "rules_enabled" false;
          ecs_direct_enabled ← flag "ecs_direct_enabled" false;
          tun_domain_preservation ← flag "tun_domain_preservation" true;
          DNSPolicy_post_init
            {| dp_mode := mode; dp_channels := channels; dp_static_ips := static_ips; dp_rules := rules;
               dp_test_domain := text "test_domain" "gstatic.com"; dp_ttl := text "ttl" "12h"; dp_tun_hijack := tun_hijack;
               dp_resolve_inbound_domains := resolve_inbound_domains; dp_static_ip_enabled := static_ip_enabled;
               dp_rules_enabled := rules_enabled; dp_ecs_direct_enabled := ecs_direct_enabled; dp_ecs_direct_subnet := None;
               dp_proxy_resolution_channel := text "proxy_resolution_channel" "fakeip";
               dp_fakeip_inet4_range := text "fakeip_inet4_range" "198.18.0.0/15";
               dp_fakeip_inet6_range := text "fakeip_inet6_range" "fc00::/18";
               dp_tun_domain_preservation := tun_domain_preservation |}
            (dict_get_or "ecs_direct_subnet" PNone data)
      | PList _, _ => raise ValueError "dns policy rules must be a list"
      | _, _ => raise ValueError "dns policy static_ips must be a list"
      end
  | _ => raise ValueError "dns policy channels must be an object"
  end.

(** [DNSPolicyStore.load] of a file's content, [None] without a file *)
Definition load_policy (content : option pyval) (path : string) : res DNSPolicy :=
  data ← require_mapping (default (PDict []) content) path;
  match data with [] => Ok default_DNSPolicy | _ => DNSPolicy_from_dict data end.
End documents.

(** ** Lemmas *)
(** A normalised name that has no surrounding white space is its own normal form *)
Lemma normal_domain_idem d : strip (rstrip_dots (lower (strip d))) = rstrip_dots (lower (strip d)) →
  rstrip_dots (lower (strip (rstrip_dots (lower (strip d))))) = rstrip_dots (lower (strip d)).
Proof. intros ->. unfold rstrip_dots. rewrite lower_rstrip by apply lower_idem. apply rstrip_by_idem. Qed.

Lemma channel_value_inj x y : channel_value x = channel_value y → x = y.
Proof. by destruct x, y. Qed.
Lemma enum_channel c : enum_of channel_value DNS_CHANNELS (PStr (channel_value c)) = Ok c.
Proof. by destruct c. Qed.
Lemma enum_mode m : enum_of mode_value DNS_MODES (PStr (mode_value m)) = Ok m.
Proof. by destruct m. Qed.
Lemma enum_action a : enum_of action_value DNS_ACTIONS (PStr (action_value a)) = Ok a.
Proof. by destruct a. Qed.

Section roundtrip.
Context `{PyStr, PyRegex}.
#[local] Arguments strip : simpl never.
#[local] Arguments lower : simpl never.
#[local] Arguments rstrip_dots : simpl never.
#[local] Arguments truthy_str : simpl never.
#[local] Arguments parse_resolver_uri : simpl never.
#[local] Arguments validate_domain_name : simpl never.
#[local] Arguments is_ip : simpl never.
#[local] Arguments validate_dns_rule_pattern : simpl never.

Definition label_value (l : option string) : pyval := match l with Some s => PStr s | None => PNone end.
Lemma strip_or_none_idem v : strip_or_none (label_value (strip_or_none v)) = strip_or_none v.
Proof.
  assert (Hs : ∀ s, strip_or_none (label_value (if truthy_str (strip s) then Some (strip s) else None))
                    = if truthy_str (strip s) then Some (strip s) else None).
  { intros s. destruct (truthy_str (strip s)) eqn:E; cbn; [|done]. by rewrite strip_idem, E. }
  destruct v; cbn [strip_or_none]; try apply Hs. done.
Qed.

(** An object that its own constructor rebuilds *)
Definition resolver_ok (r : Resolver) : Prop :=
  Resolver_make (rv_uri r) (label_value (rv_label r)) (rv_enabled r) (rv_metadata r) = Ok r.
Definition channel_ok (c : DNSChannel) : Prop :=
  Forall resolver_ok (ch_resolvers c) ∧ DNSChannel_make (ch_name c) (ch_resolvers c) (ch_strategy c) = Ok c.
Definition static_ok (e : StaticIPEntry) : Prop :=
  strip (si_domain e) = si_domain e → StaticIPEntry_make (si_domain e) (si_ip e) (si_enabled e) = Ok e.
Definition rule_ok (r : DNSRule) : Prop :=
  DNSRule_make (dr_id r) (dr_pattern r) (dr_action r)
    (match dr_channel r with Some c => PStr (channel_value c) | None => PNone end) (dr_enabled r) (dr_priority r) = Ok r.

Lemma Resolver_make_ok uri label enabled metadata r : Resolver_make uri label enabled metadata = Ok r → resolver_ok r.
Proof.
  unfold resolver_ok, Resolver_make. destruct (truthy_str (strip uri)) eqn:E; [|done]. cbn [negb].
  destruct (parse_resolver_uri (strip uri)) eqn:Ep; [|done]. cbn. intros [= <-]. cbn.
  rewrite strip_idem, E, Ep. cbn. by rewrite strip_or_none_idem.
Qed.
Lemma Resolver_from_dict_ok v r : Resolver_from_dict v = Ok r → resolver_ok r.
Proof.
  unfold Resolver_from_dict. destruct v; try apply Resolver_make_ok; intros Hr; inv_res Hr;
    (destruct (dict_get_or "metadata" _ _); try done; inv_res Hr; by eapply Resolver_make_ok).
Qed.

Lemma Resolver_roundtrip r : resolver_ok r → Resolver_from_dict (PDict (Resolver_to_dict r)) = Ok r.
Proof. intros Hr. cbn. unfold label_value in Hr. exact Hr. Qed.

Lemma DNSChannel_from_dict_ok data c : DNSChannel_from_dict data = Ok c → channel_ok c.
Proof.
  unfold DNSChannel_from_dict. intros Hc. inv_res Hc. unfold DNSChannel_make in Hc.
  destruct (_ <? _)%nat eqn:El; [done|]. destruct (String.eqb _ "auto") eqn:Es; [|done]. injection Hc as <-.
  split; cbn; [|unfold DNSChannel_make; by rewrite El, Es]. by eapply map_res_Forall; [apply Resolver_from_dict_ok|].
Qed.
Lemma DNSChannel_roundtrip c : channel_ok c → DNSChannel_from_dict (DNSChannel_to_dict c) = Ok c.
Proof.
  intros [Hr Hc]. unfold DNSChannel_from_dict, DNSChannel_to_dict. cbn -[enum_of]. rewrite enum_channel. cbn.
  rewrite <- (map_map Resolver_to_dict PDict), map_map. rewrite (map_res_roundtrip _ (fun r => PDict (Resolver_to_dict r)) resolver_ok);
    [exact Hc|apply Resolver_roundtrip|done].
Qed.

Lemma StaticIPEntry_from_dict_ok v e : StaticIPEntry_from_dict v = Ok e → static_ok e.
Proof.
  unfold StaticIPEntry_from_dict, StaticIPEntry_make, static_ok. intros He. inv_res He. injection He as <-. cbn.
  intros Hd. unfold StaticIPEntry_make. rewrite normal_domain_idem, strip_idem by done.
  repeat match goal with E : _ = _ |- _ => rewrite E; cbn end. done.
Qed.
Lemma StaticIPEntry_roundtrip e : static_ok e → strip (si_domain e) = si_domain e →
  StaticIPEntry_from_dict (PDict (StaticIPEntry_to_dict e)) = Ok e.
Proof. intros He Hd. cbn. exact (He Hd). Qed.

Lemma DNSRule_make_ok id pattern action channel enabled priority r :
  DNSRule_make id pattern action channel enabled priority = Ok r → rule_ok r.
Proof.
  unfold rule_ok, DNSRule_make. destruct (match channel with PNone => _ | _ => _ end) as [ch|]; [|done]. cbn.
  destruct (truthy_str (strip id)) eqn:Ei; [|done]. destruct (truthy_str (strip pattern)) eqn:Ep; [|done]. cbn. intros Hr.
  assert (Hok : (action = USE_CHANNEL → ch ≠ None) ∧ validate_dns_rule_pattern (strip pattern) = Ok tt ∧
    r = {| dr_id := strip id; dr_pattern := strip pattern; dr_action := action; dr_channel := ch; dr_enabled := enabled;
           dr_priority := priority |}).
  { destruct action, ch; try done; destruct (validate_dns_rule_pattern (strip pattern)) as [[]|]; try done; by injection Hr as <-. }
  destruct Hok as (Hc & Hv & ->). cbn. rewrite !strip_idem, Ei, Ep, Hv.
  destruct ch as [c|]; [by rewrite enum_channel; destruct action|]. destruct action; [by destruct Hc|done].
Qed.
Lemma DNSRule_from_dict_ok v r : DNSRule_from_dict v = Ok r → rule_ok r.
Proof. unfold DNSRule_from_dict. intros Hr. inv_res Hr. by eapply DNSRule_make_ok. Qed.
Lemma DNSRule_roundtrip r : rule_ok r → DNSRule_from_dict (PDict (DNSRule_to_dict r)) = Ok r.
Proof. intros Hr. cbn -[enum_of]. rewrite enum_action. cbn. exact Hr. Qed.

Lemma channel_entry_ok kv e : channel_entry kv = Ok e → channel_ok e.2.
Proof. unfold channel_entry. intros He. inv_res He. injection He as <-. cbn. by eapply DNSChannel_from_dict_ok. Qed.
Lemma channel_entry_roundtrip k c : channel_ok c → ch_name c = k →
  channel_entry (channel_value k, PDict (DNSChannel_to_dict c)) = Ok (k, c).
Proof.
  intros Hc <-. unfold channel_entry. cbn [fst snd]. rewrite enum_channel. cbn [mbind res_bind dict_of].
  change (dict_set _ _ _) with (DNSChannel_to_dict c). by rewrite DNSChannel_roundtrip.
Qed.

Lemma post_init_parts p ecs p' :
  DNSPolicy_post_init p ecs = Ok p' →
  dp_channels p' = dp_channels p ∧ dp_static_ips p' = dp_static_ips p ∧ dp_rules p' = dp_rules p
  ∧ Forall (fun kv => ch_name kv.2 = kv.1) (dp_channels p).
Proof.
  unfold DNSPolicy_post_init. destruct (forallb _ (dp_channels p)) eqn:Ef; [|done]. intros Hp. inv_res Hp. injection Hp as <-.
  split; [done|]. split; [done|]. split; [done|]. apply Forall_forall. intros kv Hkv. rewrite forallb_forall in Ef.
  apply list_elem_of_In, Ef in Hkv. by apply bool_decide_eq_true in Hkv.
Qed.
Lemma post_init_idem p ecs p' :
  DNSPolicy_post_init p ecs = Ok p' → strip (dp_test_domain p') = dp_test_domain p' →
  DNSPolicy_post_init p' (label_value (dp_ecs_direct_subnet p')) = Ok p'.
Proof.
  unfold DNSPolicy_post_init. destruct (forallb _ (dp_channels p)) eqn:Ef; [|done]. cbn [negb].
  intros Hp Hd. inv_res Hp. injection Hp as <-. cbn in *. rewrite Ef, strip_or_none_idem, !strip_idem, normal_domain_idem by done.
  by repeat match goal with E : _ = _ |- _ => rewrite E; cbn end.
Qed.

(** The parts of a policy that was read *)
Record policy_ok (p : DNSPolicy) : Prop := {
  po_names : Forall (fun kv => ch_name kv.2 = kv.1) (dp_channels p);
  po_channels : Forall (fun kv => channel_ok kv.2) (dp_channels p);
  po_static : Forall static_ok (dp_static_ips p);
  po_rules : Forall rule_ok (dp_rules p)
}.

Lemma from_dict_ok data p :
  DNSPolicy_from_dict data = Ok p →
  policy_ok p ∧ (strip (dp_test_domain p) = dp_test_domain p →
                 DNSPolicy_post_init p (label_value (dp_ecs_direct_subnet p)) = Ok p).
Proof.
  unfold DNSPolicy_from_dict. intros Hp. inv_res Hp. destruct (post_init_parts _ _ _ Hp) as (Hc & Hst & Hr & Hn).
  split; [|by apply (post_init_idem _ _ _ Hp)]. cbn in Hc, Hst, Hr, Hn.
  constructor; rewrite ?Hc, ?Hst, ?Hr; [done|..]; eapply map_res_Forall; try eassumption.
  - apply channel_entry_ok.
  - apply StaticIPEntry_from_dict_ok.
  - apply DNSRule_from_dict_ok.
Qed.

(** C36: reading back a saved DNS policy gives the same policy, for every policy that could be
    read from any document, provided that its names carry no white space at their ends. *)
Theorem dns_policy_roundtrip (data : pydict pyval) (p : DNSPolicy) :
  DNSPolicy_from_dict data = Ok p →
  strip (dp_test_domain p) = dp_test_domain p → Forall (fun e => strip (si_domain e) = si_domain e) (dp_static_ips p) →
  DNSPolicy_from_dict (DNSPolicy_to_dict p) = Ok p.
Proof.
  intros Hp Hd Hs. destruct (from_dict_ok _ _ Hp) as [[Hn Hc Hst Hr] Hi]. specialize (Hi Hd).
  unfold DNSPolicy_from_dict. cbn -[map_res DNSPolicy_post_init enum_of label_value].
  rewrite (map_res_roundtrip _ (fun kv => (channel_value kv.1, PDict (DNSChannel_to_dict kv.2)))
             (fun kv => channel_ok kv.2 ∧ ch_name kv.2 = kv.1)); [|by intros [k c] [??]; apply channel_entry_roundtrip|by apply Forall_and].
  cbn -[map_res DNSPolicy_post_init enum_of label_value]. rewrite enum_mode. cbn -[map_res DNSPolicy_post_init label_value].
  rewrite (map_res_roundtrip _ _ (fun e => static_ok e ∧ strip (si_domain e) = si_domain e));
    [|by intros e [??]; apply StaticIPEntry_roundtrip|by apply Forall_and].
  cbn -[map_res DNSPolicy_post_init label_value]. rewrite (map_res_roundtrip _ _ rule_ok); [|apply DNSRule_roundtrip|done].
  cbn -[DNSPolicy_post_init label_value]. destruct p. exact Hi.
Qed.
End roundtrip.

(** ** Witnesses *)
Module Demo.
#[local] Instance str : PyStr := {| repr_compound := fun _ => ""; float_literal := fun _ => None |}.
#[local] Instance regex : PyRegex := {| regex_valid := fun _ => true; regex_search := fun _ _ => false |}.

Definition document : pydict pyval :=
  [("mode", PStr "custom");
   ("channels", PDict [("proxy", PDict [("resolvers", PList [PStr " https://dns.example/dns-query "; PDict [("uri", PStr "tls://1.1.1.1:853")]])]);
                       ("bootstrap_dns", PDict [("resolvers", PList [PStr "udp://9.9.9.9"])])]);
   ("static_ips", PList [PDict [("domain", PStr "Router.LAN."); ("ip", PStr "192.168.1.1")]]);
   ("rules", PList [PDict [("id", PStr "ads"); ("pattern", PStr "suffix: ads.example"); ("action", PStr "reject")]]);
   ("rules_enabled", PBool true); ("ttl", PStr "1h30m")].

Lemma dns_policy_roundtrip_witness :
  ∃ p, DNSPolicy_from_dict document = Ok p ∧ map si_domain (dp_static_ips p) = ["router.lan"]
       ∧ DNSPolicy_from_dict (DNSPolicy_to_dict p) = Ok p.
Proof.
  eexists. split; [vm_compute; reflexivity|]. split; [vm_compute; reflexivity|].
  apply (dns_policy_roundtrip document); [vm_compute; reflexivity..|]. repeat constructor.
Defined.

(** A label may end in a newline, because the dollar of [DOMAIN_LABEL_RE] matches before it: the
    name is stored with the newline and read back without it. *)
Lemma newline_label_accepted :
  let domain := "router.lan" +:+ String newline "." in
  ∃ e e', StaticIPEntry_make domain "192.168.1.1" true = Ok e ∧ StaticIPEntry_from_dict (PDict (StaticIPEntry_to_dict e)) = Ok e'
          ∧ e ≠ e'.
Proof. eexists _, _. split; [vm_compute; reflexivity|]. split; [vm_compute; reflexivity|]. intros [=]. Qed.
End Demo.
