(* ===== verification/DnsConfig.v ===== *)
(** * The DNS section of the sing-box configuration

    dns/singbox.py: the servers, rules and default of the generated configuration, the check
    of the dependencies between servers, and the routes that hijack DNS traffic. *)
From stdpp Require Import base list strings pretty.
From Stdlib Require Import Ascii ZArith.
From S2P Require Import Prelude PyData PyText PyUrl Dns AppPolicy DnsPolicy.

(** ** The configuration *)
Definition channel_tag (c : DNSChannelName) : string :=
  match c with
  | CH_BOOTSTRAP => "bootstrap" | CH_DNS_SERVER => "dns-server" | CH_PROXY_SERVER => "proxy-server"
  | CH_DIRECT => "direct" | CH_PROXY => "proxy" | CH_FINAL => "final"
  end.
Definition FAKEIP_SERVER_TAG : string := "watchdogvpn-fakeip".
Definition STATIC_IP_SERVER_TAG : string := "watchdogvpn-static-ip".
Definition DNS_HIJACK_INBOUND_TAGS : list string := ["watchdogvpn-dns-udp-in"; "watchdogvpn-dns-tcp-in"].

(** The value of a predefined name: one address, or a list *)
Inductive predefined_value : Type := OneIp (ip : string) | ManyIps (ips : list string).

(** An element of "servers": the keys that its dict has *)
Record DnsServer : Type := {
  ds_type : string; ds_tag : string; ds_server : option string; ds_server_port : option Z; ds_path : option string;
  ds_domain_resolver : option string; ds_detour : option string; ds_ranges : option (string * string);
  ds_predefined : option (pydict predefined_value)
}.

Inductive match_field : Type :=
| MDomain (l : list string) | MDomainSuffix (l : list string) | MDomainKeyword (l : list string)
| MDomainRegex (l : list string) | MGeosite (l : list string) | MRuleSet (l : list string) | MQueryType (l : list string).
Inductive rule_target : Type := ToServer (tag : string) | ToReject.
Record DnsRouteRule : Type := { dn_match : match_field; dn_target : rule_target }.

Record SingBoxDNSConfig : Type := {
  sc_servers : list DnsServer; sc_rules : list DnsRouteRule; sc_final : string;
  sc_channel_servers : list (DNSChannelName * list string);
  sc_direct_domain_resolver : option (string * option string);
  sc_proxy_domain_resolver : option string
}.

(** ** Servers *)
Definition server_tag (c : DNSChannelName) (index : nat) : string :=
  "watchdogvpn-" +:+ channel_tag c +:+ "-" +:+ pretty (S index).

Definition resolver_needs_domain_resolver (p : ParsedResolver) : bool :=
  match pr_host p with Some h => negb (is_ip h) | None => false end.

Definition plain_server (type tag : string) : DnsServer := {|
  ds_type := type; ds_tag := tag; ds_server := None; ds_server_port := None; ds_path := None; ds_domain_resolver := None;
  ds_detour := None; ds_ranges := None; ds_predefined := None |}.

(** [parsed.port or default_port] *)
Definition network_server (p : ParsedResolver) (tag type : string) (default_port : Z) (path : option string) : res DnsServer :=
  match pr_host p with
  | None => raise ValueError "network DNS resolver requires a host"
  | Some host => Ok {|
      ds_type := type; ds_tag := tag; ds_server := Some host;
      ds_server_port := Some (match pr_port p with Some 0%Z | None => default_port | Some port => port end);
      ds_path := path; ds_domain_resolver := None; ds_detour := None; ds_ranges := None; ds_predefined := None |}
  end.

Definition parsed_resolver_to_server (p : ParsedResolver) (tag : string) : res DnsServer :=
  match pr_transport p with
  | T_LOCAL => Ok (plain_server "local" tag)
  | T_DHCP => Ok (plain_server "dhcp" tag)
  | T_UDP => network_server p tag "udp" 53 None
  | T_TCP => network_server p tag "tcp" 53 None
  | T_TLS => network_server p tag "tls" 853 None
  | T_HTTPS => network_server p tag "https" 443 (Some (match pr_path p with Some s => if truthy_str s then s else "/dns-query" | None => "/dns-query" end))
  end.

Definition set_domain_resolver (tag : string) (s : DnsServer) : DnsServer := {|
  ds_type := ds_type s; ds_tag := ds_tag s; ds_server := ds_server s; ds_server_port := ds_server_port s; ds_path := ds_path s;
  ds_domain_resolver := Some tag; ds_detour := ds_detour s; ds_ranges := ds_ranges s; ds_predefined := ds_predefined s |}.
Definition set_detour (tag : string) (s : DnsServer) : DnsServer := {|
  ds_type := ds_type s; ds_tag := ds_tag s; ds_server := ds_server s; ds_server_port := ds_server_port s; ds_path := ds_path s;
  ds_domain_resolver := ds_domain_resolver s; ds_detour := Some tag; ds_ranges := ds_ranges s; ds_predefined := ds_predefined s |}.

Definition resolver_to_singbox_server (r : Resolver) (tag : string) (channel : DNSChannelName) (proxy_outbound_tag : string)
    (bootstrap_tag : option string) : res DnsServer :=
  parsed ← parse_resolver_uri (rv_uri r);
  server ← parsed_resolver_to_server parsed tag;
  server ← (if resolver_needs_domain_resolver parsed then
              match bootstrap_tag with
              | None => raise ValueError "hostname DNS resolver requires an enabled bootstrap resolver using an IP address, local, or DHCP transport"
              | Some b => Ok (set_domain_resolver b server)
              end
            else Ok server);
  Ok (if bool_decide (channel = CH_PROXY) then set_detour proxy_outbound_tag server
      else if negb (bool_decide (pr_transport parsed ∈ [T_LOCAL; T_DHCP])) then set_detour "direct" server
      else server).

(** The loop of [_planned_bootstrap_tag] *)
Fixpoint bootstrap_from (index : nat) (resolvers : list Resolver) : res (option string) :=
  match resolvers with
  | [] => Ok None
  | r :: rest =>
      if negb (rv_enabled r) then bootstrap_from (S index) rest
      else
        parsed ← parse_resolver_uri (rv_uri r);
        if negb (resolver_needs_domain_resolver parsed) then Ok (Some (server_tag CH_BOOTSTRAP index))
        else bootstrap_from (S index) rest
  end.
Definition planned_bootstrap_tag (p : DNSPolicy) : res (option string) :=
  match channel_get CH_BOOTSTRAP p with Some c => bootstrap_from 0 (ch_resolvers c) | None => Ok None end.

(** The servers of a channel, in order; their tags count the disabled resolvers too *)
Fixpoint channel_servers_from (name : DNSChannelName) (proxy_outbound_tag : string) (bootstrap_tag : option string)
    (index : nat) (resolvers : list Resolver) : res (list DnsServer) :=
  match resolvers with
  | [] => Ok []
  | r :: rest =>
      if negb (rv_enabled r) then channel_servers_from name proxy_outbound_tag bootstrap_tag (S index) rest
      else
        server ← resolver_to_singbox_server r (server_tag name index) name proxy_outbound_tag bootstrap_tag;
        servers ← channel_servers_from name proxy_outbound_tag bootstrap_tag (S index) rest;
        Ok (server :: servers)
  end.

(** The loop over the channels: the servers, and the tags of each channel that has any *)
Fixpoint all_servers (proxy_outbound_tag : string) (bootstrap_tag : option string) (channels : list (DNSChannelName * DNSChannel))
    : res (list DnsServer * list (DNSChannelName * list string)) :=
  match channels with
  | [] => Ok ([], [])
  | (name, channel) :: rest =>
      servers ← channel_servers_from name proxy_outbound_tag bootstrap_tag 0 (ch_resolvers channel);
      '(more, tags) ← all_servers proxy_outbound_tag bootstrap_tag rest;
      Ok (servers ++ more, match servers with [] => tags | _ => (name, map ds_tag servers) :: tags end)
  end.

Definition first_tag (channel_servers : list (DNSChannelName * list string)) (name : DNSChannelName) : option string :=
  match List.find (fun kv => bool_decide (kv.1 = name)) channel_servers with
  | Some (_, tag :: _) => Some tag
  | _ => None
  end.

(** ** Static addresses and FakeIP *)
Definition static_ip_enabled (p : DNSPolicy) : bool :=
  negb (bool_decide (dp_mode p = DNS_OFF)) && dp_static_ip_enabled p && existsb si_enabled (dp_static_ips p).

Fixpoint predefine (entries : list StaticIPEntry) (predefined : pydict predefined_value) : pydict predefined_value :=
  match entries with
  | [] => predefined
  | e :: rest =>
      predefine rest
        (if negb (si_enabled e) then predefined
         else dict_set (si_domain e) (match dict_get (si_domain e) predefined with
                                      | None => OneIp (si_ip e)
                                      | Some (ManyIps ips) => ManyIps (ips ++ [si_ip e])
                                      | Some (OneIp ip) => ManyIps [ip; si_ip e]
                                      end) predefined)
  end.
Definition static_ip_server (p : DNSPolicy) : DnsServer := {|
  ds_type := "hosts"; ds_tag := STATIC_IP_SERVER_TAG; ds_server := None; ds_server_port := None; ds_path := None;
  ds_domain_resolver := None; ds_detour := None; ds_ranges := None; ds_predefined := Some (predefine (dp_static_ips p) []) |}.

Definition fakeip_policy_ready (p : DNSPolicy) : bool :=
  negb (bool_decide (dp_mode p = DNS_OFF)) && String.eqb (dp_proxy_resolution_channel p) "fakeip"
  && match channel_get CH_PROXY p with Some c => existsb rv_enabled (ch_resolvers c) | None => false end.
Definition fakeip_enabled (p : DNSPolicy) (channel_servers : list (DNSChannelName * list string)) (allow_fakeip : bool) : bool :=
  allow_fakeip && fakeip_policy_ready p && existsb (fun kv => bool_decide (kv.1 = CH_PROXY)) channel_servers.
Definition fakeip_server (p : DNSPolicy) : DnsServer := {|
  ds_type := "fakeip"; ds_tag := FAKEIP_SERVER_TAG; ds_server := None; ds_server_port := None; ds_path := None;
  ds_domain_resolver := None; ds_detour := None; ds_ranges := Some (dp_fakeip_inet4_range p, dp_fakeip_inet6_range p);
  ds_predefined := None |}.

(** ** Dependencies between servers *)

(** [path[path.index(tag):]] *)
Fixpoint from_first (tag : string) (path : list string) : list string :=
  match path with [] => [] | x :: rest => if String.eqb x tag then path else from_first tag rest end.

(** [visit] of [_validate_domain_resolver_graph]; [None]: out of fuel *)
Fixpoint visit (fuel : nat) (dependencies : pydict string) (states : pydict Z) (tag : string) (path : list string)
    : option (res (pydict Z)) :=
  match fuel with
  | 0 => None
  | S fuel =>
      let state := dict_get_or tag 0%Z states in
      if (state =? 1)%Z then Some (raise ValueError ("DNS domain resolver dependency cycle: " +:+ join " -> " (from_first tag path ++ [tag])))
      else if (state =? 2)%Z then Some (Ok states)
      else
        let states := dict_set tag 1%Z states in
        match dict_get tag dependencies with
        | None => Some (Ok (dict_set tag 2%Z states))
        | Some dependency =>
            match visit fuel dependencies states dependency (path ++ [tag]) with
            | Some (Ok states) => Some (Ok (dict_set tag 2%Z states))
            | other => other
            end
        end
  end.

Fixpoint visit_all (fuel : nat) (dependencies : pydict string) (states : pydict Z) (tags : list string) : option (res unit) :=
  match tags with
  | [] => Some (Ok tt)
  | tag :: rest =>
      match visit fuel dependencies states tag [] with
      | Some (Ok states) => visit_all fuel dependencies states rest
      | Some (Err e) => Some (Err e)
      | None => None
      end
  end.

(** The loop that collects the dependencies *)
Fixpoint collect_dependencies (server_tags : list string) (servers : list DnsServer) (dependencies : pydict string)
    : res (pydict string) :=
  match servers with
  | [] => Ok dependencies
  | s :: rest =>
      match ds_domain_resolver s with
      | None => collect_dependencies server_tags rest dependencies
      | Some d =>
          if negb (truthy_str (ds_tag s)) then raise ValueError "DNS server dependency has no valid server tag"
          else if negb (truthy_str d)
          then raise ValueError ("DNS server " +:+ ds_tag s +:+ " has an invalid domain resolver dependency")
          else if negb (str_in d server_tags)
          then raise ValueError ("DNS server " +:+ ds_tag s +:+ " references unknown domain resolver " +:+ d)
          else collect_dependencies server_tags rest (dict_set (ds_tag s) d dependencies)
      end
  end.

Definition validate_domain_resolver_graph (servers : list DnsServer) : option (res unit) :=
  let server_tags := List.filter truthy_str (map ds_tag servers) in
  match collect_dependencies server_tags servers [] with
  | Err e => Some (Err e)
  | Ok dependencies => visit_all (S (S (length dependencies))) dependencies [] (map fst dependencies)
  end.

(** ** Rules *)
Definition dns_rule_match_fields (pattern : string) : res match_field :=
  let '(pattern_type, found, value) := partition_on ":" pattern in
  let value := strip value in
  if negb found then raise ValueError "not enough values to unpack (expected 2, got 1)"
  else if String.eqb pattern_type "domain" then Ok (MDomain [rstrip_dots (lower value)])
  else if String.eqb pattern_type "suffix" then Ok (MDomainSuffix [rstrip_dots (lower value)])
  else if String.eqb pattern_type "keyword" then Ok (MDomainKeyword [value])
  else if String.eqb pattern_type "regex" then Ok (MDomainRegex [value])
  else if String.eqb pattern_type "geosite" then Ok (MGeosite [value])
  else if String.eqb pattern_type "rule_set" then Ok (MRuleSet [value])
  else raise ValueError "unsupported dns rule pattern type".

Definition dns_rule_channel_server (p : DNSPolicy) (channel_servers : list (DNSChannelName * list string)) (channel : DNSChannelName)
    (allow_fakeip : bool) : option string :=
  if bool_decide (channel = CH_PROXY) && fakeip_enabled p channel_servers allow_fakeip then Some FAKEIP_SERVER_TAG
  else first_tag channel_servers channel.

Definition dns_diversion_rule (r : DNSRule) (channel_servers : list (DNSChannelName * list string)) (p : DNSPolicy)
    (allow_fakeip : bool) : res DnsRouteRule :=
  field ← dns_rule_match_fields (dr_pattern r);
  match dr_action r with
  | DNS_REJECT => Ok {| dn_match := field; dn_target := ToReject |}
  | USE_CHANNEL =>
      match dr_channel r with
      | None => raise ValueError "dns diversion rule channel is required"
      | Some channel =>
          match dns_rule_channel_server p channel_servers channel allow_fakeip with
          | None => raise ValueError ("dns diversion rule channel has no server: " +:+ channel_value channel)
          | Some server => Ok {| dn_match := field; dn_target := ToServer server |}
          end
      end
  end.

(** [sorted(enumerate(rules), key=(priority, index))] *)
Definition rule_before (a b : nat * DNSRule) : bool :=
  (dr_priority a.2 <? dr_priority b.2)%Z || ((dr_priority a.2 =? dr_priority b.2)%Z && (a.1 <? b.1)%nat).
Definition ordered_rules (rules : list DNSRule) : list DNSRule :=
  map snd (py_sorted rule_before (combine (seq 0 (length rules)) rules)).

Definition dns_diversion_rules (p : DNSPolicy) (channel_servers : list (DNSChannelName * list string)) (allow_fakeip : bool)
    : res (list DnsRouteRule) :=
  if bool_decide (dp_mode p = DNS_OFF) || negb (dp_rules_enabled p) then Ok []
  else map_res (fun r => dns_diversion_rule r channel_servers p allow_fakeip)
         (List.filter dr_enabled (ordered_rules (dp_rules p))).

Fixpoint static_domains (seen : list string) (entries : list StaticIPEntry) : list string :=
  match entries with
  | [] => []
  | e :: rest =>
      if negb (si_enabled e) || str_in (si_domain e) seen then static_domains seen rest
      else si_domain e :: static_domains (si_domain e :: seen) rest
  end.
Definition static_ip_rule (p : DNSPolicy) : DnsRouteRule :=
  {| dn_match := MDomain (static_domains [] (dp_static_ips p)); dn_target := ToServer STATIC_IP_SERVER_TAG |}.

Definition build_channel_rules (p : DNSPolicy) (channel_servers : list (DNSChannelName * list string)) (allow_fakeip : bool)
    : res (list DnsRouteRule) :=
  diversion ← dns_diversion_rules p channel_servers allow_fakeip;
  Ok ((if static_ip_enabled p then [static_ip_rule p] else []) ++ diversion
      ++ (if fakeip_enabled p channel_servers allow_fakeip
          then [{| dn_match := MQueryType ["A"; "AAAA"]; dn_target := ToServer FAKEIP_SERVER_TAG |}] else [])).

Definition final_server (channel_servers : list (DNSChannelName * list string)) : res string :=
  match first_tag channel_servers CH_FINAL, first_tag channel_servers CH_PROXY, first_tag channel_servers CH_DIRECT with
  | Some tag, _, _ | None, Some tag, _ | None, None, Some tag => Ok tag
  | None, None, None =>
      match channel_servers with (_, tag :: _) :: _ => Ok tag | _ => raise OtherError "StopIteration" end
  end.

(** ** The whole section *)
Definition build_singbox_dns_config (p : DNSPolicy) (proxy_outbound_tag : string) (allow_fakeip : bool)
    : option (res (option SingBoxDNSConfig)) :=
  if bool_decide (dp_mode p = DNS_OFF) then Some (Ok None)
  else
    match (bootstrap_tag ← planned_bootstrap_tag p; all_servers proxy_outbound_tag bootstrap_tag (dp_channels p)) with
    | Err e => Some (Err e)
    | Ok ([], _) => Some (Ok None)
    | Ok (servers, channel_servers) =>
        let fakeip := fakeip_enabled p channel_servers allow_fakeip in
        let servers := (if static_ip_enabled p then [static_ip_server p] else []) ++ servers
                       ++ (if fakeip then [fakeip_server p] else []) in
        match validate_domain_resolver_graph servers with
        | None => None
        | Some (Err e) => Some (Err e)
        | Some (Ok _) => Some (
            rules ← build_channel_rules p channel_servers allow_fakeip;
            final ← final_server channel_servers;
            Ok (Some {|
              sc_servers := servers; sc_rules := rules; sc_final := final; sc_channel_servers := channel_servers;
              sc_direct_domain_resolver :=
                match first_tag channel_servers CH_DIRECT with
                | Some tag => Some (tag, if dp_ecs_direct_enabled p && truthy_opt (dp_ecs_direct_subnet p)
                                         then dp_ecs_direct_subnet p else None)
                | None => None
                end;
              sc_proxy_domain_resolver := if fakeip then Some FAKEIP_SERVER_TAG else first_tag channel_servers CH_PROXY |}))
        end
    end.

(** ** Hijacking DNS traffic *)
Record HijackInbound : Type := {
  hi_tag : string; hi_listen : string; hi_listen_port : Z; hi_network : string; hi_override_address : string; hi_override_port : Z
}.
Definition hijack_inbound (tag network : string) : HijackInbound :=
  {| hi_tag := tag; hi_listen := "127.0.0.1"; hi_listen_port := 53; hi_network := network; hi_override_address := "1.1.1.1";
     hi_override_port := 53 |}.
Definition build_dns_hijack_inbounds (p : DNSPolicy) : list HijackInbound :=
  if bool_decide (dp_mode p = DNS_OFF) || negb (dp_tun_hijack p) then []
  else [hijack_inbound "watchdogvpn-dns-udp-in" "udp"; hijack_inbound "watchdogvpn-dns-tcp-in" "tcp"].

Inductive dns_route_rule : Type :=
| RouteSniff | RouteHijackDnsProtocol | RouteHijackInbounds (tags : list string) | RouteResolve (inbound : string) (ranges : list string).
Definition build_dns_hijack_route (p : DNSPolicy) : option (list dns_route_rule) :=
  if bool_decide (dp_mode p = DNS_OFF) || negb (dp_tun_hijack p) then None
  else Some [RouteSniff; RouteHijackDnsProtocol; RouteHijackInbounds DNS_HIJACK_INBOUND_TAGS].
Definition build_tun_domain_preservation_route (p : DNSPolicy) (tun_inbound_tag : string) (allow_fakeip : bool)
    : option (list dns_route_rule) :=
  if negb allow_fakeip || negb (dp_tun_domain_preservation p) || negb (fakeip_policy_ready p) then None
  else Some [RouteResolve tun_inbound_tag [dp_fakeip_inet4_range p; dp_fakeip_inet6_range p]].
