(* ===== verification/DnsRouting.v ===== *)
(** * What the generated DNS configuration does

    Theorems about [DnsConfig]: the check of the dependencies between servers is exact, every
    query meets what the policy decides for it, no query leaves the tunnel under a policy that
    keeps to the proxy channel, and the generation succeeds for usable policies. *)
From stdpp Require Import base list strings pretty relations.
From Stdlib Require Import Ascii ZArith.
From S2P Require Import Prelude PyData PyText PyUrl Dns AppPolicy DnsPolicy DnsConfig.

(** ** The dependency check is exact *)
Section graph.
Context (deps : pydict string).

(** Following the dependencies from a tag comes to an end *)
Inductive terminates : string → Prop :=
| term_end t : dict_get t deps = None → terminates t
| term_step t d : dict_get t deps = Some d → terminates d → terminates t.

Definition depends (a b : string) : Prop := dict_get a deps = Some b.

Lemma terminates_step t d : depends t d → terminates t → terminates d.
Proof. intros Hd Ht. unfold depends in Hd. destruct Ht as [t Ht|t d' Ht Hd']; congruence. Qed.
Lemma terminates_tc a b : tc depends a b → terminates a → terminates b.
Proof. induction 1; eauto using terminates_step. Qed.
Lemma cycle_not_terminates t : tc depends t t → ¬ terminates t.
Proof.
  intros Hc Ht. induction Ht as [t Ht|t d Hd Ht IH].
  - unfold depends in Hc. inversion Hc; congruence.
  - apply IH. assert (Hx : rtc depends d t).
    { inversion Hc as [x y Hxy|x y z Hxy Hyz]; subst; unfold depends in *; [by replace d with t by congruence|].
      replace d with y by congruence. by apply tc_rtc. }
    eapply tc_rtc_l; [exact Hx|]. by apply tc_once.
Qed.

Definition state_of (states : pydict Z) (t : string) : Z := dict_get_or t 0%Z states.

(** What [visit] keeps: finished tags terminate, and the tags in progress are the path *)
Record visit_inv (states : pydict Z) (path : list string) : Prop := {
  vi_done : ∀ t, state_of states t = 2%Z → terminates t;
  vi_path : ∀ t, state_of states t = 1%Z ↔ t ∈ path;
  vi_nodup : NoDup path;
  vi_keys : ∀ t, t ∈ path → t ∈ map fst deps
}.

Lemma state_of_set t v states t' : state_of (dict_set t v states) t' = if String.eqb t' t then v else state_of states t'.
Proof. unfold state_of, dict_get_or. rewrite dict_get_set. by destruct (String.eqb t' t). Qed.

Lemma visit_inv_length states path : visit_inv states path → (length path ≤ length deps)%nat.
Proof.
  intros [_ _ Hn Hk]. rewrite <- (length_map fst deps). apply submseteq_length, NoDup_submseteq; [done|]. exact Hk.
Qed.

Lemma visit_inv_finish states path t :
  visit_inv states (path ++ [t]) → terminates t → visit_inv (dict_set t 2%Z states) path.
Proof.
  intros [Hd Hp Hn Hk] Ht. apply NoDup_app in Hn as (Hn & Hnt & _). constructor.
  - intros x. rewrite state_of_set. destruct (String.eqb_spec x t) as [->|]; auto.
  - intros x. rewrite state_of_set. specialize (Hp x). destruct (String.eqb_spec x t) as [->|Hx]; [|set_solver].
    split; [done|]. intros Hin. specialize (Hnt t Hin). set_solver.
  - done.
  - set_solver.
Qed.

Lemma visit_spec fuel states path tag :
  visit_inv states path → (∀ t, t ∈ path → tc depends t tag) → (S (length deps) - length path < fuel)%nat →
  match visit fuel deps states tag path with
  | None => False
  | Some (Ok states') => terminates tag ∧ visit_inv states' path
  | Some (Err _) => ¬ terminates tag
  end.
Proof.
  revert states path tag. induction fuel as [|fuel IH]; intros states path tag Hi Hr Hf; [lia|]. cbn [visit].
  fold (state_of states tag). destruct (Z.eqb_spec (state_of states tag) 1) as [E1|E1].
  { apply (vi_path _ _ Hi) in E1. by apply cycle_not_terminates, Hr. }
  destruct (Z.eqb_spec (state_of states tag) 2) as [E2|E2]; [split; [by apply (vi_done _ _ Hi)|done]|].
  assert (Hnew : tag ∉ path) by (by rewrite <- (vi_path _ _ Hi)).
  assert (Hset : ∀ d, dict_get tag deps = Some d → visit_inv (dict_set tag 1%Z states) (path ++ [tag])).
  { intros d Hd. destruct Hi as [Hdn Hp Hn Hk]. constructor.
    - intros x. rewrite state_of_set. destruct (String.eqb_spec x tag); [done|auto].
    - intros x. rewrite state_of_set. specialize (Hp x). destruct (String.eqb_spec x tag); set_solver.
    - apply NoDup_app. split; [done|]. split; [set_solver|apply NoDup_singleton].
    - intros x [Hx|Hx]%elem_of_app; [auto|]. apply list_elem_of_singleton in Hx as ->.
      apply dict_get_elem_of in Hd. change tag with (tag, d).1. by apply list_elem_of_fmap_2. }
  destruct (dict_get tag deps) as [d|] eqn:Ed.
  - specialize (Hset d eq_refl). specialize (IH (dict_set tag 1%Z states) (path ++ [tag]) d Hset).
    pose proof (visit_inv_length _ _ Hset) as Hl. rewrite length_app in Hl, IH. cbn in Hl, IH.
    assert (Hr' : ∀ t, t ∈ path ++ [tag] → tc depends t d).
    { intros t [Ht|Ht]%elem_of_app; [by eapply tc_r; [apply Hr|]|]. apply list_elem_of_singleton in Ht as ->. by apply tc_once. }
    specialize (IH Hr' ltac:(lia)). destruct (visit fuel deps _ d (path ++ [tag])) as [[states'|e]|]; [|by eauto using terminates_step|done].
    destruct IH as [Ht Hi']. assert (Htag : terminates tag) by (by eapply term_step). split; [done|]. by apply visit_inv_finish.
  - split; [by apply term_end|]. destruct Hi as [Hdn Hp Hn Hk]. constructor.
    + intros x. rewrite !state_of_set. destruct (String.eqb_spec x tag) as [->|]; [intros _; by apply term_end|auto].
    + intros x. rewrite !state_of_set. destruct (String.eqb_spec x tag) as [->|]; [|auto]. split; [done|]. intros ?. done.
    + done.
    + done.
Qed.

Lemma visit_all_spec fuel states tags :
  visit_inv states [] → (S (length deps) < fuel)%nat →
  match visit_all fuel deps states tags with
  | None => False
  | Some (Ok _) => Forall terminates tags
  | Some (Err _) => ¬ Forall terminates tags
  end.
Proof.
  revert states. induction tags as [|tag tags IH]; intros states Hi Hf; cbn [visit_all]; [by constructor|].
  pose proof (visit_spec fuel states [] tag Hi ltac:(set_solver) ltac:(cbn; lia)) as Hv.
  destruct (visit fuel deps states tag []) as [[states'|e]|]; [|by inversion 1|done].
  destruct Hv as [Ht Hi']. specialize (IH states' Hi' Hf). destruct (visit_all fuel deps states' tags) as [[[]|e]|]; [by constructor|by inversion 1|done].
Qed.
End graph.

(** The resolver of the server with a tag *)
Definition server_dep (servers : list DnsServer) (t : string) : option string :=
  match List.find (fun s => String.eqb (ds_tag s) t) servers with Some s => ds_domain_resolver s | None => None end.

(** A declared dependency is between tags, and to a known server *)
Definition dependency_known (tags : list string) (s : DnsServer) : Prop :=
  ∀ d, ds_domain_resolver s = Some d → ds_tag s ≠ "" ∧ d ≠ "" ∧ d ∈ tags.

Lemma collect_spec tags servers acc :
  NoDup (map ds_tag servers) →
  match collect_dependencies tags servers acc with
  | Ok deps => Forall (dependency_known tags) servers
      ∧ ∀ t, dict_get t deps = match server_dep servers t with Some d => Some d | None => dict_get t acc end
  | Err _ => ¬ Forall (dependency_known tags) servers
  end.
Proof.
  revert acc. induction servers as [|s servers IH]; intros acc; cbn [collect_dependencies map]; [by intros _|].
  intros [Hs Hn]%NoDup_cons. unfold server_dep. cbn [List.find].
  assert (Hdep : ∀ t, ds_tag s = t → server_dep servers t = None).
  { intros t <-. unfold server_dep. destruct (List.find _ servers) as [x|] eqn:E; [|done].
    apply List_find_elem_of in E as [Hx Ht%String.eqb_eq]. destruct Hs. rewrite <- Ht. by apply list_elem_of_fmap_2. }
  destruct (ds_domain_resolver s) as [d|] eqn:Ed.
  - destruct (truthy_str (ds_tag s)) eqn:E1; cbn [negb].
    2: { intros Hf. apply Forall_cons in Hf as [Hf _]. destruct (Hf d Ed) as [?%truthy_str_ne _]. congruence. }
    destruct (truthy_str d) eqn:E2; cbn [negb].
    2: { intros Hf. apply Forall_cons in Hf as [Hf _]. destruct (Hf d Ed) as (_ & ?%truthy_str_ne & _). congruence. }
    destruct (str_in d tags) eqn:E3; cbn [negb].
    2: { intros Hf. apply Forall_cons in Hf as [Hf _]. destruct (Hf d Ed) as (_ & _ & ?%str_in_spec). congruence. }
    specialize (IH (dict_set (ds_tag s) d acc) Hn). destruct (collect_dependencies tags servers _) as [deps|e].
    + destruct IH as [Hf Hg]. split.
      { constructor; [|done]. intros d' Hd'. replace d' with d by congruence.
        apply truthy_str_ne in E1, E2. by apply str_in_spec in E3. }
      intros t. rewrite Hg, dict_get_set. destruct (String.eqb_spec (ds_tag s) t) as [Ht|Ht].
      * by rewrite Hdep, Ht, String.eqb_refl, Ed by done.
      * fold (server_dep servers t). destruct (server_dep servers t); [done|]. by rewrite (proj2 (String.eqb_neq t (ds_tag s)) (not_eq_sym Ht)).
    + intros Hf. apply Forall_cons in Hf as [_ Hf]. done.
  - specialize (IH acc Hn). destruct (collect_dependencies tags servers acc) as [deps|e].
    + destruct IH as [Hf Hg]. split; [constructor; [by intros ? ?; congruence|done]|]. intros t. rewrite Hg.
      destruct (String.eqb_spec (ds_tag s) t) as [Ht|Ht]; [|done]. by rewrite Hdep, Ed.
    + intros Hf. apply Forall_cons in Hf as [_ Hf]. done.
Qed.

(** The sources of dependencies among the servers *)
Inductive chain_ends (servers : list DnsServer) : string → Prop :=
| chain_end t : server_dep servers t = None → chain_ends servers t
| chain_next t d : server_dep servers t = Some d → chain_ends servers d → chain_ends servers t.

Lemma terminates_chain deps servers t :
  (∀ t, dict_get t deps = server_dep servers t) → terminates deps t ↔ chain_ends servers t.
Proof.
  intros Heq. split; (induction 1 as [t Ht|t d Hd _ IH]; [constructor 1|econstructor 2; [|exact IH]]); congruence.
Qed.

Lemma graph_check_spec servers :
  NoDup (map ds_tag servers) →
  ∃ r, validate_domain_resolver_graph servers = Some r
    ∧ (r = Ok tt ↔ Forall (dependency_known (map ds_tag servers)) servers ∧ ∀ t, chain_ends servers t).
Proof.
  intros Hn. unfold validate_domain_resolver_graph.
  set (tags := List.filter truthy_str (map ds_tag servers)).
  assert (Htags : ∀ s, dependency_known tags s ↔ dependency_known (map ds_tag servers) s).
  { intros s. unfold dependency_known, tags. split; intros Hs d Hd; specialize (Hs d Hd).
    - rewrite List_filter_elem_of in Hs. tauto.
    - rewrite List_filter_elem_of, truthy_str_ne. tauto. }
  pose proof (collect_spec tags servers [] Hn) as Hc. destruct (collect_dependencies tags servers []) as [deps|e].
  - destruct Hc as [Hf Hg]. assert (Heq : ∀ t, dict_get t deps = server_dep servers t).
    { intros t. rewrite Hg. by destruct (server_dep servers t). }
    assert (Hi : visit_inv deps [] []).
    { constructor; cbn; [done| |constructor|]; set_solver. }
    pose proof (visit_all_spec deps (S (S (length deps))) [] (map fst deps) Hi ltac:(lia)) as Hv.
    assert (Hall : Forall (terminates deps) (map fst deps) ↔ ∀ t, chain_ends servers t).
    { split.
      - intros Ht t. apply (terminates_chain deps servers t Heq). destruct (dict_get t deps) as [d|] eqn:Ed; [|by constructor].
        rewrite Forall_forall in Ht. apply Ht. apply dict_get_elem_of in Ed. change t with (t, d).1. by apply list_elem_of_fmap_2.
      - intros Ht. apply Forall_forall. intros t _. by apply (terminates_chain deps servers t Heq). }
    destruct (visit_all _ deps [] (map fst deps)) as [[[]|e]|]; [..|done]; eexists; (split; [done|]).
    + split; [intros _|done]. split; [|by apply Hall]. eapply Forall_impl; [exact Hf|]. apply Htags.
    + split; [done|]. intros [_ Ht]. by apply Hall in Ht.
  - eexists. split; [done|]. split; [done|]. intros [Hf _]. destruct Hc. eapply Forall_impl; [exact Hf|]. apply Htags.
Qed.

(** C35: the dependency check of the DNS servers always comes to a verdict, and it accepts
    exactly the configurations in which every resolver of a server's own name is a known server
    and no chain of such resolvers runs in a cycle. *)
Theorem resolver_graph_check_exact (servers : list DnsServer) :
  NoDup (map ds_tag servers) →
  ∃ r, validate_domain_resolver_graph servers = Some r
    ∧ (r = Ok tt ↔ Forall (dependency_known (map ds_tag servers)) servers ∧ ∀ t, chain_ends servers t).
Proof. apply graph_check_spec. Qed.

(** ** Tags *)

Lemma pretty_nat_digits (n : nat) : forall_chars (char_in 48 57) (pretty n) = true.
Proof. apply pretty_N_digits. Qed.

(** A number is not the rest of a longer channel name *)
Lemma pretty_not_prefixed (n : nat) c s : char_in 48 57 c = false → pretty n ≠ String c s.
Proof. intros Hc E. pose proof (pretty_nat_digits n) as Hd. rewrite E in Hd. cbn in Hd. by rewrite Hc in Hd. Qed.

Lemma server_tag_inj c i c' i' : server_tag c i = server_tag c' i' → c = c' ∧ i = i'.
Proof.
  unfold server_tag. intros E%append_inj_l.
  assert (Hd : ∀ n s, pretty n = "server-" +:+ s → False) by (intros n s; exact (pretty_not_prefixed n "s" ("erver-" +:+ s) eq_refl)).
  destruct c, c'; cbn [channel_tag] in E; try discriminate E;
    try (do 2 apply append_inj_l in E; apply (inj pretty) in E; split; [done|lia]).
  - exfalso. apply (Hd (S i') (pretty (S i))). injection E as E. symmetry. exact E.
  - exfalso. apply (Hd (S i) (pretty (S i'))). injection E as E. exact E.
Qed.
Lemma server_tag_special c i : server_tag c i ≠ FAKEIP_SERVER_TAG ∧ server_tag c i ≠ STATIC_IP_SERVER_TAG ∧ server_tag c i ≠ "".
Proof. by destruct c. Qed.

(** ** Servers of the enabled resolvers *)
Section servers.
Context (proxy : string) (boot : option string).

(** The enabled resolvers with their positions *)
Fixpoint enabled_from (i : nat) (rs : list Resolver) : list (nat * Resolver) :=
  match rs with
  | [] => []
  | r :: rest => if rv_enabled r then (i, r) :: enabled_from (S i) rest else enabled_from (S i) rest
  end.

Lemma enabled_from_bound i rs x : x ∈ enabled_from i rs → (i ≤ x.1)%nat ∧ rv_enabled x.2 = true ∧ x.2 ∈ rs.
Proof.
  revert i. induction rs as [|r rs IH]; intros i; cbn; [by intros ?%not_elem_of_nil|].
  destruct (rv_enabled r) eqn:E.
  - intros [->|Hx]%elem_of_cons; [split; [cbn; lia|]; split; [done|set_solver]|]. apply IH in Hx as (? & ? & ?). split; [lia|set_solver].
  - intros Hx. apply IH in Hx as (? & ? & ?). split; [lia|set_solver].
Qed.
Lemma enabled_from_nodup i rs : NoDup (map fst (enabled_from i rs)).
Proof.
  revert i. induction rs as [|r rs IH]; intros i; cbn; [constructor|]. destruct (rv_enabled r); [|apply IH].
  cbn. constructor; [|apply IH]. intros ([j r'] & Hj & Hx)%list_elem_of_fmap. cbn in Hj. subst j.
  apply enabled_from_bound in Hx. cbn in Hx. lia.
Qed.
Lemma enabled_from_nil i rs : enabled_from i rs = [] ↔ existsb rv_enabled rs = false.
Proof.
  revert i. induction rs as [|r rs IH]; intros i; cbn; [done|]. destruct (rv_enabled r); cbn; [done|apply IH].
Qed.

Definition made (name : DNSChannelName) (x : nat * Resolver) (s : DnsServer) : Prop :=
  resolver_to_singbox_server x.2 (server_tag name x.1) name proxy boot = Ok s.

Lemma channel_servers_from_made name i rs ss :
  channel_servers_from name proxy boot i rs = Ok ss → Forall2 (made name) (enabled_from i rs) ss.
Proof.
  revert i ss. induction rs as [|r rs IH]; intros i ss; cbn; [intros [= <-]; constructor|].
  destruct (rv_enabled r); cbn; [|apply IH].
  destruct (resolver_to_singbox_server _ _ _ _ _) as [s|] eqn:Es; [|done]. cbn.
  destruct (channel_servers_from _ _ _ _ rs) as [ss'|] eqn:E; [|done]. cbn. intros [= <-].
  constructor; [done|by apply IH].
Qed.

(** What a server made from a resolver is: it asks the resolver's host, by way of the outbound
    of the channel *)
Record serves_parsed (name : DNSChannelName) (parsed : ParsedResolver) (s : DnsServer) : Prop := {
  sv_host : ds_server s = pr_host parsed;
  sv_detour : ds_detour s = if bool_decide (name = CH_PROXY) then Some proxy
                            else if bool_decide (pr_transport parsed ∈ [T_LOCAL; T_DHCP]) then None else Some "direct";
  sv_dependency : ds_domain_resolver s = if resolver_needs_domain_resolver parsed then boot else None
}.
Definition serves (name : DNSChannelName) (r : Resolver) (s : DnsServer) : Prop :=
  ∃ parsed, parse_resolver_uri (rv_uri r) = Ok parsed ∧ serves_parsed name parsed s
            ∧ (resolver_needs_domain_resolver parsed = true → boot ≠ None).

(** The host of a parsed resolver is absent exactly for the local transports *)
Lemma parse_host uri parsed : parse_resolver_uri uri = Ok parsed →
  pr_host parsed = None ↔ pr_transport parsed ∈ [T_LOCAL; T_DHCP].
Proof.
  unfold parse_resolver_uri. destruct (String.eqb _ "local"); [intros [= <-]; cbn; set_solver|].
  destruct (String.eqb _ "dhcp://auto"); [intros [= <-]; cbn; set_solver|].
  destruct (negb _); [done|]. destruct (urlsplit _) as [u|]; [|done]. cbn [mbind res_bind].
  destruct (transport_of_scheme _) as [t|] eqn:Et; [|done]. intros Hp. inv_res Hp. injection Hp as <-. cbn.
  assert (t ≠ T_LOCAL ∧ t ≠ T_DHCP); [|set_solver]. unfold transport_of_scheme in Et. repeat case_match; simplify_eq; done.
Qed.

Lemma network_server_ok parsed tag type port path s : network_server parsed tag type port path = Ok s →
  ds_tag s = tag ∧ ds_server s = pr_host parsed ∧ ds_domain_resolver s = None ∧ ds_detour s = None.
Proof. unfold network_server. destruct (pr_host parsed); [|done]. by intros [= <-]. Qed.

Lemma made_serves name x s : made name x s → ds_tag s = server_tag name x.1 ∧ serves name x.2 s.
Proof.
  unfold made, resolver_to_singbox_server. destruct (parse_resolver_uri _) as [parsed|] eqn:Ep; [|done]. cbn [mbind res_bind].
  pose proof (parse_host _ _ Ep) as Hh.
  destruct (parsed_resolver_to_server parsed _) as [s0|] eqn:Es; [|done]. cbn [mbind res_bind].
  assert (H0 : ds_tag s0 = server_tag name x.1 ∧ ds_server s0 = pr_host parsed ∧ ds_domain_resolver s0 = None ∧ ds_detour s0 = None).
  { unfold parsed_resolver_to_server in Es. destruct (pr_transport parsed) eqn:Et; try (by eapply network_server_ok);
      injection Es as <-; cbn; (split; [done|]); (split; [symmetry; apply Hh; set_solver|done]). }
  destruct H0 as (Ht & Hs & Hr & Hd). intros Hm.
  assert (Hb : resolver_needs_domain_resolver parsed = true → boot ≠ None).
  { intros E. rewrite E in Hm. by destruct boot. }
  assert (Hs1 : ∃ s1, s = (if bool_decide (name = CH_PROXY) then set_detour proxy s1
      else if negb (bool_decide (pr_transport parsed ∈ [T_LOCAL; T_DHCP])) then set_detour "direct" s1 else s1)
      ∧ ds_tag s1 = ds_tag s0 ∧ ds_server s1 = ds_server s0 ∧ ds_detour s1 = None
      ∧ ds_domain_resolver s1 = if resolver_needs_domain_resolver parsed then boot else None).
  { destruct (resolver_needs_domain_resolver parsed); [destruct boot as [b|]; [|done]|]; cbn [mbind res_bind] in Hm; injection Hm as <-;
      (eexists; split; [reflexivity|]); cbn; auto. }
  destruct Hs1 as (s1 & -> & Ht1 & Hs2 & Hd1 & Hr1). split; [|exists parsed; split; [done|]; split; [|done]; constructor];
    (destruct (bool_decide (name = CH_PROXY)); [|destruct (bool_decide (_ ∈ _))]); cbn; congruence.
Qed.
End servers.

(** ** All servers of a policy *)
Definition slots (channels : list (DNSChannelName * DNSChannel)) : list (DNSChannelName * (nat * Resolver)) :=
  flat_map (fun kv => map (pair kv.1) (enabled_from 0 (ch_resolvers kv.2))) channels.
Definition slot_tag (x : DNSChannelName * (nat * Resolver)) : string := server_tag x.1 x.2.1.
Definition channel_tags (channels : list (DNSChannelName * DNSChannel)) : list (DNSChannelName * list string) :=
  map (fun kv => (kv.1, map (fun x => server_tag kv.1 x.1) (enabled_from 0 (ch_resolvers kv.2))))
    (List.filter (fun kv => existsb rv_enabled (ch_resolvers kv.2)) channels).

(** The first enabled resolver of a channel, with its position *)
Definition primary (channels : list (DNSChannelName * DNSChannel)) (name : DNSChannelName) : option (nat * Resolver) :=
  match List.find (fun kv => bool_decide (kv.1 = name)) channels with
  | Some kv => head (enabled_from 0 (ch_resolvers kv.2))
  | None => None
  end.

Section policy_servers.
Context (proxy : string) (boot : option string).

Lemma made_channel_tags name xs ss : Forall2 (made proxy boot name) xs ss → map ds_tag ss = map (fun x => server_tag name x.1) xs.
Proof. induction 1 as [|x s xs ss Hx _ IH]; [done|]. cbn [map]. rewrite IH. f_equal. by apply made_serves in Hx as [-> _]. Qed.

Lemma all_servers_made channels ss cs :
  all_servers proxy boot channels = Ok (ss, cs) →
  Forall2 (fun x s => made proxy boot x.1 x.2 s) (slots channels) ss ∧ cs = channel_tags channels.
Proof.
  revert ss cs. induction channels as [|[name c] channels IH]; intros ss cs; cbn [all_servers].
  { intros [= <- <-]. split; [constructor|done]. }
  destruct (channel_servers_from name proxy boot 0 (ch_resolvers c)) as [servers|] eqn:Es; [|done]. cbn [mbind res_bind].
  destruct (all_servers proxy boot channels) as [[more tags]|]; [|done]. cbn [mbind res_bind]. intros [= <- <-].
  destruct (IH more tags eq_refl) as [Hm ->]. apply channel_servers_from_made in Es. split.
  - unfold slots. cbn [flat_map]. apply Forall2_app; [|done]. rewrite Forall2_fmap_l. exact Es.
  - unfold channel_tags. cbn [List.filter snd]. pose proof (enabled_from_nil 0 (ch_resolvers c)) as Hn.
    destruct (existsb rv_enabled (ch_resolvers c)).
    + destruct servers as [|s servers]; [inversion Es as [Hx|]; symmetry in Hx; by apply Hn in Hx|]. 
      apply made_channel_tags in Es. change (map ds_tag (s :: servers)) with (ds_tag s :: map ds_tag servers) in Es.
      cbn [map fst snd]. by rewrite Es.
    + rewrite (proj2 Hn eq_refl) in Es. by inversion Es; subst.
Qed.

Lemma slots_elem channels x : x ∈ slots channels ↔ ∃ c, (x.1, c) ∈ channels ∧ x.2 ∈ enabled_from 0 (ch_resolvers c).
Proof.
  unfold slots. rewrite list_elem_of_In, in_flat_map. split.
  - intros ([name c] & Hin & Hx). apply list_elem_of_In, list_elem_of_fmap in Hx as (y & -> & Hy). exists c.
    split; [by apply list_elem_of_In|done].
  - intros (c & Hin & Hx). exists (x.1, c). split; [by apply list_elem_of_In|]. apply list_elem_of_In, list_elem_of_fmap.
    exists x.2. by destruct x.
Qed.

Lemma slots_nodup channels : NoDup (map fst channels) → NoDup (map slot_tag (slots channels)).
Proof.
  induction channels as [|[name c] channels IH]; cbn; [constructor|]. intros [Hn Hd]%NoDup_cons.
  rewrite map_app. apply NoDup_app. split; [|split; [|by apply IH]].
  - rewrite map_map. unfold slot_tag. cbn. pose proof (enabled_from_nodup 0 (ch_resolvers c)) as He.
    rewrite <- (map_map fst (server_tag name)). apply NoDup_fmap_2_strong; [|done]. intros x y _ _ Hxy. by apply server_tag_inj in Hxy as [_ ?].
  - intros t (x & -> & Hx)%list_elem_of_fmap (y & Hxy & Hy)%list_elem_of_fmap.
    apply list_elem_of_fmap in Hx as (x' & -> & Hx). unfold slot_tag in Hxy. apply server_tag_inj in Hxy as [Hname _]. cbn in Hname.
    apply slots_elem in Hy as (c' & Hc' & _). destruct Hn. apply list_elem_of_fmap. exists (y.1, c'). by rewrite Hname.
Qed.

Lemma made_tags xs ss : Forall2 (fun x s => made proxy boot x.1 x.2 s) xs ss → map ds_tag ss = map slot_tag xs.
Proof. induction 1 as [|x s xs ss Hx _ IH]; [done|]. cbn. rewrite IH. f_equal. by apply made_serves in Hx as [-> _]. Qed.

Lemma first_tag_primary channels name : NoDup (map fst channels) →
  first_tag (channel_tags channels) name = (fun x => server_tag name x.1) <$> primary channels name.
Proof.
  unfold first_tag, primary, channel_tags. induction channels as [|[k c] channels IH]; [done|]. cbn [map fst]. intros [Hk Hn]%NoDup_cons.
  specialize (IH Hn). cbn [List.filter List.find fst snd]. pose proof (enabled_from_nil 0 (ch_resolvers c)) as He.
  destruct (existsb rv_enabled (ch_resolvers c)).
  - cbn [map List.find fst snd]. case_bool_decide as E; [subst k|done].
    cbn [snd]. destruct (enabled_from 0 (ch_resolvers c)); [|done]. discriminate (proj1 He eq_refl).
  - rewrite IH. case_bool_decide as E; [subst k|done]. cbn. rewrite (proj2 He eq_refl). cbn.
    destruct (List.find _ channels) as [[k' c']|] eqn:Ef; [|done]. apply List_find_elem_of in Ef as [Hin Hk'%bool_decide_eq_true].
    cbn in Hk'. subst k'. destruct Hk. by apply (list_elem_of_fmap_2 fst) in Hin.
Qed.
End policy_servers.

(** ** What a query meets

    How sing-box matches a rule's field against a query is its own and a parameter here; that it
    takes the first matching rule and else the final server is its documented evaluation. *)
Section queries.
Context {query : Type} (matches : match_field → query → bool).

Inductive outcome : Type := Refused | Asked (s : DnsServer) | Dangling.

Definition lookup_server (servers : list DnsServer) (tag : string) : option DnsServer :=
  List.find (fun s => String.eqb (ds_tag s) tag) servers.
Definition reach (servers : list DnsServer) (target : rule_target) : outcome :=
  match target with
  | ToReject => Refused
  | ToServer tag => match lookup_server servers tag with Some s => Asked s | None => Dangling end
  end.

(** The first matching rule decides, else the final server *)
Definition route (cfg : SingBoxDNSConfig) (q : query) : outcome :=
  reach (sc_servers cfg)
    (match List.find (fun r => matches (dn_match r) q) (sc_rules cfg) with
     | Some r => dn_target r
     | None => ToServer (sc_final cfg)
     end).

(** *** The policy's own decision *)
Inductive decision : Type := DReject | DStatic | DFakeIp | DChannel (c : DNSChannelName).

Definition fake (p : DNSPolicy) (allow_fakeip : bool) : bool := allow_fakeip && fakeip_policy_ready p.

(** The channel of last resort *)
Definition default_channel (p : DNSPolicy) : option DNSChannelName :=
  match List.find (fun c => match primary (dp_channels p) c with Some _ => true | None => false end) [CH_FINAL; CH_PROXY; CH_DIRECT] with
  | Some c => Some c
  | None => fst <$> List.find (fun kv => existsb rv_enabled (ch_resolvers kv.2)) (dp_channels p)
  end.

Definition rule_applies (q : query) (r : DNSRule) : bool :=
  match dns_rule_match_fields (dr_pattern r) with Ok field => matches field q | Err _ => false end.
Definition rule_decision (p : DNSPolicy) (allow_fakeip : bool) (r : DNSRule) : decision :=
  match dr_action r, dr_channel r with
  | USE_CHANNEL, Some c => if bool_decide (c = CH_PROXY) && fake p allow_fakeip then DFakeIp else DChannel c
  | _, _ => DReject
  end.
Definition active_rules (p : DNSPolicy) : list DNSRule :=
  if dp_rules_enabled p then List.filter dr_enabled (ordered_rules (dp_rules p)) else [].

Definition policy_decision (p : DNSPolicy) (allow_fakeip : bool) (q : query) : option decision :=
  if static_ip_enabled p && matches (MDomain (static_domains [] (dp_static_ips p))) q then Some DStatic
  else match List.find (rule_applies q) (active_rules p) with
  | Some r => Some (rule_decision p allow_fakeip r)
  | None =>
      if fake p allow_fakeip && matches (MQueryType ["A"; "AAAA"]) q then Some DFakeIp
      else DChannel <$> default_channel p
  end.

(** A channel is asked through its first enabled resolver, with that resolver's host and the
    outbound of the channel *)
Definition asks_channel (proxy : string) (boot : option string) (p : DNSPolicy) (c : DNSChannelName) (o : outcome) : Prop :=
  ∃ x s, primary (dp_channels p) c = Some x ∧ o = Asked s ∧ ds_tag s = server_tag c x.1 ∧ serves proxy boot c x.2 s.

Definition agrees (proxy : string) (boot : option string) (p : DNSPolicy) (d : option decision) (o : outcome) : Prop :=
  match d with
  | Some DReject => o = Refused
  | Some DStatic => o = Asked (static_ip_server p)
  | Some DFakeIp => o = Asked (fakeip_server p)
  | Some (DChannel c) => asks_channel proxy boot p c o
  | None => False
  end.

(** *** The generated parts *)
Record built (p : DNSPolicy) (proxy : string) (allow : bool) (boot : option string) (cfg : SingBoxDNSConfig) (ss : list DnsServer) : Prop := {
  bt_boot : planned_bootstrap_tag p = Ok boot;
  bt_mode : dp_mode p ≠ DNS_OFF;
  bt_made : Forall2 (fun x s => made proxy boot x.1 x.2 s) (slots (dp_channels p)) ss;
  bt_some : ss ≠ [];
  bt_servers : sc_servers cfg = (if static_ip_enabled p then [static_ip_server p] else []) ++ ss
                 ++ (if fakeip_enabled p (channel_tags (dp_channels p)) allow then [fakeip_server p] else []);
  bt_rules : build_channel_rules p (channel_tags (dp_channels p)) allow = Ok (sc_rules cfg);
  bt_final : final_server (channel_tags (dp_channels p)) = Ok (sc_final cfg);
  bt_channels : sc_channel_servers cfg = channel_tags (dp_channels p)
}.

Lemma build_built p proxy allow cfg :
  build_singbox_dns_config p proxy allow = Some (Ok (Some cfg)) → ∃ boot ss, built p proxy allow boot cfg ss.
Proof.
  unfold build_singbox_dns_config. case_bool_decide as Hm; [done|].
  destruct (planned_bootstrap_tag p) as [boot|] eqn:Eb; [|done]. cbn [mbind res_bind].
  destruct (all_servers proxy boot (dp_channels p)) as [[ss cs]|] eqn:Ea; [|done].
  destruct (all_servers_made _ _ _ _ _ Ea) as [Hmade ->]. intros Hb. exists boot, ss.
  destruct ss as [|s0 ss0]; [done|]. destruct (validate_domain_resolver_graph _) as [[u|e]|]; try done.
  destruct (build_channel_rules _ _ _) as [rules|] eqn:Er; [|done]. cbn [mbind res_bind] in Hb.
  destruct (final_server _) as [final|] eqn:Ef; [|done]. injection Hb as <-. by constructor.
Qed.

Lemma fakeip_enabled_fake p allow : NoDup (map fst (dp_channels p)) →
  fakeip_enabled p (channel_tags (dp_channels p)) allow = fake p allow.
Proof.
  intros Hn. unfold fakeip_enabled, fake. destruct allow; [|done]. cbn. destruct (fakeip_policy_ready p) eqn:E; [|done]. cbn.
  unfold fakeip_policy_ready, channel_get in E. apply andb_true_iff in E as [_ E].
  destruct (List.find _ (dp_channels p)) as [[k c]|] eqn:Ef; [|done]. cbn in E.
  apply List_find_elem_of in Ef as [Hin Hk%bool_decide_eq_true]. cbn in Hk. subst k.
  apply existsb_exists. unfold channel_tags. eexists. split.
  - apply in_map_iff. exists (CH_PROXY, c). split; [reflexivity|]. apply filter_In. split; [by apply list_elem_of_In|done].
  - by apply bool_decide_eq_true.
Qed.

Lemma lookup_unique servers s : NoDup (map ds_tag servers) → s ∈ servers → lookup_server servers (ds_tag s) = Some s.
Proof.
  unfold lookup_server. induction servers as [|x servers IH]; cbn [map List.find]; [by intros _ ?%not_elem_of_nil|].
  intros [Hx Hn]%NoDup_cons [->|Hs]%elem_of_cons; [by rewrite String.eqb_refl|].
  destruct (String.eqb_spec (ds_tag x) (ds_tag s)) as [E|]; [|by apply IH]. destruct Hx. rewrite E. by apply list_elem_of_fmap_2.
Qed.

Section built.
Context (p : DNSPolicy) (proxy : string) (allow : bool) (boot : option string) (cfg : SingBoxDNSConfig) (ss : list DnsServer).
Context (Hb : built p proxy allow boot cfg ss) (Hkeys : NoDup (map fst (dp_channels p))).

Lemma servers_nodup : NoDup (map ds_tag (sc_servers cfg)).
Proof.
  rewrite (bt_servers _ _ _ _ _ _ Hb), !map_app, (made_tags _ _ _ _ (bt_made _ _ _ _ _ _ Hb)).
  assert (Hsp : ∀ t, t ∈ map slot_tag (slots (dp_channels p)) → t ≠ FAKEIP_SERVER_TAG ∧ t ≠ STATIC_IP_SERVER_TAG).
  { intros t (x & -> & _)%list_elem_of_fmap. destruct (server_tag_special x.1 x.2.1) as (? & ? & _). done. }
  apply NoDup_app. split; [destruct (static_ip_enabled p); [apply NoDup_singleton|constructor]|]. split.
  - intros t Ht [Hx|Hx]%elem_of_app; (destruct (static_ip_enabled p); [|by apply not_elem_of_nil in Ht]);
      apply list_elem_of_singleton in Ht as ->; cbn in Hx; [by apply Hsp in Hx as [_ ?]|].
    destruct (fakeip_enabled _ _ _); cbn in Hx; [by apply list_elem_of_singleton in Hx|by apply not_elem_of_nil in Hx].
  - apply NoDup_app. split; [by apply slots_nodup|]. split; [|destruct (fakeip_enabled _ _ _); [apply NoDup_singleton|constructor]].
    intros t Ht Hx. destruct (fakeip_enabled _ _ _); cbn in Hx; [|by apply not_elem_of_nil in Hx].
    apply list_elem_of_singleton in Hx as ->. by apply Hsp in Ht as [? _].
Qed.

Lemma lookup_of s : s ∈ sc_servers cfg → lookup_server (sc_servers cfg) (ds_tag s) = Some s.
Proof. apply lookup_unique, servers_nodup. Qed.

Lemma primary_slot c x : primary (dp_channels p) c = Some x → (c, x) ∈ slots (dp_channels p).
Proof.
  unfold primary. destruct (List.find _ _) as [[k ch]|] eqn:Ef; [|done]. apply List_find_elem_of in Ef as [Hin Hk%bool_decide_eq_true].
  cbn in Hk |- *. subst k. intros Hx. apply slots_elem. exists ch. split; [done|]. cbn.
  destruct (enabled_from 0 (ch_resolvers ch)); [done|]. injection Hx as ->. set_solver.
Qed.

Lemma reach_primary c x : primary (dp_channels p) c = Some x →
  asks_channel proxy boot p c (reach (sc_servers cfg) (ToServer (server_tag c x.1))).
Proof.
  intros Hx. destruct (Forall2_elem_l _ _ _ _ (bt_made _ _ _ _ _ _ Hb) (primary_slot c x Hx)) as (s & Hs & Hm).
  destruct (made_serves _ _ _ _ _ Hm) as [Ht Hsv]. cbn in Ht. exists x, s. split; [done|]. split; [|done].
  unfold reach. rewrite <- Ht, lookup_of; [done|]. rewrite (bt_servers _ _ _ _ _ _ Hb). set_solver.
Qed.

Lemma reach_static : static_ip_enabled p = true → reach (sc_servers cfg) (ToServer STATIC_IP_SERVER_TAG) = Asked (static_ip_server p).
Proof.
  intros E. unfold reach. change STATIC_IP_SERVER_TAG with (ds_tag (static_ip_server p)). rewrite lookup_of; [done|].
  rewrite (bt_servers _ _ _ _ _ _ Hb), E. set_solver.
Qed.
Lemma reach_fake : fake p allow = true → reach (sc_servers cfg) (ToServer FAKEIP_SERVER_TAG) = Asked (fakeip_server p).
Proof.
  intros E. unfold reach. change FAKEIP_SERVER_TAG with (ds_tag (fakeip_server p)). rewrite lookup_of; [done|].
  rewrite (bt_servers _ _ _ _ _ _ Hb), fakeip_enabled_fake, E by done. set_solver.
Qed.

Lemma final_default : ∃ c x, default_channel p = Some c ∧ primary (dp_channels p) c = Some x ∧ sc_final cfg = server_tag c x.1.
Proof.
  pose proof (bt_final _ _ _ _ _ _ Hb) as Hf. unfold final_server in Hf. rewrite !first_tag_primary in Hf by done.
  unfold default_channel. cbn [List.find].
  destruct (primary (dp_channels p) CH_FINAL) as [x|] eqn:E1; [injection Hf as Hf; eauto 10|]. cbn [fmap option_fmap option_map] in Hf.
  destruct (primary (dp_channels p) CH_PROXY) as [x|] eqn:E2; [injection Hf as Hf; eauto 10|]. cbn [fmap option_fmap option_map] in Hf.
  destruct (primary (dp_channels p) CH_DIRECT) as [x|] eqn:E3; [injection Hf as Hf; eauto 10|]. cbn [fmap option_fmap option_map] in Hf.
  unfold channel_tags in Hf. clear E1 E2 E3. pose proof Hkeys as Hn0. revert Hn0 Hf. generalize (dp_channels p).
  intros chans. induction chans as [|[k c] chans IH]; [done|]. cbn [map fst List.filter List.find snd]. intros [Hk Hn]%NoDup_cons.
  pose proof (enabled_from_nil 0 (ch_resolvers c)) as He. destruct (existsb rv_enabled (ch_resolvers c)).
  - cbn [map fst snd]. destruct (enabled_from 0 (ch_resolvers c)) as [|x xs] eqn:Ex; [discriminate (proj1 He eq_refl)|].
    cbn [map]. intros [= <-]. exists k, x. split; [done|]. split; [|done]. unfold primary. cbn [List.find fst].
    rewrite bool_decide_true by done. cbn [snd]. by rewrite Ex.
  - intros Hf. destruct (IH Hn Hf) as (c' & x & Hc & Hx & Ht). exists c', x. split; [done|]. split; [|done].
    unfold primary in Hx |- *. cbn [List.find fst]. case_bool_decide as E; [subst k|done]. cbn [snd].
    destruct (List.find (fun kv => bool_decide (kv.1 = c')) chans) as [[k' ch']|] eqn:Ef; [|done]. apply List_find_elem_of in Ef as [Hin Hk'%bool_decide_eq_true].
    cbn in Hk'. subst k'. destruct Hk. by apply (list_elem_of_fmap_2 fst) in Hin.
Qed.

Lemma diversion_agrees r d : dns_diversion_rule r (channel_tags (dp_channels p)) p allow = Ok d →
  agrees proxy boot p (Some (rule_decision p allow r)) (reach (sc_servers cfg) (dn_target d))
  ∧ dns_rule_match_fields (dr_pattern r) = Ok (dn_match d).
Proof.
  intros Hd. unfold dns_diversion_rule in Hd. destruct (dns_rule_match_fields (dr_pattern r)) as [field|]; [|done]. cbn [mbind res_bind] in Hd.
  unfold rule_decision. destruct (dr_action r); [|injection Hd as <-; by split].
  destruct (dr_channel r) as [c|]; [|done]. unfold dns_rule_channel_server in Hd. rewrite fakeip_enabled_fake in Hd by done.
  destruct (bool_decide (c = CH_PROXY) && fake p allow) eqn:Ef.
  - injection Hd as <-. split; [|done]. apply andb_true_iff in Ef as [_ Ef]. by apply reach_fake.
  - rewrite first_tag_primary in Hd by done. destruct (primary (dp_channels p) c) as [x|] eqn:Ex; [|done]. injection Hd as <-.
    split; [|done]. by apply reach_primary.
Qed.

Lemma find_diversion q rs ds :
  Forall2 (fun r d => dns_diversion_rule r (channel_tags (dp_channels p)) p allow = Ok d) rs ds →
  match List.find (rule_applies q) rs with
  | Some r => ∃ d, List.find (fun d => matches (dn_match d) q) ds = Some d ∧ r ∈ rs
                   ∧ dns_diversion_rule r (channel_tags (dp_channels p)) p allow = Ok d
  | None => List.find (fun d => matches (dn_match d) q) ds = None
  end.
Proof.
  induction 1 as [|r d rs ds Hd _ IH]; [done|]. cbn [List.find]. destruct (diversion_agrees r d Hd) as [_ Hm].
  unfold rule_applies at 1. rewrite Hm. destruct (matches (dn_match d) q); [exists d; set_solver|].
  destruct (List.find (rule_applies q) rs) as [r'|]; [|done]. destruct IH as (d' & ? & ? & ?). exists d'. set_solver.
Qed.

Lemma built_refines q : agrees proxy boot p (policy_decision p allow q) (route cfg q).
Proof.
  unfold route, policy_decision. pose proof (bt_rules _ _ _ _ _ _ Hb) as Hr. unfold build_channel_rules in Hr.
  destruct (dns_diversion_rules p _ allow) as [ds|] eqn:Ed; [|done]. cbn [mbind res_bind] in Hr. injection Hr as <-.
  assert (Hds : Forall2 (fun r d => dns_diversion_rule r (channel_tags (dp_channels p)) p allow = Ok d) (active_rules p) ds).
  { unfold dns_diversion_rules in Ed. rewrite bool_decide_false in Ed by apply (bt_mode _ _ _ _ _ _ Hb). cbn [orb] in Ed. unfold active_rules.
    destruct (dp_rules_enabled p); cbn [negb] in Ed; [by apply map_res_ok_inv in Ed|]. injection Ed as <-. constructor. }
  apply (find_diversion q) in Hds. rewrite fakeip_enabled_fake by done. rewrite !find_app.
  destruct (static_ip_enabled p) eqn:Es; cbn [andb List.find dn_match static_ip_rule].
  1: destruct (matches (MDomain _) q); [by apply reach_static|].
  all: destruct (List.find (rule_applies q) (active_rules p)) as [r|]; [destruct Hds as (d & -> & _ & Hd); by apply diversion_agrees|];
    rewrite Hds; destruct (fake p allow) eqn:Ef; cbn [andb List.find dn_match];
    [destruct (matches (MQueryType _) q); [by apply reach_fake|]|];
    destruct final_default as (c & x & -> & Hx & ->); by apply reach_primary.
Qed.
End built.
End queries.

(** ** The generated configuration implements the policy *)

(** C10: whatever sing-box's matching is, every query meets in the generated configuration what
    the policy decides for it: a static answer first, then the first applicable rule by
    priority, then FakeIP where it is allowed, else the default channel; a channel is asked at
    the host of its first enabled resolver, through the proxy outbound exactly for the proxy
    channel, and no rule leads to a server that does not exist. *)
Theorem dns_config_refines_policy {query : Type} (matches : match_field → query → bool) (p : DNSPolicy) (proxy : string)
    (allow_fakeip : bool) (cfg : SingBoxDNSConfig) :
  NoDup (map fst (dp_channels p)) →
  build_singbox_dns_config p proxy allow_fakeip = Some (Ok (Some cfg)) →
  ∃ boot, planned_bootstrap_tag p = Ok boot
    ∧ ∀ q, agrees proxy boot p (policy_decision matches p allow_fakeip q) (route matches cfg q).
Proof.
  intros Hk Hc. destruct (build_built _ _ _ _ Hc) as (boot & ss & Hb). exists boot. split; [apply (bt_boot _ _ _ _ _ _ Hb)|].
  intros q. by eapply built_refines.
Qed.

(** C11: when the proxy channel has a resolver, the final channel has none, and every active rule
    rejects or names the proxy channel, no query leaves outside the tunnel: it is refused, or
    answered locally from the static table or the FakeIP range, or sent through the proxy
    outbound. *)
Theorem dns_queries_stay_in_tunnel {query : Type} (matches : match_field → query → bool) (p : DNSPolicy) (proxy : string)
    (allow_fakeip : bool) (cfg : SingBoxDNSConfig) :
  NoDup (map fst (dp_channels p)) →
  build_singbox_dns_config p proxy allow_fakeip = Some (Ok (Some cfg)) →
  primary (dp_channels p) CH_PROXY ≠ None → primary (dp_channels p) CH_FINAL = None →
  Forall (fun r => dr_action r = DNS_REJECT ∨ dr_channel r = Some CH_PROXY) (active_rules p) →
  ∀ q, route matches cfg q = Refused
       ∨ ∃ s, route matches cfg q = Asked s
              ∧ (s = static_ip_server p ∨ s = fakeip_server p ∨ ds_detour s = Some proxy).
Proof.
  intros Hk Hc Hp Hf Hr q. destruct (build_built _ _ _ _ Hc) as (boot & ss & Hb).
  pose proof (built_refines matches p proxy allow_fakeip boot cfg ss Hb Hk q) as Ha. revert Ha.
  assert (Hd : ∃ d, policy_decision matches p allow_fakeip q = Some d ∧ ∀ c, d = DChannel c → c = CH_PROXY).
  { unfold policy_decision. destruct (_ && _); [by eexists|]. destruct (List.find _ (active_rules p)) as [r|] eqn:Er.
    - apply List_find_elem_of in Er as [Hin _]. rewrite Forall_forall in Hr. eexists. split; [done|]. unfold rule_decision. intros c.
      destruct (Hr r Hin) as [-> | ->]; [done|]. destruct (dr_action r); [|done]. by destruct (_ && _); [|intros [= <-]].
    - destruct (_ && _); [by eexists|]. unfold default_channel. cbn [List.find]. rewrite Hf.
      destruct (primary (dp_channels p) CH_PROXY); [|done]. eexists. split; [done|]. by intros c [= <-]. }
  destruct Hd as (d & -> & Hd). destruct d as [| | |c]; cbn [agrees]; [by left|right; by eauto..|].
  intros (x & s & _ & -> & _ & parsed & _ & Hs & _). right. exists s. split; [done|]. right. right.
  rewrite (Hd c eq_refl) in Hs. by destruct Hs.
Qed.

(** ** The generation succeeds *)

Section total.
Context `{PyStr, PyRegex}.
#[local] Arguments parse_resolver_uri : simpl never.

Lemma resolver_ok_parse r : resolver_ok r → ∃ parsed, parse_resolver_uri (rv_uri r) = Ok parsed.
Proof.
  unfold resolver_ok, Resolver_make. destruct (negb _); [done|]. destruct (parse_resolver_uri (strip (rv_uri r))) as [parsed|] eqn:E; [|done].
  cbn [mbind res_bind]. intros [= Hr]. apply (f_equal rv_uri) in Hr. cbn in Hr. rewrite Hr in E. by eauto.
Qed.

Lemma slot_ok p x : policy_ok p → x ∈ slots (dp_channels p) → ∃ parsed, parse_resolver_uri (rv_uri x.2.2) = Ok parsed.
Proof.
  intros Hp (c & Hc & Hx)%slots_elem. pose proof (po_channels _ Hp) as Hok. rewrite Forall_forall in Hok.
  destruct (Hok _ Hc) as [Hr _]. apply enabled_from_bound in Hx as (_ & _ & Hx). rewrite Forall_forall in Hr. by apply resolver_ok_parse, Hr.
Qed.

(** The bootstrap server is one of the servers and needs none itself *)
Lemma bootstrap_from_slot i rs b : bootstrap_from i rs = Ok (Some b) →
  ∃ x parsed, x ∈ enabled_from i rs ∧ b = server_tag CH_BOOTSTRAP x.1 ∧ parse_resolver_uri (rv_uri x.2) = Ok parsed
              ∧ resolver_needs_domain_resolver parsed = false.
Proof.
  revert i. induction rs as [|r rs IH]; intros i; cbn [bootstrap_from enabled_from]; [done|].
  destruct (rv_enabled r); cbn [negb]; [|intros Hb; destruct (IH _ Hb) as (x & parsed & ? & ?); set_solver].
  destruct (parse_resolver_uri (rv_uri r)) as [parsed|] eqn:Ep; [|done]. cbn [mbind res_bind].
  destruct (resolver_needs_domain_resolver parsed) eqn:En; cbn [negb].
  - intros Hb. destruct (IH _ Hb) as (x & parsed' & ? & ?). exists x, parsed'. set_solver.
  - intros [= <-]. exists (i, r), parsed. set_solver.
Qed.
Lemma bootstrap_slot p b : planned_bootstrap_tag p = Ok (Some b) →
  ∃ x parsed, (CH_BOOTSTRAP, x) ∈ slots (dp_channels p) ∧ b = server_tag CH_BOOTSTRAP x.1
              ∧ parse_resolver_uri (rv_uri x.2) = Ok parsed ∧ resolver_needs_domain_resolver parsed = false.
Proof.
  unfold planned_bootstrap_tag, channel_get. destruct (List.find _ _) as [[k c]|] eqn:Ef; [|done].
  apply List_find_elem_of in Ef as [Hin Hk%bool_decide_eq_true]. cbn in Hk |- *. subst k. intros Hb.
  destruct (bootstrap_from_slot _ _ _ Hb) as (x & parsed & Hx & ?). exists x, parsed. split; [|done]. apply slots_elem. by exists c.
Qed.

(** A policy is usable when hostnames have a bootstrap resolver, the channels of active rules
    have a resolver, and the types of their patterns are written without white space *)
Record usable (p : DNSPolicy) : Prop := {
  us_policy : policy_ok p;
  us_keys : NoDup (map fst (dp_channels p));
  us_hosts : ∀ x parsed, x ∈ slots (dp_channels p) → parse_resolver_uri (rv_uri x.2.2) = Ok parsed →
             resolver_needs_domain_resolver parsed = true → ∃ b, planned_bootstrap_tag p = Ok (Some b);
  us_types : Forall (fun r => strip (partition_on ":" (dr_pattern r)).1.1 = (partition_on ":" (dr_pattern r)).1.1) (active_rules p);
  us_channels : Forall (fun r => ∀ c, dr_action r = USE_CHANNEL → dr_channel r = Some c → primary (dp_channels p) c ≠ None) (active_rules p)
}.

Lemma bootstrap_from_total i rs : Forall (fun r => ∃ parsed, parse_resolver_uri (rv_uri r) = Ok parsed) rs → ∃ b, bootstrap_from i rs = Ok b.
Proof.
  intros Hf. revert i. induction Hf as [|r rs [parsed Hr] _ IH]; intros i; cbn [bootstrap_from]; [by eexists|].
  destruct (negb (rv_enabled r)); [apply IH|]. rewrite Hr. cbn [mbind res_bind]. destruct (negb _); [by eexists|apply IH].
Qed.
Lemma bootstrap_total p : policy_ok p → ∃ b, planned_bootstrap_tag p = Ok b.
Proof.
  intros Hp. unfold planned_bootstrap_tag, channel_get. destruct (List.find _ _) as [[k c]|] eqn:Ef; [|by eexists]. cbn.
  apply List_find_elem_of in Ef as [Hin _]. apply bootstrap_from_total. pose proof (po_channels _ Hp) as Hok. rewrite Forall_forall in Hok.
  eapply Forall_impl; [apply (Hok _ Hin)|]. apply resolver_ok_parse.
Qed.

Lemma made_total proxy boot name x parsed :
  parse_resolver_uri (rv_uri x.2) = Ok parsed → (resolver_needs_domain_resolver parsed = true → boot ≠ None) → ∃ s, made proxy boot name x s.
Proof.
  intros Hp Hb. unfold made, resolver_to_singbox_server. rewrite Hp. cbn [mbind res_bind].
  assert (Hs : ∃ s, parsed_resolver_to_server parsed (server_tag name x.1) = Ok s).
  { pose proof (parse_host _ _ Hp) as Hh. unfold parsed_resolver_to_server, network_server.
    destruct (pr_host parsed); [destruct (pr_transport parsed); by eexists|].
    destruct (pr_transport parsed); try (by eexists); exfalso; set_solver. }
  destruct Hs as [s ->]. cbn [mbind res_bind]. destruct (resolver_needs_domain_resolver parsed); [|by eexists].
  destruct boot; [by eexists|by destruct Hb].
Qed.

Lemma channel_servers_total proxy boot name i rs :
  (∀ x, x ∈ enabled_from i rs → ∃ s, made proxy boot name x s) → ∃ ss, channel_servers_from name proxy boot i rs = Ok ss.
Proof.
  revert i. induction rs as [|r rs IH]; intros i Hm; cbn [channel_servers_from enabled_from] in *; [by eexists|].
  destruct (rv_enabled r); cbn [negb]; [|by apply IH]. destruct (Hm (i, r)) as [s Hs]; [set_solver|]. unfold made in Hs. cbn in Hs. rewrite Hs.
  destruct (IH (S i)) as [ss Hss]; [intros x Hx; apply Hm; set_solver|]. cbn [mbind res_bind]. rewrite Hss. by eexists.
Qed.
Lemma all_servers_total proxy boot channels :
  (∀ x, x ∈ slots channels → ∃ s, made proxy boot x.1 x.2 s) → ∃ r, all_servers proxy boot channels = Ok r.
Proof.
  induction channels as [|[name c] channels IH]; intros Hm; cbn [all_servers]; [by eexists|].
  destruct (channel_servers_total proxy boot name 0 (ch_resolvers c)) as [ss Hss].
  { intros x Hx. apply (Hm (name, x)). apply slots_elem. exists c. cbn. split; [set_solver|done]. }
  rewrite Hss. destruct IH as [[more tags] Ha]; [|cbn [mbind res_bind]; rewrite Ha; by eexists].
  intros x (c' & Hc' & Hx)%slots_elem. apply Hm, slots_elem. exists c'. split; [set_solver|done].
Qed.

(** The check of the generated servers never fails *)
Lemma generated_graph_ok p proxy boot ss extra1 extra2 :
  NoDup (map ds_tag (extra1 ++ ss ++ extra2)) → Forall (fun s => ds_domain_resolver s = None) (extra1 ++ extra2) →
  planned_bootstrap_tag p = Ok boot →
  Forall2 (fun x s => made proxy boot x.1 x.2 s) (slots (dp_channels p)) ss →
  validate_domain_resolver_graph (extra1 ++ ss ++ extra2) = Some (Ok tt).
Proof.
  intros Hn He Hb Hm. set (all := extra1 ++ ss ++ extra2) in *. rewrite Forall_app, !Forall_forall in He.
  assert (Hdep : ∀ s d, s ∈ all → ds_domain_resolver s = Some d → boot = Some d ∧ ds_tag s ≠ "").
  { intros s d Hs Hd. unfold all in Hs. rewrite !elem_of_app in Hs. destruct Hs as [Hs|[Hs|Hs]];
      [by rewrite (proj1 He s Hs) in Hd| |by rewrite (proj2 He s Hs) in Hd].
    destruct (Forall2_elem_r _ _ _ _ Hm Hs) as (x & _ & Hx). destruct (made_serves _ _ _ _ _ Hx) as [Ht (parsed & _ & Hsv & _)].
    rewrite (sv_dependency _ _ _ _ _ Hsv) in Hd. split; [by destruct (resolver_needs_domain_resolver parsed)|].
    rewrite Ht. by destruct (server_tag_special x.1 x.2.1) as (_ & _ & ?). }
  assert (Hboot : ∀ d, boot = Some d → d ≠ "" ∧ ∃ s, s ∈ all ∧ ds_tag s = d ∧ ds_domain_resolver s = None).
  { intros d ->. destruct (bootstrap_slot p d Hb) as (x & parsed & Hx & -> & Hp & Hd). split; [apply server_tag_special|].
    destruct (Forall2_elem_l _ _ _ _ Hm Hx) as (s & Hs & Hms). destruct (made_serves _ _ _ _ _ Hms) as [Ht (parsed' & Hp' & Hsv & _)].
    exists s. split; [unfold all; set_solver|]. split; [exact Ht|]. cbn in Hp'. rewrite (sv_dependency _ _ _ _ _ Hsv).
    by replace parsed' with parsed by congruence; rewrite Hd. }
  destruct (graph_check_spec all Hn) as (r & -> & Hr). f_equal. apply Hr. split.
  - apply Forall_forall. intros s Hs d Hd. destruct (Hdep s d Hs Hd) as [Hd' Ht]. destruct (Hboot d Hd') as (Hne & s' & Hs' & <- & _).
    split; [done|]. split; [done|]. by apply list_elem_of_fmap_2.
  - intros t. destruct (server_dep all t) as [d|] eqn:Ed; [|by constructor 1]. econstructor 2; [exact Ed|]. constructor 1.
    unfold server_dep in Ed. destruct (List.find _ all) as [s|] eqn:Ef; [|done]. apply List_find_elem_of in Ef as [Hs _].
    destruct (Hdep s d Hs Ed) as [Hd' _]. destruct (Hboot d Hd') as (_ & s' & Hs' & <- & Hnone).
    unfold server_dep. pose proof (lookup_unique all s' Hn Hs') as Hl. unfold lookup_server in Hl. by rewrite Hl.
Qed.

Lemma rule_ok_pattern r : rule_ok r → validate_dns_rule_pattern (dr_pattern r) = Ok tt.
Proof.
  unfold rule_ok, DNSRule_make. destruct (match _ with PNone => _ | _ => _ end) as [ch|]; [|done]. cbn [mbind res_bind].
  destruct (negb _); [done|]. destruct (negb _); [done|]. intros Hr.
  assert (Hx : ∃ u, validate_dns_rule_pattern (strip (dr_pattern r)) = Ok u ∧ strip (dr_pattern r) = dr_pattern r).
  { destruct (dr_action r), ch; try done; destruct (validate_dns_rule_pattern _) as [u|]; try done; cbn [mbind res_bind] in Hr;
      injection Hr as Hr; exists u; (split; [done|]); rewrite <- Hr at 2; done. }
  destruct Hx as ([] & Hx & Hs). by rewrite Hs in Hx.
Qed.

Lemma match_fields_total r : rule_ok r →
  strip (partition_on ":" (dr_pattern r)).1.1 = (partition_on ":" (dr_pattern r)).1.1 → ∃ f, dns_rule_match_fields (dr_pattern r) = Ok f.
Proof.
  intros Hr%rule_ok_pattern Hs. unfold validate_dns_rule_pattern in Hr. unfold dns_rule_match_fields.
  pose proof (partition_found ":" (dr_pattern r)) as Hf. destruct (contains ":" (dr_pattern r)); [|done]. cbn [negb] in Hr.
  destruct (partition_on ":" (dr_pattern r)) as [[pt found] v]. cbn [fst snd] in Hs, Hf. subst found. rewrite Hs in Hr. cbn [negb].
  destruct (str_in pt DNS_RULE_PATTERN_TYPES) eqn:Et; [|done]. apply str_in_spec in Et. clear Hr Hs.
  unfold DNS_RULE_PATTERN_TYPES in Et. rewrite !elem_of_cons in Et.
  destruct Et as [->|[->|[->|[->|[->|[->|Et]]]]]]; try (eexists; reflexivity). by apply not_elem_of_nil in Et.
Qed.

Lemma rules_total p allow : usable p → dp_mode p ≠ DNS_OFF → ∃ rules, build_channel_rules p (channel_tags (dp_channels p)) allow = Ok rules.
Proof.
  intros [Hp Hk _ Ht Hc] Hm. unfold build_channel_rules.
  assert (Hd : ∃ ds, dns_diversion_rules p (channel_tags (dp_channels p)) allow = Ok ds); [|by destruct Hd as [ds ->]; eexists].
  unfold dns_diversion_rules. rewrite bool_decide_false by done. cbn [orb]. unfold active_rules in Ht, Hc.
  destruct (dp_rules_enabled p); [|by eexists]. cbn [negb].
  assert (Hok : Forall rule_ok (List.filter dr_enabled (ordered_rules (dp_rules p)))).
  { apply Forall_forall. intros r Hr. apply List_filter_elem_of in Hr as [Hr _]. pose proof (po_rules _ Hp) as Hall. rewrite Forall_forall in Hall.
    apply Hall. unfold ordered_rules in Hr. apply list_elem_of_fmap in Hr as ([i r'] & -> & Hr). rewrite py_sorted_perm in Hr.
    apply list_elem_of_In, in_combine_r in Hr. by apply list_elem_of_In. }
  revert Hok Ht Hc. generalize (List.filter dr_enabled (ordered_rules (dp_rules p))). intros rs. induction rs as [|r rs IH]; [by eexists|].
  intros [Hr Hok]%Forall_cons [Hs Ht]%Forall_cons [Hch Hc]%Forall_cons. cbn [map_res]. destruct (IH Hok Ht Hc) as [ds ->].
  assert (Hdr : ∃ d, dns_diversion_rule r (channel_tags (dp_channels p)) p allow = Ok d); [|by destruct Hdr as [d ->]; eexists].
  unfold dns_diversion_rule. destruct (match_fields_total r Hr Hs) as [f ->]. cbn [mbind res_bind].
  destruct (dr_action r) eqn:Ea; [|by eexists]. destruct (dr_channel r) as [c|] eqn:Ec.
  - unfold dns_rule_channel_server. destruct (_ && _); [by eexists|]. rewrite first_tag_primary by done.
    specialize (Hch c eq_refl eq_refl). destruct (primary (dp_channels p) c); [by eexists|done].
  - exfalso. unfold rule_ok, DNSRule_make in Hr. rewrite Ec, Ea in Hr. cbn [mbind res_bind] in Hr. by repeat case_match.
Qed.

Lemma final_total channels : slots channels ≠ [] → ∃ final, final_server (channel_tags channels) = Ok final.
Proof.
  intros Hs. unfold final_server. set (cs := channel_tags channels).
  destruct (first_tag cs CH_FINAL), (first_tag cs CH_PROXY), (first_tag cs CH_DIRECT); try (by eexists). subst cs.
  unfold channel_tags. induction channels as [|[k c] channels IH]; [done|]. cbn [List.filter snd].
  pose proof (enabled_from_nil 0 (ch_resolvers c)) as He. destruct (existsb rv_enabled (ch_resolvers c)).
  - cbn [map fst snd]. destruct (enabled_from 0 (ch_resolvers c)); [discriminate (proj1 He eq_refl)|]. by eexists.
  - apply IH. intros E. apply Hs. unfold slots in *. cbn [flat_map snd]. by rewrite (proj2 He eq_refl), E.
Qed.

(** C34: for every policy that was read from a document, whose hostnames have a bootstrap
    resolver, whose active rules name channels with a resolver and write the types of their
    patterns without white space, the generation succeeds, and the check of the dependencies
    never refuses it. *)
Theorem dns_generation_succeeds (p : DNSPolicy) (proxy : string) (allow_fakeip : bool) :
  usable p → ∃ cfg, build_singbox_dns_config p proxy allow_fakeip = Some (Ok cfg)
                    ∧ (cfg = None ↔ dp_mode p = DNS_OFF ∨ slots (dp_channels p) = []).
Proof.
  intros Hu. pose proof Hu as [Hp Hk Hh _ _]. unfold build_singbox_dns_config.
  case_bool_decide as Hm; [exists None; split; [done|tauto]|].
  destruct (bootstrap_total p Hp) as [boot Hb]. rewrite Hb. cbn [mbind res_bind].
  destruct (all_servers_total proxy boot (dp_channels p)) as [[ss cs] Ha].
  { intros x Hx. destruct (slot_ok p x Hp Hx) as [parsed Hpx]. eapply made_total; [exact Hpx|]. intros Hn.
    destruct (Hh x parsed Hx Hpx Hn) as [b Hb']. congruence. }
  rewrite Ha. destruct (all_servers_made _ _ _ _ _ Ha) as [Hmade ->].
  destruct ss as [|s0 ss0] eqn:Ess.
  { exists None. split; [done|]. inversion Hmade; subst. split; [right; congruence|done]. }
  rewrite <- Ess in *. assert (Hne : slots (dp_channels p) ≠ []) by (intros E; rewrite E in Hmade; inversion Hmade; congruence).
  destruct (rules_total p allow_fakeip Hu Hm) as [rules Hrules].
  destruct (final_total _ Hne) as [final Hfin].
  set (all := (if static_ip_enabled p then [static_ip_server p] else []) ++ ss
              ++ (if fakeip_enabled p (channel_tags (dp_channels p)) allow_fakeip then [fakeip_server p] else [])) in *.
  assert (Hbt : built p proxy allow_fakeip boot (Build_SingBoxDNSConfig all rules final (channel_tags (dp_channels p)) None None) ss) by (constructor; try done; congruence).
  assert (Hg : validate_domain_resolver_graph all = Some (Ok tt)).
  { apply (generated_graph_ok p proxy boot); [by apply (servers_nodup _ _ _ _ _ _ Hbt)| |done..].
    apply Forall_app. split; [destruct (static_ip_enabled p)|destruct (fakeip_enabled _ _ _)]; repeat constructor. }
  destruct ss as [|s1 ss1]; [done|]. rewrite Hg, Hrules, Hfin. eexists. split; [reflexivity|]. split; [done|]. tauto.
Qed.
End total.

(** a rule whose pattern has white space before the colon passes the validation of the
    policy document, which strips the type, and makes the generation raise, which does not. *)
Theorem spaced_pattern_type_breaks_generation `{PyStr, PyRegex} (proxy : string) (allow_fakeip : bool) :
  let data := [("channels", PDict [("proxy", PDict [("resolvers", PList [PStr "udp://1.1.1.1"])])]);
               ("rules", PList [PDict [("id", PStr "ads"); ("pattern", PStr "domain : ads.example"); ("action", PStr "reject")]]);
               ("rules_enabled", PBool true)] in
  ∃ p, DNSPolicy_from_dict data = Ok p
       ∧ build_singbox_dns_config p proxy allow_fakeip = Some (Err (Exn ValueError "unsupported dns rule pattern type")).
Proof. intros data. eexists. split; [vm_compute; reflexivity|]. destruct allow_fakeip; vm_compute; reflexivity. Qed.

(** ** Witnesses *)
Module DemoConfig.
Import DnsPolicy.Demo.
#[local] Existing Instance Demo.str.
#[local] Existing Instance Demo.regex.

(** Queries by name, for all record types *)
Definition matches (f : match_field) (q : string) : bool :=
  match f with
  | MDomain l => str_in q l
  | MDomainSuffix l => existsb (fun d => endswith d q) l
  | MQueryType _ => true
  | _ => false
  end.

Definition demo_policy : DNSPolicy :=
  match DNSPolicy_from_dict Demo.document with Ok p => p | Err _ => default_DNSPolicy end.
Definition demo_config : SingBoxDNSConfig :=
  match build_singbox_dns_config demo_policy "vpn" true with
  | Some (Ok (Some cfg)) => cfg
  | _ => {| sc_servers := []; sc_rules := []; sc_final := ""; sc_channel_servers := []; sc_direct_domain_resolver := None;
            sc_proxy_domain_resolver := None |}
  end.

Lemma demo_keys : NoDup (map fst (dp_channels demo_policy)).
Proof. apply (bool_decide_unpack _). vm_compute. exact I. Qed.

Lemma resolver_graph_check_exact_witness :
  let server tag dep := {| ds_type := "tls"; ds_tag := tag; ds_server := Some "dns.example"; ds_server_port := Some 853%Z; ds_path := None;
                           ds_domain_resolver := dep; ds_detour := None; ds_ranges := None; ds_predefined := None |} in
  let good := [server "a" (Some "b"); server "b" None] in
  let bad := [server "a" (Some "b"); server "b" (Some "a")] in
  (∀ t, chain_ends good t) ∧ ¬ (Forall (dependency_known (map ds_tag bad)) bad ∧ ∀ t, chain_ends bad t).
Proof.
  intros server good bad.
  destruct (resolver_graph_check_exact good) as (r & Hr & Hok); [apply (bool_decide_unpack _); vm_compute; exact I|].
  destruct (resolver_graph_check_exact bad) as (r' & Hr' & Hbad); [apply (bool_decide_unpack _); vm_compute; exact I|].
  vm_compute in Hr, Hr'. injection Hr as <-. injection Hr' as <-. split; [by apply Hok|]. intros Hx. by apply Hbad in Hx.
Defined.

Lemma dns_config_refines_policy_witness :
  route matches demo_config "x.ads.example" = Refused ∧ route matches demo_config "example.com" = Asked (fakeip_server demo_policy).
Proof.
  destruct (dns_config_refines_policy matches demo_policy "vpn" true demo_config demo_keys) as (boot & _ & Hq); [vm_compute; reflexivity|].
  split; [exact (Hq "x.ads.example")|exact (Hq "example.com")].
Defined.

Lemma dns_queries_stay_in_tunnel_witness :
  ∃ s, route matches demo_config "example.com" = Asked s
       ∧ (s = static_ip_server demo_policy ∨ s = fakeip_server demo_policy ∨ ds_detour s = Some "vpn").
Proof.
  destruct (dns_queries_stay_in_tunnel matches demo_policy "vpn" true demo_config demo_keys) with (q := "example.com") as [Hr|Hr];
    [vm_compute; reflexivity|vm_compute; discriminate|vm_compute; reflexivity|repeat constructor| |exact Hr].
  vm_compute in Hr. discriminate.
Defined.

Lemma dns_generation_succeeds_witness :
  ∃ cfg, build_singbox_dns_config demo_policy "vpn" false = Some (Ok cfg)
         ∧ (cfg = None ↔ dp_mode demo_policy = DNS_OFF ∨ slots (dp_channels demo_policy) = []).
Proof.
  apply dns_generation_succeeds. constructor.
  - apply (from_dict_ok Demo.document). vm_compute. reflexivity.
  - exact demo_keys.
  - intros x parsed _ _ _. eexists. vm_compute. reflexivity.
  - repeat constructor.
  - repeat constructor. intros c. vm_compute. discriminate.
Defined.
End DemoConfig.
