(* ===== verification/DnsHost.v ===== *)
(** * The DNS settings of the host

    dns/resolver_inventory.py, dns/state_manager.py and dns/hijack.py: which manager owns the
    resolver of the host, saving its settings, pointing it at the local entry point, and putting
    the settings back.  Commands and the resolv.conf file are the interface [HostEnv]; each
    operation of it may raise.  The text of a path is kept as it is given. *)
From stdpp Require Import base list strings sets.
From Stdlib Require Import Ascii ZArith.
From S2P Require Import Prelude Steps PyData PyText Dns DnsPolicy.

(** ** The host *)
Record HostEnv (W : Type) : Type := {
  he_run : list string → PyM W string;       (* the runner: the output of a command *)
  he_read : PyM W string;                    (* resolv_conf_path.read_text *)
  he_read_replace : PyM W string;            (* the same, undecodable bytes replaced *)
  he_write : string → PyM W unit;            (* resolv_conf_path.write_text *)
  he_is_symlink : PyM W bool;
  he_resolve : PyM W string;                 (* str(path.resolve()) *)
  he_exists : PyM W bool;
  he_unlink_tmp : PyM W unit;                (* tmp_path.unlink *)
  he_symlink_tmp : string → PyM W unit;      (* os.symlink(target, tmp_path) *)
  he_replace : PyM W unit;                   (* os.replace(tmp_path, path) *)
  he_fsync_parent : PyM W unit
}.
Arguments he_run {_}. Arguments he_read {_}. Arguments he_read_replace {_}. Arguments he_write {_}. Arguments he_is_symlink {_}.
Arguments he_resolve {_}. Arguments he_exists {_}. Arguments he_unlink_tmp {_}. Arguments he_symlink_tmp {_}.
Arguments he_replace {_}. Arguments he_fsync_parent {_}.

(** ** Data *)
Inductive ResolverManager : Type := SYSTEMD_RESOLVED | NETWORK_MANAGER | RESOLV_CONF | MANAGER_UNKNOWN.
#[global] Instance ResolverManager_eq_dec : EqDecision ResolverManager.
Proof. solve_decision. Defined.
Definition manager_value (m : ResolverManager) : string :=
  match m with
  | SYSTEMD_RESOLVED => "systemd-resolved" | NETWORK_MANAGER => "networkmanager" | RESOLV_CONF => "resolv_conf"
  | MANAGER_UNKNOWN => "unknown"
  end.
Definition MANAGERS : list ResolverManager := [SYSTEMD_RESOLVED; NETWORK_MANAGER; RESOLV_CONF; MANAGER_UNKNOWN].

Record ResolverInventory : Type := {
  ri_manager : ResolverManager; ri_resolv_conf_path : string; ri_resolv_conf_target : option string;
  ri_nameservers : list string; ri_search_domains : list string; ri_systemd_resolved_active : bool;
  ri_network_manager_active : bool; ri_notes : list string
}.

Record NetworkManagerConnectionState : Type := {
  nm_name : string; nm_uuid : string; nm_ipv4_dns : string; nm_ipv4_ignore_auto_dns : string; nm_ipv4_dns_search : string;
  nm_ipv6_dns : string; nm_ipv6_ignore_auto_dns : string; nm_ipv6_dns_search : string
}.

Record DNSStateSnapshot : Type := {
  ss_inventory : ResolverInventory; ss_resolv_conf_content : option string; ss_resolv_conf_target : option string;
  ss_connections : list NetworkManagerConnectionState; ss_systemd_link : option string
}.

Record LocalDNSEntryPoint : Type := { ep_address : string; ep_port : Z; ep_systemd_link : option string }.

Definition PRODUCT_OWNED_NETWORKMANAGER_CONNECTIONS : list string := ["wdvpn-tun0"; "watchdogvpn_awg"].

(** ** Documents *)
Definition opt_value (o : option string) : pyval := match o with Some s => PStr s | None => PNone end.
Definition strs (l : list string) : pyval := PList (map PStr l).

Definition ResolverInventory_to_dict (i : ResolverInventory) : pydict pyval :=
  [("manager", PStr (manager_value (ri_manager i))); ("resolv_conf_path", PStr (ri_resolv_conf_path i));
   ("resolv_conf_target", opt_value (ri_resolv_conf_target i)); ("nameservers", strs (ri_nameservers i));
   ("search_domains", strs (ri_search_domains i)); ("systemd_resolved_active", PBool (ri_systemd_resolved_active i));
   ("network_manager_active", PBool (ri_network_manager_active i)); ("notes", strs (ri_notes i))].

Definition NetworkManagerConnectionState_to_dict (c : NetworkManagerConnectionState) : pydict pyval :=
  [("name", PStr (nm_name c)); ("uuid", PStr (nm_uuid c)); ("ipv4_dns", PStr (nm_ipv4_dns c));
   ("ipv4_ignore_auto_dns", PStr (nm_ipv4_ignore_auto_dns c)); ("ipv4_dns_search", PStr (nm_ipv4_dns_search c));
   ("ipv6_dns", PStr (nm_ipv6_dns c)); ("ipv6_ignore_auto_dns", PStr (nm_ipv6_ignore_auto_dns c));
   ("ipv6_dns_search", PStr (nm_ipv6_dns_search c))].

Definition DNSStateSnapshot_to_dict (s : DNSStateSnapshot) : pydict pyval :=
  [("inventory", PDict (ResolverInventory_to_dict (ss_inventory s)));
   ("resolv_conf_content", opt_value (ss_resolv_conf_content s)); ("resolv_conf_target", opt_value (ss_resolv_conf_target s));
   ("network_manager_connections", PList (map (fun c => PDict (NetworkManagerConnectionState_to_dict c)) (ss_connections s)));
   ("systemd_link", opt_value (ss_systemd_link s))].

Section documents.
Context `{PyStr}.

(** [str(data[key]) if data.get(key) is not None else None] *)
Definition opt_text (key : string) (data : pydict pyval) : option string :=
  match dict_get key data with None | Some PNone => None | Some v => Some (py_str v) end.

(** [[str(item) for item in data.get(key, [])]]: the elements of a list, the keys of a dict, the
    characters of a text *)
Definition texts (key : string) (data : pydict pyval) : res (list string) :=
  match dict_get key data with
  | None => Ok []
  | Some (PList l) => Ok (map py_str l)
  | Some (PDict d) => Ok (map fst d)
  | Some (PStr s) => Ok (map (fun c => String c "") (String.list_ascii_of_string s))
  | Some _ => raise TypeError "object is not iterable"
  end.

Definition ResolverInventory_from_dict (data : pydict pyval) : res ResolverInventory :=
  manager ← dict_item "manager" data;
  manager ← enum_of manager_value MANAGERS (PStr (py_str manager));
  path ← dict_item "resolv_conf_path" data;
  nameservers ← texts "nameservers" data;
  search_domains ← texts "search_domains" data;
  notes ← texts "notes" data;
  Ok {| ri_manager := manager; ri_resolv_conf_path := py_str path; ri_resolv_conf_target := opt_text "resolv_conf_target" data;
        ri_nameservers := nameservers; ri_search_domains := search_domains;
        ri_systemd_resolved_active := truthy (dict_get_or "systemd_resolved_active" (PBool false) data);
        ri_network_manager_active := truthy (dict_get_or "network_manager_active" (PBool false) data); ri_notes := notes |}.

Definition NetworkManagerConnectionState_from_dict (data : pydict pyval) : res NetworkManagerConnectionState :=
  name ← dict_item "name" data;
  let text key dflt := py_str (dict_get_or key (PStr dflt) data) in
  Ok {| nm_name := py_str name; nm_uuid := text "uuid" ""; nm_ipv4_dns := text "ipv4_dns" "";
        nm_ipv4_ignore_auto_dns := text "ipv4_ignore_auto_dns" "no"; nm_ipv4_dns_search := text "ipv4_dns_search" "";
        nm_ipv6_dns := text "ipv6_dns" ""; nm_ipv6_ignore_auto_dns := text "ipv6_ignore_auto_dns" "no";
        nm_ipv6_dns_search := text "ipv6_dns_search" "" |}.

Definition DNSStateSnapshot_from_dict (data : pydict pyval) : res DNSStateSnapshot :=
  match dict_get_or "inventory" PNone data, dict_get_or "network_manager_connections" (PList []) data with
  | PDict raw_inventory, PList raw_connections =>
      inventory ← ResolverInventory_from_dict raw_inventory;
      connections ← map_res NetworkManagerConnectionState_from_dict
                      (omap (fun v => match v with PDict d => Some d | _ => None end) raw_connections);
      Ok {| ss_inventory := inventory; ss_resolv_conf_content := opt_text "resolv_conf_content" data;
            ss_resolv_conf_target := opt_text "resolv_conf_target" data; ss_connections := connections;
            ss_systemd_link := opt_text "systemd_link" data |}
  | PDict _, _ => raise ValueError "dns state snapshot connections must be a list"
  | _, _ => raise ValueError "dns state snapshot requires inventory"
  end.
End documents.

(** ** Detecting the manager *)
Section host.
Context {W : Type} (env : HostEnv W).

Definition service_active (service : string) : PyM W bool :=
  out ← he_run env ["systemctl"; "is-active"; service];
  mret (String.eqb (strip out) "active").

Definition ACTIVE_CONNECTIONS : list string := ["nmcli"; "-t"; "-f"; "NAME,TYPE,DEVICE"; "con"; "show"; "--active"].

(** The fields of a line of the listing, when it names a managed connection *)
Definition managed_connection (line : string) : option (string * string) :=
  match split_on ":" (strip line) with
  | name :: connection_type :: device :: _ =>
      if String.eqb connection_type "loopback" || str_in device [""; "lo"] then None else Some (name, device)
  | _ => None
  end.
Definition network_manager_has_managed_non_loopback_connection : PyM W bool :=
  output ← he_run env ACTIVE_CONNECTIONS;
  mret (existsb (fun line => match managed_connection line with Some _ => true | None => false end) (splitlines output)).

(** One line of resolv.conf *)
Definition resolv_line (acc : list string * list string) (line : string) : list string * list string :=
  let stripped := strip line in
  if negb (truthy_str stripped) || startswith "#" stripped then acc
  else match py_split stripped with
       | kind :: value :: more =>
           if String.eqb kind "nameserver" then (acc.1 ++ [value], acc.2)
           else if String.eqb kind "search" then (acc.1, acc.2 ++ value :: more)
           else if String.eqb kind "domain" then (acc.1, acc.2 ++ [value])
           else acc
       | _ => acc
       end.
Definition read_resolv_conf : PyM W (list string * list string * list string) :=
  fun w =>
    match he_read env w with
    | (Ok text, w) => (Ok (foldl resolv_line ([], []) (splitlines text), []), w)
    | (Err e, w) =>
        if is_instance e FileNotFoundError then (Ok ([], [], ["resolv.conf missing"]), w)
        else if is_instance e OSError then (Ok ([], [], ["resolv.conf unreadable: " +:+ exn_message e]), w)
        else (Err e, w)
    end.

Definition resolv_conf_target : PyM W (option string) :=
  symlink ← he_is_symlink env;
  if negb symlink then mret None
  else try_except (target ← he_resolve env; mret (Some target)) (fun e => is_instance e OSError) (fun _ => mret None).

Definition resolv_conf_generated_by_network_manager (target : option string) : PyM W bool :=
  if match target with Some t => contains "/NetworkManager/" t | None => false end then mret true
  else try_except (text ← he_read_replace env; mret (contains "NetworkManager" (String.substring 0 512 text)))
         (fun e => is_instance e OSError) (fun _ => mret false).

Definition detect_resolver_manager (path : string) : PyM W ResolverInventory :=
  '(nameservers, search_domains, notes) ← read_resolv_conf;
  target ← resolv_conf_target;
  resolved_active ← service_active "systemd-resolved.service";
  nm_active ← service_active "NetworkManager.service";
  nm_managed ← (if nm_active : bool then network_manager_has_managed_non_loopback_connection else mret false);
  nm_resolv_conf ← resolv_conf_generated_by_network_manager target;
  manager ← (if resolved_active || match target with Some t => contains "/run/systemd/resolve/" t | None => false end
             then mret SYSTEMD_RESOLVED
             else if (nm_managed && nm_resolv_conf : bool) then mret NETWORK_MANAGER
             else exists_ ← he_exists env; mret (if exists_ : bool then RESOLV_CONF else MANAGER_UNKNOWN));
  mret {| ri_manager := manager; ri_resolv_conf_path := path; ri_resolv_conf_target := target; ri_nameservers := nameservers;
          ri_search_domains := search_domains; ri_systemd_resolved_active := resolved_active;
          ri_network_manager_active := nm_active;
          ri_notes := if bool_decide (manager = MANAGER_UNKNOWN) then notes ++ ["no supported resolver manager detected"] else notes |}.

(** ** Saving *)
Definition nmcli_connection_property (name prop : string) : PyM W string :=
  out ← he_run env ["nmcli"; "-g"; prop; "con"; "show"; name];
  mret (strip out).
Definition or_no (s : string) : string := if truthy_str s then s else "no".

Definition save_connection (name : string) : PyM W NetworkManagerConnectionState :=
  uuid ← nmcli_connection_property name "connection.uuid";
  ipv4_dns ← nmcli_connection_property name "ipv4.dns";
  ipv4_ignore ← nmcli_connection_property name "ipv4.ignore-auto-dns";
  ipv4_search ← nmcli_connection_property name "ipv4.dns-search";
  ipv6_dns ← nmcli_connection_property name "ipv6.dns";
  ipv6_ignore ← nmcli_connection_property name "ipv6.ignore-auto-dns";
  ipv6_search ← nmcli_connection_property name "ipv6.dns-search";
  mret {| nm_name := name; nm_uuid := uuid; nm_ipv4_dns := ipv4_dns; nm_ipv4_ignore_auto_dns := or_no ipv4_ignore;
          nm_ipv4_dns_search := ipv4_search; nm_ipv6_dns := ipv6_dns; nm_ipv6_ignore_auto_dns := or_no ipv6_ignore;
          nm_ipv6_dns_search := ipv6_search |}.

Fixpoint save_connections (lines : list string) : PyM W (list NetworkManagerConnectionState) :=
  match lines with
  | [] => mret []
  | line :: rest =>
      match managed_connection line with
      | None => save_connections rest
      | Some (name, device) =>
          if str_in name PRODUCT_OWNED_NETWORKMANAGER_CONNECTIONS || str_in device PRODUCT_OWNED_NETWORKMANAGER_CONNECTIONS
          then save_connections rest
          else c ← save_connection name; cs ← save_connections rest; mret (c :: cs)
      end
  end.
Definition save_network_manager_connections (inventory : ResolverInventory) : PyM W (list NetworkManagerConnectionState) :=
  if negb (ri_network_manager_active inventory) then mret []
  else
    names_output ← he_run env ACTIVE_CONNECTIONS;
    save_connections (List.filter (fun line => truthy_str (strip line)) (splitlines names_output)).

Definition read_text : PyM W (option string) :=
  try_except (text ← he_read env; mret (Some text)) (fun e => is_instance e FileNotFoundError) (fun _ => mret None).

Definition save_state (path : string) (systemd_link : option string) : PyM W DNSStateSnapshot :=
  inventory ← detect_resolver_manager path;
  content ← read_text;
  connections ← save_network_manager_connections inventory;
  mret {| ss_inventory := inventory; ss_resolv_conf_content := content; ss_resolv_conf_target := ri_resolv_conf_target inventory;
          ss_connections := connections; ss_systemd_link := systemd_link |}.

(** ** Applying *)
Definition truthy_link (o : option string) : option string :=
  match o with Some s => if truthy_str s then Some s else None | None => None end.

Definition apply_systemd_resolved (e : LocalDNSEntryPoint) (snapshot : DNSStateSnapshot) : PyM W unit :=
  match (match truthy_link (ep_systemd_link e) with Some l => Some l | None => truthy_link (ss_systemd_link snapshot) end) with
  | None => raiseM DNSStateError "systemd-resolved apply requires a link name"
  | Some link =>
      _ ← he_run env ["resolvectl"; "dns"; link; ep_address e];
      _ ← he_run env ["resolvectl"; "domain"; link; "~."];
      mret tt
  end.

Definition modify (name : string) (settings : list string) : PyM W unit :=
  _ ← he_run env ("nmcli" :: "con" :: "mod" :: name :: settings); mret tt.

Fixpoint for_each (f : NetworkManagerConnectionState → PyM W unit) (cs : list NetworkManagerConnectionState) : PyM W unit :=
  match cs with [] => mret tt | c :: rest => _ ← f c; for_each f rest end.

Definition apply_settings (e : LocalDNSEntryPoint) : list string :=
  ["ipv4.ignore-auto-dns"; "yes"; "ipv4.dns"; ep_address e; "ipv6.ignore-auto-dns"; "yes"; "ipv6.dns"; ""].
Definition apply_network_manager (e : LocalDNSEntryPoint) (snapshot : DNSStateSnapshot) : PyM W unit :=
  for_each (fun c => modify (nm_name c) (apply_settings e)) (ss_connections snapshot).

Definition write_resolv_conf (e : LocalDNSEntryPoint) : PyM W unit :=
  he_write env ("nameserver " +:+ ep_address e +:+ String newline "").

Definition apply_for_manager (manager : ResolverManager) (e : LocalDNSEntryPoint) (snapshot : DNSStateSnapshot) : PyM W unit :=
  match manager with
  | SYSTEMD_RESOLVED => apply_systemd_resolved e snapshot
  | NETWORK_MANAGER => apply_network_manager e snapshot
  | RESOLV_CONF => write_resolv_conf e
  | MANAGER_UNKNOWN => raiseM DNSStateError "unsupported resolver manager"
  end.

(** ** Restoring *)
Definition link_exists (link : string) : PyM W bool :=
  try_except (_ ← he_run env ["ip"; "-o"; "link"; "show"; link]; mret true) any_exn (fun _ => mret false).
Definition flush_systemd_resolved_caches : PyM W unit := _ ← he_run env ["resolvectl"; "flush-caches"]; mret tt.

Definition restore_systemd_resolved (snapshot : DNSStateSnapshot) : PyM W unit :=
  match truthy_link (ss_systemd_link snapshot) with
  | None => mret tt
  | Some link =>
      exists_ ← link_exists link;
      if negb exists_ then flush_systemd_resolved_caches
      else _ ← he_run env ["resolvectl"; "revert"; link]; flush_systemd_resolved_caches
  end.

Definition replace_symlink (target : string) : PyM W unit :=
  _ ← try_except (he_unlink_tmp env) (fun e => is_instance e FileNotFoundError) (fun _ => mret tt);
  _ ← he_symlink_tmp env target;
  _ ← he_replace env;
  try_except (he_fsync_parent env) (fun e => is_instance e PersistentStoreError) (fun e => raiseM DNSStateError (exn_message e)).

Definition restore_resolv_conf (snapshot : DNSStateSnapshot) : PyM W unit :=
  _ ← match truthy_link (ss_resolv_conf_target snapshot) with Some target => replace_symlink target | None => mret tt end;
  match ss_resolv_conf_content snapshot with Some content => he_write env content | None => mret tt end.

Definition restore_settings (c : NetworkManagerConnectionState) : list string :=
  ["ipv4.ignore-auto-dns"; nm_ipv4_ignore_auto_dns c; "ipv4.dns"; nm_ipv4_dns c; "ipv4.dns-search"; nm_ipv4_dns_search c;
   "ipv6.ignore-auto-dns"; nm_ipv6_ignore_auto_dns c; "ipv6.dns"; nm_ipv6_dns c; "ipv6.dns-search"; nm_ipv6_dns_search c].
Definition restore_network_manager (snapshot : DNSStateSnapshot) : PyM W unit :=
  _ ← for_each (fun c => modify (nm_name c) (restore_settings c)) (ss_connections snapshot);
  restore_resolv_conf snapshot.

Definition run_rescue_fallback (rescue_command : string) : PyM W string :=
  he_run env [rescue_command; "auto"; "--no-reconnect"].

Definition restore_state (rescue_command : string) (snapshot : DNSStateSnapshot) : PyM W unit :=
  match ri_manager (ss_inventory snapshot) with
  | SYSTEMD_RESOLVED => restore_systemd_resolved snapshot
  | NETWORK_MANAGER => restore_network_manager snapshot
  | RESOLV_CONF => restore_resolv_conf snapshot
  | MANAGER_UNKNOWN => _ ← run_rescue_fallback rescue_command; mret tt
  end.

(** ** [apply_local_dns]: a failure restores and raises *)
Definition apply_local_dns (path rescue_command : string) (e : LocalDNSEntryPoint) (snapshot : option DNSStateSnapshot)
    : PyM W DNSStateSnapshot :=
  saved ← match snapshot with Some s => mret s | None => save_state path (ep_systemd_link e) end;
  _ ← try_except (apply_for_manager (ri_manager (ss_inventory saved)) e saved) any_exn
        (fun exc => _ ← restore_state rescue_command saved;
                    raiseM DNSStateError ("failed to apply local DNS entry point: " +:+ exn_message exc));
  mret saved.

(** ** The default runner: what a finished process means *)
Record completed_process : Type := { pc_returncode : Z; pc_stdout : string; pc_stderr : string }.
(** [NotRun]: [FileNotFoundError], [SubprocessError] or [TimeoutError]; [Raised]: anything else *)
Inductive process_outcome : Type := Finished (c : completed_process) | NotRun (e : exn) | Raised (e : exn).
Definition run_command (command : list string) (completed : process_outcome) : res string :=
  let is_active := bool_decide (take 2 command = ["systemctl"; "is-active"]) in
  match completed with
  | Raised e => Err e
  | NotRun e => if is_active then Ok "" else raise DNSStateError (exn_message e)
  | Finished c =>
      if is_active then Ok (strip (pc_stdout c))
      else if negb (pc_returncode c =? 0)%Z then
        let message := if truthy_str (strip (pc_stderr c)) then strip (pc_stderr c) else strip (pc_stdout c) in
        raise DNSStateError (if truthy_str message then message else "command failed: " +:+ join " " command)
      else Ok (strip (pc_stdout c))
  end.

(** ** dns/hijack.py *)
Record DNSHijackApplyResult : Type := { ha_applied : bool; ha_snapshot : option DNSStateSnapshot; ha_reason : option string }.

(** [kill_switch]: [is_active], when there is one *)
Definition kill_switch_active (kill_switch : option (PyM W bool)) : PyM W bool :=
  match kill_switch with
  | None => mret false
  | Some is_active => try_except is_active any_exn (fun _ => mret false)
  end.

Definition hijack_apply (path rescue_command : string) (entrypoint : LocalDNSEntryPoint) (kill_switch : option (PyM W bool))
    (p : DNSPolicy) (snapshot : option DNSStateSnapshot) (systemd_link : option string) : PyM W DNSHijackApplyResult :=
  if bool_decide (dp_mode p = DNS_OFF) then mret {| ha_applied := false; ha_snapshot := None; ha_reason := Some "dns policy is off" |}
  else if negb (dp_tun_hijack p) then mret {| ha_applied := false; ha_snapshot := None; ha_reason := Some "tun hijack is disabled" |}
  else
    let entrypoint := {| ep_address := ep_address entrypoint; ep_port := ep_port entrypoint;
                         ep_systemd_link := match truthy_link systemd_link with Some l => Some l | None => ep_systemd_link entrypoint end |} in
    saved ← try_except (apply_local_dns path rescue_command entrypoint snapshot) any_exn (fun exc =>
      active ← kill_switch_active kill_switch;
      if active : bool
      then raiseM DNSHijackError ("dns hijack apply failed while kill switch is active; leaving traffic fail-closed: " +:+ exn_message exc)
      else raiseM DNSHijackError ("dns hijack apply failed: " +:+ exn_message exc));
    mret {| ha_applied := true; ha_snapshot := Some saved; ha_reason := None |}.

Definition hijack_restore (rescue_command : string) (snapshot : option DNSStateSnapshot) : PyM W unit :=
  match snapshot with Some s => restore_state rescue_command s | None => mret tt end.
End host.

(** ** A saved snapshot is read back as it was *)
Lemma texts_strs `{PyStr} l : map py_str (map PStr l) = l.
Proof. rewrite map_map. cbn. apply map_id. Qed.
Lemma snapshot_roundtrip `{PyStr} s : DNSStateSnapshot_from_dict (DNSStateSnapshot_to_dict s) = Ok s.
Proof.
  unfold DNSStateSnapshot_from_dict. cbn -[ResolverInventory_from_dict map_res].
  assert (Hi : ResolverInventory_from_dict (ResolverInventory_to_dict (ss_inventory s)) = Ok (ss_inventory s)).
  { unfold ResolverInventory_from_dict. cbn -[texts opt_text enum_of]. unfold texts, opt_text. cbn. rewrite !texts_strs.
    destruct (ss_inventory s) as [[] ? [] ? ? ? ? ?]; done. }
  rewrite Hi. cbn [mbind res_bind].
  assert (Hc : map_res NetworkManagerConnectionState_from_dict
                 (omap (fun v => match v with PDict d => Some d | _ => None end)
                    (map (fun c => PDict (NetworkManagerConnectionState_to_dict c)) (ss_connections s))) = Ok (ss_connections s)).
  { induction (ss_connections s) as [|[] cs IH]; [done|]. cbn -[map_res]. cbn [map_res]. by rewrite IH. }
  rewrite Hc. cbn. destruct s as [? [] [] ? []]; done.
Qed.

(** ** NetworkManager settings survive *)
Section network_manager.
Context {W : Type} (env : HostEnv W) (view : W → string → string → string).

(** The value of a property after the settings of a modification *)
Fixpoint assigned (settings : list string) (k dflt : string) : string :=
  match settings with
  | k' :: v :: rest => assigned rest k (if String.eqb k' k then v else dflt)
  | _ => dflt
  end.

(** What is relied on of NetworkManager: [view] is a property of a connection; [con mod] sets
    what it names, and nothing when it fails; [show] prints the value; booleans have a value;
    other commands and the resolv.conf file leave the properties alone. *)
Record nm_laws : Prop := {
  law_mod : ∀ name settings w out w', he_run env ("nmcli" :: "con" :: "mod" :: name :: settings) w = (Ok out, w') →
    ∀ n k, view w' n k = if String.eqb n name then assigned settings k (view w n k) else view w n k;
  law_mod_fails : ∀ name settings w exc w', he_run env ("nmcli" :: "con" :: "mod" :: name :: settings) w = (Err exc, w') →
    ∀ n k, view w' n k = view w n k;
  law_show : ∀ name prop w out w', he_run env ["nmcli"; "-g"; prop; "con"; "show"; name] w = (Ok out, w') →
    strip out = view w name prop;
  law_boolean : ∀ w n, view w n "ipv4.ignore-auto-dns" ≠ "" ∧ view w n "ipv6.ignore-auto-dns" ≠ "";
  law_other : ∀ cmd w, take 3 cmd ≠ ["nmcli"; "con"; "mod"] → ∀ n k, view (he_run env cmd w).2 n k = view w n k;
  law_files : ∀ w n k, view (he_read env w).2 n k = view w n k ∧ view (he_read_replace env w).2 n k = view w n k
    ∧ (∀ s, view (he_write env s w).2 n k = view w n k) ∧ view (he_is_symlink env w).2 n k = view w n k
    ∧ view (he_resolve env w).2 n k = view w n k ∧ view (he_exists env w).2 n k = view w n k
    ∧ view (he_unlink_tmp env w).2 n k = view w n k ∧ (∀ s, view (he_symlink_tmp env s w).2 n k = view w n k)
    ∧ view (he_replace env w).2 n k = view w n k ∧ view (he_fsync_parent env w).2 n k = view w n k
}.
Context (laws : nm_laws).

Definition same (w w' : W) : Prop := ∀ n k, view w' n k = view w n k.
#[local] Instance same_preorder : PreOrder same.
Proof. split; [by intros w n k|]. intros a b c Hab Hbc n k. by rewrite Hbc, Hab. Qed.

Lemma run_same cmd : take 3 cmd ≠ ["nmcli"; "con"; "mod"] → steps same (he_run env cmd).
Proof. intros Hc w n k. by apply (law_other laws). Qed.
Lemma read_same : steps same (he_read env). Proof. intros w n k. apply (law_files laws w n k). Qed.
Lemma read_replace_same : steps same (he_read_replace env). Proof. intros w n k. apply (law_files laws w n k). Qed.
Lemma write_same s : steps same (he_write env s). Proof. intros w n k. apply (law_files laws w n k). Qed.
Lemma symlink_same : steps same (he_is_symlink env). Proof. intros w n k. apply (law_files laws w n k). Qed.
Lemma resolve_same : steps same (he_resolve env). Proof. intros w n k. apply (law_files laws w n k). Qed.
Lemma exists_same : steps same (he_exists env). Proof. intros w n k. apply (law_files laws w n k). Qed.
Lemma unlink_same : steps same (he_unlink_tmp env). Proof. intros w n k. apply (law_files laws w n k). Qed.
Lemma symlink_tmp_same s : steps same (he_symlink_tmp env s). Proof. intros w n k. apply (law_files laws w n k). Qed.
Lemma replace_same : steps same (he_replace env). Proof. intros w n k. apply (law_files laws w n k). Qed.
Lemma fsync_same : steps same (he_fsync_parent env). Proof. intros w n k. apply (law_files laws w n k). Qed.
#[local] Hint Resolve run_same read_same read_replace_same write_same symlink_same resolve_same exists_same unlink_same symlink_tmp_same
  replace_same fsync_same : steps.
#[local] Hint Extern 3 (take 3 _ ≠ _) => discriminate : steps.

Lemma read_resolv_conf_same : steps same (read_resolv_conf env).
Proof.
  intros w. unfold read_resolv_conf. pose proof (read_same w) as Hr. destruct (he_read env w) as [[t|e] w']; cbn in *; [done|].
  by repeat case_match.
Qed.
#[local] Hint Resolve read_resolv_conf_same : steps.
Lemma detect_same path : steps same (detect_resolver_manager env path).
Proof. unfold detect_resolver_manager, resolv_conf_target, service_active, resolv_conf_generated_by_network_manager,
         network_manager_has_managed_non_loopback_connection. steps_tac. Qed.
Lemma property_same name prop : steps same (nmcli_connection_property env name prop).
Proof. unfold nmcli_connection_property. steps_tac. Qed.

Lemma save_connection_same name : steps same (save_connection env name).
Proof. unfold save_connection. pose proof property_same as Hp. steps_tac. all: apply Hp. Qed.
#[local] Hint Resolve detect_same save_connection_same : steps.
Lemma save_connections_same lines : steps same (save_connections env lines).
Proof. induction lines as [|line lines IH]; cbn [save_connections]; steps_tac. Qed.
#[local] Hint Resolve save_connections_same : steps.
Lemma save_state_same path link : steps same (save_state env path link).
Proof. unfold save_state, read_text, save_network_manager_connections. steps_tac. Qed.
Lemma restore_resolv_conf_same snapshot : steps same (restore_resolv_conf env snapshot).
Proof. unfold restore_resolv_conf, replace_symlink. steps_tac. Qed.

(** A saved connection holds the properties at the time *)
Definition PROPERTIES : list string :=
  ["ipv4.ignore-auto-dns"; "ipv4.dns"; "ipv4.dns-search"; "ipv6.ignore-auto-dns"; "ipv6.dns"; "ipv6.dns-search"].
Definition faithful (v : string → string → string) (c : NetworkManagerConnectionState) : Prop :=
  ∀ k d, assigned (restore_settings c) k d = if str_in k PROPERTIES then v (nm_name c) k else d.

Lemma property_value name prop w out w' : nmcli_connection_property env name prop w = (Ok out, w') →
  out = view w name prop ∧ same w w'.
Proof.
  intros Hp. pose proof (property_same name prop w) as Hs. rewrite Hp in Hs. split; [|exact Hs].
  unfold nmcli_connection_property in Hp. bind_inv Hp o w1 Hm. apply ret_ok_inv in Hp as [<- <-]. by apply (law_show laws) in Hm.
Qed.

Lemma save_connection_faithful name w c w' : save_connection env name w = (Ok c, w') → faithful (view w) c.
Proof.
  unfold save_connection. intros Hc.
  bind_inv Hc a1 w1 H1. bind_inv Hc a2 w2 H2. bind_inv Hc a3 w3 H3. bind_inv Hc a4 w4 H4. bind_inv Hc a5 w5 H5. bind_inv Hc a6 w6 H6.
  bind_inv Hc a7 w7 H7. apply ret_ok_inv in Hc as [<- _].
  apply property_value in H1 as [_ S1], H2 as [-> S2], H3 as [-> S3], H4 as [-> S4], H5 as [-> S5], H6 as [-> S6], H7 as [-> _].
  assert (S12 : same w w2) by (by trans w1). assert (S13 : same w w3) by (by trans w2). assert (S14 : same w w4) by (by trans w3).
  assert (S15 : same w w5) by (by trans w4). assert (S16 : same w w6) by (by trans w5).
  rewrite S1, S12, S13, S14, S15, S16. unfold or_no.
  destruct (law_boolean laws w name) as [B1%truthy_str_ne B2%truthy_str_ne]. rewrite B1, B2.
  intros k d. unfold str_in, PROPERTIES, restore_settings. cbn [assigned existsb nm_ipv4_ignore_auto_dns nm_ipv4_dns nm_ipv4_dns_search
    nm_ipv6_ignore_auto_dns nm_ipv6_dns nm_ipv6_dns_search nm_name]. rewrite !(String.eqb_sym _ k).
  by repeat (match goal with |- context [String.eqb k ?a] => destruct (String.eqb_spec k a) as [->|] end; cbn).
Qed.

Lemma save_connections_faithful lines w cs w' : save_connections env lines w = (Ok cs, w') → Forall (faithful (view w)) cs.
Proof.
  revert w cs w'. induction lines as [|line lines IH]; intros w cs w'; cbn [save_connections].
  { intros Hc. apply ret_ok_inv in Hc as [<- _]. constructor. }
  destruct (managed_connection line) as [[name device]|]; [|apply IH]. destruct (_ || _); [apply IH|]. intros Hc.
  bind_inv Hc c w1 H1. bind_inv Hc cs' w2 H2. apply ret_ok_inv in Hc as [<- _].
  pose proof (save_connection_same name w) as Hs. rewrite H1 in Hs. cbn in Hs. constructor; [by eapply save_connection_faithful|].
  eapply Forall_impl; [by eapply IH|]. intros c' Hc' k d. rewrite Hc'. by destruct (str_in k PROPERTIES); [apply Hs|].
Qed.

Lemma save_state_faithful path link w saved w1 : save_state env path link w = (Ok saved, w1) →
  Forall (faithful (view w)) (ss_connections saved) ∧ same w w1.
Proof.
  intros Hs. pose proof (save_state_same path link w) as Hsame. rewrite Hs in Hsame. split; [|exact Hsame].
  unfold save_state in Hs. bind_inv Hs inv w2 H1. bind_inv Hs content w3 H2. bind_inv Hs cs w4 H3. apply ret_ok_inv in Hs as [<- _]. cbn.
  assert (S3 : same w w3).
  { pose proof (detect_same path w) as D1. rewrite H1 in D1. trans w2; [exact D1|].
    assert (D2 : steps same (read_text env)) by (unfold read_text; steps_tac). specialize (D2 w2). by rewrite H2 in D2. }
  unfold save_network_manager_connections in H3. destruct (negb _); [apply ret_ok_inv in H3 as [<- _]; constructor|].
  bind_inv H3 out w5 H4. assert (S5 : same w w5).
  { trans w3; [exact S3|]. pose proof (run_same ACTIVE_CONNECTIONS ltac:(discriminate) w3) as D. by rewrite H4 in D. }
  eapply Forall_impl; [by eapply save_connections_faithful|]. intros c Hc k d. rewrite Hc. by destruct (str_in k PROPERTIES); [apply S5|].
Qed.

(** A run of modifications touches only the named connections and the properties it sets *)
Lemma for_each_frame (set : NetworkManagerConnectionState → list string) cs w n k :
  (∀ c d, c ∈ cs → n = nm_name c → assigned (set c) k d = d) →
  view (for_each (fun c => modify env (nm_name c) (set c)) cs w).2 n k = view w n k.
Proof.
  revert w. induction cs as [|c cs IH]; intros w Hk; cbn [for_each]; [done|]. rewrite bind_final. unfold modify at 1.
  unfold mbind, pym_bind. destruct (he_run env _ w) as [[out|e] w'] eqn:Hr.
  - cbn. rewrite IH by set_solver. rewrite (law_mod laws _ _ _ _ _ Hr). destruct (String.eqb_spec n (nm_name c)) as [E|]; [|done].
    apply Hk; [set_solver|done].
  - cbn. by rewrite (law_mod_fails laws _ _ _ _ _ Hr).
Qed.

(** A complete run of restorations sets every saved property *)
Lemma for_each_restores v cs w w' : Forall (faithful v) cs →
  for_each (fun c => modify env (nm_name c) (restore_settings c)) cs w = (Ok tt, w') →
  ∀ n k, view w' n k = if str_in n (map nm_name cs) && str_in k PROPERTIES then v n k else view w n k.
Proof.
  intros Hf. revert w. induction Hf as [|c cs Hc _ IH]; intros w Hr n k; cbn [for_each] in Hr.
  { apply ret_ok_inv in Hr as [_ <-]. done. }
  bind_inv Hr u w1 Hm. unfold modify in Hm. bind_inv Hm out w2 Hm'. apply ret_ok_inv in Hm as [_ <-].
  rewrite (IH _ Hr), (law_mod laws _ _ _ _ _ Hm'), Hc. cbn [map str_in existsb]. fold (str_in n (map nm_name cs)).
  destruct (String.eqb_spec n (nm_name c)) as [->|]; cbn [orb andb]; [|done].
  destruct (str_in (nm_name c) (map nm_name cs)), (str_in k PROPERTIES); done.
Qed.

Lemma apply_then_restore v e rescue saved w w1 r w1' w2 w3 :
  (∀ n k, view w n k = v n k) → same w w1 → same w1' w2 → Forall (faithful v) (ss_connections saved) →
  ri_manager (ss_inventory saved) = NETWORK_MANAGER →
  apply_network_manager env e saved w1 = (r, w1') → restore_state env rescue saved w2 = (Ok tt, w3) →
  same w w3.
Proof.
  intros Hv Hs Hs2 Hf Hm Ha Hr n k. unfold restore_state in Hr. rewrite Hm in Hr. unfold restore_network_manager in Hr. bind_inv Hr u w4 H4.
  destruct u. pose proof (restore_resolv_conf_same saved w4) as Hc. rewrite Hr in Hc. cbn in Hc. rewrite Hc.
  rewrite (for_each_restores v _ _ _ Hf H4), <- (Hv n k). destruct (str_in n _ && str_in k PROPERTIES) eqn:E; [done|].
  apply (f_equal snd) in Ha. cbn in Ha. rewrite (Hs2 n k), <- Ha, <- (Hs n k). apply for_each_frame. intros c d Hin ->.
  assert (Hk : str_in k PROPERTIES = false).
  { apply andb_false_iff in E as [E|E]; [|done]. apply str_in_false in E. destruct E. by apply list_elem_of_fmap_2. }
  unfold str_in, PROPERTIES in Hk. cbn [existsb] in Hk. rewrite !orb_false_iff in Hk. destruct Hk as (K1 & K2 & _ & K4 & K5 & _).
  cbn [assigned apply_settings]. by rewrite !(String.eqb_sym _ k), K1, K2, K4, K5.
Qed.

(** pointing NetworkManager at the local resolver is all or nothing, whichever command fails:
    after a failure every property of every connection is what it was, unless putting it back
    failed too, and that error is then the one reported; after a success, a later restoration
    that completes brings every property back. *)
Theorem nm_settings_survive (path rescue : string) (e : LocalDNSEntryPoint) (w : W) (saved : DNSStateSnapshot) (w1 : W) :
  save_state env path (ep_systemd_link e) w = (Ok saved, w1) → ri_manager (ss_inventory saved) = NETWORK_MANAGER →
  match apply_local_dns env path rescue e None w with
  | (Ok saved', w2) => saved' = saved ∧ ∀ w3 w4, same w2 w3 → restore_state env rescue saved w3 = (Ok tt, w4) → same w w4
  | (Err exc, w2) => same w w2 ∨ ∃ exc' w2', apply_for_manager env NETWORK_MANAGER e saved w1 = (Err exc', w2')
                                   ∧ restore_state env rescue saved w2' = (Err exc, w2)
  end.
Proof.
  intros Hs Hm. destruct (save_state_faithful _ _ _ _ _ Hs) as [Hf Hsame].
  unfold apply_local_dns. unfold mbind at 1, pym_bind at 1. rewrite Hs, Hm. unfold mbind, pym_bind, try_except.
  destruct (apply_for_manager env NETWORK_MANAGER e saved w1) as [[u|exc] w2] eqn:Ha.
  - cbn. split; [done|]. intros w3 w4 H23 Hr. by eapply (apply_then_restore (view w)).
  - cbn. destruct (restore_state env rescue saved w2) as [[[]|exc'] w3] eqn:Hr; cbn; [left|right; eauto].
    by eapply (apply_then_restore (view w) _ _ _ w w1 _ w2 w2).
Qed.
End network_manager.

(** ** Witness: a host on which the second modification fails *)
Module DemoHost.
Definition W : Type := string → string → string.
Definition boolean (k : string) : bool := str_in k ["ipv4.ignore-auto-dns"; "ipv6.ignore-auto-dns"].
Definition norm (k v : string) : string := if boolean k then or_no (strip v) else strip v.
Definition view (w : W) (n k : string) : string := norm k (w n k).

Fixpoint settings_ok (settings : list string) : bool :=
  match settings with k :: v :: rest => String.eqb (norm k v) v && settings_ok rest | _ => true end.

Definition run (cmd : list string) : PyM W string := fun w =>
  match cmd with
  | "nmcli" :: "con" :: "mod" :: name :: settings =>
      if settings_ok settings && negb (String.eqb name "Office" && str_in "127.0.0.1" settings)
      then (Ok "", fun n k => if String.eqb n name then assigned settings k (w n k) else w n k)
      else (raise DNSStateError "connection is busy", w)
  | ["nmcli"; "-g"; prop; "con"; "show"; name] => (Ok (view w name prop), w)
  | ["systemctl"; "is-active"; "NetworkManager.service"] => (Ok "active", w)
  | ["nmcli"; "-t"; "-f"; _; "con"; "show"; "--active"] =>
      (Ok ("Home:802-3-ethernet:eth0" +:+ String newline "Office:802-11-wireless:wlan0" +:+ String newline "lo:loopback:lo"), w)
  | _ => (Ok "", w)
  end.
Definition same_world {A} (a : A) : PyM W A := fun w => (Ok a, w).
Definition env : HostEnv W := {|
  he_run := run; he_read := same_world "# Generated by NetworkManager"; he_read_replace := same_world "# Generated by NetworkManager";
  he_write := fun _ => same_world tt; he_is_symlink := same_world false; he_resolve := same_world ""; he_exists := same_world true;
  he_unlink_tmp := same_world tt; he_symlink_tmp := fun _ => same_world tt; he_replace := same_world tt; he_fsync_parent := same_world tt |}.

Lemma norm_idem k v : norm k (norm k v) = norm k v.
Proof. unfold norm, or_no. destruct (boolean k); [|apply strip_idem]. destruct (truthy_str (strip v)) eqn:E; [by rewrite strip_idem, E|done]. Qed.

Lemma settings_view n settings k v : (length settings ≤ n)%nat → settings_ok settings = true →
  norm k (assigned settings k v) = assigned settings k (norm k v).
Proof.
  revert settings v. induction n as [|n IH]; intros [|k' [|v' rest]] v Hl; cbn in Hl |- *; try done; try lia.
  intros [Hv%String.eqb_eq Hr]%andb_true_iff. rewrite IH by (lia || done). f_equal.
  destruct (String.eqb_spec k' k) as [->|]; done.
Qed.

Lemma laws : nm_laws env view.
Proof.
  constructor.
  - intros name settings w out w'. cbn. destruct (settings_ok settings && _) eqn:E; [|done]. intros [= _ <-] n k.
    apply andb_true_iff in E as [E _]. unfold view. destruct (String.eqb n name); [|done]. by apply (settings_view (length settings)).
  - intros name settings w exc w'. cbn. destruct (settings_ok settings && _); [done|]. by intros [= _ <-].
  - intros name prop w out w' [= <- _]. unfold view, norm, or_no. destruct (boolean prop); [|apply strip_idem].
    destruct (truthy_str (strip (w name prop))); [apply strip_idem|done].
  - intros w n. unfold view, norm, or_no. cbn [boolean str_in existsb String.eqb Ascii.eqb Bool.eqb orb].
    split; (destruct (truthy_str (strip _)) eqn:E; [by apply truthy_str_ne|done]).
  - intros cmd w Hc n k. cbn. unfold run. repeat case_match; cbn; try done; subst; by destruct Hc.
  - intros w n k. repeat split.
Qed.

Definition entry : LocalDNSEntryPoint := {| ep_address := "127.0.0.1"; ep_port := 53; ep_systemd_link := None |}.
Definition before : W := fun n k => if String.eqb n "Home" && String.eqb k "ipv4.dns" then "1.2.3.4" else "".

(** The first connection is modified, the second is not; both end as they were *)
Lemma nm_settings_survive_witness :
  view (apply_local_dns env "/etc/resolv.conf" "rescue" entry None before).2 "Home" "ipv4.dns" = "1.2.3.4".
Proof.
  pose proof (nm_settings_survive env view laws "/etc/resolv.conf" "rescue" entry before) as Ht.
  destruct (save_state env "/etc/resolv.conf" (ep_systemd_link entry) before) as [[saved|exc] w1] eqn:Es; [|vm_compute in Es; discriminate].
  specialize (Ht saved w1 eq_refl). vm_compute in Es. injection Es as <- <-. specialize (Ht eq_refl).
  destruct (apply_local_dns env "/etc/resolv.conf" "rescue" entry None before) as [[saved'|exc] w2] eqn:Ea; [vm_compute in Ea; discriminate|].
  destruct Ht as [Ht|(exc' & w2' & H1 & H2)]; [exact (Ht "Home" "ipv4.dns")|].
  exfalso. vm_compute in H1. injection H1 as <- <-. vm_compute in H2. discriminate.
Defined.
End DemoHost.
