(* ===== verification/OpenVpn.v ===== *)
(** * The boundary of managed OpenVPN configurations

    parsers/openvpn_safety.py: which configuration texts may be handed to OpenVPN, and which
    endpoint they name. *)
From stdpp Require Import base list strings pretty.
From Stdlib Require Import Ascii ZArith.
From S2P Require Import Prelude PyData PyText PyUrl Profiles Rules.

Definition SUPPORTED_OPENVPN_DIRECTIVES : list string :=
  ["allow-compression"; "allow-pull-fqdn"; "allow-recursive-routing"; "auth"; "auth-nocache"; "auth-retry";
   "bcast-buffers"; "bind"; "bind-dev"; "block-ipv6"; "block-outside-dns"; "cipher"; "client"; "comp-lzo";
   "comp-noadapt"; "compress"; "connect-retry"; "connect-retry-max"; "connect-timeout"; "data-ciphers";
   "data-ciphers-fallback"; "dev"; "dev-type"; "dhcp-option"; "disable-dco"; "disable-occ"; "dns";
   "explicit-exit-notify"; "float"; "fragment"; "hand-window"; "http-proxy-option"; "ifconfig"; "ifconfig-ipv6";
   "ifconfig-noexec"; "ifconfig-nowarn"; "inactive"; "keepalive"; "key-direction"; "keying-material-exporter";
   "link-mtu"; "lladdr"; "local"; "lport"; "machine-readable-output"; "mark"; "mssfix"; "mtu-disc"; "mtu-test";
   "multihome"; "mute"; "mute-replay-warnings"; "nice"; "nobind"; "ns-cert-type"; "passtos"; "persist-key";
   "persist-local-ip"; "persist-remote-ip"; "persist-tun"; "ping"; "ping-exit"; "ping-restart"; "ping-timer-rem";
   "port"; "preresolve"; "proto"; "proto-force"; "pull"; "pull-filter"; "push-peer-info"; "rcvbuf";
   "redirect-gateway"; "redirect-private"; "register-dns"; "remap-usr1"; "remote"; "remote-cert-eku";
   "remote-cert-ku"; "remote-cert-tls"; "remote-random"; "remote-random-hostname"; "reneg-bytes"; "reneg-pkts";
   "reneg-sec"; "replay-window"; "resolv-retry"; "route"; "route-delay"; "route-gateway"; "route-ipv6";
   "route-ipv6-gateway"; "route-metric"; "route-noexec"; "route-nopull"; "route-table"; "rport"; "session-timeout";
   "shaper"; "single-session"; "sndbuf"; "socks-proxy-retry"; "static-challenge"; "suppress-timestamps";
   "tcp-nodelay"; "tcp-queue-limit"; "tls-cert-profile"; "tls-cipher"; "tls-ciphersuites"; "tls-client";
   "tls-crypt-v2-max-age"; "tls-exit"; "tls-timeout"; "tls-version-max"; "tls-version-min"; "topology";
   "tran-window"; "tun-ipv6"; "tun-mtu"; "tun-mtu-extra"; "tun-mtu-max"; "txqueuelen"; "verb"; "verify-hash";
   "verify-x509-name"; "x509-track"; "x509-username-field"].
Definition SUPPORTED_OPENVPN_INLINE_BLOCKS : list string :=
  ["auth-user-pass"; "ca"; "cert"; "crl-verify"; "extra-certs"; "http-proxy-user-pass"; "key"; "peer-fingerprint";
   "pkcs12"; "secret"; "tls-auth"; "tls-crypt"; "tls-crypt-v2"].
Definition SPECIAL_DIRECTIVES : list string :=
  ["auth-user-pass"; "dns-updown"; "http-proxy"; "ignore-unknown-option"; "setenv"; "socks-proxy"].
Definition SAFE_OPTIONAL_COMPATIBILITY_DIRECTIVES : list string :=
  ["block-outside-dns"; "register-dns"].
Definition INLINE_PATH_DIRECTIVES : list string :=
  List.filter (fun b => negb (str_in b ["auth-user-pass"; "peer-fingerprint"])) SUPPORTED_OPENVPN_INLINE_BLOCKS.

(** ** Lines *)
Definition tag_head (c : ascii) : bool := is_ascii_alpha c || is_digit c.
Definition tag_tail (c : ascii) : bool := tag_head c || Ascii.eqb c "_" || Ascii.eqb c "-".

(** The name up to the final bracket *)
Fixpoint tag_name (s : string) : option string :=
  match s with
  | "" => None
  | String ">" "" => Some ""
  | String c s' => if tag_tail c then option_map (String c) (tag_name s') else None
  end.
(** [_INLINE_TAG.fullmatch(line)]: whether it is a closing tag, and its name *)
Definition inline_tag (line : string) : option (bool * string) :=
  let body closing s :=
    match tag_name s with
    | Some (String c name) => if tag_head c then Some (closing, String c name) else None
    | _ => None
    end in
  match line with
  | String "<" (String "/" s) => body true s
  | String "<" s => body false s
  | _ => None
  end.

Definition is_commenter (c : ascii) : bool := Ascii.eqb c "#" || Ascii.eqb c ";".
Definition at_line (message : string) (n : nat) : string := message +:+ " at line " +:+ pretty n.

Definition directive_tokens (line : string) (n : nat) : res (list string) :=
  match shlex_from is_commenter ShBlank "" false line with
  | Some tokens => Ok tokens
  | None => raise OpenVPNConfigValidationError (at_line "OpenVPN config has invalid quoting" n)
  end.

(** [s.removeprefix("--")] *)
Definition remove_dashes (s : string) : string := if startswith "--" s then str_drop 2 s else s.

(** The arguments that a special directive accepts *)
Definition special_ok (key : string) (args : list string) : bool :=
  let normalized := map lower args in
  if String.eqb key "auth-user-pass" then bool_decide (args = [] ∨ normalized = ["username-only"] ∨ normalized = ["[inline]"])
  else if String.eqb key "dns-updown" then bool_decide (normalized = ["disable"])
  else if String.eqb key "http-proxy" then
    match normalized with [_; _] => true | [_; _; a] => str_in a ["auto"; "auto-nct"] | _ => false end
  else if String.eqb key "ignore-unknown-option" then
    negb (bool_decide (args = [])) && forallb (fun a => str_in (remove_dashes (lower a)) SAFE_OPTIONAL_COMPATIBILITY_DIRECTIVES) args
  else if String.eqb key "setenv" then
    match normalized with
    | [a; b] => String.eqb a "opt" && str_in (remove_dashes b) SAFE_OPTIONAL_COMPATIBILITY_DIRECTIVES
    | _ => false
    end
  else if String.eqb key "socks-proxy" then match args with [_] | [_; _] => true | _ => false end
  else false.
Definition unsafe_arguments (key : string) (n : nat) : string :=
  at_line ("OpenVPN directive '" +:+ key +:+ "' has unsupported or unsafe arguments") n.
Definition validate_special_directive (key : string) (args : list string) (n : nat) : res unit :=
  if special_ok key args then Ok tt else raise OpenVPNConfigValidationError (unsafe_arguments key n).

Definition validate_inline_path_directive (key : string) (args : list string) (n : nat) : res unit :=
  match args with
  | a :: rest =>
      if negb (String.eqb (lower a) "[inline]")
      then raise OpenVPNConfigValidationError (at_line ("OpenVPN directive '" +:+ key +:+ "' must use managed inline data") n)
      else if (match rest with
               | [] => true
               | [d] => String.eqb key "tls-auth" && str_in d ["0"; "1"]
               | _ => false
               end) then Ok tt
      else raise OpenVPNConfigValidationError (unsafe_arguments key n)
  | [] => raise OpenVPNConfigValidationError (at_line ("OpenVPN directive '" +:+ key +:+ "' must use managed inline data") n)
  end.

(** ** The scan *)
Record scan : Type := {
  sn_directives : pydict (list (list string)); sn_inline_blocks : list string; sn_required : list (string * nat);
  sn_active : option string; sn_has_data : bool
}.

(** The checks of one directive: whether it requires an inline block *)
Definition check_directive (key : string) (args : list string) (n : nat) : res bool :=
  if str_in key INLINE_PATH_DIRECTIVES then _ ← validate_inline_path_directive key args n; Ok true
  else if str_in key SPECIAL_DIRECTIVES then
    _ ← validate_special_directive key args n;
    Ok (String.eqb key "auth-user-pass" && bool_decide (map lower args = ["[inline]"]))
  else if negb (str_in key SUPPORTED_OPENVPN_DIRECTIVES)
  then raise OpenVPNConfigValidationError (at_line ("OpenVPN directive '" +:+ key +:+ "' is unsupported or unsafe") n)
  else Ok false.

Definition scan_directive (st : scan) (line : string) (n : nat) : res scan :=
  parts ← directive_tokens line n;
  match parts with
  | [] => Ok st
  | word :: args =>
      let key := remove_dashes (lower word) in
      if negb (truthy_str key) then raise OpenVPNConfigValidationError (at_line "OpenVPN config has an empty directive" n)
      else
        required ← check_directive key args n;
        Ok {| sn_directives := dict_set key (default [] (dict_get key (sn_directives st)) ++ [args]) (sn_directives st);
              sn_inline_blocks := sn_inline_blocks st;
              sn_required := if required : bool then sn_required st ++ [(key, n)] else sn_required st;
              sn_active := None; sn_has_data := sn_has_data st |}
  end.

Definition set_block (active : option string) (has_data : bool) (blocks : list string) (st : scan) : scan :=
  {| sn_directives := sn_directives st; sn_inline_blocks := blocks; sn_required := sn_required st; sn_active := active;
     sn_has_data := has_data |}.

Definition scan_line (st : scan) (raw_line : string) (n : nat) : res scan :=
  let line := strip raw_line in
  if negb (truthy_str line) then Ok st
  else match sn_active st, inline_tag line with
  | Some block, Some (true, name) =>
      if negb (String.eqb (lower name) block)
      then raise OpenVPNConfigValidationError (at_line ("OpenVPN inline block '" +:+ block +:+ "' has a mismatched close") n)
      else if negb (sn_has_data st) then raise OpenVPNConfigValidationError ("OpenVPN inline block '" +:+ block +:+ "' is empty")
      else Ok (set_block None false (sn_inline_blocks st) st)
  | Some _, Some (false, _) => raise OpenVPNConfigValidationError (at_line "OpenVPN inline block nesting is not supported" n)
  | Some block, None => Ok (set_block (Some block) true (sn_inline_blocks st) st)
  | None, Some (closing, name) =>
      let block := lower name in
      if closing : bool
      then raise OpenVPNConfigValidationError (at_line ("OpenVPN inline block '" +:+ block +:+ "' closes without an opener") n)
      else if negb (str_in block SUPPORTED_OPENVPN_INLINE_BLOCKS)
      then raise OpenVPNConfigValidationError (at_line ("OpenVPN inline block '" +:+ block +:+ "' is unsupported or unsafe") n)
      else Ok (set_block (Some block) false (block :: sn_inline_blocks st) st)
  | None, None => scan_directive st line n
  end.

Fixpoint scan_lines (st : scan) (lines : list string) (n : nat) : res scan :=
  match lines with
  | [] => Ok st
  | line :: rest => st ← scan_line st line n; scan_lines st rest (S n)
  end.

Definition empty_scan : scan :=
  {| sn_directives := []; sn_inline_blocks := []; sn_required := []; sn_active := None; sn_has_data := false |}.

Definition validate_openvpn_config (text : string) : res (pydict (list (list string))) :=
  let raw_config := strip text in
  if negb (truthy_str raw_config) then raise OpenVPNConfigValidationError "OpenVPN config is empty"
  else if contains (String "000" "") raw_config then raise OpenVPNConfigValidationError "OpenVPN config contains a NUL byte"
  else
    st ← scan_lines empty_scan (splitlines raw_config) 1;
    match sn_active st with
    | Some block => raise OpenVPNConfigValidationError ("OpenVPN inline block '" +:+ block +:+ "' is not closed")
    | None =>
        match List.find (fun r => negb (str_in r.1 (sn_inline_blocks st))) (sn_required st) with
        | Some (block, n) => raise OpenVPNConfigValidationError
            (at_line ("OpenVPN directive '" +:+ block +:+ "' requires a matching inline block") n)
        | None => Ok (sn_directives st)
        end
    end.

Section profiles.
Context `{PyStr}.

(** [str(profile.config.get("raw_config") or "")] *)
Definition raw_config_of (p : Profile) : string :=
  match dict_get "raw_config" (p_config p) with Some v => if truthy v then py_str v else "" | None => "" end.

Definition validate_openvpn_profile (p : Profile) : res unit :=
  if negb (bool_decide (p_protocol p = OPENVPN ∨ p_protocol p = OPENVPN_CLOAK)) then Ok tt
  else
    let raw_config := strip (raw_config_of p) in
    if negb (truthy_str raw_config) then raise OpenVPNConfigValidationError (protocol_value (p_protocol p) +:+ " profile requires raw_config")
    else _ ← validate_openvpn_config raw_config; Ok tt.
End profiles.

(** ** What an accepted configuration holds *)

(** A directive that may be handed to OpenVPN *)
Definition safe_directive (key : string) (args : list string) : Prop :=
  key ∈ SUPPORTED_OPENVPN_DIRECTIVES
  ∨ (key ∈ INLINE_PATH_DIRECTIVES ∧ ∃ a rest, args = a :: rest ∧ lower a = "[inline]"
       ∧ (rest = [] ∨ key = "tls-auth" ∧ (rest = ["0"] ∨ rest = ["1"])))
  ∨ (key ∈ SPECIAL_DIRECTIVES ∧ special_ok key args = true).

Definition entries (st : scan) (key : string) : list (list string) := default [] (dict_get key (sn_directives st)).
Definition tokens_of (line : string) : option (list string) := shlex_from is_commenter ShBlank "" false line.
Definition key_of (word : string) : string := remove_dashes (lower word).

(** The line is blank, a comment, or an entry of the scan *)
Definition recorded (st : scan) (line : string) : Prop :=
  ∃ tokens, tokens_of line = Some tokens
    ∧ match tokens with [] => True | word :: args => args ∈ entries st (key_of word) end.

Lemma check_directive_safe key args n b : check_directive key args n = Ok b → safe_directive key args.
Proof.
  unfold check_directive, safe_directive. destruct (str_in key INLINE_PATH_DIRECTIVES) eqn:E1.
  { apply str_in_spec in E1. intros Hc. right. left. split; [done|]. unfold validate_inline_path_directive in Hc.
    destruct args as [|a rest]; [done|]. destruct (String.eqb_spec (lower a) "[inline]") as [Ha|]; [|done]. cbn [negb] in Hc.
    exists a, rest. split; [done|]. split; [done|]. destruct rest as [|d [|]]; [by left| |done]. right.
    destruct (String.eqb_spec key "tls-auth") as [Hk|]; [|done]. cbn [andb] in Hc. destruct (str_in d ["0"; "1"]) eqn:Ed; [|done].
    apply str_in_spec in Ed. split; [done|]. rewrite !elem_of_cons in Ed. destruct Ed as [->|[->|Ed%not_elem_of_nil]]; [by left|by right|done]. }
  destruct (str_in key SPECIAL_DIRECTIVES) eqn:E2.
  { apply str_in_spec in E2. unfold validate_special_directive. destruct (special_ok key args) eqn:Es; [|done]. tauto. }
  destruct (str_in key SUPPORTED_OPENVPN_DIRECTIVES) eqn:E3; [|done]. apply str_in_spec in E3. tauto.
Qed.

Definition scan_safe (st : scan) : Prop := ∀ key args, args ∈ entries st key → safe_directive key args.
Definition grows (st st' : scan) : Prop := ∀ key args, args ∈ entries st key → args ∈ entries st' key.

Lemma scan_directive_spec st line n st' : sn_active st = None → scan_directive st line n = Ok st' →
  (scan_safe st → scan_safe st') ∧ grows st st' ∧ recorded st' line ∧ sn_active st' = None.
Proof.
  unfold scan_directive, directive_tokens. intros Ha. fold (tokens_of line). destruct (tokens_of line) as [tokens|] eqn:Et; [|done].
  cbn [mbind res_bind]. destruct tokens as [|word args].
  { intros [= <-]. split; [done|]. split; [by intros ? ?|]. split; [by exists []|done]. }
  fold (key_of word). destruct (negb _); [done|]. destruct (check_directive _ _ _) as [b|] eqn:Ec; [|done]. cbn [mbind res_bind]. intros [= <-].
  assert (He : ∀ key, entries {| sn_directives := dict_set (key_of word) (default [] (dict_get (key_of word) (sn_directives st)) ++ [args]) (sn_directives st);
      sn_inline_blocks := sn_inline_blocks st; sn_required := if b then sn_required st ++ [(key_of word, n)] else sn_required st;
      sn_active := None; sn_has_data := sn_has_data st |} key = if String.eqb key (key_of word) then entries st key ++ [args] else entries st key).
  { intros key. unfold entries. cbn [sn_directives]. rewrite dict_get_set. by destruct (String.eqb_spec key (key_of word)) as [->|]. }
  split; [|split; [|split; [|done]]].
  - intros Hs key args'. rewrite He. destruct (String.eqb_spec key (key_of word)) as [->|]; [|apply Hs].
    intros [Hin|Hin]%elem_of_app; [by apply Hs|]. apply list_elem_of_singleton in Hin as ->. by eapply check_directive_safe.
  - intros key args' Hin. rewrite He. destruct (String.eqb key (key_of word)); [|done]. apply elem_of_app. by left.
  - exists (word :: args). split; [done|]. rewrite He, String.eqb_refl. apply elem_of_app. right. apply list_elem_of_singleton. done.
Qed.

Lemma scan_line_spec st line n st' : scan_line st line n = Ok st' →
  (scan_safe st → scan_safe st') ∧ grows st st'
  ∧ (sn_active st = None → inline_tag (strip line) = None → recorded st' (strip line)).
Proof.
  unfold scan_line. destruct (truthy_str (strip line)) eqn:El; cbn [negb].
  2: { intros [= <-]. split; [done|]. split; [by intros ? ?|]. intros _ _. exists []. unfold truthy_str in El.
       apply negb_false_iff, String.eqb_eq in El. by rewrite El. }
  destruct (sn_active st) as [block|] eqn:Ea, (inline_tag (strip line)) as [[[] name]|]; intros Hl; cbv beta iota zeta in Hl; try done.
  - destruct (negb _); [done|]. destruct (negb _); [done|]. injection Hl as <-. split; [done|]. split; [by intros ? ?|done].
  - injection Hl as <-. split; [done|]. split; [by intros ? ?|done].
  - destruct (negb _); [done|]. injection Hl as <-. split; [done|]. split; [by intros ? ?|done].
  - destruct (scan_directive_spec st (strip line) n st' Ea Hl) as (? & ? & ? & _). done.
Qed.

Lemma scan_lines_spec st lines n st' : scan_lines st lines n = Ok st' → (scan_safe st → scan_safe st') ∧ grows st st'.
Proof.
  revert st n. induction lines as [|line lines IH]; intros st n; cbn [scan_lines]; [intros [= <-]; split; [done|by intros ? ?]|].
  destruct (scan_line st line n) as [st1|] eqn:El; [|done]. cbn [mbind res_bind]. intros Hs.
  destruct (scan_line_spec _ _ _ _ El) as (H1 & H2 & _). destruct (IH _ _ Hs) as [H3 H4]. split; [auto|]. intros key args Hin. auto.
Qed.

(** ** The reading of OpenVPN itself

    OpenVPN ends a line at a newline only; an inline block begins with a line that is its opening
    tag and ends with the first line that begins with its closing tag. *)
Fixpoint native (active : option string) (lines : list string) : list string :=
  match lines with
  | [] => []
  | l :: rest =>
      let s := strip l in
      match active with
      | Some b => native (if startswith ("</" +:+ b +:+ ">") s then None else Some b) rest
      | None =>
          match inline_tag s with
          | Some (false, name) => native (Some name) rest
          | _ => s :: native None rest
          end
      end
  end.

(** Every line that looks like a closing tag is one, and tags are in lower case *)
Definition plain_tags (l : string) : Prop :=
  (startswith "</" (strip l) = true → ∃ name, inline_tag (strip l) = Some (true, name))
  ∧ ∀ closing name, inline_tag (strip l) = Some (closing, name) → lower name = name.

Lemma tag_name_text s name : tag_name s = Some name → s = name +:+ ">".
Proof.
  revert name. induction s as [|c s IH]; intros name; [done|]. destruct s as [|c' s'].
  { cbn. destruct (tag_tail c) eqn:Et; destruct c as [[] [] [] [] [] [] [] []]; cbn; intros [= <-]; done. }
  intros Hn. assert (Hc : (if tag_tail c then option_map (String c) (tag_name (String c' s')) else None) = Some name).
  { revert Hn. cbn [tag_name]. by destruct c as [[] [] [] [] [] [] [] []]. }
  destruct (tag_tail c); [|done]. destruct (tag_name (String c' s')) as [n|]; [|done]. injection Hc as <-. cbn. by rewrite (IH n eq_refl).
Qed.

Lemma closing_tag_text s name : inline_tag s = Some (true, name) → s = "</" +:+ name +:+ ">".
Proof.
  unfold inline_tag. intros Hs.
  assert (Hx : ∃ t, s = String "<" (String "/" t) ∧ tag_name t = Some name).
  { destruct s as [|c s]; [done|]. destruct (Ascii.eqb_spec c "<") as [->|Hc].
    - destruct s as [|d t]; [done|]. destruct (Ascii.eqb_spec d "/") as [->|Hd].
      + exists t. split; [done|]. destruct (tag_name t) as [[|x n]|]; try done. destruct (tag_head x); [|done]. by injection Hs as <-.
      + exfalso. revert Hs. destruct d as [[] [] [] [] [] [] [] []]; try (by destruct Hd);
          (destruct (tag_name _) as [[|x n]|]; [done|destruct (tag_head x); done|done]).
    - exfalso. revert Hs. destruct c as [[] [] [] [] [] [] [] []]; try done; by destruct Hc. }
  destruct Hx as (t & -> & Ht). by rewrite (tag_name_text _ _ Ht).
Qed.

Lemma recorded_grows st st' l : grows st st' → recorded st l → recorded st' l.
Proof. intros Hg (tokens & Ht & Hr). exists tokens. split; [done|]. destruct tokens; [done|by apply Hg]. Qed.

Lemma startswith_app p q s : startswith (p +:+ q) s = true → startswith p s = true.
Proof.
  revert s. induction p as [|c p IH]; intros s; [by destruct s|]. destruct s as [|d s]; [done|].
  change (String c p +:+ q) with (String c (p +:+ q)). cbn. destruct (ascii_dec c d); [apply IH|done].
Qed.
Lemma app_string_nil (s : string) : s +:+ "" = s.
Proof. induction s as [|c s IH]; [done|]. change (String c (s +:+ "") = String c s). by rewrite IH. Qed.
Lemma startswith_refl p : startswith p p = true.
Proof. induction p as [|c p IH]; [done|]. cbn. by destruct (ascii_dec c c). Qed.

(** The block that one line leaves active is the one the reader is in *)
Lemma scan_line_active st l n st' : plain_tags l → scan_line st l n = Ok st' →
  ∀ rest, native (sn_active st) (l :: rest)
    = match sn_active st, inline_tag (strip l) with
      | None, None => strip l :: native (sn_active st') rest
      | _, _ => native (sn_active st') rest
      end.
Proof.
  intros [Hclose Hlow]. unfold scan_line. cbn [native]. destruct (truthy_str (strip l)) eqn:El; cbn [negb].
  2: { unfold truthy_str in El. apply negb_false_iff, String.eqb_eq in El. rewrite El. intros [= <-] rest. by destruct (sn_active st). }
  destruct (sn_active st) as [b|] eqn:Ea, (inline_tag (strip l)) as [[[] name]|] eqn:Et; intros Hl rest; cbv beta iota zeta in Hl |- *; try done.
  - destruct (String.eqb_spec (lower name) b) as [Hb|]; [|done]. cbn [negb] in Hl. destruct (negb _); [done|]. injection Hl as <-.
    rewrite (Hlow _ _ eq_refl) in Hb. subst b. by rewrite (closing_tag_text _ _ Et), startswith_refl.
  - injection Hl as <-. destruct (startswith ("</" +:+ b +:+ ">") (strip l)) eqn:Es; [|done]. change ("</" +:+ b +:+ ">") with ("</" +:+ (b +:+ ">")) in Es.
    apply startswith_app in Es. by destruct (Hclose Es) as (name & ?).
  - destruct (negb _); [done|]. injection Hl as <-. cbn [set_block sn_active]. by rewrite (Hlow _ _ eq_refl).
  - destruct (scan_directive_spec _ _ _ _ Ea Hl) as (_ & _ & _ & ->). done.
Qed.

Lemma native_recorded lines : ∀ st n st', Forall plain_tags lines → scan_lines st lines n = Ok st' →
  Forall (recorded st') (native (sn_active st) lines).
Proof.
  induction lines as [|l lines IH]; intros st n st' Hp; cbn [scan_lines]; [intros _; constructor|].
  apply Forall_cons in Hp as [Hl Hp]. destruct (scan_line st l n) as [st1|] eqn:E1; [|done]. cbn [mbind res_bind]. intros Hs.
  rewrite (scan_line_active _ _ _ _ Hl E1). pose proof (IH _ _ _ Hp Hs) as Hr. destruct (scan_line_spec _ _ _ _ E1) as (_ & _ & Hd).
  destruct (sn_active st), (inline_tag (strip l)); try exact Hr. constructor; [|exact Hr].
  apply (recorded_grows st1); [|by apply Hd]. by destruct (scan_lines_spec _ _ _ _ Hs).
Qed.

(** No line end but the newline *)
Definition only_newlines (s : string) : bool := forall_chars (fun c => negb (is_line_end c) || Ascii.eqb c newline) s.

Lemma splitlines_newlines acc s : only_newlines s = true → (∀ t, s ≠ t +:+ String newline "") → acc +:+ s ≠ "" →
  splitlines_from acc false s = match split_on newline s with w :: ws => (acc +:+ w) :: ws | [] => [] end.
Proof.
  revert acc. induction s as [|c s IH]; intros acc Ho Hn Hne.
  { cbn. rewrite app_string_nil in Hne |- *. unfold truthy_str. by destruct (String.eqb_spec acc ""). }
  unfold only_newlines in *. cbn [forall_chars] in Ho. apply andb_true_iff in Ho as [Hc Ho].
  assert (Hn' : ∀ t, s ≠ t +:+ String newline "") by (intros t ->; by apply (Hn (String c t))).
  cbn [splitlines_from split_on andb]. destruct (Ascii.eqb_spec c newline) as [->|Hcn].
  - change (is_line_end newline) with true. cbv iota. rewrite app_string_nil. change (Ascii.eqb newline "013") with false.
    rewrite (IH ""); [|done|done|]; [|intros Hs; apply (Hn ""); by change (s = "") in Hs; subst]. by destruct (split_on newline s).
  - rewrite orb_false_r in Hc. apply negb_true_iff in Hc. rewrite Hc.
    rewrite IH by (done || by destruct acc). pose proof (split_on_nonempty newline s). destruct (split_on newline s) as [|w ws]; [done|].
    by rewrite app_string_assoc.
Qed.

(** Directives with which OpenVPN runs programs, loads code or touches files of the host *)
Definition HOST_DIRECTIVES : list string :=
  ["up"; "down"; "up-restart"; "ipchange"; "route-up"; "route-pre-down"; "tls-verify"; "auth-user-pass-verify"; "client-connect";
   "client-disconnect"; "learn-address"; "script-security"; "plugin"; "iproute"; "engine"; "providers"; "config"; "cd"; "chroot";
   "daemon"; "log"; "log-append"; "status"; "writepid"; "management"; "tmp-dir"; "askpass"; "user"; "group"].

Lemma safe_not_host key args : safe_directive key args → key ∉ HOST_DIRECTIVES.
Proof.
  intros Hs Hh.
  assert (Hall : Forall (fun k => str_in k (SUPPORTED_OPENVPN_DIRECTIVES ++ INLINE_PATH_DIRECTIVES ++ SPECIAL_DIRECTIVES) = false)
                   HOST_DIRECTIVES) by (repeat constructor).
  rewrite Forall_forall in Hall. specialize (Hall key Hh). apply not_true_iff_false in Hall. apply Hall, str_in_spec.
  rewrite !elem_of_app. destruct Hs as [?|[[? _]|[? _]]]; tauto.
Qed.

Lemma validate_scan text ds : validate_openvpn_config text = Ok ds →
  ∃ st, scan_lines empty_scan (splitlines (strip text)) 1 = Ok st ∧ ds = sn_directives st ∧ strip text ≠ "".
Proof.
  unfold validate_openvpn_config. destruct (truthy_str (strip text)) eqn:Et; [|done]. cbn [negb].
  destruct (contains _ _); [done|]. destruct (scan_lines _ _ _) as [st|]; [|done]. cbn [mbind res_bind].
  destruct (sn_active st); [done|]. destruct (List.find _ _) as [[]|]; [done|]. intros [= <-]. exists st. split; [done|]. split; [done|].
  intros He. by rewrite He in Et.
Qed.

(** C21: A line reader that ends lines at newlines, takes a block from its opening tag to the first
    line that begins with its closing tag, and reads every other line as a directive sees only
    approved directives in an accepted configuration whose only line ends are newlines and whose
    tags are plain: every line it reads is blank, a comment, or an entry of the result that is safe,
    and none of them runs a program, loads code or names a host file. *)
Theorem openvpn_directives_approved text ds :
  validate_openvpn_config text = Ok ds → only_newlines (strip text) = true → Forall plain_tags (split_on newline (strip text)) →
  ∀ line, line ∈ native None (split_on newline (strip text)) →
  ∃ tokens, tokens_of line = Some tokens
    ∧ match tokens with
      | [] => True
      | word :: args => args ∈ default [] (dict_get (key_of word) ds) ∧ safe_directive (key_of word) args
                        ∧ key_of word ∉ HOST_DIRECTIVES
      end.
Proof.
  intros Hv Ho Hp line Hin. destruct (validate_scan _ _ Hv) as (st & Hs & -> & Hne).
  assert (Hsplit : splitlines (strip text) = split_on newline (strip text)).
  { unfold splitlines. rewrite splitlines_newlines; [|done|apply strip_no_final_newline|done]. by destruct (split_on newline (strip text)). }
  rewrite Hsplit in Hs. pose proof (native_recorded _ _ _ _ Hp Hs) as Hr. rewrite Forall_forall in Hr.
  destruct (Hr line Hin) as (tokens & Ht & Hrec). exists tokens. split; [done|]. destruct tokens as [|word args]; [done|].
  destruct (scan_lines_spec _ _ _ _ Hs) as [Hsafe _].
  assert (Hd : safe_directive (key_of word) args). { apply Hsafe; [|done]. by intros ? ? ?%not_elem_of_nil. }
  split; [done|]. split; [done|]. by eapply safe_not_host.
Qed.

Module DemoOpenVpn.
Definition nl : string := String newline "".
Definition ff : string := String "012" "".
Definition lines (l : list string) : string := join nl l.

Definition ordinary : string :=
  lines ["client"; "dev tun # the interface"; "remote 93.184.216.34 1194"; "<ca>"; "MIIB"; "</ca>"; "tls-auth [inline] 1"; "<tls-auth>";
         "00"; "</tls-auth>"].
Definition ordinary_result : pydict (list (list string)) :=
  [("client", [[]]); ("dev", [["tun"]]); ("remote", [["93.184.216.34"; "1194"]]); ("tls-auth", [["[inline]"; "1"]])].

Lemma ordinary_tags : Forall plain_tags (split_on newline (strip ordinary)).
Proof.
  vm_compute split_on.
  repeat (apply Forall_cons_2; [split; [vm_compute; intros; (discriminate || by eexists)|intros ? ?; vm_compute inline_tag; by intros [= <- <-]]|]). apply Forall_nil_2.
Defined.

Lemma openvpn_directives_approved_witness :
  ∃ tokens, tokens_of "dev tun # the interface" = Some tokens
    ∧ match tokens with
      | [] => True
      | word :: args => args ∈ default [] (dict_get (key_of word) ordinary_result) ∧ safe_directive (key_of word) args
                        ∧ key_of word ∉ HOST_DIRECTIVES
      end.
Proof.
  apply (openvpn_directives_approved ordinary).
  - vm_compute. reflexivity.
  - vm_compute. reflexivity.
  - exact ordinary_tags.
  - apply str_in_spec. vm_compute. reflexivity.
Defined.

Example refused :
  map (fun t => match validate_openvpn_config t with Ok _ => "accepted" | Err e => exn_message e end)
    ["up /bin/sh"; "--Script-Security 2"; "ca /etc/passwd"; "ca [inline]"; "<ca>"; lines ["<ca>"; "x"; "</key>"]; "setenv PATH x";
     "setenv opt block-outside-dns"; "remote 'a"; ""]
  = ["OpenVPN directive 'up' is unsupported or unsafe at line 1"; "OpenVPN directive 'script-security' is unsupported or unsafe at line 1";
     "OpenVPN directive 'ca' must use managed inline data at line 1"; "OpenVPN directive 'ca' requires a matching inline block at line 1";
     "OpenVPN inline block 'ca' is not closed"; "OpenVPN inline block 'ca' has a mismatched close at line 3";
     "OpenVPN directive 'setenv' has unsupported or unsafe arguments at line 1"; "accepted";
     "OpenVPN config has invalid quoting at line 1"; "OpenVPN config is empty"].
Proof. vm_compute. reflexivity. Qed.

Definition hidden : string :=
  lines ["client"; "# x" +:+ ff +:+ "<ca>"; "script-security 2"; "up /tmp/hook"; "# x" +:+ ff +:+ "</ca>"].
End DemoOpenVpn.

(** The boundary depends on that line discipline: a text whose block tags follow form feeds is
    accepted with no program directive in its result, although a reader that ends lines at newlines
    takes the tags for comments and the block's data for the directives script-security and up. *)
Theorem openvpn_hidden_directives :
  ∃ text ds, validate_openvpn_config text = Ok ds ∧ (∀ key, key ∈ HOST_DIRECTIVES → dict_get key ds = None)
    ∧ ∃ line, line ∈ native None (split_on newline (strip text))
      ∧ option_map (map key_of) (option_map (take 1) (tokens_of line)) = Some ["up"].
Proof.
  exists DemoOpenVpn.hidden, [("client", [[]])]. split; [vm_compute; reflexivity|]. split.
  - apply Forall_forall. repeat constructor.
  - exists "up /tmp/hook". split; [apply str_in_spec; vm_compute; reflexivity|vm_compute; reflexivity].
Qed.
