(* ===== verification/Endpoint.v ===== *)
(** * The endpoint policy of imported profiles

    parsers/endpoint_policy.py, and the endpoint of parsers/openvpn_safety.py: which host a profile
    may connect to.  The resolver is a parameter.  Addresses are global by the registry tables of
    the [ipaddress] module of CPython 3.14. *)
From stdpp Require Import base list strings pretty.
From Stdlib Require Import Ascii ZArith Lia.
From S2P Require Import Prelude PyData PyText PyUrl Profiles Rules OpenVpn.

(** ** [repr] of text *)
Definition is_printable (c : ascii) : bool := char_in 32 126 c || char_in 161 172 c || char_in 174 255 c.
Definition repr_char (quote c : ascii) : string :=
  if Ascii.eqb c "\" || Ascii.eqb c quote then String "\" (String c "")
  else if Ascii.eqb c "009" then "\t" else if Ascii.eqb c "010" then "\n" else if Ascii.eqb c "013" then "\r"
  else if is_printable c then String c ""
  else let n := Z.of_N (N_of_ascii c) in "\x" +:+ String (hex_digit (n / 16)) (String (hex_digit (n mod 16)) "").
Fixpoint repr_chars (quote : ascii) (s : string) : string :=
  match s with "" => "" | String c s' => repr_char quote c +:+ repr_chars quote s' end.
(** Single quotes unless the text holds one and no double quote *)
Definition repr_str (s : string) : string :=
  let quote := if contains "'" s && negb (contains (String "034" "") s) then "034"%char else "'"%char in
  String quote (repr_chars quote s +:+ String quote "").

(** ** [ipaddress]: global addresses *)
Definition in_network (a : IpAddress) (n : IpNetwork) : bool :=
  match a with
  | IPv4Address v => (nw_version n =? 4)%Z && (Z.land v (mask_of 32 (nw_prefix n)) =? nw_address n)%Z
  | IPv6Address v _ => (nw_version n =? 6)%Z && (Z.land v (mask_of 128 (nw_prefix n)) =? nw_address n)%Z
  end.

Definition networks (l : list string) : list IpNetwork := omap (ip_network true) l.
Definition IPV4_PRIVATE : list IpNetwork := networks
  ["0.0.0.0/8"; "10.0.0.0/8"; "127.0.0.0/8"; "169.254.0.0/16"; "172.16.0.0/12"; "192.0.0.0/24"; "192.0.0.170/31"; "192.0.2.0/24";
   "192.168.0.0/16"; "198.18.0.0/15"; "198.51.100.0/24"; "203.0.113.0/24"; "240.0.0.0/4"; "255.255.255.255/32"].
Definition IPV4_EXCEPTIONS : list IpNetwork := networks ["192.0.0.9/32"; "192.0.0.10/32"].
Definition IPV4_SHARED : list IpNetwork := networks ["100.64.0.0/10"].
Definition IPV6_PRIVATE : list IpNetwork := networks
  ["::1/128"; "::/128"; "::ffff:0:0/96"; "64:ff9b:1::/48"; "100::/64"; "2001::/23"; "2001:db8::/32"; "2002::/16"; "3fff::/20"; "fc00::/7"; "fe80::/10"].
Definition IPV6_EXCEPTIONS : list IpNetwork := networks
  ["2001:1::1/128"; "2001:1::2/128"; "2001:3::/32"; "2001:4:112::/48"; "2001:20::/28"; "2001:30::/28"].

Definition listed (a : IpAddress) (l : list IpNetwork) : bool := existsb (in_network a) l.
Definition is_private4 (v : Z) : bool := listed (IPv4Address v) IPV4_PRIVATE && negb (listed (IPv4Address v) IPV4_EXCEPTIONS).
Definition is_private (a : IpAddress) : bool :=
  match a with
  | IPv4Address v => is_private4 v
  | IPv6Address v _ =>
      if (Z.shiftr v 32 =? 65535)%Z then is_private4 (Z.land v 4294967295)
      else listed a IPV6_PRIVATE && negb (listed a IPV6_EXCEPTIONS)
  end.
Definition is_global (a : IpAddress) : bool :=
  match a with
  | IPv4Address _ => negb (listed a IPV4_SHARED) && negb (is_private a)
  | IPv6Address v _ =>
      if (Z.shiftr v 32 =? 65535)%Z
      then negb (listed (IPv4Address (Z.land v 4294967295)) IPV4_SHARED) && negb (is_private4 (Z.land v 4294967295))
      else negb (is_private a)
  end.

Example is_global_cases :
  map (fun s => option_map is_global (ip_address s))
    ["8.8.8.8"; "10.1.2.3"; "127.0.0.1"; "100.64.0.1"; "100.128.0.1"; "192.0.0.9"; "192.0.0.8"; "224.0.0.1"; "255.255.255.255";
     "::1"; "2606:4700::1"; "fd00::1"; "fe80::1%eth0"; "::ffff:10.0.0.1"; "::ffff:8.8.8.8"; "2001:3::1"; "2001:5::1"; "::ffff:100.64.0.1"; "host"]
  = [Some true; Some false; Some false; Some false; Some true; Some true; Some false; Some true; Some false;
     Some false; Some true; Some false; Some false; Some false; Some true; Some true; Some false; Some false; None].
Proof. vm_compute. reflexivity. Qed.

#[global] Instance IpAddress_eq_dec : EqDecision IpAddress.
Proof. solve_decision. Defined.

(** ** The endpoint of an OpenVPN profile *)
Section policy.
Context `{PyStr}.

(** [bool(directives.get(key))]: the key was given *)
Definition given (key : string) (ds : pydict (list (list string))) : bool :=
  negb (bool_decide (default [] (dict_get key ds) = [])).

Definition first_remote (lines : list (list string)) : string :=
  match List.find (fun args => negb (bool_decide (args = []))) lines with Some (host :: _) => host | _ => "" end.

Definition validated_openvpn_remote_host (p : Profile) : res string :=
  ds ← validate_openvpn_config (raw_config_of p);
  if given "remote-random" ds
  then raise OpenVPNConfigValidationError "OpenVPN remote-random is not supported by native endpoint protection"
  else if given "remote-random-hostname" ds
  then raise OpenVPNConfigValidationError "OpenVPN remote-random-hostname is not supported by native endpoint protection"
  else
    let remote_lines := default [] (dict_get "remote" ds) in
    if (1 <? length remote_lines)%nat
    then raise OpenVPNConfigValidationError
           "OpenVPN profiles with multiple remote endpoints are not supported by native endpoint protection"
    else
      let host := first_remote remote_lines in
      match parse_ipv4 host with
      | None =>
          match scoped_ipv6 host with
          | None => raise OpenVPNConfigValidationError
                      "OpenVPN hostname remote endpoints are not supported by native endpoint protection"
          | Some _ => raise OpenVPNConfigValidationError
                        "OpenVPN IPv6 remote endpoints are not supported by native endpoint protection"
          end
      | Some v =>
          if negb (is_global (IPv4Address v))
          then raise OpenVPNConfigValidationError
                 "OpenVPN remote endpoints must be global IPv4 addresses for native endpoint protection"
          else Ok (ipv4_text v)
      end.

(** ** parsers/endpoint_policy.py *)
Definition strip_brackets (host : string) : string :=
  if startswith "[" host && endswith "]" host then String.substring 1 (String.length host - 2) host else host.
Definition normalise_host (value : pyval) : res string :=
  let host := strip (if truthy value then py_str value else "") in
  let host := rstrip_dots (strip_brackets host) in
  if negb (truthy_str host) || negb (forall_chars (fun c => negb (is_space c)) host) || contains (String "000" "") host
  then raise EndpointPolicyError "endpoint host is empty or malformed"
  else Ok host.

(** The addresses that [getaddrinfo] gives, as rows *)
Definition Resolver : Type := string → res (list (list pyval)).

(** [str(row[4][0])]; [None] is an [IndexError] or a [TypeError] *)
Definition row_address (row : list pyval) : res (option string) :=
  match row !! 4%nat with
  | Some (PList l) => Ok (option_map py_str (l !! 0%nat))
  | Some (PStr (String c _)) => Ok (Some (String c ""))
  | Some (PDict _) => raise KeyError "0"
  | _ => Ok None
  end.

Definition before_percent (s : string) : string := (partition_on "%" s).1.1.

Fixpoint collect_addresses (host : string) (acc : list IpAddress) (rows : list (list pyval)) : res (list IpAddress) :=
  match rows with
  | [] => Ok acc
  | row :: rest =>
      text ← row_address row;
      match text ≫= fun s => ip_address (before_percent s) with
      | Some a => collect_addresses host (if bool_decide (a ∈ acc) then acc else acc ++ [a]) rest
      | None => raise EndpointPolicyError ("resolver returned an invalid address for " +:+ repr_str host)
      end
  end.

Definition is_os_error (e : exn) : bool := is_instance e OSError.

Definition resolved_addresses (resolver : Resolver) (host : string) : res (list IpAddress) :=
  match resolver host with
  | Err e => if is_os_error e then raise EndpointPolicyError ("endpoint resolution failed for " +:+ repr_str host) else Err e
  | Ok rows =>
      addresses ← collect_addresses host [] rows;
      if bool_decide (addresses = [])
      then raise EndpointPolicyError ("endpoint resolution returned no addresses for " +:+ repr_str host)
      else Ok addresses
  end.

Record options : Type := { op_require_resolution : bool; op_resolve_hostnames : bool; op_fakeip_ranges : list string }.

Definition local_hostname (host : string) : bool := str_in (lower host) ["localhost"; "localhost.localdomain"].
Definition non_global (host texts : string) : exn :=
  Exn EndpointPolicyError ("endpoint " +:+ repr_str host +:+ " resolves to a non-global address: " +:+ texts).

(** [ip_network(item, strict=False)] *)
Definition lenient_network (item : string) : res IpNetwork :=
  match ip_network false item with Some n => Ok n | None => raise ValueError (repr_str item +:+ " does not appear to be an IPv4 or IPv6 network") end.

(** The verdict on the answers of the resolver *)
Definition check_addresses (ranges : list string) (host : string) (addresses : list IpAddress) : res string :=
  match List.filter (fun a => negb (is_global a)) addresses with
  | [] => Ok host
  | unsafe =>
      fakeip ← map_res lenient_network ranges;
      if negb (bool_decide (fakeip = [])) && forallb (fun a => listed a fakeip) addresses then Ok host
      else Err (non_global host (join ", " (py_sorted String.ltb (map ip_text unsafe))))
  end.

Definition canonicalize_remote_endpoint (resolver : Resolver) (opts : options) (value : pyval) : res string :=
  host ← normalise_host value;
  if local_hostname host then raise EndpointPolicyError ("endpoint " +:+ repr_str host +:+ " is a local hostname")
  else match ip_address host with
  | Some literal => if is_global literal then Ok host else Err (non_global host (ip_text literal))
  | None =>
      if negb (op_resolve_hostnames opts || op_require_resolution opts) then Ok host
      else match resolved_addresses resolver host with
      | Err e => if bool_decide (exn_class e = EndpointPolicyError) && negb (op_require_resolution opts) then Ok host else Err e
      | Ok addresses => check_addresses (op_fakeip_ranges opts) host addresses
      end
  end.

Definition text_field (config : pydict pyval) (key : string) : option string :=
  match dict_get key config with Some (PStr s) => if truthy_str (strip s) then Some s else None | _ => None end.
Definition endpoint_part (endpoint : string) : string :=
  let raw := strip endpoint in
  if startswith "[" raw && contains "]" raw then (partition_on "]" (str_drop 1 raw)).1.1
  else if contains ":" raw then (rpartition_on ":" raw).1.1 else raw.

Definition profile_endpoint_host (p : Profile) : res (option string) :=
  if bool_decide (p_protocol p = OPENVPN) then host ← validated_openvpn_remote_host p; Ok (Some host)
  else Ok match text_field (p_config p) "host", text_field (p_config p) "server", text_field (p_config p) "endpoint" with
          | Some s, _, _ => Some s
          | None, Some s, _ => Some s
          | None, None, Some s => Some (endpoint_part s)
          | None, None, None => None
          end.

(** The subclasses of [ValueError] among the modelled classes *)
Definition is_value_error (e : exn) : bool :=
  bool_decide (exn_class e = ValueError ∨ exn_class e = OpenVPNConfigValidationError ∨ exn_class e = EndpointPolicyError).

Definition validate_profile_endpoint (resolver : Resolver) (opts : options) (p : Profile) : res string :=
  match profile_endpoint_host p with
  | Err e => if is_value_error e then raise EndpointPolicyError (exn_message e) else Err e
  | Ok None => raise EndpointPolicyError "profile has no remote endpoint host"
  | Ok (Some host) => canonicalize_remote_endpoint resolver opts (PStr host)
  end.
End policy.

(** ** Dotted quads *)
Definition DIGITS : list ascii := ["0"; "1"; "2"; "3"; "4"; "5"; "6"; "7"; "8"; "9"]%char.
Lemma digit_in c : char_in 48 57 c = true → c ∈ DIGITS.
Proof.
  destruct c as [[] [] [] [] [] [] [] []]; intros Hc; try discriminate Hc; unfold DIGITS; rewrite !elem_of_cons; tauto.
Qed.

Fixpoint digit_strings (n : nat) : list string :=
  match n with O => [""] | S n => "" :: (c ← DIGITS; s ← digit_strings n; [String c s]) end.
Lemma digit_strings_all n s : (String.length s <= n)%nat → forall_chars (char_in 48 57) s = true → s ∈ digit_strings n.
Proof.
  revert s. induction n as [|n IH]; intros [|c s] Hl Hd; cbn [String.length] in Hl; try lia; cbn [digit_strings]; try (by left).
  cbn [forall_chars] in Hd. apply andb_true_iff in Hd as [Hc Hd]. right. apply list_elem_of_bind. exists c. split; [|by apply digit_in].
  apply list_elem_of_bind. exists s. split; [apply list_elem_of_singleton; done|]. apply IH; [lia|done].
Qed.

Definition octet_ok (s : string) : bool :=
  match parse_octet s with Some n => String.eqb (pretty n) s && (0 <=? n)%Z && (n <=? 255)%Z | None => true end.
Lemma octets_ok : forallb octet_ok (digit_strings 3) = true.
Proof. vm_compute. reflexivity. Qed.

Lemma parse_octet_spec s n : parse_octet s = Some n →
  pretty n = s ∧ (0 <= n <= 255)%Z ∧ forall_chars (char_in 48 57) s = true ∧ s ≠ "".
Proof.
  intros Hp. assert (Hs : forall_chars (char_in 48 57) s = true ∧ s ≠ "" ∧ (String.length s <= 3)%nat).
  { unfold parse_octet in Hp. destruct (_ && _) eqn:E; [|done]. rewrite !andb_true_iff in E. destruct E as [[[H1 H2] H3] _].
    apply Nat.leb_le in H3. split; [done|]. split; [|done]. by intros ->. }
  destruct Hs as (Hd & Hne & Hl). pose proof octets_ok as Ho. rewrite forallb_forall in Ho.
  specialize (Ho s (proj1 (list_elem_of_In _ _) (digit_strings_all 3 s Hl Hd))). unfold octet_ok in Ho. rewrite Hp in Ho.
  rewrite !andb_true_iff in Ho. destruct Ho as [[H1 H2] H3]. apply String.eqb_eq in H1. split; [done|]. split; [lia|done].
Qed.

Lemma join_split sep s : join (String sep "") (split_on sep s) = s.
Proof.
  induction s as [|c s IH]; [done|]. cbn [split_on]. pose proof (split_on_nonempty sep s) as Hne.
  destruct (Ascii.eqb_spec c sep) as [->|Hc]; destruct (split_on sep s) as [|w ws] eqn:E; try done.
  - destruct ws; cbn [join] in IH |- *; by rewrite <- IH.
  - destruct ws as [|w' ws]; [cbn in IH |- *; by rewrite IH|].
    change (join (String sep "") (String c w :: w' :: ws)) with (String c (join (String sep "") (w :: w' :: ws))). by rewrite IH.
Qed.

(** The text of a dotted quad is the text it was parsed from *)
Lemma parse_ipv4_spec s v : parse_ipv4 s = Some v →
  (0 <= v < 2 ^ 32)%Z ∧ ipv4_text v = s ∧ forall_chars (fun c => char_in 48 57 c || Ascii.eqb c ".") s = true
  ∧ ∃ t d, s = t +:+ d ∧ d ≠ "" ∧ forall_chars (char_in 48 57) d = true.
Proof.
  unfold parse_ipv4. intros Hp. pose proof (join_split "." s) as Hj.
  destruct (split_on "." s) as [|a [|b [|c [|d [|]]]]]; cbn [map] in Hp; try done; [by destruct (parse_octet a)|
    by destruct (parse_octet a), (parse_octet b)|by destruct (parse_octet a), (parse_octet b), (parse_octet c)| |
    by destruct (parse_octet a), (parse_octet b), (parse_octet c), (parse_octet d)].
  destruct (parse_octet a) as [na|] eqn:Ea; [|done]. destruct (parse_octet b) as [nb|] eqn:Eb; [|done].
  destruct (parse_octet c) as [nc|] eqn:Ec; [|done]. destruct (parse_octet d) as [nd|] eqn:Ed; [|done]. injection Hp as <-.
  destruct (parse_octet_spec _ _ Ea) as (Ha & Ra & Da & _). destruct (parse_octet_spec _ _ Eb) as (Hb & Rb & Db & _).
  destruct (parse_octet_spec _ _ Ec) as (Hc & Rc & Dc & _). destruct (parse_octet_spec _ _ Ed) as (Hd & Rd & Dd & Nd).
  change (join "." [a; b; c; d]) with (a +:+ "." +:+ b +:+ "." +:+ c +:+ "." +:+ d) in Hj.
  split; [lia|]. split; [|split].
  - rewrite <- Hj. unfold ipv4_text. cbn [map]. change (256 ^ 3)%Z with 16777216%Z. change (256 ^ 2)%Z with 65536%Z.
    change (256 ^ 1)%Z with 256%Z. change (256 ^ 0)%Z with 1%Z.
    replace ((((na * 256 + nb) * 256 + nc) * 256 + nd) / 16777216)%Z with na by (Z.div_mod_to_equations; lia).
    replace ((((na * 256 + nb) * 256 + nc) * 256 + nd) / 65536)%Z with (na * 256 + nb)%Z by (Z.div_mod_to_equations; lia).
    replace ((((na * 256 + nb) * 256 + nc) * 256 + nd) / 256)%Z with ((na * 256 + nb) * 256 + nc)%Z by (Z.div_mod_to_equations; lia).
    rewrite Z.div_1_r, (Z.mod_small na) by lia. rewrite !(Z.add_comm (_ * 256)), !Z_mod_plus_full, !Z.mod_small by lia.
    by rewrite Ha, Hb, Hc, Hd.
  - assert (Hw : ∀ x, forall_chars (char_in 48 57) x = true → forall_chars (fun c => char_in 48 57 c || Ascii.eqb c ".") x = true).
    { intros x. apply forall_chars_impl. intros y Hy. by rewrite Hy. }
    by rewrite <- Hj, !forall_chars_app, (Hw a Da), (Hw b Db), (Hw c Dc), (Hw d Dd).
  - exists (a +:+ "." +:+ b +:+ "." +:+ c +:+ "."), d. split; [|done]. rewrite <- Hj, !app_string_assoc. done.
Qed.

(** ** Blocks of addresses as intervals *)
Lemma land_mask w k v : (0 <= k <= w)%Z → (0 <= v < 2 ^ w)%Z → Z.land v (2 ^ w - 2 ^ k) = (v / 2 ^ k * 2 ^ k)%Z.
Proof.
  intros Hk Hv. assert (Hm : (2 ^ w - 2 ^ k)%Z = Z.ldiff (Z.ones w) (Z.ones k)).
  { rewrite Z.ldiff_ones_r, Z.shiftl_mul_pow2, Z.shiftr_div_pow2, Z.ones_equiv by lia.
    replace (Z.pred (2 ^ w)) with ((2 ^ (w - k) - 1) * 2 ^ k + (2 ^ k - 1))%Z.
    - rewrite Z.div_add_l, (Z.div_small (2 ^ k - 1)) by lia. rewrite Z.add_0_r, Z.mul_sub_distr_r, <- Z.pow_add_r by lia.
      replace (w - k + k)%Z with w by lia. lia.
    - rewrite Z.mul_sub_distr_r, <- Z.pow_add_r by lia. replace (w - k + k)%Z with w by lia. lia. }
  rewrite Hm, <- Z.shiftr_div_pow2, <- Z.shiftl_mul_pow2, <- Z.ldiff_ones_r by lia.
  apply Z.bits_inj'. intros n Hn. rewrite Z.land_spec, !Z.ldiff_spec. destruct (Z.lt_ge_cases n w).
  - rewrite (Z.ones_spec_low w n) by lia. by rewrite andb_true_l.
  - destruct (Z.eq_dec v 0) as [->|]; [by rewrite Z.bits_0|]. rewrite (Z.bits_above_log2 v n); [done|lia|].
    apply Z.log2_lt_pow2; [lia|]. eapply Z.lt_le_trans; [apply Hv|]. by apply Z.pow_le_mono_r.
Qed.

(** An IPv4 block with the interval it stands for *)
Definition interval (n : IpNetwork) : Z * Z := (nw_address n, nw_address n + 2 ^ (32 - nw_prefix n) - 1)%Z.
Definition block_ok (n : IpNetwork) : bool :=
  (nw_version n =? 4)%Z && (0 <=? nw_prefix n)%Z && (nw_prefix n <=? 32)%Z
  && (nw_address n =? nw_address n / 2 ^ (32 - nw_prefix n) * 2 ^ (32 - nw_prefix n))%Z.

Lemma in_block n v : block_ok n = true → (0 <= v < 2 ^ 32)%Z →
  in_network (IPv4Address v) n = ((interval n).1 <=? v)%Z && (v <=? (interval n).2)%Z.
Proof.
  unfold block_ok, in_network, mask_of, interval. rewrite !andb_true_iff. intros [[[Hver H0] H32] Hal] Hv. cbn [fst snd]. rewrite Hver. cbn [andb].
  rewrite land_mask by lia. set (k := (32 - nw_prefix n)%Z) in *. apply Z.eqb_eq in Hal.
  assert (Hk : (0 < 2 ^ k)%Z) by (apply Z.pow_pos_nonneg; lia).
  pose proof (Z.div_mod v (2 ^ k)) as Hd. pose proof (Z.mod_pos_bound v (2 ^ k) Hk) as Hm.
  set (A := nw_address n) in *. set (q := (A / 2 ^ k)%Z) in *. set (qv := (v / 2 ^ k)%Z) in *.
  apply eq_true_iff_eq. rewrite andb_true_iff, Z.eqb_eq, !Z.leb_le. split; [nia|]. intros [Hlo Hhi]. assert (qv = q) by nia. nia.
Qed.

(** The blocks that are never public, as intervals *)
Definition quad (a b c d : Z) : Z := (((a * 256 + b) * 256 + c) * 256 + d)%Z.
Definition NON_PUBLIC : list (Z * Z) :=
  [(quad 0 0 0 0, quad 0 255 255 255); (quad 10 0 0 0, quad 10 255 255 255); (quad 100 64 0 0, quad 100 127 255 255);
   (quad 127 0 0 0, quad 127 255 255 255); (quad 169 254 0 0, quad 169 254 255 255); (quad 172 16 0 0, quad 172 31 255 255);
   (quad 192 0 0 0, quad 192 0 0 8); (quad 192 0 0 11, quad 192 0 0 255); (quad 192 0 2 0, quad 192 0 2 255);
   (quad 192 168 0 0, quad 192 168 255 255); (quad 198 18 0 0, quad 198 19 255 255); (quad 198 51 100 0, quad 198 51 100 255);
   (quad 203 0 113 0, quad 203 0 113 255); (quad 240 0 0 0, quad 255 255 255 255)].
Definition within (v : Z) (l : list (Z * Z)) : bool := existsb (fun i => (i.1 <=? v)%Z && (v <=? i.2)%Z) l.

Lemma listed_within v l : forallb block_ok l = true → (0 <= v < 2 ^ 32)%Z → listed (IPv4Address v) l = within v (map interval l).
Proof.
  intros Hl Hv. unfold listed, within. induction l as [|n l IH]; [done|]. cbn [forallb] in Hl. apply andb_true_iff in Hl as [Hn Hl].
  cbn [map existsb]. by rewrite in_block, IH.
Qed.

(** An IPv4 address is global exactly outside these intervals *)
Lemma is_global4_within v : (0 <= v < 2 ^ 32)%Z → is_global (IPv4Address v) = negb (within v NON_PUBLIC).
Proof.
  intros Hv. unfold is_global, is_private, is_private4. assert (Hb : forallb block_ok (IPV4_PRIVATE ++ IPV4_EXCEPTIONS ++ IPV4_SHARED) = true) by (vm_compute; reflexivity).
  rewrite !forallb_app, !andb_true_iff in Hb. destruct Hb as (Hp & He & Hs).
  rewrite (listed_within v IPV4_PRIVATE Hp Hv), (listed_within v IPV4_EXCEPTIONS He Hv), (listed_within v IPV4_SHARED Hs Hv).
  let x := eval vm_compute in (map interval IPV4_PRIVATE) in change (map interval IPV4_PRIVATE) with x.
  let x := eval vm_compute in (map interval IPV4_EXCEPTIONS) in change (map interval IPV4_EXCEPTIONS) with x.
  let x := eval vm_compute in (map interval IPV4_SHARED) in change (map interval IPV4_SHARED) with x.
  let x := eval vm_compute in NON_PUBLIC in change NON_PUBLIC with x.
  unfold within. cbn [existsb fst snd]. lia.
Qed.

(** ** What an accepted endpoint is *)
Section theorems.
Context `{PyStr}.

(** Global, and outside the intervals where these are IPv4 addresses *)
Definition public (a : IpAddress) : Prop :=
  is_global a = true ∧ match a with IPv4Address v => within v NON_PUBLIC = false | IPv6Address _ _ => True end.
(** The row holds the text of an address with the property *)
Definition answers (P : IpAddress → Prop) (row : list pyval) : Prop :=
  ∃ t a, row_address row = Ok (Some t) ∧ ip_address (before_percent t) = Some a ∧ P a.

Lemma ip_address4_range s v : ip_address s = Some (IPv4Address v) → parse_ipv4 s = Some v.
Proof.
  unfold ip_address. destruct (contains _ _); [done|]. destruct (parse_ipv4 s); [by intros [= ->]|].
  destruct (partition_on _ _) as [[addr sep] scope]. destruct (_ && _); [done|]. by destruct (parse_ipv6 addr).
Qed.
Lemma global_public s a : ip_address s = Some a → is_global a = true → public a.
Proof.
  intros Hs Hg. split; [done|]. destruct a as [v|]; [|done]. apply ip_address4_range, parse_ipv4_spec in Hs as [Hv _].
  rewrite is_global4_within in Hg by done. by apply negb_true_iff.
Qed.

(** Every row gave an address of the result, and every address of the result came before or from a row *)
Lemma collect_addresses_spec host rows : ∀ acc l, collect_addresses host acc rows = Ok l →
  (∀ a, a ∈ acc → a ∈ l) ∧ Forall (answers (fun a => a ∈ l)) rows ∧ (acc ≠ [] → l ≠ []) ∧ (rows = [] → l = acc).
Proof.
  induction rows as [|row rows IH]; intros acc l; cbn [collect_addresses]; [intros [= <-]; repeat split; auto|].
  destruct (row_address row) as [text|] eqn:Er; [|done]. cbn [mbind res_bind].
  destruct text as [t|]; [|done]. cbn [mbind option_bind]. destruct (ip_address (before_percent t)) as [a|] eqn:Ea; [|done]. intros Hc.
  destruct (IH _ _ Hc) as (H1 & H2 & H3 & _).
  assert (Ha : a ∈ (if bool_decide (a ∈ acc) then acc else acc ++ [a]) ∧ ∀ x, x ∈ acc → x ∈ (if bool_decide (a ∈ acc) then acc else acc ++ [a])).
  { case_bool_decide; [done|]. setoid_rewrite elem_of_app. rewrite list_elem_of_singleton. auto. }
  destruct Ha as [Ha Hx]. split; [auto|]. split; [|split; [|done]].
  - constructor; [|done]. exists t, a. auto.
  - intros Hne. apply H3. destruct acc as [|y acc]; [done|]. intros He. specialize (Hx y). rewrite He in Hx.
    by apply (not_elem_of_nil y), Hx, list_elem_of_here.
Qed.

Lemma answers_impl (P Q : IpAddress → Prop) rows :
  (∀ s a, ip_address s = Some a → P a → Q a) → Forall (answers P) rows → Forall (answers Q) rows.
Proof. intros Hi Hf. eapply Forall_impl; [exact Hf|]. intros row (t & a & ? & ? & ?). exists t, a. eauto. Qed.

Lemma resolved_addresses_spec resolver host l : resolved_addresses resolver host = Ok l →
  l ≠ [] ∧ ∃ rows, resolver host = Ok rows ∧ rows ≠ [] ∧ Forall (answers (fun a => a ∈ l)) rows.
Proof.
  unfold resolved_addresses. destruct (resolver host) as [rows|e]; [|by destruct (is_os_error e)].
  destruct (collect_addresses _ _ _) as [l'|] eqn:Ec; [|done]. cbn [mbind res_bind]. case_bool_decide as Hl; [done|]. intros [= <-].
  destruct (collect_addresses_spec _ _ _ _ Ec) as (_ & Hr & _ & Hn). split; [done|]. exists rows. split; [done|]. split; [|done].
  intros ->. by apply Hl, Hn.
Qed.

Lemma check_addresses_spec ranges host l h : check_addresses ranges host l = Ok h → h = host
  ∧ ((∀ a, a ∈ l → is_global a = true)
     ∨ ∃ nets, map_res lenient_network ranges = Ok nets ∧ nets ≠ [] ∧ ∀ a, a ∈ l → listed a nets = true).
Proof.
  unfold check_addresses. destruct (List.filter _ l) as [|u us] eqn:Ef.
  - intros [= <-]. split; [done|]. left. intros a Ha. apply list_elem_of_In in Ha. destruct (is_global a) eqn:Eg; [done|].
    assert (Hin : In a (List.filter (fun a => negb (is_global a)) l)) by (apply filter_In; by rewrite Eg). by rewrite Ef in Hin.
  - destruct (map_res lenient_network ranges) as [nets|] eqn:En; [|done]. cbn [mbind res_bind].
    case_bool_decide as Hn; [done|]. destruct (forallb _ l) eqn:Ea; [|done]. intros [= <-]. split; [done|]. right. exists nets.
    split; [done|]. split; [done|]. intros a Ha. rewrite forallb_forall in Ea. by apply Ea, list_elem_of_In.
Qed.

(** C22: When a connection requires resolution, an accepted endpoint is no local hostname, and it is a
    public address itself, or else every answer of the resolver is an address and there is at least one:
    all of them public, or all of them inside the captured FakeIP ranges.  Public means global in the
    registries, and for IPv4 outside the private, shared, loopback, link-local, documentation,
    benchmark and reserved intervals. *)
Theorem endpoint_answers_public resolver opts value h :
  canonicalize_remote_endpoint resolver opts value = Ok h → op_require_resolution opts = true →
  normalise_host value = Ok h ∧ local_hostname h = false
  ∧ match ip_address h with
    | Some a => public a
    | None => ∃ rows, resolver h = Ok rows ∧ rows ≠ []
        ∧ (Forall (answers public) rows
           ∨ ∃ nets, map_res lenient_network (op_fakeip_ranges opts) = Ok nets ∧ nets ≠ []
               ∧ Forall (answers (fun a => listed a nets = true)) rows)
    end.
Proof.
  unfold canonicalize_remote_endpoint. intros Hc Hr. destruct (normalise_host value) as [host|]; [|done]. cbn [mbind res_bind] in Hc.
  destruct (local_hostname host) eqn:El; [done|]. rewrite Hr, orb_true_r in Hc. cbn [negb] in Hc.
  assert (Hh : h = host ∧ match ip_address host with
    | Some a => is_global a = true
    | None => ∃ l, resolved_addresses resolver host = Ok l ∧ check_addresses (op_fakeip_ranges opts) host l = Ok h end).
  { destruct (ip_address host) as [a|]; [by destruct (is_global a); [injection Hc as <-|]|].
    destruct (resolved_addresses resolver host) as [l|e]; [|by rewrite andb_false_r in Hc].
    split; [|by exists l]. by destruct (check_addresses_spec _ _ _ _ Hc). }
  destruct Hh as [-> Hh]. split; [done|]. split; [done|]. destruct (ip_address host) as [a|] eqn:Ea; [by eapply global_public|].
  destruct Hh as (l & Hl & Hk). destruct (resolved_addresses_spec _ _ _ Hl) as (_ & rows & Hrows & Hne & Hans).
  exists rows. split; [done|]. split; [done|]. destruct (check_addresses_spec _ _ _ _ Hk) as [_ [Hg|(nets & Hn & Hnn & Hg)]]; [left|right].
  - eapply answers_impl; [|exact Hans]. intros s a Hs Hin. eapply global_public; eauto.
  - exists nets. split; [done|]. split; [done|]. eapply answers_impl; [|exact Hans]. eauto.
Qed.

Definition quad_char (c : ascii) : bool := char_in 48 57 c || Ascii.eqb c ".".

Lemma rstrip_digits p t d : d ≠ "" → forall_chars (fun c => negb (p c)) d = true → rstrip_by p (t +:+ d) = t +:+ d.
Proof.
  intros Hne Hd. induction t as [|c t IH]; [by apply rstrip_forall|].
  change (String c t +:+ d) with (String c (t +:+ d)). cbn [rstrip_by]. rewrite IH.
  destruct (String.eqb_spec (t +:+ d) "") as [He|]; [|by rewrite andb_false_r]. destruct t; [by destruct Hne|done].
Qed.

Lemma normalise_quad h v : parse_ipv4 h = Some v → normalise_host (PStr h) = Ok h.
Proof.
  intros Hp. destruct (parse_ipv4_spec _ _ Hp) as (_ & _ & Hq & t & d & He & Hd & Hdd).
  assert (Hs : forall_chars (fun c => negb (is_space c)) h = true).
  { eapply forall_chars_impl; [|exact Hq]. by intros [[] [] [] [] [] [] [] []]. }
  assert (Hne : truthy_str h = true) by (rewrite He; destruct t, d; done).
  unfold normalise_host. cbn [truthy py_str]. rewrite Hne, strip_no_space by done.
  assert (Hb : strip_brackets h = h).
  { unfold strip_brackets. destruct h as [|c h]; [done|]. cbn [forall_chars] in Hq. apply andb_true_iff in Hq as [Hc _].
    by destruct c as [[] [] [] [] [] [] [] []]. }
  assert (Hdot : rstrip_dots h = h).
  { unfold rstrip_dots. rewrite He. apply rstrip_digits; [done|]. eapply forall_chars_impl; [|exact Hdd]. by intros [[] [] [] [] [] [] [] []]. }
  rewrite Hb, Hdot, Hne, Hs. cbn [negb orb]. rewrite contains_char_false; [done|].
  eapply forall_chars_impl; [|exact Hq]. by intros [[] [] [] [] [] [] [] []].
Qed.

Lemma quad_literal h v : parse_ipv4 h = Some v → ip_address h = Some (IPv4Address v) ∧ local_hostname h = false.
Proof.
  intros Hp. destruct (parse_ipv4_spec _ _ Hp) as (_ & _ & Hq & t & d & He & Hd & Hdd). split.
  - unfold ip_address. rewrite contains_char_false, Hp; [done|]. eapply forall_chars_impl; [|exact Hq]. by intros [[] [] [] [] [] [] [] []].
  - assert (Hh : ∃ c h', h = String c h') by (rewrite He; destruct t, d; eauto; done). destruct Hh as (c & h' & ->).
    cbn [forall_chars] in Hq. apply andb_true_iff in Hq as [Hc _]. unfold local_hostname, str_in. cbn [lower existsb].
    by destruct c as [[] [] [] [] [] [] [] []].
Qed.

(** The endpoint of an accepted OpenVPN profile is pinned by its text: the configuration names one
    remote, given as a public IPv4 address in canonical form, that address is the endpoint, and the
    endpoint policy accepts it unchanged whatever the resolver answers and the options ask. *)
Theorem openvpn_endpoint_pinned p h :
  p_protocol p = OPENVPN → validated_openvpn_remote_host p = Ok h →
  (∃ ds args v, validate_openvpn_config (raw_config_of p) = Ok ds ∧ dict_get "remote" ds = Some [h :: args]
     ∧ parse_ipv4 h = Some v ∧ public (IPv4Address v))
  ∧ ∀ resolver opts, validate_profile_endpoint resolver opts p = Ok h.
Proof.
  intros Hprot Hv. assert (Hx : ∃ ds args v, validate_openvpn_config (raw_config_of p) = Ok ds ∧ dict_get "remote" ds = Some [h :: args]
     ∧ parse_ipv4 h = Some v ∧ is_global (IPv4Address v) = true).
  { revert Hv. unfold validated_openvpn_remote_host. destruct (validate_openvpn_config _) as [ds|]; [|done]. cbn [mbind res_bind].
    destruct (given _ _); [done|]. destruct (given _ _); [done|]. destruct (1 <? _)%nat eqn:El; [done|]. apply Nat.ltb_ge in El.
    destruct (parse_ipv4 _) as [v|] eqn:Ep; [|by destruct (scoped_ipv6 _)]. destruct (is_global _) eqn:Eg; [|done]. cbn [negb]. intros [= <-].
    destruct (parse_ipv4_spec _ _ Ep) as (_ & Ht & _). rewrite Ht. exists ds. destruct (dict_get "remote" ds) as [[|args [|]]|]; cbn in El; try lia; try done.
    destruct args as [|x args]; [done|]. exists args, v. auto. }
  destruct Hx as (ds & args & v & Hds & Hrem & Hp & Hg). destruct (quad_literal _ _ Hp) as [Ha Hl]. split.
  - exists ds, args, v. split; [done|]. split; [done|]. split; [done|]. by eapply global_public.
  - intros resolver opts. unfold validate_profile_endpoint, profile_endpoint_host. rewrite bool_decide_eq_true_2, Hv by done.
    cbn [mbind res_bind]. unfold canonicalize_remote_endpoint. rewrite (normalise_quad _ _ Hp). cbn [mbind res_bind]. by rewrite Hl, Ha, Hg.
Qed.
End theorems.

Module DemoEndpoint.
#[local] Instance str : PyStr := {| repr_compound := fun _ => ""; float_literal := fun _ => None |}.

Definition row (address : string) : list pyval := [PInt 2; PInt 1; PInt 6; PStr ""; PList [PStr address; PInt 0]].
Definition resolver : Resolver := fun host =>
  if String.eqb host "vpn.example" then Ok [row "93.184.216.34"; row "2606:4700::1%eth0"]
  else if String.eqb host "captured.example" then Ok [row "198.18.0.7"]
  else if String.eqb host "rebind.example" then Ok [row "93.184.216.34"; row "127.0.0.1"; row "10.0.0.1"]
  else if String.eqb host "odd.example" then Ok [[PInt 2]]
  else if String.eqb host "silent.example" then Ok []
  else raise OSError "Name or service not known".
Definition runtime (ranges : list string) : options :=
  {| op_require_resolution := true; op_resolve_hostnames := false; op_fakeip_ranges := ranges |}.

Example verdicts :
  map (fun h => match canonicalize_remote_endpoint resolver (runtime ["198.18.0.0/15"]) (PStr h) with
                | Ok h => h | Err e => exn_message e end)
    [" [93.184.216.34.] "; "vpn.example."; "captured.example"; "rebind.example"; "odd.example"; "silent.example"; "gone.example";
     "LOCALHOST"; "192.168.1.1"; "[::1]"; "a b"; ""]
  = ["93.184.216.34"; "vpn.example"; "captured.example";
     "endpoint 'rebind.example' resolves to a non-global address: 10.0.0.1, 127.0.0.1";
     "resolver returned an invalid address for 'odd.example'"; "endpoint resolution returned no addresses for 'silent.example'";
     "endpoint resolution failed for 'gone.example'"; "endpoint 'LOCALHOST' is a local hostname";
     "endpoint '192.168.1.1' resolves to a non-global address: 192.168.1.1"; "endpoint '::1' resolves to a non-global address: ::1";
     "endpoint host is empty or malformed"; "endpoint host is empty or malformed"].
Proof. vm_compute. reflexivity. Qed.

Lemma endpoint_answers_public_witness :
  normalise_host (PStr "vpn.example.") = Ok "vpn.example" ∧ local_hostname "vpn.example" = false
  ∧ ∃ rows, resolver "vpn.example" = Ok rows ∧ rows ≠ []
      ∧ (Forall (answers public) rows
         ∨ ∃ nets, map_res lenient_network ["198.18.0.0/15"] = Ok nets ∧ nets ≠ []
             ∧ Forall (answers (fun a => listed a nets = true)) rows).
Proof. apply (endpoint_answers_public resolver (runtime ["198.18.0.0/15"]) (PStr "vpn.example.") "vpn.example"); vm_compute; reflexivity. Defined.

Definition profile : Profile := {|
  p_id := "o"; p_name := "o"; p_protocol := OPENVPN; p_config := [("raw_config", PStr DemoOpenVpn.ordinary)]; p_source := MANUAL_SOURCE;
  p_provider_id := None; p_in_rotation_pool := true; p_enabled := true; p_created_at := {| dt_wall := 0; dt_utcoffset := None |};
  p_last_used := None; p_last_health_check := None; p_health_status := "unknown"; p_latency_ms := None; p_last_latency_check := None |}.

Lemma openvpn_endpoint_pinned_witness :
  (∃ ds args v, validate_openvpn_config (raw_config_of profile) = Ok ds ∧ dict_get "remote" ds = Some ["93.184.216.34" :: args]
     ∧ parse_ipv4 "93.184.216.34" = Some v ∧ public (IPv4Address v))
  ∧ ∀ resolver opts, validate_profile_endpoint resolver opts profile = Ok "93.184.216.34".
Proof. apply (openvpn_endpoint_pinned profile "93.184.216.34"); vm_compute; reflexivity. Defined.
End DemoEndpoint.
