(* ===== verification/ProfileSchema.v ===== *)
(** * Semantic validation of connection profiles

    parsers/profile_schema.py: the fields that each protocol needs before a profile may be stored or
    rendered for sing-box, and the conversions of configuration values that the readers share. *)
From stdpp Require Import base list strings.
From Stdlib Require Import Ascii ZArith Lia.
From S2P Require Import Prelude PyData PyText PyUrl Profiles Rules.

(** [cfg.get(key)] *)
Definition cfg_get (key : string) (cfg : pydict pyval) : pyval := dict_get_or key PNone cfg.
(** [value in (None, "")] *)
Definition none_or_empty (v : pyval) : bool := match v with PNone | PStr "" => true | _ => false end.
(** [text.isdigit()] on code points below 256: the superscripts count *)
Definition isdigit_char (c : ascii) : bool := is_digit c || char_in 178 179 c || char_in 185 185 c.
Definition isdigit (s : string) : bool := truthy_str s && forall_chars isdigit_char s.
(** [int(text)] *)
Definition int_of (s : string) : res Z :=
  match py_int s with Some z => Ok z | None => raise ValueError ("invalid literal for int() with base 10: '" +:+ s +:+ "'") end.

(** ** parsers/profile_schema.py *)
Definition NETWORK_PROTOCOLS : list ProtocolType := [VLESS; VMESS; TROJAN; HYSTERIA2; TUIC; SHADOWSOCKS; SOCKS; HTTP].
Definition UUID_PROTOCOLS : list ProtocolType := [VLESS; VMESS].
Definition semantic {A} (message : string) : res A := raise ProfileSemanticValidationError message.

Definition nonempty_string (v : pyval) : bool := match v with PStr s => truthy_str (strip s) | _ => false end.

Definition require_identifier (p : Profile) : res unit :=
  if negb (nonempty_string (PStr (p_id p))) then semantic "profile identifier is empty"
  else if negb (nonempty_string (PStr (p_name p))) then semantic "profile name is empty"
  else Ok tt.

Definition require_field (p : Profile) (field : string) : res unit :=
  if negb (nonempty_string (cfg_get field (p_config p)))
  then semantic (protocol_value (p_protocol p) +:+ " profile requires a non-empty " +:+ field) else Ok tt.

Definition validate_port (v : pyval) (label : string) : res unit :=
  port ← match v with
         | PInt z => Ok z
         | PStr s => if isdigit (strip s) then int_of (strip s) else semantic (label +:+ " must be an integer between 1 and 65535")
         | _ => semantic (label +:+ " must be an integer between 1 and 65535")
         end;
  if negb ((1 <=? port) && (port <=? 65535))%Z then semantic (label +:+ " must be between 1 and 65535") else Ok tt.

Fixpoint each_port (p : Profile) (keys : list string) : res unit :=
  match keys with
  | [] => Ok tt
  | key :: rest => _ ← validate_port (cfg_get key (p_config p)) (protocol_value (p_protocol p) +:+ " " +:+ key); each_port p rest
  end.
Definition validate_config_ports (p : Profile) (keys : list string) (required : bool) : res unit :=
  let given := List.filter (fun key => negb (none_or_empty (cfg_get key (p_config p)))) keys in
  if required && bool_decide (given = []) then semantic (protocol_value (p_protocol p) +:+ " profile requires a port")
  else each_port p given.

Definition wireguard_endpoint_port (endpoint : pyval) : option string :=
  match endpoint with
  | PStr text =>
      let value := strip text in
      if negb (truthy_str value) then None
      else if startswith "[" value then
        let '(_, found, rest) := partition_on "]" value in
        if negb found || negb (startswith ":" rest) then None else Some (str_drop 1 rest)
      else if negb (contains ":" value) then None
      else Some (rpartition_on ":" value).2
  | _ => None
  end.

Definition require_remote_host (p : Profile) : res unit :=
  if negb (existsb (fun key => nonempty_string (cfg_get key (p_config p))) ["host"; "server"])
  then semantic (protocol_value (p_protocol p) +:+ " profile requires a remote host") else Ok tt.

Definition PORT_KEYS : list string := ["port"; "server_port"].

Definition validate_wireguard (p : Profile) : res unit :=
  _ ← require_field p "private_key";
  _ ← require_field p "public_key";
  let endpoint := cfg_get "endpoint" (p_config p) in
  if negb (none_or_empty endpoint) then
    match wireguard_endpoint_port endpoint with
    | None => semantic (protocol_value (p_protocol p) +:+ " endpoint must include a port")
    | Some port =>
        _ ← validate_port (PStr port) (protocol_value (p_protocol p) +:+ " endpoint port");
        validate_config_ports p PORT_KEYS false
    end
  else
    _ ← require_remote_host p;
    validate_config_ports p PORT_KEYS true.

Definition validate_profile_semantics (p : Profile) : res unit :=
  _ ← require_identifier p;
  let protocol := p_protocol p in
  _ ← (if bool_decide (protocol ∈ NETWORK_PROTOCOLS)
       then _ ← require_remote_host p; validate_config_ports p PORT_KEYS true else Ok tt);
  match protocol with
  | VLESS | VMESS => require_field p "uuid"
  | TROJAN | HYSTERIA2 => require_field p "password"
  | TUIC => _ ← require_field p "uuid"; require_field p "password"
  | SHADOWSOCKS => _ ← require_field p "method"; require_field p "password"
  | WIREGUARD | AMNEZIAWG => validate_wireguard p
  | OPENVPN | OPENVPN_CLOAK => _ ← require_field p "raw_config"; validate_config_ports p PORT_KEYS false
  | SOCKS | HTTP => Ok tt
  end.
