(* ===== verification/SingBox.v ===== *)
(** * The sing-box configuration of a connection

    drivers/singbox_driver.py: the outbound of a profile, the outbounds of route chains, the
    interface they are bound to, and [generate_singbox_config], which composes them with the DNS
    section of [DnsConfig] and the route table of [RuleRoutes].  The host is an interface. *)
From stdpp Require Import base list strings pretty.
From Stdlib Require Import Ascii ZArith.
From S2P Require Import Prelude PyData PyText PyUrl Profiles NodeGroups RouteChains AppPolicy Rules RuleRoutes StateManager Dns DnsPolicy DnsConfig WatchdogPolicy Watchdog OpenVpn Endpoint ProfileSchema.

(** ** The host *)
Record completed : Type := { cp_returncode : Z; cp_stdout : string; cp_stderr : string }.
Record SbHost (W : Type) : Type := {
  sh_environ : string → option string;                     (** [os.environ.get] *)
  sh_which : string → PyM W bool;                          (** [shutil.which(name)] found it *)
  sh_run : list string → PyM W completed                   (** [subprocess.run(..., check=False)] *)
}.
Arguments sh_environ {W}.
Arguments sh_which {W}.
Arguments sh_run {W}.

Definition VIRTUAL_INTERFACE_PREFIXES : list string :=
  ["lo"; "tun"; "tap"; "wg"; "wd"; "ppp"; "tailscale"; "zt"; "docker"; "br-"; "veth"; "virbr"; "podman"].
Definition DISABLE_BIND_VALUES : list string := [""; "0"; "false"; "no"; "off"; "none"].
Definition SING_BOX_LOG_LEVELS : list string := ["trace"; "debug"; "info"; "warn"; "warning"; "error"; "fatal"; "panic"].
Definition TUN_MTU : Z := 1280.
Definition TUN_INBOUND_TAG : string := "watchdogvpn-tun-in".
Definition TUN_INTERFACE : string := "wdvpn-tun0".

(** ** Values *)

(** [a or b or ...] *)
Fixpoint py_or (l : list pyval) : pyval :=
  match l with [] => PNone | [v] => v | v :: rest => if truthy v then v else py_or rest end.
Definition cfg_or (cfg : pydict pyval) (keys : list string) : pyval := py_or (map (fun k => cfg_get k cfg) keys).
(** [a or text] *)
Definition or_text (v : pyval) (s : string) : pyval := if truthy v then v else PStr s.

Definition first_config_value (cfg : pydict pyval) (keys : list string) : pyval :=
  match List.find (fun v => negb (none_or_empty v)) (map (fun k => cfg_get k cfg) keys) with Some v => v | None => PNone end.

Definition normalize_port (v : pyval) (default : pyval) : res pyval :=
  match v with
  | PNone => Ok default
  | PInt _ | PBool _ => Ok v
  | PStr s => if isdigit s then z ← int_of s; Ok (PInt z) else Ok default
  | _ => Ok default
  end.

Definition comma_items (s : string) : list string := List.filter truthy_str (map strip (split_on "," s)).
Definition normalize_list (v : pyval) : list pyval :=
  match v with
  | PNone => []
  | PList l => l
  | PStr s => map PStr (comma_items s)
  | _ => [v]
  end.

(** [text.split(sep, 1)] when the separator occurs *)
Fixpoint split_once (sep s : string) : option (string * string) :=
  if startswith sep s then Some ("", str_drop (String.length sep) s)
  else match s with
       | "" => None
       | String c s' => option_map (fun ab => (String c ab.1, ab.2)) (split_once sep s')
       end.

Definition split_endpoint (endpoint : pyval) : res (pyval * pyval) :=
  match endpoint with
  | PStr text =>
      let value := strip text in
      if negb (truthy_str value) then Ok (PNone, PNone)
      else
        match (if startswith "[" value then split_once "]:" (str_drop 1 value) else None) with
        | Some (host, port) => port ← normalize_port (PStr port) PNone; Ok (PStr host, port)
        | None =>
            if negb (contains ":" value) then Ok (PStr value, PNone)
            else
              let '(host, _, port) := rpartition_on ":" value in
              port ← normalize_port (PStr port) PNone; Ok (PStr host, port)
        end
  | _ => Ok (PNone, PNone)
  end.

Definition truthy_config (v : pyval) : bool :=
  match v with
  | PBool b => b
  | PInt z => negb (z =? 0)%Z
  | PStr s => str_in (lower (strip s)) ["1"; "true"; "yes"; "on"]
  | _ => false
  end.
Definition vmess_tls_enabled (cfg : pydict pyval) : bool :=
  match cfg_get "tls" cfg with
  | PBool b => b
  | PStr s => str_in (lower (strip s)) ["1"; "true"; "yes"; "on"; "tls"]
  | _ => false
  end.

(** ** Outbounds *)
Section outbounds.
Context `{PyStr}.

Definition normalize_alpn (v : pyval) : list pyval :=
  List.map PStr (List.filter truthy_str (map py_str (normalize_list v))).

Definition when (b : bool) (kvs : pydict pyval) : pydict pyval := if b then kvs else [].

Definition utls (fingerprint : pyval) : pyval := PDict [("enabled", PBool true); ("fingerprint", fingerprint)].

Definition build_standard_tls_options (cfg : pydict pyval) (default_server : pyval) : pyval :=
  let name := first_config_value cfg ["sni"; "server_name"] in
  let fingerprint := first_config_value cfg ["fingerprint"; "fp"] in
  let alpn := normalize_alpn (cfg_get "alpn" cfg) in
  PDict ([("enabled", PBool true); ("server_name", if truthy name then name else default_server)]
         ++ when (truthy_config (first_config_value cfg ["insecure"; "allow_insecure"; "allowInsecure"])) [("insecure", PBool true)]
         ++ when (truthy fingerprint) [("utls", utls fingerprint)]
         ++ when (negb (bool_decide (alpn = []))) [("alpn", PList alpn)]).

Definition build_v2ray_transport (cfg : pydict pyval) : option pyval :=
  let network := lower (py_str (or_text (first_config_value cfg ["network"; "net"]) "tcp")) in
  let path := cfg_get "path" cfg in
  if str_in network [""; "tcp"] then None
  else Some (PDict (
    if str_in network ["ws"; "websocket"] then
      let host_header := first_config_value cfg ["transport_host"; "host_header"; "ws_host"] in
      [("type", PStr "ws")] ++ when (truthy path) [("path", path)]
      ++ when (truthy host_header) [("headers", PDict [("Host", host_header)])]
    else if String.eqb network "grpc" then
      let service_name := first_config_value cfg ["service_name"; "serviceName"; "grpc_service_name"] in
      [("type", PStr network)] ++ when (truthy service_name) [("service_name", service_name)]
    else if str_in network ["http"; "h2"] then
      let host_header := first_config_value cfg ["transport_host"; "host_header"] in
      [("type", PStr "http")] ++ when (truthy path) [("path", path)]
      ++ when (truthy host_header) [("host", PList (normalize_list host_header))]
    else [("type", PStr network)])).

Definition server_of (cfg : pydict pyval) : pyval := cfg_or cfg ["host"; "server"].
Definition port_of (cfg : pydict pyval) : res pyval := normalize_port (cfg_or cfg ["port"; "server_port"]) PNone.

Definition vless_tls (cfg : pydict pyval) : pydict pyval :=
  [("enabled", PBool true); ("server_name", py_or [cfg_or cfg ["sni"; "server_name"]; server_of cfg]);
   ("utls", utls (or_text (cfg_or cfg ["fingerprint"; "fp"]) "chrome"))].
Definition vless_outbound (name : string) (cfg : pydict pyval) : res (pydict pyval) :=
  port ← port_of cfg;
  let security := cfg_or cfg ["security"; "transport"] in
  let key := cfg_or cfg ["reality_public_key"; "public_key"; "pbk"] in
  let short_id := cfg_or cfg ["short_id"; "sid"] in
  Ok ([("type", PStr "vless"); ("tag", PStr name); ("server", server_of cfg); ("server_port", port); ("uuid", cfg_get "uuid" cfg);
       ("flow", cfg_get "flow" cfg); ("network", or_text (cfg_or cfg ["network"; "type"]) "tcp")]
      ++ (if truthy key || truthy short_id
          then [("tls", PDict (vless_tls cfg ++ [("reality", PDict [("enabled", PBool true); ("public_key", key); ("short_id", short_id)])]))]
          else when (truthy security) [("tls", PDict (vless_tls cfg))])).

Definition vmess_outbound (name : string) (cfg : pydict pyval) : res (pydict pyval) :=
  port ← port_of cfg;
  alter_id ← normalize_port (first_config_value cfg ["alter_id"; "alterId"; "aid"]) (PInt 0);
  Ok ([("type", PStr "vmess"); ("tag", PStr name); ("server", server_of cfg); ("server_port", port); ("uuid", cfg_get "uuid" cfg);
       ("alter_id", if truthy alter_id then alter_id else PInt 0); ("security", or_text (first_config_value cfg ["security"; "scy"]) "auto")]
      ++ when (vmess_tls_enabled cfg) [("tls", build_standard_tls_options cfg (server_of cfg))]
      ++ match build_v2ray_transport cfg with Some t => [("transport", t)] | None => [] end).

Definition trojan_outbound (name : string) (cfg : pydict pyval) : res (pydict pyval) :=
  port ← port_of cfg;
  Ok [("type", PStr "trojan"); ("tag", PStr name); ("server", server_of cfg); ("server_port", port); ("password", cfg_get "password" cfg);
      ("tls", build_standard_tls_options cfg (server_of cfg))].

Definition hysteria2_outbound (name : string) (cfg : pydict pyval) : res (pydict pyval) :=
  let alpn := cfg_get "alpn" cfg in
  let tls := [("enabled", PBool true); ("server_name", cfg_or cfg ["sni"; "server_name"; "host"; "server"])]
             ++ when (truthy_config (cfg_or cfg ["insecure"; "allow_insecure"; "allowInsecure"])) [("insecure", PBool true)]
             ++ when (truthy alpn) [("alpn", match alpn with PList _ => alpn | _ => PList [alpn] end)] in
  port ← port_of cfg;
  up ← normalize_port (cfg_or cfg ["up_mbps"; "upload_mbps"; "uploadMbps"]) PNone;
  down ← normalize_port (cfg_or cfg ["down_mbps"; "download_mbps"; "downloadMbps"]) PNone;
  let salamander v := ("obfs", PDict [("type", PStr "salamander"); ("password", v)]) in
  let obfs := cfg_get "obfs" cfg in
  let obfs_password := cfg_or cfg ["obfs_password"; "obfs-password"; "obfsPassword"] in
  Ok ([("type", PStr "hysteria2"); ("tag", PStr name); ("server", server_of cfg); ("server_port", port);
       ("password", cfg_get "password" cfg); ("tls", PDict tls)]
      ++ when (negb (py_eqb up PNone)) [("up_mbps", up)] ++ when (negb (py_eqb down PNone)) [("down_mbps", down)]
      ++ (if truthy obfs_password then [salamander obfs_password] else when (truthy obfs) [salamander obfs])).

Definition tuic_outbound (name : string) (cfg : pydict pyval) : res (pydict pyval) :=
  port ← port_of cfg;
  let mode := first_config_value cfg ["udp_relay_mode"; "udpRelayMode"] in
  Ok ([("type", PStr "tuic"); ("tag", PStr name); ("server", server_of cfg); ("server_port", port); ("uuid", cfg_get "uuid" cfg);
       ("password", cfg_get "password" cfg); ("congestion_control", dict_get_or "congestion_control" (PStr "bbr") cfg);
       ("tls", build_standard_tls_options cfg (server_of cfg))]
      ++ when (truthy mode) [("udp_relay_mode", mode)]).

Definition shadowsocks_outbound (name : string) (cfg : pydict pyval) : res (pydict pyval) :=
  port ← port_of cfg;
  Ok [("type", PStr "shadowsocks"); ("tag", PStr name); ("server", server_of cfg); ("server_port", port);
      ("method", cfg_get "method" cfg); ("password", cfg_get "password" cfg)].

Definition credentials (cfg : pydict pyval) : pydict pyval :=
  when (truthy (cfg_get "username" cfg)) [("username", cfg_get "username" cfg)]
  ++ when (truthy (cfg_get "password" cfg)) [("password", cfg_get "password" cfg)].
Definition socks_outbound (name : string) (cfg : pydict pyval) : res (pydict pyval) :=
  port ← port_of cfg;
  Ok ([("type", PStr "socks"); ("tag", PStr name); ("server", server_of cfg); ("server_port", port);
       ("version", dict_get_or "version" (PStr "5") cfg)] ++ credentials cfg).
Definition http_outbound (name : string) (cfg : pydict pyval) : res (pydict pyval) :=
  port ← port_of cfg;
  Ok ([("type", PStr "http"); ("tag", PStr name); ("server", server_of cfg); ("server_port", port)] ++ credentials cfg).

Definition protocol_to_outbound (p : Profile) : res (pydict pyval) :=
  match p_protocol p with
  | VLESS => vless_outbound (p_name p) (p_config p)
  | VMESS => vmess_outbound (p_name p) (p_config p)
  | TROJAN => trojan_outbound (p_name p) (p_config p)
  | HYSTERIA2 => hysteria2_outbound (p_name p) (p_config p)
  | TUIC => tuic_outbound (p_name p) (p_config p)
  | SHADOWSOCKS => shadowsocks_outbound (p_name p) (p_config p)
  | SOCKS => socks_outbound (p_name p) (p_config p)
  | HTTP => http_outbound (p_name p) (p_config p)
  | WIREGUARD | AMNEZIAWG | OPENVPN | OPENVPN_CLOAK =>
      raise ValueError ("unsupported protocol for sing-box: " +:+ protocol_value (p_protocol p))
  end.

(** [":" in address] for an element of the list of addresses; a value without containment raises *)
Definition has_colon (v : pyval) : res bool :=
  match v with
  | PStr s => Ok (contains ":" s)
  | PList l => Ok (existsb (py_eqb (PStr ":")) l)
  | PDict d => Ok (dict_has ":" d)
  | _ => raise TypeError "argument is not iterable"
  end.
Fixpoint any_colon (l : list pyval) : res bool :=
  match l with [] => Ok false | v :: rest => b ← has_colon v; if b : bool then Ok true else any_colon rest end.

Definition wireguard_to_endpoint (p : Profile) (tag : option string) : res (pydict pyval) :=
  let cfg := p_config p in
  '(endpoint_host, endpoint_port) ← split_endpoint (cfg_get "endpoint" cfg);
  port ← port_of cfg;
  let reserved := normalize_list (cfg_get "reserved" cfg) in
  let peer := [("address", py_or [server_of cfg; endpoint_host]); ("port", py_or [port; endpoint_port]);
               ("public_key", cfg_or cfg ["peer_public_key"; "public_key"]);
               ("allowed_ips", PList (normalize_list (or_text (cfg_get "allowed_ips" cfg) "0.0.0.0/0,::/0")))]
              ++ when (negb (bool_decide (reserved = []))) [("reserved", PList reserved)] in
  let local_addresses := normalize_list (cfg_or cfg ["local_address"; "address"]) in
  ipv6 ← any_colon local_addresses;
  mtu ← normalize_port (cfg_get "mtu" cfg) PNone;
  Ok ([("type", PStr "wireguard");
       ("tag", PStr (match tag with Some t => if truthy_str t then t else p_name p | None => p_name p end));
       ("system", PBool false); ("address", PList local_addresses); ("private_key", cfg_get "private_key" cfg); ("peers", PList [PDict peer])]
      ++ when (negb (bool_decide (local_addresses = [])) && negb ipv6) [("domain_strategy", PStr "ipv4_only")]
      ++ when (negb (py_eqb mtu PNone)) [("mtu", mtu)]).
End outbounds.

(** ** Interfaces of the host *)
Section host.
Context {W : Type} (host : SbHost W).

Definition is_physical_interface (name : string) : bool :=
  truthy_str name && negb (existsb (fun p => startswith p name) VIRTUAL_INTERFACE_PREFIXES).

(** The word after "dev"; [None]: there is no "dev", an error when it is the last word *)
Fixpoint word_after (word : string) (parts : list string) : res (option string) :=
  match parts with
  | [] => Ok None
  | w :: rest =>
      if String.eqb w word then match rest with x :: _ => Ok (Some x) | [] => raise IndexError "list index out of range" end
      else word_after word rest
  end.
Fixpoint default_interface (lines : list string) : res (option string) :=
  match lines with
  | [] => Ok None
  | line :: rest =>
      found ← word_after "dev" (py_split line);
      match found with
      | Some interface => if is_physical_interface interface then Ok (Some interface) else default_interface rest
      | None => default_interface rest
      end
  end.
Definition detect_default_interface : PyM W (option string) :=
  have ← sh_which host "ip";
  if negb have then mret None
  else
    r ← sh_run host ["ip"; "route"; "show"; "default"];
    if negb (cp_returncode r =? 0)%Z then mret None else liftR (default_interface (splitlines (cp_stdout r))).

(** The remote host of a line of [ss]; [None]: the line is skipped *)
Definition ssh_peer (line : string) : option string :=
  match last (py_split line) with
  | None => None
  | Some endpoint =>
      let text := if startswith "[" endpoint && contains "]" endpoint then Some (partition_on "]" (str_drop 1 endpoint)).1.1
                  else if contains ":" endpoint then Some (rpartition_on ":" endpoint).1.1 else None in
      text ≫= fun h => option_map ip_text (ip_address h)
  end.
(** A set of texts, sorted *)
Definition sorted_set (l : list string) : list string := py_sorted String.ltb (remove_dups l).
Definition active_ssh_management_peers : PyM W (option (list string)) :=
  have ← sh_which host "ss";
  if negb have then mret None
  else
    r ← sh_run host ["ss"; "-H"; "-tn"; "state"; "established"; "sport"; "="; ":22"];
    if negb (cp_returncode r =? 0)%Z then mret None
    else mret (Some (sorted_set (omap ssh_peer (splitlines (cp_stdout r))))).

(** [re.search(r"\bdev\s+(\S+)", text)] *)
Definition dev_of (text : string) : option string :=
  re_search ([RWordB] ++ rlit "dev" ++ rplus is_space ++ [ROpen] ++ rplus (fun c => negb (is_space c)) ++ [RClose]) text.

(** The interfaces of the peers, [None] when one of them has no physical one *)
Fixpoint peer_interfaces (peers : list string) : PyM W (option (list string)) :=
  match peers with
  | [] => mret (Some [])
  | peer :: rest =>
      r ← sh_run host ["ip"; "route"; "get"; peer];
      if negb (cp_returncode r =? 0)%Z then mret None
      else match dev_of (cp_stdout r) with
      | Some interface =>
          if negb (is_physical_interface interface) then mret None
          else more ← peer_interfaces rest; mret (option_map (cons interface) more)
      | None => mret None
      end
  end.
Definition detect_management_peer_interface : PyM W (option string) :=
  peers ← active_ssh_management_peers;
  match peers with
  | None | Some [] => mret None
  | Some peers =>
      have ← sh_which host "ip";
      if negb have then mret None
      else
        interfaces ← peer_interfaces peers;
        mret match option_map remove_dups interfaces with Some [i] => Some i | _ => None end
  end.

Definition outbound_bind_interface (p : Profile) : PyM W (option string) :=
  match dict_get "bind_interface" (p_config p) with
  | Some (PStr configured) =>
      let value := strip configured in
      mret (if str_in (lower value) DISABLE_BIND_VALUES then None else Some value)
  | _ =>
      let env_value := strip (default "auto" (sh_environ host "WATCHDOGVPN_SINGBOX_BIND_INTERFACE")) in
      if str_in (lower env_value) DISABLE_BIND_VALUES then mret None
      else if negb (String.eqb (lower env_value) "auto") then mret (Some env_value)
      else
        found ← detect_default_interface;
        match found with
        | Some i => mret (Some i)
        | None => detect_management_peer_interface
        end
  end.

Definition singbox_log_level : string :=
  let level := lower (strip (default "warning" (sh_environ host "WATCHDOGVPN_SINGBOX_LOG_LEVEL"))) in
  if str_in level SING_BOX_LOG_LEVELS then level else "warning".

Definition mode_requires_tun (mode : string) (capture_modes : option (list string)) : bool :=
  match capture_modes with Some modes => str_in "tun" modes | None => String.eqb mode "tun" end.

(** ** Paths that must stay outside the tunnel *)
Definition preflight_management_path (p : Profile) (mode : string) (capture_modes : option (list string)) : PyM W (list string) :=
  if negb (mode_requires_tun mode capture_modes) then mret []
  else
    peers ← active_ssh_management_peers;
    match peers with
    | None => raiseM ManagementPathSafetyError
                "TUN refused: active SSH control paths cannot be inspected; use a local console or restore ss/iproute2"
    | Some [] => mret []
    | Some peers =>
        bind ← outbound_bind_interface p;
        match bind with
        | Some (String _ _) => mret peers
        | _ => raiseM ManagementPathSafetyError
                 "TUN refused: active SSH control path cannot be bound to a physical interface; remove bind_interface=off or use a local console"
        end
    end.

Fixpoint native_routes (known_owned_interfaces peers : list string) : PyM W (pydict string) :=
  match peers with
  | [] => mret []
  | peer :: rest =>
      r ← sh_run host ["ip"; "route"; "get"; peer];
      match dev_of (cp_stdout r) with
      | Some interface =>
          if negb (cp_returncode r =? 0)%Z || str_in interface known_owned_interfaces || negb (is_physical_interface interface)
          then raiseM ManagementPathSafetyError "native policy TUN refused: SSH peer lacks a physical management route"
          else more ← native_routes known_owned_interfaces rest; mret ((peer, interface) :: more)
      | None => raiseM ManagementPathSafetyError "native policy TUN refused: SSH peer lacks a physical management route"
      end
  end.
Definition preflight_native_management_routes (mode : string) (capture_modes : option (list string)) (known_owned_interfaces : list string)
    : PyM W (pydict string) :=
  if negb (mode_requires_tun mode capture_modes) then mret []
  else
    peers ← active_ssh_management_peers;
    match peers with
    | None => raiseM ManagementPathSafetyError "native policy TUN refused: SSH peers or physical routes cannot be inspected"
    | Some peers =>
        have ← sh_which host "ip";
        if negb have then raiseM ManagementPathSafetyError "native policy TUN refused: SSH peers or physical routes cannot be inspected"
        else native_routes known_owned_interfaces peers
    end.
End host.

(** ** The document *)
Inductive route_rule : Type := RDict (d : pydict pyval) | RDns (r : dns_route_rule).
Inductive dns_rule : Type := DDict (d : pydict pyval) | DRoute (r : DnsRouteRule).
Record DnsSection : Type := { dx_servers : list DnsServer; dx_rules : list dns_rule; dx_final : string }.

(** Keys that the code adds later are options *)
Record sbconfig : Type := {
  cf_log_level : string; cf_inbounds : list (pydict pyval); cf_outbounds : list (pydict pyval); cf_endpoints : list (pydict pyval);
  cf_dns : option DnsSection; cf_rules : list route_rule; cf_rule_set : list (pydict pyval);
  cf_default_domain_resolver : option string; cf_fakeip_cache : option string
}.

Definition upd_outbounds (l : list (pydict pyval)) (c : sbconfig) : sbconfig :=
  {| cf_log_level := cf_log_level c; cf_inbounds := cf_inbounds c; cf_outbounds := l; cf_endpoints := cf_endpoints c; cf_dns := cf_dns c;
     cf_rules := cf_rules c; cf_rule_set := cf_rule_set c; cf_default_domain_resolver := cf_default_domain_resolver c;
     cf_fakeip_cache := cf_fakeip_cache c |}.
Definition upd_endpoints (l : list (pydict pyval)) (c : sbconfig) : sbconfig :=
  {| cf_log_level := cf_log_level c; cf_inbounds := cf_inbounds c; cf_outbounds := cf_outbounds c; cf_endpoints := l; cf_dns := cf_dns c;
     cf_rules := cf_rules c; cf_rule_set := cf_rule_set c; cf_default_domain_resolver := cf_default_domain_resolver c;
     cf_fakeip_cache := cf_fakeip_cache c |}.
Definition add_inbounds (l : list (pydict pyval)) (c : sbconfig) : sbconfig :=
  {| cf_log_level := cf_log_level c; cf_inbounds := cf_inbounds c ++ l; cf_outbounds := cf_outbounds c; cf_endpoints := cf_endpoints c;
     cf_dns := cf_dns c; cf_rules := cf_rules c; cf_rule_set := cf_rule_set c;
     cf_default_domain_resolver := cf_default_domain_resolver c; cf_fakeip_cache := cf_fakeip_cache c |}.
Definition set_dns (d : DnsSection) (c : sbconfig) : sbconfig :=
  {| cf_log_level := cf_log_level c; cf_inbounds := cf_inbounds c; cf_outbounds := cf_outbounds c; cf_endpoints := cf_endpoints c;
     cf_dns := Some d; cf_rules := cf_rules c; cf_rule_set := cf_rule_set c;
     cf_default_domain_resolver := cf_default_domain_resolver c; cf_fakeip_cache := cf_fakeip_cache c |}.
Definition set_rules (rules : list route_rule) (rule_set : list (pydict pyval)) (c : sbconfig) : sbconfig :=
  {| cf_log_level := cf_log_level c; cf_inbounds := cf_inbounds c; cf_outbounds := cf_outbounds c; cf_endpoints := cf_endpoints c;
     cf_dns := cf_dns c; cf_rules := rules; cf_rule_set := rule_set;
     cf_default_domain_resolver := cf_default_domain_resolver c; cf_fakeip_cache := cf_fakeip_cache c |}.
Definition set_default_resolver (tag : string) (c : sbconfig) : sbconfig :=
  {| cf_log_level := cf_log_level c; cf_inbounds := cf_inbounds c; cf_outbounds := cf_outbounds c; cf_endpoints := cf_endpoints c;
     cf_dns := cf_dns c; cf_rules := cf_rules c; cf_rule_set := cf_rule_set c; cf_default_domain_resolver := Some tag;
     cf_fakeip_cache := cf_fakeip_cache c |}.
Definition set_cache (path : string) (c : sbconfig) : sbconfig :=
  {| cf_log_level := cf_log_level c; cf_inbounds := cf_inbounds c; cf_outbounds := cf_outbounds c; cf_endpoints := cf_endpoints c;
     cf_dns := cf_dns c; cf_rules := cf_rules c; cf_rule_set := cf_rule_set c;
     cf_default_domain_resolver := cf_default_domain_resolver c; cf_fakeip_cache := Some path |}.
(** [_merge_route_config] *)
Definition merge_route_config (rules : list route_rule) (rule_set : list (pydict pyval)) (c : sbconfig) : sbconfig :=
  set_rules (cf_rules c ++ rules) (cf_rule_set c ++ rule_set) c.

(** Where an element of the document is: later assignments to it change the document *)
Inductive target : Type := TOutbound (i : nat) | TEndpoint (i : nat).
Definition at_target (t : target) (f : pydict pyval → pydict pyval) (c : sbconfig) : sbconfig :=
  match t with
  | TOutbound i => upd_outbounds (alter f i (cf_outbounds c)) c
  | TEndpoint i => upd_endpoints (alter f i (cf_endpoints c)) c
  end.
Definition target_get (t : target) (c : sbconfig) : option (pydict pyval) :=
  match t with TOutbound i => cf_outbounds c !! i | TEndpoint i => cf_endpoints c !! i end.
Definition tag_of (d : pydict pyval) : string := match dict_get "tag" d with Some (PStr s) => s | _ => "" end.
Definition target_tag (t : target) (c : sbconfig) : string := match target_get t c with Some d => tag_of d | None => "" end.

(** ** Inbounds *)
Definition proxy_inbound (type tag listen : string) (port : Z) : pydict pyval :=
  [("type", PStr type); ("tag", PStr tag); ("listen", PStr listen); ("listen_port", PInt port)].
Definition build_inbounds (lan_proxy : option LANProxyRuntimeConfig) : list (pydict pyval) :=
  [proxy_inbound "socks" "watchdogvpn-socks-in" "127.0.0.1" 2080; proxy_inbound "http" "watchdogvpn-http-in" "127.0.0.1" 2081]
  ++ match lan_proxy with
     | None => []
     | Some l =>
         let users := [("users", PList [PDict [("username", PStr (lp_username l)); ("password", PStr (lp_password l))]])] in
         [proxy_inbound "socks" "watchdogvpn-lan-socks-in" (lp_bind_address l) (lp_socks_port l) ++ users;
          proxy_inbound "http" "watchdogvpn-lan-http-in" (lp_bind_address l) (lp_http_port l) ++ users
            ++ [("set_system_proxy", PBool false)]]
     end.
Definition build_tun_inbound (route_exclude_address : list string) : pydict pyval :=
  [("type", PStr "tun"); ("tag", PStr TUN_INBOUND_TAG); ("interface_name", PStr TUN_INTERFACE); ("address", PList [PStr "172.19.0.1/30"]);
   ("mtu", PInt TUN_MTU); ("auto_route", PBool true); ("strict_route", PBool true); ("auto_redirect", PBool true); ("stack", PStr "system")]
  ++ match route_exclude_address with [] => [] | l => [("route_exclude_address", PList (map PStr l))] end.
Definition hijack_inbound_dict (h : HijackInbound) : pydict pyval :=
  [("type", PStr "direct"); ("tag", PStr (hi_tag h)); ("listen", PStr (hi_listen h)); ("listen_port", PInt (hi_listen_port h));
   ("network", PStr (hi_network h)); ("override_address", PStr (hi_override_address h)); ("override_port", PInt (hi_override_port h))].

(** ** Direct and management outbounds *)
Definition setdefault (k : string) (v : pyval) (d : pydict pyval) : pydict pyval := if dict_has k d then d else dict_set k v d.
Definition opt_set (k : string) (v : option pyval) (d : pydict pyval) : pydict pyval :=
  match v with Some v => dict_set k v d | None => d end.
Definition has_tag (tag : string) (d : pydict pyval) : bool :=
  match dict_get "tag" d with Some (PStr s) => String.eqb s tag | _ => false end.

(** The first outbound with the tag is changed, or one is appended; the position is returned *)
Fixpoint position (f : pydict pyval → bool) (l : list (pydict pyval)) : option nat :=
  match l with [] => None | d :: rest => if f d then Some 0%nat else option_map S (position f rest) end.
Definition refresh_direct (domain_resolver : option pyval) (bind_interface : option string) (d : pydict pyval) : pydict pyval :=
  let d := opt_set "domain_resolver" domain_resolver d in
  match bind_interface with Some b => setdefault "bind_interface" (PStr b) d | None => d end.
Definition ensure_direct_outbound (domain_resolver : option pyval) (bind_interface : option string) (c : sbconfig) : sbconfig * target :=
  match position (has_tag "direct") (cf_outbounds c) with
  | Some i =>
      (at_target (TOutbound i) (refresh_direct domain_resolver bind_interface) c, TOutbound i)
  | None =>
      let d := opt_set "bind_interface" (option_map PStr bind_interface)
                 (opt_set "domain_resolver" domain_resolver [("type", PStr "direct"); ("tag", PStr "direct")]) in
      (upd_outbounds (cf_outbounds c ++ [d]) c, TOutbound (length (cf_outbounds c)))
  end.
Definition ensure_management_outbound (tag bind_interface : string) (c : sbconfig) : sbconfig :=
  match position (has_tag tag) (cf_outbounds c) with
  | Some _ => c
  | None => upd_outbounds (cf_outbounds c
              ++ [[("type", PStr "direct"); ("tag", PStr tag); ("bind_interface", PStr bind_interface)]]) c
  end.

(** ** Profiles as route targets *)
Section generate.
Context {W : Type} (host : SbHost W) `{PyStr}.

(** [_apply_dialer_options] *)
Definition apply_dialer_options (outbound : pydict pyval) (p : Profile) : PyM W (pydict pyval) :=
  bind ← outbound_bind_interface host p;
  mret match bind with Some (String _ _ as b) => dict_set "bind_interface" (PStr b) outbound | _ => outbound end.

Definition profile_to_route_target (p : Profile) (tag : option string) (c : sbconfig) : PyM W (sbconfig * target) :=
  _ ← liftR (validate_profile_semantics p);
  if bool_decide (p_protocol p = WIREGUARD) then
    endpoint ← liftR (wireguard_to_endpoint p tag);
    endpoint ← apply_dialer_options endpoint p;
    mret (upd_endpoints (cf_endpoints c ++ [endpoint]) c, TEndpoint (length (cf_endpoints c)))
  else
    outbound ← liftR (protocol_to_outbound p);
    outbound ← apply_dialer_options (match tag with Some t => dict_set "tag" (PStr t) outbound | None => outbound end) p;
    mret (upd_outbounds (cf_outbounds c ++ [outbound]) c, TOutbound (length (cf_outbounds c))).

Fixpoint chain_hops (hops : list ChainRuntimeHopPlan) (previous : option string) (c : sbconfig) : PyM W sbconfig :=
  match hops with
  | [] => mret c
  | hop :: rest =>
      match hp_resolved_profile hop, hp_outbound_tag hop with
      | Some p, Some tag =>
          '(c, t) ← profile_to_route_target p (Some tag) c;
          let c := match previous with Some prev => at_target t (dict_set "detour" (PStr prev)) c | None => c end in
          chain_hops rest (Some tag) c
      | _, _ => chain_hops rest previous c
      end
  end.
Fixpoint append_chain_outbounds (plans : pydict ChainRuntimePlan) (c : sbconfig) : PyM W sbconfig :=
  match plans with
  | [] => mret c
  | (_, plan) :: rest =>
      c ← (if plan_resolved plan then chain_hops (pl_hops plan) None c else mret c);
      append_chain_outbounds rest c
  end.

(** ** DNS *)
Definition dns_proxy_outbound_tag (current_outbound_tag mode final_policy : string) (plans : pydict ChainRuntimePlan) : res string :=
  if String.eqb mode "rules" then Ok current_outbound_tag
  else
    t ← chain_target final_policy;
    Ok match t, dict_get final_policy plans with
       | Some _, Some plan => if plan_resolved plan then default current_outbound_tag (pl_route_outbound_tag plan) else current_outbound_tag
       | _, _ => current_outbound_tag
       end.

Definition opt_or {A} (a b : option A) : option A := match a with Some _ => a | None => b end.
Definition app_policy_dns_rule (cfg : SingBoxDNSConfig) (r : AppPolicyRule) : option (pydict pyval) :=
  let direct_server := first_tag (sc_channel_servers cfg) CH_DIRECT in
  let proxy_server := opt_or (sc_proxy_domain_resolver cfg) (first_tag (sc_channel_servers cfg) CH_PROXY) in
  let rule := map (fun kv => (kv.1, matcher_val kv.2)) (ar_match r) in
  let action := AppPolicy.action_value (ar_action r) in
  let rule :=
    if String.eqb action "block" then dict_set "action" (PStr "reject") rule
    else if String.eqb action "direct" then
      match direct_server with Some s => dict_set "server" (PStr s) rule | None => dict_set "action" (PStr "reject") rule end
    else match proxy_server with
         | Some s => dict_set "server" (PStr s) rule
         | None => if truthy_str (sc_final cfg) then dict_set "server" (PStr (sc_final cfg)) rule else rule
         end in
  if dict_has "server" rule || dict_has "action" rule then Some rule else None.
Definition app_policy_dns_rules (policy : option AppPolicy) (cfg : SingBoxDNSConfig) : list (pydict pyval) :=
  match policy with
  | Some p => if ap_enabled p then omap (app_policy_dns_rule cfg) (List.filter ar_enabled (ap_rules p)) else []
  | None => []
  end.

(** The generator of the DNS section always comes to a verdict ([DnsRouting]) *)
Definition dns_config_of (p : DNSPolicy) (tag : string) (allow_fakeip : bool) : res (option SingBoxDNSConfig) :=
  default (raise OtherError "no verdict") (build_singbox_dns_config p tag allow_fakeip).

(** The resolver of the servers that outbounds connect to: never one that is reached through the proxy *)
Definition outbound_resolver (cfg : SingBoxDNSConfig) : option string :=
  match first_tag (sc_channel_servers cfg) CH_DIRECT, first_tag (sc_channel_servers cfg) CH_BOOTSTRAP with
  | Some t, _ => Some t
  | None, Some t => Some t
  | None, None =>
      let proxy_tags := match List.find (fun kv => bool_decide (kv.1 = CH_PROXY)) (sc_channel_servers cfg) with
                        | Some (_, tags) => tags | None => [] end in
      if truthy_str (sc_final cfg) && negb (str_in (sc_final cfg) proxy_tags) then Some (sc_final cfg) else None
  end.
Definition direct_resolver_value (v : string * option string) : pyval :=
  match v with
  | (tag, None) => PStr tag
  | (tag, Some subnet) => PDict [("server", PStr tag); ("client_subnet", PStr subnet)]
  end.

Record GenOptions : Type := {
  g_mode : string; g_groups : list RuleGroup; g_app_policy : option AppPolicy; g_final_policy : string;
  g_rule_set_tags : pydict string; g_rule_set_declarations : list (pydict pyval); g_plans : pydict ChainRuntimePlan;
  g_lan_proxy : option LANProxyRuntimeConfig; g_capture_modes : option (list string); g_management_peers : list string;
  g_native_transport : bool; g_native_bypass_cidrs : list string; g_native_egress_interface : option string;
  g_management_routes : pydict string
}.

Definition native_bind_interface (o : GenOptions) : string := strip (default "" (g_native_egress_interface o)).
(** The interface of the direct outbound *)
Definition direct_bind (o : GenOptions) (p : Profile) : PyM W (option string) :=
  if g_native_transport o then mret (Some (native_bind_interface o)) else outbound_bind_interface host p.

Context (cache_path : string).

(** The parts of the document that follow from a DNS section *)
Definition with_dns_config (p : DNSPolicy) (o : GenOptions) (allow_fakeip : bool) (cfg : SingBoxDNSConfig) (t : target) (c : sbconfig) : sbconfig :=
  let app_rules := app_policy_dns_rules (if String.eqb (g_mode o) "rules" then g_app_policy o else None) cfg in
  let c := set_dns {| dx_servers := sc_servers cfg; dx_rules := map DDict app_rules ++ map DRoute (sc_rules cfg); dx_final := sc_final cfg |} c in
  let c := add_inbounds (map hijack_inbound_dict (build_dns_hijack_inbounds p)) c in
  let c := match build_tun_domain_preservation_route p TUN_INBOUND_TAG allow_fakeip with
           | Some rules => set_cache cache_path (merge_route_config (map RDns rules) [] c)
           | None => c
           end in
  let c := match build_dns_hijack_route p with Some rules => merge_route_config (map RDns rules) [] c | None => c end in
  match outbound_resolver cfg with
  | Some resolver => set_default_resolver resolver (at_target t (dict_set "domain_resolver" (PStr resolver)) c)
  | None => c
  end.
Definition needs_direct_outbound (cfg : SingBoxDNSConfig) : bool :=
  match sc_direct_domain_resolver cfg with Some _ => true | None => false end
  || existsb (fun kv => negb (bool_decide (kv.1 = CH_PROXY))) (sc_channel_servers cfg).

Definition add_dns (profile : Profile) (policy : option DNSPolicy) (o : GenOptions) (allow_fakeip : bool) (t : target) (c : sbconfig)
    : PyM W sbconfig :=
  match policy with
  | None => mret c
  | Some p =>
      tag ← liftR (dns_proxy_outbound_tag (target_tag t c) (g_mode o) (g_final_policy o) (g_plans o));
      cfg ← liftR (dns_config_of p tag allow_fakeip);
      match cfg with
      | None => mret c
      | Some cfg =>
          let c := with_dns_config p o allow_fakeip cfg t c in
          if needs_direct_outbound cfg then
            bind ← direct_bind o profile;
            mret (ensure_direct_outbound (option_map direct_resolver_value (sc_direct_domain_resolver cfg)) bind c).1
          else mret c
      end
  end.

(** ** Routes in front of the table *)
Definition peer_cidr (peer : string) : string := if contains ":" peer then peer +:+ "/128" else peer +:+ "/32".
Definition peer_rule (peer outbound : string) : route_rule :=
  RDict [("ip_cidr", PList [PStr (peer_cidr peer)]); ("action", PStr "route"); ("outbound", PStr outbound)].
Definition bypass_rule (cidr : string) : route_rule :=
  RDict [("ip_cidr", PList [PStr cidr]); ("network", PStr "udp"); ("action", PStr "bypass")].
Definition management_tag (index : nat) : string := "watchdogvpn-management-" +:+ pretty index.

Fixpoint management_outbounds (index : nat) (routes : list (string * string)) (c : sbconfig) : sbconfig * list route_rule :=
  match routes with
  | [] => (c, [])
  | (peer, interface) :: rest =>
      let c := ensure_management_outbound (management_tag index) interface c in
      let '(c, rules) := management_outbounds (S index) rest c in
      (c, peer_rule peer (management_tag index) :: rules)
  end.
(** [sorted(routes.items())]: the keys are distinct *)
Definition sorted_routes (routes : pydict string) : list (string * string) := py_sorted (fun a b => String.ltb a.1 b.1) routes.

Definition add_front_rules (o : GenOptions) (c : sbconfig) : sbconfig :=
  let bypass := map bypass_rule (g_native_bypass_cidrs o) in
  match g_management_routes o with
  | [] =>
      match g_management_peers o, bypass with
      | [], [] => c
      | peers, _ => set_rules (bypass ++ map (fun peer => peer_rule peer "direct") peers ++ cf_rules c) (cf_rule_set c) c
      end
  | routes =>
      let '(c, rules) := management_outbounds 1 (sorted_routes routes) c in
      set_rules (bypass ++ rules ++ cf_rules c) (cf_rule_set c) c
  end.

(** ** [generate_singbox_config] *)
Definition route_table (o : GenOptions) (tag : string) : res (list sbrule) :=
  let rules := String.eqb (g_mode o) "rules" in
  build_singbox_route_rules tag (g_plans o)
    (if rules then g_groups o else []) (if rules then g_app_policy o else None)
    (if rules then g_final_policy o else if String.eqb (g_mode o) "direct" then "direct" else g_final_policy o)
    (if rules then g_rule_set_tags o else []).

Context (write_config : sbconfig → PyM W unit).

Definition generate_singbox_config (profile : Profile) (policy : option DNSPolicy) (o : GenOptions) : PyM W sbconfig :=
  if negb (str_in (g_mode o) ALLOWED_ACTIVE_MODES)
  then raiseM ValueError ("unsupported connection mode: " +:+ repr_str (g_mode o))
  else
  chain ← liftR (if str_in (g_final_policy o) SIMPLE_RULE_ACTIONS then Ok true
                 else t ← chain_target (g_final_policy o); Ok match t with Some _ => true | None => false end);
  if negb chain then raiseM ValueError ("unsupported final_policy: " +:+ repr_str (g_final_policy o))
  else
  let c := {| cf_log_level := singbox_log_level host; cf_inbounds := build_inbounds (g_lan_proxy o); cf_outbounds := []; cf_endpoints := [];
              cf_dns := None; cf_rules := []; cf_rule_set := []; cf_default_domain_resolver := None; cf_fakeip_cache := None |} in
  '(c, t) ← (if g_native_transport o then
               if negb (truthy_str (native_bind_interface o)) then raiseM ValueError "native_transport requires native_egress_interface"
               else mret (ensure_direct_outbound None (Some (native_bind_interface o)) c)
             else profile_to_route_target profile None c);
  c ← append_chain_outbounds (g_plans o) c;
  let tun_active := mode_requires_tun (g_mode o) (g_capture_modes o) in
  let c := if tun_active then add_inbounds [build_tun_inbound (g_native_bypass_cidrs o)] c else c in
  c ← add_dns profile policy o (tun_active && negb (g_native_transport o)) t c;
  c ← (if str_in (g_mode o) ["rules"; "direct"] || negb (bool_decide (g_management_peers o = [])) then
         bind ← direct_bind o profile;
         mret (ensure_direct_outbound None bind c).1
       else mret c);
  table ← liftR (route_table o (target_tag t c));
  let c := merge_route_config (map RDict table) (if String.eqb (g_mode o) "rules" then g_rule_set_declarations o else []) c in
  let c := add_front_rules o c in
  _ ← write_config c;
  mret c.
End generate.
