(* ===== verification/SingBoxConfig.v ===== *)
(** * What the generated sing-box configuration guarantees

    About [SingBox]: the tags and types of outbounds through the generation, references, the
    management paths outside the tunnel, and the resolver of the tunnel's own server. *)
From stdpp Require Import base list strings pretty.
From Stdlib Require Import Ascii ZArith Lia.
From S2P Require Import Prelude Steps PyData PyText PyUrl Profiles NodeGroups RouteChains AppPolicy Rules RuleRoutes StateManager Dns DnsPolicy DnsConfig DnsRouting WatchdogPolicy Watchdog OpenVpn Endpoint ProfileSchema SingBox.

(** ** Heads: the tag and the type of an element *)
Definition head_of (d : pydict pyval) : string * option pyval := (tag_of d, dict_get "type" d).
Definition heads (c : sbconfig) : list (string * option pyval) := map head_of (cf_outbounds c).
Definition endpoint_heads (c : sbconfig) : list (string * option pyval) := map head_of (cf_endpoints c).
(** The tags that routes may name *)
Definition tags (c : sbconfig) : list string := map tag_of (cf_outbounds c) ++ map tag_of (cf_endpoints c).

Lemma tags_heads c : tags c = map fst (heads c ++ endpoint_heads c).
Proof. unfold tags, heads, endpoint_heads. by rewrite map_app, !map_map. Qed.

Lemma head_dict_set k v d : k ≠ "tag" → k ≠ "type" → head_of (dict_set k v d) = head_of d.
Proof. intros H1 H2. unfold head_of, tag_of. by rewrite !dict_get_set_ne by congruence. Qed.
Lemma head_opt_set k v d : k ≠ "tag" → k ≠ "type" → head_of (opt_set k v d) = head_of d.
Proof. intros H1 H2. destruct v; [by apply head_dict_set|done]. Qed.
Lemma head_setdefault k v d : k ≠ "tag" → k ≠ "type" → head_of (setdefault k v d) = head_of d.
Proof. intros H1 H2. unfold setdefault. destruct (dict_has k d); [done|by apply head_dict_set]. Qed.

Lemma map_alter {A B} (g : A → B) (f : A → A) i l : (∀ x, g (f x) = g x) → map g (alter f i l) = map g l.
Proof. intros Hf. revert i. induction l as [|x l IH]; intros [|i]; cbn; [done|done|by rewrite Hf|]. f_equal. apply IH. Qed.

Lemma heads_at_target t f c : (∀ d, head_of (f d) = head_of d) →
  heads (at_target t f c) = heads c ∧ endpoint_heads (at_target t f c) = endpoint_heads c.
Proof. intros Hf. destruct t; cbn; unfold heads, endpoint_heads; cbn [cf_outbounds cf_endpoints upd_outbounds upd_endpoints]; by rewrite map_alter. Qed.

Lemma has_tag_head tag d : tag ≠ "" → has_tag tag d = String.eqb (head_of d).1 tag.
Proof.
  intros Ht. unfold has_tag, head_of, tag_of. cbn [fst]. destruct (dict_get "tag" d) as [[]|]; try done;
    symmetry; by apply String.eqb_neq.
Qed.

(** [position] in terms of the heads *)
Lemma position_None tag l : tag ≠ "" → position (has_tag tag) l = None ↔ tag ∉ map fst (map head_of l).
Proof.
  intros Ht. induction l as [|d l IH]; cbn [position map]; [split; [intros _ ?%not_elem_of_nil; done|done]|].
  rewrite has_tag_head, not_elem_of_cons by done. destruct (String.eqb_spec (head_of d).1 tag) as [->|Hne]; [by intuition|].
  rewrite <- IH. destruct (position _ l); cbn; naive_solver.
Qed.
Lemma position_Some f l i : position f l = Some i → ∃ d, l !! i = Some d ∧ f d = true.
Proof.
  revert i. induction l as [|d l IH]; intros i; cbn [position]; [done|]. destruct (f d) eqn:E; [intros [= <-]; by exists d|].
  destruct (position f l); [|done]. intros [= <-]. by apply IH.
Qed.

(** ** Operations on heads *)
Definition DIRECT_HEAD : string * option pyval := ("direct", Some (PStr "direct")).

Lemma ensure_direct_heads r b c c' t : ensure_direct_outbound r b c = (c', t) →
  heads c' = heads c ++ (if decide ("direct" ∈ map fst (heads c)) then [] else [DIRECT_HEAD])
  ∧ endpoint_heads c' = endpoint_heads c ∧ cf_rules c' = cf_rules c ∧ cf_rule_set c' = cf_rule_set c ∧ cf_dns c' = cf_dns c
  ∧ cf_inbounds c' = cf_inbounds c ∧ cf_default_domain_resolver c' = cf_default_domain_resolver c
  ∧ target_tag t c' = "direct" ∧ ∃ i, t = TOutbound i ∧ (i < length (cf_outbounds c'))%nat.
Proof.
  unfold ensure_direct_outbound. destruct (position _ _) as [i|] eqn:Ep; intros [<- <-]%pair_eq.
  - destruct (position_Some _ _ _ Ep) as (d & Hd & Ht). rewrite has_tag_head in Ht by done. apply String.eqb_eq in Ht.
    assert (Hf : ∀ d, head_of (refresh_direct r b d) = head_of d).
    { intros x. unfold refresh_direct. destruct b; [rewrite head_setdefault by done|]; by apply head_opt_set. }
    destruct (heads_at_target (TOutbound i) _ c Hf) as [-> ->]. rewrite decide_True, app_nil_r.
    2: { apply list_elem_of_fmap. exists (head_of d). split; [done|]. apply list_elem_of_fmap. exists d. split; [done|].
         by eapply list_elem_of_lookup_2. }
    repeat (split; [done|]). unfold target_tag. cbn [target_get at_target cf_outbounds upd_outbounds]. rewrite list_lookup_alter, Hd, decide_True by done. cbn.
    split; [pose proof (f_equal fst (Hf d)) as Hx; cbn in Hx; cbn in Ht; congruence|]. exists i. split; [done|]. rewrite length_alter. by eapply lookup_lt_Some.
  - apply position_None in Ep; [|done]. rewrite decide_False by done.
    unfold heads, endpoint_heads. cbn [cf_outbounds cf_endpoints upd_outbounds]. rewrite map_app. cbn [map].
    rewrite !head_opt_set by done. repeat (split; [done|]). unfold target_tag. cbn [target_get cf_outbounds upd_outbounds].
    rewrite lookup_app_r, Nat.sub_diag by done. cbn.
    set (d := opt_set _ _ _). assert (Hh : head_of d = DIRECT_HEAD) by (unfold d; by rewrite !head_opt_set).
    injection Hh as -> _. split; [done|]. eexists. split; [done|]. rewrite length_app. cbn. lia.
Qed.

(** ** Profiles *)
(** A dict that begins with its type and its tag, and is no direct outbound *)
Definition tunnel_head (tag : string) (d : pydict pyval) : Prop := ∃ ty, head_of d = (tag, Some (PStr ty)) ∧ ty ≠ "direct".

Section generation.
Context {W : Type} (host : SbHost W) `{PyStr}.

Lemma head_cons ty tag rest : head_of (("type", PStr ty) :: ("tag", PStr tag) :: rest) = (tag, Some (PStr ty)).
Proof. done. Qed.

Lemma protocol_outbound_head p d : protocol_to_outbound p = Ok d → tunnel_head (p_name p) d.
Proof.
  unfold protocol_to_outbound. intros Hd. destruct (p_protocol p); try done;
    unfold vless_outbound, vmess_outbound, trojan_outbound, hysteria2_outbound, tuic_outbound, shadowsocks_outbound, socks_outbound, http_outbound in Hd;
    repeat match type of Hd with (x ← ?m; _) = Ok _ => destruct m; [cbn [mbind res_bind] in Hd|done] end; injection Hd as <-;
    eexists; (split; [reflexivity|discriminate]).
Qed.
Lemma wireguard_head p tag d : wireguard_to_endpoint p tag = Ok d → tag ≠ Some "" → tunnel_head (default (p_name p) tag) d.
Proof.
  unfold wireguard_to_endpoint. destruct (split_endpoint _) as [[h pt]|]; [|done]. cbn [mbind res_bind].
  destruct (port_of _); [|done]. cbn [mbind res_bind]. destruct (any_colon _); [|done]. cbn [mbind res_bind].
  destruct (normalize_port _ _); [|done]. cbn [mbind res_bind]. intros [= <-] Ht. exists "wireguard". split; [|discriminate].
  destruct tag as [t|]; [|done]. cbn [default from_option id]. unfold truthy_str. destruct (String.eqb_spec t "") as [->|]; [done|]. done.
Qed.

(** What a route target adds: one element, no direct outbound, at the returned place *)
Definition added (tag : string) (c c' : sbconfig) (t : target) : Prop :=
  ∃ d, tunnel_head tag d ∧ target_get t c' = Some d
    ∧ ((c' = upd_outbounds (cf_outbounds c ++ [d]) c ∧ t = TOutbound (length (cf_outbounds c)))
       ∨ (c' = upd_endpoints (cf_endpoints c ++ [d]) c ∧ t = TEndpoint (length (cf_endpoints c)))).

Lemma dialer_head tag d p w d' w' : apply_dialer_options host d p w = (Ok d', w') → tunnel_head tag d → tunnel_head tag d'.
Proof.
  unfold apply_dialer_options. intros Hd (ty & Hh & Hne). bind_inv Hd b w1 Hb. apply ret_ok_inv in Hd as [<- _]. exists ty. split; [|done].
  destruct b as [[|]|]; [done| |done]. by rewrite head_dict_set.
Qed.

Lemma route_target_spec p tag c w c' t w' : tag ≠ Some "" →
  profile_to_route_target host p tag c w = (Ok (c', t), w') → added (default (p_name p) tag) c c' t.
Proof.
  intros Ht Hp. unfold profile_to_route_target in Hp. bind_inv Hp u w1 Hv. destruct (bool_decide (p_protocol p = WIREGUARD)).
  - bind_inv Hp e w2 He. bind_inv Hp e' w3 He'. apply ret_ok_inv in Hp as [Hp _]. apply pair_eq in Hp as [<- <-].
    injection He as He _. exists e'. split; [by eapply dialer_head, wireguard_head|]. split; [|by right].
    cbn. by rewrite lookup_app_r, Nat.sub_diag.
  - bind_inv Hp e w2 He. bind_inv Hp e' w3 He'. apply ret_ok_inv in Hp as [Hp _]. apply pair_eq in Hp as [<- <-].
    injection He as He _. exists e'. split.
    + eapply dialer_head; [exact He'|]. apply protocol_outbound_head in He as (ty & Hh & Hne). exists ty. split; [|done].
      destruct tag as [tg|]; [|done]. unfold head_of, tag_of in *. injection Hh as _ Hh. cbn [default from_option id].
      by rewrite dict_get_set_eq, dict_get_set_ne, Hh.
    + split; [|by left]. cbn. by rewrite lookup_app_r, Nat.sub_diag.
Qed.

(** ** Growth *)
Definition head_at (t : target) (c : sbconfig) : option (string * option pyval) :=
  match t with TOutbound i => heads c !! i | TEndpoint i => endpoint_heads c !! i end.
Lemma target_tag_head t c h : head_at t c = Some h → target_tag t c = h.1.
Proof.
  unfold target_tag. destruct t; cbn; unfold heads, endpoint_heads; rewrite list_lookup_fmap;
    destruct (_ !! _); cbn; (by intros [= <-]) || done.
Qed.

(** Elements are only added, and each new one satisfies [P]; nothing else changes *)
Record grown (P : string * option pyval → Prop) (c c' : sbconfig) : Prop := {
  gr_outbounds : ∃ new, heads c' = heads c ++ new ∧ Forall P new;
  gr_endpoints : ∃ new, endpoint_heads c' = endpoint_heads c ++ new ∧ Forall P new;
  gr_rules : cf_rules c' = cf_rules c; gr_rule_set : cf_rule_set c' = cf_rule_set c; gr_dns : cf_dns c' = cf_dns c;
  gr_inbounds : cf_inbounds c' = cf_inbounds c
}.
Lemma grown_refl P c : grown P c c.
Proof. constructor; try done; exists []; by rewrite app_nil_r. Qed.
Lemma grown_trans P c1 c2 c3 : grown P c1 c2 → grown P c2 c3 → grown P c1 c3.
Proof.
  intros [(n1 & H1 & F1) (m1 & E1 & G1) ? ? ? ?] [(n2 & H2 & F2) (m2 & E2 & G2) ? ? ? ?]. constructor; try congruence.
  - exists (n1 ++ n2). rewrite H2, H1, app_assoc. split; [done|]. by apply Forall_app.
  - exists (m1 ++ m2). rewrite E2, E1, app_assoc. split; [done|]. by apply Forall_app.
Qed.
Lemma grown_head_at P c c' t h : grown P c c' → head_at t c = Some h → head_at t c' = Some h.
Proof.
  intros [(n & Hn & _) (m & Hm & _) _ _ _ _]. destruct t; cbn; rewrite ?Hn, ?Hm; intros Hh; by apply lookup_app_l_Some.
Qed.
Lemma grown_tags P c c' x : grown P c c' → x ∈ tags c → x ∈ tags c'.
Proof.
  intros [(n & Hn & _) (m & Hm & _) _ _ _ _]. rewrite !tags_heads, Hn, Hm, !map_app, !elem_of_app. tauto.
Qed.
Lemma grown_at_target P t f c c' : (∀ d, head_of (f d) = head_of d) → grown P c c' → grown P c (at_target t f c').
Proof.
  intros Hf [Hn Hm H1 H2 H3 H4]. destruct (heads_at_target t f c' Hf) as [E1 E2].
  constructor; rewrite ?E1, ?E2; try done; by destruct t.
Qed.

Definition tunnel_in (T : list string) (h : string * option pyval) : Prop := h.1 ∈ T ∧ h.2 ≠ Some (PStr "direct").

Lemma added_grown tag T c c' t : added tag c c' t → tag ∈ T → grown (tunnel_in T) c c' ∧ (∃ ty, head_at t c' = Some (tag, ty)) ∧ tag ∈ tags c'.
Proof.
  intros (d & (ty & Hh & Hne) & Ht & Hc) HT.
  assert (Hd : tunnel_in T (head_of d)). { rewrite Hh. split; [done|]. cbn. intros [=]. by apply Hne. }
  assert (Htag : tag = tag_of d) by (by injection Hh as <-).
  destruct Hc as [[-> ->]|[-> ->]]; (split; [constructor; try done|split]).
  - exists [head_of d]. unfold heads. cbn. rewrite map_app. split; [done|]. by constructor.
  - exists []. by rewrite app_nil_r.
  - exists (Some (PStr ty)). cbn. unfold heads. cbn. by rewrite map_app, lookup_app_r, length_map, Nat.sub_diag; cbn; rewrite ?length_map, ?Hh.
  - unfold tags. cbn. rewrite map_app, !elem_of_app. left. right. rewrite Htag. by apply list_elem_of_singleton.
  - exists []. by rewrite app_nil_r.
  - exists [head_of d]. unfold endpoint_heads. cbn. rewrite map_app. split; [done|]. by constructor.
  - exists (Some (PStr ty)). cbn. unfold endpoint_heads. cbn. by rewrite map_app, lookup_app_r, length_map, Nat.sub_diag; cbn; rewrite ?length_map, ?Hh.
  - unfold tags. cbn. rewrite map_app, !elem_of_app. right. right. rewrite Htag. by apply list_elem_of_singleton.
Qed.

(** ** Chains *)
Definition hop_tags (hops : list ChainRuntimeHopPlan) : list string :=
  omap (fun h => match hp_resolved_profile h with Some _ => hp_outbound_tag h | None => None end) hops.
Definition chain_tags (plans : pydict ChainRuntimePlan) : list string :=
  flat_map (fun kv => if plan_resolved kv.2 then hop_tags (pl_hops kv.2) else []) plans.

Lemma grown_impl (P Q : string * option pyval → Prop) c c' : (∀ h, P h → Q h) → grown P c c' → grown Q c c'.
Proof.
  intros Hi [(n & Hn & Fn) (m & Hm & Fm) ? ? ? ?]. constructor; try done; eexists; (split; [done|]); eapply Forall_impl; eauto.
Qed.

Lemma chain_hops_spec hops : ∀ prev c w c' w', "" ∉ hop_tags hops → chain_hops host hops prev c w = (Ok c', w') →
  grown (tunnel_in (hop_tags hops)) c c' ∧ ∀ x, x ∈ hop_tags hops → x ∈ tags c'.
Proof.
  induction hops as [|hop hops IH]; intros prev c w c' w' Hne; cbn [chain_hops].
  { intros [= <- _]. split; [apply grown_refl|]. by intros x ?%not_elem_of_nil. }
  unfold hop_tags in Hne |- *. cbn [omap list_omap] in Hne |- *. fold (hop_tags hops) in Hne |- *.
  destruct (hp_resolved_profile hop) as [p|]; [|apply IH; done]. destruct (hp_outbound_tag hop) as [tag|]; [|apply IH; done].
  apply not_elem_of_cons in Hne as [Hn1 Hn2]. intros Hc. bind_inv Hc ct w1 H1. destruct ct as [c1 t].
  apply route_target_spec in H1; [|congruence]. cbn [default from_option id] in H1.
  destruct (added_grown _ (tag :: hop_tags hops) _ _ _ H1 (list_elem_of_here _ _)) as (G1 & _ & T1).
  set (c2 := match prev with Some prev => _ | None => _ end) in Hc.
  assert (Hd : ∀ v d, head_of (dict_set "detour" v d) = head_of d) by (intros; by apply head_dict_set).
  assert (G2 : grown (tunnel_in (tag :: hop_tags hops)) c c2).
  { unfold c2. destruct prev; [apply grown_at_target; [apply Hd|done]|done]. }
  assert (T2 : tag ∈ tags c2).
  { unfold c2. destruct prev; [|done]. rewrite tags_heads in T1 |- *. by destruct (heads_at_target t (dict_set "detour" (PStr s)) c1 (Hd _)) as [-> ->]. }
  destruct (IH _ _ _ _ _ Hn2 Hc) as [G3 T3]. split.
  - eapply grown_trans; [exact G2|]. eapply grown_impl; [|exact G3]. intros h [Hin Hty]. split; [by right|done].
  - intros x [->|Hx]%elem_of_cons; [|by apply T3]. by eapply grown_tags.
Qed.

Lemma append_chains_spec plans : ∀ c w c' w', "" ∉ chain_tags plans → append_chain_outbounds host plans c w = (Ok c', w') →
  grown (tunnel_in (chain_tags plans)) c c' ∧ ∀ x, x ∈ chain_tags plans → x ∈ tags c'.
Proof.
  induction plans as [|[a plan] plans IH]; intros c w c' w' Hne; cbn [append_chain_outbounds].
  { intros [= <- _]. split; [apply grown_refl|]. by intros x ?%not_elem_of_nil. }
  unfold chain_tags in Hne |- *. cbn [flat_map] in Hne |- *. fold (chain_tags plans) in Hne |- *. cbn [snd] in *.
  apply not_elem_of_app in Hne as [Hn1 Hn2]. intros Hc. bind_inv Hc c1 w1 H1. destruct (IH _ _ _ _ Hn2 Hc) as [G2 T2].
  assert (G2' : grown (tunnel_in ((if plan_resolved plan then hop_tags (pl_hops plan) else []) ++ chain_tags plans)) c1 c').
  { eapply grown_impl; [|exact G2]. intros h [Hin Hty]. split; [by apply elem_of_app; right|done]. }
  destruct (plan_resolved plan).
  - destruct (chain_hops_spec _ _ _ _ _ _ Hn1 H1) as [G1 T1]. split.
    + eapply grown_trans; [|exact G2']. eapply grown_impl; [|exact G1]. intros h [Hin Hty]. split; [by apply elem_of_app; left|done].
    + intros x [Hx|Hx]%elem_of_app; [|by apply T2]. eapply grown_tags; [exact G2|]. by apply T1.
  - apply ret_ok_inv in H1 as [<- _]. split; [done|]. intros x Hx. by apply T2.
Qed.

(** ** Stages of the generation *)
(** Elements are only added, the rest of the document is free *)
Definition wider (P : string * option pyval → Prop) (c c' : sbconfig) : Prop :=
  (∃ new, heads c' = heads c ++ new ∧ Forall P new) ∧ (∃ new, endpoint_heads c' = endpoint_heads c ++ new ∧ Forall P new).
Lemma grown_wider P c c' : grown P c c' → wider P c c'.
Proof. by intros []. Qed.
Lemma wider_refl P c : wider P c c.
Proof. split; exists []; by rewrite app_nil_r. Qed.
Lemma wider_same P c c' : cf_outbounds c' = cf_outbounds c → cf_endpoints c' = cf_endpoints c → wider P c c'.
Proof. intros H1 H2. unfold wider, heads, endpoint_heads. rewrite H1, H2. apply wider_refl. Qed.
Lemma wider_trans P c1 c2 c3 : wider P c1 c2 → wider P c2 c3 → wider P c1 c3.
Proof.
  intros [(n1 & H1 & F1) (m1 & E1 & G1)] [(n2 & H2 & F2) (m2 & E2 & G2)]. split.
  - exists (n1 ++ n2). rewrite H2, H1, app_assoc. split; [done|]. by apply Forall_app.
  - exists (m1 ++ m2). rewrite E2, E1, app_assoc. split; [done|]. by apply Forall_app.
Qed.
Lemma wider_impl (P Q : string * option pyval → Prop) c c' : (∀ h, P h → Q h) → wider P c c' → wider Q c c'.
Proof. intros Hi [(n & Hn & Fn) (m & Hm & Fm)]. split; eexists; (split; [done|]); eapply Forall_impl; eauto. Qed.
Lemma wider_head_at P c c' t h : wider P c c' → head_at t c = Some h → head_at t c' = Some h.
Proof. intros [(n & Hn & _) (m & Hm & _)]. destruct t; cbn; rewrite ?Hn, ?Hm; intros Hh; by apply lookup_app_l_Some. Qed.
Lemma wider_tags P c c' x : wider P c c' → x ∈ tags c → x ∈ tags c'.
Proof. intros [(n & Hn & _) (m & Hm & _)]. rewrite !tags_heads, Hn, Hm, !map_app, !elem_of_app. tauto. Qed.
Lemma wider_forall P c c' : wider P c c' → Forall P (heads c ++ endpoint_heads c) → Forall P (heads c' ++ endpoint_heads c').
Proof. intros [(n & -> & ?) (m & -> & ?)]. rewrite !Forall_app. tauto. Qed.

Definition is_direct_head (h : string * option pyval) : Prop := h = DIRECT_HEAD.
Lemma ensure_direct_wider r b c : wider is_direct_head c (ensure_direct_outbound r b c).1
  ∧ "direct" ∈ tags (ensure_direct_outbound r b c).1 ∧ cf_rules (ensure_direct_outbound r b c).1 = cf_rules c.
Proof.
  destruct (ensure_direct_outbound r b c) as [c' t] eqn:E. cbn [fst].
  destruct (ensure_direct_heads _ _ _ _ _ E) as (Hh & He & Hr & _). split; [split|split; [|done]].
  - eexists. split; [exact Hh|]. destruct (decide _); repeat constructor.
  - exists []. by rewrite He, app_nil_r.
  - rewrite tags_heads, Hh, !map_app, !elem_of_app. left. destruct (decide ("direct" ∈ map fst (heads c))); [by left|].
    right. by apply list_elem_of_singleton.
Qed.

Context (cache_path : string).

Lemma with_dns_wider P p o allow cfg t c : wider P c (with_dns_config cache_path p o allow cfg t c).
Proof.
  unfold with_dns_config.
  assert (Hd : ∀ v d, head_of (dict_set "domain_resolver" v d) = head_of d) by (intros; by apply head_dict_set).
  set (c1 := match build_dns_hijack_route p with Some _ => _ | None => _ end).
  assert (H1 : cf_outbounds c1 = cf_outbounds c ∧ cf_endpoints c1 = cf_endpoints c).
  { unfold c1. by destruct (build_dns_hijack_route p), (build_tun_domain_preservation_route _ _ _). }
  destruct H1 as [H1 H2]. destruct (outbound_resolver cfg) as [r|]; [|by apply wider_same].
  destruct (heads_at_target t (dict_set "domain_resolver" (PStr r)) c1 (Hd _)) as [E1 E2].
  unfold wider. change (heads (set_default_resolver r ?x)) with (heads x). change (endpoint_heads (set_default_resolver r ?x)) with (endpoint_heads x).
  rewrite E1, E2. unfold heads, endpoint_heads. rewrite H1, H2. apply wider_refl.
Qed.
Lemma with_dns_rules p o allow cfg t c :
  ∃ rs, cf_rules (with_dns_config cache_path p o allow cfg t c) = cf_rules c ++ map RDns rs.
Proof.
  unfold with_dns_config. set (c1 := match build_dns_hijack_route p with Some _ => _ | None => _ end).
  assert (H1 : ∃ rs, cf_rules c1 = cf_rules c ++ map RDns rs).
  { unfold c1. destruct (build_dns_hijack_route p) as [l|], (build_tun_domain_preservation_route _ _ _) as [l'|]; cbn.
    - exists (l' ++ l). by rewrite map_app, app_assoc.
    - by exists l.
    - by exists l'.
    - exists []. by rewrite app_nil_r. }
  destruct (outbound_resolver cfg); [|done]. by destruct t.
Qed.

Lemma add_dns_spec profile policy o allow t c w c' w' : add_dns host cache_path profile policy o allow t c w = (Ok c', w') →
  wider is_direct_head c c' ∧ ∃ rs, cf_rules c' = cf_rules c ++ map RDns rs.
Proof.
  unfold add_dns. destruct policy as [p|]; [|intros [= <- _]; split; [apply wider_refl|exists []; by rewrite app_nil_r]].
  intros Hd. bind_inv Hd tag w1 H1. bind_inv Hd cfg w2 H2. destruct cfg as [cfg|].
  2: { apply ret_ok_inv in Hd as [<- _]. split; [apply wider_refl|exists []; by rewrite app_nil_r]. }
  cbv zeta in Hd. pose proof (with_dns_rules p o allow cfg t c) as Hr. destruct (needs_direct_outbound cfg).
  - bind_inv Hd b w3 H3. apply ret_ok_inv in Hd as [<- _].
    match goal with |- wider _ _ ?c' ∧ _ => set (cd := c') end.
    destruct (ensure_direct_wider (option_map direct_resolver_value (sc_direct_domain_resolver cfg)) b
                (with_dns_config cache_path p o allow cfg t c)) as (G & _ & R). fold cd in G, R. split.
    + eapply wider_trans; [apply with_dns_wider|exact G].
    + by rewrite R.
  - apply ret_ok_inv in Hd as [<- _]. split; [apply with_dns_wider|done].
Qed.

Definition is_management_head (h : string * option pyval) : Prop := ∃ i, h = (management_tag i, Some (PStr "direct")).
Lemma ensure_management_wider tag b c : wider (fun h => h = (tag, Some (PStr "direct"))) c (ensure_management_outbound tag b c)
  ∧ cf_rules (ensure_management_outbound tag b c) = cf_rules c.
Proof.
  unfold ensure_management_outbound. destruct (position _ _); [split; [apply wider_refl|done]|]. split; [|done]. split.
  - eexists [_]. unfold heads. cbn [cf_outbounds upd_outbounds]. rewrite map_app. split; [done|]. repeat constructor.
  - exists []. by rewrite app_nil_r.
Qed.
Lemma management_outbounds_wider routes : ∀ i c c' rules, management_outbounds i routes c = (c', rules) →
  wider is_management_head c c' ∧ cf_rules c' = cf_rules c
  ∧ rules = imap (fun j r => peer_rule r.1 (management_tag (i + j))) routes.
Proof.
  induction routes as [|[peer interface] routes IH]; intros i c c' rules; cbn [management_outbounds].
  { intros [= <- <-]. split; [apply wider_refl|done]. }
  destruct (management_outbounds (S i) routes _) as [c1 rs] eqn:E. intros [= <- <-].
  destruct (IH _ _ _ _ E) as (G1 & R1 & ->). destruct (ensure_management_wider (management_tag i) interface c) as [G2 R2]. split; [|split].
  - eapply wider_trans; [|exact G1]. eapply wider_impl; [|exact G2]. intros h ->. by exists i.
  - by rewrite R1, R2.
  - cbn [imap]. rewrite Nat.add_0_r. f_equal. apply imap_ext. intros j x _. cbn. by rewrite Nat.add_succ_r.
Qed.

(** ** Management outbounds *)
Lemma management_tag_inj i j : management_tag i = management_tag j → i = j.
Proof. unfold management_tag. intros Hm%append_inj_l. by apply (inj pretty). Qed.

Definition management_outbound (i : nat) (interface : string) : pydict pyval :=
  [("type", PStr "direct"); ("tag", PStr (management_tag i)); ("bind_interface", PStr interface)].
Lemma management_outbound_of i b c :
  (∀ d, d ∈ cf_outbounds c → d ∈ cf_outbounds (ensure_management_outbound (management_tag i) b c))
  ∧ management_tag i ∈ tags (ensure_management_outbound (management_tag i) b c)
  ∧ (management_tag i ∉ map fst (heads c) → management_outbound i b ∈ cf_outbounds (ensure_management_outbound (management_tag i) b c)).
Proof.
  unfold ensure_management_outbound. assert (Hne : management_tag i ≠ "") by done. destruct (position _ _) as [k|] eqn:E.
  - destruct (position_Some _ _ _ E) as (d & Hd & Ht). rewrite has_tag_head in Ht by done. apply String.eqb_eq in Ht.
    assert (Hin : management_tag i ∈ map fst (heads c)).
    { rewrite <- Ht. apply list_elem_of_fmap_2, list_elem_of_fmap_2. by eapply list_elem_of_lookup_2. }
    split; [done|]. split; [|done]. rewrite tags_heads, map_app, elem_of_app. by left.
  - cbn [cf_outbounds upd_outbounds]. split; [intros d Hd; apply elem_of_app; by left|]. split.
    + unfold tags. cbn [cf_outbounds upd_outbounds]. rewrite map_app, !elem_of_app. left. right. by apply list_elem_of_singleton.
    + intros _. apply elem_of_app. right. by apply list_elem_of_singleton.
Qed.
Lemma management_outbounds_made routes : ∀ i c c' rules, management_outbounds i routes c = (c', rules) →
  (∀ d, d ∈ cf_outbounds c → d ∈ cf_outbounds c')
  ∧ (∀ j r, routes !! j = Some r → management_tag (i + j) ∈ tags c'
       ∧ ((∀ k, management_tag (i + k) ∉ map fst (heads c)) → management_outbound (i + j) r.2 ∈ cf_outbounds c')).
Proof.
  induction routes as [|[peer interface] routes IH]; intros i c c' rules; cbn [management_outbounds]; [intros [= <- _]; done|].
  destruct (management_outbounds (S i) routes _) as [c1 rs] eqn:E. intros [= <- _].
  destruct (IH _ _ _ _ E) as [K1 M1]. destruct (management_outbounds_wider _ _ _ _ _ E) as [W1 _].
  destruct (management_outbound_of i interface c) as (K2 & T2 & M2). split; [auto|]. intros [|j] r; cbn.
  - intros [= <-]. rewrite Nat.add_0_r. split; [by eapply wider_tags|]. intros Hno. apply K1, M2. specialize (Hno 0%nat). by rewrite Nat.add_0_r in Hno.
  - intros Hr. destruct (M1 j r Hr) as [Ht Hm]. rewrite Nat.add_succ_r. split; [done|]. intros Hno. apply Hm. intros k Hk.
    destruct (ensure_management_wider (management_tag i) interface c) as [[(n & Hn & Fn) _] _]. rewrite Hn, map_app, elem_of_app in Hk.
    destruct Hk as [Hk|Hk]; [apply (Hno (S k)); by rewrite Nat.add_succ_r|].
    apply list_elem_of_fmap in Hk as (h & Hh & Hin). rewrite Forall_forall in Fn. apply Fn in Hin as ->. cbn in Hh.
    apply management_tag_inj in Hh. lia.
Qed.

(** ** The whole document *)
Definition front_rules (o : GenOptions) : list route_rule :=
  map bypass_rule (g_native_bypass_cidrs o)
  ++ match g_management_routes o with
     | [] => map (fun peer => peer_rule peer "direct") (g_management_peers o)
     | routes => imap (fun j r => peer_rule r.1 (management_tag (1 + j))) (sorted_routes routes)
     end.

Lemma add_front_spec o c :
  cf_rules (add_front_rules o c) = front_rules o ++ cf_rules c ∧ wider is_management_head c (add_front_rules o c)
  ∧ (∀ d, d ∈ cf_outbounds c → d ∈ cf_outbounds (add_front_rules o c))
  ∧ (∀ j r, sorted_routes (g_management_routes o) !! j = Some r → management_tag (S j) ∈ tags (add_front_rules o c)
       ∧ ((∀ k, management_tag k ∉ map fst (heads c)) → management_outbound (S j) r.2 ∈ cf_outbounds (add_front_rules o c))).
Proof.
  unfold add_front_rules, front_rules. destruct (g_management_routes o) as [|r0 routes] eqn:Er.
  - assert (Hx : ∀ X : Prop, (∀ j r, sorted_routes [] !! j = Some r → X)) by (intros X j r; by destruct j).
    destruct (g_management_peers o) as [|p ps] eqn:Ep, (map bypass_rule (g_native_bypass_cidrs o)) as [|b bs] eqn:Eb; cbn [map app set_rules cf_rules];
      (split; [by rewrite ?app_nil_r, <- ?app_assoc|]); (split; [by apply wider_same || apply wider_refl|]); (split; [done|]); intros j r Hr; by destruct j.
  - destruct (management_outbounds 1 _ c) as [c1 rules] eqn:E. destruct (management_outbounds_wider _ _ _ _ _ E) as (Wd & R & ->).
    destruct (management_outbounds_made _ _ _ _ _ E) as [K M]. split; [by cbn; rewrite R, <- app_assoc|]. split; [exact Wd|]. split; [exact K|].
    intros j r Hr. destruct (M j r Hr) as [M1 M2]. split; [exact M1|]. intros Hno. apply M2. intros k. apply Hno.
Qed.

Context (write_config : sbconfig → PyM W unit).

(** The tag of the connection's own outbound *)
Definition own_tag (profile : Profile) (o : GenOptions) : string := if g_native_transport o then "direct" else p_name profile.
(** What an element of the document can be *)
Definition expected (profile : Profile) (o : GenOptions) (h : string * option pyval) : Prop :=
  h = DIRECT_HEAD ∨ is_management_head h
  ∨ tunnel_in ((if g_native_transport o then [] else [p_name profile]) ++ chain_tags (g_plans o)) h.

Record shape (profile : Profile) (o : GenOptions) (c : sbconfig) : Prop := {
  sp_table : ∃ table rs, route_table o (own_tag profile o) = Ok table
               ∧ cf_rules c = front_rules o ++ map RDns rs ++ map RDict table;
  sp_expected : Forall (expected profile o) (heads c ++ endpoint_heads c);
  sp_own : own_tag profile o ∈ tags c;
  sp_chains : ∀ x, x ∈ chain_tags (g_plans o) → x ∈ tags c;
  sp_direct : g_mode o ∈ ["rules"; "direct"] ∨ g_management_peers o ≠ [] → "direct" ∈ tags c;
  sp_management : ∀ j r, sorted_routes (g_management_routes o) !! j = Some r →
    management_tag (S j) ∈ tags c
    ∧ ((∀ k, management_tag k ∉ own_tag profile o :: chain_tags (g_plans o)) → management_outbound (S j) r.2 ∈ cf_outbounds c)
}.

Lemma start_spec profile o c0 w c1 t w1 : heads c0 = [] → endpoint_heads c0 = [] → cf_rules c0 = [] →
  (if g_native_transport o then
     if negb (truthy_str (native_bind_interface o)) then raiseM ValueError "native_transport requires native_egress_interface"
     else mret (ensure_direct_outbound None (Some (native_bind_interface o)) c0)
   else profile_to_route_target host profile None c0) w = (Ok (c1, t), w1) →
  (∃ ty, head_at t c1 = Some (own_tag profile o, ty)) ∧ own_tag profile o ∈ tags c1 ∧ cf_rules c1 = []
  ∧ Forall (fun h => h = DIRECT_HEAD ∨ tunnel_in (if g_native_transport o then [] else [p_name profile]) h) (heads c1 ++ endpoint_heads c1).
Proof.
  intros H1 H2 H3. unfold own_tag. destruct (g_native_transport o).
  - destruct (negb _); [done|]. intros Hs. apply ret_ok_inv in Hs as [Hs _].
    destruct (ensure_direct_heads _ _ _ _ _ Hs) as (Hh & He & Hr & _ & _ & _ & _ & Ht & i & -> & Hi).
    rewrite H1 in Hh. rewrite decide_False in Hh by apply not_elem_of_nil. cbn in Hh. rewrite H2 in He. rewrite tags_heads, Hh, He. split; [|split; [|split]].
    + exists (Some (PStr "direct")). cbn. rewrite Hh. assert (Hlen : length (heads c1) = length (cf_outbounds c1)) by (unfold heads; by rewrite length_map).
      rewrite Hh in Hlen. cbn in Hlen. by destruct i as [|i]; [|lia].
    + by apply list_elem_of_singleton.
    + congruence.
    + constructor; [by left|constructor].
  - intros Hs. apply route_target_spec in Hs; [|done]. cbn [default from_option id] in Hs.
    destruct (added_grown _ [p_name profile] _ _ _ Hs (list_elem_of_here _ _)) as (G & Hh & Ht). split; [done|]. split; [done|].
    split; [rewrite (gr_rules _ _ _ G); done|]. apply grown_wider in G. eapply Forall_impl; [apply (wider_forall _ _ _ G)|].
    + rewrite H1, H2. constructor.
    + intros h Hx. by right.
Qed.

Lemma generate_shape profile policy o w c w' : "" ∉ chain_tags (g_plans o) →
  generate_singbox_config host cache_path write_config profile policy o w = (Ok c, w') → shape profile o c.
Proof.
  intros Hch. unfold generate_singbox_config. destruct (negb (str_in _ _)); [done|]. intros Hg. bind_inv Hg ok w0 H0.
  destruct (negb ok); [done|]. cbv zeta in Hg. set (c0 := Build_sbconfig _ _ _ _ _ _ _ _ _) in Hg.
  bind_inv Hg ct w1 H1. destruct ct as [c1 t].
  destruct (start_spec profile o c0 _ _ _ _ eq_refl eq_refl eq_refl H1) as ((ty & Hat) & Hown & Hrules & Hall). clear H1.
  bind_inv Hg c2 w2 H2. destruct (append_chains_spec _ _ _ _ _ Hch H2) as [G2 T2].
  set (c3 := if mode_requires_tun _ _ then _ else _) in Hg.
  assert (E3 : cf_outbounds c3 = cf_outbounds c2 ∧ cf_endpoints c3 = cf_endpoints c2 ∧ cf_rules c3 = cf_rules c2).
  { unfold c3. by destruct (mode_requires_tun _ _). }
  destruct E3 as (E3a & E3b & E3c). bind_inv Hg c4 w4 H4. destruct (add_dns_spec _ _ _ _ _ _ _ _ _ H4) as [G4 (rs & R4)].
  bind_inv Hg c5 w5 H5.
  assert (G5 : wider is_direct_head c4 c5 ∧ cf_rules c5 = cf_rules c4
    ∧ (g_mode o ∈ ["rules"; "direct"] ∨ g_management_peers o ≠ [] → "direct" ∈ tags c5)).
  { destruct (str_in (g_mode o) ["rules"; "direct"] || _) eqn:Eb.
    - bind_inv H5 b wb Hb. apply ret_ok_inv in H5 as [<- _]. destruct (ensure_direct_wider None b c4) as (? & ? & ?). done.
    - apply ret_ok_inv in H5 as [<- _]. split; [apply wider_refl|]. split; [done|]. apply orb_false_iff in Eb as [Eb1 Eb2].
      apply str_in_false in Eb1. apply negb_false_iff, bool_decide_eq_true in Eb2. intros [?|?]; done. }
  destruct G5 as (G5 & R5 & D5). bind_inv Hg table w6 H6. bind_inv Hg u w7 H7. apply ret_ok_inv in Hg as [<- _].
  set (c6 := merge_route_config _ _ _). assert (W56 : wider is_direct_head c5 c6) by (by apply wider_same).
  destruct (add_front_spec o c6) as (Fr & Fw & Fk & Fm).
  assert (W26 : wider is_direct_head c2 c6).
  { eapply wider_trans; [apply (wider_same _ c2 c3); done|]. eapply wider_trans; [exact G4|]. by eapply wider_trans. }
  assert (Ht5 : target_tag t c5 = own_tag profile o).
  { assert (Hh : head_at t c5 = Some (own_tag profile o, ty)); [|by rewrite (target_tag_head _ _ _ Hh)].
    eapply wider_head_at; [exact G5|]. eapply wider_head_at; [exact G4|]. eapply wider_head_at; [apply (wider_same is_direct_head c2 c3); done|].
    by eapply grown_head_at. }
  injection H6 as H6 _. rewrite Ht5 in H6.
  assert (Eh : Forall (fun h => h = DIRECT_HEAD ∨ tunnel_in ((if g_native_transport o then [] else [p_name profile]) ++ chain_tags (g_plans o)) h)
                 (heads c6 ++ endpoint_heads c6)).
  { eapply wider_forall; [eapply wider_impl; [|exact W26]; intros h Hx; left; exact Hx|].
    eapply wider_forall; [eapply wider_impl; [|apply grown_wider, G2]|].
    - intros h [Hin Hty]. right. split; [by apply elem_of_app; right|done].
    - eapply Forall_impl; [exact Hall|]. intros h [->|[Hin Hty]]; [by left|]. right. split; [by apply elem_of_app; left|done]. }
  assert (Tc : ∀ x, x ∈ tags c2 → x ∈ tags (add_front_rules o c6)).
  { intros x Hx. eapply wider_tags; [exact Fw|]. by eapply wider_tags. }
  constructor.
  - exists table, rs. split; [done|]. rewrite Fr. f_equal. cbn. rewrite R5, R4, E3c, (gr_rules _ _ _ G2), Hrules. done.
  - eapply wider_forall; [eapply wider_impl; [|exact Fw]; intros h Hx; right; left; exact Hx|].
    eapply Forall_impl; [exact Eh|]. intros h [->|?]; [by left|right; by right].
  - apply Tc. by eapply grown_tags.
  - intros x Hx. by apply Tc, T2.
  - intros Hd. eapply wider_tags; [exact Fw|]. eapply wider_tags; [exact W56|]. by apply D5.
  - intros j r Hr. destruct (Fm j r Hr) as [M1 M2]. split; [done|]. intros Hno. apply M2. intros k Hk. apply (Hno k).
    apply list_elem_of_fmap in Hk as (h & Hh & Hin). rewrite Forall_forall in Eh. destruct (Eh h) as [->|[Hx _]];
      [apply elem_of_app; by left| |].
    + cbn in Hh. discriminate Hh.
    + rewrite <- Hh in Hx. unfold own_tag. destruct (g_native_transport o); [right; done|]. apply elem_of_cons. by apply elem_of_cons in Hx.
Qed.

(** ** References *)
(** A plan as [RouteChains] resolves it: the hops of a resolved plan carry their tags, and the
    traffic of the chain leaves by one of them *)
Definition plan_ok (plan : ChainRuntimePlan) : Prop :=
  plan_resolved plan = true →
  Forall (fun tag => ∃ cid i, tag = chain_hop_outbound_tag cid i) (hop_tags (pl_hops plan))
  ∧ ∀ tag, pl_route_outbound_tag plan = Some tag → tag ∈ hop_tags (pl_hops plan).
Definition plans_ok (plans : pydict ChainRuntimePlan) : Prop := Forall (fun kv => plan_ok kv.2) plans.

Lemma chain_tags_shape plans x : plans_ok plans → x ∈ chain_tags plans → ∃ cid i, x = chain_hop_outbound_tag cid i.
Proof.
  intros Hp Hx. unfold chain_tags in Hx. apply list_elem_of_In, in_flat_map in Hx as (kv & Hin & Hx).
  unfold plans_ok in Hp. rewrite Forall_forall in Hp. apply list_elem_of_In in Hin. specialize (Hp _ Hin). destruct (plan_resolved kv.2) eqn:E; [|done].
  destruct (Hp E) as [Hf _]. rewrite Forall_forall in Hf. by apply Hf, list_elem_of_In.
Qed.
Lemma chain_tags_route plans action plan tag : plans_ok plans → dict_get action plans = Some plan → pl_status plan = CHAIN_RESOLVED →
  pl_route_outbound_tag plan = Some tag → tag ∈ chain_tags plans.
Proof.
  intros Hp Hg Hs Ht. apply dict_get_elem_of in Hg. unfold plans_ok in Hp. rewrite Forall_forall in Hp. specialize (Hp _ Hg). cbn in Hp.
  assert (Hr : plan_resolved plan = true) by (unfold plan_resolved; by rewrite Hs). destruct (Hp Hr) as [_ Hx].
  unfold chain_tags. apply list_elem_of_In, in_flat_map. exists (action, plan). split; [by apply list_elem_of_In|]. cbn. rewrite Hr.
  apply list_elem_of_In. auto.
Qed.
Lemma chain_tags_named plans : plans_ok plans → "" ∉ chain_tags plans ∧ "direct" ∉ chain_tags plans ∧ ∀ k, management_tag k ∉ chain_tags plans.
Proof.
  intros Hp. split; [|split; [|intros k]]; intros Hx; apply (chain_tags_shape _ _ Hp) in Hx as (cid & i & Hx);
    unfold chain_hop_outbound_tag, management_tag in Hx; discriminate Hx.
Qed.

(** Outside the modes with rules the table is the final rule *)
Lemma table_without_rules o tag table : g_mode o ≠ "rules" → route_table o tag = Ok table →
  ∃ v, verdict tag (g_plans o) (if String.eqb (g_mode o) "direct" then "direct" else g_final_policy o) = Ok v ∧ table = [v].
Proof.
  intros Hm%String.eqb_neq. unfold route_table. rewrite Hm. unfold build_singbox_route_rules.
  assert (Ht : tier_rules tag (g_plans o) [] None (group_by_tier []) PRIORITY_TIER_ORDER = Ok []) by (vm_compute; reflexivity).
  rewrite Ht. cbn [mbind res_bind]. unfold final_rule. destruct (verdict _ _ _) as [v|]; [|done]. intros [= <-]. by exists v.
Qed.
Lemma verdict_not_direct tag plans action v o : verdict tag plans action = Ok v → dict_get "outbound" v = Some (PStr o) → action ≠ "direct" →
  o = tag ∨ ∃ plan, dict_get action plans = Some plan ∧ pl_status plan = CHAIN_RESOLVED ∧ pl_route_outbound_tag plan = Some o.
Proof.
  intros Hv Ho Ha. destruct (verdict_outbound _ _ _ _ _ Hv Ho) as [[Hc _]|(id & plan & _ & H1 & H2 & H3)]; [left|right; eauto].
  revert Hv Ho. unfold verdict, reject_action, resolve_outbound. rewrite Hc. cbn [mbind res_bind].
  apply String.eqb_neq in Ha. rewrite Ha. destruct (String.eqb action "block"); intros [= <-]; [done|]. cbn. by intros [= ->].
Qed.


Lemma front_outbound profile o c d out : shape profile o c → RDict d ∈ front_rules o → dict_get "outbound" d = Some (PStr out) → out ∈ tags c.
Proof.
  intros Hs Hd Ho. unfold front_rules in Hd. apply elem_of_app in Hd as [Hd|Hd].
  { apply list_elem_of_fmap in Hd as (cidr & [= ->] & _). discriminate Ho. }
  destruct (g_management_routes o) as [|r0 routes] eqn:Er.
  - apply list_elem_of_fmap in Hd as (peer & [= ->] & Hin). injection Ho as <-. apply (sp_direct _ _ _ Hs). right.
    intros He. rewrite He in Hin. by apply not_elem_of_nil in Hin.
  - apply list_elem_of_lookup in Hd as (j & Hj). rewrite list_lookup_imap in Hj. destruct (sorted_routes (r0 :: routes) !! j) as [r|] eqn:Ej; [|done].
    injection Hj as <-. injection Ho as <-. rewrite <- Er in Ej. by destruct (sp_management _ _ _ Hs _ _ Ej).
Qed.

(** Nothing adds the direct outbound that a direct final policy names. *)
Definition direct_unadded (o : GenOptions) : Prop :=
  g_mode o ∉ ["rules"; "direct"] ∧ g_management_peers o = [] ∧ g_final_policy o = "direct"
  ∧ g_native_transport o = false.

(** C12: Every outbound that a generated route names exists in the document, as an outbound or as a
    WireGuard endpoint, for every profile, host, set of chain plans as [RouteChains] makes them,
    loaded rule groups and application policy, with one exception: a route to "direct" can dangle
    when the mode is neither "rules" nor "direct", no management peer is given, the final policy
    is "direct" and the transport is not native (see [direct_default_route_dangles]). *)
Theorem config_routes_closed `{PyRegex} profile policy o w c w' :
  generate_singbox_config host cache_path write_config profile policy o w = (Ok c, w') →
  plans_ok (g_plans o) → groups_ok (g_groups o) → (∀ p, g_app_policy o = Some p → Forall AppPolicyRule_wf (ap_rules p)) →
  ∀ d out, RDict d ∈ cf_rules c → dict_get "outbound" d = Some (PStr out) →
  out ∈ tags c ∨ out = "direct" ∧ direct_unadded o.
Proof.
  intros Hg Hp Hgr Hap d out Hd Ho.
  destruct (decide (out = "direct" ∧ direct_unadded o)) as [|Hno]; [by right|left].
  assert (Hdir : out = "direct" → g_mode o ∈ ["rules"; "direct"] ∨ g_management_peers o ≠ [] ∨ g_final_policy o ≠ "direct"
    ∨ g_native_transport o = true).
  { intros ->. destruct (decide (g_mode o ∈ ["rules"; "direct"])); [by left|right].
    destruct (decide (g_management_peers o = [])); [right|by left].
    destruct (decide (g_final_policy o = "direct")); [right|by left].
    destruct (g_native_transport o) eqn:En; [done|]. destruct Hno. by repeat split. }
  destruct (chain_tags_named _ Hp) as (Hne & _ & _). pose proof (generate_shape _ _ _ _ _ _ Hne Hg) as Hs.
  destruct (sp_table _ _ _ Hs) as (table & rs & Ht & Hr). rewrite Hr, !elem_of_app in Hd. destruct Hd as [Hd|[Hd|Hd]].
  { by eapply front_outbound. }
  { by apply list_elem_of_fmap in Hd as (? & ? & _). }
  apply list_elem_of_fmap in Hd as (d' & [= <-] & Hin).
  assert (Hchain : ∀ action plan, dict_get action (g_plans o) = Some plan → pl_status plan = CHAIN_RESOLVED →
    pl_route_outbound_tag plan = Some out → out ∈ tags c).
  { intros action plan H1 H2 H3. eapply sp_chains; [exact Hs|]. by eapply chain_tags_route. }
  destruct (decide (out = "direct")) as [->|Hnd].
  - destruct (Hdir eq_refl) as [Hm|[Hm|Hm]]; [apply (sp_direct _ _ _ Hs); auto..|].
    destruct (decide (g_mode o ∈ ["rules"; "direct"])) as [Hmd|Hmd]; [apply (sp_direct _ _ _ Hs); auto|].
    destruct Hm as [Hm|Hm]; [|pose proof (sp_own _ _ _ Hs) as Hown; unfold own_tag in Hown; by rewrite Hm in Hown].
    assert (Hmr : g_mode o ≠ "rules" ∧ g_mode o ≠ "direct") by (split; intros E; apply Hmd; rewrite E, !elem_of_cons; auto).
    destruct (table_without_rules _ _ _ (proj1 Hmr) Ht) as (v & Hv & ->). apply list_elem_of_singleton in Hin as ->.
    rewrite (proj2 (String.eqb_neq _ _) (proj2 Hmr)) in Hv.
    destruct (verdict_not_direct _ _ _ _ _ Hv Ho Hm) as [->|(plan & H1 & H2 & H3)]; [apply (sp_own _ _ _ Hs)|by eapply Hchain].
  - assert (Hsafe : Forall (sb_safe (own_tag profile o) (g_plans o)) table).
    { unfold route_table in Ht. destruct (String.eqb (g_mode o) "rules"); [by eapply table_safe|].
      eapply table_safe; [| |exact Ht]; [constructor|done]. }
    rewrite Forall_forall in Hsafe. destruct (Hsafe _ Hin) as [[_ Hx]|(out' & _ & Hx & Hk)]; [congruence|].
    assert (out' = out) as -> by congruence. destruct Hk as [?|[->|(action & plan & H1 & H2 & H3)]]; [done|apply (sp_own _ _ _ Hs)|by eapply Hchain].
Qed.

(** The names that an imported profile must not have *)
Definition reserved_name (name : string) : Prop := name = "direct" ∨ ∃ k, name = management_tag k.

(** Whatever bears a reserved tag is a direct outbound. *)
Lemma reserved_is_direct profile policy o w c w' :
  generate_singbox_config host cache_path write_config profile policy o w = (Ok c, w') →
  plans_ok (g_plans o) → (g_native_transport o = false → ¬ reserved_name (p_name profile)) →
  ∀ d, d ∈ cf_outbounds c ++ cf_endpoints c → reserved_name (tag_of d) → dict_get "type" d = Some (PStr "direct").
Proof.
  intros Hg Hp Hname. destruct (chain_tags_named _ Hp) as (Hne & Hnd & Hnm). pose proof (generate_shape _ _ _ _ _ _ Hne Hg) as Hs.
  assert (Htyped : ∀ h, h ∈ heads c ++ endpoint_heads c → reserved_name h.1 → h.2 = Some (PStr "direct")).
  { intros h Hin Hres. pose proof (sp_expected _ _ _ Hs) as He. rewrite Forall_forall in He.
    destruct (He h Hin) as [->|[(k & ->)|[Hx _]]]; [done|done|]. exfalso. apply elem_of_app in Hx as [Hx|Hx].
    - destruct (g_native_transport o); [by apply not_elem_of_nil in Hx|]. apply list_elem_of_singleton in Hx. rewrite Hx in Hres. by apply Hname.
    - destruct Hres as [Hres|(k & Hres)]; rewrite Hres in Hx; [done|by eapply Hnm]. }
  intros d Hin Hres. apply (Htyped (head_of d)); [|done]. unfold heads, endpoint_heads. rewrite <- map_app. by apply list_elem_of_fmap_2.
Qed.

(** C13: The control paths stay outside the tunnel.  In every generated document whose profile does
    not bear a reserved name, the rules for the management peers (and for the native endpoint) come
    before every other rule, each peer goes to "direct" or, for a native transport, to the outbound
    that is bound to its own physical interface, and whatever bears the tag "direct" or a management
    tag is a direct outbound, never a tunnel. *)
Theorem management_paths_outside_tunnel profile policy o w c w' :
  generate_singbox_config host cache_path write_config profile policy o w = (Ok c, w') →
  plans_ok (g_plans o) → (g_native_transport o = false → ¬ reserved_name (p_name profile)) →
  (∃ rest, cf_rules c = front_rules o ++ rest)
  ∧ (g_management_peers o ≠ [] → "direct" ∈ tags c)
  ∧ (∀ j r, sorted_routes (g_management_routes o) !! j = Some r → management_outbound (S j) r.2 ∈ cf_outbounds c)
  ∧ (∀ d, d ∈ cf_outbounds c ++ cf_endpoints c → reserved_name (tag_of d) → dict_get "type" d = Some (PStr "direct")).
Proof.
  intros Hg Hp Hname. destruct (chain_tags_named _ Hp) as (Hne & Hnd & Hnm). pose proof (generate_shape _ _ _ _ _ _ Hne Hg) as Hs.
  split; [|split; [|split]].
  - destruct (sp_table _ _ _ Hs) as (table & rs & _ & ->). eauto.
  - intros Hpe. apply (sp_direct _ _ _ Hs). by right.
  - intros j r Hr. apply (sp_management _ _ _ Hs _ _ Hr). intros k [Hk|Hk]%elem_of_cons; [|by eapply Hnm].
    unfold own_tag in Hk. destruct (g_native_transport o); [discriminate Hk|]. apply (Hname eq_refl). right. by exists k.
  - by eapply reserved_is_direct.
Qed.

(** ** The resolver of the tunnel's own server *)
Definition not_through_tunnel (servers : list DnsServer) (v : pyval) : Prop :=
  ∃ s, v = PStr (ds_tag s) ∧ s ∈ servers ∧ (ds_detour s = None ∨ ds_detour s = Some "direct")
       ∧ ∀ s', s' ∈ servers → ds_tag s' = ds_tag s → s' = s.

Lemma slot_server p proxy allow boot cfg ss name x : built p proxy allow boot cfg ss → NoDup (map fst (dp_channels p)) →
  primary (dp_channels p) name = Some x → name ≠ CH_PROXY → not_through_tunnel (sc_servers cfg) (PStr (server_tag name x.1)).
Proof.
  intros Hb Hk Hx Hn. destruct (Forall2_elem_l _ _ _ _ (bt_made _ _ _ _ _ _ Hb) (primary_slot _ _ _ _ _ _ Hb Hk name x Hx)) as (s & Hs & Hm).
  destruct (made_serves _ _ _ _ _ Hm) as [Ht (parsed & _ & Hsv & _)]. cbn in Ht. exists s. split; [by rewrite Ht|].
  assert (Hin : s ∈ sc_servers cfg). { rewrite (bt_servers _ _ _ _ _ _ Hb), !elem_of_app. tauto. }
  split; [done|]. split.
  - rewrite (sv_detour _ _ _ _ _ Hsv). cbn. rewrite bool_decide_eq_false_2 by done. case_bool_decide; [by left|by right].
  - intros s' Hs' Htag. pose proof (servers_nodup _ _ _ _ _ _ Hb Hk) as Hnd.
    pose proof (lookup_unique _ _ Hnd Hs') as H1. pose proof (lookup_unique _ _ Hnd Hin) as H2. congruence.
Qed.

Lemma outbound_resolver_server p proxy allow cfg r : NoDup (map fst (dp_channels p)) →
  build_singbox_dns_config p proxy allow = Some (Ok (Some cfg)) → outbound_resolver cfg = Some r →
  not_through_tunnel (sc_servers cfg) (PStr r).
Proof.
  intros Hk Hb Hr. destruct (build_built _ _ _ _ Hb) as (boot & ss & B). unfold outbound_resolver in Hr.
  rewrite (bt_channels _ _ _ _ _ _ B), !first_tag_primary in Hr by done.
  destruct (primary (dp_channels p) CH_DIRECT) as [x|] eqn:E1; [injection Hr as <-; by eapply slot_server|]. cbn [fmap option_fmap option_map] in Hr.
  destruct (primary (dp_channels p) CH_BOOTSTRAP) as [x|] eqn:E2; [injection Hr as <-; by eapply slot_server|]. cbn [fmap option_fmap option_map] in Hr.
  destruct (_ && _) eqn:Ef; [|done]. injection Hr as <-. apply andb_true_iff in Ef as [_ Ef]. apply negb_true_iff, str_in_false in Ef.
  destruct (final_default _ _ _ _ _ _ B Hk) as (c & x & _ & Hx & Hf). rewrite Hf in Ef |- *.
  destruct (decide (c = CH_PROXY)) as [->|Hn]; [|by eapply slot_server]. exfalso. apply Ef.
  pose proof (first_tag_primary (dp_channels p) CH_PROXY Hk) as Hft. rewrite Hx in Hft. unfold first_tag in Hft.
  destruct (List.find _ (channel_tags (dp_channels p))) as [[k [|t ts]]|]; [done| |done]. cbn in Hft. injection Hft as ->. apply list_elem_of_here.
Qed.

(** Elements that are no direct outbound have a resolver only as [R] says *)
Definition own_resolver_ok (R : pyval → Prop) (d : pydict pyval) : Prop :=
  tag_of d = "direct" ∨ ∀ v, dict_get "domain_resolver" d = Some v → R v.
Definition resolvers_ok (R : pyval → Prop) (c : sbconfig) : Prop := Forall (own_resolver_ok R) (cf_outbounds c) ∧ Forall (own_resolver_ok R) (cf_endpoints c).

Lemma resolvers_at_target R t f c : (∀ d, own_resolver_ok R d → own_resolver_ok R (f d)) → resolvers_ok R c → resolvers_ok R (at_target t f c).
Proof. intros Hf [H1 H2]. destruct t; split; cbn; try done; apply Forall_alter; auto. Qed.
Lemma own_resolver_set R k v d : k ≠ "tag" → k ≠ "domain_resolver" → own_resolver_ok R d → own_resolver_ok R (dict_set k v d).
Proof.
  intros Hk1 Hk2 [Hd|Hd]; [left|right]; unfold tag_of in *; rewrite dict_get_set_ne by congruence; done.
Qed.
Lemma resolvers_add R d c : own_resolver_ok R d → resolvers_ok R c →
  resolvers_ok R (upd_outbounds (cf_outbounds c ++ [d]) c) ∧ resolvers_ok R (upd_endpoints (cf_endpoints c ++ [d]) c).
Proof. intros Hd [H1 H2]. split; split; cbn; try done; apply Forall_app; by split; [|constructor]. Qed.

Lemma protocol_no_resolver p d : protocol_to_outbound p = Ok d → dict_get "domain_resolver" d = None.
Proof.
  unfold protocol_to_outbound. intros Hd. destruct (p_protocol p); try done;
    unfold vless_outbound, vmess_outbound, trojan_outbound, hysteria2_outbound, tuic_outbound, shadowsocks_outbound, socks_outbound, http_outbound in Hd;
    repeat match type of Hd with (x ← ?m; _) = Ok _ => destruct m; [cbn [mbind res_bind] in Hd|done] end; injection Hd as <-;
    unfold credentials, when; cbn; repeat (case_match; cbn); done.
Qed.
Lemma wireguard_no_resolver p tag d : wireguard_to_endpoint p tag = Ok d → dict_get "domain_resolver" d = None.
Proof.
  unfold wireguard_to_endpoint. destruct (split_endpoint _) as [[h pt]|]; [|done]. cbn [mbind res_bind].
  destruct (port_of _); [|done]. cbn [mbind res_bind]. destruct (any_colon _); [|done]. cbn [mbind res_bind].
  destruct (normalize_port _ _); [|done]. cbn [mbind res_bind]. intros [= <-]. unfold when. cbn. repeat (case_match; cbn); done.
Qed.

Lemma route_target_resolvers R p tag c w c' t w' : profile_to_route_target host p tag c w = (Ok (c', t), w') → resolvers_ok R c → resolvers_ok R c'.
Proof.
  assert (Hdial : ∀ d w d' w', apply_dialer_options host d p w = (Ok d', w') → dict_get "domain_resolver" d = None → own_resolver_ok R d').
  { intros d w0 d' w0' Hd Hn. unfold apply_dialer_options in Hd. bind_inv Hd b w1 Hb. apply ret_ok_inv in Hd as [<- _]. right.
    intros v Hv. destruct b as [[|]|]; try congruence. rewrite dict_get_set_ne in Hv by done. congruence. }
  intros Hp Hc. unfold profile_to_route_target in Hp. bind_inv Hp u w1 Hv. destruct (bool_decide (p_protocol p = WIREGUARD)).
  - bind_inv Hp e w2 He. bind_inv Hp e' w3 He'. apply ret_ok_inv in Hp as [Hp _]. apply pair_eq in Hp as [<- _]. injection He as He _.
    apply resolvers_add; [|done]. eapply Hdial; [exact He'|]. by eapply wireguard_no_resolver.
  - bind_inv Hp e w2 He. bind_inv Hp e' w3 He'. apply ret_ok_inv in Hp as [Hp _]. apply pair_eq in Hp as [<- _]. injection He as He _.
    apply resolvers_add; [|done]. eapply Hdial; [exact He'|]. apply protocol_no_resolver in He. destruct tag; [|done]. by rewrite dict_get_set_ne.
Qed.
Lemma chain_hops_resolvers R hops : ∀ prev c w c' w', chain_hops host hops prev c w = (Ok c', w') → resolvers_ok R c → resolvers_ok R c'.
Proof.
  induction hops as [|hop hops IH]; intros prev c w c' w'; cbn [chain_hops]; [by intros [= <- _]|].
  destruct (hp_resolved_profile hop) as [p|]; [|apply IH]. destruct (hp_outbound_tag hop) as [tag|]; [|apply IH].
  intros Hc Hok. bind_inv Hc ct w1 H1. destruct ct as [c1 t]. apply IH in Hc; [done|]. apply route_target_resolvers with (R := R) in H1; [|done].
  destruct prev; [|done]. apply resolvers_at_target; [|done]. intros d. by apply own_resolver_set.
Qed.
Lemma append_chains_resolvers R plans : ∀ c w c' w', append_chain_outbounds host plans c w = (Ok c', w') → resolvers_ok R c → resolvers_ok R c'.
Proof.
  induction plans as [|[a plan] plans IH]; intros c w c' w'; cbn [append_chain_outbounds]; [by intros [= <- _]|].
  intros Hc Hok. bind_inv Hc c1 w1 H1. apply IH in Hc; [done|]. destruct (plan_resolved plan); [by eapply chain_hops_resolvers|].
  by apply ret_ok_inv in H1 as [<- _].
Qed.
Lemma ensure_direct_resolvers R r b c : resolvers_ok R c → resolvers_ok R (ensure_direct_outbound r b c).1.
Proof.
  intros [H1 H2]. unfold ensure_direct_outbound. destruct (position _ _) as [i|] eqn:Ep; split; cbn; try done.
  - apply Forall_alter; [done|]. intros d Hd _. left. destruct (position_Some _ _ _ Ep) as (d' & Hd' & Ht). assert (d' = d) as -> by congruence.
    rewrite has_tag_head in Ht by done. apply String.eqb_eq in Ht.
    assert (Hf : head_of (refresh_direct r b d) = head_of d).
    { unfold refresh_direct. destruct b; [rewrite head_setdefault by done|]; by apply head_opt_set. }
    apply (f_equal fst) in Hf. cbn in Hf, Ht. congruence.
  - apply Forall_app. split; [done|]. constructor; [|constructor]. left.
    assert (Hh : head_of (opt_set "bind_interface" (option_map PStr b) (opt_set "domain_resolver" r [("type", PStr "direct"); ("tag", PStr "direct")])) = DIRECT_HEAD)
      by (by rewrite !head_opt_set). by injection Hh.
Qed.
Lemma management_resolvers R routes : ∀ i c, resolvers_ok R c → resolvers_ok R (management_outbounds i routes c).1.
Proof.
  induction routes as [|[peer interface] routes IH]; intros i c Hc; cbn [management_outbounds]; [done|].
  specialize (IH (S i) (ensure_management_outbound (management_tag i) interface c)).
  destruct (management_outbounds (S i) routes _) as [c1 rs]. apply IH. unfold ensure_management_outbound.
  destruct (position _ _); [done|]. apply resolvers_add; [|done]. right. done.
Qed.

Definition safe_resolver (c : sbconfig) (v : pyval) : Prop := ∃ dns, cf_dns c = Some dns ∧ not_through_tunnel (dx_servers dns) v.
Lemma resolvers_impl (R R' : pyval → Prop) c : (∀ v, R v → R' v) → resolvers_ok R c → resolvers_ok R' c.
Proof.
  intros Hi [H1 H2]. split; (eapply Forall_impl; [eassumption|]); intros d [Hd|Hd]; [by left|right; auto|by left|right; auto].
Qed.
Lemma resolvers_same R c c' : cf_outbounds c' = cf_outbounds c → cf_endpoints c' = cf_endpoints c → resolvers_ok R c → resolvers_ok R c'.
Proof. unfold resolvers_ok. by intros -> ->. Qed.

Lemma with_dns_resolvers p o allow cfg t c R : resolvers_ok (fun _ => False) c → (∀ r, outbound_resolver cfg = Some r → R (PStr r)) →
  resolvers_ok R (with_dns_config cache_path p o allow cfg t c)
  ∧ option_map dx_servers (cf_dns (with_dns_config cache_path p o allow cfg t c)) = Some (sc_servers cfg).
Proof.
  intros Hc HR. unfold with_dns_config. set (c1 := match build_dns_hijack_route p with Some _ => _ | None => _ end).
  assert (H1 : cf_outbounds c1 = cf_outbounds c ∧ cf_endpoints c1 = cf_endpoints c ∧ option_map dx_servers (cf_dns c1) = Some (sc_servers cfg)).
  { unfold c1. by destruct (build_dns_hijack_route p), (build_tun_domain_preservation_route _ _ _). }
  destruct H1 as (H1 & H2 & H3). assert (Hc1 : resolvers_ok R c1).
  { eapply resolvers_impl; [|by eapply resolvers_same; [| |exact Hc]]. done. }
  destruct (outbound_resolver cfg) as [r|]; [|done]. split; [|by destruct t].
  apply (resolvers_same R (at_target t (dict_set "domain_resolver" (PStr r)) c1)); [done|done|]. apply resolvers_at_target; [|done].
  intros d Hd. right. intros v. rewrite dict_get_set_eq. intros [= <-]. by apply HR.
Qed.

Lemma add_dns_resolvers profile policy o allow t c w c' w' :
  (∀ p, policy = Some p → NoDup (map fst (dp_channels p))) →
  add_dns host cache_path profile policy o allow t c w = (Ok c', w') → resolvers_ok (fun _ => False) c → resolvers_ok (safe_resolver c') c'.
Proof.
  intros Hn. unfold add_dns. assert (Hr : ∀ x, resolvers_ok (fun _ => False) x → resolvers_ok (safe_resolver x) x).
  { intros x. by apply resolvers_impl. }
  destruct policy as [p|]; [|intros [= <- _]; apply Hr].
  intros Hd Hc. bind_inv Hd tag w1 H1. bind_inv Hd cfg w2 H2. destruct cfg as [cfg|]; [|apply ret_ok_inv in Hd as [<- _]; by apply Hr].
  cbv zeta in Hd. injection H2 as H2 _. unfold dns_config_of in H2.
  assert (Hb : build_singbox_dns_config p tag allow = Some (Ok (Some cfg))).
  { destruct (build_singbox_dns_config p tag allow); [|done]. cbn in H2. congruence. }
  destruct (with_dns_resolvers p o allow cfg t c (not_through_tunnel (sc_servers cfg)) Hc) as [Hw Hs].
  { intros r Hor. by eapply outbound_resolver_server; [apply Hn| |]. }
  set (cw := with_dns_config _ _ _ _ _ _ _) in *.
  assert (Hsafe : ∀ x, cf_dns x = cf_dns cw → ∀ v, not_through_tunnel (sc_servers cfg) v → safe_resolver x v).
  { intros x Hx v Hv. unfold safe_resolver. rewrite Hx. destruct (cf_dns cw) as [dns|]; [|done]. injection Hs as Hs. exists dns. by rewrite Hs. }
  destruct (needs_direct_outbound cfg).
  - bind_inv Hd b w3 H3. apply ret_ok_inv in Hd as [<- _]. eapply resolvers_impl; [|by apply ensure_direct_resolvers].
    apply Hsafe. destruct (ensure_direct_outbound _ b cw) as [cd td] eqn:E. cbn. by destruct (ensure_direct_heads _ _ _ _ _ E) as (_ & _ & _ & _ & -> & _).
  - apply ret_ok_inv in Hd as [<- _]. eapply resolvers_impl; [|exact Hw]. by apply Hsafe.
Qed.

Lemma management_dns routes : ∀ i c, cf_dns (management_outbounds i routes c).1 = cf_dns c.
Proof.
  induction routes as [|[peer interface] routes IH]; intros i c; cbn [management_outbounds]; [done|].
  specialize (IH (S i) (ensure_management_outbound (management_tag i) interface c)). destruct (management_outbounds (S i) routes _) as [c1 rs].
  cbn in *. rewrite IH. unfold ensure_management_outbound. by destruct (position _ _).
Qed.
Lemma add_front_resolvers R o c : resolvers_ok R c → resolvers_ok R (add_front_rules o c) ∧ cf_dns (add_front_rules o c) = cf_dns c.
Proof.
  intros Hc. unfold add_front_rules. destruct (g_management_routes o) as [|r0 routes].
  - by destruct (g_management_peers o), (map bypass_rule (g_native_bypass_cidrs o)).
  - pose proof (management_resolvers R (sorted_routes (r0 :: routes)) 1 c Hc) as Hm.
    pose proof (management_dns (sorted_routes (r0 :: routes)) 1 c) as Hd. destruct (management_outbounds 1 _ c) as [c1 rs]. done.
Qed.

Lemma resolvers_safe profile policy o w c w' :
  generate_singbox_config host cache_path write_config profile policy o w = (Ok c, w') →
  (∀ p, policy = Some p → NoDup (map fst (dp_channels p))) →
  ∀ d v, d ∈ cf_outbounds c ++ cf_endpoints c → tag_of d ≠ "direct" → dict_get "domain_resolver" d = Some v → safe_resolver c v.
Proof.
  intros Hg Hn. cut (resolvers_ok (safe_resolver c) c).
  { intros [H1 H2] d v Hd Ht Hv. rewrite Forall_forall in H1, H2. apply elem_of_app in Hd as [Hd|Hd]; [destruct (H1 d Hd)|destruct (H2 d Hd)]; auto; done. }
  revert Hg. unfold generate_singbox_config. destruct (negb (str_in _ _)); [done|]. intros Hg. bind_inv Hg ok w0 H0.
  destruct (negb ok); [done|]. cbv zeta in Hg. set (c0 := Build_sbconfig _ _ _ _ _ _ _ _ _) in Hg. bind_inv Hg ct w1 H1. destruct ct as [c1 t].
  assert (R1 : resolvers_ok (fun _ => False) c1).
  { assert (R0 : resolvers_ok (fun _ => False) c0) by (split; constructor). destruct (g_native_transport o).
    - destruct (negb _); [done|]. apply ret_ok_inv in H1 as [H1 _]. pose proof (ensure_direct_resolvers (fun _ => False) None (Some (native_bind_interface o)) c0 R0) as Hx.
      by rewrite H1 in Hx.
    - by eapply route_target_resolvers. }
  bind_inv Hg c2 w2 H2. apply append_chains_resolvers with (R := fun _ => False) in H2; [|done]. set (c3 := if mode_requires_tun _ _ then _ else _) in Hg.
  assert (R3 : resolvers_ok (fun _ => False) c3) by (unfold c3; by destruct (mode_requires_tun _ _)).
  bind_inv Hg c4 w4 H4. apply add_dns_resolvers in H4; [|done|done]. bind_inv Hg c5 w5 H5.
  assert (R5 : resolvers_ok (safe_resolver c4) c5 ∧ cf_dns c5 = cf_dns c4).
  { destruct (_ || _).
    - bind_inv H5 b wb Hb. apply ret_ok_inv in H5 as [<- _]. split; [by apply ensure_direct_resolvers|].
      destruct (ensure_direct_outbound None b c4) as [cd td] eqn:E. cbn. by destruct (ensure_direct_heads _ _ _ _ _ E) as (_ & _ & _ & _ & -> & _).
    - by apply ret_ok_inv in H5 as [<- _]. }
  destruct R5 as [R5 D5]. bind_inv Hg table w6 H6. bind_inv Hg u w7 H7. apply ret_ok_inv in Hg as [<- _]. set (c6 := merge_route_config _ _ c5).
  destruct (add_front_resolvers (safe_resolver c4) o c6) as [R6 D6]; [by apply (resolvers_same _ c5)|].
  eapply resolvers_impl; [|exact R6]. unfold safe_resolver. rewrite D6. change (cf_dns c6) with (cf_dns c5). by rewrite D5.
Qed.

(** The server that [v] names is one server of the document, and the way to it is the host's own
    or a detour that only direct outbounds bear. *)
Definition resolver_outside_tunnel (c : sbconfig) (v : pyval) : Prop :=
  ∃ dns s, cf_dns c = Some dns ∧ v = PStr (ds_tag s) ∧ s ∈ dx_servers dns
    ∧ (∀ s', s' ∈ dx_servers dns → ds_tag s' = ds_tag s → s' = s)
    ∧ ∀ t, ds_detour s = Some t → ∀ d, d ∈ cf_outbounds c ++ cf_endpoints c → tag_of d = t → dict_get "type" d = Some (PStr "direct").

(** C14: The names of the tunnel's servers are never looked up through the tunnel.  In every
    document generated for a profile that does not bear a reserved name ("direct" or a management
    tag) or for a native transport, with chain plans as [RouteChains] makes them and a DNS policy
    with distinct channels, each outbound of a type other than direct that names a resolver names
    exactly one server of the DNS section, and that server is reached by the host itself or
    through a tag that only direct outbounds bear, not through the profile or a chain. *)
Theorem own_resolver_outside_tunnel profile policy o w c w' :
  generate_singbox_config host cache_path write_config profile policy o w = (Ok c, w') →
  plans_ok (g_plans o) → (g_native_transport o = false → ¬ reserved_name (p_name profile)) →
  (∀ p, policy = Some p → NoDup (map fst (dp_channels p))) →
  ∀ d v, d ∈ cf_outbounds c ++ cf_endpoints c → dict_get "type" d ≠ Some (PStr "direct") →
  dict_get "domain_resolver" d = Some v → resolver_outside_tunnel c v.
Proof.
  intros Hg Hp Hname Hn d v Hd Hty Hv. pose proof (reserved_is_direct _ _ _ _ _ _ Hg Hp Hname) as Hres.
  destruct (resolvers_safe _ _ _ _ _ _ Hg Hn d v Hd) as (dns & Hdns & s & -> & Hs & Hdet & Hu); [|done|].
  - intros Ht. apply Hty, Hres; [done|by left].
  - exists dns, s. repeat split; try done. intros t Ht d' Hd' Htag. destruct Hdet as [Hdet|Hdet]; [congruence|].
    apply Hres; [done|]. left. congruence.
Qed.
End generation.

(** The plans that [RouteChains] makes are such plans *)
Lemma resolved_plan_ok `{PyStr, PySet} rt now_health now_latency config action document dns_policy plan :
  resolve_chain_action rt now_health now_latency action document dns_policy config = Ok plan → plan_ok plan.
Proof.
  intros Hp Hr. destruct (chain_resolution_spec _ _ _ _ _ _ _ _ Hp) as [_ Hs]. unfold plan_resolved in Hr. destruct (pl_status plan); [|done].
  destruct Hs as (chain & _ & _ & _ & _ & Hf & Ht & Hne). revert Hf Ht Hne. generalize (pl_hops plan). intros hops Hf Ht Hne.
  assert (Htags : hop_tags hops = map (fun ih => chain_hop_outbound_tag (rc_id chain) ih.1) (enumerate 1 (rc_hops chain))).
  { clear -Hf. revert Hf. generalize (enumerate 1 (rc_hops chain)). intros l. induction 1 as [|ih h l hops (p & _ & ->) _ IH]; [done|].
    unfold hop_tags. cbn. f_equal. exact IH. }
  rewrite Htags. split; [apply Forall_forall; intros x (ih & -> & _)%list_elem_of_fmap; eauto|].
  intros tag Hx. rewrite Ht in Hx. injection Hx as <-. pose proof (Forall2_length _ _ _ Hf) as Hlen.
  assert (Hel : ∀ n, length (enumerate n (rc_hops chain)) = length (rc_hops chain)).
  { generalize (rc_hops chain). intros l. induction l; intros; cbn; auto. }
  rewrite Hel in Hlen. destruct (rc_hops chain) as [|h0 l] eqn:El; [by destruct hops|].
  apply list_elem_of_fmap. destruct (lookup_lt_is_Some_2 (h0 :: l) (length l)) as [h Hh]; [cbn; lia|].
  exists (N.of_nat (length (h0 :: l)), h). split; [done|]. apply list_elem_of_lookup. exists (length l). rewrite enumerate_lookup, Hh. cbn [option_map fmap option_fmap].
  f_equal. f_equal. cbn. lia.
Qed.

(** ** Witnesses *)
Module DemoSingBox.
#[local] Instance str : PyStr := {| repr_compound := fun _ => ""; float_literal := fun _ => None |}.
#[local] Instance regex : PyRegex := {| regex_valid := fun _ => true; regex_search := fun _ _ => false |}.

(** A host without the tools; the written documents are its world *)
Definition host : SbHost (list sbconfig) := {|
  sh_environ := fun _ => None; sh_which := fun _ w => (Ok false, w);
  sh_run := fun _ w => (Ok {| cp_returncode := 1; cp_stdout := ""; cp_stderr := "" |}, w) |}.
Definition write (c : sbconfig) : PyM (list sbconfig) unit := modifyS (cons c).

Definition profile (name : string) : Profile := {|
  p_id := "p1"; p_name := name; p_protocol := VLESS;
  p_config := [("host", PStr "vpn.example"); ("port", PInt 443); ("uuid", PStr "u-1"); ("sni", PStr "front.example"); ("bind_interface", PStr "eth0")];
  p_source := MANUAL_SOURCE; p_provider_id := None; p_in_rotation_pool := true; p_enabled := true;
  p_created_at := {| dt_wall := 0; dt_utcoffset := None |}; p_last_used := None; p_last_health_check := None; p_health_status := "unknown";
  p_latency_ms := None; p_last_latency_check := None |}.

Definition options (mode final : string) (peers : list string) : GenOptions := {|
  g_mode := mode; g_groups := []; g_app_policy := None; g_final_policy := final; g_rule_set_tags := []; g_rule_set_declarations := [];
  g_plans := []; g_lan_proxy := None; g_capture_modes := Some ["tun"]; g_management_peers := peers; g_native_transport := false;
  g_native_bypass_cidrs := []; g_native_egress_interface := None; g_management_routes := [] |}.

Definition document (name mode final : string) (peers : list string) (policy : option DNSPolicy) : option sbconfig :=
  match (generate_singbox_config host "/cache.db" write (profile name) policy (options mode final peers) []).1 with Ok c => Some c | Err _ => None end.

Example vless_document :
  option_map (fun c => (map (fun d => (tag_of d, dict_get "type" d, dict_get "bind_interface" d)) (cf_outbounds c), length (cf_inbounds c), cf_rules c))
    (document "home" "tun" "current_profile" ["203.0.113.9"] None)
  = Some ([("home", Some (PStr "vless"), Some (PStr "eth0")); ("direct", Some (PStr "direct"), Some (PStr "eth0"))], 3%nat,
          [peer_rule "203.0.113.9" "direct"; RDict [("action", PStr "route"); ("outbound", PStr "home")]]).
Proof. vm_compute. reflexivity. Qed.

Definition home : sbconfig := default (Build_sbconfig "" [] [] [] None [] [] None None)
  (document "home" "tun" "current_profile" ["203.0.113.9"] (Some DemoConfig.demo_policy)).
Lemma home_generated : generate_singbox_config host "/cache.db" write (profile "home") (Some DemoConfig.demo_policy)
  (options "tun" "current_profile" ["203.0.113.9"]) [] = (Ok home, [home]).
Proof. vm_compute. reflexivity. Defined.

Lemma config_routes_closed_witness :
  "home" ∈ tags home ∧ RDict [("action", PStr "route"); ("outbound", PStr "home")] ∈ cf_rules home.
Proof.
  assert (Hin : RDict [("action", PStr "route"); ("outbound", PStr "home")] ∈ cf_rules home).
  { apply list_elem_of_lookup. exists 5%nat. vm_compute. reflexivity. }
  split; [|exact Hin].
  destruct (config_routes_closed host "/cache.db" write (profile "home") (Some DemoConfig.demo_policy) (options "tun" "current_profile" ["203.0.113.9"]) []
           home [home] home_generated) with (d := [("action", PStr "route"); ("outbound", PStr "home")]) (out := "home")
    as [Hx|[Hx _]].
  - constructor.
  - constructor.
  - discriminate.
  - exact Hin.
  - reflexivity.
  - exact Hx.
  - discriminate Hx.
Defined.

Lemma home_not_reserved : ¬ reserved_name "home".
Proof. intros [H|(k & H)]; [discriminate H|]. unfold management_tag in H. discriminate H. Qed.

Lemma management_paths_outside_tunnel_witness :
  (∃ rest, cf_rules home = [peer_rule "203.0.113.9" "direct"] ++ rest) ∧ "direct" ∈ tags home
  ∧ ∀ d, d ∈ cf_outbounds home ++ cf_endpoints home → reserved_name (tag_of d) → dict_get "type" d = Some (PStr "direct").
Proof.
  destruct (management_paths_outside_tunnel host "/cache.db" write (profile "home") (Some DemoConfig.demo_policy)
              (options "tun" "current_profile" ["203.0.113.9"]) [] home [home] home_generated) as (H1 & H2 & _ & H4).
  - constructor.
  - intros _. exact home_not_reserved.
  - split; [exact H1|]. split; [apply H2; discriminate|exact H4].
Defined.

Lemma own_resolver_outside_tunnel_witness :
  ∃ d, d ∈ cf_outbounds home ++ cf_endpoints home ∧ tag_of d = "home" ∧ ∃ v, dict_get "domain_resolver" d = Some v ∧ resolver_outside_tunnel home v.
Proof.
  destruct (cf_outbounds home) as [|d l] eqn:E; [vm_compute in E; discriminate|]. exists d. split; [left|]. vm_compute in E. injection E as <- _.
  split; [reflexivity|]. eexists. split; [vm_compute; reflexivity|].
  eapply (own_resolver_outside_tunnel host "/cache.db" write (profile "home") (Some DemoConfig.demo_policy)
            (options "tun" "current_profile" ["203.0.113.9"]) [] home [home] home_generated).
  - constructor.
  - intros _. exact home_not_reserved.
  - intros p [= <-]. exact DemoConfig.demo_keys.
  - apply list_elem_of_lookup. exists 0%nat. vm_compute. reflexivity.
  - vm_compute. discriminate.
  - vm_compute. reflexivity.
Defined.
End DemoSingBox.

(** ** Names the generator takes for itself *)
(** A profile may be named direct, and then the management bypass is the tunnel.  For such a
    profile, validated and generated with one remote management peer, the first rule of the written
    document sends the peer to the outbound direct, and the only outbound of that tag is the VLESS
    tunnel itself. *)
Theorem reserved_profile_name_captures_management :
  option_map (fun c => (head (cf_rules c), map (fun d => (tag_of d, dict_get "type" d)) (cf_outbounds c)))
    (DemoSingBox.document "direct" "tun" "current_profile" ["203.0.113.9"] None)
  = Some (Some (peer_rule "203.0.113.9" "direct"), [("direct", Some (PStr "vless"))]).
Proof. vm_compute. reflexivity. Qed.

(** A direct default route in global mode names an outbound that is not written.  The watchdog
    turns the route policy direct into the final policy direct and keeps the mode global, and
    without a DNS section and without management peers the generated document then routes all
    traffic to direct while its only outbound is the profile. *)
Theorem direct_default_route_dangles :
  connect_mode "global" "direct" ["tun"] = "global" ∧ final_policy_of "direct" = Ok "direct"
  ∧ option_map (fun c => (cf_rules c, tags c)) (DemoSingBox.document "home" "global" "direct" [] None)
    = Some ([RDict [("action", PStr "route"); ("outbound", PStr "direct")]], ["home"]).
Proof. vm_compute. auto. Qed.
