(* ===== verification/RuntimePaths.v ===== *)
(** * Runtime directories and the processes they record

    drivers/runtime_paths.py: where a driver keeps its files, the durable records of the processes
    it started, how such a record is matched against a live process, and how recorded processes are
    stopped.  /proc, signals, files and the clock are the interface [ProcHost]. *)
From stdpp Require Import base list strings pretty.
From Stdlib Require Import Ascii ZArith QArith Lia Lqa.
From S2P Require Import Prelude Steps PyData PyText PyUrl Rules Health Protocol ProfileSchema.

(** ** Paths *)

(** [os.path.basename] *)
Definition basename (s : string) : string := (rpartition_on "/" s).2.
(** The root and the other parts of [PurePosixPath(text)] *)
Definition path_root (s : string) : string :=
  if startswith "//" s && negb (startswith "///" s) then "//" else if startswith "/" s then "/" else "".
Definition path_names (s : string) : list string :=
  List.filter (fun part => truthy_str part && negb (String.eqb part ".")) (split_on "/" s).
Definition path_parts (s : string) : list string :=
  (if truthy_str (path_root s) then [path_root s] else []) ++ path_names s.
(** [Path(dir) / name] for a name without slashes *)
Definition path_join (dir name : string) : string := if endswith "/" dir then dir +:+ name else dir +:+ "/" +:+ name.
Fixpoint strip_parts (prefix l : list string) : option (list string) :=
  match prefix, l with
  | [], _ => Some l
  | p :: prefix, x :: l => if String.eqb p x then strip_parts prefix l else None
  | _ :: _, [] => None
  end.
(** The parts of [Path(text).relative_to(base)]; [None]: it raises *)
Definition relative_parts (text base : string) : option (list string) :=
  if String.eqb (path_root text) (path_root base) then strip_parts (path_parts base) (path_parts text) else None.

Record OwnedProcess : Type := { op_pid : Z; op_executable : string }.
Record TCPListenerObservation : Type := { tl_observable : bool; tl_ports : list Z }.

Definition OWNER_PID_NAME : string := "owner.pid".
Definition CHILD_PIDS_NAME : string := "children.json".
Definition PROCESS_IDENTITY_RETRY_TIMEOUT : Q := 1 # 4.
Definition PROCESS_IDENTITY_RETRY_INTERVAL : Q := 1 # 100.
Definition SIGTERM : Z := 15.
Definition SIGKILL : Z := 9.

(** ** The host *)
Record ProcHost (W : Type) : Type := {
  ph_environ : string → option string;
  ph_getuid : Z;
  ph_getpid : Z;
  ph_gettempdir : string;
  ph_exists : string → PyM W bool;
  ph_access_wx : string → PyM W bool;                      (** [os.access(path, W_OK | X_OK)] *)
  ph_is_dir : string → PyM W bool;
  ph_glob : string → string → PyM W (list string);         (** [Path(dir).glob(prefix + "*")] *)
  ph_iterdir : string → PyM W (list string);               (** the names in a directory *)
  ph_read_text : string → PyM W string;
  ph_cmdline : Z → PyM W string;                           (** /proc/pid/cmdline, decoded with replacement *)
  ph_readlink : string → PyM W string;
  ph_kill : Z → Z → PyM W unit;                            (** [os.kill(pid, signal)] *)
  ph_mkdir : string → PyM W unit;                          (** with parents, mode 0700, may exist *)
  ph_mkdtemp : string → string → PyM W string;             (** directory and prefix *)
  ph_chmod : string → Z → PyM W unit;
  ph_write : string → string → PyM W unit;                 (** open with mode 0600, truncate, write *)
  ph_rmtree : string → PyM W unit;
  ph_monotonic : PyM W Q;
  ph_sleep : Q → PyM W unit;
  ph_loads : string → res pyval;                           (** [json.loads] *)
  ph_dumps : pyval → string                                (** [json.dumps] *)
}.
Arguments ph_environ {W}.
Arguments ph_getuid {W}.
Arguments ph_getpid {W}.
Arguments ph_gettempdir {W}.
Arguments ph_exists {W}.
Arguments ph_access_wx {W}.
Arguments ph_is_dir {W}.
Arguments ph_glob {W}.
Arguments ph_iterdir {W}.
Arguments ph_read_text {W}.
Arguments ph_cmdline {W}.
Arguments ph_readlink {W}.
Arguments ph_kill {W}.
Arguments ph_mkdir {W}.
Arguments ph_mkdtemp {W}.
Arguments ph_chmod {W}.
Arguments ph_write {W}.
Arguments ph_rmtree {W}.
Arguments ph_monotonic {W}.
Arguments ph_sleep {W}.
Arguments ph_loads {W}.
Arguments ph_dumps {W}.

Definition os_error (e : exn) : bool := is_instance e OSError.
Definition type_or_value_error (e : exn) : bool := is_instance e TypeError || is_instance e ValueError.
(** [try: x = m  except OSError: x = None] *)
Definition observed {W A} (m : PyM W A) : PyM W (option A) :=
  try_except (a ← m; mret (Some a)) os_error (fun _ => mret None).

Definition proc_path (pid : Z) (name : string) : string := "/proc/" +:+ pretty pid +:+ "/" +:+ name.

(** The fields of /proc/pid/stat after the command name *)
Definition stat_fields (raw : string) : option (list string) :=
  let '(_, found, rest) := rpartition_on ")" raw in
  if negb found then None else match py_split rest with [] => None | fields => Some fields end.
Definition start_ticks (fields : list string) : option Z :=
  match fields !! 19%nat with Some text => py_int text | None => None end.

(** The first argument of a command line *)
Definition argv0 (raw : string) : string := hd "" (split_on Ascii.zero raw).

Section host.
Context `{PyStr} {W : Type} (host : ProcHost W).

Definition usable_dir (path : string) : PyM W bool :=
  exists_ ← ph_exists host path;
  if exists_ : bool then ph_access_wx host path else mret false.
Definition runtime_base_dir : PyM W string :=
  let configured := default "" (ph_environ host "WATCHDOGVPN_RUNTIME_DIR") in
  if truthy_str configured then mret configured
  else
    let xdg_runtime := default "" (ph_environ host "XDG_RUNTIME_DIR") in
    xdg ← (if truthy_str xdg_runtime then usable_dir xdg_runtime else mret false);
    if xdg : bool then mret xdg_runtime
    else
      let run_user := "/run/user/" +:+ pretty (ph_getuid host) in
      usable ← usable_dir run_user;
      mret (if usable : bool then run_user else ph_gettempdir host).

Definition process_stat_fields (pid : Z) : PyM W (option (list string)) :=
  raw ← observed (ph_read_text host (proc_path pid "stat"));
  mret (raw ≫= stat_fields).
Definition process_state (pid : Z) : PyM W (option string) :=
  fields ← process_stat_fields pid;
  mret (fields ≫= head).
Definition process_start_time_ticks (pid : Z) : PyM W (option Z) :=
  fields ← process_stat_fields pid;
  mret (fields ≫= start_ticks).

Definition pid_is_alive (pid : Z) : PyM W bool :=
  state ← process_state pid;
  if bool_decide (state = Some "Z") then mret false
  else try_except (_ ← ph_kill host pid 0; mret true) os_error (fun e => mret (is_instance e PermissionError)).

(** ** Records of children *)
Definition read_children (runtime_dir : string) : PyM W (pydict (pydict pyval)) :=
  raw ← observed (ph_read_text host (path_join runtime_dir CHILD_PIDS_NAME));
  match raw with
  | None => mret []
  | Some raw =>
      data ← try_except (liftR (ph_loads host raw)) (fun e => is_instance e JSONDecodeError) (fun _ => mret PNone);
      mret match data with
           | PDict d => omap (fun kv => match kv.2 with PDict entry => Some (kv.1, entry) | _ => None end) d
           | _ => []
           end
  end.
Definition write_private_file (path content : string) : PyM W unit :=
  _ ← ph_write host path content;
  ph_chmod host path 384.
Definition record_child_process (runtime_dir label : string) (pid : Z) (exe_hint : string) : PyM W unit :=
  children ← read_children runtime_dir;
  ticks ← process_start_time_ticks pid;
  let entry := [("pid", PInt pid); ("exe_hint", PStr exe_hint);
                ("start_time_ticks", match ticks with Some t => PInt t | None => PNone end)] in
  write_private_file (path_join runtime_dir CHILD_PIDS_NAME)
    (ph_dumps host (PDict (map (fun kv => (kv.1, PDict kv.2)) (dict_set label entry children)))).

(** ** Identity of a recorded process *)
Definition process_matches_hint (pid : Z) (exe_hint : string) : PyM W bool :=
  if negb (truthy_str exe_hint) then mret false
  else
    let hint := basename exe_hint in
    raw ← observed (ph_cmdline host pid);
    if match raw with Some raw => truthy_str raw && String.eqb (basename (argv0 raw)) hint | None => false end then mret true
    else
      resolved ← observed (ph_readlink host (proc_path pid "exe"));
      mret match resolved with Some link => String.eqb (basename link) hint | None => false end.

(** The start time a record asks for: [Ok None] when it has none *)
Definition expected_start (entry : pydict pyval) : res (option Z) :=
  match cfg_get "start_time_ticks" entry with
  | PNone => Ok None
  | v => z ← int_of_val v; Ok (Some z)
  end.
Definition entry_hint (entry : pydict pyval) : string := py_str (dict_get_or "exe_hint" (PStr "") entry).

Definition Qmin2 (a b : Q) : Q := if Qltb b a then b else a.
Definition Qmax0 (a : Q) : Q := if Qltb 0 a then a else 0%Q.

(** [None]: the process may be the recorded one but did not show it yet, try again before the deadline *)
Definition match_once (pid : Z) (expected : option Z) (hint : string) : PyM W (option bool) :=
  started ← match expected with
            | None => mret (Some true)
            | Some t => seen ← process_start_time_ticks pid; mret (option_map (Z.eqb t) seen)
            end;
  match started with
  | None => mret None
  | Some false => mret (Some false)
  | Some true =>
      same ← process_matches_hint pid hint;
      mret (if same : bool then Some true else None)
  end.
Fixpoint match_loop (fuel : nat) (deadline : Q) (pid : Z) (expected : option Z) (hint : string) : PyM W bool :=
  match fuel with
  | O => raiseM OtherError "out of fuel"
  | S fuel =>
      verdict ← match_once pid expected hint;
      match verdict with
      | Some b => mret b
      | None =>
          alive ← pid_is_alive pid;
          if negb alive then mret false
          else
            now ← ph_monotonic host;
            if Qle_bool deadline now then mret false
            else
              again ← ph_monotonic host;
              _ ← ph_sleep host (Qmin2 PROCESS_IDENTITY_RETRY_INTERVAL (Qmax0 (deadline - again)));
              match_loop fuel deadline pid expected hint
      end
  end.
(** One attempt, and one more for every interval of the timeout *)
Definition MATCH_FUEL : nat := 26.
Definition recorded_process_matches (pid : Z) (entry : pydict pyval) (retry_timeout : Q) : PyM W bool :=
  match expected_start entry with
  | Err e => if type_or_value_error e then mret false else liftR (Err e)
  | Ok expected =>
      now ← ph_monotonic host;
      match_loop MATCH_FUEL (now + Qmax0 retry_timeout) pid expected (entry_hint entry)
  end.

(** ** Stopping *)
(** [while time.monotonic() < deadline: ... time.sleep(interval)], with [None] where the body goes on *)
Fixpoint wait_until (interval : Q) (fuel : nat) (deadline : Q) (check : PyM W (option bool)) : PyM W bool :=
  match fuel with
  | O => raiseM OtherError "out of fuel"
  | S fuel =>
      now ← ph_monotonic host;
      if Qle_bool deadline now then mret false
      else
        verdict ← check;
        match verdict with
        | Some b => mret b
        | None => _ ← ph_sleep host interval; wait_until interval fuel deadline check
        end
  end.
Definition exited (pid : Z) : PyM W (option bool) :=
  alive ← pid_is_alive pid;
  mret (if alive : bool then None else Some true).
Definition EXIT_FUEL : nat := 51.
(** Sends a signal and waits; [None]: still alive at the deadline *)
Definition signal_and_wait (pid signal : Z) (timeout : Q) : PyM W (option bool) :=
  sent ← observed (ph_kill host pid signal);
  match sent with
  | None => alive ← pid_is_alive pid; mret (Some (negb alive))
  | Some _ =>
      now ← ph_monotonic host;
      ended ← wait_until (1 # 10) EXIT_FUEL (now + timeout) (exited pid);
      mret (if ended : bool then Some true else None)
  end.
Definition terminate_then_kill (pid : Z) (timeout : Q) : PyM W bool :=
  first ← signal_and_wait pid SIGTERM timeout;
  match first with
  | Some b => mret b
  | None =>
      second ← signal_and_wait pid SIGKILL timeout;
      match second with
      | Some b => mret b
      | None => alive ← pid_is_alive pid; mret (negb alive)
      end
  end.

(** [int(entry.get("pid"))]; [Ok None]: TypeError or ValueError *)
Definition entry_pid (entry : pydict pyval) : res (option Z) :=
  match int_of_val (cfg_get "pid" entry) with
  | Ok z => Ok (Some z)
  | Err e => if type_or_value_error e then Ok None else Err e
  end.
Definition stop_entry (timeout : Q) (entry : pydict pyval) : PyM W unit :=
  pid ← liftR (entry_pid entry);
  match pid with
  | None => mret tt
  | Some pid =>
      alive ← pid_is_alive pid;
      if negb alive then mret tt
      else
        same ← recorded_process_matches pid entry PROCESS_IDENTITY_RETRY_TIMEOUT;
        if negb same then mret tt
        else try_except (_ ← terminate_then_kill pid timeout; mret tt) os_error (fun _ => mret tt)
  end.
Fixpoint each {A} (f : A → PyM W unit) (l : list A) : PyM W unit :=
  match l with [] => mret tt | x :: rest => _ ← f x; each f rest end.
Definition kill_recorded_children (runtime_dir : string) : PyM W unit :=
  children ← read_children runtime_dir;
  each (stop_entry 5) (map snd children).

Definition kill_all_recorded_children (prefix : string) : PyM W unit :=
  base ← runtime_base_dir;
  paths ← ph_glob host base prefix;
  each (fun path => dir ← ph_is_dir host path; if dir : bool then kill_recorded_children path else mret tt) paths.

(** Is this record safe to discard? *)
Definition entry_terminated (entry : pydict pyval) : PyM W bool :=
  pid ← liftR (entry_pid entry);
  match pid with
  | None => mret false
  | Some pid =>
      alive ← pid_is_alive pid;
      if negb alive then mret true
      else match cfg_get "start_time_ticks" entry with
      | PNone => mret false
      | raw =>
          match int_of_val raw with
          | Err e => if type_or_value_error e then mret false else liftR (Err e)
          | Ok expected =>
              seen ← process_start_time_ticks pid;
              mret match seen with None => false | Some t => negb (t =? expected)%Z end
          end
      end
  end.
Fixpoint all_of {A} (f : A → PyM W bool) (l : list A) : PyM W bool :=
  match l with [] => mret true | x :: rest => b ← f x; if b : bool then all_of f rest else mret false end.
Definition recorded_children_terminated (runtime_dir : string) : PyM W bool :=
  children ← read_children runtime_dir;
  all_of entry_terminated (map snd children).

(** ** Runtime directories *)
Definition runtime_dir_has_live_owner (path : string) : PyM W bool :=
  raw ← observed (ph_read_text host (path_join path OWNER_PID_NAME));
  match raw ≫= fun text => py_int (strip text) with
  | Some pid => pid_is_alive pid
  | None => mret false
  end.
Definition cleanup_stale_runtime_dirs (prefix : string) : PyM W unit :=
  base ← runtime_base_dir;
  paths ← ph_glob host base prefix;
  each (fun path =>
    dir ← ph_is_dir host path;
    if dir : bool then
      live ← runtime_dir_has_live_owner path;
      if live : bool then mret tt
      else
        _ ← kill_recorded_children path;
        _ ← observed (ph_rmtree host path);
        mret tt
    else mret tt) paths.
Definition make_runtime_dir (prefix : string) : PyM W string :=
  base ← runtime_base_dir;
  _ ← ph_mkdir host base;
  path ← ph_mkdtemp host base prefix;
  _ ← try_except
    (_ ← ph_chmod host path 448; write_private_file (path_join path OWNER_PID_NAME) (pretty (ph_getpid host)))
    os_error
    (fun e => _ ← observed (ph_rmtree host path); liftR (Err e));
  mret path.

(** ** Processes that belong to a runtime *)
Definition process_executable_name (pid : Z) : PyM W string :=
  link ← observed (ph_readlink host (proc_path pid "exe"));
  match link with
  | Some link => mret (basename link)
  | None =>
      raw ← observed (ph_cmdline host pid);
      mret match raw with Some raw => basename (argv0 raw) | None => "" end
  end.
Definition references_runtime_path (base prefix raw : string) : bool :=
  existsb (fun argument =>
    truthy_str argument && startswith "/" argument
    && match relative_parts argument base with Some (first :: _) => startswith prefix first | _ => false end)
    (split_on Ascii.zero raw).
Definition process_references_runtime_path (pid : Z) (base prefix : string) : PyM W bool :=
  raw ← observed (ph_cmdline host pid);
  mret match raw with Some raw => references_runtime_path base prefix raw | None => false end.
(** A line hierarchy:controllers:path of /proc/pid/cgroup *)
Definition service_cgroup_line (line : string) : bool :=
  let '(_, found, rest) := partition_on ":" line in
  let '(_, found', path) := partition_on ":" rest in
  found && found' && str_in "watchdogvpn.service" (path_parts path).
Definition process_in_watchdogvpn_service_cgroup (pid : Z) : PyM W bool :=
  raw ← observed (ph_read_text host (proc_path pid "cgroup"));
  mret match raw with Some raw => existsb service_cgroup_line (splitlines raw) | None => false end.

(** [found[pid] = process] *)
Fixpoint set_owned (p : OwnedProcess) (l : list OwnedProcess) : list OwnedProcess :=
  match l with
  | [] => [p]
  | q :: l => if (op_pid q =? op_pid p)%Z then p :: l else q :: set_owned p l
  end.
Fixpoint recorded_owned (entries : list (pydict pyval)) (found : list OwnedProcess) : PyM W (list OwnedProcess) :=
  match entries with
  | [] => mret found
  | entry :: rest =>
      pid ← liftR (entry_pid entry);
      match pid with
      | None => recorded_owned rest found
      | Some pid =>
          alive ← pid_is_alive pid;
          same ← (if alive : bool then recorded_process_matches pid entry PROCESS_IDENTITY_RETRY_TIMEOUT else mret false);
          recorded_owned rest (if same : bool then set_owned {| op_pid := pid; op_executable := basename (entry_hint entry) |} found else found)
      end
  end.
Fixpoint dirs_owned (paths : list string) (found : list OwnedProcess) : PyM W (list OwnedProcess) :=
  match paths with
  | [] => mret found
  | path :: rest =>
      dir ← ph_is_dir host path;
      if negb dir then dirs_owned rest found
      else
        children ← read_children path;
        found ← recorded_owned (map snd children) found;
        dirs_owned rest found
  end.
Fixpoint proc_owned (base prefix : string) (names : list string) (entries : list string) (found : list OwnedProcess)
    : PyM W (list OwnedProcess) :=
  match entries with
  | [] => mret found
  | name :: rest =>
      if negb (isdigit name) then proc_owned base prefix names rest found
      else
        pid ← liftR (int_of name);
        executable ← process_executable_name pid;
        if negb (str_in executable names) then proc_owned base prefix names rest found
        else
          service ← process_in_watchdogvpn_service_cgroup pid;
          mine ← (if service : bool then mret true else process_references_runtime_path pid base prefix);
          proc_owned base prefix names rest (if mine : bool then set_owned {| op_pid := pid; op_executable := executable |} found else found)
  end.
Definition owned_processes (prefix : string) (executable_names : list string) : PyM W (list OwnedProcess) :=
  base ← runtime_base_dir;
  paths ← ph_glob host base prefix;
  found ← dirs_owned paths [];
  let expected_names := map basename (List.filter truthy_str executable_names) in
  found ← (if bool_decide (expected_names = []) then mret found
           else
             entries ← observed (ph_iterdir host "/proc");
             proc_owned base prefix expected_names (default [] entries) found);
  mret (py_sorted (fun a b => (op_pid a <? op_pid b)%Z) found).

Fixpoint any_recorded (entries : list (pydict pyval)) : PyM W bool :=
  match entries with
  | [] => mret false
  | entry :: rest =>
      pid ← liftR (entry_pid entry);
      match pid with
      | None => any_recorded rest
      | Some pid =>
          alive ← pid_is_alive pid;
          same ← (if alive : bool then recorded_process_matches pid entry PROCESS_IDENTITY_RETRY_TIMEOUT else mret false);
          if same : bool then mret true else any_recorded rest
      end
  end.
Fixpoint any_dir (paths : list string) : PyM W bool :=
  match paths with
  | [] => mret false
  | path :: rest =>
      dir ← ph_is_dir host path;
      if negb dir then any_dir rest
      else
        children ← read_children path;
        found ← any_recorded (map snd children);
        if found : bool then mret true else any_dir rest
  end.
Definition any_recorded_child_alive (prefix : string) : PyM W bool :=
  base ← runtime_base_dir;
  paths ← ph_glob host base prefix;
  any_dir paths.

(** ** Listening ports *)
Definition socket_inode (target : string) : option string :=
  if startswith "socket:[" target && endswith "]" target then Some (String.substring 8 (String.length target - 9) target) else None.
Fixpoint descriptor_inodes (dir : string) (names : list string) : PyM W (list string) :=
  match names with
  | [] => mret []
  | name :: rest =>
      target ← observed (ph_readlink host (path_join dir name));
      more ← descriptor_inodes dir rest;
      mret (match target ≫= socket_inode with Some inode => inode :: more | None => more end)
  end.
(** The processes whose descriptors could be listed, and the sockets they hold *)
Fixpoint held_sockets (processes : list OwnedProcess) : PyM W (list Z * list string) :=
  match processes with
  | [] => mret ([], [])
  | p :: rest =>
      let dir := proc_path (op_pid p) "fd" in
      names ← observed (ph_iterdir host dir);
      mine ← match names with Some names => inodes ← descriptor_inodes dir names; mret ([op_pid p], inodes) | None => mret ([], []) end;
      more ← held_sockets rest;
      mret (mine.1 ++ more.1, mine.2 ++ more.2)
  end.
(** The port of a row of /proc/net/tcp that listens on one of the sockets *)
Definition listening_port (inodes : list string) (line : string) : option Z :=
  let parts := py_split line in
  match parts !! 1%nat, parts !! 3%nat, parts !! 9%nat with
  | Some local, Some state, Some inode =>
      if negb (String.eqb state "0A") || negb (str_in inode inodes) then None
      else let '(_, found, port) := rpartition_on ":" local in if found then py_int16 port else None
  | _, _, _ => None
  end.
(** The tables that could be read, and the ports in them *)
Fixpoint table_ports (inodes : list string) (tables : list string) : PyM W (nat * list Z) :=
  match tables with
  | [] => mret (0%nat, [])
  | path :: rest =>
      text ← observed (ph_read_text host path);
      more ← table_ports inodes rest;
      mret match text with
           | Some text => (S more.1, omap (listening_port inodes) (drop 1 (splitlines text)) ++ more.2)
           | None => more
           end
  end.
Definition observe_tcp_listener_ports (processes : list OwnedProcess) : PyM W TCPListenerObservation :=
  if bool_decide (length processes = 0%nat) then mret {| tl_observable := true; tl_ports := [] |}
  else
    held ← held_sockets processes;
    tcp6 ← ph_exists host "/proc/net/tcp6";
    let tables := ["/proc/net/tcp"] ++ (if tcp6 : bool then ["/proc/net/tcp6"] else []) in
    found ← table_ports held.2 tables;
    mret {| tl_observable := (length (remove_dups held.1) =? length processes)%nat && (found.1 =? length tables)%nat;
            tl_ports := py_sorted Z.ltb (remove_dups found.2) |}.
End host.

(** ** Operations that only look *)
Inductive look_op {W} (host : ProcHost W) : ∀ A, PyM W A → Prop :=
| look_exists p : look_op host _ (ph_exists host p)
| look_access_wx p : look_op host _ (ph_access_wx host p)
| look_is_dir p : look_op host _ (ph_is_dir host p)
| look_glob d p : look_op host _ (ph_glob host d p)
| look_iterdir p : look_op host _ (ph_iterdir host p)
| look_read_text p : look_op host _ (ph_read_text host p)
| look_cmdline pid : look_op host _ (ph_cmdline host pid)
| look_readlink p : look_op host _ (ph_readlink host p)
| look_kill0 pid : look_op host _ (ph_kill host pid 0)
| look_monotonic : look_op host _ (ph_monotonic host)
| look_sleep t : look_op host _ (ph_sleep host t).

Lemma steps_observed {W A} (R : W → W → Prop) `{!PreOrder R} (m : PyM W A) : steps R m → steps R (observed m).
Proof. intros Hm. unfold observed. steps_tac. Qed.

Lemma steps_each {W A} (R : W → W → Prop) `{!PreOrder R} (f : A → PyM W unit) l : (∀ x, steps R (f x)) → steps R (each f l).
Proof. intros Hf. induction l as [|x l IH]; cbn [each]; steps_tac. Qed.

(** Observations stay within a preorder that the looking operations respect *)
Section looks.
Context `{PyStr} {W : Type} (host : ProcHost W) (R : W → W → Prop) `{!PreOrder R}.
Context (looks : ∀ A (m : PyM W A), look_op host A m → steps R m).
#[local] Hint Constructors look_op : steps.
#[local] Hint Resolve looks : steps.

#[local] Hint Extern 1 (steps _ (observed _)) => apply steps_observed; [typeclasses eauto|] : steps.
Lemma steps_base : steps R (runtime_base_dir host).
Proof using Type*. unfold runtime_base_dir, usable_dir. steps_tac. Qed.
Lemma steps_stat pid : steps R (process_stat_fields host pid).
Proof using Type*. unfold process_stat_fields. steps_tac. Qed.
#[local] Hint Resolve steps_base steps_stat : steps.
Lemma steps_ticks pid : steps R (process_start_time_ticks host pid).
Proof using Type*. unfold process_start_time_ticks. steps_tac. Qed.
Lemma steps_alive pid : steps R (pid_is_alive host pid).
Proof using Type*. unfold pid_is_alive, process_state. steps_tac. Qed.
Lemma steps_children dir : steps R (read_children host dir).
Proof using Type*. unfold read_children. steps_tac. Qed.
Lemma steps_hint pid hint : steps R (process_matches_hint host pid hint).
Proof using Type*. unfold process_matches_hint. steps_tac. Qed.
#[local] Hint Resolve steps_ticks steps_alive steps_children steps_hint : steps.
Lemma steps_match_once pid expected hint : steps R (match_once host pid expected hint).
Proof using Type*. unfold match_once. steps_tac. Qed.
#[local] Hint Resolve steps_match_once : steps.
Lemma steps_match_loop fuel deadline pid expected hint : steps R (match_loop host fuel deadline pid expected hint).
Proof using Type*. induction fuel as [|fuel IH]; cbn [match_loop]; steps_tac. Qed.
#[local] Hint Resolve steps_match_loop : steps.
Lemma steps_matches pid entry t : steps R (recorded_process_matches host pid entry t).
Proof using Type*. unfold recorded_process_matches. steps_tac. Qed.
#[local] Hint Resolve steps_matches : steps.
Lemma steps_owner path : steps R (runtime_dir_has_live_owner host path).
Proof using Type*. unfold runtime_dir_has_live_owner. steps_tac. Qed.
Lemma steps_wait_until interval fuel deadline check : steps R check → steps R (wait_until host interval fuel deadline check).
Proof using Type*. intros Hc. induction fuel as [|fuel IH]; cbn [wait_until]; steps_tac. Qed.
Lemma steps_exited pid : steps R (exited host pid).
Proof using Type*. unfold exited. steps_tac. Qed.
#[local] Hint Resolve steps_wait_until steps_exited : steps.
Lemma steps_stop pid timeout : (∀ s, steps R (ph_kill host pid s)) → steps R (terminate_then_kill host pid timeout).
Proof using Type*.
  intros Hk. assert (Hs : ∀ s, steps R (signal_and_wait host pid s timeout)) by (intros s; unfold signal_and_wait; steps_tac).
  unfold terminate_then_kill. steps_tac.
Qed.
Lemma steps_recorded entries : ∀ found, steps R (recorded_owned host entries found).
Proof using Type*. induction entries; intros found; cbn [recorded_owned]; steps_tac. Qed.
#[local] Hint Resolve steps_recorded : steps.
Lemma steps_dirs paths : ∀ found, steps R (dirs_owned host paths found).
Proof using Type*. induction paths; intros found; cbn [dirs_owned]; steps_tac. Qed.
Lemma steps_name pid : steps R (process_executable_name host pid).
Proof using Type*. unfold process_executable_name. steps_tac. Qed.
Lemma steps_cgroup pid : steps R (process_in_watchdogvpn_service_cgroup host pid).
Proof using Type*. unfold process_in_watchdogvpn_service_cgroup. steps_tac. Qed.
Lemma steps_references pid base prefix : steps R (process_references_runtime_path host pid base prefix).
Proof using Type*. unfold process_references_runtime_path. steps_tac. Qed.
#[local] Hint Resolve steps_dirs steps_name steps_cgroup steps_references : steps.
Lemma steps_proc base prefix names entries : ∀ found, steps R (proc_owned host base prefix names entries found).
Proof using Type*. induction entries; intros found; cbn [proc_owned]; steps_tac. Qed.
#[local] Hint Resolve steps_proc : steps.
Lemma steps_owned prefix names : steps R (owned_processes host prefix names).
Proof using Type*. unfold owned_processes. steps_tac. Qed.
Lemma steps_inodes dir names : steps R (descriptor_inodes host dir names).
Proof using Type*. induction names; cbn [descriptor_inodes]; steps_tac. Qed.
#[local] Hint Resolve steps_inodes : steps.
Lemma steps_held processes : steps R (held_sockets host processes).
Proof using Type*. induction processes; cbn [held_sockets]; steps_tac. Qed.
Lemma steps_tables inodes tables : steps R (table_ports host inodes tables).
Proof using Type*. induction tables; cbn [table_ports]; steps_tac. Qed.
#[local] Hint Resolve steps_held steps_tables : steps.
Lemma steps_ports processes : steps R (observe_tcp_listener_ports host processes).
Proof using Type*. unfold observe_tcp_listener_ports. steps_tac. Qed.
End looks.

(** The operations of a host *)
Inductive host_op {W} (host : ProcHost W) : ∀ A, PyM W A → Prop :=
| op_exists p : host_op host _ (ph_exists host p)
| op_access_wx p : host_op host _ (ph_access_wx host p)
| op_is_dir p : host_op host _ (ph_is_dir host p)
| op_glob d p : host_op host _ (ph_glob host d p)
| op_iterdir p : host_op host _ (ph_iterdir host p)
| op_read_text p : host_op host _ (ph_read_text host p)
| op_cmdline pid : host_op host _ (ph_cmdline host pid)
| op_readlink p : host_op host _ (ph_readlink host p)
| op_kill pid s : host_op host _ (ph_kill host pid s)
| op_mkdir p : host_op host _ (ph_mkdir host p)
| op_mkdtemp d p : host_op host _ (ph_mkdtemp host d p)
| op_chmod p m : host_op host _ (ph_chmod host p m)
| op_write p t : host_op host _ (ph_write host p t)
| op_rmtree p : host_op host _ (ph_rmtree host p)
| op_monotonic : host_op host _ (ph_monotonic host)
| op_sleep d : host_op host _ (ph_sleep host d)
| op_loads t : host_op host _ (liftR (ph_loads host t)).

Lemma look_host_op {W} (host : ProcHost W) A (m : PyM W A) : look_op host A m → host_op host A m.
Proof. intros []; constructor. Qed.

(** Whole calls stay within a preorder that every operation respects *)
Section ops.
Context `{PyStr} {W : Type} (host : ProcHost W) (R : W → W → Prop) `{!PreOrder R}.
Context (ops : ∀ A (m : PyM W A), host_op host A m → steps R m).
Lemma ops_look A (m : PyM W A) : look_op host A m → steps R m.
Proof using ops. intros Hm. apply ops. by apply look_host_op. Qed.
#[local] Hint Constructors host_op : steps.
#[local] Hint Resolve ops : steps.
#[local] Hint Extern 1 (steps _ (observed _)) => apply steps_observed; [typeclasses eauto|] : steps.
Lemma ops_base : steps R (runtime_base_dir host).
Proof using All. apply steps_base; [done|exact ops_look]. Qed.
Lemma ops_alive pid : steps R (pid_is_alive host pid).
Proof using All. apply steps_alive; [done|exact ops_look]. Qed.
Lemma ops_children dir : steps R (read_children host dir).
Proof using All. apply steps_children; [done|exact ops_look]. Qed.
Lemma ops_matches pid entry t : steps R (recorded_process_matches host pid entry t).
Proof using All. apply steps_matches; [done|exact ops_look]. Qed.
Lemma ops_ticks pid : steps R (process_start_time_ticks host pid).
Proof using All. apply steps_ticks; [done|exact ops_look]. Qed.
Lemma ops_stop pid timeout : steps R (terminate_then_kill host pid timeout).
Proof using All. apply steps_stop; [done|exact ops_look|]. intros s. apply ops. constructor. Qed.
Lemma ops_owner path : steps R (runtime_dir_has_live_owner host path).
Proof using All. apply steps_owner; [done|exact ops_look]. Qed.
#[local] Hint Resolve ops_base ops_alive ops_children ops_matches ops_ticks ops_stop ops_owner : steps.
Lemma ops_entry timeout entry : steps R (stop_entry host timeout entry).
Proof using All. unfold stop_entry. steps_tac. Qed.
Lemma ops_kill dir : steps R (kill_recorded_children host dir).
Proof using All. unfold kill_recorded_children. apply steps_bind; [done|apply ops_children|]. intros children. apply steps_each; [done|]. intros entry. apply ops_entry. Qed.
#[local] Hint Resolve ops_kill : steps.
Lemma ops_kill_all prefix : steps R (kill_all_recorded_children host prefix).
Proof using All.
  unfold kill_all_recorded_children. apply steps_bind; [done|apply ops_base|]. intros base. apply steps_bind; [done|apply ops; constructor|].
  intros paths. apply steps_each; [done|]. steps_tac.
Qed.
Lemma ops_cleanup_stale prefix : steps R (cleanup_stale_runtime_dirs host prefix).
Proof using All.
  unfold cleanup_stale_runtime_dirs. apply steps_bind; [done|apply ops_base|]. intros base. apply steps_bind; [done|apply ops; constructor|].
  intros paths. apply steps_each; [done|]. steps_tac.
Qed.
Lemma ops_write path text : steps R (write_private_file host path text).
Proof using All. unfold write_private_file. steps_tac. Qed.
#[local] Hint Resolve ops_write : steps.
Lemma ops_make_dir prefix : steps R (make_runtime_dir host prefix).
Proof using All. unfold make_runtime_dir. steps_tac. Qed.
Lemma ops_record dir label pid hint : steps R (record_child_process host dir label pid hint).
Proof using All. unfold record_child_process. steps_tac. Qed.
Lemma ops_all_of {A} (f : A → PyM W bool) l : (∀ x, steps R (f x)) → steps R (all_of f l).
Proof using All. intros Hf. induction l; cbn [all_of]; steps_tac. Qed.
Lemma ops_terminated dir : steps R (recorded_children_terminated host dir).
Proof using All.
  unfold recorded_children_terminated. apply steps_bind; [done|apply ops_children|]. intros children. apply ops_all_of. intros entry.
  unfold entry_terminated. steps_tac.
Qed.
Lemma ops_any_recorded entries : steps R (any_recorded host entries).
Proof using All. induction entries; cbn [any_recorded]; steps_tac. Qed.
#[local] Hint Resolve ops_any_recorded : steps.
Lemma ops_any_dir paths : steps R (any_dir host paths).
Proof using All. induction paths; cbn [any_dir]; steps_tac. Qed.
#[local] Hint Resolve ops_any_dir : steps.
Lemma ops_any_alive prefix : steps R (any_recorded_child_alive host prefix).
Proof using All. unfold any_recorded_child_alive. steps_tac. Qed.
End ops.

(** A host in a larger state *)
Definition proc_lift {W S} (f : ∀ {A}, PyM W A → PyM S A) (host : ProcHost W) : ProcHost S := {|
  ph_environ := ph_environ host; ph_getuid := ph_getuid host; ph_getpid := ph_getpid host; ph_gettempdir := ph_gettempdir host;
  ph_exists := fun p => f (ph_exists host p); ph_access_wx := fun p => f (ph_access_wx host p);
  ph_is_dir := fun p => f (ph_is_dir host p); ph_glob := fun d p => f (ph_glob host d p);
  ph_iterdir := fun p => f (ph_iterdir host p); ph_read_text := fun p => f (ph_read_text host p);
  ph_cmdline := fun pid => f (ph_cmdline host pid); ph_readlink := fun p => f (ph_readlink host p);
  ph_kill := fun pid s => f (ph_kill host pid s); ph_mkdir := fun p => f (ph_mkdir host p);
  ph_mkdtemp := fun d p => f (ph_mkdtemp host d p); ph_chmod := fun p m => f (ph_chmod host p m);
  ph_write := fun p t => f (ph_write host p t); ph_rmtree := fun p => f (ph_rmtree host p);
  ph_monotonic := f (ph_monotonic host); ph_sleep := fun t => f (ph_sleep host t);
  ph_loads := ph_loads host; ph_dumps := ph_dumps host |}.

(** ** What a run observed and which signals it sent *)
Inductive proc_event : Type :=
| EvRead (path : string) (r : res string)
| EvCmdline (pid : Z) (r : res string)
| EvLink (path : string) (r : res string)
| EvKill (pid signal : Z)
| EvOther.


(** The host that keeps a log of its calls, the last one first *)
Definition watched {W} (host : ProcHost W) : ProcHost (W * list proc_event) :=
  let other {A} (m : PyM W A) := logged (fun _ => EvOther) m in {|
  ph_environ := ph_environ host; ph_getuid := ph_getuid host; ph_getpid := ph_getpid host; ph_gettempdir := ph_gettempdir host;
  ph_exists := fun p => other (ph_exists host p); ph_access_wx := fun p => other (ph_access_wx host p);
  ph_is_dir := fun p => other (ph_is_dir host p); ph_glob := fun d p => other (ph_glob host d p);
  ph_iterdir := fun p => other (ph_iterdir host p);
  ph_read_text := fun p => logged (EvRead p) (ph_read_text host p);
  ph_cmdline := fun pid => logged (EvCmdline pid) (ph_cmdline host pid);
  ph_readlink := fun p => logged (EvLink p) (ph_readlink host p);
  ph_kill := fun pid s => logged (fun _ => EvKill pid s) (ph_kill host pid s);
  ph_mkdir := fun p => other (ph_mkdir host p); ph_mkdtemp := fun d p => other (ph_mkdtemp host d p);
  ph_chmod := fun p m => other (ph_chmod host p m); ph_write := fun p t => other (ph_write host p t);
  ph_rmtree := fun p => other (ph_rmtree host p); ph_monotonic := other (ph_monotonic host);
  ph_sleep := fun t => other (ph_sleep host t); ph_loads := ph_loads host; ph_dumps := ph_dumps host |}.

(** Signal 0 only asks whether the process exists *)
Definition probe (e : proc_event) : Prop := match e with EvKill _ s => s = 0%Z | _ => True end.

(** The log grows by events of a kind *)
Definition grows {W} (P : proc_event → Prop) (s s' : W * list proc_event) : Prop := ∃ new, s'.2 = new ++ s.2 ∧ Forall P new.
#[export] Instance grows_preorder {W} P : PreOrder (grows (W := W) P).
Proof.
  split; [by exists []|]. intros s1 s2 s3 (n1 & E1 & F1) (n2 & E2 & F2). exists (n2 ++ n1).
  rewrite E2, E1, app_assoc. split; [done|]. by apply Forall_app.
Qed.
Lemma grows_log {W A} (P : proc_event → Prop) ev (m : PyM W A) : (∀ r, P (ev r)) → steps (grows P) (logged ev m).
Proof. intros H [w l]. unfold logged. destruct (m w) as [r w']. exists [ev r]. cbn. auto. Qed.

(** Looking adds only probes to the log *)
Lemma watched_looks {W} (host : ProcHost W) (P : proc_event → Prop) :
  (∀ e, probe e → P e) → ∀ A (m : PyM _ A), look_op (watched host) A m → steps (grows P) m.
Proof. intros HP A m []; apply grows_log; intros; by apply HP. Qed.

(** ** Evidence of identity *)
Definition start_seen (l : list proc_event) (pid : Z) (expected : option Z) : Prop :=
  match expected with
  | None => True
  | Some t => ∃ raw, EvRead (proc_path pid "stat") (Ok raw) ∈ l ∧ stat_fields raw ≫= start_ticks = Some t
  end.
Definition hint_seen (l : list proc_event) (pid : Z) (hint : string) : Prop :=
  hint ≠ "" ∧ ((∃ raw, EvCmdline pid (Ok raw) ∈ l ∧ basename (argv0 raw) = basename hint)
               ∨ ∃ link, EvLink (proc_path pid "exe") (Ok link) ∈ l ∧ basename link = basename hint).

Section evidence.
Context `{PyStr} {W : Type} (host : ProcHost W).
Notation h := (watched host).

(** The process was seen with the start time and the executable of its record *)
Definition verified (l : list proc_event) (pid : Z) (entry : pydict pyval) : Prop :=
  ∃ expected, expected_start entry = Ok expected ∧ start_seen l pid expected ∧ hint_seen l pid (entry_hint entry).
(** The record was read from the children of a runtime directory *)
Definition recorded (l : list proc_event) (entry : pydict pyval) : Prop :=
  ∃ dir raw d label, EvRead (path_join dir CHILD_PIDS_NAME) (Ok raw) ∈ l ∧ ph_loads host raw = Ok (PDict d) ∧ (label, PDict entry) ∈ d.

Fixpoint signals_justified (l : list proc_event) : Prop :=
  match l with
  | [] => True
  | e :: earlier =>
      signals_justified earlier ∧
      (probe e ∨ ∃ pid s entry, e = EvKill pid s ∧ recorded earlier entry ∧ entry_pid entry = Ok (Some pid) ∧ verified earlier pid entry)
  end.

Lemma start_seen_mono l l' pid e : l ⊆ l' → start_seen l pid e → start_seen l' pid e.
Proof. intros Hl. destruct e; [|done]. intros (raw & Hr & Ht). exists raw. auto. Qed.
Lemma hint_seen_mono l l' pid hint : l ⊆ l' → hint_seen l pid hint → hint_seen l' pid hint.
Proof. intros Hl [Hn [(raw & Hr & Ht)|(link & Hr & Ht)]]; split; eauto 6. Qed.
Lemma verified_mono l l' pid entry : l ⊆ l' → verified l pid entry → verified l' pid entry.
Proof. intros Hl (e & He & Hs & Hh). exists e. split; [done|]. split; [by eapply start_seen_mono|by eapply hint_seen_mono]. Qed.
Lemma recorded_mono l l' entry : l ⊆ l' → recorded l entry → recorded l' entry.
Proof. intros Hl (dir & raw & d & label & Hr & Hd). exists dir, raw, d, label. auto. Qed.

Lemma grows_subset P (s s' : W * list proc_event) : grows P s s' → s.2 ⊆ s'.2.
Proof. intros (new & -> & _) e He. apply elem_of_app. by right. Qed.

(** More probes, and signals to a process that is verified by now, keep the log justified *)
Lemma justified_grows pid entry (s s' : W * list proc_event) :
  grows (fun e => probe e ∨ ∃ sig, e = EvKill pid sig) s s' → recorded s.2 entry → entry_pid entry = Ok (Some pid) → verified s.2 pid entry →
  signals_justified s.2 → signals_justified s'.2.
Proof.
  intros (new & -> & Hnew) Hr Hp Hv Hj. induction Hnew as [|e new He _ IH]; [done|]. cbn. split; [exact IH|].
  destruct He as [He|[sig ->]]; [by left|]. right. exists pid, sig, entry.
  assert (Hl : s.2 ⊆ new ++ s.2) by (intros x Hx; apply elem_of_app; by right).
  split; [done|]. split; [by eapply recorded_mono|]. split; [done|]. by eapply verified_mono.
Qed.
Lemma justified_probes (s s' : W * list proc_event) : grows probe s s' → signals_justified s.2 → signals_justified s'.2.
Proof. intros (new & -> & Hnew) Hj. induction Hnew as [|e new He _ IH]; [done|]. cbn. auto. Qed.

Lemma observed_logged {A} (ev : res A → proc_event) (m : PyM W A) s a s' : observed (logged ev m) s = (Ok (Some a), s') → ev (Ok a) ∈ s'.2.
Proof.
  unfold observed, try_except, mbind, pym_bind, logged. destruct s as [w l]. destruct (m w) as [[x|e] w']; cbn.
  - intros [= <- <-]. left.
  - by destruct (os_error e).
Qed.

Lemma ticks_seen pid s t s' : process_start_time_ticks h pid s = (Ok (Some t), s') → start_seen s'.2 pid (Some t).
Proof.
  unfold process_start_time_ticks, process_stat_fields. intros H1. bind_inv H1 fields s1 H2. bind_inv H2 raw s2 H3.
  apply ret_ok_inv in H2 as [<- <-]. apply ret_ok_inv in H1 as [H1 <-]. destruct raw as [raw|]; [|done].
  apply observed_logged in H3. exists raw. split; [done|]. done.
Qed.
Lemma hint_matches pid hint s s' : process_matches_hint h pid hint s = (Ok true, s') → hint_seen s'.2 pid hint.
Proof.
  unfold process_matches_hint. destruct (truthy_str hint) eqn:Et; cbn [negb]; [|by intros [=]]. intros H1.
  assert (Hn : hint ≠ "") by by intros ->. cbv zeta in H1. bind_inv H1 raw s1 H2.
  destruct (match raw with Some _ => _ | None => _ end) eqn:Er.
  - apply ret_ok_inv in H1 as [_ <-]. destruct raw as [raw|]; [|done]. apply andb_true_iff in Er as [_ Er%String.eqb_eq].
    apply observed_logged in H2. split; [done|]. left. eauto.
  - bind_inv H1 link s2 H3. apply ret_ok_inv in H1 as [H1 <-]. destruct link as [link|]; [|done]. apply String.eqb_eq in H1.
    apply observed_logged in H3. split; [done|]. right. eauto.
Qed.
Lemma match_once_true pid expected hint s s' :
  match_once h pid expected hint s = (Ok (Some true), s') → start_seen s'.2 pid expected ∧ hint_seen s'.2 pid hint.
Proof.
  unfold match_once. intros H1. bind_inv H1 started s1 H2. destruct started as [[]|]; [|done|done].
  assert (Hs : start_seen s1.2 pid expected).
  { destruct expected as [t|]; [|done]. bind_inv H2 seen s2 H3. apply ret_ok_inv in H2 as [H2 <-].
    destruct seen as [u|]; [|done]. injection H2 as H2. apply Z.eqb_eq in H2 as ->. by apply ticks_seen in H3. }
  bind_inv H1 same s2 H3. apply ret_ok_inv in H1 as [H1 <-]. destruct same; [|done].
  pose proof (hint_matches _ _ _ _ H3) as Hh. split; [|done].
  eapply start_seen_mono; [|exact Hs]. pose proof (steps_hint h (grows probe) (watched_looks host probe (fun _ x => x)) pid hint s1) as Hg. rewrite H3 in Hg.
  by eapply grows_subset.
Qed.
Lemma match_loop_true fuel deadline pid expected hint : ∀ s s',
  match_loop h fuel deadline pid expected hint s = (Ok true, s') → start_seen s'.2 pid expected ∧ hint_seen s'.2 pid hint.
Proof.
  induction fuel as [|fuel IH]; intros s s'; cbn [match_loop]; [done|]. intros H1. bind_inv H1 v s1 H2. destruct v as [b|].
  - apply ret_ok_inv in H1 as [-> <-]. by eapply match_once_true.
  - bind_inv H1 alive s2 H3. destruct (negb alive); [done|]. bind_inv H1 now s3 H4. destruct (Qle_bool deadline now); [done|].
    bind_inv H1 again s4 H5. bind_inv H1 u s5 H6. by eapply IH.
Qed.
Lemma matches_verified pid entry t s s' : recorded_process_matches h pid entry t s = (Ok true, s') → verified s'.2 pid entry.
Proof.
  unfold recorded_process_matches. destruct (expected_start entry) as [e|x] eqn:Ee; [|by destruct (type_or_value_error x)].
  intros H1. bind_inv H1 now s1 H2. apply match_loop_true in H1. exists e. done.
Qed.
Lemma children_recorded dir s children s' :
  read_children h dir s = (Ok children, s') → Forall (fun kv => recorded s'.2 kv.2) children.
Proof.
  unfold read_children. intros H1. bind_inv H1 raw s1 H2. destruct raw as [raw|]; [|by apply ret_ok_inv in H1 as [<- _]].
  apply observed_logged in H2. bind_inv H1 data s2 H3. apply ret_ok_inv in H1 as [<- <-]. destruct data as [| | | | | |d]; try by constructor.
  assert (ph_loads host raw = Ok (PDict d) ∧ s1 = s2) as [Hl ->].
  { revert H3. unfold try_except, liftR. cbn. destruct (ph_loads host raw) as [v|x]; [by intros [= -> ->]|]. by destruct (is_instance x JSONDecodeError). }
  apply Forall_forall. intros [label entry] Hin. apply list_elem_of_omap in Hin as ([k v] & Hin & Hk). cbn in Hk.
  destruct v; try done. injection Hk as -> ->. exists dir, raw, d, label. auto.
Qed.
End evidence.

(** ** Which processes are signalled *)
Section signals.
Context `{PyStr} {W : Type} (host : ProcHost W).
Notation h := (watched host).
Notation just := (fun s : W * list proc_event => signals_justified host s.2).

Lemma probes_justified {A} (m : PyM (W * list proc_event) A) : steps (grows probe) m → hoare just m (fun _ => just).
Proof. intros Hm s Hs. eapply justified_probes; [apply Hm|done]. Qed.

Lemma stop_justified timeout entry s :
  recorded host s.2 entry → just s → just (stop_entry h timeout entry s).2.
Proof.
  intros Hr Hj. unfold stop_entry. rewrite bind_final. unfold liftR at 1. destruct (entry_pid entry) as [[pid|]|x] eqn:Ep; [|done|done].
  rewrite bind_final. pose proof (steps_alive h (grows probe) (watched_looks host probe (fun _ x => x)) pid s) as G1. destruct (pid_is_alive h pid s) as [[[]|x] s1]; cbn [negb].
  2,3: by eapply justified_probes.
  rewrite bind_final. pose proof (steps_matches h (grows probe) (watched_looks host probe (fun _ x => x)) pid entry PROCESS_IDENTITY_RETRY_TIMEOUT s1) as G2.
  assert (Hj1 : just s1) by by eapply justified_probes.
  destruct (recorded_process_matches h pid entry _ s1) as [[[]|x] s2] eqn:Em; cbn [negb].
  2,3: by eapply justified_probes.
  assert (Hr2 : recorded host s2.2 entry).
  { eapply recorded_mono; [|exact Hr]. etrans; by eapply grows_subset. }
  eapply justified_grows; [|exact Hr2|exact Ep|by eapply matches_verified|by eapply justified_probes].
  assert (Hs : steps (grows (fun e => probe e ∨ ∃ sig, e = EvKill pid sig))
                 (try_except (_ ← terminate_then_kill h pid timeout; mret tt) os_error (fun _ => mret tt))).
  { apply steps_try; [typeclasses eauto| |intros; apply steps_ret; typeclasses eauto].
    apply steps_bind; [typeclasses eauto| |intros; apply steps_ret; typeclasses eauto]. 
    apply (steps_stop (watched host)); [typeclasses eauto|apply watched_looks; by left|]. intros sig. apply grows_log. eauto. }
  apply Hs.
Qed.

(** Records that were read keep the log justified while they are worked off *)
Lemma stop_grows timeout entry : steps (grows (fun _ => True)) (stop_entry h timeout entry).
Proof.
  pose proof (watched_looks host (fun _ => True) (fun _ _ => I)) as Hl.
  assert (Hk : ∀ pid, steps (grows (fun _ => True)) (terminate_then_kill h pid timeout)).
  { intros pid. apply steps_stop; [typeclasses eauto|done|]. intros. by apply grows_log. }
  assert (Ha : ∀ pid, steps (grows (fun _ => True)) (pid_is_alive h pid)) by (intros; by apply steps_alive; [typeclasses eauto|]).
  assert (Hm : ∀ pid t, steps (grows (fun _ => True)) (recorded_process_matches h pid entry t)) by (intros; by apply steps_matches; [typeclasses eauto|]).
  unfold stop_entry. steps_tac.
Qed.
Lemma stop_all_justified timeout entries : ∀ s,
  Forall (recorded host s.2) entries → just s → just (each (stop_entry h timeout) entries s).2.
Proof.
  induction entries as [|entry entries IH]; intros s Hr Hj; cbn [each]; [done|]. inversion Hr as [|? ? Hr1 Hr2]; subst. rewrite bind_final.
  pose proof (stop_justified timeout entry s Hr1 Hj) as Hj1. pose proof (stop_grows timeout entry s) as Hg.
  destruct (stop_entry h timeout entry s) as [[u|x] s1]; [|done]. apply IH; [|done].
  eapply Forall_impl; [exact Hr2|]. intros e. apply recorded_mono. by eapply grows_subset.
Qed.
Lemma kill_children_justified dir : hoare just (kill_recorded_children h dir) (fun _ => just).
Proof.
  intros s Hj. unfold kill_recorded_children. rewrite bind_final. pose proof (steps_children h (grows probe) (watched_looks host probe (fun _ x => x)) dir s) as Hg.
  destruct (read_children h dir s) as [[children|x] s1] eqn:E; [|by eapply justified_probes].
  apply stop_all_justified; [|by eapply justified_probes]. apply children_recorded in E. by apply Forall_fmap.
Qed.
Lemma each_justified {A} (f : A → PyM (W * list proc_event) unit) l :
  (∀ x, hoare just (f x) (fun _ => just)) → hoare just (each f l) (fun _ => just).
Proof.
  intros Hf. induction l as [|x l IH]; cbn [each]; [by intros s Hs|]. intros s Hs. rewrite bind_final. pose proof (Hf x s Hs) as H1.
  destruct (f x s) as [[u|e] s1]; [by apply IH|done].
Qed.

Lemma just_bind {A B} (m : PyM (W * list proc_event) A) (f : A → PyM (W * list proc_event) B) :
  hoare just m (fun _ => just) → (∀ a, hoare just (f a) (fun _ => just)) → hoare just (m ≫= f) (fun _ => just).
Proof. intros Hm Hf. apply hoare_bind with (R := fun _ => just); [|done]. eapply hoare_conseq; [exact Hm|done|by intros []]. Qed.
Lemma just_ret {A} (a : A) : hoare just (mret a) (fun _ => just).
Proof. by apply hoare_ret. Qed.
Lemma just_glob prefix (f : string → PyM (W * list proc_event) unit) :
  (∀ path, hoare just (f path) (fun _ => just)) →
  hoare just (base ← runtime_base_dir h; paths ← ph_glob h base prefix;
              each (fun path => dir ← ph_is_dir h path; if dir : bool then f path else mret tt) paths) (fun _ => just).
Proof.
  intros Hf. apply just_bind; [apply probes_justified, steps_base; [typeclasses eauto|by apply watched_looks]|intros base].
  apply just_bind; [apply probes_justified; by apply grows_log|intros paths].
  apply each_justified. intros path. apply just_bind; [apply probes_justified; by apply grows_log|].
  intros []; [apply Hf|apply just_ret].
Qed.

(** C17: No signal reaches a process that was not identified.  Whatever /proc shows and however it
    changes, every TERM or KILL that stopping the recorded children of a driver, or clearing stale
    runtime directories, sends goes to the pid of a record that was read from a children file, after
    the process was seen with the start time of that record, when it has one, and with its
    executable. *)
Theorem signals_only_recorded_processes prefix w :
  signals_justified host (kill_all_recorded_children h prefix (w, [])).2.2
  ∧ signals_justified host (cleanup_stale_runtime_dirs h prefix (w, [])).2.2.
Proof.
  assert (H1 : hoare just (kill_all_recorded_children h prefix) (fun _ => just)) by apply just_glob, kill_children_justified.
  assert (H2 : hoare just (cleanup_stale_runtime_dirs h prefix) (fun _ => just)).
  { pose proof (just_glob prefix (fun path => live ← runtime_dir_has_live_owner h path;
      if live : bool then mret tt else _ ← kill_recorded_children h path; _ ← observed (ph_rmtree h path); mret tt)) as Hg.
    unfold cleanup_stale_runtime_dirs. eapply hoare_conseq; [apply Hg| |]; [|done|done]. intros path.
    apply just_bind; [apply probes_justified, steps_owner; [typeclasses eauto|by apply watched_looks]|]. intros []; [apply just_ret|].
    apply just_bind; [apply kill_children_justified|intros _].
    apply just_bind; [apply probes_justified, steps_observed; [typeclasses eauto|by apply grows_log]|intros; apply just_ret]. }
  split; [by apply (H1 (w, []))|by apply (H2 (w, []))].
Qed.
End signals.

(** ** The waiting loops end *)
Definition out_of_fuel : exn := Exn OtherError "out of fuel".

(** What the loops rely on of the clock: it does not run backwards, and [time.sleep] sleeps at least
    as long as it is asked to.  No operation of the host raises the exception of the model. *)
Class ProcClock {W} (host : ProcHost W) (now : W → Q) : Prop := {
  clock_reads : ∀ w t w', ph_monotonic host w = (Ok t, w') → (now w <= t)%Q ∧ (t <= now w')%Q;
  clock_sleeps : ∀ d w u w', ph_sleep host d w = (Ok u, w') → (now w + d <= now w')%Q;
  clock_advances : ∀ A (m : PyM W A) w, host_op host A m → (now w <= now (m w).2)%Q;
  no_fuel : ∀ A (m : PyM W A) w, host_op host A m → (m w).1 ≠ Err out_of_fuel
}.

Create HintDb clock.

Section clock.
Context `{PyStr} {W : Type} (host : ProcHost W) (now : W → Q) `{!ProcClock host now}.

(** A computation that ends properly, and not before it began *)
Definition ends {A} (m : PyM W A) : Prop := ∀ w, (m w).1 ≠ Err out_of_fuel ∧ (now w <= now (m w).2)%Q.

Lemma ends_op {A} (m : PyM W A) : host_op host A m → ends m.
Proof. intros Hm w. split; [by apply (no_fuel A m)|by apply clock_advances]. Qed.
Lemma ends_ret {A} (a : A) : ends (mret a).
Proof. intros w. cbn. split; [done|lra]. Qed.
Lemma ends_lift {A} (r : res A) : r ≠ Err out_of_fuel → ends (liftR r).
Proof. intros Hr w. cbn. split; [done|lra]. Qed.
Lemma ends_bind {A B} (m : PyM W A) (f : A → PyM W B) : ends m → (∀ a, ends (f a)) → ends (m ≫= f).
Proof.
  intros Hm Hf w. destruct (Hm w) as [H1 H2]. unfold mbind, pym_bind. destruct (m w) as [[a|e] w1]; cbn in *.
  - destruct (Hf a w1) as [H3 H4]. split; [done|lra].
  - split; [congruence|lra].
Qed.
Lemma ends_try {A} (m : PyM W A) hd g : ends m → (∀ e, ends (g e)) → ends (try_except m hd g).
Proof.
  intros Hm Hg w. destruct (Hm w) as [H1 H2]. unfold try_except. destruct (m w) as [[a|e] w1]; cbn in *; [done|].
  destruct (hd e); [|by split]. destruct (Hg e w1) as [H3 H4]. split; [done|lra].
Qed.

Ltac ends_tac :=
  repeat (intros; cbn beta iota zeta;
    first
    [ solve [auto 3 with clock]
    | apply ends_op; constructor
    | apply ends_ret
    | apply ends_bind
    | apply ends_try
    | match goal with |- ends (match ?x with _ => _ end) => destruct x eqn:? end ]).

Lemma ends_observed {A} (m : PyM W A) : ends m → ends (observed m).
Proof using Type. intros Hm. unfold observed. ends_tac. Qed.
#[local] Hint Extern 1 (ends (observed _)) => apply ends_observed, ends_op; constructor : clock.

Lemma ends_base : ends (runtime_base_dir host).
Proof using All. unfold runtime_base_dir, usable_dir. ends_tac. Qed.
Lemma ends_ticks pid : ends (process_start_time_ticks host pid).
Proof using All. unfold process_start_time_ticks, process_stat_fields. ends_tac. Qed.
Lemma ends_alive pid : ends (pid_is_alive host pid).
Proof using All. unfold pid_is_alive, process_state, process_stat_fields. ends_tac. Qed.
Lemma ends_children dir : ends (read_children host dir).
Proof using All. unfold read_children. ends_tac. Qed.
Lemma ends_hint pid hint : ends (process_matches_hint host pid hint).
Proof using All. unfold process_matches_hint. ends_tac. Qed.
#[local] Hint Resolve ends_base ends_ticks ends_alive ends_children ends_hint : clock.
Lemma ends_match_once pid expected hint : ends (match_once host pid expected hint).
Proof using All. unfold match_once. ends_tac. Qed.
#[local] Hint Resolve ends_match_once : clock.

(** A computation that ends when it begins late enough *)
Definition ends_from {A} (late : Q) (m : PyM W A) : Prop := ∀ w, (late <= now w)%Q → (m w).1 ≠ Err out_of_fuel ∧ (now w <= now (m w).2)%Q.
Lemma ends_from_ends {A} late (m : PyM W A) : ends m → ends_from late m.
Proof. intros Hm w _. apply Hm. Qed.
Lemma ends_from_bind {A B} late (m : PyM W A) (f : A → PyM W B) : ends m → (∀ a, ends_from late (f a)) → ends_from late (m ≫= f).
Proof.
  intros Hm Hf w Hw. destruct (Hm w) as [H1 H2]. unfold mbind, pym_bind. destruct (m w) as [[a|e] w1]; cbn in *.
  - destruct (Hf a w1) as [H3 H4]; [lra|]. split; [done|lra].
  - split; [congruence|lra].
Qed.
(** The clock is read, and the loop goes on only before the deadline *)
Lemma ends_from_clock {B} late deadline (stop : B) (f : Q → PyM W B) :
  (∀ t, (late < deadline)%Q → ends_from late (f t)) →
  ends_from late (t ← ph_monotonic host; if Qle_bool deadline t then mret stop else f t).
Proof using All.
  intros Hf w Hw. unfold mbind, pym_bind. destruct (ends_op _ (op_monotonic host) w) as [H1 H2].
  pose proof (clock_reads w) as Hr. destruct (ph_monotonic host w) as [[t|e] w1]; cbn in *; [|split; [congruence|lra]].
  destruct (Hr t w1 eq_refl) as [H3 H4]. destruct (Qle_bool deadline t) eqn:E; cbn; [split; [done|lra]|].
  assert (Hd : (t < deadline)%Q) by (apply Qnot_le_lt; intros Hle%Qle_bool_iff; congruence).
  destruct (Hf t) with (w := w1) as [H5 H6]; [lra..|]. split; [done|lra].
Qed.
Lemma ends_from_sleep {B} late d (f : unit → PyM W B) : (∀ u, ends_from (late + d) (f u)) → ends_from late (u ← ph_sleep host d; f u).
Proof using All.
  intros Hf w Hw. unfold mbind, pym_bind. destruct (ends_op _ (op_sleep host d) w) as [H1 H2]. pose proof (clock_sleeps d w) as Hs.
  destruct (ph_sleep host d w) as [[u|e] w1]; cbn in *; [|split; [congruence|lra]]. specialize (Hs u w1 eq_refl).
  destruct (Hf u w1) as [H3 H4]; [lra|]. split; [done|lra].
Qed.
Lemma ends_from_earlier {A} late late' (m : PyM W A) : (late' <= late)%Q → ends_from late' m → ends_from late m.
Proof. intros Hl Hm w Hw. apply Hm. lra. Qed.

Lemma ends_wait_until interval n deadline check :
  ends check → ends_from (deadline - inject_Z (Z.of_nat n) * interval) (wait_until host interval (S n) deadline check).
Proof using All.
  intros Hc. induction n as [|n IH]; change (wait_until host interval (S ?k) deadline check) with
    (t ← ph_monotonic host; if Qle_bool deadline t then mret false else
     v ← check; match v with Some b => mret b | None => _ ← ph_sleep host interval; wait_until host interval k deadline check end);
    apply ends_from_clock; intros t Hlt.
  { change (inject_Z (Z.of_nat 0)) with 0%Q in Hlt. lra. }
  apply ends_from_bind; [done|]. intros [b|]; [apply ends_from_ends, ends_ret|].
  apply ends_from_sleep. intros _. eapply ends_from_earlier; [|exact IH].
  rewrite Nat2Z.inj_succ. unfold Z.succ. rewrite inject_Z_plus. change (inject_Z 1) with 1%Q. lra.
Qed.

(** A nap of one interval, cut off at the deadline *)
Lemma ends_from_nap {B} late late' deadline (f : PyM W B) :
  (late' <= late + PROCESS_IDENTITY_RETRY_INTERVAL)%Q → (late' <= deadline)%Q → ends_from late' f →
  ends_from late (again ← ph_monotonic host; _ ← ph_sleep host (Qmin2 PROCESS_IDENTITY_RETRY_INTERVAL (Qmax0 (deadline - again))); f).
Proof using All.
  intros Hl1 Hl2 Hf w Hw. unfold mbind, pym_bind. destruct (ends_op _ (op_monotonic host) w) as [H1 H2].
  pose proof (clock_reads w) as Hr. destruct (ph_monotonic host w) as [[again|e] w1]; cbn [fst snd] in *; [|split; [congruence|lra]].
  destruct (Hr again w1 eq_refl) as [H3 H4]. set (d := Qmin2 _ _).
  destruct (ends_op _ (op_sleep host d) w1) as [H5 H6]. pose proof (clock_sleeps d w1) as Hs.
  destruct (ph_sleep host d w1) as [[u|e] w2]; cbn [fst snd] in *; [|split; [congruence|lra]]. specialize (Hs u w2 eq_refl).
  destruct (Hf w2) as [H7 H8]; [|split; [done|lra]]. unfold d, Qmin2, Qmax0 in Hs.
  destruct (Qltb 0 (deadline - again)) eqn:E1; [|apply Qltb_false in E1];
    destruct (Qltb _ PROCESS_IDENTITY_RETRY_INTERVAL); lra.
Qed.

Lemma ends_match_loop n deadline pid expected hint :
  ends_from (deadline - inject_Z (Z.of_nat n) * PROCESS_IDENTITY_RETRY_INTERVAL) (match_loop host (S n) deadline pid expected hint).
Proof using All.
  induction n as [|n IH]; cbn [match_loop]; (apply ends_from_bind; [auto with clock|]); intros v;
    (destruct v as [b|]; [apply ends_from_ends, ends_ret|]); (apply ends_from_bind; [auto with clock|]); intros alive;
    (destruct alive; cbn [negb]; [|apply ends_from_ends, ends_ret]); apply ends_from_clock; intros t Hlt.
  { change (inject_Z (Z.of_nat 0)) with 0%Q in Hlt. lra. }
  eapply ends_from_nap; [| |exact IH]; unfold PROCESS_IDENTITY_RETRY_INTERVAL.
  - rewrite Nat2Z.inj_succ. unfold Z.succ. rewrite inject_Z_plus. change (inject_Z 1) with 1%Q. lra.
  - assert (Hn : (0 <= inject_Z (Z.of_nat n))%Q) by (change 0%Q with (inject_Z 0); rewrite <- Zle_Qle; lia). lra.
Qed.

Lemma ends_from_now {A} (f : Q → PyM W A) : (∀ t, ends_from t (f t)) → ends (t ← ph_monotonic host; f t).
Proof using All.
  intros Hf w. unfold mbind, pym_bind. destruct (ends_op _ (op_monotonic host) w) as [H1 H2].
  pose proof (clock_reads w) as Hr. destruct (ph_monotonic host w) as [[t|e] w1]; cbn in *; [|split; [congruence|lra]].
  destruct (Hr t w1 eq_refl) as [H3 H4]. destruct (Hf t w1) as [H5 H6]; [lra|]. split; [done|lra].
Qed.
Lemma int_of_val_fuel v : int_of_val v ≠ Err out_of_fuel.
Proof. destruct v as [| | |[]| | |]; cbn; try done. by destruct (py_int s). Qed.
Lemma ends_matches pid entry : ends (recorded_process_matches host pid entry PROCESS_IDENTITY_RETRY_TIMEOUT).
Proof using All.
  unfold recorded_process_matches. destruct (expected_start entry) as [expected|e] eqn:Ee.
  - apply ends_from_now. intros t. eapply ends_from_earlier; [|apply (ends_match_loop 25)].
    change (Qmax0 PROCESS_IDENTITY_RETRY_TIMEOUT) with (1 # 4). change (inject_Z (Z.of_nat 25)) with 25%Q. unfold PROCESS_IDENTITY_RETRY_INTERVAL. lra.
  - destruct (type_or_value_error e); [apply ends_ret|]. apply ends_lift. unfold expected_start in Ee. intros [= ->].
    destruct (cfg_get "start_time_ticks" entry) as [| | |[]|s| |] eqn:Ec; cbn in Ee; try discriminate Ee.
    destruct (py_int s); discriminate Ee.
Qed.
Lemma ends_signal pid s : ends (signal_and_wait host pid s 5).
Proof using All.
  unfold signal_and_wait. apply ends_bind; [auto with clock|]. intros [u|]; [|ends_tac].
  apply ends_from_now. intros t. eapply ends_from_earlier with (late' := t); [lra|]. intros w Hw.
  unfold mbind, pym_bind. destruct (ends_wait_until (1 # 10) 50 (t + 5) (exited host pid)) with (w := w) as [H1 H2].
  { unfold exited. ends_tac. }
  { change (inject_Z (Z.of_nat 50)) with 50%Q. lra. }
  change (wait_until host (1 # 10) 51 (t + 5) (exited host pid) w) with (wait_until host (1 # 10) EXIT_FUEL (t + 5) (exited host pid) w) in *.
  destruct (wait_until host (1 # 10) EXIT_FUEL (t + 5) (exited host pid) w) as [[b|e] w1]; cbn in *; [by split|split; [congruence|done]].
Qed.
#[local] Hint Resolve ends_matches ends_signal : clock.
Lemma ends_stop entry : ends (stop_entry host 5 entry).
Proof using All.
  unfold stop_entry. apply ends_bind.
  { apply ends_lift. unfold entry_pid. pose proof (int_of_val_fuel (cfg_get "pid" entry)) as Hf.
    destruct (int_of_val _) as [z|e]; [done|]. destruct (type_or_value_error e); [done|]. congruence. }
  unfold terminate_then_kill. ends_tac.
Qed.
Lemma ends_each {A} (f : A → PyM W unit) l : (∀ x, ends (f x)) → ends (each f l).
Proof using Type. intros Hf. induction l; cbn [each]; ends_tac. Qed.

(** C37: Stopping recorded processes terminates.  When the clock does not run backwards and sleeping
    takes at least the time asked for, the waits for identification, for TERM and for KILL end
    within 26, 51 and 51 rounds, so stopping all recorded children of a driver and clearing its
    stale directories come to an end for any number of records. *)
Theorem stopping_terminates prefix w :
  (kill_all_recorded_children host prefix w).1 ≠ Err out_of_fuel ∧ (cleanup_stale_runtime_dirs host prefix w).1 ≠ Err out_of_fuel.
Proof using All.
  assert (Hk : ∀ dir, ends (kill_recorded_children host dir)).
  { intros dir. unfold kill_recorded_children. apply ends_bind; [auto with clock|]. intros. apply ends_each, ends_stop. }
  assert (Ho : ∀ path, ends (runtime_dir_has_live_owner host path)) by (unfold runtime_dir_has_live_owner; ends_tac).
  assert (H1 : ends (kill_all_recorded_children host prefix)).
  { unfold kill_all_recorded_children. do 2 (apply ends_bind; [ends_tac|intros ?]). apply ends_each. ends_tac. }
  assert (H2 : ends (cleanup_stale_runtime_dirs host prefix)).
  { unfold cleanup_stale_runtime_dirs. do 2 (apply ends_bind; [ends_tac|intros ?]). apply ends_each. ends_tac. }
  split; [apply H1|apply H2].
Qed.
End clock.

(** ** Witnesses *)
Module DemoProc.
#[local] Instance str : PyStr := {| repr_compound := fun _ => ""; float_literal := fun _ => None |}.

(** A clock and a process 7 that TERM ends *)
Definition world : Type := Q * bool.
Definition ok {A} (a : A) : PyM world A := mret a.
Definition missing {A} : PyM world A := raiseM FileNotFoundError "".
Definition if_alive {A} (a : A) : PyM world A := alive ← gets snd; if alive : bool then mret a else raiseM ProcessLookupError "".
Definition later (d : Q) : PyM world unit := modifyS (fun w => ((if Qltb d 0 then w.1 else w.1 + d)%Q, w.2)).
Definition children (ticks : Z) : pyval :=
  PDict [("process", PDict [("pid", PInt 7); ("exe_hint", PStr "/usr/bin/sing-box"); ("start_time_ticks", PInt ticks)])].
Definition stat : string := "7 (sing-box) S 1 7 7 0 -1 0 0 0 0 0 0 0 0 0 20 0 1 0 42 0 0".
Definition host (ticks : Z) : ProcHost world := {|
  ph_environ := fun _ => None; ph_getuid := 0; ph_getpid := 1; ph_gettempdir := "/tmp";
  ph_exists := fun _ => ok true; ph_access_wx := fun _ => ok true; ph_is_dir := fun _ => ok true;
  ph_glob := fun d p => ok [path_join d (p +:+ "1")]; ph_iterdir := fun _ => ok [];
  ph_read_text := fun p => if String.eqb p "/proc/7/stat" then if_alive stat else if endswith "children.json" p then ok "children" else missing;
  ph_cmdline := fun _ => if_alive ("/usr/bin/sing-box" +:+ String Ascii.zero "run"); ph_readlink := fun _ => missing;
  ph_kill := fun _ s => if (s =? 15)%Z then modifyS (fun w => (w.1, false)) else if_alive tt;
  ph_mkdir := fun _ => ok tt; ph_mkdtemp := fun d p => ok (path_join d p); ph_chmod := fun _ _ => ok tt; ph_write := fun _ _ => ok tt;
  ph_rmtree := fun _ => ok tt; ph_monotonic := gets fst; ph_sleep := later;
  ph_loads := fun _ => Ok (children ticks); ph_dumps := fun _ => "" |}.

Definition signals (l : list proc_event) : list (Z * Z) := omap (fun e => match e with EvKill pid s => if (s =? 0)%Z then None else Some (pid, s) | _ => None end) l.
Definition run (ticks : Z) := kill_all_recorded_children (watched (host ticks)) "watchdogvpn-singbox-" ((0%Q, true), []).

(** The recorded process is terminated, one with another start time is left alone *)
Example recorded_is_stopped : signals (run 42).2.2 = [(7, 15)%Z] ∧ (run 42).2.1 = (0%Q, false).
Proof. vm_compute. auto. Qed.
Example reused_pid_is_spared : signals (run 41).2.2 = [] ∧ (run 41).2.1.2 = true.
Proof. vm_compute. auto. Qed.

#[local] Instance clock ticks : ProcClock (host ticks) fst.
Proof.
  assert (Hif : ∀ A (a : A) w, (if_alive a w).1 ≠ Err out_of_fuel ∧ (if_alive a w).2 = w) by (intros A a [c []]; by split).
  assert (Hk : ∀ pid s w, (ph_kill (host ticks) pid s w).1 ≠ Err out_of_fuel ∧ (ph_kill (host ticks) pid s w).2.1 = w.1).
  { intros pid s [c []]; cbn; by destruct (s =? 15)%Z. }
  assert (Hr : ∀ p w, (ph_read_text (host ticks) p w).1 ≠ Err out_of_fuel ∧ (ph_read_text (host ticks) p w).2 = w).
  { intros p [c []]; cbn [ph_read_text host]; destruct (String.eqb p _); try (by split); by destruct (endswith _ p). }
  split.
  - intros w t w' [= <- <-]. split; lra.
  - intros d [c b] u w' [= <- <-]. cbn [fst snd]. destruct (Qltb d 0) eqn:E; [apply Qltb_spec in E|]; lra.
  - intros A m w [p|p|p|d p|p|p|pid|p|pid s|p|d p|p x|p x|p| |d|x]; try (cbn; lra).
    + rewrite (proj2 (Hr p w)). lra.
    + cbn [ph_cmdline host]. rewrite (proj2 (Hif _ _ w)). lra.
    + rewrite (proj2 (Hk pid s w)). lra.
    + cbn [ph_sleep host later modifyS fst snd]. destruct (Qltb d 0) eqn:E; [lra|]. apply Qltb_false in E. lra.
  - intros A m w [p|p|p|d p|p|p|pid|p|pid s|p|d p|p x|p x|p| |d|x]; try done; [apply Hr|apply Hif|apply Hk].
Qed.

Lemma stopping_terminates_witness :
  (kill_all_recorded_children (host 42) "watchdogvpn-singbox-" (0%Q, true)).1 ≠ Err out_of_fuel
  ∧ (cleanup_stale_runtime_dirs (host 42) "watchdogvpn-singbox-" (0%Q, true)).1 ≠ Err out_of_fuel.
Proof. exact (stopping_terminates (host 42) fst "watchdogvpn-singbox-" (0%Q, true)). Defined.
End DemoProc.
