(* ===== verification/SingBoxRun.v ===== *)
(** * The sing-box process and the state of the host around it

    drivers/singbox_driver.py: starting and stopping sing-box, its health, the status read, the LAN
    gateway with its firewall table and IP forwarding, the rules and routes that a TUN session leaves
    behind, and the NetworkManager helpers.  The driver object is the record [Driver]; processes,
    commands and files are the interface [RunHost]. *)
From stdpp Require Import base list strings pretty.
From Stdlib Require Import Ascii ZArith QArith.
From S2P Require Import Prelude Steps PyData PyText PyUrl Profiles NodeGroups RouteChains AppPolicy Rules RuleRoutes StateManager Dns DnsPolicy DnsConfig WatchdogPolicy Watchdog OpenVpn Endpoint ProfileSchema Health SingBox RuntimePaths.

Definition RUNTIME_PREFIX : string := "watchdogvpn-singbox-".
Definition CONFIG_NAME : string := "singbox.json".
Definition LOG_NAME : string := "singbox.log".
Definition DEFAULT_RULE_TABLES : list string := ["local"; "main"; "default"].
Definition SING_BOX_AUTO_REDIRECT_MARKS : list string := ["0x2023"; "0x2024"].
Definition EXPECTED_PROXY_PORTS : list Z := [2080; 2081]%Z.
Definition RESOLVED_FLUSH_TIMEOUT_SECONDS : Q := 5.
Definition RESOLVED_FLUSH_ATTEMPTS : nat := 3.
Definition RESOLVED_FLUSH_RETRY_DELAY_SECONDS : Q := 1.
Definition LAN_GATEWAY_NFT_TABLE : string := "watchdogvpn_lan_gateway".
Definition LAN_GATEWAY_FORWARD_CHAIN : string := "forward".
Definition LAN_GATEWAY_POSTROUTING_CHAIN : string := "postrouting".

(** ** The driver object *)
Record Driver : Type := {
  sd_process : option Z;
  sd_last_error : string;
  sd_active_profile : option Profile;
  sd_connected_at : option datetime;
  sd_active_mode : string;
  sd_tun_expected : bool;
  sd_runtime_dir : option string;
  sd_tun_rule_baseline : list string;
  sd_tun_cleanup_rule_prefs : list string;
  sd_tun_cleanup_route_tables : list string;
  sd_lan_gateway_active : option LANGatewayRuntimeConfig;
  sd_lan_gateway_ip_forward_snapshot : option string;
  sd_fakeip_cache_flush_required : bool
}.
Definition new_driver : Driver := {|
  sd_process := None; sd_last_error := ""; sd_active_profile := None; sd_connected_at := None; sd_active_mode := "global";
  sd_tun_expected := false; sd_runtime_dir := None; sd_tun_rule_baseline := []; sd_tun_cleanup_rule_prefs := [];
  sd_tun_cleanup_route_tables := []; sd_lan_gateway_active := None; sd_lan_gateway_ip_forward_snapshot := None;
  sd_fakeip_cache_flush_required := false |}.

Definition set_error (msg : string) (d : Driver) : Driver :=
  {| sd_process := sd_process d; sd_last_error := msg; sd_active_profile := sd_active_profile d; sd_connected_at := sd_connected_at d;
     sd_active_mode := sd_active_mode d; sd_tun_expected := sd_tun_expected d; sd_runtime_dir := sd_runtime_dir d;
     sd_tun_rule_baseline := sd_tun_rule_baseline d; sd_tun_cleanup_rule_prefs := sd_tun_cleanup_rule_prefs d;
     sd_tun_cleanup_route_tables := sd_tun_cleanup_route_tables d; sd_lan_gateway_active := sd_lan_gateway_active d;
     sd_lan_gateway_ip_forward_snapshot := sd_lan_gateway_ip_forward_snapshot d; sd_fakeip_cache_flush_required := sd_fakeip_cache_flush_required d |}.
Definition set_session (process : option Z) (profile : option Profile) (at_ : option datetime) (mode : string) (tun flush : bool) (d : Driver) : Driver :=
  {| sd_process := process; sd_last_error := sd_last_error d; sd_active_profile := profile; sd_connected_at := at_;
     sd_active_mode := mode; sd_tun_expected := tun; sd_runtime_dir := sd_runtime_dir d;
     sd_tun_rule_baseline := sd_tun_rule_baseline d; sd_tun_cleanup_rule_prefs := sd_tun_cleanup_rule_prefs d;
     sd_tun_cleanup_route_tables := sd_tun_cleanup_route_tables d; sd_lan_gateway_active := sd_lan_gateway_active d;
     sd_lan_gateway_ip_forward_snapshot := sd_lan_gateway_ip_forward_snapshot d; sd_fakeip_cache_flush_required := flush |}.
Definition set_runtime_dir (dir : option string) (d : Driver) : Driver :=
  {| sd_process := sd_process d; sd_last_error := sd_last_error d; sd_active_profile := sd_active_profile d; sd_connected_at := sd_connected_at d;
     sd_active_mode := sd_active_mode d; sd_tun_expected := sd_tun_expected d; sd_runtime_dir := dir;
     sd_tun_rule_baseline := sd_tun_rule_baseline d; sd_tun_cleanup_rule_prefs := sd_tun_cleanup_rule_prefs d;
     sd_tun_cleanup_route_tables := sd_tun_cleanup_route_tables d; sd_lan_gateway_active := sd_lan_gateway_active d;
     sd_lan_gateway_ip_forward_snapshot := sd_lan_gateway_ip_forward_snapshot d; sd_fakeip_cache_flush_required := sd_fakeip_cache_flush_required d |}.
Definition set_residue (baseline prefs tables : list string) (d : Driver) : Driver :=
  {| sd_process := sd_process d; sd_last_error := sd_last_error d; sd_active_profile := sd_active_profile d; sd_connected_at := sd_connected_at d;
     sd_active_mode := sd_active_mode d; sd_tun_expected := sd_tun_expected d; sd_runtime_dir := sd_runtime_dir d;
     sd_tun_rule_baseline := baseline; sd_tun_cleanup_rule_prefs := prefs; sd_tun_cleanup_route_tables := tables;
     sd_lan_gateway_active := sd_lan_gateway_active d; sd_lan_gateway_ip_forward_snapshot := sd_lan_gateway_ip_forward_snapshot d;
     sd_fakeip_cache_flush_required := sd_fakeip_cache_flush_required d |}.
Definition set_gateway (gateway : option LANGatewayRuntimeConfig) (snapshot : option string) (d : Driver) : Driver :=
  {| sd_process := sd_process d; sd_last_error := sd_last_error d; sd_active_profile := sd_active_profile d; sd_connected_at := sd_connected_at d;
     sd_active_mode := sd_active_mode d; sd_tun_expected := sd_tun_expected d; sd_runtime_dir := sd_runtime_dir d;
     sd_tun_rule_baseline := sd_tun_rule_baseline d; sd_tun_cleanup_rule_prefs := sd_tun_cleanup_rule_prefs d;
     sd_tun_cleanup_route_tables := sd_tun_cleanup_route_tables d; sd_lan_gateway_active := gateway;
     sd_lan_gateway_ip_forward_snapshot := snapshot; sd_fakeip_cache_flush_required := sd_fakeip_cache_flush_required d |}.

(** ** The host *)
Record RunHost (W : Type) : Type := {
  rh_sb : SbHost W;
  rh_proc : ProcHost W;
  rh_binaries : list string;                               (** the fixed places of the binary *)
  rh_access_x : string → PyM W bool;                       (** [os.access(path, X_OK)] *)
  rh_which_path : string → PyM W (option string);
  rh_run_timeout : list string → Q → PyM W completed;      (** [subprocess.run(..., timeout=t)] *)
  rh_open_log : string → PyM W unit;
  rh_popen : list string → PyM W Z;                        (** the pid of the child *)
  rh_exited : Z → PyM W bool;                              (** [process.poll() is not None] *)
  rh_terminate : Z → PyM W unit;
  rh_kill_child : Z → PyM W unit;
  rh_wait : Z → Q → PyM W unit;                            (** [process.wait(timeout)] *)
  rh_append : string → string → PyM W unit;
  rh_read_forward : PyM W string;                          (** /proc/sys/net/ipv4/ip_forward *)
  rh_write_forward : string → PyM W unit;
  rh_remove_dir : string → PyM W unit;                     (** if it exists, errors ignored *)
  rh_connect_tcp : string → Z → PyM W unit;
  rh_utcnow : PyM W datetime;
  rh_render : sbconfig → string;                           (** [json.dumps(config, indent=2, sort_keys=True)] *)
  rh_cache_path : string                                   (** [_persistent_fakeip_cache_path()] *)
}.
Arguments rh_sb {W}.
Arguments rh_proc {W}.
Arguments rh_binaries {W}.
Arguments rh_access_x {W}.
Arguments rh_which_path {W}.
Arguments rh_run_timeout {W}.
Arguments rh_open_log {W}.
Arguments rh_popen {W}.
Arguments rh_exited {W}.
Arguments rh_terminate {W}.
Arguments rh_kill_child {W}.
Arguments rh_wait {W}.
Arguments rh_append {W}.
Arguments rh_read_forward {W}.
Arguments rh_write_forward {W}.
Arguments rh_remove_dir {W}.
Arguments rh_connect_tcp {W}.
Arguments rh_utcnow {W}.
Arguments rh_render {W}.
Arguments rh_cache_path {W}.

(** Operations of the host in the state of the driver *)
Definition io {D W A} (m : PyM W A) : PyM (D * W) A := fun '(d, w) => let '(r, w') := m w in (r, (d, w')).
Definition self {D W} : PyM (D * W) D := gets fst.
Definition update {D W} (f : D → D) : PyM (D * W) unit := modifyS (fun s => (f s.1, s.2)).
Definition lift_sb {W} (host : SbHost W) : SbHost (Driver * W) := {|
  sh_environ := sh_environ host; sh_which := fun name => io (sh_which host name); sh_run := fun c => io (sh_run host c) |}.

(** The ports as [sorted] lists of a set *)
Definition sorted_ports (l : list Z) : list Z := py_sorted Z.ltb (remove_dups l).

(** ** Lines of [ip rule show] *)

(** [re.match(r"^(\d+):", line)] *)
Fixpoint take_digits (s : string) : string * string :=
  match s with
  | String c s' => if is_digit c then let '(a, b) := take_digits s' in (String c a, b) else ("", s)
  | "" => ("", "")
  end.
Definition rule_preference (line : string) : option string :=
  let '(digits, rest) := take_digits line in
  if truthy_str digits && startswith ":" rest then Some digits else None.
Definition word_pattern (word : string) (p : ascii → bool) : list ritem :=
  [RWordB] ++ rlit word ++ rplus is_space ++ [ROpen] ++ rplus p ++ [RClose].
Definition rule_lookup_table (line : string) : option string :=
  match re_search (word_pattern "lookup" (fun c => negb (is_space c))) line with
  | Some table => if str_in table DEFAULT_RULE_TABLES then None else Some table
  | None => None
  end.
Definition rule_goto_preference (line : string) : option string := re_search (word_pattern "goto" is_digit) line.
Definition has_singbox_mark (line : string) : bool :=
  existsb (fun mark => contains ("fwmark " +:+ mark) line) SING_BOX_AUTO_REDIRECT_MARKS.

(** Sets in the order of their additions; a rule without a preference adds [None] *)
Record residue : Type := { re_prefs : list (option string); re_tables : list string; re_gotos : list string }.
Definition no_residue : residue := {| re_prefs := []; re_tables := []; re_gotos := [] |}.
Definition add_elem {A} `{EqDecision A} (x : A) (l : list A) : list A := if bool_decide (x ∈ l) then l else l ++ [x].
Definition add_pref (p : option string) (r : residue) : residue :=
  {| re_prefs := add_elem p (re_prefs r); re_tables := re_tables r; re_gotos := re_gotos r |}.
Definition add_table (t : string) (r : residue) : residue :=
  {| re_prefs := re_prefs r; re_tables := add_elem t (re_tables r); re_gotos := re_gotos r |}.
Definition add_goto (g : string) (r : residue) : residue :=
  {| re_prefs := re_prefs r; re_tables := re_tables r; re_gotos := add_elem g (re_gotos r) |}.
Definition add_opt {A} (f : A → residue → residue) (x : option A) (r : residue) : residue :=
  match x with Some a => f a r | None => r end.

(** [tuple(sorted(prefs, key=int))] and [tuple(sorted(tables))] *)
Definition int_text (s : string) : Z := default 0%Z (py_int s).
Definition sorted_prefs (prefs : list (option string)) : res (list string) :=
  if bool_decide (None ∈ prefs) then raise TypeError "int() argument must be a string, a bytes-like object or a real number, not 'NoneType'"
  else Ok (py_sorted (fun a b => (int_text a <? int_text b)%Z) (omap id prefs)).
Definition sorted_tables (tables : list string) : list string := py_sorted String.ltb tables.

(** The first loop of [_capture_tun_cleanup_state], over the rules that are new since the baseline *)
Definition capture_line (marks : bool) (r : residue) (line : string) : residue :=
  let pref := rule_preference line in
  let table := rule_lookup_table line in
  let r := match pref with
           | Some _ =>
               if has_singbox_mark line then add_opt add_table table (add_pref pref r)
               else match table with
                    | Some t => if marks then add_table t (add_pref pref r) else r
                    | None => r
                    end
           | None => r
           end in
  add_opt add_goto (rule_goto_preference line) r.
(** The first loop of [_discover_singbox_tun_residue] *)
Definition discover_line (r : residue) (line : string) : residue :=
  match rule_preference line with
  | None => r
  | Some pref =>
      if has_singbox_mark line
      then add_opt add_goto (rule_goto_preference line) (add_opt add_table (rule_lookup_table line) (add_pref (Some pref) r))
      else r
  end.

(** Occurrences of a pattern that matches no empty text: [len(re.findall(pattern, s))] *)
Fixpoint re_count_from (items : list ritem) (prev : option ascii) (skip : nat) (s : string) : nat :=
  match s with
  | "" => 0
  | String c s' =>
      match skip with
      | S k => re_count_from items (Some c) k s'
      | O => match rx_match items 0 prev s (0, 0)%nat with
             | Some (n, _) => S (re_count_from items (Some c) (n - 1) s')
             | None => re_count_from items (Some c) 0 s'
             end
      end
  end.
Definition chain_count (output : string) : nat :=
  re_count_from ([RWordB] ++ rlit "chain" ++ rplus is_space ++ rplus (fun c => negb (is_space c))) None 0 output.

(** ** Commands of the LAN gateway *)
Definition gateway_nft_rule (tokens : list string) : list string :=
  ["nft"; "add"; "rule"; "inet"; LAN_GATEWAY_NFT_TABLE; LAN_GATEWAY_FORWARD_CHAIN] ++ tokens.
Definition gateway_nat_rule (tokens : list string) : list string :=
  ["nft"; "add"; "rule"; "inet"; LAN_GATEWAY_NFT_TABLE; LAN_GATEWAY_POSTROUTING_CHAIN] ++ tokens.
Definition gateway_commands (g : LANGatewayRuntimeConfig) : list (list string) :=
  [ ["nft"; "add"; "table"; "inet"; LAN_GATEWAY_NFT_TABLE];
    ["nft"; "add"; "chain"; "inet"; LAN_GATEWAY_NFT_TABLE; LAN_GATEWAY_FORWARD_CHAIN;
     "{"; "type"; "filter"; "hook"; "forward"; "priority"; "0;"; "policy"; "drop;"; "}"];
    ["nft"; "add"; "chain"; "inet"; LAN_GATEWAY_NFT_TABLE; LAN_GATEWAY_POSTROUTING_CHAIN;
     "{"; "type"; "nat"; "hook"; "postrouting"; "priority"; "srcnat;"; "policy"; "accept;"; "}"];
    gateway_nft_rule ["ct"; "state"; "established,related"; "accept"];
    gateway_nft_rule ["iifname"; lg_lan_interface g; "oifname"; lg_tunnel_interface g; "ip"; "saddr"; lg_client_cidr g; "accept"];
    gateway_nft_rule ["iifname"; lg_lan_interface g; "reject"];
    gateway_nat_rule ["oifname"; lg_tunnel_interface g; "ip"; "saddr"; lg_client_cidr g; "masquerade"] ].
Definition gateway_delete : list string := ["nft"; "delete"; "table"; "inet"; LAN_GATEWAY_NFT_TABLE].

Definition subprocess_or_os_error (e : exn) : bool := is_instance e OSError || is_instance e SubprocessError.
Definition runtime_error (e : exn) : bool := is_instance e RuntimeError.

Definition nl : string := String newline "".

(** ** systemd-resolved *)
Definition resolved_flush_stderr_is_transient (stderr : string) : bool :=
  existsb (fun token => contains token (lower stderr))
    ["connection timed out"; "message recipient disconnected"; "service_start_timeout"; "timed out"].

Section driver.
Context `{PyStr} {W : Type} (host : RunHost W).
Notation DM := (PyM (Driver * W)).

(** [attempts] further attempts after the first *)
Fixpoint flush_attempts (resolvectl : string) (attempts : nat) : PyM W bool :=
  flushed ← try_except (r ← rh_run_timeout host [resolvectl; "flush-caches"] RESOLVED_FLUSH_TIMEOUT_SECONDS; mret (inl r))
              subprocess_or_os_error (fun e => mret (inr (is_instance e TimeoutExpired)));
  let retry := match attempts with
               | O => mret false
               | S n => _ ← ph_sleep (rh_proc host) RESOLVED_FLUSH_RETRY_DELAY_SECONDS; flush_attempts resolvectl n
               end in
  match flushed with
  | inr timeout => if timeout : bool then retry else mret false
  | inl r =>
      if (cp_returncode r =? 0)%Z then mret true
      else if resolved_flush_stderr_is_transient (strip (cp_stderr r)) then retry else mret false
  end.
Definition flush_systemd_resolved_caches : PyM W bool :=
  systemctl ← rh_which_path host "systemctl";
  match systemctl with
  | None => mret true
  | Some systemctl =>
      active ← try_except (r ← rh_run_timeout host [systemctl; "is-active"; "systemd-resolved.service"] RESOLVED_FLUSH_TIMEOUT_SECONDS; mret (Some r))
                 subprocess_or_os_error (fun _ => mret None);
      match active with
      | None => mret false
      | Some active =>
          let state := strip (cp_stdout active) in
          if bool_decide (cp_returncode active ∈ [3; 4]%Z) || str_in state ["inactive"; "failed"; "unknown"] then mret true
          else if negb (cp_returncode active =? 0)%Z || negb (String.eqb state "active") then mret false
          else
            resolvectl ← rh_which_path host "resolvectl";
            match resolvectl with
            | None => mret false
            | Some resolvectl => flush_attempts resolvectl (RESOLVED_FLUSH_ATTEMPTS - 1)
            end
      end
  end.

(** ** The constructor *)
Definition SingBoxDriver_init : PyM W Driver :=
  _ ← cleanup_stale_runtime_dirs (rh_proc host) RUNTIME_PREFIX;
  mret new_driver.

(** ** The binary *)
Definition executable (path : string) : PyM W bool :=
  there ← ph_exists (rh_proc host) path;
  if there : bool then rh_access_x host path else mret false.
Fixpoint first_executable (name : string) (paths : list string) : PyM W (option string) :=
  match paths with
  | [] => rh_which_path host name
  | path :: rest => ok ← executable path; if ok : bool then mret (Some path) else first_executable name rest
  end.
(** The binary that the environment names, the first of the fixed places, or the one on the path *)
Definition find_binary (variable name : string) (places : list string) : PyM W (option string) :=
  match ph_environ (rh_proc host) variable with
  | Some (String _ _ as env_binary) =>
      ok ← executable env_binary;
      if ok : bool then mret (Some env_binary) else first_executable name places
  | _ => first_executable name places
  end.
Definition find_singbox_binary : PyM W (option string) := find_binary "WATCHDOGVPN_SINGBOX_BIN" "sing-box" (rh_binaries host).
Definition binary_version (name option_ : string) (find : PyM W (option string)) : PyM W string :=
  binary ← find;
  match binary with
  | Some (String _ _ as binary) =>
      r ← sh_run (rh_sb host) [binary; option_];
      let output := strip (if truthy_str (cp_stdout r) then cp_stdout r else cp_stderr r) in
      if negb (truthy_str output) then raiseM RuntimeError (name +:+ " version output is empty") else mret output
  | _ => raiseM FileNotFoundError (name +:+ " binary not found")
  end.
Definition check_version : PyM W string := binary_version "sing-box" "version" find_singbox_binary.
Definition available (version : PyM W string) : PyM W bool :=
  try_except (v ← version; mret (truthy_str v))
    (fun e => is_instance e FileNotFoundError || is_instance e RuntimeError) (fun _ => mret false).
Definition is_available : PyM W bool := available check_version.

(** ** Files of a run *)
Definition ensure_runtime_paths : DM (string * string) :=
  d ← self;
  dir ← match sd_runtime_dir d with
        | Some dir => mret dir
        | None =>
            dir ← io (make_runtime_dir (rh_proc host) RUNTIME_PREFIX);
            _ ← update (set_runtime_dir (Some dir));
            mret dir
        end;
  mret (path_join dir CONFIG_NAME, path_join dir LOG_NAME).
Definition write_config (config : sbconfig) : DM unit :=
  paths ← ensure_runtime_paths;
  io (write_private_file (rh_proc host) paths.1 (rh_render host config)).
Definition cleanup_runtime : DM unit :=
  d ← self;
  _ ← match sd_runtime_dir d with Some dir => io (rh_remove_dir host dir) | None => mret tt end;
  update (set_runtime_dir None).
Definition append_log (message : string) : DM unit :=
  paths ← ensure_runtime_paths;
  io (rh_append host paths.2 message).

(** ** Commands *)
Definition which (name : string) : DM bool := io (sh_which (rh_sb host) name).
Definition run_cleanup_command (command : list string) : DM unit := _ ← io (sh_run (rh_sb host) command); mret tt.
Definition run_capture_command (command : list string) : DM completed := io (sh_run (rh_sb host) command).
Definition run_gateway_required (command : list string) : DM bool :=
  r ← io (sh_run (rh_sb host) command);
  if (cp_returncode r =? 0)%Z then mret true
  else
    let detail := strip (if truthy_str (cp_stderr r) then cp_stderr r else cp_stdout r) in
    _ ← append_log ("lan_gateway: command failed: " +:+ String.concat " " command +:+ " " +:+ detail +:+ nl);
    mret false.

(** ** LAN gateway *)
Definition read_ipv4_forward : DM string :=
  try_except (text ← io (rh_read_forward host); mret (strip text))
    os_error (fun _ => raiseM RuntimeError "lan_gateway: cannot read net.ipv4.ip_forward").
Definition write_ipv4_forward (value : string) : DM unit :=
  try_except (io (rh_write_forward host (value +:+ nl)))
    os_error (fun _ => raiseM RuntimeError "lan_gateway: cannot write net.ipv4.ip_forward").
Definition log_error (e : exn) : DM unit := append_log (exn_message e +:+ nl).
Definition cleanup_lan_gateway (force_table : bool) : DM unit :=
  d ← self;
  let seen := match sd_lan_gateway_active d, sd_lan_gateway_ip_forward_snapshot d with None, None => false | _, _ => true end in
  if negb seen && negb force_table then mret tt
  else
    nft ← which "nft";
    _ ← (if nft : bool then run_cleanup_command gateway_delete else mret tt);
    _ ← match sd_lan_gateway_ip_forward_snapshot d with
        | Some snapshot => try_except (write_ipv4_forward snapshot) runtime_error log_error
        | None => mret tt
        end;
    update (set_gateway None None).
Fixpoint run_required (commands : list (list string)) : DM bool :=
  match commands with
  | [] => mret true
  | c :: rest => ok ← run_gateway_required c; if ok : bool then run_required rest else mret false
  end.
Definition apply_lan_gateway (g : LANGatewayRuntimeConfig) : DM bool :=
  d ← self;
  if negb (lg_firewall_managed g) then _ ← append_log ("lan_gateway: firewall_managed=false is not supported" +:+ nl); mret false
  else if negb (String.eqb (lg_dns_mode g) "manual") then _ ← append_log ("lan_gateway: only manual DNS mode is supported" +:+ nl); mret false
  else if negb (sd_tun_expected d) then _ ← append_log ("lan_gateway: TUN capture is required" +:+ nl); mret false
  else
    nft ← which "nft";
    if negb nft then _ ← append_log ("lan_gateway: nftables is required" +:+ nl); mret false
    else
      _ ← cleanup_lan_gateway true;
      read ← try_except (v ← read_ipv4_forward; _ ← update (fun d => set_gateway (sd_lan_gateway_active d) (Some v) d); mret true)
               runtime_error (fun e => _ ← log_error e; mret false);
      if negb read then mret false
      else
        ok ← run_required (gateway_commands g);
        if negb ok then _ ← cleanup_lan_gateway false; mret false
        else
          written ← try_except (_ ← write_ipv4_forward "1"; mret true) runtime_error
                      (fun e => _ ← log_error e; _ ← cleanup_lan_gateway false; mret false);
          if negb written then mret false
          else _ ← update (fun d => set_gateway (Some g) (sd_lan_gateway_ip_forward_snapshot d) d); mret true.

(** ** Rules and routes of a TUN session *)
Definition ip_rule_lines : DM (list string) :=
  have ← which "ip";
  if negb have then mret []
  else
    r ← run_capture_command ["ip"; "rule"; "show"];
    mret (if negb (cp_returncode r =? 0)%Z then [] else List.filter truthy_str (map strip (splitlines (cp_stdout r)))).
Definition route_table_output (table : string) (ipv6 : bool) : DM string :=
  have ← which "ip";
  if negb have then mret ""
  else
    r ← run_capture_command (if ipv6 then ["ip"; "-6"; "route"; "show"; "table"; table] else ["ip"; "route"; "show"; "table"; table]);
    mret (if negb (cp_returncode r =? 0)%Z then "" else cp_stdout r).
Definition route_table_looks_like_watchdogvpn (table : string) : DM bool :=
  v4 ← route_table_output table false;
  v6 ← route_table_output table true;
  let output := v4 +:+ nl +:+ v6 in
  mret (contains "wdvpn-tun0" output || contains "172.19.0." output).

(** What the second loops share: rules that goto targets name, and rules that look up a residual table *)
Definition linked_line (line : string) (r : residue) : residue :=
  let pref := rule_preference line in
  let r := match pref with Some p => if str_in p (re_gotos r) then add_pref pref r else r | None => r end in
  match rule_lookup_table line with
  | Some t => if str_in t (re_tables r) then add_pref pref r else r
  | None => r
  end.
Fixpoint capture_linked (lines : list string) (r : residue) : DM residue :=
  match lines with
  | [] => mret r
  | line :: rest =>
      let r := linked_line line r in
      r ← match rule_lookup_table line with
          | Some t =>
              ours ← route_table_looks_like_watchdogvpn t;
              mret (if ours : bool then add_table t (match rule_preference line with Some p => add_pref (Some p) r | None => r end) else r)
          | None => mret r
          end;
      capture_linked rest r
  end.
Definition capture_tun_cleanup_state : DM unit :=
  current_rules ← ip_rule_lines;
  if bool_decide (current_rules = []) then mret tt
  else
    d ← self;
    let baseline := sd_tun_rule_baseline d in
    let candidates := List.filter (fun line => bool_decide (baseline = []) || negb (str_in line baseline)) current_rules in
    let found := foldl (capture_line (existsb has_singbox_mark candidates)) no_residue candidates in
    r ← capture_linked current_rules found;
    prefs ← liftR (sorted_prefs (re_prefs r));
    update (set_residue baseline prefs (sorted_tables (re_tables r))).

Fixpoint discover_linked (orphans : bool) (lines : list string) (r : residue) : DM residue :=
  match lines with
  | [] => mret r
  | line :: rest =>
      let pref := rule_preference line in
      let r := linked_line line r in
      r ← match rule_lookup_table line with
          | Some t =>
              ours ← route_table_looks_like_watchdogvpn t;
              let r := if ours : bool then add_table t (add_pref pref r) else r in
              mret (if orphans && bool_decide (pref = Some "1") && isdigit t then add_table t (add_pref pref r) else r)
          | None => mret r
          end;
      discover_linked orphans rest r
  end.
Definition discover_singbox_tun_residue (include_orphaned_auto_route_rule : bool) : DM (list string * list string) :=
  rules ← ip_rule_lines;
  r ← discover_linked include_orphaned_auto_route_rule rules (foldl discover_line no_residue rules);
  prefs ← liftR (sorted_prefs (re_prefs r));
  mret (prefs, sorted_tables (re_tables r)).

Definition singbox_process_alive : DM bool :=
  have ← which "pgrep";
  if negb have then mret false
  else
    r ← run_capture_command ["pgrep"; "-x"; "sing-box"];
    mret ((cp_returncode r =? 0)%Z && truthy_str (strip (cp_stdout r))).
Definition clear_tun_cleanup_state : DM unit := update (set_residue [] [] []).

(** ** NetworkManager *)
Definition networkmanager_state : DM string :=
  result ← try_except (r ← io (rh_run_timeout host ["systemctl"; "is-active"; "NetworkManager.service"] 10); mret (Some r))
             subprocess_or_os_error (fun _ => mret None);
  mret match result with
       | None => "unknown"
       | Some r =>
           let state := lower (strip (cp_stdout r)) in
           if String.eqb state "active" && (cp_returncode r =? 0)%Z then "active"
           else if String.eqb state "inactive" && (cp_returncode r =? 3)%Z then "inactive"
           else "unknown"
       end.
(** [systemctl start] of a helper unit: did it succeed *)
Definition start_unit (unit_ : string) : DM bool :=
  try_except (r ← io (rh_run_timeout host ["systemctl"; "start"; unit_] 15); mret (cp_returncode r =? 0)%Z)
    subprocess_or_os_error (fun _ => mret false).
Definition record_networkmanager_tun_connection : DM bool :=
  nmcli ← which "nmcli";
  if negb nmcli then mret true
  else
    state ← networkmanager_state;
    if String.eqb state "inactive" then mret true
    else if String.eqb state "unknown" then mret false
    else start_unit "watchdogvpn-nm-tun-register.service".
Definition delete_tun_link : DM unit := run_cleanup_command ["ip"; "link"; "delete"; "wdvpn-tun0"].
Definition forget_networkmanager_tun_connection : DM bool :=
  nmcli ← which "nmcli";
  if negb nmcli then _ ← delete_tun_link; mret true
  else
    state ← networkmanager_state;
    if String.eqb state "inactive" then _ ← delete_tun_link; mret true
    else if String.eqb state "unknown" then _ ← delete_tun_link; mret false
    else
      helper_started ← start_unit "watchdogvpn-nm-tun-cleanup.service";
      _ ← delete_tun_link;
      mret helper_started.

Fixpoint run_each (commands : list (list string)) : DM unit :=
  match commands with [] => mret tt | c :: rest => _ ← run_cleanup_command c; run_each rest end.
Definition residue_commands (prefs tables : list string) : list (list string) :=
  map (fun p => ["ip"; "rule"; "del"; "pref"; p]) prefs
  ++ flat_map (fun t => [["ip"; "route"; "flush"; "table"; t]; ["ip"; "-6"; "route"; "flush"; "table"; t]]) tables.
Definition cleanup_tun_residue : DM bool :=
  d ← self;
  let known := (sd_tun_cleanup_rule_prefs d, sd_tun_cleanup_route_tables d) in
  found ← (if bool_decide (known.1 = []) && bool_decide (known.2 = []) then discover_singbox_tun_residue false else mret known);
  let '(rule_prefs, route_tables) := found in
  _ ← (if bool_decide (rule_prefs = []) && bool_decide (route_tables = []) then mret tt
       else nft ← which "nft"; if nft : bool then run_cleanup_command ["nft"; "delete"; "table"; "inet"; "sing-box"] else mret tt);
  ip ← which "ip";
  _ ← (if ip : bool then run_each (residue_commands rule_prefs route_tables) else mret tt);
  ok ← forget_networkmanager_tun_connection;
  _ ← (if ok : bool then clear_tun_cleanup_state else mret tt);
  mret ok.

(** ** Health *)
Definition tun_link : DM (option string) :=
  have ← which "ip";
  if negb have then mret None
  else
    r ← run_capture_command ["ip"; "-o"; "link"; "show"; "wdvpn-tun0"];
    mret (if (cp_returncode r =? 0)%Z then Some (cp_stdout r) else None).
Definition tun_interface_exists : DM bool := link ← tun_link; mret match link with Some _ => true | None => false end.
Definition tun_interface_active : DM bool := link ← tun_link; mret match link with Some out => contains "UP" out | None => false end.
Definition reconcile_stale_tun_state : DM unit :=
  alive ← singbox_process_alive;
  if alive : bool then mret tt
  else
    found ← discover_singbox_tun_residue true;
    let '(rule_prefs, route_tables) := found in
    _ ← (if bool_decide (rule_prefs = []) && bool_decide (route_tables = []) then mret tt
         else update (fun d => set_residue (sd_tun_rule_baseline d) rule_prefs route_tables d));
    d ← self;
    let retry_pending := negb (bool_decide (sd_tun_cleanup_rule_prefs d = []) && bool_decide (sd_tun_cleanup_route_tables d = [])) in
    exists_ ← (if retry_pending then mret true else tun_interface_exists);
    if negb exists_ then mret tt else _ ← cleanup_tun_residue; mret tt.

Definition port_open (address : string) (port : Z) : DM bool :=
  try_except (_ ← io (rh_connect_tcp host address port); mret true) os_error (fun _ => mret false).
Definition WAIT_FUEL : nat := 31.
(** [while time.monotonic() < deadline] with a deadline in three seconds *)
Definition wait_3s (check : DM (option bool)) : DM bool :=
  now ← io (ph_monotonic (rh_proc host));
  wait_until (proc_lift (fun _ => io) (rh_proc host)) (1 # 10) WAIT_FUEL (now + 3) check.
Definition wait_for_proxy_port : DM bool :=
  wait_3s (socks ← port_open "127.0.0.1" 2080;
           http ← (if socks : bool then mret true else port_open "127.0.0.1" 2081);
           mret (if http : bool then Some true else None)).
Definition wait_for_tun_interface : DM bool :=
  wait_3s (active ← tun_interface_active; mret (if active : bool then Some true else None)).
Definition singbox_auto_redirect_observation : DM (bool * bool) :=
  have ← which "nft";
  if negb have then mret (false, false)
  else
    r ← run_capture_command ["nft"; "list"; "table"; "inet"; "sing-box"];
    if negb (cp_returncode r =? 0)%Z then mret (false, false)
    else
      let output := cp_stdout r in
      if negb (contains "table inet sing-box" output) then mret (true, false)
      else mret (true, (2 <=? chain_count output)%nat && (contains "hook output" output || contains "hook prerouting" output)).
Definition process_exited (process : option Z) : DM bool :=
  match process with Some pid => io (rh_exited host pid) | None => mret true end.
Definition wait_for_tun_auto_redirect_ready : DM bool :=
  wait_3s (
    d ← self;
    gone ← process_exited (sd_process d);
    if gone : bool then _ ← append_log ("health_check: sing-box exited before TUN auto_redirect readiness" +:+ nl); mret (Some false)
    else
      ready ← singbox_auto_redirect_observation;
      if negb ready.2 then mret None
      else gone ← process_exited (sd_process d); mret (Some (negb gone))).

Definition owned_proxy_runtime_observation : DM (list OwnedProcess * TCPListenerObservation) :=
  processes ← io (owned_processes (rh_proc host) RUNTIME_PREFIX ["sing-box"]);
  d ← self;
  let processes := match sd_process d with
                   | Some pid => if forallb (fun p => negb (op_pid p =? pid)%Z) processes
                                 then processes ++ [{| op_pid := pid; op_executable := "sing-box" |}] else processes
                   | None => processes
                   end in
  observation ← io (observe_tcp_listener_ports (rh_proc host) processes);
  mret (processes, observation).
Definition missing_ports (ports : list Z) : list Z := List.filter (fun p => negb (bool_decide (p ∈ ports))) EXPECTED_PROXY_PORTS.
Definition owned_proxy_egress_ready : DM bool :=
  observed ← owned_proxy_runtime_observation;
  let '(processes, observation) := observed in
  if bool_decide (length processes = 0%nat) || negb (tl_observable observation)
  then _ ← append_log ("health_check: owned proxy listener evidence is unavailable" +:+ nl); mret false
  else
    let missing := missing_ports (tl_ports observation) in
    if negb (bool_decide (missing = []))
    then _ ← append_log ("health_check: owned proxy listeners missing ports=" +:+ String.concat "," (map pretty missing) +:+ nl); mret false
    else mret true.
Definition health_check : DM string :=
  d ← self;
  gone ← process_exited (sd_process d);
  if gone : bool then mret "down"
  else
    ports_ok ← wait_for_proxy_port;
    if negb ports_ok then _ ← append_log ("health_check: local proxy ports are not responding" +:+ nl); mret "degraded"
    else
      ready ← owned_proxy_egress_ready;
      if negb ready then mret "degraded"
      else
        d ← self;
        if negb (sd_tun_expected d) then mret "ok"
        else
          tun ← wait_for_tun_interface;
          if negb tun then _ ← append_log ("health_check: TUN interface is not active" +:+ nl); mret "degraded"
          else
            redirect ← wait_for_tun_auto_redirect_ready;
            if negb redirect then _ ← append_log ("health_check: TUN auto_redirect nftables state is not ready" +:+ nl); mret "degraded"
            else mret "ok".

(** ** Disconnect *)
(** [try: m  finally: f], keeping what the finally block computed *)
Definition try_finally_with {S A B} (m : PyM S A) (f : PyM S B) : PyM S (A * B) := fun s =>
  let '(r, s') := m s in
  match f s' with
  | (Ok b, s'') => (a ← r; Ok (a, b), s'')
  | (Err e, s'') => (Err e, s'')
  end.
Definition timeout_expired (e : exn) : bool := is_instance e TimeoutExpired.
(** Did the process end: TERM, then KILL *)
Definition stop_process (process : option Z) : PyM W bool :=
  match process with
  | None => mret true
  | Some pid =>
      gone ← rh_exited host pid;
      if gone : bool then mret true
      else
        _ ← rh_terminate host pid;
        try_except (_ ← rh_wait host pid 5; mret true) timeout_expired (fun _ =>
          _ ← rh_kill_child host pid;
          try_except (_ ← rh_wait host pid 5; mret true) timeout_expired (fun _ => mret false))
  end.
Context (dns_cache_flusher : PyM W bool).

Definition disconnect : DM bool :=
  d ← self;
  let process := sd_process d in
  let cleanup_residue := sd_tun_expected d in
  let flush_fakeip_cache := sd_fakeip_cache_flush_required d in
  _ ← (if cleanup_residue then capture_tun_cleanup_state else mret tt);
  _ ← update (fun d => set_session None None None "global" false (sd_fakeip_cache_flush_required d) d);
  outcome ← try_finally_with (io (stop_process process)) (
    _ ← cleanup_lan_gateway false;
    process_stopped ← process_exited process;
    tun_cleanup_ok ← (if cleanup_residue && process_stopped then cleanup_tun_residue else mret true);
    _ ← io (kill_all_recorded_children (rh_proc host) RUNTIME_PREFIX);
    _ ← cleanup_runtime;
    mret tun_cleanup_ok);
  let '(stopped, tun_cleanup_ok) := outcome in
  if negb stopped then mret false
  else
    _ ← (if flush_fakeip_cache then
           flushed ← io dns_cache_flusher;
           if negb flushed then
             update (fun d => set_error "system DNS cache invalidation failed for FakeIP deactivation"
               (set_session (sd_process d) (sd_active_profile d) (sd_connected_at d) (sd_active_mode d) (sd_tun_expected d) true d))
           else update (fun d => set_session (sd_process d) (sd_active_profile d) (sd_connected_at d) (sd_active_mode d) (sd_tun_expected d) false d)
         else mret tt);
    mret tun_cleanup_ok.

(** ** Connect *)
Definition ensure_disconnected_before_connect : DM bool :=
  d ← self;
  match sd_process d with None => mret true | Some _ => disconnect end.
(** A failure after the process was started *)
Definition abandon (error : option string) : DM bool :=
  _ ← match error with Some msg => update (set_error msg) | None => mret tt end;
  _ ← update (fun d => set_session (sd_process d) None None (sd_active_mode d) (sd_tun_expected d) (sd_fakeip_cache_flush_required d) d);
  _ ← disconnect;
  mret false.
Definition activate (lan_gateway : option LANGatewayRuntimeConfig) : DM bool :=
  d ← self;
  registered ← (if sd_tun_expected d then _ ← capture_tun_cleanup_state; record_networkmanager_tun_connection else mret true);
  if negb registered then abandon (Some "NetworkManager TUN ownership registration failed")
  else
    flushed ← (if sd_fakeip_cache_flush_required d then io dns_cache_flusher else mret true);
    if negb flushed then abandon (Some "system DNS cache invalidation failed for FakeIP activation")
    else
      gateway ← match lan_gateway with Some g => apply_lan_gateway g | None => mret true end;
      if negb gateway then abandon None
      else
        now ← io (rh_utcnow host);
        _ ← update (fun d => set_session (sd_process d) (sd_active_profile d) (Some now) (sd_active_mode d) (sd_tun_expected d)
                               (sd_fakeip_cache_flush_required d) d);
        mret true.
Definition path_name (path : string) : string := default "" (last (path_names path)).
Definition launch (binary : string) (profile : Profile) (o : GenOptions) (tun_expected flush_required : bool) : DM unit :=
  paths ← ensure_runtime_paths;
  _ ← io (rh_open_log host paths.2);
  pid ← io (rh_popen host [binary; "run"; "-c"; paths.1]);
  _ ← update (fun d => set_session (Some pid) (sd_active_profile d) (sd_connected_at d) (sd_active_mode d) (sd_tun_expected d)
                         (sd_fakeip_cache_flush_required d) d);
  d ← self;
  _ ← io (record_child_process (rh_proc host) (default "" (sd_runtime_dir d)) "process" pid (path_name binary));
  update (fun d => set_session (sd_process d) (Some profile) (sd_connected_at d) (g_mode o) tun_expected flush_required d).
Definition with_peers (peers : list string) (o : GenOptions) : GenOptions :=
  {| g_mode := g_mode o; g_groups := g_groups o; g_app_policy := g_app_policy o; g_final_policy := g_final_policy o;
     g_rule_set_tags := g_rule_set_tags o; g_rule_set_declarations := g_rule_set_declarations o; g_plans := g_plans o;
     g_lan_proxy := g_lan_proxy o; g_capture_modes := g_capture_modes o; g_management_peers := peers;
     g_native_transport := g_native_transport o; g_native_bypass_cidrs := g_native_bypass_cidrs o;
     g_native_egress_interface := g_native_egress_interface o; g_management_routes := g_management_routes o |}.
(** The peers that were given, or those the preflight finds; [None]: refused *)
Definition management_peers_of (profile : Profile) (peers : option (list string)) (o : GenOptions) : DM (option (list string)) :=
  match peers with
  | Some peers => mret (Some peers)
  | None =>
      try_except (peers ← io (preflight_management_path (rh_sb host) profile (g_mode o) (g_capture_modes o)); mret (Some peers))
        (fun e => is_instance e ManagementPathSafetyError)
        (fun e => _ ← update (set_error (exn_message e)); mret None)
  end.
Definition connect (profile : Profile) (policy : option DNSPolicy) (o : GenOptions) (peers : option (list string))
    (lan_gateway : option LANGatewayRuntimeConfig) : DM bool :=
  _ ← update (set_error "");
  let tun_expected := mode_requires_tun (g_mode o) (g_capture_modes o) in
  let flush_required := tun_expected && negb (g_native_transport o)
                        && match policy with Some p => fakeip_policy_ready p | None => false end in
  peers ← management_peers_of profile peers o;
  match peers with
  | None => mret false
  | Some peers =>
      free ← ensure_disconnected_before_connect;
      if negb free then _ ← update (set_error "existing sing-box runtime teardown failed"); mret false
      else
        binary ← io find_singbox_binary;
        match binary with
        | Some (String _ _ as binary) =>
            _ ← clear_tun_cleanup_state;
            _ ← (if tun_expected then lines ← ip_rule_lines; update (fun d => set_residue lines (sd_tun_cleanup_rule_prefs d) (sd_tun_cleanup_route_tables d) d)
                 else mret tt);
            _ ← generate_singbox_config (lift_sb (rh_sb host)) (rh_cache_path host) write_config profile policy (with_peers peers o);
            _ ← launch binary profile o tun_expected flush_required;
            d ← self;
            gone ← process_exited (sd_process d);
            health ← (if gone : bool then mret "down" else health_check);
            if String.eqb health "ok" then activate lan_gateway
            else
              _ ← update (fun d => set_session (sd_process d) None None (sd_active_mode d) (sd_tun_expected d) (sd_fakeip_cache_flush_required d) d);
              d ← self;
              _ ← (if sd_tun_expected d then capture_tun_cleanup_state else mret tt);
              _ ← disconnect;
              mret false
        | _ => mret false
        end
  end.

(** ** Status *)
Definition runtime_artifact_labels (ports : list Z) (tun_active nft_present : bool) (prefs tables : list string) (processes : list OwnedProcess)
    : list string :=
  sorted_set (map (fun p => "owned_listener:tcp/" +:+ pretty p) (sorted_ports ports)
    ++ (if bool_decide (length processes = 0%nat) then [] else ["owned_process:sing-box"])
    ++ (if tun_active then ["interface:wdvpn-tun0"] else []) ++ (if nft_present then ["routing:nft/sing-box"] else [])
    ++ (if bool_decide (prefs = []) then [] else ["routing:ip-rule/sing-box"])
    ++ (if bool_decide (tables = []) then [] else ["routing:route-table/sing-box"])).
Definition mismatch_state (tun_active proxy_active : bool) (artifacts : list string) : ConnectionState :=
  let c := default_ConnectionState "runtime_mismatch" "sing-box" in
  {| cs_active_profile_id := ""; cs_connected_at := None; cs_mode := "sing-box"; cs_tun_active := tun_active; cs_proxy_active := proxy_active;
     cs_kill_switch_active := cs_kill_switch_active c; cs_kill_switch_status := cs_kill_switch_status c;
     cs_kill_switch_method := cs_kill_switch_method c; cs_kill_switch_consistent := cs_kill_switch_consistent c;
     cs_runtime_mismatch_severity := "critical"; cs_runtime_artifacts := artifacts; cs_lan_gateway_active := false;
     cs_lan_gateway_interface := ""; cs_lan_gateway_client_cidr := ""; cs_lan_gateway_dns_mode := ""; cs_lan_gateway_status := "disabled";
     cs_status := "runtime_mismatch"; cs_last_failure_reason := cs_last_failure_reason c; cs_last_failure_at := cs_last_failure_at c |}.
Definition missing_labels (tun_expected tun_active nft_present nft_ready observable : bool) (ports : list Z) (prefs tables : list string) : list string :=
  (if observable then [] else ["proxy_listener_observation_unavailable"])
  ++ map (fun p => "missing_proxy_listener:tcp/" +:+ pretty p) (missing_ports ports)
  ++ (if tun_expected && negb tun_active then ["missing_tun_interface:wdvpn-tun0"] else [])
  ++ (if tun_expected && negb nft_ready then ["missing_or_partial_routing:nft/sing-box"] else [])
  ++ (if negb tun_expected && tun_active then ["unexpected_tun_interface:wdvpn-tun0"] else [])
  ++ (if negb tun_expected && nft_present then ["unexpected_routing:nft/sing-box"] else [])
  ++ (if negb tun_expected && negb (bool_decide (prefs = [])) then ["unexpected_routing:ip-rule/sing-box"] else [])
  ++ (if negb tun_expected && negb (bool_decide (tables = [])) then ["unexpected_routing:route-table/sing-box"] else []).
Definition running_state (d : Driver) (tun_active : bool) (ports : list Z) (artifacts missing : list string) : ConnectionState :=
  let c := default_ConnectionState "connected" "sing-box" in
  let gateway f := match sd_lan_gateway_active d with Some g => f g | None => "" end in
  {| cs_active_profile_id := match sd_active_profile d with Some p => p_id p | None => "" end; cs_connected_at := sd_connected_at d;
     cs_mode := "sing-box"; cs_tun_active := sd_tun_expected d && tun_active; cs_proxy_active := bool_decide (missing_ports ports = []);
     cs_kill_switch_active := cs_kill_switch_active c; cs_kill_switch_status := cs_kill_switch_status c;
     cs_kill_switch_method := cs_kill_switch_method c; cs_kill_switch_consistent := cs_kill_switch_consistent c;
     cs_runtime_mismatch_severity := if bool_decide (missing = []) then "" else "critical";
     cs_runtime_artifacts := sorted_set (artifacts ++ missing);
     cs_lan_gateway_active := match sd_lan_gateway_active d with Some _ => true | None => false end;
     cs_lan_gateway_interface := gateway lg_lan_interface; cs_lan_gateway_client_cidr := gateway lg_client_cidr;
     cs_lan_gateway_dns_mode := gateway lg_dns_mode;
     cs_lan_gateway_status := match sd_lan_gateway_active d with Some _ => if tun_active then "applied" else "degraded" | None => "disabled" end;
     cs_status := if bool_decide (missing = []) then "connected" else "runtime_mismatch";
     cs_last_failure_reason := cs_last_failure_reason c; cs_last_failure_at := cs_last_failure_at c |}.
Definition status : DM ConnectionState :=
  d ← self;
  observed ← owned_proxy_runtime_observation;
  let '(processes, observation) := observed in
  let ports := tl_ports observation in
  tun_active ← tun_interface_active;
  nft ← singbox_auto_redirect_observation;
  residue ← discover_singbox_tun_residue false;
  let artifacts := runtime_artifact_labels ports tun_active nft.1 residue.1 residue.2 processes in
  let idle := if bool_decide (artifacts = []) then default_ConnectionState "standby" "standby"
              else mismatch_state tun_active (negb (bool_decide (ports = []))) artifacts in
  gone ← process_exited (sd_process d);
  liftR (ConnectionState_post_init (
    if gone : bool then idle
    else running_state d tun_active ports artifacts
           (missing_labels (sd_tun_expected d) tun_active nft.1 nft.2 (tl_observable observation) ports residue.1 residue.2))).
End driver.
