(* ===== verification/SingBoxSafety.v ===== *)
(** * What the sing-box driver guarantees about the host

    About [SingBoxRun]: a status read changes nothing, IP forwarding is switched on only behind the
    firewall of the gateway, the outcome of connect and disconnect, and what a failed disconnect
    leaves to the next one. *)
From stdpp Require Import base list strings pretty.
From Stdlib Require Import Ascii ZArith QArith Lia.
From S2P Require Import Prelude Steps PyData PyText PyUrl Profiles NodeGroups RouteChains AppPolicy Rules RuleRoutes StateManager Dns DnsPolicy DnsConfig WatchdogPolicy Watchdog OpenVpn Endpoint ProfileSchema Health SingBox SingBoxConfig RuntimePaths SingBoxRun.

(** ** Operations that only look *)
Definition read_command (c : list string) : Prop :=
  c ∈ [["ip"; "rule"; "show"]; ["ip"; "-o"; "link"; "show"; "wdvpn-tun0"]; ["nft"; "list"; "table"; "inet"; "sing-box"]]
  ∨ ∃ table, c = ["ip"; "route"; "show"; "table"; table] ∨ c = ["ip"; "-6"; "route"; "show"; "table"; table].
Inductive read_op {W} (host : RunHost W) : ∀ A, PyM W A → Prop :=
| read_which name : read_op host _ (sh_which (rh_sb host) name)
| read_run c : read_command c → read_op host _ (sh_run (rh_sb host) c)
| read_proc A (m : PyM W A) : look_op (rh_proc host) A m → read_op host A m
| read_exited pid : read_op host _ (rh_exited host pid).

Section status.
Context `{PyStr} {W : Type} (host : RunHost W) (R : W → W → Prop) `{!PreOrder R}.
Context (looks : ∀ A (m : PyM W A), read_op host A m → steps R m).

Lemma proc_looks A (m : PyM W A) : look_op (rh_proc host) A m → steps R m.
Proof. intros Hm. apply looks. by constructor. Qed.
Lemma look_owned prefix names : steps R (owned_processes (rh_proc host) prefix names).
Proof. apply steps_owned; [done|exact proc_looks]. Qed.
Lemma look_ports processes : steps R (observe_tcp_listener_ports (rh_proc host) processes).
Proof. apply steps_ports; [done|exact proc_looks]. Qed.

(** The driver is the same and the host moved within [R] *)
Definition looked (s s' : Driver * W) : Prop := s'.1 = s.1 ∧ R s.2 s'.2.
#[local] Instance looked_preorder : PreOrder looked.
Proof.
  split; [by intros s; split|]. intros s1 s2 s3 [H1 H2] [H3 H4]. split; [congruence|by etrans].
Qed.
Lemma looked_io {A} (m : PyM W A) : steps R m → steps looked (io m).
Proof. intros Hm [d w]. specialize (Hm w). unfold io. destruct (m w). by split. Qed.
#[local] Hint Resolve looked_io look_owned look_ports : steps.
Lemma looked_self : steps looked self.
Proof using Type*. apply steps_gets. typeclasses eauto. Qed.
#[local] Hint Resolve looked_self : steps.
Lemma looked_run c : read_command c → steps looked (run_capture_command host c).
Proof using All. intros Hc. apply looked_io, looks. by constructor. Qed.
#[local] Hint Extern 1 (steps _ (run_capture_command _ _)) =>
  apply looked_run; first [left; solve [repeat constructor] | right; eexists; solve [eauto]] : steps.
Lemma looked_which name : steps looked (which host name).
Proof using All. apply looked_io, looks. constructor. Qed.
#[local] Hint Resolve looked_which : steps.
Lemma looked_rules : steps looked (ip_rule_lines host).
Proof using All. unfold ip_rule_lines. steps_tac. Qed.
Lemma looked_table t : steps looked (route_table_looks_like_watchdogvpn host t).
Proof using All.
  assert (Ht : ∀ b, steps looked (route_table_output host t b)) by (intros []; unfold route_table_output; steps_tac).
  unfold route_table_looks_like_watchdogvpn. steps_tac.
Qed.
#[local] Hint Resolve looked_rules looked_table : steps.
Lemma looked_linked orphans lines : ∀ r, steps looked (discover_linked host orphans lines r).
Proof using All. induction lines; intros r; cbn [discover_linked]; steps_tac. Qed.
#[local] Hint Resolve looked_linked : steps.
Lemma looked_residue orphans : steps looked (discover_singbox_tun_residue host orphans).
Proof using All. unfold discover_singbox_tun_residue. steps_tac. Qed.
Lemma looked_observation : steps looked (owned_proxy_runtime_observation host).
Proof using All. unfold owned_proxy_runtime_observation. steps_tac. Qed.
Lemma looked_tun : steps looked (tun_interface_active host).
Proof using All. unfold tun_interface_active, tun_link. steps_tac. Qed.
Lemma looked_redirect : steps looked (singbox_auto_redirect_observation host).
Proof using All. unfold singbox_auto_redirect_observation. steps_tac. Qed.
#[local] Hint Resolve looked_residue looked_observation looked_tun looked_redirect : steps.

(** Reading the status changes nothing.  For every reflexive and transitive relation that the
    reading operations of the host respect (looking up a tool, the listing commands of ip and nft,
    files of /proc, signal 0, the clock), a status read of the sing-box driver stays within the
    relation whatever it returns or raises, and the driver object is unchanged: it runs no other
    command, sends no signal and writes no file. *)
Theorem status_only_observes d w : (status host (d, w)).2.1 = d ∧ R w (status host (d, w)).2.2.
Proof using All.
  assert (Hs : steps looked (status host)).
  { assert (∀ pid, steps looked (io (rh_exited host pid))) by (intros; apply looked_io, looks; constructor).
    unfold status, process_exited. steps_tac. }
  apply (Hs (d, w)).
Qed.
End status.

(** ** Sessions *)

(** What a session of the driver is: the process, the profile, when it began, its mode, and what
    has to be undone *)
Definition session (d : Driver) : option Z * option Profile * option datetime * string * bool * bool :=
  (sd_process d, sd_active_profile d, sd_connected_at d, sd_active_mode d, sd_tun_expected d, sd_fakeip_cache_flush_required d).
Definition same_session {W} (s s' : Driver * W) : Prop := session s'.1 = session s.1.
#[export] Instance same_session_preorder {W} : PreOrder (same_session (W := W)).
Proof. split; [done|]. unfold same_session. intros s1 s2 s3 H1 H2. congruence. Qed.

(** One step of a sequence, by a lemma *)
Ltac step_by t := apply steps_bind; [typeclasses eauto|exact t|].
Ltac step_ret := apply steps_ret; typeclasses eauto.

Section sessions.
Context `{PyStr} {W : Type} (host : RunHost W) (flusher : PyM W bool).
Notation R := (same_session (W := W)).

Lemma ss_io {A} (m : PyM W A) : steps R (io m).
Proof. intros [d w]. unfold io. by destruct (m w). Qed.
Lemma ss_self : steps R (self (W := W)).
Proof. apply steps_gets. typeclasses eauto. Qed.
Lemma ss_update f : (∀ d, session (f d) = session d) → steps R (update f).
Proof. intros Hf [d w]. apply Hf. Qed.

#[local] Hint Resolve ss_io ss_self : steps.
#[local] Hint Extern 1 (steps _ (update _)) => apply ss_update; intros; reflexivity : steps.

Lemma ss_paths : steps R (ensure_runtime_paths host).
Proof. unfold ensure_runtime_paths. steps_tac. Qed.
#[local] Hint Resolve ss_paths : steps.
Lemma ss_log msg : steps R (append_log host msg).
Proof. unfold append_log. steps_tac. Qed.
Lemma ss_write c : steps R (write_config host c).
Proof. unfold write_config. steps_tac. Qed.
Lemma ss_cleanup_runtime : steps R (cleanup_runtime host).
Proof. unfold cleanup_runtime. steps_tac. Qed.
Lemma ss_which name : steps R (which host name).
Proof. apply ss_io. Qed.
Lemma ss_cleanup_command c : steps R (run_cleanup_command host c).
Proof. unfold run_cleanup_command. steps_tac. Qed.
Lemma ss_capture_command c : steps R (run_capture_command host c).
Proof. apply ss_io. Qed.
#[local] Hint Resolve ss_log ss_write ss_cleanup_runtime ss_which ss_cleanup_command ss_capture_command : steps.
Lemma ss_gateway_required c : steps R (run_gateway_required host c).
Proof. unfold run_gateway_required. steps_tac. Qed.
#[local] Hint Resolve ss_gateway_required : steps.
Lemma ss_run_required cs : steps R (run_required host cs).
Proof. induction cs; cbn [run_required]; steps_tac. Qed.
Lemma ss_cleanup_gateway force : steps R (cleanup_lan_gateway host force).
Proof. unfold cleanup_lan_gateway, write_ipv4_forward, log_error. steps_tac. Qed.
#[local] Hint Resolve ss_run_required ss_cleanup_gateway : steps.
Lemma ss_apply_gateway g : steps R (apply_lan_gateway host g).
Proof. unfold apply_lan_gateway, read_ipv4_forward, write_ipv4_forward, log_error. steps_tac. Qed.
Lemma ss_rule_lines : steps R (ip_rule_lines host).
Proof. unfold ip_rule_lines. steps_tac. Qed.
Lemma ss_table t : steps R (route_table_looks_like_watchdogvpn host t).
Proof. unfold route_table_looks_like_watchdogvpn, route_table_output. steps_tac. Qed.
#[local] Hint Resolve ss_apply_gateway ss_rule_lines ss_table : steps.
Lemma ss_capture_linked lines : ∀ r, steps R (capture_linked host lines r).
Proof. induction lines; intros r; cbn [capture_linked]; steps_tac. Qed.
Lemma ss_discover_linked b lines : ∀ r, steps R (discover_linked host b lines r).
Proof. induction lines; intros r; cbn [discover_linked]; steps_tac. Qed.
#[local] Hint Resolve ss_capture_linked ss_discover_linked : steps.
Lemma ss_capture : steps R (capture_tun_cleanup_state host).
Proof. unfold capture_tun_cleanup_state. steps_tac. Qed.
Lemma ss_discover b : steps R (discover_singbox_tun_residue host b).
Proof. unfold discover_singbox_tun_residue. steps_tac. Qed.
Lemma ss_nm_state : steps R (networkmanager_state host).
Proof. unfold networkmanager_state. steps_tac. Qed.
Lemma ss_start_unit u : steps R (start_unit host u).
Proof. unfold start_unit. steps_tac. Qed.
#[local] Hint Resolve ss_capture ss_discover ss_nm_state ss_start_unit : steps.
Lemma ss_register : steps R (record_networkmanager_tun_connection host).
Proof. unfold record_networkmanager_tun_connection. steps_tac. Qed.
Lemma ss_forget : steps R (forget_networkmanager_tun_connection host).
Proof. unfold forget_networkmanager_tun_connection, delete_tun_link. steps_tac. Qed.
Lemma ss_run_each cs : steps R (run_each host cs).
Proof. induction cs; cbn [run_each]; steps_tac. Qed.
#[local] Hint Resolve ss_register ss_forget ss_run_each : steps.
Lemma ss_cleanup_residue : steps R (cleanup_tun_residue host).
Proof. unfold cleanup_tun_residue, clear_tun_cleanup_state. steps_tac. Qed.
Lemma ss_clear : steps R (clear_tun_cleanup_state (W := W)).
Proof. unfold clear_tun_cleanup_state. steps_tac. Qed.
Lemma ss_process_exited p : steps R (process_exited host p).
Proof. unfold process_exited. steps_tac. Qed.
#[local] Hint Resolve ss_cleanup_residue ss_clear ss_process_exited : steps.
Lemma ss_wait check : steps R check → steps R (wait_3s host check).
Proof.
  intros Hc. unfold wait_3s. apply steps_bind; [typeclasses eauto|apply ss_io|]. intros now.
  apply steps_wait_until; [typeclasses eauto| |done]. intros A m []; apply ss_io.
Qed.
Lemma ss_port a p : steps R (port_open host a p).
Proof. unfold port_open. steps_tac. Qed.
Lemma ss_tun : steps R (tun_interface_active host).
Proof. unfold tun_interface_active, tun_link. steps_tac. Qed.
Lemma ss_redirect : steps R (singbox_auto_redirect_observation host).
Proof. unfold singbox_auto_redirect_observation. steps_tac. Qed.
Lemma ss_observation : steps R (owned_proxy_runtime_observation host).
Proof. unfold owned_proxy_runtime_observation. steps_tac. Qed.
#[local] Hint Resolve ss_port ss_tun ss_redirect ss_observation : steps.
Lemma ss_egress : steps R (owned_proxy_egress_ready host).
Proof. unfold owned_proxy_egress_ready. steps_tac. Qed.
Lemma ss_proxy_port : steps R (wait_for_proxy_port host).
Proof. unfold wait_for_proxy_port. apply ss_wait. steps_tac. Qed.
Lemma ss_wait_tun : steps R (wait_for_tun_interface host).
Proof. unfold wait_for_tun_interface. apply ss_wait. steps_tac. Qed.
Lemma ss_wait_redirect : steps R (wait_for_tun_auto_redirect_ready host).
Proof. unfold wait_for_tun_auto_redirect_ready. apply ss_wait. steps_tac. Qed.
Lemma ss_health : steps R (health_check host).
Proof.
  unfold health_check. step_by ss_self. intros d. step_by (ss_process_exited (sd_process d)). intros []; [step_ret|].
  step_by ss_proxy_port. intros []; cbn [negb]; [|step_by (ss_log ("health_check: local proxy ports are not responding" +:+ nl)); intros; step_ret].
  step_by ss_egress. intros []; cbn [negb]; [|step_ret]. step_by ss_self. intros d'. destruct (negb (sd_tun_expected d')); [step_ret|].
  step_by ss_wait_tun. intros []; cbn [negb]; [|step_by (ss_log ("health_check: TUN interface is not active" +:+ nl)); intros; step_ret].
  step_by ss_wait_redirect. intros []; cbn [negb]; [step_ret|].
  step_by (ss_log ("health_check: TUN auto_redirect nftables state is not ready" +:+ nl)). intros; step_ret.
Qed.

(** ** Disconnect *)
Definition idle (d : Driver) : Prop := sd_process d = None ∧ sd_active_profile d = None ∧ sd_connected_at d = None ∧ sd_tun_expected d = false.
Lemma idle_same (s s' : Driver * W) : R s s' → idle s.1 → idle s'.1.
Proof. unfold same_session, session, idle. intros [= -> -> -> _ -> _]. done. Qed.

Lemma finally_ok {S A B} (m : PyM S A) (f : PyM S B) s a b s' :
  try_finally_with m f s = (Ok (a, b), s') → ∃ s1, m s = (Ok a, s1) ∧ f s1 = (Ok b, s').
Proof.
  unfold try_finally_with. destruct (m s) as [r s1]. destruct (f s1) as [[y|e] s2] eqn:E; [|done].
  destruct r as [x|e]; cbn; [|done]. intros [= -> -> ->]. eauto.
Qed.

(** The outcome of a disconnect that returned *)
Lemma disconnect_inv s b s' :
  disconnect host flusher s = (Ok b, s') →
  idle s'.1 ∧ (sd_process s.1 = None → sd_tun_expected s.1 = false → b = true).
Proof.
  unfold disconnect. intros H1. bind_inv H1 d s1 H2. injection H2 as <- <-. cbv zeta in H1. bind_inv H1 u s2 H3.
  bind_inv H1 u2 s3 H4. injection H4 as _ <-. bind_inv H1 outcome s4 H5. destruct outcome as [stopped ok].
  apply finally_ok in H5 as (s5 & H5 & H6).
  assert (Hi : idle s5.1).
  { pose proof (ss_io (stop_process host (sd_process s.1)) (set_session None None None "global" false (sd_fakeip_cache_flush_required s2.1) s2.1, s2.2)) as Hs.
    rewrite H5 in Hs. by eapply idle_same; [exact Hs|]. }
  assert (Hi4 : idle s4.1).
  { set (fin := mbind _ _) in H6. assert (Hf : steps R fin).
    { unfold fin. step_by (ss_cleanup_gateway false). intros _. step_by (ss_process_exited (sd_process s.1)). intros g.
      apply steps_bind; [typeclasses eauto| |]. { destruct (_ && g); [apply ss_cleanup_residue|step_ret]. }
      intros ok'. apply steps_bind; [typeclasses eauto|apply ss_io|]. intros _. step_by ss_cleanup_runtime. intros; step_ret. }
    specialize (Hf s5). rewrite H6 in Hf. by eapply idle_same. }
  assert (Hok : sd_process s.1 = None → sd_tun_expected s.1 = false → stopped = true ∧ ok = true).
  { intros Hp Ht. rewrite Hp in H5. split; [by destruct s2; injection H5 as <- _|].
    bind_inv H6 u6 s6 H7. bind_inv H6 g s7 H8. bind_inv H6 ok' s8 H9. rewrite Ht in H9. apply ret_ok_inv in H9 as [<- _].
    bind_inv H6 u7 s9 H10. bind_inv H6 u8 s10 H11. by apply ret_ok_inv in H6 as [<- _]. }
  destruct stopped; cbn [negb] in H1.
  - bind_inv H1 u3 s11 H7. apply ret_ok_inv in H1 as [<- <-]. split; [|naive_solver].
    destruct (sd_fakeip_cache_flush_required s.1); [|by apply ret_ok_inv in H7 as [_ <-]].
    bind_inv H7 flushed s12 H8. pose proof (ss_io flusher s4) as Hf. rewrite H8 in Hf. pose proof (idle_same _ _ Hf Hi4) as Hi12.
    destruct flushed; cbn [negb] in H7; injection H7 as _ <-; exact Hi12.
  - apply ret_ok_inv in H1 as [<- <-]. split; [done|]. intros Hp Ht. by destruct (Hok Hp Ht).
Qed.

(** A failed disconnect is reported once.  Whatever the host does, when a disconnect of the
    sing-box driver returns false, because the process did not end or because the TUN rules and the
    NetworkManager profile could not be removed, the next disconnect that returns, returns true: the
    driver has dropped the process and no longer expects a TUN. *)
Theorem failed_disconnect_forgotten s s1 b s2 :
  disconnect host flusher s = (Ok false, s1) → disconnect host flusher s1 = (Ok b, s2) → b = true.
Proof. intros H1 H2. destruct (disconnect_inv _ _ _ H1) as [(Hp & _ & _ & Ht) _]. by apply (proj2 (disconnect_inv _ _ _ H2)). Qed.
End sessions.

(** ** Connect *)
Section connect.
Context `{PyStr, PyRegex} {W : Type} (host : RunHost W) (flusher : PyM W bool).
Notation R := (same_session (W := W)).
Notation h := (lift_sb (rh_sb host)).

Lemma gs_which name : steps R (sh_which h name).
Proof. apply ss_io. Qed.
Lemma gs_run c : steps R (sh_run h c).
Proof. apply ss_io. Qed.
#[local] Hint Resolve gs_which gs_run : steps.
Lemma gs_default : steps R (detect_default_interface h).
Proof. unfold detect_default_interface. steps_tac. Qed.
Lemma gs_peers : steps R (active_ssh_management_peers h).
Proof. unfold active_ssh_management_peers. steps_tac. Qed.
Lemma gs_interfaces peers : steps R (peer_interfaces h peers).
Proof. induction peers; cbn [peer_interfaces]; steps_tac. Qed.
#[local] Hint Resolve gs_default gs_peers gs_interfaces : steps.
Lemma gs_management : steps R (detect_management_peer_interface h).
Proof. unfold detect_management_peer_interface. steps_tac. Qed.
#[local] Hint Resolve gs_management : steps.
Lemma gs_bind p : steps R (outbound_bind_interface h p).
Proof. unfold outbound_bind_interface. steps_tac. Qed.
#[local] Hint Resolve gs_bind : steps.
Lemma gs_target p tag c : steps R (profile_to_route_target h p tag c).
Proof. unfold profile_to_route_target, apply_dialer_options. steps_tac. Qed.
#[local] Hint Resolve gs_target : steps.
Lemma gs_hops hops : ∀ previous c, steps R (chain_hops h hops previous c).
Proof. induction hops; intros previous c; cbn [chain_hops]; steps_tac. Qed.
#[local] Hint Resolve gs_hops : steps.
Lemma gs_chains plans : ∀ c, steps R (append_chain_outbounds h plans c).
Proof. induction plans; intros c; cbn [append_chain_outbounds]; steps_tac. Qed.
Lemma gs_direct o p : steps R (direct_bind h o p).
Proof. unfold direct_bind. steps_tac. Qed.
#[local] Hint Resolve gs_chains gs_direct : steps.
Lemma gs_dns cache p policy o allow t c : steps R (add_dns h cache p policy o allow t c).
Proof. unfold add_dns. steps_tac. Qed.
#[local] Hint Resolve gs_dns ss_write : steps.
Lemma ss_generate p policy o : steps R (generate_singbox_config h (rh_cache_path host) (write_config host) p policy o).
Proof. unfold generate_singbox_config. steps_tac. Qed.

Lemma same_final {A} (m : PyM (Driver * W) A) s r s' : steps R m → m s = (r, s') → session s'.1 = session s.1.
Proof. intros Hm Hs. specialize (Hm s). rewrite Hs in Hm. exact Hm. Qed.

Lemma abandon_inv error s b s' : abandon host flusher error s = (Ok b, s') → b = false ∧ idle s'.1.
Proof.
  unfold abandon. intros H1. bind_inv H1 u1 s1 H2. bind_inv H1 u2 s2 H3. bind_inv H1 ok s3 H4. apply ret_ok_inv in H1 as [<- <-].
  split; [done|]. by apply disconnect_inv in H4 as [H4 _].
Qed.
Lemma apply_gateway_inv g s s' : apply_lan_gateway host g s = (Ok true, s') → sd_lan_gateway_active s'.1 = Some g.
Proof.
  unfold apply_lan_gateway. intros H1. bind_inv H1 d s1 H2. destruct (negb (lg_firewall_managed g)); [by bind_inv H1 u s2 H3|].
  destruct (negb (String.eqb _ _)); [by bind_inv H1 u s2 H3|]. destruct (negb (sd_tun_expected d)); [by bind_inv H1 u s2 H3|].
  bind_inv H1 nft s3 H3. destruct (negb nft); [by bind_inv H1 u s4 H4|]. bind_inv H1 u s4 H4. bind_inv H1 read s5 H5.
  destruct (negb read); [done|]. bind_inv H1 ok s6 H6. destruct (negb ok); [by bind_inv H1 u2 s7 H7|]. bind_inv H1 written s7 H7.
  destruct (negb written); [done|]. bind_inv H1 u3 s8 H8. apply ret_ok_inv in H1 as [_ <-]. by injection H8 as _ <-.
Qed.

(** A driver that is connected *)
Definition live (profile : Profile) (mode : string) (tun : bool) (d : Driver) : Prop :=
  is_Some (sd_process d) ∧ sd_active_profile d = Some profile ∧ is_Some (sd_connected_at d) ∧ sd_active_mode d = mode ∧ sd_tun_expected d = tun.
Lemma activate_inv gateway s b s' profile :
  activate host flusher gateway s = (Ok b, s') → is_Some (sd_process s.1) → sd_active_profile s.1 = Some profile →
  if b then live profile (sd_active_mode s.1) (sd_tun_expected s.1) s'.1 ∧ (∀ g, gateway = Some g → sd_lan_gateway_active s'.1 = Some g)
  else idle s'.1.
Proof.
  unfold activate. intros H1 Hp Ha. bind_inv H1 d s1 H2. injection H2 as <- <-. bind_inv H1 registered s2 H3.
  assert (S2 : session s2.1 = session s.1).
  { eapply same_final; [|exact H3]. destruct (sd_tun_expected s.1); [step_by (ss_capture host); intros; apply ss_register|step_ret]. }
  destruct registered; cbn [negb] in H1; [|by apply abandon_inv in H1 as [-> H1]].
  bind_inv H1 flushed s3 H4. assert (S3 : session s3.1 = session s.1).
  { rewrite <- S2. eapply same_final; [|exact H4]. destruct (sd_fakeip_cache_flush_required s.1); [apply ss_io|step_ret]. }
  destruct flushed; cbn [negb] in H1; [|by apply abandon_inv in H1 as [-> H1]].
  bind_inv H1 applied s4 H5. assert (S4 : session s4.1 = session s.1).
  { rewrite <- S3. eapply same_final; [|exact H5]. destruct gateway; [apply ss_apply_gateway|step_ret]. }
  destruct applied; cbn [negb] in H1; [|by apply abandon_inv in H1 as [-> H1]].
  bind_inv H1 now s5 H6. bind_inv H1 u s6 H7. apply ret_ok_inv in H1 as [<- <-]. injection H7 as _ <-.
  assert (S5 : session s5.1 = session s.1). { rewrite <- S4. eapply same_final; [|exact H6]. apply ss_io. }
  split.
  - injection S5 as E1 E2 _ E4 E5 _. unfold live. cbn. rewrite E1, E2, E4, E5. eauto.
  - intros g ->. apply apply_gateway_inv in H5. cbn. unfold io in H6. destruct s4 as [d4 w4]. destruct (rh_utcnow host w4) as [r w5].
    injection H6 as _ <-. exact H5.
Qed.
Lemma launch_inv binary profile o tun flush s u s' :
  launch host binary profile o tun flush s = (Ok u, s') →
  is_Some (sd_process s'.1) ∧ sd_active_profile s'.1 = Some profile ∧ sd_active_mode s'.1 = g_mode o ∧ sd_tun_expected s'.1 = tun.
Proof.
  unfold launch. intros H1. bind_inv H1 paths s1 H2. bind_inv H1 u1 s2 H3. bind_inv H1 pid s3 H4. bind_inv H1 u2 s4 H5. injection H5 as _ <-.
  bind_inv H1 d s5 H6. injection H6 as <- <-. bind_inv H1 u3 s6 H7. apply same_final in H7; [|apply ss_io].
  injection H1 as _ <-. cbn. split; [|done]. injection H7 as -> _. cbn. eauto.
Qed.

(** C15: A connect succeeds completely or leaves nothing behind.  Whatever the host does, a connect
    that returns true has a process, the profile, the mode and the TUN expectation that were asked
    for, the time of the connection, and the LAN gateway when one was asked for.  A connect that
    returns false either changed nothing of the session, or the driver is idle, without a process,
    a profile or an expected TUN. *)
Theorem singbox_connect_outcome profile policy o peers gateway s b s' :
  connect host flusher profile policy o peers gateway s = (Ok b, s') →
  if b then live profile (g_mode o) (mode_requires_tun (g_mode o) (g_capture_modes o)) s'.1
            ∧ (∀ g, gateway = Some g → sd_lan_gateway_active s'.1 = Some g)
  else session s'.1 = session s.1 ∨ idle s'.1.
Proof.
  unfold connect. intros H1. bind_inv H1 u s1 H2. injection H2 as _ <-. cbv zeta in H1. bind_inv H1 found s2 H3.
  assert (S2 : session s2.1 = session s.1).
  { assert (Hp : steps R (management_peers_of host profile peers o)).
    { unfold management_peers_of. destruct peers; [step_ret|]. apply steps_try; [typeclasses eauto| |].
      - step_by (ss_io (preflight_management_path (rh_sb host) profile (g_mode o) (g_capture_modes o))). intros; step_ret.
      - intros e. step_by (ss_update (W := W) (set_error (exn_message e)) (fun _ => eq_refl)). intros; step_ret. }
    by apply (same_final _ _ _ _ Hp) in H3. }
  destruct found as [found|]; [|apply ret_ok_inv in H1 as [<- <-]; by left].
  bind_inv H1 free s3 H4. assert (S3 : session s3.1 = session s.1 ∨ idle s3.1).
  { unfold ensure_disconnected_before_connect in H4. bind_inv H4 d sx Hx. injection Hx as <- <-. destruct (sd_process s2.1).
    - right. by apply disconnect_inv in H4 as [H4 _].
    - apply ret_ok_inv in H4 as [_ <-]. by left. }
  destruct free; cbn [negb] in H1; [|bind_inv H1 u2 s4 H5; apply ret_ok_inv in H1 as [<- <-]; injection H5 as _ <-; exact S3].
  bind_inv H1 binary s4 H5. assert (S4 : session s4.1 = session s.1 ∨ idle s4.1).
  { pose proof (same_final _ _ _ _ (ss_io _) H5) as E. destruct S3 as [S3|S3]; [left; congruence|right; by eapply idle_same]. }
  destruct binary as [[|c binary]|]; try (apply ret_ok_inv in H1 as [<- <-]; exact S4).
  bind_inv H1 u2 s5 H6. bind_inv H1 u3 s6 H7. bind_inv H1 cfg s7 H8. bind_inv H1 u4 s8 H9. apply launch_inv in H9 as (L1 & L2 & L3 & L4).
  bind_inv H1 d s9 H10. injection H10 as <- <-. bind_inv H1 gone s10 H11. bind_inv H1 health s11 H12.
  assert (S11 : session s11.1 = session s8.1).
  { rewrite <- (same_final _ _ _ _ (ss_process_exited host _) H11). eapply same_final; [|exact H12]. destruct gone; [step_ret|apply ss_health]. }
  destruct (String.eqb health "ok").
  - injection S11 as E1 E2 _ E4 E5 _. eapply activate_inv in H1; [|by rewrite E1|by rewrite E2].
    rewrite E4, E5, L3, L4 in H1. destruct b; [done|by right].
  - bind_inv H1 u5 s12 H13. bind_inv H1 d' s13 H14. bind_inv H1 u6 s14 H15. bind_inv H1 ok s15 H16. apply ret_ok_inv in H1 as [<- <-].
    right. by apply disconnect_inv in H16 as [H16 _].
Qed.
End connect.

(** ** IP forwarding *)

(** The calls that matter to the gateway: commands with whether they succeeded, and reads and writes
    of the forwarding switch *)
Inductive gw_event : Type :=
| GRun (command : list string) (ok : bool)
| GRead (text : option string)
| GWrite (value : string) (ok : bool).

Definition succeeded (r : res completed) : bool := match r with Ok c => (cp_returncode c =? 0)%Z | Err _ => false end.
Definition is_ok {A} (r : res A) : bool := match r with Ok _ => true | Err _ => false end.
Definition res_option {A} (r : res A) : option A := match r with Ok a => Some a | Err _ => None end.

Definition gw_watched {W} (host : RunHost W) : RunHost (W * list gw_event) := {|
  rh_sb := {| sh_environ := sh_environ (rh_sb host); sh_which := fun name => unlogged (sh_which (rh_sb host) name);
              sh_run := fun c => logged (fun r => GRun c (succeeded r)) (sh_run (rh_sb host) c) |};
  rh_proc := proc_lift (fun _ => unlogged) (rh_proc host); rh_binaries := rh_binaries host;
  rh_access_x := fun p => unlogged (rh_access_x host p); rh_which_path := fun p => unlogged (rh_which_path host p);
  rh_run_timeout := fun c t => unlogged (rh_run_timeout host c t); rh_open_log := fun p => unlogged (rh_open_log host p);
  rh_popen := fun c => unlogged (rh_popen host c); rh_exited := fun p => unlogged (rh_exited host p);
  rh_terminate := fun p => unlogged (rh_terminate host p); rh_kill_child := fun p => unlogged (rh_kill_child host p);
  rh_wait := fun p t => unlogged (rh_wait host p t); rh_append := fun p t => unlogged (rh_append host p t);
  rh_read_forward := logged (fun r => GRead (res_option r)) (rh_read_forward host);
  rh_write_forward := fun v => logged (fun r => GWrite v (is_ok r)) (rh_write_forward host v);
  rh_remove_dir := fun p => unlogged (rh_remove_dir host p); rh_connect_tcp := fun a p => unlogged (rh_connect_tcp host a p);
  rh_utcnow := unlogged (rh_utcnow host); rh_render := rh_render host; rh_cache_path := rh_cache_path host |}.

Lemma bind_eval {S A B} (m : PyM S A) (f : A → PyM S B) s :
  (m ≫= f) s = match m s with (Ok a, s1) => f a s1 | (Err e, s1) => (Err e, s1) end.
Proof. done. Qed.

Section forwarding.
Context `{PyStr} {W : Type} (host : RunHost W).
Notation h := (gw_watched host).
Notation ST := (Driver * (W * list gw_event))%type.
Definition glog (s : ST) : list gw_event := s.2.2.
Definition gateway_of (d : Driver) : option LANGatewayRuntimeConfig * option string := (sd_lan_gateway_active d, sd_lan_gateway_ip_forward_snapshot d).

(** Nothing of the gateway happened *)
Definition aside (s s' : ST) : Prop := glog s' = glog s ∧ gateway_of s'.1 = gateway_of s.1.
#[local] Instance aside_preorder : PreOrder aside.
Proof. split; [done|]. intros s1 s2 s3 [H1 H2] [H3 H4]. split; congruence. Qed.
Lemma aside_quiet {A} (m : PyM W A) : steps aside (io (unlogged m)).
Proof. intros [d [w l]]. unfold io, unlogged. by destruct (m w). Qed.
Lemma aside_update f : (∀ d, gateway_of (f d) = gateway_of d) → steps aside (update f).
Proof. intros Hf [d w]. by split; [|apply Hf]. Qed.
Lemma aside_self : steps aside (self (W := W * list gw_event)).
Proof. apply steps_gets. typeclasses eauto. Qed.
(** A computation of the host below whose calls are all quiet *)
Definition lies_quiet {A} (m : PyM (W * list gw_event) A) : Prop := ∀ w l, (m (w, l)).2.2 = l.
Lemma aside_io {A} (m : PyM (W * list gw_event) A) : lies_quiet m → steps aside (io m).
Proof. intros Hm [d [w l]]. specialize (Hm w l). unfold io. destruct (m (w, l)) as [r [w' l']]. by split. Qed.

Lemma quiet_ops A (m : PyM (W * list gw_event) A) : host_op (rh_proc h) A m → steps same_log m.
Proof. intros []; try apply unlogged_steps. apply steps_lift. typeclasses eauto. Qed.
Lemma quiet_make_dir prefix : steps same_log (make_runtime_dir (rh_proc h) prefix).
Proof. apply ops_make_dir; [typeclasses eauto|apply quiet_ops]. Qed.
Lemma aside_paths : steps aside (ensure_runtime_paths h).
Proof.
  unfold ensure_runtime_paths. step_by aside_self. intros d. apply steps_bind; [typeclasses eauto| |intros; step_ret].
  destruct (sd_runtime_dir d); [step_ret|]. apply steps_bind; [typeclasses eauto| |].
  - apply aside_io. intros w l. apply (quiet_make_dir RUNTIME_PREFIX (w, l)).
  - intros dir. step_by (aside_update (set_runtime_dir (Some dir)) (fun _ => eq_refl)). intros; step_ret.
Qed.
Lemma aside_log msg : steps aside (append_log h msg).
Proof. unfold append_log. step_by aside_paths. intros paths. apply aside_quiet. Qed.
Lemma aside_which name : steps aside (which h name).
Proof. apply aside_quiet. Qed.

(** Only writes that give the switch back one of the values [olds] succeed *)
Definition gives_back (olds : list string) (e : gw_event) : Prop :=
  match e with GWrite v true => ∃ old, old ∈ olds ∧ v = old +:+ nl | GRead _ => False | _ => True end.
Definition restores (olds : list string) (s s' : ST) : Prop := ∃ new, glog s' = new ++ glog s ∧ Forall (gives_back olds) new.
#[local] Instance restores_preorder olds : PreOrder (restores olds).
Proof.
  split; [by exists []|]. intros s1 s2 s3 (n1 & E1 & F1) (n2 & E2 & F2). exists (n2 ++ n1). rewrite E2, E1, app_assoc.
  split; [done|]. by apply Forall_app.
Qed.
Lemma aside_restores olds {A} (m : PyM ST A) : steps aside m → steps (restores olds) m.
Proof. intros Hm s. destruct (Hm s) as [Hl _]. by exists []. Qed.
Lemma noted_restores olds {A} ev (m : PyM W A) : (∀ r, gives_back olds (ev r)) → steps (restores olds) (io (logged ev m)).
Proof. intros He [d [w l]]. unfold io, logged. destruct (m w) as [r w']. exists [ev r]. split; [done|]. by constructor. Qed.
Lemma update_restores olds f : steps (restores olds) (update f).
Proof. intros [d w]. by exists []. Qed.

Lemma gives_back_none olds e : gives_back [] e → gives_back olds e.
Proof. destruct e as [| |v []]; try done. intros (old & Ho & _). by apply not_elem_of_nil in Ho. Qed.
Lemma required_cases c s :
  restores [] s (run_gateway_required h c s).2
  ∧ ∀ s', run_gateway_required h c s = (Ok true, s') → glog s' = GRun c true :: glog s ∧ gateway_of s'.1 = gateway_of s.1.
Proof.
  split.
  - assert (Hs : steps (restores []) (run_gateway_required h c)); [|apply Hs].
    unfold run_gateway_required. apply steps_bind; [typeclasses eauto|by apply noted_restores|]. intros r.
    destruct (cp_returncode r =? 0)%Z; [step_ret|]. apply steps_bind; [typeclasses eauto|apply aside_restores, aside_log|intros; step_ret].
  - intros s' H1. unfold run_gateway_required in H1. bind_inv H1 r s1 H2. destruct s as [d [w l]].
    cbn in H2. unfold logged in H2. destruct (sh_run (rh_sb host) c w) as [r0 w']. injection H2 as -> <-.
    destruct (cp_returncode r =? 0)%Z eqn:Er; [|by bind_inv H1 u s2 H3]. apply ret_ok_inv in H1 as [_ <-]. cbn. by rewrite Er.
Qed.
Lemma run_required_cases cs : ∀ s,
  restores [] s (run_required h cs s).2
  ∧ ∀ s', run_required h cs s = (Ok true, s') →
      glog s' = rev (map (fun c => GRun c true) cs) ++ glog s ∧ gateway_of s'.1 = gateway_of s.1.
Proof.
  induction cs as [|c cs IH]; intros s; cbn [run_required].
  { split; [reflexivity|]. intros s' [= <-]. done. }
  destruct (required_cases c s) as [H1 H2]. rewrite bind_eval.
  destruct (run_gateway_required h c s) as [[[]|e] s1]; [|by split|by split]. destruct (IH s1) as [H3 H4]. split; [by etrans|].
  intros s' Hs'. destruct (H4 s' Hs') as [H5 H6]. destruct (H2 s1 eq_refl) as [H7 H8].
  rewrite H5, H6, H7, H8. split; [|done]. cbn. by rewrite <- app_assoc.
Qed.

Lemma run_required_gateway cs : ∀ s, gateway_of (run_required h cs s).2.1 = gateway_of s.1.
Proof.
  induction cs as [|c cs IH]; intros s; cbn [run_required]; [done|]. rewrite bind_eval.
  assert (Hc : gateway_of (run_gateway_required h c s).2.1 = gateway_of s.1).
  { unfold run_gateway_required. destruct s as [d [w l]]. rewrite bind_eval. cbn [io rh_sb gw_watched sh_run logged].
    destruct (sh_run (rh_sb host) c w) as [[x|e] w']; [|done]. destruct (cp_returncode x =? 0)%Z; [done|]. rewrite bind_eval.
    set (s1 := (d, (w', _))). match goal with |- context [append_log h ?m s1] => pose proof (aside_log m s1) as [_ Ha]; destruct (append_log h m s1) as [[]] end; exact Ha. }
  destruct (run_gateway_required h c s) as [[[]|e] s1]; cbn [fst snd] in *; [|done|done]. by rewrite IH.
Qed.

(** The write of a value: what is left when it does not succeed is an exception *)
Lemma write_cases v s r s' : write_ipv4_forward h v s = (r, s') →
  ∃ ok, glog s' = GWrite (v +:+ nl) ok :: glog s ∧ s'.1 = s.1 ∧ (r = Ok tt ↔ ok = true).
Proof.
  unfold write_ipv4_forward, try_except. destruct s as [d [w l]]. cbn. unfold logged.
  destruct (rh_write_forward host (v +:+ nl) w) as [[[]|e] w']; cbn.
  - intros [= <- <-]. exists true. done.
  - destruct (os_error e); cbn; intros [= <- <-]; exists false; done.
Qed.
Definition snapshot_of (s : ST) : list string := option_list (sd_lan_gateway_ip_forward_snapshot s.1).

Lemma cleanup_cases force s :
  restores (snapshot_of s) s (cleanup_lan_gateway h force s).2
  ∧ ∀ u s', cleanup_lan_gateway h force s = (Ok u, s') →
      gateway_of s'.1 = (None, None)
      ∧ ∀ v, sd_lan_gateway_ip_forward_snapshot s.1 = Some v → ∃ ok l, glog s' = GWrite (v +:+ nl) ok :: l ++ glog s.
Proof.
  unfold cleanup_lan_gateway. rewrite bind_eval. cbn [self gets].
  destruct (negb _ && negb force) eqn:Eg.
  { split; [reflexivity|]. intros u s' [= _ <-]. unfold gateway_of.
    destruct (sd_lan_gateway_active s.1), (sd_lan_gateway_ip_forward_snapshot s.1); done. }
  rewrite bind_eval. pose proof (aside_which "nft" s) as [L1 G1].
  destruct (which h "nft" s) as [[nft|e] s1]; cbn [fst snd] in L1, G1; [|split; [by exists []|done]].
  assert (Hdel : steps (restores []) (if nft then run_cleanup_command h gateway_delete else mret tt)).
  { destruct nft; [|step_ret]. unfold run_cleanup_command. apply steps_bind; [typeclasses eauto|by apply noted_restores|intros; step_ret]. }
  rewrite bind_eval. destruct (Hdel s1) as (del & L2 & F2).
  assert (Hd : ∀ x s2, (if nft then run_cleanup_command h gateway_delete else mret tt) s1 = (x, s2) → s2.1 = s1.1).
  { intros x s2. destruct nft; [|by intros [= _ <-]]. unfold run_cleanup_command, mbind, pym_bind. cbn. destruct s1 as [d [w l]]. cbn. unfold logged.
    destruct (sh_run _ _ w) as [[?|?] ?]; by intros [= _ <-]. }
  set (del_m := if nft then run_cleanup_command h gateway_delete else mret tt) in *. destruct (del_m s1) as [[u1|e] s2] eqn:E2; cbn [fst snd] in L2; specialize (Hd _ _ eq_refl).
  2:{ split; [|done]. cbn [fst snd]. exists del. rewrite L2, L1. split; [done|]. eapply Forall_impl; [exact F2|]. apply gives_back_none. }
  assert (F2' : Forall (gives_back (snapshot_of s)) del). { eapply Forall_impl; [exact F2|]. apply gives_back_none. }
  destruct (sd_lan_gateway_ip_forward_snapshot s.1) as [v|] eqn:Es.
  - rewrite bind_eval. unfold try_except. destruct (write_ipv4_forward h v s2) as [r s3] eqn:E3.
    apply write_cases in E3 as (ok & L3 & D3 & Hok).
    assert (Hw : restores (snapshot_of s) s s3).
    { exists (GWrite (v +:+ nl) ok :: del). rewrite L3, L2, L1. split; [done|]. constructor; [|done]. destruct ok; [|done]. cbn.
      exists v. split; [|done]. unfold snapshot_of. rewrite Es. left. }
    destruct r as [[]|e].
    + cbn [fst snd update modifyS]. split; [exact Hw|]. intros u s' [= _ <-]. split; [done|]. intros v' [= <-]. exists ok, del. unfold glog in *. cbn [fst snd]. by rewrite L3, L2, L1.
    + destruct (runtime_error e); [|by split]. pose proof (aside_log (exn_message e +:+ nl) s3) as [L4 G4]. unfold log_error.
      destruct (append_log h _ s3) as [[[]|e'] s4]; cbn [fst snd update modifyS] in L4 |- *.
      * split; [etrans; [exact Hw|by exists []]|]. intros u s' [= _ <-]. split; [done|]. intros v' [= <-]. exists ok, del. unfold glog in *. cbn. by rewrite L4, L3, L2, L1.
      * split; [|done]. etrans; [exact Hw|]. by exists [].
  - rewrite bind_eval. cbn [mret pym_ret fst snd update modifyS]. split; [exists del; unfold glog in *; cbn [fst snd]; rewrite L2, L1; done|]. intros u s' [= _ <-]. done.
Qed.

Lemma read_cases s r s' :
  try_except (v ← read_ipv4_forward h; _ ← update (fun d => set_gateway (sd_lan_gateway_active d) (Some v) d); mret true)
    runtime_error (fun e => _ ← log_error h e; mret false) s = (r, s') →
  (r = Ok true ∧ ∃ raw, glog s' = GRead (Some raw) :: glog s ∧ gateway_of s'.1 = (sd_lan_gateway_active s.1, Some (strip raw)))
  ∨ (r ≠ Ok true ∧ glog s' = GRead None :: glog s).
Proof.
  unfold read_ipv4_forward. destruct s as [d [w l]]. unfold try_except at 1. rewrite bind_eval. unfold try_except at 1. rewrite bind_eval.
  cbn [io rh_read_forward gw_watched logged]. destruct (rh_read_forward host w) as [[raw|e] w'].
  - cbn. intros [= <- <-]. left. split; [done|]. by exists raw.
  - cbn [res_option]. destruct (os_error e) eqn:Eo; cbn [raiseM liftR raise runtime_error].
    + change (runtime_error (Exn RuntimeError _)) with true. cbn iota. unfold log_error. rewrite bind_eval. set (s1 := (d, (w', _))).
      destruct (aside_log (exn_message (Exn RuntimeError "lan_gateway: cannot read net.ipv4.ip_forward") +:+ nl) s1) as [L _].
      destruct (append_log h _ s1) as [[u|e'] s2]; intros [= <- <-]; right; (split; [done|]); exact L.
    + destruct (runtime_error e); [|intros [= <- <-]; by right].
      unfold log_error. rewrite bind_eval. set (s1 := (d, (w', _))). destruct (aside_log (exn_message e +:+ nl) s1) as [L _].
      destruct (append_log h _ s1) as [[u|e'] s2]; intros [= <- <-]; right; (split; [done|]); exact L.
Qed.

(** What a run of [apply_lan_gateway] may have written to the forwarding switch *)
Definition only_gives_back (s : ST) (new : list gw_event) : Prop :=
  ∀ v, GWrite v true ∈ new → ∃ old, v = old +:+ nl ∧ (sd_lan_gateway_ip_forward_snapshot s.1 = Some old ∨ ∃ raw, GRead (Some raw) ∈ new ∧ old = strip raw).
Definition forwarding_on (g : LANGatewayRuntimeConfig) (s s' : ST) : Prop :=
  ∃ raw before, glog s' = GWrite ("1" +:+ nl) true :: rev (map (fun c => GRun c true) (gateway_commands g)) ++ GRead (Some raw) :: before ++ glog s
    ∧ only_gives_back s before ∧ sd_lan_gateway_active s'.1 = Some g ∧ sd_lan_gateway_ip_forward_snapshot s'.1 = Some (strip raw).
Definition forwarding_off (r : res bool) (s s' : ST) : Prop :=
  ∃ new, glog s' = new ++ glog s ∧ only_gives_back s new
    ∧ ∀ raw, GRead (Some raw) ∈ new → r = Ok false → ∃ ok rest, new = GWrite (strip raw +:+ nl) ok :: rest.

Lemma off_aside r s s' : glog s' = glog s → forwarding_off r s s'.
Proof. intros Hl. exists []. split; [done|]. split; intros ? Hx; by apply not_elem_of_nil in Hx. Qed.
Lemma restores_snapshot s s' : restores (snapshot_of s) s s' →
  ∃ new, glog s' = new ++ glog s ∧ (∀ t, GRead t ∉ new)
    ∧ (∀ v, GWrite v true ∈ new → ∃ old, v = old +:+ nl ∧ sd_lan_gateway_ip_forward_snapshot s.1 = Some old).
Proof.
  intros (new & Hn & Hf). exists new. split; [done|]. rewrite Forall_forall in Hf. split; [intros t Ht; by apply (Hf _ Ht)|].
  intros v Hv. destruct (Hf _ Hv) as (old & Ho & ->).
  exists old. split; [done|]. unfold snapshot_of in Ho. destruct (sd_lan_gateway_ip_forward_snapshot s.1); [|by apply not_elem_of_nil in Ho].
  by apply list_elem_of_singleton in Ho as ->.
Qed.
Lemma restores_none s s' : restores [] s s' → ∃ new, glog s' = new ++ glog s ∧ (∀ t, GRead t ∉ new) ∧ ∀ v, GWrite v true ∉ new.
Proof.
  intros (new & Hn & Hf). exists new. rewrite Forall_forall in Hf. split; [done|]. split; [intros t Ht; by apply (Hf _ Ht)|].
  intros v Hv. destruct (Hf _ Hv) as (old & Ho & _). by apply not_elem_of_nil in Ho.
Qed.

(** After the value was read: commands and failed writes, perhaps followed by a cleanup *)
Lemma off_read r s s' before raw middle cleanup :
  glog s' = cleanup ++ middle ++ GRead (Some raw) :: before ++ glog s →
  (∀ t, GRead t ∉ before) → (∀ v, GWrite v true ∈ before → ∃ old, v = old +:+ nl ∧ sd_lan_gateway_ip_forward_snapshot s.1 = Some old) →
  (∀ t, GRead t ∉ middle) → (∀ v, GWrite v true ∉ middle) →
  (∀ t, GRead t ∉ cleanup) → (∀ v, GWrite v true ∈ cleanup → v = strip raw +:+ nl) →
  (r = Ok false → ∃ ok rest, cleanup = GWrite (strip raw +:+ nl) ok :: rest) →
  forwarding_off r s s'.
Proof.
  intros Hl Hb1 Hb2 Hm1 Hm2 Hc1 Hc2 Hr. exists (cleanup ++ middle ++ GRead (Some raw) :: before).
  split; [by rewrite Hl, <- !app_assoc|]. split.
  - intros v Hv. rewrite !elem_of_app, elem_of_cons in Hv. destruct Hv as [Hv|[Hv|[Hv|Hv]]]; [|by destruct (Hm2 v)|done|].
    + exists (strip raw). split; [by apply Hc2|]. right. exists raw. split; [|done]. rewrite !elem_of_app, elem_of_cons. auto.
    + destruct (Hb2 v Hv) as (old & -> & Ho). eauto.
  - intros raw' Hx Hf. rewrite !elem_of_app, elem_of_cons in Hx. destruct Hx as [Hx|[Hx|[Hx|Hx]]]; [by destruct (Hc1 (Some raw'))|by destruct (Hm1 (Some raw'))| |by destruct (Hb1 (Some raw'))].
    injection Hx as ->. destruct (Hr Hf) as (ok & rest & ->). eauto.
Qed.
(** ... which the cleanup ends with the value that was read *)
Lemma off_cleanup force s s1 r s' before raw middle :
  (u ← cleanup_lan_gateway h force; mret false) s1 = (r, s') → sd_lan_gateway_ip_forward_snapshot s1.1 = Some (strip raw) →
  glog s1 = middle ++ GRead (Some raw) :: before ++ glog s →
  (∀ t, GRead t ∉ before) → (∀ v, GWrite v true ∈ before → ∃ old, v = old +:+ nl ∧ sd_lan_gateway_ip_forward_snapshot s.1 = Some old) →
  (∀ t, GRead t ∉ middle) → (∀ v, GWrite v true ∉ middle) → r ≠ Ok true ∧ forwarding_off r s s'.
Proof.
  intros H1 Hs Hl Hb1 Hb2 Hm1 Hm2. destruct (cleanup_cases force s1) as [Hr Hok]. rewrite bind_eval in H1.
  destruct (restores_snapshot _ _ Hr) as (new & Hn & Hn1 & Hn2).
  destruct (cleanup_lan_gateway h force s1) as [[u|e] s2]; injection H1 as <- <-; cbn [snd] in Hn; (split; [done|]).
  - eapply (off_read _ s s2 before raw middle new); try done; [by rewrite Hn, Hl|..].
    + intros v Hv. destruct (Hn2 v Hv) as (old & -> & Ho). congruence.
    + intros _. destruct (Hok u s2 eq_refl) as [_ Hw]. destruct (Hw _ Hs) as (ok & l & Hw'). exists ok, l. rewrite Hw' in Hn.
      change (GWrite (strip raw +:+ nl) ok :: l ++ glog s1) with ((GWrite (strip raw +:+ nl) ok :: l) ++ glog s1) in Hn. by apply app_inv_tail in Hn as <-.
  - eapply (off_read _ s s2 before raw middle new); try done; [by rewrite Hn, Hl|..].
    intros v Hv. destruct (Hn2 v Hv) as (old & -> & Ho). congruence.
Qed.

(** The switch itself, after the firewall is in place *)
Lemma switch_cases g s s4 before raw r s' :
  (written ← try_except (_ ← write_ipv4_forward h "1"; mret true) runtime_error
               (fun e => _ ← log_error h e; _ ← cleanup_lan_gateway h false; mret false);
   if negb written then mret false
   else _ ← update (fun d => set_gateway (Some g) (sd_lan_gateway_ip_forward_snapshot d) d); mret true) s4 = (r, s') →
  sd_lan_gateway_ip_forward_snapshot s4.1 = Some (strip raw) →
  glog s4 = rev (map (fun c => GRun c true) (gateway_commands g)) ++ GRead (Some raw) :: before ++ glog s →
  (∀ t, GRead t ∉ before) → (∀ v, GWrite v true ∈ before → ∃ old, v = old +:+ nl ∧ sd_lan_gateway_ip_forward_snapshot s.1 = Some old) →
  match r with Ok true => forwarding_on g s s' | _ => forwarding_off r s s' end.
Proof.
  intros H1 Hs L4 Hb1 Hb2. revert H1. set (mid := rev _) in L4.
  assert (Hmid : ∀ x, x ∈ GWrite ("1" +:+ nl) false :: mid → x = GWrite ("1" +:+ nl) false ∨ ∃ c, x = GRun c true).
  { intros x [->|Hx]%elem_of_cons; [by left|right]. unfold mid in Hx. apply list_elem_of_In, in_rev, list_elem_of_In in Hx. apply list_elem_of_fmap in Hx as (c & -> & _). eauto. }
  assert (M1 : ∀ t, GRead t ∉ GWrite ("1" +:+ nl) false :: mid) by (intros t [?|[? ?]]%Hmid; done).
  assert (M2 : ∀ v, GWrite v true ∉ GWrite ("1" +:+ nl) false :: mid) by (intros v [?|[? ?]]%Hmid; done).
  rewrite bind_eval. unfold try_except. rewrite bind_eval.
  destruct (write_ipv4_forward h "1" s4) as [rw s5] eqn:E5. apply write_cases in E5 as (ok & L5 & D5 & Hw).
  destruct rw as [[]|e].
  - cbn. intros [= <- <-]. assert (ok = true) as -> by by apply Hw. exists raw, before. unfold glog in *. cbn [fst snd]. rewrite L5, L4.
    split; [done|]. split; [|split; [done|cbn; by rewrite D5]].
    intros v Hv. destruct (Hb2 v Hv) as (old & -> & Ho). eauto.
  - assert (ok = false) as -> by (destruct ok; [by destruct Hw as [_ Hw]; specialize (Hw eq_refl)|done]). destruct (runtime_error e).
    + unfold log_error. rewrite bind_eval. destruct (aside_log (exn_message e +:+ nl) s5) as [L6 G6].
      destruct (append_log h _ s5) as [[u5|e'] s6]; cbn [fst snd] in *.
      * destruct ((u ← cleanup_lan_gateway h false; mret false) s6) as [rc s7] eqn:E7.
        eapply (off_cleanup false s s6 rc s7 before raw (GWrite ("1" +:+ nl) false :: mid)) in E7 as [E7 E8]; try done.
        -- destruct rc as [[]|e7]; [done| |]; intros [= <- <-]; exact E8.
        -- unfold gateway_of in G6. rewrite D5 in G6. congruence.
        -- by rewrite L6, L5, L4.
      * intros [= <- <-]. apply (off_read _ s s6 before raw (GWrite ("1" +:+ nl) false :: mid) []); try done; [by rewrite L6, L5, L4|..]; by intros ? ?%not_elem_of_nil.
    + intros [= <- <-]. apply (off_read _ s s5 before raw (GWrite ("1" +:+ nl) false :: mid) []); try done; [by rewrite L5, L4|..]; by intros ? ?%not_elem_of_nil.
Qed.

(** C16: IP forwarding is only switched on behind the firewall.  When applying the LAN gateway
    succeeds, the last thing it did was to write 1 to the forwarding switch, directly after every
    command of the firewall table (the forward chain with policy drop, the rules and the masquerade)
    succeeded, after the old value was read, and the driver keeps that value.  In every other
    outcome, whatever fails or raises, the switch was only ever given back a value it had before,
    and when the call returns false after reading the value, writing it back is its last act. *)
Theorem forwarding_behind_firewall g s r s' :
  apply_lan_gateway h g s = (r, s') → match r with Ok true => forwarding_on g s s' | _ => forwarding_off r s s' end.
Proof.
  unfold apply_lan_gateway. rewrite bind_eval. cbn [self gets].
  assert (Hearly : ∀ msg s0, glog s0 = glog s → (_ ← append_log h msg; mret false) s0 = (r, s') →
            match r with Ok true => forwarding_on g s s' | _ => forwarding_off r s s' end).
  { intros msg s0 Hl H1. rewrite bind_eval in H1. destruct (aside_log msg s0) as [Ha _].
    destruct (append_log h msg s0) as [[u|e] s1]; injection H1 as <- <-; apply off_aside; by rewrite <- Hl, <- Ha. }
  repeat (match goal with |- (if ?b then _ else _) s = _ → _ => destruct b; [by apply Hearly|] end).
  rewrite bind_eval. pose proof (aside_which "nft" s) as [L1 G1]. destruct (which h "nft" s) as [[nft|e] s1]; cbn [fst snd] in L1, G1.
  2:{ intros [= <- <-]. by apply off_aside. }
  destruct (negb nft); [by apply Hearly|]. rewrite bind_eval. destruct (cleanup_cases true s1) as [Hc Hcok].
  destruct (restores_snapshot _ _ Hc) as (before & Hb & Hb1 & Hb2). rewrite L1 in Hb.
  assert (Hs1 : sd_lan_gateway_ip_forward_snapshot s1.1 = sd_lan_gateway_ip_forward_snapshot s.1) by (unfold gateway_of in G1; congruence).
  rewrite Hs1 in Hb2. destruct (cleanup_lan_gateway h true s1) as [[u|e] s2]; cbn [snd] in Hb.
  2:{ intros [= <- <-]. exists before. split; [done|]. split; [|intros raw Hx; by destruct (Hb1 (Some raw))].
      intros v Hv. destruct (Hb2 v Hv) as (old & -> & Ho). eauto. }
  rewrite bind_eval. destruct (try_except _ _ _ s2) as [rr s3] eqn:E3. apply read_cases in E3 as [(-> & raw & L3 & G3)|(Hne & L3)].
  2:{ assert (Hoff : ∀ x, forwarding_off x s s3).
      { intros x. exists (GRead None :: before). split; [by rewrite L3, Hb|]. split.
        - intros v [?|Hv]%elem_of_cons; [done|]. destruct (Hb2 v Hv) as (old & -> & Ho). eauto.
        - intros raw [?|Hx]%elem_of_cons; [done|]. by destruct (Hb1 (Some raw)). }
      destruct rr as [[]|e]; [done|intros [= <- <-]; apply Hoff|intros [= <- <-]; apply Hoff]. }
  cbn [negb]. rewrite bind_eval. destruct (run_required_cases (gateway_commands g) s3) as [Hq Hqok].
  assert (Hsnap : sd_lan_gateway_ip_forward_snapshot s3.1 = Some (strip raw)) by (unfold gateway_of in G3; congruence).
  destruct (restores_none _ _ Hq) as (mid & Hm & Hm1 & Hm2). rewrite L3, Hb in Hm.
  pose proof (run_required_gateway (gateway_commands g) s3) as Hqg.
  destruct (run_required h (gateway_commands g) s3) as [[[]|e] s4]; cbn [fst snd negb] in *.
  - destruct (Hqok s4 eq_refl) as [L4 _]. rewrite L3, Hb in L4. intros H1. eapply switch_cases; [exact H1| |exact L4|done|done].
    unfold gateway_of in Hqg. congruence.
  - intros H1. eapply (off_cleanup false s s4 r s' before raw mid) in H1 as [H1 H2]; try done; [by destruct r as [[]|]|].
    unfold gateway_of in Hqg. congruence.
  - intros [= <- <-]. apply (off_read _ s s4 before raw mid []); try done; by intros ? ?%not_elem_of_nil.
Qed.
End forwarding.

(** ** Witnesses *)
Module DemoRun.
#[local] Instance str : PyStr := {| repr_compound := fun _ => ""; float_literal := fun _ => None |}.
#[local] Instance regex : PyRegex := {| regex_valid := fun _ => true; regex_search := fun _ _ => false |}.

(** A clock and a child 7 that listens on both proxy ports while it lives *)
Definition world : Type := Q * bool.
Definition ok {A} (a : A) : PyM world A := mret a.
Definition done_ (out : string) : completed := {| cp_returncode := 0; cp_stdout := out; cp_stderr := "" |}.
Definition tcp_table : string :=
  "header" +:+ nl +:+ "0: 0100007F:0820 00000000:0000 0A 0:0 0:0 0 0 0 100 1" +:+ nl +:+ "1: 0100007F:0821 00000000:0000 0A 0:0 0:0 0 0 0 101 1" +:+ nl.
Definition proc : ProcHost world := {|
  ph_environ := fun _ => None; ph_getuid := 0; ph_getpid := 1; ph_gettempdir := "/tmp";
  ph_exists := fun p => ok (negb (endswith "tcp6" p)); ph_access_wx := fun _ => ok true; ph_is_dir := fun _ => ok true;
  ph_glob := fun d p => ok []; ph_iterdir := fun p => ok (if String.eqb p "/proc/7/fd" then ["3"; "4"] else []);
  ph_read_text := fun p => if String.eqb p "/proc/net/tcp" then ok tcp_table else raiseM FileNotFoundError "";
  ph_cmdline := fun _ => raiseM FileNotFoundError "";
  ph_readlink := fun p => ok (if endswith "3" p then "socket:[100]" else "socket:[101]");
  ph_kill := fun _ _ => raiseM ProcessLookupError ""; ph_mkdir := fun _ => ok tt; ph_mkdtemp := fun d p => ok (path_join d p);
  ph_chmod := fun _ _ => ok tt; ph_write := fun _ _ => ok tt; ph_rmtree := fun _ => ok tt; ph_monotonic := gets fst;
  ph_sleep := fun t => modifyS (fun w => ((w.1 + t)%Q, w.2)); ph_loads := fun _ => Ok PNone; ph_dumps := fun _ => "" |}.
Definition run_command (c : list string) : PyM world completed :=
  ok (done_ (if bool_decide (c = ["nft"; "list"; "table"; "inet"; "sing-box"]) then "table inet sing-box { chain a { hook output } chain b { } }"
             else if bool_decide (c = ["ip"; "-o"; "link"; "show"; "wdvpn-tun0"]) then "7: wdvpn-tun0: <UP>" else "")).
(** With [nm] NetworkManager is there but does not answer *)
Definition host (nm : bool) : RunHost world := {|
  rh_sb := {| sh_environ := fun _ => None; sh_which := fun name => ok (negb (String.eqb name "nmcli") || nm); sh_run := run_command |};
  rh_proc := proc; rh_binaries := ["/usr/bin/sing-box"]; rh_access_x := fun _ => ok true; rh_which_path := fun _ => ok None;
  rh_run_timeout := fun _ _ => raiseM TimeoutExpired ""; rh_open_log := fun _ => ok tt; rh_popen := fun _ => ok 7%Z;
  rh_exited := fun _ => alive ← gets snd; mret (negb alive); rh_terminate := fun _ => modifyS (fun w => (w.1, false));
  rh_kill_child := fun _ => ok tt; rh_wait := fun _ _ => ok tt; rh_append := fun _ _ => ok tt; rh_read_forward := ok ("0" +:+ nl);
  rh_write_forward := fun _ => ok tt; rh_remove_dir := fun _ => ok tt; rh_connect_tcp := fun _ _ => ok tt;
  rh_utcnow := ok {| dt_wall := 0; dt_utcoffset := None |}; rh_render := fun _ => ""; rh_cache_path := "/cache.db" |}.
Definition flusher : PyM world bool := ok true.
Definition gateway : LANGatewayRuntimeConfig := {|
  lg_lan_interface := "lan0"; lg_client_cidr := "10.0.0.0/24"; lg_dns_mode := "manual"; lg_firewall_managed := true; lg_tunnel_interface := "wdvpn-tun0" |}.
#[local] Notation connected := (connect (host false) flusher (DemoSingBox.profile "home") None (DemoSingBox.options "tun" "current_profile" []) None
  (Some gateway) (new_driver, (0%Q, true))).
Definition running : Driver := connected.2.1.

Example connects : connected.1 = Ok true ∧ sd_process running = Some 7%Z.
Proof. vm_compute. auto. Qed.

Lemma singbox_connect_outcome_witness :
  live (DemoSingBox.profile "home") "tun" true running ∧ sd_lan_gateway_active running = Some gateway.
Proof.
  assert (E : connected = (Ok true, connected.2)) by (vm_compute; reflexivity).
  destruct (singbox_connect_outcome (host false) flusher (DemoSingBox.profile "home") None (DemoSingBox.options "tun" "current_profile" []) None
              (Some gateway) (new_driver, (0%Q, true)) true connected.2 E) as [H1 H2]. split; [exact H1|]. by apply H2.
Defined.

(** The same driver on a host where NetworkManager stopped answering *)
#[local] Notation failing := (disconnect (host true) flusher (running, (0%Q, true))).
#[local] Notation again := (disconnect (host true) flusher failing.2).
Example disconnects_again : failing.1 = Ok false ∧ again.1 = Ok true.
Proof. vm_compute. auto. Qed.
Lemma failed_disconnect_forgotten_witness : failing.1 = Ok false ∧ ∀ b, again.1 = Ok b → b = true.
Proof.
  assert (E1 : failing = (Ok false, failing.2)) by (vm_compute; reflexivity). split; [by rewrite E1|]. intros b Hb.
  assert (E2 : again = (Ok b, again.2)) by (rewrite <- Hb; apply surjective_pairing).
  exact (failed_disconnect_forgotten (host true) flusher (running, (0%Q, true)) failing.2 b again.2 E1 E2).
Defined.

Definition ready : Driver := set_session (Some 7%Z) None None "tun" true false new_driver.
Definition applied := apply_lan_gateway (gw_watched (host false)) gateway (ready, ((0%Q, true), [])).
Lemma forwarding_behind_firewall_witness : forwarding_on gateway (ready, ((0%Q, true), [])) applied.2 ∧ length (glog applied.2) = 10%nat.
Proof.
  assert (E : applied = (Ok true, applied.2)) by (vm_compute; reflexivity). split; [|vm_compute; reflexivity].
  exact (forwarding_behind_firewall (host false) gateway _ _ _ E).
Defined.

Lemma status_only_observes_witness :
  (status (host false) (running, (0%Q, true))).2.1 = running ∧ (status (host false) (running, (0%Q, true))).2.2.2 = true.
Proof.
  pose (R := fun w w' : world => w'.2 = w.2).
  assert (HR : PreOrder R) by (split; [done|intros w1 w2 w3; unfold R; congruence]).
  assert (Hl : ∀ A (m : PyM world A), read_op (host false) A m → steps R m).
  { intros A m [name|c Hc|A' m' []|pid] w; try done. all: try (unfold R; cbn; by repeat case_match). }
  destruct (status_only_observes (host false) R Hl running (0%Q, true)) as [H1 H2]. split; [exact H1|exact H2].
Defined.
End DemoRun.
