(* ===== verification/OpenVpnDriver.v ===== *)
(** * The OpenVPN driver

    drivers/openvpn_driver.py and drivers/openvpn_process.py: validation before anything is touched,
    the route that keeps the endpoint outside the tunnel, starting and stopping the process and its
    readiness.  Commands, processes and files are the interfaces of [SingBoxRun]. *)
From stdpp Require Import base list strings pretty.
From Stdlib Require Import Ascii ZArith QArith.
From S2P Require Import Prelude Steps PyData PyText PyUrl Profiles NodeGroups Rules Protocol OpenVpn Endpoint ProfileSchema Health SingBox RuntimePaths SingBoxRun.

Definition OPENVPN_CHILD_CAPABILITIES : list string := ["net_admin"; "net_raw"].
Definition OV_RUNTIME_PREFIX : string := "watchdogvpn-openvpn-".
Definition OV_CONFIG_NAME : string := "openvpn.conf".
Definition OV_LOG_NAME : string := "openvpn.log".
Definition STATUS_NAME : string := "openvpn.status".
Definition CONNECT_READY_TIMEOUT_SECONDS : Q := 10.
Definition OPENVPN_BINARIES : list string := ["/usr/sbin/openvpn"; "/usr/bin/openvpn"; "/usr/local/sbin/openvpn"; "/usr/local/bin/openvpn"].

(** ** Routes as [ip] prints them *)
Record DefaultPath : Type := { dp_gateway : option string; dp_interface : option string; dp_onlink : bool }.
Definition ROUTE_KEYWORDS : list string :=
  ["via"; "dev"; "onlink"; "src"; "uid"; "scope"; "proto"; "metric"; "table"; "pref"; "realm"; "mtu"; "advmss"; "hoplimit"; "initcwnd";
   "initrwnd"; "lifetime"; "error"; "linkdown"; "lock"; "quickack"; "cache"; "default"; "unicast"; "blackhole"; "unreachable"; "prohibit";
   "throw"; "local"; "broadcast"; "anycast"; "multicast"].
(** The tokens after the first occurrence of a word *)
Fixpoint tokens_after (flag : string) (tokens : list string) : option (list string) :=
  match tokens with [] => None | t :: rest => if String.eqb t flag then Some rest else tokens_after flag rest end.
Definition strict_route_value (tokens : list string) (flag : string) : res (option string) :=
  match tokens_after flag tokens with
  | None => Ok None
  | Some rest =>
      if str_in flag rest then raise ValueError ("duplicate '" +:+ flag +:+ "' keyword")
      else match rest with
      | [] => raise ValueError ("'" +:+ flag +:+ "' keyword has no value")
      | value :: _ =>
          if str_in value ROUTE_KEYWORDS then raise ValueError ("'" +:+ flag +:+ "' keyword is followed by the '" +:+ value +:+ "' keyword")
          else Ok (Some value)
      end
  end.
Definition default_path_from_tokens (tokens : list string) : option DefaultPath :=
  match strict_route_value tokens "via", strict_route_value tokens "dev" with
  | Ok gateway, Ok interface => Some {| dp_gateway := gateway; dp_interface := interface; dp_onlink := str_in "onlink" tokens |}
  | _, _ => None
  end.
(** The tokens of the first line that is not blank *)
Definition first_line_tokens (text : string) : option (list string) :=
  match List.find truthy_str (map strip (splitlines text)) with Some line => Some (py_split line) | None => None end.

(** ** The driver object *)
Record OvDriver : Type := {
  od_process : option Z; od_active_profile : option Profile; od_connected_at : option datetime; od_runtime_dir : option string;
  od_expected_interface : string; od_expected_device_type : string; od_owned_endpoint_route : option string; od_last_error : string
}.
Definition new_ov_driver : OvDriver := {|
  od_process := None; od_active_profile := None; od_connected_at := None; od_runtime_dir := None; od_expected_interface := "";
  od_expected_device_type := ""; od_owned_endpoint_route := None; od_last_error := "" |}.
Definition ov_session (process : option Z) (profile : option Profile) (at_ : option datetime) (d : OvDriver) : OvDriver :=
  {| od_process := process; od_active_profile := profile; od_connected_at := at_; od_runtime_dir := od_runtime_dir d;
     od_expected_interface := od_expected_interface d; od_expected_device_type := od_expected_device_type d;
     od_owned_endpoint_route := od_owned_endpoint_route d; od_last_error := od_last_error d |}.
Definition ov_files (dir : option string) (interface type : string) (d : OvDriver) : OvDriver :=
  {| od_process := od_process d; od_active_profile := od_active_profile d; od_connected_at := od_connected_at d; od_runtime_dir := dir;
     od_expected_interface := interface; od_expected_device_type := type;
     od_owned_endpoint_route := od_owned_endpoint_route d; od_last_error := od_last_error d |}.
Definition ov_route (route : option string) (d : OvDriver) : OvDriver :=
  {| od_process := od_process d; od_active_profile := od_active_profile d; od_connected_at := od_connected_at d; od_runtime_dir := od_runtime_dir d;
     od_expected_interface := od_expected_interface d; od_expected_device_type := od_expected_device_type d;
     od_owned_endpoint_route := route; od_last_error := od_last_error d |}.
Definition ov_error (msg : string) (d : OvDriver) : OvDriver :=
  {| od_process := od_process d; od_active_profile := od_active_profile d; od_connected_at := od_connected_at d; od_runtime_dir := od_runtime_dir d;
     od_expected_interface := od_expected_interface d; od_expected_device_type := od_expected_device_type d;
     od_owned_endpoint_route := od_owned_endpoint_route d; od_last_error := msg |}.

(** ** What a profile must be *)
Definition cfg_text `{PyStr} (key : string) (p : Profile) : string :=
  let v := cfg_get key (p_config p) in strip (if truthy v then py_str v else "").
Definition check_openvpn_profile `{PyStr} (p : Profile) : res unit :=
  if negb (bool_decide (p_protocol p = OPENVPN))
  then raise ValueError ("unsupported protocol for OpenVPN driver: " +:+ protocol_value (p_protocol p))
  else if truthy (cfg_or (p_config p) ["wrapper"; "transport_wrapper"])
  then raise ValueError "wrapped OpenVPN profiles are not handled by the plain OpenVPN driver"
  else if negb (truthy_str (cfg_text "raw_config" p)) then raise ValueError "OpenVPN profile requires raw_config"
  else validate_openvpn_profile p.

(** ** The command *)
Definition openvpn_command (setpriv binary config_path : string) (runtime_options : list string) : list string :=
  let cap_spec := "-all,+" +:+ String.concat ",+" OPENVPN_CHILD_CAPABILITIES in
  [setpriv; "--nnp"; "--inh-caps=" +:+ cap_spec; "--ambient-caps=" +:+ cap_spec; "--"; binary; "--config"; config_path] ++ runtime_options.

(** The name of the device: the last part of the directory name *)
Definition device_token (dir : string) : string := String.substring 0 10 (remove_all "_" (rpartition_on "-" (path_name dir)).2).
(** The name of an interface in a line of [ip -o link show] *)
Definition link_name (line : string) : option string :=
  let '(_, found, rest) := partition_on ":" line in
  if found then Some (strip (partition_on ":" rest).1.1) else None.
Definition link_matches (configured_dev name : string) : bool :=
  if truthy_str configured_dev then String.eqb name configured_dev else startswith "tun" name || startswith "tap" name.

Section driver.
Context `{PyStr} {W : Type} (host : RunHost W).
(** Deleting the status file, and reading a file with replaced bytes *)
Context (unlink : string → PyM W unit) (read_replacing : string → PyM W string).
Notation OM := (PyM (OvDriver * W)).

Definition build_openvpn_command (binary config_path : string) (runtime_options : list string) : PyM W (list string) :=
  setpriv ← rh_which_path host "setpriv";
  match setpriv with
  | Some (String _ _ as setpriv) => mret (openvpn_command setpriv binary config_path runtime_options)
  | _ => raiseM RuntimeError "setpriv is required to launch OpenVPN safely"
  end.
Definition OpenVPNDriver_init : PyM W OvDriver :=
  _ ← cleanup_stale_runtime_dirs (rh_proc host) OV_RUNTIME_PREFIX;
  mret new_ov_driver.
Definition find_openvpn_binary : PyM W (option string) := find_binary host "WATCHDOGVPN_OPENVPN_BIN" "openvpn" OPENVPN_BINARIES.
Definition ov_check_version : PyM W string := binary_version host "openvpn" "--version" find_openvpn_binary.
Definition ov_is_available : PyM W bool := available ov_check_version.

(** ** Files *)
Definition ov_ensure_runtime_paths : OM string :=
  d ← self;
  match od_runtime_dir d with
  | Some dir => mret dir
  | None =>
      dir ← io (make_runtime_dir (rh_proc host) OV_RUNTIME_PREFIX);
      _ ← update (fun d => ov_files (Some dir) (od_expected_interface d) (od_expected_device_type d) d);
      mret dir
  end.
Definition generate_openvpn_config (p : Profile) : OM string :=
  _ ← liftR (check_openvpn_profile p);
  let raw_config := cfg_text "raw_config" p in
  dir ← ov_ensure_runtime_paths;
  _ ← io (write_private_file (rh_proc host) (path_join dir OV_CONFIG_NAME) (raw_config +:+ nl));
  mret raw_config.
Definition ov_cleanup_runtime : OM unit :=
  d ← self;
  _ ← match od_runtime_dir d with Some dir => io (rh_remove_dir host dir) | None => mret tt end;
  update (ov_files None "" "").

(** ** Validation *)
Definition value_error (e : exn) : bool := is_instance e ValueError.
Definition fails (msg : string) : OM bool := _ ← update (ov_error msg); mret false.
Definition validate_single_ipv4_remote_endpoint (p : Profile) : OM bool :=
  match validated_openvpn_remote_host p with
  | Ok _ => mret true
  | Err e => if value_error e then fails (exn_message e) else liftR (Err e)
  end.
Definition validate_profile_without_runtime (p : Profile) : OM bool :=
  match check_openvpn_profile p with
  | Ok _ => validate_single_ipv4_remote_endpoint p
  | Err e => if value_error e then fails (exn_message e) else liftR (Err e)
  end.
Definition preflight_profile (p : Profile) : OM unit :=
  d ← self;
  ok ← validate_profile_without_runtime p;
  if ok : bool then update (ov_error (od_last_error d))
  else d ← self; raiseM ValueError (if truthy_str (od_last_error d) then od_last_error d else "OpenVPN profile preflight failed").
Definition remote_host (p : Profile) : res string :=
  match validated_openvpn_remote_host p with
  | Ok host => Ok host
  | Err e => if value_error e then Ok "" else Err e
  end.

(** ** The route of the endpoint *)
Definition run (command : list string) : OM completed := io (sh_run (rh_sb host) command).
Definition have (name : string) : OM bool := io (sh_which (rh_sb host) name).
Definition ip_tokens (command : list string) : OM (option (list string)) :=
  ip ← have "ip";
  if negb ip then mret None
  else
    r ← run command;
    mret (if negb (cp_returncode r =? 0)%Z then None else first_line_tokens (cp_stdout r)).
Definition default_route_tokens : OM (option (list string)) := ip_tokens ["ip"; "-4"; "route"; "show"; "default"].
Definition endpoint_route_resolution (address : string) : OM (option (list string)) := ip_tokens ["ip"; "-4"; "route"; "get"; address].
Definition route_add_command (route : string) (path : DefaultPath) : list string :=
  ["ip"; "route"; "add"; route] ++ match dp_gateway path with Some g => ["via"; g] | None => [] end
  ++ match dp_interface path with Some i => ["dev"; i] | None => [] end ++ (if dp_onlink path then ["onlink"] else []).
Definition existing_endpoint_route_is_safe (address : string) (expected : DefaultPath) : OM bool :=
  match dp_interface expected with
  | None => fails "OpenVPN endpoint route verification has no default interface"
  | Some expected_interface =>
      tokens ← endpoint_route_resolution address;
      match tokens with
      | None | Some [] => fails "OpenVPN endpoint route could not be verified against the default route"
      | Some tokens =>
          match strict_route_value tokens "dev" with
          | Err e => fails ("OpenVPN endpoint route resolution is ambiguous: " +:+ exn_message e)
          | Ok interface =>
              match strict_route_value tokens "via" with
              | Err e => fails ("OpenVPN endpoint route resolution is ambiguous: " +:+ exn_message e)
              | Ok gateway =>
                  if negb (truthy_str (default "" interface)) then fails "OpenVPN endpoint route verification found no outbound interface"
                  else if negb (bool_decide (interface = Some expected_interface))
                  then fails "OpenVPN endpoint route points to a different interface than the default route"
                  else match dp_gateway expected with
                  | None => match gateway with
                            | Some _ => fails "OpenVPN endpoint route uses a gateway the default route does not"
                            | None => mret true
                            end
                  | Some _ => if negb (bool_decide (gateway = dp_gateway expected))
                              then fails "OpenVPN endpoint route does not follow the default route gateway" else mret true
                  end
              end
          end
      end
  end.
Definition protect_remote_endpoint_route (p : Profile) : OM bool :=
  valid ← validate_single_ipv4_remote_endpoint p;
  if negb valid then mret false
  else
    address ← liftR (remote_host p);
    let route := address +:+ "/32" in
    tokens ← default_route_tokens;
    match tokens with
    | None | Some [] => fails "OpenVPN endpoint route could not resolve the default route"
    | Some tokens =>
        match default_path_from_tokens tokens with
        | None => fails "OpenVPN endpoint route default path is malformed or ambiguous"
        | Some expected =>
            r ← run (route_add_command route expected);
            if (cp_returncode r =? 0)%Z then _ ← update (ov_route (Some route)); mret true
            else if contains "file exists" (lower (cp_stderr r)) then existing_endpoint_route_is_safe address expected
            else fails "OpenVPN endpoint route protection failed"
        end
    end.
Definition cleanup_endpoint_route : OM unit :=
  d ← self;
  _ ← update (ov_route None);
  match od_owned_endpoint_route d with
  | Some (String _ _ as route) =>
      ip ← have "ip";
      if ip : bool then _ ← run ["ip"; "route"; "delete"; route]; mret tt else mret tt
  | _ => mret tt
  end.

(** ** Readiness *)
Definition vpn_interface_active (profile : option Profile) : OM bool :=
  ip ← have "ip";
  if negb ip then mret false
  else
    r ← run ["ip"; "-o"; "link"; "show"];
    if negb (cp_returncode r =? 0)%Z then mret false
    else
      d ← self;
      let configured_dev := if truthy_str (od_expected_interface d) then od_expected_interface d
                            else match profile with Some p => cfg_text "dev" p | None => "" end in
      mret (existsb (link_matches configured_dev) (omap link_name (splitlines (cp_stdout r)))).
Definition configure_readiness (p : Profile) : OM (list string) :=
  d ← self;
  match od_runtime_dir d with
  | None => raiseM RuntimeError "OpenVPN runtime paths are unavailable"
  | Some dir =>
      let type := if String.eqb (lower (cfg_text "dev_type" p)) "tap" || startswith "tap" (lower (cfg_text "dev" p)) then "tap" else "tun" in
      let interface := type +:+ "wd" +:+ device_token dir in
      _ ← update (ov_files (Some dir) interface type);
      mret ["--dev"; interface; "--dev-type"; type; "--status"; path_join dir STATUS_NAME; "1"; "--status-version"; "3"]
  end.
Definition readiness_evidence_ready : OM bool :=
  d ← self;
  match od_runtime_dir d with
  | None => mret false
  | Some dir =>
      if negb (truthy_str (od_expected_interface d)) then mret false
      else
        texts ← io (observed (status ← read_replacing (path_join dir STATUS_NAME); log ← read_replacing (path_join dir OV_LOG_NAME); mret (status, log)));
        mret match texts with
             | Some (status, log) => contains "OpenVPN" status && contains "Initialization Sequence Completed" log
             | None => false
             end
  end.
Definition interface_ready (profile : option Profile) : OM bool :=
  active ← vpn_interface_active profile;
  if active : bool then readiness_evidence_ready else mret false.
Definition egress_interface : OM (option string) :=
  d ← self;
  match od_active_profile d with
  | None => mret None
  | Some _ =>
      if negb (truthy_str (od_expected_interface d)) then mret None
      else active ← vpn_interface_active (od_active_profile d); mret (if active : bool then Some (od_expected_interface d) else None)
  end.
Definition ov_exited (process : option Z) : OM bool := match process with Some pid => io (rh_exited host pid) | None => mret true end.
Definition READY_FUEL : nat := 41.
Definition wait_for_ready (profile : Profile) : OM bool :=
  now ← io (ph_monotonic (rh_proc host));
  wait_until (proc_lift (fun _ => io) (rh_proc host)) (1 # 4) READY_FUEL (now + CONNECT_READY_TIMEOUT_SECONDS) (
    d ← self;
    gone ← ov_exited (od_process d);
    if gone : bool then mret (Some false)
    else ready ← interface_ready (Some profile); mret (if ready : bool then Some true else None)).

(** ** Disconnect and rollback *)
Definition ov_disconnect : OM bool :=
  d ← self;
  _ ← update (ov_session None None None);
  outcome ← try_finally_with (io (stop_process host (od_process d))) (
    _ ← io (kill_all_recorded_children (rh_proc host) OV_RUNTIME_PREFIX);
    _ ← cleanup_endpoint_route;
    ov_cleanup_runtime);
  mret outcome.1.
Definition rollback_startup : OM unit :=
  try_finally (try_except (_ ← ov_disconnect; mret tt) any_exn (fun _ => mret tt)) (
    _ ← update (ov_session None None None);
    _ ← cleanup_endpoint_route;
    ov_cleanup_runtime).
Definition ov_ensure_disconnected : OM bool :=
  d ← self;
  match od_process d with None => mret true | Some _ => ov_disconnect end.

(** ** Connect *)
Definition ov_start (binary dir : string) (profile : Profile) : OM bool :=
  protected ← protect_remote_endpoint_route profile;
  if negb protected then _ ← rollback_startup; mret false
  else
    options ← configure_readiness profile;
    _ ← io (observed (unlink (path_join dir STATUS_NAME)));
    _ ← io (rh_open_log host (path_join dir OV_LOG_NAME));
    command ← io (build_openvpn_command binary (path_join dir OV_CONFIG_NAME) options);
    pid ← io (rh_popen host command);
    _ ← update (fun d => ov_session (Some pid) (od_active_profile d) (od_connected_at d) d);
    _ ← io (record_child_process (rh_proc host) dir "process" pid (path_name binary));
    _ ← update (fun d => ov_session (od_process d) (Some profile) (od_connected_at d) d);
    ready ← wait_for_ready profile;
    if ready : bool then
      now ← io (rh_utcnow host);
      _ ← update (fun d => ov_session (od_process d) (od_active_profile d) (Some now) d);
      mret true
    else
      _ ← update (fun d => ov_error "OpenVPN readiness timed out or process exited" (ov_session (od_process d) (od_active_profile d) None d));
      _ ← rollback_startup;
      mret false.
Definition ov_connect (profile : Profile) : OM bool :=
  _ ← update (ov_error "");
  valid ← validate_profile_without_runtime profile;
  if negb valid then mret false
  else
    free ← ov_ensure_disconnected;
    if negb free then fails "existing OpenVPN runtime teardown failed"
    else
      binary ← io find_openvpn_binary;
      match binary with
      | Some (String _ _ as binary) =>
          _ ← generate_openvpn_config profile;
          dir ← ov_ensure_runtime_paths;
          try_except (ov_start binary dir profile) any_exn (fun e =>
            _ ← rollback_startup;
            fails ("OpenVPN startup failed: " +:+ exn_message e))
      | _ => fails "required binary not found: openvpn"
      end.

(** ** Health and status *)
Definition ov_health_check : OM string :=
  d ← self;
  gone ← ov_exited (od_process d);
  if gone : bool then mret "down"
  else ready ← interface_ready (od_active_profile d); mret (if ready : bool then "ok" else "degraded").
Definition ov_running_state (d : OvDriver) (ready : bool) : ConnectionState :=
  let c := default_ConnectionState "connected" "openvpn" in
  {| cs_active_profile_id := match od_active_profile d with Some p => p_id p | None => "" end; cs_connected_at := od_connected_at d;
     cs_mode := "openvpn"; cs_tun_active := ready; cs_proxy_active := false;
     cs_kill_switch_active := cs_kill_switch_active c; cs_kill_switch_status := cs_kill_switch_status c;
     cs_kill_switch_method := cs_kill_switch_method c; cs_kill_switch_consistent := cs_kill_switch_consistent c;
     cs_runtime_mismatch_severity := ""; cs_runtime_artifacts := []; cs_lan_gateway_active := false; cs_lan_gateway_interface := "";
     cs_lan_gateway_client_cidr := ""; cs_lan_gateway_dns_mode := ""; cs_lan_gateway_status := "disabled";
     cs_status := if ready then "connected" else "runtime_mismatch";
     cs_last_failure_reason := if ready then "" else "OpenVPN readiness evidence is incomplete"; cs_last_failure_at := cs_last_failure_at c |}.
Definition ov_status : OM ConnectionState :=
  d ← self;
  match od_process d with
  | None =>
      active ← vpn_interface_active (od_active_profile d);
      orphan ← (if active : bool then mret true else io (any_recorded_child_alive (rh_proc host) OV_RUNTIME_PREFIX));
      liftR (new_ConnectionState (if orphan : bool then "runtime_mismatch" else "standby") "standby")
  | Some pid =>
      gone ← io (rh_exited host pid);
      if negb gone then
        ready ← interface_ready (od_active_profile d);
        liftR (ConnectionState_post_init (ov_running_state d ready))
      else
        _ ← update (ov_session None None None);
        _ ← cleanup_endpoint_route;
        _ ← ov_cleanup_runtime;
        liftR (new_ConnectionState "standby" "standby")
  end.
End driver.
