(* ===== verification/OpenVpnSafety.v ===== *)
(** * Which routes the OpenVPN driver removes

    About [OpenVpnDriver], over every host and every sequence of calls. *)
From stdpp Require Import base list strings pretty.
From Stdlib Require Import Ascii ZArith QArith.
From S2P Require Import Prelude Steps PyData PyText PyUrl Profiles NodeGroups Rules Protocol OpenVpn Endpoint ProfileSchema Health SingBox RuntimePaths SingBoxRun SingBoxSafety OpenVpnDriver.

(** The route that a command adds, or removes *)
Definition adds (c : list string) : option string :=
  match c with
  | tool :: object :: verb :: r :: _ => if String.eqb tool "ip" && String.eqb object "route" && String.eqb verb "add" then Some r else None
  | _ => None
  end.
Definition removes (c : list string) : option string :=
  match c with
  | [tool; object; verb; r] => if String.eqb tool "ip" && String.eqb object "route" && String.eqb verb "delete" then Some r else None
  | _ => None
  end.
(** The route that a log shows as added and not yet removed; the last call is first *)
Fixpoint route_state (l : list gw_event) : option string :=
  match l with
  | [] => None
  | GRun c ok :: earlier =>
      match adds c, removes c with
      | Some r, _ => if ok then Some r else route_state earlier
      | None, Some _ => None
      | None, None => route_state earlier
      end
  | _ :: earlier => route_state earlier
  end.
(** Every removal is of the route that was added and not yet removed *)
Fixpoint removes_own (l : list gw_event) : Prop :=
  match l with
  | [] => True
  | e :: earlier =>
      removes_own earlier ∧ match e with GRun c _ => ∀ r, removes c = Some r → route_state earlier = Some r | _ => True end
  end.
Lemma adds_inv c r : adds c = Some r → ∃ rest, c = "ip" :: "route" :: "add" :: r :: rest.
Proof.
  destruct c as [|a [|b [|d [|e rest]]]]; try done. cbn. destruct (String.eqb a "ip") eqn:E1; [|done]. destruct (String.eqb b "route") eqn:E2; [|done].
  destruct (String.eqb d "add") eqn:E3; [|done]. apply String.eqb_eq in E1 as ->, E2 as ->, E3 as ->. cbn. intros [= ->]. eauto.
Qed.
Lemma adds_not_removes c r : adds c = Some r → removes c = None.
Proof. intros (rest & ->)%adds_inv. by destruct rest. Qed.
Definition route_neutral (c : list string) : Prop := adds c = None ∧ removes c = None.

Lemma steps_finally_with {S A B} (R : S → S → Prop) `{!PreOrder R} (m : PyM S A) (f : PyM S B) :
  steps R m → steps R f → steps R (try_finally_with m f).
Proof.
  intros Hm Hf s. specialize (Hm s). unfold try_finally_with. destruct (m s) as [r s']. specialize (Hf s'). cbn in *.
  destruct (f s') as [[b|e] s'']; cbn in *; by etrans.
Qed.

(** The calls of a client of the driver *)
Inductive ov_call : Type :=
| OvConnect (p : Profile)
| OvDisconnect
| OvStatus
| OvHealth
| OvPreflight (p : Profile)
| OvEgress.

Section ownership.
Context `{PyStr} {W : Type} (host : RunHost W) (unlink : string → PyM W unit) (read_replacing : string → PyM W string).
Notation h := (gw_watched host).
Notation ST := (OvDriver * (W * list gw_event))%type.

Definition owns (s : ST) : Prop :=
  removes_own s.2.2 ∧ ∀ r, od_owned_endpoint_route s.1 = Some r → route_state s.2.2 = Some r.
Definition keeps (s s' : ST) : Prop := owns s → owns s'.
#[local] Instance keeps_preorder : PreOrder keeps.
Proof. split; [intros s Ho; exact Ho|]. unfold keeps. intros s1 s2 s3 H1 H2 H3. auto. Qed.

Lemma keeps_quiet {A} (m : PyM (W * list gw_event) A) : steps same_log m → steps keeps (io m).
Proof.
  intros Hm [d p] Ho. specialize (Hm p). unfold io. destruct (m p) as [r p']. unfold same_log in Hm. cbn in Hm |- *.
  unfold owns in *. cbn in *. by rewrite Hm.
Qed.
Lemma owned_update f : (∀ d, od_owned_endpoint_route (f d) = od_owned_endpoint_route d ∨ od_owned_endpoint_route (f d) = None) → steps keeps (update f).
Proof. intros Hf [d p] [H1 H2]. split; [exact H1|]. cbn in *. intros r Hr. destruct (Hf d) as [E|E]; rewrite E in Hr; [auto|done]. Qed.
Lemma keeps_self : steps keeps (self (W := W * list gw_event)).
Proof. apply steps_gets. typeclasses eauto. Qed.
Lemma keeps_run c : route_neutral c → steps keeps (run h c).
Proof.
  intros [Ha Hr] [d [w l]] [H1 H2]. unfold run, io. cbn. unfold logged. destruct (sh_run (rh_sb host) c w) as [r w']. unfold owns in *. cbn in *.
  rewrite Ha, Hr. split; [split; [done|intros ? [=]]|done].
Qed.
#[local] Hint Extern 1 (steps _ (run _ _)) => apply keeps_run; done : steps.
#[local] Hint Extern 1 (steps _ (io _)) => apply keeps_quiet, unlogged_steps : steps.
#[local] Hint Extern 1 (steps _ (update _)) => apply owned_update; intros; first [left; reflexivity|right; reflexivity] : steps.
#[local] Hint Resolve keeps_self : steps.
Lemma keeps_have name : steps keeps (have h name).
Proof. apply keeps_quiet, unlogged_steps. Qed.
Lemma keeps_exited p : steps keeps (ov_exited h p).
Proof. unfold ov_exited. destruct p; [apply keeps_quiet, unlogged_steps|step_ret]. Qed.
#[local] Hint Resolve keeps_have keeps_exited : steps.
Lemma keeps_tokens c : route_neutral c → steps keeps (ip_tokens h c).
Proof. intros Hc. pose proof (keeps_run c Hc). unfold ip_tokens. steps_tac. Qed.
Lemma keeps_fails msg : steps keeps (fails (W := W * list gw_event) msg).
Proof. unfold fails. steps_tac. Qed.
#[local] Hint Resolve keeps_fails : steps.
Lemma keeps_validate p : steps keeps (validate_single_ipv4_remote_endpoint (W := W * list gw_event) p).
Proof. unfold validate_single_ipv4_remote_endpoint. steps_tac. Qed.
#[local] Hint Resolve keeps_validate : steps.
Lemma keeps_validate_profile p : steps keeps (validate_profile_without_runtime (W := W * list gw_event) p).
Proof. unfold validate_profile_without_runtime. steps_tac. Qed.
Lemma keeps_existing address path : steps keeps (existing_endpoint_route_is_safe h address path).
Proof.
  assert (Ht : steps keeps (endpoint_route_resolution h address)) by by apply keeps_tokens.
  unfold existing_endpoint_route_is_safe. steps_tac.
Qed.
#[local] Hint Resolve keeps_validate_profile keeps_existing : steps.

(** The one place that takes ownership *)
Lemma adds_route route path : adds (route_add_command route path) = Some route ∧ removes (route_add_command route path) = None.
Proof. unfold route_add_command. by destruct (dp_gateway path), (dp_interface path), (dp_onlink path). Qed.
Lemma keeps_add route path (rest : completed → PyM ST bool) :
  (∀ r, steps keeps (rest r)) →
  steps keeps (r ← run h (route_add_command route path); if (cp_returncode r =? 0)%Z then _ ← update (ov_route (Some route)); mret true else rest r).
Proof.
  intros Hrest [d [w l]] [H1 H2]. destruct (adds_route route path) as [Ea Er]. rewrite bind_eval. unfold run, io. cbn [rh_sb gw_watched sh_run]. unfold logged.
  revert Ea Er. generalize (route_add_command route path). intros c Ea Er. cbn [fst snd] in *.
  assert (Hl : ∀ ok, removes_own (GRun c ok :: l)) by (intros ok; cbn [removes_own]; rewrite Er; split; [done|intros ? [=]]).
  assert (Hs : ∀ ok, route_state (GRun c ok :: l) = if ok then Some route else route_state l) by (intros ok; cbn [route_state]; by rewrite Ea).
  destruct (sh_run (rh_sb host) c w) as [[x|e] w']; cbn [succeeded].
  - destruct (cp_returncode x =? 0)%Z eqn:Ez.
    + split; [apply Hl|]. cbn. intros r [= <-]. exact (Hs true).
    + apply Hrest. split; [apply Hl|]. cbn [fst snd] in *. rewrite Hs. exact H2.
  - split; [apply Hl|]. cbn [fst snd] in *. rewrite Hs. exact H2.
Qed.
Lemma keeps_protect p : steps keeps (protect_remote_endpoint_route h p).
Proof.
  assert (Ht : steps keeps (default_route_tokens h)) by by apply keeps_tokens.
  unfold protect_remote_endpoint_route. apply steps_bind; [typeclasses eauto|apply keeps_validate|]. intros valid. destruct (negb valid); [step_ret|].
  apply steps_bind; [typeclasses eauto|apply steps_lift; typeclasses eauto|]. intros address. cbv zeta. apply steps_bind; [typeclasses eauto|exact Ht|].
  intros [[|t tokens]|]; [apply keeps_fails| |apply keeps_fails]. destruct (default_path_from_tokens _); [|apply keeps_fails].
  apply keeps_add. intros r. destruct (contains _ _); [apply keeps_existing|apply keeps_fails].
Qed.
Lemma keeps_cleanup_route : steps keeps (cleanup_endpoint_route h).
Proof.
  intros [d [w l]] [H1 H2]. unfold cleanup_endpoint_route. rewrite bind_eval. cbn [self gets]. rewrite bind_eval. cbn [update modifyS fst snd].
  assert (H0 : owns (ov_route None d, (w, l))) by (split; [exact H1|by intros ?]).
  destruct (od_owned_endpoint_route d) as [[|c route]|] eqn:Eo; [exact H0| |exact H0]. cbn in H2. specialize (H2 _ Eo).
  rewrite bind_eval. unfold have, io. cbn [rh_sb gw_watched sh_which]. unfold unlogged. destruct (sh_which (rh_sb host) "ip" w) as [[[]|e] w1]; [|exact H0|exact H0].
  rewrite bind_eval. unfold run, io. cbn [rh_sb gw_watched sh_run]. unfold logged.
  assert (Hd : ∀ w2 ok, owns (ov_route None d, (w2, GRun ["ip"; "route"; "delete"; String c route] ok :: l))).
  { intros w2 ok. split; [|by intros ?]. cbn. split; [exact H1|]. by intros r [= <-]. }
  destruct (sh_run (rh_sb host) _ w1) as [[x|e] w2]; apply Hd.
Qed.
#[local] Hint Resolve keeps_protect keeps_cleanup_route : steps.

Lemma keeps_cleanup_runtime : steps keeps (ov_cleanup_runtime h).
Proof. unfold ov_cleanup_runtime. steps_tac. Qed.
Lemma keeps_paths : steps keeps (ov_ensure_runtime_paths h).
Proof.
  assert (Hm : steps keeps (io (make_runtime_dir (rh_proc h) OV_RUNTIME_PREFIX))) by apply keeps_quiet, quiet_make_dir.
  unfold ov_ensure_runtime_paths. steps_tac.
Qed.
#[local] Hint Resolve keeps_cleanup_runtime keeps_paths : steps.
Lemma keeps_generate p : steps keeps (generate_openvpn_config h p).
Proof.
  assert (Hw : ∀ path text, steps keeps (io (write_private_file (rh_proc h) path text))).
  { intros. apply keeps_quiet, ops_write; [typeclasses eauto|apply quiet_ops]. }
  unfold generate_openvpn_config. steps_tac.
Qed.
Lemma keeps_active p : steps keeps (vpn_interface_active h p).
Proof. unfold vpn_interface_active. steps_tac. Qed.
Lemma keeps_configure p : steps keeps (configure_readiness (W := W * list gw_event) p).
Proof. unfold configure_readiness. steps_tac. Qed.
#[local] Hint Resolve keeps_generate keeps_active keeps_configure : steps.
Notation unlink' := (fun p => unlogged (unlink p)).
Notation read' := (fun p => unlogged (read_replacing p)).
Lemma keeps_evidence : steps keeps (readiness_evidence_ready read').
Proof.
  assert (Hr : ∀ a b, steps keeps (io (observed (status ← read' a; log ← read' b; mret (status, log))))).
  { intros a b. apply keeps_quiet, steps_observed; [typeclasses eauto|]. pose proof (@unlogged_steps W) as Hq. steps_tac; apply Hq. }
  unfold readiness_evidence_ready. steps_tac.
Qed.
#[local] Hint Resolve keeps_evidence : steps.
Lemma keeps_ready p : steps keeps (interface_ready h read' p).
Proof. unfold interface_ready. steps_tac. Qed.
Lemma keeps_egress : steps keeps (egress_interface h).
Proof. unfold egress_interface. steps_tac. Qed.
#[local] Hint Resolve keeps_ready : steps.
Lemma keeps_wait p : steps keeps (wait_for_ready h read' p).
Proof.
  unfold wait_for_ready. apply steps_bind; [typeclasses eauto|apply keeps_quiet, unlogged_steps|]. intros now.
  apply steps_wait_until; [typeclasses eauto| |steps_tac].
  intros A m []; apply keeps_quiet, unlogged_steps.
Qed.
Lemma keeps_disconnect : steps keeps (ov_disconnect h).
Proof.
  assert (Hs : ∀ p, steps keeps (io (stop_process h p))) by (intros p; apply keeps_quiet; pose proof (@unlogged_steps W) as Hq; unfold stop_process; steps_tac; apply Hq).
  assert (Hk : steps keeps (io (kill_all_recorded_children (rh_proc h) OV_RUNTIME_PREFIX))) by (apply keeps_quiet, ops_kill_all; [typeclasses eauto|apply quiet_ops]).
  unfold ov_disconnect. steps_tac. apply steps_finally_with; steps_tac.
Qed.
#[local] Hint Resolve keeps_disconnect keeps_wait : steps.
Lemma owned_rollback : steps keeps (rollback_startup h).
Proof. unfold rollback_startup. steps_tac. Qed.
#[local] Hint Resolve owned_rollback : steps.
Lemma keeps_build binary path options : steps keeps (io (build_openvpn_command h binary path options)).
Proof. apply keeps_quiet. pose proof (@unlogged_steps W) as Hq. unfold build_openvpn_command. steps_tac; apply Hq. Qed.
Lemma keeps_record dir label pid hint : steps keeps (io (record_child_process (rh_proc h) dir label pid hint)).
Proof. apply keeps_quiet, ops_record; [typeclasses eauto|apply quiet_ops]. Qed.
#[local] Hint Resolve keeps_build keeps_record : steps.
Lemma keeps_start binary dir p : steps keeps (ov_start h unlink' read' binary dir p).
Proof.
  assert (Hu : ∀ path, steps keeps (io (observed (unlink' path)))) by (intros; apply keeps_quiet, steps_observed; [typeclasses eauto|apply unlogged_steps]).
  unfold ov_start. steps_tac.
Qed.
#[local] Hint Resolve keeps_start : steps.
Lemma keeps_connect p : steps keeps (ov_connect h unlink' read' p).
Proof.
  assert (Hf : steps keeps (io (find_openvpn_binary h))).
  { apply keeps_quiet. pose proof (@unlogged_steps W) as Hq. unfold find_openvpn_binary, find_binary. steps_tac; apply Hq. }
  unfold ov_connect, ov_ensure_disconnected. steps_tac.
Qed.
Lemma keeps_health : steps keeps (ov_health_check h read').
Proof. unfold ov_health_check. steps_tac. Qed.
Lemma keeps_status : steps keeps (ov_status h read').
Proof.
  assert (Ha : steps keeps (io (any_recorded_child_alive (rh_proc h) OV_RUNTIME_PREFIX))) by (apply keeps_quiet, ops_any_alive; [typeclasses eauto|apply quiet_ops]).
  unfold ov_status. steps_tac.
Qed.
Lemma keeps_preflight p : steps keeps (preflight_profile (W := W * list gw_event) p).
Proof.
  assert (Hu : ∀ msg, steps keeps (update (W := W * list gw_event) (ov_error msg))) by (intros; apply owned_update; by left).
  unfold preflight_profile. steps_tac.
Qed.

(** ** Any sequence of calls *)
Definition ov_perform (c : ov_call) : PyM ST unit :=
  match c with
  | OvConnect p => _ ← ov_connect h unlink' read' p; mret tt
  | OvDisconnect => _ ← ov_disconnect h; mret tt
  | OvStatus => _ ← ov_status h read'; mret tt
  | OvHealth => _ ← ov_health_check h read'; mret tt
  | OvPreflight p => preflight_profile p
  | OvEgress => _ ← egress_interface h; mret tt
  end.
(** The state after the calls; the caller survives what a call raises *)
Definition ov_calls (calls : list ov_call) (w : W) : ST :=
  foldl (fun s c => (ov_perform c s).2) (new_ov_driver, (w, [])) calls.
Lemma calls_own calls w : owns (ov_calls calls w).
Proof.
  unfold ov_calls. assert (H0 : owns (new_ov_driver, (w, []))) by (split; [exact I|by intros ?]). revert H0.
  generalize (new_ov_driver, (w, []) : W * list gw_event). induction calls as [|c calls IH]; intros s Hs; [exact Hs|]. apply IH. revert Hs.
  assert (Hc : steps keeps (ov_perform c)).
  { pose proof keeps_connect. pose proof keeps_status. pose proof keeps_health. pose proof keeps_preflight. pose proof keeps_egress.
    destruct c; cbn [ov_perform]; steps_tac. }
  apply (Hc s).
Qed.

Lemma removes_own_at later c ok earlier r :
  removes_own (later ++ GRun c ok :: earlier) → removes c = Some r → route_state earlier = Some r.
Proof. induction later as [|e later IH]; cbn; intros [H1 H2]; [apply H2|by apply IH]. Qed.
Definition removes_nothing (e : gw_event) : Prop := match e with GRun c _ => removes c = None | _ => True end.
Lemma route_state_some l r : route_state l = Some r →
  ∃ since c before, l = since ++ GRun c true :: before ∧ adds c = Some r ∧ Forall removes_nothing since.
Proof.
  induction l as [|e l IH]; [done|]. intros Hl.
  assert (Hn : removes_nothing e → route_state l = Some r →
    ∃ since c before, e :: l = since ++ GRun c true :: before ∧ adds c = Some r ∧ Forall removes_nothing since).
  { intros He Hs. destruct (IH Hs) as (since & c & before & -> & Hc & Hf). exists (e :: since), c, before. split; [done|]. split; [done|by constructor]. }
  destruct e as [c ok| |]; [|by apply Hn|by apply Hn]. cbn [route_state] in Hl. destruct (adds c) as [r'|] eqn:Ea.
  - destruct ok; [injection Hl as ->; by exists [], c, l|]. apply Hn; [|done]. by apply adds_not_removes in Ea.
  - destruct (removes c) eqn:Er; [done|]. by apply Hn.
Qed.

(** C20: The OpenVPN driver deletes only its own route.  Over every host and every sequence of
    connects, disconnects, status reads, health checks and preflights of any profiles, whatever the
    calls return or raise, every [ip route delete] that the driver runs is preceded by an
    [ip route add] of the same route that succeeded, with no other deletion in between: a route that
    already existed, or one that was already deleted, is never deleted. *)
Theorem openvpn_deletes_own_route calls w later r ok earlier :
  (ov_calls calls w).2.2 = later ++ GRun ["ip"; "route"; "delete"; r] ok :: earlier →
  ∃ since rest before, earlier = since ++ GRun ("ip" :: "route" :: "add" :: r :: rest) true :: before ∧ Forall removes_nothing since.
Proof.
  intros Hl. destruct (calls_own calls w) as [Ho _]. rewrite Hl in Ho. apply (removes_own_at _ _ _ _ r) in Ho; [|done].
  destruct (route_state_some _ _ Ho) as (since & c & before & -> & Hc & Hf). apply adds_inv in Hc as [rest ->]. eauto.
Qed.
End ownership.

Module DemoOpenVpnRun.
#[local] Instance str : PyStr := {| repr_compound := fun _ => ""; float_literal := fun _ => None |}.
#[local] Notation ok := DemoRun.ok.
(** With [fresh] the endpoint has no route of its own yet *)
Definition run_command (fresh : bool) (c : list string) : PyM DemoRun.world completed :=
  match c with
  | ["ip"; "-4"; "route"; "show"; "default"] => ok (DemoRun.done_ "default via 192.0.2.1 dev eth0 proto dhcp")
  | ["ip"; "-4"; "route"; "get"; _] => ok (DemoRun.done_ "93.184.216.34 via 192.0.2.1 dev eth0 src 192.0.2.7")
  | ["ip"; "-o"; "link"; "show"] => ok (DemoRun.done_ ("1: lo: <UP>" +:+ nl +:+ "9: tunwd: <UP>"))
  | "ip" :: "route" :: "add" :: _ =>
      ok (if fresh then DemoRun.done_ "" else {| cp_returncode := 2; cp_stdout := ""; cp_stderr := "RTNETLINK answers: File exists" |})
  | _ => ok (DemoRun.done_ "")
  end.
Definition host (fresh : bool) : RunHost DemoRun.world := {|
  rh_sb := {| sh_environ := fun _ => None; sh_which := fun _ => ok true; sh_run := run_command fresh |};
  rh_proc := DemoRun.proc; rh_binaries := []; rh_access_x := fun _ => ok true; rh_which_path := fun name => ok (Some ("/usr/bin/" +:+ name));
  rh_run_timeout := fun _ _ => raiseM TimeoutExpired ""; rh_open_log := fun _ => ok tt; rh_popen := fun _ => modifyS (fun w => (w.1, true)) ;; mret 7%Z;
  rh_exited := fun _ => alive ← gets snd; mret (negb alive); rh_terminate := fun _ => modifyS (fun w => (w.1, false));
  rh_kill_child := fun _ => ok tt; rh_wait := fun _ _ => ok tt; rh_append := fun _ _ => ok tt; rh_read_forward := ok "";
  rh_write_forward := fun _ => ok tt; rh_remove_dir := fun _ => ok tt; rh_connect_tcp := fun _ _ => ok tt;
  rh_utcnow := ok {| dt_wall := 0; dt_utcoffset := None |}; rh_render := fun _ => ""; rh_cache_path := "/cache.db" |}.
Definition unlink (p : string) : PyM DemoRun.world unit := ok tt.
Definition read (p : string) : PyM DemoRun.world string := ok (if endswith "status" p then "OpenVPN STATISTICS" else "Initialization Sequence Completed").
Definition after (fresh : bool) (calls : list ov_call) := ov_calls (host fresh) unlink read calls (0%Q, false).

(** An existing route that follows the default one is used and left alone *)
Example existing_route_kept : omap (fun e => match e with GRun c _ => removes c | _ => None end)
    (after false [OvConnect DemoEndpoint.profile; OvStatus; OvDisconnect]).2.2 = []
  ∧ od_connected_at (after false [OvConnect DemoEndpoint.profile]).1 = Some {| dt_wall := 0; dt_utcoffset := None |}.
Proof. vm_compute. auto. Qed.

Lemma openvpn_deletes_own_route_witness :
  ∃ since rest before,
    [GRun ["ip"; "-o"; "link"; "show"] true; GRun ["ip"; "route"; "add"; "93.184.216.34/32"; "via"; "192.0.2.1"; "dev"; "eth0"] true;
     GRun ["ip"; "-4"; "route"; "show"; "default"] true]
    = since ++ GRun ("ip" :: "route" :: "add" :: "93.184.216.34/32" :: rest) true :: before ∧ Forall removes_nothing since.
Proof.
  apply (openvpn_deletes_own_route (host true) unlink read [OvConnect DemoEndpoint.profile; OvDisconnect] (0%Q, false) [] "93.184.216.34/32" true).
  vm_compute. reflexivity.
Defined.
End DemoOpenVpnRun.
