(* ===== verification/NativePolicy.v ===== *)
(** * A native transport under the policy runtime

    drivers/native_policy_driver.py: the driver that puts a native tunnel (OpenVPN, AmneziaWG) under
    the sing-box policy runtime.  The two drivers it composes are the interfaces [NativeTransport] and
    [PolicyCompanion]; the OpenVPN and sing-box drivers implement them. *)
From stdpp Require Import base list strings pretty.
From Stdlib Require Import Ascii ZArith QArith.
From S2P Require Import Prelude Steps PyData PyText PyUrl Profiles NodeGroups RouteChains AppPolicy Rules RuleRoutes StateManager Dns DnsPolicy DnsConfig WatchdogPolicy Watchdog OpenVpn Endpoint ProfileSchema Health SingBox SingBoxConfig RuntimePaths SingBoxRun SingBoxSafety OpenVpnDriver OpenVpnSafety.

Definition AMNEZIAWG_INTERFACE_NAME : string := "watchdogvpn_awg".
Definition COMPANION_TUN_INTERFACE : string := "wdvpn-tun0".
Definition KNOWN_OWNED_INTERFACES : list string := [AMNEZIAWG_INTERFACE_NAME; COMPANION_TUN_INTERFACE].

(** ** The endpoints that stay outside the tunnel *)
Definition strip_endpoint_port (raw : pyval) : option string :=
  match raw with
  | PStr s =>
      let value := strip s in
      if negb (truthy_str value) then None
      else if startswith "[" value && contains "]" value then Some (partition_on "]" (str_drop 1 value)).1.1
      else if contains ":" value then Some (rpartition_on ":" value).1.1
      else Some value
  | _ => None
  end.
Definition is_bracket (c : ascii) : bool := Ascii.eqb c "[" || Ascii.eqb c "]".
Definition host_cidr (a : IpAddress) : string := ip_text a +:+ "/" +:+ (if (ip_version a =? 6)%Z then "128" else "32").
(** The addresses of a datagram lookup, [record[4][0]] of each record *)
Definition Lookup : Type := string → res (list string).
Fixpoint record_addresses (texts : list string) : res (list IpAddress) :=
  match texts with
  | [] => Ok []
  | text :: rest =>
      if negb (truthy_str text) then record_addresses rest
      else match ip_address text with
      | None => raise ValueError (repr_str text +:+ " does not appear to be an IPv4 or IPv6 address")
      | Some a => more ← record_addresses rest; Ok (a :: more)
      end
  end.
(** The text of a value that is a string and not blank *)
Definition host_text (v : pyval) : option string :=
  match v with PStr s => if truthy_str (strip s) then Some s else None | _ => None end.
Definition native_endpoint_bypass_cidrs `{PyStr} (lookup : Lookup) (p : Profile) : res (list string) :=
  raw_host ← (if bool_decide (p_protocol p = OPENVPN) then host ← validated_openvpn_remote_host p; Ok (PStr host)
              else Ok (cfg_or (p_config p) ["host"; "server"]));
  let raw_host := match host_text raw_host with Some s => Some s | None => strip_endpoint_port (cfg_get "endpoint" (p_config p)) end in
  match raw_host ≫= fun s => host_text (PStr s) with
  | None => Ok []
  | Some s =>
      let host := rstrip_by is_bracket (lstrip_by is_bracket (strip s)) in
      match ip_address host with
      | Some a => Ok [host_cidr a]
      | None =>
          match lookup host with
          | Err e => if os_error e then Ok [] else Err e
          | Ok texts => addresses ← record_addresses texts; Ok (py_sorted String.ltb (map host_cidr (remove_dups addresses)))
          end
      end
  end.

(** *** The addresses of the peer, read from the profile *)

Definition host_char (c : ascii) : bool := negb (is_space c) && negb (is_bracket c).
Definition plain_host (h : string) : Prop := h ≠ "" ∧ forall_chars host_char h = true.
(** The peer that the configuration of a profile names.  An OpenVPN profile names the remote that its
    own configuration text validates; another profile names it under "host", else under "server",
    else under "endpoint" with a port behind it. *)
Inductive peer_host `{PyStr} (p : Profile) : string → Prop :=
| ph_openvpn h : p_protocol p = OPENVPN → validated_openvpn_remote_host p = Ok h → peer_host p h
| ph_host h raw : p_protocol p ≠ OPENVPN → raw = h ∨ raw = "[" +:+ h +:+ "]" → cfg_get "host" (p_config p) = PStr raw → peer_host p h
| ph_server h raw : p_protocol p ≠ OPENVPN → truthy (cfg_get "host" (p_config p)) = false → raw = h ∨ raw = "[" +:+ h +:+ "]" →
    cfg_get "server" (p_config p) = PStr raw → peer_host p h
| ph_endpoint h port : p_protocol p ≠ OPENVPN → truthy (cfg_get "host" (p_config p)) = false → truthy (cfg_get "server" (p_config p)) = false →
    forall_chars is_digit port = true →
    cfg_get "endpoint" (p_config p) = PStr (h +:+ ":" +:+ port) ∨ cfg_get "endpoint" (p_config p) = PStr ("[" +:+ h +:+ "]:" +:+ port) →
    peer_host p h.
(** The addresses behind that name: its own, or those that a lookup of it answers *)
Definition peer_address `{PyStr} (lookup : Lookup) (p : Profile) (a : IpAddress) : Prop :=
  ∃ h, peer_host p h ∧ plain_host h
    ∧ (ip_address h = Some a ∨ ip_address h = None ∧ ∃ texts text, lookup h = Ok texts ∧ text ∈ texts ∧ ip_address text = Some a).
(** The network of that one address *)
Definition single_network (a : IpAddress) : string := ip_text a +:+ match a with IPv4Address _ => "/32" | IPv6Address _ _ => "/128" end.

Lemma host_cidr_single a : host_cidr a = single_network a.
Proof. by destruct a. Qed.
Lemma host_no_space h : forall_chars host_char h = true → forall_chars (fun c => negb (is_space c)) h = true.
Proof. apply forall_chars_impl. intros c Hc. unfold host_char in Hc. by apply andb_true_iff in Hc as [? _]. Qed.
Lemma host_no_bracket h : forall_chars host_char h = true → forall_chars (fun c => negb (is_bracket c)) h = true.
Proof. apply forall_chars_impl. intros c Hc. unfold host_char in Hc. by apply andb_true_iff in Hc as [_ ?]. Qed.
Lemma forall_chars_app_true p a b : forall_chars p (a +:+ b) = true ↔ forall_chars p a = true ∧ forall_chars p b = true.
Proof. rewrite forall_chars_app. apply andb_true_iff. Qed.
Lemma rstrip_dropped p s c : p c = true → rstrip_by p (s +:+ String c "") = rstrip_by p s.
Proof.
  intros Hc. induction s as [|d s IH].
  - change ("" +:+ String c "") with (String c ""). cbn [rstrip_by]. by rewrite Hc.
  - change (String d s +:+ String c "") with (String d (s +:+ String c "")). cbn [rstrip_by]. by rewrite IH.
Qed.
Lemma unbracket h raw : plain_host h → raw = h ∨ raw = "[" +:+ h +:+ "]" →
  strip raw = raw ∧ truthy_str raw = true ∧ rstrip_by is_bracket (lstrip_by is_bracket raw) = h.
Proof.
  intros [Hne Hh] Hr. pose proof (host_no_bracket _ Hh) as Hb.
  assert (Hs : rstrip_by is_bracket h = h) by by apply rstrip_forall.
  assert (Hl : ∀ t, lstrip_by is_bracket (h +:+ t) = h +:+ t).
  { intros t. destruct h as [|c h]; [done|]. cbn in Hb. apply andb_true_iff in Hb as [Hc _]. apply lstrip_by_id. by destruct (is_bracket c). }
  destruct Hr as [->| ->].
  - split; [apply strip_no_space, host_no_space, Hh|]. split; [by destruct h|]. specialize (Hl ""). rewrite app_string_nil in Hl. by rewrite Hl.
  - split; [apply strip_no_space; rewrite !forall_chars_app_true; repeat split; try done; by apply host_no_space|]. split; [done|].
    change (lstrip_by is_bracket ("[" +:+ h +:+ "]")) with (lstrip_by is_bracket (h +:+ "]")). rewrite Hl. by rewrite rstrip_dropped.
Qed.
Lemma rpartition_last c h t : contains (String c "") t = false → rpartition_on c (h +:+ String c t) = (h, true, t).
Proof.
  intros Ht. assert (Hn : ∃ b, rpartition_on c t = ("", false, b) ∧ b = t).
  { induction t as [|d t IH]; [by exists ""|]. cbn in Ht. apply orb_false_iff in Ht as [Hd Ht]. destruct (IH Ht) as (b & E & ->). exists (String d t).
    split; [|done]. cbn. rewrite E. destruct (Ascii.eqb_spec d c) as [->|]; [|done]. exfalso. revert Hd. cbn.
    destruct (ascii_dec c c); [by destruct t|done]. }
  destruct Hn as (b & E & ->). induction h as [|d h IH].
  - change ("" +:+ String c t) with (String c t). cbn [rpartition_on]. by rewrite E, Ascii.eqb_refl.
  - change (String d h +:+ String c t) with (String d (h +:+ String c t)). cbn [rpartition_on]. by rewrite IH.
Qed.
Lemma partition_first c h t : forall_chars (fun d => negb (Ascii.eqb d c)) h = true → partition_on c (h +:+ String c t) = (h, true, t).
Proof.
  induction h as [|d h IH]; intros Hh.
  - change ("" +:+ String c t) with (String c t). cbn [partition_on]. by rewrite Ascii.eqb_refl.
  - change (String d h +:+ String c t) with (String d (h +:+ String c t)). cbn [partition_on forall_chars] in *. apply andb_true_iff in Hh as [Hd Hh].
    destruct (Ascii.eqb d c); [done|]. by rewrite IH.
Qed.

Lemma contains_self c t : contains (String c "") (String c t) = true.
Proof. cbn. destruct (ascii_dec c c); [|done]. by destruct t. Qed.
(** The two spellings of an endpoint lose their port. *)
Lemma strip_endpoint_port_host h port raw : plain_host h → forall_chars is_digit port = true →
  raw = h +:+ ":" +:+ port ∨ raw = "[" +:+ h +:+ "]:" +:+ port → strip_endpoint_port (PStr raw) = Some h.
Proof.
  intros [Hne Hh] Hp Hr.
  assert (Hps : forall_chars (fun c => negb (is_space c)) port = true).
  { eapply forall_chars_impl; [|exact Hp]. by intros [[] [] [] [] [] [] [] []]. }
  assert (Hpc : contains ":" port = false).
  { apply contains_char_false. eapply forall_chars_impl; [|exact Hp]. by intros [[] [] [] [] [] [] [] []]. }
  assert (Hs : strip raw = raw).
  { apply strip_no_space. destruct Hr as [->| ->]; rewrite !forall_chars_app_true; repeat split; try done; by apply host_no_space. }
  unfold strip_endpoint_port. rewrite Hs. destruct Hr as [->| ->].
  - assert (Ht : truthy_str (h +:+ ":" +:+ port) = true) by by destruct h. rewrite Ht. cbn [negb].
    assert (Hb : startswith "[" (h +:+ ":" +:+ port) = false).
    { destruct h as [|c h]; [done|]. apply host_no_bracket in Hh. cbn in Hh. apply andb_true_iff in Hh as [Hc _]. unfold startswith. cbn.
      change (String c h +:+ ":" +:+ port) with (String c (h +:+ ":" +:+ port)). cbn [String.prefix]. destruct (ascii_dec "[" c) as [<-|]; done. }
    rewrite Hb. cbn [andb]. rewrite (contains_app_r ":" h _) by apply contains_self. change (":" +:+ port) with (String ":" port). by rewrite rpartition_last.
  - change ("[" +:+ h +:+ "]:" +:+ port) with (String "[" (h +:+ String "]" (":" +:+ port))).
    assert (Hb : startswith "[" (String "[" (h +:+ String "]" (":" +:+ port))) = true) by apply (prefix_app "[").
    assert (Hc : contains "]" (String "[" (h +:+ String "]" (":" +:+ port))) = true) by (apply (contains_app_r "]" (String "[" h)), contains_self).
    rewrite Hb, Hc. cbn [truthy_str negb andb str_drop].
    rewrite partition_first; [done|]. eapply forall_chars_impl; [|apply host_no_bracket, Hh]. intros d Hd. unfold is_bracket in Hd.
    destruct (Ascii.eqb d "]"); [|done]. by rewrite orb_true_r in Hd.
Qed.
Lemma record_addresses_in texts addresses text a : record_addresses texts = Ok addresses → text ∈ texts → ip_address text = Some a → a ∈ addresses.
Proof.
  intros Hr Hin Ha. revert addresses Hr. induction texts as [|t texts IH]; [by apply not_elem_of_nil in Hin|]. intros addresses. cbn [record_addresses].
  apply elem_of_cons in Hin as [<-|Hin].
  - assert (Ht : truthy_str text = true) by (destruct text; [by vm_compute in Ha|done]). rewrite Ht, Ha. cbn [negb].
    destruct (record_addresses texts) as [more|]; cbn; [|done]. intros [= <-]. apply list_elem_of_here.
  - destruct (truthy_str t); cbn [negb]; [|by apply IH]. destruct (ip_address t) as [b|]; [|done]. destruct (record_addresses texts) as [more|]; cbn; [|done].
    intros [= <-]. apply list_elem_of_further. by apply IH.
Qed.
Lemma record_addresses_from texts addresses a : record_addresses texts = Ok addresses → a ∈ addresses → ∃ text, text ∈ texts ∧ ip_address text = Some a.
Proof.
  revert addresses. induction texts as [|t texts IH]; intros addresses; cbn [record_addresses]; [by intros [= <-] ?%not_elem_of_nil|].
  destruct (truthy_str t); cbn [negb]; [|intros Hr Ha; destruct (IH _ Hr Ha) as (x & ? & ?); exists x; by rewrite elem_of_cons; auto].
  destruct (ip_address t) as [b|] eqn:Eb; [|done]. destruct (record_addresses texts) as [more|]; cbn; [|done]. intros [= <-] [->|Ha]%elem_of_cons.
  - exists t. by rewrite elem_of_cons; auto.
  - destruct (IH _ eq_refl Ha) as (x & ? & ?). exists x. by rewrite elem_of_cons; auto.
Qed.
(** Every address of the peer is among the networks that stay outside the tunnel. *)
Lemma bypass_covers_peer `{PyStr} lookup p cidrs a :
  native_endpoint_bypass_cidrs lookup p = Ok cidrs → peer_address lookup p a → single_network a ∈ cidrs.
Proof.
  intros Hn (h & Hp & Hplain & Ha).
  assert (Hq : ∃ s, strip s = s ∧ truthy_str s = true ∧ rstrip_by is_bracket (lstrip_by is_bracket s) = h ∧
    (raw_host ← (if bool_decide (p_protocol p = OPENVPN) then host ← validated_openvpn_remote_host p; Ok (PStr host)
              else Ok (cfg_or (p_config p) ["host"; "server"]));
     Ok match host_text raw_host with Some s => Some s | None => strip_endpoint_port (cfg_get "endpoint" (p_config p)) end) = Ok (Some s)).
  { assert (Hset : ∀ s, strip s = s → truthy_str s = true → host_text (PStr s) = Some s) by (intros s Hs Ht; unfold host_text; by rewrite Hs, Ht).
    destruct Hp as [h Ho Hv|h raw Ho Hr Hc|h raw Ho Hf Hr Hc|h port Ho Hf Hf' Hd Hc].
    - destruct (unbracket h h Hplain (or_introl eq_refl)) as (Hs & Ht & Hu). exists h. repeat split; [done..|].
      rewrite bool_decide_eq_true_2 by done. rewrite Hv. pose proof (Hset _ Hs Ht) as E. cbn in E |- *. by rewrite E.
    - destruct (unbracket h raw Hplain Hr) as (Hs & Ht & Hu). exists raw. repeat split; [done..|].
      rewrite bool_decide_eq_false_2 by done. unfold cfg_or. cbn [map py_or]. rewrite Hc. cbn [truthy]. rewrite Ht. pose proof (Hset _ Hs Ht) as E. cbn in E |- *. by rewrite E.
    - destruct (unbracket h raw Hplain Hr) as (Hs & Ht & Hu). exists raw. repeat split; [done..|].
      rewrite bool_decide_eq_false_2 by done. unfold cfg_or. cbn [map py_or]. rewrite Hf, Hc. pose proof (Hset _ Hs Ht) as E. cbn in E |- *. by rewrite E.
    - destruct (unbracket h h Hplain (or_introl eq_refl)) as (Hs & Ht & Hu). exists h. repeat split; [done..|].
      rewrite bool_decide_eq_false_2 by done. unfold cfg_or. cbn [map py_or]. rewrite Hf. cbn.
      assert (Hz : host_text (cfg_get "server" (p_config p)) = None).
      { destruct (cfg_get "server" (p_config p)); try done. cbn in Hf'. destruct s; [done|done]. }
      rewrite Hz. destruct Hc as [-> | ->]; erewrite strip_endpoint_port_host; eauto. }
  destruct Hq as (s & Hs & Ht & Hu & Hq). unfold native_endpoint_bypass_cidrs in Hn.
  destruct (if bool_decide (p_protocol p = OPENVPN) then _ else _) as [v|]; [|done]. cbn in Hq, Hn. injection Hq as Hq. rewrite Hq in Hn. cbn in Hn.
  rewrite Hs, Ht in Hn. rewrite Hs, Hu in Hn. rewrite <- host_cidr_single. destruct Ha as [Ha|(Ha & texts & text & Hl & Hin & Hx)]; rewrite Ha in Hn.
  - injection Hn as <-. by apply list_elem_of_singleton.
  - rewrite Hl in Hn. destruct (record_addresses texts) as [addresses|] eqn:Er; cbn in Hn; [|done]. injection Hn as <-.
    rewrite py_sorted_perm. apply list_elem_of_fmap. exists a. split; [done|]. apply elem_of_remove_dups. by eapply record_addresses_in.
Qed.
(** And each of them is the network of one address, written as a literal or answered by the lookup. *)
Lemma bypass_single `{PyStr} lookup p cidrs cidr : native_endpoint_bypass_cidrs lookup p = Ok cidrs → cidr ∈ cidrs →
  ∃ h a, cidr = single_network a ∧ (ip_address h = Some a ∨ ∃ texts text, lookup h = Ok texts ∧ text ∈ texts ∧ ip_address text = Some a).
Proof.
  unfold native_endpoint_bypass_cidrs. destruct (if bool_decide _ then _ else _) as [v|]; [|done]. cbn [mbind res_bind].
  destruct (_ ≫= _) as [s|]; [|by intros [= <-] ?%not_elem_of_nil]. set (h := rstrip_by _ _). destruct (ip_address h) as [a|] eqn:Ea.
  { intros [= <-] ->%list_elem_of_singleton. exists h, a. split; [apply host_cidr_single|by left]. }
  destruct (lookup h) as [texts|e] eqn:El; [|by destruct (os_error e); [intros [= <-] ?%not_elem_of_nil|]].
  destruct (record_addresses texts) as [addresses|] eqn:Er; cbn; [|done]. intros [= <-]. rewrite py_sorted_perm.
  intros (a & -> & Ha)%list_elem_of_fmap. rewrite elem_of_remove_dups in Ha. exists h, a. split; [apply host_cidr_single|]. right. exists texts.
  destruct (record_addresses_from _ _ _ Er Ha) as (text & ? & ?). by exists text.
Qed.

(** ** What the two drivers promise *)
Record NativeTransport (W : Type) : Type := {
  nt_preflight : option (Profile → PyM W unit);            (** [getattr(native, "preflight_profile", None)] *)
  nt_connect : Profile → PyM W bool;
  nt_disconnect : PyM W bool;
  nt_status : PyM W ConnectionState;
  nt_health : PyM W string;
  nt_egress : option (PyM W (option string));
  nt_last_error : PyM W string;                            (** empty where the driver keeps none *)
  nt_available : PyM W bool
}.
Arguments nt_preflight {W}.
Arguments nt_connect {W}.
Arguments nt_disconnect {W}.
Arguments nt_status {W}.
Arguments nt_health {W}.
Arguments nt_egress {W}.
Arguments nt_last_error {W}.
Arguments nt_available {W}.
Record PolicyCompanion (W : Type) : Type := {
  pc_preflight : string → option (list string) → list string → PyM W (pydict string);
  pc_connect : Profile → option DNSPolicy → GenOptions → option (list string) → option LANGatewayRuntimeConfig → PyM W bool;
  pc_disconnect : PyM W bool;
  pc_status : PyM W ConnectionState;
  pc_health : PyM W string;
  pc_last_error : PyM W string;
  pc_available : PyM W bool
}.
Arguments pc_preflight {W}.
Arguments pc_connect {W}.
Arguments pc_disconnect {W}.
Arguments pc_status {W}.
Arguments pc_health {W}.
Arguments pc_last_error {W}.
Arguments pc_available {W}.

(** ** The driver object *)
Record NpDriver : Type := { np_active_profile : option Profile; np_connected_at : option datetime; np_last_error : string }.
Definition new_np_driver : NpDriver := {| np_active_profile := None; np_connected_at := None; np_last_error := "" |}.
Definition np_error (msg : string) (d : NpDriver) : NpDriver :=
  {| np_active_profile := np_active_profile d; np_connected_at := np_connected_at d; np_last_error := msg |}.
Definition np_session (profile : option Profile) (at_ : option datetime) (d : NpDriver) : NpDriver :=
  {| np_active_profile := profile; np_connected_at := at_; np_last_error := np_last_error d |}.

(** What the companion is started with *)
Definition companion_options (cidrs : list string) (interface : string) (routes : pydict string) (o : GenOptions) : GenOptions :=
  {| g_mode := g_mode o; g_groups := g_groups o; g_app_policy := g_app_policy o; g_final_policy := g_final_policy o;
     g_rule_set_tags := g_rule_set_tags o; g_rule_set_declarations := g_rule_set_declarations o; g_plans := g_plans o;
     g_lan_proxy := g_lan_proxy o; g_capture_modes := g_capture_modes o; g_management_peers := g_management_peers o;
     g_native_transport := true; g_native_bypass_cidrs := cidrs; g_native_egress_interface := Some (strip interface);
     g_management_routes := if bool_decide (routes = []) then g_management_routes o else routes |}.

(** The two states that a status read builds *)
Definition np_mismatch (d : NpDriver) (native companion : ConnectionState) : ConnectionState :=
  let c := default_ConnectionState "runtime_mismatch" "native-policy" in
  {| cs_active_profile_id := match np_active_profile d with Some p => p_id p | None => "" end; cs_connected_at := None; cs_mode := "native-policy";
     cs_tun_active := cs_tun_active companion; cs_proxy_active := cs_proxy_active companion;
     cs_kill_switch_active := cs_kill_switch_active c; cs_kill_switch_status := cs_kill_switch_status c;
     cs_kill_switch_method := cs_kill_switch_method c; cs_kill_switch_consistent := cs_kill_switch_consistent c;
     cs_runtime_mismatch_severity := "critical";
     cs_runtime_artifacts := sorted_set (cs_runtime_artifacts native ++ cs_runtime_artifacts companion);
     cs_lan_gateway_active := false; cs_lan_gateway_interface := ""; cs_lan_gateway_client_cidr := ""; cs_lan_gateway_dns_mode := "";
     cs_lan_gateway_status := cs_lan_gateway_status c; cs_status := "runtime_mismatch";
     cs_last_failure_reason := ""; cs_last_failure_at := None |}.
Definition np_connected (profile : Profile) (d : NpDriver) (companion : ConnectionState) : ConnectionState :=
  let c := default_ConnectionState "connected" "native-policy" in
  {| cs_active_profile_id := p_id profile; cs_connected_at := np_connected_at d; cs_mode := "native-policy";
     cs_tun_active := cs_tun_active companion; cs_proxy_active := cs_proxy_active companion;
     cs_kill_switch_active := cs_kill_switch_active c; cs_kill_switch_status := cs_kill_switch_status c;
     cs_kill_switch_method := cs_kill_switch_method c; cs_kill_switch_consistent := cs_kill_switch_consistent c;
     cs_runtime_mismatch_severity := ""; cs_runtime_artifacts := [];
     cs_lan_gateway_active := cs_lan_gateway_active companion; cs_lan_gateway_interface := cs_lan_gateway_interface companion;
     cs_lan_gateway_client_cidr := cs_lan_gateway_client_cidr companion; cs_lan_gateway_dns_mode := cs_lan_gateway_dns_mode companion;
     cs_lan_gateway_status := cs_lan_gateway_status companion; cs_status := "connected";
     cs_last_failure_reason := ""; cs_last_failure_at := None |}.

Section driver.
Context `{PyStr} {W : Type} (native : NativeTransport W) (companion : PolicyCompanion W) (lookup : Lookup) (now : PyM W datetime).
Notation NM := (PyM (NpDriver * W)).

Definition np_fails (msg : string) : NM bool := _ ← update (np_error msg); mret false.
(** [text or other] *)
Definition or_else (text other : string) : string := if truthy_str text then text else other.

Definition np_disconnect : NM bool :=
  companion_stopped ← io (pc_disconnect companion);
  if negb companion_stopped then np_fails "policy companion teardown failed"
  else
    native_stopped ← io (nt_disconnect native);
    if negb native_stopped then np_fails "native transport teardown failed"
    else _ ← update (np_session None None); mret true.
Definition np_ensure_disconnected : NM bool :=
  d ← self;
  match np_active_profile d with None => mret true | Some _ => np_disconnect end.

(** The transport is up: the companion, its readiness, and the rollbacks *)
Definition start_companion (profile : Profile) (policy : option DNSPolicy) (o : GenOptions) (gateway : option LANGatewayRuntimeConfig) : NM bool :=
  started ← io (pc_connect companion profile policy o (Some []) gateway);
  if negb started then
    error ← io (pc_last_error companion);
    _ ← update (np_error (or_else error "policy companion failed"));
    companion_stopped ← io (pc_disconnect companion);
    native_stopped ← io (nt_disconnect native);
    _ ← (if negb companion_stopped || negb native_stopped
         then update (fun d => np_error (np_last_error d +:+ "; rollback cleanup failed") d) else mret tt);
    mret false
  else
    health ← io (pc_health companion);
    if negb (String.eqb health "ok") then
      _ ← update (np_error "policy companion readiness is incomplete");
      _ ← np_disconnect;
      mret false
    else
      at_ ← io now;
      _ ← update (np_session (Some profile) (Some at_));
      mret true.
(** The transport answered: its readiness and the interface it leaves through *)
Definition over_transport (profile : Profile) (policy : option DNSPolicy) (o : GenOptions) (routes : pydict string)
    (gateway : option LANGatewayRuntimeConfig) : NM bool :=
  state ← io (nt_status native);
  if negb (String.eqb (cs_status state) "connected") then
    _ ← update (np_error "native transport readiness is incomplete");
    _ ← io (nt_disconnect native);
    mret false
  else
    interface ← match nt_egress native with Some getter => io getter | None => mret None end;
    match interface ≫= fun i => host_text (PStr i) with
    | None =>
        _ ← update (np_error "native transport egress interface is unavailable");
        _ ← io (nt_disconnect native);
        mret false
    | Some interface =>
        cidrs ← liftR (native_endpoint_bypass_cidrs lookup profile);
        start_companion profile policy (companion_options cidrs interface routes o) gateway
    end.
(** [try: ... except Exception as exc: last_error = str(exc)], [None] *)
Definition guarded {A} (m : PyM W A) : NM (option A) :=
  try_except (a ← io m; mret (Some a)) any_exn (fun e => _ ← update (np_error (exn_message e)); mret None).
Definition np_connect (profile : Profile) (policy : option DNSPolicy) (o : GenOptions) (gateway : option LANGatewayRuntimeConfig) : NM bool :=
  _ ← update (np_error "");
  checked ← match nt_preflight native with Some preflight => guarded (preflight profile) | None => mret (Some tt) end;
  match checked with
  | None => mret false
  | Some _ =>
      free ← np_ensure_disconnected;
      if negb free then np_fails "existing native policy runtime teardown failed"
      else
        routes ← guarded (pc_preflight companion (g_mode o) (g_capture_modes o) KNOWN_OWNED_INTERFACES);
        match routes with
        | None => mret false
        | Some routes =>
            connected ← io (nt_connect native profile);
            if negb connected then
              error ← io (nt_last_error native);
              np_fails (or_else error "native transport failed")
            else over_transport profile policy o routes gateway
        end
  end.

Definition np_health_check : NM string :=
  native_ ← io (nt_health native);
  companion_ ← io (pc_health companion);
  mret (if String.eqb native_ "down" || String.eqb companion_ "down" then "down"
        else if negb (String.eqb native_ "ok") || negb (String.eqb companion_ "ok") then "degraded" else "ok").
Definition np_status : NM ConnectionState :=
  native_ ← io (nt_status native);
  companion_ ← io (pc_status companion);
  d ← self;
  if String.eqb (cs_status native_) "runtime_mismatch" || String.eqb (cs_status companion_) "runtime_mismatch"
  then liftR (ConnectionState_post_init (np_mismatch d native_ companion_))
  else match np_active_profile d with
  | Some profile =>
      if String.eqb (cs_status native_) "connected" && String.eqb (cs_status companion_) "connected"
      then liftR (ConnectionState_post_init (np_connected profile d companion_))
      else liftR (new_ConnectionState "standby" "standby")
  | None => liftR (new_ConnectionState "standby" "standby")
  end.
Definition np_is_available : NM bool :=
  ok ← io (nt_available native);
  if ok : bool then io (pc_available companion) else mret false.
End driver.

(** ** The two drivers of this repository *)

(** The native driver and its host, beside the companion *)
Definition beside {D E W A} (m : PyM (D * W) A) : PyM (D * (E * W)) A := fun '(d, (e, w)) =>
  let '(r, (d', w')) := m (d, w) in (r, (d', (e, w'))).
Section instances.
Context `{PyStr, PyRegex} {W : Type} (host : RunHost W) (unlink : string → PyM W unit) (read_replacing : string → PyM W string).
Definition openvpn_transport {E} : NativeTransport (OvDriver * (E * W)) := {|
  nt_preflight := Some (fun p => beside (preflight_profile p));
  nt_connect := fun p => beside (ov_connect host unlink read_replacing p);
  nt_disconnect := beside (ov_disconnect host);
  nt_status := beside (ov_status host read_replacing);
  nt_health := beside (ov_health_check host read_replacing);
  nt_egress := Some (beside (egress_interface host));
  nt_last_error := gets (fun s => od_last_error s.1);
  nt_available := io (io (ov_is_available host)) |}.
Definition singbox_companion {D} (flusher : PyM W bool) : PolicyCompanion (D * (Driver * W)) := {|
  pc_preflight := fun mode captures known => io (io (preflight_native_management_routes (rh_sb host) mode captures known));
  pc_connect := fun p policy o peers gateway => io (connect host flusher p policy o peers gateway);
  pc_disconnect := io (disconnect host flusher);
  pc_status := io (status host);
  pc_health := io (health_check host);
  pc_last_error := gets (fun s => sd_last_error s.2.1);
  pc_available := io (io (is_available host)) |}.
End instances.

(** ** The calls that a driver makes *)
Inductive np_event : Type :=
| NConnect (p : Profile) (r : res bool)
| NDisconnect (r : res bool)
| NStatus (r : res ConnectionState)
| NEgress (r : res (option string))
| NHealth (r : res string)
| CConnect (p : Profile) (o : GenOptions) (r : res bool)
| CDisconnect (r : res bool)
| CStatus (r : res ConnectionState)
| CHealth (r : res string).

Definition native_watched {W} (n : NativeTransport W) : NativeTransport (W * list np_event) := {|
  nt_preflight := option_map (fun f p => unlogged (f p)) (nt_preflight n); nt_connect := fun p => logged (NConnect p) (nt_connect n p);
  nt_disconnect := logged NDisconnect (nt_disconnect n); nt_status := logged NStatus (nt_status n); nt_health := logged NHealth (nt_health n);
  nt_egress := option_map (logged NEgress) (nt_egress n); nt_last_error := unlogged (nt_last_error n); nt_available := unlogged (nt_available n) |}.
Definition companion_watched {W} (c : PolicyCompanion W) : PolicyCompanion (W * list np_event) := {|
  pc_preflight := fun mode captures known => unlogged (pc_preflight c mode captures known);
  pc_connect := fun p policy o peers gateway => logged (CConnect p o) (pc_connect c p policy o peers gateway);
  pc_disconnect := logged CDisconnect (pc_disconnect c); pc_status := logged CStatus (pc_status c); pc_health := logged CHealth (pc_health c);
  pc_last_error := unlogged (pc_last_error c); pc_available := unlogged (pc_available c) |}.

Inductive np_call : Type :=
| NpConnect (p : Profile) (policy : option DNSPolicy) (o : GenOptions) (gateway : option LANGatewayRuntimeConfig)
| NpDisconnect
| NpStatus
| NpHealth.

Section order.
Context `{PyStr} {W : Type} (native : NativeTransport W) (companion : PolicyCompanion W) (lookup : Lookup) (now : PyM W datetime).
Notation n := (native_watched native).
Notation c := (companion_watched companion).
Notation ST := (NpDriver * (W * list np_event))%type.
Notation at_ := (unlogged now).

(** What has to lie right before a start of the companion *)
Definition over_ready (p : Profile) (o : GenOptions) (earlier : list np_event) : Prop :=
  ∃ interface state before,
    earlier = NEgress (Ok (Some interface)) :: NStatus (Ok state) :: NConnect p (Ok true) :: before
    ∧ cs_status state = "connected" ∧ truthy_str (strip interface) = true
    ∧ g_native_transport o = true ∧ g_native_egress_interface o = Some (strip interface)
    ∧ (∀ a, peer_address lookup p a → single_network a ∈ g_native_bypass_cidrs o)
    ∧ (∀ cidr, cidr ∈ g_native_bypass_cidrs o → ∃ h a, cidr = single_network a
        ∧ (ip_address h = Some a ∨ ∃ texts text, lookup h = Ok texts ∧ text ∈ texts ∧ ip_address text = Some a)).
Fixpoint ordered (l : list np_event) : Prop :=
  match l with
  | [] => True
  | CConnect p o _ :: earlier => over_ready p o earlier ∧ ordered earlier
  | _ :: earlier => ordered earlier
  end.
Definition stays_ordered (s s' : ST) : Prop := ordered s.2.2 → ordered s'.2.2.
#[local] Instance stays_ordered_preorder : PreOrder stays_ordered.
Proof. split; [intros s Ho; exact Ho|]. unfold stays_ordered. auto. Qed.
Lemma so_unnoted {A} (m : PyM W A) : steps stays_ordered (io (unlogged m)).
Proof. intros [d [w l]]. unfold io, unlogged. destruct (m w) as [r w']. exact (fun Ho => Ho). Qed.
Lemma so_noting {A} ev (m : PyM W A) : (∀ r, match ev r with CConnect _ _ _ => False | _ => True end) → steps stays_ordered (io (logged ev m)).
Proof.
  intros He [d [w l]]. unfold io, logged. destruct (m w) as [r w']. specialize (He r). intros Ho. cbn in *. by destruct (ev r).
Qed.
Lemma so_update f : steps stays_ordered (update f).
Proof. intros [d p] Ho. exact Ho. Qed.
Lemma so_self : steps stays_ordered self.
Proof. apply steps_gets. typeclasses eauto. Qed.
#[local] Hint Extern 1 (steps _ (io _)) => first [apply so_unnoted | apply so_noting; intros; exact I] : steps.
#[local] Hint Resolve so_update so_self : steps.
Lemma so_guarded {A} (m : PyM W A) : steps stays_ordered (guarded (unlogged m)).
Proof. unfold guarded. steps_tac. Qed.
Lemma so_fails msg : steps stays_ordered (np_fails (W := W * list np_event) msg).
Proof. unfold np_fails. steps_tac. Qed.
#[local] Hint Resolve so_guarded so_fails : steps.
Lemma so_disconnect : steps stays_ordered (np_disconnect n c).
Proof. unfold np_disconnect. steps_tac. Qed.
#[local] Hint Resolve so_disconnect : steps.
Lemma so_start profile policy o gateway : ∀ s, over_ready profile o s.2.2 → stays_ordered s (start_companion n c at_ profile policy o gateway s).2.
Proof.
  intros [d [w l]] Hr Ho. unfold start_companion. rewrite bind_eval. unfold io at 1. cbn [pc_connect companion_watched]. unfold logged at 1.
  destruct (pc_connect companion profile policy o (Some []) gateway w) as [r w'].
  assert (Ho' : ordered (CConnect profile o r :: l)) by by split.
  destruct r as [started|e]; [|exact Ho'].
  match goal with |- ordered (?m ?s).2.2.2 => assert (Hm : steps stays_ordered m) by steps_tac; exact (Hm s Ho') end.
Qed.
Lemma so_over profile policy o routes gateway : ∀ s before, s.2.2 = NConnect profile (Ok true) :: before →
  stays_ordered s (over_transport n c lookup at_ profile policy o routes gateway s).2.
Proof.
  intros [d [w l]] before Hl Ho. cbn in Hl, Ho. unfold over_transport. rewrite bind_eval. unfold io at 1. cbn [nt_status native_watched]. unfold logged at 1.
  destruct (nt_status native w) as [[state|e] w1]; [|exact Ho]. destruct (String.eqb (cs_status state) "connected") eqn:Es; cbn [negb].
  2: { match goal with |- ordered (?m ?s).2.2.2 => assert (Hm : steps stays_ordered m) by steps_tac; exact (Hm s Ho) end. }
  apply String.eqb_eq in Es. rewrite bind_eval. cbn [nt_egress native_watched]. destruct (nt_egress native) as [getter|]; cbn [option_map].
  2: { unfold mret at 1, pym_ret at 1. cbn beta iota. match goal with |- ordered (?m ?s).2.2.2 => assert (Hm : steps stays_ordered m) by steps_tac; exact (Hm s Ho) end. }
  unfold io at 1. unfold logged at 1. destruct (getter w1) as [[interface|e] w2]; [|exact Ho].
  destruct (interface ≫= _) as [i|] eqn:Ei.
  2: { match goal with |- ordered (?m ?s).2.2.2 => assert (Hm : steps stays_ordered m) by steps_tac; exact (Hm s Ho) end. }
  destruct interface as [interface|]; [|done]. cbn in Ei. destruct (truthy_str (strip interface)) eqn:Et; [|done]. injection Ei as <-.
  rewrite bind_eval. cbn [liftR]. destruct (native_endpoint_bypass_cidrs lookup profile) as [cidrs|e] eqn:Eb; [|exact Ho].
  apply so_start; [|exact Ho]. cbn. exists interface, state, before. rewrite Hl. repeat split; [done..| |]; intros; [by eapply bypass_covers_peer|by eapply bypass_single].
Qed.
Lemma so_connect profile policy o gateway : steps stays_ordered (np_connect n c lookup at_ profile policy o gateway).
Proof.
  assert (Hc : steps stays_ordered (connected ← io (nt_connect n profile);
     if negb connected then error ← io (nt_last_error n); np_fails (or_else error "native transport failed") else mret true)) by steps_tac.
  assert (Ht : ∀ routes, steps stays_ordered (connected ← io (nt_connect n profile);
     if negb connected then error ← io (nt_last_error n); np_fails (or_else error "native transport failed")
     else over_transport n c lookup at_ profile policy o routes gateway)).
  { intros routes [d [w l]] Ho. specialize (Hc (d, (w, l)) Ho). revert Hc. rewrite !bind_eval. cbn [io nt_connect native_watched logged].
    destruct (nt_connect native profile w) as [[[]|e] w']; [|done|done]. intros _. by eapply so_over. }
  unfold np_connect, np_ensure_disconnected. cbn [nt_preflight native_watched]. destruct (nt_preflight native); cbn [option_map]; steps_tac.
Qed.

(** The state after any sequence of calls; the caller survives what a call raises *)
Definition np_perform (call : np_call) : PyM ST unit :=
  match call with
  | NpConnect p policy o gateway => _ ← np_connect n c lookup at_ p policy o gateway; mret tt
  | NpDisconnect => _ ← np_disconnect n c; mret tt
  | NpStatus => _ ← np_status n c; mret tt
  | NpHealth => _ ← np_health_check n c; mret tt
  end.
Definition np_calls (calls : list np_call) (w : W) : ST := foldl (fun s call => (np_perform call s).2) (new_np_driver, (w, [])) calls.
Lemma calls_ordered calls w : ordered (np_calls calls w).2.2.
Proof.
  unfold np_calls. assert (H0 : ordered (new_np_driver, (w, []) : W * list np_event).2.2) by exact I. revert H0.
  generalize (new_np_driver, (w, []) : W * list np_event). induction calls as [|call calls IH]; intros s Hs; [exact Hs|]. apply IH. revert Hs.
  assert (Hc : steps stays_ordered (np_perform call)).
  { pose proof so_connect. destruct call; cbn [np_perform]; unfold np_status, np_health_check; steps_tac. }
  apply (Hc s).
Qed.
Lemma ordered_at later p o r earlier : ordered (later ++ CConnect p o r :: earlier) → over_ready p o earlier.
Proof. induction later as [|e later IH]; cbn; [by intros []|]. destruct e; try exact IH. intros [_ Ho]. by apply IH. Qed.

(** C18: The policy runtime starts only over a ready transport.  Whatever the native driver and the
    companion do, over every sequence of connects, disconnects, status reads and health checks with
    any failures and exceptions: every start of the companion comes right after a connect of the
    native driver for the same profile that succeeded, a status read of it that said connected, and
    an egress interface that is not blank; the companion is told that it runs over a native
    transport, is bound to that interface, and keeps outside its tunnel, as a /32 or /128 network,
    every address of the peer that the profile names, be it under "host", "server", as an
    "endpoint" with a port, or as the validated remote of an OpenVPN profile: the address itself
    where the name is a literal, else each address that the lookup of the name answers.  (A lookup
    that fails answers no address, and nothing is then kept outside.)  Nothing wider than the
    network of one such address is ever kept outside. *)
Theorem companion_over_ready_transport calls w later p o r earlier :
  (np_calls calls w).2.2 = later ++ CConnect p o r :: earlier → over_ready p o earlier.
Proof. intros Hl. pose proof (calls_ordered calls w) as Ho. rewrite Hl in Ho. by eapply ordered_at. Qed.


(** ** What a connect leaves behind *)

(** The native driver connected and was not asked to stop since *)
Fixpoint transport_up (l : list np_event) : bool :=
  match l with
  | [] => false
  | NConnect _ (Ok true) :: _ => true
  | NDisconnect _ :: _ => false
  | _ :: earlier => transport_up earlier
  end.
(** A companion that started, was found unhealthy and refused to stop *)
Definition unhealthy_kept (p : Profile) (l : list np_event) : Prop :=
  ∃ o health before, l = CDisconnect (Ok false) :: CHealth (Ok health) :: CConnect p o (Ok true) :: before ∧ health ≠ "ok".
(** Each outcome of a connect once the transport is up, with the last calls it made *)
Definition settled (p : Profile) (r : res bool) (s' : ST) : Prop :=
  match r with
  | Ok true =>
      np_active_profile s'.1 = Some p
      ∧ ∃ o before, s'.2.2 = CHealth (Ok "ok") :: CConnect p o (Ok true) :: before ∧ over_ready p o before
  | Ok false => np_active_profile s'.1 = None ∧ (transport_up s'.2.2 = false ∨ unhealthy_kept p s'.2.2)
  | Err e => np_active_profile s'.1 = None
  end.
(** The connect gave up before it touched the host, or while it was tearing the session down. *)
Definition session_kept (s s' : ST) : Prop :=
  np_active_profile s'.1 = np_active_profile s.1
  ∧ (s'.2.2 = s.2.2
     ∨ np_active_profile s.1 ≠ None
       ∧ (s'.2.2 = CDisconnect (Ok false) :: s.2.2 ∨ s'.2.2 = NDisconnect (Ok false) :: CDisconnect (Ok true) :: s.2.2)).
(** The native driver refused, with nothing of its own to stop. *)
Definition transport_refused (p : Profile) (s s' : ST) : Prop :=
  np_active_profile s.1 = None ∧ np_active_profile s'.1 = None ∧ s'.2.2 = NConnect p (Ok false) :: s.2.2.
Definition connect_left (p : Profile) (s : ST) (r : res bool) (s' : ST) : Prop :=
  match r with
  | Ok true => settled p r s'
  | Ok false => session_kept s s' ∨ transport_refused p s s' ∨ settled p r s'
  | Err e => np_active_profile s'.1 = np_active_profile s.1 ∨ np_active_profile s'.1 = None
  end.
Lemma settled_left p s r s' : settled p r s' → connect_left p s r s'.
Proof. destruct r as [[]|e]; cbn; auto. Qed.

Lemma start_left profile policy o gateway s : np_active_profile s.1 = None → over_ready profile o s.2.2 →
  let '(r, s') := start_companion n c at_ profile policy o gateway s in
  settled profile r s'.
Proof.
  destruct s as [d [w l]]. cbn [fst snd]. intros Hd Hr. unfold start_companion. rewrite bind_eval. unfold io at 1. cbn [pc_connect companion_watched]. unfold logged at 1.
  destruct (pc_connect companion profile policy o (Some []) gateway w) as [[[]|e] w1]; [| |exact Hd]; cbn [negb].
  - rewrite bind_eval. unfold io at 1. cbn [pc_health companion_watched]. unfold logged at 1.
    destruct (pc_health companion w1) as [[health|e] w2]; [|exact Hd]. destruct (String.eqb health "ok") eqn:Eh; cbn [negb].
    + apply String.eqb_eq in Eh as ->. rewrite bind_eval. unfold io at 1. unfold unlogged at 1. destruct (now w2) as [[t|e] w3]; [|exact Hd].
      cbn. split; [done|]. by exists o, l.
    + apply String.eqb_neq in Eh. rewrite bind_eval. cbn [update modifyS]. rewrite bind_eval. unfold np_disconnect. rewrite bind_eval. unfold io at 1.
      cbn [pc_disconnect companion_watched fst snd]. unfold logged at 1. destruct (pc_disconnect companion w2) as [[[]|e] w3]; [| |exact Hd]; cbn [negb].
      * rewrite bind_eval. unfold io at 1. cbn [nt_disconnect native_watched]. unfold logged at 1.
        destruct (nt_disconnect native w3) as [[[]|e] w4]; [| |exact Hd]; (split; [done|by left]).
      * split; [exact Hd|]. right. by exists o, health, l.
  - rewrite bind_eval. unfold io at 1. cbn [pc_last_error companion_watched]. unfold unlogged at 1. destruct (pc_last_error companion w1) as [[msg|e] w2]; [|exact Hd].
    rewrite bind_eval. cbn [update modifyS]. rewrite bind_eval. unfold io at 1. cbn [pc_disconnect companion_watched fst snd]. unfold logged at 1.
    destruct (pc_disconnect companion w2) as [[b1|e] w3]; [|exact Hd]. rewrite bind_eval. unfold io at 1. cbn [nt_disconnect native_watched]. unfold logged at 1.
    destruct (nt_disconnect native w3) as [[b2|e] w4]; [|exact Hd]. rewrite bind_eval. destruct (negb b1 || negb b2); (split; [done|by left]).
Qed.
Lemma over_left profile policy o routes gateway s before : np_active_profile s.1 = None → s.2.2 = NConnect profile (Ok true) :: before →
  let '(r, s') := over_transport n c lookup at_ profile policy o routes gateway s in
  settled profile r s'.
Proof.
  destruct s as [d [w l]]. cbn [fst snd]. intros Hd Hl. unfold over_transport. rewrite bind_eval. unfold io at 1. cbn [nt_status native_watched]. unfold logged at 1.
  assert (Hoff : ∀ msg w1 l1, let '(r, s') := (_ ← update (np_error msg); _ ← io (nt_disconnect n); mret false) (d, (w1, l1)) in settled profile r s').
  { intros msg w1 l1. rewrite bind_eval. cbn [update modifyS fst snd]. rewrite bind_eval. unfold io. cbn [nt_disconnect native_watched]. unfold logged.
    destruct (nt_disconnect native w1) as [[b|e] w2]; [|exact Hd]. split; [exact Hd|by left]. }
  destruct (nt_status native w) as [[state|e] w1]; [|exact Hd]. destruct (String.eqb (cs_status state) "connected") eqn:Es; cbn [negb]; [|apply Hoff].
  apply String.eqb_eq in Es. rewrite bind_eval. cbn [nt_egress native_watched]. destruct (nt_egress native) as [getter|]; cbn [option_map]; [|apply Hoff].
  unfold io at 1. unfold logged at 1. destruct (getter w1) as [[interface|e] w2]; [|exact Hd].
  destruct (interface ≫= _) as [i|] eqn:Ei; [|apply Hoff].
  destruct interface as [interface|]; [|done]. cbn in Ei. destruct (truthy_str (strip interface)) eqn:Et; [|done]. injection Ei as <-.
  rewrite bind_eval. cbn [liftR]. destruct (native_endpoint_bypass_cidrs lookup profile) as [cidrs|e] eqn:Eb; [|exact Hd].
  apply start_left; [exact Hd|]. cbn. exists interface, state, before. rewrite Hl.
  repeat split; [done..| |]; intros; [by eapply bypass_covers_peer|by eapply bypass_single].
Qed.
Lemma guarded_eval {A} (m : PyM W A) (d : NpDriver) (w : W) (l : list np_event) :
  guarded (unlogged m) (d, (w, l)) = match m w with (Ok a, w') => (Ok (Some a), (d, (w', l))) | (Err e, w') => (Ok None, (np_error (exn_message e) d, (w', l))) end.
Proof. unfold guarded, try_except. rewrite bind_eval. unfold io, unlogged. by destruct (m w) as [[a|e] w']. Qed.

(** What [np_ensure_disconnected] leaves: the session is gone and nothing or a complete teardown was
    asked for, or it is still there. *)
Lemma ensure_left d w l :
  let '(r, s') := np_ensure_disconnected n c (d, (w, l)) in
  match r with
  | Ok true => np_active_profile s'.1 = None
      ∧ (np_active_profile d = None ∧ s'.2.2 = l ∨ s'.2.2 = NDisconnect (Ok true) :: CDisconnect (Ok true) :: l)
  | Ok false => np_active_profile d ≠ None ∧ np_active_profile s'.1 = np_active_profile d
      ∧ (s'.2.2 = CDisconnect (Ok false) :: l ∨ s'.2.2 = NDisconnect (Ok false) :: CDisconnect (Ok true) :: l)
  | Err e => np_active_profile s'.1 = np_active_profile d
  end.
Proof.
  unfold np_ensure_disconnected. rewrite bind_eval. cbn [self gets fst snd]. destruct (np_active_profile d) as [q|] eqn:Ed; [|by cbn; auto].
  unfold np_disconnect. rewrite bind_eval. unfold io at 1. cbn [pc_disconnect companion_watched]. unfold logged at 1.
  destruct (pc_disconnect companion w) as [[[]|e] w1]; cbn [negb]; [|unfold np_fails; rewrite bind_eval; by cbn; rewrite Ed; auto|exact Ed].
  rewrite bind_eval. unfold io at 1. cbn [nt_disconnect native_watched]. unfold logged at 1.
  destruct (nt_disconnect native w1) as [[[]|e] w2]; cbn [negb]; [rewrite bind_eval; by cbn; auto|unfold np_fails; rewrite bind_eval; by cbn; rewrite Ed; auto|exact Ed].
Qed.
(** The rest of a connect, once no session is left *)
Lemma fresh_left p policy o gateway d w l l0 :
  np_active_profile d = None → l = l0 ∨ transport_up l = false →
  let '(r, s') := (routes ← guarded (pc_preflight c (g_mode o) (g_capture_modes o) KNOWN_OWNED_INTERFACES);
        match routes with
        | None => mret false
        | Some routes => connected ← io (nt_connect n p);
            if negb connected then error ← io (nt_last_error n); np_fails (or_else error "native transport failed")
            else over_transport n c lookup at_ p policy o routes gateway
        end) (d, (w, l)) in
  settled p r s' ∨ r = Ok false ∧ np_active_profile s'.1 = None ∧ l = l0 ∧ (s'.2.2 = l0 ∨ s'.2.2 = NConnect p (Ok false) :: l0).
Proof.
  intros Hd Hl. rewrite bind_eval. cbn [pc_preflight companion_watched]. rewrite guarded_eval.
  destruct (pc_preflight companion _ _ _ w) as [[routes|e] w2].
  2: { destruct Hl as [->|Hl]; [right; repeat split; auto|left]. cbn. auto. }
  rewrite bind_eval. unfold io at 1. cbn [nt_connect native_watched]. unfold logged at 1.
  destruct (nt_connect native p w2) as [[[]|e] w3]; [| |by left]; cbn [negb].
  - match goal with |- let '(r, s') := ?m ?s in _ => pose proof (over_left p policy o routes gateway s l Hd eq_refl) as Ho; destruct (m s) as [r s'] end.
    by left.
  - rewrite bind_eval. unfold io at 1. cbn [nt_last_error native_watched]. unfold unlogged at 1.
    destruct (nt_last_error native w3) as [[msg|e] w4]; [|by left]. destruct Hl as [->|Hl]; [right; cbn; auto|left]. cbn. auto.
Qed.

(** C39: The outcome of a connect, from any state of the driver.  A connect that returns true leaves
    the profile as the session, and its last two calls are a start of the companion over the ready
    transport and a health check that said ok.  A connect that returns false has one of four ends.
    It gave up before the host was touched, or the teardown of the existing session failed: the
    session on record is the one from before, and no call was made but that failed teardown.  Or no
    session was on record and the native driver refused, which is the only call.  Else no session is
    left, and the native driver was asked to stop after every connect of it that succeeded, with one
    exception: a companion that started, was found unhealthy and refuses to stop keeps its
    transport.  A connect that raises records no new session. *)
Theorem native_policy_connect_outcome p policy o gateway s r s' :
  np_connect n c lookup at_ p policy o gateway s = (r, s') → connect_left p s r s'.
Proof.
  intros Hc. destruct s as [d [w l]].
  assert (Hx : let '(r, s') := np_connect n c lookup at_ p policy o gateway (d, (w, l)) in connect_left p (d, (w, l)) r s'); [|by rewrite Hc in Hx].
  clear Hc. unfold np_connect. rewrite bind_eval. cbn [update modifyS fst snd]. set (d1 := np_error "" d).
  change (np_active_profile d) with (np_active_profile d1).
  assert (Hrest : ∀ w1, let '(r, s') := (free ← np_ensure_disconnected n c; if negb free then np_fails "existing native policy runtime teardown failed"
      else routes ← guarded (pc_preflight c (g_mode o) (g_capture_modes o) KNOWN_OWNED_INTERFACES);
        match routes with
        | None => mret false
        | Some routes => connected ← io (nt_connect n p);
            if negb connected then error ← io (nt_last_error n); np_fails (or_else error "native transport failed")
            else over_transport n c lookup at_ p policy o routes gateway
        end) (d1, (w1, l)) in connect_left p (d, (w, l)) r s').
  { intros w1. rewrite bind_eval. pose proof (ensure_left d1 w1 l) as He. destruct (np_ensure_disconnected n c (d1, (w1, l))) as [[[]|e] [d2 [w2 l2]]]; cbn [negb].
    - destruct He as [Hd He]. cbn [fst snd] in *.
      pose proof (fresh_left p policy o gateway d2 w2 l2 l Hd) as Hf. match type of Hf with _ → let '(r, s') := ?m in _ => destruct m as [r1 s1] end.
      destruct Hf as [Hf|(-> & Hs & -> & Hf)]; [destruct He as [[_ ->]| ->]; auto|by apply settled_left|].
      destruct He as [[Hd1 _]|He]; [|by apply (f_equal length) in He; cbn in He; lia].
      destruct Hf as [Hf|Hf]; [left; split; [by rewrite Hs|by left]|right; left]. by repeat split.
    - left. destruct He as (Hne & He & Hl). split; [exact He|]. right. by split.
    - by left. }
  rewrite bind_eval. cbn [nt_preflight native_watched]. destruct (nt_preflight native) as [preflight|]; cbn [option_map]; [|apply Hrest].
  rewrite guarded_eval. destruct (preflight p w) as [[u|e] w1]; [apply Hrest|].
  left. split; [reflexivity|]. left. reflexivity.
Qed.
End order.

Module DemoNative.
#[local] Instance str : PyStr := {| repr_compound := fun _ => ""; float_literal := fun _ => None |}.
#[local] Instance regex : PyRegex := {| regex_valid := fun _ => true; regex_search := fun _ _ => false |}.

(** The OpenVPN driver under the sing-box driver, on one host *)
Definition run_command (c : list string) : PyM DemoRun.world completed :=
  if bool_decide (c = ["ip"; "-o"; "link"; "show"]) || startswith "route" (nth 1 c "") || bool_decide (c = ["ip"; "-4"; "route"; "show"; "default"])
  then DemoOpenVpnRun.run_command true c else DemoRun.run_command c.
Definition host : RunHost DemoRun.world := {|
  rh_sb := {| sh_environ := fun _ => None; sh_which := fun name => DemoRun.ok (negb (String.eqb name "nmcli")); sh_run := run_command |};
  rh_proc := DemoRun.proc; rh_binaries := ["/usr/bin/sing-box"]; rh_access_x := fun _ => DemoRun.ok true;
  rh_which_path := rh_which_path (DemoOpenVpnRun.host true); rh_run_timeout := rh_run_timeout (DemoOpenVpnRun.host true);
  rh_open_log := fun _ => DemoRun.ok tt; rh_popen := rh_popen (DemoOpenVpnRun.host true); rh_exited := rh_exited (DemoOpenVpnRun.host true);
  rh_terminate := rh_terminate (DemoOpenVpnRun.host true);
  rh_kill_child := fun _ => DemoRun.ok tt; rh_wait := fun _ _ => DemoRun.ok tt; rh_append := fun _ _ => DemoRun.ok tt; rh_read_forward := DemoRun.ok "";
  rh_write_forward := fun _ => DemoRun.ok tt; rh_remove_dir := fun _ => DemoRun.ok tt; rh_connect_tcp := fun _ _ => DemoRun.ok tt;
  rh_utcnow := DemoRun.ok {| dt_wall := 0; dt_utcoffset := None |}; rh_render := fun _ => ""; rh_cache_path := "/cache.db" |}.
Definition W : Type := OvDriver * (Driver * DemoRun.world).
Definition native : NativeTransport W := openvpn_transport host DemoOpenVpnRun.unlink DemoOpenVpnRun.read.
Definition companion : PolicyCompanion W := singbox_companion host DemoRun.flusher.
Definition lookup : Lookup := fun _ => raise OSError "".
Definition now : PyM W datetime := mret {| dt_wall := 0; dt_utcoffset := None |}.
Definition start : W := (new_ov_driver, (new_driver, (0%Q, false))).
Definition call (mode : string) : np_call := NpConnect DemoEndpoint.profile None (DemoSingBox.options mode "current_profile" []) None.
Definition after (mode : string) := np_calls native companion lookup now [call mode] start.
Definition yes (r : res bool) : bool := match r with Ok b => b | Err _ => false end.
Definition kinds (l : list np_event) : list (string * bool) := map (fun e => match e with
  | NConnect _ r => ("native connect", yes r) | NDisconnect r => ("native disconnect", yes r)
  | NStatus _ => ("native status", true) | NEgress _ => ("native egress", true) | NHealth _ => ("native health", true)
  | CConnect _ _ r => ("companion connect", yes r) | CDisconnect r => ("companion disconnect", yes r)
  | CStatus _ => ("companion status", true) | CHealth r => ("companion health", true) end) l.
Example composed : kinds (after "tun").2.2
  = [("companion health", true); ("companion connect", true); ("native egress", true); ("native status", true); ("native connect", true)].
Proof. vm_compute. reflexivity. Qed.

(** A companion that raises: the exception leaves the transport up, and no session records it *)
Definition refused := np_connect (native_watched native) (companion_watched companion) lookup (unlogged now) DemoEndpoint.profile None
  (DemoSingBox.options "rules" "bogus" []) None (new_np_driver, (start, [])).
Example raising_companion_strands_transport :
  match refused.1 with Err e => exn_message e | Ok _ => "" end = "unsupported final_policy: 'bogus'"
  ∧ transport_up refused.2.2.2 = true ∧ np_active_profile refused.2.1 = None
  ∧ kinds refused.2.2.2 = [("companion connect", false); ("native egress", true); ("native status", true); ("native connect", true)].
Proof. vm_compute. auto. Qed.

Lemma companion_over_ready_transport_witness : ∃ p o before, (after "tun").2.2 = CHealth (Ok "ok") :: CConnect p o (Ok true) :: before ∧ over_ready lookup p o before.
Proof.
  eexists _, _, _. split; [vm_compute; reflexivity|]. eapply (companion_over_ready_transport native companion lookup now [call "tun"] start [_]).
  vm_compute. reflexivity.
Defined.

Definition connected := np_connect (native_watched native) (companion_watched companion) lookup (unlogged now) DemoEndpoint.profile None
  (DemoSingBox.options "tun" "current_profile" []) None (new_np_driver, (start, [])).
Lemma native_policy_connect_outcome_witness : np_active_profile connected.2.1 = Some DemoEndpoint.profile.
Proof.
  assert (E : connected = (Ok true, connected.2)) by (vm_compute; reflexivity).
  exact (proj1 (native_policy_connect_outcome native companion lookup now DemoEndpoint.profile None (DemoSingBox.options "tun" "current_profile" []) None
    (new_np_driver, (start, [])) (Ok true) connected.2 E)).
Defined.
End DemoNative.
