(* ===== verification/CloakDriver.v ===== *)
(** * The OpenVPN-over-Cloak driver

    drivers/openvpn_cloak_driver.py: two processes, the readiness of the tunnel, and a teardown that
    deletes the routes OpenVPN left behind.  Commands, processes and files are the interfaces of
    [SingBoxRun]; the command line of OpenVPN is that of [OpenVpnDriver]. *)
From stdpp Require Import base list strings pretty.
From Stdlib Require Import Ascii ZArith QArith.
From S2P Require Import Prelude Steps PyData PyText PyUrl Profiles NodeGroups Rules Protocol OpenVpn Endpoint ProfileSchema Health SingBox RuntimePaths SingBoxRun OpenVpnDriver.

Definition CK_RUNTIME_PREFIX : string := "watchdogvpn-openvpn-cloak-".
Definition OC_OVPN_CONFIG_NAME : string := "openvpn.conf".
Definition CLOAK_CONFIG_NAME : string := "cloak.json".
Definition OC_OVPN_LOG_NAME : string := "openvpn.log".
Definition OC_OVPN_STATUS_NAME : string := "openvpn.status".
Definition CLOAK_LOG_NAME : string := "cloak.log".
Definition ROUTE_SNAPSHOT_NAME : string := "routes.before".
Definition CLOAK_STARTUP_WAIT : Q := 3 # 2.
Definition CK_CONNECT_READY_TIMEOUT_SECONDS : Q := 15.
Definition CK_CLIENT_BINARIES : list string := ["/usr/local/bin/ck-client"; "/usr/bin/ck-client"; "/opt/cloak/ck-client"].

(** ** The log of OpenVPN *)

(** What follows a literal *)
Definition after_literal (literal s : string) : option string :=
  if startswith literal s then Some (str_drop (String.length literal) s) else None.
Fixpoint take_while (p : ascii → bool) (s : string) : string * string :=
  match s with
  | String c s' => if p c then let '(a, b) := take_while p s' in (String c a, b) else ("", s)
  | "" => ("", "")
  end.
(** A run of at least one character *)
Definition run_of (p : ascii → bool) (s : string) : option (string * string) :=
  match take_while p s with ("", _) => None | r => Some r end.
Definition not_space (c : ascii) : bool := negb (is_space c).
(** [re.findall] of a pattern given by its match at a position: the match and the text after it *)
Fixpoint findall_from {A} (at_ : string → option (A * string)) (skip : nat) (s : string) : list A :=
  match s with
  | "" => []
  | String _ s' =>
      match skip with
      | S k => findall_from at_ k s'
      | O =>
          match at_ s with
          | Some (a, rest) => a :: findall_from at_ (String.length s - String.length rest - 1) s'
          | None => findall_from at_ 0 s'
          end
      end
  end.
Definition findall {A} (at_ : string → option (A * string)) (s : string) : list A := findall_from at_ 0 s.

Definition preserved_remote_at (s : string) : option (string * string) :=
  rest ← after_literal "Preserving recently used remote address: [AF_INET" s;
  rest ← match after_literal "]" rest with Some r => Some r | None => after_literal "6]" rest end;
  run_of not_space rest.
Definition added_route_at (s : string) : option ((string * string * string) * string) :=
  rest ← after_literal "net_route_v" s;
  rest ← match after_literal "4_add: " rest with Some r => Some r | None => after_literal "6_add: " rest end;
  '(destination, rest) ← run_of not_space rest;
  '(gateway, rest) ← match after_literal " via " rest with Some r => run_of not_space r | None => Some ("", rest) end;
  rest ← after_literal " dev " rest;
  '(_, rest) ← run_of not_space rest;
  rest ← after_literal " table " rest;
  '(_, rest) ← run_of is_digit rest;
  rest ← after_literal " metric " rest;
  let '(sign, rest) := match after_literal "-" rest with Some r => ("-", r) | None => ("", rest) end in
  '(digits, rest) ← run_of is_digit rest;
  Some ((destination, gateway, sign +:+ digits), rest).

Record selector : Type := { se_destination : string; se_gateway : option string; se_metric : option Z }.
(** The address of a token such as [203.0.113.7:443]: ports are cut off until an address is left *)
Fixpoint token_address (fuel : nat) (candidate : string) : option string :=
  match fuel with
  | O => None
  | S fuel =>
      if negb (truthy_str candidate) then None
      else match ip_address candidate with
      | Some a => Some (ip_text a)
      | None => let '(head, found, _) := rpartition_on ":" candidate in if found then token_address fuel head else None
      end
  end.
Definition preserved_selector (token : string) : option selector :=
  let candidate := rstrip_by (Ascii.eqb ",") token in
  option_map (fun a => {| se_destination := a; se_gateway := None; se_metric := None |}) (token_address (String.length candidate) candidate).
Definition before_slash (s : string) : string := (partition_on "/" s).1.1.
Definition added_selector (groups : string * string * string) : option selector :=
  let '(destination, gateway, metric_text) := groups in
  match ip_address (before_slash destination), py_int metric_text with
  | Some a, Some metric =>
      Some {| se_destination := ip_text a;
              se_gateway := if truthy_str gateway && negb (String.eqb gateway "0.0.0.0") then Some gateway else None;
              se_metric := if (0 <=? metric)%Z then Some metric else None |}
  | _, _ => None
  end.
Definition log_selectors (log : string) : list selector :=
  omap preserved_selector (findall preserved_remote_at log) ++ omap added_selector (findall added_route_at log).

(** ** Routes *)
Definition route_lines (text : string) : list string := remove_dups (List.filter truthy_str (map strip (splitlines text))).
Definition route_destination (route : string) : option string :=
  option_map ip_text (ip_address (before_slash (hd "" (py_split route)))).
(** [word in tokens and tokens[tokens.index(word) + 1] == value] *)
Definition token_is (tokens : list string) (word value : string) : res bool :=
  match tokens_after word tokens with
  | None => Ok false
  | Some [] => raise IndexError "list index out of range"
  | Some (next :: _) => Ok (String.eqb next value)
  end.
Definition route_matches_selector (route : string) (s : selector) : res bool :=
  let tokens := py_split route in
  if negb (bool_decide (route_destination route = Some (se_destination s))) then Ok false
  else
    via ← match se_gateway s with Some gateway => token_is tokens "via" gateway | None => Ok true end;
    if negb via then Ok false
    else match se_metric s with Some metric => token_is tokens "metric" (pretty metric) | None => Ok true end.
Fixpoint any_selector (route : string) (l : list selector) : res bool :=
  match l with
  | [] => Ok false
  | s :: rest => m ← route_matches_selector route s; if m : bool then Ok true else any_selector route rest
  end.
(** The routes of [current] that are not in [baseline] and match a selector *)
Fixpoint orphaned_routes (baseline : list string) (selectors : list selector) (current : list string) : res (list string) :=
  match current with
  | [] => Ok []
  | route :: rest =>
      if str_in route baseline then orphaned_routes baseline selectors rest
      else
        m ← any_selector route selectors;
        more ← orphaned_routes baseline selectors rest;
        Ok (if m : bool then route :: more else more)
  end.

(** ** The driver object *)
Record CkDriver : Type := {
  kd_ck_process : option Z; kd_openvpn_process : option Z; kd_active_profile : option Profile; kd_connected_at : option datetime;
  kd_runtime_dir : option string; kd_route_snapshot_captured : bool; kd_expected_interface : string; kd_expected_device_type : string;
  kd_last_error : string
}.
Definition new_ck_driver : CkDriver := {|
  kd_ck_process := None; kd_openvpn_process := None; kd_active_profile := None; kd_connected_at := None; kd_runtime_dir := None;
  kd_route_snapshot_captured := false; kd_expected_interface := ""; kd_expected_device_type := ""; kd_last_error := "" |}.
Definition ck_session (ck openvpn : option Z) (profile : option Profile) (at_ : option datetime) (d : CkDriver) : CkDriver :=
  {| kd_ck_process := ck; kd_openvpn_process := openvpn; kd_active_profile := profile; kd_connected_at := at_; kd_runtime_dir := kd_runtime_dir d;
     kd_route_snapshot_captured := kd_route_snapshot_captured d; kd_expected_interface := kd_expected_interface d;
     kd_expected_device_type := kd_expected_device_type d; kd_last_error := kd_last_error d |}.
Definition ck_files (dir : option string) (captured : bool) (interface type : string) (d : CkDriver) : CkDriver :=
  {| kd_ck_process := kd_ck_process d; kd_openvpn_process := kd_openvpn_process d; kd_active_profile := kd_active_profile d;
     kd_connected_at := kd_connected_at d; kd_runtime_dir := dir; kd_route_snapshot_captured := captured; kd_expected_interface := interface;
     kd_expected_device_type := type; kd_last_error := kd_last_error d |}.
Definition ck_error (msg : string) (d : CkDriver) : CkDriver :=
  {| kd_ck_process := kd_ck_process d; kd_openvpn_process := kd_openvpn_process d; kd_active_profile := kd_active_profile d;
     kd_connected_at := kd_connected_at d; kd_runtime_dir := kd_runtime_dir d; kd_route_snapshot_captured := kd_route_snapshot_captured d;
     kd_expected_interface := kd_expected_interface d; kd_expected_device_type := kd_expected_device_type d; kd_last_error := msg |}.

Section driver.
Context `{PyStr} {W : Type} (host : RunHost W).
(** Deleting a file that may be missing, writing and reading one, [json.dumps(..., indent=2)] and the order of a set *)
Context (unlink : string → PyM W unit) (write_text : string → string → PyM W unit) (read_replacing : string → PyM W string).
Context (dumps_indented : pydict pyval → string) (set_order : list string → list string).
Notation CM := (PyM (CkDriver * W)).

Definition OpenVPNCloakDriver_init : PyM W CkDriver :=
  _ ← cleanup_stale_runtime_dirs (rh_proc host) CK_RUNTIME_PREFIX;
  mret new_ck_driver.
Definition find_ck_client_binary : PyM W (option string) := find_binary host "WATCHDOGVPN_CK_CLIENT_BIN" "ck-client" CK_CLIENT_BINARIES.
Definition found (binary : option string) : bool := truthy_str (default "" binary).
Fixpoint version_output (binary : string) (arg_sets : list string) : PyM W string :=
  match arg_sets with
  | [] => mret ""
  | arg :: rest =>
      r ← sh_run (rh_sb host) [binary; arg];
      let output := strip (if truthy_str (cp_stdout r) then cp_stdout r else cp_stderr r) in
      if truthy_str output then mret output else version_output binary rest
  end.
Definition ck_check_version : PyM W string :=
  openvpn_binary ← find_openvpn_binary host;
  ck_binary ← find_ck_client_binary;
  if negb (found openvpn_binary) then raiseM FileNotFoundError "openvpn binary not found"
  else if negb (found ck_binary) then raiseM FileNotFoundError "ck-client binary not found"
  else
    openvpn_version ← version_output (default "" openvpn_binary) ["--version"];
    ck_version ← version_output (default "" ck_binary) ["-v"; "--version"];
    if negb (truthy_str openvpn_version) then raiseM RuntimeError "openvpn version output is empty"
    else if negb (truthy_str ck_version) then raiseM RuntimeError "ck-client version output is empty"
    else mret (openvpn_version +:+ nl +:+ ck_version).
Definition ck_is_available : PyM W bool := available ck_check_version.

(** ** Files *)
Definition ck_ensure_runtime_paths : CM string :=
  d ← self;
  match kd_runtime_dir d with
  | Some dir => mret dir
  | None =>
      dir ← io (make_runtime_dir (rh_proc host) CK_RUNTIME_PREFIX);
      _ ← update (fun d => ck_files (Some dir) (kd_route_snapshot_captured d) (kd_expected_interface d) (kd_expected_device_type d) d);
      mret dir
  end.
Definition check_cloak_profile (p : Profile) : res unit :=
  if negb (bool_decide (p_protocol p = OPENVPN_CLOAK))
  then raise ValueError ("unsupported protocol for OpenVPNCloakDriver: " +:+ protocol_value (p_protocol p))
  else if negb (truthy_str (cfg_text "raw_config" p)) then raise ValueError "OPENVPN_CLOAK profile requires raw_config"
  else
    _ ← validate_openvpn_profile p;
    if negb (truthy (cfg_get "cloak_config" (p_config p))) then raise ValueError "OPENVPN_CLOAK profile requires cloak_config" else Ok tt.
Definition cloak_json (v : pyval) : res string :=
  match v with
  | PDict config => Ok (dumps_indented config)
  | v =>
      match ph_loads (rh_proc host) (py_str v) with
      | Ok _ => Ok (py_str v)
      | Err e => if is_instance e JSONDecodeError then raise ValueError ("cloak_config is not valid JSON: " +:+ exn_message e) else Err e
      end
  end.
Definition write_configs (p : Profile) : CM unit :=
  _ ← liftR (check_cloak_profile p);
  json ← liftR (cloak_json (cfg_get "cloak_config" (p_config p)));
  dir ← ck_ensure_runtime_paths;
  _ ← io (write_private_file (rh_proc host) (path_join dir OC_OVPN_CONFIG_NAME) (cfg_text "raw_config" p +:+ nl));
  io (write_private_file (rh_proc host) (path_join dir CLOAK_CONFIG_NAME) json).
Definition cleanup_configs : CM unit :=
  d ← self;
  _ ← match kd_runtime_dir d with Some dir => io (rh_remove_dir host dir) | None => mret tt end;
  update (ck_files None false "" "").
Fixpoint reset_each (paths : list string) : CM bool :=
  match paths with
  | [] => mret true
  | path :: rest =>
      done_ ← io (observed (_ ← unlink path; write_text path ""));
      match done_ with Some _ => reset_each rest | None => mret false end
  end.
Definition reset_logs : CM bool :=
  dir ← ck_ensure_runtime_paths;
  gone ← io (observed (unlink (path_join dir OC_OVPN_STATUS_NAME)));
  match gone with
  | None => mret false
  | Some _ => reset_each [path_join dir CLOAK_LOG_NAME; path_join dir OC_OVPN_LOG_NAME]
  end.

(** ** Routes *)
Definition ck_run (command : list string) : CM completed := io (sh_run (rh_sb host) command).
Definition ck_have (name : string) : CM bool := io (sh_which (rh_sb host) name).
Definition current_route_lines : CM (option (list string)) :=
  r ← ck_run ["ip"; "-o"; "route"; "show"];
  mret (if negb (cp_returncode r =? 0)%Z then None else Some (route_lines (cp_stdout r))).
Definition capture_route_snapshot : CM bool :=
  d ← self;
  match kd_runtime_dir d with
  | None => mret false
  | Some dir =>
      ip ← ck_have "ip";
      if negb ip then mret false
      else
        routes ← current_route_lines;
        match routes with
        | None => mret false
        | Some routes =>
            written ← io (observed (write_private_file (rh_proc host) (path_join dir ROUTE_SNAPSHOT_NAME)
                                      (join nl (py_sorted String.ltb routes) +:+ nl)));
            match written with
            | None => mret false
            | Some _ =>
                _ ← update (fun d => ck_files (kd_runtime_dir d) true (kd_expected_interface d) (kd_expected_device_type d) d);
                mret true
            end
        end
  end.
Definition owned_route_selectors (dir : string) : CM (option (list selector)) :=
  log ← io (observed (read_replacing (path_join dir OC_OVPN_LOG_NAME)));
  mret (option_map log_selectors log).
(** Deletes the routes; stops at the first that could not be deleted *)
Fixpoint delete_routes (routes : list string) : CM bool :=
  match routes with
  | [] => mret true
  | route :: rest =>
      r ← ck_run (["ip"; "route"; "del"] ++ py_split route);
      if negb (cp_returncode r =? 0)%Z then mret false else delete_routes rest
  end.
Definition cleanup_openvpn_endpoint_routes : CM bool :=
  d ← self;
  if negb (kd_route_snapshot_captured d) then mret true
  else match kd_runtime_dir d with
  | None => mret false
  | Some dir =>
      ip ← ck_have "ip";
      if negb ip then mret false
      else
        snapshot ← io (observed (read_replacing (path_join dir ROUTE_SNAPSHOT_NAME)));
        match snapshot with
        | None => mret false
        | Some snapshot =>
            let baseline := route_lines snapshot in
            selectors ← owned_route_selectors dir;
            match selectors with
            | None => mret false
            | Some [] => mret true
            | Some selectors =>
                current ← current_route_lines;
                match current with
                | None => mret false
                | Some current =>
                    orphaned ← liftR (orphaned_routes baseline selectors current);
                    deleted ← delete_routes (set_order orphaned);
                    if negb deleted then mret false
                    else
                      remaining ← current_route_lines;
                      match remaining with
                      | None => mret false
                      | Some remaining =>
                          left ← liftR (orphaned_routes baseline selectors remaining);
                          mret (bool_decide (left = []))
                      end
                end
            end
        end
  end.

(** ** Readiness *)
Definition ck_interface_active : CM bool :=
  ip ← ck_have "ip";
  if negb ip then mret false
  else
    r ← ck_run ["ip"; "-o"; "link"; "show"];
    if negb (cp_returncode r =? 0)%Z then mret false
    else d ← self; mret (existsb (link_matches (kd_expected_interface d)) (omap link_name (splitlines (cp_stdout r)))).
Definition ck_configure_readiness (p : Profile) : CM (list string) :=
  d ← self;
  match kd_runtime_dir d with
  | None => raiseM RuntimeError "OpenVPN+Cloak runtime paths are unavailable"
  | Some dir =>
      let type := if String.eqb (lower (cfg_text "dev_type" p)) "tap" || startswith "tap" (lower (cfg_text "dev" p)) then "tap" else "tun" in
      let interface := type +:+ "wd" +:+ device_token dir in
      _ ← update (fun d => ck_files (kd_runtime_dir d) (kd_route_snapshot_captured d) interface type d);
      mret ["--dev"; interface; "--dev-type"; type; "--status"; path_join dir OC_OVPN_STATUS_NAME; "1"; "--status-version"; "3"]
  end.
Definition ck_readiness_evidence_ready : CM bool :=
  d ← self;
  match kd_runtime_dir d with
  | None => mret false
  | Some dir =>
      if negb (truthy_str (kd_expected_interface d)) then mret false
      else
        texts ← io (observed (status ← read_replacing (path_join dir OC_OVPN_STATUS_NAME); log ← read_replacing (path_join dir OC_OVPN_LOG_NAME);
                              mret (status, log)));
        mret match texts with
             | Some (status, log) => contains "OpenVPN" status && contains "Initialization Sequence Completed" log
             | None => false
             end
  end.
Definition ck_ready : CM bool :=
  active ← ck_interface_active;
  if active : bool then ck_readiness_evidence_ready else mret false.
Definition ck_egress_interface : CM (option string) :=
  d ← self;
  match kd_active_profile d with
  | None => mret None
  | Some _ =>
      if negb (truthy_str (kd_expected_interface d)) then mret None
      else active ← ck_interface_active; mret (if active : bool then Some (kd_expected_interface d) else None)
  end.
(** Is one of the two processes missing or gone *)
Definition child_gone : CM bool :=
  d ← self;
  match kd_ck_process d, kd_openvpn_process d with
  | Some ck, Some ovpn =>
      gone ← io (rh_exited host ck);
      if gone : bool then mret true else io (rh_exited host ovpn)
  | _, _ => mret true
  end.
Definition CK_READY_FUEL : nat := 61.
Definition ck_wait_for_ready : CM bool :=
  now ← io (ph_monotonic (rh_proc host));
  wait_until (proc_lift (fun _ => io) (rh_proc host)) (1 # 4) CK_READY_FUEL (now + CK_CONNECT_READY_TIMEOUT_SECONDS) (
    gone ← child_gone;
    if gone : bool then mret (Some false)
    else ready ← ck_ready; mret (if ready : bool then Some true else None)).

(** ** Teardown *)
Definition cleanup_expected_interface : CM bool :=
  d ← self;
  if negb (truthy_str (kd_expected_interface d)) then mret true
  else
    ip ← ck_have "ip";
    if negb ip then mret false
    else
      _ ← ck_run ["ip"; "link"; "delete"; "dev"; kd_expected_interface d];
      active ← ck_interface_active;
      mret (negb active).
Definition started (process : option Z) : bool := match process with Some _ => true | None => false end.
Definition children_terminated (dir : option string) : CM bool :=
  match dir with Some dir => io (recorded_children_terminated (rh_proc host) dir) | None => mret true end.
(** Everything that may leave something behind; the driver forgets nothing yet *)
Definition teardown_verified : CM bool :=
  d ← self;
  openvpn_stopped ← io (stop_process host (kd_openvpn_process d));
  ck_stopped ← io (stop_process host (kd_ck_process d));
  if negb openvpn_stopped || negb ck_stopped then mret false
  else
    _ ← io (kill_all_recorded_children (rh_proc host) CK_RUNTIME_PREFIX);
    terminated ← children_terminated (kd_runtime_dir d);
    if negb terminated then mret false
    else
      interface ← (if started (kd_openvpn_process d) then cleanup_expected_interface else mret true);
      if negb interface then mret false
      else if started (kd_openvpn_process d) then cleanup_openvpn_endpoint_routes else mret true.
Definition teardown_children : CM bool :=
  verified ← teardown_verified;
  if negb verified then mret false
  else
    _ ← update (ck_session None None None None);
    _ ← cleanup_configs;
    mret true.
Definition ck_disconnect : CM bool := teardown_children.
Definition startup_failure : CM bool :=
  try_except (_ ← teardown_children; mret false) any_exn (fun _ => mret false).
Definition ck_ensure_disconnected : CM bool :=
  d ← self;
  if started (kd_ck_process d) || started (kd_openvpn_process d) then ck_disconnect else mret true.

(** ** Connect *)
Definition set_ck (pid : Z) (d : CkDriver) : CkDriver := ck_session (Some pid) (kd_openvpn_process d) (kd_active_profile d) (kd_connected_at d) d.
Definition set_openvpn (pid : Z) (d : CkDriver) : CkDriver := ck_session (kd_ck_process d) (Some pid) (kd_active_profile d) (kd_connected_at d) d.
Definition startup_fails (msg : string) : CM bool := _ ← update (ck_error msg); startup_failure.
(** Starts OpenVPN; [Ok None]: not ready in time *)
Definition start_openvpn (openvpn_bin dir : string) (options : list string) (profile : Profile) : CM (option bool) :=
  _ ← io (rh_open_log host (path_join dir OC_OVPN_LOG_NAME));
  command ← io (build_openvpn_command host openvpn_bin (path_join dir OC_OVPN_CONFIG_NAME) options);
  pid ← io (rh_popen host command);
  _ ← update (set_openvpn pid);
  _ ← io (record_child_process (rh_proc host) dir "openvpn_process" pid (path_name openvpn_bin));
  _ ← update (fun d => ck_session (kd_ck_process d) (kd_openvpn_process d) (Some profile) (kd_connected_at d) d);
  ready ← ck_wait_for_ready;
  if ready : bool then
    now ← io (rh_utcnow host);
    _ ← update (fun d => ck_session (kd_ck_process d) (kd_openvpn_process d) (kd_active_profile d) (Some now) d);
    mret (Some true)
  else mret None.
(** [Some b]: returned inside the [try] *)
Definition ck_start (openvpn_bin ck_bin : string) (profile : Profile) : CM (option bool) :=
  _ ← write_configs profile;
  reset ← reset_logs;
  if negb reset then b ← startup_fails "OpenVPN+Cloak runtime log setup failed"; mret (Some b)
  else
    dir ← ck_ensure_runtime_paths;
    options ← ck_configure_readiness profile;
    captured ← capture_route_snapshot;
    if negb captured then b ← startup_fails "OpenVPN+Cloak route snapshot failed"; mret (Some b)
    else
      _ ← io (rh_open_log host (path_join dir CLOAK_LOG_NAME));
      pid ← io (rh_popen host [ck_bin; "-c"; path_join dir CLOAK_CONFIG_NAME]);
      _ ← update (set_ck pid);
      _ ← io (record_child_process (rh_proc host) dir "ck_process" pid (path_name ck_bin));
      _ ← io (ph_sleep (rh_proc host) CLOAK_STARTUP_WAIT);
      gone ← io (rh_exited host pid);
      if gone : bool then b ← startup_fails "Cloak client exited during startup"; mret (Some b)
      else start_openvpn openvpn_bin dir options profile.
Definition missing_binaries (openvpn_bin ck_bin : option string) : list string :=
  (if found openvpn_bin then [] else ["openvpn"]) ++ (if found ck_bin then [] else ["ck-client"]).
Definition ck_connect (profile : Profile) : CM bool :=
  _ ← update (ck_error "");
  free ← ck_ensure_disconnected;
  if negb free then _ ← update (ck_error "existing OpenVPN+Cloak runtime teardown failed"); mret false
  else
    openvpn_bin ← io (find_openvpn_binary host);
    ck_bin ← io find_ck_client_binary;
    if negb (found openvpn_bin) || negb (found ck_bin) then
      _ ← update (ck_error ("required binary not found: " +:+ join ", " (missing_binaries openvpn_bin ck_bin)));
      mret false
    else
      outcome ← try_except (ck_start (default "" openvpn_bin) (default "" ck_bin) profile) any_exn
                  (fun _ => b ← startup_fails "OpenVPN+Cloak startup failed"; mret (Some b));
      match outcome with
      | Some b => mret b
      | None => startup_fails "OpenVPN+Cloak readiness timed out or child exited"
      end.

(** ** Health and status *)
Definition ck_health_check : CM string :=
  gone ← child_gone;
  if gone : bool then mret "down" else ready ← ck_ready; mret (if ready : bool then "ok" else "degraded").
Definition ck_running_state (d : CkDriver) (ready : bool) : ConnectionState :=
  let c := default_ConnectionState "connected" "openvpn_cloak" in
  {| cs_active_profile_id := match kd_active_profile d with Some p => p_id p | None => "" end; cs_connected_at := kd_connected_at d;
     cs_mode := "openvpn_cloak"; cs_tun_active := ready; cs_proxy_active := false;
     cs_kill_switch_active := cs_kill_switch_active c; cs_kill_switch_status := cs_kill_switch_status c;
     cs_kill_switch_method := cs_kill_switch_method c; cs_kill_switch_consistent := cs_kill_switch_consistent c;
     cs_runtime_mismatch_severity := ""; cs_runtime_artifacts := []; cs_lan_gateway_active := false; cs_lan_gateway_interface := "";
     cs_lan_gateway_client_cidr := ""; cs_lan_gateway_dns_mode := ""; cs_lan_gateway_status := "disabled";
     cs_status := if ready then "connected" else "runtime_mismatch";
     cs_last_failure_reason := if ready then "" else "OpenVPN readiness evidence is incomplete"; cs_last_failure_at := cs_last_failure_at c |}.
Definition ck_exited_state (children : list string) : ConnectionState :=
  let c := default_ConnectionState "runtime_mismatch" "standby" in
  {| cs_active_profile_id := ""; cs_connected_at := None; cs_mode := cs_mode c; cs_tun_active := false; cs_proxy_active := false;
     cs_kill_switch_active := cs_kill_switch_active c; cs_kill_switch_status := cs_kill_switch_status c;
     cs_kill_switch_method := cs_kill_switch_method c; cs_kill_switch_consistent := cs_kill_switch_consistent c;
     cs_runtime_mismatch_severity := ""; cs_runtime_artifacts := []; cs_lan_gateway_active := false; cs_lan_gateway_interface := "";
     cs_lan_gateway_client_cidr := ""; cs_lan_gateway_dns_mode := ""; cs_lan_gateway_status := "disabled"; cs_status := "runtime_mismatch";
     cs_last_failure_reason := "OpenVPN+Cloak child exited: " +:+ join ", " children; cs_last_failure_at := None |}.
Definition ck_status : CM ConnectionState :=
  d ← self;
  match kd_ck_process d, kd_openvpn_process d with
  | Some ck, Some ovpn =>
      gone ← child_gone;
      if gone : bool then
        ck_gone ← io (rh_exited host ck);
        ovpn_gone ← io (rh_exited host ovpn);
        liftR (ConnectionState_post_init (ck_exited_state ((if ck_gone : bool then ["ck-client"] else []) ++ (if ovpn_gone : bool then ["openvpn"] else []))))
      else
        ready ← ck_ready;
        liftR (ConnectionState_post_init (ck_running_state d ready))
  | _, _ =>
      active ← ck_interface_active;
      orphan ← (if active : bool then mret true else io (any_recorded_child_alive (rh_proc host) CK_RUNTIME_PREFIX));
      liftR (new_ConnectionState (if orphan : bool then "runtime_mismatch" else "standby") "standby")
  end.
End driver.
