(* ===== verification/CloakSafety.v ===== *)
(** * What the OpenVPN-over-Cloak driver deletes, and what it keeps

    About [CloakDriver]: the routes that a teardown deletes over every host and every sequence of
    calls, and the evidence that a teardown which could not be verified leaves in place. *)
From stdpp Require Import base list strings pretty.
From Stdlib Require Import Ascii ZArith QArith.
From S2P Require Import Prelude Steps PyData PyText PyUrl Profiles NodeGroups Rules Protocol OpenVpn Endpoint ProfileSchema Health SingBox RuntimePaths SingBoxRun SingBoxSafety OpenVpnDriver OpenVpnSafety CloakDriver.

(** ** A log of commands, of files read and of directories removed *)
Inductive ck_event : Type :=
| KRun (command : list string) (r : res completed)
| KRead (path : string) (r : res string)
| KRemove (dir : string).

Definition ck_watched {W} (host : RunHost W) : RunHost (W * list ck_event) := {|
  rh_sb := {| sh_environ := sh_environ (rh_sb host); sh_which := fun name => unlogged (sh_which (rh_sb host) name);
              sh_run := fun c => logged (KRun c) (sh_run (rh_sb host) c) |};
  rh_proc := proc_lift (fun _ => unlogged) (rh_proc host); rh_binaries := rh_binaries host;
  rh_access_x := fun p => unlogged (rh_access_x host p); rh_which_path := fun p => unlogged (rh_which_path host p);
  rh_run_timeout := fun c t => unlogged (rh_run_timeout host c t); rh_open_log := fun p => unlogged (rh_open_log host p);
  rh_popen := fun c => unlogged (rh_popen host c); rh_exited := fun p => unlogged (rh_exited host p);
  rh_terminate := fun p => unlogged (rh_terminate host p); rh_kill_child := fun p => unlogged (rh_kill_child host p);
  rh_wait := fun p t => unlogged (rh_wait host p t); rh_append := fun p t => unlogged (rh_append host p t);
  rh_read_forward := unlogged (rh_read_forward host); rh_write_forward := fun v => unlogged (rh_write_forward host v);
  rh_remove_dir := fun p => logged (fun _ => KRemove p) (rh_remove_dir host p); rh_connect_tcp := fun a p => unlogged (rh_connect_tcp host a p);
  rh_utcnow := unlogged (rh_utcnow host); rh_render := rh_render host; rh_cache_path := rh_cache_path host |}.

(** The arguments of an [ip route del] *)
Definition deletion (c : list string) : option (list string) :=
  match c with
  | tool :: object :: verb :: tokens => if String.eqb tool "ip" && String.eqb object "route" && String.eqb verb "del" then Some tokens else None
  | _ => None
  end.
Definition is_deletion (e : ck_event) : Prop := match e with KRun c _ => is_Some (deletion c) | _ => False end.
(** The deletion is of a route that the listing shows, that the snapshot does not have, and that the
    log of OpenVPN claims; the three were read just before, with only other deletions in between *)
Definition justified_deletion (tokens : list string) (earlier : list ck_event) : Prop :=
  ∃ deletions dir snapshot log listing before route s,
    earlier = deletions ++ KRun ["ip"; "-o"; "route"; "show"] (Ok listing) :: KRead (path_join dir OC_OVPN_LOG_NAME) (Ok log)
                        :: KRead (path_join dir ROUTE_SNAPSHOT_NAME) (Ok snapshot) :: before
    ∧ Forall is_deletion deletions ∧ tokens = py_split route ∧ cp_returncode listing = 0%Z
    ∧ route ∈ route_lines (cp_stdout listing) ∧ route ∉ route_lines snapshot
    ∧ s ∈ log_selectors log ∧ route_matches_selector route s = Ok true.
Fixpoint deletions_justified (l : list ck_event) : Prop :=
  match l with
  | [] => True
  | e :: earlier =>
      deletions_justified earlier
      ∧ match e with KRun c _ => ∀ tokens, deletion c = Some tokens → justified_deletion tokens earlier | _ => True end
  end.

(** ** Orphaned routes *)
Lemma any_selector_true route l : any_selector route l = Ok true → ∃ s, s ∈ l ∧ route_matches_selector route s = Ok true.
Proof.
  induction l as [|s l IH]; cbn; [done|]. destruct (route_matches_selector route s) as [[]|e] eqn:Em; cbn; [|intros Hl|done].
  - intros _. exists s. split; [left|done].
  - destruct (IH Hl) as (s' & H1 & H2). exists s'. split; [by right|done].
Qed.
Lemma orphaned_spec baseline selectors current l : orphaned_routes baseline selectors current = Ok l →
  ∀ route, route ∈ l → route ∈ current ∧ route ∉ baseline ∧ ∃ s, s ∈ selectors ∧ route_matches_selector route s = Ok true.
Proof.
  revert l. induction current as [|x current IH]; cbn; intros l Hl route Hr; [injection Hl as <-; by apply not_elem_of_nil in Hr|].
  destruct (str_in x baseline) eqn:Ex.
  - destruct (IH _ Hl _ Hr) as (H1 & H2 & H3). split; [by right|done].
  - destruct (any_selector x selectors) as [m|e] eqn:Em; [|done]. cbn in Hl.
    destruct (orphaned_routes baseline selectors current) as [more|e] eqn:Eo; [|done]. cbn in Hl. injection Hl as <-.
    assert (Hrest : route ∈ more → route ∈ x :: current ∧ route ∉ baseline ∧ ∃ s, s ∈ selectors ∧ route_matches_selector route s = Ok true).
    { intros Hm. destruct (IH _ eq_refl _ Hm) as (H1 & H2 & H3). split; [by right|done]. }
    destruct m; [|by apply Hrest]. apply elem_of_cons in Hr as [->|Hr]; [|by apply Hrest].
    split; [left|]. split; [|by apply any_selector_true]. intros Hb. apply str_in_spec in Hb. congruence.
Qed.

Section safety.
Context `{PyStr} {W : Type} (host : RunHost W).
Context (unlink : string → PyM W unit) (write_text : string → string → PyM W unit) (read_replacing : string → PyM W string).
Context (dumps_indented : pydict pyval → string) (set_order : list string → list string).
Notation h := (ck_watched host).
Notation ST := (CkDriver * (W * list ck_event))%type.
Notation unlink' := (fun p => unlogged (unlink p)).
Notation write' := (fun p t => unlogged (write_text p t)).
Notation read' := (fun p => logged (KRead p) (read_replacing p)).

Lemma ck_ops A (m : PyM (W * list ck_event) A) : host_op (rh_proc h) A m → steps same_log m.
Proof. intros []; try apply unlogged_steps. apply steps_lift. typeclasses eauto. Qed.

(** ** Calls that stay within a preorder *)
Section calls.
Context (R : ST → ST → Prop) `{!PreOrder R}.
Context (r_log : ∀ {A} (m : PyM (W * list ck_event) A), steps same_log m → steps R (io m)).
Context (r_run : ∀ c, deletion c = None → steps R (ck_run h c)).
Context (r_read2 : ∀ p q, steps R (io (observed (a ← read' p; b ← read' q; mret (a, b))))).
#[local] Hint Extern 1 (steps _ (io _)) => apply r_log, unlogged_steps : steps.
#[local] Hint Extern 1 (steps _ (ck_run _ _)) => apply r_run; reflexivity : steps.
#[local] Hint Resolve r_read2 : steps.
Lemma r_self : steps R self.
Proof. apply steps_gets. typeclasses eauto. Qed.
#[local] Hint Resolve r_self : steps.
Lemma r_have name : steps R (ck_have h name).
Proof. apply r_log, unlogged_steps. Qed.
#[local] Hint Resolve r_have : steps.
Lemma r_active : steps R (ck_interface_active h).
Proof. unfold ck_interface_active. steps_tac. Qed.
Lemma r_lines : steps R (current_route_lines h).
Proof. unfold current_route_lines. steps_tac. Qed.
#[local] Hint Resolve r_active r_lines : steps.
Lemma r_evidence : steps R (ck_readiness_evidence_ready read').
Proof. unfold ck_readiness_evidence_ready. steps_tac. Qed.
#[local] Hint Resolve r_evidence : steps.
Lemma r_ready : steps R (ck_ready h read').
Proof. unfold ck_ready. steps_tac. Qed.
Lemma r_gone : steps R (child_gone h).
Proof. unfold child_gone. steps_tac. Qed.
Lemma r_interface : steps R (cleanup_expected_interface h).
Proof. unfold cleanup_expected_interface. steps_tac. Qed.
#[local] Hint Resolve r_ready r_gone r_interface : steps.
Lemma r_wait : steps R (ck_wait_for_ready h read').
Proof.
  unfold ck_wait_for_ready. apply steps_bind; [typeclasses eauto|apply r_log, unlogged_steps|]. intros now.
  apply steps_wait_until; [typeclasses eauto| |steps_tac]. intros A m []; apply r_log, unlogged_steps.
Qed.
Lemma r_stop p : steps R (io (stop_process h p)).
Proof. apply r_log. unfold stop_process. pose proof (@unlogged_steps W ck_event) as Hq. steps_tac; apply Hq. Qed.
Lemma r_kill : steps R (io (kill_all_recorded_children (rh_proc h) CK_RUNTIME_PREFIX)).
Proof. apply r_log, ops_kill_all; [typeclasses eauto|apply ck_ops]. Qed.
Lemma r_terminated dir : steps R (children_terminated h dir).
Proof.
  unfold children_terminated. destruct dir; [|step_ret]. apply r_log, ops_terminated; [typeclasses eauto|apply ck_ops].
Qed.
#[local] Hint Resolve r_stop r_kill r_terminated : steps.
Context (r_routes : steps R (cleanup_openvpn_endpoint_routes h read' set_order)).
Lemma r_verified : steps R (teardown_verified h read' set_order).
Proof. unfold teardown_verified. steps_tac. Qed.
End calls.

(** ** A teardown that is not verified changes nothing of the driver *)
Definition no_removal (e : ck_event) : Prop := match e with KRemove _ => False | _ => True end.
Definition grew (p p' : W * list ck_event) : Prop := ∃ new, p'.2 = new ++ p.2 ∧ Forall no_removal new.
Definition kept (s s' : ST) : Prop := s'.1 = s.1 ∧ grew s.2 s'.2.
#[local] Instance grew_preorder : PreOrder grew.
Proof.
  split; [intros s; by exists []|]. intros s1 s2 s3 (n1 & L1 & F1) (n2 & L2 & F2).
  exists (n2 ++ n1). rewrite L2, L1, app_assoc. split; [done|by apply Forall_app].
Qed.
#[local] Instance kept_preorder : PreOrder kept.
Proof. split; [intros s; by split|]. intros s1 s2 s3 [E1 G1] [E2 G2]. split; [congruence|by etrans]. Qed.
Lemma kept_io {A} (m : PyM (W * list ck_event) A) : steps grew m → steps kept (io m).
Proof. intros Hm [d p]. specialize (Hm p). unfold io. destruct (m p). by split. Qed.
Lemma kept_log {A} (m : PyM (W * list ck_event) A) : steps same_log m → steps kept (io m).
Proof. intros Hm. apply kept_io. intros p. exists []. split; [apply Hm|done]. Qed.
Lemma grew_logged {A} ev (m : PyM W A) : (∀ r, no_removal (ev r)) → steps grew (logged ev m).
Proof. intros He [w l]. unfold logged. destruct (m w) as [r w']. exists [ev r]. split; [done|by constructor]. Qed.
Lemma kept_run c : steps kept (ck_run h c).
Proof. by apply kept_io, grew_logged. Qed.
Lemma kept_read p : steps kept (io (observed (read' p))).
Proof. by apply kept_io, steps_observed, grew_logged; [typeclasses eauto|]. Qed.
Lemma kept_delete routes : steps kept (delete_routes h routes).
Proof. pose proof kept_run. induction routes; cbn [delete_routes]; steps_tac. Qed.
Lemma kept_self : steps kept self.
Proof. apply steps_gets. typeclasses eauto. Qed.
Lemma kept_routes : steps kept (cleanup_openvpn_endpoint_routes h read' set_order).
Proof.
  pose proof kept_self. pose proof kept_read. pose proof kept_delete. pose proof kept_run.
  assert (Hw : steps kept (ck_have h "ip")) by apply kept_log, unlogged_steps.
  unfold cleanup_openvpn_endpoint_routes, owned_route_selectors, current_route_lines. steps_tac.
Qed.
Lemma kept_verified : steps kept (teardown_verified h read' set_order).
Proof.
  apply (r_verified kept); [exact @kept_log|intros; apply kept_run|apply kept_routes].
Qed.

(** A driver that forgot its session and its files *)
Definition forgotten (d : CkDriver) : CkDriver := {|
  kd_ck_process := None; kd_openvpn_process := None; kd_active_profile := None; kd_connected_at := None; kd_runtime_dir := None;
  kd_route_snapshot_captured := false; kd_expected_interface := ""; kd_expected_device_type := ""; kd_last_error := kd_last_error d |}.

(** C38: A teardown keeps its evidence until everything is verified.  Over every host: a disconnect
    that returns true leaves a driver without session, processes, files and route snapshot.  One
    that returns false leaves the driver object exactly as it was, with both processes, the runtime
    directory and the snapshot flag, and removes no directory, so that a later disconnect starts from
    the same evidence; the same holds for one that raises, unless removing the directory itself
    raised. *)
Theorem cloak_teardown_keeps_evidence s r s' :
  ck_disconnect h read' set_order s = (r, s') →
  match r with
  | Ok true => s'.1 = forgotten s.1
  | Ok false => kept s s'
  | Err _ => kept s s' ∨ ∃ dir l, kd_runtime_dir s.1 = Some dir ∧ s'.2.2 = KRemove dir :: l
  end.
Proof.
  unfold ck_disconnect, teardown_children. rewrite bind_eval. pose proof (kept_verified s) as Hk.
  destruct (teardown_verified h read' set_order s) as [[[]|e] s1]; cbn [negb snd] in *; [|by intros [= <- <-]|intros [= <- <-]; by left].
  destruct Hk as (E1 & _). rewrite bind_eval. destruct s1 as [d1 [w1 l1]]. cbn [update modifyS fst snd] in *. rewrite bind_eval. unfold cleanup_configs.
  rewrite bind_eval. cbn [self gets fst]. rewrite bind_eval. cbn [ck_session kd_runtime_dir]. rewrite <- E1. destruct (kd_runtime_dir d1) as [dir|] eqn:Ed.
  - unfold io. cbn [rh_remove_dir ck_watched]. unfold logged. destruct (rh_remove_dir host dir w1) as [[u|e] w2].
    + intros [= <- <-]. reflexivity.
    + intros [= <- <-]. right. by exists dir, l1.
  - intros [= <- <-]. reflexivity.
Qed.

(** ** Every deletion is justified *)
Definition tidy (p p' : W * list ck_event) : Prop := deletions_justified p.2 → deletions_justified p'.2.
Definition tidies (s s' : ST) : Prop := tidy s.2 s'.2.
#[local] Instance tidy_preorder : PreOrder tidy.
Proof. split; [intros p Hp; exact Hp|]. unfold tidy. auto. Qed.
#[local] Instance tidies_preorder : PreOrder tidies.
Proof. split; [intros s; unfold tidies; reflexivity|]. unfold tidies. intros s1 s2 s3 H1 H2. by etrans. Qed.
Lemma tidies_io {A} (m : PyM (W * list ck_event) A) : steps tidy m → steps tidies (io m).
Proof. intros Hm [d p]. specialize (Hm p). unfold io. by destruct (m p). Qed.
Lemma tidies_log {A} (m : PyM (W * list ck_event) A) : steps same_log m → steps tidies (io m).
Proof. intros Hm. apply tidies_io. intros p Hp. specialize (Hm p). unfold same_log in Hm. by rewrite Hm. Qed.
Lemma tidy_logged {A} ev (m : PyM W A) : (∀ r, match ev r with KRun c _ => deletion c = None | _ => True end) → steps tidy (logged ev m).
Proof.
  intros He [w l] Hl. unfold logged. destruct (m w) as [r w']. specialize (He r). split; [exact Hl|]. destruct (ev r); [|done|done]. intros t. by rewrite He.
Qed.
Lemma tidies_run c : deletion c = None → steps tidies (ck_run h c).
Proof. intros Hc. by apply tidies_io, tidy_logged. Qed.
Lemma tidies_read p : steps tidies (io (observed (read' p))).
Proof. by apply tidies_io, steps_observed, tidy_logged; [typeclasses eauto|]. Qed.
Lemma tidies_read2 p q : steps tidies (io (observed (a ← read' p; b ← read' q; mret (a, b)))).
Proof.
  assert (Hr : ∀ p, steps tidy (read' p)) by (intros; by apply tidy_logged).
  apply tidies_io, steps_observed; [typeclasses eauto|]. steps_tac; apply Hr.
Qed.
Lemma tidies_update f : steps tidies (update f).
Proof. intros [d p]. unfold tidies. cbn. reflexivity. Qed.
Lemma tidies_remove dir : steps tidies (io (rh_remove_dir h dir)).
Proof. by apply tidies_io, tidy_logged. Qed.
Lemma tidies_lines : steps tidies (current_route_lines h).
Proof. pose proof (tidies_run _ (eq_refl (deletion ["ip"; "-o"; "route"; "show"]))). unfold current_route_lines. steps_tac. Qed.

(** Deleting routes that the three readings justify *)
Lemma tidies_delete dir snapshot log listing before routes :
  cp_returncode listing = 0%Z →
  (∀ route, route ∈ routes → route ∈ route_lines (cp_stdout listing) ∧ route ∉ route_lines snapshot
     ∧ ∃ s, s ∈ log_selectors log ∧ route_matches_selector route s = Ok true) →
  ∀ d w deletions, Forall is_deletion deletions →
  tidies (d, (w, deletions ++ KRun ["ip"; "-o"; "route"; "show"] (Ok listing) :: KRead (path_join dir OC_OVPN_LOG_NAME) (Ok log)
            :: KRead (path_join dir ROUTE_SNAPSHOT_NAME) (Ok snapshot) :: before))
    (delete_routes h routes (d, (w, deletions ++ KRun ["ip"; "-o"; "route"; "show"] (Ok listing) :: KRead (path_join dir OC_OVPN_LOG_NAME) (Ok log)
            :: KRead (path_join dir ROUTE_SNAPSHOT_NAME) (Ok snapshot) :: before))).2.
Proof.
  intros Hz. induction routes as [|route routes IH]; intros Hr d w deletions Hd; cbn [delete_routes]; [reflexivity|]. intros Hl.
  rewrite bind_eval. unfold ck_run, io. cbn [rh_sb ck_watched sh_run]. unfold logged.
  destruct (Hr route) as (H1 & H2 & s & H3 & H4); [left|].
  assert (Hj : ∀ r, deletions_justified (KRun (["ip"; "route"; "del"] ++ py_split route) r :: deletions ++ KRun ["ip"; "-o"; "route"; "show"] (Ok listing)
      :: KRead (path_join dir OC_OVPN_LOG_NAME) (Ok log) :: KRead (path_join dir ROUTE_SNAPSHOT_NAME) (Ok snapshot) :: before)).
  { intros r. split; [exact Hl|]. intros tokens [= <-]. exists deletions, dir, snapshot, log, listing, before, route, s. done. }
  destruct (sh_run (rh_sb host) _ w) as [[x|e] w']; [|apply Hj]. destruct (cp_returncode x =? 0)%Z; cbn [negb]; [|apply Hj].
  apply (IH (fun route' Hin => Hr route' (list_elem_of_further _ _ _ Hin)) d w' (KRun (["ip"; "route"; "del"] ++ py_split route) (Ok x) :: deletions)); [|apply Hj].
  constructor; [by eexists|done].
Qed.
Lemma read_eval p (d : CkDriver) w l :
  io (observed (read' p)) (d, (w, l))
  = match read_replacing p w with
    | (Ok t, w') => (Ok (Some t), (d, (w', KRead p (Ok t) :: l)))
    | (Err e, w') => (if os_error e then Ok None else Err e, (d, (w', KRead p (Err e) :: l)))
    end.
Proof.
  unfold io, observed, try_except. rewrite bind_eval. unfold logged. destruct (read_replacing p w) as [[t|e] w']; [done|]. by destruct (os_error e).
Qed.
Lemma lines_eval (d : CkDriver) w l :
  current_route_lines h (d, (w, l))
  = match sh_run (rh_sb host) ["ip"; "-o"; "route"; "show"] w with
    | (Ok r, w') => (Ok (if negb (cp_returncode r =? 0)%Z then None else Some (route_lines (cp_stdout r))), (d, (w', KRun ["ip"; "-o"; "route"; "show"] (Ok r) :: l)))
    | (Err e, w') => (Err e, (d, (w', KRun ["ip"; "-o"; "route"; "show"] (Err e) :: l)))
    end.
Proof.
  unfold current_route_lines. rewrite bind_eval. unfold ck_run, io. cbn [rh_sb ck_watched sh_run]. unfold logged.
  by destruct (sh_run (rh_sb host) _ w) as [[r|e] w'].
Qed.
Context (set_order_sub : ∀ l x, x ∈ set_order l → x ∈ l).
Lemma tidies_routes : steps tidies (cleanup_openvpn_endpoint_routes h read' set_order).
Proof.
  intros [d [w l]]. unfold cleanup_openvpn_endpoint_routes. rewrite bind_eval. cbn [self gets fst]. destruct (negb _); [reflexivity|].
  destruct (kd_runtime_dir d) as [dir|]; [|reflexivity]. rewrite bind_eval. unfold ck_have. unfold io at 1. cbn [rh_sb ck_watched sh_which]. unfold unlogged at 1.
  destruct (sh_which (rh_sb host) "ip" w) as [[[]|e] w1]; cbn [negb]; [|exact (fun Hl => Hl)|exact (fun Hl => Hl)]. rewrite bind_eval, read_eval.
  destruct (read_replacing _ w1) as [[snapshot|e] w2]; [|destruct (os_error e); intros Hl; split; done]. cbv zeta. rewrite bind_eval. unfold owned_route_selectors.
  rewrite bind_eval, read_eval. destruct (read_replacing _ w2) as [[log|e] w3]; [|destruct (os_error e); intros Hl; repeat split; done].
  unfold mret at 1, pym_ret at 1. cbn [option_map]. destruct (log_selectors log) as [|s0 ss] eqn:Es; [intros Hl; repeat split; done|]. rewrite <- Es.
  rewrite bind_eval, lines_eval. destruct (sh_run (rh_sb host) _ w3) as [[listing|e] w4]; [|intros Hl; repeat split; done].
  destruct (cp_returncode listing =? 0)%Z eqn:Ez; cbn [negb]; [|intros Hl; repeat split; done]. apply Z.eqb_eq in Ez. rewrite bind_eval. cbn [liftR].
  intros Hl.
  set (base := KRun ["ip"; "-o"; "route"; "show"] (Ok listing) :: KRead (path_join dir OC_OVPN_LOG_NAME) (Ok log)
            :: KRead (path_join dir ROUTE_SNAPSHOT_NAME) (Ok snapshot) :: l).
  assert (Hb : deletions_justified base) by (repeat split; done).
  destruct (orphaned_routes _ _ _) as [orphaned|e] eqn:Eo; [|exact Hb].
  assert (Hd : tidies (d, (w4, base)) (delete_routes h (set_order orphaned) (d, (w4, base))).2).
  { apply (tidies_delete dir snapshot log listing l (set_order orphaned) Ez) with (deletions := []); [|done]. intros route Hin.
    by apply (orphaned_spec _ _ _ _ Eo), set_order_sub. }
  specialize (Hd Hb). rewrite bind_eval. destruct (delete_routes h (set_order orphaned) _) as [[[]|e] s1]; cbn [negb snd] in *; [|exact Hd|exact Hd].
  match goal with |- deletions_justified (?m s1).2.2.2 => assert (Hm : steps tidies m) by (pose proof tidies_lines; steps_tac); exact (Hm s1 Hd) end.
Qed.

#[local] Hint Extern 1 (steps _ (io _)) => apply tidies_log, unlogged_steps : steps.
#[local] Hint Extern 1 (steps _ (ck_run _ _)) => apply tidies_run; reflexivity : steps.
#[local] Hint Resolve tidies_update tidies_remove tidies_lines : steps.
Lemma tidies_self : steps tidies self.
Proof. apply steps_gets. typeclasses eauto. Qed.
#[local] Hint Resolve tidies_self : steps.
Lemma tidies_verified : steps tidies (teardown_verified h read' set_order).
Proof. apply (r_verified tidies); [exact @tidies_log|apply tidies_run|apply tidies_routes]. Qed.
#[local] Hint Resolve tidies_verified : steps.
Lemma tidies_disconnect : steps tidies (ck_disconnect h read' set_order).
Proof. unfold ck_disconnect, teardown_children, cleanup_configs. steps_tac. Qed.
#[local] Hint Resolve tidies_disconnect : steps.
Lemma tidies_failure : steps tidies (startup_failure h read' set_order).
Proof. pose proof tidies_disconnect as Hd. unfold ck_disconnect in Hd. unfold startup_failure. steps_tac. Qed.
#[local] Hint Resolve tidies_failure : steps.
Lemma tidies_fails msg : steps tidies (startup_fails h read' set_order msg).
Proof. unfold startup_fails. steps_tac. Qed.
Lemma tidies_wait : steps tidies (ck_wait_for_ready h read').
Proof. apply (r_wait tidies); [exact @tidies_log|apply tidies_run|apply tidies_read2]. Qed.
Lemma tidies_active : steps tidies (ck_interface_active h).
Proof. unfold ck_interface_active, ck_have. steps_tac. Qed.
Lemma tidies_ready : steps tidies (ck_ready h read').
Proof. apply (r_ready tidies); [exact @tidies_log|apply tidies_run|apply tidies_read2]. Qed.
Lemma tidies_gone : steps tidies (child_gone h).
Proof. unfold child_gone. steps_tac. Qed.
#[local] Hint Resolve tidies_fails tidies_wait tidies_active tidies_ready tidies_gone : steps.
Lemma tidies_paths : steps tidies (ck_ensure_runtime_paths h).
Proof.
  assert (Hm : steps tidies (io (make_runtime_dir (rh_proc h) CK_RUNTIME_PREFIX))) by (apply tidies_log, ops_make_dir; [typeclasses eauto|apply ck_ops]).
  unfold ck_ensure_runtime_paths. steps_tac.
Qed.
#[local] Hint Resolve tidies_paths : steps.
Lemma ck_log_write path text : steps same_log (write_private_file (rh_proc h) path text).
Proof. apply ops_write; [typeclasses eauto|apply ck_ops]. Qed.
Lemma tidies_configs p : steps tidies (write_configs h dumps_indented p).
Proof.
  assert (Hw : ∀ path text, steps tidies (io (write_private_file (rh_proc h) path text))) by (intros; apply tidies_log, ck_log_write).
  unfold write_configs. steps_tac.
Qed.
Lemma tidies_reset : steps tidies (reset_logs h unlink' write').
Proof.
  assert (He : ∀ paths, steps tidies (reset_each unlink' write' paths)).
  { induction paths; cbn [reset_each]; [step_ret|]. apply steps_bind; [typeclasses eauto| |steps_tac].
    apply tidies_log, steps_observed; [typeclasses eauto|]. pose proof (@unlogged_steps W ck_event) as Hq. steps_tac; apply Hq. }
  unfold reset_logs. apply steps_bind; [typeclasses eauto|apply tidies_paths|]. intros dir.
  apply steps_bind; [typeclasses eauto|apply tidies_log, steps_observed; [typeclasses eauto|apply unlogged_steps]|]. intros [u|]; [apply He|step_ret].
Qed.
Lemma tidies_capture : steps tidies (capture_route_snapshot h).
Proof.
  assert (Hw : ∀ path text, steps tidies (io (observed (write_private_file (rh_proc h) path text)))).
  { intros. apply tidies_log, steps_observed; [typeclasses eauto|apply ck_log_write]. }
  unfold capture_route_snapshot, ck_have. steps_tac.
Qed.
Lemma tidies_configure p : steps tidies (ck_configure_readiness (W := W * list ck_event) p).
Proof. unfold ck_configure_readiness. steps_tac. Qed.
Lemma tidies_record dir label pid hint : steps tidies (io (record_child_process (rh_proc h) dir label pid hint)).
Proof. apply tidies_log, ops_record; [typeclasses eauto|apply ck_ops]. Qed.
#[local] Hint Resolve tidies_configs tidies_reset tidies_capture tidies_configure tidies_record : steps.
Lemma tidies_build binary path options : steps tidies (io (build_openvpn_command h binary path options)).
Proof. apply tidies_log. pose proof (@unlogged_steps W ck_event) as Hq. unfold build_openvpn_command. steps_tac; apply Hq. Qed.
#[local] Hint Resolve tidies_build : steps.
Lemma tidies_start openvpn_bin ck_bin p : steps tidies (ck_start h unlink' write' read' dumps_indented set_order openvpn_bin ck_bin p).
Proof. unfold ck_start, start_openvpn. steps_tac. Qed.
#[local] Hint Resolve tidies_start : steps.
Lemma tidies_connect p : steps tidies (ck_connect h unlink' write' read' dumps_indented set_order p).
Proof.
  assert (Hf : ∀ v n places, steps tidies (io (find_binary h v n places))).
  { intros v n places. apply tidies_log. pose proof (@unlogged_steps W ck_event) as Hq.
    assert (Hx : ∀ path, steps same_log (executable h path)) by (intros; unfold executable; steps_tac; apply Hq).
    assert (Hp : steps same_log (first_executable h n places)) by (induction places; cbn [first_executable]; steps_tac; apply Hq).
    unfold find_binary. steps_tac. }
  unfold ck_connect, ck_ensure_disconnected, find_openvpn_binary, find_ck_client_binary. steps_tac.
Qed.

(** ** Any sequence of calls *)
Inductive ck_call : Type := CkConnect (p : Profile) | CkDisconnect | CkStatus | CkHealth | CkEgress.
Definition ck_perform (c : ck_call) : PyM ST unit :=
  match c with
  | CkConnect p => _ ← ck_connect h unlink' write' read' dumps_indented set_order p; mret tt
  | CkDisconnect => _ ← ck_disconnect h read' set_order; mret tt
  | CkStatus => _ ← ck_status h read'; mret tt
  | CkHealth => _ ← ck_health_check h read'; mret tt
  | CkEgress => _ ← ck_egress_interface h; mret tt
  end.
Definition ck_calls (calls : list ck_call) (w : W) : ST := foldl (fun s c => (ck_perform c s).2) (new_ck_driver, (w, [])) calls.
Lemma tidies_perform c : steps tidies (ck_perform c).
Proof.
  assert (Hs : steps tidies (io (any_recorded_child_alive (rh_proc h) CK_RUNTIME_PREFIX))) by (apply tidies_log, ops_any_alive; [typeclasses eauto|apply ck_ops]).
  pose proof tidies_connect. destruct c; cbn [ck_perform]; unfold ck_status, ck_health_check, ck_egress_interface; steps_tac.
Qed.
Lemma calls_tidy calls w : deletions_justified (ck_calls calls w).2.2.
Proof.
  unfold ck_calls. assert (H0 : deletions_justified (new_ck_driver, (w, []) : W * list ck_event).2.2) by exact I. revert H0.
  generalize (new_ck_driver, (w, []) : W * list ck_event). induction calls as [|c calls IH]; intros s Hs; [exact Hs|]. apply IH. apply (tidies_perform c s Hs).
Qed.
Lemma deletions_at later c r earlier tokens :
  deletions_justified (later ++ KRun c r :: earlier) → deletion c = Some tokens → justified_deletion tokens earlier.
Proof. induction later as [|e later IH]; cbn; intros [H1 H2]; [apply H2|by apply IH]. Qed.

(** C19: The Cloak driver deletes only routes that its OpenVPN added.  Over every host and every
    sequence of connects, disconnects, status reads and health checks, whatever they return or raise:
    every [ip route del] is of a route that the listing read just before shows, that the snapshot
    taken before the connection does not contain, and whose destination, gateway and metric the log
    of OpenVPN names; snapshot and log come from the same runtime directory and only other deletions
    lie between the three readings and the deletion.  The order in which the code walks over a set
    is arbitrary. *)
Theorem cloak_deletes_own_routes calls w later tokens r earlier :
  (ck_calls calls w).2.2 = later ++ KRun ("ip" :: "route" :: "del" :: tokens) r :: earlier → justified_deletion tokens earlier.
Proof. intros Hl. pose proof (calls_tidy calls w) as Ho. rewrite Hl in Ho. by eapply deletions_at. Qed.
End safety.

Module DemoCloak.
#[local] Instance str : PyStr := {| repr_compound := fun _ => ""; float_literal := fun _ => None |}.
(** The world of [DemoRun], and whether the route that OpenVPN added is there *)
Definition world : Type := DemoRun.world * bool.
Definition up {A} (m : PyM DemoRun.world A) : PyM world A := fun '(w, b) => let '(r, w') := m w in (r, (w', b)).
Definition ok {A} (a : A) : PyM world A := mret a.
Definition before : string := "default via 192.0.2.1 dev eth0" +:+ nl.
Definition run_command (c : list string) : PyM world completed :=
  match c with
  | ["ip"; "-o"; "route"; "show"] => routed ← gets snd; ok (DemoRun.done_ (before +:+ (if routed : bool then "10.8.0.0/24 via 10.8.0.1 dev tunwd" +:+ nl else "")))
  | ["ip"; "-o"; "link"; "show"] => alive ← gets (fun w => w.1.2); ok (DemoRun.done_ (if alive : bool then "9: tunwd: <UP>" else ""))
  | "ip" :: "route" :: "del" :: _ => _ ← modifyS (fun w => (w.1, false)); ok (DemoRun.done_ "")
  | _ => ok (DemoRun.done_ "")
  end.
Definition host : RunHost world := {|
  rh_sb := {| sh_environ := fun _ => None; sh_which := fun _ => ok true; sh_run := run_command |};
  rh_proc := proc_lift (@up) DemoRun.proc; rh_binaries := []; rh_access_x := fun _ => ok true; rh_which_path := fun name => ok (Some ("/usr/bin/" +:+ name));
  rh_run_timeout := fun _ _ => raiseM TimeoutExpired ""; rh_open_log := fun _ => ok tt;
  rh_popen := fun _ => _ ← modifyS (fun w => ((w.1.1, true), true)); mret 7%Z;
  rh_exited := fun _ => alive ← gets (fun w => w.1.2); mret (negb alive); rh_terminate := fun _ => modifyS (fun w => ((w.1.1, false), w.2));
  rh_kill_child := fun _ => ok tt; rh_wait := fun _ _ => ok tt; rh_append := fun _ _ => ok tt; rh_read_forward := ok "";
  rh_write_forward := fun _ => ok tt; rh_remove_dir := fun _ => ok tt; rh_connect_tcp := fun _ _ => ok tt;
  rh_utcnow := ok {| dt_wall := 0; dt_utcoffset := None |}; rh_render := fun _ => ""; rh_cache_path := "/cache.db" |}.
Definition unlink (p : string) : PyM world unit := ok tt.
Definition write_text (p t : string) : PyM world unit := ok tt.
Definition log : string := "net_route_v4_add: 10.8.0.0/24 via 10.8.0.1 dev [NULL] table 0 metric -1" +:+ nl +:+ "Initialization Sequence Completed".
Definition read (p : string) : PyM world string :=
  ok (if endswith "status" p then "OpenVPN STATISTICS" else if endswith "before" p then before else log).
Definition profile : Profile := {|
  p_id := "k"; p_name := "k"; p_protocol := OPENVPN_CLOAK; p_config := [("raw_config", PStr DemoOpenVpn.ordinary); ("cloak_config", PDict [("UID", PStr "a")])];
  p_source := MANUAL_SOURCE; p_provider_id := None; p_in_rotation_pool := true; p_enabled := true; p_created_at := {| dt_wall := 0; dt_utcoffset := None |};
  p_last_used := None; p_last_health_check := None; p_health_status := "unknown"; p_latency_ms := None; p_last_latency_check := None |}.
Definition after (calls : list ck_call) := ck_calls host unlink write_text read (fun _ => "") (fun l => l) calls (0%Q, false, false).

(** A remote with a port: the port of an IPv4 address is cut off, that of an IPv6 address becomes a part of it *)
Example preserved_remotes :
  map se_destination (log_selectors ("Preserving recently used remote address: [AF_INET]93.184.216.34:443" +:+ nl
    +:+ "Preserving recently used remote address: [AF_INET6]2001:db8::1:443")) = ["93.184.216.34"; "2001:db8::1:443"].
Proof. vm_compute. reflexivity. Qed.
(** The directories of this driver are among those of the plain OpenVPN driver *)
Example openvpn_prefix_covers_cloak : startswith OV_RUNTIME_PREFIX CK_RUNTIME_PREFIX = true.
Proof. reflexivity. Qed.

Definition ended := after [CkConnect profile; CkDisconnect].
Lemma cloak_deletes_own_routes_witness : ∃ earlier, justified_deletion ["10.8.0.0/24"; "via"; "10.8.0.1"; "dev"; "tunwd"] earlier ∧ length earlier = 9%nat.
Proof.
  eexists. split; [|shelve].
  apply (cloak_deletes_own_routes host unlink write_text read (fun _ => "") (fun l => l) (fun l x Hx => Hx) [CkConnect profile; CkDisconnect] (0%Q, false, false)
    (take 2 ended.2.2) _ (Ok (DemoRun.done_ "")) (drop 3 ended.2.2)).
  vm_compute. reflexivity. Unshelve. vm_compute. reflexivity.
Defined.

(** Here the snapshot can no longer be read *)
Definition lost (p : string) : PyM world string := if endswith "before" p then raiseM OSError "" else read p.
Definition running := (after [CkConnect profile]).1.
#[local] Notation failing := (ck_disconnect (ck_watched host) (fun p => logged (KRead p) (lost p)) (fun l => l) (running, ((0%Q, true, true), []))).
Lemma cloak_teardown_keeps_evidence_witness : failing.1 = Ok false ∧ failing.2.1 = running.
Proof.
  assert (E : failing = (Ok false, failing.2)) by (vm_compute; reflexivity). split; [by rewrite E|].
  exact (proj1 (cloak_teardown_keeps_evidence host lost (fun l => l) (running, ((0%Q, true, true), [])) (Ok false) failing.2 E)).
Defined.
End DemoCloak.
