(* ===== verification/AmneziaWg.v ===== *)
(** * The AmneziaWG driver

    drivers/amneziawg_driver.py: the configuration that is handed to awg, the interface in the kernel
    or in a userspace process, its addresses, routes and policy rules, and their removal.  Commands,
    processes and files are the interfaces of [SingBoxRun]. *)
From stdpp Require Import base list strings pretty.
From Stdlib Require Import Ascii ZArith QArith.
From S2P Require Import Prelude Steps PyData PyText PyUrl Profiles NodeGroups Rules Protocol ProfileSchema Health SingBox RuntimePaths SingBoxRun OpenVpnDriver.

Definition AWG_RUNTIME_PREFIX : string := "watchdogvpn-awg-".
Definition INTERFACE_NAME : string := "watchdogvpn_awg".
Definition AWG_CONFIG_NAME : string := INTERFACE_NAME +:+ ".conf".
Definition AWG_LOG_NAME : string := "awg.log".
Definition USERSPACE_LOG_NAME : string := "amneziawg-go.log".
Definition UAPI_SOCKET_DIR : string := "/run/amneziawg".
Definition SRC_VALID_MARK_PROC_DIR : string := "/proc/sys/net/ipv4/conf".
Definition HANDSHAKE_TIMEOUT_SECONDS : Z := 180.
Definition MAX_ERROR_DETAIL_LENGTH : nat := 500.
Definition DEFAULT_MTU : string := "1280".
Definition USERSPACE_LOG_TAIL_LINES : nat := 20.
Definition USERSPACE_LOG_TAIL_MAX_CHARS : nat := 300.
Definition ROUTE_TABLE : string := "51820".
Definition NATIVE_ROUTING_MARK : string := ROUTE_TABLE.
Definition INTERFACE_CONFIG_KEYS : list string := ["address"; "dns"; "mtu"; "table"; "preup"; "postup"; "predown"; "postdown"; "saveconfig"].
Definition AWG_BINARIES : list string := ["/usr/local/bin/awg"; "/usr/bin/awg"].
Definition AMNEZIAWG_GO_BINARIES : list string := ["/usr/local/bin/amneziawg-go"; "/usr/bin/amneziawg-go"].
Definition IP_BINARIES : list string := ["/usr/sbin/ip"; "/usr/bin/ip"; "/sbin/ip"; "/bin/ip"].

(** ** The configuration *)
Record ParsedConfig : Type := { pc_stripped_config : string; pc_addresses : list string; pc_allowed_ips : list string; pc_mtu : option string; pc_table : string }.

Definition keeps_line (line : string) : bool :=
  let stripped := strip line in
  negb (contains "=" stripped && negb (startswith "[" stripped) && negb (truthy_str (strip (partition_on "=" stripped).2))).
Definition strip_empty_keys (raw : string) : string := join nl (List.filter keeps_line (splitlines raw)).
Definition split_csv_value (value : string) : list string := List.filter truthy_str (map strip (split_on "," value)).

(** What the loop over the lines holds *)
Record scan : Type := {
  sc_section : string; sc_kept : list string; sc_addresses : list string; sc_allowed : list string; sc_mtu : option string; sc_table : string
}.
Definition scan_start : scan := {| sc_section := ""; sc_kept := []; sc_addresses := []; sc_allowed := []; sc_mtu := None; sc_table := "auto" |}.
Definition keep (line : string) (st : scan) : scan :=
  {| sc_section := sc_section st; sc_kept := sc_kept st ++ [line]; sc_addresses := sc_addresses st; sc_allowed := sc_allowed st;
     sc_mtu := sc_mtu st; sc_table := sc_table st |}.
Definition enter (section : string) (st : scan) : scan :=
  {| sc_section := section; sc_kept := sc_kept st; sc_addresses := sc_addresses st; sc_allowed := sc_allowed st; sc_mtu := sc_mtu st; sc_table := sc_table st |}.
Definition is_square (c : ascii) : bool := Ascii.eqb c "[" || Ascii.eqb c "]".
Definition section_name (stripped : string) : string := lower (strip (rstrip_by is_square (lstrip_by is_square stripped))).
Definition key_of_line (stripped : string) : string := lower (strip (partition_on "=" stripped).1.1).
Definition value_of_line (stripped : string) : string := strip (partition_on "=" stripped).2.
(** A setting of the interface that awg does not take *)
Definition take_setting (key value : string) (st : scan) : scan :=
  let addresses := if String.eqb key "address" then sc_addresses st ++ split_csv_value value else sc_addresses st in
  let mtu := if String.eqb key "mtu" then Some value else sc_mtu st in
  let table := if String.eqb key "table" then (if truthy_str (lower value) then lower value else "auto") else sc_table st in
  {| sc_section := sc_section st; sc_kept := sc_kept st; sc_addresses := addresses; sc_allowed := sc_allowed st; sc_mtu := mtu; sc_table := table |}.
Definition allow (ips : list string) (st : scan) : scan :=
  {| sc_section := sc_section st; sc_kept := sc_kept st; sc_addresses := sc_addresses st; sc_allowed := sc_allowed st ++ ips; sc_mtu := sc_mtu st; sc_table := sc_table st |}.
Definition scan_line (st : scan) (line : string) : scan :=
  let stripped := strip line in
  if negb (truthy_str stripped) || startswith "#" stripped || startswith ";" stripped then keep line st
  else if startswith "[" stripped && endswith "]" stripped then keep line (enter (section_name stripped) st)
  else if negb (contains "=" stripped) then keep line st
  else
    let key := key_of_line stripped in
    let value := value_of_line stripped in
    if String.eqb (sc_section st) "interface" && str_in key INTERFACE_CONFIG_KEYS then take_setting key value st
    else
      let st := if String.eqb (sc_section st) "peer" && String.eqb key "allowedips" then allow (split_csv_value value) st else st in
      if truthy_str value then keep line st else st.
Definition scan_lines (lines : list string) : scan := foldl scan_line scan_start lines.
Definition parse_config (raw : string) : ParsedConfig :=
  let st := scan_lines (splitlines raw) in
  {| pc_stripped_config := strip (join nl (sc_kept st)); pc_addresses := sc_addresses st; pc_allowed_ips := sc_allowed st;
     pc_mtu := sc_mtu st; pc_table := sc_table st |}.

(** ** Errors *)
Definition last_chars (n : nat) (s : string) : string := str_drop (String.length s - n) s.
Definition with_tail (n : nat) (s : string) : string := if (n <? String.length s)%nat then "..." +:+ last_chars n s else s.
(** [SECRET_LINE_RE.match(line)] *)
Definition secret_line (line : string) : bool :=
  let s := lower (lstrip line) in
  existsb (fun word => startswith word s && startswith "=" (lstrip (str_drop (String.length word) s))) ["privatekey"; "presharedkey"].
Definition redact_line (line : string) : string := if secret_line line then "<redacted secret key line>" else line.
Definition sanitize_error_detail (text : string) : string :=
  with_tail MAX_ERROR_DETAIL_LENGTH (strip (join nl (map redact_line (splitlines text)))).

Definition route_family (cidr : string) : string := if contains ":" cidr then "-6" else "-4".
Definition DEFAULT_ROUTES : list string := ["0.0.0.0/0"; "::/0"].

(** ** The driver object *)
Record AwgDriver : Type := {
  ad_active_profile : option Profile; ad_connected_at : option datetime; ad_runtime_dir : option string; ad_userspace_process : option Z;
  ad_userspace_failure_reason : string; ad_last_error : string
}.
Definition new_awg_driver : AwgDriver := {|
  ad_active_profile := None; ad_connected_at := None; ad_runtime_dir := None; ad_userspace_process := None; ad_userspace_failure_reason := "";
  ad_last_error := "" |}.
Definition awg_session (profile : option Profile) (at_ : option datetime) (d : AwgDriver) : AwgDriver :=
  {| ad_active_profile := profile; ad_connected_at := at_; ad_runtime_dir := ad_runtime_dir d; ad_userspace_process := ad_userspace_process d;
     ad_userspace_failure_reason := ad_userspace_failure_reason d; ad_last_error := ad_last_error d |}.
Definition awg_dir (dir : option string) (d : AwgDriver) : AwgDriver :=
  {| ad_active_profile := ad_active_profile d; ad_connected_at := ad_connected_at d; ad_runtime_dir := dir; ad_userspace_process := ad_userspace_process d;
     ad_userspace_failure_reason := ad_userspace_failure_reason d; ad_last_error := ad_last_error d |}.
Definition awg_process (process : option Z) (d : AwgDriver) : AwgDriver :=
  {| ad_active_profile := ad_active_profile d; ad_connected_at := ad_connected_at d; ad_runtime_dir := ad_runtime_dir d; ad_userspace_process := process;
     ad_userspace_failure_reason := ad_userspace_failure_reason d; ad_last_error := ad_last_error d |}.
Definition awg_reason (reason : string) (d : AwgDriver) : AwgDriver :=
  {| ad_active_profile := ad_active_profile d; ad_connected_at := ad_connected_at d; ad_runtime_dir := ad_runtime_dir d; ad_userspace_process := ad_userspace_process d;
     ad_userspace_failure_reason := reason; ad_last_error := ad_last_error d |}.
Definition awg_error (msg : string) (d : AwgDriver) : AwgDriver :=
  {| ad_active_profile := ad_active_profile d; ad_connected_at := ad_connected_at d; ad_runtime_dir := ad_runtime_dir d; ad_userspace_process := ad_userspace_process d;
     ad_userspace_failure_reason := ad_userspace_failure_reason d; ad_last_error := msg |}.

Section driver.
Context `{PyStr} {W : Type} (host : RunHost W).
(** Deleting a file that may be missing, reading one with replaced bytes, and [int(time.time())] *)
Context (unlink : string → PyM W unit) (read_replacing : string → PyM W string) (epoch : PyM W Z).
Notation AM := (PyM (AwgDriver * W)).

Definition AmneziaWGDriver_init : PyM W AwgDriver :=
  _ ← cleanup_stale_runtime_dirs (rh_proc host) AWG_RUNTIME_PREFIX;
  mret new_awg_driver.
Definition find_wg_tool : PyM W (option string) := find_binary host "WATCHDOGVPN_AMNEZIAWG_BIN" "awg" AWG_BINARIES.
Definition find_userspace_tool : PyM W (option string) := find_binary host "WATCHDOGVPN_AMNEZIAWG_GO_BIN" "amneziawg-go" AMNEZIAWG_GO_BINARIES.
Definition find_ip_tool : PyM W (option string) := first_executable host "ip" IP_BINARIES.
(** A tool, or [None] where [not tool] *)
Definition usable (tool : option string) : option string := match tool with Some (String _ _ as t) => Some t | _ => None end.
Definition get_tool : PyM W string :=
  tool ← find_wg_tool;
  match usable tool with Some tool => mret tool | None => raiseM FileNotFoundError "awg was not found" end.
Definition awg_check_version : PyM W string :=
  tool ← find_wg_tool;
  match usable tool with
  | None => raiseM FileNotFoundError "awg was not found"
  | Some tool =>
      r ← sh_run (rh_sb host) [tool; "--version"];
      let output := strip (if truthy_str (cp_stdout r) then cp_stdout r else cp_stderr r) in
      if negb (truthy_str output) then raiseM RuntimeError "wg version output is empty" else mret output
  end.
Definition kernel_module_loaded : PyM W bool := ph_exists (rh_proc host) "/sys/module/amneziawg".
Definition awg_is_available : PyM W bool :=
  ip ← find_ip_tool;
  match ip with
  | None => mret false
  | Some _ =>
      userspace ← find_userspace_tool;
      runnable ← match userspace with Some _ => mret true | None => kernel_module_loaded end;
      if negb runnable then mret false else available awg_check_version
  end.

(** ** Files *)
Definition awg_ensure_runtime_paths : AM string :=
  d ← self;
  match ad_runtime_dir d with
  | Some dir => mret dir
  | None =>
      dir ← io (make_runtime_dir (rh_proc host) AWG_RUNTIME_PREFIX);
      _ ← update (awg_dir (Some dir));
      mret dir
  end.
Definition awg_write_config (p : Profile) : AM ParsedConfig :=
  if negb (bool_decide (p_protocol p = AMNEZIAWG)) then raiseM ValueError ("unsupported protocol for AmneziaWG driver: " +:+ protocol_value (p_protocol p))
  else if negb (truthy_str (cfg_text "raw" p)) then raiseM ValueError "AmneziaWG profile requires raw config"
  else
    let parsed := parse_config (strip_empty_keys (cfg_text "raw" p)) in
    if negb (truthy_str (pc_stripped_config parsed)) then raiseM ValueError "AmneziaWG profile has no awg runtime config"
    else if bool_decide (pc_addresses parsed = []) then raiseM ValueError "AmneziaWG profile requires Interface Address"
    else
      dir ← awg_ensure_runtime_paths;
      _ ← io (write_private_file (rh_proc host) (path_join dir AWG_CONFIG_NAME) (pc_stripped_config parsed +:+ nl));
      mret parsed.
Definition awg_cleanup_runtime : AM unit :=
  d ← self;
  _ ← match ad_runtime_dir d with Some dir => io (rh_remove_dir host dir) | None => mret tt end;
  update (awg_dir None).
Definition awg_log (message : string) : AM unit :=
  dir ← awg_ensure_runtime_paths;
  _ ← io (observed (rh_append host (path_join dir AWG_LOG_NAME) (message +:+ nl)));
  mret tt.
Definition reset_log : AM unit :=
  dir ← awg_ensure_runtime_paths;
  _ ← io (observed (unlink (path_join dir AWG_LOG_NAME)));
  _ ← io (observed (write_private_file (rh_proc host) (path_join dir AWG_LOG_NAME) ""));
  mret tt.
Definition set_last_error (message : string) : AM unit := update (awg_error (sanitize_error_detail message)).

(** ** Commands *)
Definition command (args : list string) : AM completed := io (sh_run (rh_sb host) args).
Definition rstrip_text (s : string) : string := rstrip_by is_space s.
Definition streams (r : completed) : string := "stdout:" +:+ nl +:+ strip (cp_stdout r) +:+ nl +:+ "stderr:" +:+ nl +:+ strip (cp_stderr r).
Definition run_logged (args : list string) (success_codes : list Z) : AM completed :=
  r ← command args;
  _ ← awg_log ("run: " +:+ join " " args +:+ " -> " +:+ pretty (cp_returncode r));
  _ ← (if truthy_str (cp_stdout r) then awg_log (rstrip_text (cp_stdout r)) else mret tt);
  _ ← (if truthy_str (cp_stderr r) then awg_log (rstrip_text (cp_stderr r)) else mret tt);
  if negb (bool_decide (cp_returncode r ∈ success_codes))
  then raiseM RuntimeError (path_name (hd "" args) +:+ " command failed with code " +:+ pretty (cp_returncode r) +:+ ": " +:+ join " " args +:+ nl +:+ streams r)
  else mret r.
Definition run_ok (args : list string) : AM unit := _ ← run_logged args [0%Z]; mret tt.
Fixpoint run_all (commands : list (list string)) (success_codes : list Z) : AM unit :=
  match commands with [] => mret tt | c :: rest => _ ← run_logged c success_codes; run_all rest success_codes end.

(** ** The interface *)
Definition interface_exists : AM bool :=
  ip ← io find_ip_tool;
  match usable ip with
  | None => mret false
  | Some ip => r ← command [ip; "link"; "show"; INTERFACE_NAME]; mret (cp_returncode r =? 0)%Z
  end.
Definition delete_interface : AM bool :=
  ip ← io find_ip_tool;
  match usable ip with
  | None => mret false
  | Some ip =>
      r ← command [ip; "link"; "delete"; INTERFACE_NAME];
      if (cp_returncode r =? 0)%Z then mret true else there ← interface_exists; mret (negb there)
  end.
(** [while time.monotonic() < deadline: ...]; [None]: the deadline passed *)
Fixpoint wait_verdict (interval : Q) (fuel : nat) (deadline : Q) (check : AM (option bool)) : AM (option bool) :=
  match fuel with
  | O => raiseM OtherError "out of fuel"
  | S fuel =>
      now ← io (ph_monotonic (rh_proc host));
      if Qle_bool deadline now then mret None
      else
        verdict ← check;
        match verdict with
        | Some b => mret (Some b)
        | None => _ ← io (ph_sleep (rh_proc host) interval); wait_verdict interval fuel deadline check
        end
  end.
Definition INTERFACE_FUEL : nat := 51.
Definition SOCKET_FUEL : nat := 101.
(** There, or the process that should make it is gone *)
Definition there_or_gone (there : AM bool) : AM (option bool) :=
  b ← there;
  if b : bool then mret (Some true)
  else
    d ← self;
    match ad_userspace_process d with
    | None => mret None
    | Some pid => gone ← io (rh_exited host pid); mret (if gone : bool then Some false else None)
    end.
Definition wait_for (interval : Q) (fuel : nat) (there : AM bool) : AM bool :=
  now ← io (ph_monotonic (rh_proc host));
  verdict ← wait_verdict interval fuel (now + 5) (there_or_gone there);
  match verdict with Some b => mret b | None => there end.
Definition wait_for_interface : AM bool := wait_for (1 # 10) INTERFACE_FUEL interface_exists.
Definition uapi_socket_path : string := path_join UAPI_SOCKET_DIR (INTERFACE_NAME +:+ ".sock").
Definition wait_for_uapi_socket : AM bool := wait_for (1 # 20) SOCKET_FUEL (io (ph_exists (rh_proc host) uapi_socket_path)).
Definition userspace_log_tail : AM string :=
  d ← self;
  match ad_runtime_dir d with
  | None => mret ""
  | Some dir =>
      text ← io (observed (read_replacing (path_join dir USERSPACE_LOG_NAME)));
      mret match text with
           | None => ""
           | Some text =>
               let lines := splitlines text in
               with_tail USERSPACE_LOG_TAIL_MAX_CHARS (strip (join nl (drop (length lines - USERSPACE_LOG_TAIL_LINES) lines)))
           end
  end.
Definition start_userspace_interface : AM bool :=
  tool ← io find_userspace_tool;
  match usable tool with
  | None => mret false
  | Some tool =>
      dir ← awg_ensure_runtime_paths;
      _ ← io (rh_open_log host (path_join dir USERSPACE_LOG_NAME));
      pid ← io (rh_popen host [tool; INTERFACE_NAME]);
      _ ← update (awg_process (Some pid));
      _ ← io (record_child_process (rh_proc host) dir "userspace_process" pid (path_name tool));
      _ ← awg_log ("connect: started " +:+ tool +:+ " " +:+ INTERFACE_NAME);
      appeared ← wait_for_interface;
      if negb appeared then
        let reason := INTERFACE_NAME +:+ " did not appear via ip link show" in
        _ ← update (awg_reason reason); _ ← awg_log ("connect: " +:+ reason); mret false
      else
        socket ← wait_for_uapi_socket;
        if negb socket then
          let reason := "uapi socket did not appear at " +:+ uapi_socket_path in
          _ ← update (awg_reason reason); _ ← awg_log ("connect: " +:+ reason); mret false
        else mret true
  end.
Definition create_interface : AM unit :=
  ip ← io find_ip_tool;
  match usable ip with
  | None => raiseM RuntimeError "ip command was not found"
  | Some ip =>
      r ← command [ip; "link"; "add"; INTERFACE_NAME; "type"; "amneziawg"];
      _ ← awg_log ("run: " +:+ ip +:+ " link add " +:+ INTERFACE_NAME +:+ " type amneziawg -> " +:+ pretty (cp_returncode r));
      _ ← (if truthy_str (cp_stderr r) then awg_log (rstrip_text (cp_stderr r)) else mret tt);
      if (cp_returncode r =? 0)%Z then mret tt
      else
        tool ← io find_userspace_tool;
        _ ← update (awg_reason "");
        started ← match usable tool with Some _ => start_userspace_interface | None => mret false end;
        if started : bool then mret tt
        else
          d ← self;
          let fallback := match usable tool with
                          | Some tool => "userspace fallback via " +:+ tool +:+ ": " +:+ ad_userspace_failure_reason d
                          | None => "amneziawg-go was not found for a userspace fallback"
                          end in
          raiseM RuntimeError ("amneziawg interface creation failed with code " +:+ pretty (cp_returncode r) +:+ nl +:+ streams r +:+ nl +:+ fallback)
  end.

(** ** Routes and policy rules *)
Definition src_valid_mark_path : string := path_join (path_join SRC_VALID_MARK_PROC_DIR INTERFACE_NAME) "src_valid_mark".
Definition ensure_src_valid_mark : AM unit :=
  value ← try_except (io (ph_read_text (rh_proc host) src_valid_mark_path)) os_error
            (fun e => raiseM RuntimeError ("could not read " +:+ src_valid_mark_path +:+ ": " +:+ exn_message e));
  if negb (String.eqb (strip value) "1")
  then raiseM RuntimeError (src_valid_mark_path +:+ " is '" +:+ strip value +:+ "', expected '1' for default-route AmneziaWG "
         +:+ "policy routing. Rerun ./install.sh or ./update.sh to reapply etc/sysctl.d/99-watchdogvpn.conf (sets both "
         +:+ "net.ipv4.conf.all.src_valid_mark and net.ipv4.conf.default.src_valid_mark), or set it directly with: "
         +:+ "sudo sysctl -w net.ipv4.conf." +:+ INTERFACE_NAME +:+ ".src_valid_mark=1")
  else mret tt.
(** The interface of a line of [ip route show default]; [Ok None]: no device, or a virtual one *)
Definition line_interface (line : string) : res (option string) :=
  match tokens_after "dev" (py_split line) with
  | None => Ok None
  | Some [] => raise IndexError "list index out of range"
  | Some (interface :: _) =>
      Ok (if truthy_str interface && negb (existsb (fun p => startswith p interface) VIRTUAL_INTERFACE_PREFIXES) then Some interface else None)
  end.
Fixpoint first_interface (lines : list string) : res (option string) :=
  match lines with
  | [] => Ok None
  | line :: rest => i ← line_interface line; match i with Some i => Ok (Some i) | None => first_interface rest end
  end.
Definition detect_default_interface : AM (option string) :=
  ip ← io find_ip_tool;
  match usable ip with
  | None => mret None
  | Some ip =>
      r ← command [ip; "route"; "show"; "default"];
      if negb (cp_returncode r =? 0)%Z then mret None else liftR (first_interface (splitlines (cp_stdout r)))
  end.
Definition rp_filter_value (scope : string) : AM (option string) :=
  text ← io (observed (ph_read_text (rh_proc host) (path_join (path_join SRC_VALID_MARK_PROC_DIR scope) "rp_filter")));
  mret (option_map strip text).
Definition none_text (v : option string) : string := default "None" v.
Definition ensure_rp_filter : AM unit :=
  interface ← detect_default_interface;
  match interface with
  | None => mret tt
  | Some interface =>
      all_value ← rp_filter_value "all";
      iface_value ← rp_filter_value interface;
      if bool_decide (all_value = Some "1") || bool_decide (iface_value = Some "1")
      then raiseM RuntimeError ("net.ipv4.conf.all.rp_filter=" +:+ none_text all_value +:+ " / net.ipv4.conf." +:+ interface +:+ ".rp_filter="
             +:+ none_text iface_value +:+ ": strict reverse-path filtering blocks the AmneziaWG server's return traffic once default-route "
             +:+ "policy routing is active (the physical interface's own reverse-path check resolves via the tunnel instead of itself). "
             +:+ "Rerun ./install.sh or ./update.sh to reapply etc/sysctl.d/99-watchdogvpn.conf, or set it directly with: sudo sysctl -w net.ipv4.conf."
             +:+ interface +:+ ".rp_filter=2")
      else mret tt
  end.
Definition default_commands (ip family cidr : string) : list (list string) :=
  [[ip; family; "route"; "add"; cidr; "dev"; INTERFACE_NAME; "table"; ROUTE_TABLE];
   [ip; family; "rule"; "add"; "not"; "fwmark"; NATIVE_ROUTING_MARK; "table"; ROUTE_TABLE];
   [ip; family; "rule"; "add"; "table"; "main"; "suppress_prefixlength"; "0"]].
Definition configure_routes (allowed_ips : list string) : AM unit :=
  ip ← io find_ip_tool;
  awg ← io find_wg_tool;
  match usable ip, usable awg with
  | Some ip, Some awg =>
      let default_v4 := str_in "0.0.0.0/0" allowed_ips in
      let default_v6 := str_in "::/0" allowed_ips in
      _ ← (if default_v4 || default_v6 then run_ok [awg; "set"; INTERFACE_NAME; "fwmark"; NATIVE_ROUTING_MARK] else mret tt);
      _ ← (if default_v4 then _ ← run_all (default_commands ip "-4" "0.0.0.0/0") [0%Z]; _ ← ensure_src_valid_mark; ensure_rp_filter else mret tt);
      _ ← (if default_v6 then run_all (default_commands ip "-6" "::/0") [0%Z] else mret tt);
      run_all (map (fun cidr => [ip; route_family cidr; "route"; "add"; cidr; "dev"; INTERFACE_NAME])
                 (List.filter (fun cidr => negb (str_in cidr DEFAULT_ROUTES)) allowed_ips)) [0%Z]
  | _, _ => raiseM RuntimeError "AmneziaWG route tools are missing"
  end.
Definition configure_interface (parsed : ParsedConfig) : AM unit :=
  ip ← io find_ip_tool;
  awg ← io find_wg_tool;
  match usable ip with
  | None => raiseM RuntimeError "ip command was not found"
  | Some ip =>
      match usable awg with
      | None => raiseM RuntimeError "awg was not found"
      | Some awg =>
          dir ← awg_ensure_runtime_paths;
          _ ← run_ok [awg; "setconf"; INTERFACE_NAME; path_join dir AWG_CONFIG_NAME];
          _ ← run_all (map (fun address => [ip; route_family address; "address"; "add"; address; "dev"; INTERFACE_NAME]) (pc_addresses parsed)) [0%Z];
          let mtu := match pc_mtu parsed with Some (String _ _ as m) => m | _ => DEFAULT_MTU end in
          _ ← run_ok [ip; "link"; "set"; "mtu"; mtu; "up"; "dev"; INTERFACE_NAME];
          if negb (String.eqb (pc_table parsed) "off") then configure_routes (pc_allowed_ips parsed) else mret tt
      end
  end.
Definition cleanup_commands (ip family : string) : list (list string) :=
  [[ip; family; "rule"; "delete"; "not"; "fwmark"; NATIVE_ROUTING_MARK; "table"; ROUTE_TABLE];
   [ip; family; "rule"; "delete"; "table"; "main"; "suppress_prefixlength"; "0"];
   [ip; family; "route"; "flush"; "table"; ROUTE_TABLE]].
Definition cleanup_routes : AM unit :=
  ip ← io find_ip_tool;
  match usable ip with
  | None => mret tt
  | Some ip => run_all (cleanup_commands ip "-4" ++ cleanup_commands ip "-6") [0; 1; 2]%Z
  end.

(** ** Connect and disconnect *)
Definition stop_userspace_process : AM bool :=
  d ← self;
  _ ← update (awg_process None);
  io (stop_process host (ad_userspace_process d)).
Definition teardown_interface : AM bool :=
  d ← self;
  leftover ← match ad_runtime_dir d with
             | Some _ => mret true
             | None => there ← interface_exists; mret (there || match ad_userspace_process d with Some _ => true | None => false end)
             end;
  _ ← (if leftover : bool then cleanup_routes else mret tt);
  there ← interface_exists;
  deleted ← (if there : bool then delete_interface else mret true);
  stopped ← stop_userspace_process;
  mret (stopped && deleted).
Definition awg_disconnect : AM bool :=
  outcome ← try_finally_with teardown_interface (
    _ ← update (awg_session None None);
    _ ← io (kill_all_recorded_children (rh_proc host) AWG_RUNTIME_PREFIX);
    awg_cleanup_runtime);
  if outcome.1 : bool then there ← interface_exists; mret (negb there) else mret false.
Definition awg_ensure_disconnected : AM bool :=
  d ← self;
  match ad_active_profile d, ad_userspace_process d with None, None => mret true | _, _ => awg_disconnect end.
Definition bring_up (profile : Profile) : AM unit :=
  parsed ← awg_write_config profile;
  _ ← reset_log;
  _ ← cleanup_routes;
  _ ← create_interface;
  configure_interface parsed.
Definition bring_up_error (e : exn) : bool := is_instance e OSError || is_instance e RuntimeError || is_instance e ValueError.
Definition bring_up_failed (e : exn) : AM bool :=
  d ← self;
  tail ← match ad_userspace_process d with Some _ => userspace_log_tail | None => mret "" end;
  _ ← set_last_error (if truthy_str tail then exn_message e +:+ nl +:+ "amneziawg-go log tail:" +:+ nl +:+ tail else exn_message e);
  d ← self;
  _ ← awg_log ("connect: " +:+ ad_last_error d);
  _ ← awg_disconnect;
  _ ← awg_cleanup_runtime;
  mret false.
Definition refuse (message : string) : AM bool := _ ← set_last_error message; mret false.
(** The interface is configured: is it there *)
Definition finish_connect (profile : Profile) : AM bool :=
  _ ← update (fun d => awg_session (Some profile) (ad_connected_at d) d);
  there ← interface_exists;
  if there : bool then
    now ← io (rh_utcnow host);
    _ ← update (fun d => awg_session (ad_active_profile d) (Some now) d);
    mret true
  else
    _ ← update (awg_session None None);
    _ ← set_last_error ("interface was not created after native AmneziaWG bring-up: " +:+ INTERFACE_NAME);
    _ ← awg_disconnect;
    mret false.
Definition awg_connect (profile : Profile) : AM bool :=
  _ ← update (awg_error "");
  free ← awg_ensure_disconnected;
  if negb free then refuse "existing AmneziaWG runtime teardown failed"
  else
    ip ← io find_ip_tool;
    match usable ip with
    | None => refuse "ip command was not found"
    | Some _ =>
        awg ← io find_wg_tool;
        match usable awg with
        | None => refuse "awg was not found"
        | Some _ =>
            stale ← interface_exists;
            gone ← (if stale : bool then delete_interface else mret true);
            if negb gone then refuse ("stale interface could not be deleted: " +:+ INTERFACE_NAME)
            else
              up ← try_except (_ ← bring_up profile; mret true) bring_up_error bring_up_failed;
              if up : bool then finish_connect profile else mret false
        end
    end.

(** ** Health and status *)
Fixpoint handshake_age (now : Z) (lines : list string) : option Z :=
  match lines with
  | [] => None
  | line :: rest =>
      match split_on "009" line with
      | _ :: second :: _ =>
          match py_int second with
          | Some timestamp => if (timestamp =? 0)%Z then None else Some (now - timestamp)%Z
          | None => handshake_age now rest
          end
      | _ => handshake_age now rest
      end
  end.
Definition latest_handshake_age : AM (option Z) :=
  awg ← io find_wg_tool;
  match usable awg with
  | None => mret None
  | Some awg =>
      r ← command [awg; "show"; INTERFACE_NAME; "latest-handshakes"];
      if negb (cp_returncode r =? 0)%Z || negb (truthy_str (strip (cp_stdout r))) then mret None
      else now ← io epoch; mret (handshake_age now (splitlines (strip (cp_stdout r))))
  end.
Definition ping_through_interface : AM bool :=
  ping ← io (sh_which (rh_sb host) "ping");
  if negb ping then mret false
  else r ← command ["ping"; "-I"; INTERFACE_NAME; "-c"; "3"; "-W"; "3"; "1.1.1.1"]; mret (cp_returncode r =? 0)%Z.
Definition stale_handshake (age : option Z) : bool := match age with None => true | Some age => (HANDSHAKE_TIMEOUT_SECONDS <? age)%Z end.
Definition awg_health_check : AM string :=
  d ← self;
  match ad_active_profile d with
  | None => mret "down"
  | Some _ =>
      there ← interface_exists;
      if negb there then mret "down"
      else
        age ← latest_handshake_age;
        age ← (if stale_handshake age then _ ← ping_through_interface; latest_handshake_age else mret age);
        mret (if stale_handshake age then "degraded" else "ok")
  end.
Definition awg_egress_interface : AM (option string) :=
  d ← self;
  match ad_active_profile d with
  | None => mret None
  | Some _ => there ← interface_exists; mret (if there : bool then Some INTERFACE_NAME else None)
  end.
Definition awg_running_state (profile : Profile) (d : AwgDriver) : ConnectionState :=
  let c := default_ConnectionState "connected" "amneziawg" in
  {| cs_active_profile_id := p_id profile; cs_connected_at := ad_connected_at d; cs_mode := "amneziawg"; cs_tun_active := true; cs_proxy_active := false;
     cs_kill_switch_active := cs_kill_switch_active c; cs_kill_switch_status := cs_kill_switch_status c;
     cs_kill_switch_method := cs_kill_switch_method c; cs_kill_switch_consistent := cs_kill_switch_consistent c;
     cs_runtime_mismatch_severity := ""; cs_runtime_artifacts := []; cs_lan_gateway_active := false; cs_lan_gateway_interface := "";
     cs_lan_gateway_client_cidr := ""; cs_lan_gateway_dns_mode := ""; cs_lan_gateway_status := "disabled"; cs_status := "connected";
     cs_last_failure_reason := ""; cs_last_failure_at := None |}.
Definition awg_status : AM ConnectionState :=
  there ← interface_exists;
  d ← self;
  match ad_active_profile d, there with
  | Some profile, true => liftR (ConnectionState_post_init (awg_running_state profile d))
  | _, _ =>
      orphan ← (if there : bool then mret true else io (any_recorded_child_alive (rh_proc host) AWG_RUNTIME_PREFIX));
      liftR (new_ConnectionState (if orphan : bool then "runtime_mismatch" else "standby") "standby")
  end.
End driver.
