(* ===== verification/AwgSafety.v ===== *)
(** * What the AmneziaWG driver hands on

    About [AmneziaWg]: the configuration that reaches awg, against the way awg-quick reads such a
    file. *)
From stdpp Require Import base list sets strings pretty.
From Stdlib Require Import Ascii ZArith QArith Lia.
From S2P Require Import Prelude Steps PyData PyText PyUrl Profiles NodeGroups Rules Protocol ProfileSchema Health SingBox RuntimePaths SingBoxRun SingBoxSafety OpenVpnDriver OpenVpnSafety CloakDriver CloakSafety AmneziaWg.

(** ** The configuration *)

(** The key of a line that is a setting, in lower case *)
Definition setting_key (line : string) : option string :=
  let stripped := strip line in
  if negb (truthy_str stripped) || startswith "#" stripped || startswith ";" stripped then None
  else if startswith "[" stripped && endswith "]" stripped then None
  else if negb (contains "=" stripped) then None
  else Some (lower (strip (partition_on "=" stripped).1.1)).

Definition rescanned (st : scan) : scan :=
  {| sc_section := sc_section st; sc_kept := sc_kept st; sc_addresses := []; sc_allowed := sc_allowed st; sc_mtu := None; sc_table := "auto" |}.
Lemma scan_snoc lines line : scan_lines (lines ++ [line]) = scan_line (scan_lines lines) line.
Proof. unfold scan_lines. by rewrite foldl_app. Qed.
Lemma csv_blank value : truthy_str value = false → split_csv_value value = [].
Proof. by destruct value. Qed.
(** A line is either dropped or kept by the scan of the kept lines too *)
Lemma rescan_line st line :
  scan_line st line = take_setting (key_of_line (strip line)) (value_of_line (strip line)) st
  ∨ (sc_kept (scan_line st line) = sc_kept st ∧ rescanned (scan_line st line) = rescanned st)
  ∨ (sc_kept (scan_line st line) = sc_kept st ++ [line] ∧ scan_line (rescanned st) line = rescanned (scan_line st line)).
Proof.
  unfold scan_line. cbn [sc_section rescanned]. destruct (_ || _ || _); [by right; right|]. destruct (_ && _); [by right; right|].
  destruct (negb _); [by right; right|]. destruct (_ && _); [by left|].
  destruct (String.eqb (sc_section st) "peer" && _); destruct (truthy_str (value_of_line (strip line))) eqn:Et; [by right; right| |by right; right|by right; left].
  right; left. split; [done|]. unfold rescanned, allow. cbn. by rewrite (csv_blank _ Et), app_nil_r.
Qed.
Lemma rescan_fixed lines : scan_lines (sc_kept (scan_lines lines)) = rescanned (scan_lines lines).
Proof.
  induction lines as [|line lines IH] using rev_ind; [done|]. rewrite scan_snoc.
  destruct (rescan_line (scan_lines lines) line) as [E|[[E1 E2]|[E1 E2]]].
  - rewrite E. cbn [take_setting sc_kept]. by rewrite IH.
  - by rewrite E1, E2.
  - by rewrite E1, scan_snoc, IH, E2.
Qed.
Lemma kept_length lines : (length (sc_kept (scan_lines lines)) ≤ length lines)%nat.
Proof.
  induction lines as [|line lines IH] using rev_ind; [done|]. rewrite scan_snoc, length_app.
  destruct (rescan_line (scan_lines lines) line) as [E|[[E1 _]|[E1 _]]]; [rewrite E; cbn|rewrite E1|rewrite E1, length_app; cbn]; cbn; lia.
Qed.
Lemma kept_drops pre line post k : sc_section (scan_lines pre) = "interface" → setting_key line = Some k → k ∈ INTERFACE_CONFIG_KEYS →
  (length (sc_kept (scan_lines (pre ++ line :: post))) < length (pre ++ line :: post))%nat.
Proof.
  intros Hs Hk Hin. induction post as [|x post IH] using rev_ind.
  - rewrite scan_snoc, length_app. assert (E : sc_kept (scan_line (scan_lines pre) line) = sc_kept (scan_lines pre)).
    { unfold setting_key in Hk. unfold scan_line. destruct (_ || _ || _); [done|]. destruct (startswith "[" _ && _); [done|]. destruct (negb _); [done|].
      injection Hk as <-. rewrite Hs. apply str_in_spec in Hin. fold (key_of_line (strip line)) in Hin. by rewrite Hin. }
    rewrite E. pose proof (kept_length pre). cbn. lia.
  - replace (pre ++ line :: post ++ [x]) with ((pre ++ line :: post) ++ [x]) by (by rewrite <- app_assoc).
    rewrite scan_snoc, length_app. destruct (rescan_line (scan_lines (pre ++ line :: post)) x) as [E|[[E _]|[E _]]];
      [rewrite E; cbn|rewrite E|rewrite E, length_app; cbn]; cbn; lia.
Qed.

(** *** How awg-quick reads the lines

    awg-quick(8), like wg-quick(8): a comment runs from '#', the key is what stands before '=', its
    case does not matter, a key that opens with '[' is a section header, and in the interface section
    nine keys are instructions for awg-quick itself, four of them commands that it executes. *)
Definition quick_text (line : string) : string := (partition_on "#" line).1.1.
Definition quick_key (line : string) : string := lower (strip (partition_on "=" (quick_text line)).1.1).
Definition quick_enter (inside : bool) (line : string) : bool :=
  if startswith "[" (quick_key line) then String.eqb (quick_key line) "[interface]" else inside.
Definition in_interface (lines : list string) : bool := foldl quick_enter false lines.
Definition quick_hooks : list string := ["preup"; "postup"; "predown"; "postdown"].
Definition quick_settings : list string := ["address"; "dns"; "mtu"; "table"; "saveconfig"].
(** A line that awg-quick obeys, if it is in the interface section *)
Definition quick_instruction (line : string) : Prop :=
  contains "=" (quick_text line) = true ∧ quick_key line ∈ quick_hooks ++ quick_settings.
(** The header of an interface section has its line to itself. *)
Definition plain_header (line : string) : Prop := quick_key line = "[interface]" → lower (strip line) = "[interface]".

Lemma lower_lstrip p s : (∀ c, p (lower_char c) = p c) → lower (lstrip_by p s) = lstrip_by p (lower s).
Proof. intros Hp. induction s as [|c s IH]; [done|]. cbn [lower lstrip_by]. rewrite Hp. by destruct (p c). Qed.
Lemma lower_rstrip_by p s : (∀ c, p (lower_char c) = p c) → lower (rstrip_by p s) = rstrip_by p (lower s).
Proof.
  intros Hp. induction s as [|c s IH]; [done|]. cbn [lower rstrip_by]. rewrite Hp, <- IH. destruct (p c); cbn [andb]; [|done].
  by destruct (rstrip_by p s).
Qed.
Lemma lower_strip s : lower (strip s) = strip (lower s).
Proof. unfold strip. rewrite lower_rstrip_by, lower_lstrip; [done|..]; by intros [[] [] [] [] [] [] [] []]. Qed.
Lemma section_of_header t : lower t = "[interface]" → section_name t = "interface".
Proof.
  intros Ht. unfold section_name. rewrite lower_strip, lower_rstrip_by, lower_lstrip, Ht; [by vm_compute|..]; by intros [[] [] [] [] [] [] [] []].
Qed.
Lemma strip_space c s : is_space c = true → strip (String c s) = strip s.
Proof. intros Hc. unfold strip. cbn [lstrip_by]. by rewrite Hc. Qed.
Lemma key_lstrip s : strip (partition_on "=" (lstrip_by is_space s)).1.1 = strip (partition_on "=" s).1.1.
Proof.
  induction s as [|c s IH]; [done|]. cbn [lstrip_by partition_on]. destruct (is_space c) eqn:Ec; [|done]. rewrite IH.
  destruct (Ascii.eqb_spec c "=") as [->|_]; [done|]. destruct (partition_on "=" s) as [[a b] t]. cbn [fst]. by rewrite strip_space.
Qed.
Lemma key_rstrip s : contains "=" s = true → (partition_on "=" (rstrip_by is_space s)).1.1 = (partition_on "=" s).1.1 ∧ contains "=" (rstrip_by is_space s) = true.
Proof.
  rewrite <- !partition_found. induction s as [|c s IH]; [done|]. cbn [rstrip_by partition_on]. destruct (Ascii.eqb_spec c "=") as [->|Hc].
  - intros _. cbn. done.
  - destruct (partition_on "=" s) as [[a b] t] eqn:E. cbn [fst snd] in *. intros ->. destruct (IH eq_refl) as [H1 H2].
    assert (Hr : rstrip_by is_space s ≠ "") by (intros E'; by rewrite E' in H2). rewrite (proj2 (String.eqb_neq _ _) Hr), andb_false_r.
    cbn [partition_on]. rewrite (proj2 (Ascii.eqb_neq _ _) Hc). destruct (partition_on "=" (rstrip_by is_space s)) as [[a' b'] t'].
    cbn [fst snd] in *. by subst.
Qed.
Lemma contains_lstrip s : contains "=" s = true → contains "=" (lstrip_by is_space s) = true.
Proof.
  rewrite <- !partition_found. induction s as [|c s IH]; [done|]. cbn [lstrip_by partition_on]. destruct (Ascii.eqb_spec c "=") as [->|Hc]; [done|].
  destruct (partition_on "=" s) as [[a b] t] eqn:E. cbn [fst snd] in *. intros ->. destruct (is_space c); [by apply IH|]. cbn [partition_on].
  rewrite (proj2 (Ascii.eqb_neq _ _) Hc), E. done.
Qed.
Lemma key_of_strip s : contains "=" s = true → contains "=" (strip s) = true ∧ strip (partition_on "=" (strip s)).1.1 = strip (partition_on "=" s).1.1.
Proof.
  intros Hs. apply contains_lstrip in Hs as Hl. unfold strip at 1 3. destruct (key_rstrip _ Hl) as [-> H2]. split; [done|apply key_lstrip].
Qed.
Lemma key_before_comment s : contains "=" (quick_text s) = true →
  contains "=" s = true ∧ (partition_on "=" s).1.1 = (partition_on "=" (quick_text s)).1.1.
Proof.
  unfold quick_text. rewrite <- !partition_found. induction s as [|c s IH]; [done|]. cbn [partition_on]. destruct (Ascii.eqb c "#"); [done|].
  destruct (partition_on "#" s) as [[a b] t]. cbn [fst snd partition_on] in *. destruct (Ascii.eqb c "="); [done|].
  destruct (partition_on "=" a) as [[a1 b1] t1]. destruct (partition_on "=" s) as [[a2 b2] t2]. cbn in *. intros Hb. destruct (IH Hb) as [-> ->]. done.
Qed.
Lemma starts_self c s : startswith (String c "") (String c s) = true.
Proof. apply (prefix_app (String c "") s). Qed.
(** What opens the text of a line opens its key. *)
Lemma strip_bracket s : startswith "[" (strip s) = true → ∃ pre rest, s = pre +:+ String "[" rest ∧ forall_chars is_space pre = true.
Proof.
  unfold strip. induction s as [|c s IH]; [done|]. cbn [lstrip_by]. destruct (is_space c) eqn:Ec.
  - intros Hb. destruct (IH Hb) as (pre & rest & -> & Hp). exists (String c pre), rest. split; [done|]. cbn. by rewrite Ec.
  - rewrite rstrip_nonspace_head by done. unfold startswith. cbn [String.prefix]. destruct (ascii_dec "[" c) as [<-|]; [|done]. intros _. by exists "", s.
Qed.
Lemma key_opens s : startswith "[" (strip s) = true → startswith "[" (quick_key s) = true.
Proof.
  intros (pre & rest & -> & Hp)%strip_bracket. unfold quick_key, quick_text. induction pre as [|c pre IH].
  - change ("" +:+ String "[" rest) with (String "[" rest). cbn [partition_on]. change (Ascii.eqb "[" "#") with false. cbn [fst snd].
    destruct (partition_on "#" rest) as [[a b] t]. cbn [fst snd partition_on]. change (Ascii.eqb "[" "=") with false. cbn [fst snd].
    destruct (partition_on "=" a) as [[a1 b1] t1]. cbn [fst snd]. unfold strip. cbn [lstrip_by]. change (is_space "[") with false. cbn iota.
    rewrite rstrip_nonspace_head by done. cbn [lower]. change (lower_char "[") with "["%char. apply (prefix_app "[").
  - cbn [forall_chars] in Hp. apply andb_true_iff in Hp as [Hc Hp]. specialize (IH Hp).
    change (String c pre +:+ String "[" rest) with (String c (pre +:+ String "[" rest)). cbn [partition_on].
    destruct (Ascii.eqb_spec c "#") as [->|_]; [done|]. destruct (partition_on "#" (pre +:+ String "[" rest)) as [[a b] t]. cbn [fst snd partition_on] in *.
    destruct (Ascii.eqb_spec c "=") as [->|_]; [done|]. destruct (partition_on "=" a) as [[a1 b1] t1]. cbn [fst snd] in *. by rewrite strip_space.
Qed.
(** A line that awg-quick obeys is a setting of the driver's scan. *)
Lemma instruction_key line : quick_instruction line → setting_key line = Some (quick_key line).
Proof.
  intros [He Hk]. destruct (key_before_comment _ He) as [Hc Hq]. destruct (key_of_strip _ Hc) as [Hcs Hks]. unfold setting_key.
  assert (Hkey : lower (strip (partition_on "=" (strip line)).1.1) = quick_key line) by (unfold quick_key; by rewrite Hks, Hq).
  assert (Hnb : startswith "[" (strip line) = false).
  { destruct (startswith "[" (strip line)) eqn:Hb; [|done]. apply key_opens in Hb.
    assert (Hall : forallb (fun k => negb (startswith "[" k)) (quick_hooks ++ quick_settings) = true) by by vm_compute.
    rewrite forallb_forall in Hall. specialize (Hall _ (proj1 (list_elem_of_In _ _) Hk)). by rewrite Hb in Hall. }
  assert (Hhead : ∀ c, c = "#"%char ∨ c = ";"%char → startswith (String c "") (strip line) = false).
  { intros c Hcc. destruct (startswith (String c "") (strip line)) eqn:Hb; [|done]. exfalso.
    destruct (strip line) as [|d r] eqn:Es; [done|]. unfold startswith in Hb. cbn [String.prefix] in Hb. destruct (ascii_dec c d) as [<-|]; [|done].
    assert (Hsp : is_space c = false) by (destruct Hcc as [-> | ->]; done). assert (Hne : Ascii.eqb c "=" = false) by (destruct Hcc as [-> | ->]; done).
    cbn [partition_on] in Hkey. rewrite Hne in Hkey. destruct (partition_on "=" r) as [[a b] t]. cbn [fst snd] in Hkey. unfold strip in Hkey.
    rewrite lstrip_by_id, rstrip_nonspace_head in Hkey by done. cbn [lower] in Hkey.
    assert (Hall : forallb (fun k => negb (startswith "#" k) && negb (startswith ";" k)) (quick_hooks ++ quick_settings) = true) by by vm_compute.
    rewrite forallb_forall in Hall. specialize (Hall _ (proj1 (list_elem_of_In _ _) Hk)). rewrite <- Hkey in Hall.
    assert (Hl : lower_char c = c) by (destruct Hcc as [-> | ->]; done). rewrite Hl in Hall. apply andb_true_iff in Hall as [H1 H2].
    destruct Hcc as [-> | ->]; [by rewrite starts_self in H1|by rewrite starts_self in H2]. }
  assert (Ht : truthy_str (strip line) = true) by by destruct (strip line).
  rewrite Ht, (Hhead "#"%char), (Hhead ";"%char), Hnb, Hcs by auto. cbn [negb orb andb]. by rewrite Hkey.
Qed.
(** Where awg-quick is in the interface section, so is the scan. *)
Lemma header_text s : lower s = "[interface]" → ∃ t, s = String "[" t ∧ endswith "]" s = true.
Proof.
  intros Hs. assert (Hc : ∀ c, lower_char c = "["%char → c = "["%char) by (intros [[] [] [] [] [] [] [] []]; vm_compute; congruence).
  assert (Hd : ∀ c, lower_char c = "]"%char → c = "]"%char) by (intros [[] [] [] [] [] [] [] []]; vm_compute; congruence).
  do 11 (destruct s as [|? s]; [done|]). destruct s; [|done]. cbn [lower] in Hs. injection Hs. intros. subst.
  match goal with H : lower_char _ = "["%char |- _ => apply Hc in H; subst end. match goal with H : lower_char _ = "]"%char |- _ => apply Hd in H; subst end.
  eexists. split; [reflexivity|]. cbn. by rewrite !orb_true_r.
Qed.
Lemma section_agrees lines : Forall plain_header lines → in_interface lines = true → sc_section (scan_lines lines) = "interface".
Proof.
  induction lines as [|line lines IH] using rev_ind; [done|]. rewrite Forall_app, Forall_singleton. intros [Hl Hp]. unfold in_interface. rewrite foldl_app. cbn [foldl].
  fold (in_interface lines). rewrite scan_snoc. unfold quick_enter. destruct (startswith "[" (quick_key line)) eqn:Eb.
  - intros Hk%String.eqb_eq. specialize (Hp Hk). unfold scan_line. rewrite (section_of_header _ Hp).
    assert (Hh : ∃ t, strip line = String "[" t ∧ endswith "]" (strip line) = true) by by apply header_text.
    destruct Hh as (t & Et & Ee). rewrite Ee, Et, starts_self. done.
  - intros Hin. rewrite <- (IH Hl Hin). unfold scan_line. destruct (_ || _ || _); [done|].
    destruct (startswith "[" (strip line)) eqn:Es; [by apply key_opens in Es; congruence|]. cbn [andb]. destruct (negb _); [done|]. destruct (_ && _); [done|].
    by destruct (String.eqb _ "peer" && _), (truthy_str _).
Qed.
Lemma kept_from lines : ∀ line, line ∈ sc_kept (scan_lines lines) → line ∈ lines.
Proof.
  induction lines as [|x lines IH] using rev_ind; intros line; [done|]. rewrite scan_snoc, elem_of_app, list_elem_of_singleton.
  destruct (rescan_line (scan_lines lines) x) as [E|[[E _]|[E _]]]; [rewrite E; cbn; auto|rewrite E; auto|].
  rewrite E, elem_of_app, list_elem_of_singleton. naive_solver.
Qed.

(** C40: Nothing that awg-quick would obey reaches awg.  Whatever the lines of a profile are, provided
    that each header of an interface section has its line to itself: in the lines that the scan keeps
    for awg, none that lies in the interface section as awg-quick reads the lines, whatever its case,
    spacing and trailing comment, sets one of the hooks PreUp, PostUp, PreDown and PostDown, or
    Address, DNS, MTU, Table or SaveConfig.  And for all lines: scanning the kept lines again keeps
    all of them, ends in the same section with the same allowed addresses, and finds no interface
    setting.  (A header with a comment behind it is no header to the scan, see
    [commented_header_keeps_hook].) *)
Theorem awg_config_without_hooks lines :
  (Forall plain_header lines → ∀ pre line post, sc_kept (scan_lines lines) = pre ++ line :: post →
     in_interface pre = true → ¬ quick_instruction line)
  ∧ scan_lines (sc_kept (scan_lines lines)) = rescanned (scan_lines lines).
Proof.
  split; [|apply rescan_fixed]. intros Hp pre line post Hl Hs Hq.
  assert (Hpre : Forall plain_header pre).
  { rewrite Forall_forall in *. intros x Hx. apply Hp, kept_from. rewrite Hl. apply elem_of_app. by left. }
  assert (Hin : quick_key line ∈ INTERFACE_CONFIG_KEYS).
  { destruct Hq as [_ Hk]. revert Hk. unfold quick_hooks, quick_settings, INTERFACE_CONFIG_KEYS. cbn [app]. set_solver. }
  pose proof (kept_drops pre line post _ (section_agrees _ Hpre Hs) (instruction_key _ Hq) Hin) as Hlt.
  rewrite <- Hl, rescan_fixed in Hlt. cbn in Hlt. lia.
Qed.

Module DemoAwgConfig.
Definition raw : list string :=
  ["[Interface]"; "PrivateKey = k"; "Address = 10.0.0.2/32, fd00::2/128"; " PostUp = rm -rf /"; "MTU=1420"; "Table = OFF"; "# note"; "[peer]";
   "AllowedIPs = 0.0.0.0/0,::/0"; "PostUp = x"; "Endpoint ="].
Example parsed : scan_lines raw = {|
  sc_section := "peer"; sc_kept := ["[Interface]"; "PrivateKey = k"; "# note"; "[peer]"; "AllowedIPs = 0.0.0.0/0,::/0"; "PostUp = x"];
  sc_addresses := ["10.0.0.2/32"; "fd00::2/128"]; sc_allowed := ["0.0.0.0/0"; "::/0"]; sc_mtu := Some "1420"; sc_table := "off" |}.
Proof. vm_compute. reflexivity. Qed.
Lemma awg_config_without_hooks_witness : Forall plain_header raw ∧ ¬ quick_instruction "# note".
Proof.
  assert (Hp : Forall plain_header raw) by (repeat (constructor; [intros Hk; vm_compute in Hk |- *; congruence|]); constructor).
  split; [exact Hp|]. apply (proj1 (awg_config_without_hooks raw) Hp ["[Interface]"; "PrivateKey = k"] _ ["[peer]"; "AllowedIPs = 0.0.0.0/0,::/0"; "PostUp = x"]);
    vm_compute; reflexivity.
Defined.
(** A comment behind the header hides it from the scan, and not from awg-quick. *)
Example commented_header_keeps_hook :
  let lines := ["[Interface] # home"; "PostUp = rm -rf /"] in
  sc_kept (scan_lines lines) = lines ∧ in_interface ["[Interface] # home"] = true ∧ quick_instruction "PostUp = rm -rf /"
  ∧ ¬ plain_header "[Interface] # home".
Proof.
  split; [vm_compute; reflexivity|]. split; [vm_compute; reflexivity|]. split; [split; [vm_compute; reflexivity|]|].
  - change (quick_key "PostUp = rm -rf /") with "postup". unfold quick_hooks. cbn [app]. set_solver.
  - intros Hp. specialize (Hp eq_refl). by vm_compute in Hp.
Qed.
End DemoAwgConfig.
